(* ===== verification/_CoqProject ===== *)
-Q . S2P
Prelude.v
PyDict.v
PySeq.v
Contracts.v
AutoModels.v
AutoRules.v
AutoRulesFacts.v
AutoMemory.v
AutoInvariant.v
AutoStore.v
AutoStoreFacts.v
AutoStoreSafe.v
AutoClaims.v
AutoClaimLoop.v
AutoCommands.v
AutoSystem.v
AutoProps.v
AutoCalendar.v
AutoCron.v
AutoSchedules.v
AutoSchedulesFacts.v
AutoScheduleProps.v
PyLock.v
SandboxModels.v
SandboxState.v
SandboxInvariant.v
SandboxSafe.v
SandboxEffects.v
SandboxProps.v
MsgModels.v
MsgTransition.v
MsgMemory.v
MsgInvariant.v
MsgWorld.v
MsgStream.v
MsgApply.v
MsgKinds.v
MsgPrepare.v
MsgCleanup.v
MsgOps.v
MsgSpec.v
MsgExample.v
MsgProps.v
MsgLedger.v
MsgBackend.v
MsgFollow.v
MsgMemoryBackend.v
MsgTermination.v
MsgLedgerProps.v
TraceModels.v
TraceRedaction.v
TraceCapture.v
TraceCaptureFacts.v
TraceCaptureProps.v
TraceGraph.v
TraceGraphFacts.v
TraceLedger.v
TraceMemory.v
TraceSteps.v
TraceFacts.v
TraceInvariant.v
TraceSystem.v
TraceHistory.v
TraceFinal.v
TraceExample.v
TraceProps.v
TraceLocated.v
TraceQuery.v
TraceQueryFacts.v
TraceQueryProps.v
TraceStore.v
TraceEvidence.v
TraceStoreFacts.v
TraceRebuild.v
TraceStoreProps.v
TraceFollowReads.v
TraceFollow.v
TraceFollowFacts.v
TraceFollowInvariant.v
TraceFollowProps.v
