(* ===== verification/Prelude.v ===== *)
(** * Tinkerfin harness: automation, Sandbox ownership, messaging and tracing

    The repository is a harness for language-model agents: Python packages under
    src/packages and applications under src/apps.  This development models the
    parts that decide who may do what, and when:

    - the automation store (src/packages/tinkerfin-automation): scheduled tasks,
      their executions, and the work items that workers claim under leases;
    - the schedules of those tasks: cron expressions, intervals, misfires;
    - the ownership state of Sandboxes (src/packages/tinkerfin-sandbox): which
      owner a remote Sandbox belongs to, who may pause it, what awaits deletion;
    - messaging (src/packages/tinkerfin-messaging): the log of messages a run
      publishes to the subscribers of its thread, who may append to it - the
      backend - and the lifecycle of runs, followers and deletion - the ledger;
    - tracing (src/packages/tinkerfin-tracing): the ledger of semantic facts a run
      leaves behind, with its quotas, the graph index derived from them, and the
      redaction every payload passes before it becomes part of a fact.

    The scheduler asks a schedule for its due times and stores them as executions
    in the automation store; engines claim them as work items, start them once and
    report the outcome.  A target may run in a Sandbox, whose manager claims its
    owner in the ownership state before it binds, pauses or deletes it.  What a run
    says is committed to its thread's log, which clients replay and follow; what it
    does is recorded, as facts, in the trace ledger.

    ** Files

    Shared:
    - [Prelude]: the state and exception monad [M] with its notations in [py_scope],
      the results [res], the weakest preconditions [wp] with the tactics [wp_step]
      and [wp_go], and Python strings as lists of code points;
    - [PyDict]: insertion-ordered dictionaries; [PySeq]: sorting by a key and the
      order of strings; [PyLock]: [asyncio.Lock] with its queue of futures;
      [Contracts]: the identity of a run (tinkerfin_contracts) and JSON values.

    Automation store, src/packages/tinkerfin-automation/src/tinkerfin_automation:
    - [AutoModels]: models.py, policies.py, queries.py, _json.py, the records of
      store.py and the classes of errors.py, each dataclass with its constructor's
      checks; [AutoRules]: _rules.py, the transitions every store shares;
      [AutoRulesFacts]: what each of them does, on every branch;
    - [AutoMemory]: the state and the helpers of [MemoryAutomationStore]
      (memory.py) and _notifications.py; [AutoStore]: its public methods;
    - [AutoInvariant]: the invariant [inv] and the order [evolves] in which records
      may change; [AutoStoreFacts], [AutoStoreSafe], [AutoClaims], [AutoClaimLoop],
      [AutoCommands]: [inv] and [evolves] for each operation;
    - [AutoSystem]: a call as a [command], [run], and the worlds [reachable] by
      calls and [later] than others, with exceptions and notifications;
    - [AutoProps]: a concrete runtime and history, and the theorems.

    Schedules, schedules.py of the same package:
    - [AutoCalendar]: dates and ordinals of [datetime]; [AutoCron]: cron fields;
      [AutoSchedules]: the schedules, [next_run_after], previews and misfires;
      [AutoSchedulesFacts]: the occurrences they are compared with, as predicates
      on instants; [AutoScheduleProps]: a zone with a clock change, and the
      theorems.

    Sandbox ownership, src/packages/tinkerfin-sandbox/src/tinkerfin_sandbox:
    - [SandboxModels]: _purpose.py, availability.py and the records of
      lifecycle/state.py; [SandboxState]: [InMemoryOpenSandboxState], one definition
      per method, a call as a [request], and the boundary that wraps any state;
    - [SandboxInvariant], [SandboxSafe]: the invariant [winv] and what every request
      keeps; [SandboxEffects]: what a request leaves alone, and how one record,
      holder, slot or cleanup target moves; [SandboxProps].

    Messaging, src/packages/tinkerfin-messaging/src/tinkerfin_messaging:
    - [MsgModels]: backend_contract.py, models.py, limits.py, retention.py,
      _identity.py and the classes of errors.py; [MsgTransition]:
      _messaging_transition.py, one definition per kind of transition, from a
      snapshot of the stored state to the effect to apply; [MsgMemory]: the expiry
      index of _capacity.py and [MemoryBackend] of backend.py, one definition per
      method;
    - [MsgInvariant]: the invariant [winv] and the order [follows] in which logs,
      runs and generations move; [MsgWorld]: the expiry index, retiring and
      reclaiming; [MsgStream]: the ways one stream changes; [MsgApply]: what
      applying an effect does and a snapshot shows; [MsgKinds], [MsgPrepare],
      [MsgCleanup]: the effect of each kind of transition, and physical cleanup;
      [MsgOps]: every operation, a call as a
      [request], and the worlds [msg_later] than others;
    - [MsgSpec]: the log of a thread as an abstract machine, and pages as a filter;
      [MsgExample]; [MsgProps]: the theorems, with those on the commit digest;
    - [MsgLedger]: _messaging_ledger.py, each method an interaction tree over the
      calls it awaits; [MsgBackend]: the protocol [MessagingBackend] of
      backend_contract.py and what it promises ([BackendLaws]) as classes, runs of
      a method among other tasks ([run]), and the predicate transformer [lwp];
      [MsgFollow]: a method as a value ([method]), and what following, waiting and
      deleting establish; [MsgTermination]: methods that end; [MsgMemoryBackend]:
      the instances of both classes for [MemoryBackend]; [MsgLedgerProps].

    Tracing, src/packages/tinkerfin-tracing/src/tinkerfin_tracing:
    - [TraceModels]: facts.py, limits.py and the records of backend.py and store.py,
      each with its constructor's checks; [TraceGraph]: _graph_reducer.py, from
      facts to mutations and from mutations to the rows of the index;
      [TraceLedger]: _ledger.py, one definition per kind of change, from a snapshot
      to the effect to apply; [TraceMemory]: [_InMemoryTraceLedgerBackend] of
      durable_store.py, one definition per method;
    - [TraceGraphFacts]: what keeps a row well formed, that a batch touches only its
      own runs, and that the index is a fold over the log; [TraceSteps]: every
      commit as one of the steps [thread_step] of the thread it names;
      [TraceFacts]: events, their sizes, and the lifecycle of a run;
      [TraceInvariant]: the invariant [store_ok]; [TraceSystem]: the calls of the
      backend, the worlds [reachable] by them, and what pages and checkpoints hold;
      [TraceHistory]: how a thread and a writer evolve; [TraceFinal]: appends at the
      end of a run; [TraceExample]; [TraceProps]: the theorems;
    - [TraceLocated]: the events a row points at are those of its run;
      [TraceQuery]: [effective_graph_nodes] of _graph_reducer.py and
      [query_trace_graph] with its filter and requests; [TraceQueryFacts]: merging,
      selecting and pages; [TraceQueryProps]: the theorems;
    - [TraceStore]: the payload codec of codec.py as a class with its laws, and
      [DurableTraceStore] of durable_store.py with _prepared.py - the changes and
      reads it asks for and the checks it makes of every answer;
      [TraceEvidence]: changes as a store makes them, and that what the backend
      keeps is then the encoding of its events; [TraceStoreFacts]: the checks that
      always pass; [TraceRebuild]: rebuild_trace_graph, a method of several reads,
      among other tasks; [TraceStoreProps]: the theorems;
    - [TraceFollowReads]: _follow_reads.py, the reads that followers share and their
      bounded cache of pages; [TraceFollow]: [follow], [_wake_followers] and
      [_close_follow_change] of durable_store.py, each task as the steps it takes
      between its suspensions ([perform]), and their histories ([follow_step],
      [follow_reachable]); [TraceFollowFacts]: the cache, and what a page serves;
      [TraceFollowInvariant]: the invariant [follow_ok]; [TraceFollowProps]: the
      theorems;
    - [TraceRedaction]: redaction.py with [Attachment] of the contracts' media.py and
      [json.dumps], one definition per function; [TraceCapture]: capture.py, the
      policies with their validators and each method of [TraceCapturePipeline];
      [TraceCaptureFacts]: safe values, JSON Pointers and sizes; [TraceCaptureProps]:
      the theorems.

    ** What the theorems show

    - [AutoProps]: over every history of calls the store keeps its invariant and
      its concurrency bound; a call that raises publishes nothing and changes
      nothing, but for a [claim_work] whose lease would end beyond the last instant;
      an execution starts at most once and is final when settled; a superseded claim
      is refused for good; [claim_work] returns, when its lease can be stored.
    - [AutoScheduleProps]: the next run is the least occurrence after the instant and
      none means there is none, for an interval within 2^34 seconds of its anchor; an
      accepted cron expression fails only where a date leaves the range or nothing is
      selected for eight years; the cron search ends; previews chain; each misfire
      policy selects what it promises within its bounds; constructors accept
      exactly the valid schedules.
    - [SandboxProps]: owner and cleanup claims are exclusive and fenced; no waiter
      and no Sandbox is forgotten; a pause has the acknowledgement of every holder;
      purposes do not change; the boundary lets only State failures through.
    - [MsgProps]: every request refines the append-only log of each
      thread; capacity counters are exact and bounded; an append commits once; a
      run has one producer and a settled run none; a page is the part of the log
      that was asked for; a rejected transition changes nothing; purging ends; a
      waiter has seen all there is; the digest covers exactly what is committed.
    - [MsgLedgerProps]: on any backend with those laws and among any requests of
      other tasks, a follower is handed the log of one generation from its cursor
      on, each message once and, when it returns, all of the run's; a status that
      was waited for is final; a deleted generation is over; every method that
      does not wait for news ends.  Under the ledger MemoryBackend stays reachable,
      so what [MsgProps] says of reachable states holds there.
    - [TraceProps]: over every history of calls the trace ledger keeps its quotas,
      its numbering and its reserves; a writer that was taken over is fenced off; a
      log only grows; a run ends once, and the facts of its end find room, if each is
      within the limit of an event; the size an event carries is its own; the index is
      the replay of a log that can be replayed, as it can in every history where no
      commit that raised has changed a thread; a page
      is the part of the log that was asked for; a saved checkpoint is loaded.
    - [TraceQueryProps]: a client that reads the graph page by page gets every node
      that matches, once and in order; a page holds the scopes its nodes run in, and
      each node comes with the events of the log that establish it.
    - [TraceStoreProps]: over its own backend no check of a store fails: a change is
      what the backend commits, an append returns what it stored, reads return the
      part of the log that was asked for, a checkpoint comes back as it was saved;
      and a rebuild of the index, among other tasks, changes nothing.
    - [TraceFollowProps]: a follower is handed the part of the log between its start
      and its cursor, each event once and in order; one that is behind gets further
      by itself within a poll interval; one that waits, at the revision of its
      generation, has seen the whole log; the cache keeps within its bounds.
    - [TraceCaptureProps]: what is retained of a payload holds no credential and no
      private reasoning, and of an attachment only the reference, whatever a business
      redactor does;
      redacting again changes nothing; a path that is redacted holds nothing and the
      others are as they were; an inline value keeps its budget and carries its exact
      size, and capturing fails with no other error, if paths can be read; what is kept of a tool is what its setting says.
    - Some theorems are closed counterexamples, to what the code or its documentation
      promises: [overflow_strands_the_item] and [distant_anchor_drops_a_due_run] of
      automation, [rebinding_revives_acknowledgement] of the Sandbox state,
      [expired_under_a_waiter] and [negative_bound_wraps] of the messaging backend,
      [refused_batch_is_committed], [unencodable_text_escapes] and
      [long_index_escapes] of tracing.

    ** Conventions

    - An exception keeps its class; its message is not modelled.  An exception
      leaves the state as it was when it was raised ([M]).
    - Instants and durations are integers of microseconds; in automation instants
      count from 0001-01-01, and one that leaves the range of [datetime] raises
      [OverflowError] ([check_range]) where the code adds, with what it has already
      changed left changed.  Readings of a clock are instants of [datetime].  The end
      of a trace writer's lease is bounded by [datetime_max] in the same way.
    - Clock readings, tokens and uuids are streams: the n-th reading is a function
      of n ([Runtime], [FreshTokens], [SandboxEnv], [FreshUuids]); the laws say
      that the clock does not go back and that tokens are distinct.
    - A method of the automation store holds the store's lock throughout, so it is
      one step.  A method of the Sandbox state runs without yielding, except where
      it awaits an owner's lock: there the model has three steps, the call itself,
      [resume] and [cancel_wait].
    - An operation of the messaging backend is one step: it takes the lock of its
      channel and the condition of its stream, but suspends only in
      [condition.wait()], which releases it, so neither is ever contended.  A wait
      is modelled by its start and by its end, a notification or [stop_waiting].
      Monotonic instants and the replay window are integers of any unit, as they
      are only added and compared.  heapq is used through its least entry and its
      size: the heap is the sorted list of its entries.  A [RunIdentity] rebuilt
      from stored parts is not validated again.
    - A method of the ledger suspends at each call it awaits and at each item it
      yields: [run] lets the other tasks change the backend before every one of
      them, and between the start and the end of a wait.  Cancellation of the task
      itself, which abandons the rest of the method, is a run that has not ended
      ([Running]), and the theorems about safety hold of those as well.
    - An operation of the in-memory trace backend holds its condition throughout and
      awaits nothing inside, so it is one step.  Clients of one ledger share its
      limits, as one store gives them to all its changes.  Rows of the graph index
      are mutable objects that no one else holds, so a row is a value of the index.
      Run identifiers are those [RunIdentity] accepts, so the snapshots of active
      writers are always accepted by their class.
    - rebuild_trace_graph suspends at each of its reads: it is a [prog], and [runs]
      lets other tasks of stores change the backend before every one of them.  The
      other methods of a store await the backend once.
    - A follower suspends at its shared read, at its [yield] and at its wait: between
      these it takes one step of [perform].  A shared read is referred to by its
      order; the eight slots of concurrent reads are never all taken, as the
      in-memory backend answers without suspending.  Between a commit and the
      wake-up of the followers ([fw_owed]) other tasks may run; the change to wake is
      looked up when it is woken.  A deadline is a monotonic instant and [Tick] lets
      time pass.  The store has no Notifications, so peers of the store append
      without waking its followers ([others]).
    - A deep copy of an immutable record is the record; [dataclasses.replace] runs
      the constructor's checks again ([replace_execution]).
    - Arguments whose type Python checks at run time are [pyobj]; others have the
      annotated type.
    - The JSON key of a thread and SHA-256 are parameters ([MessagingEnv],
      [Sha256]); [ThreadKeys] states that the key tells threads apart, and
      [MonotonicClock] that the monotonic clock does not go back.  So are the JSON
      size of an event ([TraceJson]), of which [TraceJsonLaws] says that only the
      digits of its own size vary, and the digest of a graph scope ([ScopeHash]).
      Nodes of equal start are ordered by a digest of their identifiers
      ([NodeOrder]), which tells identifiers apart ([NodeOrderLaws]).  A codec is
      a [TraceCodec]; [TraceCodecLaws] says that what was encoded can be read back:
      codec.py asks it of every subclass, and its own codec writes JSON, which keeps
      a value up to the order of keys ([reread]).
    - Unicode tables, time zones, the encoding of page cursors and the digest of an
      owner are parameters ([Unicode], [TimeZones], [CursorCodec], [SandboxEnv]).
      [ZoneLaws] states PEP 495 for a zone; [dates_advance] that its date never goes
      back, without which the cut at [active_until] in schedules.py could end the
      search early.
    - An argument of redaction that may be any object is a tree [PyValue]; an object
      that contains itself is cut at its inner occurrence.  A business redactor
      ([TraceRedactor]) is a parameter: what a call does, and how its argument encodes
      afterwards.  [str.casefold], the text of a float and what pydantic makes of a
      field's value are parameters ([CaptureEnv]); [CaptureLaws] says that ASCII
      letters are folded and that a field accepts what it has produced.  Exceptions
      that are no [Exception], and the recursion limit, are left out.
    - Floats: [total_seconds] is exact below 2^34 seconds, which [supported] asks of
      an interval's distance to its anchor; beyond it [float_quotient] rounds as
      binary64 does.

    ** Bounds and fuel

    The cron search counts days: its fuel is the number of days to the end of the
    eighth year after the start, where the code gives up, and [cron_search_ends]
    shows that it is never used up.  The scan of misfires has the code's own bound
    of 100,000.  [claim_work] recurses over the candidates it has read.
    Reclaiming expired runs has the code's bound of 64 per call, and the loops of
    a purge have the number of stored messages and runs as their fuel; so has the
    replay of a prefix of the trace, of which every page holds an event.  The loops
    of the ledger have no fuel ([ITree.iter]); the number of steps [run] takes is how
    long one looks, and [methods_end] shows that some number is enough.

    ** Hypotheses of the theorems

    [admissible] says what the callers of a store or state guarantee: an execution
    is new when it is enqueued, a task does not wait twice, and a claim does not
    return to a Sandbox it has replaced while a holder is registered for it.  The
    [admissible] of [MsgCleanup] says that a preparation names no run reference,
    which the ledger never gives it ([ledger_keeps_the_backend]).  [BackendLaws] is
    what the ledger relies on in a backend, proved for MemoryBackend.
    [waiting_follower_has_seen_all] is about histories in which peers of the store
    neither append nor delete ([quiet_calls]) and no commit that raises has changed a log
    ([whole]), which [refused_batch_is_committed] shows a commit can do.

    ** Not modelled

    The SQL stores (the same contracts over a database's statements), the engines,
    services and HTTP layers around the modelled state, the LangGraph runtime and
    its streams, the projection and sessions of tracing, the channels and
    the SQL and Redis backends of messaging, remote devices, and the applications:
    they perform input and output or drive third-party code.  In the modelled files:
    schedule_to_json and schedule_from_json (pydantic serialization),
    [supports_warm_pool_reconciliation], and of [DurableTraceStore] the heartbeats of
    writers with leases, the listener and the publishing of Notifications, and the
    decoding of query pages. *)
From stdpp Require Export base tactics list gmap.
From Stdlib Require Export ZArith Lia.
From Stdlib Require Import Ascii String.
#[global] Open Scope Z_scope.
#[global] Set Default Goal Selector "!".

Declare Scope py_scope.
Delimit Scope py_scope with py.
#[global] Open Scope py_scope.

(** ** Computations that mutate an object and may raise

    A Python method mutates its object in place and may raise; an exception
    does not roll anything back, so the state reached at the [raise] is part of
    the outcome.  [M S E A] is therefore a state transformer whose result is
    either a value or an exception, always together with the state. *)

Inductive res (E A : Type) : Type :=
| Ok (a : A)
| Raise (e : E).
Arguments Ok {E A} a.
Arguments Raise {E A} e.

Definition M (S E A : Type) : Type := S -> res E A * S.

Definition ret {S E A} (a : A) : M S E A := fun s => (Ok a, s).

Definition raise {S E A} (e : E) : M S E A := fun s => (Raise e, s).

Definition bind {S E A B} (m : M S E A) (f : A -> M S E B) : M S E B :=
  fun s => match m s with
           | (Ok a, s') => f a s'
           | (Raise e, s') => (Raise e, s')
           end.

Notation "'let*' x ':=' m 'in' k" := (bind m (fun x => k))
  (at level 10, x name, m at level 200, k at level 200) : py_scope.
Notation "'do*' m 'in' k" := (bind m (fun _ => k))
  (at level 10, m at level 200, k at level 200) : py_scope.

Definition gets {S E A} (f : S -> A) : M S E A := fun s => (Ok (f s), s).

Definition modify {S E} (f : S -> S) : M S E unit := fun s => (Ok tt, f s).

(** [if b: raise e] *)
Definition raise_if {S E} (b : bool) (e : E) : M S E unit :=
  if b then raise e else ret tt.

(** [when b m] is an [if] statement without [else]. *)
Definition when {S E} (b : bool) (m : M S E unit) : M S E unit :=
  if b then m else ret tt.

(** A call of pure code that may raise. *)
Definition lift {S E A} (r : res E A) : M S E A := fun s => (r, s).

(** [x is None] handled by raising. *)
Definition some_or {S E A} (o : option A) (e : E) : M S E A :=
  match o with Some a => ret a | None => raise e end.

Fixpoint for_each {S E A} (f : A -> M S E unit) (l : list A) : M S E unit :=
  match l with
  | [] => ret tt
  | x :: l' => do* f x in for_each f l'
  end.

(** A pure computation that may raise. *)
Definition rbind {E A B} (r : res E A) (f : A -> res E B) : res E B :=
  match r with Ok a => f a | Raise e => Raise e end.

Notation "'let?' x ':=' m 'in' k" := (rbind m (fun x => k))
  (at level 10, x name, m at level 200, k at level 200) : py_scope.
Notation "'do?' m 'in' k" := (rbind m (fun _ => k))
  (at level 10, m at level 200, k at level 200) : py_scope.

Definition rraise_if {E} (b : bool) (e : E) : res E unit :=
  if b then Raise e else Ok tt.

(** ** Python values of an unknown type, as far as [isinstance] looks at them *)

Abbreviation pystr := (list Z).

Inductive pyobj : Type :=
| PyNone
| PyBool (b : bool)
| PyInt (z : Z)
| PyStr (s : pystr)
| PyOther.

(** ASCII literals as Python strings (lists of code points). *)
Definition u (s : String.string) : pystr :=
  map (fun a => Z.of_N (N_of_ascii a)) (String.list_ascii_of_string s).

(** [sum(1 for x in l if f x)] *)
Definition count {A} (f : A -> bool) (l : list A) : Z :=
  Z.of_nat (List.length (List.filter f l)).

(** [len(l)] *)
Definition zlen {A} (l : list A) : Z := Z.of_nat (List.length l).

(** ** Results *)

Lemma rbind_ok {E A B} (r : res E A) (f : A -> res E B) b :
  rbind r f = Ok b <-> exists a, r = Ok a /\ f a = Ok b.
Proof.
  destruct r; simpl; split; [eauto|by intros (? & [= ->] & ?)|done|by intros (? & [=] & _)].
Qed.

Lemma ok_inj {E A} (a b : A) : @Ok E A a = Ok b -> a = b.
Proof. by intros [= ->]. Qed.

Lemma rbind_tt {E} (r r' : res E unit) :
  (do? r in r') = Ok tt <-> r = Ok tt /\ r' = Ok tt.
Proof. rewrite rbind_ok. split; [intros ([] & ? & ?); done|intros [? ?]; eauto]. Qed.

Lemma rraise_if_ok {E} (b : bool) (e : E) x : rraise_if b e = Ok x <-> b = false.
Proof. destruct b, x; done. Qed.

(** ** Weakest preconditions

    [wp m s Q] states that running [m] from [s] ends in an outcome and a state
    that satisfy [Q]; every computation of the model terminates, so this is
    total correctness. *)

Definition wp {S E A} (m : M S E A) (s : S) (Q : res E A -> S -> Prop) : Prop :=
  Q (m s).1 (m s).2.

Lemma wp_ret {S E A} (a : A) (s : S) (Q : res E A -> S -> Prop) :
  Q (Ok a) s -> wp (ret a) s Q.
Proof. done. Qed.

Lemma wp_raise {S E A} (e : E) (s : S) (Q : res E A -> S -> Prop) :
  Q (Raise e) s -> wp (raise e) s Q.
Proof. done. Qed.

Lemma wp_bind {S E A B} (m : M S E A) (f : A -> M S E B) s (Q : res E B -> S -> Prop) :
  wp m s (fun r s' => match r with
                      | Ok a => wp (f a) s' Q
                      | Raise e => Q (Raise e) s'
                      end) ->
  wp (bind m f) s Q.
Proof. unfold wp, bind. destruct (m s) as [[a|e] s']; done. Qed.

Lemma wp_gets {S E A} (f : S -> A) s (Q : res E A -> S -> Prop) :
  Q (Ok (f s)) s -> wp (gets f) s Q.
Proof. done. Qed.

Lemma wp_modify {S E} (f : S -> S) s (Q : res E unit -> S -> Prop) :
  Q (Ok tt) (f s) -> wp (modify f) s Q.
Proof. done. Qed.

Lemma wp_raise_if {S E} (b : bool) (e : E) (s : S) Q :
  (b = true -> Q (Raise e) s) -> (b = false -> Q (Ok tt) s) -> wp (raise_if b e) s Q.
Proof. destruct b; intros H1 H2; [by apply H1 | by apply H2]. Qed.

Lemma wp_when {S E} (b : bool) (m : M S E unit) (s : S) Q :
  (b = true -> wp m s Q) -> (b = false -> Q (Ok tt) s) -> wp (when b m) s Q.
Proof. destruct b; intros H1 H2; [by apply H1 | by apply H2]. Qed.

Lemma wp_lift {S E A} (r : res E A) (s : S) (Q : res E A -> S -> Prop) :
  Q r s -> wp (lift r) s Q.
Proof. done. Qed.

Lemma wp_some_or {S E A} (o : option A) (e : E) (s : S) (Q : res E A -> S -> Prop) :
  (forall a, o = Some a -> Q (Ok a) s) -> (o = None -> Q (Raise e) s) ->
  wp (some_or o e) s Q.
Proof. destruct o; intros H1 H2; [by apply H1 | by apply H2]. Qed.

Lemma wp_mono {S E A} (m : M S E A) s (Q Q' : res E A -> S -> Prop) :
  wp m s Q -> (forall r s', Q r s' -> Q' r s') -> wp m s Q'.
Proof. unfold wp. eauto. Qed.

Lemma wp_elim {S E A} (m : M S E A) s r s' (Q : res E A -> S -> Prop) :
  wp m s Q -> m s = (r, s') -> Q r s'.
Proof. unfold wp. intros H E1. by rewrite E1 in H. Qed.

Lemma wp_intro {S E A} (m : M S E A) s (Q : res E A -> S -> Prop) :
  (forall r s', m s = (r, s') -> Q r s') -> wp m s Q.
Proof. unfold wp. destruct (m s) as [r s'] eqn:E1. eauto. Qed.

Lemma wp_returned {S E A} (m : M S E A) s a s' (P : A -> S -> Prop) :
  m s = (Ok a, s') -> wp m s (fun r s' => match r with Ok a => P a s' | Raise _ => True end) ->
  P a s'.
Proof. intros Hm H. unfold wp in H. by rewrite Hm in H. Qed.

Lemma wp_raised {S E A} (m : M S E A) s e s' (P : S -> Prop) :
  m s = (Raise e, s') -> wp m s (fun r s' => match r with Ok _ => True | Raise _ => P s' end) ->
  P s'.
Proof. intros Hm H. unfold wp in H. by rewrite Hm in H. Qed.

(** A loop keeps whatever every iteration keeps; the first raising iteration
    ends it. *)
Lemma wp_for_each {S E A} (I : S -> Prop) (Q : res E unit -> S -> Prop)
    (f : A -> M S E unit) (l : list A) s :
  I s ->
  (forall x s1, x ∈ l -> I s1 ->
     wp (f x) s1 (fun r s2 => match r with Ok _ => I s2 | Raise e => Q (Raise e) s2 end)) ->
  (forall s1, I s1 -> Q (Ok tt) s1) ->
  wp (for_each f l) s Q.
Proof.
  revert s. induction l as [|x l IH]; intros s Hs Hf HQ; simpl.
  - apply wp_ret. by apply HQ.
  - apply wp_bind. eapply wp_mono; [apply Hf; [left | done]|].
    intros [[]|e] s2; [|done]. intros Hs2. apply IH; [done| |done].
    intros y s3 Hy. apply Hf. by right.
Qed.

(** ** Tactics *)

#[global] Create HintDb py.
#[export] Hint Resolve wp_ret wp_raise wp_gets wp_modify wp_lift : py.

Ltac wp_step :=
  match goal with
  | |- wp (bind _ _) _ _ => apply wp_bind
  | |- wp (ret _) _ _ => apply wp_ret
  | |- wp (raise _) _ _ => apply wp_raise
  | |- wp (gets _) _ _ => apply wp_gets
  | |- wp (modify _) _ _ => apply wp_modify
  | |- wp (lift _) _ _ => apply wp_lift
  | |- wp (raise_if _ _) _ _ => apply wp_raise_if; [intros ? | intros ?]
  | |- wp (when _ _) _ _ => apply wp_when; [intros ? | intros ?]
  | |- wp (some_or _ _) _ _ => apply wp_some_or; [intros ? ? | intros ?]
  | |- wp (let '(_, _) := ?p in _) _ _ => destruct p eqn:?
  | |- wp (if ?b then _ else _) _ _ => destruct b eqn:?
  | |- wp (match ?o with _ => _ end) _ _ => destruct o eqn:?
  end; cbn beta iota.

Ltac wp_go := repeat wp_step.

(** Boolean guards as propositions. *)
Ltac bool_prop :=
  repeat match goal with
  | H : _ && _ = true |- _ => apply andb_prop in H; destruct H
  | H : _ || _ = false |- _ => apply orb_false_elim in H; destruct H
  | H : negb _ = true |- _ => apply negb_true_iff in H
  | H : negb _ = false |- _ => apply negb_false_iff in H
  | H : bool_decide _ = true |- _ => apply bool_decide_eq_true_1 in H
  | H : bool_decide _ = false |- _ => apply bool_decide_eq_false_1 in H
  | H : (_ <? _) = true |- _ => apply Z.ltb_lt in H
  | H : (_ <? _) = false |- _ => apply Z.ltb_ge in H
  | H : (_ <=? _) = true |- _ => apply Z.leb_le in H
  | H : (_ <=? _) = false |- _ => apply Z.leb_gt in H
  | H : (_ =? _) = true |- _ => apply Z.eqb_eq in H
  | H : (_ =? _) = false |- _ => apply Z.eqb_neq in H
  end.

(** The steps of a computation that returned. *)
Ltac res_inv :=
  repeat match goal with
  | H : rbind _ _ = Ok _ |- _ => apply rbind_ok in H as (? & ? & H)
  | H : rraise_if _ _ = Ok _ |- _ => apply rraise_if_ok in H
  end.

Tactic Notation "tsplit" := repeat match goal with |- _ /\ _ => split end.
