(* ===== verification/PyDict.v ===== *)
(** Python dictionaries.  A [dict] iterates in insertion order: assigning to a
    present key keeps its position, assigning to an absent one appends, deleting
    removes the entry.  The model is the list of entries; [dwf] states that no
    key occurs twice, which every operation preserves. *)
From S2P Require Import Prelude.

Definition dict (K V : Type) : Type := list (K * V).

Section dict.
Context {K V : Type} `{EqDecision K}.
Implicit Types (d : dict K V) (k : K) (v : V).

(** [d.get(k)] *)
Fixpoint dget (d : dict K V) (k : K) : option V :=
  match d with
  | [] => None
  | (k', v) :: d' => if decide (k = k') then Some v else dget d' k
  end.

(** [k in d] *)
Definition dmem (d : dict K V) (k : K) : bool :=
  match dget d k with Some _ => true | None => false end.

(** [d[k] = v] *)
Fixpoint dset (d : dict K V) (k : K) (v : V) : dict K V :=
  match d with
  | [] => [(k, v)]
  | (k', v') :: d' => if decide (k = k') then (k', v) :: d' else (k', v') :: dset d' k v
  end.

(** [d.pop(k, None)] *)
Fixpoint ddel (d : dict K V) (k : K) : dict K V :=
  match d with
  | [] => []
  | (k', v') :: d' => if decide (k = k') then ddel d' k else (k', v') :: ddel d' k
  end.

(** [d.setdefault(k, v)] *)
Definition dsetdefault (d : dict K V) (k : K) (v : V) : dict K V :=
  match dget d k with Some _ => d | None => dset d k v end.

(** Mutation of the object stored under [k], if there is one. *)
Definition dupd (d : dict K V) (k : K) (f : V -> V) : dict K V :=
  match dget d k with Some v => dset d k (f v) | None => d end.

(** A loop [for v in d.values(): mutate v]. *)
Definition dmap (f : V -> V) (d : dict K V) : dict K V := map (prod_map id f) d.

Definition dkeys (d : dict K V) : list K := map fst d.
Definition dvals (d : dict K V) : list V := map snd d.

Definition dwf (d : dict K V) : Prop := NoDup (dkeys d).

Lemma dget_nil k : dget ([] : dict K V) k = None.
Proof. done. Qed.

Lemma dget_dset_eq d k v : dget (dset d k v) k = Some v.
Proof.
  induction d as [|[k' v'] d IH]; simpl.
  - by rewrite decide_True.
  - destruct (decide (k = k')) as [->|Hne]; simpl.
    + by rewrite decide_True.
    + by rewrite decide_False.
Qed.

Lemma dget_dset_ne d k k' v : k <> k' -> dget (dset d k v) k' = dget d k'.
Proof.
  intros Hne. induction d as [|[k1 v1] d IH]; simpl.
  - by rewrite decide_False by congruence.
  - destruct (decide (k = k1)) as [->|?]; simpl; [|by rewrite IH].
    by rewrite !decide_False by congruence.
Qed.

Lemma dget_dset d k k' v :
  dget (dset d k v) k' = if decide (k = k') then Some v else dget d k'.
Proof.
  destruct (decide (k = k')) as [->|Hne]; [apply dget_dset_eq | by apply dget_dset_ne].
Qed.

Lemma dget_ddel_eq d k : dget (ddel d k) k = None.
Proof.
  induction d as [|[k' v'] d IH]; simpl; [done|].
  destruct (decide (k = k')) as [->|Hne]; simpl; [done|]. by rewrite decide_False.
Qed.

Lemma dget_ddel_ne d k k' : k <> k' -> dget (ddel d k) k' = dget d k'.
Proof.
  intros Hne. induction d as [|[k1 v1] d IH]; simpl; [done|].
  destruct (decide (k = k1)) as [->|?]; simpl.
  - by rewrite decide_False by congruence.
  - by rewrite IH.
Qed.

Lemma dget_ddel d k k' :
  dget (ddel d k) k' = if decide (k = k') then None else dget d k'.
Proof.
  destruct (decide (k = k')) as [->|Hne]; [apply dget_ddel_eq | by apply dget_ddel_ne].
Qed.

Lemma dget_dupd d k k' f :
  dget (dupd d k f) k' = if decide (k = k') then f <$> dget d k' else dget d k'.
Proof.
  unfold dupd. destruct (dget d k) as [v|] eqn:E1.
  - rewrite dget_dset. destruct (decide (k = k')) as [->|]; [by rewrite E1|done].
  - destruct (decide (k = k')) as [->|]; [by rewrite E1|done].
Qed.

Lemma dget_dmap d k f : dget (dmap f d) k = f <$> dget d k.
Proof.
  induction d as [|[k1 v1] d IH]; simpl; [done|]. by destruct (decide (k = k1)).
Qed.

Lemma dmem_true d k : dmem d k = true <-> is_Some (dget d k).
Proof.
  unfold dmem. destruct (dget d k); split; [eauto|done|done|by intros [? [=]]].
Qed.

Lemma dmem_false d k : dmem d k = false <-> dget d k = None.
Proof. unfold dmem. by destruct (dget d k). Qed.

Lemma dkeys_dset d k v :
  dkeys (dset d k v) = if dmem d k then dkeys d else dkeys d ++ [k].
Proof.
  unfold dmem. induction d as [|[k1 v1] d IH]; simpl; [done|].
  destruct (decide (k = k1)) as [->|]; simpl; [done|].
  rewrite IH. by destruct (dget d k).
Qed.

Lemma dkeys_dmap d f : dkeys (dmap f d) = dkeys d.
Proof. unfold dkeys, dmap. rewrite map_map. by apply map_ext. Qed.

Lemma dkeys_dupd d k f : dkeys (dupd d k f) = dkeys d.
Proof.
  unfold dupd. destruct (dget d k) eqn:E1; [|done].
  rewrite dkeys_dset. unfold dmem. by rewrite E1.
Qed.

Lemma elem_of_dkeys d k : k ∈ dkeys d <-> is_Some (dget d k).
Proof.
  induction d as [|[k1 v1] d IH]; simpl.
  - split; [by intros ?%elem_of_nil | by intros [? [=]]].
  - rewrite elem_of_cons, IH. destruct (decide (k = k1)) as [->|Hne]; [naive_solver|].
    split; [by intros [?|?] | auto].
Qed.

Lemma not_elem_of_dkeys d k : k ∉ dkeys d <-> dget d k = None.
Proof. rewrite elem_of_dkeys. rewrite <-not_eq_None_Some. destruct (dget d k); naive_solver. Qed.

Lemma dget_elem_of d k v : dget d k = Some v -> (k, v) ∈ d.
Proof.
  induction d as [|[k1 v1] d IH]; simpl; [done|].
  destruct (decide (k = k1)) as [->|]; intros E1; [simplify_eq; by left|].
  right. auto.
Qed.

Lemma elem_of_dget d k v : dwf d -> (k, v) ∈ d -> dget d k = Some v.
Proof.
  unfold dwf. induction d as [|[k1 v1] d IH]; simpl; [by intros _ ?%elem_of_nil|].
  intros [Hn Hd]%NoDup_cons [E1|Hin]%elem_of_cons.
  - simplify_eq. by rewrite decide_True.
  - rewrite decide_False; [auto|]. intros ->. apply Hn.
    apply elem_of_dkeys. rewrite (IH Hd Hin). eauto.
Qed.

Lemma elem_of_dvals d v : dwf d -> v ∈ dvals d <-> exists k, dget d k = Some v.
Proof.
  intros Hd. unfold dvals. rewrite list_elem_of_In, in_map_iff. split.
  - intros ([k v'] & <- & Hin). exists k. apply elem_of_dget; [done|].
    by apply list_elem_of_In.
  - intros [k Hk]. exists (k, v). split; [done|]. apply list_elem_of_In.
    by apply dget_elem_of.
Qed.

Lemma dget_elem_of_dvals d k v : dget d k = Some v -> v ∈ dvals d.
Proof.
  intros H. apply dget_elem_of in H. unfold dvals.
  apply list_elem_of_In, in_map_iff. exists (k, v). split; [done|]. by apply list_elem_of_In.
Qed.

Lemma dwf_nil : dwf ([] : dict K V).
Proof. apply NoDup_nil_2. Qed.

Lemma dwf_dset d k v : dwf d -> dwf (dset d k v).
Proof.
  unfold dwf. rewrite dkeys_dset. destruct (dmem d k) eqn:E1; [done|].
  intros H. apply NoDup_app. split; [done|]. split.
  - intros x Hx ->%list_elem_of_singleton. apply dmem_false in E1.
    by apply not_elem_of_dkeys in E1.
  - apply NoDup_singleton.
Qed.

Lemma dkeys_ddel_subseteq d k k' : k' ∈ dkeys (ddel d k) -> k' ∈ dkeys d.
Proof.
  rewrite !elem_of_dkeys, dget_ddel. by destruct (decide (k = k')); [intros [? [=]]|].
Qed.

Lemma dwf_ddel d k : dwf d -> dwf (ddel d k).
Proof.
  unfold dwf. induction d as [|[k1 v1] d IH]; simpl; [done|].
  intros [Hn Hd]%NoDup_cons. destruct (decide (k = k1)); [auto|]. simpl.
  apply NoDup_cons. split; [|auto]. intros Hin. apply Hn. by eapply dkeys_ddel_subseteq.
Qed.

Lemma dwf_dupd d k f : dwf d -> dwf (dupd d k f).
Proof. unfold dwf. by rewrite dkeys_dupd. Qed.

Lemma dwf_dmap d f : dwf d -> dwf (dmap f d).
Proof. unfold dwf. by rewrite dkeys_dmap. Qed.

Lemma dset_absent d k v : dget d k = None -> dset d k v = d ++ [(k, v)].
Proof.
  induction d as [|[k1 v1] d IH]; simpl; [done|].
  destruct (decide (k = k1)); [done|]. intros H. by rewrite IH.
Qed.

Lemma dset_same d k v : dget d k = Some v -> dset d k v = d.
Proof.
  induction d as [|[k1 v1] d IH]; simpl; [done|].
  destruct (decide (k = k1)); intros H; [congruence|]. by rewrite IH.
Qed.

Lemma zlen_dset d k v :
  zlen (dset d k v) = zlen d + (if dmem d k then 0 else 1).
Proof.
  unfold zlen, dmem. induction d as [|[k1 v1] d IH]; simpl; [done|].
  destruct (decide (k = k1)) as [->|]; simpl; [lia|].
  rewrite !Nat2Z.inj_succ, IH. lia.
Qed.

Lemma zlen_dset_le d k v : zlen (dset d k v) <= zlen d + 1.
Proof. rewrite zlen_dset. destruct (dmem d k); lia. Qed.

Lemma zlen_dmap f d : zlen (dmap f d) = zlen d.
Proof. unfold zlen, dmap. by rewrite length_map. Qed.

Lemma zlen_dupd d k f : zlen (dupd d k f) = zlen d.
Proof.
  unfold dupd. destruct (dget d k) eqn:E1; [|done].
  rewrite zlen_dset. unfold dmem. rewrite E1. lia.
Qed.

Lemma zlen_ddel_le d k : zlen (ddel d k) <= zlen d.
Proof.
  unfold zlen. induction d as [|[k1 v1] d IH]; simpl; [done|].
  destruct (decide (k = k1)); simpl; lia.
Qed.

(** How replacing one entry changes a count over the values. *)
Definition ocount (f : V -> bool) (o : option V) : Z :=
  match o with Some v => if f v then 1 else 0 | None => 0 end.

Lemma count_dset f d k v :
  count f (dvals (dset d k v)) =
  count f (dvals d) - ocount f (dget d k) + (if f v then 1 else 0).
Proof.
  unfold count, dvals. induction d as [|[k1 v1] d IH]; simpl.
  - destruct (f v); simpl; lia.
  - destruct (decide (k = k1)) as [->|]; simpl.
    + destruct (f v), (f v1); simpl; lia.
    + destruct (f v1); simpl length; rewrite ?Nat2Z.inj_succ; lia.
Qed.

Lemma count_change f g d k v :
  dwf d -> dget d k = Some v ->
  (forall k' v', k' <> k -> dget d k' = Some v' -> g v' = f v') ->
  count g (dvals d) =
  count f (dvals d) - (if f v then 1 else 0) + (if g v then 1 else 0).
Proof.
  unfold dwf, dvals. induction d as [|[k1 v1] d IH]; simpl; [done|].
  intros [Hn Hd]%NoDup_cons Hg Hf.
  assert (forall (h : V -> bool) (l : list V),
    count h (v1 :: l) = (if h v1 then 1 else 0) + count h l) as Hc.
  { intros h l. unfold count. simpl. destruct (h v1); simpl length; lia. }
  rewrite !Hc. destruct (decide (k = k1)) as [->|Hne].
  - simplify_eq. replace (count g (map snd d)) with (count f (map snd d)); [lia|].
    unfold count. do 2 f_equal. apply List.filter_ext_in. intros v' Hin.
    apply list_elem_of_In, (elem_of_dvals d v' Hd) in Hin as [k' Hk'].
    symmetry. apply (Hf k').
    + intros ->. apply Hn. apply elem_of_dkeys. eauto.
    + rewrite decide_False; [done|]. intros ->. apply Hn. apply elem_of_dkeys. eauto.
  - rewrite IH; [|done|done|].
    + rewrite (Hf k1 v1); [lia|done|]. by rewrite decide_True.
    + intros k' v' Hne' Hk'. apply (Hf k'); [done|]. rewrite decide_False; [done|].
      intros ->. apply Hn. apply elem_of_dkeys. eauto.
Qed.

End dict.

#[export] Hint Resolve dwf_nil dwf_dset dwf_ddel dwf_dupd dwf_dmap : py.

Lemma zlen_cons {A} (x : A) l : zlen (x :: l) = zlen l + 1.
Proof. unfold zlen. simpl length. lia. Qed.

Lemma zlen_nonneg {A} (l : list A) : 0 <= zlen l.
Proof. unfold zlen. lia. Qed.

Lemma zlen_app {A} (l k : list A) : zlen (l ++ k) = zlen l + zlen k.
Proof. unfold zlen. rewrite length_app. lia. Qed.

Lemma zlen_map {A B} (f : A -> B) (l : list A) : zlen (map f l) = zlen l.
Proof. unfold zlen. by rewrite length_map. Qed.

(** [count] over lists *)
Section count.
Context {A : Type}.
Implicit Types (f g : A -> bool) (l : list A).

Lemma count_nonneg f l : 0 <= count f l.
Proof. unfold count. lia. Qed.

Lemma count_app f l1 l2 : count f (l1 ++ l2) = count f l1 + count f l2.
Proof. unfold count. rewrite List.filter_app, length_app. lia. Qed.

Lemma count_cons f x l : count f (x :: l) = (if f x then 1 else 0) + count f l.
Proof. unfold count. simpl. destruct (f x); simpl length; lia. Qed.

Lemma count_le f g l : (forall x, x ∈ l -> f x = true -> g x = true) -> count f l <= count g l.
Proof.
  induction l as [|x l IH]; intros H; [done|]. rewrite !count_cons.
  specialize (IH (fun y Hy => H y ltac:(by right))).
  pose proof (H x ltac:(by left)). destruct (f x), (g x); naive_solver lia.
Qed.

Lemma count_ext f g l : (forall x, x ∈ l -> f x = g x) -> count f l = count g l.
Proof.
  induction l as [|x l IH]; intros H; [done|]. rewrite !count_cons.
  rewrite (H x ltac:(by left)), IH; [done|]. intros y Hy. apply H. by right.
Qed.

Lemma count_zlen f l : count f l <= zlen l.
Proof. unfold count, zlen. pose proof (List.filter_length_le f l). lia. Qed.

Lemma count_pos f l x : x ∈ l -> f x = true -> 1 <= count f l.
Proof.
  induction l as [|y l IH]; [by intros ?%elem_of_nil|].
  rewrite count_cons. intros [->|Hin]%elem_of_cons Hf.
  - rewrite Hf. pose proof (count_nonneg f l). lia.
  - specialize (IH Hin Hf). destruct (f y); lia.
Qed.
End count.

(** Sums over lists and over the values of a dictionary. *)
Fixpoint zsum {A} (f : A -> Z) (l : list A) : Z :=
  match l with [] => 0 | x :: l' => f x + zsum f l' end.

Definition dsum {K V} (f : V -> Z) (d : dict K V) : Z := zsum f (dvals d).

Definition oval {V} (f : V -> Z) (o : option V) : Z :=
  match o with Some v => f v | None => 0 end.

Section sums.
Context {K V : Type} `{EqDecision K}.
Implicit Types (d : dict K V) (k : K) (v : V) (f g : V -> Z).

Lemma zsum_app {A} (h : A -> Z) l1 l2 : zsum h (l1 ++ l2) = zsum h l1 + zsum h l2.
Proof. induction l1 as [|x l1 IH]; simpl; lia. Qed.

Lemma zsum_ext {A} (h1 h2 : A -> Z) l : (forall x, x ∈ l -> h1 x = h2 x) -> zsum h1 l = zsum h2 l.
Proof.
  induction l as [|x l IH]; intros H; simpl; [done|].
  rewrite (H x ltac:(by left)), IH; [done|]. intros y Hy. apply H. by right.
Qed.

Lemma zsum_nonneg {A} (h : A -> Z) l : (forall x, x ∈ l -> 0 <= h x) -> 0 <= zsum h l.
Proof.
  induction l as [|x l IH]; intros H; simpl; [lia|].
  specialize (IH (fun y Hy => H y ltac:(by right))). specialize (H x ltac:(by left)). lia.
Qed.

Lemma zsum_plus {A} (h1 h2 : A -> Z) l : zsum (fun x => h1 x + h2 x) l = zsum h1 l + zsum h2 l.
Proof. induction l as [|x l IH]; simpl; lia. Qed.

Lemma zsum_one {A} (l : list A) : zsum (fun _ => 1) l = zlen l.
Proof. induction l as [|x l IH]; simpl; [done|]. rewrite IH, zlen_cons. lia. Qed.

Lemma dsum_dset f d k v : dsum f (dset d k v) = dsum f d - oval f (dget d k) + f v.
Proof.
  unfold dsum, dvals. induction d as [|[k1 v1] d IH]; simpl; [lia|].
  destruct (decide (k = k1)) as [->|]; simpl; lia.
Qed.

Lemma ddel_absent d k : dget d k = None -> ddel d k = d.
Proof.
  induction d as [|[k1 v1] d IH]; simpl; [done|]. destruct (decide (k = k1)); [done|].
  intros H. by rewrite IH.
Qed.

Lemma dsum_ddel f d k : dwf d -> dsum f (ddel d k) = dsum f d - oval f (dget d k).
Proof.
  unfold dsum, dvals, dwf. induction d as [|[k1 v1] d IH]; simpl; [lia|].
  intros [Hn Hd]%NoDup_cons. destruct (decide (k = k1)) as [->|]; simpl.
  - rewrite ddel_absent; [lia|]. apply not_elem_of_dkeys. done.
  - specialize (IH Hd). lia.
Qed.

Lemma zlen_ddel d k : dwf d -> zlen (ddel d k) = zlen d - oval (fun _ => 1) (dget d k).
Proof.
  intros Hd. pose proof (dsum_ddel (fun _ => 1) d k Hd) as H. unfold dsum, dvals in H.
  rewrite !zsum_one, !zlen_map in H. done.
Qed.

Lemma zlen_dset_oval d k v :
  zlen (dset d k v) = zlen d + 1 - oval (fun _ => 1) (dget d k).
Proof.
  pose proof (dsum_dset (fun _ => 1) d k v) as H. unfold dsum, dvals in H.
  rewrite !zsum_one, !zlen_map in H. lia.
Qed.

Lemma dset_dset d k v v' : dset (dset d k v) k v' = dset d k v'.
Proof.
  induction d as [|[k1 v1] d IH]; simpl.
  - by rewrite decide_True.
  - destruct (decide (k = k1)) as [->|]; simpl.
    + by rewrite decide_True.
    + rewrite decide_False by done. by rewrite IH.
Qed.

Lemma dsum_ext f g d :
  dwf d -> (forall k v, dget d k = Some v -> f v = g v) -> dsum f d = dsum g d.
Proof.
  intros Hd H. apply zsum_ext. intros v Hv. apply elem_of_dvals in Hv as [k Hk]; [|done].
  by apply (H k).
Qed.
End sums.

(** Sums over the entries of a dictionary. *)
Definition esum {K V} (h : K -> V -> Z) (d : dict K V) : Z := zsum (fun kv => h kv.1 kv.2) d.

Section entry_sums.
Context {K V : Type} `{EqDecision K}.
Implicit Types (d : dict K V) (k : K) (v : V) (h : K -> V -> Z).

Lemma esum_dset h d k v : esum h (dset d k v) = esum h d - oval (h k) (dget d k) + h k v.
Proof.
  unfold esum. induction d as [|[k1 v1] d IH]; simpl; [lia|].
  destruct (decide (k = k1)) as [->|]; simpl; lia.
Qed.

Lemma esum_ddel h d k : dwf d -> esum h (ddel d k) = esum h d - oval (h k) (dget d k).
Proof.
  unfold esum, dwf. induction d as [|[k1 v1] d IH]; simpl; [lia|].
  intros [Hn Hd]%NoDup_cons. destruct (decide (k = k1)) as [->|]; simpl.
  - rewrite ddel_absent; [lia|]. apply not_elem_of_dkeys. done.
  - specialize (IH Hd). lia.
Qed.

Lemma esum_ext h1 h2 d :
  dwf d -> (forall k v, dget d k = Some v -> h1 k v = h2 k v) -> esum h1 d = esum h2 d.
Proof. intros Hd H. apply zsum_ext. intros [k v] Hkv. apply H. by apply elem_of_dget. Qed.

Lemma esum_nonneg h d :
  dwf d -> (forall k v, dget d k = Some v -> 0 <= h k v) -> 0 <= esum h d.
Proof. intros Hd H. apply zsum_nonneg. intros [k v] Hkv. apply H. by apply elem_of_dget. Qed.
End entry_sums.
