(* ===== verification/PySeq.v ===== *)
(** Python strings as lists of code points (whitespace, [strip], UTF-8
    encodability, substring test, ordering) and [sorted] with a key, as a stable
    insertion sort.  The comparison of a sort is a boolean function with the
    laws of a total preorder ([TotalLe]). *)
From S2P Require Import Prelude.
From Stdlib Require Import Sorted Permutation.

(** ** Strings *)

(** [str.isspace] for one code point, the characters [str.strip] removes. *)
Definition py_isspace (c : Z) : bool :=
  ((9 <=? c) && (c <=? 13)) || ((28 <=? c) && (c <=? 32)) ||
  (c =? 133) || (c =? 160) || (c =? 5760) ||
  ((8192 <=? c) && (c <=? 8202)) ||
  (c =? 8232) || (c =? 8233) || (c =? 8239) || (c =? 8287) || (c =? 12288).

Fixpoint lstrip (s : pystr) : pystr :=
  match s with
  | [] => []
  | c :: s' => if py_isspace c then lstrip s' else s
  end.

(** [value.strip()] *)
Definition strip (s : pystr) : pystr := rev (lstrip (rev (lstrip s))).

(** [value.encode("utf-8")] raises exactly on surrogate code points. *)
Definition utf8_encodable (s : pystr) : bool :=
  forallb (fun c => negb ((55296 <=? c) && (c <=? 57343))) s.

(** [p] is a prefix of [s]. *)
Fixpoint is_prefix (p s : pystr) : bool :=
  match p, s with
  | [], _ => true
  | _ :: _, [] => false
  | c :: p', d :: s' => (c =? d) && is_prefix p' s'
  end.

(** [needle in hay] *)
Fixpoint contains (needle hay : pystr) : bool :=
  is_prefix needle hay ||
  match hay with [] => false | _ :: hay' => contains needle hay' end.

(** [s < t]: lexicographic order on code points. *)
Fixpoint str_ltb (s t : pystr) : bool :=
  match s, t with
  | [], [] => false
  | [], _ :: _ => true
  | _ :: _, [] => false
  | c :: s', d :: t' => (c <? d) || ((c =? d) && str_ltb s' t')
  end.

(** [str.encode()] of one code point that is not a surrogate. *)
Definition utf8_char (c : Z) : list Z :=
  if c <? 128 then [c]
  else if c <? 2048 then [192 + c / 64; 128 + c mod 64]
  else if c <? 65536 then [224 + c / 4096; 128 + (c / 64) mod 64; 128 + c mod 64]
  else [240 + c / 262144; 128 + (c / 4096) mod 64; 128 + (c / 64) mod 64; 128 + c mod 64].

(** The characters of ASCII *)
Definition is_ascii (c : Z) : bool := (0 <=? c) && (c <? 128).

Definition ascii_digit (c : Z) : option Z :=
  if (48 <=? c) && (c <=? 57) then Some (c - 48) else None.

Definition ascii_lower (c : Z) : Z := if (65 <=? c) && (c <=? 90) then c + 32 else c.

(** [s.split(c)] for a separator of one character. *)
Fixpoint split_on (c : Z) (s : pystr) : list pystr :=
  match s with
  | [] => [[]]
  | x :: s' =>
      if x =? c then [] :: split_on c s'
      else match split_on c s' with
           | [] => [[x]]
           | w :: ws => (x :: w) :: ws
           end
  end.

(** ** Comprehensions *)

(** [[x for x in l if f(x)]] where the condition may raise. *)
Fixpoint rfilter {E A} (f : A -> res E bool) (l : list A) : res E (list A) :=
  match l with
  | [] => Ok []
  | x :: l =>
      let? b := f x in
      let? rest := rfilter f l in
      Ok (if b then x :: rest else rest)
  end.

(** [[f(x) for x in l]] where [f] may raise. *)
Fixpoint rmap {E A B} (f : A -> res E B) (l : list A) : res E (list B) :=
  match l with
  | [] => Ok []
  | x :: l =>
      let? y := f x in
      let? rest := rmap f l in
      Ok (y :: rest)
  end.

(** ** Sorting *)

(** [le] is total and transitive, as a boolean comparison. *)
Class TotalLe {A} (le : A -> A -> bool) : Prop := {
  le_total : forall x y, le x y = true \/ le y x = true;
  le_trans : forall x y z, le x y = true -> le y z = true -> le x z = true
}.

Fixpoint insert_by {A} (le : A -> A -> bool) (x : A) (l : list A) : list A :=
  match l with
  | [] => [x]
  | y :: l' => if le x y then x :: l else y :: insert_by le x l'
  end.

(** [sorted(l, key=...)], with [le] the order of the keys; equal keys keep
    their order. *)
Definition sorted_by {A} (le : A -> A -> bool) (l : list A) : list A :=
  foldr (insert_by le) [] l.

(** The order Python gives to pairs, on the components' strict orders. *)
Definition pair_ltb (a b : Z * pystr) : bool :=
  (a.1 <? b.1) || ((a.1 =? b.1) && str_ltb a.2 b.2).

Definition triple_ltb (a b : Z * Z * pystr) : bool :=
  (a.1.1 <? b.1.1) || ((a.1.1 =? b.1.1) && pair_ltb (a.1.2, a.2) (b.1.2, b.2)).

(** ** Laws *)

Lemma rmap_ok {E A B} (f : A -> res E B) (P : A -> B -> Prop) xs :
  (forall x, x ∈ xs -> exists y, f x = Ok y /\ P x y) ->
  exists ys, rmap f xs = Ok ys /\ Forall2 P xs ys.
Proof.
  induction xs as [|x xs IH]; intros H; simpl; [exists []; split; [done|constructor]|].
  destruct (H x) as (y & -> & Hy); [by left|].
  destruct IH as (ys & -> & Hys); [intros; apply H; by right|].
  exists (y :: ys). split; [done|by constructor].
Qed.

Lemma rfilter_ok {E A} (f : A -> res E bool) (g : A -> bool) xs :
  (forall x, x ∈ xs -> f x = Ok (g x)) -> rfilter f xs = Ok (List.filter g xs).
Proof.
  induction xs as [|x xs IH]; intros H; simpl; [done|].
  rewrite (H x), IH; [done|by intros; apply H; right|by left].
Qed.

Lemma rmap_map {E A B} (f : A -> res E B) (g : A -> B) xs :
  (forall x, x ∈ xs -> f x = Ok (g x)) -> rmap f xs = Ok (map g xs).
Proof.
  induction xs as [|x xs IH]; intros H; simpl; [done|].
  rewrite (H x), IH; [done|by intros; apply H; right|by left].
Qed.

Lemma existsb_none {A} (f : A -> bool) xs : (forall x, x ∈ xs -> f x = false) -> existsb f xs = false.
Proof.
  intros H. destruct (existsb f xs) eqn:E1; [|done]. apply existsb_exists in E1 as (x & Hx & Hf).
  apply list_elem_of_In in Hx. by rewrite (H x Hx) in Hf.
Qed.

Lemma NoDup_map_filter {A B} (f : A -> B) (g : A -> bool) xs :
  NoDup (map f xs) -> NoDup (map f (List.filter g xs)).
Proof.
  induction xs as [|x xs IH]; simpl; [done|]. intros [Hx Hxs]%NoDup_cons.
  destruct (g x); [|auto]. simpl. apply NoDup_cons. split; [|auto]. intros Hin. apply Hx.
  apply list_elem_of_fmap in Hin as (y & -> & [Hy _]%list_elem_of_In%filter_In).
  apply list_elem_of_fmap_2. by apply list_elem_of_In.
Qed.

Lemma str_ltb_irrefl s : str_ltb s s = false.
Proof.
  induction s as [|c s IH]; simpl; [done|]. rewrite IH, Z.ltb_irrefl, andb_false_r. done.
Qed.

Lemma str_ltb_trans s t v : str_ltb s t = true -> str_ltb t v = true -> str_ltb s v = true.
Proof.
  revert t v. induction s as [|c s IH]; intros [|d t] [|e v]; simpl; try done.
  intros H1 H2. apply orb_true_iff in H1, H2. apply orb_true_iff.
  rewrite !andb_true_iff, !Z.ltb_lt, !Z.eqb_eq in *.
  destruct H1 as [H1|[-> H1]], H2 as [H2|[<- H2]]; try (left; lia).
  right. eauto.
Qed.

Lemma str_ltb_total s t : str_ltb s t = false -> str_ltb t s = false -> s = t.
Proof.
  revert t. induction s as [|c s IH]; intros [|d t]; simpl; try done.
  intros H1 H2. apply orb_false_iff in H1 as [H1 H1'], H2 as [H2 H2'].
  apply Z.ltb_ge in H1, H2. assert (c = d) as -> by lia.
  rewrite Z.eqb_refl in *. simpl in *. f_equal. auto.
Qed.

Lemma pair_ltb_irrefl a : pair_ltb a a = false.
Proof. unfold pair_ltb. by rewrite Z.ltb_irrefl, Z.eqb_refl, str_ltb_irrefl. Qed.

Lemma pair_ltb_trans a b c : pair_ltb a b = true -> pair_ltb b c = true -> pair_ltb a c = true.
Proof.
  unfold pair_ltb. rewrite !orb_true_iff, !andb_true_iff, !Z.ltb_lt, !Z.eqb_eq.
  intros [?|[? H1]] [?|[? H2]]; try (left; lia).
  right. split; [lia|]. by eapply str_ltb_trans.
Qed.

Lemma pair_ltb_total a b : pair_ltb a b = false -> pair_ltb b a = false -> a = b.
Proof.
  unfold pair_ltb. rewrite !orb_false_iff, !andb_false_iff, !Z.ltb_ge, !Z.eqb_neq.
  destruct a as [z s], b as [z' s']; simpl. intros [H1 H2] [H3 H4].
  assert (z = z') as -> by lia. f_equal. apply str_ltb_total; naive_solver.
Qed.

(** [<=] on keys, as the negation of [>]: a total preorder for every strict
    total order. *)
Definition key_leb {A B} (key : A -> B) (ltb : B -> B -> bool) (x y : A) : bool :=
  negb (ltb (key y) (key x)).

(** [key=..., reverse=True] *)
Definition key_geb {A B} (key : A -> B) (ltb : B -> B -> bool) (x y : A) : bool :=
  negb (ltb (key x) (key y)).

Class StrictTotal {B} (ltb : B -> B -> bool) : Prop := {
  st_irrefl : forall x, ltb x x = false;
  st_trans : forall x y z, ltb x y = true -> ltb y z = true -> ltb x z = true;
  st_total : forall x y, ltb x y = false -> ltb y x = false -> x = y
}.

#[export] Instance pair_strict_total : StrictTotal pair_ltb.
Proof. split; [apply pair_ltb_irrefl|apply pair_ltb_trans|apply pair_ltb_total]. Qed.

#[export] Instance str_strict_total : StrictTotal str_ltb.
Proof. split; [apply str_ltb_irrefl|apply str_ltb_trans|apply str_ltb_total]. Qed.

#[export] Instance triple_strict_total : StrictTotal triple_ltb.
Proof.
  split; unfold triple_ltb.
  - intros x. by rewrite Z.ltb_irrefl, pair_ltb_irrefl, andb_false_r.
  - intros x y z. rewrite !orb_true_iff, !andb_true_iff, !Z.ltb_lt, !Z.eqb_eq.
    intros [?|[? H1]] [?|[? H2]]; try (left; lia). right. split; [lia|].
    by eapply pair_ltb_trans.
  - intros [[a b] s] [[a' b'] s']; simpl.
    rewrite !orb_false_iff, !andb_false_iff, !Z.ltb_ge, !Z.eqb_neq. intros [H1 H2] [H3 H4].
    assert (a = a') as -> by lia.
    assert ((b, s) = (b', s')) by (apply pair_ltb_total; naive_solver). congruence.
Qed.

Section keys.
Context {A B : Type} (key : A -> B) (ltb : B -> B -> bool) `{!StrictTotal ltb}.

Lemma st_asym x y : ltb x y = true -> ltb y x = false.
Proof.
  intros H1. destruct (ltb y x) eqn:H2; [|done].
  pose proof (st_trans _ _ _ H1 H2) as H3. by rewrite st_irrefl in H3.
Qed.

Lemma st_neg_trans x y z : ltb y x = false -> ltb z y = false -> ltb z x = false.
Proof.
  intros H1 H2. destruct (ltb z x) eqn:H3; [|done].
  destruct (ltb x y) eqn:H4; [pose proof (st_trans _ _ _ H3 H4); congruence|].
  assert (x = y) as -> by by apply st_total. congruence.
Qed.

#[export] Instance key_leb_total : TotalLe (key_leb key ltb).
Proof.
  split; unfold key_leb.
  - intros x y. rewrite !negb_true_iff. destruct (ltb (key y) (key x)) eqn:H1; [|by left].
    right. by apply st_asym.
  - intros x y z. rewrite !negb_true_iff. apply st_neg_trans.
Qed.

#[export] Instance key_geb_total : TotalLe (key_geb key ltb).
Proof.
  split; unfold key_geb.
  - intros x y. rewrite !negb_true_iff. destruct (ltb (key x) (key y)) eqn:H1; [|by left].
    right. by apply st_asym.
  - intros x y z. rewrite !negb_true_iff. intros. by eapply st_neg_trans.
Qed.
End keys.

Section sorted_by.
Context {A : Type} (le : A -> A -> bool) `{!TotalLe le}.
Implicit Types (l : list A).

Lemma insert_by_perm x l : Permutation (insert_by le x l) (x :: l).
Proof.
  induction l as [|y l IH]; simpl; [done|]. destruct (le x y); [done|].
  rewrite IH. apply perm_swap.
Qed.

Lemma sorted_by_perm l : Permutation (sorted_by le l) l.
Proof.
  induction l as [|x l IH]; simpl; [done|]. unfold sorted_by in *. simpl.
  by rewrite insert_by_perm, IH.
Qed.

Lemma elem_of_sorted_by l x : x ∈ sorted_by le l <-> x ∈ l.
Proof. by rewrite (sorted_by_perm l). Qed.

Lemma length_sorted_by l : length (sorted_by le l) = length l.
Proof. by rewrite (sorted_by_perm l). Qed.

Lemma NoDup_sorted_by l : NoDup l -> NoDup (sorted_by le l).
Proof. by rewrite (sorted_by_perm l). Qed.

Lemma insert_by_sorted x l :
  StronglySorted le l -> StronglySorted le (insert_by le x l).
Proof.
  induction 1 as [|y l Hl IH Hy]; simpl; [by repeat constructor|].
  destruct (le x y) eqn:Hxy.
  - constructor; [by constructor|]. constructor; [by rewrite Hxy|].
    eapply Forall_impl; [exact Hy|]. intros z Hz.
    apply Is_true_true. apply Is_true_true in Hz. by eapply le_trans.
  - constructor; [done|]. rewrite insert_by_perm. constructor; [|done].
    destruct (le_total x y); [congruence|by apply Is_true_true].
Qed.

Lemma sorted_by_sorted l : StronglySorted le (sorted_by le l).
Proof.
  induction l as [|x l IH]; simpl; [constructor|]. by apply insert_by_sorted.
Qed.
End sorted_by.

Lemma lstrip_not_space c s s' : lstrip s = c :: s' -> py_isspace c = false.
Proof.
  induction s as [|d s IH]; simpl; [done|]. destruct (py_isspace d) eqn:E1; [done|].
  intros; by simplify_eq.
Qed.

(** ** Indices and slices *)

(** [l[i]] with a possibly negative [i]: the position, [None] for [IndexError]. *)
Definition py_index {A} (l : list A) (i : Z) : option nat :=
  if (0 <=? i) && (i <? zlen l) then Some (Z.to_nat i)
  else if (i <? 0) && (0 <=? zlen l + i) then Some (Z.to_nat (zlen l + i))
  else None.

Lemma py_index_in {A} (l : list A) i :
  0 <= i < zlen l -> py_index l i = Some (Z.to_nat i).
Proof.
  intros [H1 H2]. unfold py_index. by rewrite (proj2 (Z.leb_le 0 i) H1), (proj2 (Z.ltb_lt _ _) H2).
Qed.

(** [l[a:b]] *)
Definition slice_bound {A} (l : list A) (i : Z) : nat :=
  Z.to_nat (if i <? 0 then zlen l + i else i).

Definition py_slice {A} (l : list A) (a b : Z) : list A :=
  drop (slice_bound l a) (take (slice_bound l b) l).

Lemma zlen_slice_le {A} (l : list A) a b n :
  0 <= a -> 0 <= b -> 0 <= n -> b <= a + n -> zlen (py_slice l a b) <= n.
Proof.
  intros Ha Hb Hn Hle. unfold py_slice, slice_bound, zlen.
  rewrite !(proj2 (Z.ltb_ge _ _)) by done. rewrite length_drop, length_take. lia.
Qed.

(** In a list numbered from one, the items with numbers in a range are a slice. *)
Section numbered.
Context {A : Type} (seq : A -> Z).
Implicit Types (l : list A).

Lemma filter_numbered l k a b :
  (forall i e, l !! i = Some e -> seq e = k + Z.of_nat i + 1) ->
  List.filter (fun e => (a <? seq e) && (seq e <=? b)) l =
  drop (Z.to_nat (a - k)) (take (Z.to_nat (b - k)) l).
Proof.
  revert k. induction l as [|e l IH]; intros k Hn; [by rewrite take_nil, drop_nil|].
  assert (seq e = k + 1) as He by (rewrite (Hn 0%nat e eq_refl); lia).
  specialize (IH (k + 1)). simpl. rewrite He, IH.
  2: { intros i e0 Hi. rewrite (Hn (S i) e0 Hi). lia. }
  destruct (Z.ltb_spec a (k + 1)), (Z.leb_spec (k + 1) b); simpl.
  - replace (Z.to_nat (a - k)) with 0%nat by lia. replace (Z.to_nat (a - (k + 1))) with 0%nat by lia.
    replace (Z.to_nat (b - k)) with (S (Z.to_nat (b - (k + 1)))) by lia. done.
  - replace (Z.to_nat (b - k)) with 0%nat by lia. replace (Z.to_nat (b - (k + 1))) with 0%nat by lia.
    by rewrite !take_0, !drop_nil.
  - replace (Z.to_nat (a - k)) with (S (Z.to_nat (a - (k + 1)))) by lia.
    replace (Z.to_nat (b - k)) with (S (Z.to_nat (b - (k + 1)))) by lia. done.
  - replace (Z.to_nat (b - k)) with 0%nat by lia. replace (Z.to_nat (b - (k + 1))) with 0%nat by lia.
    by rewrite !take_0, !drop_nil.
Qed.

Lemma slice_numbered l a b :
  (forall i e, l !! i = Some e -> seq e = Z.of_nat i + 1) -> 0 <= a -> 0 <= b ->
  py_slice l a b = List.filter (fun e => (a <? seq e) && (seq e <=? b)) l.
Proof.
  intros Hn Ha Hb. rewrite (filter_numbered l 0 a b), !Z.sub_0_r by (intros i e; simpl; apply Hn).
  unfold py_slice, slice_bound. rewrite !(proj2 (Z.ltb_ge _ _)) by done. done.
Qed.
End numbered.
