(* ===== verification/Contracts.v ===== *)
(** Values the packages share: the identity of a run (tinkerfin_contracts/identity.py)
    and JSON values. *)
From S2P Require Import Prelude PySeq.

(** ** Identities *)

Record RunIdentity : Type := {
  i_namespace : pystr;
  i_thread_id : pystr;
  i_run_id : pystr
}.

#[export] Instance identity_eq : EqDecision RunIdentity.
Proof. solve_decision. Defined.

(** [_canonical_identifier] accepts the value. *)
Definition canonical_identifier (value : pystr) : bool :=
  bool_decide (strip value = value) && utf8_encodable value.

Definition bounded_text (maximum : Z) (value : pystr) : bool :=
  (1 <=? zlen value) && (zlen value <=? maximum).

(** [RunIdentity(...)] accepts its fields. *)
Definition RunIdentity_valid (i : RunIdentity) : bool :=
  bounded_text 128 (i_namespace i) && canonical_identifier (i_namespace i) &&
  bounded_text 1024 (i_thread_id i) && canonical_identifier (i_thread_id i) &&
  bounded_text 1024 (i_run_id i) && canonical_identifier (i_run_id i).

(** ** JSON values

    A float is finite or one of the values JSON cannot carry.  Values are trees:
    a cycle check has nothing to reject. *)

Inductive pyfloat : Type :=
| Finite (mantissa exponent : Z)
| Infinity (negative : bool)
| NaN.

#[export] Instance pyfloat_eq : EqDecision pyfloat.
Proof. solve_decision. Defined.

Definition isfinite (f : pyfloat) : bool :=
  match f with Finite _ _ => true | _ => false end.

Set Warnings "-register-all".
Inductive JsonValue : Type :=
| JNull
| JBool (b : bool)
| JInt (z : Z)
| JFloat (f : pyfloat)
| JStr (s : pystr)
| JList (l : list JsonValue)
| JObj (l : list (pystr * JsonValue)).

Abbreviation JsonObject := (list (pystr * JsonValue)).

(** Induction with the hypothesis for every element of a list or an object. *)
Section json_ind.
Context (P : JsonValue -> Prop) (Hnull : P JNull) (Hbool : forall b, P (JBool b))
  (Hint : forall z, P (JInt z)) (Hfloat : forall f, P (JFloat f)) (Hstr : forall s, P (JStr s))
  (Hlist : forall l, Forall P l -> P (JList l))
  (Hobj : forall l, Forall (fun kv => P kv.2) l -> P (JObj l)).

Fixpoint json_ind (v : JsonValue) : P v :=
  match v with
  | JNull => Hnull
  | JBool b => Hbool b
  | JInt z => Hint z
  | JFloat f => Hfloat f
  | JStr s => Hstr s
  | JList l => Hlist l ((fix go l := match l return Forall P l with
                         | [] => Forall_nil_2 P
                         | x :: l => Forall_cons_2 P x l (json_ind x) (go l)
                         end) l)
  | JObj l => Hobj l ((fix go l := match l return Forall (fun kv => P kv.2) l with
                       | [] => Forall_nil_2 _
                       | x :: l => Forall_cons_2 _ x l (json_ind x.2) (go l)
                       end) l)
  end.
End json_ind.

Fixpoint json_eqb (v w : JsonValue) : bool :=
  match v, w with
  | JNull, JNull => true
  | JBool b, JBool c => Bool.eqb b c
  | JInt x, JInt y => x =? y
  | JFloat x, JFloat y => bool_decide (x = y)
  | JStr s, JStr t => bool_decide (s = t)
  | JList l, JList k =>
      (fix go (l k : list JsonValue) : bool :=
         match l, k with
         | [], [] => true
         | x :: l, y :: k => json_eqb x y && go l k
         | _, _ => false
         end) l k
  | JObj l, JObj k =>
      (fix go (l k : list (pystr * JsonValue)) : bool :=
         match l, k with
         | [], [] => true
         | (a, x) :: l, (b, y) :: k => bool_decide (a = b) && json_eqb x y && go l k
         | _, _ => false
         end) l k
  | _, _ => false
  end.

Lemma json_eqb_eq v w : json_eqb v w = true <-> v = w.
Proof.
  revert w. induction v as [|b|z|f|s|l IH|l IH] using json_ind; intros []; simpl; try done.
  - rewrite Bool.eqb_true_iff. naive_solver.
  - rewrite Z.eqb_eq. naive_solver.
  - rewrite bool_decide_eq_true. naive_solver.
  - rewrite bool_decide_eq_true. naive_solver.
  - transitivity (l = l0); [|naive_solver]. revert l0.
    induction IH as [|x l Hx _ IH]; intros [|y k]; try done. rewrite andb_true_iff, Hx, IH. naive_solver.
  - transitivity (l = l0); [|naive_solver]. revert l0.
    induction IH as [|[a x] l Hx _ IH]; intros [|[b y] k]; try done. simpl in Hx.
    rewrite !andb_true_iff, bool_decide_eq_true, Hx, IH. naive_solver.
Qed.

#[export] Instance json_eq : EqDecision JsonValue.
Proof. refine (fun v w => cast_if (decide (json_eqb v w = true))); by rewrite <-json_eqb_eq. Defined.
