(* ===== verification/AutoModels.v ===== *)
(** Automation: failures, resource policies, the values of a schedule and the
    value objects of tasks and executions
    (tinkerfin_automation/errors.py, policies.py, schedules.py (the models only),
    models.py, queries.py, _query_cursor.py, store.py, _json.py).

    Datetimes are aware and stand for the microseconds since 0001-01-01T00:00 UTC,
    in the range of years 1 to 9999; timedeltas are microseconds.  A dataclass is a record, its
    [__post_init__] the function [<Class>_post_init] that raises or returns.
    [dataclasses.replace] runs the constructor again, so it is
    [replace_task] / [replace_execution], which validate. *)
From S2P Require Import Prelude PyDict PySeq Contracts.
From Stdlib Require Import Strings.String.

(** ** Failures *)

Inductive exn : Type :=
| TypeError
| ValueError
| KeyError
| OverflowError
| AssertionError
| ValidationError
| InvalidScheduleError
| TaskNotFoundError
| ExecutionNotFoundError
| TaskConflictError
| RequestConflictError
| QueueFullError
| StartAlreadyAuthorizedError
| ClaimLostError
| ResolutionNotAllowedError
| AutomationStoreError.

#[export] Instance exn_eq_dec : EqDecision exn.
Proof. solve_decision. Defined.

(** ** Instants *)

Definition us_per_second : Z := 1000000.
Definition us_per_minute : Z := 60 * us_per_second.
Definition us_per_hour : Z := 60 * us_per_minute.
Definition us_per_day : Z := 24 * us_per_hour.

(** [date.max.toordinal()] *)
Definition max_ordinal : Z := 3652059.

(** A [datetime] result, or the [OverflowError] of leaving the range. *)
Definition in_range (t : Z) : bool := (0 <=? t) && (t <? max_ordinal * us_per_day).

Definition check_range (t : Z) : res exn Z := if in_range t then Ok t else Raise OverflowError.

(** ** Policies (policies.py) *)

Inductive MisfireMode : Type := SKIP | LATEST | CATCH_UP.

#[export] Instance MisfireMode_eq_dec : EqDecision MisfireMode.
Proof. solve_decision. Defined.

Record MisfirePolicy : Type := {
  mode : MisfireMode;
  grace : Z;
  catch_up_window : Z;
  max_catch_up : Z
}.

Definition MisfirePolicy_post_init (p : MisfirePolicy) : res exn unit :=
  do? rraise_if (grace p <? 0) ValueError in
  do? rraise_if (catch_up_window p <=? 0) ValueError in
  rraise_if (max_catch_up p <? 1) ValueError.

Record ExecutionLimits : Type := {
  max_concurrent_runs : Z;
  max_queued_runs : Z;
  execution_timeout : Z;
  queue_timeout : Z
}.

Definition ExecutionLimits_post_init (l : ExecutionLimits) : res exn unit :=
  do? rraise_if (max_concurrent_runs l <? 1) ValueError in
  do? rraise_if (max_queued_runs l <? 0) ValueError in
  do? rraise_if (execution_timeout l <=? 0) ValueError in
  rraise_if (queue_timeout l <=? 0) ValueError.

(** ** Schedule declarations (schedules.py, the validated models) *)

Inductive ScheduleKind : Type :=
| OnceSchedule (at_ : Z)
| IntervalSchedule (every_seconds : Z) (start_at : Z)
| CronSchedule (expression : pystr) (timezone : pystr).

Record ScheduleSpec : Type := {
  active_from : option Z;
  active_until : option Z;
  sched : ScheduleKind
}.

(** ** JSON values (_json.py) *)

Fixpoint validate_json (v : JsonValue) : res exn unit :=
  match v with
  | JNull | JBool _ | JInt _ => Ok tt
  | JFloat f => rraise_if (negb (isfinite f)) ValueError
  | JStr s => rraise_if (negb (utf8_encodable s)) ValueError
  | JList l =>
      (fix go (l : list JsonValue) : res exn unit :=
         match l with
         | [] => Ok tt
         | x :: l' => do? validate_json x in go l'
         end) l
  | JObj l =>
      (fix go (l : list (pystr * JsonValue)) : res exn unit :=
         match l with
         | [] => Ok tt
         | (k, x) :: l' =>
             do? rraise_if (negb (utf8_encodable k)) ValueError in
             do? validate_json x in go l'
         end) l
  end.

Definition require_finite_json (v : JsonValue) : res exn unit := validate_json v.

(** ** Models (models.py) *)

(** [_validate_persisted_text(value, name=..., maximum=...)] *)
Definition validate_persisted_text (value : pyobj) (maximum : option Z) : res exn unit :=
  match value with
  | PyStr s =>
      do? rraise_if (bool_decide (s = []) || negb (bool_decide (s = strip s))) ValueError in
      do? rraise_if (bool_decide (0 ∈ s)) ValueError in
      do? rraise_if (negb (utf8_encodable s)) ValueError in
      match maximum with
      | Some m => rraise_if (m <? zlen s) ValueError
      | None => Ok tt
      end
  | _ => Raise TypeError
  end.

Inductive TaskStatus : Type := ENABLED | PAUSED.

#[export] Instance TaskStatus_eq_dec : EqDecision TaskStatus.
Proof. solve_decision. Defined.

Inductive ExecutionStatus : Type :=
| QUEUED | RUNNING | INTERRUPTED | CANCEL_REQUESTED
| SUCCEEDED | FAILED | TIMED_OUT | CANCELLED | NEEDS_ATTENTION.

#[export] Instance ExecutionStatus_eq_dec : EqDecision ExecutionStatus.
Proof. solve_decision. Defined.

Definition is_terminal (s : ExecutionStatus) : bool :=
  match s with
  | SUCCEEDED | FAILED | TIMED_OUT | CANCELLED => true
  | _ => false
  end.

Inductive ExecutionOrigin : Type := SCHEDULED | MANUAL | ONE_TIME | RETRY.

Inductive AttentionResolution : Type := RESOLVE_SUCCEEDED | RESOLVE_FAILED | RESOLVE_CANCELLED.

Record AutomationTask : Type := {
  t_task_id : pystr;
  t_namespace : pystr;
  t_owner_id : pystr;
  t_execution_namespace : pystr;
  t_name : pystr;
  t_target : pystr;
  t_input : JsonObject;
  t_schedule : ScheduleSpec;
  t_status : TaskStatus;
  t_revision : Z;
  t_next_run_at : option Z;
  t_misfire_policy : MisfirePolicy;
  t_limits : ExecutionLimits;
  t_created_at : Z;
  t_updated_at : Z
}.

Record AutomationExecution : Type := {
  x_execution_id : pystr;
  x_task_id : option pystr;
  x_namespace : pystr;
  x_owner_id : pystr;
  x_identity : RunIdentity;
  x_target : pystr;
  x_input : JsonObject;
  x_limits : ExecutionLimits;
  x_origin : ExecutionOrigin;
  x_status : ExecutionStatus;
  x_attempt : Z;
  x_retry_of : option pystr;
  x_scheduled_for : option Z;
  x_queued_at : Z;
  x_queue_deadline : Z;
  x_execution_started_at : option Z;
  x_execution_deadline : option Z;
  x_finished_at : option Z;
  x_failure_code : option pystr;
  x_failure_message : option pystr;
  x_result : JsonValue;
  x_interrupt_ids : list pystr;
  x_start_authorized_at : option Z;
  x_start_token : option pystr;
  x_created_at : Z;
  x_updated_at : Z;
  x_task_name : option pystr
}.

(** Field updates used by [replace]: one function per field that a transition
    sets. *)
Definition set_status (v : ExecutionStatus) (x : AutomationExecution) : AutomationExecution :=
  {| x_execution_id := x_execution_id x;
     x_task_id := x_task_id x;
     x_namespace := x_namespace x;
     x_owner_id := x_owner_id x;
     x_identity := x_identity x;
     x_target := x_target x;
     x_input := x_input x;
     x_limits := x_limits x;
     x_origin := x_origin x;
     x_status := v;
     x_attempt := x_attempt x;
     x_retry_of := x_retry_of x;
     x_scheduled_for := x_scheduled_for x;
     x_queued_at := x_queued_at x;
     x_queue_deadline := x_queue_deadline x;
     x_execution_started_at := x_execution_started_at x;
     x_execution_deadline := x_execution_deadline x;
     x_finished_at := x_finished_at x;
     x_failure_code := x_failure_code x;
     x_failure_message := x_failure_message x;
     x_result := x_result x;
     x_interrupt_ids := x_interrupt_ids x;
     x_start_authorized_at := x_start_authorized_at x;
     x_start_token := x_start_token x;
     x_created_at := x_created_at x;
     x_updated_at := x_updated_at x;
     x_task_name := x_task_name x |}.

Definition set_interrupt_ids (v : list pystr) (x : AutomationExecution) : AutomationExecution :=
  {| x_execution_id := x_execution_id x;
     x_task_id := x_task_id x;
     x_namespace := x_namespace x;
     x_owner_id := x_owner_id x;
     x_identity := x_identity x;
     x_target := x_target x;
     x_input := x_input x;
     x_limits := x_limits x;
     x_origin := x_origin x;
     x_status := x_status x;
     x_attempt := x_attempt x;
     x_retry_of := x_retry_of x;
     x_scheduled_for := x_scheduled_for x;
     x_queued_at := x_queued_at x;
     x_queue_deadline := x_queue_deadline x;
     x_execution_started_at := x_execution_started_at x;
     x_execution_deadline := x_execution_deadline x;
     x_finished_at := x_finished_at x;
     x_failure_code := x_failure_code x;
     x_failure_message := x_failure_message x;
     x_result := x_result x;
     x_interrupt_ids := v;
     x_start_authorized_at := x_start_authorized_at x;
     x_start_token := x_start_token x;
     x_created_at := x_created_at x;
     x_updated_at := x_updated_at x;
     x_task_name := x_task_name x |}.

Definition set_execution_started_at (v : option Z) (x : AutomationExecution) : AutomationExecution :=
  {| x_execution_id := x_execution_id x;
     x_task_id := x_task_id x;
     x_namespace := x_namespace x;
     x_owner_id := x_owner_id x;
     x_identity := x_identity x;
     x_target := x_target x;
     x_input := x_input x;
     x_limits := x_limits x;
     x_origin := x_origin x;
     x_status := x_status x;
     x_attempt := x_attempt x;
     x_retry_of := x_retry_of x;
     x_scheduled_for := x_scheduled_for x;
     x_queued_at := x_queued_at x;
     x_queue_deadline := x_queue_deadline x;
     x_execution_started_at := v;
     x_execution_deadline := x_execution_deadline x;
     x_finished_at := x_finished_at x;
     x_failure_code := x_failure_code x;
     x_failure_message := x_failure_message x;
     x_result := x_result x;
     x_interrupt_ids := x_interrupt_ids x;
     x_start_authorized_at := x_start_authorized_at x;
     x_start_token := x_start_token x;
     x_created_at := x_created_at x;
     x_updated_at := x_updated_at x;
     x_task_name := x_task_name x |}.

Definition set_execution_deadline (v : option Z) (x : AutomationExecution) : AutomationExecution :=
  {| x_execution_id := x_execution_id x;
     x_task_id := x_task_id x;
     x_namespace := x_namespace x;
     x_owner_id := x_owner_id x;
     x_identity := x_identity x;
     x_target := x_target x;
     x_input := x_input x;
     x_limits := x_limits x;
     x_origin := x_origin x;
     x_status := x_status x;
     x_attempt := x_attempt x;
     x_retry_of := x_retry_of x;
     x_scheduled_for := x_scheduled_for x;
     x_queued_at := x_queued_at x;
     x_queue_deadline := x_queue_deadline x;
     x_execution_started_at := x_execution_started_at x;
     x_execution_deadline := v;
     x_finished_at := x_finished_at x;
     x_failure_code := x_failure_code x;
     x_failure_message := x_failure_message x;
     x_result := x_result x;
     x_interrupt_ids := x_interrupt_ids x;
     x_start_authorized_at := x_start_authorized_at x;
     x_start_token := x_start_token x;
     x_created_at := x_created_at x;
     x_updated_at := x_updated_at x;
     x_task_name := x_task_name x |}.

Definition set_finished_at (v : option Z) (x : AutomationExecution) : AutomationExecution :=
  {| x_execution_id := x_execution_id x;
     x_task_id := x_task_id x;
     x_namespace := x_namespace x;
     x_owner_id := x_owner_id x;
     x_identity := x_identity x;
     x_target := x_target x;
     x_input := x_input x;
     x_limits := x_limits x;
     x_origin := x_origin x;
     x_status := x_status x;
     x_attempt := x_attempt x;
     x_retry_of := x_retry_of x;
     x_scheduled_for := x_scheduled_for x;
     x_queued_at := x_queued_at x;
     x_queue_deadline := x_queue_deadline x;
     x_execution_started_at := x_execution_started_at x;
     x_execution_deadline := x_execution_deadline x;
     x_finished_at := v;
     x_failure_code := x_failure_code x;
     x_failure_message := x_failure_message x;
     x_result := x_result x;
     x_interrupt_ids := x_interrupt_ids x;
     x_start_authorized_at := x_start_authorized_at x;
     x_start_token := x_start_token x;
     x_created_at := x_created_at x;
     x_updated_at := x_updated_at x;
     x_task_name := x_task_name x |}.

Definition set_failure_code (v : option pystr) (x : AutomationExecution) : AutomationExecution :=
  {| x_execution_id := x_execution_id x;
     x_task_id := x_task_id x;
     x_namespace := x_namespace x;
     x_owner_id := x_owner_id x;
     x_identity := x_identity x;
     x_target := x_target x;
     x_input := x_input x;
     x_limits := x_limits x;
     x_origin := x_origin x;
     x_status := x_status x;
     x_attempt := x_attempt x;
     x_retry_of := x_retry_of x;
     x_scheduled_for := x_scheduled_for x;
     x_queued_at := x_queued_at x;
     x_queue_deadline := x_queue_deadline x;
     x_execution_started_at := x_execution_started_at x;
     x_execution_deadline := x_execution_deadline x;
     x_finished_at := x_finished_at x;
     x_failure_code := v;
     x_failure_message := x_failure_message x;
     x_result := x_result x;
     x_interrupt_ids := x_interrupt_ids x;
     x_start_authorized_at := x_start_authorized_at x;
     x_start_token := x_start_token x;
     x_created_at := x_created_at x;
     x_updated_at := x_updated_at x;
     x_task_name := x_task_name x |}.

Definition set_failure_message (v : option pystr) (x : AutomationExecution) : AutomationExecution :=
  {| x_execution_id := x_execution_id x;
     x_task_id := x_task_id x;
     x_namespace := x_namespace x;
     x_owner_id := x_owner_id x;
     x_identity := x_identity x;
     x_target := x_target x;
     x_input := x_input x;
     x_limits := x_limits x;
     x_origin := x_origin x;
     x_status := x_status x;
     x_attempt := x_attempt x;
     x_retry_of := x_retry_of x;
     x_scheduled_for := x_scheduled_for x;
     x_queued_at := x_queued_at x;
     x_queue_deadline := x_queue_deadline x;
     x_execution_started_at := x_execution_started_at x;
     x_execution_deadline := x_execution_deadline x;
     x_finished_at := x_finished_at x;
     x_failure_code := x_failure_code x;
     x_failure_message := v;
     x_result := x_result x;
     x_interrupt_ids := x_interrupt_ids x;
     x_start_authorized_at := x_start_authorized_at x;
     x_start_token := x_start_token x;
     x_created_at := x_created_at x;
     x_updated_at := x_updated_at x;
     x_task_name := x_task_name x |}.

Definition set_result (v : JsonValue) (x : AutomationExecution) : AutomationExecution :=
  {| x_execution_id := x_execution_id x;
     x_task_id := x_task_id x;
     x_namespace := x_namespace x;
     x_owner_id := x_owner_id x;
     x_identity := x_identity x;
     x_target := x_target x;
     x_input := x_input x;
     x_limits := x_limits x;
     x_origin := x_origin x;
     x_status := x_status x;
     x_attempt := x_attempt x;
     x_retry_of := x_retry_of x;
     x_scheduled_for := x_scheduled_for x;
     x_queued_at := x_queued_at x;
     x_queue_deadline := x_queue_deadline x;
     x_execution_started_at := x_execution_started_at x;
     x_execution_deadline := x_execution_deadline x;
     x_finished_at := x_finished_at x;
     x_failure_code := x_failure_code x;
     x_failure_message := x_failure_message x;
     x_result := v;
     x_interrupt_ids := x_interrupt_ids x;
     x_start_authorized_at := x_start_authorized_at x;
     x_start_token := x_start_token x;
     x_created_at := x_created_at x;
     x_updated_at := x_updated_at x;
     x_task_name := x_task_name x |}.

Definition set_start_authorized_at (v : option Z) (x : AutomationExecution) : AutomationExecution :=
  {| x_execution_id := x_execution_id x;
     x_task_id := x_task_id x;
     x_namespace := x_namespace x;
     x_owner_id := x_owner_id x;
     x_identity := x_identity x;
     x_target := x_target x;
     x_input := x_input x;
     x_limits := x_limits x;
     x_origin := x_origin x;
     x_status := x_status x;
     x_attempt := x_attempt x;
     x_retry_of := x_retry_of x;
     x_scheduled_for := x_scheduled_for x;
     x_queued_at := x_queued_at x;
     x_queue_deadline := x_queue_deadline x;
     x_execution_started_at := x_execution_started_at x;
     x_execution_deadline := x_execution_deadline x;
     x_finished_at := x_finished_at x;
     x_failure_code := x_failure_code x;
     x_failure_message := x_failure_message x;
     x_result := x_result x;
     x_interrupt_ids := x_interrupt_ids x;
     x_start_authorized_at := v;
     x_start_token := x_start_token x;
     x_created_at := x_created_at x;
     x_updated_at := x_updated_at x;
     x_task_name := x_task_name x |}.

Definition set_start_token (v : option pystr) (x : AutomationExecution) : AutomationExecution :=
  {| x_execution_id := x_execution_id x;
     x_task_id := x_task_id x;
     x_namespace := x_namespace x;
     x_owner_id := x_owner_id x;
     x_identity := x_identity x;
     x_target := x_target x;
     x_input := x_input x;
     x_limits := x_limits x;
     x_origin := x_origin x;
     x_status := x_status x;
     x_attempt := x_attempt x;
     x_retry_of := x_retry_of x;
     x_scheduled_for := x_scheduled_for x;
     x_queued_at := x_queued_at x;
     x_queue_deadline := x_queue_deadline x;
     x_execution_started_at := x_execution_started_at x;
     x_execution_deadline := x_execution_deadline x;
     x_finished_at := x_finished_at x;
     x_failure_code := x_failure_code x;
     x_failure_message := x_failure_message x;
     x_result := x_result x;
     x_interrupt_ids := x_interrupt_ids x;
     x_start_authorized_at := x_start_authorized_at x;
     x_start_token := v;
     x_created_at := x_created_at x;
     x_updated_at := x_updated_at x;
     x_task_name := x_task_name x |}.

Definition set_updated_at (v : Z) (x : AutomationExecution) : AutomationExecution :=
  {| x_execution_id := x_execution_id x;
     x_task_id := x_task_id x;
     x_namespace := x_namespace x;
     x_owner_id := x_owner_id x;
     x_identity := x_identity x;
     x_target := x_target x;
     x_input := x_input x;
     x_limits := x_limits x;
     x_origin := x_origin x;
     x_status := x_status x;
     x_attempt := x_attempt x;
     x_retry_of := x_retry_of x;
     x_scheduled_for := x_scheduled_for x;
     x_queued_at := x_queued_at x;
     x_queue_deadline := x_queue_deadline x;
     x_execution_started_at := x_execution_started_at x;
     x_execution_deadline := x_execution_deadline x;
     x_finished_at := x_finished_at x;
     x_failure_code := x_failure_code x;
     x_failure_message := x_failure_message x;
     x_result := x_result x;
     x_interrupt_ids := x_interrupt_ids x;
     x_start_authorized_at := x_start_authorized_at x;
     x_start_token := x_start_token x;
     x_created_at := x_created_at x;
     x_updated_at := v;
     x_task_name := x_task_name x |}.

Definition validate_opt (o : option pystr) (maximum : option Z) : res exn unit :=
  match o with
  | Some s => validate_persisted_text (PyStr s) maximum
  | None => Ok tt
  end.

Fixpoint validate_each (l : list pystr) : res exn unit :=
  match l with
  | [] => Ok tt
  | s :: l' => do? validate_persisted_text (PyStr s) None in validate_each l'
  end.

Definition AutomationTask_post_init (t : AutomationTask) : res exn unit :=
  do? validate_persisted_text (PyStr (t_task_id t)) (Some 36) in
  do? validate_persisted_text (PyStr (t_namespace t)) (Some 128) in
  do? validate_persisted_text (PyStr (t_owner_id t)) (Some 191) in
  do? validate_persisted_text (PyStr (t_execution_namespace t)) (Some 128) in
  do? validate_persisted_text (PyStr (t_name t)) (Some 255) in
  do? validate_persisted_text (PyStr (t_target t)) (Some 191) in
  require_finite_json (JObj (t_input t)).

Definition AutomationExecution_post_init (x : AutomationExecution) : res exn unit :=
  do? validate_opt (x_task_name x) (Some 255) in
  do? validate_persisted_text (PyStr (x_execution_id x)) (Some 36) in
  do? validate_opt (x_task_id x) (Some 36) in
  do? validate_persisted_text (PyStr (x_namespace x)) (Some 128) in
  do? validate_persisted_text (PyStr (x_owner_id x)) (Some 191) in
  do? validate_persisted_text (PyStr (x_target x)) (Some 191) in
  do? validate_persisted_text (PyStr (i_namespace (x_identity x))) (Some 128) in
  do? validate_persisted_text (PyStr (i_thread_id (x_identity x))) None in
  do? validate_persisted_text (PyStr (i_run_id (x_identity x))) None in
  do? validate_opt (x_retry_of x) (Some 36) in
  do? validate_opt (x_failure_code x) None in
  do? validate_opt (x_failure_message x) None in
  do? validate_each (x_interrupt_ids x) in
  do? require_finite_json (JObj (x_input x)) in
  require_finite_json (x_result x).

(** [dataclasses.replace]: the constructor, hence the validation, runs again on
    the new field values. *)
Definition replace_task (t : AutomationTask) : res exn AutomationTask :=
  do? AutomationTask_post_init t in Ok t.

Definition replace_execution (x : AutomationExecution) : res exn AutomationExecution :=
  do? AutomationExecution_post_init x in Ok x.

(** ** Filters (queries.py) *)

Record TaskFilter : Type := {
  tf_name_contains : option pystr;
  tf_statuses : list TaskStatus
}.

Record ExecutionFilter : Type := {
  ef_name_contains : option pystr;
  ef_statuses : list ExecutionStatus;
  ef_queued_from : option Z;
  ef_queued_until : option Z
}.

Definition validate_name (value : option pystr) : res exn unit :=
  match value with
  | Some s => rraise_if ((255 <? zlen s) || bool_decide (0 ∈ s)) ValueError
  | None => Ok tt
  end.

Definition TaskFilter_post_init (f : TaskFilter) : res exn unit :=
  validate_name (tf_name_contains f).

Definition ExecutionFilter_post_init (f : ExecutionFilter) : res exn unit :=
  do? validate_name (ef_name_contains f) in
  match ef_queued_from f, ef_queued_until f with
  | Some a, Some b => rraise_if (b <=? a) ValueError
  | _, _ => Ok tt
  end.

Definition TaskFilter_all : TaskFilter := {| tf_name_contains := None; tf_statuses := [] |}.

Definition ExecutionFilter_all : ExecutionFilter :=
  {| ef_name_contains := None; ef_statuses := []; ef_queued_from := None;
     ef_queued_until := None |}.

(** ** The Store contract's values (store.py) *)

Inductive WorkKind : Type := EXECUTE | EXPIRE_INTERRUPT.

#[export] Instance WorkKind_eq_dec : EqDecision WorkKind.
Proof. solve_decision. Defined.

(** [AutomationTask | AutomationExecution | str] *)
Inductive CommandResult : Type :=
| ResultTask (t : AutomationTask)
| ResultExecution (x : AutomationExecution)
| ResultStr (s : pystr).

Record CommandReceipt : Type := {
  input_digest : pystr;
  receipt_result : CommandResult
}.

Record WorkItemClaim : Type := {
  c_work_item_id : pystr;
  c_namespace : pystr;
  c_execution_id : pystr;
  c_kind : WorkKind;
  c_claim_token : pystr;
  c_fence : Z;
  c_lease_until : Z
}.

(** The delay is kept in microseconds; the code turns it into float seconds. *)
Record WorkClaimBatch : Type := {
  claims : list WorkItemClaim;
  next_check_after : option Z
}.

Record ClaimRenewal : Type := {
  renewed_claim : WorkItemClaim;
  cancellation_requested : bool
}.

Record StartAuthorization : Type := {
  authorized_execution : AutomationExecution;
  authorized_token : pystr
}.

Record ScheduledExecution : Type := {
  scheduled_execution : AutomationExecution;
  occurrence_key : pystr
}.

Record MaterializationResult : Type := {
  materialized_task : AutomationTask;
  materialized_executions : list AutomationExecution
}.

Record TaskPage : Type := {
  tp_items : list AutomationTask;
  tp_next_cursor : option pystr
}.

Record ExecutionPage : Type := {
  ep_items : list AutomationExecution;
  ep_next_cursor : option pystr
}.

(** ** Pagination cursors (_query_cursor.py)

    The JSON text of a position, its Base64 form and the SHA-256 of a query are
    library code: [cursor_text] and [cursor_parse] stand for the encoding of a
    position and for decoding with validation, [scope_digest] for the digest of
    the query's parts. *)

Record Position : Type := {
  pos_scope : pystr;
  pos_at : Z;
  pos_identity : pystr
}.

Inductive QueryFilter : Type :=
| ByTask (f : TaskFilter)
| ByExecution (f : ExecutionFilter).

Class CursorCodec : Type := {
  cursor_text : Position -> pystr;
  cursor_parse : pystr -> option Position;
  scope_digest : pystr -> pystr -> QueryFilter -> option pystr -> pystr
}.

Section cursor.
Context {codec : CursorCodec}.

Definition query_scope (namespace owner_id : pystr) (filters : QueryFilter)
    (task_id : option pystr) : pystr :=
  scope_digest namespace owner_id filters task_id.

(** The identity is declared with [min_length=1, max_length=191]. *)
Definition encode_cursor (scope : pystr) (at_ : Z) (identity : pystr) : res exn pystr :=
  do? rraise_if ((zlen identity <? 1) || (191 <? zlen identity)) ValidationError in
  Ok (cursor_text {| pos_scope := scope; pos_at := at_; pos_identity := identity |}).

Definition decode_cursor (cursor : option pystr) (scope : pystr)
    : res exn (option (Z * pystr)) :=
  match cursor with
  | None => Ok None
  | Some c =>
      do? rraise_if (2048 <? zlen c) ValueError in
      match cursor_parse c with
      | None => Raise ValueError
      | Some p =>
          do? rraise_if (negb (bool_decide (pos_scope p = scope))) ValueError in
          Ok (Some (pos_at p, pos_identity p))
      end
  end.
End cursor.
