(* ===== verification/AutoRules.v ===== *)
(** Automation: the pure decisions of _rules.py.  A rule reads one execution (or
    task), the time and the command's arguments, and returns the transition the
    store commits, or raises. *)
From S2P Require Import Prelude PyDict PySeq Contracts AutoModels.
From Stdlib Require Import Strings.String.

(** ** Definitions *)

Inductive CompleteWork : Type := complete_none | complete_current | complete_all.

#[export] Instance CompleteWork_eq_dec : EqDecision CompleteWork.
Proof. solve_decision. Defined.

Record ExecutionTransition : Type := {
  tr_execution : AutomationExecution;
  complete_work : CompleteWork;
  release_capacity : bool;
  deadline_work_at : option Z
}.

(** [ExecutionTransition(execution)] with the default fields. *)
Definition unchanged (x : AutomationExecution) : ExecutionTransition :=
  {| tr_execution := x; complete_work := complete_none; release_capacity := false;
     deadline_work_at := None |}.

Definition require_task_revision (task : AutomationTask) (expected_revision : pyobj)
    : res exn unit :=
  match expected_revision with
  | PyNone => Ok tt
  | PyInt e =>
      do? rraise_if (e <? 1) ValueError in
      rraise_if (negb (t_revision task =? e)) TaskConflictError
  | _ => Raise TypeError
  end.

Definition execution_scope (x : AutomationExecution) : pystr * pystr :=
  match x_task_id x with
  | None => (u "owner", x_owner_id x)
  | Some task_id => (u "task", task_id)
  end.

Definition same_execution_scope (candidate x : AutomationExecution) : bool :=
  bool_decide (x_namespace candidate = x_namespace x) &&
  bool_decide (execution_scope candidate = execution_scope x).

Definition materialization_is_current (current proposed : AutomationTask)
    (expected_next_run_at : Z) : bool :=
  bool_decide (t_next_run_at current = Some expected_next_run_at) &&
  (t_revision current =? t_revision proposed) &&
  bool_decide (t_status current = ENABLED).

(** [seen] starts as the persisted keys and grows with every kept item. *)
Fixpoint pending_from (seen : list pystr) (l : list ScheduledExecution)
    : list ScheduledExecution :=
  match l with
  | [] => []
  | item :: l' =>
      if bool_decide (occurrence_key item ∈ seen)
      then pending_from seen l'
      else item :: pending_from (occurrence_key item :: seen) l'
  end.

Definition pending_occurrences (executions : list ScheduledExecution)
    (existing : list pystr) : list ScheduledExecution :=
  pending_from existing executions.

Definition require_queue_capacity (queued additional maximum : Z) : res exn unit :=
  rraise_if (maximum <? queued + additional) QueueFullError.

Definition expire_queued (x : AutomationExecution) (now : Z) : res exn ExecutionTransition :=
  let? x' := replace_execution
    (set_status TIMED_OUT (set_finished_at (Some now)
      (set_failure_code (Some (u "automation.queue_timeout"))
        (set_failure_message (Some (u "Execution exceeded its queue deadline"))
          (set_updated_at now x))))) in
  Ok {| tr_execution := x'; complete_work := complete_current; release_capacity := true;
        deadline_work_at := None |}.

(** [None]: admission may proceed. *)
Definition claim_candidate (x : AutomationExecution) (kind : WorkKind) (now : Z)
    : res exn (option ExecutionTransition) :=
  let drop := {| tr_execution := x; complete_work := complete_current;
                 release_capacity := false; deadline_work_at := None |} in
  match kind with
  | EXECUTE =>
      if negb (bool_decide (x_status x = QUEUED)) then Ok (Some drop)
      else if x_queue_deadline x <=? now then
        let? t := expire_queued x now in Ok (Some t)
      else Ok None
  | EXPIRE_INTERRUPT =>
      if negb (bool_decide (x_status x = INTERRUPTED)) then Ok (Some drop) else Ok None
  end.

Definition authorize_start (x : AutomationExecution) (kind : WorkKind) (admitted : bool)
    (now execution_timeout : Z) (start_token : pystr) : res exn StartAuthorization :=
  do? rraise_if (negb (bool_decide (kind = EXECUTE))) ClaimLostError in
  do? rraise_if (negb (bool_decide (x_start_authorized_at x = None)))
        StartAlreadyAuthorizedError in
  do? rraise_if (negb (bool_decide (x_status x = QUEUED)) || negb admitted) ClaimLostError in
  let? deadline := check_range (now + execution_timeout) in
  let? started := replace_execution
    (set_status RUNNING (set_execution_started_at (Some now)
      (set_execution_deadline (Some deadline)
        (set_start_authorized_at (Some now) (set_start_token (Some start_token)
          (set_updated_at now x)))))) in
  Ok {| authorized_execution := started; authorized_token := start_token |}.

(** [tuple(dict.fromkeys(l))]: the first occurrence of each value, in order. *)
Fixpoint fromkeys (l : list pystr) : list pystr :=
  match l with
  | [] => []
  | x :: l' => x :: List.filter (fun y => negb (bool_decide (y = x))) (fromkeys l')
  end.

Definition interrupt_execution (x : AutomationExecution) (interrupt_ids : list pystr)
    (now : Z) : res exn ExecutionTransition :=
  do? rraise_if (bool_decide (interrupt_ids = [])) ValueError in
  match x_execution_deadline x with
  | None => Raise ClaimLostError
  | Some deadline =>
      let? x' := replace_execution
        (set_status INTERRUPTED (set_interrupt_ids (fromkeys interrupt_ids)
          (set_updated_at now x))) in
      Ok {| tr_execution := x'; complete_work := complete_current;
            release_capacity := false; deadline_work_at := Some deadline |}
  end.

(** [not status.is_terminal and status is not NEEDS_ATTENTION] *)
Definition not_settled (s : ExecutionStatus) : bool :=
  negb (is_terminal s) && negb (bool_decide (s = NEEDS_ATTENTION)).

Definition finish_execution (x : AutomationExecution) (status : ExecutionStatus) (now : Z)
    (result : JsonValue) (failure_code failure_message : option pystr)
    : res exn ExecutionTransition :=
  do? rraise_if (not_settled status) ValueError in
  let? x' := replace_execution
    (set_status status (set_result result (set_failure_code failure_code
      (set_failure_message failure_message
        (set_finished_at (if is_terminal status then Some now else None)
          (set_updated_at now x)))))) in
  Ok {| tr_execution := x'; complete_work := complete_all;
        release_capacity := is_terminal status; deadline_work_at := None |}.

Definition cancel_execution (x : AutomationExecution) (now : Z) : res exn ExecutionTransition :=
  do? rraise_if (bool_decide (x_status x = NEEDS_ATTENTION)) ResolutionNotAllowedError in
  match x_status x with
  | QUEUED | INTERRUPTED =>
      let? x' := replace_execution
        (set_status CANCELLED (set_finished_at (Some now) (set_updated_at now x))) in
      Ok {| tr_execution := x'; complete_work := complete_all; release_capacity := true;
            deadline_work_at := None |}
  | RUNNING =>
      let? x' := replace_execution (set_status CANCEL_REQUESTED (set_updated_at now x)) in
      Ok (unchanged x')
  | _ => Ok (unchanged x)
  end.

Definition expire_interrupted (x : AutomationExecution) (now : Z) : res exn ExecutionTransition :=
  do? rraise_if
        (negb (bool_decide (x_status x = INTERRUPTED)) ||
         match x_execution_deadline x with None => true | Some d => now <? d end)
        ClaimLostError in
  finish_execution x TIMED_OUT now JNull
    (Some (u "automation.execution_timeout"))
    (Some (u "Interrupted execution exceeded its deadline")).

(** [ExecutionStatus(resolution.value)] *)
Definition resolution_status (r : AttentionResolution) : ExecutionStatus :=
  match r with
  | RESOLVE_SUCCEEDED => SUCCEEDED
  | RESOLVE_FAILED => FAILED
  | RESOLVE_CANCELLED => CANCELLED
  end.

Definition resolve_execution (x : AutomationExecution) (resolution : AttentionResolution)
    (reason : pystr) (now : Z) : res exn ExecutionTransition :=
  do? rraise_if (bool_decide (reason = []) || negb (bool_decide (reason = strip reason)))
        ValueError in
  do? rraise_if (negb (bool_decide (x_status x = NEEDS_ATTENTION)))
        ResolutionNotAllowedError in
  let status := resolution_status resolution in
  let failed := bool_decide (status = FAILED) in
  let? x' := replace_execution
    (set_status status
      (set_failure_code (if failed then Some (u "automation.explicit_resolution")
                         else x_failure_code x)
        (set_failure_message (if failed then Some reason else None)
          (set_finished_at (Some now) (set_updated_at now x))))) in
  Ok {| tr_execution := x'; complete_work := complete_none; release_capacity := true;
        deadline_work_at := None |}.

Definition recover_expired_claim (x : AutomationExecution) (kind : WorkKind) (now : Z)
    : res exn ExecutionTransition :=
  if bool_decide (kind = EXECUTE) && negb (bool_decide (x_start_authorized_at x = None)) then
    let? x' := replace_execution
      (set_status NEEDS_ATTENTION
        (set_failure_code (Some (u "automation.claim_lost_after_start"))
          (set_failure_message (Some (u "Execution ownership expired after start"))
            (set_updated_at now x)))) in
    Ok {| tr_execution := x'; complete_work := complete_current; release_capacity := false;
          deadline_work_at := None |}
  else Ok (unchanged x).
