(* ===== verification/AutoRulesFacts.v ===== *)
(** Facts about the rules of AutoRules: what a rule changes, when it raises, and
    that it keeps an execution well formed. *)
From S2P Require Import Prelude PyDict PySeq Contracts AutoModels AutoRules.
From Stdlib Require Import Strings.String.

(** ** Definitions *)

(** The constructor of the dataclass accepts the value. *)
Definition exec_valid (x : AutomationExecution) : Prop :=
  AutomationExecution_post_init x = Ok tt.

Definition task_valid (t : AutomationTask) : Prop := AutomationTask_post_init t = Ok tt.

Definition text_valid (s : pystr) (m : option Z) : Prop :=
  validate_persisted_text (PyStr s) m = Ok tt.

(** The fields no rule changes. *)
Definition same_static (x y : AutomationExecution) : Prop :=
  x_execution_id x = x_execution_id y /\ x_task_id x = x_task_id y /\
  x_namespace x = x_namespace y /\ x_owner_id x = x_owner_id y /\
  x_identity x = x_identity y /\ x_target x = x_target y /\ x_input x = x_input y /\
  x_limits x = x_limits y /\ x_origin x = x_origin y /\ x_attempt x = x_attempt y /\
  x_retry_of x = x_retry_of y /\ x_scheduled_for x = x_scheduled_for y /\
  x_queued_at x = x_queued_at y /\ x_queue_deadline x = x_queue_deadline y /\
  x_created_at x = x_created_at y /\ x_task_name x = x_task_name y.

(** ** Lemmas *)

Lemma same_static_refl x : same_static x x.
Proof. unfold same_static. tsplit; done. Qed.

Lemma same_static_trans x y z : same_static x y -> same_static y z -> same_static x z.
Proof.
  destruct x, y, z. unfold same_static. simpl. intros H1 H2. destruct_and!. subst. tsplit; done.
Qed.

Lemma same_static_id x y : same_static x y -> x_execution_id y = x_execution_id x.
Proof. by intros (-> & _). Qed.

#[export] Hint Resolve same_static_refl : py.

Lemma replace_execution_ok x y : replace_execution x = Ok y -> y = x /\ exec_valid x.
Proof.
  unfold replace_execution. intros H. apply rbind_ok in H as ([] & H & H').
  by simplify_eq.
Qed.

Lemma replace_execution_valid x : exec_valid x -> replace_execution x = Ok x.
Proof. unfold replace_execution, exec_valid. by intros ->. Qed.

Lemma replace_task_ok t t' : replace_task t = Ok t' -> t' = t /\ task_valid t.
Proof.
  unfold replace_task. intros H. apply rbind_ok in H as ([] & H & H'). by simplify_eq.
Qed.

Lemma replace_task_valid t : task_valid t -> replace_task t = Ok t.
Proof. unfold replace_task, task_valid. by intros ->. Qed.

Lemma exec_valid_iff x :
  exec_valid x <->
  validate_opt (x_task_name x) (Some 255) = Ok tt /\
  text_valid (x_execution_id x) (Some 36) /\
  validate_opt (x_task_id x) (Some 36) = Ok tt /\
  text_valid (x_namespace x) (Some 128) /\
  text_valid (x_owner_id x) (Some 191) /\
  text_valid (x_target x) (Some 191) /\
  text_valid (i_namespace (x_identity x)) (Some 128) /\
  text_valid (i_thread_id (x_identity x)) None /\
  text_valid (i_run_id (x_identity x)) None /\
  validate_opt (x_retry_of x) (Some 36) = Ok tt /\
  validate_opt (x_failure_code x) None = Ok tt /\
  validate_opt (x_failure_message x) None = Ok tt /\
  validate_each (x_interrupt_ids x) = Ok tt /\
  require_finite_json (JObj (x_input x)) = Ok tt /\
  require_finite_json (x_result x) = Ok tt.
Proof.
  unfold exec_valid, AutomationExecution_post_init, text_valid.
  repeat (rewrite rbind_tt). tauto.
Qed.

Lemma validate_opt_some s m : text_valid s m -> validate_opt (Some s) m = Ok tt.
Proof. done. Qed.

Lemma text_valid_nonempty s m : text_valid s m -> s <> [] /\ s = strip s.
Proof.
  unfold text_valid, validate_persisted_text. rewrite rbind_tt, rraise_if_ok.
  intros [H _]. bool_prop. done.
Qed.

(** Only the listed fields enter the validation of a transition's result. *)
Lemma exec_valid_change x y :
  exec_valid x -> same_static x y ->
  validate_opt (x_failure_code y) None = Ok tt ->
  validate_opt (x_failure_message y) None = Ok tt ->
  validate_each (x_interrupt_ids y) = Ok tt ->
  require_finite_json (x_result y) = Ok tt ->
  exec_valid y.
Proof.
  intros Hx Hs H1 H2 H3 H4. apply exec_valid_iff in Hx. apply exec_valid_iff.
  destruct x, y. unfold same_static in Hs. simpl in *. destruct_and!. subst. tsplit; assumption.
Qed.

Ltac static := unfold same_static; simpl; tsplit; done.

(** A [datetime] that was computed. *)
Lemma check_range_ok t t' : check_range t = Ok t' -> t' = t /\ in_range t = true.
Proof. unfold check_range. destruct (in_range t) eqn:E; [intros [= <-]; done|done]. Qed.

Ltac replace_ok :=
  repeat match goal with
  | v : unit |- _ => destruct v
  | H : rbind _ _ = Ok _ |- _ => apply rbind_ok in H as (? & ? & ?)
  | H : rraise_if _ _ = Ok _ |- _ => apply rraise_if_ok in H
  | H : check_range _ = Ok _ |- _ => apply check_range_ok in H as [-> _]
  | H : replace_execution _ = Ok _ |- _ =>
      let Hv := fresh "Hv" in apply replace_execution_ok in H as [-> Hv]
  | H : Ok _ = Ok _ |- _ => injection H as <-
  | H : Raise _ = Ok _ |- _ => discriminate H
  | H : (if ?b then _ else _) = Ok _ |- _ => destruct b eqn:?
  end.

Section rules.
Implicit Types (x : AutomationExecution) (t : ExecutionTransition).

Lemma validate_each_filter f l :
  validate_each l = Ok tt -> validate_each (List.filter f l) = Ok tt.
Proof.
  induction l as [|s l IH]; simpl; [done|]. rewrite rbind_tt. intros [H1 H2].
  destruct (f s); simpl; [rewrite rbind_tt|]; auto.
Qed.

Lemma validate_each_fromkeys l :
  validate_each l = Ok tt -> validate_each (fromkeys l) = Ok tt.
Proof.
  induction l as [|s l IH]; simpl; [done|]. rewrite !rbind_tt. intros [H1 H2].
  split; [done|]. by apply validate_each_filter, IH.
Qed.

Lemma expire_queued_spec x now t :
  expire_queued x now = Ok t ->
  same_static x (tr_execution t) /\ exec_valid (tr_execution t) /\
  x_status (tr_execution t) = TIMED_OUT /\
  x_start_authorized_at (tr_execution t) = x_start_authorized_at x /\
  complete_work t = complete_current /\ release_capacity t = true /\ deadline_work_at t = None.
Proof. unfold expire_queued. intros H. replace_ok. simpl. split; [static|]. done. Qed.

Lemma expire_queued_total x now : exec_valid x -> exists t, expire_queued x now = Ok t.
Proof.
  intros Hx. unfold expire_queued. rewrite replace_execution_valid; [simpl; eauto|].
  pose proof (proj1 (exec_valid_iff x) Hx).
  eapply exec_valid_change; [exact Hx|static|done|done|simpl; tauto|simpl; tauto].
Qed.

Lemma interrupt_execution_spec x ids now t :
  interrupt_execution x ids now = Ok t ->
  same_static x (tr_execution t) /\ exec_valid (tr_execution t) /\
  x_status (tr_execution t) = INTERRUPTED /\
  x_start_authorized_at (tr_execution t) = x_start_authorized_at x /\
  x_execution_deadline (tr_execution t) = x_execution_deadline x /\
  deadline_work_at t = x_execution_deadline x /\ is_Some (x_execution_deadline x) /\
  complete_work t = complete_current /\ release_capacity t = false.
Proof.
  unfold interrupt_execution. intros H. replace_ok.
  destruct (x_execution_deadline x) as [d|] eqn:Hd; [|done]. replace_ok. simpl.
  rewrite Hd. split; [static|]. tsplit; done.
Qed.

Lemma finish_execution_spec x st now res fc fm t :
  finish_execution x st now res fc fm = Ok t ->
  not_settled st = false /\
  same_static x (tr_execution t) /\ exec_valid (tr_execution t) /\
  x_status (tr_execution t) = st /\
  x_start_authorized_at (tr_execution t) = x_start_authorized_at x /\
  complete_work t = complete_all /\ release_capacity t = is_terminal st /\
  deadline_work_at t = None.
Proof.
  unfold finish_execution. intros H. replace_ok. simpl. split; [done|]. split; [static|].
  tsplit; done.
Qed.

Lemma cancel_execution_spec x now t :
  exec_valid x -> cancel_execution x now = Ok t ->
  same_static x (tr_execution t) /\ exec_valid (tr_execution t) /\
  x_status x <> NEEDS_ATTENTION /\ deadline_work_at t = None /\
  x_start_authorized_at (tr_execution t) = x_start_authorized_at x /\
  x_execution_deadline (tr_execution t) = x_execution_deadline x /\
  match x_status x with
  | QUEUED | INTERRUPTED =>
      x_status (tr_execution t) = CANCELLED /\ complete_work t = complete_all /\
      release_capacity t = true
  | RUNNING =>
      x_status (tr_execution t) = CANCEL_REQUESTED /\ complete_work t = complete_none /\
      release_capacity t = false
  | _ => t = unchanged x
  end.
Proof.
  unfold cancel_execution. intros Hx H. replace_ok. bool_prop.
  destruct (x_status x) eqn:Hs; replace_ok; simpl; rewrite ?Hs;
    (split; [static|]); tsplit; try done.
Qed.

Lemma cancel_execution_total x now :
  exec_valid x -> x_status x <> NEEDS_ATTENTION -> exists t, cancel_execution x now = Ok t.
Proof.
  intros Hx Hn. unfold cancel_execution. rewrite bool_decide_eq_false_2 by done. simpl.
  pose proof (proj1 (exec_valid_iff x) Hx).
  assert (forall y, same_static x y -> x_failure_code y = x_failure_code x ->
    x_failure_message y = x_failure_message x -> x_interrupt_ids y = x_interrupt_ids x ->
    x_result y = x_result x -> replace_execution y = Ok y) as Hy.
  { intros y Hs E1 E2 E3 E4. apply replace_execution_valid.
    eapply exec_valid_change; [exact Hx|done|..]; rewrite ?E1, ?E2, ?E3, ?E4; tauto. }
  destruct (x_status x); try (rewrite Hy; [|static|done..]); simpl; eauto.
Qed.

Lemma expire_interrupted_spec x now t :
  expire_interrupted x now = Ok t ->
  x_status x = INTERRUPTED /\
  same_static x (tr_execution t) /\ exec_valid (tr_execution t) /\
  x_status (tr_execution t) = TIMED_OUT /\
  x_start_authorized_at (tr_execution t) = x_start_authorized_at x /\
  complete_work t = complete_all /\ release_capacity t = true /\ deadline_work_at t = None.
Proof.
  unfold expire_interrupted. intros H. apply rbind_ok in H as ([] & Hg & H).
  apply rraise_if_ok in Hg. bool_prop.
  apply finish_execution_spec in H. destruct_and!. tsplit; done.
Qed.

Lemma expire_interrupted_total x now d :
  exec_valid x -> x_status x = INTERRUPTED -> x_execution_deadline x = Some d -> d <= now ->
  exists t, expire_interrupted x now = Ok t.
Proof.
  intros Hx Hs Hd Hle. unfold expire_interrupted. rewrite Hs, Hd.
  rewrite bool_decide_eq_true_2 by done. simpl.
  replace (now <? d) with false by (symmetry; apply Z.ltb_ge; lia). simpl.
  unfold finish_execution. simpl. rewrite replace_execution_valid; [simpl; eauto|].
  pose proof (proj1 (exec_valid_iff x) Hx).
  eapply exec_valid_change; [exact Hx|static|done|done|simpl; tauto|done].
Qed.

Lemma resolve_execution_spec x r reason now t :
  resolve_execution x r reason now = Ok t ->
  x_status x = NEEDS_ATTENTION /\
  same_static x (tr_execution t) /\ exec_valid (tr_execution t) /\
  x_status (tr_execution t) = resolution_status r /\
  x_start_authorized_at (tr_execution t) = x_start_authorized_at x /\
  complete_work t = complete_none /\ release_capacity t = true /\ deadline_work_at t = None.
Proof.
  unfold resolve_execution. intros H. replace_ok. bool_prop. simpl. split; [done|].
  split; [static|]. tsplit; done.
Qed.

Lemma recover_expired_claim_spec x kind now t :
  exec_valid x -> recover_expired_claim x kind now = Ok t ->
  same_static x (tr_execution t) /\ exec_valid (tr_execution t) /\
  x_start_authorized_at (tr_execution t) = x_start_authorized_at x /\
  release_capacity t = false /\ deadline_work_at t = None /\
  ((kind = EXECUTE /\ is_Some (x_start_authorized_at x) /\
    x_status (tr_execution t) = NEEDS_ATTENTION /\ complete_work t = complete_current) \/
   (~ (kind = EXECUTE /\ is_Some (x_start_authorized_at x)) /\ t = unchanged x)).
Proof.
  unfold recover_expired_claim. intros Hx H.
  destruct (bool_decide (kind = EXECUTE) && negb (bool_decide (x_start_authorized_at x = None)))
    eqn:Hb.
  - bool_prop. replace_ok. simpl. split; [static|]. tsplit; try done. left.
    tsplit; try done. by apply not_eq_None_Some.
  - injection H as <-. simpl. split; [static|]. tsplit; try done. right. split; [|done].
    intros [-> Hs]. rewrite bool_decide_eq_true_2 in Hb by done. simpl in Hb.
    bool_prop. by destruct Hs as [? Hs]; rewrite Hs in Hb.
Qed.

Lemma recover_expired_claim_total x kind now :
  exec_valid x -> exists t, recover_expired_claim x kind now = Ok t.
Proof.
  intros Hx. unfold recover_expired_claim.
  destruct (_ && _); [|eauto]. rewrite replace_execution_valid; [simpl; eauto|].
  pose proof (proj1 (exec_valid_iff x) Hx).
  eapply exec_valid_change; [exact Hx|static|done|done|simpl; tauto|simpl; tauto].
Qed.

Lemma claim_candidate_total x kind now :
  exec_valid x -> exists o, claim_candidate x kind now = Ok o.
Proof.
  intros Hx. unfold claim_candidate. destruct kind.
  - destruct (negb _); [eauto|]. destruct (_ <=? _); [|eauto].
    destruct (expire_queued_total x now Hx) as [t ->]. simpl. eauto.
  - destruct (negb _); eauto.
Qed.

Lemma authorize_start_spec x kind adm now timeout token a :
  authorize_start x kind adm now timeout token = Ok a ->
  kind = EXECUTE /\ x_start_authorized_at x = None /\ x_status x = QUEUED /\ adm = true /\
  same_static x (authorized_execution a) /\ exec_valid (authorized_execution a) /\
  x_status (authorized_execution a) = RUNNING /\
  x_start_authorized_at (authorized_execution a) = Some now /\
  x_execution_deadline (authorized_execution a) = Some (now + timeout) /\
  authorized_token a = token.
Proof.
  unfold authorize_start. intros H. replace_ok. bool_prop. simpl. tsplit; try done.
Qed.
End rules.
