(* ===== verification/AutoMemory.v ===== *)
(** Automation: the in-memory store of memory.py, operation by operation.

    The object's fields are the record [Store].  A [World] adds what an operation
    uses besides the object: how many clock readings and random tokens have been
    taken (the clock and the random source are the streams of [Runtime]), the
    write set [changes] of the running mutation (_notifications.py) and the
    notifications handed to the change service so far.  Every method holds the
    store's lock for its whole body and does not await inside, so a method is one
    atomic step.  A work item is a mutable object that only the dictionary
    [_work] holds: mutations go through its identifier. *)
From S2P Require Import Prelude PyDict PySeq Contracts AutoModels AutoRules.
From Stdlib Require Import Strings.String.

(** ** State *)

Record MemoryStoreLimits : Type := {
  max_tasks : Z;
  max_executions : Z;
  max_work_items : Z;
  max_operations : Z
}.

Definition MemoryStoreLimits_post_init (l : MemoryStoreLimits) : res exn unit :=
  do? rraise_if (max_tasks l <? 1) ValueError in
  do? rraise_if (max_executions l <? 1) ValueError in
  do? rraise_if (max_work_items l <? 1) ValueError in
  rraise_if (max_operations l <? 1) ValueError.

Inductive WorkStatus : Type := PENDING | CLAIMED | COMPLETED.

#[export] Instance WorkStatus_eq_dec : EqDecision WorkStatus.
Proof. solve_decision. Defined.

Record WorkItem : Type := {
  w_work_item_id : pystr;
  w_namespace : pystr;
  w_execution_id : pystr;
  w_kind : WorkKind;
  w_available_at : Z;
  w_created_at : Z;
  w_status : WorkStatus;
  w_worker_id : option pystr;
  w_claim_token : option pystr;
  w_fence : Z;
  w_lease_until : option Z
}.

(** tinkerfin_notifications.Notification, with the scope's two parts. *)
Record Notification : Type := {
  n_namespace : pystr;
  n_owner_id : pystr;
  n_topic : pystr;
  n_key : pystr;
  n_details : list (pystr * option pystr)
}.

Record Store : Type := {
  s_tasks : dict pystr AutomationTask;
  s_executions : dict pystr AutomationExecution;
  s_occurrences : dict (pystr * pystr) pystr;
  s_work : dict pystr WorkItem;
  s_work_keys : dict (pystr * pystr * WorkKind) pystr;
  s_operations : dict (pystr * pystr * pystr) CommandReceipt;
  s_scope_allocations : dict (pystr * pystr * pystr) Z;
  s_admitted : gset pystr;
  s_closed : bool;
  s_limits : MemoryStoreLimits;
  s_notifications : bool
}.

Record World : Type := {
  store : Store;
  clock_reads : nat;
  random_reads : nat;
  changes : dict (pystr * pystr * pystr * pystr) Notification;
  published : list Notification
}.

Definition set_w_available_at (v : Z) (w : WorkItem) : WorkItem :=
  {| w_work_item_id := w_work_item_id w;
     w_namespace := w_namespace w;
     w_execution_id := w_execution_id w;
     w_kind := w_kind w;
     w_available_at := v;
     w_created_at := w_created_at w;
     w_status := w_status w;
     w_worker_id := w_worker_id w;
     w_claim_token := w_claim_token w;
     w_fence := w_fence w;
     w_lease_until := w_lease_until w |}.

Definition set_w_status (v : WorkStatus) (w : WorkItem) : WorkItem :=
  {| w_work_item_id := w_work_item_id w;
     w_namespace := w_namespace w;
     w_execution_id := w_execution_id w;
     w_kind := w_kind w;
     w_available_at := w_available_at w;
     w_created_at := w_created_at w;
     w_status := v;
     w_worker_id := w_worker_id w;
     w_claim_token := w_claim_token w;
     w_fence := w_fence w;
     w_lease_until := w_lease_until w |}.

Definition set_w_worker_id (v : option pystr) (w : WorkItem) : WorkItem :=
  {| w_work_item_id := w_work_item_id w;
     w_namespace := w_namespace w;
     w_execution_id := w_execution_id w;
     w_kind := w_kind w;
     w_available_at := w_available_at w;
     w_created_at := w_created_at w;
     w_status := w_status w;
     w_worker_id := v;
     w_claim_token := w_claim_token w;
     w_fence := w_fence w;
     w_lease_until := w_lease_until w |}.

Definition set_w_claim_token (v : option pystr) (w : WorkItem) : WorkItem :=
  {| w_work_item_id := w_work_item_id w;
     w_namespace := w_namespace w;
     w_execution_id := w_execution_id w;
     w_kind := w_kind w;
     w_available_at := w_available_at w;
     w_created_at := w_created_at w;
     w_status := w_status w;
     w_worker_id := w_worker_id w;
     w_claim_token := v;
     w_fence := w_fence w;
     w_lease_until := w_lease_until w |}.

Definition set_w_fence (v : Z) (w : WorkItem) : WorkItem :=
  {| w_work_item_id := w_work_item_id w;
     w_namespace := w_namespace w;
     w_execution_id := w_execution_id w;
     w_kind := w_kind w;
     w_available_at := w_available_at w;
     w_created_at := w_created_at w;
     w_status := w_status w;
     w_worker_id := w_worker_id w;
     w_claim_token := w_claim_token w;
     w_fence := v;
     w_lease_until := w_lease_until w |}.

Definition set_w_lease_until (v : option Z) (w : WorkItem) : WorkItem :=
  {| w_work_item_id := w_work_item_id w;
     w_namespace := w_namespace w;
     w_execution_id := w_execution_id w;
     w_kind := w_kind w;
     w_available_at := w_available_at w;
     w_created_at := w_created_at w;
     w_status := w_status w;
     w_worker_id := w_worker_id w;
     w_claim_token := w_claim_token w;
     w_fence := w_fence w;
     w_lease_until := v |}.

Definition set_s_tasks (v : dict pystr AutomationTask) (s : Store) : Store :=
  {| s_tasks := v;
     s_executions := s_executions s;
     s_occurrences := s_occurrences s;
     s_work := s_work s;
     s_work_keys := s_work_keys s;
     s_operations := s_operations s;
     s_scope_allocations := s_scope_allocations s;
     s_admitted := s_admitted s;
     s_closed := s_closed s;
     s_limits := s_limits s;
     s_notifications := s_notifications s |}.

Definition set_s_executions (v : dict pystr AutomationExecution) (s : Store) : Store :=
  {| s_tasks := s_tasks s;
     s_executions := v;
     s_occurrences := s_occurrences s;
     s_work := s_work s;
     s_work_keys := s_work_keys s;
     s_operations := s_operations s;
     s_scope_allocations := s_scope_allocations s;
     s_admitted := s_admitted s;
     s_closed := s_closed s;
     s_limits := s_limits s;
     s_notifications := s_notifications s |}.

Definition set_s_occurrences (v : dict (pystr * pystr) pystr) (s : Store) : Store :=
  {| s_tasks := s_tasks s;
     s_executions := s_executions s;
     s_occurrences := v;
     s_work := s_work s;
     s_work_keys := s_work_keys s;
     s_operations := s_operations s;
     s_scope_allocations := s_scope_allocations s;
     s_admitted := s_admitted s;
     s_closed := s_closed s;
     s_limits := s_limits s;
     s_notifications := s_notifications s |}.

Definition set_s_work (v : dict pystr WorkItem) (s : Store) : Store :=
  {| s_tasks := s_tasks s;
     s_executions := s_executions s;
     s_occurrences := s_occurrences s;
     s_work := v;
     s_work_keys := s_work_keys s;
     s_operations := s_operations s;
     s_scope_allocations := s_scope_allocations s;
     s_admitted := s_admitted s;
     s_closed := s_closed s;
     s_limits := s_limits s;
     s_notifications := s_notifications s |}.

Definition set_s_work_keys (v : dict (pystr * pystr * WorkKind) pystr) (s : Store) : Store :=
  {| s_tasks := s_tasks s;
     s_executions := s_executions s;
     s_occurrences := s_occurrences s;
     s_work := s_work s;
     s_work_keys := v;
     s_operations := s_operations s;
     s_scope_allocations := s_scope_allocations s;
     s_admitted := s_admitted s;
     s_closed := s_closed s;
     s_limits := s_limits s;
     s_notifications := s_notifications s |}.

Definition set_s_operations (v : dict (pystr * pystr * pystr) CommandReceipt) (s : Store) : Store :=
  {| s_tasks := s_tasks s;
     s_executions := s_executions s;
     s_occurrences := s_occurrences s;
     s_work := s_work s;
     s_work_keys := s_work_keys s;
     s_operations := v;
     s_scope_allocations := s_scope_allocations s;
     s_admitted := s_admitted s;
     s_closed := s_closed s;
     s_limits := s_limits s;
     s_notifications := s_notifications s |}.

Definition set_s_scope_allocations (v : dict (pystr * pystr * pystr) Z) (s : Store) : Store :=
  {| s_tasks := s_tasks s;
     s_executions := s_executions s;
     s_occurrences := s_occurrences s;
     s_work := s_work s;
     s_work_keys := s_work_keys s;
     s_operations := s_operations s;
     s_scope_allocations := v;
     s_admitted := s_admitted s;
     s_closed := s_closed s;
     s_limits := s_limits s;
     s_notifications := s_notifications s |}.

Definition set_s_admitted (v : gset pystr) (s : Store) : Store :=
  {| s_tasks := s_tasks s;
     s_executions := s_executions s;
     s_occurrences := s_occurrences s;
     s_work := s_work s;
     s_work_keys := s_work_keys s;
     s_operations := s_operations s;
     s_scope_allocations := s_scope_allocations s;
     s_admitted := v;
     s_closed := s_closed s;
     s_limits := s_limits s;
     s_notifications := s_notifications s |}.

Definition set_s_closed (v : bool) (s : Store) : Store :=
  {| s_tasks := s_tasks s;
     s_executions := s_executions s;
     s_occurrences := s_occurrences s;
     s_work := s_work s;
     s_work_keys := s_work_keys s;
     s_operations := s_operations s;
     s_scope_allocations := s_scope_allocations s;
     s_admitted := s_admitted s;
     s_closed := v;
     s_limits := s_limits s;
     s_notifications := s_notifications s |}.

Definition set_store (v : Store) (w : World) : World :=
  {| store := v;
     clock_reads := clock_reads w;
     random_reads := random_reads w;
     changes := changes w;
     published := published w |}.

Definition set_clock_reads (v : nat) (w : World) : World :=
  {| store := store w;
     clock_reads := v;
     random_reads := random_reads w;
     changes := changes w;
     published := published w |}.

Definition set_random_reads (v : nat) (w : World) : World :=
  {| store := store w;
     clock_reads := clock_reads w;
     random_reads := v;
     changes := changes w;
     published := published w |}.

Definition set_changes (v : dict (pystr * pystr * pystr * pystr) Notification) (w : World) : World :=
  {| store := store w;
     clock_reads := clock_reads w;
     random_reads := random_reads w;
     changes := v;
     published := published w |}.

Definition set_published (v : list Notification) (w : World) : World :=
  {| store := store w;
     clock_reads := clock_reads w;
     random_reads := random_reads w;
     changes := changes w;
     published := v |}.

(** The clock, the random source ([uuid4], [secrets.token_hex]) and the Unicode
    case folding of [str.casefold], which the standard library provides. *)
Class Runtime : Type := {
  clock_now : nat -> Z;
  random_token : nat -> pystr;
  casefold : pystr -> pystr
}.

Section memory.
Context {runtime : Runtime} {codec : CursorCodec}.

Abbreviation Op := (M World exn).

Definition on_store (f : Store -> Store) : Op unit := modify (fun w => set_store (f (store w)) w).

Definition from_store {A} (f : Store -> A) : Op A := gets (fun w => f (store w)).

(** [self._clock.now()] *)
Definition now : Op Z := fun w =>
  (Ok (clock_now (clock_reads w)), set_clock_reads (S (clock_reads w)) w).

(** [str(uuid4())], [secrets.token_hex(...)] *)
Definition fresh_token : Op pystr := fun w =>
  (Ok (random_token (random_reads w)), set_random_reads (S (random_reads w)) w).

(** ** The write set (_notifications.py) *)

Definition add_change (n : Notification) : Op unit :=
  modify (fun w => set_changes
    (dset (changes w) (n_namespace n, n_owner_id n, n_topic n, n_key n) n) w).

Definition change_task (t : AutomationTask) : Op unit :=
  add_change {| n_namespace := t_namespace t; n_owner_id := t_owner_id t;
                n_topic := u "automation.task.changed"; n_key := t_task_id t;
                n_details := [] |}.

Definition change_execution (x : AutomationExecution) : Op unit :=
  add_change {| n_namespace := x_namespace x; n_owner_id := x_owner_id x;
                n_topic := u "automation.execution.changed"; n_key := x_execution_id x;
                n_details := [ (u "task_id", x_task_id x);
                               (u "runtime_namespace", Some (i_namespace (x_identity x)));
                               (u "thread_id", Some (i_thread_id (x_identity x)));
                               (u "run_id", Some (i_run_id (x_identity x))) ] |}.

(** [await changes.publish(self._notifications)]: a failed hint is logged and
    dropped, so publication cannot raise into the operation. *)
Definition publish (w : World) : World :=
  set_published
    (if s_notifications (store w) then published w ++ dvals (changes w) else published w) w.

(** [async with self._mutation() as changes]: the write set is published only
    when the body returns. *)
Definition mutation {A} (body : Op A) : Op A := fun w =>
  match body (set_changes [] w) with
  | (Ok a, w') => (Ok a, set_changes [] (publish w'))
  | (Raise e, w') => (Raise e, set_changes [] w')
  end.

(** ** Shared helpers *)

Definition validate_scope (namespace owner_id : pystr) : res exn unit :=
  do? validate_persisted_text (PyStr namespace) (Some 128) in
  validate_persisted_text (PyStr owner_id) (Some 191).

Definition snapshot_task (t : AutomationTask) : res exn AutomationTask := replace_task t.

Definition snapshot_execution (x : AutomationExecution) : res exn AutomationExecution :=
  replace_execution x.

(** [_snapshot] on a stored command result. *)
Definition snapshot (r : CommandResult) : res exn CommandResult :=
  match r with
  | ResultTask t => let? t' := snapshot_task t in Ok (ResultTask t')
  | ResultExecution x => let? x' := snapshot_execution x in Ok (ResultExecution x')
  | ResultStr s => Ok (ResultStr s)
  end.

Fixpoint snapshots {A} (f : A -> res exn A) (l : list A) : res exn (list A) :=
  match l with
  | [] => Ok []
  | x :: l' => let? y := f x in let? ys := snapshots f l' in Ok (y :: ys)
  end.

Definition ensure_open : Op unit :=
  let* c := from_store s_closed in raise_if c AutomationStoreError.

Definition ensure_capacity (current maximum : Z) : Op unit :=
  raise_if (maximum <=? current) AutomationStoreError.

Definition owned_task (namespace owner_id task_id : pystr) : Op AutomationTask :=
  let* task := from_store (fun s => dget (s_tasks s) task_id) in
  match task with
  | None => raise TaskNotFoundError
  | Some t =>
      do* raise_if (negb (bool_decide (t_namespace t = namespace)) ||
                    negb (bool_decide (t_owner_id t = owner_id))) TaskNotFoundError in
      ret t
  end.

Definition owned_execution (namespace owner_id execution_id : pystr) : Op AutomationExecution :=
  let* execution := from_store (fun s => dget (s_executions s) execution_id) in
  match execution with
  | None => raise ExecutionNotFoundError
  | Some x =>
      do* raise_if (negb (bool_decide (x_namespace x = namespace)) ||
                    negb (bool_decide (x_owner_id x = owner_id))) ExecutionNotFoundError in
      ret x
  end.

Definition operation_result (namespace owner_id : pystr) (request_id : option pystr)
    (digest : pystr) : Op (option CommandResult) :=
  match request_id with
  | None => ret None
  | Some r =>
      let* operation := from_store (fun s => dget (s_operations s) (namespace, owner_id, r)) in
      match operation with
      | None => ret None
      | Some receipt =>
          do* raise_if (negb (bool_decide (input_digest receipt = digest)))
                RequestConflictError in
          ret (Some (receipt_result receipt))
      end
  end.

Definition require_operation_capacity (request_id : option pystr) : Op unit :=
  match request_id with
  | None => ret tt
  | Some _ =>
      let* s := from_store id in
      ensure_capacity (zlen (s_operations s)) (max_operations (s_limits s))
  end.

Definition save_operation (namespace owner_id : pystr) (request_id : option pystr)
    (digest : pystr) (result : CommandResult) : Op unit :=
  match request_id with
  | None => ret tt
  | Some r =>
      let* s := from_store id in
      do* ensure_capacity (zlen (s_operations s)) (max_operations (s_limits s)) in
      let* result' := lift (snapshot result) in
      on_store (fun s => set_s_operations
        (dset (s_operations s) (namespace, owner_id, r)
           {| input_digest := digest; receipt_result := result' |}) s)
  end.

(** [_expect_result(result, AutomationTask)] and its two other instances. *)
Definition expect_task (r : CommandResult) : Op AutomationTask :=
  match r with ResultTask t => lift (snapshot_task t) | _ => raise AutomationStoreError end.

Definition expect_execution (r : CommandResult) : Op AutomationExecution :=
  match r with
  | ResultExecution x => lift (snapshot_execution x)
  | _ => raise AutomationStoreError
  end.

Definition expect_str (r : CommandResult) : Op pystr :=
  match r with ResultStr s => ret s | _ => raise AutomationStoreError end.

(** [self._executions[execution_id]], [self._work[work_item_id]] *)
Definition get_execution_record (execution_id : pystr) : Op AutomationExecution :=
  let* x := from_store (fun s => dget (s_executions s) execution_id) in some_or x KeyError.

Definition get_work_record (work_item_id : pystr) : Op WorkItem :=
  let* w := from_store (fun s => dget (s_work s) work_item_id) in some_or w KeyError.

Definition put_execution (x : AutomationExecution) : Op unit :=
  on_store (fun s => set_s_executions (dset (s_executions s) (x_execution_id x) x) s).

Definition put_task (t : AutomationTask) : Op unit :=
  on_store (fun s => set_s_tasks (dset (s_tasks s) (t_task_id t) t) s).

(** Assignments to attributes of the work item stored under an identifier. *)
Definition update_work (work_item_id : pystr) (f : WorkItem -> WorkItem) : Op unit :=
  on_store (fun s => set_s_work (dupd (s_work s) work_item_id f) s).

(** [item.worker_id = item.claim_token = item.lease_until = None] *)
Definition clear_claim (w : WorkItem) : WorkItem :=
  set_w_lease_until None (set_w_claim_token None (set_w_worker_id None w)).

Definition completed (w : WorkItem) : WorkItem := clear_claim (set_w_status COMPLETED w).

Definition reset_work (available_at : Z) (w : WorkItem) : WorkItem :=
  clear_claim (set_w_status PENDING (set_w_available_at available_at w)).

Definition create_work (x : AutomationExecution) (kind : WorkKind) (available_at : Z)
    : Op unit :=
  let key := (x_namespace x, x_execution_id x, kind) in
  let* existing_id := from_store (fun s => dget (s_work_keys s) key) in
  match existing_id with
  | Some existing =>
      do* get_work_record existing in
      update_work existing (reset_work available_at)
  | None =>
      let* s := from_store id in
      do* ensure_capacity (zlen (s_work s)) (max_work_items (s_limits s)) in
      let* work_item_id := fresh_token in
      let* created_at := now in
      let item := {| w_work_item_id := work_item_id; w_namespace := x_namespace x;
                     w_execution_id := x_execution_id x; w_kind := kind;
                     w_available_at := available_at; w_created_at := created_at;
                     w_status := PENDING; w_worker_id := None; w_claim_token := None;
                     w_fence := 0; w_lease_until := None |} in
      on_store (fun s => set_s_work_keys (dset (s_work_keys s) key work_item_id)
                           (set_s_work (dset (s_work s) work_item_id item) s))
  end.

Definition complete_execution_work (execution_id : pystr) : Op unit :=
  on_store (fun s => set_s_work
    (dmap (fun w => if bool_decide (w_execution_id w = execution_id) then completed w else w)
       (s_work s)) s).

(** The two scopes an admitted execution is counted in. *)
Definition global_key (x : AutomationExecution) : pystr * pystr * pystr :=
  (x_namespace x, u "global", u "global").

Definition scope_key (x : AutomationExecution) : pystr * pystr * pystr :=
  (x_namespace x, (execution_scope x).1, (execution_scope x).2).

Definition allocated (s : Store) (key : pystr * pystr * pystr) : Z :=
  match dget (s_scope_allocations s) key with Some n => n | None => 0 end.

Definition allocate (key : pystr * pystr * pystr) (s : Store) : Store :=
  set_s_scope_allocations (dset (s_scope_allocations s) key (allocated s key + 1)) s.

Definition deallocate (key : pystr * pystr * pystr) (s : Store) : Store :=
  set_s_scope_allocations
    (if allocated s key <=? 1 then ddel (s_scope_allocations s) key
     else dset (s_scope_allocations s) key (allocated s key - 1)) s.

Definition reserve_scopes (x : AutomationExecution) (global_concurrency : Z) : Op bool :=
  let* s := from_store id in
  if bool_decide (x_execution_id x ∈ s_admitted s) then ret true
  else if global_concurrency <=? allocated s (global_key x) then ret false
  else if max_concurrent_runs (x_limits x) <=? allocated s (scope_key x) then ret false
  else
    do* on_store (allocate (global_key x)) in
    do* on_store (allocate (scope_key x)) in
    do* on_store (fun s => set_s_admitted ({[x_execution_id x]} ∪ s_admitted s) s) in
    ret true.

Definition release_scopes (x : AutomationExecution) : Op unit :=
  let* s := from_store id in
  if negb (bool_decide (x_execution_id x ∈ s_admitted s)) then ret tt
  else
    do* on_store (deallocate (global_key x)) in
    do* on_store (deallocate (scope_key x)) in
    on_store (fun s => set_s_admitted (s_admitted s ∖ {[x_execution_id x]}) s).

Definition apply_transition (t : ExecutionTransition) (item : option pystr)
    : Op AutomationExecution :=
  let x := tr_execution t in
  do* match deadline_work_at t with
      | None => ret tt
      | Some _ =>
          let* s := from_store id in
          when (negb (dmem (s_work_keys s) (x_namespace x, x_execution_id x, EXPIRE_INTERRUPT)))
            (ensure_capacity (zlen (s_work s)) (max_work_items (s_limits s)))
      end in
  do* put_execution x in
  do* change_execution x in
  do* match complete_work t with
      | complete_all => complete_execution_work (x_execution_id x)
      | complete_current =>
          match item with
          | None => raise AssertionError
          | Some work_item_id => update_work work_item_id completed
          end
      | complete_none => ret tt
      end in
  do* when (release_capacity t) (release_scopes x) in
  do* match deadline_work_at t with
      | Some deadline => create_work x EXPIRE_INTERRUPT deadline
      | None => ret tt
      end in
  ret x.

(** One iteration of [_recover_expired_claims]. *)
Definition recover_item (namespace : pystr) (now : Z) (work_item_id : pystr) : Op unit :=
  let* item := get_work_record work_item_id in
  when (bool_decide (w_namespace item = namespace) &&
        bool_decide (w_status item = CLAIMED) &&
        match w_lease_until item with Some l => l <=? now | None => false end)
    (let* x := get_execution_record (w_execution_id item) in
     let* t := lift (recover_expired_claim x (w_kind item) now) in
     do* apply_transition t (Some work_item_id) in
     do* when (match complete_work t with complete_none => true | _ => false end)
           (update_work work_item_id (set_w_status PENDING)) in
     update_work work_item_id clear_claim).

Definition recover_expired_claims (namespace : pystr) (now : Z) : Op unit :=
  let* ids := from_store (fun s => dkeys (s_work s)) in
  for_each (recover_item namespace now) ids.

Definition valid_claim (claim : WorkItemClaim) : Op WorkItem :=
  do* ensure_open in
  let* item := from_store (fun s => dget (s_work s) (c_work_item_id claim)) in
  let* now := now in
  match item with
  | None => raise ClaimLostError
  | Some w =>
      do* raise_if
            (negb (bool_decide (w_namespace w = c_namespace claim)) ||
             negb (bool_decide (w_execution_id w = c_execution_id claim)) ||
             negb (bool_decide (w_status w = CLAIMED)) ||
             negb (bool_decide (w_claim_token w = Some (c_claim_token claim))) ||
             negb (w_fence w =? c_fence claim) ||
             match w_lease_until w with None => true | Some l => l <=? now end)
            ClaimLostError in
      ret w
  end.

Definition claim_from (w : WorkItem) : Op WorkItemClaim :=
  match w_claim_token w, w_lease_until w with
  | Some token, Some lease =>
      ret {| c_work_item_id := w_work_item_id w; c_namespace := w_namespace w;
             c_execution_id := w_execution_id w; c_kind := w_kind w;
             c_claim_token := token; c_fence := w_fence w; c_lease_until := lease |}
  | _, _ => raise AssertionError
  end.

Definition validate_page_limit (limit : Z) : res exn unit :=
  rraise_if (negb ((1 <=? limit) && (limit <=? 100))) ValueError.

(** [items[: n]], [items[limit - 1]] *)
Definition first_n {A} (n : Z) (l : list A) : list A := take (Z.to_nat n) l.

Definition item_at {A} (n : Z) (l : list A) : option A := l !! Z.to_nat n.

(** [for index, item in enumerate(items): if item.id == cursor: return items[index+1:]] *)
Fixpoint after_id {A} (id_of : A -> pystr) (cursor : pystr) (items : list A) : list A :=
  match items with
  | [] => []
  | x :: l => if bool_decide (id_of x = cursor) then l else after_id id_of cursor l
  end.

Definition page_after {A} (id_of : A -> pystr) (items : list A) (cursor : option pystr)
    (limit : Z) : list A :=
  match cursor with
  | None => first_n (limit + 1) items
  | Some c => first_n (limit + 1) (after_id id_of c items)
  end.

Definition matches_name (name_contains : option pystr) (name : pystr) : bool :=
  match name_contains with
  | None => true
  | Some [] => true
  | Some n => contains (casefold n) (casefold name)
  end.

Definition matches_tasks (t : AutomationTask) (f : TaskFilter) : bool :=
  matches_name (tf_name_contains f) (t_name t) &&
  (bool_decide (tf_statuses f = []) || bool_decide (t_status t ∈ tf_statuses f)).

Definition matches_executions (x : AutomationExecution) (f : ExecutionFilter) : bool :=
  matches_name (ef_name_contains f)
    match x_task_name x with Some n => n | None => [] end &&
  (bool_decide (ef_statuses f = []) || bool_decide (x_status x ∈ ef_statuses f)) &&
  match ef_queued_from f with None => true | Some a => a <=? x_queued_at x end &&
  match ef_queued_until f with None => true | Some b => x_queued_at x <? b end.
End memory.
