(* ===== verification/AutoInvariant.v ===== *)
(** Automation: the invariant of the in-memory store and the ways its state may
    evolve, with the lemmas that each mutation keeps the one and follows the
    other.  The operations themselves are treated in AutoStoreFacts. *)
From S2P Require Import Prelude PyDict PySeq AutoModels AutoRules AutoRulesFacts AutoMemory.
From S2P Require Import Contracts.
From Stdlib Require Import Strings.String.

(** ** Definitions *)

Definition live (w : WorkItem) : Prop := w_status w <> COMPLETED.

(** What the status of an execution says about its start and its admission. *)
Record exec_life (admitted : Prop) (x : AutomationExecution) : Prop := {
  el_terminal : is_terminal (x_status x) = true -> ~ admitted;
  el_queued : x_status x = QUEUED ->
    x_start_authorized_at x = None /\ x_execution_deadline x = None;
  el_started : x_status x = RUNNING \/ x_status x = INTERRUPTED \/ x_status x = CANCEL_REQUESTED ->
    admitted /\ is_Some (x_start_authorized_at x) /\ is_Some (x_execution_deadline x);
  el_attention : x_status x = NEEDS_ATTENTION -> admitted
}.

(** What a work item that is not completed says about its execution. *)
Record work_life (admitted : Prop) (x : AutomationExecution) (w : WorkItem) : Prop := {
  wl_execute : live w -> w_kind w = EXECUTE ->
    (w_status w = PENDING /\ x_status x = QUEUED) \/
    (w_status w = CLAIMED /\ admitted /\
     (x_status x = QUEUED \/ x_status x = RUNNING \/ x_status x = CANCEL_REQUESTED));
  wl_expire : live w -> w_kind w = EXPIRE_INTERRUPT ->
    x_status x = INTERRUPTED /\ x_execution_deadline x = Some (w_available_at w);
  wl_claim : w_status w = CLAIMED -> is_Some (w_claim_token w)
}.

(** The executions counted under an allocation key. *)
Definition counts_in (key : pystr * pystr * pystr) (s : Store) (x : AutomationExecution) : bool :=
  bool_decide (x_execution_id x ∈ s_admitted s) &&
  (bool_decide (global_key x = key) || bool_decide (scope_key x = key)).

Definition admitted_in (key : pystr * pystr * pystr) (s : Store) : Z :=
  count (counts_in key s) (dvals (s_executions s)).

Record wf (s : Store) : Prop := {
  wf_tasks : dwf (s_tasks s);
  wf_executions : dwf (s_executions s);
  wf_work : dwf (s_work s);
  wf_task : forall id t, dget (s_tasks s) id = Some t -> t_task_id t = id /\ task_valid t;
  wf_execution : forall id x, dget (s_executions s) id = Some x ->
    x_execution_id x = id /\ exec_valid x;
  wf_work_item : forall id w, dget (s_work s) id = Some w ->
    w_work_item_id w = id /\
    dget (s_work_keys s) (w_namespace w, w_execution_id w, w_kind w) = Some id /\
    exists x, dget (s_executions s) (w_execution_id w) = Some x /\ x_namespace x = w_namespace w;
  wf_work_key : forall ns xid k id, dget (s_work_keys s) (ns, xid, k) = Some id ->
    exists w, dget (s_work s) id = Some w /\ w_namespace w = ns /\ w_execution_id w = xid /\
              w_kind w = k;
  wf_occurrence : forall k id, dget (s_occurrences s) k = Some id ->
    is_Some (dget (s_executions s) id);
  wf_operation : forall k r, dget (s_operations s) k = Some r ->
    snapshot (receipt_result r) = Ok (receipt_result r);
  wf_admitted : forall id, id ∈ s_admitted s -> is_Some (dget (s_executions s) id)
}.

Definition accounted (s : Store) : Prop :=
  forall key, allocated s key = admitted_in key s /\
              forall n, dget (s_scope_allocations s) key = Some n -> 0 < n.

Definition life_of (s : Store) (id : pystr) (x : AutomationExecution) : Prop :=
  exec_life (id ∈ s_admitted s) x /\
  forall wid w, dget (s_work s) wid = Some w -> w_execution_id w = id ->
    work_life (id ∈ s_admitted s) x w.

Definition lives (s : Store) : Prop :=
  forall id x, dget (s_executions s) id = Some x -> life_of s id x.

Definition bounded (s : Store) : Prop :=
  zlen (s_tasks s) <= max_tasks (s_limits s) /\
  zlen (s_executions s) <= max_executions (s_limits s) /\
  zlen (s_work s) <= max_work_items (s_limits s) /\
  zlen (s_operations s) <= max_operations (s_limits s).

Record inv (s : Store) : Prop := {
  inv_wf : wf s;
  inv_accounted : accounted s;
  inv_lives : lives s;
  inv_bounded : bounded s
}.

(** How the store may change over any number of operations. *)
Record evolves (s s' : Store) : Prop := {
  ev_limits : s_limits s' = s_limits s;
  ev_notifications : s_notifications s' = s_notifications s;
  ev_execution : forall id x, dget (s_executions s) id = Some x ->
    exists x', dget (s_executions s') id = Some x' /\ same_static x x' /\
      (is_terminal (x_status x) = true -> x' = x) /\
      (forall a, x_start_authorized_at x = Some a -> x_start_authorized_at x' = Some a);
  ev_work : forall id w, dget (s_work s) id = Some w ->
    exists w', dget (s_work s') id = Some w' /\ w_execution_id w' = w_execution_id w /\
      w_kind w' = w_kind w /\ w_fence w <= w_fence w';
  ev_operation : forall k r, dget (s_operations s) k = Some r -> dget (s_operations s') k = Some r;
  ev_occurrence : forall k id, dget (s_occurrences s) k = Some id ->
    dget (s_occurrences s') k = Some id;
  ev_closed : s_closed s = true -> s_closed s' = true
}.

(** The store part of [put_execution], of the completion of work, of
    [release_scopes] and of [apply_transition] without deadline work. *)
Definition put_pure (x : AutomationExecution) (s : Store) : Store :=
  set_s_executions (dset (s_executions s) (x_execution_id x) x) s.

Definition complete_pure (c : CompleteWork) (item : option pystr) (xid : pystr) (s : Store) : Store :=
  match c, item with
  | complete_all, _ =>
      set_s_work (dmap (fun w => if bool_decide (w_execution_id w = xid) then completed w else w)
                    (s_work s)) s
  | complete_current, Some id => set_s_work (dupd (s_work s) id completed) s
  | _, _ => s
  end.

Definition release_pure (x : AutomationExecution) (s : Store) : Store :=
  if bool_decide (x_execution_id x ∈ s_admitted s) then
    let s2 := deallocate (scope_key x) (deallocate (global_key x) s) in
    set_s_admitted (s_admitted s2 ∖ {[x_execution_id x]}) s2
  else s.

Definition apply_pure (t : ExecutionTransition) (item : option pystr) (s : Store) : Store :=
  let x := tr_execution t in
  let s2 := complete_pure (complete_work t) item (x_execution_id x) (put_pure x s) in
  if release_capacity t then release_pure x s2 else s2.

(** The image of a work item under the completion of [apply_pure]. *)
Definition complete_item (c : CompleteWork) (item : option pystr) (xid wid : pystr)
    (w : WorkItem) : WorkItem :=
  match c, item with
  | complete_all, _ => if bool_decide (w_execution_id w = xid) then completed w else w
  | complete_current, Some id => if bool_decide (id = wid) then completed w else w
  | _, _ => w
  end.

Implicit Types (s : Store) (x y : AutomationExecution) (w : WorkItem) (t : ExecutionTransition).

(** ** Evolution is a preorder *)

Lemma evolves_refl s : evolves s s.
Proof.
  split; try done.
  - intros id x H. exists x. split; [done|]. split; [apply same_static_refl|done].
  - intros id w H. exists w. tsplit; try done.
Qed.

Lemma evolves_trans s1 s2 s3 : evolves s1 s2 -> evolves s2 s3 -> evolves s1 s3.
Proof.
  intros H1 H2. split.
  - by rewrite (ev_limits _ _ H2), (ev_limits _ _ H1).
  - by rewrite (ev_notifications _ _ H2), (ev_notifications _ _ H1).
  - intros id x Hx. destruct (ev_execution _ _ H1 _ _ Hx) as (y & Hy & Hs & Ht & Ha).
    destruct (ev_execution _ _ H2 _ _ Hy) as (z & Hz & Hs' & Ht' & Ha').
    exists z. split; [done|]. split; [by eapply same_static_trans|]. split; [|auto].
    intros Hterm. pose proof (Ht Hterm) as ->. auto.
  - intros id w Hw. destruct (ev_work _ _ H1 _ _ Hw) as (y & Hy & ? & ? & ?).
    destruct (ev_work _ _ H2 _ _ Hy) as (z & Hz & ? & ? & ?).
    exists z. split; [done|]. tsplit; [congruence|congruence|lia].
  - intros k r Hr. by apply (ev_operation _ _ H2), (ev_operation _ _ H1).
  - intros k r Hr. by apply (ev_occurrence _ _ H2), (ev_occurrence _ _ H1).
  - intros Hc. by apply (ev_closed _ _ H2), (ev_closed _ _ H1).
Qed.

#[export] Instance evolves_preorder : PreOrder evolves.
Proof. split; [exact evolves_refl|exact evolves_trans]. Qed.

(** ** Keys of an execution *)

Lemma global_key_static x y : same_static x y -> global_key y = global_key x.
Proof. unfold same_static, global_key. intros. destruct_and!. congruence. Qed.

Lemma scope_key_static x y : same_static x y -> scope_key y = scope_key x.
Proof.
  unfold same_static, scope_key, execution_scope. intros (Hid & Ht & Hn & Ho & _).
  rewrite <-Ht, <-Hn, <-Ho. done.
Qed.

Lemma global_ne_scope x y : global_key x <> scope_key y.
Proof.
  unfold global_key, scope_key, execution_scope.
  destruct (x_task_id y); simpl; intros H; injection H; done.
Qed.

(** ** Reading the images of the pure mutations *)

Lemma release_pure_fields x s :
  s_tasks (release_pure x s) = s_tasks s /\
  s_executions (release_pure x s) = s_executions s /\
  s_occurrences (release_pure x s) = s_occurrences s /\
  s_work (release_pure x s) = s_work s /\
  s_work_keys (release_pure x s) = s_work_keys s /\
  s_operations (release_pure x s) = s_operations s /\
  s_closed (release_pure x s) = s_closed s /\
  s_limits (release_pure x s) = s_limits s /\
  s_notifications (release_pure x s) = s_notifications s.
Proof. unfold release_pure. destruct (bool_decide _); simpl; done. Qed.

Lemma complete_pure_fields c item xid s :
  s_tasks (complete_pure c item xid s) = s_tasks s /\
  s_executions (complete_pure c item xid s) = s_executions s /\
  s_occurrences (complete_pure c item xid s) = s_occurrences s /\
  s_work_keys (complete_pure c item xid s) = s_work_keys s /\
  s_operations (complete_pure c item xid s) = s_operations s /\
  s_scope_allocations (complete_pure c item xid s) = s_scope_allocations s /\
  s_admitted (complete_pure c item xid s) = s_admitted s /\
  s_closed (complete_pure c item xid s) = s_closed s /\
  s_limits (complete_pure c item xid s) = s_limits s /\
  s_notifications (complete_pure c item xid s) = s_notifications s.
Proof. unfold complete_pure. destruct c, item; simpl; done. Qed.

Lemma complete_pure_work c item xid s wid :
  dget (s_work (complete_pure c item xid s)) wid =
  complete_item c item xid wid <$> dget (s_work s) wid.
Proof.
  unfold complete_pure, complete_item.
  destruct c, item as [id|]; simpl; try (by destruct (dget (s_work s) wid));
    rewrite ?dget_dmap; [|done..].
  rewrite dget_dupd. destruct (decide (id = wid)) as [->|Hne].
  - by rewrite bool_decide_eq_true_2.
  - rewrite bool_decide_eq_false_2 by done. by destruct (dget (s_work s) wid).
Qed.

Lemma complete_pure_dwf c item xid s : dwf (s_work s) -> dwf (s_work (complete_pure c item xid s)).
Proof. unfold complete_pure. destruct c, item; simpl; auto with py. Qed.

Lemma complete_pure_len c item xid s :
  zlen (s_work (complete_pure c item xid s)) = zlen (s_work s).
Proof. unfold complete_pure. destruct c, item; simpl; by rewrite ?zlen_dmap, ?zlen_dupd. Qed.

Lemma complete_item_ids c item xid wid w :
  w_work_item_id (complete_item c item xid wid w) = w_work_item_id w /\
  w_namespace (complete_item c item xid wid w) = w_namespace w /\
  w_execution_id (complete_item c item xid wid w) = w_execution_id w /\
  w_kind (complete_item c item xid wid w) = w_kind w /\
  w_fence (complete_item c item xid wid w) = w_fence w.
Proof. unfold complete_item. destruct c, item; try destruct (bool_decide _); done. Qed.

Lemma work_life_completed adm x w : work_life adm x (completed w).
Proof. split; unfold live; simpl; done. Qed.

#[export] Hint Resolve work_life_completed : py.

(** ** Accounting *)

Lemma allocated_deallocate key k s :
  allocated (deallocate key s) k =
  (if decide (key = k) then Z.max 0 (allocated s k - 1) else allocated s k) \/
  (allocated s key <= 0 /\ key = k /\ allocated (deallocate key s) k = 0).
Proof.
  unfold allocated, deallocate. simpl.
  destruct (allocated s key <=? 1) eqn:H1.
  - rewrite dget_ddel. destruct (decide (key = k)) as [->|]; [|by left].
    apply Z.leb_le in H1. unfold allocated in H1. left. lia.
  - rewrite dget_dset. apply Z.leb_gt in H1. destruct (decide (key = k)) as [->|]; [|by left].
    left. unfold allocated in H1 |- *. lia.
Qed.

Lemma allocated_deallocate_pos key k s :
  1 <= allocated s key ->
  allocated (deallocate key s) k =
  if decide (key = k) then allocated s k - 1 else allocated s k.
Proof.
  intros H. destruct (allocated_deallocate key k s) as [->|(? & _)]; [|lia].
  destruct (decide (key = k)) as [->|]; [lia|done].
Qed.

Lemma deallocate_pos key s :
  (forall k n, dget (s_scope_allocations s) k = Some n -> 0 < n) ->
  forall k n, dget (s_scope_allocations (deallocate key s)) k = Some n -> 0 < n.
Proof.
  intros H k n. unfold deallocate. simpl. destruct (allocated s key <=? 1) eqn:H1.
  - rewrite dget_ddel. destruct (decide (key = k)); [done|]. apply H.
  - rewrite dget_dset. destruct (decide (key = k)); [|apply H]. intros [= <-].
    apply Z.leb_gt in H1. lia.
Qed.

Lemma admitted_in_ext key s s' :
  s_executions s' = s_executions s -> s_admitted s' = s_admitted s ->
  admitted_in key s' = admitted_in key s.
Proof. unfold admitted_in, counts_in. intros -> ->. done. Qed.

Lemma accounted_ext s s' :
  s_executions s' = s_executions s -> s_admitted s' = s_admitted s ->
  s_scope_allocations s' = s_scope_allocations s -> accounted s -> accounted s'.
Proof.
  intros H1 H2 H3 H key. unfold allocated. rewrite H3, (admitted_in_ext _ s) by done. apply H.
Qed.

Lemma accounted_put s x x' :
  wf s -> dget (s_executions s) (x_execution_id x) = Some x -> same_static x x' ->
  accounted s -> accounted (put_pure x' s).
Proof.
  intros Hwf Hx Hs H key. unfold allocated. simpl. destruct (H key) as [H1 H2].
  split; [|done]. unfold allocated in H1. rewrite H1.
  unfold admitted_in. simpl. rewrite count_dset.
  rewrite (same_static_id _ _ Hs), Hx. simpl. unfold counts_in. simpl.
  rewrite (same_static_id _ _ Hs), (global_key_static _ _ Hs), (scope_key_static _ _ Hs). lia.
Qed.

(** Taking one execution out of the admitted set lowers its two counters. *)
Lemma admitted_in_change s (adm : gset pystr) x key :
  wf s -> dget (s_executions s) (x_execution_id x) = Some x ->
  (forall id, id <> x_execution_id x -> id ∈ adm <-> id ∈ s_admitted s) ->
  admitted_in key (set_s_admitted adm s) =
  admitted_in key s - (if counts_in key s x then 1 else 0)
  + (if counts_in key (set_s_admitted adm s) x then 1 else 0).
Proof.
  intros Hwf Hx Hadm. unfold admitted_in. simpl.
  apply (count_change _ _ _ (x_execution_id x) x); [by apply wf_executions|done|].
  intros k' v' Hne Hk'. unfold counts_in. simpl.
  assert (x_execution_id v' = k') as -> by by apply (wf_execution _ Hwf).
  f_equal. apply bool_decide_ext. by apply Hadm.
Qed.

Lemma counts_in_key key s x :
  counts_in key s x = true <->
  x_execution_id x ∈ s_admitted s /\ (global_key x = key \/ scope_key x = key).
Proof.
  unfold counts_in. rewrite andb_true_iff, orb_true_iff, !bool_decide_eq_true. done.
Qed.

Lemma admitted_in_pos s x key :
  wf s -> dget (s_executions s) (x_execution_id x) = Some x ->
  x_execution_id x ∈ s_admitted s -> global_key x = key \/ scope_key x = key ->
  1 <= admitted_in key s.
Proof.
  intros Hwf Hx Hadm Hkey. unfold admitted_in. apply (count_pos _ _ x).
  - by eapply dget_elem_of_dvals.
  - by apply counts_in_key.
Qed.

Lemma accounted_release s x :
  wf s -> dget (s_executions s) (x_execution_id x) = Some x ->
  accounted s -> accounted (release_pure x s).
Proof.
  intros Hwf Hx H. unfold release_pure. case_bool_decide as Hadm; [|done].
  assert (1 <= allocated s (global_key x)) as Hg.
  { rewrite (proj1 (H _)). by eapply admitted_in_pos; eauto. }
  assert (1 <= allocated s (scope_key x)) as Hsc.
  { rewrite (proj1 (H _)). by eapply admitted_in_pos; eauto. }
  assert (1 <= allocated (deallocate (global_key x) s) (scope_key x)) as Hsc'.
  { rewrite allocated_deallocate_pos by done. rewrite decide_False; [done|].
    apply global_ne_scope. }
  intros key. split.
  - set (adm := s_admitted s ∖ {[x_execution_id x]}).
    transitivity (allocated (deallocate (scope_key x) (deallocate (global_key x) s)) key);
      [done|].
    rewrite !allocated_deallocate_pos by done. rewrite (proj1 (H key)).
    transitivity (admitted_in key (set_s_admitted adm s)); [|done].
    rewrite (admitted_in_change _ _ x); [|done|done|subst adm; set_solver].
    replace (counts_in key (set_s_admitted adm s) x) with false; cycle 1.
    { symmetry. apply not_true_iff_false. rewrite counts_in_key. simpl. subst adm. set_solver. }
    destruct (counts_in key s x) eqn:Hc.
    + apply counts_in_key in Hc as [_ [<-|<-]].
      * rewrite decide_False by (intros E; by apply (global_ne_scope x x)).
        rewrite decide_True by done. lia.
      * rewrite decide_True by done. rewrite decide_False by apply global_ne_scope. lia.
    + apply not_true_iff_false in Hc. rewrite counts_in_key in Hc.
      rewrite !decide_False by naive_solver. lia.
  - apply (deallocate_pos (scope_key x) (deallocate (global_key x) s)).
    apply deallocate_pos. intros k n. by apply H.
Qed.

Lemma accounted_reserve s x :
  wf s -> dget (s_executions s) (x_execution_id x) = Some x ->
  x_execution_id x ∉ s_admitted s -> accounted s ->
  accounted (set_s_admitted ({[x_execution_id x]} ∪ s_admitted s)
               (allocate (scope_key x) (allocate (global_key x) s))).
Proof.
  intros Hwf Hx Hadm H key.
  set (adm := {[x_execution_id x]} ∪ s_admitted s).
  assert (forall k k' s0, allocated (allocate k s0) k' =
    if decide (k = k') then allocated s0 k' + 1 else allocated s0 k') as Ha.
  { intros k k' s0. unfold allocated, allocate. simpl. rewrite dget_dset.
    by destruct (decide (k = k')) as [->|]. }
  assert (forall k s0, (forall k n, dget (s_scope_allocations s0) k = Some n -> 0 < n) ->
    forall k' n, dget (s_scope_allocations (allocate k s0)) k' = Some n -> 0 < n) as Hp.
  { intros k s0 H0 k' n. unfold allocate. simpl. rewrite dget_dset.
    destruct (decide (k = k')) as [->|]; [|apply H0]. intros [= <-].
    unfold allocated. destruct (dget _ k') eqn:E; [apply H0 in E; lia|lia]. }
  split; [|apply Hp, Hp; intros k n; apply H].
  transitivity (allocated (allocate (scope_key x) (allocate (global_key x) s)) key); [done|].
  rewrite !Ha. rewrite (proj1 (H key)).
  transitivity (admitted_in key (set_s_admitted adm s)); [|done].
  rewrite (admitted_in_change _ _ x); [|done|done|subst adm; set_solver].
  replace (counts_in key s x) with false; cycle 1.
  { symmetry. apply not_true_iff_false. rewrite counts_in_key. naive_solver. }
  destruct (counts_in key (set_s_admitted adm s) x) eqn:Hc.
  - apply counts_in_key in Hc as [_ [<-|<-]].
    + rewrite decide_False by (intros E; by apply (global_ne_scope x x)).
      rewrite decide_True by done. lia.
    + rewrite decide_True by done. rewrite decide_False by apply global_ne_scope. lia.
  - apply not_true_iff_false in Hc. rewrite counts_in_key in Hc. simpl in Hc.
    assert (x_execution_id x ∈ adm) by (subst adm; set_solver).
    rewrite !decide_False by naive_solver. lia.
Qed.

(** ** Well-formedness and lifecycle under [apply_pure] *)

Lemma apply_pure_fields t item s :
  s_tasks (apply_pure t item s) = s_tasks s /\
  s_executions (apply_pure t item s) = s_executions (put_pure (tr_execution t) s) /\
  s_occurrences (apply_pure t item s) = s_occurrences s /\
  s_work_keys (apply_pure t item s) = s_work_keys s /\
  s_operations (apply_pure t item s) = s_operations s /\
  s_closed (apply_pure t item s) = s_closed s /\
  s_limits (apply_pure t item s) = s_limits s /\
  s_notifications (apply_pure t item s) = s_notifications s /\
  s_work (apply_pure t item s) =
    s_work (complete_pure (complete_work t) item (x_execution_id (tr_execution t)) s).
Proof.
  assert (forall c xid x s0, s_work (complete_pure c item xid (put_pure x s0)) =
    s_work (complete_pure c item xid s0)) as Hw.
  { intros c xid x s0. unfold complete_pure. destruct c, item; done. }
  unfold apply_pure. destruct (release_capacity t).
  - destruct (release_pure_fields (tr_execution t)
      (complete_pure (complete_work t) item (x_execution_id (tr_execution t))
         (put_pure (tr_execution t) s))) as (-> & -> & -> & -> & -> & -> & -> & -> & ->).
    destruct (complete_pure_fields (complete_work t) item (x_execution_id (tr_execution t))
      (put_pure (tr_execution t) s)) as (-> & -> & -> & -> & -> & _ & _ & -> & -> & ->).
    rewrite Hw. done.
  - destruct (complete_pure_fields (complete_work t) item (x_execution_id (tr_execution t))
      (put_pure (tr_execution t) s)) as (-> & -> & -> & -> & -> & _ & _ & -> & -> & ->).
    rewrite Hw. done.
Qed.

Lemma apply_pure_admitted t item s id :
  id ∈ s_admitted (apply_pure t item s) <->
  id ∈ s_admitted s /\ ~ (id = x_execution_id (tr_execution t) /\ release_capacity t = true).
Proof.
  unfold apply_pure. set (x := tr_execution t).
  pose proof (complete_pure_fields (complete_work t) item (x_execution_id x) (put_pure x s))
    as (_ & _ & _ & _ & _ & _ & Ha & _).
  set (s2 := complete_pure _ _ _ _) in *. simpl in Ha.
  destruct (release_capacity t); [|rewrite Ha; naive_solver].
  unfold release_pure. case_bool_decide as Hin.
  - simpl. rewrite Ha. set_solver.
  - rewrite Ha in *. naive_solver.
Qed.

Section apply_pure.
Context (s : Store) (t : ExecutionTransition) (item : option pystr)
  (x : AutomationExecution).
Context (Hinv : inv s) (Hx : dget (s_executions s) (x_execution_id x) = Some x)
  (Hstatic : same_static x (tr_execution t)) (Hvalid : exec_valid (tr_execution t)).

Let Hwf : wf s := inv_wf s Hinv.
Let Hid : x_execution_id (tr_execution t) = x_execution_id x := same_static_id _ _ Hstatic.

Lemma apply_pure_execution id :
  dget (s_executions (apply_pure t item s)) id =
  if decide (x_execution_id x = id) then Some (tr_execution t) else dget (s_executions s) id.
Proof.
  destruct (apply_pure_fields t item s) as (_ & -> & _). simpl. by rewrite dget_dset, Hid.
Qed.

Lemma apply_pure_work wid :
  dget (s_work (apply_pure t item s)) wid =
  complete_item (complete_work t) item (x_execution_id x) wid <$> dget (s_work s) wid.
Proof.
  destruct (apply_pure_fields t item s) as (_ & _ & _ & _ & _ & _ & _ & _ & ->).
  by rewrite complete_pure_work, Hid.
Qed.

Lemma put_pure_wf : wf (put_pure (tr_execution t) s).
Proof.
  assert (forall id, is_Some (dget (s_executions s) id) ->
    is_Some (dget (s_executions (put_pure (tr_execution t) s)) id)) as Hsome.
  { intros id H. simpl. rewrite dget_dset. destruct (decide _); eauto. }
  split; simpl; try by apply Hwf.
  - apply dwf_dset. by apply Hwf.
  - intros id y. rewrite dget_dset, Hid.
    destruct (decide (x_execution_id x = id)) as [<-|]; [|by apply Hwf].
    intros [= <-]. done.
  - intros id w Hw. destruct (wf_work_item _ Hwf _ _ Hw) as (? & ? & y & Hy & Hn).
    tsplit; [done|done|]. rewrite dget_dset, Hid.
    destruct (decide (x_execution_id x = w_execution_id w)) as [E|]; [|eauto].
    eexists. split; [done|]. rewrite <-E, Hx in Hy. injection Hy as <-.
    rewrite <-Hn. symmetry. apply Hstatic.
  - intros k id Hk. by apply Hsome, (wf_occurrence _ Hwf k).
  - intros id Ha. by apply Hsome, (wf_admitted _ Hwf).
Qed.

Lemma apply_pure_wf : wf (apply_pure t item s).
Proof.
  pose proof put_pure_wf as Hp. pose proof (apply_pure_fields t item s) as Hf.
  destruct Hf as (E1 & E2 & E3 & E4 & E5 & _ & _ & _ & E9).
  split; rewrite ?E1, ?E2, ?E3, ?E4, ?E5; try by apply Hp.
  - rewrite E9. apply complete_pure_dwf, Hwf.
  - intros wid w'. rewrite apply_pure_work, fmap_Some. intros (w & Hw & ->).
    pose proof (complete_item_ids (complete_work t) item (x_execution_id x) wid w)
      as (-> & -> & -> & -> & _). by apply (wf_work_item _ Hp).
  - intros ns xid k id Hk. destruct (wf_work_key _ Hp _ _ _ _ Hk) as (w & Hw & <- & <- & <-).
    exists (complete_item (complete_work t) item (x_execution_id x) id w).
    rewrite apply_pure_work. simpl in Hw. rewrite Hw. split; [done|].
    pose proof (complete_item_ids (complete_work t) item (x_execution_id x) id w)
      as (_ & ? & ? & ? & _). done.
  - intros id [Ha _]%apply_pure_admitted. by apply (wf_admitted _ Hp).
Qed.

Lemma apply_pure_accounted : accounted (apply_pure t item s).
Proof.
  assert (accounted (put_pure (tr_execution t) s)) as H1.
  { apply (accounted_put s x); [done|done|done|apply Hinv]. }
  set (s2 := complete_pure (complete_work t) item (x_execution_id (tr_execution t))
               (put_pure (tr_execution t) s)).
  assert (accounted s2) as H2.
  { pose proof (complete_pure_fields (complete_work t) item (x_execution_id (tr_execution t))
      (put_pure (tr_execution t) s)) as (_ & ? & _ & _ & _ & ? & ? & _).
    by apply (accounted_ext (put_pure (tr_execution t) s)). }
  unfold apply_pure. fold s2. destruct (release_capacity t); [|done].
  apply accounted_release; [|..|done].
  - pose proof put_pure_wf as Hp.
    pose proof (complete_pure_fields (complete_work t) item (x_execution_id (tr_execution t))
      (put_pure (tr_execution t) s)) as (E1 & E2 & E3 & E4 & E5 & E6 & E7 & _).
    fold s2 in E1, E2, E3, E4, E5, E6, E7.
    split; rewrite ?E1, ?E2, ?E3, ?E4, ?E5, ?E7; try by apply Hp.
    + apply complete_pure_dwf, Hwf.
    + intros wid w'. unfold s2. rewrite complete_pure_work, fmap_Some. intros (w & Hw & ->).
      pose proof (complete_item_ids (complete_work t) item (x_execution_id (tr_execution t)) wid w)
        as (-> & -> & -> & -> & _). by apply (wf_work_item _ Hp).
    + intros ns xid k id Hk. destruct (wf_work_key _ Hp _ _ _ _ Hk) as (w & Hw & <- & <- & <-).
      exists (complete_item (complete_work t) item (x_execution_id (tr_execution t)) id w).
      unfold s2. rewrite complete_pure_work. rewrite Hw. split; [done|].
      pose proof (complete_item_ids (complete_work t) item (x_execution_id (tr_execution t)) id w)
        as (_ & ? & ? & ? & _). done.
  - pose proof (complete_pure_fields (complete_work t) item (x_execution_id (tr_execution t))
      (put_pure (tr_execution t) s)) as (_ & E2 & _). fold s2 in E2. rewrite E2. simpl.
    by rewrite dget_dset_eq.
Qed.

(** The two conditions that depend on the transition: the new execution fits its
    admission, and so does every work item it keeps. *)
Let adm' : Prop := x_execution_id x ∈ s_admitted s /\ release_capacity t = false.

Context (Hexec : exec_life adm' (tr_execution t))
  (Hwork : forall wid w, dget (s_work s) wid = Some w -> w_execution_id w = x_execution_id x ->
     work_life (x_execution_id x ∈ s_admitted s) x w ->
     work_life adm' (tr_execution t)
       (complete_item (complete_work t) item (x_execution_id x) wid w))
  (Hitem : forall wid w, item = Some wid -> dget (s_work s) wid = Some w ->
     w_execution_id w = x_execution_id x).

Lemma exec_life_iff P Q y : (P <-> Q) -> exec_life P y -> exec_life Q y.
Proof. intros HPQ [H1 H2 H3 H4]. split; naive_solver. Qed.

Lemma work_life_iff P Q y w : (P <-> Q) -> work_life P y w -> work_life Q y w.
Proof.
  intros HPQ [H1 H2 H3]. split; [|done..]. intros Hl Hk.
  destruct (H1 Hl Hk) as [?|(? & ? & ?)]; [by left|right]. tsplit; tauto.
Qed.

Lemma adm'_iff : adm' <-> x_execution_id x ∈ s_admitted (apply_pure t item s).
Proof.
  rewrite apply_pure_admitted, Hid. unfold adm'. destruct (release_capacity t); naive_solver.
Qed.

Lemma apply_pure_lives : lives (apply_pure t item s).
Proof.
  intros id y. rewrite apply_pure_execution.
  destruct (decide (x_execution_id x = id)) as [<-|Hne].
  - intros [= <-]. split; [eapply exec_life_iff; [apply adm'_iff|done]|].
    intros wid w'. rewrite apply_pure_work, fmap_Some. intros (w & Hw & ->) Hwx.
    pose proof (complete_item_ids (complete_work t) item (x_execution_id x) wid w)
      as (_ & _ & Hc & _). rewrite Hc in Hwx.
    eapply work_life_iff; [apply adm'_iff|]. apply Hwork; [done|done|].
    by apply (proj2 (inv_lives s Hinv _ _ Hx) wid).
  - intros Hy. destruct (inv_lives s Hinv _ _ Hy) as [Hel Hwl].
    assert (id ∈ s_admitted s <-> id ∈ s_admitted (apply_pure t item s)) as Ha.
    { rewrite apply_pure_admitted, Hid. naive_solver. }
    split; [by eapply exec_life_iff|].
    intros wid w'. rewrite apply_pure_work, fmap_Some. intros (w & Hw & ->) Hwx.
    pose proof (complete_item_ids (complete_work t) item (x_execution_id x) wid w)
      as (_ & _ & Hc & _). rewrite Hc in Hwx.
    assert (complete_item (complete_work t) item (x_execution_id x) wid w = w) as ->.
    { unfold complete_item. destruct (complete_work t); [done| |].
      - destruct item as [i|] eqn:Ei; [|done]. case_bool_decide as Hi; [|done]. subst i.
        exfalso. apply Hne. rewrite <-Hwx. symmetry. by eapply Hitem.
      - rewrite bool_decide_eq_false_2; [done|congruence]. }
    eapply work_life_iff; [exact Ha|]. by eapply Hwl.
Qed.

Lemma apply_pure_bounded : bounded (apply_pure t item s).
Proof.
  destruct (apply_pure_fields t item s) as (E1 & E2 & E3 & E4 & E5 & E6 & E7 & E8 & E9).
  destruct (inv_bounded s Hinv) as (B1 & B2 & B3 & B4).
  unfold bounded. rewrite E1, E2, E5, E7, E9, complete_pure_len. simpl. rewrite zlen_dset.
  replace (dmem (s_executions s) (x_execution_id (tr_execution t))) with true; [tsplit; lia|].
  symmetry. apply dmem_true. rewrite Hid. eauto.
Qed.

Lemma apply_pure_inv : inv (apply_pure t item s).
Proof.
  split; [apply apply_pure_wf|apply apply_pure_accounted|apply apply_pure_lives|
          apply apply_pure_bounded].
Qed.

Context (Hterm : is_terminal (x_status x) = true -> tr_execution t = x)
  (Hstart : forall a, x_start_authorized_at x = Some a ->
     x_start_authorized_at (tr_execution t) = Some a).

Lemma apply_pure_evolves : evolves s (apply_pure t item s).
Proof.
  destruct (apply_pure_fields t item s) as (E1 & E2 & E3 & E4 & E5 & E6 & E7 & E8 & E9).
  split; rewrite ?E3, ?E5, ?E6, ?E7, ?E8; try done.
  - intros id y Hy. rewrite apply_pure_execution.
    destruct (decide (x_execution_id x = id)) as [<-|Hne].
    + rewrite Hx in Hy. injection Hy as <-. eauto.
    + exists y. split; [done|]. split; [apply same_static_refl|done].
  - intros wid w Hw. rewrite apply_pure_work, Hw. eexists. split; [done|].
    pose proof (complete_item_ids (complete_work t) item (x_execution_id x) wid w)
      as (_ & _ & -> & -> & ->). done.
Qed.
End apply_pure.

(** ** The other mutations of the store *)

(** A mutation that leaves executions, work and admission alone. *)
Lemma inv_frame s s' :
  inv s ->
  s_executions s' = s_executions s -> s_work s' = s_work s ->
  s_work_keys s' = s_work_keys s -> s_admitted s' = s_admitted s ->
  s_scope_allocations s' = s_scope_allocations s -> s_limits s' = s_limits s ->
  dwf (s_tasks s') ->
  (forall id task, dget (s_tasks s') id = Some task -> t_task_id task = id /\ task_valid task) ->
  (forall k id, dget (s_occurrences s') k = Some id -> is_Some (dget (s_executions s) id)) ->
  (forall k r, dget (s_operations s') k = Some r ->
     snapshot (receipt_result r) = Ok (receipt_result r)) ->
  zlen (s_tasks s') <= max_tasks (s_limits s) ->
  zlen (s_operations s') <= max_operations (s_limits s) ->
  inv s'.
Proof.
  intros [Hwf Hacc Hl Hb] E1 E2 E3 E4 E5 E6 H1 H2 H3 H4 H5 H6. split.
  - split; rewrite ?E1, ?E2, ?E3, ?E4; try done; try by apply Hwf.
  - by apply (accounted_ext s).
  - intros id x. rewrite E1. intros Hx. unfold life_of. rewrite E2, E4. by apply Hl.
  - unfold bounded. rewrite E1, E2, E6. destruct Hb as (? & ? & ? & ?). tsplit; done.
Qed.

Lemma inv_put_task s task :
  inv s -> task_valid task ->
  (is_Some (dget (s_tasks s) (t_task_id task)) \/ zlen (s_tasks s) < max_tasks (s_limits s)) ->
  inv (set_s_tasks (dset (s_tasks s) (t_task_id task) task) s).
Proof.
  intros Hi Ht Hb. destruct (Hi) as [Hwf _ _ (B1 & _ & _ & B4)].
  apply (inv_frame s); simpl; try done; try by apply Hwf.
  - by apply dwf_dset, Hwf.
  - intros id t'. rewrite dget_dset. destruct (decide (t_task_id task = id)) as [<-|]; [|by apply Hwf].
    intros [= <-]. done.
  - rewrite zlen_dset. destruct (dmem _ _) eqn:Em; [lia|]. apply dmem_false in Em.
    destruct Hb as [[? Hb]|?]; [congruence|lia].
Qed.

Lemma inv_del_task s id : inv s -> inv (set_s_tasks (ddel (s_tasks s) id) s).
Proof.
  intros Hi. destruct (Hi) as [Hwf _ _ (B1 & _ & _ & B4)].
  apply (inv_frame s); simpl; try done; try by apply Hwf.
  - by apply dwf_ddel, Hwf.
  - intros id' t'. rewrite dget_ddel. destruct (decide (id = id')); [done|]. by apply Hwf.
  - pose proof (zlen_ddel_le (s_tasks s) id). lia.
Qed.

Lemma inv_save_operation s k r :
  inv s -> snapshot (receipt_result r) = Ok (receipt_result r) ->
  zlen (s_operations s) < max_operations (s_limits s) ->
  inv (set_s_operations (dset (s_operations s) k r) s).
Proof.
  intros Hi Hr Hb. destruct (Hi) as [Hwf _ _ (B1 & _ & _ & B4)].
  apply (inv_frame s); simpl; try done; try by apply Hwf.
  - intros k' r'. rewrite dget_dset. destruct (decide (k = k')); [by intros [= <-]|by apply Hwf].
  - pose proof (zlen_dset_le (s_operations s) k r). lia.
Qed.

Lemma inv_add_occurrence s k id :
  inv s -> is_Some (dget (s_executions s) id) ->
  inv (set_s_occurrences (dset (s_occurrences s) k id) s).
Proof.
  intros Hi Hid. destruct (Hi) as [Hwf _ _ (B1 & _ & _ & B4)].
  apply (inv_frame s); simpl; try done; try by apply Hwf.
  intros k' id'. rewrite dget_dset. destruct (decide (k = k')); [by intros [= <-]|by apply Hwf].
Qed.

Lemma inv_close s : inv s -> inv (set_s_closed true s).
Proof.
  intros Hi. destruct (Hi) as [Hwf _ _ (B1 & _ & _ & B4)].
  apply (inv_frame s); simpl; try done; by apply Hwf.
Qed.

(** Evolution of mutations that leave executions and work alone. *)
Lemma evolves_frame s s' :
  s_executions s' = s_executions s -> s_work s' = s_work s -> s_limits s' = s_limits s ->
  s_notifications s' = s_notifications s ->
  (forall k r, dget (s_operations s) k = Some r -> dget (s_operations s') k = Some r) ->
  (forall k id, dget (s_occurrences s) k = Some id -> dget (s_occurrences s') k = Some id) ->
  (s_closed s = true -> s_closed s' = true) ->
  evolves s s'.
Proof.
  intros E1 E2 E3 E4 H1 H2 H3. split; rewrite ?E1, ?E2; try done.
  - intros id x H. exists x. split; [done|]. split; [apply same_static_refl|done].
  - intros id w H. exists w. tsplit; try done.
Qed.

Lemma evolves_save_operation s k r :
  dget (s_operations s) k = None ->
  evolves s (set_s_operations (dset (s_operations s) k r) s).
Proof.
  intros Hk. apply evolves_frame; try done. simpl. intros k' r' H. rewrite dget_dset_ne; [done|].
  intros ->. congruence.
Qed.

Lemma evolves_add_occurrence s k id :
  dget (s_occurrences s) k = None ->
  evolves s (set_s_occurrences (dset (s_occurrences s) k id) s).
Proof.
  intros Hk. apply evolves_frame; try done. simpl. intros k' r' H. rewrite dget_dset_ne; [done|].
  intros ->. congruence.
Qed.

(** Mutating one work item in place. *)
Lemma inv_update_work s id w f x :
  inv s -> dget (s_work s) id = Some w -> dget (s_executions s) (w_execution_id w) = Some x ->
  w_work_item_id (f w) = w_work_item_id w -> w_namespace (f w) = w_namespace w ->
  w_execution_id (f w) = w_execution_id w -> w_kind (f w) = w_kind w ->
  work_life (w_execution_id w ∈ s_admitted s) x (f w) ->
  inv (set_s_work (dupd (s_work s) id f) s).
Proof.
  intros [Hwf Hacc Hl Hb] Hw Hx F1 F2 F3 F4 Hlife. split.
  - split; simpl; try by apply Hwf.
    + by apply dwf_dupd, Hwf.
    + intros id' w'. rewrite dget_dupd. destruct (decide (id = id')) as [<-|]; [|by apply Hwf].
      rewrite Hw. intros [= <-]. rewrite F1, F2, F3, F4. by apply Hwf.
    + intros ns xid k id' Hk. destruct (wf_work_key _ Hwf _ _ _ _ Hk) as (w1 & Hw1 & <- & <- & <-).
      rewrite dget_dupd. destruct (decide (id = id')) as [<-|]; [|by eauto].
      rewrite Hw in Hw1 |- *. injection Hw1 as <-. eauto.
  - by apply (accounted_ext s).
  - intros xid y Hy. destruct (Hl _ _ Hy) as [Hel Hwl]. split; [done|]. simpl.
    intros wid w'. rewrite dget_dupd. destruct (decide (id = wid)) as [<-|]; [|by apply Hwl].
    rewrite Hw. intros [= <-]. rewrite F3. intros <-. simpl in Hy. rewrite Hx in Hy.
    by injection Hy as <-.
  - destruct Hb as (? & ? & ? & ?). unfold bounded. simpl. rewrite zlen_dupd. tsplit; done.
Qed.

Lemma evolves_update_work s id f :
  (forall w, dget (s_work s) id = Some w ->
     w_execution_id (f w) = w_execution_id w /\ w_kind (f w) = w_kind w /\
     w_fence w <= w_fence (f w)) ->
  evolves s (set_s_work (dupd (s_work s) id f) s).
Proof.
  intros Hf. split; simpl; try done.
  - intros id' x H. exists x. split; [done|]. split; [apply same_static_refl|done].
  - intros id' w Hw. rewrite dget_dupd. destruct (decide (id = id')) as [<-|].
    + rewrite Hw. destruct (Hf _ Hw) as (? & ? & ?). eexists. split; [done|]. tsplit; done.
    + exists w. tsplit; try done.
Qed.

(** Adding a work item for a stored execution. *)
Definition add_work (item : WorkItem) (s : Store) : Store :=
  set_s_work_keys
    (dset (s_work_keys s) (w_namespace item, w_execution_id item, w_kind item) (w_work_item_id item))
    (set_s_work (dset (s_work s) (w_work_item_id item) item) s).

Lemma inv_add_work s item x :
  inv s -> dget (s_executions s) (w_execution_id item) = Some x ->
  x_namespace x = w_namespace item ->
  dget (s_work s) (w_work_item_id item) = None ->
  dget (s_work_keys s) (w_namespace item, w_execution_id item, w_kind item) = None ->
  work_life (w_execution_id item ∈ s_admitted s) x item ->
  zlen (s_work s) < max_work_items (s_limits s) ->
  inv (add_work item s).
Proof.
  intros [Hwf Hacc Hl Hb] Hx Hn Hid Hkey Hlife Hlen. split.
  - split; simpl; try by apply Hwf.
    + by apply dwf_dset, Hwf.
    + intros id w. rewrite dget_dset. destruct (decide (w_work_item_id item = id)) as [<-|Hne].
      * intros [= <-]. rewrite dget_dset_eq. eauto.
      * intros Hw. destruct (wf_work_item _ Hwf _ _ Hw) as (? & Hk & ?). tsplit; [done|..|done].
        rewrite dget_dset_ne; [done|]. intros E. rewrite E in Hkey. congruence.
    + intros ns xid k id. rewrite dget_dset. destruct (decide _) as [E|Hne].
      * intros [= <-]. injection E as <- <- <-. rewrite dget_dset_eq. eauto.
      * intros Hk. destruct (wf_work_key _ Hwf _ _ _ _ Hk) as (w & Hw & <- & <- & <-).
        rewrite dget_dset_ne; [eauto|]. intros E. rewrite E in Hid. congruence.
  - by apply (accounted_ext s).
  - intros xid y Hy. destruct (Hl _ _ Hy) as [Hel Hwl]. split; [done|]. simpl.
    intros wid w. rewrite dget_dset. destruct (decide (w_work_item_id item = wid)) as [<-|].
    + intros [= <-] <-. simpl in Hy. rewrite Hx in Hy. by injection Hy as <-.
    + by apply Hwl.
  - destruct Hb as (? & ? & ? & ?). unfold bounded. simpl.
    pose proof (zlen_dset_le (s_work s) (w_work_item_id item) item). tsplit; lia.
Qed.

Lemma evolves_add_work s item :
  dget (s_work s) (w_work_item_id item) = None -> evolves s (add_work item s).
Proof.
  intros Hid. split; simpl; try done.
  - intros id x H. exists x. split; [done|]. split; [apply same_static_refl|done].
  - intros id w Hw. exists w. rewrite dget_dset_ne; [tsplit; done|]. congruence.
Qed.

(** Storing an execution that was not there. *)
Lemma inv_new_execution s x :
  inv s -> dget (s_executions s) (x_execution_id x) = None -> exec_valid x ->
  exec_life False x -> zlen (s_executions s) < max_executions (s_limits s) ->
  inv (put_pure x s).
Proof.
  intros [Hwf Hacc Hl Hb] Hnew Hv Hlife Hlen.
  assert (forall id y, dget (s_executions s) id = Some y ->
    dget (s_executions (put_pure x s)) id = Some y) as Hkeep.
  { intros id y Hy. simpl. rewrite dget_dset_ne; [done|]. congruence. }
  assert (x_execution_id x ∉ s_admitted s) as Hna.
  { intros Ha. apply (wf_admitted _ Hwf) in Ha as [? Ha]. congruence. }
  assert (forall wid w, dget (s_work s) wid = Some w -> w_execution_id w <> x_execution_id x) as Hnw.
  { intros wid w Hw E. destruct (wf_work_item _ Hwf _ _ Hw) as (_ & _ & y & Hy & _). congruence. }
  split.
  - split; simpl; try by apply Hwf.
    + by apply dwf_dset, Hwf.
    + intros id y. rewrite dget_dset. destruct (decide _) as [<-|]; [|by apply Hwf].
      intros [= <-]. done.
    + intros id w Hw. destruct (wf_work_item _ Hwf _ _ Hw) as (? & ? & y & Hy & ?). eauto 10.
    + intros k id Hk. destruct (wf_occurrence _ Hwf _ _ Hk) as [y Hy]. eauto.
    + intros id Ha. destruct (wf_admitted _ Hwf _ Ha) as [y Hy]. eauto.
  - intros key. unfold allocated. simpl. destruct (Hacc key) as [H1 H2]. split; [|done].
    unfold allocated in H1. rewrite H1. unfold admitted_in. simpl. rewrite count_dset, Hnew.
    simpl. unfold counts_in at 3. simpl. rewrite bool_decide_eq_false_2 by done. simpl.
    unfold counts_in. simpl. lia.
  - intros id y. simpl. rewrite dget_dset. destruct (decide _) as [<-|].
    + intros [= <-]. split; [by eapply exec_life_iff; [|exact Hlife]|].
      intros wid w Hw Hwx. by destruct (Hnw _ _ Hw).
    + apply Hl.
  - destruct Hb as (? & ? & ? & ?). unfold bounded. simpl.
    pose proof (zlen_dset_le (s_executions s) (x_execution_id x) x). tsplit; lia.
Qed.

Lemma evolves_new_execution s x :
  dget (s_executions s) (x_execution_id x) = None -> evolves s (put_pure x s).
Proof.
  intros Hnew. split; simpl; try done.
  - intros id y Hy. exists y. rewrite dget_dset_ne by congruence.
    split; [done|]. split; [apply same_static_refl|done].
  - intros id w Hw. exists w. tsplit; done.
Qed.

(** Admitting a queued execution. *)
Definition reserve_pure (x : AutomationExecution) (s : Store) : Store :=
  set_s_admitted ({[x_execution_id x]} ∪ s_admitted s)
    (allocate (scope_key x) (allocate (global_key x) s)).

Lemma inv_reserve s x :
  inv s -> dget (s_executions s) (x_execution_id x) = Some x -> x_status x = QUEUED ->
  x_execution_id x ∉ s_admitted s -> inv (reserve_pure x s).
Proof.
  intros [Hwf Hacc Hl Hb] Hx Hq Hna. split.
  - split; simpl; try by apply Hwf.
    intros id [->%elem_of_singleton|Ha]%elem_of_union; [eauto|by apply Hwf].
  - by apply accounted_reserve.
  - intros id y Hy. destruct (Hl _ _ Hy) as [Hel Hwl].
    destruct (decide (id = x_execution_id x)) as [->|Hne].
    + simpl in Hy. rewrite Hx in Hy. injection Hy as <-. split.
      * split; rewrite Hq; simpl; try naive_solver. intros _. by apply Hel.
      * intros wid w Hw Hwx. destruct (Hwl _ _ Hw Hwx) as [H1 H2 H3]. split; [|done..].
        intros Hlv Hk. destruct (H1 Hlv Hk) as [?|(? & ? & ?)]; [by left|done].
    + assert (id ∈ s_admitted s <-> id ∈ s_admitted (reserve_pure x s)) as Hiff.
      { simpl. set_solver. }
      split; [by eapply exec_life_iff|]. intros wid w Hw Hwx.
      eapply work_life_iff; [exact Hiff|]. by eapply Hwl.
  - destruct Hb as (? & ? & ? & ?). unfold bounded. tsplit; done.
Qed.

Lemma evolves_reserve s x : evolves s (reserve_pure x s).
Proof. by apply evolves_frame. Qed.
