(* ===== verification/AutoStore.v ===== *)
(** Automation: the public operations of [MemoryAutomationStore] (memory.py), in
    the order of the source, on the state and helpers of AutoMemory. *)
From S2P Require Import Prelude PyDict PySeq Contracts AutoModels AutoRules AutoMemory.
From Stdlib Require Import Strings.String.

Section operations.
Context {runtime : Runtime} {codec : CursorCodec}.

Abbreviation Op := (M World exn).

(** ** Lifecycle *)

(** [MemoryAutomationStore(limits=..., notifications=...)] *)
Definition new_store (limits : MemoryStoreLimits) (notifications : bool) : Store :=
  {| s_tasks := []; s_executions := []; s_occurrences := []; s_work := [];
     s_work_keys := []; s_operations := []; s_scope_allocations := []; s_admitted := ∅;
     s_closed := false; s_limits := limits; s_notifications := notifications |}.

Definition new_world (limits : MemoryStoreLimits) (notifications : bool) : World :=
  {| store := new_store limits notifications; clock_reads := 0%nat; random_reads := 0%nat;
     changes := []; published := [] |}.

Definition setup : Op unit := ensure_open.

Definition current_time : Op Z := do* ensure_open in now.

Definition close : Op unit := on_store (set_s_closed true).

(** ** Tasks *)

Definition create_task (task : AutomationTask) (request_id : option pystr) (digest : pystr)
    : Op AutomationTask :=
  let* task := lift (snapshot_task task) in
  mutation
    (do* ensure_open in
     let* previous := operation_result (t_namespace task) (t_owner_id task) request_id digest in
     match previous with
     | Some p => expect_task p
     | None =>
         let* s := from_store id in
         do* raise_if (dmem (s_tasks s) (t_task_id task)) TaskConflictError in
         do* ensure_capacity (zlen (s_tasks s)) (max_tasks (s_limits s)) in
         do* require_operation_capacity request_id in
         do* put_task task in
         do* change_task task in
         do* save_operation (t_namespace task) (t_owner_id task) request_id digest
               (ResultTask task) in
         lift (snapshot_task task)
     end).

Definition get_command_receipt (namespace owner_id request_id : pystr)
    : Op (option CommandReceipt) :=
  do* lift (validate_scope namespace owner_id) in
  do* lift (validate_persisted_text (PyStr request_id) (Some 128)) in
  do* ensure_open in
  let* receipt := from_store (fun s => dget (s_operations s) (namespace, owner_id, request_id)) in
  match receipt with
  | None => ret None
  | Some r =>
      let* result := lift (snapshot (receipt_result r)) in
      ret (Some {| input_digest := input_digest r; receipt_result := result |})
  end.

Definition update_task (task : AutomationTask) (expected_revision : Z)
    (request_id : option pystr) (digest : pystr) : Op AutomationTask :=
  let* task := lift (snapshot_task task) in
  mutation
    (do* ensure_open in
     let* previous := operation_result (t_namespace task) (t_owner_id task) request_id digest in
     match previous with
     | Some p => expect_task p
     | None =>
         let* current := owned_task (t_namespace task) (t_owner_id task) (t_task_id task) in
         do* raise_if (negb (t_revision current =? expected_revision)) TaskConflictError in
         do* raise_if (negb (t_revision task =? expected_revision + 1)) TaskConflictError in
         do* require_operation_capacity request_id in
         do* put_task task in
         do* change_task task in
         do* save_operation (t_namespace task) (t_owner_id task) request_id digest
               (ResultTask task) in
         lift (snapshot_task task)
     end).

(** One iteration of the loop that cancels what has not started. *)
Definition cancel_if_queued (task_id : pystr) (now : Z) (x : AutomationExecution) : Op unit :=
  if negb (bool_decide (x_task_id x = Some task_id)) ||
     negb (bool_decide (x_status x = QUEUED))
  then ret tt
  else
    let* t := lift (cancel_execution x now) in
    do* apply_transition t None in ret tt.

Definition delete_task (namespace owner_id task_id : pystr) (expected_revision : Z)
    (request_id : option pystr) (digest : pystr) : Op unit :=
  do* lift (validate_scope namespace owner_id) in
  mutation
    (do* ensure_open in
     let* previous := operation_result namespace owner_id request_id digest in
     match previous with
     | Some p => do* expect_str p in ret tt
     | None =>
         let* task := owned_task namespace owner_id task_id in
         do* raise_if (negb (t_revision task =? expected_revision)) TaskConflictError in
         do* require_operation_capacity request_id in
         do* on_store (fun s => set_s_tasks (ddel (s_tasks s) task_id) s) in
         do* change_task task in
         let* now := now in
         let* executions := from_store (fun s => dvals (s_executions s)) in
         do* for_each (cancel_if_queued task_id now) executions in
         save_operation namespace owner_id request_id digest (ResultStr task_id)
     end).

Definition get_task (namespace owner_id task_id : pystr) : Op AutomationTask :=
  do* lift (validate_scope namespace owner_id) in
  do* ensure_open in
  let* task := owned_task namespace owner_id task_id in
  lift (snapshot_task task).

(** The sort key [(item.created_at, item.task_id)]. *)
Definition task_position (t : AutomationTask) : Z * pystr := (t_created_at t, t_task_id t).

(** [position is None or key > position] *)
Definition beyond (position : option (Z * pystr)) (key : Z * pystr) : bool :=
  match position with None => true | Some p => pair_ltb p key end.

(** [position is None or key < position] *)
Definition before (position : option (Z * pystr)) (key : Z * pystr) : bool :=
  match position with None => true | Some p => pair_ltb key p end.

(** [encode_cursor(scope, items[limit - 1]...) if len(items) > limit else None] *)
Definition next_cursor_of {A} (position_of : A -> Z * pystr) (scope : pystr) (limit : Z)
    (items : list A) : res exn (option pystr) :=
  if limit <? zlen items then
    match item_at (limit - 1) items with
    | None => Ok None
    | Some x =>
        let? c := encode_cursor scope (position_of x).1 (position_of x).2 in Ok (Some c)
    end
  else Ok None.

(** The rows [list_tasks] selects, in its order. *)
Definition selected_tasks (namespace owner_id : pystr) (filters : TaskFilter)
    (position : option (Z * pystr)) (s : Store) : list AutomationTask :=
  sorted_by (key_leb task_position pair_ltb)
    (List.filter (fun t =>
       bool_decide (t_namespace t = namespace) && bool_decide (t_owner_id t = owner_id) &&
       matches_tasks t filters && beyond position (task_position t))
     (dvals (s_tasks s))).

Definition list_tasks (namespace owner_id : pystr) (limit : Z) (cursor : option pystr)
    (filters : option TaskFilter) : Op TaskPage :=
  do* lift (validate_scope namespace owner_id) in
  do* lift (validate_page_limit limit) in
  let selected := match filters with Some f => f | None => TaskFilter_all end in
  let scope := query_scope namespace owner_id (ByTask selected) None in
  let* position := lift (decode_cursor cursor scope) in
  do* ensure_open in
  let* items := from_store (selected_tasks namespace owner_id selected position) in
  let* page := lift (snapshots snapshot_task (first_n limit items)) in
  let* next := lift (next_cursor_of task_position scope limit items) in
  ret {| tp_items := page; tp_next_cursor := next |}.

Definition summarize_tasks (namespace owner_id : pystr) (filters : option TaskFilter)
    : Op (TaskStatus -> Z) :=
  do* lift (validate_scope namespace owner_id) in
  let selected := match filters with Some f => f | None => TaskFilter_all end in
  do* ensure_open in
  from_store (fun s status =>
    count (fun t => bool_decide (t_namespace t = namespace) &&
                    bool_decide (t_owner_id t = owner_id) && matches_tasks t selected &&
                    bool_decide (t_status t = status))
      (dvals (s_tasks s))).

Definition summarize_executions (namespace owner_id : pystr) (filters : option ExecutionFilter)
    : Op (ExecutionStatus -> Z) :=
  do* lift (validate_scope namespace owner_id) in
  let selected := match filters with Some f => f | None => ExecutionFilter_all end in
  do* ensure_open in
  from_store (fun s status =>
    count (fun x => bool_decide (x_namespace x = namespace) &&
                    bool_decide (x_owner_id x = owner_id) && matches_executions x selected &&
                    bool_decide (x_status x = status))
      (dvals (s_executions s))).

Definition get_scheduled_task (namespace task_id : pystr) : Op AutomationTask :=
  do* lift (validate_persisted_text (PyStr namespace) (Some 128)) in
  do* ensure_open in
  let* task := from_store (fun s => dget (s_tasks s) task_id) in
  match task with
  | None => raise TaskNotFoundError
  | Some t =>
      do* raise_if (negb (bool_decide (t_namespace t = namespace))) TaskNotFoundError in
      lift (snapshot_task t)
  end.

Definition list_scheduled_tasks (namespace : pystr) (limit : Z) (cursor : option pystr)
    : Op TaskPage :=
  do* lift (validate_persisted_text (PyStr namespace) (Some 128)) in
  do* lift (validate_page_limit limit) in
  do* ensure_open in
  let* items := from_store (fun s =>
    sorted_by (key_leb task_position pair_ltb)
      (List.filter (fun t => bool_decide (t_namespace t = namespace) &&
                             bool_decide (t_status t = ENABLED)) (dvals (s_tasks s)))) in
  let page := page_after t_task_id items cursor limit in
  let* rows := lift (snapshots snapshot_task (first_n limit page)) in
  ret {| tp_items := rows;
         tp_next_cursor := if limit <? zlen page
                           then t_task_id <$> item_at (limit - 1) page else None |}.

(** ** Executions *)

(** One iteration of the loop that stores the due executions. *)
Definition store_scheduled (namespace : pystr) (item : ScheduledExecution) : Op unit :=
  let x := scheduled_execution item in
  do* put_execution x in
  do* change_execution x in
  do* on_store (fun s => set_s_occurrences
        (dset (s_occurrences s) (namespace, occurrence_key item) (x_execution_id x)) s) in
  create_work x EXECUTE (x_queued_at x).

(** [{key for namespace, key in self._occurrences if namespace == ...}] *)
Definition occurrence_keys (namespace : pystr) (s : Store) : list pystr :=
  map snd (List.filter (fun k => bool_decide (k.1 = namespace)) (dkeys (s_occurrences s))).

Definition queued_for_task (task_id : pystr) (s : Store) : Z :=
  count (fun x => bool_decide (x_task_id x = Some task_id) && bool_decide (x_status x = QUEUED))
    (dvals (s_executions s)).

Definition snapshot_scheduled (item : ScheduledExecution) : res exn ScheduledExecution :=
  let? x := snapshot_execution (scheduled_execution item) in
  Ok {| scheduled_execution := x; occurrence_key := occurrence_key item |}.

Definition materialize_task (task : AutomationTask) (expected_next_run_at : Z)
    (executions : list ScheduledExecution) : Op MaterializationResult :=
  let* task := lift (snapshot_task task) in
  let* executions := lift (snapshots snapshot_scheduled executions) in
  mutation
    (do* ensure_open in
     let* current := owned_task (t_namespace task) (t_owner_id task) (t_task_id task) in
     if negb (materialization_is_current current task expected_next_run_at) then
       let* current' := lift (snapshot_task current) in
       ret {| materialized_task := current'; materialized_executions := [] |}
     else
       let* s := from_store id in
       let pending := pending_occurrences executions (occurrence_keys (t_namespace task) s) in
       do* lift (require_queue_capacity (queued_for_task (t_task_id task) s) (zlen pending)
                   (max_queued_runs (t_limits task))) in
       do* when (max_executions (s_limits s) <? zlen (s_executions s) + zlen pending)
             (ensure_capacity (max_executions (s_limits s)) (max_executions (s_limits s))) in
       do* when (max_work_items (s_limits s) <? zlen (s_work s) + zlen pending)
             (ensure_capacity (max_work_items (s_limits s)) (max_work_items (s_limits s))) in
       do* put_task task in
       do* change_task task in
       do* for_each (store_scheduled (t_namespace task)) pending in
       let* task' := lift (snapshot_task task) in
       let* created := lift (snapshots snapshot_execution (map scheduled_execution pending)) in
       ret {| materialized_task := task'; materialized_executions := created |}).

Definition queued_in_scope (x : AutomationExecution) (s : Store) : Z :=
  count (fun item => same_execution_scope item x && bool_decide (x_status item = QUEUED))
    (dvals (s_executions s)).

Definition enqueue_execution (x : AutomationExecution) (occurrence_key : pystr)
    (request_id : option pystr) (digest : pystr) (expected_task_revision : pyobj)
    : Op AutomationExecution :=
  let* x := lift (snapshot_execution x) in
  mutation
    (do* ensure_open in
     let* previous := operation_result (x_namespace x) (x_owner_id x) request_id digest in
     match previous with
     | Some p => expect_execution p
     | None =>
         let occurrence := (x_namespace x, occurrence_key) in
         let* existing_id := from_store (fun s => dget (s_occurrences s) occurrence) in
         match existing_id with
         | Some id0 =>
             let* existing := get_execution_record id0 in
             lift (snapshot_execution existing)
         | None =>
             do* raise_if (negb (bool_decide (x_status x = QUEUED))) ValueError in
             let* s := from_store id in
             do* raise_if (dmem (s_executions s) (x_execution_id x)) RequestConflictError in
             do* match x_retry_of x, x_task_id x with
                 | None, Some task_id =>
                     let* task := owned_task (x_namespace x) (x_owner_id x) task_id in
                     lift (require_task_revision task expected_task_revision)
                 | _, _ =>
                     raise_if (match expected_task_revision with PyNone => false | _ => true end)
                       ValueError
                 end in
             do* lift (require_queue_capacity (queued_in_scope x s) 1
                         (max_queued_runs (x_limits x))) in
             do* ensure_capacity (zlen (s_executions s)) (max_executions (s_limits s)) in
             do* require_operation_capacity request_id in
             do* ensure_capacity (zlen (s_work s)) (max_work_items (s_limits s)) in
             do* put_execution x in
             do* change_execution x in
             do* on_store (fun s => set_s_occurrences
                   (dset (s_occurrences s) occurrence (x_execution_id x)) s) in
             do* create_work x EXECUTE (x_queued_at x) in
             do* save_operation (x_namespace x) (x_owner_id x) request_id digest
                   (ResultExecution x) in
             lift (snapshot_execution x)
         end
     end).

Definition get_execution (namespace owner_id execution_id : pystr) : Op AutomationExecution :=
  do* lift (validate_scope namespace owner_id) in
  do* ensure_open in
  let* x := owned_execution namespace owner_id execution_id in
  lift (snapshot_execution x).

Definition get_scheduled_execution (namespace execution_id : pystr) : Op AutomationExecution :=
  do* lift (validate_persisted_text (PyStr namespace) (Some 128)) in
  do* ensure_open in
  let* execution := from_store (fun s => dget (s_executions s) execution_id) in
  match execution with
  | None => raise ExecutionNotFoundError
  | Some x =>
      do* raise_if (negb (bool_decide (x_namespace x = namespace))) ExecutionNotFoundError in
      lift (snapshot_execution x)
  end.

(** The sort key [(item.queued_at, item.execution_id)]. *)
Definition execution_position (x : AutomationExecution) : Z * pystr :=
  (x_queued_at x, x_execution_id x).

Definition selected_executions (namespace owner_id : pystr) (task_id : option pystr)
    (filters : ExecutionFilter) (position : option (Z * pystr)) (s : Store)
    : list AutomationExecution :=
  sorted_by (key_geb execution_position pair_ltb)
    (List.filter (fun x =>
       bool_decide (x_namespace x = namespace) && bool_decide (x_owner_id x = owner_id) &&
       matches_executions x filters &&
       match task_id with None => true | Some t => bool_decide (x_task_id x = Some t) end &&
       before position (execution_position x))
     (dvals (s_executions s))).

Definition list_executions (namespace owner_id : pystr) (task_id : option pystr) (limit : Z)
    (cursor : option pystr) (filters : option ExecutionFilter) : Op ExecutionPage :=
  do* lift (validate_scope namespace owner_id) in
  do* lift (validate_page_limit limit) in
  let selected := match filters with Some f => f | None => ExecutionFilter_all end in
  let scope := query_scope namespace owner_id (ByExecution selected) task_id in
  let* position := lift (decode_cursor cursor scope) in
  do* ensure_open in
  let* items := from_store (selected_executions namespace owner_id task_id selected position) in
  let* page := lift (snapshots snapshot_execution (first_n limit items)) in
  let* next := lift (next_cursor_of execution_position scope limit items) in
  ret {| ep_items := page; ep_next_cursor := next |}.

(** ** Claims *)

Definition work_order (w : WorkItem) : Z * Z * pystr :=
  (w_available_at w, w_created_at w, w_work_item_id w).

(** The due, pending work of a namespace, in claim order. *)
Definition claim_candidates (namespace : pystr) (now : Z) (s : Store) : list WorkItem :=
  sorted_by (key_leb work_order triple_ltb)
    (List.filter (fun w => bool_decide (w_namespace w = namespace) &&
                           bool_decide (w_status w = PENDING) && (w_available_at w <=? now))
       (dvals (s_work s))).

(** The attributes a claim sets before its lease. *)
Definition take_claim (worker_id token : pystr) (w : WorkItem) : WorkItem :=
  set_w_fence (w_fence w + 1)
    (set_w_claim_token (Some token) (set_w_worker_id (Some worker_id) (set_w_status CLAIMED w))).

(** The loop over the candidates; [acc] is the list [claims].  A lease beyond the last
    instant raises when the item has been taken already. *)
Fixpoint claim_loop (worker_id : pystr) (limit lease_duration global_concurrency now : Z)
    (candidates : list pystr) (acc : list WorkItemClaim) : Op (list WorkItemClaim) :=
  match candidates with
  | [] => ret acc
  | work_item_id :: rest =>
      let continue := claim_loop worker_id limit lease_duration global_concurrency now rest in
      if (0 <? limit) && (limit <=? zlen acc) then ret acc
      else
        let* item := get_work_record work_item_id in
        let* x := get_execution_record (w_execution_id item) in
        let* transition := lift (claim_candidate x (w_kind item) now) in
        match transition with
        | Some t => do* apply_transition t (Some work_item_id) in continue acc
        | None =>
            if limit =? 0 then
              do* when (bool_decide (w_kind item = EXPIRE_INTERRUPT))
                    (let* t := lift (expire_interrupted x now) in
                     do* apply_transition t (Some work_item_id) in ret tt) in
              continue acc
            else
              let* admitted :=
                if bool_decide (w_kind item = EXECUTE)
                then reserve_scopes x global_concurrency else ret true in
              if negb admitted then continue acc
              else
                let* claim_token := fresh_token in
                do* update_work work_item_id (take_claim worker_id claim_token) in
                let* lease_until := lift (check_range (now + lease_duration)) in
                do* update_work work_item_id (set_w_lease_until (Some lease_until)) in
                let* item' := get_work_record work_item_id in
                let* claim := claim_from item' in
                continue (acc ++ [claim])
        end
  end.

(** The wake-up times one work item contributes. *)
Definition item_deadlines (namespace : pystr) (now : Z) (admission : bool)
    (executions : dict pystr AutomationExecution) (w : WorkItem) : res exn (list Z) :=
  if negb (bool_decide (w_namespace w = namespace)) || bool_decide (w_status w = COMPLETED)
  then Ok []
  else
    let due :=
      match bool_decide (w_status w = CLAIMED), w_lease_until w with
      | true, Some lease => [lease]
      | _, _ =>
          if (now <? w_available_at w) &&
             (admission || bool_decide (w_kind w = EXPIRE_INTERRUPT))
          then [w_available_at w] else []
      end in
    match dget executions (w_execution_id w) with
    | None => Raise KeyError
    | Some x =>
        Ok (due ++ if bool_decide (w_status w = PENDING) && bool_decide (x_status x = QUEUED)
                   then [x_queue_deadline x] else [])
    end.

Fixpoint all_deadlines (namespace : pystr) (now : Z) (admission : bool)
    (executions : dict pystr AutomationExecution) (l : list WorkItem) : res exn (list Z) :=
  match l with
  | [] => Ok []
  | w :: l' =>
      let? a := item_deadlines namespace now admission executions w in
      let? b := all_deadlines namespace now admission executions l' in
      Ok (a ++ b)
  end.

Definition minimum (d : Z) (l : list Z) : Z := foldr Z.min d l.

Definition next_check_delay (namespace : pystr) (now : Z) (admission : bool) : Op (option Z) :=
  let* s := from_store id in
  let* deadlines := lift (all_deadlines namespace now admission (s_executions s) (dvals (s_work s))) in
  ret match deadlines with
      | [] => None
      | d :: l => Some (Z.max 0 (minimum d l - now))
      end.

Definition claim_work (namespace worker_id : pystr) (limit lease_duration : Z)
    (global_concurrency : Z) : Op WorkClaimBatch :=
  do* lift (validate_persisted_text (PyStr namespace) (Some 128)) in
  do* lift (validate_persisted_text (PyStr worker_id) (Some 191)) in
  do* raise_if (limit <? 0) ValueError in
  do* raise_if (lease_duration <=? 0) ValueError in
  do* raise_if (global_concurrency <? 1) ValueError in
  mutation
    (do* ensure_open in
     let* now := now in
     do* recover_expired_claims namespace now in
     let* candidates := from_store (claim_candidates namespace now) in
     let* claims := claim_loop worker_id limit lease_duration global_concurrency now
                      (map w_work_item_id candidates) [] in
     let* next :=
       if (0 <? limit) && (zlen claims =? limit) && (zlen claims <? zlen candidates)
       then ret (Some 0) else next_check_delay namespace now (0 <? limit) in
     ret {| claims := claims; next_check_after := next |}).

Definition renew_claim (claim : WorkItemClaim) (lease_duration : Z) : Op ClaimRenewal :=
  do* raise_if (lease_duration <=? 0) ValueError in
  let* item := valid_claim claim in
  let* now := now in
  let* lease_until := lift (check_range (now + lease_duration)) in
  do* update_work (c_work_item_id claim) (set_w_lease_until (Some lease_until)) in
  let* item' := get_work_record (c_work_item_id claim) in
  let* renewed := claim_from item' in
  let* x := get_execution_record (w_execution_id item') in
  ret {| renewed_claim := renewed;
         cancellation_requested := bool_decide (x_status x = CANCEL_REQUESTED) |}.

Definition authorize_start (claim : WorkItemClaim) (execution_timeout : Z)
    : Op StartAuthorization :=
  do* raise_if (execution_timeout <=? 0) ValueError in
  mutation
    (let* item := valid_claim claim in
     let* x := get_execution_record (w_execution_id item) in
     let* s := from_store id in
     let* now := now in
     let* token := fresh_token in
     let* authorization := lift (AutoRules.authorize_start x (w_kind item)
       (bool_decide (x_execution_id x ∈ s_admitted s)) now execution_timeout token) in
     (* stored under the id of the execution that was read *)
     do* on_store (fun s => set_s_executions
           (dset (s_executions s) (x_execution_id x) (authorized_execution authorization)) s) in
     do* change_execution (authorized_execution authorization) in
     let* x' := lift (snapshot_execution (authorized_execution authorization)) in
     ret {| authorized_execution := x'; authorized_token := authorized_token authorization |}).

Definition mark_interrupted (claim : WorkItemClaim) (interrupt_ids : list pystr)
    : Op AutomationExecution :=
  do* raise_if (bool_decide (interrupt_ids = [])) ValueError in
  mutation
    (let* item := valid_claim claim in
     let* x := get_execution_record (w_execution_id item) in
     let* now := now in
     let* t := lift (interrupt_execution x interrupt_ids now) in
     let* x' := apply_transition t (Some (c_work_item_id claim)) in
     lift (snapshot_execution x')).

Definition finish_execution (claim : WorkItemClaim) (status : ExecutionStatus)
    (result : JsonValue) (failure_code failure_message : option pystr)
    : Op AutomationExecution :=
  do* raise_if (not_settled status) ValueError in
  mutation
    (let* item := valid_claim claim in
     let* x := get_execution_record (w_execution_id item) in
     let* now := now in
     let* t := lift (AutoRules.finish_execution x status now result failure_code
                       failure_message) in
     let* x' := apply_transition t (Some (c_work_item_id claim)) in
     lift (snapshot_execution x')).

Definition cancel_execution (namespace owner_id execution_id : pystr)
    (request_id : option pystr) (digest : pystr) : Op AutomationExecution :=
  do* lift (validate_scope namespace owner_id) in
  mutation
    (do* ensure_open in
     let* previous := operation_result namespace owner_id request_id digest in
     match previous with
     | Some p => expect_execution p
     | None =>
         let* x := owned_execution namespace owner_id execution_id in
         let* now := now in
         let* t := lift (AutoRules.cancel_execution x now) in
         do* require_operation_capacity request_id in
         let* updated := apply_transition t None in
         do* save_operation namespace owner_id request_id digest (ResultExecution updated) in
         lift (snapshot_execution updated)
     end).

Definition resolve_execution (namespace owner_id execution_id : pystr)
    (resolution : AttentionResolution) (request_id digest reason : pystr)
    : Op AutomationExecution :=
  do* lift (validate_scope namespace owner_id) in
  do* lift (validate_persisted_text (PyStr reason) None) in
  mutation
    (do* ensure_open in
     let* previous := operation_result namespace owner_id (Some request_id) digest in
     match previous with
     | Some p => expect_execution p
     | None =>
         let* x := owned_execution namespace owner_id execution_id in
         let* now := now in
         let* t := lift (AutoRules.resolve_execution x resolution reason now) in
         do* require_operation_capacity (Some request_id) in
         let* updated := apply_transition t None in
         do* save_operation namespace owner_id (Some request_id) digest
               (ResultExecution updated) in
         lift (snapshot_execution updated)
     end).
End operations.
