(* ===== verification/AutoStoreFacts.v ===== *)
(** Automation: every operation of the store keeps the invariant of AutoInvariant
    and follows the allowed evolution; the rules for reasoning about the helpers
    of AutoMemory. *)
From S2P Require Import Prelude PyDict PySeq AutoModels AutoRules AutoRulesFacts AutoMemory.
From S2P Require Import Contracts.
From S2P Require Import AutoInvariant AutoStore.
From Stdlib Require Import Strings.String.

Implicit Types (s : Store) (x : AutomationExecution) (w : World) (t : ExecutionTransition).

(** ** Definitions *)

(** Random tokens do not repeat, as the code relies on for [uuid4]. *)
Class FreshTokens {runtime : Runtime} : Prop :=
  random_token_inj : forall i j, random_token i = random_token j -> i = j.

Section facts.
Context {runtime : Runtime} {codec : CursorCodec}.

(** The store's invariant, and that its work identifiers are tokens already
    drawn. *)
Record winv (w : World) : Prop := {
  wi_inv : inv (store w);
  wi_tokens : forall id, is_Some (dget (s_work (store w)) id) ->
    exists i, (i < random_reads w)%nat /\ random_token i = id
}.

Definition follows (w w' : World) : Prop :=
  winv w' /\ evolves (store w) (store w') /\ (random_reads w <= random_reads w')%nat.

(** A new execution record as the service builds it: queued and never started. *)
Definition fresh_execution (x : AutomationExecution) : Prop :=
  x_status x = QUEUED /\ x_start_authorized_at x = None /\ x_execution_deadline x = None.

(** What [materialize_task] relies on from its caller: the executions are new,
    belong to the task's namespace and have distinct identifiers. *)
Definition new_executions (namespace : pystr) (l : list ScheduledExecution) (s : Store) : Prop :=
  (forall item, item ∈ l -> fresh_execution (scheduled_execution item) /\
     x_namespace (scheduled_execution item) = namespace /\
     dget (s_executions s) (x_execution_id (scheduled_execution item)) = None) /\
  NoDup (map (fun item => x_execution_id (scheduled_execution item)) l).

(** ** Rules for the helpers *)

Lemma follows_refl w : winv w -> follows w w.
Proof. intros H. split; [done|]. split; [apply evolves_refl|lia]. Qed.

Lemma follows_trans w1 w2 w3 : follows w1 w2 -> follows w2 w3 -> follows w1 w3.
Proof.
  intros (_ & E1 & R1) (I2 & E2 & R2). split; [done|]. split; [by eapply evolves_trans|lia].
Qed.

(** Steps that only read the clock, draw tokens or record changes. *)
Lemma follows_same w w' :
  winv w -> store w' = store w -> (random_reads w <= random_reads w')%nat -> follows w w'.
Proof.
  intros [Hi Ht] Hs Hr. split; [|by rewrite Hs; split; [apply evolves_refl|]].
  split; rewrite Hs; [done|]. intros id Hid. destruct (Ht id Hid) as (i & ? & ?).
  exists i. split; [lia|done].
Qed.

(** Steps that change the store but keep its work identifiers. *)
Lemma follows_store w w' :
  winv w -> inv (store w') -> evolves (store w) (store w') ->
  (forall id, is_Some (dget (s_work (store w')) id) -> is_Some (dget (s_work (store w)) id)) ->
  (random_reads w <= random_reads w')%nat -> follows w w'.
Proof.
  intros [Hi Ht] Hi' He Hw Hr. split; [|done]. split; [done|].
  intros id Hid. destruct (Ht id (Hw id Hid)) as (i & ? & ?). exists i. split; [lia|done].
Qed.

Lemma wp_mutation {A} (body : M World exn A) w Q :
  wp body (set_changes [] w) (fun r w' =>
    match r with
    | Ok a => Q (Ok a) (set_changes [] (publish w'))
    | Raise e => Q (Raise e) (set_changes [] w')
    end) ->
  wp (mutation body) w Q.
Proof. unfold wp, mutation. destruct (body _) as [[a|e] w']; done. Qed.

Lemma store_publish w : store (publish w) = store w.
Proof. done. Qed.

(** What an operation promises whatever its outcome: a good world, and, when it
    raises, the store as it was. *)
Definition outcome {A} (w : World) (r : res exn A) (w' : World) : Prop :=
  follows w w' /\ forall e, r = Raise e -> store w' = store w.

Lemma outcome_refl {A} w (r : res exn A) : winv w -> outcome w r w.
Proof. intros Hw. split; [by apply follows_refl|done]. Qed.

Lemma outcome_same {A} w (r : res exn A) w' :
  winv w -> store w' = store w -> (random_reads w <= random_reads w')%nat -> outcome w r w'.
Proof. intros Hw Hs Hr. split; [by apply follows_same|done]. Qed.

Lemma outcome_ok {A} w (a : A) w' : follows w w' -> outcome w (Ok a) w'.
Proof. by split. Qed.

Lemma wp_mutation_outcome {A} (body : M World exn A) w :
  winv w ->
  (forall w0, winv w0 -> store w0 = store w -> random_reads w0 = random_reads w ->
     clock_reads w0 = clock_reads w -> wp body w0 (outcome w0)) ->
  wp (mutation body) w (outcome w).
Proof.
  intros Hw Hb. apply wp_mutation.
  assert (follows w (set_changes [] w)) as H0 by by apply follows_same.
  eapply wp_mono; [apply (Hb (set_changes [] w)); [apply H0|done..]|].
  intros [a|e] w' [Hf Hs].
  - apply outcome_ok. eapply follows_trans; [exact H0|]. eapply follows_trans; [exact Hf|].
    apply follows_same; [apply Hf|done|done].
  - split; [|intros _ _; exact (Hs e eq_refl)]. eapply follows_trans; [exact H0|].
    eapply follows_trans; [exact Hf|]. apply follows_same; [apply Hf|done|done].
Qed.

Ltac store_steps :=
  repeat match goal with
  | |- wp (from_store _) _ _ => unfold from_store
  | |- wp (on_store _) _ _ => unfold on_store
  | |- wp ensure_open _ _ => unfold ensure_open
  | |- wp (ensure_capacity _ _) _ _ => unfold ensure_capacity
  | |- wp now _ _ => unfold now, wp; simpl
  | |- wp fresh_token _ _ => unfold fresh_token, wp; simpl
  | |- _ => wp_step
  end.

Lemma wp_now w (Q : res exn Z -> World -> Prop) :
  (forall z w', store w' = store w -> random_reads w' = random_reads w ->
     changes w' = changes w -> published w' = published w ->
     z = clock_now (clock_reads w) -> clock_reads w' = S (clock_reads w) -> Q (Ok z) w') ->
  wp now w Q.
Proof. intros H. unfold wp, now. simpl. by apply H. Qed.

Lemma wp_fresh_token w (Q : res exn pystr -> World -> Prop) :
  (forall w', store w' = store w -> random_reads w' = S (random_reads w) ->
     clock_reads w' = clock_reads w -> changes w' = changes w -> published w' = published w ->
     Q (Ok (random_token (random_reads w))) w') ->
  wp fresh_token w Q.
Proof. intros H. unfold wp, fresh_token. simpl. by apply H. Qed.

Lemma wp_operation_result ns owner rid digest w Q :
  (forall o, (forall r, o = Some r -> exists rid' receipt, rid = Some rid' /\
      dget (s_operations (store w)) (ns, owner, rid') = Some receipt /\
      receipt_result receipt = r /\ input_digest receipt = digest) ->
    (o = None -> forall rid', rid = Some rid' ->
       dget (s_operations (store w)) (ns, owner, rid') = None) -> Q (Ok o) w) ->
  (forall rid' receipt, rid = Some rid' ->
     dget (s_operations (store w)) (ns, owner, rid') = Some receipt ->
     input_digest receipt <> digest -> Q (Raise RequestConflictError) w) ->
  wp (operation_result ns owner rid digest) w Q.
Proof.
  intros H1 H2. unfold operation_result. destruct rid as [rid|]; [|apply wp_ret, H1; done].
  unfold from_store. apply wp_bind, wp_gets.
  destruct (dget (s_operations (store w)) (ns, owner, rid)) as [receipt|] eqn:Hr.
  - apply wp_bind, wp_raise_if; intros Hb; bool_prop; [by eapply H2|].
    apply wp_ret, H1; [|done]. intros r [= <-]. eauto 10.
  - apply wp_ret, H1; [done|]. intros _ ? [= <-]. done.
Qed.

Lemma wp_owned_task ns owner id w Q :
  (forall task, dget (s_tasks (store w)) id = Some task -> t_namespace task = ns ->
     t_owner_id task = owner -> Q (Ok task) w) ->
  (forall e, Q (Raise e) w) ->
  wp (owned_task ns owner id) w Q.
Proof.
  intros H1 H2. unfold owned_task, from_store. apply wp_bind, wp_gets.
  destruct (dget _ id) eqn:E; [|by apply wp_raise].
  apply wp_bind, wp_raise_if; intros Hb; [done|]. bool_prop. apply wp_ret. by apply H1.
Qed.

Lemma wp_owned_execution ns owner id w Q :
  (forall x, dget (s_executions (store w)) id = Some x -> x_namespace x = ns ->
     x_owner_id x = owner -> Q (Ok x) w) ->
  (forall e, Q (Raise e) w) ->
  wp (owned_execution ns owner id) w Q.
Proof.
  intros H1 H2. unfold owned_execution, from_store. apply wp_bind, wp_gets.
  destruct (dget _ id) eqn:E; [|by apply wp_raise].
  apply wp_bind, wp_raise_if; intros Hb; [done|]. bool_prop. apply wp_ret. by apply H1.
Qed.

Lemma wp_require_operation_capacity rid w Q :
  ((forall rid', rid = Some rid' ->
      zlen (s_operations (store w)) < max_operations (s_limits (store w))) -> Q (Ok tt) w) ->
  (is_Some rid -> Q (Raise AutomationStoreError) w) ->
  wp (require_operation_capacity rid) w Q.
Proof.
  intros H1 H2. unfold require_operation_capacity. destruct rid; [|by apply wp_ret, H1].
  unfold from_store, ensure_capacity. apply wp_bind, wp_gets.
  apply wp_raise_if; intros Hb; [eauto|]. unfold id in Hb. bool_prop. by apply H1.
Qed.

Lemma wp_save_operation ns owner rid digest r w Q :
  (forall rid', rid = Some rid' ->
     zlen (s_operations (store w)) < max_operations (s_limits (store w))) ->
  snapshot r = Ok r ->
  (rid = None -> Q (Ok tt) w) ->
  (forall rid' w', rid = Some rid' ->
     store w' = set_s_operations (dset (s_operations (store w)) (ns, owner, rid')
       {| input_digest := digest; receipt_result := r |}) (store w) ->
     random_reads w' = random_reads w -> clock_reads w' = clock_reads w ->
     changes w' = changes w -> Q (Ok tt) w') ->
  wp (save_operation ns owner rid digest r) w Q.
Proof.
  intros Hc Hr H1 H2. unfold save_operation. destruct rid as [rid|]; [|by apply wp_ret, H1].
  unfold from_store, ensure_capacity, on_store. apply wp_bind, wp_gets.
  apply wp_bind, wp_raise_if; intros Hb; unfold id in Hb; bool_prop;
    [specialize (Hc _ eq_refl); lia|].
  apply wp_bind, wp_lift. rewrite Hr. apply wp_modify. by eapply H2.
Qed.

Lemma wp_valid_claim claim w Q :
  (forall item z w', dget (s_work (store w)) (c_work_item_id claim) = Some item ->
     w_status item = CLAIMED -> w_fence item = c_fence claim ->
     w_claim_token item = Some (c_claim_token claim) ->
     w_execution_id item = c_execution_id claim -> w_namespace item = c_namespace claim ->
     s_closed (store w) = false -> z = clock_now (clock_reads w) ->
     (exists l, w_lease_until item = Some l /\ z < l) ->
     store w' = store w -> random_reads w' = random_reads w ->
     clock_reads w' = S (clock_reads w) -> Q (Ok item) w') ->
  (forall e w', store w' = store w -> random_reads w' = random_reads w -> Q (Raise e) w') ->
  wp (valid_claim claim) w Q.
Proof.
  intros H1 H2. unfold valid_claim, ensure_open, from_store. apply wp_bind, wp_bind, wp_gets.
  apply wp_raise_if; intros Hc; [by apply H2|].
  apply wp_bind, wp_gets, wp_bind, wp_now. intros z w' Es Er _ _ Ez Ec.
  destruct (dget _ _) as [item|] eqn:Hi; [|by apply wp_raise, H2].
  apply wp_bind, wp_raise_if; intros Hb; [by apply H2|]. bool_prop.
  apply wp_ret. eapply H1; try done. destruct (w_lease_until item) as [l|]; [|done].
  exists l. split; [done|]. bool_prop. lia.
Qed.

(** ** [apply_transition] *)

Lemma wp_put_execution x w Q :
  Q (Ok tt) (set_store (put_pure x (store w)) w) -> wp (put_execution x) w Q.
Proof. done. Qed.

Lemma wp_release_scopes x w Q :
  Q (Ok tt) (set_store (release_pure x (store w)) w) -> wp (release_scopes x) w Q.
Proof.
  intros H. unfold wp, release_scopes, release_pure, bind, from_store, gets, on_store, modify in *.
  cbn -[allocated deallocate bool_decide] in *. case_bool_decide as Hb; simpl; [done|].
  by destruct w.
Qed.

Lemma wp_apply_transition t item w Q :
  deadline_work_at t = None ->
  (complete_work t = complete_current -> is_Some item) ->
  (forall w', store w' = apply_pure t item (store w) -> random_reads w' = random_reads w ->
     clock_reads w' = clock_reads w -> Q (Ok (tr_execution t)) w') ->
  wp (apply_transition t item) w Q.
Proof.
  intros Hd Hi HQ. unfold apply_transition. rewrite Hd.
  apply wp_bind, wp_ret, wp_bind, wp_put_execution, wp_bind.
  unfold change_execution, add_change. apply wp_modify. set (w1 := set_changes _ _).
  apply wp_bind.
  apply (wp_mono _ _ (fun r w2 => r = Ok tt /\
    store w2 = complete_pure (complete_work t) item (x_execution_id (tr_execution t)) (store w1) /\
    random_reads w2 = random_reads w /\ clock_reads w2 = clock_reads w)).
  { unfold complete_pure, complete_execution_work, update_work, on_store.
    destruct (complete_work t) eqn:Ec; [by apply wp_ret| |by apply wp_modify].
    destruct (Hi eq_refl) as [id ->]. by apply wp_modify. }
  intros r w2 (-> & Es & Er & Ec). apply wp_bind, wp_when; intros Hrel.
  - apply wp_release_scopes, wp_bind, wp_ret, wp_ret, HQ; simpl; [|done..].
    unfold apply_pure. rewrite Hrel, Es. done.
  - apply wp_bind, wp_ret, wp_ret, HQ; [|done..]. unfold apply_pure. rewrite Hrel, Es. done.
Qed.

(** A transition of a stored execution that completes or keeps its work as its
    new status requires. *)
Lemma wp_transition t item w x Q :
  winv w ->
  dget (s_executions (store w)) (x_execution_id x) = Some x ->
  deadline_work_at t = None ->
  (complete_work t = complete_current -> exists wid (w0 : WorkItem), item = Some wid /\
     dget (s_work (store w)) wid = Some w0 /\ w_execution_id w0 = x_execution_id x) ->
  (complete_work t <> complete_current -> item = None \/ exists wid (w0 : WorkItem), item = Some wid /\
     dget (s_work (store w)) wid = Some w0 /\ w_execution_id w0 = x_execution_id x) ->
  same_static x (tr_execution t) -> exec_valid (tr_execution t) ->
  (is_terminal (x_status x) = true -> tr_execution t = x) ->
  (forall a, x_start_authorized_at x = Some a ->
     x_start_authorized_at (tr_execution t) = Some a) ->
  exec_life (x_execution_id x ∈ s_admitted (store w) /\ release_capacity t = false)
    (tr_execution t) ->
  (forall wid (w0 : WorkItem), dget (s_work (store w)) wid = Some w0 -> w_execution_id w0 = x_execution_id x ->
     work_life (x_execution_id x ∈ s_admitted (store w)) x w0 ->
     work_life (x_execution_id x ∈ s_admitted (store w) /\ release_capacity t = false)
       (tr_execution t)
       (complete_item (complete_work t) item (x_execution_id x) wid w0)) ->
  (forall w', follows w w' -> store w' = apply_pure t item (store w) ->
     random_reads w' = random_reads w -> clock_reads w' = clock_reads w ->
     Q (Ok (tr_execution t)) w') ->
  wp (apply_transition t item) w Q.
Proof.
  intros Hw Hx Hd Hc Hc' Hs Hv Ht Ha He Hwl HQ.
  apply wp_apply_transition; [done|intros E; destruct (Hc E) as (? & ? & -> & _); eauto|].
  intros w' Es Er Ec. apply HQ; [|done..].
  assert (forall wid (w0 : WorkItem), item = Some wid -> dget (s_work (store w)) wid = Some w0 ->
    w_execution_id w0 = x_execution_id x) as Hitem.
  { intros wid w0 Ei Hwid. destruct (decide (complete_work t = complete_current)) as [E|E].
    - destruct (Hc E) as (? & ? & Ei' & Hwid' & ?). congruence.
    - destruct (Hc' E) as [?|(? & ? & Ei' & Hwid' & ?)]; congruence. }
  apply follows_store; [done|..|lia]; rewrite Es.
  - by apply (apply_pure_inv (store w) t item x (wi_inv w Hw) Hx Hs Hv He Hwl Hitem).
  - by apply (apply_pure_evolves (store w) t item x Hx Hs).
  - intros id. rewrite (apply_pure_work (store w) t item x Hs). intros [w0 H0].
    apply fmap_Some in H0 as (w1 & ? & _). eauto.
Qed.

(** ** Lifecycle lemmas *)

Lemma not_live_life P x (w0 : WorkItem) : ~ live w0 -> work_life P x w0.
Proof.
  unfold live. intros H. split; [done|done|]. intros E. rewrite E in H. naive_solver.
Qed.

Lemma exec_life_terminal P x : is_terminal (x_status x) = true -> ~ P -> exec_life P x.
Proof.
  intros Ht Hn. split; destruct (x_status x); simpl in *; try done; by intros [?|[?|?]].
Qed.

Lemma exec_life_started P x :
  x_status x = RUNNING \/ x_status x = INTERRUPTED \/ x_status x = CANCEL_REQUESTED ->
  P -> is_Some (x_start_authorized_at x) -> is_Some (x_execution_deadline x) -> exec_life P x.
Proof. intros [E|[E|E]] HP Hs Hd; split; rewrite E; simpl; done. Qed.

Lemma exec_life_attention (P : Prop) x : x_status x = NEEDS_ATTENTION -> P -> exec_life P x.
Proof. intros E HP. split; rewrite E; simpl; try done. by intros [?|[?|?]]. Qed.

Lemma exec_life_settled P x st :
  not_settled st = false -> x_status x = st -> P ->
  exec_life (P /\ is_terminal st = false) x.
Proof.
  intros Hset Hst HP. destruct (is_terminal st) eqn:Ht.
  - apply exec_life_terminal; [congruence|]. by intros [_ ?].
  - apply exec_life_attention; [|done]. unfold not_settled in Hset. rewrite Ht in Hset.
    simpl in Hset. bool_prop. congruence.
Qed.

Lemma and_keep (P : Prop) : P <-> P /\ false = false.
Proof. tauto. Qed.

Lemma not_and_true (P : Prop) : ~ (P /\ true = false).
Proof. by intros [_ ?]. Qed.

Lemma live_dec (w0 : WorkItem) : live w0 \/ ~ live w0.
Proof. unfold live. destruct (decide (w_status w0 = COMPLETED)); tauto. Qed.

(** An execution has at most one work item of each kind. *)
Lemma work_unique s i1 i2 (w1 w2 : WorkItem) :
  wf s -> dget (s_work s) i1 = Some w1 -> dget (s_work s) i2 = Some w2 ->
  w_execution_id w1 = w_execution_id w2 -> w_kind w1 = w_kind w2 -> i1 = i2.
Proof.
  intros Hwf H1 H2 He Hk.
  destruct (wf_work_item _ Hwf _ _ H1) as (_ & K1 & x1 & X1 & N1).
  destruct (wf_work_item _ Hwf _ _ H2) as (_ & K2 & x2 & X2 & N2).
  rewrite He in X1. rewrite X2 in X1. injection X1 as ->.
  rewrite <-N1, He, Hk, N2 in K1. congruence.
Qed.

(** The execution of a stored work item, with what the invariant says. *)
Lemma work_item_execution w id (w0 : WorkItem) :
  winv w -> dget (s_work (store w)) id = Some w0 ->
  exists x, dget (s_executions (store w)) (w_execution_id w0) = Some x /\
    x_execution_id x = w_execution_id w0 /\ x_namespace x = w_namespace w0 /\ exec_valid x /\
    exec_life (x_execution_id x ∈ s_admitted (store w)) x /\
    (forall wid (w1 : WorkItem), dget (s_work (store w)) wid = Some w1 ->
       w_execution_id w1 = x_execution_id x ->
       work_life (x_execution_id x ∈ s_admitted (store w)) x w1) /\
    work_life (x_execution_id x ∈ s_admitted (store w)) x w0.
Proof.
  intros [Hi _] H0. pose proof (inv_wf _ Hi) as Hwf.
  destruct (wf_work_item _ Hwf _ _ H0) as (_ & _ & x & Hx & Hn).
  destruct (wf_execution _ Hwf _ _ Hx) as [Hid Hv].
  destruct (inv_lives _ Hi _ _ Hx) as [Hel Hwl].
  exists x. rewrite Hid. tsplit; try done. by eapply Hwl.
Qed.

Lemma stored_execution w id x :
  winv w -> dget (s_executions (store w)) id = Some x ->
  x_execution_id x = id /\ dget (s_executions (store w)) (x_execution_id x) = Some x /\
  exec_valid x /\ exec_life (x_execution_id x ∈ s_admitted (store w)) x /\
  (forall wid (w1 : WorkItem), dget (s_work (store w)) wid = Some w1 ->
     w_execution_id w1 = x_execution_id x ->
     work_life (x_execution_id x ∈ s_admitted (store w)) x w1).
Proof.
  intros [Hi _] Hx. destruct (wf_execution _ (inv_wf _ Hi) _ _ Hx) as [Hid Hv].
  destruct (inv_lives _ Hi _ _ Hx) as [Hel Hwl]. rewrite Hid. tsplit; done.
Qed.

(** ** Each rule's transition, applied *)

Lemma wp_apply_cancel w x now t (Q : res exn AutomationExecution -> World -> Prop) :
  winv w -> dget (s_executions (store w)) (x_execution_id x) = Some x ->
  AutoRules.cancel_execution x now = Ok t ->
  (forall w', follows w w' -> store w' = apply_pure t None (store w) -> Q (Ok (tr_execution t)) w') ->
  wp (apply_transition t None) w Q.
Proof.
  intros Hw Hx Ht HQ. destruct (stored_execution _ _ _ Hw Hx) as (_ & _ & Hv & Hel & _).
  destruct (cancel_execution_spec _ _ _ Hv Ht) as (Hs & Hv' & Hna & Hd & Hst & Hdl & Hcase).
  assert (complete_work t <> complete_current) as Hc.
  { destruct (x_status x); destruct_and?; try congruence; subst t; simpl; congruence. }
  eapply (wp_transition t None w x); try done.
  - by left.
  - intros Hterm. destruct (x_status x); try done; by subst t.
  - intros a. by rewrite Hst.
  - destruct (x_status x) eqn:Es; destruct_and?; try congruence;
      try (subst t; simpl; eapply exec_life_iff; [apply and_keep|exact Hel]).
    + apply exec_life_terminal; [by rewrite H|]. rewrite H2. apply not_and_true.
    + destruct (el_started _ _ Hel) as (? & ? & ?); [auto|].
      apply exec_life_started; [auto|by rewrite H2|by rewrite Hst|by rewrite Hdl].
    + apply exec_life_terminal; [by rewrite H|]. rewrite H2. apply not_and_true.
  - intros wid w0 Hwid Hwx Hl. unfold complete_item.
    destruct (x_status x) eqn:Es; destruct_and?; try congruence;
      try (subst t; simpl; eapply work_life_iff; [apply and_keep|exact Hl]).
    + rewrite H1. rewrite bool_decide_eq_true_2 by done. auto with py.
    + rewrite H1. destruct Hl as [L1 L2 L3]. split; [|..|done].
      * intros Hlv Hk. destruct (L1 Hlv Hk) as [[? E]|(? & ? & _)]; [congruence|].
        right. rewrite H, H2. tauto.
      * intros Hlv Hk. destruct (L2 Hlv Hk). congruence.
    + rewrite H1. rewrite bool_decide_eq_true_2 by done. auto with py.
  - intros w' Hf Es _ _. by apply HQ.
Qed.

Lemma wp_apply_resolve w x r reason now t (Q : res exn AutomationExecution -> World -> Prop) :
  winv w -> dget (s_executions (store w)) (x_execution_id x) = Some x ->
  AutoRules.resolve_execution x r reason now = Ok t ->
  (forall w', follows w w' -> store w' = apply_pure t None (store w) -> Q (Ok (tr_execution t)) w') ->
  wp (apply_transition t None) w Q.
Proof.
  intros Hw Hx Ht HQ.
  destruct (resolve_execution_spec _ _ _ _ _ Ht) as (Hna & Hs & Hv & Hst & Hsa & Hc & Hr & Hd).
  assert (is_terminal (resolution_status r) = true) as Hterm by by destruct r.
  eapply (wp_transition t None w x); try done.
  - by rewrite Hc.
  - by left.
  - by rewrite Hna.
  - intros a. by rewrite Hsa.
  - rewrite Hr. apply exec_life_terminal; [by rewrite Hst|apply not_and_true].
  - intros wid w0 Hwid Hwx [L1 L2 L3]. rewrite Hc. simpl. apply not_live_life. intros Hlv.
    destruct (w_kind w0) eqn:Hk.
    + destruct (L1 Hlv eq_refl) as [[_ E]|(_ & _ & [E|[E|E]])]; congruence.
    + destruct (L2 Hlv eq_refl) as [E _]. congruence.
  - intros w' Hf Es _ _. by apply HQ.
Qed.

(** Settling the execution of a claimed item, or one that is interrupted. *)
Lemma wp_apply_settle w x t item st (Q : res exn AutomationExecution -> World -> Prop) :
  winv w -> dget (s_executions (store w)) (x_execution_id x) = Some x ->
  (exists wid (w0 : WorkItem), item = Some wid /\ dget (s_work (store w)) wid = Some w0 /\
     w_execution_id w0 = x_execution_id x) ->
  is_terminal (x_status x) = false -> x_execution_id x ∈ s_admitted (store w) ->
  not_settled st = false -> x_status (tr_execution t) = st ->
  same_static x (tr_execution t) -> exec_valid (tr_execution t) ->
  x_start_authorized_at (tr_execution t) = x_start_authorized_at x ->
  complete_work t = complete_all -> release_capacity t = is_terminal st ->
  deadline_work_at t = None ->
  (forall w', follows w w' -> store w' = apply_pure t item (store w) ->
     random_reads w' = random_reads w -> Q (Ok (tr_execution t)) w') ->
  wp (apply_transition t item) w Q.
Proof.
  intros Hw Hx Hitem Hnt Hadm Hset Hst Hs Hv Hsa Hc Hr Hd HQ.
  eapply (wp_transition t item w x); try done.
  - by right.
  - congruence.
  - intros a. by rewrite Hsa.
  - rewrite Hr. by apply exec_life_settled.
  - intros wid w0 _ Hwx _. rewrite Hc. simpl. rewrite bool_decide_eq_true_2 by done. auto with py.
  - intros w' Hf Es Er _. by apply HQ.
Qed.

(** Completing only the current item: no other item of the execution is live. *)
Lemma wp_apply_current w x t wid (w0 : WorkItem) (Q : res exn AutomationExecution -> World -> Prop) :
  winv w -> dget (s_executions (store w)) (x_execution_id x) = Some x ->
  dget (s_work (store w)) wid = Some w0 -> w_execution_id w0 = x_execution_id x ->
  (forall i (w1 : WorkItem), dget (s_work (store w)) i = Some w1 ->
     w_execution_id w1 = x_execution_id x -> i <> wid ->
     ~ live w1 \/ (tr_execution t = x /\ release_capacity t = false)) ->
  same_static x (tr_execution t) -> exec_valid (tr_execution t) ->
  (is_terminal (x_status x) = true -> tr_execution t = x) ->
  x_start_authorized_at (tr_execution t) = x_start_authorized_at x ->
  exec_life (x_execution_id x ∈ s_admitted (store w) /\ release_capacity t = false)
    (tr_execution t) ->
  complete_work t = complete_current -> deadline_work_at t = None ->
  (forall w', follows w w' -> store w' = apply_pure t (Some wid) (store w) ->
     random_reads w' = random_reads w -> clock_reads w' = clock_reads w ->
     Q (Ok (tr_execution t)) w') ->
  wp (apply_transition t (Some wid)) w Q.
Proof.
  intros Hw Hx H0 H0x Hothers Hs Hv Hterm Hsa Hel Hc Hd HQ.
  eapply (wp_transition t (Some wid) w x); try done.
  - intros _. eauto 10.
  - intros a. by rewrite Hsa.
  - intros i w1 Hi Hix Hl. rewrite Hc. simpl. case_bool_decide as Hb; [auto with py|].
    destruct (Hothers i w1 Hi Hix) as [?|[-> ->]]; [congruence|by apply not_live_life|].
    eapply work_life_iff; [apply and_keep|exact Hl].
Qed.

(** No other live item beside a live [EXECUTE] item. *)
Lemma execute_alone w x wid (w0 : WorkItem) i (w1 : WorkItem) :
  winv w -> dget (s_executions (store w)) (x_execution_id x) = Some x ->
  dget (s_work (store w)) wid = Some w0 -> w_execution_id w0 = x_execution_id x ->
  w_kind w0 = EXECUTE -> x_status x <> INTERRUPTED ->
  dget (s_work (store w)) i = Some w1 -> w_execution_id w1 = x_execution_id x -> i <> wid ->
  ~ live w1.
Proof.
  intros Hw Hx H0 H0x Hk Hni Hi Hix Hne Hlv.
  destruct (stored_execution _ _ _ Hw Hx) as (_ & _ & _ & _ & Hwl).
  destruct (Hwl _ _ Hi Hix) as [L1 L2 L3]. destruct (w_kind w1) eqn:Hk1.
  - apply Hne. eapply (work_unique (store w)); [apply Hw|done|done|congruence|congruence].
  - destruct (L2 Hlv eq_refl). done.
Qed.

Lemma wp_apply_expire_queued w x wid (w0 : WorkItem) now t
    (Q : res exn AutomationExecution -> World -> Prop) :
  winv w -> dget (s_executions (store w)) (x_execution_id x) = Some x ->
  dget (s_work (store w)) wid = Some w0 -> w_execution_id w0 = x_execution_id x ->
  w_kind w0 = EXECUTE -> x_status x = QUEUED -> expire_queued x now = Ok t ->
  (forall w', follows w w' -> store w' = apply_pure t (Some wid) (store w) ->
     random_reads w' = random_reads w -> clock_reads w' = clock_reads w ->
     Q (Ok (tr_execution t)) w') ->
  wp (apply_transition t (Some wid)) w Q.
Proof.
  intros Hw Hx H0 H0x Hk Hq Ht HQ.
  destruct (expire_queued_spec _ _ _ Ht) as (Hs & Hv & Hst & Hsa & Hc & Hr & Hd).
  eapply (wp_apply_current w x); try done.
  - intros i w1 Hi Hix Hne. left.
    eapply (execute_alone w x wid w0 i w1); try done. congruence.
  - by rewrite Hq.
  - rewrite Hr. apply exec_life_terminal; [by rewrite Hst|apply not_and_true].
Qed.

(** Dropping work that no longer matches the execution's status. *)
Lemma wp_apply_drop w x wid (w0 : WorkItem) t (Q : res exn AutomationExecution -> World -> Prop) :
  winv w -> dget (s_executions (store w)) (x_execution_id x) = Some x ->
  dget (s_work (store w)) wid = Some w0 -> w_execution_id w0 = x_execution_id x ->
  t = {| tr_execution := x; complete_work := complete_current; release_capacity := false;
         deadline_work_at := None |} ->
  (forall w', follows w w' -> store w' = apply_pure t (Some wid) (store w) ->
     random_reads w' = random_reads w -> clock_reads w' = clock_reads w ->
     Q (Ok x) w') ->
  wp (apply_transition t (Some wid)) w Q.
Proof.
  intros Hw Hx H0 H0x -> HQ.
  destruct (stored_execution _ _ _ Hw Hx) as (_ & _ & Hv & Hel & _).
  eapply (wp_apply_current w x); simpl; try done.
  - intros i w1 _ _ _. by right.
  - eapply exec_life_iff; [apply and_keep|exact Hel].
Qed.

(** ** [create_work] *)

Lemma wp_create_work `{!FreshTokens} w x kind at_ (Q : res exn unit -> World -> Prop) :
  winv w -> dget (s_executions (store w)) (x_execution_id x) = Some x ->
  (kind = EXECUTE -> x_status x = QUEUED) ->
  (kind = EXPIRE_INTERRUPT -> x_status x = INTERRUPTED /\ x_execution_deadline x = Some at_) ->
  (dget (s_work_keys (store w)) (x_namespace x, x_execution_id x, kind) = None ->
     zlen (s_work (store w)) < max_work_items (s_limits (store w))) ->
  (forall w', follows w w' -> zlen (s_work (store w')) <= zlen (s_work (store w)) + 1 ->
     s_tasks (store w') = s_tasks (store w) -> s_executions (store w') = s_executions (store w) ->
     s_occurrences (store w') = s_occurrences (store w) ->
     s_operations (store w') = s_operations (store w) ->
     s_admitted (store w') = s_admitted (store w) ->
     s_limits (store w') = s_limits (store w) ->
     (forall id (w0 : WorkItem), dget (s_work (store w')) id = Some w0 ->
        w_execution_id w0 <> x_execution_id x -> dget (s_work (store w)) id = Some w0) ->
     Q (Ok tt) w') ->
  wp (create_work x kind at_) w Q.
Proof.
  intros Hw Hx Hex Hin Hcap HQ. unfold create_work, from_store. apply wp_bind, wp_gets.
  assert (forall P f0, w_status f0 = PENDING -> w_kind f0 = kind ->
    w_available_at f0 = at_ -> work_life P x f0) as Hlife.
  { intros P f0 E1 E2 E3. split.
    - intros _ Hk. left. split; [done|]. apply Hex. congruence.
    - intros _ Hk. rewrite E3. apply Hin. congruence.
    - congruence. }
  destruct (dget (s_work_keys (store w)) _) as [id|] eqn:Hk.
  - destruct (wf_work_key _ (inv_wf _ (wi_inv _ Hw)) _ _ _ _ Hk) as (w0 & H0 & N0 & X0 & K0).
    unfold get_work_record, from_store. apply wp_bind, wp_bind, wp_gets, wp_some_or;
      [intros w1 Hw1|congruence]. unfold update_work, on_store. apply wp_modify, HQ; simpl; try done.
    + apply follows_store; simpl; [done|..|lia].
      * eapply (inv_update_work _ id w0 _ x); try done; [apply Hw|congruence|].
        by eapply Hlife.
      * apply evolves_update_work. intros w2 _. simpl. tsplit; done || lia.
      * intros i. rewrite dget_dupd. destruct (decide (id = i)) as [<-|]; [|done].
        rewrite H0. eauto.
    + rewrite zlen_dupd. lia.
    + intros i w2. rewrite dget_dupd. destruct (decide (id = i)) as [<-|]; [|done].
      rewrite H0. intros [= <-]. simpl. congruence.
  - apply wp_bind, wp_gets. unfold ensure_capacity, id.
    apply wp_bind, wp_raise_if; intros Hb; bool_prop; [specialize (Hcap eq_refl); lia|].
    apply wp_bind, wp_fresh_token. intros w1 Es1 Er1 _ _ _.
    apply wp_bind, wp_now. intros z w2 Es2 Er2 _ _ _ _. unfold on_store. apply wp_modify.
    set (item := Build_WorkItem _ _ _ _ _ _ _ _ _ _ _).
    assert (store w2 = store w) as Es by congruence.
    assert (dget (s_work (store w)) (w_work_item_id item) = None) as Hnew.
    { destruct (dget (s_work (store w)) (w_work_item_id item)) eqn:E; [|done]. exfalso.
      destruct (wi_tokens _ Hw (w_work_item_id item)) as (i & Hi & Ht); [rewrite E; eauto|].
      apply random_token_inj in Ht. lia. }
    assert (inv (add_work item (store w))) as Hi.
    { eapply (inv_add_work _ _ x); try done; [apply Hw|]. by eapply Hlife. }
    assert (evolves (store w) (add_work item (store w))) as He by by apply evolves_add_work.
    apply HQ; simpl; rewrite ?Es; try done.
    + split; [|simpl; rewrite ?Es; split; [done|lia]]. split; simpl; rewrite ?Es; [done|].
      intros i. rewrite dget_dset. destruct (decide (_ = i)) as [<-|Hne].
      * intros _. exists (random_reads w). split; [lia|done].
      * intros Hi'. destruct (wi_tokens _ Hw i Hi') as (j & ? & ?). exists j. split; [lia|done].
    + apply zlen_dset_le.
    + intros i w3. rewrite dget_dset. destruct (decide _) as [<-|]; [|done].
      intros [= <-]. simpl. done.
Qed.
End facts.
