(* ===== verification/AutoStoreSafe.v ===== *)
(** Automation: every operation of AutoStore keeps the invariant and follows the
    allowed evolution, whatever its outcome. *)
From S2P Require Import Prelude PyDict PySeq AutoModels AutoRules AutoRulesFacts AutoMemory.
From S2P Require Import Contracts.
From S2P Require Import AutoInvariant AutoStore AutoStoreFacts.
From Stdlib Require Import Strings.String.

Implicit Types (s : Store) (x : AutomationExecution) (w : World).

Section safe.
Context {runtime : Runtime} {codec : CursorCodec} {fresh : FreshTokens}.

(** [safe m w]: whatever [m] does from [w], it ends in a good world, and a raise
    leaves the store as it was. *)
Definition safe {A} (m : M World exn A) (w : World) : Prop :=
  wp m w (outcome w).

Ltac same := apply follows_same; [done|simpl; congruence|simpl; lia].

Lemma winv_same w w' :
  winv w -> store w' = store w -> (random_reads w <= random_reads w')%nat -> winv w'.
Proof. intros H Hs Hr. by destruct (follows_same w w' H Hs Hr). Qed.

(** A read-only computation leaves the world as it is. *)
Definition reads {A} (m : M World exn A) : Prop :=
  forall w, (m w).2 = w.

Lemma reads_safe {A} (m : M World exn A) w : reads m -> winv w -> safe m w.
Proof. intros Hr Hw. unfold safe, wp. rewrite Hr. by apply outcome_refl. Qed.

Lemma reads_bind {A B} (m : M World exn A) (f : A -> M World exn B) :
  reads m -> (forall a, reads (f a)) -> reads (bind m f).
Proof.
  intros Hm Hf w. unfold bind. specialize (Hm w). destruct (m w) as [[a|e] w1]; simpl in *;
    subst w1; [apply Hf|done].
Qed.

Lemma reads_lift {A} (r : res exn A) : reads (lift r).
Proof. done. Qed.
Lemma reads_ret {A} (a : A) : reads (ret a).
Proof. done. Qed.
Lemma reads_raise {A} e : reads (raise e : M World exn A).
Proof. done. Qed.
Lemma reads_raise_if (b : bool) e : reads (raise_if b e).
Proof. by destruct b. Qed.
Lemma reads_from_store {A} (f : Store -> A) : reads (from_store f).
Proof. done. Qed.

Ltac reads_tac := repeat (first
  [ apply reads_lift | apply reads_ret | apply reads_raise | apply reads_raise_if
  | apply reads_from_store | apply reads_bind; [|intros ?]
  | match goal with |- reads (match ?o with _ => _ end) => destruct o end
  | progress unfold ensure_open, owned_task, owned_execution, setup ]).

Lemma get_task_reads ns owner id : reads (get_task ns owner id).
Proof. unfold get_task. reads_tac. Qed.

Lemma get_command_receipt_reads ns owner rid : reads (get_command_receipt ns owner rid).
Proof. unfold get_command_receipt. reads_tac. Qed.

Lemma get_scheduled_task_reads ns id : reads (get_scheduled_task ns id).
Proof. unfold get_scheduled_task. reads_tac. Qed.

Lemma get_execution_reads ns owner id : reads (get_execution ns owner id).
Proof. unfold get_execution. reads_tac. Qed.

Lemma get_scheduled_execution_reads ns id : reads (get_scheduled_execution ns id).
Proof. unfold get_scheduled_execution. reads_tac. Qed.

Lemma list_tasks_reads ns owner limit cursor f : reads (list_tasks ns owner limit cursor f).
Proof. unfold list_tasks. reads_tac. Qed.

Lemma list_scheduled_tasks_reads ns limit cursor : reads (list_scheduled_tasks ns limit cursor).
Proof. unfold list_scheduled_tasks. reads_tac. Qed.

Lemma list_executions_reads ns owner tid limit cursor f :
  reads (list_executions ns owner tid limit cursor f).
Proof. unfold list_executions. reads_tac. Qed.

Lemma summarize_tasks_reads ns owner f : reads (summarize_tasks ns owner f).
Proof. unfold summarize_tasks. reads_tac. Qed.

Lemma summarize_executions_reads ns owner f : reads (summarize_executions ns owner f).
Proof. unfold summarize_executions. reads_tac. Qed.

(** ** Commands on tasks *)

Lemma expect_task_reads r : reads (expect_task r).
Proof. destruct r; apply reads_lift || apply reads_raise. Qed.

Lemma expect_execution_reads r : reads (expect_execution r).
Proof. destruct r; apply reads_lift || apply reads_raise. Qed.

Lemma expect_str_reads r : reads (expect_str r).
Proof. destruct r; apply reads_ret || apply reads_raise. Qed.

Lemma wp_reads {A} (m : M World exn A) w (Q : res exn A -> World -> Prop) :
  reads m -> (forall r, Q r w) -> wp m w Q.
Proof. intros Hr HQ. unfold wp. rewrite Hr. apply HQ. Qed.

(** [save_operation] for a request that has no receipt yet. *)
Lemma save_operation_safe ns owner rid digest r w :
  winv w ->
  (forall rid', rid = Some rid' ->
     zlen (s_operations (store w)) < max_operations (s_limits (store w))) ->
  (forall rid', rid = Some rid' -> dget (s_operations (store w)) (ns, owner, rid') = None) ->
  snapshot r = Ok r ->
  wp (save_operation ns owner rid digest r) w (fun r w' => r = Ok tt /\ follows w w').
Proof.
  intros Hw Hc Hn Hr. apply wp_save_operation; [done|done|..].
  - intros _. split; [done|]. by apply follows_refl.
  - intros rid' w' -> Es Er _ _. split; [done|]. apply follows_store; [done|..|lia]; rewrite Es.
    + apply inv_save_operation; [apply Hw|done|by eapply Hc].
    + by apply evolves_save_operation, Hn.
    + done.
Qed.

(** Storing a task and the receipt of the command that did it. *)
Lemma put_task_safe task rid digest w :
  winv w -> task_valid task ->
  (is_Some (dget (s_tasks (store w)) (t_task_id task)) \/
   zlen (s_tasks (store w)) < max_tasks (s_limits (store w))) ->
  (forall rid', rid = Some rid' ->
     zlen (s_operations (store w)) < max_operations (s_limits (store w))) ->
  (forall rid', rid = Some rid' ->
     dget (s_operations (store w)) (t_namespace task, t_owner_id task, rid') = None) ->
  wp (do* put_task task in do* change_task task in
      do* save_operation (t_namespace task) (t_owner_id task) rid digest (ResultTask task) in
      lift (snapshot_task task)) w (fun r w' => r = Ok task /\ follows w w').
Proof.
  intros Hw Hv Hb Hc Hn. unfold put_task, on_store, change_task, add_change.
  apply wp_bind, wp_modify, wp_bind, wp_modify, wp_bind.
  set (w1 := set_changes _ _).
  assert (follows w w1) as H1.
  { apply follows_store; simpl; [done|..|done|lia].
    - apply inv_put_task; [apply Hw|done|done].
    - by apply evolves_frame. }
  eapply wp_mono; [apply (save_operation_safe _ _ rid digest (ResultTask task) w1)|].
  - apply H1.
  - done.
  - done.
  - simpl. unfold snapshot_task. by rewrite replace_task_valid.
  - intros r w2 [-> H2]. apply wp_lift. unfold snapshot_task. rewrite replace_task_valid by done.
    split; [done|]. by eapply follows_trans.
Qed.

Lemma create_task_safe task rid digest w : winv w -> safe (create_task task rid digest) w.
Proof.
  intros Hw. unfold safe, create_task. apply wp_bind, wp_lift. unfold snapshot_task at 1.
  destruct (replace_task task) as [t'|e] eqn:Ht; [|by apply outcome_refl].
  apply replace_task_ok in Ht as [-> Hv]. apply wp_mutation_outcome; [done|].
  intros w1 Hw1 _ _ _. clear w Hw. rename w1 into w, Hw1 into Hw. unfold ensure_open, ensure_capacity, from_store.
  apply wp_bind, wp_bind, wp_gets, wp_raise_if; intros _; [by apply outcome_refl|].
  apply wp_bind, wp_operation_result; [|intros; by apply outcome_refl].
  intros o _ Hn. destruct o as [p|].
  { apply wp_reads; [apply expect_task_reads|]. intros; by apply outcome_refl. }
  apply wp_bind, wp_gets, wp_bind, wp_raise_if; intros Hd; [by apply outcome_refl|].
  apply wp_bind, wp_raise_if; intros Hc; [by apply outcome_refl|].
  apply wp_bind, wp_require_operation_capacity; [|intros; by apply outcome_refl]. intros Hcap.
  unfold id in *. bool_prop.
  eapply wp_mono; [apply put_task_safe; auto with lia|intros r w' [-> ?]; by apply outcome_ok].
Qed.

Lemma update_task_safe task rev rid digest w :
  winv w -> safe (update_task task rev rid digest) w.
Proof.
  intros Hw. unfold safe, update_task. apply wp_bind, wp_lift. unfold snapshot_task at 1.
  destruct (replace_task task) as [t'|e] eqn:Ht; [|by apply outcome_refl].
  apply replace_task_ok in Ht as [-> Hv]. apply wp_mutation_outcome; [done|].
  intros w1 Hw1 _ _ _. clear w Hw. rename w1 into w, Hw1 into Hw. unfold ensure_open, from_store.
  apply wp_bind, wp_bind, wp_gets, wp_raise_if; intros _; [by apply outcome_refl|].
  apply wp_bind, wp_operation_result; [|intros; by apply outcome_refl].
  intros o _ Hn. destruct o as [p|].
  { apply wp_reads; [apply expect_task_reads|]. intros; by apply outcome_refl. }
  apply wp_bind, wp_owned_task; [|intros; by apply outcome_refl]. intros cur Hcur _ _.
  apply wp_bind, wp_raise_if; intros _; [by apply outcome_refl|].
  apply wp_bind, wp_raise_if; intros _; [by apply outcome_refl|].
  apply wp_bind, wp_require_operation_capacity; [|intros; by apply outcome_refl]. intros Hcap.
  eapply wp_mono; [apply put_task_safe; eauto|intros r w' [-> ?]; by apply outcome_ok].
Qed.

(** One step of the cancellation loop of [delete_task]: it never raises, and
    leaves every other execution as it was. *)
Lemma cancel_if_queued_safe tid now x w :
  winv w -> dget (s_executions (store w)) (x_execution_id x) = Some x ->
  wp (cancel_if_queued tid now x) w (fun r w' => r = Ok tt /\ follows w w' /\
    s_operations (store w') = s_operations (store w) /\
    s_limits (store w') = s_limits (store w) /\
    forall id, id <> x_execution_id x ->
      dget (s_executions (store w')) id = dget (s_executions (store w)) id).
Proof.
  intros Hw Hx. unfold cancel_if_queued. destruct (_ || _) eqn:Hb.
  { apply wp_ret. tsplit; try done; by apply follows_refl. }
  bool_prop. apply wp_bind, wp_lift.
  destruct (stored_execution _ _ _ Hw Hx) as (_ & _ & Hv & _).
  destruct (cancel_execution_total x now Hv) as [t Ht]; [congruence|].
  rewrite Ht. apply wp_bind.
  destruct (cancel_execution_spec _ _ _ Hv Ht) as (Hs & _).
  eapply wp_apply_cancel; [done|done|done|]. intros w' Hf Es. apply wp_ret.
  destruct (apply_pure_fields t None (store w)) as (_ & E2 & _ & _ & E5 & _ & E7 & _).
  rewrite Es, E2, E5, E7. tsplit; try done. intros id Hne. simpl.
  rewrite dget_dset_ne; [done|]. rewrite (same_static_id _ _ Hs). done.
Qed.

Lemma cancel_loop_safe tid now l w :
  winv w -> NoDup (map x_execution_id l) ->
  (forall x, x ∈ l -> dget (s_executions (store w)) (x_execution_id x) = Some x) ->
  wp (for_each (cancel_if_queued tid now) l) w (fun r w' => r = Ok tt /\ follows w w' /\
    s_operations (store w') = s_operations (store w) /\
    s_limits (store w') = s_limits (store w)).
Proof.
  revert w. induction l as [|x l IH]; simpl; intros w Hw Hnd Hl.
  { apply wp_ret. tsplit; try done; by apply follows_refl. }
  apply NoDup_cons in Hnd as [Hnx Hnd]. apply wp_bind.
  eapply wp_mono; [apply cancel_if_queued_safe; [done|apply Hl; by left]|].
  intros r w1 (-> & Hf & Eo & El & Hother). eapply wp_mono; [apply IH|].
  - apply Hf.
  - done.
  - intros y Hy. rewrite Hother; [apply Hl; by right|]. intros E. apply Hnx. rewrite <-E.
    apply list_elem_of_In, in_map, list_elem_of_In, Hy.
  - simpl. intros r w2 (-> & Hf2 & Eo2 & El2). tsplit; [done|by eapply follows_trans|congruence..].
Qed.

(** The values of the executions dictionary, as the loop iterates them. *)
Lemma executions_values w :
  winv w -> NoDup (map x_execution_id (dvals (s_executions (store w)))) /\
  forall x, x ∈ dvals (s_executions (store w)) ->
    dget (s_executions (store w)) (x_execution_id x) = Some x.
Proof.
  intros [Hi _]. pose proof (inv_wf _ Hi) as Hwf. split.
  - assert (map x_execution_id (dvals (s_executions (store w))) = dkeys (s_executions (store w)))
      as ->; [|apply Hwf].
    unfold dvals, dkeys. rewrite map_map. apply map_ext_in. intros [k v] Hin.
    apply (wf_execution _ Hwf), elem_of_dget; [apply Hwf|]. by apply list_elem_of_In.
  - intros x Hx. apply elem_of_dvals in Hx as [k Hk]; [|apply Hwf].
    by destruct (wf_execution _ Hwf _ _ Hk) as [-> _].
Qed.

Lemma delete_task_safe ns owner tid rev rid digest w :
  winv w -> safe (delete_task ns owner tid rev rid digest) w.
Proof.
  intros Hw. unfold safe, delete_task. apply wp_bind, wp_lift.
  destruct (validate_scope ns owner) as [[]|e]; [|by apply outcome_refl].
  apply wp_mutation_outcome; [done|]. intros w1 Hw1 _ _ _. clear w Hw. rename w1 into w, Hw1 into Hw. unfold ensure_open, from_store.
  apply wp_bind, wp_bind, wp_gets, wp_raise_if; intros _; [by apply outcome_refl|].
  apply wp_bind, wp_operation_result; [|intros; by apply outcome_refl].
  intros o _ Hn. destruct o as [p|].
  { apply wp_reads; [|intros; by apply outcome_refl].
    apply reads_bind; [apply expect_str_reads|intros _; apply reads_ret]. }
  apply wp_bind, wp_owned_task; [|intros; by apply outcome_refl]. intros cur Hcur _ _.
  apply wp_bind, wp_raise_if; intros _; [by apply outcome_refl|].
  apply wp_bind, wp_require_operation_capacity; [|intros; by apply outcome_refl]. intros Hcap.
  unfold on_store, change_task, add_change.
  apply wp_bind, wp_modify, wp_bind, wp_modify, wp_bind, wp_now. intros z w1 Es Er _ _ _ _.
  assert (follows w w1) as H1.
  { apply follows_store; rewrite ?Es; simpl; [done|..|done|rewrite Er; simpl; lia].
    - by apply inv_del_task, Hw.
    - by apply evolves_frame. }
  apply wp_bind, wp_gets, wp_bind.
  destruct (executions_values w1 (proj1 H1)) as [Hnd Hin].
  eapply wp_mono; [by apply cancel_loop_safe; [apply H1|..]|].
  intros r w2 (-> & H2 & Eo & El). rewrite Es in Eo, El. simpl in Eo, El.
  eapply wp_mono; [apply save_operation_safe|].
  - apply H2.
  - rewrite Eo, El. done.
  - rewrite Eo. auto.
  - done.
  - intros r w3 [-> H3]. apply outcome_ok.
    exact (follows_trans _ _ _ H1 (follows_trans _ _ _ H2 H3)).
Qed.
(** ** Creating executions *)

Lemma fresh_exec_life x : fresh_execution x -> exec_life False x.
Proof.
  intros (Hs & Hst & Hd). split; rewrite Hs; simpl; try done. by intros [?|[?|?]].
Qed.

(** Storing a new execution, its occurrence and its work. *)
Lemma store_new_execution {B} w occ x (k : unit -> M World exn B)
    (Q : res exn B -> World -> Prop) :
  winv w -> fresh_execution x -> exec_valid x ->
  dget (s_executions (store w)) (x_execution_id x) = None ->
  dget (s_occurrences (store w)) occ = None ->
  zlen (s_executions (store w)) < max_executions (s_limits (store w)) ->
  zlen (s_work (store w)) < max_work_items (s_limits (store w)) ->
  (forall w', follows w w' -> s_limits (store w') = s_limits (store w) ->
     s_tasks (store w') = s_tasks (store w) ->
     s_executions (store w') = dset (s_executions (store w)) (x_execution_id x) x ->
     s_occurrences (store w') = dset (s_occurrences (store w)) occ (x_execution_id x) ->
     s_operations (store w') = s_operations (store w) ->
     s_admitted (store w') = s_admitted (store w) ->
     zlen (s_work (store w')) <= zlen (s_work (store w)) + 1 -> wp (k tt) w' Q) ->
  wp (do* put_execution x in do* change_execution x in
      do* on_store (fun s => set_s_occurrences (dset (s_occurrences s) occ (x_execution_id x)) s) in
      let* u := create_work x EXECUTE (x_queued_at x) in k u) w Q.
Proof.
  intros Hw Hf Hv Hn Ho Hce Hcw HQ.
  unfold change_execution, add_change, on_store.
  apply wp_bind, wp_put_execution, wp_bind, wp_modify, wp_bind, wp_modify, wp_bind.
  set (w1 := set_store _ _).
  assert (inv (put_pure x (store w))) as Hi1.
  { apply inv_new_execution; try done; [apply Hw|by apply fresh_exec_life]. }
  assert (follows w w1) as H1.
  { apply follows_store; simpl; [done|..|done|lia].
    - apply (inv_add_occurrence (put_pure x (store w))); [done|]. simpl.
      rewrite dget_dset_eq. eauto.
    - apply (evolves_trans _ (put_pure x (store w))); [by apply evolves_new_execution|].
      by apply (evolves_add_occurrence (put_pure x (store w))). }
  apply wp_create_work; simpl; try done.
  - apply H1.
  - by rewrite dget_dset_eq.
  - intros _. by destruct Hf.
  - intros w2 H2 Hz Et Ee Eo Eop Ea El _. simpl in *. apply HQ; try done.
    by eapply follows_trans.
Qed.

Lemma enqueue_execution_safe x occ rid digest rev w :
  winv w -> (x_status x = QUEUED -> fresh_execution x) ->
  safe (enqueue_execution x occ rid digest rev) w.
Proof.
  intros Hw Hfresh. unfold safe, enqueue_execution. apply wp_bind, wp_lift.
  unfold snapshot_execution at 1.
  destruct (replace_execution x) as [x'|e] eqn:Hx; [|by apply outcome_refl].
  apply replace_execution_ok in Hx as [-> Hv]. apply wp_mutation_outcome; [done|].
  intros w1 Hw1 _ _ _. clear w Hw. rename w1 into w, Hw1 into Hw.
  unfold ensure_open, ensure_capacity, from_store.
  apply wp_bind, wp_bind, wp_gets, wp_raise_if; intros _; [by apply outcome_refl|].
  apply wp_bind, wp_operation_result; [|intros; by apply outcome_refl].
  intros o _ Hn. destruct o as [p|].
  { apply wp_reads; [apply expect_execution_reads|]. intros; by apply outcome_refl. }
  apply wp_bind, wp_gets. destruct (dget (s_occurrences (store w)) _) as [oid|] eqn:Hocc.
  { apply wp_reads; [|intros; by apply outcome_refl]. unfold get_execution_record.
    apply reads_bind; [apply reads_bind; [apply reads_from_store|]|intros; apply reads_lift].
    intros [?|]; apply reads_ret || apply reads_raise. }
  apply wp_bind, wp_raise_if; intros Hq; [by apply outcome_refl|].
  apply wp_bind, wp_gets, wp_bind, wp_raise_if; intros Hd; [by apply outcome_refl|].
  apply wp_bind. eapply (wp_mono _ _ (fun _ w' => w' = w)).
  { destruct (x_retry_of x), (x_task_id x); try (apply wp_raise_if; done).
    apply wp_bind, wp_owned_task; [|done]. intros task _ _ _. by apply wp_lift. }
  intros [[]|e] ? ->; [|by apply outcome_refl].
  apply wp_bind, wp_lift. destruct (require_queue_capacity _ _ _) as [[]|e];
    [|by apply outcome_refl].
  apply wp_bind, wp_raise_if; intros Hc1; [by apply outcome_refl|].
  apply wp_bind, wp_require_operation_capacity; [|intros; by apply outcome_refl]. intros Hcap.
  apply wp_bind, wp_raise_if; intros Hc2; [by apply outcome_refl|].
  unfold id in *. bool_prop. apply dmem_false in Hd.
  apply (store_new_execution w (x_namespace x, occ) x); auto with lia.
  intros w1 H1 El _ _ _ Eo _ _. apply wp_bind.
  eapply wp_mono; [apply save_operation_safe|].
  - apply H1.
  - rewrite Eo, El. done.
  - rewrite Eo. auto.
  - simpl. unfold snapshot_execution. by rewrite replace_execution_valid.
  - intros r w2 [-> H2]. apply wp_lift. unfold snapshot_execution.
    rewrite replace_execution_valid by done. apply outcome_ok. by eapply follows_trans.
Qed.

(** ** Materialisation *)

Lemma wp_bind_ret {A} (m : M World exn A) w Q : wp (bind m ret) w Q -> wp m w Q.
Proof. unfold wp, bind, ret. by destruct (m w) as [[a|e] w']. Qed.

Lemma store_scheduled_safe ns item w :
  let x := scheduled_execution item in
  winv w -> fresh_execution x -> exec_valid x ->
  dget (s_executions (store w)) (x_execution_id x) = None ->
  dget (s_occurrences (store w)) (ns, occurrence_key item) = None ->
  zlen (s_executions (store w)) < max_executions (s_limits (store w)) ->
  zlen (s_work (store w)) < max_work_items (s_limits (store w)) ->
  wp (store_scheduled ns item) w (fun r w' => r = Ok tt /\ follows w w' /\
    s_limits (store w') = s_limits (store w) /\
    s_executions (store w') = dset (s_executions (store w)) (x_execution_id x) x /\
    s_occurrences (store w') =
      dset (s_occurrences (store w)) (ns, occurrence_key item) (x_execution_id x) /\
    zlen (s_work (store w')) <= zlen (s_work (store w)) + 1).
Proof.
  intros x Hw Hf Hv Hn Ho Hce Hcw. unfold store_scheduled. fold x.
  cut (wp (do* put_execution x in do* change_execution x in
      do* on_store (fun s => set_s_occurrences
            (dset (s_occurrences s) (ns, occurrence_key item) (x_execution_id x)) s) in
      let* u := create_work x EXECUTE (x_queued_at x) in ret u) w (fun r w' =>
    r = Ok tt /\ follows w w' /\
    s_limits (store w') = s_limits (store w) /\
    s_executions (store w') = dset (s_executions (store w)) (x_execution_id x) x /\
    s_occurrences (store w') =
      dset (s_occurrences (store w)) (ns, occurrence_key item) (x_execution_id x) /\
    zlen (s_work (store w')) <= zlen (s_work (store w)) + 1)).
  { intros H. apply wp_bind_ret. revert H. unfold wp, bind, put_execution, on_store, modify.
    unfold change_execution, add_change, modify, ret. simpl. by destruct (create_work _ _ _ _) as [[]]. }
  by apply store_new_execution.
Qed.

(** The pending items are new occurrences, each once. *)
Lemma pending_from_spec seen l :
  (forall item, item ∈ pending_from seen l -> item ∈ l /\ occurrence_key item ∉ seen) /\
  NoDup (map occurrence_key (pending_from seen l)) /\
  sublist (pending_from seen l) l.
Proof.
  revert seen. induction l as [|item l IH]; intros seen; simpl.
  { tsplit; [by intros ? ?%elem_of_nil|apply NoDup_nil_2|done]. }
  case_bool_decide as Hs.
  - destruct (IH seen) as (H1 & H2 & H3). tsplit; [|done|by constructor].
    intros i Hi. destruct (H1 i Hi). split; [by right|done].
  - destruct (IH (occurrence_key item :: seen)) as (H1 & H2 & H3). tsplit; simpl.
    + intros i [->|Hi]%elem_of_cons; [split; [by left|done]|].
      destruct (H1 i Hi) as [? Hn]. split; [by right|]. intros ?. apply Hn. by right.
    + apply NoDup_cons. split; [|done]. intros Hin. apply list_elem_of_In, in_map_iff in Hin.
      destruct Hin as (i & E & Hin). apply list_elem_of_In in Hin.
      destruct (H1 i Hin) as [_ Hn]. apply Hn. rewrite E. by left.
    + by constructor.
Qed.

Lemma store_loop_safe ns l w :
  winv w ->
  (forall item, item ∈ l -> fresh_execution (scheduled_execution item) /\
     exec_valid (scheduled_execution item) /\
     dget (s_executions (store w)) (x_execution_id (scheduled_execution item)) = None /\
     dget (s_occurrences (store w)) (ns, occurrence_key item) = None) ->
  NoDup (map (fun item => x_execution_id (scheduled_execution item)) l) ->
  NoDup (map occurrence_key l) ->
  zlen (s_executions (store w)) + zlen l <= max_executions (s_limits (store w)) ->
  zlen (s_work (store w)) + zlen l <= max_work_items (s_limits (store w)) ->
  wp (for_each (store_scheduled ns) l) w (fun r w' => r = Ok tt /\ follows w w').
Proof.
  revert w. induction l as [|item l IH]; intros w Hw Hl Hn1 Hn2 Hc1 Hc2; simpl.
  { apply wp_ret. split; [done|]. by apply follows_refl. }
  simpl in Hn1, Hn2. apply NoDup_cons in Hn1 as [Hx1 Hn1]. apply NoDup_cons in Hn2 as [Hx2 Hn2].
  destruct (Hl item) as (Hf & Hv & He & Ho); [by left|].
  rewrite zlen_cons in Hc1, Hc2. pose proof (zlen_nonneg l). apply wp_bind.
  eapply wp_mono; [apply (store_scheduled_safe ns item w); done || lia|].
  intros r w1 (-> & H1 & El & Ee & Eo & Hz). eapply wp_mono; [apply IH|].
  - apply H1.
  - intros i Hi. destruct (Hl i) as (? & ? & ? & ?); [by right|]. rewrite Ee, Eo.
    assert (forall (f : ScheduledExecution -> pystr), f item ∉ map f l -> f item <> f i) as Hne.
    { intros f Hnf E. apply Hnf. rewrite E. by apply list_elem_of_In, in_map, list_elem_of_In. }
    rewrite dget_dset_ne by (apply (Hne (fun j => x_execution_id (scheduled_execution j))); done).
    rewrite dget_dset_ne; [done|]. intros [= E]. by apply (Hne occurrence_key).
  - done.
  - done.
  - rewrite Ee, El. pose proof (zlen_dset_le (s_executions (store w))
      (x_execution_id (scheduled_execution item)) (scheduled_execution item)) as Hle. lia.
  - rewrite El. lia.
  - intros r w2 [-> H2]. split; [done|]. by eapply follows_trans.
Qed.

Lemma snapshots_ok {A} (f : A -> res exn A) l l' :
  (forall a b : A, f a = Ok b -> b = a) -> snapshots f l = Ok l' ->
  l' = l /\ forall a : A, a ∈ l -> f a = Ok a.
Proof.
  intros Hf. revert l'. induction l as [|x l IH]; simpl; intros l' H.
  { injection H as <-. split; [done|]. by intros ? ?%elem_of_nil. }
  apply rbind_ok in H as (y & Hy & H). apply rbind_ok in H as (ys & Hys & H). injection H as <-.
  destruct (IH _ Hys) as [-> Hall]. pose proof (Hf _ _ Hy) as ->. split; [done|].
  intros z [->|Hz]%elem_of_cons; auto.
Qed.

Lemma snapshots_valid {A} (f : A -> res exn A) l :
  (forall a : A, a ∈ l -> f a = Ok a) -> snapshots f l = Ok l.
Proof.
  induction l as [|x l IH]; simpl; intros Hf; [done|].
  rewrite Hf by (by left). simpl. rewrite IH; [done|]. intros y Hy. apply Hf. by right.
Qed.

Lemma snapshot_scheduled_ok i j :
  snapshot_scheduled i = Ok j -> j = i /\ exec_valid (scheduled_execution i).
Proof.
  unfold snapshot_scheduled. intros H. apply rbind_ok in H as (x & Hx & H).
  apply replace_execution_ok in Hx as [-> Hv]. injection H as <-. split; [|done]. by destruct i.
Qed.

Lemma occurrence_absent ns k s :
  k ∉ occurrence_keys ns s -> dget (s_occurrences s) (ns, k) = None.
Proof.
  intros Hk. apply not_elem_of_dkeys. intros Hin. apply Hk. unfold occurrence_keys.
  apply list_elem_of_In, in_map_iff. exists (ns, k). split; [done|].
  apply filter_In. split; [by apply list_elem_of_In|]. by apply bool_decide_eq_true_2.
Qed.

Lemma sublist_map {A B} (f : A -> B) (l1 l2 : list A) : sublist l1 l2 -> sublist (map f l1) (map f l2).
Proof. induction 1; simpl; by constructor. Qed.

Lemma materialize_task_safe task expected l w :
  winv w -> new_executions (t_namespace task) l (store w) ->
  safe (materialize_task task expected l) w.
Proof.
  intros Hw Hnew. unfold safe, materialize_task. apply wp_bind, wp_lift. unfold snapshot_task at 1.
  destruct (replace_task task) as [t'|e] eqn:Ht; [|by apply outcome_refl].
  apply replace_task_ok in Ht as [-> Htv]. apply wp_bind, wp_lift.
  destruct (snapshots snapshot_scheduled l) as [l'|e] eqn:Hl; [|by apply outcome_refl].
  apply snapshots_ok in Hl as [-> Hl]; [|by intros x y [-> _]%snapshot_scheduled_ok].
  apply wp_mutation_outcome; [done|]. intros w1 Hw1 Es _ _. rewrite <-Es in Hnew.
  clear w Hw Es. rename w1 into w, Hw1 into Hw.
  unfold ensure_open, ensure_capacity, from_store.
  apply wp_bind, wp_bind, wp_gets, wp_raise_if; intros _; [by apply outcome_refl|].
  apply wp_bind, wp_owned_task; [|intros; by apply outcome_refl]. intros cur Hcur _ _.
  destruct (negb _).
  { apply wp_reads; [|intros; by apply outcome_refl].
    apply reads_bind; [apply reads_lift|intros; apply reads_ret]. }
  apply wp_bind, wp_gets. unfold id. set (pending := pending_occurrences _ _).
  apply wp_bind, wp_lift. destruct (require_queue_capacity _ _ _) as [[]|e];
    [|by apply outcome_refl].
  apply wp_bind, wp_when; intros Hc1.
  { apply wp_raise_if; intros Hb; [by apply outcome_refl|]. bool_prop. lia. }
  apply wp_bind, wp_when; intros Hc2.
  { apply wp_raise_if; intros Hb; [by apply outcome_refl|]. bool_prop. lia. }
  bool_prop. unfold put_task, change_task, add_change, on_store.
  apply wp_bind, wp_modify, wp_bind, wp_modify, wp_bind. set (w1 := set_changes _ _).
  assert (follows w w1) as H1.
  { apply follows_store; simpl; [done|..|done|lia].
    - apply inv_put_task; [apply Hw|done|eauto].
    - by apply evolves_frame. }
  destruct (pending_from_spec (occurrence_keys (t_namespace task) (store w)) l) as (P1 & P2 & P3).
  destruct Hnew as [Hnew Hnd].
  eapply wp_mono; [apply (store_loop_safe _ pending w1); try done|].
  - apply H1.
  - intros item Hi. destruct (P1 item Hi) as [Hil Hno]. destruct (Hnew item Hil) as (? & _ & ?).
    tsplit; [done|by destruct (snapshot_scheduled_ok _ _ (Hl item Hil))|done|].
    by apply occurrence_absent.
  - eapply sublist_NoDup; [exact Hnd|by apply sublist_map].
  - intros r w2 [-> H2]. apply wp_bind, wp_lift. unfold snapshot_task.
    rewrite replace_task_valid by done. apply wp_bind, wp_lift. rewrite snapshots_valid.
    + apply wp_ret, outcome_ok. by eapply follows_trans.
    + intros x Hx. apply list_elem_of_In, in_map_iff in Hx as (item & <- & Hi).
      apply list_elem_of_In, P1 in Hi as [Hi _].
      apply replace_execution_valid. by destruct (snapshot_scheduled_ok _ _ (Hl item Hi)).
Qed.
End safe.
