(* ===== verification/AutoClaims.v ===== *)
(** Automation: claiming work.  Recovery of expired claims and the claim loop
    never raise on a well-formed store, the claims handed out are held by the
    items they name, and admission stays within the global bound. *)
From S2P Require Import Prelude PyDict PySeq Contracts AutoModels AutoRules AutoRulesFacts.
From S2P Require Import AutoMemory AutoInvariant AutoStore AutoStoreFacts AutoStoreSafe.
From Stdlib Require Import Strings.String.

Implicit Types (s : Store) (x : AutomationExecution) (w : World) (t : ExecutionTransition).

(** ** Definitions *)

(** The stored item carries exactly this claim. *)
Definition held (s : Store) (c : WorkItemClaim) : Prop :=
  exists w0 : WorkItem, dget (s_work s) (c_work_item_id c) = Some w0 /\
    w_namespace w0 = c_namespace c /\ w_execution_id w0 = c_execution_id c /\
    w_kind w0 = c_kind c /\ w_status w0 = CLAIMED /\
    w_claim_token w0 = Some (c_claim_token c) /\ w_fence w0 = c_fence c /\
    w_lease_until w0 = Some (c_lease_until c).

(** A candidate that the loop has not reached yet: still pending and due, or
    completed meanwhile because its execution was settled. *)
Definition candidate_ok (ns : pystr) (now : Z) (s : Store) (id : pystr) : Prop :=
  exists w0 : WorkItem, dget (s_work s) id = Some w0 /\ w_namespace w0 = ns /\
    w_available_at w0 <= now /\
    (w_status w0 = PENDING \/
     (w_status w0 = COMPLETED /\ exists x, dget (s_executions s) (w_execution_id w0) = Some x /\
        is_terminal (x_status x) = true)).

(** The allocation counter of a namespace's global scope. *)
Definition global_allocated (ns : pystr) (s : Store) : Z := allocated s (ns, u "global", u "global").

Section claims.
Context {runtime : Runtime} {codec : CursorCodec} {fresh : FreshTokens}.

(** ** Reading records that are there *)

Lemma wp_get_work id w (w0 : WorkItem) (Q : res exn WorkItem -> World -> Prop) :
  dget (s_work (store w)) id = Some w0 -> Q (Ok w0) w -> wp (get_work_record id) w Q.
Proof.
  intros H HQ. unfold get_work_record, from_store. apply wp_bind, wp_gets. rewrite H.
  by apply wp_ret.
Qed.

Lemma wp_get_execution id w x (Q : res exn AutomationExecution -> World -> Prop) :
  dget (s_executions (store w)) id = Some x -> Q (Ok x) w -> wp (get_execution_record id) w Q.
Proof.
  intros H HQ. unfold get_execution_record, from_store. apply wp_bind, wp_gets. rewrite H.
  by apply wp_ret.
Qed.

(** An execution has at most one work item that is not completed. *)
Lemma live_unique w i1 i2 (w1 w2 : WorkItem) :
  winv w -> dget (s_work (store w)) i1 = Some w1 -> dget (s_work (store w)) i2 = Some w2 ->
  w_execution_id w1 = w_execution_id w2 -> live w1 -> live w2 -> i1 = i2.
Proof.
  intros Hw H1 H2 E L1 L2.
  destruct (work_item_execution _ _ _ Hw H1) as (x & Hx & Hid & _ & _ & _ & Hwl & [A1 A2 _]).
  destruct (Hwl _ _ H2) as [B1 B2 _]; [congruence|].
  destruct (decide (w_kind w1 = w_kind w2)) as [Hk|Hk].
  { by eapply (work_unique (store w)); [apply Hw|..]. }
  destruct (w_kind w1), (w_kind w2); try done.
  - destruct (B2 L2 eq_refl). destruct (A1 L1 eq_refl) as [[_ ?]|(_ & _ & [?|[?|?]])]; congruence.
  - destruct (A2 L1 eq_refl). destruct (B1 L2 eq_refl) as [[_ ?]|(_ & _ & [?|[?|?]])]; congruence.
Qed.

(** ** Work and allocations under a transition *)

Lemma allocated_nonneg s : inv s -> forall k, 0 <= allocated s k.
Proof. intros [_ Ha _ _] k. rewrite (proj1 (Ha k)). apply count_nonneg. Qed.

Lemma deallocate_le key s :
  (forall k, 0 <= allocated s k) ->
  forall k, 0 <= allocated (deallocate key s) k <= allocated s k.
Proof.
  intros H k. pose proof (H k). destruct (allocated_deallocate key k s) as [->|(? & -> & ->)];
    [|lia]. destruct (decide _); lia.
Qed.

Lemma release_allocated_le x s :
  (forall k, 0 <= allocated s k) -> forall k, allocated (release_pure x s) k <= allocated s k.
Proof.
  intros H k. unfold release_pure. case_bool_decide; [|lia].
  assert (forall s', allocated (set_s_admitted (s_admitted s' ∖ {[x_execution_id x]}) s') k =
    allocated s' k) as -> by done.
  pose proof (deallocate_le (global_key x) s H) as H1.
  pose proof (deallocate_le (scope_key x) (deallocate (global_key x) s) (fun k => proj1 (H1 k)) k).
  specialize (H1 k). lia.
Qed.

Lemma apply_allocated_le t item s :
  inv s -> forall k, allocated (apply_pure t item s) k <= allocated s k.
Proof.
  intros Hi k. unfold apply_pure.
  set (s2 := complete_pure _ _ _ _).
  assert (forall k, allocated s2 k = allocated s k) as Hs2.
  { intros k'. unfold allocated, s2.
    destruct (complete_pure_fields (complete_work t) item (x_execution_id (tr_execution t))
      (put_pure (tr_execution t) s)) as (_ & _ & _ & _ & _ & E & _). by rewrite E. }
  destruct (release_capacity t); [|by rewrite Hs2].
  rewrite <-Hs2. apply release_allocated_le. intros k'. rewrite Hs2. by apply allocated_nonneg.
Qed.

Lemma held_apply t wid s c :
  held s c -> c_work_item_id c <> wid -> complete_work t <> complete_all ->
  held (apply_pure t (Some wid) s) c.
Proof.
  intros (w0 & Hw & H) Hne Hc. exists w0. split; [|done].
  destruct (apply_pure_fields t (Some wid) s) as (_ & _ & _ & _ & _ & _ & _ & _ & ->).
  rewrite complete_pure_work, Hw. simpl. unfold complete_item.
  destruct (complete_work t); try done. by rewrite bool_decide_eq_false_2.
Qed.

Lemma candidate_ok_apply ns now t wid s id x :
  candidate_ok ns now s id -> id <> wid ->
  dget (s_executions s) (x_execution_id x) = Some x -> same_static x (tr_execution t) ->
  (is_terminal (x_status x) = true -> tr_execution t = x) ->
  (complete_work t = complete_all -> is_terminal (x_status (tr_execution t)) = true) ->
  candidate_ok ns now (apply_pure t (Some wid) s) id.
Proof.
  intros (w0 & Hw & Hn & Ha & Hst) Hne Hx Hs Hterm Hall.
  exists (complete_item (complete_work t) (Some wid) (x_execution_id x) id w0).
  rewrite (apply_pure_work s t (Some wid) x Hs), Hw. split; [done|].
  split; [rewrite <-Hn; by unfold complete_item; repeat case_match|].
  assert (forall w1 : WorkItem, w_available_at (completed w1) = w_available_at w1) as Hav by done.
  assert (w_available_at (complete_item (complete_work t) (Some wid) (x_execution_id x) id w0)
          = w_available_at w0) as ->.
  { unfold complete_item. destruct (complete_work t); try destruct (bool_decide _); done. }
  split; [done|].
  pose proof (complete_item_ids (complete_work t) (Some wid) (x_execution_id x) id w0)
    as (_ & _ & -> & _).
  assert (forall y, dget (s_executions s) (w_execution_id w0) = Some y ->
    is_terminal (x_status y) = true -> exists z,
    dget (s_executions (apply_pure t (Some wid) s)) (w_execution_id w0) = Some z /\
    is_terminal (x_status z) = true) as Hkeep.
  { intros y Hy Hyt. rewrite (apply_pure_execution s t (Some wid) x Hs).
    destruct (decide _) as [E|]; [|by eauto]. eexists. split; [done|].
    rewrite <-E, Hx in Hy. injection Hy as <-. by rewrite Hterm. }
  unfold complete_item. destruct (complete_work t) eqn:Ec.
  - destruct Hst as [?|(? & y & Hy & Hyt)]; [by left|right]. split; [done|by eapply Hkeep].
  - rewrite bool_decide_eq_false_2 by done.
    destruct Hst as [?|(? & y & Hy & Hyt)]; [by left|right]. split; [done|by eapply Hkeep].
  - case_bool_decide as E.
    + right. split; [done|]. exists (tr_execution t).
      rewrite (apply_pure_execution s t (Some wid) x Hs), decide_True by done. auto.
    + destruct Hst as [?|(? & y & Hy & Hyt)]; [by left|right]. split; [done|by eapply Hkeep].
Qed.

(** ** Recovery *)

Lemma update_item_follows w wid (w0 : WorkItem) f x :
  winv w -> dget (s_work (store w)) wid = Some w0 ->
  dget (s_executions (store w)) (w_execution_id w0) = Some x ->
  w_work_item_id (f w0) = w_work_item_id w0 -> w_namespace (f w0) = w_namespace w0 ->
  w_execution_id (f w0) = w_execution_id w0 -> w_kind (f w0) = w_kind w0 ->
  w_fence w0 <= w_fence (f w0) ->
  work_life (w_execution_id w0 ∈ s_admitted (store w)) x (f w0) ->
  follows w (set_store (set_s_work (dupd (s_work (store w)) wid f) (store w)) w).
Proof.
  intros Hw H0 Hx E1 E2 E3 E4 E5 Hl. apply follows_store; simpl; [done|..|lia].
  - by eapply (inv_update_work _ wid w0 f x); [apply Hw|..].
  - apply evolves_update_work. intros w1 Hw1. rewrite H0 in Hw1. by injection Hw1 as <-.
  - intros i. rewrite dget_dupd. destruct (decide (wid = i)) as [<-|]; [|done].
    rewrite H0. eauto.
Qed.

(** The two transitions of a recovered claim. *)
Lemma wp_apply_recover w x wid (w0 : WorkItem) now t
    (Q : res exn AutomationExecution -> World -> Prop) :
  winv w -> dget (s_executions (store w)) (x_execution_id x) = Some x ->
  dget (s_work (store w)) wid = Some w0 -> w_execution_id w0 = x_execution_id x ->
  w_status w0 = CLAIMED -> recover_expired_claim x (w_kind w0) now = Ok t ->
  (forall w', follows w w' -> store w' = apply_pure t (Some wid) (store w) ->
     Q (Ok (tr_execution t)) w') ->
  wp (apply_transition t (Some wid)) w Q.
Proof.
  intros Hw Hx H0 H0x Hcl Ht HQ.
  destruct (stored_execution _ _ _ Hw Hx) as (_ & _ & Hv & Hel & Hwl).
  destruct (Hwl _ _ H0 H0x) as [L1 L2 L3].
  assert (live w0) as Hlv by (unfold live; congruence).
  destruct (recover_expired_claim_spec _ _ _ _ Hv Ht)
    as (Hs & Hv' & Hsa & Hr & Hd & [(Hk & Hst & Hna & Hc)|(_ & Hun)]).
  - destruct (L1 Hlv Hk) as [[? _]|(_ & Hadm & Hstatus)]; [congruence|].
    assert (x_status x <> INTERRUPTED /\ is_terminal (x_status x) = false) as [Hni Hnt].
    { by destruct Hstatus as [E|[E|E]]; rewrite E. }
    eapply (wp_apply_current w x); try done.
    + intros i w1 Hi Hix Hne. left. by eapply (execute_alone w x wid w0 i w1).
    + congruence.
    + rewrite Hr. by apply exec_life_attention.
    + intros w' Hf Es _ _. by apply HQ.
  - subst t. eapply (wp_transition _ (Some wid) w x); simpl; try done.
    + right. eauto 10.
    + eapply exec_life_iff; [apply and_keep|done].
    + intros i w1 Hi Hix Hl. eapply work_life_iff; [apply and_keep|done].
    + intros w' Hf Es _ _. by apply HQ.
Qed.

Lemma recover_item_safe ns now wid w :
  winv w -> is_Some (dget (s_work (store w)) wid) ->
  wp (recover_item ns now wid) w (fun r w' => r = Ok tt /\ follows w w' /\
    forall k, allocated (store w') k <= allocated (store w) k).
Proof.
  intros Hw [w0 H0]. unfold recover_item, get_work_record, get_execution_record, from_store,
    update_work, on_store.
  apply wp_bind, wp_bind, wp_gets. rewrite H0. apply wp_ret, wp_when; intros Hb; cycle 1.
  { tsplit; [done|by apply follows_refl|lia]. }
  bool_prop. destruct (work_item_execution _ _ _ Hw H0) as (x & Hx & Hid & Hn & Hv & Hel & Hwl & Hl0).
  apply wp_bind, wp_bind, wp_gets. rewrite Hx. apply wp_ret, wp_bind, wp_lift.
  destruct (recover_expired_claim_total x (w_kind w0) now Hv) as [t Ht]. rewrite Ht.
  rewrite <-Hid in Hx. apply wp_bind.
  eapply (wp_apply_recover w x wid w0 now t); try done. intros w1 Hf1 Es1.
  destruct (recover_expired_claim_spec _ _ _ _ Hv Ht) as (Hs & _ & _ & _ & _ & Hcase).
  set (g := complete_item (complete_work t) (Some wid) (x_execution_id x) wid w0).
  assert (dget (s_work (store w1)) wid = Some g) as Hw1.
  { rewrite Es1, (apply_pure_work _ t (Some wid) x Hs), H0. done. }
  assert (forall k, allocated (store w1) k <= allocated (store w) k) as Ha1.
  { rewrite Es1. apply apply_allocated_le, Hw. }
  assert (w_execution_id g = x_execution_id x) as Hgx.
  { unfold g. pose proof (complete_item_ids (complete_work t) (Some wid) (x_execution_id x) wid w0)
      as (_ & _ & -> & _). done. }
  assert (dget (s_executions (store w1)) (w_execution_id g) = Some (tr_execution t)) as Hx1.
  { rewrite Es1, (apply_pure_execution _ t (Some wid) x Hs), Hgx, decide_True; done. }
  destruct Hcase as [(Hk & Hst & Hna & Hc)|(Hns & Hun)].
  - rewrite Hc. apply wp_bind, wp_ret, wp_modify. tsplit; [done|..|done].
    eapply follows_trans; [done|]. eapply (update_item_follows w1 wid g clear_claim); try done.
    + apply Hf1.
    + subst g. unfold complete_item. rewrite Hc, bool_decide_eq_true_2 by done.
      exact (work_life_completed _ _ w0).
  - assert (complete_work t = complete_none) as Hc by by subst t. rewrite Hc.
    assert (g = w0) as Hg by (subst g; unfold complete_item; by rewrite Hc).
    apply wp_bind, wp_modify, wp_modify. set (w2 := set_store _ w1).
    destruct Hl0 as [L1 L2 L3]. assert (live w0) as Hlv by (unfold live; congruence).
    assert (work_life (w_execution_id g ∈ s_admitted (store w1)) (tr_execution t)
      (set_w_status PENDING g)) as Hl2.
    { rewrite Hg. subst t. split; simpl.
      - intros _ Hk. left. split; [done|]. destruct (L1 Hlv Hk) as [[? _]|(_ & _ & Hq)]; [congruence|].
        destruct Hq as [?|Hq]; [done|]. exfalso. apply Hns. split; [done|].
        apply (el_started _ _ Hel). naive_solver.
      - intros _ Hk. by apply L2.
      - done. }
    assert (follows w1 w2) as Hf2.
    { eapply (update_item_follows w1 wid g (set_w_status PENDING)); try done. apply Hf1. }
    tsplit; [done|..|done]. eapply follows_trans; [done|]. eapply follows_trans; [done|].
    apply (update_item_follows w2 wid (set_w_status PENDING g) clear_claim (tr_execution t));
      simpl; try done.
    + apply Hf2.
    + rewrite dget_dupd, decide_True by done. by rewrite Hw1.
    + destruct Hl2 as [M1 M2 _]. split; [exact M1|exact M2|done].
Qed.

Lemma recover_loop_safe ns now l w :
  winv w -> (forall id, id ∈ l -> is_Some (dget (s_work (store w)) id)) ->
  wp (for_each (recover_item ns now) l) w (fun r w' => r = Ok tt /\ follows w w' /\
    forall k, allocated (store w') k <= allocated (store w) k).
Proof.
  revert w. induction l as [|id l IH]; simpl; intros w Hw Hl.
  { apply wp_ret. tsplit; [done|by apply follows_refl|lia]. }
  apply wp_bind. eapply wp_mono; [apply recover_item_safe; [done|apply Hl; by left]|].
  intros r w1 (-> & H1 & Ha1). eapply wp_mono; [apply IH|].
  - apply H1.
  - intros i Hi. destruct (Hl i) as [w0 H0]; [by right|].
    destruct (ev_work _ _ (proj1 (proj2 H1)) _ _ H0) as (w' & ? & _). eauto.
  - simpl. intros r w2 (-> & H2 & Ha2). tsplit; [done|by eapply follows_trans|].
    intros k. specialize (Ha1 k). specialize (Ha2 k). lia.
Qed.

Lemma recover_expired_claims_safe ns now w :
  winv w ->
  wp (recover_expired_claims ns now) w (fun r w' => r = Ok tt /\ follows w w' /\
    forall k, allocated (store w') k <= allocated (store w) k).
Proof.
  intros Hw. unfold recover_expired_claims, from_store. apply wp_bind, wp_gets.
  apply recover_loop_safe; [done|]. intros id Hid. by apply elem_of_dkeys.
Qed.
End claims.

(** ** Recovery of expired claims *)


(** ** Definitions *)

(** A claim of the namespace whose lease has run out. *)
Definition lapsed (ns : pystr) (now : Z) (w0 : WorkItem) : bool :=
  bool_decide (w_namespace w0 = ns) && bool_decide (w_status w0 = CLAIMED) &&
  match w_lease_until w0 with Some l => l <=? now | None => false end.

(** The lapsed claim had authorized its execution's start. *)
Definition lost_start (ns : pystr) (now : Z) (x : AutomationExecution) (w0 : WorkItem) : bool :=
  lapsed ns now w0 && bool_decide (w_kind w0 = EXECUTE) &&
  negb (bool_decide (x_start_authorized_at x = None)).

Definition recovered_work (ns : pystr) (now : Z) (x : AutomationExecution) (w0 : WorkItem)
    : WorkItem :=
  if lost_start ns now x w0 then completed w0
  else if lapsed ns now w0 then clear_claim (set_w_status PENDING w0) else w0.

Definition attention (now : Z) (x : AutomationExecution) : AutomationExecution :=
  set_status NEEDS_ATTENTION
    (set_failure_code (Some (u "automation.claim_lost_after_start"))
      (set_failure_message (Some (u "Execution ownership expired after start"))
        (set_updated_at now x))).

Section recovery.
Context {runtime : Runtime} {codec : CursorCodec} {fresh : FreshTokens}.

(** ** One item *)

Lemma recover_item_effect ns now wid w (w0 : WorkItem) x :
  winv w -> dget (s_work (store w)) wid = Some w0 ->
  dget (s_executions (store w)) (w_execution_id w0) = Some x ->
  wp (recover_item ns now wid) w (fun r w' =>
    s_admitted (store w') = s_admitted (store w) /\
    (forall id, dget (s_work (store w')) id =
       if decide (wid = id) then Some (recovered_work ns now x w0)
       else dget (s_work (store w)) id) /\
    (forall id, dget (s_executions (store w')) id =
       if decide (w_execution_id w0 = id /\ lost_start ns now x w0 = true)
       then Some (attention now x) else dget (s_executions (store w)) id)).
Proof.
  intros Hw H0 Hx. destruct (work_item_execution _ _ _ Hw H0) as (x' & Hx' & Hid & _ & Hv & _).
  rewrite Hx in Hx'. injection Hx' as <-.
  unfold recover_item, recovered_work. eapply wp_bind, wp_get_work; [done|].
  assert (lost_start ns now x w0 = lapsed ns now w0 && (bool_decide (w_kind w0 = EXECUTE) &&
    negb (bool_decide (x_start_authorized_at x = None)))) as Hl.
  { unfold lost_start. by rewrite andb_assoc. }
  apply wp_when; fold (lapsed ns now w0); intros Hb; rewrite Hl, Hb; simpl; cycle 1.
  { tsplit; [done|intros id..].
    - destruct (decide _) as [<-|]; [by rewrite H0|done].
    - by rewrite decide_False by (intros [_ ?]; done). }
  eapply wp_bind, wp_get_execution; [done|]. apply wp_bind, wp_lift.
  destruct (recover_expired_claim_total x (w_kind w0) now Hv) as [t Ht]. rewrite Ht.
  unfold recover_expired_claim in Ht.
  destruct (bool_decide (w_kind w0 = EXECUTE) && negb (bool_decide (x_start_authorized_at x = None)));
    simpl.
  - apply rbind_ok in Ht as (y & [-> _]%replace_execution_ok & [= <-]).
    apply wp_bind, wp_apply_transition; simpl; [done|eauto|].
    intros w1 Es _ _. apply wp_bind, wp_ret, wp_modify. simpl. rewrite Es. unfold apply_pure. simpl.
    split; [done|]. split; intros id.
    + rewrite !dget_dupd. destruct (decide (wid = id)) as [<-|]; [|done]. by rewrite H0.
    + rewrite dget_dset. simpl. rewrite Hid. destruct (decide (w_execution_id w0 = id)).
      * by rewrite decide_True.
      * by rewrite decide_False by naive_solver.
  - injection Ht as <-. apply wp_bind, wp_apply_transition; simpl; [done|done|].
    intros w1 Es _ _. apply wp_bind, wp_modify, wp_modify. simpl. rewrite Es. unfold apply_pure. simpl.
    split; [done|]. split; intros id.
    + rewrite !dget_dupd. destruct (decide (wid = id)) as [<-|]; [|done]. by rewrite H0.
    + rewrite dget_dset, Hid. rewrite (decide_False (P := _ /\ _)) by (intros [_ ?]; done).
      by destruct (decide (w_execution_id w0 = id)) as [<-|].
Qed.

(** ** The loop *)

Lemma lapsed_live ns now (w0 : WorkItem) : lapsed ns now w0 = true -> live w0.
Proof. unfold lapsed, live. intros H. bool_prop. congruence. Qed.

Lemma lost_lapsed ns now x (w0 : WorkItem) : lost_start ns now x w0 = true -> lapsed ns now w0 = true.
Proof. unfold lost_start. intros H. by bool_prop. Qed.

Lemma recovered_work_idle ns now x (w0 : WorkItem) :
  lapsed ns now w0 = false -> recovered_work ns now x w0 = w0.
Proof. unfold recovered_work, lost_start. by intros ->. Qed.

(** What recovering a list of items has done. *)
Record recovery (ns : pystr) (now : Z) (l : list pystr) (s s' : Store) : Prop := {
  rc_admitted : s_admitted s' = s_admitted s;
  rc_work : forall id (w0 : WorkItem) x, dget (s_work s) id = Some w0 ->
    dget (s_executions s) (w_execution_id w0) = Some x ->
    dget (s_work s') id =
      Some (if bool_decide (id ∈ l) then recovered_work ns now x w0 else w0);
  rc_lost : forall id (w0 : WorkItem) x, id ∈ l -> dget (s_work s) id = Some w0 ->
    dget (s_executions s) (w_execution_id w0) = Some x -> lost_start ns now x w0 = true ->
    dget (s_executions s') (w_execution_id w0) = Some (attention now x);
  rc_kept : forall xid x, dget (s_executions s) xid = Some x ->
    (forall id (w0 : WorkItem), id ∈ l -> dget (s_work s) id = Some w0 ->
       w_execution_id w0 = xid -> lost_start ns now x w0 = false) ->
    dget (s_executions s') xid = Some x
}.

Lemma recovery_nil ns now s : recovery ns now [] s s.
Proof.
  split; [done| |by intros ??? ?%elem_of_nil|done].
  intros id w0 x Hi _. by rewrite bool_decide_eq_false_2 by (by intros ?%elem_of_nil).
Qed.

Lemma recovery_cons ns now wid l w w1 s2 (w0 : WorkItem) x :
  winv w -> wid ∉ l -> dget (s_work (store w)) wid = Some w0 ->
  dget (s_executions (store w)) (w_execution_id w0) = Some x ->
  s_admitted (store w1) = s_admitted (store w) ->
  (forall id, dget (s_work (store w1)) id =
     if decide (wid = id) then Some (recovered_work ns now x w0)
     else dget (s_work (store w)) id) ->
  (forall id, dget (s_executions (store w1)) id =
     if decide (w_execution_id w0 = id /\ lost_start ns now x w0 = true)
     then Some (attention now x) else dget (s_executions (store w)) id) ->
  recovery ns now l (store w1) s2 -> recovery ns now (wid :: l) (store w) s2.
Proof.
  intros Hw Hni H0 Hx Ea Ew Ee [Ra Rw Rl Rk].
  assert (forall i (wi : WorkItem), i <> wid -> dget (s_work (store w)) i = Some wi ->
    w_execution_id wi = w_execution_id w0 -> lapsed ns now w0 = true -> lapsed ns now wi = false)
    as Halone.
  { intros i wi Hne Hi E L0. apply not_true_iff_false. intros Li. apply Hne.
    eapply (live_unique w); try done; by eapply lapsed_live. }
  assert (w_execution_id (recovered_work ns now x w0) = w_execution_id w0) as Er.
  { unfold recovered_work. by repeat case_match. }
  split.
  - congruence.
  - intros id wi y Hi Hy. destruct (decide (wid = id)) as [<-|Hne].
    + rewrite bool_decide_eq_true_2 by (by left).
      rewrite H0 in Hi. injection Hi as <-. rewrite Hx in Hy. injection Hy as <-.
      specialize (Ew wid). rewrite decide_True in Ew by done.
      assert (exists z, dget (s_executions (store w1)) (w_execution_id w0) = Some z) as [z Hz].
      { rewrite Ee. destruct (decide _); eauto. }
      rewrite <-Er in Hz. rewrite (Rw _ _ _ Ew Hz). by rewrite bool_decide_eq_false_2.
    + pose proof (Ew id) as Ewi. rewrite decide_False in Ewi by done. rewrite Hi in Ewi.
      assert (bool_decide (id ∈ wid :: l) = bool_decide (id ∈ l)) as ->.
      { apply bool_decide_ext. set_solver. }
      pose proof (Ee (w_execution_id wi)) as Eei.
      destruct (decide (w_execution_id w0 = w_execution_id wi /\ lost_start ns now x w0 = true))
        as [[E L]|_].
      * rewrite (Rw _ _ _ Ewi Eei).
        rewrite !recovered_work_idle; [done|..];
          apply (Halone id); try done; by apply (lost_lapsed _ _ x).
      * rewrite Hy in Eei. by rewrite (Rw _ _ _ Ewi Eei).
  - intros id wi y Hin Hi Hy L. destruct (decide (wid = id)) as [<-|Hne].
    + rewrite H0 in Hi. injection Hi as <-. rewrite Hx in Hy. injection Hy as <-.
      apply Rk; [by rewrite Ee, decide_True|]. intros i wj Hj Hwj E. apply not_true_iff_false.
      intros Lj%lost_lapsed. pose proof (Ew i) as Ewi.
      destruct (decide (wid = i)) as [->|Hne]; [done|]. rewrite Hwj in Ewi.
      by rewrite (Halone i wj) in Lj; [|done|done|done|by eapply lost_lapsed].
    + apply elem_of_cons in Hin as [->|Hin]; [done|]. eapply Rl; try done.
      * by rewrite Ew, decide_False.
      * rewrite Ee, decide_False; [done|]. intros [E L0]. apply lost_lapsed in L, L0.
        by rewrite (Halone id wi) in L.
  - intros xid y Hy Hno. apply Rk.
    + rewrite Ee, decide_False; [done|]. intros [<- L]. rewrite Hx in Hy. injection Hy as <-.
      rewrite (Hno wid w0) in L; [done|by left|done|done].
    + intros id wi Hin Hwi E. apply (Hno id wi); [by right| |done].
      by rewrite Ew, decide_False in Hwi by (intros ->; done).
Qed.

Lemma recover_loop_effect ns now l w :
  winv w -> NoDup l -> (forall id, id ∈ l -> is_Some (dget (s_work (store w)) id)) ->
  wp (for_each (recover_item ns now) l) w (fun r w' => r = Ok tt /\ follows w w' /\
    recovery ns now l (store w) (store w')).
Proof.
  revert w. induction l as [|wid l IH]; simpl; intros w Hw Hnd Hl.
  { apply wp_ret. split; [done|]. split; [by apply follows_refl|apply recovery_nil]. }
  apply NoDup_cons in Hnd as [Hni Hnd]. destruct (Hl wid) as [w0 H0]; [by left|].
  destruct (work_item_execution _ _ _ Hw H0) as (x & Hx & _).
  apply wp_bind. pose proof (recover_item_effect ns now wid w w0 x Hw H0 Hx) as He.
  pose proof (recover_item_safe ns now wid w Hw (ex_intro _ w0 H0)) as Hs.
  revert He Hs. unfold wp at 1 2 3. intros (Ea & Ew & Ee) (-> & H1 & _).
  set (w1 := (recover_item ns now wid w).2) in *.
  eapply wp_mono; [apply IH; [apply H1|done|]|].
  - intros id Hid. rewrite Ew. destruct (decide _); [eauto|]. apply Hl. by right.
  - simpl. intros r w2 (-> & H2 & Hr). split; [done|]. split; [by eapply follows_trans|].
    by eapply (recovery_cons ns now wid l w w1).
Qed.

(** Recovering a namespace. *)
Lemma recover_expired_claims_effect ns now w :
  winv w ->
  wp (recover_expired_claims ns now) w (fun r w' => r = Ok tt /\ follows w w' /\
    recovery ns now (dkeys (s_work (store w))) (store w) (store w')).
Proof.
  intros Hw. unfold recover_expired_claims, from_store. apply wp_bind, wp_gets.
  apply recover_loop_effect; [done|apply Hw|]. intros id Hid. by apply elem_of_dkeys.
Qed.
End recovery.
