(* ===== verification/AutoClaimLoop.v ===== *)
(** Automation: the claim loop of [claim_work].  Over the due candidates it hands
    out distinct claims in candidate order, each held by the item it names, and
    never admits beyond the global bound; it raises only when the lease would end
    beyond the last instant. *)
From S2P Require Import Prelude PyDict PySeq AutoModels AutoRules AutoRulesFacts AutoMemory.
From S2P Require Import Contracts.
From S2P Require Import AutoInvariant AutoStore AutoStoreFacts AutoStoreSafe AutoClaims.
From Stdlib Require Import Strings.String.

Implicit Types (s : Store) (x : AutomationExecution) (w : World) (t : ExecutionTransition).

(** ** Definitions *)

(** The state of the loop: claims handed out so far and candidates to come. *)
Record loop_state (ns : pystr) (now lease : Z) (acc : list WorkItemClaim) (rest : list pystr)
    (s : Store) : Prop := {
  ls_nodup : NoDup (map c_work_item_id acc ++ rest);
  ls_rest : forall id, id ∈ rest -> candidate_ok ns now s id;
  ls_acc : forall c, c ∈ acc -> held s c /\ c_lease_until c = lease /\ c_namespace c = ns
}.

(** The claim's fence is above the one its item had in the store. *)
Definition newer (s : Store) (c : WorkItemClaim) : Prop :=
  forall w0 : WorkItem, dget (s_work s) (c_work_item_id c) = Some w0 -> w_fence w0 < c_fence c.

(** What the loop returns: the earlier claims, then claims of some of the
    candidates in their order. *)
Record loop_result (ns : pystr) (lease limit : Z) (acc cs : list WorkItemClaim)
    (rest : list pystr) (s0 s : Store) : Prop := {
  lr_held : forall c, c ∈ cs -> held s c /\ c_lease_until c = lease /\ c_namespace c = ns;
  lr_order : exists picked, map c_work_item_id cs = map c_work_item_id acc ++ picked /\
    sublist picked rest;
  lr_limit : zlen cs <= limit;
  lr_fence : forall c, c ∈ cs -> c ∈ acc \/ newer s0 c
}.

Section loop.
Context {runtime : Runtime} {codec : CursorCodec} {fresh : FreshTokens}.

(** ** Steps of the loop *)

Lemma loop_state_transition ns now lease acc wid rest s t x :
  loop_state ns now lease acc (wid :: rest) s ->
  dget (s_executions s) (x_execution_id x) = Some x -> same_static x (tr_execution t) ->
  (is_terminal (x_status x) = true -> tr_execution t = x) ->
  (complete_work t = complete_all ->
     acc = [] /\ is_terminal (x_status (tr_execution t)) = true) ->
  loop_state ns now lease acc rest (apply_pure t (Some wid) s).
Proof.
  intros [Hnd Hr Ha] Hx Hs Hterm Hall. apply NoDup_app in Hnd as (Hnd1 & Hdis & Hnd2).
  apply NoDup_cons in Hnd2 as [Hni Hnd2]. split.
  - apply NoDup_app. split; [done|]. split; [|done]. intros i Hi Hi2. apply (Hdis i Hi). by right.
  - intros id Hid. apply (candidate_ok_apply ns now t wid s id x); try done.
    + apply Hr. by right.
    + intros ->. done.
    + intros E. by apply Hall.
  - intros c Hc. destruct (Ha c Hc) as (Hh & ? & ?). split; [|done].
    apply held_apply; [done|..].
    + intros E. apply (Hdis (c_work_item_id c)); [|rewrite E; left].
      apply list_elem_of_In, in_map, list_elem_of_In, Hc.
    + intros E. destruct (Hall E) as [-> _]. by apply elem_of_nil in Hc.
Qed.

(** A candidate that is passed over. *)
Lemma loop_state_skip ns now lease acc wid rest s :
  loop_state ns now lease acc (wid :: rest) s -> loop_state ns now lease acc rest s.
Proof.
  intros [Hnd Hr Ha]. split; [|intros id ?; apply Hr; by right|done].
  rewrite <-Permutation_middle in Hnd. by apply NoDup_cons in Hnd as [_ ?].
Qed.

(** Changes that leave executions and every other item as they were. *)
Lemma loop_state_frame ns now lease acc rest s s' :
  loop_state ns now lease acc rest s ->
  s_executions s' = s_executions s ->
  (forall id, id ∈ map c_work_item_id acc ++ rest -> dget (s_work s') id = dget (s_work s) id) ->
  loop_state ns now lease acc rest s'.
Proof.
  intros [Hnd Hr Ha] Ex Ew. split; [done|..].
  - intros id Hid. unfold candidate_ok. rewrite Ex, Ew by set_solver. by apply Hr.
  - intros c Hc. unfold held. rewrite Ew; [by apply Ha|]. apply elem_of_app. left.
    apply list_elem_of_In, in_map, list_elem_of_In, Hc.
Qed.

(** The claim of an item taken by a worker. *)
Definition claim_of (token : pystr) (lease : Z) (w0 : WorkItem) : WorkItemClaim :=
  {| c_work_item_id := w_work_item_id w0; c_namespace := w_namespace w0;
     c_execution_id := w_execution_id w0; c_kind := w_kind w0; c_claim_token := token;
     c_fence := w_fence w0 + 1; c_lease_until := lease |}.

(** A claim with its lease. *)
Definition leased_claim (worker token : pystr) (lease : Z) (w0 : WorkItem) : WorkItem :=
  set_w_lease_until (Some lease) (take_claim worker token w0).

Lemma dget_leased s wid worker token lease id :
  dget (dupd (dupd (s_work s) wid (take_claim worker token)) wid
    (set_w_lease_until (Some lease))) id =
  if decide (wid = id) then leased_claim worker token lease <$> dget (s_work s) id
  else dget (s_work s) id.
Proof.
  rewrite !dget_dupd. destruct (decide (wid = id)); [|done]. by destruct (dget (s_work s) id).
Qed.

Lemma loop_state_take ns now lease acc wid rest s (w0 : WorkItem) worker token :
  loop_state ns now lease acc (wid :: rest) s ->
  dget (s_work s) wid = Some w0 -> w_work_item_id w0 = wid -> w_namespace w0 = ns ->
  loop_state ns now lease (acc ++ [claim_of token lease w0]) rest
    (set_s_work (dupd (dupd (s_work s) wid (take_claim worker token)) wid
       (set_w_lease_until (Some lease))) s).
Proof.
  intros Hs H0 Hid Hns. pose proof (ls_nodup _ _ _ _ _ _ Hs) as Hnd.
  apply NoDup_app in Hnd as (Hnd1 & Hdis & Hnd2).
  apply NoDup_cons in Hnd2 as [Hni Hnd2].
  assert (wid ∉ map c_work_item_id acc) as Hna by (intros Hi; apply (Hdis wid Hi); by left).
  assert (forall id, id ∈ map c_work_item_id acc \/ id ∈ rest ->
    dget (dupd (dupd (s_work s) wid (take_claim worker token)) wid
      (set_w_lease_until (Some lease))) id = dget (s_work s) id) as Ew.
  { intros id Hid'. rewrite dget_leased, decide_False; [done|]. naive_solver. }
  destruct Hs as [_ Hr Ha]. split.
  - rewrite map_app. simpl. rewrite Hid, <-app_assoc. simpl. apply NoDup_app. split; [done|].
    split; [|by apply NoDup_cons]. intros i Hi [->|Hi2]%elem_of_cons; [done|].
    apply (Hdis i Hi). by right.
  - intros id Hid'. unfold candidate_ok. simpl. rewrite Ew by (by right).
    apply Hr. by right.
  - intros c [Hc| ->%list_elem_of_singleton]%elem_of_app.
    + unfold held. simpl. rewrite Ew; [by apply Ha|]. left.
      apply list_elem_of_In, in_map, list_elem_of_In, Hc.
    + split; [|done]. unfold held. simpl. rewrite Hid, dget_leased, decide_True, H0 by done.
      eexists. split; [done|]. tsplit; done.
Qed.

Lemma wp_reserve_scopes w x g (Q : res exn bool -> World -> Prop) :
  winv w -> dget (s_executions (store w)) (x_execution_id x) = Some x ->
  x_status x = QUEUED ->
  Q (Ok false) w ->
  (forall w', follows w w' -> s_executions (store w') = s_executions (store w) ->
     s_work (store w') = s_work (store w) ->
     x_execution_id x ∈ s_admitted (store w') ->
     random_reads w' = random_reads w ->
     (forall ns, global_allocated ns (store w') <= Z.max (global_allocated ns (store w)) g) ->
     Q (Ok true) w') ->
  wp (reserve_scopes x g) w Q.
Proof.
  intros Hw Hx Hq HF HT. unfold reserve_scopes, from_store, on_store. apply wp_bind, wp_gets.
  unfold id. case_bool_decide as Hadm.
  { apply wp_ret, HT; [by apply follows_refl|done..|]. intros ns. apply Z.le_max_l. }
  destruct (g <=? _) eqn:Hg; [by apply wp_ret|]. destruct (max_concurrent_runs _ <=? _);
    [by apply wp_ret|]. apply Z.leb_gt in Hg.
  apply wp_bind, wp_modify, wp_bind, wp_modify, wp_bind, wp_modify, wp_ret.
  set (w' := set_store _ _).
  assert (store w' = reserve_pure x (store w)) as Es by done.
  apply HT.
  - apply follows_store; rewrite ?Es; [done|..|done|simpl; lia].
    + by apply inv_reserve; [apply Hw|..].
    + apply evolves_reserve.
  - done.
  - done.
  - rewrite Es. simpl. set_solver.
  - done.
  - intros ns. rewrite Es. unfold global_allocated, reserve_pure, allocated, allocate. simpl.
    rewrite !dget_dset. rewrite (decide_False (P := scope_key x = _)); cycle 1.
    { intros E. apply (global_ne_scope x x). unfold scope_key in E. injection E as E1 E2 E3.
      unfold global_key, scope_key. congruence. }
    destruct (decide (global_key x = _)) as [E|]; [|lia]. rewrite <-E in *.
    unfold allocated in Hg |- *. lia.
Qed.

(** Claiming one item: the execution still allows it. *)
Lemma take_claim_follows w wid (w0 : WorkItem) x worker token :
  winv w -> dget (s_work (store w)) wid = Some w0 ->
  dget (s_executions (store w)) (w_execution_id w0) = Some x ->
  (w_kind w0 = EXECUTE -> x_status x = QUEUED /\ w_execution_id w0 ∈ s_admitted (store w)) ->
  (w_kind w0 = EXPIRE_INTERRUPT -> x_status x = INTERRUPTED /\
     x_execution_deadline x = Some (w_available_at w0)) ->
  follows w (set_store (set_s_work (dupd (s_work (store w)) wid (take_claim worker token))
    (store w)) w).
Proof.
  intros Hw H0 Hx He Hi. eapply (update_item_follows w wid w0); simpl; try done; [lia|].
  split; simpl.
  - intros _ Hk. right. destruct (He Hk). auto.
  - intros _ Hk. by apply Hi.
  - intros _. eauto.
Qed.

(** A lease changes nothing that the invariant speaks of. *)
Lemma set_lease_follows w wid (w0 : WorkItem) lease :
  winv w -> dget (s_work (store w)) wid = Some w0 ->
  follows w (set_store (set_s_work (dupd (s_work (store w)) wid (set_w_lease_until (Some lease)))
    (store w)) w).
Proof.
  intros Hw H0. destruct (work_item_execution _ _ _ Hw H0) as (x & Hx & Hid & _ & _ & _ & _ & [L1 L2 L3]).
  eapply (update_item_follows w wid w0); simpl; try done. rewrite <-Hid. by split.
Qed.

(** ** The loop *)

Section step.
Context (ns worker : pystr) (limit duration g now : Z) (Hlimit : 0 <= limit).

Let claim_rest := claim_loop worker limit duration g now.
Let good := loop_state ns now (now + duration).
Let grows (w w' : World) := forall ns', global_allocated ns' (store w') <=
  Z.max (global_allocated ns' (store w)) g.

Definition drop_transition (x : AutomationExecution) : ExecutionTransition :=
  {| tr_execution := x; complete_work := complete_current; release_capacity := false;
     deadline_work_at := None |}.

Definition extends (wid : pystr) (s : Store) (acc acc' : list WorkItemClaim) : Prop :=
  acc' = acc \/ (zlen acc < limit /\
    exists c, acc' = acc ++ [c] /\ c_work_item_id c = wid /\ newer s c).

(** What a lease beyond the last instant leaves behind. *)
Definition overflow_ok (w : World) (Q : res exn (list WorkItemClaim) -> World -> Prop) : Prop :=
  forall w', in_range (now + duration) = false -> follows w w' -> grows w w' ->
    Q (Raise OverflowError) w'.

(** After a transition on the candidate the loop goes on with the same claims. *)
Lemma step_transition acc wid rest w w' t x (Q : res exn (list WorkItemClaim) -> World -> Prop) :
  winv w -> good acc (wid :: rest) (store w) ->
  dget (s_executions (store w)) (x_execution_id x) = Some x -> same_static x (tr_execution t) ->
  (is_terminal (x_status x) = true -> tr_execution t = x) ->
  (complete_work t = complete_all ->
     acc = [] /\ is_terminal (x_status (tr_execution t)) = true) ->
  follows w w' -> store w' = apply_pure t (Some wid) (store w) ->
  (forall acc' w', follows w w' -> good acc' rest (store w') -> extends wid (store w) acc acc' ->
     grows w w' -> wp (claim_rest rest acc') w' Q) ->
  wp (claim_rest rest acc) w' Q.
Proof.
  intros Hw Hg Hx Hs Hterm Hall Hf Es HQ. apply HQ; [done|..|by left|].
  - rewrite Es. by eapply loop_state_transition.
  - intros ns'. rewrite Es. unfold global_allocated.
    pose proof (apply_allocated_le t (Some wid) (store w) (wi_inv _ Hw)
      (ns', u "global", u "global")). lia.
Qed.

(** Taking the candidate once admission is settled. *)
Lemma step_take acc wid rest w w1 (w0 : WorkItem) x
    (Q : res exn (list WorkItemClaim) -> World -> Prop) :
  good acc (wid :: rest) (store w) -> follows w w1 ->
  s_executions (store w1) = s_executions (store w) -> s_work (store w1) = s_work (store w) ->
  grows w w1 ->
  dget (s_work (store w)) wid = Some w0 -> w_work_item_id w0 = wid -> w_namespace w0 = ns ->
  dget (s_executions (store w)) (w_execution_id w0) = Some x ->
  (w_kind w0 = EXECUTE -> x_status x = QUEUED /\ w_execution_id w0 ∈ s_admitted (store w1)) ->
  (w_kind w0 = EXPIRE_INTERRUPT -> x_status x = INTERRUPTED /\
     x_execution_deadline x = Some (w_available_at w0)) ->
  zlen acc < limit -> overflow_ok w Q ->
  (forall acc' w', follows w w' -> good acc' rest (store w') -> extends wid (store w) acc acc' ->
     grows w w' -> wp (claim_rest rest acc') w' Q) ->
  wp (let* claim_token := fresh_token in
      do* update_work wid (take_claim worker claim_token) in
      let* lease_until := lift (check_range (now + duration)) in
      do* update_work wid (set_w_lease_until (Some lease_until)) in
      let* item' := get_work_record wid in
      let* claim := claim_from item' in claim_rest rest (acc ++ [claim])) w1 Q.
Proof.
  intros Hg Hf Ex Ew Hgr H0 Hwid Hns Hx He Hi Hlt Hover HQ.
  apply wp_bind, wp_fresh_token. intros w2 Es Er _ _ _. unfold update_work, on_store.
  apply wp_bind, wp_modify. set (token := random_token _). set (w3 := set_store _ _).
  assert (follows w1 w2) as Hf2.
  { apply follows_same; [apply Hf|done|lia]. }
  assert (follows w2 w3) as Hf3.
  { eapply (take_claim_follows w2 wid w0 x); rewrite ?Es, ?Ex, ?Ew; try done. apply Hf2. }
  assert (dget (s_work (store w3)) wid = Some (take_claim worker token w0)) as H3.
  { simpl. rewrite dget_dupd, decide_True, Es, Ew, H0; done. }
  assert (follows w w3) as Hfw by exact (follows_trans _ _ _ Hf (follows_trans _ _ _ Hf2 Hf3)).
  assert (forall w', s_scope_allocations (store w') = s_scope_allocations (store w1) ->
    grows w w') as Hgrow.
  { intros w' E ns'. specialize (Hgr ns'). unfold global_allocated, allocated in Hgr |- *.
    by rewrite E. }
  apply wp_bind, wp_lift. unfold check_range. destruct (in_range (now + duration)) eqn:Hr;
    [|apply Hover; [done|done|apply Hgrow; simpl; by rewrite Es]].
  apply wp_bind, wp_modify. set (w4 := set_store _ _).
  assert (dget (s_work (store w4)) wid = Some (leased_claim worker token (now + duration) w0)) as H4.
  { simpl. rewrite dget_leased, decide_True, Es, Ew, H0; done. }
  assert (follows w3 w4) as Hf4 by (eapply set_lease_follows; [apply Hfw|exact H3]).
  eapply wp_bind, wp_get_work; [done|]. apply wp_bind. unfold claim_from. simpl.
  apply wp_ret, HQ.
  - by eapply follows_trans.
  - rewrite <-Es in Ex, Ew.
    pose proof (loop_state_take ns now (now + duration) acc wid rest (store w2) w0 worker token) as Ht.
    unfold claim_of in Ht. apply Ht; [|by rewrite Ew|done..].
    eapply loop_state_frame; [done|done|]. intros id _. by rewrite Ew.
  - right. split; [done|]. eexists. split; [done|]. split; [done|]. intros w5. simpl.
    rewrite Hwid, H0. intros [= <-]. lia.
  - apply Hgrow. simpl. by rewrite Es.
Qed.

Lemma claim_step acc wid rest w (Q : res exn (list WorkItemClaim) -> World -> Prop) :
  winv w -> good acc (wid :: rest) (store w) -> zlen acc <= limit ->
  (0 < limit /\ zlen acc = limit -> Q (Ok acc) w) -> overflow_ok w Q ->
  (forall acc' w', follows w w' -> good acc' rest (store w') -> extends wid (store w) acc acc' ->
     grows w w' -> wp (claim_rest rest acc') w' Q) ->
  wp (claim_rest (wid :: rest) acc) w Q.
Proof.
  intros Hw Hg Hacc HQ1 Hover HQ. unfold claim_rest. cbn [claim_loop]. fold claim_rest.
  destruct ((0 <? limit) && (limit <=? zlen acc)) eqn:Hfull.
  { bool_prop. apply wp_ret, HQ1. lia. }
  destruct (ls_rest _ _ _ _ _ _ Hg wid) as (w0 & H0 & Hns & Hav & Hst); [left|].
  destruct (work_item_execution _ _ _ Hw H0) as (x & Hx & Hid & Hn & Hv & Hel & _ & [L1 L2 L3]).
  pose proof (proj1 (wf_work_item _ (inv_wf _ (wi_inv _ Hw)) _ _ H0)) as Hwid.
  eapply wp_bind, wp_get_work, wp_bind, wp_get_execution, wp_bind, wp_lift; [done..|].
  rewrite <-Hid in Hx.
  destruct (claim_candidate x (w_kind w0) now) as [o|] eqn:Hcc; cycle 1.
  { destruct (claim_candidate_total x (w_kind w0) now Hv) as [? ?]. congruence. }
  unfold claim_candidate in Hcc. cbn beta iota.
  assert (w_kind w0 = EXECUTE /\ x_status x <> QUEUED \/
          w_kind w0 = EXPIRE_INTERRUPT /\ x_status x <> INTERRUPTED ->
    o = Some (drop_transition x) ->
    wp (match o with Some t => do* apply_transition t (Some wid) in claim_rest rest acc
        | None => ret acc end) w Q) as Hdrop.
  { intros _ ->. apply wp_bind. eapply (wp_apply_drop w x wid w0); try done.
    intros w' Hf Es _ _. eapply (step_transition acc wid rest w w' (drop_transition x) x); simpl; try done; auto with py. }
  destruct (w_kind w0) eqn:Hk.
  - case_bool_decide as Hq; simpl in Hcc; cycle 1.
    { injection Hcc as <-. by apply Hdrop; [left|]. }
    destruct (x_queue_deadline x <=? now).
    { apply rbind_ok in Hcc as (t & Ht & [= <-]). apply wp_bind.
      destruct (expire_queued_spec _ _ _ Ht) as (Hs & _ & _ & _ & Hc & _).
      eapply (wp_apply_expire_queued w x wid w0); try done. intros w' Hf Es _ _.
      eapply (step_transition acc wid rest w w' t x); try done; [by rewrite Hq|congruence]. }
    injection Hcc as <-. destruct (limit =? 0) eqn:Hl0.
    { bool_prop. apply wp_bind, wp_ret. apply HQ; [by apply follows_refl| |by left|].
      - by eapply loop_state_skip.
      - intros ns'. lia. }
    apply wp_bind. simpl. eapply wp_reserve_scopes; [done|done|done|..].
    + apply HQ; [by apply follows_refl|by eapply loop_state_skip|by left|intros ns'; lia].
    + intros w1 Hf1 Ex1 Ew1 Hadm _ Hgr. simpl.
      eapply (step_take acc wid rest w w1 w0 x); try done.
      * by rewrite <-Hid.
      * intros _. by rewrite <-Hid.
      * congruence.
      * apply andb_false_iff in Hfull. apply Z.eqb_neq in Hl0.
        rewrite Z.ltb_ge, Z.leb_gt in Hfull. lia.
  - case_bool_decide as Hq; simpl in Hcc; cycle 1.
    { injection Hcc as <-. by apply Hdrop; [right|]. }
    injection Hcc as <-.
    assert (w_status w0 = PENDING) as Hpe.
    { destruct Hst as [?|(_ & y & Hy & Hterm)]; [done|]. rewrite <-Hid, Hx in Hy.
      injection Hy as <-. by rewrite Hq in Hterm. }
    assert (live w0) as Hlv by (unfold live; congruence).
    destruct (L2 Hlv eq_refl) as [_ Hdl].
    destruct (limit =? 0) eqn:Hl0.
    + bool_prop. simpl. apply wp_bind, wp_bind, wp_lift.
      destruct (expire_interrupted_total x now _ Hv Hq Hdl Hav) as [t Ht]. rewrite Ht.
      destruct (expire_interrupted_spec _ _ _ Ht) as (_ & Hs & Hv' & Hst' & Hsa & Hc & Hr & Hd).
      apply wp_bind. eapply (wp_apply_settle w x t _ TIMED_OUT); try done.
      * eauto 10.
      * by rewrite Hq.
      * by apply (el_started _ _ Hel); auto.
      * intros w' Hf Es _. apply wp_ret.
        eapply (step_transition acc wid rest w w' t x); try done; [by rewrite Hq|].
        intros _. rewrite Hst'. split; [|done]. destruct acc; [done|].
        rewrite zlen_cons in Hacc. pose proof (zlen_nonneg acc). lia.
    + apply wp_bind, wp_ret. simpl.
      eapply (step_take acc wid rest w w w0 x); try done.
      * intros ns'. lia.
      * by rewrite <-Hid.
      * congruence.
      * apply andb_false_iff in Hfull. apply Z.eqb_neq in Hl0.
        rewrite Z.ltb_ge, Z.leb_gt in Hfull. lia.
Qed.

Lemma sublist_drop_keep {A} (a : A) l k : sublist l k -> sublist l (a :: k).
Proof. intros H. by apply sublist_cons. Qed.

(** The claims of the rest are claims of the whole. *)
Lemma loop_result_step acc acc' cs wid rest w w' s2 :
  follows w w' -> extends wid (store w) acc acc' ->
  loop_result ns (now + duration) limit acc' cs rest (store w') s2 ->
  loop_result ns (now + duration) limit acc cs (wid :: rest) (store w) s2.
Proof.
  intros Hf He [Hh (picked & Ho & Hsub) Hle Hfe].
  assert (forall c, newer (store w') c -> newer (store w) c) as Hnew.
  { intros c Hc w0 E0. destruct (ev_work _ _ (proj1 (proj2 Hf)) _ _ E0) as (w1 & E1 & _ & _ & Hle1).
    specialize (Hc _ E1). lia. }
  split; [done| |done|].
  - destruct He as [->|(_ & c & -> & Hc & _)].
    + exists picked. split; [done|]. by apply sublist_cons.
    + exists (wid :: picked). rewrite Ho, map_app. simpl. rewrite Hc, <-app_assoc.
      split; [done|]. by apply sublist_skip.
  - intros c Hc. destruct (Hfe c Hc) as [Hin|?]; [|auto].
    destruct He as [->|(_ & c' & -> & _ & ?)]; [auto|].
    apply elem_of_app in Hin as [?| ->%list_elem_of_singleton]; auto.
Qed.

Lemma claim_loop_spec rest acc w :
  winv w -> good acc rest (store w) -> zlen acc <= limit ->
  wp (claim_rest rest acc) w (fun r w' => follows w w' /\ grows w w' /\
    ((r = Raise OverflowError /\ in_range (now + duration) = false) \/
     exists cs, r = Ok cs /\
       loop_result ns (now + duration) limit acc cs rest (store w) (store w'))).
Proof.
  assert (forall acc rest w, good acc rest (store w) -> zlen acc <= limit ->
    loop_result ns (now + duration) limit acc acc rest (store w) (store w)) as Hstop.
  { intros acc' rest' w' Hg Hl. split; [by apply Hg| |done|auto]. exists []. rewrite app_nil_r.
    split; [done|apply sublist_nil_l]. }
  assert (forall w, grows w w) as Hsame by (intros w' ns'; lia).
  revert acc w. induction rest as [|wid rest IH]; intros acc w Hw Hg Hl.
  { apply wp_ret. split; [by apply follows_refl|]. split; [done|]. right. exists acc.
    split; [done|]. by apply Hstop. }
  apply claim_step; [done..| | |].
  - intros _. split; [by apply follows_refl|]. split; [done|]. right. exists acc.
    split; [done|]. by apply Hstop.
  - intros w' Hr Hf Hgr. split; [done|]. split; [done|]. by left.
  - intros acc' w' Hf Hg' He Hgr. eapply wp_mono; [apply IH; [apply Hf|done|]|].
    + destruct He as [->|(? & c & -> & _)]; [done|]. rewrite zlen_app. unfold zlen at 2. simpl. lia.
    + simpl. intros r w2 (Hf2 & Hgr2 & Hres). split; [by eapply follows_trans|]. split.
      { intros ns'. specialize (Hgr ns'). specialize (Hgr2 ns'). lia. }
      destruct Hres as [?|(cs & -> & Hres)]; [by left|right]. exists cs. split; [done|].
      by eapply loop_result_step.
Qed.
End step.

(** ** The candidates *)

Lemma elem_of_candidates ns now s (w0 : WorkItem) :
  wf s -> w0 ∈ claim_candidates ns now s <->
  dget (s_work s) (w_work_item_id w0) = Some w0 /\ w_namespace w0 = ns /\
  w_status w0 = PENDING /\ w_available_at w0 <= now.
Proof.
  intros Hwf. unfold claim_candidates. rewrite elem_of_sorted_by, list_elem_of_In,
    List.filter_In, <-list_elem_of_In, elem_of_dvals by apply Hwf.
  rewrite !andb_true_iff, !bool_decide_eq_true, Z.leb_le. split.
  - intros [[k Hk] [[? ?] ?]]. destruct (wf_work_item _ Hwf _ _ Hk) as [-> _]. done.
  - intros (? & ? & ? & ?). eauto.
Qed.

Lemma candidates_nodup ns now s : wf s -> NoDup (map w_work_item_id (claim_candidates ns now s)).
Proof.
  intros Hwf. unfold claim_candidates. rewrite (sorted_by_perm _ (List.filter _ _)).
  eapply sublist_NoDup; [apply (wf_work _ Hwf)|].
  assert (dkeys (s_work s) = map w_work_item_id (dvals (s_work s))) as ->.
  { unfold dvals, dkeys. rewrite map_map. apply map_ext_in. intros [k v] Hin. symmetry.
    apply (wf_work_item _ Hwf k v), elem_of_dget; [apply Hwf|]. by apply list_elem_of_In. }
  induction (dvals (s_work s)) as [|v l IH]; simpl; [constructor|].
  destruct (_ && _ && _); simpl; by constructor.
Qed.

Lemma candidates_state ns now lease w :
  winv w ->
  loop_state ns now lease [] (map w_work_item_id (claim_candidates ns now (store w))) (store w).
Proof.
  intros [Hi _]. pose proof (inv_wf _ Hi) as Hwf. split; simpl.
  - by apply candidates_nodup.
  - intros id Hid. apply list_elem_of_In, in_map_iff in Hid as (w0 & <- & Hin).
    apply list_elem_of_In, elem_of_candidates in Hin as (? & ? & ? & ?); [|done].
    exists w0. auto.
  - by intros c ?%elem_of_nil.
Qed.

(** ** The next wake-up *)

Lemma all_deadlines_total ns now admission executions l :
  (forall w0 : WorkItem, w0 ∈ l -> is_Some (dget executions (w_execution_id w0))) ->
  exists ds, all_deadlines ns now admission executions l = Ok ds.
Proof.
  induction l as [|w0 l IH]; intros H; simpl; [eauto|].
  destruct IH as [ds ->]; [intros w1 ?; apply H; by right|].
  destruct (H w0) as [x Hx]; [by left|]. unfold item_deadlines. rewrite Hx.
  destruct (_ || _); simpl; eauto.
Qed.

Lemma next_check_delay_total ns now admission w :
  winv w -> wp (next_check_delay ns now admission) w (fun r w' => w' = w /\ exists d, r = Ok d).
Proof.
  intros [Hi _]. unfold next_check_delay, from_store.
  apply wp_bind, wp_gets, wp_bind, wp_lift. unfold id.
  destruct (all_deadlines_total ns now admission (s_executions (store w)) (dvals (s_work (store w))))
    as [ds ->].
  - intros w0 Hw0. apply elem_of_dvals in Hw0 as [k Hk]; [|apply (inv_wf _ Hi)].
    destruct (wf_work_item _ (inv_wf _ Hi) _ _ Hk) as (_ & _ & x & Hx & _). eauto.
  - apply wp_ret. eauto.
Qed.

(** ** [claim_work] *)

(** The arguments [claim_work] accepts. *)
Definition claim_arguments (ns worker : pystr) (limit duration g : Z) : Prop :=
  text_valid ns (Some 128) /\ text_valid worker (Some 191) /\ 0 <= limit /\ 0 < duration /\ 1 <= g.

(** The outcome of claiming on an open store. *)
Definition claimed (ns worker : pystr) (limit duration g : Z) (w : World)
    (r : res exn WorkClaimBatch) (w' : World) : Prop :=
  exists b, r = Ok b /\
    (forall c, c ∈ claims b -> held (store w') c /\
       c_lease_until c = clock_now (clock_reads w) + duration /\ c_namespace c = ns) /\
    (forall c, c ∈ claims b -> newer (store w) c) /\
    NoDup (map c_work_item_id (claims b)) /\ zlen (claims b) <= limit /\
    global_allocated ns (store w') <= Z.max (global_allocated ns (store w)) g.

(** The lease that would be handed out ends beyond the last instant. *)
Definition lease_overflows (duration : Z) (w : World) : Prop :=
  in_range (clock_now (clock_reads w) + duration) = false.

(** A call either has the usual outcome or fails on the lease of the first claim. *)
Definition claim_outcome {A} (duration : Z) (w : World) (r : res exn A) (w' : World) : Prop :=
  outcome w r w' \/ (follows w w' /\ r = Raise OverflowError /\ lease_overflows duration w).

Lemma claim_outcome_follows {A} duration w (r : res exn A) w' :
  claim_outcome duration w r w' -> follows w w'.
Proof. by intros [[? _]|[? _]]. Qed.

Definition claim_post (ns worker : pystr) (limit duration g : Z) (w : World)
    (r : res exn WorkClaimBatch) (w' : World) : Prop :=
  (claim_outcome duration w r w' /\
   forall ns', global_allocated ns' (store w') <= Z.max (global_allocated ns' (store w)) g) /\
  (claim_arguments ns worker limit duration g -> s_closed (store w) = false ->
   claimed ns worker limit duration g w r w' \/
   (r = Raise OverflowError /\ lease_overflows duration w)).

(** Rejected arguments. *)
Lemma claim_rejected ns worker limit duration g w e :
  winv w -> ~ claim_arguments ns worker limit duration g ->
  claim_post ns worker limit duration g w (Raise e) w.
Proof.
  intros Hw Ha. split; [|by intros ?]. split; [left; by apply outcome_refl|intros ns'; lia].
Qed.

Lemma wp_claim_work ns worker limit duration g w :
  winv w -> wp (claim_work ns worker limit duration g) w (claim_post ns worker limit duration g w).
Proof.
  intros Hw. pose proof (claim_rejected ns worker limit duration g w) as Hrej.
  unfold claim_work, claim_arguments, text_valid in *. apply wp_bind, wp_lift.
  destruct (validate_persisted_text (PyStr ns) _) as [[]|]; [|apply Hrej; [done|by intros (? & _)]].
  apply wp_bind, wp_lift.
  destruct (validate_persisted_text (PyStr worker) _) as [[]|];
    [|apply Hrej; [done|by intros (_ & ? & _)]].
  apply wp_bind, wp_raise_if; intros H1; bool_prop; [apply Hrej; [done|lia]|].
  apply wp_bind, wp_raise_if; intros H2; bool_prop; [apply Hrej; [done|lia]|].
  apply wp_bind, wp_raise_if; intros H3; bool_prop; [apply Hrej; [done|lia]|].
  clear Hrej. apply wp_mutation. set (w0 := set_changes [] w).
  assert (follows w w0) as Hf0 by by apply follows_same.
  unfold ensure_open, from_store. apply wp_bind, wp_bind, wp_gets, wp_raise_if; intros Hop.
  { split; [|intros _ E; simpl in Hop; congruence].
    split; [left; by apply outcome_same|]. intros ns'. simpl. lia. }
  apply wp_bind, wp_now. intros z w1 Es1 Er1 _ _ -> _.
  assert (store w1 = store w) as Es1' by by rewrite Es1.
  assert (follows w0 w1) as Hf1 by (apply follows_same; [apply Hf0|done|lia]).
  apply wp_bind. eapply wp_mono; [apply recover_expired_claims_safe, Hf1|].
  intros r w2 (-> & Hf2 & Ha2). cbn beta iota. apply wp_bind, wp_gets, wp_bind.
  set (cands := claim_candidates _ _ _).
  eapply wp_mono; [apply (claim_loop_spec ns worker limit duration g _ H1 _ [] w2)|].
  { apply Hf2. }
  { by apply candidates_state, Hf2. }
  { done. }
  intros r w3 (Hf3 & Hgr & Hres). cbn beta iota.
  assert (follows w w3) as Hf.
  { exact (follows_trans _ _ _ Hf0 (follows_trans _ _ _ Hf1 (follows_trans _ _ _ Hf2 Hf3))). }
  assert (forall ns', global_allocated ns' (store w3) <=
    Z.max (global_allocated ns' (store w)) g) as Hall.
  { intros ns'. specialize (Hgr ns'). unfold global_allocated in Hgr |- *.
    specialize (Ha2 (ns', u "global", u "global")). rewrite Es1' in Ha2. lia. }
  assert (forall w', store w' = store w3 -> random_reads w' = random_reads w3 -> follows w w') as Hend.
  { intros w' E1 E2. eapply follows_trans; [exact Hf|].
    apply follows_same; [apply Hf3|done|rewrite E2; lia]. }
  destruct Hres as [[-> Hr]|(cs & -> & [Hh (picked & Ho & Hsub) Hle Hfe])].
  { assert (follows w (set_changes [] w3)) as Hf' by by apply Hend.
    split; [split; [right; split; [exact Hf'|by split]|exact Hall]|].
    intros _ _. by right. }
  simpl in Ho. set (w4 := set_changes [] (publish w3)).
  assert (follows w w4) as Hf4 by by apply Hend.
  assert (forall d, claimed ns worker limit duration g w
    (Ok {| claims := cs; next_check_after := d |}) w4) as Hok.
  { intros d. eexists. split; [done|]. tsplit.
    - done.
    - simpl. intros c Hc w5 Hw5. destruct (Hfe c Hc) as [?%elem_of_nil|Hn]; [done|].
      rewrite <-Es1' in Hw5.
      destruct (ev_work _ _ (proj1 (proj2 Hf2)) _ _ Hw5) as (w6 & E6 & _ & _ & Hle5).
      specialize (Hn _ E6). lia.
    - simpl. rewrite Ho. eapply sublist_NoDup; [|done].
      apply candidates_nodup, (inv_wf _ (wi_inv _ (proj1 Hf2))).
    - done.
    - apply Hall. }
  assert (forall d, claim_post ns worker limit duration g w
    (Ok {| claims := cs; next_check_after := d |}) w4) as Hpost.
  { intros d. split; [split; [left; by apply outcome_ok|exact Hall]|]. intros _ _. left. apply Hok. }
  apply wp_bind. destruct (_ && _ && _); [apply wp_ret, Hpost|].
  eapply wp_mono; [apply next_check_delay_total, Hf3|]. intros r w5 (-> & d & ->).
  apply wp_ret, Hpost.
Qed.

Lemma claim_work_admission ns worker limit duration g w :
  winv w ->
  wp (claim_work ns worker limit duration g) w (fun _ w' => forall ns',
    global_allocated ns' (store w') <= Z.max (global_allocated ns' (store w)) g).
Proof. intros Hw. eapply wp_mono; [by apply wp_claim_work|]. by intros r w' [[_ ?] _]. Qed.
End loop.
