(* ===== verification/AutoCommands.v ===== *)
(** Automation: the commands of a claim's holder (renew, authorize, interrupt,
    finish) and of the owner (cancel, resolve) keep the invariant, follow the
    allowed evolution and leave the store alone when they raise. *)
From S2P Require Import Prelude PyDict PySeq AutoModels AutoRules AutoRulesFacts AutoMemory.
From S2P Require Import Contracts.
From S2P Require Import AutoInvariant AutoStore AutoStoreFacts AutoStoreSafe AutoClaims.
From Stdlib Require Import Strings.String.

Implicit Types (s : Store) (x : AutomationExecution) (w : World) (t : ExecutionTransition).

Section commands.
Context {runtime : Runtime} {codec : CursorCodec} {fresh : FreshTokens}.

(** What a valid claim says of the store. *)
Record claim_view (w : World) (claim : WorkItemClaim) (w0 : WorkItem)
    (x : AutomationExecution) : Prop := {
  cv_work : dget (s_work (store w)) (c_work_item_id claim) = Some w0;
  cv_claimed : w_status w0 = CLAIMED;
  cv_execution_id : w_execution_id w0 = x_execution_id x;
  cv_execution : dget (s_executions (store w)) (x_execution_id x) = Some x;
  cv_valid : exec_valid x;
  cv_life : exec_life (x_execution_id x ∈ s_admitted (store w)) x;
  cv_work_life : work_life (x_execution_id x ∈ s_admitted (store w)) x w0
}.

(** The common start of the holder's commands. *)
Lemma wp_claimed_execution {B} claim (k : WorkItem -> AutomationExecution -> M World exn B) w
    (Q : res exn B -> World -> Prop) :
  winv w ->
  (forall e w', store w' = store w -> random_reads w' = random_reads w -> Q (Raise e) w') ->
  (forall (w0 : WorkItem) x w', follows w w' -> claim_view w' claim w0 x -> store w' = store w ->
     random_reads w' = random_reads w -> wp (k w0 x) w' Q) ->
  wp (let* item := valid_claim claim in
      let* x := get_execution_record (w_execution_id item) in k item x) w Q.
Proof.
  intros Hw HR HQ. apply wp_bind, wp_valid_claim; [|by apply HR].
  intros w0 z w1 H0 Hcl Hf Ht Hx0 Hns Hop Hz Hlease Es Er Ec.
  destruct (work_item_execution _ _ _ Hw H0) as (x & Hx & Hid & Hn & Hv & Hel & _ & Hwl).
  rewrite <-Es in *. eapply wp_bind, wp_get_execution; [done|].
  apply HQ; [|split; done || congruence|done|done]. by apply follows_same; [..|lia].
Qed.

Lemma claim_view_live w claim (w0 : WorkItem) x : claim_view w claim w0 x -> live w0.
Proof. intros H. unfold live. rewrite (cv_claimed _ _ _ _ H). done. Qed.

(** A claimed item's execution is not settled, and is admitted. *)
Lemma claim_view_open w claim (w0 : WorkItem) x :
  claim_view w claim w0 x ->
  is_terminal (x_status x) = false /\ x_execution_id x ∈ s_admitted (store w) /\
  x_status x <> NEEDS_ATTENTION.
Proof.
  intros H. pose proof (claim_view_live _ _ _ _ H) as Hlv.
  destruct (cv_work_life _ _ _ _ H) as [L1 L2 _]. pose proof (cv_life _ _ _ _ H) as Hel.
  destruct (w_kind w0).
  - destruct (L1 Hlv eq_refl) as [[Hp _]|(_ & Ha & [E|[E|E]])]; rewrite ?E; try done.
    by rewrite (cv_claimed _ _ _ _ H) in Hp.
  - destruct (L2 Hlv eq_refl) as [E _]. rewrite E. split; [done|]. split; [|done].
    by apply (el_started _ _ Hel); auto.
Qed.

(** The other items of a claimed item's execution are completed. *)
Lemma claim_view_alone w claim (w0 : WorkItem) x i (w1 : WorkItem) :
  winv w -> claim_view w claim w0 x -> dget (s_work (store w)) i = Some w1 ->
  w_execution_id w1 = x_execution_id x -> i <> c_work_item_id claim -> ~ live w1.
Proof.
  intros Hw H Hi Hix Hne Hlv1. apply Hne.
  eapply (live_unique w); [done|done|apply H| |done|by eapply claim_view_live].
  rewrite Hix. symmetry. apply H.
Qed.

(** ** [renew_claim] *)

Lemma renew_claim_safe claim duration w :
  winv w -> wp (renew_claim claim duration) w (fun r w' => outcome w r w' /\
    forall r', r = Ok r' -> held (store w') (renewed_claim r') /\
      c_claim_token (renewed_claim r') = c_claim_token claim /\
      c_fence (renewed_claim r') = c_fence claim /\
      c_lease_until (renewed_claim r') = clock_now (S (clock_reads w)) + duration).
Proof.
  intros Hw. unfold renew_claim. apply wp_bind, wp_raise_if; intros Hd;
    [split; [by apply outcome_refl|done]|]. bool_prop.
  apply wp_bind, wp_valid_claim; cycle 1.
  { intros e w' Es Er. split; [by apply outcome_same; [..|lia]|done]. }
  intros w0 z w1 H0 Hcl Hf Ht Hx0 Hns Hop Hz (l & Hl & Hlt) Es Er Ec.
  assert (follows w w1) as H1 by (by apply follows_same; [..|lia]).
  apply wp_bind, wp_now. intros z' w2 Es2 Er2 _ _ Hz' _. apply wp_bind, wp_lift.
  destruct (check_range (z' + duration)) as [lease|e] eqn:Hlease; cycle 1.
  { split; [apply outcome_same; [done|congruence|lia]|done]. }
  apply check_range_ok in Hlease as [-> _]. unfold update_work, on_store.
  apply wp_bind, wp_modify. set (w3 := set_store _ _).
  assert (winv w2) as Hw2 by (destruct (follows_same w1 w2 (proj1 H1) Es2); [lia|done]).
  assert (store w2 = store w) as Es' by congruence.
  destruct (work_item_execution _ _ _ Hw H0) as (x & Hx & Hid & Hn & Hv & Hel & _ & [L1 L2 _]).
  assert (follows w2 w3) as H3.
  { eapply (update_item_follows w2 _ w0 _ x); rewrite ?Es'; simpl; try done.
    rewrite <-Hid. split; [exact L1|exact L2|]. simpl. intros _. by rewrite Ht. }
  eapply wp_bind, wp_get_work.
  { simpl. rewrite dget_dupd, decide_True, Es', H0; done. }
  pose proof (wf_work_item _ (inv_wf _ (wi_inv _ Hw)) _ _ H0) as (Hwid & _).
  apply wp_bind. unfold claim_from. simpl. rewrite Ht. apply wp_ret.
  eapply wp_bind, wp_get_execution; [simpl; by rewrite Es'|]. apply wp_ret. split.
  - apply outcome_ok. eapply follows_trans; [exact H1|].
    eapply follows_trans; [|exact H3]. apply follows_same; [apply H1|done|lia].
  - intros r' [= <-]. simpl. rewrite Hz', Ec. tsplit; try done. eexists. simpl.
    rewrite Hwid, dget_dupd, decide_True, Es', H0 by done. split; [done|]. tsplit; done.
Qed.

(** ** [authorize_start] *)

Lemma authorize_start_safe claim timeout w :
  winv w -> safe (authorize_start claim timeout) w.
Proof.
  intros Hw. unfold safe, authorize_start. apply wp_bind, wp_raise_if; intros _;
    [by apply outcome_refl|]. apply wp_mutation_outcome; [done|].
  intros w1 Hw1 _ _ _. clear w Hw. rename w1 into w, Hw1 into Hw.
  apply wp_claimed_execution; [done|..].
  { intros e w' Es Er. by apply outcome_same; [..|lia]. }
  intros w0 x w1 H1 Hc Es Er. unfold from_store, on_store, change_execution, add_change.
  apply wp_bind, wp_gets, wp_bind, wp_now. intros z w2 Es2 Er2 _ _ _ _.
  apply wp_bind, wp_fresh_token. intros w3 Es3 Er3 _ _ _. apply wp_bind, wp_lift.
  destruct (AutoRules.authorize_start _ _ _ _ _ _) as [a|e] eqn:Ha.
  2: { split; [|intros; congruence]. apply follows_same; [done|congruence|lia]. }
  apply authorize_start_spec in Ha as (Hk & Hsa & Hq & Hadm & Hs & Hv & Hst & Hsa' & Hdl & _).
  unfold id in Hadm. bool_prop. apply wp_bind, wp_modify, wp_bind, wp_modify, wp_bind, wp_lift.
  unfold snapshot_execution. rewrite replace_execution_valid by done. apply wp_ret, outcome_ok.
  assert (follows w1 w3) as H3 by (apply follows_same; [apply H1|congruence|lia]).
  assert (store w3 = store w1) as Es' by congruence.
  set (t := unchanged (authorized_execution a)).
  assert (set_s_executions (dset (s_executions (store w3)) (x_execution_id x)
    (authorized_execution a)) (store w3) = apply_pure t None (store w3)) as Ep.
  { unfold apply_pure, put_pure. simpl. by rewrite (same_static_id _ _ Hs). }
  eapply follows_trans; [exact H1|]. eapply follows_trans; [exact H3|].
  pose proof (cv_execution _ _ _ _ Hc) as Hx. rewrite <-Es' in *.
  apply follows_store; simpl; try rewrite Ep; [apply H3|..|lia].
  - apply (apply_pure_inv (store w3) t None x); try done; simpl.
    + apply H3.
    + eapply exec_life_iff; [apply and_keep|].
      apply exec_life_started; [auto|done|rewrite Hsa'; eauto|rewrite Hdl; eauto].
    + intros wid wi Hwi Hwix Hl. eapply work_life_iff; [apply and_keep|].
      destruct (decide (wid = c_work_item_id claim)) as [->|Hne].
      * rewrite Es' in Hwi. rewrite (cv_work _ _ _ _ Hc) in Hwi. injection Hwi as <-.
        split; [|congruence|apply Hl]. intros _ _. right. split; [apply Hc|].
        split; [exact Hadm|auto].
      * apply not_live_life. apply (claim_view_alone w1 claim w0 x wid wi); try done.
        -- apply H1.
        -- by rewrite <-Es'.
  - apply (apply_pure_evolves (store w3) t None x); try done.
    + by rewrite Hq.
    + intros b. by rewrite Hsa.
  - intros id'. rewrite (apply_pure_work (store w3) t None x Hs). intros [? (w4 & E & _)%fmap_Some].
    rewrite E. eauto.
Qed.

(** ** [mark_interrupted] *)

Definition without_deadline (t : ExecutionTransition) : ExecutionTransition :=
  {| tr_execution := tr_execution t; complete_work := complete_work t;
     release_capacity := release_capacity t; deadline_work_at := None |}.

(** A transition with deadline work: the capacity check, the transition, then
    the new work item. *)
Lemma wp_apply_deadline t item d w (Q : res exn AutomationExecution -> World -> Prop) :
  deadline_work_at t = Some d ->
  (dget (s_work_keys (store w))
     (x_namespace (tr_execution t), x_execution_id (tr_execution t), EXPIRE_INTERRUPT) = None ->
   max_work_items (s_limits (store w)) <= zlen (s_work (store w)) ->
   Q (Raise AutomationStoreError) w) ->
  ((dget (s_work_keys (store w))
      (x_namespace (tr_execution t), x_execution_id (tr_execution t), EXPIRE_INTERRUPT) = None ->
    zlen (s_work (store w)) < max_work_items (s_limits (store w))) ->
   wp (apply_transition (without_deadline t) item) w (fun r w' =>
     match r with
     | Ok x => wp (create_work x EXPIRE_INTERRUPT d) w' (fun r w2 =>
         match r with Ok _ => Q (Ok x) w2 | Raise e => Q (Raise e) w2 end)
     | Raise e => Q (Raise e) w'
     end)) ->
  wp (apply_transition t item) w Q.
Proof.
  intros Hd HR HQ. unfold apply_transition at 1. rewrite Hd. unfold from_store.
  apply wp_bind, wp_bind, wp_gets, (wp_mono _ _ (fun r w' => w' = w /\ match r with
    | Ok _ => dget (s_work_keys (store w)) (x_namespace (tr_execution t),
        x_execution_id (tr_execution t), EXPIRE_INTERRUPT) = None ->
        zlen (s_work (store w)) < max_work_items (s_limits (store w))
    | Raise e => Q (Raise e) w end)).
  { apply wp_when; intros Hm; unfold id in *; bool_prop.
    - apply dmem_false in Hm. apply wp_raise_if; intros Hb; bool_prop; auto.
    - split; [done|]. apply dmem_true in Hm as [? Hm]. congruence. }
  intros [[]|e] w' [-> H]; [|done]. specialize (HQ H). revert HQ.
  unfold apply_transition, without_deadline, wp, bind, ret.
  cbn [tr_execution complete_work release_capacity deadline_work_at].
  set (m1 := put_execution _). destruct (m1 w) as [[[]|?] w1]; [|done].
  set (m2 := change_execution _). destruct (m2 w1) as [[[]|?] w2]; [|done].
  set (m3 := match complete_work t with complete_none => _ | _ => _ end).
  destruct (m3 w2) as [[[]|?] w3]; [|done].
  set (m4 := when _ _). destruct (m4 w3) as [[[]|?] w4]; [|done]. simpl.
  set (m5 := create_work _ _ _). by destruct (m5 w4) as [[[]|?] w5].
Qed.

Lemma wp_apply_interrupt w claim (w0 : WorkItem) x ids now t
    (Q : res exn AutomationExecution -> World -> Prop) :
  winv w -> claim_view w claim w0 x -> interrupt_execution x ids now = Ok t ->
  (forall e, Q (Raise e) w) ->
  (forall w', follows w w' -> Q (Ok (tr_execution t)) w') ->
  wp (apply_transition t (Some (c_work_item_id claim))) w Q.
Proof.
  intros Hw Hc Ht HR HQ.
  destruct (interrupt_execution_spec _ _ _ _ Ht)
    as (Hs & Hv & Hst & Hsa & Hdl & Hd & [d Hsome] & Hcw & Hr).
  rewrite Hsome in Hd. destruct (claim_view_open _ _ _ _ Hc) as (Hnt & Hadm & Hna).
  pose proof (cv_life _ _ _ _ Hc) as Hel.
  assert (is_Some (x_start_authorized_at x)) as Hstarted.
  { destruct (x_status x) eqn:E; try done;
      try (by apply (el_started _ _ Hel); auto).
    destruct (el_queued _ _ Hel E). congruence. }
  apply (wp_apply_deadline t _ d); [done|auto|]. intros Hcap.
  eapply (wp_apply_current w x (without_deadline t)); simpl; try done; try apply Hc.
  - intros i w1 Hi Hix Hne. left. eapply claim_view_alone; eauto.
  - rewrite Hnt. done.
  - rewrite Hr. apply exec_life_started; [auto|done| |]; [by rewrite Hsa|by rewrite Hdl, Hsome].
  - intros w' Hf Es _ _.
    destruct (apply_pure_fields (without_deadline t) (Some (c_work_item_id claim)) (store w))
      as (_ & E2 & _ & E4 & _ & _ & E7 & _ & E9). rewrite <-Es in *.
    apply wp_create_work.
    + apply Hf.
    + rewrite E2. simpl. by rewrite dget_dset_eq.
    + done.
    + intros _. rewrite Hdl. done.
    + rewrite E4, E7, E9. intros Hk. rewrite complete_pure_len. by apply Hcap.
    + intros w2 Hf2 _ _ _ _ _ _ _ _. apply HQ. by eapply follows_trans.
Qed.

(** Commands whose body is one transition on a claimed execution. *)
Lemma holder_safe claim (rule : AutomationExecution -> Z -> res exn ExecutionTransition) w :
  winv w ->
  (forall w1 (w0 : WorkItem) x now t (Q : res exn AutomationExecution -> World -> Prop),
     winv w1 -> claim_view w1 claim w0 x -> rule x now = Ok t ->
     (forall e, Q (Raise e) w1) -> (forall w', follows w1 w' -> Q (Ok (tr_execution t)) w') ->
     exec_valid (tr_execution t) /\
     wp (apply_transition t (Some (c_work_item_id claim))) w1 Q) ->
  wp (let* item := valid_claim claim in
      let* x := get_execution_record (w_execution_id item) in
      let* now := now in
      let* t := lift (rule x now) in
      let* x' := apply_transition t (Some (c_work_item_id claim)) in
      lift (snapshot_execution x')) w (outcome w).
Proof.
  intros Hw Hrule. apply wp_claimed_execution; [done|..].
  { intros e w' Es Er. by apply outcome_same; [..|lia]. }
  intros w0 x w1 H1 Hc Es Er. apply wp_bind, wp_now. intros z w2 Es2 Er2 _ _ _ _.
  apply wp_bind, wp_lift.
  assert (follows w1 w2) as H2 by (apply follows_same; [apply H1|congruence|lia]).
  destruct (rule x z) as [t|e] eqn:Ht.
  2: { split; [|intros; congruence]. by eapply follows_trans. }
  assert (claim_view w2 claim w0 x) as Hc2 by (destruct Hc; split; rewrite ?Es2; done).
  assert (forall Q : res exn AutomationExecution -> World -> Prop,
    (forall e, Q (Raise e) w2) -> (forall w', follows w2 w' -> Q (Ok (tr_execution t)) w') ->
     exec_valid (tr_execution t) /\
     wp (apply_transition t (Some (c_work_item_id claim))) w2 Q) as HQ.
  { intros Q HR HQ. eapply Hrule; try done. apply H2. }
  apply wp_bind. apply HQ.
  - intros e. split; [|intros; congruence]. by eapply follows_trans.
  - intros w3 H3. apply wp_lift. unfold snapshot_execution. rewrite replace_execution_valid.
    + apply outcome_ok. exact (follows_trans _ _ _ H1 (follows_trans _ _ _ H2 H3)).
    + by apply (HQ (fun _ _ => True)).
Qed.

Lemma mark_interrupted_safe claim ids w : winv w -> safe (mark_interrupted claim ids) w.
Proof.
  intros Hw. unfold safe, mark_interrupted. apply wp_bind, wp_raise_if; intros _;
    [by apply outcome_refl|]. apply wp_mutation_outcome; [done|]. intros w1 Hw1 _ _ _.
  apply (holder_safe claim (fun x now => interrupt_execution x ids now)); [done|].
  intros w2 w0 x z t Q Hw2 Hc Ht HR HQ. split.
  - by apply interrupt_execution_spec in Ht as (_ & ? & _).
  - by eapply wp_apply_interrupt.
Qed.

(** ** [finish_execution] *)

Lemma finish_execution_safe claim status result code message w :
  winv w -> safe (finish_execution claim status result code message) w.
Proof.
  intros Hw. unfold safe, finish_execution. apply wp_bind, wp_raise_if; intros _;
    [by apply outcome_refl|]. apply wp_mutation_outcome; [done|]. intros w1 Hw1 _ _ _.
  apply (holder_safe claim (fun x now => AutoRules.finish_execution x status now result code message));
    [done|]. intros w2 w0 x z t Q Hw2 Hc Ht HR HQ.
  destruct (finish_execution_spec _ _ _ _ _ _ _ Ht)
    as (Hset & Hs & Hv & Hst & Hsa & Hcw & Hr & Hd).
  split; [done|]. destruct (claim_view_open _ _ _ _ Hc) as (Hnt & Hadm & _).
  eapply (wp_apply_settle w2 x t _ status); try done.
  - apply Hc.
  - do 2 eexists. split; [done|]. split; apply Hc.
  - intros w' Hf _ _. by apply HQ.
Qed.

(** ** The owner's commands *)

(** Commands of the owner whose body is one transition. *)
Lemma owner_safe ns owner xid rid digest
    (rule : AutomationExecution -> Z -> res exn ExecutionTransition) w :
  winv w ->
  (forall w1 x now t (Q : res exn AutomationExecution -> World -> Prop), winv w1 ->
     dget (s_executions (store w1)) (x_execution_id x) = Some x -> rule x now = Ok t ->
     (forall w', follows w1 w' -> store w' = apply_pure t None (store w1) ->
        Q (Ok (tr_execution t)) w') ->
     exec_valid (tr_execution t) /\ wp (apply_transition t None) w1 Q) ->
  safe (mutation
    (do* ensure_open in
     let* previous := operation_result ns owner rid digest in
     match previous with
     | Some p => expect_execution p
     | None =>
         let* x := owned_execution ns owner xid in
         let* now := now in
         let* t := lift (rule x now) in
         do* require_operation_capacity rid in
         let* updated := apply_transition t None in
         do* save_operation ns owner rid digest (ResultExecution updated) in
         lift (snapshot_execution updated)
     end)) w.
Proof.
  intros Hw Hrule. unfold safe. apply wp_mutation_outcome; [done|]. intros w1 Hw1 _ _ _.
  clear w Hw. rename w1 into w, Hw1 into Hw. unfold ensure_open, from_store.
  apply wp_bind, wp_bind, wp_gets, wp_raise_if; intros _; [by apply outcome_refl|].
  apply wp_bind, wp_operation_result; [|intros; by apply outcome_refl].
  intros o _ Hn. destruct o as [p|].
  { apply wp_reads; [apply expect_execution_reads|]. intros; by apply outcome_refl. }
  apply wp_bind, wp_owned_execution; [|intros; by apply outcome_refl]. intros x Hx _ _.
  destruct (stored_execution _ _ _ Hw Hx) as (Hid & Hx' & Hv & _).
  apply wp_bind, wp_now. intros z w1 Es Er _ _ _ _. apply wp_bind, wp_lift.
  assert (follows w w1) as H1 by (by apply follows_same; [..|lia]).
  destruct (rule x z) as [t|e] eqn:Ht; [|by apply outcome_same; [..|lia]].
  apply wp_bind, wp_require_operation_capacity; [|intros; by apply outcome_same; [..|lia]].
  intros Hcap. rewrite <-Es in Hx'. apply wp_bind.
  destruct (Hrule w1 x z t (fun _ _ => True) (proj1 H1) Hx' Ht (fun _ _ _ => I)) as [Hv' _].
  eapply (Hrule w1 x z t); [apply H1|done..|]. intros w2 H2 Es2.
  destruct (apply_pure_fields t None (store w1)) as (_ & _ & _ & _ & E5 & _ & E7 & _).
  rewrite <-Es2 in E5, E7. apply wp_bind. eapply wp_mono; [apply save_operation_safe|].
  - apply H2.
  - by rewrite E5, E7.
  - rewrite E5, Es. auto.
  - simpl. unfold snapshot_execution. by rewrite replace_execution_valid.
  - intros r w3 [-> H3]. apply wp_lift. unfold snapshot_execution.
    rewrite replace_execution_valid by done. apply outcome_ok.
    exact (follows_trans _ _ _ H1 (follows_trans _ _ _ H2 H3)).
Qed.

Lemma cancel_execution_safe ns owner xid rid digest w :
  winv w -> safe (cancel_execution ns owner xid rid digest) w.
Proof.
  intros Hw. unfold safe, cancel_execution. apply wp_bind, wp_lift.
  destruct (validate_scope ns owner) as [[]|e]; [|by apply outcome_refl].
  apply (owner_safe ns owner xid rid digest AutoRules.cancel_execution); [done|].
  intros w1 x z t Q Hw1 Hx Ht HQ.
  destruct (stored_execution _ _ _ Hw1 Hx) as (_ & _ & Hv & _). split.
  - by apply (cancel_execution_spec _ _ _ Hv Ht).
  - by eapply wp_apply_cancel.
Qed.

Lemma resolve_execution_safe ns owner xid r rid digest reason w :
  winv w -> safe (resolve_execution ns owner xid r rid digest reason) w.
Proof.
  intros Hw. unfold safe, resolve_execution. apply wp_bind, wp_lift.
  destruct (validate_scope ns owner) as [[]|e]; [|by apply outcome_refl].
  apply wp_bind, wp_lift.
  destruct (validate_persisted_text _ _) as [[]|e]; [|by apply outcome_refl].
  apply (owner_safe ns owner xid (Some rid) digest
    (fun x now => AutoRules.resolve_execution x r reason now)); [done|].
  intros w1 x z t Q Hw1 Hx Ht HQ. split.
  - by apply (resolve_execution_spec _ _ _ _ _ Ht).
  - by eapply wp_apply_resolve.
Qed.

(** ** [close], [setup], [current_time] *)

Lemma close_safe w : winv w -> safe close w.
Proof.
  intros Hw. unfold safe, close, on_store. apply wp_modify, outcome_ok.
  apply follows_store; simpl; [done|..|done|lia]; [by apply inv_close, Hw|by apply evolves_frame].
Qed.

Lemma current_time_safe w : winv w -> safe current_time w.
Proof.
  intros Hw. unfold safe, current_time, ensure_open, from_store.
  apply wp_bind, wp_bind, wp_gets, wp_raise_if; intros _; [by apply outcome_refl|].
  apply wp_now. intros z w' Es Er _ _ _ _. by apply outcome_same; [..|lia].
Qed.
End commands.
