(* ===== verification/AutoSystem.v ===== *)
(** Automation: the store as a transition system.  A [command] is one call of a
    public method; [run] executes it.  Reachable worlds are those that any
    sequence of calls, successful or not, leads to from a new store. *)
From S2P Require Import Prelude PyDict PySeq Contracts AutoModels AutoRules AutoRulesFacts.
From S2P Require Import AutoMemory AutoInvariant AutoStore AutoStoreFacts AutoStoreSafe.
From S2P Require Import AutoClaims AutoClaimLoop AutoCommands.
From Stdlib Require Import Strings.String.

Implicit Types (s : Store) (x : AutomationExecution) (w : World).

(** ** Definitions *)

Inductive command : Type :=
| Setup
| CurrentTime
| Close
| CreateTask (task : AutomationTask) (request_id : option pystr) (digest : pystr)
| UpdateTask (task : AutomationTask) (expected_revision : Z) (request_id : option pystr)
    (digest : pystr)
| DeleteTask (namespace owner_id task_id : pystr) (expected_revision : Z)
    (request_id : option pystr) (digest : pystr)
| GetCommandReceipt (namespace owner_id request_id : pystr)
| GetTask (namespace owner_id task_id : pystr)
| ListTasks (namespace owner_id : pystr) (limit : Z) (cursor : option pystr)
    (filters : option TaskFilter)
| SummarizeTasks (namespace owner_id : pystr) (filters : option TaskFilter)
| SummarizeExecutions (namespace owner_id : pystr) (filters : option ExecutionFilter)
| GetScheduledTask (namespace task_id : pystr)
| ListScheduledTasks (namespace : pystr) (limit : Z) (cursor : option pystr)
| MaterializeTask (task : AutomationTask) (expected_next_run_at : Z)
    (executions : list ScheduledExecution)
| EnqueueExecution (execution : AutomationExecution) (occurrence : pystr)
    (request_id : option pystr) (digest : pystr) (expected_task_revision : pyobj)
| GetExecution (namespace owner_id execution_id : pystr)
| GetScheduledExecution (namespace execution_id : pystr)
| ListExecutions (namespace owner_id : pystr) (task_id : option pystr) (limit : Z)
    (cursor : option pystr) (filters : option ExecutionFilter)
| ClaimWork (namespace worker_id : pystr) (limit lease_duration global_concurrency : Z)
| RenewClaim (claim : WorkItemClaim) (lease_duration : Z)
| AuthorizeStart (claim : WorkItemClaim) (execution_timeout : Z)
| MarkInterrupted (claim : WorkItemClaim) (interrupt_ids : list pystr)
| FinishExecution (claim : WorkItemClaim) (status : ExecutionStatus) (result : JsonValue)
    (failure_code failure_message : option pystr)
| CancelExecution (namespace owner_id execution_id : pystr) (request_id : option pystr)
    (digest : pystr)
| ResolveExecution (namespace owner_id execution_id : pystr) (resolution : AttentionResolution)
    (request_id digest reason : pystr).

Section system.
Context {runtime : Runtime} {codec : CursorCodec}.

(** A call whose result is dropped. *)
Definition void {A} (m : M World exn A) : M World exn unit := do* m in ret tt.

Definition run (c : command) : M World exn unit :=
  match c with
  | Setup => setup
  | CurrentTime => void current_time
  | Close => close
  | CreateTask t r d => void (create_task t r d)
  | UpdateTask t v r d => void (update_task t v r d)
  | DeleteTask n o t v r d => delete_task n o t v r d
  | GetCommandReceipt n o r => void (get_command_receipt n o r)
  | GetTask n o t => void (get_task n o t)
  | ListTasks n o l c f => void (list_tasks n o l c f)
  | SummarizeTasks n o f => void (summarize_tasks n o f)
  | SummarizeExecutions n o f => void (summarize_executions n o f)
  | GetScheduledTask n t => void (get_scheduled_task n t)
  | ListScheduledTasks n l c => void (list_scheduled_tasks n l c)
  | MaterializeTask t e l => void (materialize_task t e l)
  | EnqueueExecution x k r d v => void (enqueue_execution x k r d v)
  | GetExecution n o x => void (get_execution n o x)
  | GetScheduledExecution n x => void (get_scheduled_execution n x)
  | ListExecutions n o t l c f => void (list_executions n o t l c f)
  | ClaimWork n w l d g => void (claim_work n w l d g)
  | RenewClaim c d => void (renew_claim c d)
  | AuthorizeStart c d => void (authorize_start c d)
  | MarkInterrupted c ids => void (mark_interrupted c ids)
  | FinishExecution c s r fc fm => void (finish_execution c s r fc fm)
  | CancelExecution n o x r d => void (cancel_execution n o x r d)
  | ResolveExecution n o x a r d m => void (resolve_execution n o x a r d m)
  end.

(** What the service (service.py, engine.py) guarantees about the executions it
    hands over: they are new records, and a materialised batch names each
    execution once. *)
Definition admissible (c : command) (w : World) : Prop :=
  match c with
  | EnqueueExecution x _ _ _ _ => x_status x = QUEUED -> fresh_execution x
  | MaterializeTask t _ l => new_executions (t_namespace t) l (store w)
  | _ => True
  end.

(** One call, whatever its outcome. *)
Definition step (w w' : World) : Prop :=
  exists c, admissible c w /\ w' = (run c w).2.

Definition later (w w' : World) : Prop := rtc step w w'.

Definition reachable (w : World) : Prop :=
  exists limits notifications,
    MemoryStoreLimits_post_init limits = Ok tt /\ later (new_world limits notifications) w.

Context {fresh : FreshTokens}.

(** ** Every call keeps the invariant *)

Lemma void_safe {A} (m : M World exn A) w : safe m w -> safe (void m) w.
Proof.
  unfold safe, void, wp, bind, ret. destruct (m w) as [[a|e] w']; simpl; intros [H He].
  - by apply outcome_ok.
  - split; [done|]. intros e' _. by apply (He e).
Qed.

(** The calls that fail as a whole: all but a claim whose lease overflows. *)
Definition run_outcome (c : command) (w : World) (r : res exn unit) (w' : World) : Prop :=
  outcome w r w' \/
  exists ns worker limit duration g, c = ClaimWork ns worker limit duration g /\
    follows w w' /\ r = Raise OverflowError /\ lease_overflows duration w.

Lemma reads_run_safe {A} (m : M World exn A) w : winv w -> reads m -> safe (void m) w.
Proof. intros Hw Hm. by apply void_safe, reads_safe. Qed.

Lemma run_safe c w :
  (forall ns worker l d g, c <> ClaimWork ns worker l d g) ->
  winv w -> admissible c w -> safe (run c) w.
Proof.
  intros Hc Hw Ha. destruct c; simpl in *; try (exfalso; by eapply Hc).
  - apply reads_safe; [apply reads_bind; [done|intros; apply reads_raise_if]|done].
  - by apply void_safe, current_time_safe.
  - by apply close_safe.
  - by apply void_safe, create_task_safe.
  - by apply void_safe, update_task_safe.
  - by apply delete_task_safe.
  - apply reads_run_safe; [done|apply get_command_receipt_reads].
  - apply reads_run_safe; [done|apply get_task_reads].
  - apply reads_run_safe; [done|apply list_tasks_reads].
  - apply reads_run_safe; [done|apply summarize_tasks_reads].
  - apply reads_run_safe; [done|apply summarize_executions_reads].
  - apply reads_run_safe; [done|apply get_scheduled_task_reads].
  - apply reads_run_safe; [done|apply list_scheduled_tasks_reads].
  - by apply void_safe, materialize_task_safe.
  - by apply void_safe, enqueue_execution_safe.
  - apply reads_run_safe; [done|apply get_execution_reads].
  - apply reads_run_safe; [done|apply get_scheduled_execution_reads].
  - apply reads_run_safe; [done|apply list_executions_reads].
  - apply void_safe. eapply wp_mono; [by apply renew_claim_safe|]. by intros r w' [? _].
  - by apply void_safe, authorize_start_safe.
  - by apply void_safe, mark_interrupted_safe.
  - by apply void_safe, finish_execution_safe.
  - by apply void_safe, cancel_execution_safe.
  - by apply void_safe, resolve_execution_safe.
Qed.

Lemma run_has_outcome c w : winv w -> admissible c w -> wp (run c) w (run_outcome c w).
Proof.
  intros Hw Ha. assert ((forall ns worker l d g, c <> ClaimWork ns worker l d g) \/
    exists ns worker l d g, c = ClaimWork ns worker l d g)
    as [Hno|(ns & worker & l & d & g & ->)] by (destruct c; naive_solver).
  { eapply wp_mono; [by apply run_safe|]. intros r w' H. by left. }
  pose proof (wp_claim_work ns worker l d g w Hw) as H. unfold wp, run, void, bind, ret in *.
  destruct (claim_work ns worker l d g w) as [[b|e] w']; destruct H as [[[[Hf He]|(Hf & Hr & Ho)] _] _].
  - left. by apply outcome_ok.
  - done.
  - left. split; [done|]. intros e' [= <-]. by apply (He e).
  - right. injection Hr as ->. by exists ns, worker, l, d, g.
Qed.

Lemma run_follows c w : winv w -> admissible c w -> follows w (run c w).2.
Proof.
  intros Hw Ha. pose proof (run_has_outcome c w Hw Ha) as H. unfold wp, run_outcome in H.
  by destruct (run c w) as [r w'], H as [[? _]|(? & ? & ? & ? & ? & _ & ? & _)].
Qed.

Lemma step_follows w w' : winv w -> step w w' -> follows w w'.
Proof. intros Hw (c & Ha & ->). by apply run_follows. Qed.

Lemma later_follows w w' : winv w -> later w w' -> follows w w'.
Proof.
  intros Hw H. induction H as [w|w w1 w2 Hs Hl IH]; [by apply follows_refl|].
  pose proof (step_follows w w1 Hw Hs) as H1. eapply follows_trans; [exact H1|]. apply IH, H1.
Qed.

Lemma new_world_winv limits notifications :
  MemoryStoreLimits_post_init limits = Ok tt -> winv (new_world limits notifications).
Proof.
  unfold MemoryStoreLimits_post_init. rewrite !rbind_tt, !rraise_if_ok. intros (H1 & H2 & H3 & H4).
  bool_prop. split; [|intros id; simpl; by intros [? [=]]]. split; simpl.
  - split; simpl; try apply dwf_nil; try done; set_solver.
  - intros key. split; done.
  - intros id x. done.
  - unfold bounded, zlen. simpl. lia.
Qed.

Lemma reachable_winv w : reachable w -> winv w.
Proof.
  intros (limits & n & Hl & Hw). apply (later_follows _ _ (new_world_winv limits n Hl) Hw).
Qed.

Lemma reachable_later w w' : reachable w -> later w w' -> reachable w'.
Proof.
  intros (l & n & Hl & Hw) H. exists l, n. split; [done|]. by eapply rtc_trans.
Qed.

Lemma reachable_step w c : reachable w -> admissible c w -> reachable (run c w).2.
Proof. intros Hw Ha. eapply reachable_later; [done|]. apply rtc_once. by exists c. Qed.
End system.

(** ** Exceptions and notifications *)

Section effects.
Context {runtime : Runtime} {codec : CursorCodec}.

Section steps.
Context (R : World -> World -> Prop) `{!PreOrder R}.

Definition steps {A} (m : M World exn A) : Prop := forall w, R w (m w).2.

Lemma steps_ret {A} (a : A) : steps (ret a).
Proof. intros w. done. Qed.

Lemma steps_raise {A} e : steps (raise e : M World exn A).
Proof. intros w. done. Qed.

Lemma steps_lift {A} (r : res exn A) : steps (lift r).
Proof. intros w. done. Qed.

Lemma steps_gets {A} (f : World -> A) : steps (gets f).
Proof. intros w. done. Qed.

Lemma steps_bind {A B} (m : M World exn A) (f : A -> M World exn B) :
  steps m -> (forall a, steps (f a)) -> steps (bind m f).
Proof.
  intros Hm Hf w. unfold bind. specialize (Hm w). destruct (m w) as [[a|e] w']; simpl in *; [|done].
  etransitivity; [exact Hm|]. apply Hf.
Qed.

Lemma steps_raise_if (b : bool) e : steps (raise_if b e).
Proof. destruct b; [apply steps_raise|apply steps_ret]. Qed.

Lemma steps_when (b : bool) m : steps m -> steps (when b m).
Proof. destruct b; [done|intros _; apply steps_ret]. Qed.

Lemma steps_some_or {A} (o : option A) e : steps (some_or o e).
Proof. destruct o; [apply steps_ret|apply steps_raise]. Qed.

Lemma steps_for_each {A} (f : A -> M World exn unit) l :
  (forall a, steps (f a)) -> steps (for_each f l).
Proof. intros Hf. induction l; simpl; [apply steps_ret|by apply steps_bind]. Qed.

Lemma steps_modify f : (forall w, R w (f w)) -> steps (modify f).
Proof. intros H w. apply H. Qed.

Lemma steps_now : (forall w n, R w (set_clock_reads n w)) -> steps now.
Proof. intros H w. apply H. Qed.

Lemma steps_fresh_token : (forall w n, R w (set_random_reads n w)) -> steps fresh_token.
Proof. intros H w. apply H. Qed.

Lemma steps_void {A} (m : M World exn A) : steps m -> steps (void m).
Proof. intros H. apply steps_bind; [done|]. intros _. apply steps_ret. Qed.
End steps.

(** One pass over a body; [base] closes the assignments. *)
Ltac steps_tac base :=
  repeat first
    [ progress intros
    | match goal with
      | |- steps _ (bind _ _) => apply steps_bind; [exact _| |]
      | |- steps _ (ret _) => apply steps_ret; exact _
      | |- steps _ (raise _) => apply steps_raise; exact _
      | |- steps _ (lift _) => apply steps_lift; exact _
      | |- steps _ (gets _) => apply steps_gets; exact _
      | |- steps _ (raise_if _ _) => apply steps_raise_if; exact _
      | |- steps _ (when _ _) => apply steps_when; [exact _|]
      | |- steps _ (some_or _ _) => apply steps_some_or; exact _
      | |- steps _ (for_each _ _) => apply steps_for_each; [exact _|]
      | |- steps _ (void _) => apply steps_void; [exact _|]
      | |- steps _ now => apply steps_now; base
      | |- steps _ fresh_token => apply steps_fresh_token; base
      | |- steps _ (modify _) => apply steps_modify; base
      | |- steps _ (if ?b then _ else _) => destruct b
      | |- steps _ (match ?o with _ => _ end) => destruct o
      end
    | progress unfold from_store, on_store, ensure_open, ensure_capacity, owned_task,
        owned_execution, operation_result, require_operation_capacity, save_operation,
        expect_task, expect_execution, expect_str, get_execution_record, get_work_record,
        put_execution, put_task, update_work, create_work, complete_execution_work,
        release_scopes, apply_transition, change_task, change_execution, add_change,
        recover_item, recover_expired_claims, valid_claim, claim_from, cancel_if_queued,
        store_scheduled, next_check_delay, setup, current_time, close, reserve_scopes ].

(** ** Admission *)

Definition admits_less (w w' : World) : Prop := s_admitted (store w') ⊆ s_admitted (store w).

#[export] Instance admits_less_preorder : PreOrder admits_less.
Proof. split; unfold admits_less; [intros w; done|intros w1 w2 w3; set_solver]. Qed.

Lemma steps_mutation_admits {A} (m : M World exn A) :
  steps admits_less m -> steps admits_less (mutation m).
Proof.
  intros H w. specialize (H (set_changes [] w)). unfold mutation, admits_less in *.
  by destruct (m _) as [[a|e] w'].
Qed.

Ltac admits := intros; unfold admits_less; simpl; set_solver.

Lemma apply_transition_admits t item : steps admits_less (apply_transition t item).
Proof. steps_tac admits. Qed.

(** Only [claim_work] admits executions. *)
Lemma run_admits_less c :
  (forall ns worker l d g, c <> ClaimWork ns worker l d g) -> steps admits_less (run c).
Proof.
  intros Hc. destruct c; try (exfalso; by eapply Hc); unfold run,
    create_task, update_task, delete_task, get_command_receipt, get_task, list_tasks,
    summarize_tasks, summarize_executions, get_scheduled_task, list_scheduled_tasks,
    materialize_task, enqueue_execution, get_execution, get_scheduled_execution,
    list_executions, renew_claim, authorize_start, mark_interrupted, finish_execution,
    cancel_execution, resolve_execution;
  repeat first [ apply steps_mutation_admits | progress steps_tac admits ].
Qed.

(** ** Notifications *)

Definition silent (w w' : World) : Prop := published w' = published w.

#[export] Instance silent_preorder : PreOrder silent.
Proof. split; unfold silent; [intros w; done|intros w1 w2 w3; congruence]. Qed.

(** The recorded changes have distinct keys. *)
Definition keyed (w w' : World) : Prop := dwf (changes w) -> dwf (changes w').

#[export] Instance keyed_preorder : PreOrder keyed.
Proof. split; unfold keyed; [intros w; done|intros w1 w2 w3; auto]. Qed.

(** The entries are stored under their own key. *)
Definition own_keys (w w' : World) : Prop :=
  (forall k n, dget (changes w) k = Some n -> k = (n_namespace n, n_owner_id n, n_topic n, n_key n)) ->
  forall k n, dget (changes w') k = Some n -> k = (n_namespace n, n_owner_id n, n_topic n, n_key n).

#[export] Instance own_keys_preorder : PreOrder own_keys.
Proof. split; unfold own_keys; [intros w; done|intros w1 w2 w3; auto]. Qed.

Definition hushed (w w' : World) : Prop :=
  silent w w' /\ keyed w w' /\ own_keys w w' /\
  s_notifications (store w') = s_notifications (store w).

#[export] Instance hushed_preorder : PreOrder hushed.
Proof.
  split; unfold hushed.
  - intros w. tsplit; done.
  - intros w1 w2 w3 (S1 & K1 & O1 & N1) (S2 & K2 & O2 & N2).
    tsplit; [by etransitivity..|congruence].
Qed.

Ltac hush := intros; unfold hushed, silent, keyed, own_keys; simpl; tsplit;
  first [ done | by intros; apply dwf_dset
        | intros Hk ? ?; rewrite dget_dset; destruct (decide _); [by intros [= <-]|apply Hk]
        | idtac ].

Lemma apply_transition_hushed t item : steps hushed (apply_transition t item).
Proof. steps_tac hush. Qed.

(** The address of a hint. *)
Definition address (n : Notification) : pystr * pystr * pystr * pystr :=
  (n_namespace n, n_owner_id n, n_topic n, n_key n).

(** The hints one call adds: none when it raises or when the store has no change
    service, and never two with the same address. *)
Definition announcement (raised : Prop) (w w' : World) (l : list Notification) : Prop :=
  published w' = published w ++ l /\ (raised -> l = []) /\
  (s_notifications (store w) = false -> l = []) /\ NoDup (map address l).

Definition announces {A} (m : M World exn A) : Prop :=
  forall w, exists l, announcement (exists e, (m w).1 = Raise e) w (m w).2 l.

Lemma announces_hushed {A} (m : M World exn A) : steps hushed m -> announces m.
Proof.
  intros H w. exists []. destruct (H w) as (E & _). unfold announcement.
  rewrite app_nil_r. tsplit; try done. apply NoDup_nil_2.
Qed.

Lemma announces_bind {A B} (m : M World exn A) (f : A -> M World exn B) :
  steps hushed m -> (forall a, announces (f a)) -> announces (bind m f).
Proof.
  intros Hm Hf w. unfold bind. destruct (Hm w) as (E & _ & _ & N).
  destruct (m w) as [[a|e] w1]; simpl in *; unfold silent in E.
  - destruct (Hf a w1) as (l & El & Hr & Hn & Hd). exists l. unfold announcement.
    rewrite El, E. rewrite N in Hn. done.
  - exists []. unfold announcement. rewrite app_nil_r. tsplit; try done. apply NoDup_nil_2.
Qed.

Lemma announces_void {A} (m : M World exn A) : announces m -> announces (void m).
Proof.
  intros H w. destruct (H w) as (l & El & Hr & Hn & Hd). exists l. unfold announcement, void, bind, ret in *.
  destruct (m w) as [[a|e] w1]; simpl in *; tsplit; try done.
  - by intros [? [=]].
  - intros _. apply Hr. eauto.
Qed.

Lemma own_keys_addresses d :
  (forall k n, dget d k = Some n -> k = address n) -> dwf d -> map address (dvals d) = dkeys d.
Proof.
  intros Hk Hd. unfold dvals, dkeys. rewrite map_map. apply map_ext_in. intros [k n] Hin. simpl.
  symmetry. apply Hk, elem_of_dget; [done|]. by apply list_elem_of_In.
Qed.

Lemma announces_mutation {A} (body : M World exn A) : steps hushed body -> announces (mutation body).
Proof.
  intros H w. destruct (H (set_changes [] w)) as (E & K & O & N). unfold mutation.
  destruct (body (set_changes [] w)) as [[a|e] w1]; simpl in *; unfold silent in E; simpl in E, N.
  - destruct (s_notifications (store w1)) eqn:Hs.
    + exists (dvals (changes w1)). unfold announcement. simpl. rewrite Hs, E. tsplit.
      * done.
      * by intros [? [=]].
      * congruence.
      * unfold own_keys in O. rewrite own_keys_addresses; [apply K, dwf_nil|by apply O|apply K, dwf_nil].
    + exists []. unfold announcement. simpl. rewrite Hs, E, app_nil_r. tsplit; try done.
      apply NoDup_nil_2.
  - exists []. unfold announcement. simpl. rewrite E, app_nil_r. tsplit; try done. apply NoDup_nil_2.
Qed.

Lemma claim_loop_hushed worker limit d g now l acc :
  steps hushed (claim_loop worker limit d g now l acc).
Proof. revert acc. induction l as [|id l IH]; intros acc; simpl; steps_tac hush; apply IH. Qed.

Lemma run_announces c : announces (run c).
Proof.
  destruct c; unfold run;
    (try apply announces_void);
    unfold create_task, update_task, delete_task, get_command_receipt, get_task, list_tasks,
    summarize_tasks, summarize_executions, get_scheduled_task, list_scheduled_tasks,
    materialize_task, enqueue_execution, get_execution, get_scheduled_execution, list_executions,
    claim_work, renew_claim, authorize_start, mark_interrupted, finish_execution,
    cancel_execution, resolve_execution;
  repeat lazymatch goal with
  | |- announces (mutation _) => apply announces_mutation
  | |- announces (bind _ _) =>
      first [ apply announces_bind; [solve [steps_tac hush]|intros ?]
            | apply announces_hushed; solve [steps_tac hush] ]
  | |- announces _ => apply announces_hushed; solve [steps_tac hush]
  | |- steps _ (claim_loop _ _ _ _ _ _ _) => apply claim_loop_hushed
  | |- _ => progress steps_tac hush
  end.
Qed.
End effects.
