(* ===== verification/AutoProps.v ===== *)
(** Automation: the properties of the store over whole histories - the
    invariant, admission, atomicity, notifications, starts, fencing, recovery - and the
    concrete runtime and history of the witnesses. *)
From S2P Require Import Prelude PyDict PySeq AutoModels AutoRules AutoRulesFacts AutoMemory.
From S2P Require Import Contracts.
From S2P Require Import AutoInvariant AutoStore AutoStoreFacts AutoStoreSafe AutoClaims.
From S2P Require Import AutoClaimLoop AutoCommands AutoSystem.
From Stdlib Require Import Strings.String.

(** ** The environment *)

(** A clock that advances by ten at every reading. *)
#[export] Instance demo_runtime : Runtime := {|
  clock_now n := 1000 + 10 * Z.of_nat n;
  random_token n := [97; Z.of_nat n];
  casefold s := s
|}.

#[export] Instance demo_fresh : FreshTokens.
Proof. intros i j H. injection H as H. lia. Qed.

(** A position as its scope's length, the scope, the time and the identity. *)
#[export] Instance demo_codec : CursorCodec := {|
  cursor_text p := zlen (pos_scope p) :: pos_scope p ++ pos_at p :: pos_identity p;
  cursor_parse c :=
    match c with
    | [] => None
    | n :: rest =>
        match drop (Z.to_nat n) rest with
        | [] => None
        | t :: ident =>
            Some {| pos_scope := take (Z.to_nat n) rest; pos_at := t; pos_identity := ident |}
        end
    end;
  scope_digest ns owner f task := u "q"
|}.

(** ** A history: one task, one execution, claimed and started *)

Definition demo_limits : MemoryStoreLimits :=
  {| max_tasks := 10; max_executions := 10; max_work_items := 20; max_operations := 10 |}.

Definition demo_task : AutomationTask :=
  {| t_task_id := u "task"; t_namespace := u "ns"; t_owner_id := u "owner";
     t_execution_namespace := u "run"; t_name := u "nightly"; t_target := u "agent";
     t_input := []; t_schedule := {| active_from := None; active_until := None;
                                     sched := IntervalSchedule 60 0 |};
     t_status := ENABLED; t_revision := 1; t_next_run_at := Some 60;
     t_misfire_policy := {| mode := LATEST; grace := 0; catch_up_window := 3600;
                            max_catch_up := 1 |};
     t_limits := {| max_concurrent_runs := 1; max_queued_runs := 2; execution_timeout := 600;
                    queue_timeout := 600 |};
     t_created_at := 0; t_updated_at := 0 |}.

Definition demo_execution (id : pystr) : AutomationExecution :=
  {| x_execution_id := id; x_task_id := Some (u "task"); x_namespace := u "ns";
     x_owner_id := u "owner";
     x_identity := {| i_namespace := u "run"; i_thread_id := u "t"; i_run_id := id |};
     x_target := u "agent"; x_input := []; x_limits := t_limits demo_task;
     x_origin := MANUAL; x_status := QUEUED; x_attempt := 1; x_retry_of := None;
     x_scheduled_for := None; x_queued_at := 100; x_queue_deadline := 700000;
     x_execution_started_at := None; x_execution_deadline := None; x_finished_at := None;
     x_failure_code := None; x_failure_message := None; x_result := JNull;
     x_interrupt_ids := []; x_start_authorized_at := None; x_start_token := None;
     x_created_at := 100; x_updated_at := 100; x_task_name := Some (u "nightly") |}.

Definition demo_new : World := new_world demo_limits true.

Definition demo_after (c : command) (w : World) : World := (run c w).2.

(** The task is created, then two executions are queued. *)
Definition demo_created : World :=
  demo_after (CreateTask demo_task (Some (u "r1")) (u "d1")) demo_new.

Definition demo_queued_first : World :=
  demo_after (EnqueueExecution (demo_execution (u "e1")) (u "k1") None (u "") (PyInt 1))
    demo_created.

Definition demo_queued : World :=
  demo_after (EnqueueExecution (demo_execution (u "e2")) (u "k2") None (u "") (PyInt 1))
    demo_queued_first.

Lemma demo_fresh_execution id : fresh_execution (demo_execution id).
Proof. repeat split. Qed.

(** A worker claims one of them and starts it. *)
Definition demo_claimed : World :=
  demo_after (ClaimWork (u "ns") (u "worker") 1 500 4) demo_queued.

Definition demo_claim : WorkItemClaim :=
  {| c_work_item_id := random_token 0; c_namespace := u "ns"; c_execution_id := u "e1";
     c_kind := EXECUTE; c_claim_token := random_token 2; c_fence := 1; c_lease_until := 1520 |}.

Definition demo_started : World :=
  demo_after (AuthorizeStart demo_claim 600) demo_claimed.

Definition demo_finished : World :=
  demo_after (FinishExecution demo_claim SUCCEEDED (JInt 7) None None) demo_started.

Example demo_claim_is_handed_out :
  match (claim_work (u "ns") (u "worker") 1 500 4 demo_queued).1 with
  | Ok b => claims b = [demo_claim]
  | Raise _ => False
  end.
Proof. vm_compute. reflexivity. Qed.

Example demo_start_is_authorized :
  match (authorize_start demo_claim 600 demo_claimed).1 with
  | Ok a => x_status (authorized_execution a) = RUNNING
  | Raise _ => False
  end.
Proof. vm_compute. reflexivity. Qed.

(** A lease that ends beyond the last instant: the call fails, and the item stays claimed
    without a lease, its execution admitted; however late the next claim, it recovers
    nothing. *)
Definition demo_stranded : World :=
  demo_after (ClaimWork (u "ns") (u "worker") 1 (max_ordinal * us_per_day) 4) demo_queued_first.

Example overflow_strands_the_item :
  (run (ClaimWork (u "ns") (u "worker") 1 (max_ordinal * us_per_day) 4) demo_queued_first).1 =
    Raise OverflowError /\
  map (fun w0 => (w_status w0, w_worker_id w0, w_lease_until w0)) (dvals (s_work (store demo_stranded))) =
    [(CLAIMED, Some (u "worker"), None)] /\
  bool_decide (u "e1" ∈ s_admitted (store demo_stranded)) = true /\
  s_work (store (demo_after (ClaimWork (u "ns") (u "other") 1 500 4)
    (set_clock_reads 5000 demo_stranded))) = s_work (store demo_stranded).
Proof. vm_compute. tauto. Qed.

(** ** Reachability *)

Lemma demo_reach_new : reachable demo_new.
Proof. exists demo_limits, true. split; [reflexivity|apply rtc_refl]. Qed.

Lemma demo_reach_created : reachable demo_created.
Proof. apply reachable_step; [apply demo_reach_new|done]. Qed.

Lemma demo_reach_queued : reachable demo_queued.
Proof.
  apply reachable_step; [|done]. apply reachable_step; [|done]. apply demo_reach_created.
Qed.

Lemma demo_reach_claimed : reachable demo_claimed.
Proof. apply reachable_step; [apply demo_reach_queued|done]. Qed.

Lemma demo_reach_started : reachable demo_started.
Proof. apply reachable_step; [apply demo_reach_claimed|done]. Qed.

Lemma demo_reach_finished : reachable demo_finished.
Proof. apply reachable_step; [apply demo_reach_started|done]. Qed.

Lemma demo_later c w : admissible c w -> later w (demo_after c w).
Proof. intros H. apply rtc_once. by exists c. Qed.

Implicit Types (s : Store) (x : AutomationExecution) (w : World).

(** ** Definitions *)

(** The admitted executions of a namespace. *)
Definition admitted_executions (ns : pystr) (s : Store) : Z :=
  count (fun x => bool_decide (x_execution_id x ∈ s_admitted s) &&
                  bool_decide (x_namespace x = ns)) (dvals (s_executions s)).

Section history.
Context {runtime : Runtime} {codec : CursorCodec}.

(** Histories whose claims ask for at most [G] concurrent executions. *)
Definition claims_within (G : Z) (c : command) : Prop :=
  match c with ClaimWork _ _ _ _ g => g <= G | _ => True end.

Definition bounded_step (G : Z) (w w' : World) : Prop :=
  exists c, admissible c w /\ claims_within G c /\ w' = (run c w).2.

Definition bounded_history (G : Z) (w : World) : Prop :=
  exists limits notifications,
    MemoryStoreLimits_post_init limits = Ok tt /\
    rtc (bounded_step G) (new_world limits notifications) w.

(** A command that a claim's holder issues. *)
Inductive holds_claim (claim : WorkItemClaim) : command -> Prop :=
| holds_renew d : 0 < d -> holds_claim claim (RenewClaim claim d)
| holds_authorize d : 0 < d -> holds_claim claim (AuthorizeStart claim d)
| holds_interrupt ids : ids <> [] -> holds_claim claim (MarkInterrupted claim ids)
| holds_finish st r fc fm : not_settled st = false ->
    holds_claim claim (FinishExecution claim st r fc fm).
End history.

Section helpers.
Context {runtime : Runtime} {codec : CursorCodec} {fresh : FreshTokens}.

(** ** Admission over histories *)

Lemma admitted_executions_key ns s :
  admitted_in (ns, u "global", u "global") s = admitted_executions ns s.
Proof.
  unfold admitted_in, admitted_executions. apply count_ext. intros x _. unfold counts_in.
  f_equal. rewrite (bool_decide_eq_false_2 (scope_key x = _)), orb_false_r.
  - apply bool_decide_ext. unfold global_key. split; [by intros [= ?]|by intros ->].
  - unfold scope_key, execution_scope. destruct (x_task_id x); intros [= ? E _];
      vm_compute in E; congruence.
Qed.

(** Executions stay, so fewer admitted identifiers mean fewer admitted executions. *)
Lemma admitted_executions_less ns s s' :
  wf s -> wf s' -> evolves s s' -> s_admitted s' ⊆ s_admitted s ->
  admitted_executions ns s' <= admitted_executions ns s.
Proof.
  intros Hwf Hwf' He Hsub. unfold admitted_executions, count.
  set (f := fun s x => bool_decide (x_execution_id x ∈ s_admitted s) &&
                       bool_decide (x_namespace x = ns)).
  assert (forall s0 : Store, wf s0 -> NoDup (map x_execution_id (List.filter (f s0) (dvals (s_executions s0))))
    /\ forall id, id ∈ map x_execution_id (List.filter (f s0) (dvals (s_executions s0))) <->
         exists x, dget (s_executions s0) id = Some x /\ f s0 x = true) as Hids.
  { intros s0 Hwf0. split.
    - eapply sublist_NoDup; [apply (wf_executions _ Hwf0)|].
      assert (dkeys (s_executions s0) = map x_execution_id (dvals (s_executions s0))) as ->.
      { unfold dvals, dkeys. rewrite map_map. apply map_ext_in. intros [k v] Hin. symmetry.
        apply (wf_execution _ Hwf0 k v), elem_of_dget; [apply Hwf0|]. by apply list_elem_of_In. }
      apply sublist_map. generalize (dvals (s_executions s0)). induction l; simpl; [constructor|].
      destruct (f s0 _); by constructor.
    - intros id. rewrite list_elem_of_In, in_map_iff. split.
      + intros (x & <- & Hx). apply List.filter_In in Hx as [Hx Hf].
        apply list_elem_of_In, elem_of_dvals in Hx as [k Hk]; [|apply Hwf0].
        destruct (wf_execution _ Hwf0 _ _ Hk) as [-> _]. eauto.
      + intros (x & Hx & Hf). destruct (wf_execution _ Hwf0 _ _ Hx) as [<- _]. exists x.
        split; [done|]. apply List.filter_In. split; [|done].
        apply list_elem_of_In. by eapply dget_elem_of_dvals. }
  destruct (Hids s Hwf) as [_ H1]. destruct (Hids s' Hwf') as [Hnd H2].
  rewrite <-(length_map x_execution_id (List.filter (f s') _)).
  rewrite <-(length_map x_execution_id (List.filter (f s) _)).
  apply Nat2Z.inj_le, submseteq_length, NoDup_submseteq; [done|].
  intros id (x' & Hx' & Hf)%H2. apply H1. unfold f in Hf. bool_prop.
  destruct (wf_execution _ Hwf' _ _ Hx') as [Hid _]. rewrite Hid in H.
  destruct (wf_admitted _ Hwf id) as [x Hx]; [by apply Hsub|].
  destruct (ev_execution _ _ He _ _ Hx) as (y & Hy & Hs & _). rewrite Hx' in Hy. injection Hy as <-.
  exists x. split; [done|]. unfold f. destruct (wf_execution _ Hwf _ _ Hx) as [-> _].
  destruct Hs as (_ & _ & -> & _). rewrite !bool_decide_eq_true_2; [done|done|by apply Hsub].
Qed.

Lemma run_admission c ns G w :
  winv w -> admissible c w -> claims_within G c ->
  admitted_executions ns (store (run c w).2) <= Z.max (admitted_executions ns (store w)) G.
Proof.
  intros Hw Ha Hc.
  assert ((forall n wk l d g, c <> ClaimWork n wk l d g) \/ exists n wk l d g, c = ClaimWork n wk l d g)
    as [Hno|(n & wk & l & d & g & ->)] by (destruct c; naive_solver).
  - destruct (run_follows c w Hw Ha) as [H1 [H2 _]].
    pose proof (run_admits_less c Hno w) as Hsub.
    etransitivity; [apply (admitted_executions_less ns (store w)); [apply Hw|apply H1|done|done]|].
    lia.
  - simpl in Hc. pose proof (run_follows _ w Hw Ha) as [Hw' _].
    rewrite <-!admitted_executions_key.
    rewrite <-(proj1 (inv_accounted _ (wi_inv _ Hw) _)),
      <-(proj1 (inv_accounted _ (wi_inv _ Hw') _)).
    assert (wp (claim_work n wk l d g) w (fun _ w' => forall ns',
      global_allocated ns' (store w') <= Z.max (global_allocated ns' (store w)) g)) as Hg.
    { by apply claim_work_admission. }
    unfold wp in Hg. specialize (Hg ns). unfold global_allocated in Hg. simpl. unfold void, bind, ret.
    destruct (claim_work n wk l d g w) as [[b|e] w1]; simpl in *; lia.
Qed.

(** ** Starts *)

Lemma authorize_start_result claim d w :
  winv w -> wp (authorize_start claim d) w (fun r w' => forall a, r = Ok a ->
    exists x, dget (s_executions (store w)) (c_execution_id claim) = Some x /\
      x_execution_id x = c_execution_id claim /\ x_status x = QUEUED /\
      x_start_authorized_at x = None /\ x_execution_id x ∈ s_admitted (store w) /\
      same_static x (authorized_execution a) /\
      x_status (authorized_execution a) = RUNNING /\
      is_Some (x_start_authorized_at (authorized_execution a)) /\
      dget (s_executions (store w')) (c_execution_id claim) = Some (authorized_execution a)).
Proof.
  intros Hw. unfold authorize_start. apply wp_bind, wp_raise_if; intros _; [done|].
  apply wp_mutation. set (w0 := set_changes [] w).
  apply wp_bind, wp_valid_claim; [|done].
  intros i z w1 H0 _ _ _ Hix _ _ _ _ Es Er _. unfold from_store, on_store, change_execution, add_change.
  destruct (work_item_execution w _ i Hw H0) as (x & Hx & Hid & _).
  eapply wp_bind, wp_get_execution; [by rewrite Es|].
  apply wp_bind, wp_gets, wp_bind, wp_now. intros z2 w2 Es2 _ _ _ _ _.
  apply wp_bind, wp_fresh_token. intros w3 Es3 _ _ _ _. apply wp_bind, wp_lift.
  destruct (AutoRules.authorize_start _ _ _ _ _ _) as [a|e] eqn:Ha; [|done].
  apply authorize_start_spec in Ha as (Hk & Hsa & Hq & Hadm & Hs & Hv & Hst & Hsa' & Hdl & _).
  unfold id in Hadm. bool_prop. rewrite Es in Hadm.
  apply wp_bind, wp_modify, wp_bind, wp_modify, wp_bind, wp_lift.
  unfold snapshot_execution. rewrite replace_execution_valid by done. apply wp_ret.
  intros b [= <-]. exists x. rewrite <-Hix, <-Hid in *. tsplit; try done; simpl; rewrite ?Hsa'; eauto.
  by rewrite dget_dset_eq.
Qed.

(** ** Stale claims *)

Lemma valid_claim_stale claim w (w0 : WorkItem) :
  dget (s_work (store w)) (c_work_item_id claim) = Some w0 -> w_fence w0 <> c_fence claim ->
  s_closed (store w) = false ->
  wp (valid_claim claim) w (fun r w' => r = Raise ClaimLostError /\ store w' = store w).
Proof.
  intros H0 Hf Hop. unfold valid_claim, ensure_open, from_store. apply wp_bind, wp_bind, wp_gets.
  rewrite Hop. apply wp_ret, wp_bind, wp_gets, wp_bind, wp_now. intros z w' Es _ _ _ _ _.
  rewrite H0. apply wp_bind, wp_raise_if; [done|]. intros Hb. bool_prop. congruence.
Qed.

Lemma wp_bind_raises {A B} (m : M World exn A) (f : A -> M World exn B) w e (P : World -> Prop) :
  wp m w (fun r w' => r = Raise e /\ P w') -> wp (bind m f) w (fun r w' => r = Raise e /\ P w').
Proof. unfold wp, bind. destruct (m w) as [[a|e'] w']; simpl; intros [[=] ?]; by subst. Qed.

Lemma mutation_raises {A} (body : M World exn A) w e (P : Store -> Prop) :
  wp body (set_changes [] w) (fun r w' => r = Raise e /\ P (store w')) ->
  wp (mutation body) w (fun r w' => r = Raise e /\ P (store w')).
Proof.
  intros H. apply wp_mutation. eapply wp_mono; [exact H|]. intros r w' [-> ?]. done.
Qed.

Lemma holder_stale claim cmd w (w0 : WorkItem) :
  holds_claim claim cmd ->
  dget (s_work (store w)) (c_work_item_id claim) = Some w0 -> w_fence w0 <> c_fence claim ->
  s_closed (store w) = false ->
  wp (run cmd) w (fun r w' => r = Raise ClaimLostError /\ store w' = store w).
Proof.
  intros Hc H0 Hf Hop.
  assert (forall w1, store w1 = store w ->
    wp (valid_claim claim) w1 (fun r w' => r = Raise ClaimLostError /\ store w' = store w)) as Hv.
  { intros w1 Es. rewrite <-Es. apply (valid_claim_stale claim w1 w0); by rewrite ?Es. }
  destruct Hc as [d Hd|d Hd|ids Hids|st r fc fm Hst]; unfold run, void;
    apply wp_bind_raises; unfold renew_claim, authorize_start, mark_interrupted, finish_execution.
  - apply wp_bind, wp_raise_if; intros Hb; bool_prop; [lia|]. by apply wp_bind_raises, Hv.
  - apply wp_bind, wp_raise_if; intros Hb; bool_prop; [lia|].
    apply (mutation_raises _ _ _ (fun s => s = store w)). by apply wp_bind_raises, Hv.
  - apply wp_bind, wp_raise_if; intros Hb; bool_prop; [done|].
    apply (mutation_raises _ _ _ (fun s => s = store w)). by apply wp_bind_raises, Hv.
  - rewrite Hst. apply wp_bind, wp_ret.
    apply (mutation_raises _ _ _ (fun s => s = store w)). by apply wp_bind_raises, Hv.
Qed.

(** A claim that returns had valid arguments and an open store. *)
Lemma claim_work_ok_arguments ns worker limit duration g w b w' :
  claim_work ns worker limit duration g w = (Ok b, w') ->
  claim_arguments ns worker limit duration g /\ s_closed (store w) = false.
Proof.
  cut (wp (claim_work ns worker limit duration g) w (fun r _ => forall b, r = Ok b ->
    claim_arguments ns worker limit duration g /\ s_closed (store w) = false)).
  { intros H E. by apply (wp_elim _ _ _ _ _ H E b). }
  unfold claim_work, claim_arguments, text_valid. apply wp_bind, wp_lift.
  destruct (validate_persisted_text (PyStr ns) _) as [[]|]; [|done]. apply wp_bind, wp_lift.
  destruct (validate_persisted_text (PyStr worker) _) as [[]|]; [|done].
  apply wp_bind, wp_raise_if; intros H1; [done|]. apply wp_bind, wp_raise_if; intros H2; [done|].
  apply wp_bind, wp_raise_if; intros H3; [done|]. bool_prop. apply wp_mutation.
  unfold ensure_open, from_store. apply wp_bind, wp_bind, wp_gets, wp_raise_if; intros Hop; [done|].
  apply wp_intro. intros r w1 _. destruct r; [|done]. intros b' _. simpl in Hop. tsplit; done.
Qed.
End helpers.

(** ** Properties *)

Section properties.
Context {runtime : Runtime} {codec : CursorCodec} {fresh : FreshTokens}.

(** C28: whatever calls are made, in whatever order and with whatever outcome, as long as
    the executions handed to the store are new ([admissible], which the service
    guarantees), the store keeps its invariant: the dictionaries index their records by
    their own identifiers, every record passes its validation, an execution has at most
    one live work item and that item agrees with the execution's status, a claimed item
    carries the token of its claim - but not always a lease, as one may be missing after
    an overflow - admitted executions are exactly those the allocation counters count,
    and every collection stays within its limit. *)
Theorem store_invariant w : reachable w -> inv (store w).
Proof. intros H. apply reachable_winv in H. apply H. Qed.

(** C1: when no call of [claim_work] asks for more than [G] concurrent
    executions, no history ever has more than [G] executions of a namespace
    admitted at once; the allocations made by different workers add up. *)
Theorem concurrency_bound G w :
  1 <= G -> bounded_history G w -> forall ns, admitted_executions ns (store w) <= G.
Proof.
  intros HG (limits & n & Hl & Hrtc) ns. apply (new_world_winv _ n) in Hl.
  assert (admitted_executions ns (store (new_world limits n)) <= G) as H0.
  { unfold admitted_executions, count. simpl. lia. }
  revert Hl H0. generalize (new_world limits n) Hrtc. clear Hrtc. intros w0 Hrtc.
  induction Hrtc as [w1|w1 w2 w3 (c & Ha & Hc & ->) _ IH]; intros Hw H0; [done|].
  apply IH; [apply (run_follows c w1 Hw Ha)|].
  pose proof (run_admission c ns G w1 Hw Ha Hc). lia.
Qed.

(** C27: a call that raises publishes nothing and leaves the store exactly as it was,
    whichever check failed and however late, with one exception: a [claim_work] whose
    lease would end beyond the last instant, so that it fails with OverflowError after
    it has taken its first item ([overflow_strands_the_item]).  The executions handed to
    the store are new ([admissible]). *)
Theorem raising_call_changes_nothing c w e w' :
  reachable w -> admissible c w -> run c w = (Raise e, w') ->
  published w' = published w /\
  (store w' = store w \/
   e = OverflowError /\ exists ns worker limit duration g,
     c = ClaimWork ns worker limit duration g /\
     lease_overflows duration w).
Proof.
  intros Hw Ha Hr. apply reachable_winv in Hw. split.
  - destruct (run_announces c w) as (l & El & Hl & _). rewrite Hr in El, Hl. simpl in *.
    rewrite El, Hl, app_nil_r; eauto.
  - destruct (wp_elim _ _ _ _ _ (run_has_outcome c w Hw Ha) Hr)
      as [[_ H]|(ns & worker & limit & d & g & -> & _ & [= ->] & Ho)]; [left; by apply (H e)|].
    right. split; [done|]. by exists ns, worker, limit, d, g.
Qed.

(** a call publishes only after it has changed the store for good: what it
    adds to the published hints is empty when it raises or when the store has no
    change service, and never holds two hints for the same record. *)
Theorem hints_follow_commits c w :
  exists l, published (run c w).2 = published w ++ l /\
    ((exists e, (run c w).1 = Raise e) -> l = []) /\
    (s_notifications (store w) = false -> l = []) /\
    NoDup (map address l).
Proof. apply run_announces. Qed.

(** [claim_work] with valid arguments on an open store returns when the lease it gives
    ends within the range of instants.  The
    claims are distinct, at most as many as asked for, each is held by the work
    item it names with a new fence and the lease from the store's clock, and the
    namespace's admissions stay within the larger of what they were and the
    requested bound. *)
Theorem claim_work_returns ns worker limit duration g w :
  reachable w -> claim_arguments ns worker limit duration g -> s_closed (store w) = false ->
  in_range (clock_now (clock_reads w) + duration) = true ->
  exists b w', claim_work ns worker limit duration g w = (Ok b, w') /\
    (forall c, c ∈ claims b -> held (store w') c /\ newer (store w) c /\
       c_lease_until c = clock_now (clock_reads w) + duration /\ c_namespace c = ns) /\
    NoDup (map c_work_item_id (claims b)) /\ zlen (claims b) <= limit /\
    admitted_executions ns (store w') <= Z.max (admitted_executions ns (store w)) g.
Proof.
  intros Hw Ha Hop Hr. apply reachable_winv in Hw.
  destruct (claim_work ns worker limit duration g w) as [r w'] eqn:E.
  destruct (wp_elim _ _ _ _ _ (wp_claim_work ns worker limit duration g w Hw) E) as [[Hf _] H].
  apply claim_outcome_follows in Hf as [Hw' _].
  destruct (H Ha Hop) as [(b & -> & Hc & Hn & Hd & Hl & Hg)|[_ Ho]];
    [|unfold lease_overflows in Ho; congruence].
  exists b, w'. split; [done|]. split; [|split; [done|split; [done|]]].
  - intros c Hin. destruct (Hc c Hin) as (? & ? & ?). auto.
  - rewrite <-!admitted_executions_key,
      <-(proj1 (inv_accounted _ (wi_inv _ Hw) _)), <-(proj1 (inv_accounted _ (wi_inv _ Hw') _)).
    exact Hg.
Qed.

(** C2: an execution is started at most once.  After [authorize_start] has
    returned, no later call starts the same execution again, under any claim, and
    the recorded start never changes. *)
Theorem started_at_most_once claim d w a w1 w2 claim' d' r w3 :
  reachable w -> authorize_start claim d w = (Ok a, w1) -> later w1 w2 ->
  c_execution_id claim' = c_execution_id claim ->
  authorize_start claim' d' w2 = (r, w3) ->
  (exists e, r = Raise e) /\
  exists x, dget (s_executions (store w3)) (c_execution_id claim) = Some x /\
    x_start_authorized_at x = x_start_authorized_at (authorized_execution a) /\
    is_Some (x_start_authorized_at x).
Proof.
  intros Hr Ha Hl Ec Ha'. assert (reachable w1) as Hr1.
  { replace w1 with (run (AuthorizeStart claim d) w).2; [by apply reachable_step|].
    simpl. unfold void, bind. by rewrite Ha. }
  pose proof (reachable_winv _ Hr) as Hw.
  destruct (wp_elim _ _ _ _ _ (authorize_start_result claim d w Hw) Ha a eq_refl)
    as (x & Hx & Hid & _ & _ & _ & _ & _ & [z Hz] & Hx1).
  pose proof (later_follows _ _ (reachable_winv _ Hr1) Hl) as [Hw2 [He _]].
  destruct (ev_execution _ _ He _ _ Hx1) as (x2 & Hx2 & _ & _ & Hs2).
  specialize (Hs2 z Hz).
  pose proof (wp_elim _ _ _ _ _ (authorize_start_safe claim' d' w2 Hw2) Ha') as [[_ [He3 _]] Hsame].
  destruct (ev_execution _ _ He3 _ _ Hx2) as (x3 & Hx3 & _ & _ & Hs3).
  specialize (Hs3 z Hs2). split.
  - destruct r as [a'|e]; [|eauto].
    destruct (wp_elim _ _ _ _ _ (authorize_start_result claim' d' w2 Hw2) Ha' a' eq_refl)
      as (y & Hy & _ & _ & Hn & _). rewrite Ec, Hx2 in Hy. injection Hy as <-. congruence.
  - exists x3. rewrite Hz, Hs3. eauto.
Qed.

(** C29: a settled execution (succeeded, failed, timed out or cancelled) is final:
    whatever happens later, its record is the same, field by field. *)
Theorem settled_execution_is_final w w' id x :
  reachable w -> dget (s_executions (store w)) id = Some x -> is_terminal (x_status x) = true ->
  later w w' -> dget (s_executions (store w')) id = Some x.
Proof.
  intros Hr Hx Ht Hl. destruct (later_follows _ _ (reachable_winv _ Hr) Hl) as [_ [He _]].
  destruct (ev_execution _ _ He _ _ Hx) as (x' & Hx' & _ & Hsame & _). by rewrite Hsame in Hx'.
Qed.

(** C3: fencing.  Once [claim_work] has handed out a work item again, the earlier
    claim of that item is rejected by every holder's command, for good, and the
    rejected call changes nothing. *)
Theorem superseded_claim_is_rejected w0 w1 w2 w3 old new ns worker limit duration g b cmd :
  reachable w0 -> held (store w0) old -> later w0 w1 ->
  claim_work ns worker limit duration g w1 = (Ok b, w2) -> new ∈ claims b ->
  c_work_item_id new = c_work_item_id old -> later w2 w3 ->
  s_closed (store w3) = false -> holds_claim old cmd ->
  (run cmd w3).1 = Raise ClaimLostError /\ store (run cmd w3).2 = store w3.
Proof.
  intros Hr0 (i0 & Hi0 & _ & _ & _ & _ & _ & Hf0 & _) Hl1 Hc Hin Eid Hl3 Hop Hcmd.
  pose proof (later_follows _ _ (reachable_winv _ Hr0) Hl1) as [Hw1 [He1 _]].
  destruct (ev_work _ _ He1 _ _ Hi0) as (i1 & Hi1 & _ & _ & Hle1).
  destruct (wp_elim _ _ _ _ _ (wp_claim_work ns worker limit duration g w1 Hw1) Hc)
    as [[[Hw2 _]%claim_outcome_follows _] Hok].
  assert (claim_arguments ns worker limit duration g /\ s_closed (store w1) = false) as [Harg Hop1].
  { by eapply claim_work_ok_arguments. }
  destruct (Hok Harg Hop1) as [(b' & [= <-] & Hh & Hn & _)|[[=] _]].
  destruct (Hh new Hin) as ((i2 & Hi2 & _ & _ & _ & _ & _ & Hf2 & _) & _).
  pose proof (Hn new Hin i1) as Hnew. rewrite Eid in Hnew, Hi2. specialize (Hnew Hi1).
  pose proof (later_follows _ _ Hw2 Hl3) as [_ [He3 _]].
  destruct (ev_work _ _ He3 _ _ Hi2) as (i3 & Hi3 & _ & _ & Hle3).
  pose proof (holder_stale old cmd w3 i3 Hcmd Hi3 ltac:(lia) Hop) as Hs.
  unfold wp in Hs. by destruct (run cmd w3).
Qed.
End properties.

(** ** Witnesses *)

Lemma demo_start_ok :
  exists a, authorize_start demo_claim 600 demo_claimed = (Ok a, demo_started).
Proof.
  unfold demo_started, demo_after, run, void, bind.
  pose proof demo_start_is_authorized as H.
  destruct (authorize_start demo_claim 600 demo_claimed) as [[a|e] w'].
  - exists a. reflexivity.
  - destruct H.
Qed.

(** Time passes: any number of clock readings. *)
Lemma later_wait w n :
  s_closed (store w) = false -> later w (set_clock_reads (n + clock_reads w)%nat w).
Proof.
  intros Hop. induction n as [|n IH].
  { replace (set_clock_reads _ w) with w; [apply rtc_refl|by destruct w]. }
  eapply rtc_r; [exact IH|]. exists CurrentTime. split; [done|].
  simpl. unfold void, bind, current_time, ensure_open, from_store, gets, bind. simpl.
  by rewrite Hop.
Qed.

(** The lease of the first claim runs out before it starts. *)
Definition demo_lapsed : World := set_clock_reads (200 + clock_reads demo_claimed)%nat demo_claimed.

Lemma store_invariant_witness : reachable demo_finished /\ inv (store demo_finished).
Proof. split; [|apply (store_invariant demo_finished)]; apply demo_reach_finished. Defined.

Lemma bounded_after G c w :
  admissible c w -> claims_within G c -> bounded_step G w (demo_after c w).
Proof. intros Ha Hc. by exists c. Qed.

Lemma concurrency_bound_witness :
  admitted_executions (u "ns") (store demo_claimed) = 1 /\
  admitted_executions (u "ns") (store demo_claimed) <= 4.
Proof.
  split; [vm_compute; reflexivity|]. apply (concurrency_bound 4 demo_claimed); [lia|].
  exists demo_limits, true. split; [reflexivity|].
  unfold demo_claimed, demo_queued, demo_queued_first, demo_created.
  do 4 (eapply rtc_r; [|apply bounded_after; [exact I || exact (fun _ => demo_fresh_execution _)|
    exact I || exact (Z.le_refl 4)]]).
  apply rtc_refl.
Defined.

Lemma raising_call_changes_nothing_witness :
  run (CreateTask demo_task None (u "d2")) demo_created =
    (Raise TaskConflictError, (run (CreateTask demo_task None (u "d2")) demo_created).2) /\
  published (run (CreateTask demo_task None (u "d2")) demo_created).2 = published demo_created /\
  store (run (CreateTask demo_task None (u "d2")) demo_created).2 = store demo_created.
Proof.
  assert (run (CreateTask demo_task None (u "d2")) demo_created =
    (Raise TaskConflictError, (run (CreateTask demo_task None (u "d2")) demo_created).2)) as H
    by (vm_compute; reflexivity).
  split; [exact H|].
  destruct (raising_call_changes_nothing (CreateTask demo_task None (u "d2")) demo_created
    TaskConflictError _ demo_reach_created I H) as [Hp [Hs|[He _]]]; [by split|discriminate He].
Defined.

Lemma claim_work_returns_witness :
  exists b w', claim_work (u "ns") (u "worker") 1 500 4 demo_queued = (Ok b, w') /\
    zlen (claims b) <= 1.
Proof.
  destruct (claim_work_returns (u "ns") (u "worker") 1 500 4 demo_queued)
    as (b & w' & H & _ & _ & Hl & _).
  - apply demo_reach_queued.
  - unfold claim_arguments. tsplit; try lia; vm_compute; reflexivity.
  - vm_compute. reflexivity.
  - vm_compute. reflexivity.
  - exists b, w'. split; [exact H|exact Hl].
Defined.

Lemma started_at_most_once_witness :
  exists e, (authorize_start demo_claim 600 demo_started).1 = Raise e.
Proof.
  destruct demo_start_ok as [a Ha].
  destruct (authorize_start demo_claim 600 demo_started) as [r w3] eqn:E. simpl.
  apply (started_at_most_once demo_claim 600 demo_claimed a demo_started demo_started
    demo_claim 600 r w3); [apply demo_reach_claimed|exact Ha|apply rtc_refl|reflexivity|exact E].
Defined.

Lemma settled_execution_is_final_witness :
  exists x, dget (s_executions (store (run Close demo_finished).2)) (u "e1") = Some x /\
    x_status x = SUCCEEDED.
Proof.
  assert (exists x, dget (s_executions (store demo_finished)) (u "e1") = Some x /\
    x_status x = SUCCEEDED) as (x & Hx & Hs) by (vm_compute; eauto).
  exists x. split; [|exact Hs].
  apply (settled_execution_is_final demo_finished _ (u "e1") x demo_reach_finished Hx).
  - rewrite Hs. reflexivity.
  - apply (demo_later Close). exact I.
Defined.

Lemma superseded_claim_is_rejected_witness :
  (run (AuthorizeStart demo_claim 600)
     (run (ClaimWork (u "ns") (u "other") 1 500 4) demo_lapsed).2).1 = Raise ClaimLostError.
Proof.
  assert (match (claim_work (u "ns") (u "other") 1 500 4 demo_lapsed).1 with
          | Ok b => exists new, claims b = [new] /\ c_work_item_id new = c_work_item_id demo_claim
          | Raise _ => False end) as H by (vm_compute; eauto).
  assert (s_closed (store (claim_work (u "ns") (u "other") 1 500 4 demo_lapsed).2) = false) as Hop
    by (vm_compute; reflexivity).
  destruct (claim_work (u "ns") (u "other") 1 500 4 demo_lapsed) as [[b|e] w2] eqn:E;
    [cbn [fst snd] in H, Hop|destruct H].
  destruct H as (new & Hb & Hid).
  assert ((run (ClaimWork (u "ns") (u "other") 1 500 4) demo_lapsed).2 = w2) as ->.
  { unfold run, void, bind. rewrite E. reflexivity. }
  apply (superseded_claim_is_rejected demo_claimed demo_lapsed w2 w2 demo_claim new
    (u "ns") (u "other") 1 500 4 b (AuthorizeStart demo_claim 600)).
  - apply demo_reach_claimed.
  - unfold held. vm_compute. eexists. repeat split.
  - apply later_wait. vm_compute. reflexivity.
  - exact E.
  - rewrite Hb. by left.
  - exact Hid.
  - apply rtc_refl.
  - exact Hop.
  - constructor. lia.
Defined.
