(* ===== verification/AutoCalendar.v ===== *)
(** Automation: the dates schedules.py computes with.

    Instants are microseconds since 0001-01-01T00:00 UTC and local wall-clock
    values are microseconds since 0001-01-01T00:00 of their own calendar, so a
    date is Python's proleptic ordinal minus one days after the origin.
    [datetime] values range over years 1 to 9999; arithmetic that leaves the
    range raises [OverflowError].  The conversion from ordinals to year, month and
    day is the one of Python's [datetime] module. *)
From S2P Require Import Prelude PyDict PySeq Contracts AutoModels.

(** ** Definitions *)

Definition is_leap (y : Z) : bool :=
  (y mod 4 =? 0) && (negb (y mod 100 =? 0) || (y mod 400 =? 0)).

Definition days_before_year (y : Z) : Z :=
  (y - 1) * 365 + (y - 1) / 4 - (y - 1) / 100 + (y - 1) / 400.

(** Days before a month of a year that is not a leap year. *)
Definition days_before_month (m : Z) : Z :=
  nth (Z.to_nat m) [-1; 0; 31; 59; 90; 120; 151; 181; 212; 243; 273; 304; 334] 0.

Definition days_in_month (y m : Z) : Z :=
  if (m =? 2) && is_leap y then 29
  else nth (Z.to_nat m) [-1; 31; 28; 31; 30; 31; 30; 31; 31; 30; 31; 30; 31] 0.

Record Date : Type := { year : Z; month : Z; day : Z }.

(** [date.fromordinal(n)] *)
Definition date_of_ordinal (n : Z) : Date :=
  let n := n - 1 in
  let n400 := n / 146097 in
  let n := n mod 146097 in
  let n100 := n / 36524 in
  let n := n mod 36524 in
  let n4 := n / 1461 in
  let n := n mod 1461 in
  let n1 := n / 365 in
  let n := n mod 365 in
  let y := n400 * 400 + 1 + n100 * 100 + n4 * 4 + n1 in
  if (n1 =? 4) || (n100 =? 4) then {| year := y - 1; month := 12; day := 31 |}
  else
    let leap := (n1 =? 3) && (negb (n4 =? 24) || (n100 =? 3)) in
    let m := Z.shiftr (n + 50) 5 in
    let preceding := days_before_month m + (if (2 <? m) && leap then 1 else 0) in
    if n <? preceding then
      let m' := m - 1 in
      let preceding' := preceding - (nth (Z.to_nat m') [-1; 31; 28; 31; 30; 31; 30; 31; 31; 30; 31; 30; 31] 0
                                     + (if (m' =? 2) && leap then 1 else 0)) in
      {| year := y; month := m'; day := n - preceding' + 1 |}
    else {| year := y; month := m; day := n - preceding + 1 |}.

(** [date(y, m, d).toordinal()] *)
Definition ordinal_of_date (d : Date) : Z :=
  days_before_year (year d) + days_before_month (month d) +
  (if (2 <? month d) && is_leap (year d) then 1 else 0) + day d.

(** [date.weekday()]: Monday is 0. *)
Definition weekday (ordinal : Z) : Z := (ordinal + 6) mod 7.

(** [datetime.date().toordinal()] of a wall-clock value. *)
Definition ordinal_of (local : Z) : Z := local / us_per_day + 1.

(** [datetime.combine(day, time(hour, minute))] *)
Definition combine (ordinal hour minute : Z) : Z :=
  (ordinal - 1) * us_per_day + hour * us_per_hour + minute * us_per_minute.

(** ** Lemmas *)

(** Fields of a position within a year, checked for all 366 of them. *)
Definition day_of_year_ok (leap : bool) (n : Z) : bool :=
  let m := Z.shiftr (n + 50) 5 in
  let preceding := days_before_month m + (if (2 <? m) && leap then 1 else 0) in
  let '(m, preceding) :=
    if n <? preceding then
      let m' := m - 1 in
      (m', preceding - (nth (Z.to_nat m') [-1; 31; 28; 31; 30; 31; 30; 31; 31; 30; 31; 30; 31] 0
                        + (if (m' =? 2) && leap then 1 else 0)))
    else (m, preceding) in
  (1 <=? m) && (m <=? 12) && (1 <=? n - preceding + 1) &&
  (n - preceding + 1 <=? (if (m =? 2) && leap then 29 else
     nth (Z.to_nat m) [-1; 31; 28; 31; 30; 31; 30; 31; 31; 30; 31; 30; 31] 0)) &&
  (preceding =? days_before_month m + (if (2 <? m) && leap then 1 else 0)).

Lemma day_of_year_all (leap : bool) n :
  0 <= n < 365 + (if leap then 1 else 0) -> day_of_year_ok leap n = true.
Proof.
  intros Hn.
  assert (forallb (fun k => day_of_year_ok leap (Z.of_nat k))
    (seq 0 (if leap then 366 else 365)) = true) as H by (destruct leap; vm_compute; reflexivity).
  rewrite forallb_forall in H. specialize (H (Z.to_nat n)). rewrite Z2Nat.id in H by lia.
  apply H, in_seq. destruct leap; lia.
Qed.

(** The parts of Python's division by cycles. *)
Record cycles (n n400 n100 n4 n1 r : Z) : Prop := {
  cy_sum : n - 1 = n400 * 146097 + n100 * 36524 + n4 * 1461 + n1 * 365 + r;
  cy_400 : 0 <= n400;
  cy_100 : 0 <= n100 <= 4;
  cy_4 : 0 <= n4 <= 24;
  cy_1 : 0 <= n1 <= 4;
  cy_r : 0 <= r < 365;
  cy_last100 : n100 = 4 -> n4 = 0 /\ n1 = 0 /\ r = 0;
  cy_last1 : n1 = 4 -> r = 0;
  cy_24 : n4 = 24 -> n100 <> 3 -> n1 * 365 + r < 1460
}.

Lemma cycles_of n : 1 <= n ->
  cycles n ((n - 1) / 146097) (((n - 1) mod 146097) / 36524)
    ((((n - 1) mod 146097) mod 36524) / 1461)
    (((((n - 1) mod 146097) mod 36524) mod 1461) / 365)
    (((((n - 1) mod 146097) mod 36524) mod 1461) mod 365).
Proof.
  intros Hn. set (a := n - 1). assert (0 <= a) by lia.
  pose proof (Z.div_mod a 146097 ltac:(lia)). pose proof (Z.mod_pos_bound a 146097 ltac:(lia)).
  set (b := a mod 146097) in *.
  pose proof (Z.div_mod b 36524 ltac:(lia)). pose proof (Z.mod_pos_bound b 36524 ltac:(lia)).
  set (c := b mod 36524) in *.
  pose proof (Z.div_mod c 1461 ltac:(lia)). pose proof (Z.mod_pos_bound c 1461 ltac:(lia)).
  set (d := c mod 1461) in *.
  pose proof (Z.div_mod d 365 ltac:(lia)). pose proof (Z.mod_pos_bound d 365 ltac:(lia)).
  set (e := d mod 365) in *.
  pose proof (Z.div_pos a 146097 ltac:(lia) ltac:(lia)).
  split; nia.
Qed.

Lemma days_before_year_cycles n400 n100 n4 n1 :
  0 <= n100 < 4 -> 0 <= n4 <= 24 -> 0 <= n1 < 4 ->
  days_before_year (n400 * 400 + 1 + n100 * 100 + n4 * 4 + n1) =
  n400 * 146097 + n100 * 36524 + n4 * 1461 + n1 * 365.
Proof.
  intros H1 H2 H3. unfold days_before_year.
  replace (n400 * 400 + 1 + n100 * 100 + n4 * 4 + n1 - 1)
    with (n400 * 400 + n100 * 100 + n4 * 4 + n1) by lia.
  set (y := n400 * 400 + n100 * 100 + n4 * 4 + n1).
  assert (y / 4 = n400 * 100 + n100 * 25 + n4) as -> by (symmetry; apply (Z.div_unique _ _ _ n1); lia).
  assert (y / 100 = n400 * 4 + n100) as ->
    by (symmetry; apply (Z.div_unique _ _ _ (n4 * 4 + n1)); lia).
  assert (y / 400 = n400) as ->
    by (symmetry; apply (Z.div_unique _ _ _ (n100 * 100 + n4 * 4 + n1)); lia).
  lia.
Qed.

Lemma is_leap_cycles n400 n100 n4 n1 :
  0 <= n100 < 4 -> 0 <= n4 <= 24 -> 0 <= n1 < 4 ->
  is_leap (n400 * 400 + 1 + n100 * 100 + n4 * 4 + n1) =
  (n1 =? 3) && (negb (n4 =? 24) || (n100 =? 3)).
Proof.
  intros H1 H2 H3. unfold is_leap. set (y := n400 * 400 + 1 + n100 * 100 + n4 * 4 + n1).
  assert (y mod 4 = (n1 + 1) mod 4) as ->.
  { symmetry. apply (Z.mod_unique _ _ (n400 * 100 + n100 * 25 + n4 + (n1 + 1) / 4)).
    - left. apply Z.mod_pos_bound. lia.
    - pose proof (Z.div_mod (n1 + 1) 4 ltac:(lia)). lia. }
  assert (y mod 100 = (n4 * 4 + n1 + 1) mod 100) as ->.
  { symmetry. apply (Z.mod_unique _ _ (n400 * 4 + n100 + (n4 * 4 + n1 + 1) / 100)).
    - left. apply Z.mod_pos_bound. lia.
    - pose proof (Z.div_mod (n4 * 4 + n1 + 1) 100 ltac:(lia)). lia. }
  assert (y mod 400 = (n100 * 100 + n4 * 4 + n1 + 1) mod 400) as ->.
  { symmetry. apply (Z.mod_unique _ _ (n400 + (n100 * 100 + n4 * 4 + n1 + 1) / 400)).
    - left. apply Z.mod_pos_bound. lia.
    - pose proof (Z.div_mod (n100 * 100 + n4 * 4 + n1 + 1) 400 ltac:(lia)). lia. }
  assert (n1 = 0 \/ n1 = 1 \/ n1 = 2 \/ n1 = 3) as [->|[->|[->| ->]]] by lia; try reflexivity.
  simpl ((3 =? 3) && _). replace ((3 + 1) mod 4 =? 0) with true by reflexivity. simpl.
  destruct (n4 =? 24) eqn:E.
  - apply Z.eqb_eq in E. subst n4.
    assert (n100 = 0 \/ n100 = 1 \/ n100 = 2 \/ n100 = 3) as [->|[->|[->| ->]]] by lia; reflexivity.
  - apply Z.eqb_neq in E. replace ((n4 * 4 + 3 + 1) mod 100 =? 0) with false; [done|].
    symmetry. apply Z.eqb_neq. rewrite Z.mod_small by lia. lia.
Qed.

(** The date of an ordinal, in terms of the cycles. *)
Lemma date_of_ordinal_fields n :
  1 <= n ->
  let d := date_of_ordinal n in
  exists k, n = days_before_year (year d) + k + 1 /\
    0 <= k < 365 + (if is_leap (year d) then 1 else 0) /\
    1 <= month d <= 12 /\ 1 <= day d <= days_in_month (year d) (month d) /\
    k = days_before_month (month d) + (if (2 <? month d) && is_leap (year d) then 1 else 0)
        + day d - 1.
Proof.
  intros Hn. destruct (cycles_of n Hn) as [Hsum H400 Hn100 Hn4 Hn1 Hr L100 L1 L24].
  unfold date_of_ordinal.
  set (n400 := (n - 1) / 146097) in *. set (n100 := ((n - 1) mod 146097) / 36524) in *.
  set (n4 := (((n - 1) mod 146097) mod 36524) / 1461) in *.
  set (n1 := ((((n - 1) mod 146097) mod 36524) mod 1461) / 365) in *.
  set (r := ((((n - 1) mod 146097) mod 36524) mod 1461) mod 365) in *.
  clearbody n400 n100 n4 n1 r. destruct ((n1 =? 4) || (n100 =? 4)) eqn:Elast.
  - simpl. set (y := n400 * 400 + 1 + n100 * 100 + n4 * 4 + n1 - 1). exists 365.
    assert (days_before_year y = n - 366 /\ is_leap y = true) as [Hd Hl].
    { apply orb_true_iff in Elast. rewrite !Z.eqb_eq in Elast.
      destruct (decide (n100 = 4)) as [->|H100].
      - destruct L100 as (-> & -> & ->); [done|].
        replace y with (n400 * 400 + 1 + 3 * 100 + 24 * 4 + 3) by (subst y; lia).
        rewrite days_before_year_cycles, is_leap_cycles by lia. split; [lia|reflexivity].
      - assert (n1 = 4) as -> by naive_solver. pose proof (L1 eq_refl) as ->.
        assert (n4 <> 24 \/ n100 = 3) as H24.
        { destruct (decide (n4 = 24)) as [->|]; [|auto]. right.
          destruct (decide (n100 = 3)) as [|H3]; [done|]. specialize (L24 eq_refl H3). lia. }
        replace y with (n400 * 400 + 1 + n100 * 100 + n4 * 4 + 3) by (subst y; lia).
        rewrite days_before_year_cycles, is_leap_cycles by lia. split; [lia|].
        simpl. destruct H24 as [H24| ->]; [|by rewrite orb_true_r].
        apply Z.eqb_neq in H24. by rewrite H24. }
    rewrite Hl. split; [lia|]. split; [lia|]. split; [lia|]. split; [|reflexivity].
    unfold days_in_month. simpl. lia.
  - apply orb_false_iff in Elast. rewrite !Z.eqb_neq in Elast. destruct Elast as [E1 E100].
    set (y := n400 * 400 + 1 + n100 * 100 + n4 * 4 + n1).
    set (leap := (n1 =? 3) && (negb (n4 =? 24) || (n100 =? 3))).
    assert (is_leap y = leap) as Hl by (apply is_leap_cycles; lia).
    assert (days_before_year y = n - 1 - r) as Hd.
    { unfold y. rewrite days_before_year_cycles by lia. lia. }
    assert (day_of_year_ok leap r = true) as Hk by (apply day_of_year_all; destruct leap; lia).
    unfold day_of_year_ok in Hk. cbv zeta in Hk. exists r.
    destruct (r <? _) eqn:Er; cbn [year month day]; rewrite Hl;
      repeat (apply andb_prop in Hk as [Hk ?]); bool_prop; unfold days_in_month; rewrite Hl;
      (split; [lia|]; split; [destruct leap; lia|]; split; [lia|]; split; [|lia]; split; [lia|done]).
Qed.

Lemma days_before_year_step y :
  days_before_year (y + 1) = days_before_year y + 365 + (if is_leap y then 1 else 0).
Proof.
  unfold days_before_year, is_leap. replace (y + 1 - 1) with ((y - 1) + 1) by lia.
  set (a := y - 1). replace y with (a + 1) by lia.
  assert (forall m, 0 < m -> (a + 1) / m = a / m + (if (a + 1) mod m =? 0 then 1 else 0)) as H.
  { intros m Hm. pose proof (Z.div_mod a m ltac:(lia)). pose proof (Z.mod_pos_bound a m Hm).
    pose proof (Z.div_mod (a + 1) m ltac:(lia)). pose proof (Z.mod_pos_bound (a + 1) m Hm).
    destruct ((a + 1) mod m =? 0) eqn:E; [apply Z.eqb_eq in E|apply Z.eqb_neq in E]; nia. }
  rewrite !H by lia.
  pose proof (Z.div_mod (a + 1) 400 ltac:(lia)) as D400. pose proof (Z.mod_pos_bound (a + 1) 400 ltac:(lia)).
  pose proof (Z.div_mod (a + 1) 100 ltac:(lia)) as D100. pose proof (Z.mod_pos_bound (a + 1) 100 ltac:(lia)).
  pose proof (Z.div_mod (a + 1) 4 ltac:(lia)) as D4. pose proof (Z.mod_pos_bound (a + 1) 4 ltac:(lia)).
  destruct ((a + 1) mod 4 =? 0) eqn:E4, ((a + 1) mod 100 =? 0) eqn:E100,
    ((a + 1) mod 400 =? 0) eqn:E400; simpl; bool_prop; lia.
Qed.

Lemma days_before_year_mono y z : y <= z -> days_before_year y <= days_before_year z.
Proof.
  intros H. unfold days_before_year.
  replace (z - 1) with ((y - 1) + (z - y)) by lia. set (a := y - 1). set (k := z - y).
  assert (0 <= k) by lia. clearbody a k. clear H.
  pose proof (Z.div_mod a 4 ltac:(lia)). pose proof (Z.mod_pos_bound a 4 ltac:(lia)).
  pose proof (Z.div_mod (a + k) 4 ltac:(lia)). pose proof (Z.mod_pos_bound (a + k) 4 ltac:(lia)).
  pose proof (Z.div_mod a 100 ltac:(lia)). pose proof (Z.mod_pos_bound a 100 ltac:(lia)).
  pose proof (Z.div_mod (a + k) 100 ltac:(lia)). pose proof (Z.mod_pos_bound (a + k) 100 ltac:(lia)).
  pose proof (Z.div_mod a 400 ltac:(lia)). pose proof (Z.mod_pos_bound a 400 ltac:(lia)).
  pose proof (Z.div_mod (a + k) 400 ltac:(lia)). pose proof (Z.mod_pos_bound (a + k) 400 ltac:(lia)).
  nia.
Qed.

(** The year of a date bounds its ordinal, and the ordinal fixes the year. *)
Lemma year_bounds n :
  1 <= n ->
  days_before_year (year (date_of_ordinal n)) < n <= days_before_year (year (date_of_ordinal n) + 1).
Proof.
  intros Hn. destruct (date_of_ordinal_fields n Hn) as (k & E & Hk & _).
  rewrite days_before_year_step. destruct (is_leap _); lia.
Qed.

Lemma year_le n y : 1 <= n -> year (date_of_ordinal n) <= y <-> n <= days_before_year (y + 1).
Proof.
  intros Hn. pose proof (year_bounds n Hn) as [H1 H2]. split; intros H.
  - pose proof (days_before_year_mono (year (date_of_ordinal n) + 1) (y + 1) ltac:(lia)). lia.
  - destruct (decide (year (date_of_ordinal n) <= y)) as [|Hgt]; [done|].
    pose proof (days_before_year_mono (y + 1) (year (date_of_ordinal n)) ltac:(lia)). lia.
Qed.

(** Converting an ordinal to a date and back. *)
Lemma ordinal_of_date_of_ordinal n : 1 <= n -> ordinal_of_date (date_of_ordinal n) = n.
Proof.
  intros Hn. destruct (date_of_ordinal_fields n Hn) as (k & E & _ & _ & _ & Ek).
  unfold ordinal_of_date. lia.
Qed.

Lemma year_pos n : 1 <= n -> 1 <= year (date_of_ordinal n).
Proof.
  intros Hn. destruct (decide (1 <= year (date_of_ordinal n))) as [|H]; [done|].
  assert (n <= days_before_year (0 + 1)) as Hle by (apply year_le; lia).
  change (days_before_year (0 + 1)) with 0 in Hle. lia.
Qed.

(** A wall-clock value split into its day and time of day. *)
Lemma ordinal_of_combine o h m :
  0 <= h < 24 -> 0 <= m < 60 -> ordinal_of (combine o h m) = o.
Proof.
  intros Hh Hm. unfold ordinal_of, combine, us_per_day, us_per_hour, us_per_minute, us_per_second.
  replace ((o - 1) * (24 * (60 * (60 * 1000000))) + h * (60 * (60 * 1000000)) + m * (60 * 1000000))
    with (m * 60000000 + h * 3600000000 + (o - 1) * 86400000000) by lia.
  replace (24 * (60 * (60 * 1000000))) with 86400000000 by lia.
  rewrite Z.div_add by lia. rewrite Z.div_small by lia. lia.
Qed.

Example date_epoch : date_of_ordinal 719163 = {| year := 1970; month := 1; day := 1 |}.
Proof. reflexivity. Qed.

Example date_max : date_of_ordinal max_ordinal = {| year := 9999; month := 12; day := 31 |}.
Proof. reflexivity. Qed.

Example date_leap : date_of_ordinal 738945 = {| year := 2024; month := 2; day := 29 |}.
Proof. reflexivity. Qed.
