(* ===== verification/AutoCron.v ===== *)
(** Automation: the Cron expressions of schedules.py - Python's string functions
    on them, the parser of one field and the compiled sets.

    Characters outside ASCII go through the tables of the interpreter's Unicode
    database, which are the parameters of [Unicode]; everything ASCII is
    computed. *)
From S2P Require Import Prelude PyDict PySeq Contracts AutoModels.
From Stdlib Require Import Strings.String.

(** ** Strings *)

(** The interpreter's Unicode database: [str.lower] on text with a character
    outside ASCII, the decimal value of such a character, and whether
    [str.isdigit] accepts it. *)
Class Unicode : Type := {
  lower_text : pystr -> pystr;
  decimal_value : Z -> option Z;
  other_digit : Z -> bool
}.

(** [s.split()]: the maximal runs of characters that are not white space. *)
Fixpoint split_space (s : pystr) : list pystr :=
  match s with
  | [] => []
  | x :: s' =>
      if py_isspace x then split_space s'
      else match s' with
           | [] => [[x]]
           | y :: _ =>
               if py_isspace y then [x] :: split_space s'
               else match split_space s' with
                    | [] => [[x]]
                    | w :: ws => (x :: w) :: ws
                    end
           end
  end.

(** [s.partition(c)]: the text before the first [c], and the text after it when
    there is one. *)
Fixpoint partition (c : Z) (s : pystr) : pystr * option pystr :=
  match s with
  | [] => ([], None)
  | x :: s' =>
      if x =? c then ([], Some s')
      else let '(a, b) := partition c s' in (x :: a, b)
  end.

(** The white space C's integer parser skips. *)
Definition c_isspace (c : Z) : bool := ((9 <=? c) && (c <=? 13)) || (c =? 32).

Fixpoint c_lstrip (s : pystr) : pystr :=
  match s with
  | [] => []
  | c :: s' => if c_isspace c then c_lstrip s' else s
  end.

(** Decimal digits with single underscores between them; [gap] holds when an
    underscore may not follow. *)
Fixpoint digits (acc : Z) (gap : bool) (s : pystr) : option Z :=
  match s with
  | [] => if gap then None else Some acc
  | c :: s' =>
      match ascii_digit c with
      | Some d => digits (acc * 10 + d) false s'
      | None => if (c =? 95) && negb gap then digits acc true s' else None
      end
  end.

Section strings.
Context {unicode : Unicode}.

Definition lower (s : pystr) : pystr :=
  if forallb is_ascii s then map ascii_lower s else lower_text s.

Definition isdigit (c : Z) : bool :=
  if is_ascii c then match ascii_digit c with Some _ => true | None => false end
  else other_digit c.

(** What [int] reads: ASCII text as it is, other text with its decimal digits
    and its white space replaced. *)
Definition to_ascii (s : pystr) : pystr :=
  if forallb is_ascii s then s
  else map (fun c => if c <? 127 then c
                     else if py_isspace c then 32
                     else match decimal_value c with Some d => 48 + d | None => 63 end) s.

(** [int(s)]; [None] stands for [ValueError]. *)
Definition py_int (s : pystr) : option Z :=
  match rev (c_lstrip (rev (c_lstrip (to_ascii s)))) with
  | 43 :: s' => digits 0 true s'
  | 45 :: s' => match digits 0 true s' with Some n => Some (- n) | None => None end
  | s' => digits 0 true s'
  end.
End strings.

(** ** Fields *)

Definition MONTH_NAMES : dict pystr Z :=
  [(u "jan", 1); (u "feb", 2); (u "mar", 3); (u "apr", 4); (u "may", 5); (u "jun", 6);
   (u "jul", 7); (u "aug", 8); (u "sep", 9); (u "oct", 10); (u "nov", 11); (u "dec", 12)].

Definition WEEKDAY_NAMES : dict pystr Z :=
  [(u "mon", 0); (u "tue", 1); (u "wed", 2); (u "thu", 3); (u "fri", 4); (u "sat", 5);
   (u "sun", 6)].

(** [range(start, stop, step)] for a positive step. *)
Definition py_range (start stop step : Z) : list Z :=
  map (fun k => start + Z.of_nat k * step)
    (seq 0 (Z.to_nat ((stop - start + step - 1) / step))).

(** [_CompiledCron]: each set of integers as the list [sorted] gives of it. *)
Record CompiledCron : Type := {
  minutes : list Z;
  hours : list Z;
  days : list Z;
  months : list Z;
  weekdays : list Z
}.

(** A set of integers in the order of [sorted]. *)
Definition sorted_set (l : list Z) : list Z := sorted_by Z.leb (remove_dups l).

Section fields.
Context {unicode : Unicode}.

Definition parse_value (value : pystr) (minimum maximum : Z) (names : option (dict pystr Z))
    : res exn Z :=
  let normalized := lower value in
  match match names with Some d => dget d normalized | None => None end with
  | Some n => Ok n
  | None =>
      match py_int normalized with
      | None => Raise InvalidScheduleError
      | Some parsed =>
          do? rraise_if (negb ((minimum <=? parsed) && (parsed <=? maximum)))
                InvalidScheduleError in
          Ok parsed
      end
  end.

(** [start, end] of the part before the step. *)
Definition parse_base (base : pystr) (minimum maximum : Z) (names : option (dict pystr Z))
    : res exn (Z * Z) :=
  if bool_decide (base = u "*") then Ok (minimum, maximum)
  else
    match partition 45 base with
    | (start_text, Some end_text) =>
        let? start := parse_value start_text minimum maximum names in
        let? stop := parse_value end_text minimum maximum names in
        do? rraise_if (stop <? start) InvalidScheduleError in
        Ok (start, stop)
    | (_, None) =>
        let? start := parse_value base minimum maximum names in
        Ok (start, start)
    end.

Definition parse_step (separator : option pystr) : res exn Z :=
  match separator with
  | None => Ok 1
  | Some step_text =>
      match py_int step_text with
      | None => Raise InvalidScheduleError
      | Some step => do? rraise_if (step <? 1) InvalidScheduleError in Ok step
      end
  end.

(** One item of the list: the values it adds to [selected]. *)
Definition parse_item (item : pystr) (minimum maximum : Z) (names : option (dict pystr Z))
    : res exn (list Z) :=
  do? rraise_if (bool_decide (item = [])) InvalidScheduleError in
  let '(base, separator) := partition 47 item in
  let? step := parse_step separator in
  let? range := parse_base base minimum maximum names in
  Ok (py_range range.1 (range.2 + 1) step).

Fixpoint parse_items (items : list pystr) (minimum maximum : Z)
    (names : option (dict pystr Z)) : res exn (list Z) :=
  match items with
  | [] => Ok []
  | item :: rest =>
      let? selected := parse_item item minimum maximum names in
      let? others := parse_items rest minimum maximum names in
      Ok (selected ++ others)
  end.

Definition parse_field (field : pystr) (minimum maximum : Z) (names : option (dict pystr Z))
    : res exn (list Z) :=
  let? selected := parse_items (split_on 44 field) minimum maximum names in
  Ok (sorted_set selected).

Definition compile_cron (expression : pystr) : res exn CompiledCron :=
  match split_space expression with
  | [f0; f1; f2; f3; f4] =>
      let? minutes := parse_field f0 0 59 None in
      let? hours := parse_field f1 0 23 None in
      let? days := parse_field f2 1 31 None in
      let? months := parse_field f3 1 12 (Some MONTH_NAMES) in
      let? weekdays := parse_field f4 0 6 (Some WEEKDAY_NAMES) in
      Ok {| minutes := minutes; hours := hours; days := days; months := months;
            weekdays := weekdays |}
  | _ => Raise InvalidScheduleError
  end.

(** The validator of [CronSchedule.expression]: the normalised expression. *)
Definition expression_has_five_fields (value : pystr) : res exn pystr :=
  do? rraise_if (negb (bool_decide (value = strip value)) ||
                 negb (zlen (split_space value) =? 5)) ValueError in
  do? match split_space value with
      | [_; _; _; _; weekday] => rraise_if (existsb isdigit (lower weekday)) ValueError
      | _ => Ok tt
      end in
  let normalized := lower value in
  do? compile_cron normalized in
  Ok normalized.
End fields.
