(* ===== verification/AutoSchedules.v ===== *)
(** Automation: schedules.py - declarations, the next occurrence of a schedule,
    previews and the misfire policy.

    Zones are the parameter [TimeZones]: for every installed IANA name, the wall
    clock of an instant and the instant a wall-clock value denotes with each
    [fold].  [timedelta.total_seconds] and the float floor division that follows
    it are computed bit for bit. *)
From S2P Require Import Prelude PyDict PySeq Contracts AutoModels AutoCalendar AutoCron.
From Stdlib Require Import Strings.String.

(** ** Parameters *)

Record Zone : Type := {
  zone_local : Z -> Z;
  zone_utc : bool -> Z -> Z
}.

Class TimeZones : Type := { zone_named : pystr -> option Zone }.

(** A [datetime] argument: aware (its UTC instant) or naive. *)
Inductive datetime : Type :=
| Aware (utc : Z)
| Naive (wall : Z).

(** ** Declarations *)

Definition MIN_INTERVAL_SECONDS : Z := 60.
Definition MAX_INTERVAL_SECONDS : Z := 365 * 24 * 60 * 60.
Definition MAX_CRON_SEARCH_YEARS : Z := 8.
Definition MAX_MISFIRE_SCAN : Z := 100000.

Definition aware_utc (value : datetime) : res exn Z :=
  match value with Aware t => Ok t | Naive _ => Raise ValueError end.

(** Pydantic reports whatever a validator raises as a [ValidationError]. *)
Definition validated {A} (r : res exn A) : res exn A :=
  match r with Ok a => Ok a | Raise _ => Raise ValidationError end.

Definition active_bound_is_aware (value : option datetime) : res exn (option Z) :=
  match value with
  | None => Ok None
  | Some v => let? t := aware_utc v in Ok (Some t)
  end.

Definition active_period_is_ordered (spec : ScheduleSpec) : res exn ScheduleSpec :=
  match active_from spec, active_until spec with
  | Some a, Some b => do? rraise_if (b <=? a) ValueError in Ok spec
  | _, _ => Ok spec
  end.

(** The fields [_ScheduleModel] adds to a kind of schedule. *)
Definition schedule_model (kind : res exn ScheduleKind) (from until : option datetime)
    : res exn ScheduleSpec :=
  validated
    (let? a := active_bound_is_aware from in
     let? b := active_bound_is_aware until in
     let? k := kind in
     active_period_is_ordered {| active_from := a; active_until := b; sched := k |}).

Definition once (at_ : datetime) (from until : option datetime) : res exn ScheduleSpec :=
  schedule_model (let? t := aware_utc at_ in Ok (OnceSchedule t)) from until.

Definition interval_schedule (every_seconds : Z) (start_at : datetime)
    (from until : option datetime) : res exn ScheduleSpec :=
  schedule_model
    (do? rraise_if (every_seconds <? MIN_INTERVAL_SECONDS) ValueError in
     do? rraise_if (MAX_INTERVAL_SECONDS <? every_seconds) ValueError in
     let? t := aware_utc start_at in
     Ok (IntervalSchedule every_seconds t)) from until.

(** [type(value) is not int or value < 0] *)
Definition interval_component (value : pyobj) : res exn Z :=
  match value with
  | PyInt n => do? rraise_if (n <? 0) ValueError in Ok n
  | _ => Raise ValueError
  end.

Definition every (seconds minutes hours days : pyobj) (start_at : datetime)
    (from until : option datetime) : res exn ScheduleSpec :=
  let? s := interval_component seconds in
  let? m := interval_component minutes in
  let? h := interval_component hours in
  let? d := interval_component days in
  interval_schedule (s + m * 60 + h * 3600 + d * 86400) start_at from until.

Section schedules.
Context {unicode : Unicode} {zones : TimeZones}.

Definition timezone_is_available (value : pystr) : res exn pystr :=
  do? rraise_if (negb (bool_decide (value = strip value))) ValueError in
  match zone_named value with
  | None => Raise InvalidScheduleError
  | Some _ => Ok value
  end.

Definition cron (expression timezone : pystr) (from until : option datetime)
    : res exn ScheduleSpec :=
  schedule_model
    (do? rraise_if ((zlen expression <? 9) || (256 <? zlen expression)) ValueError in
     do? rraise_if ((zlen timezone <? 1) || (128 <? zlen timezone)) ValueError in
     let? e := expression_has_five_fields expression in
     let? z := timezone_is_available timezone in
     Ok (CronSchedule e z)) from until.

(** ** Seconds as floats *)

(** [n / d] to the nearest integer, ties to even. *)
Definition round_div (n d : Z) : Z :=
  let q := n / d in
  let r := n mod d in
  if 2 * r <? d then q
  else if d <? 2 * r then q + 1
  else if Z.even q then q else q + 1.

(** The power of two that scales [us / 10^6] into [2^52, 2^53). *)
Definition float_scale (us : Z) : Z :=
  52 - (Z.log2 (Z.abs us * 2 ^ 20 / us_per_second) - 20).

(** [int(td.total_seconds() // seconds)]: the quotient of the correctly rounded
    float, whose floor division by an integer is exact. *)
Definition float_quotient (us seconds : Z) : Z :=
  let s := float_scale us in
  round_div (us * 2 ^ s) us_per_second / (seconds * 2 ^ s).

(** ** Occurrences *)

(** [value.astimezone(zone)] *)
Definition to_local (zone : Zone) (t : Z) : res exn Z := check_range (zone_local zone t).

(** [{candidate for fold in (0, 1) if ...}], sorted. *)
Definition valid_candidate (zone : Zone) (local_value : Z) (fold : bool) : res exn (list Z) :=
  let? candidate := check_range (zone_utc zone fold local_value) in
  let? back := to_local zone candidate in
  Ok (if back =? local_value then [candidate] else []).

Definition valid_utc_candidates (zone : Zone) (local_value : Z) : res exn (list Z) :=
  let? a := valid_candidate zone local_value false in
  let? b := valid_candidate zone local_value true in
  Ok (sorted_set (a ++ b)).

(** The loop over the minutes of an hour. *)
Fixpoint search_minutes (zone : Zone) (after ordinal hour : Z) (l : list Z)
    : res exn (option Z) :=
  match l with
  | [] => Ok None
  | minute :: rest =>
      let? candidates := valid_utc_candidates zone (combine ordinal hour minute) in
      match candidates with
      | c :: _ => if after <? c then Ok (Some c) else search_minutes zone after ordinal hour rest
      | [] => search_minutes zone after ordinal hour rest
      end
  end.

Fixpoint search_hours (zone : Zone) (compiled : CompiledCron) (after ordinal : Z) (l : list Z)
    : res exn (option Z) :=
  match l with
  | [] => Ok None
  | hour :: rest =>
      let? found := search_minutes zone after ordinal hour (minutes compiled) in
      match found with
      | Some c => Ok (Some c)
      | None => search_hours zone compiled after ordinal rest
      end
  end.

Definition day_matches (compiled : CompiledCron) (ordinal : Z) : bool :=
  let d := date_of_ordinal ordinal in
  bool_decide (month d ∈ months compiled) && bool_decide (day d ∈ days compiled) &&
  bool_decide (weekday ordinal ∈ weekdays compiled).

(** The [while] loop over the days; [None] when the fuel runs out. *)
Fixpoint search_days (fuel : nat) (zone : Zone) (compiled : CompiledCron)
    (until : option Z) (after end_year current : Z) : option (res exn (option Z)) :=
  match fuel with
  | O => None
  | S fuel' =>
      if year (date_of_ordinal current) <=? end_year then
        match match until with
              | None => Ok false
              | Some u => let? l := to_local zone u in Ok (ordinal_of l <? current)
              end with
        | Raise e => Some (Raise e)
        | Ok true => Some (Ok None)
        | Ok false =>
            match (if day_matches compiled current
                   then search_hours zone compiled after current (hours compiled)
                   else Ok None) with
            | Raise e => Some (Raise e)
            | Ok (Some c) => Some (Ok (Some c))
            | Ok None =>
                if max_ordinal <=? current then Some (Raise OverflowError)
                else search_days fuel' zone compiled until after end_year (current + 1)
            end
        end
      else Some (Raise InvalidScheduleError)
  end.

(** Days from [start_day] to the end of [end_year], and one more test. *)
Definition search_fuel (end_year start_day : Z) : nat :=
  Z.to_nat (days_before_year (end_year + 1) - start_day + 2).

Definition cron_search (zone : Zone) (compiled : CompiledCron) (until : option Z) (after : Z)
    : res exn (option Z) :=
  let? local_after := to_local zone after in
  let start_day := ordinal_of local_after in
  let end_year := year (date_of_ordinal start_day) + MAX_CRON_SEARCH_YEARS in
  match search_days (search_fuel end_year start_day) zone compiled until after end_year
          start_day with
  | Some r => r
  | None => Raise AssertionError
  end.

Definition next_occurrence (schedule : ScheduleSpec) (after : Z) : res exn (option Z) :=
  match sched schedule with
  | OnceSchedule at_ => Ok (if after <? at_ then Some at_ else None)
  | IntervalSchedule every_seconds start_at =>
      if after <? start_at then Ok (Some start_at)
      else
        let steps := Z.max 1 (float_quotient (after - start_at) every_seconds + 1) in
        let? t := check_range (start_at + steps * every_seconds * us_per_second) in
        Ok (Some t)
  | CronSchedule expression timezone =>
      let? compiled := compile_cron expression in
      match zone_named timezone with
      | None => Raise KeyError
      | Some zone => cron_search zone compiled (active_until schedule) after
      end
  end.

Definition next_run_after (schedule : ScheduleSpec) (after : datetime) : res exn (option Z) :=
  let? after_utc := aware_utc after in
  if match active_until schedule with Some b => b <=? after_utc | None => false end
  then Ok None
  else
    let? after_utc :=
      match active_from schedule with
      | Some a => if after_utc <? a then check_range (a - 1) else Ok after_utc
      | None => Ok after_utc
      end in
    let? candidate := next_occurrence schedule after_utc in
    Ok match candidate, active_until schedule with
       | Some c, Some b => if b <=? c then None else Some c
       | _, _ => candidate
       end.

(** ** Previews *)

Fixpoint preview_loop (count : nat) (schedule : ScheduleSpec) (cursor : Z)
    : res exn (list Z) :=
  match count with
  | O => Ok []
  | S n =>
      let? candidate := next_run_after schedule (Aware cursor) in
      match candidate with
      | None => Ok []
      | Some c => let? rest := preview_loop n schedule c in Ok (c :: rest)
      end
  end.

Definition preview_schedule (schedule : ScheduleSpec) (after : datetime) (count : Z)
    : res exn (list Z) :=
  do? rraise_if (negb ((1 <=? count) && (count <=? 100))) ValueError in
  let? cursor := aware_utc after in
  preview_loop (Z.to_nat count) schedule cursor.

(** ** Misfires *)

Record MaterializedSchedule : Type := {
  due_at : list Z;
  next_run_at : option Z;
  skipped_before : option Z
}.

Definition latest_interval_due (every_seconds first_due now : Z) : res exn Z :=
  let steps := Z.max 0 (float_quotient (now - first_due) every_seconds) in
  check_range (first_due + steps * every_seconds * us_per_second).

(** The bounded scan: the due times from [cursor] up to [now]; running out of
    iterations is the [else] of the loop. *)
Fixpoint scan (bound : nat) (schedule : ScheduleSpec) (cursor now : Z) : res exn (list Z) :=
  match bound with
  | O => Raise InvalidScheduleError
  | S n =>
      let? candidate := next_run_after schedule (Aware cursor) in
      match candidate with
      | None => Ok []
      | Some c =>
          if now <? c then Ok []
          else let? rest := scan n schedule c now in Ok (c :: rest)
      end
  end.

(** [tuple(l[-1:])] *)
Definition last_only (l : list Z) : list Z :=
  match rev l with [] => [] | x :: _ => [x] end.

(** After the first due time is inside the active period and not in the future. *)
Definition apply_policy (schedule : ScheduleSpec) (first_due now : Z) (policy : MisfirePolicy)
    : res exn MaterializedSchedule :=
  let? future := next_run_after schedule (Aware now) in
  let? grace_boundary := check_range (now - grace policy) in
  let? window_boundary := check_range (now - catch_up_window policy) in
  match mode policy, sched schedule with
  | SKIP, _ =>
      if first_due <? grace_boundary
      then Ok {| due_at := []; next_run_at := future; skipped_before := Some first_due |}
      else Ok {| due_at := [first_due]; next_run_at := future; skipped_before := None |}
  | LATEST, IntervalSchedule every_seconds _ =>
      let? last_allowed :=
        match active_until schedule with
        | None => Ok now
        | Some b => let? b' := check_range (b - 1) in Ok (Z.min now b')
        end in
      let? latest := latest_interval_due every_seconds first_due last_allowed in
      Ok {| due_at := if window_boundary <=? latest then [latest] else [];
            next_run_at := future;
            skipped_before := if latest =? first_due then None else Some first_due |}
  | _, _ =>
      let scan_start := Z.max first_due window_boundary in
      let? cursor := check_range (scan_start - 1) in
      let? due_times := scan (Z.to_nat MAX_MISFIRE_SCAN) schedule cursor now in
      let selected := match mode policy with
                      | LATEST => last_only due_times
                      | _ => take (Z.to_nat (max_catch_up policy)) due_times
                      end in
      Ok {| due_at := selected; next_run_at := future;
            skipped_before := if (first_due <? scan_start) || (zlen selected <? zlen due_times)
                              then Some first_due else None |}
  end.

Definition materialize_schedule (schedule : ScheduleSpec) (next_run_at : datetime)
    (now : datetime) (policy : MisfirePolicy) : res exn MaterializedSchedule :=
  let? first_due := aware_utc next_run_at in
  let? now_utc := aware_utc now in
  let? first_due' :=
    match active_from schedule with
    | Some a =>
        if first_due <? a then
          let? before := check_range (first_due - 1) in
          next_run_after schedule (Aware before)
        else Ok (Some first_due)
    | None => Ok (Some first_due)
    end in
  match first_due' with
  | None => Ok {| due_at := []; next_run_at := None; skipped_before := Some first_due |}
  | Some first_due =>
      if match active_until schedule with Some b => b <=? first_due | None => false end
      then Ok {| due_at := []; next_run_at := None; skipped_before := Some first_due |}
      else if now_utc <? first_due
      then Ok {| due_at := []; next_run_at := Some first_due; skipped_before := None |}
      else apply_policy schedule first_due now_utc policy
  end.
End schedules.
