(* ===== verification/AutoSchedulesFacts.v ===== *)
(** Automation: facts about schedules - float quotients, the Cron sets, the
    candidates of a wall-clock value and the three nested searches. *)
From S2P Require Import Prelude PyDict PySeq AutoModels AutoRulesFacts AutoCalendar AutoCron.
From S2P Require Import Contracts.
From S2P Require Import AutoSchedules.
From Stdlib Require Import Strings.String Sorting.Sorted.

(** ** Definitions *)

(** What the code relies on from a zone (PEP 495 and the IANA data): a
    wall-clock value denotes an instant through one of its two folds, and the
    clock first shows a value before it first shows a later one. *)
Definition first_shown (zone : Zone) (local t : Z) : Prop :=
  zone_local zone t = local /\ forall t', zone_local zone t' = local -> t <= t'.

Class ZoneLaws (zone : Zone) : Prop := {
  zone_folds : forall t, zone_utc zone false (zone_local zone t) = t \/
                         zone_utc zone true (zone_local zone t) = t;
  zone_order : forall l1 l2 t1 t2, first_shown zone l1 t1 -> first_shown zone l2 t2 ->
    l1 < l2 -> t1 < t2
}.

(** The wall-clock values of a day that a Cron expression selects. *)
Definition cron_value (compiled : CompiledCron) (local : Z) : Prop :=
  day_matches compiled (ordinal_of local) = true /\
  exists h m, h ∈ hours compiled /\ m ∈ minutes compiled /\
    local = combine (ordinal_of local) h m.

(** The instants at which a schedule occurs: a Cron schedule at the first
    instant that shows a selected wall-clock value. *)
Definition occurs `{Unicode} `{TimeZones} (schedule : ScheduleSpec) (t : Z) : Prop :=
  match sched schedule with
  | OnceSchedule at_ => t = at_
  | IntervalSchedule every_seconds start_at =>
      exists k, 0 <= k /\ t = start_at + k * every_seconds * us_per_second
  | CronSchedule expression timezone =>
      exists compiled zone, compile_cron expression = Ok compiled /\
        zone_named timezone = Some zone /\
        cron_value compiled (zone_local zone t) /\ first_shown zone (zone_local zone t) t
  end.

Definition active (schedule : ScheduleSpec) (t : Z) : Prop :=
  (forall a, active_from schedule = Some a -> a <= t) /\
  (forall b, active_until schedule = Some b -> t < b).

(** The sets of a compiled expression, in order and within their ranges. *)
Record cron_ok (c : CompiledCron) : Prop := {
  ok_minutes : StronglySorted Z.lt (minutes c) /\ (forall m, m ∈ minutes c -> 0 <= m < 60);
  ok_hours : StronglySorted Z.lt (hours c) /\ (forall h, h ∈ hours c -> 0 <= h < 24);
  ok_days : (forall d, d ∈ days c -> 1 <= d <= 31);
  ok_months : (forall m, m ∈ months c -> 1 <= m <= 12);
  ok_weekdays : (forall d, d ∈ weekdays c -> 0 <= d <= 6);
  ok_nonempty : minutes c <> [] /\ hours c <> [] /\ days c <> [] /\ months c <> [] /\
                weekdays c <> []
}.

(** ** Seconds as floats *)

Lemma round_div_bounds n d :
  0 < d -> 2 * (round_div n d * d) <= 2 * n + d /\ 2 * n - d <= 2 * (round_div n d * d) /\
           n / d <= round_div n d.
Proof.
  intros Hd. unfold round_div. pose proof (Z.div_mod n d ltac:(lia)).
  pose proof (Z.mod_pos_bound n d Hd).
  destruct (2 * (n mod d) <? d) eqn:E1; [apply Z.ltb_lt in E1; nia|apply Z.ltb_ge in E1].
  destruct (d <? 2 * (n mod d)) eqn:E2; [apply Z.ltb_lt in E2; nia|apply Z.ltb_ge in E2].
  destruct (Z.even (n / d)); nia.
Qed.

(** Rounding never loses a whole step. *)
Lemma float_quotient_ge us seconds :
  0 <= us -> 1 <= seconds -> 0 <= float_scale us ->
  us / (seconds * us_per_second) <= float_quotient us seconds.
Proof.
  intros Hu Hs Hf. unfold float_quotient. set (s := float_scale us) in *.
  assert (0 < 2 ^ s) as Hp by (apply Z.pow_pos_nonneg; lia).
  destruct (round_div_bounds (us * 2 ^ s) us_per_second ltac:(done)) as (_ & _ & Hge).
  apply Z.div_le_lower_bound; [nia|]. etransitivity; [|exact Hge].
  apply Z.div_le_lower_bound; [done|].
  pose proof (Z.mul_div_le us (seconds * us_per_second) ltac:(unfold us_per_second; lia)).
  nia.
Qed.

Lemma float_scale_bounds us :
  0 <= us < 2 ^ 34 * us_per_second -> 19 <= float_scale us.
Proof.
  intros Hu. unfold float_scale. rewrite Z.abs_eq by lia.
  assert (us * 2 ^ 20 / us_per_second < 2 ^ 54) as H.
  { apply Z.div_lt_upper_bound; [done|]. unfold us_per_second in *. lia. }
  pose proof (Z.log2_le_mono (us * 2 ^ 20 / us_per_second) (2 ^ 54 - 1) ltac:(lia)) as Hl.
  change (Z.log2 (2 ^ 54 - 1)) with 53 in Hl. lia.
Qed.

Lemma float_quotient_exact us seconds :
  0 <= us < 2 ^ 34 * us_per_second -> 1 <= seconds ->
  float_quotient us seconds = us / (seconds * us_per_second).
Proof.
  intros Hu Hs. pose proof (float_scale_bounds us Hu) as Hsc. apply Z.le_antisymm;
    [|apply float_quotient_ge; lia]. unfold float_quotient. set (s := float_scale us) in *.
  assert (2 ^ 19 <= 2 ^ s) as Hp by (apply Z.pow_le_mono_r; lia).
  change (2 ^ 19) with 524288 in Hp.
  destruct (round_div_bounds (us * 2 ^ s) us_per_second ltac:(done)) as (Hup & _ & _).
  set (m := round_div (us * 2 ^ s) us_per_second) in *.
  set (K := us / (seconds * us_per_second)).
  pose proof (Z.div_mod us (seconds * us_per_second) ltac:(unfold us_per_second; lia)) as Hd.
  pose proof (Z.mod_pos_bound us (seconds * us_per_second) ltac:(unfold us_per_second; lia)) as Hm.
  fold K in Hd. apply Z.lt_succ_r, Z.div_lt_upper_bound; [nia|].
  unfold us_per_second in *. nia.
Qed.

(** The scale is never negative for instants in range. *)
Lemma float_scale_nonneg us : Z.abs us < max_ordinal * us_per_day -> 0 <= float_scale us.
Proof.
  intros Hu. unfold float_scale.
  assert (Z.abs us * 2 ^ 20 / us_per_second < 2 ^ 60) as H.
  { apply Z.div_lt_upper_bound; [done|]. unfold us_per_second, us_per_day, us_per_hour,
      us_per_minute, us_per_second, max_ordinal in *. lia. }
  pose proof (Z.log2_le_mono (Z.abs us * 2 ^ 20 / us_per_second) (2 ^ 60 - 1) ltac:(lia)) as Hl.
  change (Z.log2 (2 ^ 60 - 1)) with 59 in Hl. lia.
Qed.

(** ** Sets *)

#[export] Instance Z_leb_total : TotalLe Z.leb.
Proof. split; intros *; rewrite ?Z.leb_le; lia. Qed.

Lemma sorted_set_sorted l : StronglySorted Z.lt (sorted_set l).
Proof.
  unfold sorted_set. assert (NoDup (sorted_by Z.leb (remove_dups l))) as Hnd.
  { apply NoDup_sorted_by, NoDup_remove_dups. }
  pose proof (sorted_by_sorted Z.leb (remove_dups l)) as Hs. revert Hs Hnd.
  induction (sorted_by Z.leb (remove_dups l)) as [|x k IH]; intros Hs Hnd; constructor.
  - apply StronglySorted_inv in Hs as [? _]. apply NoDup_cons in Hnd as [_ ?]. auto.
  - apply StronglySorted_inv in Hs as [_ Hf]. apply NoDup_cons in Hnd as [Hn _].
    apply Forall_forall. intros y Hy. rewrite Forall_forall in Hf. specialize (Hf y Hy).
    apply Is_true_true, Z.leb_le in Hf. assert (x <> y) by (intros ->; done). lia.
Qed.

Lemma elem_of_sorted_set l x : x ∈ sorted_set l <-> x ∈ l.
Proof. unfold sorted_set. by rewrite elem_of_sorted_by, elem_of_remove_dups. Qed.

Lemma elem_of_py_range x start stop step :
  0 < step -> x ∈ py_range start stop step <->
  exists k, 0 <= k /\ x = start + k * step /\ x < stop.
Proof.
  intros Hs. unfold py_range. rewrite list_elem_of_In, in_map_iff. split.
  - intros (k & <- & Hk). apply in_seq in Hk. exists (Z.of_nat k). split; [lia|]. split; [lia|].
    pose proof (Z.mul_div_le (stop - start + step - 1) step Hs).
    assert (Z.of_nat k < (stop - start + step - 1) / step) by lia. nia.
  - intros (k & Hk & -> & Hlt). exists (Z.to_nat k). rewrite Z2Nat.id by lia. split; [lia|].
    apply in_seq. split; [lia|]. simpl. apply Z2Nat.inj_lt; [lia|apply Z.div_pos; nia|].
    apply Z.lt_le_trans with (k + 1); [lia|]. apply Z.div_le_lower_bound; nia.
Qed.

(** ** The parser *)

Section parser.
Context {unicode : Unicode}.

Definition names_within (names : option (dict pystr Z)) (minimum maximum : Z) : Prop :=
  forall d k n, names = Some d -> dget d k = Some n -> minimum <= n <= maximum.

Lemma names_within_check (d : dict pystr Z) minimum maximum :
  forallb (fun p => (minimum <=? p.2) && (p.2 <=? maximum)) d = true ->
  names_within (Some d) minimum maximum.
Proof.
  intros H d' k n [= <-] Hk. rewrite forallb_forall in H. apply dget_elem_of, list_elem_of_In in Hk.
  specialize (H _ Hk). simpl in H. bool_prop. lia.
Qed.

Lemma parse_value_range value minimum maximum names n :
  names_within names minimum maximum ->
  parse_value value minimum maximum names = Ok n -> minimum <= n <= maximum.
Proof.
  intros Hn. unfold parse_value.
  destruct (match names with Some d => dget d (lower value) | None => None end) as [k|] eqn:E.
  - intros [= <-]. destruct names as [d|]; [|done]. by eapply Hn.
  - destruct (py_int (lower value)); [|done]. intros H.
    apply rbind_ok in H as ([] & H & [= <-]). apply rraise_if_ok in H. bool_prop. lia.
Qed.

Lemma parse_base_range base minimum maximum names a b :
  minimum <= maximum -> names_within names minimum maximum ->
  parse_base base minimum maximum names = Ok (a, b) -> minimum <= a <= b /\ b <= maximum.
Proof.
  intros Hle Hn. unfold parse_base. case_bool_decide; [intros [= <- <-]; lia|].
  destruct (partition 45 base) as [start [stop|]]; intros Hb.
  - apply rbind_ok in Hb as (x & Hx%parse_value_range & Hb); [|done].
    apply rbind_ok in Hb as (y & Hy%parse_value_range & Hb); [|done].
    apply rbind_ok in Hb as ([] & Hb & [= <- <-]). apply rraise_if_ok in Hb. bool_prop. lia.
  - apply rbind_ok in Hb as (x & Hx%parse_value_range & [= <- <-]); [|done]. lia.
Qed.

Lemma parse_items_range items minimum maximum names l :
  minimum <= maximum -> names_within names minimum maximum ->
  parse_items items minimum maximum names = Ok l ->
  (forall x, x ∈ l -> minimum <= x <= maximum) /\ (items <> [] -> l <> []).
Proof.
  intros Hle Hn. revert l. induction items as [|item items IH]; simpl; intros l Hl.
  { injection Hl as <-. split; [by intros x ?%elem_of_nil|done]. }
  apply rbind_ok in Hl as (sel & Hsel & Hl). apply rbind_ok in Hl as (others & Ho & [= <-]).
  destruct (IH _ Ho) as [IH1 _]. unfold parse_item in Hsel.
  apply rbind_ok in Hsel as ([] & _ & Hsel). destruct (partition 47 item) as [base sep].
  apply rbind_ok in Hsel as (step & Hstep & Hsel).
  apply rbind_ok in Hsel as ([a b] & Hb%parse_base_range & [= <-]); [|done..]. simpl.
  assert (0 < step) as Hpos.
  { unfold parse_step in Hstep. destruct sep as [t|]; [|injection Hstep as <-; lia].
    destruct (py_int t); [|done]. apply rbind_ok in Hstep as ([] & H & [= <-]).
    apply rraise_if_ok in H. bool_prop. lia. }
  split.
  - intros x [Hx|Hx]%elem_of_app; [|by apply IH1].
    apply elem_of_py_range in Hx as (k & ? & -> & ?); [nia|done].
  - intros _ Happ. apply app_eq_nil in Happ as [Hnil _].
    assert (a ∈ py_range a (b + 1) step) as Ha.
    { apply elem_of_py_range; [done|]. exists 0. lia. }
    rewrite Hnil in Ha. by apply elem_of_nil in Ha.
Qed.

Lemma split_on_nonempty c s : split_on c s <> [].
Proof. destruct s as [|x s]; simpl; [done|]. destruct (x =? c); [done|]. by destruct (split_on c s). Qed.

Lemma parse_field_range field minimum maximum names l :
  minimum <= maximum -> names_within names minimum maximum ->
  parse_field field minimum maximum names = Ok l ->
  StronglySorted Z.lt l /\ (forall x, x ∈ l -> minimum <= x <= maximum) /\ l <> [].
Proof.
  intros Hle Hn Hf. unfold parse_field in Hf. apply rbind_ok in Hf as (sel & Hsel & [= <-]).
  destruct (parse_items_range _ _ _ _ _ Hle Hn Hsel) as [H1 H2].
  split; [apply sorted_set_sorted|]. split.
  - intros x Hx. rewrite elem_of_sorted_set in Hx. exact (H1 x Hx).
  - intros Hnil. specialize (H2 (split_on_nonempty _ _)). destruct sel as [|x sel]; [done|].
    assert (x ∈ sorted_set (x :: sel)) as Hx by (apply elem_of_sorted_set; by left).
    rewrite Hnil in Hx. by apply elem_of_nil in Hx.
Qed.

Lemma compile_cron_ok expression c : compile_cron expression = Ok c -> cron_ok c.
Proof.
  unfold compile_cron. intros H.
  destruct (split_space expression) as [|f0 [|f1 [|f2 [|f3 [|f4 [|]]]]]]; try discriminate H.
  apply rbind_ok in H as (x0 & H0 & H). apply rbind_ok in H as (x1 & H1 & H).
  apply rbind_ok in H as (x2 & H2 & H). apply rbind_ok in H as (x3 & H3 & H).
  apply rbind_ok in H as (x4 & H4 & [= <-]).
  apply parse_field_range in H0 as (S0 & R0 & N0); [|lia|done].
  apply parse_field_range in H1 as (S1 & R1 & N1); [|lia|done].
  apply parse_field_range in H2 as (S2 & R2 & N2); [|lia|done].
  apply parse_field_range in H3 as (S3 & R3 & N3); [|lia|by apply names_within_check].
  apply parse_field_range in H4 as (S4 & R4 & N4); [|lia|by apply names_within_check].
  split; simpl; try done.
  - split; [done|]. intros m Hm. specialize (R0 m Hm). lia.
  - split; [done|]. intros h Hh. specialize (R1 h Hh). lia.
Qed.
End parser.

(** ** Candidates *)

Section search.
Context (zone : Zone) {laws : ZoneLaws zone}.


Lemma valid_candidate_spec local fold l :
  valid_candidate zone local fold = Ok l ->
  forall t, t ∈ l <-> t = zone_utc zone fold local /\ zone_local zone t = local.
Proof.
  unfold valid_candidate, to_local. intros H t.
  apply rbind_ok in H as (c & [-> _]%check_range_ok & H).
  apply rbind_ok in H as (b & [-> _]%check_range_ok & [= <-]).
  destruct (zone_local zone (zone_utc zone fold local) =? local) eqn:E; bool_prop.
  - rewrite list_elem_of_singleton. naive_solver.
  - split; [by intros ?%elem_of_nil|naive_solver].
Qed.

(** The candidates are exactly the instants that show the value. *)
Lemma valid_utc_candidates_spec local l :
  valid_utc_candidates zone local = Ok l ->
  (forall t, t ∈ l <-> zone_local zone t = local) /\ StronglySorted Z.lt l.
Proof.
  unfold valid_utc_candidates. intros H. apply rbind_ok in H as (a & Ha & H).
  apply rbind_ok in H as (b & Hb & [= <-]). split; [|apply sorted_set_sorted].
  intros t. rewrite elem_of_sorted_set, elem_of_app, (valid_candidate_spec _ _ _ Ha),
    (valid_candidate_spec _ _ _ Hb). split; [naive_solver|].
  intros <-. destruct (zone_folds t) as [E|E]; [left|right]; done.
Qed.

Lemma candidates_first local c l :
  valid_utc_candidates zone local = Ok (c :: l) -> first_shown zone local c.
Proof.
  intros H. apply valid_utc_candidates_spec in H as [H1 H2]. split; [apply H1; by left|].
  intros t Ht. apply H1 in Ht as [->|Ht]%elem_of_cons; [lia|].
  apply StronglySorted_inv in H2 as [_ Hf]. rewrite Forall_forall in Hf. specialize (Hf t Ht). lia.
Qed.

Lemma candidates_none local : valid_utc_candidates zone local = Ok [] ->
  forall t, ~ zone_local zone t = local.
Proof. intros H t Ht. apply valid_utc_candidates_spec in H as [H1 _]. by apply H1, elem_of_nil in Ht. Qed.

(** No selected instant after [after] shows this value. *)
Definition passed (after local : Z) : Prop := forall t, first_shown zone local t -> t <= after.

Lemma first_shown_unique local t t' : first_shown zone local t -> first_shown zone local t' -> t = t'.
Proof. intros [H1 H2] [H3 H4]. specialize (H2 _ H3). specialize (H4 _ H1). lia. Qed.

Lemma search_minutes_spec after o h l r :
  search_minutes zone after o h l = Ok r ->
  match r with
  | Some c => exists m pre post, l = pre ++ m :: post /\ first_shown zone (combine o h m) c /\
      after < c /\ forall m', m' ∈ pre -> passed after (combine o h m')
  | None => forall m, m ∈ l -> passed after (combine o h m)
  end.
Proof.
  revert r. induction l as [|m l IH]; simpl; intros r H.
  { injection H as <-. by intros m ?%elem_of_nil. }
  apply rbind_ok in H as (cs & Hcs & H).
  assert (passed after (combine o h m) -> search_minutes zone after o h l = Ok r ->
    match r with
    | Some c => exists m0 pre post, m :: l = pre ++ m0 :: post /\ first_shown zone (combine o h m0) c /\
        after < c /\ forall m', m' ∈ pre -> passed after (combine o h m')
    | None => forall m0, m0 ∈ m :: l -> passed after (combine o h m0)
    end) as Hskip.
  { intros Hp Hr. specialize (IH r Hr). destruct r as [c|].
    - destruct IH as (m0 & pre & post & -> & Hf & Hlt & Hpre). exists m0, (m :: pre), post.
      split; [done|]. split; [done|]. split; [done|]. intros m' [->|?]%elem_of_cons; auto.
    - intros m0 [->|?]%elem_of_cons; auto. }
  destruct cs as [|c cs].
  - apply Hskip; [|done]. intros t [Ht _]. by apply (candidates_none _ Hcs) in Ht.
  - apply candidates_first in Hcs. destruct (after <? c) eqn:E; bool_prop.
    + injection H as <-. exists m, [], l. split; [done|]. split; [done|]. split; [done|].
      by intros m' ?%elem_of_nil.
    + apply Hskip; [|done]. intros t Ht. rewrite (first_shown_unique _ _ _ Ht Hcs). done.
Qed.

Lemma search_hours_spec compiled after o l r :
  search_hours zone compiled after o l = Ok r ->
  match r with
  | Some c => exists h m pre post mpre mpost, l = pre ++ h :: post /\
      minutes compiled = mpre ++ m :: mpost /\ first_shown zone (combine o h m) c /\ after < c /\
      (forall h' m', h' ∈ pre -> m' ∈ minutes compiled -> passed after (combine o h' m')) /\
      (forall m', m' ∈ mpre -> passed after (combine o h m'))
  | None => forall h m, h ∈ l -> m ∈ minutes compiled -> passed after (combine o h m)
  end.
Proof.
  revert r. induction l as [|h l IH]; simpl; intros r H.
  { injection H as <-. by intros h m ?%elem_of_nil. }
  apply rbind_ok in H as (f & Hf & H). apply search_minutes_spec in Hf. destruct f as [c|].
  - injection H as <-. destruct Hf as (m & pre & post & Hm & Hs & Hlt & Hpre).
    exists h, m, [], l, pre, post. split; [done|]. split; [done|]. split; [done|]. split; [done|].
    split; [|done]. by intros h' m' ?%elem_of_nil.
  - specialize (IH r H). destruct r as [c|].
    + destruct IH as (h0 & m & pre & post & mpre & mpost & -> & Hm & Hs & Hlt & Hp1 & Hp2).
      exists h0, m, (h :: pre), post, mpre, mpost. split; [done|]. split; [done|]. split; [done|].
      split; [done|]. split; [|done]. intros h' m' [->|?]%elem_of_cons; auto.
    + intros h0 m [->|?]%elem_of_cons; auto.
Qed.
(** The searches raise nothing but [OverflowError]. *)
Lemma valid_utc_candidates_error local e :
  valid_utc_candidates zone local = Raise e -> e = OverflowError.
Proof.
  unfold valid_utc_candidates, valid_candidate, to_local, check_range.
  repeat (destruct (in_range _); simpl; [|by intros [= <-]]). done.
Qed.

Lemma search_hours_error compiled after o l e :
  search_hours zone compiled after o l = Raise e -> e = OverflowError.
Proof.
  assert (forall h ms, search_minutes zone after o h ms = Raise e -> e = OverflowError) as Hm.
  { intros h. induction ms as [|m ms IH]; simpl; [done|].
    destruct (valid_utc_candidates _ _) as [[|c cs]|e'] eqn:E; simpl; [done| |].
    - by destruct (after <? c).
    - intros [= ->]. by eapply valid_utc_candidates_error. }
  induction l as [|h l IH]; simpl; [done|].
  destruct (search_minutes _ _ _ _ _) as [[c|]|e'] eqn:E; simpl; [done|done|].
  intros [= ->]. by eapply Hm.
Qed.
End search.

(** ** The search over days *)

Lemma strongly_sorted_before l pre x post y :
  StronglySorted Z.lt l -> l = pre ++ x :: post -> y ∈ l -> y < x -> y ∈ pre.
Proof.
  intros Hs -> Hy Hlt. apply elem_of_app in Hy as [?|Hy]; [done|]. exfalso.
  induction pre as [|z pre IH]; simpl in *.
  - apply StronglySorted_inv in Hs as [_ Hf]. rewrite Forall_forall in Hf.
    apply elem_of_cons in Hy as [->|Hy]; [lia|]. specialize (Hf y Hy). lia.
  - apply IH. by apply StronglySorted_inv in Hs as [? _].
Qed.

Lemma combine_lt o h m h' m' :
  0 <= m < 60 -> 0 <= m' < 60 ->
  combine o h' m' < combine o h m <-> h' < h \/ (h' = h /\ m' < m).
Proof.
  intros Hm Hm'. unfold combine, us_per_hour, us_per_minute, us_per_second. split; intros H; lia.
Qed.

Lemma combine_ordinal_lt o o' h h' m m' :
  0 <= h < 24 -> 0 <= m < 60 -> 0 <= h' < 24 -> 0 <= m' < 60 -> o' < o ->
  combine o' h' m' < combine o h m.
Proof.
  intros. unfold combine, us_per_day, us_per_hour, us_per_minute, us_per_second. nia.
Qed.

Section days.
Context (zone : Zone) {laws : ZoneLaws zone} (compiled : CompiledCron) (Hok : cron_ok compiled).

(** Everything the expression selects on the days [from, to) has passed. *)
Definition days_passed (after from to : Z) : Prop :=
  forall o h m, from <= o < to -> day_matches compiled o = true ->
    h ∈ hours compiled -> m ∈ minutes compiled -> passed zone after (combine o h m).

Lemma search_days_spec fuel until after end_year current r :
  search_days fuel zone compiled until after end_year current = Some (Ok r) ->
  match r with
  | Some c => exists o h m, current <= o /\ day_matches compiled o = true /\
      h ∈ hours compiled /\ m ∈ minutes compiled /\ first_shown zone (combine o h m) c /\
      after < c /\ days_passed after current o /\
      (forall h' m', h' ∈ hours compiled -> m' ∈ minutes compiled ->
         combine o h' m' < combine o h m -> passed zone after (combine o h' m'))
  | None => exists b, until = Some b /\
      days_passed after current (ordinal_of (zone_local zone b) + 1)
  end.
Proof.
  destruct Hok as [[Sm Rm] [Sh Rh] _ _ _ _].
  revert current r. induction fuel as [|fuel IH]; simpl; intros current r H; [done|].
  destruct (year _ <=? end_year); [|done].
  assert (forall b, until = Some b -> ordinal_of (zone_local zone b) < current ->
    exists b, until = Some b /\ days_passed after current (ordinal_of (zone_local zone b) + 1)) as Hexit.
  { intros b -> Hlt. exists b. split; [done|]. intros o h m Ho. lia. }
  assert (days_passed after current (current + 1) ->
    (if max_ordinal <=? current then Some (Raise OverflowError)
     else search_days fuel zone compiled until after end_year (current + 1)) = Some (Ok r) ->
    match r with
    | Some c => exists o h m, current <= o /\ day_matches compiled o = true /\
        h ∈ hours compiled /\ m ∈ minutes compiled /\ first_shown zone (combine o h m) c /\
        after < c /\ days_passed after current o /\
        (forall h' m', h' ∈ hours compiled -> m' ∈ minutes compiled ->
           combine o h' m' < combine o h m -> passed zone after (combine o h' m'))
    | None => exists b, until = Some b /\
        days_passed after current (ordinal_of (zone_local zone b) + 1)
    end) as Hnext.
  { intros Hday Hrest. destruct (max_ordinal <=? current); [done|]. specialize (IH _ _ Hrest).
    assert (forall to, days_passed after (current + 1) to -> days_passed after current to) as Hext.
    { intros to Hto o h m Ho. destruct (decide (o = current)) as [->|]; [|apply Hto; lia].
      apply Hday. lia. }
    destruct r as [c|].
    - destruct IH as (o & h & m & Ho & Hm & Hh & Hmi & Hf & Hlt & Hd & Hle).
      exists o, h, m. tsplit; try done; [lia|by apply Hext].
    - destruct IH as (b & Hb & Hd). exists b. split; [done|]. by apply Hext. }
  destruct (match until with None => Ok false | Some _ => _ end) as [[]|] eqn:Hu; [|clear Hu|done].
  { injection H as <-. destruct until as [b|]; [|done]. unfold to_local in Hu.
    apply rbind_ok in Hu as (l & [-> _]%check_range_ok & [= Hu]). bool_prop. by apply (Hexit b). }
  destruct (day_matches compiled current) eqn:Hdm.
  - destruct (search_hours _ _ _ _ _) as [[c|]|] eqn:Hs; [| |done].
    + injection H as <-. apply search_hours_spec in Hs; [|done].
      destruct Hs as (h & m & pre & post & mpre & mpost & Eh & Em & Hf & Hlt & P1 & P2).
      assert (h ∈ hours compiled) as Hh by (rewrite Eh; set_solver).
      assert (m ∈ minutes compiled) as Hm by (rewrite Em; set_solver).
      exists current, h, m. tsplit; try done; [intros ????; lia|].
      intros h' m' Hh' Hm' [Hl|[-> Hl]]%combine_lt; [| |by apply Rm..].
      * apply P1; [|done]. by apply (strongly_sorted_before (hours compiled) pre h post).
      * apply P2. by apply (strongly_sorted_before (minutes compiled) mpre m mpost).
    + apply search_hours_spec in Hs; [|done]. apply Hnext; [|done].
      intros o h m Ho _ Hh Hm. replace o with current by lia. by apply Hs.
  - apply Hnext; [|done]. intros o h m Ho Hdo. replace o with current in Hdo by lia. congruence.
Qed.

(** The fuel outlasts the loop. *)
Lemma search_days_fuel fuel until after end_year current :
  1 <= current -> days_before_year (end_year + 1) - current + 2 <= Z.of_nat fuel ->
  (1 <= fuel)%nat ->
  search_days fuel zone compiled until after end_year current <> None.
Proof.
  revert current. induction fuel as [|fuel IH]; intros current Hc Hf H1; [lia|]. simpl.
  destruct (year (date_of_ordinal current) <=? end_year) eqn:Hy; [|done]. bool_prop.
  apply year_le in Hy; [|done].
  destruct (match until with None => Ok false | Some _ => _ end) as [[]|]; [done| |done].
  assert (search_days fuel zone compiled until after end_year (current + 1) <> None) as Hrec.
  { apply IH; lia. }
  destruct (if day_matches compiled current then _ else _) as [[c|]|]; [done| |done].
  by destruct (max_ordinal <=? current).
Qed.

Lemma search_days_error fuel until after end_year current e :
  search_days fuel zone compiled until after end_year current = Some (Raise e) ->
  e = OverflowError \/ e = InvalidScheduleError.
Proof.
  revert current. induction fuel as [|fuel IH]; intros current; simpl; [done|].
  destruct (_ <=? end_year); [|intros [= <-]; auto].
  destruct (match until with None => Ok false | Some _ => _ end) as [[]|e'] eqn:Hu; [done| |].
  - destruct (if day_matches compiled current then _ else _) as [[c|]|e'] eqn:Hs; [done| |].
    + destruct (max_ordinal <=? current); [intros [= <-]; auto|apply IH].
    + intros [= ->]. destruct (day_matches compiled current); [|done].
      apply search_hours_error in Hs. auto.
  - intros [= ->]. destruct until; [|done]. unfold to_local, check_range in Hu.
    destruct (in_range _); [done|]. injection Hu as <-. auto.
Qed.

(** The search gives up only when every day it may search has passed. *)
Lemma search_days_exhausted fuel until after end_year current :
  1 <= current ->
  search_days fuel zone compiled until after end_year current = Some (Raise InvalidScheduleError) ->
  days_passed after current (days_before_year (end_year + 1) + 1).
Proof.
  revert current. induction fuel as [|fuel IH]; intros current Hc; simpl; [done|].
  pose proof (year_le current end_year Hc) as Hy. destruct (year (date_of_ordinal current) <=? end_year) eqn:E;
    bool_prop; [|by intros _ o h m Ho; lia].
  destruct (match until with None => Ok false | Some _ => _ end) as [[]|e] eqn:Hu; [done| |].
  2: { intros [= ->]. destruct until; [|done]. unfold to_local, check_range in Hu.
       by destruct (in_range _). }
  destruct (if day_matches compiled current then _ else _) as [[c|]|e] eqn:Hs; [done| |].
  - destruct (max_ordinal <=? current); [done|]. intros Hrest%IH; [|lia].
    intros o h m Ho Hdo Hh Hm. destruct (decide (o = current)) as [->|]; [|apply Hrest; done || lia].
    rewrite Hdo in Hs. apply search_hours_spec in Hs; [|done]. by apply Hs.
  - intros [= ->]. destruct (day_matches compiled current); [|done].
    by apply search_hours_error in Hs.
Qed.

Lemma in_range_ordinal local : in_range local = true -> 1 <= ordinal_of local <= max_ordinal.
Proof.
  unfold in_range, ordinal_of, us_per_day, us_per_hour, us_per_minute, us_per_second, max_ordinal.
  intros H. bool_prop.
  pose proof (Z.div_pos local (24 * (60 * (60 * 1000000))) ltac:(done) ltac:(lia)).
  assert (local / (24 * (60 * (60 * 1000000))) < 3652059) by (apply Z.div_lt_upper_bound; lia). lia.
Qed.

Lemma cron_search_fuel until after : cron_search zone compiled until after <> Raise AssertionError.
Proof.
  unfold cron_search, to_local. unfold check_range at 1.
  destruct (in_range (zone_local zone after)) eqn:Hr; [|discriminate].
  cbv beta iota delta [rbind]. apply in_range_ordinal in Hr. set (o := ordinal_of _) in *.
  set (ey := year (date_of_ordinal o) + MAX_CRON_SEARCH_YEARS).
  assert (o <= days_before_year (ey + 1)) as Hle.
  { apply year_le; [lia|]. subst ey. unfold MAX_CRON_SEARCH_YEARS. lia. }
  pose proof (search_days_fuel (search_fuel ey o) until after ey o) as Hf.
  destruct (search_days _ _ _ _ _ _ _) as [[r|e]|] eqn:E.
  - done.
  - intros [= ->]. by apply search_days_error in E as [?|?].
  - exfalso. apply Hf; [lia|unfold search_fuel; lia|unfold search_fuel; lia|done].
Qed.
End days.
