(* ===== verification/AutoScheduleProps.v ===== *)
(** Automation: the properties of schedules - the next occurrence is the first
    one, the Cron search terminates, previews and the misfire policy - and a zone with a
    clock change, for the witnesses. *)
From S2P Require Import Prelude PyDict PySeq AutoModels AutoRulesFacts AutoCalendar AutoCron.
From S2P Require Import Contracts.
From S2P Require Import AutoSchedules AutoSchedulesFacts.
From Stdlib Require Import Strings.String Sorting.Sorted.

(** ** Definitions *)

(** A clock one hour ahead until the instant [T] and back to UTC from it on: the
    hour from [T] is shown twice. *)
Definition fall_back (T : Z) : Zone := {|
  zone_local t := if t <? T then t + us_per_hour else t;
  zone_utc fold l :=
    if fold then (if l <? T then l - us_per_hour else l)
    else (if l <? T + us_per_hour then l - us_per_hour else l)
|}.

(** Midnight at the beginning of the day of ordinal 738000 (2021-07-28). *)
Definition demo_day : Z := 737999 * us_per_day.

#[export] Instance demo_zones : TimeZones := {|
  zone_named name :=
    if bool_decide (name = u "Europe/Demo") then Some (fall_back (demo_day + us_per_hour))
    else None
|}.

#[export] Instance demo_unicode : Unicode := {|
  lower_text s := s;
  decimal_value _ := None;
  other_digit _ := false
|}.

(** At 01:30 every day, for a year. *)
Definition demo_cron : ScheduleSpec :=
  {| active_from := None; active_until := Some (demo_day + 365 * us_per_day);
     sched := CronSchedule (u "30 1 * * *") (u "Europe/Demo") |}.

Definition demo_interval : ScheduleSpec :=
  {| active_from := Some demo_day; active_until := None; sched := IntervalSchedule 60 demo_day |}.

Definition demo_policy (m : MisfireMode) : MisfirePolicy :=
  {| mode := m; grace := 120 * us_per_second; catch_up_window := us_per_hour;
     max_catch_up := 3 |}.

Definition demo_first : Z := demo_day + 30 * us_per_minute.

Definition demo_now : Z := demo_day + 4 * us_per_day.

Definition demo_catch_up (m : MisfireMode) : MisfirePolicy :=
  {| mode := m; grace := 0; catch_up_window := 10 * us_per_day; max_catch_up := 2 |}.

(** ** Lemmas *)

Lemma fall_back_first_shown T local t :
  first_shown (fall_back T) local t ->
  t = (if local <? T + us_per_hour then local - us_per_hour else local).
Proof.
  intros [Hl Hm]. simpl in *. unfold us_per_hour, us_per_minute, us_per_second in *.
  destruct (local <? T + _) eqn:E; bool_prop.
  - specialize (Hm (local - 60 * (60 * 1000000))).
    destruct (t <? T) eqn:E1; bool_prop; [lia|].
    destruct (local - 60 * (60 * 1000000) <? T) eqn:E2; bool_prop; lia.
  - destruct (t <? T) eqn:E1; bool_prop; lia.
Qed.

#[export] Instance fall_back_laws T : ZoneLaws (fall_back T).
Proof.
  split.
  - intros t. simpl. unfold us_per_hour, us_per_minute, us_per_second.
    destruct (t <? T) eqn:E; bool_prop.
    + left. replace (_ <? _) with true by (symmetry; apply Z.ltb_lt; lia). lia.
    + right. replace (_ <? _) with false by (symmetry; apply Z.ltb_ge; lia). done.
  - intros l1 l2 t1 t2 ->%fall_back_first_shown ->%fall_back_first_shown Hlt.
    unfold us_per_hour, us_per_minute, us_per_second.
    destruct (l1 <? _) eqn:E1, (l2 <? _) eqn:E2; bool_prop; lia.
Qed.

Lemma demo_zone_named name zone :
  zone_named name = Some zone -> zone = fall_back (demo_day + us_per_hour).
Proof. simpl. case_bool_decide; [by intros [= <-]|done]. Qed.

Lemma demo_zone_laws name zone : zone_named name = Some zone -> ZoneLaws zone.
Proof. intros ->%demo_zone_named. apply _. Qed.

(** The clock falls back within one date. *)
Lemma demo_zone_dated t1 t2 : t1 <= t2 ->
  ordinal_of (zone_local (fall_back (demo_day + us_per_hour)) t1) <=
  ordinal_of (zone_local (fall_back (demo_day + us_per_hour)) t2).
Proof.
  intros Hle. unfold ordinal_of, demo_day. simpl.
  unfold us_per_day, us_per_hour, us_per_minute, us_per_second.
  destruct (t1 <? _) eqn:E1, (t2 <? _) eqn:E2; bool_prop; Z.to_euclidean_division_equations; lia.
Qed.

(** ** Examples *)

(** The twice-shown 01:30 runs once, at its first showing; the next run is the
    following day, now without the offset. *)
Example demo_cron_runs :
  preview_schedule demo_cron (Aware demo_day) 3 =
  Ok [demo_day + 30 * us_per_minute; demo_day + us_per_day + 90 * us_per_minute;
      demo_day + 2 * us_per_day + 90 * us_per_minute].
Proof. vm_compute. reflexivity. Qed.

Example demo_interval_runs :
  preview_schedule demo_interval (Aware 0) 2 = Ok [demo_day; demo_day + us_per_minute].
Proof. vm_compute. reflexivity. Qed.

(** ** Definitions *)

(** What the answer relies on: a zone that keeps PEP 495, and for an interval a
    distance to its anchor below 2^34 seconds (544 years), up to which the float
    seconds of the code are exact. *)
Definition supported `{TimeZones} (schedule : ScheduleSpec) (after : Z) : Prop :=
  match sched schedule with
  | OnceSchedule _ => True
  | IntervalSchedule every_seconds start_at =>
      1 <= every_seconds /\
      Z.max after (match active_from schedule with Some a => a - 1 | None => after end) - start_at
        < 2 ^ 34 * us_per_second
  | CronSchedule _ timezone => forall zone, zone_named timezone = Some zone -> ZoneLaws zone
  end.

(** A zone whose date never goes back. *)
Definition dates_advance (zone : Zone) : Prop :=
  forall t1 t2, t1 <= t2 -> ordinal_of (zone_local zone t1) <= ordinal_of (zone_local zone t2).

(** Successive next runs from a cursor. *)
Fixpoint runs_from `{Unicode} `{TimeZones} (schedule : ScheduleSpec) (cursor : Z) (l : list Z)
    : Prop :=
  match l with
  | [] => True
  | t :: l' => next_run_after schedule (Aware cursor) = Ok (Some t) /\ runs_from schedule t l'
  end.

(** The least element of the occurrences after an instant. *)
Definition next_is `{Unicode} `{TimeZones} (schedule : ScheduleSpec) (after t : Z) : Prop :=
  occurs schedule t /\ active schedule t /\ after < t /\
  forall t', occurs schedule t' -> active schedule t' -> after < t' -> t <= t'.

(** The instant a computation starts from is raised to the active period. *)
Definition raised (schedule : ScheduleSpec) (after : Z) : Z :=
  match active_from schedule with
  | Some a => if after <? a then a - 1 else after
  | None => after
  end.

(** Dates advance in the zone of a Cron schedule. *)
Definition dated `{TimeZones} (schedule : ScheduleSpec) : Prop :=
  match sched schedule with
  | CronSchedule _ timezone => forall zone, zone_named timezone = Some zone -> dates_advance zone
  | _ => True
  end.

(** The occurrences of the active period in [(cursor, now]], in order. *)
Definition occurrences_between `{Unicode} `{TimeZones} (schedule : ScheduleSpec)
    (cursor now : Z) (l : list Z) : Prop :=
  StronglySorted Z.lt l /\
  forall t, t ∈ l <-> occurs schedule t /\ active schedule t /\ cursor < t <= now.

(** The policy is applied: the first due time is active and has come. *)
Definition due (schedule : ScheduleSpec) (first now : Z) : Prop :=
  active schedule first /\ first <= now.

(** The part of the window a bounded scan looks at. *)
Definition scan_from (first now : Z) (policy : MisfirePolicy) : Z :=
  Z.max first (now - catch_up_window policy).

Section schedules.
Context {unicode : Unicode} {zones : TimeZones}.

(** ** One occurrence *)

Lemma first_shown_exists zone t : ZoneLaws zone ->
  exists t0, first_shown zone (zone_local zone t) t0 /\ t0 <= t.
Proof.
  intros Hl. set (l := zone_local zone t). set (a := zone_utc zone false l).
  set (b := zone_utc zone true l).
  assert (forall t', zone_local zone t' = l -> t' = a \/ t' = b) as Hab.
  { intros t' Ht'. unfold a, b. rewrite <-Ht'. destruct (zone_folds t') as [E|E]; auto. }
  assert (forall c, zone_local zone c = l -> (forall t', zone_local zone t' = l -> c <= t') ->
    exists t0, first_shown zone l t0 /\ t0 <= t) as Hmin.
  { intros c Hc Hle. exists c. split; [done|by apply Hle]. }
  destruct (decide (zone_local zone a = l)) as [Ha|Ha], (decide (zone_local zone b = l)) as [Hb|Hb].
  - destruct (decide (a <= b)); [apply (Hmin a)|apply (Hmin b)]; try done;
      intros t' [->| ->]%Hab; lia.
  - apply (Hmin a); [done|]. intros t' Ht'. destruct (Hab t' Ht') as [->| ->]; [lia|done].
  - apply (Hmin b); [done|]. intros t' Ht'. destruct (Hab t' Ht') as [->| ->]; [done|lia].
  - destruct (Hab t eq_refl) as [E|E]; rewrite <-E in *; done.
Qed.

Lemma cron_value_ordinal compiled o h m :
  cron_ok compiled -> day_matches compiled o = true -> h ∈ hours compiled ->
  m ∈ minutes compiled ->
  ordinal_of (combine o h m) = o /\ cron_value compiled (combine o h m).
Proof.
  intros [[_ Rm] [_ Rh] _ _ _ _] Hd Hh Hm.
  assert (ordinal_of (combine o h m) = o) as E by (apply ordinal_of_combine; auto).
  split; [done|]. split; [by rewrite E|]. exists h, m. by rewrite E.
Qed.

(** Minimality of what the day search returns. *)
Lemma cron_search_first zone compiled until after c :
  ZoneLaws zone -> cron_ok compiled ->
  cron_search zone compiled until after = Ok (Some c) ->
  after < c /\ cron_value compiled (zone_local zone c) /\
  first_shown zone (zone_local zone c) c /\
  forall t, cron_value compiled (zone_local zone t) -> first_shown zone (zone_local zone t) t ->
    after < t -> c <= t.
Proof.
  intros Hl Hok H. pose proof Hok as [[Sm Rm] [Sh Rh] _ _ _ _]. unfold cron_search, to_local in H.
  apply rbind_ok in H as (la & [-> Hr]%check_range_ok & H).
  destruct (search_days _ _ _ _ _ _ _) as [[r|e]|] eqn:E; [|done|done].
  injection H as ->. apply search_days_spec in E; [|done..].
  destruct E as (o & h & m & Ho & Hd & Hh & Hm & Hf & Hlt & Hdays & Hday).
  destruct (cron_value_ordinal compiled o h m Hok Hd Hh Hm) as [Eo Hv].
  pose proof (proj1 Hf) as El. rewrite El. split; [done|]. split; [done|]. split; [done|].
  intros t (Hdt & h' & m' & Hh' & Hm' & Et) Ht Hat.
  destruct (decide (c <= t)) as [|Hgt]; [done|]. exfalso.
  set (o' := ordinal_of (zone_local zone t)) in *.
  assert (zone_local zone t < combine o h m) as Hll.
  { destruct (Z.lt_trichotomy (zone_local zone t) (combine o h m)) as [?|[E|Hg]]; [done|..].
    - rewrite E in Ht. pose proof (first_shown_unique _ _ _ _ Ht Hf). lia.
    - pose proof (zone_order _ _ _ _ Hf Ht Hg). lia. }
  assert (passed zone after (zone_local zone t)) as Hp; [|specialize (Hp t Ht); lia].
  rewrite Et in Hll |- *.
  destruct (Z.lt_trichotomy o' o) as [Hlo|[Heq|Hgo]].
  - destruct (decide (ordinal_of (zone_local zone after) <= o')) as [Hs|Hs].
    + apply Hdays; done || lia.
    + exfalso. destruct (first_shown_exists zone after Hl) as (a0 & Ha0 & Hale).
      assert (zone_local zone t < zone_local zone after) as Hla.
      { unfold o', ordinal_of in Hs.
        destruct (decide (zone_local zone t < zone_local zone after)) as [|Hge]; [done|].
        pose proof (Z.div_le_mono (zone_local zone after) (zone_local zone t) us_per_day
          ltac:(done) ltac:(lia)). lia. }
      pose proof (zone_order _ _ _ _ Ht Ha0 Hla). lia.
  - rewrite Heq in *. by apply Hday.
  - exfalso. pose proof (combine_ordinal_lt o' o h' h m' m (Rh _ Hh') (Rm _ Hm') (Rh _ Hh)
      (Rm _ Hm) Hgo). lia.
Qed.

Lemma interval_step start every_seconds after :
  1 <= every_seconds -> start <= after -> after - start < 2 ^ 34 * us_per_second ->
  let t := start + Z.max 1 (float_quotient (after - start) every_seconds + 1) * every_seconds
             * us_per_second in
  (exists k, 0 <= k /\ t = start + k * every_seconds * us_per_second) /\ after < t /\
  forall k, 0 <= k -> after < start + k * every_seconds * us_per_second ->
    t <= start + k * every_seconds * us_per_second.
Proof.
  intros He Hs Hd. rewrite float_quotient_exact by lia. cbv zeta.
  set (p := every_seconds * us_per_second). assert (0 < p) by (unfold p, us_per_second; lia).
  pose proof (Z.div_mod (after - start) p ltac:(lia)) as Hdm.
  pose proof (Z.mod_pos_bound (after - start) p ltac:(lia)) as Hmb.
  pose proof (Z.div_pos (after - start) p ltac:(lia) ltac:(lia)) as Hq.
  set (q := (after - start) / p) in *. rewrite Z.max_r by lia.
  assert (forall k, start + k * every_seconds * us_per_second = start + k * p) as Ek
    by (intros k; unfold p; lia).
  split; [|split].
  - exists (q + 1). lia.
  - rewrite Ek. nia.
  - intros k Hk. rewrite !Ek. intros Hlt. assert (q < k) by nia. nia.
Qed.

Lemma next_occurrence_first schedule after c :
  supported schedule after -> match active_from schedule with Some a => a - 1 <= after | None => True end ->
  next_occurrence schedule after = Ok (Some c) ->
  after < c /\ occurs schedule c /\ forall t, occurs schedule t -> after < t -> c <= t.
Proof.
  unfold supported, next_occurrence, occurs. intros Hsup Hfrom H. destruct (sched schedule) as [at_|e s|x z].
  - destruct (after <? at_) eqn:E; [|done]. injection H as <-. bool_prop.
    split; [done|]. split; [done|]. intros t ->. lia.
  - destruct Hsup as [He Hd]. destruct (after <? s) eqn:E; bool_prop.
    + injection H as <-. split; [done|]. split; [exists 0; lia|].
      intros t (k & Hk & ->) _. unfold us_per_second. nia.
    + apply rbind_ok in H as (t & [-> _]%check_range_ok & [= <-]).
      destruct (interval_step s e after He ltac:(lia) ltac:(lia)) as (H1 & H2 & H3).
      split; [done|]. split; [done|]. intros t' (k & Hk & ->). by apply H3.
  - apply rbind_ok in H as (compiled & Hc & H). destruct (zone_named z) as [zone|] eqn:Ez; [|done].
    pose proof (Hsup zone eq_refl) as Hl. pose proof (compile_cron_ok _ _ Hc) as Hok.
    destruct (cron_search_first _ _ _ _ _ Hl Hok H) as (H1 & H2 & H3 & H4).
    split; [done|]. split; [by exists compiled, zone|].
    intros t (compiled' & zone' & Hc' & Hz' & Hv & Hf). rewrite Hc in Hc'. injection Hc' as <-.
    injection Hz' as <-. by apply H4.
Qed.

Lemma supported_raised schedule after : supported schedule after -> supported schedule (raised schedule after).
Proof.
  unfold supported, raised. destruct (sched schedule); try done. intros [? H]. split; [done|].
  destruct (active_from schedule) as [a|]; [|done]. destruct (after <? a) eqn:E; bool_prop; lia.
Qed.

Lemma next_run_after_inv schedule after o :
  next_run_after schedule (Aware after) = Ok o ->
  (exists b, active_until schedule = Some b /\ b <= after /\ o = None) \/
  (match active_until schedule with Some b => after < b | None => True end /\
   exists c, next_occurrence schedule (raised schedule after) = Ok c /\
     o = match c, active_until schedule with
         | Some c', Some b => if b <=? c' then None else Some c'
         | _, _ => c
         end).
Proof.
  unfold next_run_after. simpl. intros H.
  destruct (active_until schedule) as [b|] eqn:Eb.
  - destruct (b <=? after) eqn:Hb; bool_prop.
    + injection H as <-. left. eauto.
    + right. split; [done|]. apply rbind_ok in H as (a & Ha & H).
      apply rbind_ok in H as (c & Hc & [= <-]). exists c. split; [|done].
      unfold raised. destruct (active_from schedule) as [f|]; [|by injection Ha as ->].
      destruct (after <? f); [|by injection Ha as ->]. by apply check_range_ok in Ha as [-> _].
  - right. split; [done|]. apply rbind_ok in H as (a & Ha & H).
    apply rbind_ok in H as (c & Hc & [= <-]). exists c. split; [|by destruct c].
    unfold raised. destruct (active_from schedule) as [f|]; [|by injection Ha as ->].
    destruct (after <? f); [|by injection Ha as ->]. by apply check_range_ok in Ha as [-> _].
Qed.

Lemma next_run_first schedule after t :
  supported schedule after -> next_run_after schedule (Aware after) = Ok (Some t) ->
  next_is schedule after t.
Proof.
  intros Hsup H. apply next_run_after_inv in H as [(b & _ & _ & [=])|(Hu & c & Hc & Ho)].
  assert (c = Some t /\ match active_until schedule with Some b => t < b | None => True end)
    as [-> Hub].
  { destruct c as [c|], (active_until schedule) as [b|]; try done.
    destruct (b <=? c) eqn:E; [done|]. injection Ho as ->. bool_prop. done. }
  assert (match active_from schedule with Some a => a - 1 <= raised schedule after | None => True end)
    as Hfrom.
  { unfold raised. destruct (active_from schedule) as [a|]; [|done].
    destruct (after <? a) eqn:E; bool_prop; lia. }
  destruct (next_occurrence_first schedule _ _ (supported_raised _ _ Hsup) Hfrom Hc) as (H1 & H2 & H3).
  assert (after <= raised schedule after) as Hra.
  { unfold raised. destruct (active_from schedule) as [a|]; [|lia].
    destruct (after <? a) eqn:E; bool_prop; lia. }
  split; [done|]. split; [|split; [lia|]].
  - split.
    + intros a Ea. rewrite Ea in Hfrom. lia.
    + intros b Eb. by rewrite Eb in Hub.
  - intros t' Ho' [Ha' _] Hlt'. apply H3; [done|]. unfold raised.
    destruct (active_from schedule) as [a|] eqn:Ea; [|done].
    destruct (after <? a); [|done]. specialize (Ha' a eq_refl). lia.
Qed.

(** ** Exhaustion *)

Lemma next_occurrence_none schedule after :
  supported schedule after -> dated schedule -> next_occurrence schedule after = Ok None ->
  forall t, occurs schedule t -> active schedule t -> t <= after.
Proof.
  unfold supported, next_occurrence, occurs, dated. intros Hsup Hdt H t Ht [_ Hu].
  destruct (sched schedule) as [at_|e s|x z].
  - subst t. destruct (after <? at_) eqn:E; [done|]. by bool_prop.
  - destruct (after <? s); [done|]. by apply rbind_ok in H as (? & _ & ?).
  - destruct Ht as (compiled & zone & Hc & Hz & (Hdt' & h & m & Hh & Hm & Et) & Hf).
    rewrite Hc in H. simpl in H. rewrite Hz in H.
    pose proof (Hsup zone Hz) as Hl. pose proof (Hdt zone Hz) as Hadv.
    pose proof (compile_cron_ok _ _ Hc) as Hok. unfold cron_search, to_local in H.
    apply rbind_ok in H as (la & [-> Hr]%check_range_ok & H).
    destruct (search_days _ _ _ _ _ _ _) as [[r|e]|] eqn:E; [|done|done].
    injection H as ->. apply search_days_spec in E as (b & Eb & Hdays); [|done..].
    destruct (decide (t <= after)) as [|Hgt]; [done|].
    pose proof (Hadv t b ltac:(specialize (Hu b Eb); lia)) as Hb.
    pose proof (Hadv after t ltac:(lia)) as Ha. rewrite Et in Hf.
    apply (Hdays (ordinal_of (zone_local zone t)) h m); try done; lia.
Qed.

Lemma next_run_none schedule after :
  supported schedule after -> dated schedule ->
  next_run_after schedule (Aware after) = Ok None ->
  forall t, occurs schedule t -> active schedule t -> t <= after.
Proof.
  intros Hsup Hdt H t Ht Hact. pose proof Hact as [Hfr Hun].
  apply next_run_after_inv in H as [(b & Eb & Hb & _)|(Hu & c & Hc & Ho)].
  { specialize (Hun b Eb). lia. }
  assert (t <= raised schedule after -> t <= after) as Hra.
  { unfold raised. destruct (active_from schedule) as [a|]; [|done].
    destruct (after <? a) eqn:E; [|done]. specialize (Hfr a eq_refl). lia. }
  destruct c as [c|]; [|apply Hra; by apply (next_occurrence_none schedule (raised schedule after));
    [apply supported_raised|..]].
  destruct (active_until schedule) as [b|] eqn:Eb; [|done].
  destruct (b <=? c) eqn:E; [|done]. bool_prop.
  assert (match active_from schedule with Some a => a - 1 <= raised schedule after | None => True end)
    as Hfrom.
  { unfold raised. destruct (active_from schedule) as [a|]; [|done].
    destruct (after <? a) eqn:E'; bool_prop; lia. }
  destruct (next_occurrence_first schedule _ _ (supported_raised _ _ Hsup) Hfrom Hc) as (_ & _ & H3).
  apply Hra. destruct (decide (t <= raised schedule after)) as [|Hgt]; [done|].
  specialize (H3 t Ht ltac:(lia)). specialize (Hun b eq_refl). lia.
Qed.

Lemma supported_mono schedule a b : a <= b -> supported schedule b -> supported schedule a.
Proof.
  unfold supported. intros Hab. destruct (sched schedule); try done. intros [? H]. split; [done|].
  destruct (active_from schedule); lia.
Qed.

(** ** Scans *)

Lemma occurrences_nil schedule cursor now :
  (forall t, occurs schedule t -> active schedule t -> cursor < t -> now < t) ->
  occurrences_between schedule cursor now [].
Proof.
  intros H. split; [constructor|]. intros t. split; [by intros ?%elem_of_nil|].
  intros (Ho & Ha & H1 & H2). specialize (H t Ho Ha H1). lia.
Qed.

Lemma occurrences_cons schedule cursor now c l :
  next_is schedule cursor c -> c <= now -> occurrences_between schedule c now l ->
  occurrences_between schedule cursor now (c :: l).
Proof.
  intros (Ho & Ha & Hlt & Hmin) Hle [Hs Hl]. split.
  - constructor; [done|]. apply Forall_forall. intros t Ht. by apply Hl in Ht as (_ & _ & ? & _).
  - intros t. rewrite elem_of_cons, Hl. split.
    + intros [->|(? & ? & ? & ?)]; tsplit; try done; lia.
    + intros (Ht & Hat & H1 & H2). destruct (decide (t = c)) as [|Hne]; [by left|right].
      specialize (Hmin t Ht Hat H1). tsplit; try done; lia.
Qed.

Lemma scan_spec n schedule cursor now l :
  cursor <= now -> supported schedule now -> dated schedule ->
  scan n schedule cursor now = Ok l ->
  occurrences_between schedule cursor now l /\ (List.length l < n)%nat.
Proof.
  intros Hle Hsup Hdt. revert cursor l Hle. induction n as [|n IH]; intros cursor l Hle; simpl; [done|].
  intros H. apply rbind_ok in H as (c & Hc & H).
  pose proof (supported_mono _ _ _ Hle Hsup) as Hs. destruct c as [c|].
  - pose proof (next_run_first _ _ _ Hs Hc) as Hn. destruct (now <? c) eqn:E; bool_prop.
    + injection H as <-. split; [|simpl; lia]. apply occurrences_nil. intros t Ho Ha Hlt.
      destruct Hn as (_ & _ & _ & Hmin). specialize (Hmin t Ho Ha Hlt). lia.
    + apply rbind_ok in H as (rest & Hr & [= <-]). destruct (IH c rest E Hr) as [H1 H2].
      split; [by apply occurrences_cons|simpl; lia].
  - injection H as <-. split; [|simpl; lia]. apply occurrences_nil. intros t Ho Ha Hlt.
    pose proof (next_run_none _ _ Hs Hdt Hc t Ho Ha). lia.
Qed.

(** ** Previews *)

Lemma last_default {A} (l : list A) a b : l <> [] -> List.last l a = List.last l b.
Proof.
  induction l as [|x l IH]; [done|]. intros _. destruct l as [|y l]; [done|]. by apply IH.
Qed.

Lemma preview_loop_spec n schedule cursor l :
  preview_loop n schedule cursor = Ok l ->
  runs_from schedule cursor l /\ (List.length l <= n)%nat /\
  ((List.length l < n)%nat -> next_run_after schedule (Aware (List.last l cursor)) = Ok None).
Proof.
  revert cursor l. induction n as [|n IH]; simpl; intros cursor l H.
  { injection H as <-. simpl. split; [done|]. split; lia. }
  apply rbind_ok in H as (c & Hc & H). destruct c as [c|].
  - apply rbind_ok in H as (rest & Hr & [= <-]). destruct (IH _ _ Hr) as (H1 & H2 & H3).
    simpl. split; [done|]. split; [lia|]. intros Hlt.
    destruct rest as [|y rest]; [apply H3; simpl in *; lia|].
    rewrite (last_default (y :: rest) cursor c) by done. apply H3. simpl in *. lia.
  - injection H as <-. simpl. split; [done|]. split; [lia|done].
Qed.
End schedules.

(** ** Misfires *)

Section misfires.
Context {unicode : Unicode} {zones : TimeZones}.

Lemma materialize_due schedule first now policy :
  due schedule first now ->
  materialize_schedule schedule (Aware first) (Aware now) policy =
  apply_policy schedule first now policy.
Proof.
  intros [[Ha Hb] Hle]. unfold materialize_schedule. simpl.
  assert (match active_from schedule with
          | Some a => if first <? a then
              (let? before := check_range (first - 1) in next_run_after schedule (Aware before))
              else Ok (Some first)
          | None => Ok (Some first) end = Ok (Some first)) as ->.
  { destruct (active_from schedule) as [a|]; [|done].
    replace (first <? a) with false; [done|]. symmetry. apply Z.ltb_ge. by apply Ha. }
  simpl. assert (match active_until schedule with Some b => b <=? first | None => false end = false)
    as ->.
  { destruct (active_until schedule) as [b|]; [|done]. apply Z.leb_gt. by apply Hb. }
  replace (now <? first) with false; [done|]. symmetry. by apply Z.ltb_ge.
Qed.

(** What a scanning policy computes. *)
Lemma apply_policy_scan schedule first now policy m :
  due schedule first now -> supported schedule now -> dated schedule ->
  0 <= catch_up_window policy ->
  match mode policy, sched schedule with
  | SKIP, _ | LATEST, IntervalSchedule _ _ => False
  | _, _ => True
  end ->
  apply_policy schedule first now policy = Ok m ->
  exists l, occurrences_between schedule (scan_from first now policy - 1) now l /\
    zlen l < MAX_MISFIRE_SCAN /\
    next_run_after schedule (Aware now) = Ok (next_run_at m) /\
    due_at m = match mode policy with
               | LATEST => last_only l
               | _ => take (Z.to_nat (max_catch_up policy)) l
               end /\
    (skipped_before m = None <->
       first = scan_from first now policy /\ zlen (due_at m) = zlen l).
Proof.
  intros [Hact Hle] Hsup Hdt Hw Hm H. unfold apply_policy in H.
  apply rbind_ok in H as (future & Hf & H). apply rbind_ok in H as (g & _ & H).
  apply rbind_ok in H as (wb & [-> _]%check_range_ok & H).
  assert (scan_from first now policy - 1 <= now) as Hsc by (unfold scan_from; lia).
  assert (forall sel : list Z -> list Z,
    (let? cursor := check_range (scan_from first now policy - 1) in
     let? due_times := scan (Z.to_nat MAX_MISFIRE_SCAN) schedule cursor now in
     Ok {| due_at := sel due_times; next_run_at := future;
           skipped_before := if (first <? scan_from first now policy) ||
                                (zlen (sel due_times) <? zlen due_times)
                             then Some first else None |}) = Ok m ->
    (forall l : list Z, zlen (sel l) <= zlen l) ->
    exists l, occurrences_between schedule (scan_from first now policy - 1) now l /\
      zlen l < MAX_MISFIRE_SCAN /\
      next_run_after schedule (Aware now) = Ok (next_run_at m) /\ due_at m = sel l /\
      (skipped_before m = None <->
         first = scan_from first now policy /\ zlen (due_at m) = zlen l)) as Hgo.
  { intros sel Hs Hsel. apply rbind_ok in Hs as (c & [-> _]%check_range_ok & Hs).
    apply rbind_ok in Hs as (l & Hl & [= <-]). apply scan_spec in Hl as [Hl Hn]; [|done..].
    exists l. split; [done|]. split; [unfold zlen, MAX_MISFIRE_SCAN in *; lia|].
    split; [done|]. split; [done|]. simpl. specialize (Hsel l).
    assert (first <= scan_from first now policy) by (unfold scan_from; lia).
    destruct ((first <? scan_from first now policy) || (zlen (sel l) <? zlen l)) eqn:E.
    - split; [done|]. intros [E1 E2]. rewrite <-E1, E2, !Z.ltb_irrefl in E. done.
    - split; [intros _|done]. bool_prop. lia. }
  assert (forall l : list Z, zlen (last_only l) <= zlen l) as Hlast.
  { intros l. unfold last_only, zlen. rewrite <-(length_rev l). destruct (rev l); simpl; lia. }
  assert (forall l : list Z, zlen (take (Z.to_nat (max_catch_up policy)) l) <= zlen l) as Htake.
  { intros l. unfold zlen. rewrite length_take. lia. }
  destruct (mode policy); [done| |].
  - destruct (sched schedule); [|done|]; by apply (Hgo last_only).
  - by apply (Hgo (take (Z.to_nat (max_catch_up policy)))).
Qed.

(** The latest due time of an interval. *)
Lemma latest_interval_spec every_seconds first limit_ latest :
  1 <= every_seconds -> first <= limit_ -> limit_ - first < 2 ^ 34 * us_per_second ->
  latest_interval_due every_seconds first limit_ = Ok latest ->
  (exists k, 0 <= k /\ latest = first + k * every_seconds * us_per_second) /\
  latest <= limit_ /\
  forall k, 0 <= k -> first + k * every_seconds * us_per_second <= limit_ ->
    first + k * every_seconds * us_per_second <= latest.
Proof.
  intros He Hl Hd H. unfold latest_interval_due in H. apply check_range_ok in H as [-> _].
  rewrite float_quotient_exact by lia. set (p := every_seconds * us_per_second).
  assert (0 < p) by (unfold p, us_per_second; lia).
  pose proof (Z.div_mod (limit_ - first) p ltac:(lia)) as Hdm.
  pose proof (Z.mod_pos_bound (limit_ - first) p ltac:(lia)) as Hmb.
  pose proof (Z.div_pos (limit_ - first) p ltac:(lia) ltac:(lia)) as Hq.
  set (q := (limit_ - first) / p) in *. rewrite Z.max_r by lia.
  assert (forall k, first + k * every_seconds * us_per_second = first + k * p) as Ek
    by (intros k; unfold p; lia).
  split; [|split].
  - exists q. done.
  - rewrite Ek. nia.
  - intros k Hk. rewrite !Ek. intros Hlt. assert (k <= q) by nia. nia.
Qed.
Lemma last_only_subseteq l : last_only l ⊆ l.
Proof.
  unfold last_only. intros t. destruct (rev l) as [|y r] eqn:E; [by intros ?%elem_of_nil|].
  intros ->%list_elem_of_singleton. apply list_elem_of_In, in_rev. rewrite E. by left.
Qed.

(** What LATEST computes for an interval. *)
Lemma apply_policy_latest schedule every_seconds start first now policy m :
  due schedule first now -> sched schedule = IntervalSchedule every_seconds start ->
  1 <= every_seconds -> now - first < 2 ^ 34 * us_per_second -> mode policy = LATEST ->
  apply_policy schedule first now policy = Ok m ->
  exists t k, 0 <= k /\ t = first + k * every_seconds * us_per_second /\
    t <= now /\ active schedule t /\
    (forall j, 0 <= j -> first + j * every_seconds * us_per_second <= now ->
       active schedule (first + j * every_seconds * us_per_second) ->
       first + j * every_seconds * us_per_second <= t) /\
    due_at m = (if now - catch_up_window policy <=? t then [t] else []) /\
    (skipped_before m = None <-> t = first).
Proof.
  intros [[Ha Hb] Hle] Hk He Hdist Hm H. unfold apply_policy in H. rewrite Hm, Hk in H.
  apply rbind_ok in H as (future & Hf & H). apply rbind_ok in H as (g & _ & H).
  apply rbind_ok in H as (wb & [-> _]%check_range_ok & H).
  apply rbind_ok in H as (la & Hla & H). apply rbind_ok in H as (t & Ht & [= <-]).
  assert (first <= la /\ la <= now /\ (forall b, active_until schedule = Some b -> la < b) /\
    forall u, u <= now -> (forall b, active_until schedule = Some b -> u < b) -> u <= la)
    as (Hl1 & Hl2 & Hl3 & Hl4).
  { destruct (active_until schedule) as [b|].
    - apply rbind_ok in Hla as (b' & [-> _]%check_range_ok & [= <-]). specialize (Hb b eq_refl).
      split; [lia|]. split; [lia|]. split; [intros ? [= <-]; lia|].
      intros u Hu Hub. specialize (Hub b eq_refl). lia.
    - injection Hla as <-. split; [lia|]. split; [lia|]. split; [done|auto]. }
  apply latest_interval_spec in Ht as ((k & Hk0 & Et) & Hle1 & Hmax); [|lia..].
  assert (first <= t) as Hft by (unfold us_per_second in *; nia).
  exists t, k. split; [done|]. split; [done|]. split; [lia|]. split.
  { split; [intros a Ea; specialize (Ha a Ea); lia|intros b Eb; specialize (Hl3 b Eb); lia]. }
  split.
  { intros j Hj Hjn [_ Hjb]. apply Hmax; [done|]. by apply Hl4. }
  split; [done|]. simpl. destruct (t =? first) eqn:E; bool_prop; split; done.
Qed.

(** Every policy answers with the first run after now as the next wakeup. *)
Lemma apply_policy_next schedule first now policy m :
  apply_policy schedule first now policy = Ok m ->
  next_run_after schedule (Aware now) = Ok (next_run_at m).
Proof.
  unfold apply_policy. intros H. apply rbind_ok in H as (future & Hf & H).
  apply rbind_ok in H as (g & _ & H). apply rbind_ok in H as (wb & _ & H). rewrite Hf.
  destruct (mode policy); [by destruct (first <? g); injection H as <-|destruct (sched schedule)|];
    apply rbind_ok in H as (? & _ & H); apply rbind_ok in H as (? & _ & [= <-]); done.
Qed.

End misfires.

(** ** Declarations *)

Section declarations.
Context {unicode : Unicode} {zones : TimeZones}.

Lemma guard_ok {A} (b : bool) (e : exn) (r : res exn A) a :
  (do? rraise_if b e in r) = Ok a <-> b = false /\ r = Ok a.
Proof. destruct b; simpl; naive_solver. Qed.

Lemma validated_ok {A} (r : res exn A) a : validated r = Ok a <-> r = Ok a.
Proof. by destruct r. Qed.

Lemma active_bound_ok v o : active_bound_is_aware v = Ok o <-> v = Aware <$> o.
Proof.
  destruct v as [[t|t]|], o as [o|]; simpl; split; try done; by intros [= ->].
Qed.

Lemma active_period_ok spec spec' :
  active_period_is_ordered spec = Ok spec' <->
  spec' = spec /\
  forall a b, active_from spec = Some a -> active_until spec = Some b -> a < b.
Proof.
  unfold active_period_is_ordered. destruct (active_from spec) as [a|], (active_until spec) as [b|].
  2-4: split; [intros [= <-]; split; [done|intros ?? [=] [=]]|intros [-> _]; done].
  destruct (b <=? a) eqn:E; cbn [rraise_if rbind]; bool_prop.
  - split; [done|]. intros [_ H]. specialize (H a b eq_refl eq_refl). lia.
  - split; [intros [= <-]; split; [done|]; intros ?? [= <-] [= <-]; lia|by intros [-> _]].
Qed.

Lemma interval_component_ok v n : interval_component v = Ok n <-> v = PyInt n /\ 0 <= n.
Proof.
  unfold interval_component. destruct v; try (split; [done|intros [[=] _]]).
  rewrite guard_ok, Z.ltb_ge. split; [intros [? [= <-]]; done|intros [[= <-] ?]; done].
Qed.

Lemma interval_schedule_ok n start from until spec :
  interval_schedule n start from until = Ok spec <->
  exists t, start = Aware t /\ 60 <= n <= 31536000 /\
    sched spec = IntervalSchedule n t /\
    from = Aware <$> active_from spec /\ until = Aware <$> active_until spec /\
    (forall a b, active_from spec = Some a -> active_until spec = Some b -> a < b).
Proof.
  unfold interval_schedule, schedule_model. rewrite validated_ok. split.
  - intros H. apply rbind_ok in H as (a & ->%active_bound_ok & H).
    apply rbind_ok in H as (b & ->%active_bound_ok & H). apply rbind_ok in H as (k & Hk & H).
    apply active_period_ok in H as [-> Hab]. rewrite !guard_ok in Hk.
    destruct Hk as (H1 & H2 & Hk). apply rbind_ok in Hk as (t & Ht & [= <-]).
    exists t. unfold MIN_INTERVAL_SECONDS, MAX_INTERVAL_SECONDS in *. bool_prop. simpl in *.
    destruct start; [|done]. injection Ht as ->. tsplit; done || lia.
  - intros (t & -> & [H1 H2] & Hk & -> & -> & Hab).
    rewrite (proj2 (active_bound_ok _ (active_from spec)) eq_refl).
    rewrite (proj2 (active_bound_ok _ (active_until spec)) eq_refl). cbn [rbind].
    unfold MIN_INTERVAL_SECONDS, MAX_INTERVAL_SECONDS.
    rewrite !(proj2 (Z.ltb_ge _ _)) by lia. cbn [rraise_if rbind aware_utc].
    apply active_period_ok. simpl. split; [|done]. by destruct spec; simpl in *; subst.
Qed.
End declarations.

(** ** What an accepted expression may still fail on *)

Section accepted.
Context {unicode : Unicode} {zones : TimeZones}.

Definition local_year (zone : Zone) (t : Z) : Z :=
  year (date_of_ordinal (ordinal_of (zone_local zone t))).

Lemma accepted_cron expression timezone from until spec :
  cron expression timezone from until = Ok spec ->
  exists compiled zone, sched spec = CronSchedule (lower expression) timezone /\
    compile_cron (lower expression) = Ok compiled /\ cron_ok compiled /\
    zone_named timezone = Some zone.
Proof.
  unfold cron, schedule_model. intros H. rewrite validated_ok in H.
  apply rbind_ok in H as (a & _ & H). apply rbind_ok in H as (b & _ & H).
  apply rbind_ok in H as (k & Hk & H). apply active_period_ok in H as [-> _].
  apply rbind_ok in Hk as ([] & _ & Hk). apply rbind_ok in Hk as ([] & _ & Hk).
  apply rbind_ok in Hk as (e & He & Hk). apply rbind_ok in Hk as (z & Hz & [= <-]).
  unfold timezone_is_available in Hz. apply rbind_ok in Hz as ([] & _ & Hz).
  destruct (zone_named timezone) as [zone|] eqn:Ez; [|done]. injection Hz as <-.
  unfold expression_has_five_fields in He. apply rbind_ok in He as ([] & _ & He).
  apply rbind_ok in He as ([] & _ & He). apply rbind_ok in He as (compiled & Hc & [= <-]).
  exists compiled, zone. simpl. split; [done|]. split; [done|].
  split; [by apply compile_cron_ok in Hc|done].
Qed.

Lemma next_run_after_error schedule after e :
  next_run_after schedule (Aware after) = Raise e ->
  e = OverflowError \/ next_occurrence schedule (raised schedule after) = Raise e.
Proof.
  unfold next_run_after, raised. simpl. destruct (match active_until schedule with Some b => _ | None => _ end);
    [done|].
  destruct (active_from schedule) as [a|]; [destruct (after <? a)|]; simpl.
  - unfold check_range. destruct (in_range (a - 1)); simpl; [|intros [= <-]; by left].
    destruct (next_occurrence _ _); simpl; [done|by right].
  - destruct (next_occurrence _ _); simpl; [done|by right].
  - destruct (next_occurrence _ _); simpl; [done|by right].
Qed.

Lemma cron_search_error zone compiled until after e :
  cron_search zone compiled until after = Raise e -> e <> OverflowError -> e = InvalidScheduleError.
Proof.
  intros H Hne. pose proof (cron_search_fuel zone compiled until after) as Hf. revert H Hf.
  unfold cron_search, to_local, check_range. destruct (in_range _); cbn [rbind];
    [|by intros [= <-]].
  destruct (search_days _ _ _ _ _ _ _) as [[x|e']|] eqn:E; [done| |by intros [= <-]].
  intros [= ->] _. by apply search_days_error in E as [?|?].
Qed.

Lemma cron_search_exhausted zone compiled until after t :
  ZoneLaws zone -> dates_advance zone -> cron_ok compiled ->
  cron_search zone compiled until after = Raise InvalidScheduleError ->
  cron_value compiled (zone_local zone t) -> first_shown zone (zone_local zone t) t -> after < t ->
  local_year zone after + MAX_CRON_SEARCH_YEARS < local_year zone t.
Proof.
  intros Hl Hadv Hok H (Hd & h & m & Hh & Hm & Et) Hf Hlt. apply Z.nle_gt. intros Hle.
  unfold cron_search, to_local in H. unfold check_range at 1 in H.
  destruct (in_range (zone_local zone after)) eqn:Hr; cbn [rbind] in H; [|congruence].
  apply in_range_ordinal in Hr. pose proof (Hadv after t ltac:(lia)) as Ho.
  destruct (search_days _ _ _ _ _ _ _) as [r|] eqn:E; [subst r|done].
  apply search_days_exhausted in E; [|done..|lia]. unfold local_year in Hle.
  apply year_le in Hle; [|lia]. rewrite Et in Hf.
  specialize (E (ordinal_of (zone_local zone t)) h m ltac:(lia) Hd Hh Hm _ Hf). lia.
Qed.
End accepted.

(** ** Properties *)

Section properties.
Context {unicode : Unicode} {zones : TimeZones}.

(** C26: [next_run_after] answers with the first occurrence.  The instant it returns
    is an occurrence of the schedule inside the active period and after the given
    instant, and no other such occurrence comes earlier - for one-time schedules, for
    interval schedules up to 2^34 seconds (544 years) from their anchor, beyond which
    the float seconds of the code can skip a run ([distant_anchor_drops_a_due_run]), and
    for Cron schedules across the gaps and overlaps of a zone that keeps PEP 495. *)
Theorem next_run_is_first_occurrence schedule after t :
  supported schedule after -> next_run_after schedule (Aware after) = Ok (Some t) ->
  next_is schedule after t.
Proof. apply next_run_first. Qed.

(** When [next_run_after] answers [None] the schedule is exhausted: it has
    no occurrence left in its active period. *)
Theorem no_next_run_means_exhausted schedule after :
  supported schedule after -> dated schedule ->
  next_run_after schedule (Aware after) = Ok None ->
  forall t, occurs schedule t -> active schedule t -> t <= after.
Proof. apply next_run_none. Qed.

(** the day loop of the Cron search ends within the years it may search:
    it never needs more iterations than the days from its start to the end of the
    eighth following year, so it answers, or raises that no run time exists, or
    that a date left the supported range. *)
Theorem cron_search_ends zone compiled until after :
  match cron_search zone compiled until after with
  | Ok _ => True
  | Raise e => e = InvalidScheduleError \/ e = OverflowError
  end.
Proof.
  pose proof (cron_search_fuel zone compiled until after) as Hf. revert Hf.
  unfold cron_search, to_local, check_range.
  destruct (in_range _); cbn [rbind]; [|auto].
  destruct (search_days _ _ _ _ _ _ _) as [[x|e]|] eqn:E; [done| |done].
  intros _. apply search_days_error in E. tauto.
Qed.

(** A preview is the chain of next runs: each instant is the next run after
    the one before it, there are at most [count], they increase strictly, and a
    shorter preview means that the schedule has no further run. *)
Theorem preview_is_chain_of_next_runs schedule after count l :
  preview_schedule schedule (Aware after) count = Ok l ->
  1 <= count <= 100 /\ runs_from schedule after l /\ zlen l <= count /\
  (zlen l < count -> next_run_after schedule (Aware (List.last l after)) = Ok None) /\
  ((forall t, t ∈ after :: l -> supported schedule t) -> StronglySorted Z.lt (after :: l)).
Proof.
  unfold preview_schedule. intros H. apply rbind_ok in H as ([] & Hc & H).
  apply rraise_if_ok in Hc. bool_prop. simpl in H. apply preview_loop_spec in H as (P1 & P2 & P3).
  unfold zlen. split; [lia|]. split; [done|]. split; [lia|]. split; [intros; apply P3; lia|].
  clear -P1. revert after P1. induction l as [|t l IH]; intros after P1 Hs.
  { constructor; constructor. }
  simpl in P1. destruct P1 as [Hn Hr].
  apply next_run_first in Hn as (_ & _ & Hlt & _); [|apply Hs; by left].
  specialize (IH t Hr (fun u Hu => Hs u (list_elem_of_further _ _ _ Hu))).
  constructor; [done|]. constructor; [done|].
  apply StronglySorted_inv in IH as [_ IH]. eapply Forall_impl; [exact IH|]. simpl. lia.
Qed.

(** catching up is exact.  For a due schedule in CATCH_UP mode the answer is
    the earliest [max_catch_up] occurrences between the later of the first due
    time and the start of the catch-up window, and now - all of them when there
    are not more -, the next wakeup is the first run after now, and something is
    reported as skipped exactly when an occurrence was left out. *)
Theorem catch_up_takes_the_earliest schedule first now policy m :
  due schedule first now -> supported schedule now -> dated schedule ->
  mode policy = CATCH_UP -> MisfirePolicy_post_init policy = Ok tt ->
  materialize_schedule schedule (Aware first) (Aware now) policy = Ok m ->
  exists l, occurrences_between schedule (scan_from first now policy - 1) now l /\
    due_at m = take (Z.to_nat (max_catch_up policy)) l /\
    next_run_after schedule (Aware now) = Ok (next_run_at m) /\
    (skipped_before m = None <->
       first = scan_from first now policy /\ zlen l <= max_catch_up policy).
Proof.
  intros Hd Hs Hdt Hm Hp H. rewrite materialize_due in H by done.
  unfold MisfirePolicy_post_init in Hp. rewrite !rbind_tt, !rraise_if_ok in Hp.
  destruct Hp as (_ & Hw & Hc). bool_prop.
  destruct (apply_policy_scan schedule first now policy m) as (l & H1 & _ & H2 & H3 & H4);
    try done; [lia|by rewrite Hm|]. rewrite Hm in H3. exists l.
  split; [done|]. split; [done|]. split; [done|]. rewrite H4, H3. unfold zlen.
  rewrite length_take. split; intros [? ?]; (split; [done|lia]).
Qed.

(** In LATEST mode a due interval yields its latest occurrence that is not
    in the future and inside the active period, if the window still covers it,
    and nothing otherwise; occurrences count from the first due time in whole
    intervals. *)
Theorem latest_takes_the_last_interval schedule every_seconds start first now policy m :
  due schedule first now -> sched schedule = IntervalSchedule every_seconds start ->
  1 <= every_seconds -> now - first < 2 ^ 34 * us_per_second -> mode policy = LATEST ->
  materialize_schedule schedule (Aware first) (Aware now) policy = Ok m ->
  exists t k, 0 <= k /\ t = first + k * every_seconds * us_per_second /\
    t <= now /\ active schedule t /\
    (forall j, 0 <= j -> first + j * every_seconds * us_per_second <= now ->
       active schedule (first + j * every_seconds * us_per_second) ->
       first + j * every_seconds * us_per_second <= t) /\
    due_at m = (if now - catch_up_window policy <=? t then [t] else []) /\
    (skipped_before m = None <-> t = first).
Proof.
  intros Hd Hk He Hdist Hm H. rewrite materialize_due in H by done.
  by eapply apply_policy_latest.
Qed.

(** In SKIP mode a due time inside the grace period runs, an older one is
    dropped and reported as skipped; either way the next wakeup is the first run
    after now. *)
Theorem skip_runs_within_grace schedule first now policy m :
  due schedule first now -> mode policy = SKIP ->
  materialize_schedule schedule (Aware first) (Aware now) policy = Ok m ->
  due_at m = (if now - grace policy <=? first then [first] else []) /\
  skipped_before m = (if now - grace policy <=? first then None else Some first) /\
  next_run_after schedule (Aware now) = Ok (next_run_at m).
Proof.
  intros Hd Hm H. rewrite materialize_due in H by done. unfold apply_policy in H.
  apply rbind_ok in H as (future & Hf & H). apply rbind_ok in H as (g & [-> _]%check_range_ok & H).
  apply rbind_ok in H as (wb & _ & H). rewrite Hm, Z.ltb_antisym in H.
  destruct (now - grace policy <=? first); injection H as <-; done.
Qed.

(** Whatever the mode, materialising a due schedule hands out a bounded
    number of due times, none of them in the future or outside the active period,
    and a next wakeup that is after now. *)
Theorem materialization_is_bounded schedule first now policy m :
  due schedule first now -> supported schedule now -> dated schedule ->
  MisfirePolicy_post_init policy = Ok tt -> now - first < 2 ^ 34 * us_per_second ->
  materialize_schedule schedule (Aware first) (Aware now) policy = Ok m ->
  zlen (due_at m) <= max_catch_up policy /\
  (forall t, t ∈ due_at m -> t <= now /\ active schedule t) /\
  (forall t, next_run_at m = Some t -> now < t).
Proof.
  intros Hd Hs Hdt Hp Hdist H. rewrite materialize_due in H by done.
  unfold MisfirePolicy_post_init in Hp. rewrite !rbind_tt, !rraise_if_ok in Hp.
  destruct Hp as (_ & Hw & Hc). bool_prop.
  assert (forall t, next_run_at m = Some t -> now < t) as Hnext.
  { intros t Et. apply apply_policy_next in H. rewrite Et in H.
    by apply next_run_first in H as (_ & _ & ? & _). }
  assert (forall (c : bool) x, x <= now /\ active schedule x -> due_at m = (if c then [x] else []) ->
    zlen (due_at m) <= max_catch_up policy /\
    (forall t, t ∈ due_at m -> t <= now /\ active schedule t)) as H1.
  { intros c x Hx ->. destruct c; unfold zlen; simpl; (split; [lia|]);
      [by intros t ->%list_elem_of_singleton|by intros t ?%elem_of_nil]. }
  assert (forall l l', occurrences_between schedule (scan_from first now policy - 1) now l ->
    due_at m = l' -> l' ⊆ l -> zlen l' <= max_catch_up policy ->
    zlen (due_at m) <= max_catch_up policy /\
    (forall t, t ∈ due_at m -> t <= now /\ active schedule t)) as H2.
  { intros l l' [_ Hl] -> Hsub Hn. split; [done|]. intros t Ht%Hsub%Hl. tauto. }
  cut (zlen (due_at m) <= max_catch_up policy /\
    (forall t, t ∈ due_at m -> t <= now /\ active schedule t)); [tauto|].
  destruct (mode policy) eqn:Em.
  - unfold apply_policy in H. rewrite Em in H. apply rbind_ok in H as (future & Hf & H).
    apply rbind_ok in H as (g & _ & H). apply rbind_ok in H as (wb & _ & H).
    destruct Hd. destruct (first <? g); injection H as <-; [by apply (H1 false first)|by apply (H1 true first)].
  - destruct (sched schedule) as [|e s|] eqn:Ek.
    2: { unfold supported in Hs. rewrite Ek in Hs. destruct Hs as [He _].
         destruct (apply_policy_latest _ _ _ _ _ _ _ Hd Ek He Hdist Em H)
           as (t & k & _ & _ & Htn & Hta & _ & E & _). by eapply H1. }
    all: destruct (apply_policy_scan schedule first now policy m) as (l & L1 & _ & _ & L2 & _);
      try done; [lia|by rewrite Em, Ek|]; rewrite Em in L2; eapply H2; eauto;
      [apply last_only_subseteq|unfold last_only, zlen; destruct (rev l); simpl; lia].
  - destruct (apply_policy_scan schedule first now policy m) as (l & L1 & _ & _ & L2 & _);
      try done; [lia|by rewrite Em|]; rewrite Em in L2; eapply H2; eauto;
      [apply subseteq_take|unfold zlen; rewrite length_take; lia].
Qed.

(** [every] accepts exactly the intervals it documents: non-negative
    integers, not booleans, that add up to between one minute and one year, an
    aware anchor, aware bounds in order; the schedule carries the total. *)
Theorem every_accepts seconds minutes hours days start from until spec :
  every seconds minutes hours days start from until = Ok spec <->
  exists s m h d t, seconds = PyInt s /\ minutes = PyInt m /\ hours = PyInt h /\
    days = PyInt d /\ start = Aware t /\ 0 <= s /\ 0 <= m /\ 0 <= h /\ 0 <= d /\
    60 <= s + m * 60 + h * 3600 + d * 86400 <= 31536000 /\
    sched spec = IntervalSchedule (s + m * 60 + h * 3600 + d * 86400) t /\
    from = Aware <$> active_from spec /\ until = Aware <$> active_until spec /\
    (forall a b, active_from spec = Some a -> active_until spec = Some b -> a < b).
Proof.
  unfold every. split.
  - intros H. apply rbind_ok in H as (s & Hs & H). apply rbind_ok in H as (m & Hm & H).
    apply rbind_ok in H as (h & Hh & H). apply rbind_ok in H as (d & Hd & H).
    apply interval_component_ok in Hs as [-> ?], Hm as [-> ?], Hh as [-> ?], Hd as [-> ?].
    apply interval_schedule_ok in H as (t & ?). exists s, m, h, d, t. tauto.
  - intros (s & m & h & d & t & -> & -> & -> & -> & -> & Hs & Hm & Hh & Hd & H).
    unfold interval_component. rewrite !(proj2 (Z.ltb_ge _ _)) by done. cbn [rraise_if rbind].
    apply interval_schedule_ok. exists t. tauto.
Qed.

(** C40: an accepted Cron declaration compiles, to sorted, non-empty sets within the
    ranges of the five fields, and its zone is installed; so asking for its next run
    never fails on the expression or the zone.  It fails only when a date leaves the
    range of [datetime], or when the expression selects nothing - 30 February, say -
    until the end of the eighth year after the cursor (in a zone that keeps PEP 495
    and whose date never goes back). *)
Theorem accepted_cron_fails_only_without_a_date expression timezone from until spec :
  cron expression timezone from until = Ok spec ->
  exists compiled zone, sched spec = CronSchedule (lower expression) timezone /\
    compile_cron (lower expression) = Ok compiled /\ cron_ok compiled /\
    zone_named timezone = Some zone /\
    forall after e, next_run_after spec (Aware after) = Raise e ->
      e = OverflowError \/
      e = InvalidScheduleError /\
      (ZoneLaws zone -> dates_advance zone -> forall t, occurs spec t -> raised spec after < t ->
         local_year zone (raised spec after) + MAX_CRON_SEARCH_YEARS < local_year zone t).
Proof.
  intros (compiled & zone & Hs & Hc & Hok & Hz)%accepted_cron.
  exists compiled, zone. split; [done|]. split; [done|]. split; [done|]. split; [done|].
  intros after e [?|He]%next_run_after_error; [by left|].
  unfold next_occurrence in He. rewrite Hs, Hc in He. simpl in He. rewrite Hz in He.
  destruct (decide (e = OverflowError)) as [|Hne]; [by left|right].
  split; [by eapply cron_search_error|]. intros Hl Hadv t Ht Hlt.
  unfold occurs in Ht. rewrite Hs in Ht. destruct Ht as (compiled' & zone' & Hc' & Hz' & Hv & Hf).
  rewrite Hc in Hc'. injection Hc' as <-. rewrite Hz in Hz'. injection Hz' as <-.
  pose proof (cron_search_error _ _ _ _ _ He Hne) as ->. by eapply cron_search_exhausted.
Qed.
End properties.

(** ** At a concrete zone *)

(** The float arithmetic of the code is not exact at every distance the
    declarations allow: an interval anchored more than 544 years back can lose a
    run.  Here the run due exactly now is an occurrence of the schedule, yet
    catching up hands nothing out, goes on with the following occurrence and
    reports nothing as skipped. *)
Theorem distant_anchor_drops_a_due_run :
  let schedule := {| active_from := None; active_until := None;
                     sched := IntervalSchedule 60 0 |} in
  occurs schedule demo_day /\
  materialize_schedule schedule (Aware demo_day) (Aware demo_day) (demo_policy CATCH_UP) =
  Ok {| due_at := []; next_run_at := Some (demo_day + us_per_minute); skipped_before := None |}.
Proof.
  split; [|vm_compute; reflexivity]. exists 1062718560. unfold demo_day. split; [lia|].
  vm_compute. reflexivity.
Qed.

Lemma demo_cron_supported after : supported demo_cron after.
Proof. intros zone H. apply (demo_zone_laws _ _ H). Qed.

Lemma demo_cron_dated : dated demo_cron.
Proof.
  intros zone H. apply demo_zone_named in H as ->. intros t1 t2 H. by apply demo_zone_dated.
Qed.

Lemma demo_cron_due : due demo_cron demo_first demo_now.
Proof.
  split; [split; [intros a [=]|intros b [= <-]]|]; unfold demo_first, demo_now, us_per_day,
    us_per_hour, us_per_minute, us_per_second; lia.
Qed.

Lemma demo_interval_due : due demo_interval (demo_day + us_per_minute) demo_now.
Proof.
  split; [split; [intros a [= <-]|intros b [=]]|]; unfold demo_now, us_per_day,
    us_per_hour, us_per_minute, us_per_second; lia.
Qed.

(** ** Witnesses *)

Lemma next_run_is_first_occurrence_witness : next_is demo_cron demo_day demo_first.
Proof.
  apply (next_run_is_first_occurrence demo_cron demo_day demo_first);
    [apply demo_cron_supported|vm_compute; reflexivity].
Defined.

Lemma no_next_run_means_exhausted_witness :
  let last := demo_day + 364 * us_per_day + us_per_hour + 30 * us_per_minute in
  next_run_after demo_cron (Aware last) = Ok None /\
  forall t, occurs demo_cron t -> active demo_cron t -> t <= last.
Proof.
  split; [vm_compute; reflexivity|].
  apply (no_next_run_means_exhausted demo_cron _ (demo_cron_supported _) demo_cron_dated).
  vm_compute. reflexivity.
Defined.

Lemma preview_is_chain_of_next_runs_witness :
  1 <= 2 <= 100 /\
  runs_from demo_cron demo_day [demo_first; demo_day + us_per_day + 90 * us_per_minute].
Proof.
  destruct (preview_is_chain_of_next_runs demo_cron demo_day 2
    [demo_first; demo_day + us_per_day + 90 * us_per_minute]) as (H1 & H2 & _);
    [vm_compute; reflexivity|]. exact (conj H1 H2).
Defined.

Lemma catch_up_takes_the_earliest_witness :
  exists l, occurrences_between demo_cron (scan_from demo_first demo_now (demo_catch_up CATCH_UP) - 1)
              demo_now l /\
    [demo_first; demo_day + us_per_day + 90 * us_per_minute] = take 2 l.
Proof.
  destruct (catch_up_takes_the_earliest demo_cron demo_first demo_now (demo_catch_up CATCH_UP)
    {| due_at := [demo_first; demo_day + us_per_day + 90 * us_per_minute];
       next_run_at := Some (demo_now + 90 * us_per_minute); skipped_before := Some demo_first |}
    demo_cron_due (demo_cron_supported _) demo_cron_dated eq_refl eq_refl) as (l & H1 & H2 & _);
    [vm_compute; reflexivity|]. exists l. exact (conj H1 H2).
Defined.

Lemma latest_takes_the_last_interval_witness :
  exists t k, 0 <= k /\ t = demo_day + us_per_minute + k * 60 * us_per_second /\ t <= demo_now.
Proof.
  destruct (latest_takes_the_last_interval demo_interval 60 demo_day (demo_day + us_per_minute)
    demo_now (demo_policy LATEST)
    {| due_at := [demo_now]; next_run_at := Some (demo_now + us_per_minute);
       skipped_before := Some (demo_day + us_per_minute) |}
    demo_interval_due eq_refl ltac:(lia) ltac:(vm_compute; reflexivity) eq_refl)
    as (t & k & H1 & H2 & H3 & _); [vm_compute; reflexivity|]. exists t, k. exact (conj H1 (conj H2 H3)).
Defined.

Lemma skip_runs_within_grace_witness :
  next_run_after demo_cron (Aware demo_now) = Ok (Some (demo_now + 90 * us_per_minute)).
Proof.
  apply (skip_runs_within_grace demo_cron demo_first demo_now (demo_catch_up SKIP)
    {| due_at := []; next_run_at := Some (demo_now + 90 * us_per_minute);
       skipped_before := Some demo_first |} demo_cron_due eq_refl).
  vm_compute. reflexivity.
Defined.

Lemma materialization_is_bounded_witness :
  zlen [demo_first; demo_day + us_per_day + 90 * us_per_minute] <= 2.
Proof.
  refine (proj1 (materialization_is_bounded demo_cron demo_first demo_now (demo_catch_up CATCH_UP)
    {| due_at := [demo_first; demo_day + us_per_day + 90 * us_per_minute];
       next_run_at := Some (demo_now + 90 * us_per_minute); skipped_before := Some demo_first |}
    demo_cron_due (demo_cron_supported _) demo_cron_dated eq_refl _ _));
    vm_compute; reflexivity.
Defined.

Definition demo_30_feb : ScheduleSpec :=
  {| active_from := None; active_until := None;
     sched := CronSchedule (u "0 0 30 feb *") (u "Europe/Demo") |}.

(** 30 February is accepted, compiles and never comes. *)
Lemma accepted_cron_fails_only_without_a_date_witness :
  cron (u "0 0 30 FEB *") (u "Europe/Demo") None None = Ok demo_30_feb /\
  next_run_after demo_30_feb (Aware demo_day) = Raise InvalidScheduleError /\
  forall t, occurs demo_30_feb t -> demo_day < t ->
    local_year (fall_back (demo_day + us_per_hour)) demo_day + 8 <
      local_year (fall_back (demo_day + us_per_hour)) t.
Proof.
  assert (cron (u "0 0 30 FEB *") (u "Europe/Demo") None None = Ok demo_30_feb) as Hc
    by (vm_compute; reflexivity).
  assert (next_run_after demo_30_feb (Aware demo_day) = Raise InvalidScheduleError) as He
    by (vm_compute; reflexivity).
  split; [exact Hc|]. split; [exact He|].
  destruct (accepted_cron_fails_only_without_a_date (u "0 0 30 FEB *") (u "Europe/Demo") None None
    demo_30_feb Hc) as (c & z & _ & _ & _ & Hz & H).
  destruct (H demo_day _ He) as [[=]|[_ Hno]]. apply demo_zone_named in Hz. subst z.
  apply Hno; [apply fall_back_laws|exact demo_zone_dated].
Defined.
