(* ===== verification/PyLock.v ===== *)
(** asyncio.Lock.  A coroutine that finds the lock taken appends a future to a
    queue and suspends; [release] marks the first future done, and the owner of
    that future takes the lock when it runs next.  A waiting task may be cancelled
    before or after its future is done.

    The model is the lock of the standard library, one function per piece of code
    between two suspension points, with the invariant that makes it a fair
    mutual-exclusion lock: [lock_ok] holds initially and after every function. *)
From S2P Require Import Prelude.

(** ** Definitions *)

(** The state of a waiter's future: pending; done; done, and the task cancelled
    before it ran; cancelled. *)
Inductive future : Type := Pending | Woken | WokenCancelled | Cancelled.

(** A suspended task: its identity, its future, and what it does with the lock. *)
Record Waiter (W : Type) : Type := {
  w_task : nat;
  w_future : future;
  w_body : W
}.
Arguments w_task {W}.
Arguments w_future {W}.
Arguments w_body {W}.
Arguments Build_Waiter {W}.

Record Lock (W : Type) : Type := {
  locked : bool;
  waiters : list (Waiter W)
}.
Arguments locked {W}.
Arguments waiters {W}.
Arguments Build_Lock {W}.

Definition new_lock {W} : Lock W := {| locked := false; waiters := [] |}.

Section lock.
Context {W : Type}.
Implicit Types (l : Lock W) (w : Waiter W) (id : nat).

(** [fut.done()] and [fut.cancelled()] *)
Definition future_done (f : future) : bool := match f with Pending => false | _ => true end.
Definition future_cancelled (f : future) : bool :=
  match f with Cancelled => true | _ => false end.

Definition set_future (f : future) w : Waiter W :=
  {| w_task := w_task w; w_future := f; w_body := w_body w |}.

(** [_wake_up_first] *)
Definition wake_up_first l : Lock W :=
  match waiters l with
  | [] => l
  | w :: ws =>
      if future_done (w_future w) then l
      else {| locked := locked l; waiters := set_future Woken w :: ws |}
  end.

(** [acquire] up to its suspension: whether the lock is taken at once. *)
Definition lock_acquire id (body : W) l : bool * Lock W :=
  if negb (locked l) && forallb (fun w => future_cancelled (w_future w)) (waiters l)
  then (true, {| locked := true; waiters := waiters l |})
  else (false, {| locked := locked l;
                  waiters := waiters l ++ [Build_Waiter id Pending body] |}).

(** [release]; [None] stands for the [RuntimeError] of a lock not acquired. *)
Definition lock_release l : option (Lock W) :=
  if locked l then Some (wake_up_first {| locked := false; waiters := waiters l |}) else None.

(** [task.cancel()] on a waiting task. *)
Definition cancel_future (f : future) : future :=
  match f with Pending => Cancelled | Woken => WokenCancelled | f => f end.

Definition lock_cancel id l : Lock W :=
  {| locked := locked l;
     waiters := map (fun w => if Nat.eqb (w_task w) id
                              then set_future (cancel_future (w_future w)) w else w)
                    (waiters l) |}.

Fixpoint find_waiter id (ws : list (Waiter W)) : option (Waiter W) :=
  match ws with
  | [] => None
  | w :: ws' => if Nat.eqb (w_task w) id then Some w else find_waiter id ws'
  end.

Fixpoint drop_waiter id (ws : list (Waiter W)) : list (Waiter W) :=
  match ws with
  | [] => []
  | w :: ws' => if Nat.eqb (w_task w) id then ws' else w :: drop_waiter id ws'
  end.

(** [acquire] after its suspension: [None] when the future is not done; otherwise
    what the task was about, and whether it has the lock or was cancelled. *)
Definition lock_resume id l : option (W * bool * Lock W) :=
  match find_waiter id (waiters l) with
  | None => None
  | Some w =>
      let rest := drop_waiter id (waiters l) in
      match w_future w with
      | Pending => None
      | Woken => Some (w_body w, true, {| locked := true; waiters := rest |})
      | WokenCancelled | Cancelled =>
          let l' := {| locked := locked l; waiters := rest |} in
          Some (w_body w, false, if locked l then l' else wake_up_first l')
      end
  end.

(** A waiter that holds no claim on the lock. *)
Definition idle (f : future) : Prop := f = Pending \/ f = Cancelled.

(** Nobody but the head of the queue has been woken, nobody while the lock is
    taken; and when the lock is free the head of the queue is about to run. *)
Record lock_ok l : Prop := {
  lk_tasks : NoDup (map w_task (waiters l));
  lk_tail : Forall (fun w => idle (w_future w)) (tl (waiters l));
  lk_taken : locked l = true -> Forall (fun w => idle (w_future w)) (waiters l);
  lk_free : locked l = false ->
    match waiters l with [] => True | w :: _ => future_done (w_future w) = true end
}.

(** ** Lemmas *)

Lemma idle_cancel f : idle f -> idle (cancel_future f).
Proof. intros [-> | ->]; by right. Qed.

Lemma done_cancel f : future_done f = true -> future_done (cancel_future f) = true.
Proof. by destruct f. Qed.

Lemma new_lock_ok : lock_ok new_lock.
Proof. split; simpl; try done; constructor. Qed.

(** Waking the first waiter of a free lock whose other waiters are idle. *)
Lemma wake_up_first_ok (ws : list (Waiter W)) :
  NoDup (map w_task ws) -> Forall (fun w => idle (w_future w)) (tl ws) ->
  lock_ok (wake_up_first {| locked := false; waiters := ws |}).
Proof.
  intros Hn Ht. unfold wake_up_first; simpl. destruct ws as [|w ws]; [by split|].
  simpl in *. destruct (future_done (w_future w)) eqn:E; split; simpl; try done.
Qed.

Lemma lock_acquire_ok id body l got l' :
  lock_ok l -> id ∉ map w_task (waiters l) -> lock_acquire id body l = (got, l') -> lock_ok l'.
Proof.
  intros [Hn Ht Hl Hf] Hid. unfold lock_acquire. destruct (locked l) eqn:El; simpl.
  - intros [= <- <-]. split; simpl; rewrite ?map_app; [|..|done].
    + apply NoDup_app. split; [done|]. split; [|by apply NoDup_singleton].
      intros x Hx ->%list_elem_of_singleton. done.
    + specialize (Hl eq_refl). apply Forall_forall. intros w Hw.
      assert (w ∈ waiters l ++ [Build_Waiter id Pending body]) as Hin.
      { destruct (waiters l ++ _); [done|]. by right. }
      apply elem_of_app in Hin as [?| ->%list_elem_of_singleton]; [|by left].
      rewrite Forall_forall in Hl. auto.
    + intros _. apply Forall_app. split; [auto|]. constructor; [by left|constructor].
  - destruct (forallb _ _) eqn:Ef; intros [= <- <-].
    + split; simpl; try done. intros _. rewrite forallb_forall in Ef. apply Forall_forall.
      intros w Hw%list_elem_of_In. specialize (Ef w Hw). right. by destruct (w_future w).
    + destruct (waiters l) as [|w ws] eqn:Ew; [done|]. split; simpl; try done.
      * rewrite map_app. apply NoDup_cons in Hn as [Hw Hn]. apply NoDup_cons. split.
        { rewrite elem_of_app. simpl. intros [?|Hx%list_elem_of_singleton]; [done|].
          apply Hid. rewrite <-Hx. by left. }
        apply NoDup_app. split; [done|]. split; [|by apply NoDup_singleton].
        intros x Hx ->%list_elem_of_singleton. apply Hid. by right.
      * apply Forall_app. split; [done|]. constructor; [by left|constructor].
Qed.

Lemma lock_release_ok l l' : lock_ok l -> lock_release l = Some l' -> lock_ok l'.
Proof.
  intros [Hn Ht Hl Hf]. unfold lock_release. destruct (locked l) eqn:El; [|done].
  intros [= <-]. by apply wake_up_first_ok.
Qed.

Lemma lock_cancel_tasks id l : map w_task (waiters (lock_cancel id l)) = map w_task (waiters l).
Proof. simpl. rewrite map_map. apply map_ext. intros w. by destruct (Nat.eqb _ _). Qed.

Lemma lock_cancel_ok id l : lock_ok l -> lock_ok (lock_cancel id l).
Proof.
  intros [Hn Ht Hl Hf].
  assert (forall ws, Forall (fun w => idle (w_future w)) ws ->
    Forall (fun w : Waiter W => idle (w_future w)) (map (fun w => if Nat.eqb (w_task w) id
      then set_future (cancel_future (w_future w)) w else w) ws)) as Hmap.
  { intros ws Hws. apply Forall_map. eapply Forall_impl; [exact Hws|]. intros w Hw. simpl.
    destruct (Nat.eqb _ _); [by apply idle_cancel|done]. }
  split.
  - by rewrite lock_cancel_tasks.
  - simpl. destruct (waiters l); simpl in *; [constructor|]. by apply Hmap.
  - simpl. intros H. by apply Hmap, Hl.
  - simpl. intros H. specialize (Hf H). destruct (waiters l) as [|w ws]; [done|]. simpl in *.
    destruct (Nat.eqb _ _); [by apply done_cancel|done].
Qed.

Lemma find_waiter_some id ws w : find_waiter id ws = Some w -> w ∈ ws /\ w_task w = id.
Proof.
  induction ws as [|w' ws IH]; simpl; [done|]. destruct (Nat.eqb (w_task w') id) eqn:E.
  - intros [= ->]. apply Nat.eqb_eq in E. split; [by left|done].
  - intros H. destruct (IH H). split; [by right|done].
Qed.

Lemma find_waiter_none id ws : find_waiter id ws = None <-> id ∉ map w_task ws.
Proof.
  induction ws as [|w ws IH]; simpl; [split; [intros _; apply not_elem_of_nil|done]|].
  rewrite not_elem_of_cons. destruct (Nat.eqb_spec (w_task w) id) as [E|E].
  - split; [done|]. intros [? _]. done.
  - rewrite IH. split; [intros ?; split; [congruence|done]|tauto].
Qed.

Lemma drop_waiter_sublist id ws : sublist (drop_waiter id ws) ws.
Proof.
  induction ws as [|w ws IH]; simpl; [constructor|].
  destruct (Nat.eqb _ _); [by constructor|by apply sublist_skip].
Qed.

Lemma drop_waiter_tasks id ws : NoDup (map w_task ws) -> NoDup (map w_task (drop_waiter id ws)).
Proof.
  intros H. eapply sublist_NoDup; [exact H|]. apply fmap_sublist, drop_waiter_sublist.
Qed.

Lemma drop_waiter_tail id ws :
  Forall (fun w => idle (w_future w)) (tl ws) ->
  Forall (fun w => idle (w_future w)) (tl (drop_waiter id ws)).
Proof.
  destruct ws as [|w ws]; simpl; [done|]. intros H. destruct (Nat.eqb _ _).
  - destruct ws; [done|]. by apply Forall_cons in H as [_ H].
  - simpl. rewrite Forall_forall in *. intros w' Hw'. apply H.
    by eapply elem_of_sublist, drop_waiter_sublist.
Qed.

Lemma lock_resume_ok id l body got l' :
  lock_ok l -> lock_resume id l = Some (body, got, l') -> lock_ok l' /\ (got = true -> locked l = false).
Proof.
  intros [Hn Ht Hl Hf]. unfold lock_resume. destruct (find_waiter id (waiters l)) as [w|] eqn:E; [|done].
  apply find_waiter_some in E as [Hw Hid].
  pose proof (drop_waiter_tasks id _ Hn) as Hn'. pose proof (drop_waiter_tail id _ Ht) as Ht'.
  destruct (locked l) eqn:El.
  - specialize (Hl eq_refl). rewrite Forall_forall in Hl. specialize (Hl w Hw) as Hiw.
    assert (Forall (fun w => idle (w_future w)) (drop_waiter id (waiters l))) as Hd.
    { apply Forall_forall. intros w' Hw'. apply Hl. by eapply elem_of_sublist, drop_waiter_sublist. }
    destruct Hiw as [Ew|Ew]; rewrite Ew; [done|]. intros [= <- <- <-]. split; [|done]. by split.
  - specialize (Hf eq_refl).
    destruct (w_future w) eqn:Ew; [done|..]; intros [= <- <- <-];
      (split; [|done]); try by apply wake_up_first_ok.
    destruct (waiters l) as [|w0 ws]; [by apply elem_of_nil in Hw|]. simpl in *.
    apply elem_of_cons in Hw as [->|Hw].
    + replace (Nat.eqb (w_task w0) id) with true by (symmetry; by apply Nat.eqb_eq).
      rewrite (proj2 (Nat.eqb_eq (w_task w0) id) Hid) in *. by split.
    + rewrite Forall_forall in Ht. destruct (Ht w Hw) as [?|?]; congruence.
Qed.
End lock.
