(* ===== verification/SandboxModels.v ===== *)
(** Sandbox lifecycle: the data of lifecycle/state.py, lifecycle/availability.py
    and lifecycle/_purpose.py - bindings, claims, the availability intent of a
    binding with its phase machine, and the immutable purpose. *)
From S2P Require Import Prelude PyDict PySeq PyLock.
From Stdlib Require Import Strings.String.

(** ** Exceptions *)

(** The classes the state raises; [CancelledError] is not an [Exception]. *)
Inductive sandbox_exn : Type :=
| OpenSandboxPurposeError
| OpenSandboxStateError
| OpenSandboxStateOwnershipError
| OpenSandboxStateConfigurationError
| UnexpectedOpenSandboxStateError
| BuiltinTypeError
| BuiltinValueError
| BuiltinIndexError
| BuiltinRuntimeError
| CancelledError.

#[export] Instance sandbox_exn_eq : EqDecision sandbox_exn.
Proof. solve_decision. Defined.

(** [issubclass(e, OpenSandboxError)] and [issubclass(e, Exception)] *)
Definition is_sandbox_error (e : sandbox_exn) : bool :=
  match e with
  | OpenSandboxPurposeError | OpenSandboxStateError | OpenSandboxStateOwnershipError
  | OpenSandboxStateConfigurationError | UnexpectedOpenSandboxStateError => true
  | _ => false
  end.

Definition is_exception (e : sandbox_exn) : bool :=
  match e with CancelledError => false | _ => true end.

(** ** Purpose *)

Inductive OpenSandboxPurpose : Type := Commands | Workspaces.

#[export] Instance purpose_eq : EqDecision OpenSandboxPurpose.
Proof. solve_decision. Defined.

Definition purpose_text (p : OpenSandboxPurpose) : pystr :=
  match p with Commands => u "commands" | Workspaces => u "workspaces" end.

Definition validate_purpose (value : option pystr) : res sandbox_exn OpenSandboxPurpose :=
  if bool_decide (value = Some (u "commands")) then Ok Commands
  else if bool_decide (value = Some (u "workspaces")) then Ok Workspaces
  else Raise OpenSandboxPurposeError.

Definition require_purpose (actual expected : option pystr) : res sandbox_exn unit :=
  let? wanted := validate_purpose expected in
  let? observed := validate_purpose actual in
  rraise_if (negb (bool_decide (observed = wanted))) OpenSandboxPurposeError.

Definition PURPOSE_METADATA_KEY : pystr := u "tinkerfin.ai/purpose".

Definition require_remote_purpose (metadata : option (dict pystr pystr))
    (expected : option pystr) : res sandbox_exn unit :=
  require_purpose (match metadata with None => None | Some m => dget m PURPOSE_METADATA_KEY end)
    expected.

(** ** Bindings and claims *)

Record OpenSandboxBinding : Type := {
  b_sandbox_id : pystr;
  b_generation : Z;
  b_purpose : OpenSandboxPurpose
}.

#[export] Instance binding_eq : EqDecision OpenSandboxBinding.
Proof. solve_decision. Defined.

Definition require_binding_purpose (binding : option OpenSandboxBinding)
    (expected : option pystr) : res sandbox_exn unit :=
  do? validate_purpose expected in
  match binding with
  | None => Ok tt
  | Some b => require_purpose (Some (purpose_text (b_purpose b))) expected
  end.

Record OpenSandboxOwnerClaim : Type := {
  c_owner_key : pystr;
  c_owner_digest : pystr;
  c_token : pystr;
  c_generation : Z;
  c_binding : option OpenSandboxBinding
}.

Record OpenSandboxWarmClaim : Type := {
  wc_slot : Z;
  wc_token : pystr;
  wc_generation : Z
}.

(** A subclass of the warm claim with the published identifier. *)
Record OpenSandboxReadyWarmClaim : Type := {
  rw_claim : OpenSandboxWarmClaim;
  rw_sandbox_id : pystr
}.

Record OpenSandboxCleanupClaim : Type := {
  cc_sandbox_id : pystr;
  cc_token : pystr;
  cc_generation : Z
}.

(** ** Availability *)

Inductive OpenSandboxAvailabilityPhase : Type :=
| running | draining | pausing | paused | resuming | uncertain.

#[export] Instance phase_eq : EqDecision OpenSandboxAvailabilityPhase.
Proof. solve_decision. Defined.

Record OpenSandboxAvailability : Type := {
  a_owner_digest : pystr;
  a_sandbox_id : pystr;
  a_binding_generation : Z;
  a_sequence : Z;
  a_phase : OpenSandboxAvailabilityPhase;
  a_connection_generation : Z
}.

#[export] Instance availability_eq : EqDecision OpenSandboxAvailability.
Proof. solve_decision. Defined.

Record OpenSandboxHolderUpdate : Type := {
  h_holder_id : pystr;
  h_owner_digest : pystr;
  h_sandbox_id : pystr;
  h_binding_generation : Z;
  h_acknowledged_sequence : option Z;
  h_availability : OpenSandboxAvailability
}.

Definition transitions (phase : OpenSandboxAvailabilityPhase)
    : list OpenSandboxAvailabilityPhase :=
  match phase with
  | running => [draining; resuming]
  | draining => [running; paused; pausing]
  | pausing => [paused; running; uncertain]
  | paused => [resuming; draining]
  | resuming => [running; paused; uncertain]
  | uncertain => []
  end.

Definition next_availability (expected : OpenSandboxAvailability)
    (phase : OpenSandboxAvailabilityPhase) (refresh_connection : bool)
    : res sandbox_exn OpenSandboxAvailability :=
  do? rraise_if (negb (bool_decide (phase ∈ transitions (a_phase expected))))
        OpenSandboxStateOwnershipError in
  do? rraise_if (refresh_connection && negb (bool_decide (phase = running)))
        BuiltinValueError in
  Ok {| a_owner_digest := a_owner_digest expected;
        a_sandbox_id := a_sandbox_id expected;
        a_binding_generation := a_binding_generation expected;
        a_sequence := a_sequence expected + 1;
        a_phase := phase;
        a_connection_generation :=
          a_connection_generation expected + (if refresh_connection then 1 else 0) |}.

Definition validate_holder_id (holder_id : pystr) : res sandbox_exn unit :=
  rraise_if (bool_decide (holder_id = []) || (36 <? zlen holder_id)) BuiltinValueError.

(** ** The records of the in-memory state *)

(** What a task suspended on an owner's lock goes on with. *)
Inductive owner_wait : Type :=
| WaitAcquire (owner_key : pystr)
| WaitRead.

Record MemoryOwnerRecord : Type := {
  r_lock : Lock owner_wait;
  r_generation : Z;
  r_binding : option OpenSandboxBinding;
  r_active_token : option pystr;
  r_availability : option OpenSandboxAvailability
}.

Record MemoryWarmSlot : Type := {
  s_slot : Z;
  s_generation : Z;
  s_sandbox_id : option pystr;
  s_active_token : option pystr
}.

Record MemoryCleanupRecord : Type := {
  k_generation : Z;
  k_active_token : option pystr
}.

Record MemoryState : Type := {
  namespace : pystr;
  records : dict pystr MemoryOwnerRecord;
  warm_slots : list MemoryWarmSlot;
  warm_pool_size : option Z;
  cleanup : dict pystr MemoryCleanupRecord;
  holders : dict (pystr * pystr) OpenSandboxHolderUpdate;
  started : bool;
  closed : bool
}.
