(* ===== verification/SandboxState.v ===== *)
(** Sandbox lifecycle: InMemoryOpenSandboxState of lifecycle/state.py, one
    definition per method, and the boundary that translates its failures.

    A method runs without interruption up to its next [await] that suspends.  The
    only such [await]s are those on an owner's lock, in [acquire_owner] and
    [read_binding]; the guard of the records is never held across one, so taking
    it never suspends.  The two methods are therefore split in two: the part up to
    the suspension, which returns [None] when the task suspends, and [resume]. *)
From S2P Require Import Prelude PyDict PySeq PyLock SandboxModels.
From Stdlib Require Import Strings.String.

(** ** The environment *)

(** [uuid4().hex], indexed by the calls, and the opaque digest of an owner. *)
Class SandboxEnv : Type := {
  uuid_hex : nat -> pystr;
  owner_digest : pystr -> pystr -> pystr
}.

Record World : Type := { mem : MemoryState; drawn : nat }.

(** [InMemoryOpenSandboxState(namespace=...)] *)
Definition new_state (ns : pystr) : MemoryState :=
  {| namespace := ns; records := []; warm_slots := []; warm_pool_size := None; cleanup := [];
     holders := []; started := false; closed := false |}.

Definition new_world (ns : pystr) : World := {| mem := new_state ns; drawn := 0 |}.

Definition new_record : MemoryOwnerRecord :=
  {| r_lock := new_lock; r_generation := 0; r_binding := None; r_active_token := None;
     r_availability := None |}.

Definition new_cleanup_record : MemoryCleanupRecord :=
  {| k_generation := 0; k_active_token := None |}.

(** ** Assignments *)

Definition set_records (d : dict pystr MemoryOwnerRecord) (s : MemoryState) : MemoryState :=
  {| namespace := namespace s; records := d; warm_slots := warm_slots s;
     warm_pool_size := warm_pool_size s; cleanup := cleanup s; holders := holders s;
     started := started s; closed := closed s |}.

Definition set_warm_slots (l : list MemoryWarmSlot) (s : MemoryState) : MemoryState :=
  {| namespace := namespace s; records := records s; warm_slots := l;
     warm_pool_size := warm_pool_size s; cleanup := cleanup s; holders := holders s;
     started := started s; closed := closed s |}.

Definition set_cleanup (d : dict pystr MemoryCleanupRecord) (s : MemoryState) : MemoryState :=
  {| namespace := namespace s; records := records s; warm_slots := warm_slots s;
     warm_pool_size := warm_pool_size s; cleanup := d; holders := holders s;
     started := started s; closed := closed s |}.

Definition set_holders (d : dict (pystr * pystr) OpenSandboxHolderUpdate) (s : MemoryState)
    : MemoryState :=
  {| namespace := namespace s; records := records s; warm_slots := warm_slots s;
     warm_pool_size := warm_pool_size s; cleanup := cleanup s; holders := d;
     started := started s; closed := closed s |}.

Definition set_lock (l : Lock owner_wait) (r : MemoryOwnerRecord) : MemoryOwnerRecord :=
  {| r_lock := l; r_generation := r_generation r; r_binding := r_binding r;
     r_active_token := r_active_token r; r_availability := r_availability r |}.

Definition set_active_token (t : option pystr) (r : MemoryOwnerRecord) : MemoryOwnerRecord :=
  {| r_lock := r_lock r; r_generation := r_generation r; r_binding := r_binding r;
     r_active_token := t; r_availability := r_availability r |}.

Definition set_binding (b : option OpenSandboxBinding) (a : option OpenSandboxAvailability)
    (r : MemoryOwnerRecord) : MemoryOwnerRecord :=
  {| r_lock := r_lock r; r_generation := r_generation r; r_binding := b;
     r_active_token := r_active_token r; r_availability := a |}.

Definition set_slot (id token : option pystr) (s : MemoryWarmSlot) : MemoryWarmSlot :=
  {| s_slot := s_slot s; s_generation := s_generation s; s_sandbox_id := id;
     s_active_token := token |}.

(** [slot.generation += 1; slot.active_token = token] *)
Definition claim_slot (token : pystr) (s : MemoryWarmSlot) : MemoryWarmSlot :=
  {| s_slot := s_slot s; s_generation := s_generation s + 1; s_sandbox_id := s_sandbox_id s;
     s_active_token := Some token |}.

Definition acknowledge (sequence : Z) (h : OpenSandboxHolderUpdate) : OpenSandboxHolderUpdate :=
  {| h_holder_id := h_holder_id h; h_owner_digest := h_owner_digest h;
     h_sandbox_id := h_sandbox_id h; h_binding_generation := h_binding_generation h;
     h_acknowledged_sequence := Some sequence; h_availability := h_availability h |}.

Definition with_availability (a : OpenSandboxAvailability) (h : OpenSandboxHolderUpdate)
    : OpenSandboxHolderUpdate :=
  {| h_holder_id := h_holder_id h; h_owner_digest := h_owner_digest h;
     h_sandbox_id := h_sandbox_id h; h_binding_generation := h_binding_generation h;
     h_acknowledged_sequence := h_acknowledged_sequence h; h_availability := a |}.

Definition on_mem (f : MemoryState -> MemoryState) (w : World) : World :=
  {| mem := f (mem w); drawn := drawn w |}.

Definition put_record (digest : pystr) (r : MemoryOwnerRecord) (w : World) : World :=
  on_mem (fun s => set_records (dset (records s) digest r) s) w.

(** The first element a loop stops at, with its position. *)
Fixpoint find_first {A} (f : A -> bool) (l : list A) : option (nat * A) :=
  match l with
  | [] => None
  | x :: l' => if f x then Some (O, x) else prod_map S id <$> find_first f l'
  end.

Section state.
Context {env : SandboxEnv}.

Abbreviation IO := (M World sandbox_exn).

Abbreviation get := (gets mem : IO MemoryState).

Definition uuid4 : IO pystr :=
  fun w => (Ok (uuid_hex (drawn w)), {| mem := mem w; drawn := S (drawn w) |}).

(** ** Lifecycle *)

Definition start (warm_pool_size' : pyobj) : IO unit :=
  match warm_pool_size' with
  | PyInt size =>
      do* raise_if (size <? 0) BuiltinValueError in
      let* s := get in
      do* raise_if (closed s) OpenSandboxStateError in
      if started s
      then raise_if (negb (bool_decide (warm_pool_size s = Some size)))
             OpenSandboxStateConfigurationError
      else modify (on_mem (fun s =>
             {| namespace := namespace s; records := records s;
                warm_slots := map (fun i => {| s_slot := Z.of_nat i; s_generation := 0;
                                               s_sandbox_id := None; s_active_token := None |})
                                  (seq 0 (Z.to_nat size));
                warm_pool_size := Some size; cleanup := cleanup s; holders := holders s;
                started := true; closed := closed s |}))
  | _ => raise BuiltinTypeError
  end.

Definition ensure_open : IO unit :=
  let* s := get in
  do* raise_if (negb (started s)) OpenSandboxStateError in
  raise_if (closed s) OpenSandboxStateError.

Definition aclose : IO unit :=
  modify (on_mem (fun s =>
    {| namespace := namespace s; records := records s; warm_slots := warm_slots s;
       warm_pool_size := warm_pool_size s; cleanup := cleanup s; holders := holders s;
       started := started s; closed := true |})).

(** ** Owners *)

Definition record_of (owner_key : pystr) : IO (pystr * MemoryOwnerRecord) :=
  do* ensure_open in
  let* s := get in
  let digest := owner_digest (namespace s) owner_key in
  match dget (records s) digest with
  | Some r => ret (digest, r)
  | None => do* modify (put_record digest new_record) in ret (digest, new_record)
  end.

(** [record.lock.release()] *)
Definition release_lock (digest : pystr) : IO unit :=
  let* s := get in
  match dget (records s) digest with
  | None => raise BuiltinRuntimeError
  | Some r =>
      match lock_release (r_lock r) with
      | None => raise BuiltinRuntimeError
      | Some l => modify (put_record digest (set_lock l r))
      end
  end.

(** [acquire_owner] once it has the lock. *)
Definition owner_acquired (digest owner_key : pystr) : IO OpenSandboxOwnerClaim :=
  fun w =>
    match ensure_open w with
    | (Raise e, w') => (do* release_lock digest in raise e) w'
    | (Ok _, w') =>
        (let* token := uuid4 in
         let* s := get in
         match dget (records s) digest with
         | None => raise BuiltinRuntimeError
         | Some r =>
             do* modify (put_record digest
                   {| r_lock := r_lock r; r_generation := r_generation r + 1;
                      r_binding := r_binding r; r_active_token := Some token;
                      r_availability := r_availability r |}) in
             ret {| c_owner_key := owner_key; c_owner_digest := digest; c_token := token;
                    c_generation := r_generation r + 1; c_binding := r_binding r |}
         end) w'
    end.

(** [read_binding] once it has the lock. *)
Definition binding_read (digest : pystr) : IO (option OpenSandboxBinding) :=
  let* s := get in
  match dget (records s) digest with
  | None => raise BuiltinRuntimeError
  | Some r => do* release_lock digest in ret (r_binding r)
  end.

Definition acquire_owner (task : nat) (owner_key : pystr) : IO (option OpenSandboxOwnerClaim) :=
  let* found := record_of owner_key in
  let '(digest, r) := found in
  let '(got, l) := lock_acquire task (WaitAcquire owner_key) (r_lock r) in
  do* modify (put_record digest (set_lock l r)) in
  if got then let* c := owner_acquired digest owner_key in ret (Some c) else ret None.

Definition read_binding (task : nat) (owner_key : pystr)
    : IO (option (option OpenSandboxBinding)) :=
  let* found := record_of owner_key in
  let '(digest, r) := found in
  let '(got, l) := lock_acquire task WaitRead (r_lock r) in
  do* modify (put_record digest (set_lock l r)) in
  if got then let* b := binding_read digest in ret (Some b) else ret None.

Inductive resumed : Type :=
| ResumedAcquire (claim : OpenSandboxOwnerClaim)
| ResumedRead (binding : option OpenSandboxBinding).

(** A suspended task runs again; [None] when its future is not done. *)
Definition resume (digest : pystr) (task : nat) : IO (option resumed) :=
  let* s := get in
  match dget (records s) digest with
  | None => ret None
  | Some r =>
      match lock_resume task (r_lock r) with
      | None => ret None
      | Some (body, got, l) =>
          do* modify (put_record digest (set_lock l r)) in
          if got
          then match body with
               | WaitAcquire owner_key =>
                   let* c := owner_acquired digest owner_key in ret (Some (ResumedAcquire c))
               | WaitRead => let* b := binding_read digest in ret (Some (ResumedRead b))
               end
          else raise CancelledError
      end
  end.

(** A suspended task is cancelled. *)
Definition cancel_wait (digest : pystr) (task : nat) : IO unit :=
  let* s := get in
  match dget (records s) digest with
  | None => ret tt
  | Some r => modify (put_record digest (set_lock (lock_cancel task (r_lock r)) r))
  end.

Definition claimed_record (claim : OpenSandboxOwnerClaim) : IO MemoryOwnerRecord :=
  do* ensure_open in
  let* s := get in
  match dget (records s) (c_owner_digest claim) with
  | None => raise OpenSandboxStateOwnershipError
  | Some r =>
      do* raise_if (negb (bool_decide (r_active_token r = Some (c_token claim))) ||
                    negb (r_generation r =? c_generation claim))
            OpenSandboxStateOwnershipError in
      ret r
  end.

Definition commit_binding (r : MemoryOwnerRecord) (claim : OpenSandboxOwnerClaim)
    (sandbox_id : pystr) (purpose : option pystr) : IO OpenSandboxBinding :=
  let* wanted := lift (validate_purpose purpose) in
  do* match r_binding r with
      | None => ret tt
      | Some b => lift (require_purpose (Some (purpose_text (b_purpose b))) purpose)
      end in
  let binding := {| b_sandbox_id := sandbox_id; b_generation := c_generation claim;
                    b_purpose := wanted |} in
  if bool_decide (r_binding r = Some binding) &&
     match r_availability r with Some _ => true | None => false end
  then ret binding
  else
    do* modify (put_record (c_owner_digest claim) (set_binding (Some binding)
          (Some {| a_owner_digest := c_owner_digest claim; a_sandbox_id := sandbox_id;
                   a_binding_generation := c_generation claim; a_sequence := 0;
                   a_phase := running; a_connection_generation := 0 |}) r)) in
    ret binding.

Definition bind_owner (claim : OpenSandboxOwnerClaim) (sandbox_id : pystr)
    (purpose : option pystr) : IO OpenSandboxBinding :=
  let* r := claimed_record claim in
  commit_binding r claim sandbox_id purpose.

(** [try: ... except OpenSandboxStateOwnershipError: return False; return True] *)
Definition still_owned {A} (m : IO A) : IO bool :=
  fun w => match m w with
           | (Ok _, w') => (Ok true, w')
           | (Raise OpenSandboxStateOwnershipError, w') => (Ok false, w')
           | (Raise e, w') => (Raise e, w')
           end.

Definition renew_owner (claim : OpenSandboxOwnerClaim) : IO bool :=
  still_owned (claimed_record claim).

Definition unbind_owner (claim : OpenSandboxOwnerClaim) : IO unit :=
  let* r := claimed_record claim in
  do* modify (on_mem (fun s => set_holders
        (List.filter (fun '(_, h) => negb (bool_decide (h_owner_digest h = c_owner_digest claim)))
           (holders s)) s)) in
  modify (put_record (c_owner_digest claim) (set_binding None None r)).

Definition release_owner (claim : OpenSandboxOwnerClaim) : IO unit :=
  let* s := get in
  match dget (records s) (c_owner_digest claim) with
  | None => ret tt
  | Some r =>
      if bool_decide (r_active_token r = Some (c_token claim))
      then
        do* modify (put_record (c_owner_digest claim) (set_active_token None r)) in
        release_lock (c_owner_digest claim)
      else ret tt
  end.

(** ** Holders *)

Definition holder_matches (h : OpenSandboxHolderUpdate) (a : OpenSandboxAvailability) : bool :=
  bool_decide (h_owner_digest h = a_owner_digest a) &&
  bool_decide (h_sandbox_id h = a_sandbox_id a) &&
  (h_binding_generation h =? a_binding_generation a).

Definition expected_availability (claim : OpenSandboxOwnerClaim)
    (expected : OpenSandboxAvailability) : IO MemoryOwnerRecord :=
  let* r := claimed_record claim in
  do* raise_if (negb (bool_decide (r_availability r = Some expected)))
        OpenSandboxStateOwnershipError in
  ret r.

Definition register_holder (claim : OpenSandboxOwnerClaim) (holder_id : pystr)
    : IO OpenSandboxAvailability :=
  do* lift (validate_holder_id holder_id) in
  let* r := claimed_record claim in
  match r_availability r with
  | None => raise OpenSandboxStateOwnershipError
  | Some a =>
      do* raise_if (negb (bool_decide (a_phase a = running))) OpenSandboxStateOwnershipError in
      do* modify (on_mem (fun s => set_holders
            (dset (holders s) (holder_id, c_owner_digest claim)
               {| h_holder_id := holder_id; h_owner_digest := c_owner_digest claim;
                  h_sandbox_id := a_sandbox_id a;
                  h_binding_generation := a_binding_generation a;
                  h_acknowledged_sequence := None; h_availability := a |}) s)) in
      ret a
  end.

Definition read_availability (owner_key : pystr) : IO (option OpenSandboxAvailability) :=
  do* ensure_open in
  let* s := get in
  ret match dget (records s) (owner_digest (namespace s) owner_key) with
      | None => None
      | Some r => r_availability r
      end.

Definition get_holder_updates (holder_id : pystr) : IO (list OpenSandboxHolderUpdate) :=
  do* ensure_open in
  let* s := get in
  ret (sorted_by (key_leb h_owner_digest str_ltb)
         (omap (fun '((registered_holder, digest), h) =>
                  if bool_decide (registered_holder = holder_id)
                  then match dget (records s) digest with
                       | Some r => match r_availability r with
                                   | Some a => Some (with_availability a h)
                                   | None => None
                                   end
                       | None => None
                       end
                  else None) (holders s))).

Definition all_holders_idle (a : OpenSandboxAvailability) : IO bool :=
  let* s := get in
  ret (forallb (fun h => bool_decide (h_acknowledged_sequence h = Some (a_sequence a)))
         (List.filter (fun h => holder_matches h a) (dvals (holders s)))).

Definition change_availability (claim : OpenSandboxOwnerClaim)
    (expected : OpenSandboxAvailability) (phase : OpenSandboxAvailabilityPhase)
    (refresh_connection : bool) : IO OpenSandboxAvailability :=
  let* r := expected_availability claim expected in
  let* updated := lift (next_availability expected phase refresh_connection) in
  do* (if bool_decide (phase = pausing)
       then let* idle := all_holders_idle expected in
            raise_if (negb idle) OpenSandboxStateOwnershipError
       else ret tt) in
  do* modify (put_record (c_owner_digest claim) (set_binding (r_binding r) (Some updated) r)) in
  ret updated.

Definition acknowledge_idle (holder_id : pystr) (a : OpenSandboxAvailability) : IO bool :=
  do* ensure_open in
  let* s := get in
  let key := (holder_id, a_owner_digest a) in
  match dget (records s) (a_owner_digest a), dget (holders s) key with
  | Some r, Some h =>
      if bool_decide (a_phase a = draining) && bool_decide (r_availability r = Some a) &&
         holder_matches h a
      then
        do* modify (on_mem (fun s =>
              set_holders (dset (holders s) key (acknowledge (a_sequence a) h)) s)) in
        ret true
      else ret false
  | _, _ => ret false
  end.

Definition holders_are_idle (claim : OpenSandboxOwnerClaim) (a : OpenSandboxAvailability)
    : IO bool :=
  do* expected_availability claim a in
  do* raise_if (negb (bool_decide (a_phase a = draining))) OpenSandboxStateOwnershipError in
  all_holders_idle a.

Definition unregister_holder (holder_id : pystr) (a : OpenSandboxAvailability) : IO unit :=
  do* ensure_open in
  let* s := get in
  let key := (holder_id, a_owner_digest a) in
  match dget (holders s) key with
  | Some h =>
      when (holder_matches h a)
        (modify (on_mem (fun s => set_holders (ddel (holders s) key) s)))
  | None => ret tt
  end.

(** ** The warm pool *)

Definition put_slot (i : nat) (slot : MemoryWarmSlot) : IO unit :=
  modify (on_mem (fun s => set_warm_slots (<[i := slot]> (warm_slots s)) s)).

Definition slot_empty (slot : MemoryWarmSlot) : bool :=
  match s_sandbox_id slot, s_active_token slot with None, None => true | _, _ => false end.

Definition slot_ready (slot : MemoryWarmSlot) : bool :=
  match s_sandbox_id slot, s_active_token slot with Some _, None => true | _, _ => false end.

Definition claim_warm_slot : IO (option OpenSandboxWarmClaim) :=
  do* ensure_open in
  let* s := get in
  match find_first slot_empty (warm_slots s) with
  | None => ret None
  | Some (i, slot) =>
      let* token := uuid4 in
      do* put_slot i (claim_slot token slot) in
      ret (Some {| wc_slot := s_slot slot; wc_token := token;
                   wc_generation := s_generation slot + 1 |})
  end.

Definition claim_ready_warm_slot (exclude_slots : list Z)
    : IO (option OpenSandboxReadyWarmClaim) :=
  do* ensure_open in
  let* s := get in
  match find_first (fun slot => negb (bool_decide (s_slot slot ∈ exclude_slots)) &&
                                slot_ready slot) (warm_slots s) with
  | Some (i, {| s_sandbox_id := Some sandbox_id |} as slot) =>
      let* token := uuid4 in
      do* put_slot i (claim_slot token slot) in
      ret (Some {| rw_claim := {| wc_slot := s_slot slot; wc_token := token;
                                  wc_generation := s_generation slot + 1 |};
                   rw_sandbox_id := sandbox_id |})
  | _ => ret None
  end.

(** The slot and its position. *)
Definition claimed_warm_slot (claim : OpenSandboxWarmClaim) : IO (nat * MemoryWarmSlot) :=
  do* ensure_open in
  let* s := get in
  match py_index (warm_slots s) (wc_slot claim) with
  | None => raise OpenSandboxStateOwnershipError
  | Some i =>
      match warm_slots s !! i with
      | None => raise OpenSandboxStateOwnershipError
      | Some slot =>
          do* raise_if (negb (bool_decide (s_active_token slot = Some (wc_token claim))) ||
                        negb (s_generation slot =? wc_generation claim))
                OpenSandboxStateOwnershipError in
          ret (i, slot)
      end
  end.

Definition discard_ready_warm_slot (claim : OpenSandboxReadyWarmClaim) : IO unit :=
  let* found := claimed_warm_slot (rw_claim claim) in
  let '(i, slot) := found in
  do* raise_if (negb (bool_decide (s_sandbox_id slot = Some (rw_sandbox_id claim))))
        OpenSandboxStateOwnershipError in
  do* put_slot i (set_slot None None slot) in
  modify (on_mem (fun s =>
    set_cleanup (dsetdefault (cleanup s) (rw_sandbox_id claim) new_cleanup_record) s)).

Definition warm_pool_ready : IO bool :=
  do* ensure_open in
  let* s := get in
  ret (forallb (fun slot => match s_sandbox_id slot with Some _ => true | None => false end)
         (warm_slots s)).

Definition publish_warm (claim : OpenSandboxWarmClaim) (sandbox_id : pystr) : IO unit :=
  let* found := claimed_warm_slot claim in
  let '(i, slot) := found in
  put_slot i (set_slot (Some sandbox_id) None slot).

Definition renew_warm (claim : OpenSandboxWarmClaim) : IO bool :=
  still_owned (claimed_warm_slot claim).

Definition release_warm (claim : OpenSandboxWarmClaim) : IO unit :=
  let* s := get in
  if zlen (warm_slots s) <=? wc_slot claim then ret tt
  else
    match py_index (warm_slots s) (wc_slot claim) with
    | None => raise BuiltinIndexError
    | Some i =>
        match warm_slots s !! i with
        | None => raise BuiltinIndexError
        | Some slot =>
            when (bool_decide (s_active_token slot = Some (wc_token claim)))
              (put_slot i (set_slot (s_sandbox_id slot) None slot))
        end
    end.

Definition consume_warm (claim : OpenSandboxOwnerClaim) : IO (option OpenSandboxBinding) :=
  let* r := claimed_record claim in
  do* match r_binding r with
      | None => ret tt
      | Some b => lift (require_purpose (Some (purpose_text (b_purpose b))) (Some (u "commands")))
      end in
  let* s := get in
  match find_first slot_ready (warm_slots s) with
  | Some (i, {| s_sandbox_id := Some sandbox_id |} as slot) =>
      let* binding := commit_binding r claim sandbox_id (Some (u "commands")) in
      do* put_slot i (set_slot None (s_active_token slot) slot) in
      ret (Some binding)
  | _ => ret None
  end.

(** ** Cleanup *)

Definition enqueue_cleanup (sandbox_id : pystr) : IO unit :=
  do* ensure_open in
  modify (on_mem (fun s =>
    set_cleanup (dsetdefault (cleanup s) sandbox_id new_cleanup_record) s)).

(** The first entry without a claim. *)
Fixpoint first_unclaimed (d : dict pystr MemoryCleanupRecord)
    : option (pystr * MemoryCleanupRecord) :=
  match d with
  | [] => None
  | (id, k) :: d' =>
      match k_active_token k with Some _ => first_unclaimed d' | None => Some (id, k) end
  end.

Definition claim_cleanup : IO (option OpenSandboxCleanupClaim) :=
  do* ensure_open in
  let* s := get in
  match first_unclaimed (cleanup s) with
  | None => ret None
  | Some (sandbox_id, k) =>
      let* token := uuid4 in
      do* modify (on_mem (fun s => set_cleanup
            (dset (cleanup s) sandbox_id
               {| k_generation := k_generation k + 1; k_active_token := Some token |}) s)) in
      ret (Some {| cc_sandbox_id := sandbox_id; cc_token := token;
                   cc_generation := k_generation k + 1 |})
  end.

Definition claimed_cleanup (claim : OpenSandboxCleanupClaim) : IO MemoryCleanupRecord :=
  do* ensure_open in
  let* s := get in
  match dget (cleanup s) (cc_sandbox_id claim) with
  | None => raise OpenSandboxStateOwnershipError
  | Some k =>
      do* raise_if (negb (bool_decide (k_active_token k = Some (cc_token claim))) ||
                    negb (k_generation k =? cc_generation claim))
            OpenSandboxStateOwnershipError in
      ret k
  end.

Definition renew_cleanup (claim : OpenSandboxCleanupClaim) : IO bool :=
  still_owned (claimed_cleanup claim).

Definition complete_cleanup (claim : OpenSandboxCleanupClaim) : IO unit :=
  do* claimed_cleanup claim in
  modify (on_mem (fun s => set_cleanup (ddel (cleanup s) (cc_sandbox_id claim)) s)).

Definition release_cleanup (claim : OpenSandboxCleanupClaim) : IO unit :=
  let* s := get in
  match dget (cleanup s) (cc_sandbox_id claim) with
  | None => ret tt
  | Some k =>
      when (bool_decide (k_active_token k = Some (cc_token claim)))
        (modify (on_mem (fun s => set_cleanup
           (dset (cleanup s) (cc_sandbox_id claim)
              {| k_generation := k_generation k; k_active_token := None |}) s)))
  end.

(** Every identifier in a binding, a slot or the cleanup queue. *)
Definition owned_ids (s : MemoryState) : list pystr :=
  omap (fun r => b_sandbox_id <$> r_binding r) (dvals (records s)) ++
  omap s_sandbox_id (warm_slots s) ++ dkeys (cleanup s).

Definition shutdown_sandbox_ids : IO (list pystr) :=
  do* ensure_open in
  let* s := get in
  ret (sorted_by (key_leb id str_ltb) (remove_dups (owned_ids s))).

(** ** The contract as requests and replies *)

(** One call of a method of [OpenSandboxState], or the scheduler running or
    cancelling a suspended one. *)
Inductive request : Type :=
| Start (warm_pool_size : pyobj)
| AcquireOwner (task : nat) (owner_key : pystr)
| RenewOwner (claim : OpenSandboxOwnerClaim)
| BindOwner (claim : OpenSandboxOwnerClaim) (sandbox_id : pystr) (purpose : option pystr)
| UnbindOwner (claim : OpenSandboxOwnerClaim)
| ReadBinding (task : nat) (owner_key : pystr)
| ReleaseOwner (claim : OpenSandboxOwnerClaim)
| RegisterHolder (claim : OpenSandboxOwnerClaim) (holder_id : pystr)
| ReadAvailability (owner_key : pystr)
| GetHolderUpdates (holder_id : pystr)
| ChangeAvailability (claim : OpenSandboxOwnerClaim) (expected : OpenSandboxAvailability)
    (phase : OpenSandboxAvailabilityPhase) (refresh_connection : bool)
| AcknowledgeIdle (holder_id : pystr) (availability : OpenSandboxAvailability)
| HoldersAreIdle (claim : OpenSandboxOwnerClaim) (availability : OpenSandboxAvailability)
| UnregisterHolder (holder_id : pystr) (availability : OpenSandboxAvailability)
| ClaimWarmSlot
| ClaimReadyWarmSlot (exclude_slots : list Z)
| DiscardReadyWarmSlot (claim : OpenSandboxReadyWarmClaim)
| WarmPoolReady
| PublishWarm (claim : OpenSandboxWarmClaim) (sandbox_id : pystr)
| RenewWarm (claim : OpenSandboxWarmClaim)
| ReleaseWarm (claim : OpenSandboxWarmClaim)
| ConsumeWarm (claim : OpenSandboxOwnerClaim)
| EnqueueCleanup (sandbox_id : pystr)
| ClaimCleanup
| RenewCleanup (claim : OpenSandboxCleanupClaim)
| CompleteCleanup (claim : OpenSandboxCleanupClaim)
| ReleaseCleanup (claim : OpenSandboxCleanupClaim)
| ShutdownSandboxIds
| Close
| Resume (digest : pystr) (task : nat)
| CancelWait (digest : pystr) (task : nat).

Inductive reply : Type :=
| Nothing
| Suspended
| Flag (b : bool)
| GotOwner (claim : OpenSandboxOwnerClaim)
| GotBinding (binding : option OpenSandboxBinding)
| GotAvailability (availability : option OpenSandboxAvailability)
| GotUpdates (updates : list OpenSandboxHolderUpdate)
| GotWarm (claim : option OpenSandboxWarmClaim)
| GotReadyWarm (claim : option OpenSandboxReadyWarmClaim)
| GotCleanup (claim : option OpenSandboxCleanupClaim)
| GotIds (ids : list pystr).

Definition as_reply {A} (f : A -> reply) (m : IO A) : IO reply := let* a := m in ret (f a).

Definition memory_state (q : request) : IO reply :=
  match q with
  | Start n => as_reply (fun _ => Nothing) (start n)
  | AcquireOwner t k =>
      as_reply (fun o => match o with Some c => GotOwner c | None => Suspended end)
        (acquire_owner t k)
  | RenewOwner c => as_reply Flag (renew_owner c)
  | BindOwner c i p => as_reply (fun b => GotBinding (Some b)) (bind_owner c i p)
  | UnbindOwner c => as_reply (fun _ => Nothing) (unbind_owner c)
  | ReadBinding t k =>
      as_reply (fun o => match o with Some b => GotBinding b | None => Suspended end)
        (read_binding t k)
  | ReleaseOwner c => as_reply (fun _ => Nothing) (release_owner c)
  | RegisterHolder c h => as_reply (fun a => GotAvailability (Some a)) (register_holder c h)
  | ReadAvailability k => as_reply GotAvailability (read_availability k)
  | GetHolderUpdates h => as_reply GotUpdates (get_holder_updates h)
  | ChangeAvailability c a p f =>
      as_reply (fun a => GotAvailability (Some a)) (change_availability c a p f)
  | AcknowledgeIdle h a => as_reply Flag (acknowledge_idle h a)
  | HoldersAreIdle c a => as_reply Flag (holders_are_idle c a)
  | UnregisterHolder h a => as_reply (fun _ => Nothing) (unregister_holder h a)
  | ClaimWarmSlot => as_reply GotWarm claim_warm_slot
  | ClaimReadyWarmSlot l => as_reply GotReadyWarm (claim_ready_warm_slot l)
  | DiscardReadyWarmSlot c => as_reply (fun _ => Nothing) (discard_ready_warm_slot c)
  | WarmPoolReady => as_reply Flag warm_pool_ready
  | PublishWarm c i => as_reply (fun _ => Nothing) (publish_warm c i)
  | RenewWarm c => as_reply Flag (renew_warm c)
  | ReleaseWarm c => as_reply (fun _ => Nothing) (release_warm c)
  | ConsumeWarm c => as_reply GotBinding (consume_warm c)
  | EnqueueCleanup i => as_reply (fun _ => Nothing) (enqueue_cleanup i)
  | ClaimCleanup => as_reply GotCleanup claim_cleanup
  | RenewCleanup c => as_reply Flag (renew_cleanup c)
  | CompleteCleanup c => as_reply (fun _ => Nothing) (complete_cleanup c)
  | ReleaseCleanup c => as_reply (fun _ => Nothing) (release_cleanup c)
  | ShutdownSandboxIds => as_reply GotIds shutdown_sandbox_ids
  | Close => as_reply (fun _ => Nothing) aclose
  | Resume d t =>
      as_reply (fun o => match o with
                         | Some (ResumedAcquire c) => GotOwner c
                         | Some (ResumedRead b) => GotBinding b
                         | None => Suspended
                         end) (resume d t)
  | CancelWait d t => as_reply (fun _ => Nothing) (cancel_wait d t)
  end.

(** ** The boundary *)

(** [except OpenSandboxError: raise; except Exception: raise Unexpected...] *)
Definition translate_failure (e : sandbox_exn) : sandbox_exn :=
  if is_sandbox_error e then e
  else if is_exception e then UnexpectedOpenSandboxStateError
  else e.

Definition call_state {A} (m : IO A) : IO A :=
  fun w => match m w with
           | (Ok a, w') => (Ok a, w')
           | (Raise e, w') => (Raise (translate_failure e), w')
           end.

(** [_OpenSandboxStateBoundary] around any state. *)
Definition boundary (state : request -> IO reply) (q : request) : IO reply :=
  match q with
  | Start (PyInt _) => call_state (state q)
  | Start _ => raise BuiltinTypeError
  | _ => call_state (state q)
  end.
End state.
