(* ===== verification/SandboxInvariant.v ===== *)
(** Sandbox lifecycle: the invariant of the in-memory state and the relation
    between a world and the later ones, with what each kind of assignment needs
    to keep them.

    A fence is the pair of an active token and a generation that a claim is
    checked against: one per owner, per warm slot and per cleanup target. *)
From S2P Require Import Prelude PyDict PySeq PyLock SandboxModels SandboxState.
From Stdlib Require Import Strings.String.

(** ** Definitions *)

(** [uuid4] never repeats a value. *)
Class FreshUuids `{SandboxEnv} : Prop := { uuid_inj : forall i j, uuid_hex i = uuid_hex j -> i = j }.

Section invariant.
Context {env : SandboxEnv}.
Implicit Types (w : World) (s : MemoryState) (d : pystr) (r : MemoryOwnerRecord).

Definition fence : Type := option pystr * Z.

Definition record_fence r : fence := (r_active_token r, r_generation r).

Definition owner_fence w d : fence :=
  match dget (records (mem w)) d with Some r => record_fence r | None => (None, 0) end.

Definition slot_fence w (i : nat) : fence :=
  match warm_slots (mem w) !! i with
  | Some slot => (s_active_token slot, s_generation slot)
  | None => (None, 0)
  end.

Definition cleanup_fence w (sandbox_id : pystr) : fence :=
  match dget (cleanup (mem w)) sandbox_id with
  | Some k => (k_active_token k, k_generation k)
  | None => (None, 0)
  end.

(** A fence stays, opens, or closes with a token drawn after the first [n]. *)
Definition moves (n : nat) (f f' : fence) : Prop :=
  f' = f \/ f'.1 = None \/ exists k, (n <= k)%nat /\ f'.1 = Some (uuid_hex k).

Definition drawn_before (n : nat) (t : option pystr) : Prop :=
  forall x, t = Some x -> exists k, (k < n)%nat /\ x = uuid_hex k.

Definition binding_ok d r : Prop :=
  match r_binding r, r_availability r with
  | None, None => True
  | Some b, Some a =>
      a_owner_digest a = d /\ a_sandbox_id a = b_sandbox_id b /\
      a_binding_generation a = b_generation b /\ 0 <= a_sequence a /\
      b_generation b <= r_generation r
  | _, _ => False
  end.

Record owner_ok (n : nat) d r : Prop := {
  oo_lock : lock_ok (r_lock r);
  oo_token : r_active_token r = None <-> locked (r_lock r) = false;
  oo_drawn : drawn_before n (r_active_token r);
  oo_generation : 0 <= r_generation r;
  oo_binding : binding_ok d r
}.

(** The evidence a holder has given about the current binding: never about a later
    intent, and before a pause about the drain that preceded it. *)
Definition evidence_ok (o : option OpenSandboxAvailability) (h : OpenSandboxHolderUpdate) : Prop :=
  forall a, o = Some a -> holder_matches h a = true ->
    (forall n, h_acknowledged_sequence h = Some n -> n <= a_sequence a) /\
    (a_phase a = pausing -> h_acknowledged_sequence h = Some (a_sequence a - 1)).

Definition holder_ok s (key : pystr * pystr) (h : OpenSandboxHolderUpdate) : Prop :=
  h_holder_id h = key.1 /\ h_owner_digest h = key.2 /\
  exists r, dget (records s) key.2 = Some r /\ h_binding_generation h <= r_generation r /\
    evidence_ok (r_availability r) h.

Record winv w : Prop := {
  wi_records : dwf (records (mem w));
  wi_owner : forall d r, dget (records (mem w)) d = Some r -> owner_ok (drawn w) d r;
  wi_holders : dwf (holders (mem w));
  wi_holder : forall key h, dget (holders (mem w)) key = Some h -> holder_ok (mem w) key h;
  wi_slot : forall i slot, warm_slots (mem w) !! i = Some slot ->
    s_slot slot = Z.of_nat i /\ drawn_before (drawn w) (s_active_token slot);
  wi_cleanup : dwf (cleanup (mem w));
  wi_target : forall id k, dget (cleanup (mem w)) id = Some k ->
    drawn_before (drawn w) (k_active_token k);
  wi_size : if started (mem w) then warm_pool_size (mem w) = Some (zlen (warm_slots (mem w)))
            else warm_slots (mem w) = []
}.

Record follows w0 w : Prop := {
  fo_drawn : (drawn w0 <= drawn w)%nat;
  fo_namespace : namespace (mem w) = namespace (mem w0);
  fo_owner : forall d, moves (drawn w0) (owner_fence w0 d) (owner_fence w d);
  fo_generation : forall d, (owner_fence w0 d).2 <= (owner_fence w d).2;
  fo_slot : forall i, moves (drawn w0) (slot_fence w0 i) (slot_fence w i);
  fo_cleanup : forall id, moves (drawn w0) (cleanup_fence w0 id) (cleanup_fence w id);
  fo_started : started (mem w0) = true -> started (mem w) = true;
  fo_closed : closed (mem w0) = true -> closed (mem w) = true
}.

Definition keeps w0 w : Prop := winv w /\ follows w0 w.

(** ** Relations *)

Lemma moves_refl n f : moves n f f.
Proof. by left. Qed.

Lemma moves_trans n m f g h : (n <= m)%nat -> moves n f g -> moves m g h -> moves n f h.
Proof.
  intros Hnm H1 [->|[H|(k & Hk & H)]]; [done|right; left; done|].
  right; right. exists k. split; [lia|done].
Qed.

Lemma state_follows_refl w : follows w w.
Proof. split; try done; intros; apply moves_refl. Qed.

Lemma state_follows_trans w0 w1 w2 : follows w0 w1 -> follows w1 w2 -> follows w0 w2.
Proof.
  intros [A1 A2 A3 A4 A5 A6 A7 A8] [B1 B2 B3 B4 B5 B6 B7 B8].
  split; try (by eauto); try lia; try congruence; intros x;
    try (eapply moves_trans; [exact A1|done|done]). etransitivity; [apply A4|apply B4].
Qed.

Lemma drawn_before_mono n m t : (n <= m)%nat -> drawn_before n t -> drawn_before m t.
Proof. intros Hnm H x Hx. destruct (H x Hx) as (k & ? & ?). exists k. split; [lia|done]. Qed.

Lemma owner_ok_mono n m d r : (n <= m)%nat -> owner_ok n d r -> owner_ok m d r.
Proof. intros Hnm [? ? ? ? ?]. split; try done. by eapply drawn_before_mono. Qed.

Lemma moves_closed n f f' : f' = (None : option pystr, f.2) -> moves n f f'.
Proof. intros ->. right. by left. Qed.

(** ** Assignments *)

Lemma keeps_draw w0 w : keeps w0 w -> keeps w0 {| mem := mem w; drawn := S (drawn w) |}.
Proof.
  intros [[? Ho ? ? Hs ? Hc ?] [? ? ? ? ? ? ? ?]]. split; split; simpl; try done; try lia.
  - intros d r Hr. eapply owner_ok_mono; [|by apply Ho]. simpl. lia.
  - intros i slot Hi. destruct (Hs i slot Hi). split; [done|].
    eapply drawn_before_mono; [|done]. lia.
  - intros id k Hk. eapply drawn_before_mono; [|by eapply Hc]. lia.
Qed.

Lemma owner_fence_put w d r d' :
  owner_fence (put_record d r w) d' = if decide (d = d') then record_fence r else owner_fence w d'.
Proof.
  unfold owner_fence, put_record. simpl. rewrite dget_dset. by destruct (decide (d = d')).
Qed.

(** The record of one owner is assigned; its holders keep their evidence. *)
Lemma keeps_put_record w0 w d r :
  keeps w0 w -> owner_ok (drawn w) d r -> moves (drawn w0) (owner_fence w d) (record_fence r) ->
  (owner_fence w d).2 <= r_generation r ->
  (forall key h, key.2 = d -> dget (holders (mem w)) key = Some h ->
     evidence_ok (r_availability r) h) ->
  keeps w0 (put_record d r w).
Proof.
  intros [[I1 I2 I3 I4 I5 I6 I7 I8] [F1 F2 F3 F4 F5 F6 F7 F8]] Ho Hm Hg Hh. split; split; simpl; try done.
  - by apply dwf_dset.
  - intros d' r'. rewrite dget_dset. destruct (decide (d = d')) as [<-|]; [by intros [= <-]|apply I2].
  - intros key h Hk. destruct (I4 key h Hk) as (E1 & E2 & r0 & Hr0 & Hbg & He).
    split; [done|]. split; [done|]. simpl. rewrite dget_dset.
    destruct (decide (d = key.2)) as [->|]; [|by exists r0]. exists r. split; [done|].
    unfold owner_fence in Hg. rewrite Hr0 in Hg. simpl in Hg. split; [lia|by eapply Hh].
  - intros d'. rewrite owner_fence_put. destruct (decide (d = d')) as [<-|]; [|done].
    eapply moves_trans; [|apply F3|done]. done.
  - intros d'. rewrite owner_fence_put. destruct (decide (d = d')) as [<-|]; [|done].
    etransitivity; [apply F4|done].
Qed.

Lemma evidence_same w d r :
  winv w -> dget (records (mem w)) d = Some r ->
  forall key h, key.2 = d -> dget (holders (mem w)) key = Some h -> evidence_ok (r_availability r) h.
Proof.
  intros Hi Hr key h <- Hk. destruct (wi_holder _ Hi key h Hk) as (_ & _ & r0 & Hr0 & _ & He).
  rewrite Hr in Hr0. by injection Hr0 as <-.
Qed.

(** An assignment that leaves the availability alone. *)
Lemma keeps_put_same w0 w d r r' :
  keeps w0 w -> dget (records (mem w)) d = Some r -> r_availability r' = r_availability r ->
  owner_ok (drawn w) d r' -> moves (drawn w0) (record_fence r) (record_fence r') ->
  r_generation r <= r_generation r' ->
  keeps w0 (put_record d r' w).
Proof.
  intros [Hi Hf] Hr Ha Ho Hm Hg.
  assert (owner_fence w d = record_fence r) as E by (unfold owner_fence; by rewrite Hr).
  apply keeps_put_record; [done|done|by rewrite E|by rewrite E|]. intros key h Hd Hk.
  rewrite Ha. by eapply evidence_same.
Qed.

(** The holders are assigned. *)
Lemma keeps_set_holders w0 w hs :
  keeps w0 w -> dwf hs -> (forall key h, dget hs key = Some h -> holder_ok (mem w) key h) ->
  keeps w0 (on_mem (set_holders hs) w).
Proof. intros [[] []] H1 H2. by split; split. Qed.

Lemma keeps_put_slot w0 w i slot slot' :
  keeps w0 w -> warm_slots (mem w) !! i = Some slot -> s_slot slot' = s_slot slot ->
  drawn_before (drawn w) (s_active_token slot') ->
  moves (drawn w0) (slot_fence w i) (s_active_token slot', s_generation slot') ->
  keeps w0 (on_mem (fun s => set_warm_slots (<[i := slot']> (warm_slots s)) s) w).
Proof.
  intros [[I1 I2 I3 I4 I5 I6 I7 I8] [F1 F2 F3 F4 F5 F6 F7 F8]] Hi Hs Hd Hm. split; split; simpl; try done.
  - intros j sl. rewrite list_lookup_insert_Some. intros [(-> & <- & _)|[_ Hj]]; [|by apply I5].
    rewrite Hs. split; [by eapply I5|done].
  - destruct (started (mem w)); [by rewrite I8; unfold zlen; rewrite length_insert|].
    by rewrite I8 in Hi.
  - intros j. unfold slot_fence in *. simpl. destruct (decide (i = j)) as [<-|Hne].
    + rewrite list_lookup_insert_eq by (by eapply lookup_lt_Some).
      eapply moves_trans; [|apply F5|exact Hm]. done.
    + rewrite list_lookup_insert_ne by done. apply F5.
Qed.

(** One cleanup target is assigned, added or removed. *)
Lemma keeps_set_cleanup w0 w ks :
  keeps w0 w -> dwf ks ->
  (forall id k, dget ks id = Some k -> drawn_before (drawn w) (k_active_token k)) ->
  (forall id, moves (drawn w0) (cleanup_fence w id)
     (match dget ks id with Some k => (k_active_token k, k_generation k) | None => (None, 0) end)) ->
  keeps w0 (on_mem (set_cleanup ks) w).
Proof.
  intros [[] [F1 F2 F3 F4 F5 F6 F7 F8]] H1 H2 H3. split; split; try done.
  intros id. eapply moves_trans; [|apply F6|apply H3]. done.
Qed.

Lemma keeps_refl w : winv w -> keeps w w.
Proof. intros H. split; [done|apply state_follows_refl]. Qed.

Lemma keeps_trans w0 w1 w2 : keeps w0 w1 -> keeps w1 w2 -> keeps w0 w2.
Proof. intros [_ H1] [H2 H3]. split; [done|by eapply state_follows_trans]. Qed.

(** What the locks' functions leave in a record. *)
Lemma owner_ok_lock n d r l :
  owner_ok n d r -> lock_ok l -> locked l = locked (r_lock r) -> owner_ok n d (set_lock l r).
Proof. intros [? Ht ? ? ?] Hl Hk. split; simpl; try done. by rewrite Hk. Qed.
End invariant.

