(* ===== verification/SandboxSafe.v ===== *)
(** Sandbox lifecycle: every method of the in-memory state keeps the invariant and
    moves forward. *)
From S2P Require Import Prelude PyDict PySeq PyLock SandboxModels SandboxState SandboxInvariant.
From Stdlib Require Import Strings.String.

Section safe.
Context {env : SandboxEnv}.
Implicit Types (w : World) (s : MemoryState) (d : pystr) (r : MemoryOwnerRecord).

Abbreviation IO := (M World sandbox_exn).

(** ** Definitions *)

Definition safe {A} (m : IO A) w : Prop := wp m w (fun _ w' => keeps w w').

Definition is_open w : Prop := started (mem w) = true /\ closed (mem w) = false.

(** The claim is the one its owner's record names. *)
Definition holds_claim w (c : OpenSandboxOwnerClaim) r : Prop :=
  dget (records (mem w)) (c_owner_digest c) = Some r /\
  r_active_token r = Some (c_token c) /\ r_generation r = c_generation c.

(** The identity a claim commits is new: the owner's binding has it already, or no
    holder is registered for it. *)
Definition fresh_identity w (c : OpenSandboxOwnerClaim) (sandbox_id : pystr) : Prop :=
  (exists r b, dget (records (mem w)) (c_owner_digest c) = Some r /\ r_binding r = Some b /\
     b_sandbox_id b = sandbox_id /\ b_generation b = c_generation c) \/
  forall key h, dget (holders (mem w)) key = Some h -> key.2 = c_owner_digest c ->
    ~ (h_sandbox_id h = sandbox_id /\ h_binding_generation h = c_generation c).

Definition not_waiting w (task : nat) : Prop :=
  forall d r, dget (records (mem w)) d = Some r -> task ∉ map w_task (waiters (r_lock r)).

Definition new_binding (c : OpenSandboxOwnerClaim) (sandbox_id : pystr) (p : OpenSandboxPurpose)
    : OpenSandboxBinding :=
  {| b_sandbox_id := sandbox_id; b_generation := c_generation c; b_purpose := p |}.

(** The intent a new binding starts with. *)
Definition first_intent (c : OpenSandboxOwnerClaim) (sandbox_id : pystr)
    : OpenSandboxAvailability :=
  {| a_owner_digest := c_owner_digest c; a_sandbox_id := sandbox_id;
     a_binding_generation := c_generation c; a_sequence := 0;
     a_phase := running; a_connection_generation := 0 |}.

(** ** Reading *)

Lemma wp_ensure_open w (Q : res sandbox_exn unit -> World -> Prop) :
  (is_open w -> Q (Ok tt) w) -> (~ is_open w -> Q (Raise OpenSandboxStateError) w) ->
  wp ensure_open w Q.
Proof.
  intros H1 H2. unfold ensure_open, is_open in *. wp_go; bool_prop.
  - apply H2. intros [? _]. congruence.
  - apply H2. intros [_ ?]. congruence.
  - by apply H1.
Qed.

Lemma wp_claimed_record c w (Q : res sandbox_exn MemoryOwnerRecord -> World -> Prop) :
  (forall r, is_open w -> holds_claim w c r -> Q (Ok r) w) ->
  (~ is_open w -> Q (Raise OpenSandboxStateError) w) ->
  (is_open w -> (forall r, ~ holds_claim w c r) -> Q (Raise OpenSandboxStateOwnershipError) w) ->
  wp (claimed_record c) w Q.
Proof.
  intros H1 H2 H3. unfold claimed_record. apply wp_bind, wp_ensure_open; [|done].
  intros Ho. wp_step. wp_step. destruct (dget _ _) as [r|] eqn:Er; wp_go.
  - apply H3; [done|]. intros r' (Hr & Ht & Hg). rewrite Er in Hr. injection Hr as <-.
    apply orb_true_iff in H. destruct H as [H|H]; bool_prop; done.
  - bool_prop. by apply H1.
  - apply H3; [done|]. intros r' (Hr & _). congruence.
Qed.

Lemma wp_expected_availability c a w (Q : res sandbox_exn MemoryOwnerRecord -> World -> Prop) :
  (forall r, is_open w -> holds_claim w c r -> r_availability r = Some a -> Q (Ok r) w) ->
  (forall e, e = OpenSandboxStateError \/ e = OpenSandboxStateOwnershipError -> Q (Raise e) w) ->
  wp (expected_availability c a) w Q.
Proof.
  intros H1 H2. unfold expected_availability. apply wp_bind, wp_claimed_record; [|auto|auto].
  intros r Ho Hr. wp_go; [auto|]. bool_prop. by apply H1.
Qed.

Lemma still_owned_safe {A} (m : IO A) w : safe m w -> safe (still_owned m) w.
Proof.
  unfold safe, wp, still_owned. destruct (m w) as [[a|e] w']; simpl; [done|]. by destruct e.
Qed.

Lemma as_reply_safe {A} (f : A -> reply) (m : IO A) w : safe m w -> safe (as_reply f m) w.
Proof.
  unfold safe, wp, as_reply, bind, ret. by destruct (m w) as [[a|e] w'].
Qed.

Lemma state_reads_safe {A} (m : IO A) w : winv w -> wp m w (fun _ w' => w' = w) -> safe m w.
Proof. intros Hw H. eapply wp_mono; [exact H|]. intros ? ? ->. by apply keeps_refl. Qed.

Lemma claimed_record_safe c w : winv w -> safe (claimed_record c) w.
Proof. intros Hw. apply state_reads_safe; [done|]. by apply wp_claimed_record. Qed.

(** ** Owners *)

Lemma put_put d r1 r2 w : put_record d r2 (put_record d r1 w) = put_record d r2 w.
Proof.
  unfold put_record, on_mem, set_records. simpl. do 2 f_equal. generalize (records (mem w)).
  intros l. induction l as [|[k v] l IH]; simpl; [by rewrite decide_True|].
  destruct (decide (d = k)) as [->|Hne]; simpl; [by rewrite decide_True|].
  rewrite decide_False by done. by rewrite IH.
Qed.

Lemma get_put d r w : dget (records (mem (put_record d r w))) d = Some r.
Proof. apply dget_dset_eq. Qed.

Lemma new_record_ok n d : owner_ok n d new_record.
Proof. split; simpl; try done. apply new_lock_ok. Qed.

Lemma wp_record_of owner_key w (Q : res sandbox_exn (pystr * MemoryOwnerRecord) -> World -> Prop) :
  winv w ->
  (~ is_open w -> Q (Raise OpenSandboxStateError) w) ->
  (forall w' r, let d := owner_digest (namespace (mem w)) owner_key in
     is_open w -> keeps w w' -> drawn w' = drawn w -> is_open w' ->
     dget (records (mem w')) d = Some r ->
     (dget (records (mem w)) d = Some r /\ w' = w \/
      dget (records (mem w)) d = None /\ r = new_record /\ w' = put_record d new_record w) ->
     Q (Ok (d, r)) w') ->
  wp (record_of owner_key) w Q.
Proof.
  intros Hw H1 H2. unfold record_of. apply wp_bind, wp_ensure_open; [|done]. intros Ho.
  wp_step. wp_step. destruct (dget (records (mem w)) _) as [r|] eqn:Er; wp_go.
  - apply H2; try done; [by apply keeps_refl|by left].
  - apply H2; try done; [|by apply get_put|by right].
    apply keeps_put_record; [by apply keeps_refl|apply new_record_ok|..].
    + unfold owner_fence. rewrite Er. by left.
    + unfold owner_fence. by rewrite Er.
    + intros key h _ _ a. done.
Qed.

Lemma wake_up_first_locked {W} (l : Lock W) : locked (wake_up_first l) = locked l.
Proof. unfold wake_up_first. destruct (waiters l) as [|x ?]; [done|]. by destruct (future_done _). Qed.

Lemma lock_release_some {W} (l l' : Lock W) :
  lock_release l = Some l' -> locked l = true /\ locked l' = false.
Proof.
  unfold lock_release. destruct (locked l); [|done]. intros [= <-].
  by rewrite wake_up_first_locked.
Qed.

(** A record whose lock was free becomes the record of a new claim. *)
Lemma owner_acquired_safe w0 w d r l owner_key :
  keeps w0 w -> dget (records (mem w)) d = Some r -> r_active_token r = None ->
  lock_ok l -> locked l = true ->
  wp (owner_acquired d owner_key) (put_record d (set_lock l r) w) (fun _ w' => keeps w0 w').
Proof.
  intros Hk Hr Ht Hl Hlk. pose proof (wi_owner _ (proj1 Hk) _ _ Hr) as Ho.
  unfold owner_acquired. apply wp_intro. intros res w'.
  destruct (ensure_open _) as [[[]|e] w1] eqn:Eo.
  - assert (w1 = put_record d (set_lock l r) w) as ->.
    { eapply (wp_elim _ _ _ _ (fun _ w' => w' = _)); [|exact Eo]. by apply wp_ensure_open. }
    unfold bind, uuid4, gets, modify, ret. simpl. rewrite dget_dset_eq. simpl.
    intros [= <- <-].
    match goal with |- keeps w0 ?w2 =>
      replace w2 with (put_record d {| r_lock := l; r_generation := r_generation r + 1;
        r_binding := r_binding r; r_active_token := Some (uuid_hex (drawn w));
        r_availability := r_availability r |} {| mem := mem w; drawn := S (drawn w) |})
    end.
    2: { pose proof (put_put d (set_lock l r) {| r_lock := l; r_generation := r_generation r + 1;
        r_binding := r_binding r; r_active_token := Some (uuid_hex (drawn w));
        r_availability := r_availability r |} {| mem := mem w; drawn := S (drawn w) |}) as E.
         symmetry. exact E. }
    eapply (keeps_put_same w0 _ d r); try done; [by apply keeps_draw|..|simpl; lia].
    + destruct Ho. split; simpl; try done; try lia.
      * by rewrite Hlk.
      * intros x [= <-]. exists (drawn w). split; [lia|done].
      * unfold binding_ok in *. simpl. destruct (r_binding r), (r_availability r); try done.
        tsplit; tauto || lia.
    + right; right. exists (drawn w). split; [|done]. apply (fo_drawn _ _ (proj2 Hk)).
  - assert (w1 = put_record d (set_lock l r) w) as ->.
    { eapply (wp_elim _ _ _ _ (fun _ w' => w' = _)); [|exact Eo]. by apply wp_ensure_open. }
    unfold bind, release_lock, bind, gets, modify, raise. rewrite get_put. simpl.
    destruct (lock_release l) as [l'|] eqn:El; [|unfold lock_release in El; by rewrite Hlk in El].
    intros [= <- <-]. change (keeps w0 (put_record d (set_lock l' (set_lock l r))
      (put_record d (set_lock l r) w))). rewrite put_put.
    apply lock_release_some in El as El'. destruct El' as [_ Elk].
    assert (lock_ok l') by by eapply lock_release_ok.
    eapply (keeps_put_same w0 _ d r); try done; [|by left].
    destruct Ho. split; simpl; try done.
Qed.

Lemma binding_read_safe w0 w d r l :
  keeps w0 w -> dget (records (mem w)) d = Some r -> r_active_token r = None ->
  lock_ok l -> locked l = true ->
  wp (binding_read d) (put_record d (set_lock l r) w) (fun _ w' => keeps w0 w').
Proof.
  intros Hk Hr Ht Hl Hlk. pose proof (wi_owner _ (proj1 Hk) _ _ Hr) as Ho.
  unfold binding_read, release_lock. wp_step. wp_step. rewrite get_put.
  wp_step. wp_step. wp_step. rewrite get_put. simpl.
  destruct (lock_release l) as [l'|] eqn:El; [|unfold lock_release in El; by rewrite Hlk in El].
  wp_go. rewrite put_put. apply lock_release_some in El as El'. destruct El' as [_ Elk].
  assert (lock_ok l') by by eapply lock_release_ok.
  eapply (keeps_put_same w0 _ d r); try done; [|by left]. destruct Ho. by split.
Qed.

Lemma free_token n d r : owner_ok n d r -> locked (r_lock r) = false -> r_active_token r = None.
Proof. intros Ho. apply (oo_token _ _ _ Ho). Qed.

Lemma lock_acquire_taken {W} task (body : W) l l' :
  lock_acquire task body l = (true, l') -> locked l = false /\ locked l' = true.
Proof.
  unfold lock_acquire. destruct (locked l); simpl; [done|].
  destruct (forallb _ _); [|done]. by intros [= <-].
Qed.

Lemma lock_acquire_queued {W} task (body : W) l l' :
  lock_acquire task body l = (false, l') -> locked l' = locked l.
Proof. unfold lock_acquire. destruct (_ && _); [done|]. by intros [= <-]. Qed.

Lemma acquire_owner_safe task owner_key w :
  winv w -> not_waiting w task -> safe (acquire_owner task owner_key) w.
Proof.
  intros Hw Hn. unfold acquire_owner, safe. apply wp_bind, wp_record_of; [done|..].
  { intros _. by apply keeps_refl. }
  intros w' r d Ho Hk Hd Ho' Hr Hc. pose proof (wi_owner _ (proj1 Hk) _ _ Hr) as Hok.
  destruct (lock_acquire _ _ _) as [got l] eqn:El.
  assert (lock_ok l) as Hl.
  { eapply lock_acquire_ok; [apply Hok| |exact El].
    destruct Hc as [[Hc _]|(_ & -> & _)]; [by eapply Hn|apply not_elem_of_nil]. }
  wp_step. wp_step. destruct got.
  - apply lock_acquire_taken in El as [Hf Hlk]. wp_step. eapply wp_mono.
    + eapply owner_acquired_safe; try done. by eapply free_token.
    + intros [c|e] w2 Hk2; [by apply wp_ret|done].
  - apply lock_acquire_queued in El. apply wp_ret.
    eapply keeps_put_same; try done; [by apply owner_ok_lock|by left].
Qed.

Lemma read_binding_safe task owner_key w :
  winv w -> not_waiting w task -> safe (read_binding task owner_key) w.
Proof.
  intros Hw Hn. unfold read_binding, safe. apply wp_bind, wp_record_of; [done|..].
  { intros _. by apply keeps_refl. }
  intros w' r d Ho Hk Hd Ho' Hr Hc. pose proof (wi_owner _ (proj1 Hk) _ _ Hr) as Hok.
  destruct (lock_acquire _ _ _) as [got l] eqn:El.
  assert (lock_ok l) as Hl.
  { eapply lock_acquire_ok; [apply Hok| |exact El].
    destruct Hc as [[Hc _]|(_ & -> & _)]; [by eapply Hn|apply not_elem_of_nil]. }
  wp_step. wp_step. destruct got.
  - apply lock_acquire_taken in El as [Hf Hlk]. wp_step. eapply wp_mono.
    + eapply binding_read_safe; try done. by eapply free_token.
    + intros [c|e] w2 Hk2; [by apply wp_ret|done].
  - apply lock_acquire_queued in El. apply wp_ret.
    eapply keeps_put_same; try done; [by apply owner_ok_lock|by left].
Qed.

Lemma lock_resume_locked {W} task (l l' : Lock W) body got :
  lock_resume task l = Some (body, got, l') -> locked l' = (if got then true else locked l).
Proof.
  unfold lock_resume. destruct (find_waiter _ _) as [x|]; [|done].
  destruct (w_future x); try done; intros [= <- <- <-]; [done|..];
    (destruct (locked l) eqn:E; [done|]); by rewrite wake_up_first_locked.
Qed.

Lemma resume_safe d task w : winv w -> safe (resume d task) w.
Proof.
  intros Hw. unfold resume, safe. wp_step. wp_step.
  destruct (dget (records (mem w)) d) as [r|] eqn:Er; [|apply wp_ret; by apply keeps_refl].
  pose proof (wi_owner _ Hw _ _ Er) as Hok.
  destruct (lock_resume _ _) as [[[body got] l]|] eqn:El; [|apply wp_ret; by apply keeps_refl].
  destruct (lock_resume_ok _ _ _ _ _ (oo_lock _ _ _ Hok) El) as [Hl Hg].
  apply lock_resume_locked in El. wp_step. wp_step. destruct got.
  - pose proof (free_token _ _ _ Hok (Hg eq_refl)) as Ht.
    destruct body as [owner_key|]; wp_step; eapply wp_mono;
      try (by eapply owner_acquired_safe; [by apply keeps_refl|..]);
      try (by eapply binding_read_safe; [by apply keeps_refl|..]);
      intros [c|e] w2 Hk2; by try apply wp_ret.
  - apply wp_raise. eapply keeps_put_same; try done; [by apply keeps_refl| |by left].
    by apply owner_ok_lock.
Qed.

Lemma cancel_wait_safe d task w : winv w -> safe (cancel_wait d task) w.
Proof.
  intros Hw. unfold cancel_wait, safe. wp_step. wp_step.
  destruct (dget (records (mem w)) d) as [r|] eqn:Er; wp_go; [|by apply keeps_refl].
  pose proof (wi_owner _ Hw _ _ Er) as Hok.
  eapply keeps_put_same; [by apply keeps_refl|done|done| |by left|done].
  apply owner_ok_lock; [done|apply lock_cancel_ok, Hok|done].
Qed.

Lemma validate_purpose_ok o p : validate_purpose o = Ok p <-> o = Some (purpose_text p).
Proof.
  unfold validate_purpose. case_bool_decide as E; [|case_bool_decide as E'].
  - split; [by intros [= <-]|]. subst. by destruct p; intros [=].
  - split; [by intros [= <-]|]. subst. by destruct p; intros [=].
  - split; [done|]. intros ->. by destruct p.
Qed.

Lemma require_purpose_ok p o :
  require_purpose (Some (purpose_text p)) o = Ok tt <-> o = Some (purpose_text p).
Proof.
  unfold require_purpose. destruct (validate_purpose o) as [q|e] eqn:Eo; simpl.
  - apply validate_purpose_ok in Eo as ->.
    rewrite (proj2 (validate_purpose_ok (Some (purpose_text p)) p) eq_refl). simpl.
    case_bool_decide as E; simpl; [subst; by split|].
    split; [done|]. intros [= E']. destruct p, q; done.
  - split; [done|]. intros ->. by rewrite (proj2 (validate_purpose_ok _ p) eq_refl) in Eo.
Qed.

Lemma require_purpose_error a o e : require_purpose a o = Raise e -> e = OpenSandboxPurposeError.
Proof.
  unfold require_purpose, validate_purpose, rraise_if.
  repeat (case_bool_decide; simpl); congruence.
Qed.

(** What [_commit_binding] does, in every case. *)
Lemma wp_commit_binding r d c sandbox_id purpose w
    (Q : res sandbox_exn OpenSandboxBinding -> World -> Prop) :
  binding_ok d r ->
  Q (Raise OpenSandboxPurposeError) w ->
  (forall p, let b := new_binding c sandbox_id p in
     purpose = Some (purpose_text p) -> r_binding r = Some b -> Q (Ok b) w) ->
  (forall p, let b := new_binding c sandbox_id p in
     purpose = Some (purpose_text p) -> r_binding r <> Some b ->
     (forall b0, r_binding r = Some b0 -> b_purpose b0 = p) ->
     Q (Ok b) (put_record (c_owner_digest c)
       (set_binding (Some b) (Some (first_intent c sandbox_id)) r) w)) ->
  wp (commit_binding r c sandbox_id purpose) w Q.
Proof.
  intros Hok H1 H2 H3. unfold commit_binding. wp_step. wp_step.
  destruct (validate_purpose purpose) as [p|e] eqn:Ep.
  2: { unfold validate_purpose in Ep. repeat case_bool_decide; by try injection Ep as <-. }
  apply validate_purpose_ok in Ep. wp_step. unfold binding_ok in Hok.
  destruct (r_binding r) as [b0|] eqn:Eb; wp_step; [destruct (require_purpose _ _) as [[]|e] eqn:Er|].
  - rewrite Ep in Er. apply require_purpose_ok in Er.
    assert (b_purpose b0 = p) as Hp by (destruct p, (b_purpose b0); done).
    destruct (r_availability r); [|done]. rewrite andb_true_r. case_bool_decide as Ed; wp_go.
    + by apply (H2 p).
    + apply (H3 p); [done|done|]. by intros b1 [= <-].
  - by apply require_purpose_error in Er as ->.
  - wp_go; [by bool_prop|by apply (H3 p)].
Qed.

Lemma first_intent_ok n d r c sandbox_id p :
  owner_ok n d r -> c_owner_digest c = d -> r_generation r = c_generation c ->
  owner_ok n d (set_binding (Some (new_binding c sandbox_id p)) (Some (first_intent c sandbox_id)) r).
Proof. intros [? ? ? ? ?] <- Hg. split; try done. simpl. unfold binding_ok. simpl. tsplit; done || lia. Qed.

(** Committing a new identity. *)
Lemma commit_keeps w0 w r c sandbox_id p :
  keeps w0 w -> holds_claim w c r -> fresh_identity w c sandbox_id ->
  r_binding r <> Some (new_binding c sandbox_id p) ->
  (forall b0, r_binding r = Some b0 -> b_purpose b0 = p) ->
  keeps w0 (put_record (c_owner_digest c)
    (set_binding (Some (new_binding c sandbox_id p)) (Some (first_intent c sandbox_id)) r) w).
Proof.
  intros Hk (Hr & Ht & Hg) Hf Hne Hp. pose proof (wi_owner _ (proj1 Hk) _ _ Hr) as Hok.
  assert (owner_fence w (c_owner_digest c) = record_fence r) as E by (unfold owner_fence; by rewrite Hr).
  apply keeps_put_record; [done|by apply first_intent_ok|rewrite E; by left|by rewrite E|].
  intros key h Hd Hh a [= <-] Hm. exfalso. unfold holder_matches in Hm. bool_prop. simpl in *.
  destruct Hf as [(r' & b & Hr' & Hb & Hi & Hbg)|Hf].
  - rewrite Hr in Hr'. injection Hr' as <-. apply Hne. rewrite Hb. f_equal.
    specialize (Hp b Hb). by destruct b; simpl in *; subst.
  - by apply (Hf key h).
Qed.

Lemma bind_owner_safe c sandbox_id purpose w :
  winv w -> fresh_identity w c sandbox_id -> safe (bind_owner c sandbox_id purpose) w.
Proof.
  intros Hw Hf. unfold bind_owner, safe. apply wp_bind, wp_claimed_record;
    try (intros; by apply keeps_refl).
  intros r Ho Hr. pose proof (wi_owner _ Hw _ _ (proj1 Hr)) as Hok.
  eapply wp_commit_binding; [apply Hok|by apply keeps_refl|intros; by apply keeps_refl|].
  intros p b _ Hne Hp. apply commit_keeps; try done. by apply keeps_refl.
Qed.

Lemma dget_filter {V} (f : V -> bool) (l : dict (pystr * pystr) V) key h :
  dwf l ->
  dget (List.filter (fun '(_, h) => f h) l) key = Some h <-> dget l key = Some h /\ f h = true.
Proof.
  intros Hwf.
  assert (dwf (List.filter (fun '(_, h) => f h) l)) as Hwf'.
  { unfold dwf, dkeys in *. clear -Hwf. induction l as [|[k v] l IH]; simpl in *; [done|].
    apply NoDup_cons in Hwf as [Hk Hl]. destruct (f v); simpl; [|by apply IH].
    apply NoDup_cons. split; [|by apply IH]. intros Hin. apply Hk.
    apply list_elem_of_fmap in Hin as ([k' v'] & -> & Hin).
    apply list_elem_of_In, filter_In in Hin as [Hin _]. apply list_elem_of_fmap.
    exists (k', v'). split; [done|]. by apply list_elem_of_In. }
  split.
  - intros H%dget_elem_of. apply list_elem_of_In, filter_In in H as [Hin Hf]. split; [|done].
    apply elem_of_dget; [done|]. by apply list_elem_of_In.
  - intros [H%dget_elem_of Hf]. apply elem_of_dget; [done|]. apply list_elem_of_In, filter_In.
    split; [|done]. by apply list_elem_of_In.
Qed.

Lemma dwf_filter {V} (f : V -> bool) (l : dict (pystr * pystr) V) :
  dwf l -> dwf (List.filter (fun '(_, h) => f h) l).
Proof.
  unfold dwf, dkeys. induction l as [|[k v] l IH]; simpl; [done|]. intros [Hk Hl]%NoDup_cons.
  destruct (f v); simpl; [|by apply IH]. apply NoDup_cons. split; [|by apply IH].
  intros Hin. apply Hk. apply list_elem_of_fmap in Hin as ([k' v'] & -> & Hin).
  apply list_elem_of_In, filter_In in Hin as [Hin _]. apply list_elem_of_fmap.
  exists (k', v'). split; [done|]. by apply list_elem_of_In.
Qed.

Lemma unbind_owner_safe c w : winv w -> safe (unbind_owner c) w.
Proof.
  intros Hw. unfold unbind_owner, safe. apply wp_bind, wp_claimed_record;
    try (intros; by apply keeps_refl).
  intros r Ho (Hr & Ht & Hg). pose proof (wi_owner _ Hw _ _ Hr) as Hok. wp_go.
  eapply keeps_trans; [|eapply (keeps_put_record _ _ _ (set_binding None None r))].
  - apply keeps_set_holders; [by apply keeps_refl|by apply dwf_filter, Hw|].
    intros key h Hk. apply dget_filter in Hk as [Hk _]; [|apply Hw]. by apply (wi_holder _ Hw).
  - apply keeps_refl. apply (keeps_set_holders w w); [by apply keeps_refl|by apply dwf_filter, Hw|].
    intros key h Hk. apply dget_filter in Hk as [Hk _]; [|apply Hw]. by apply (wi_holder _ Hw).
  - destruct Hok. by split.
  - unfold owner_fence. simpl. rewrite Hr. by left.
  - unfold owner_fence. simpl. by rewrite Hr.
  - by intros key h _ _ a.
Qed.

Lemma release_owner_safe c w : winv w -> safe (release_owner c) w.
Proof.
  intros Hw. unfold release_owner, safe. wp_step. wp_step.
  destruct (dget _ _) as [r|] eqn:Er; [|apply wp_ret; by apply keeps_refl].
  pose proof (wi_owner _ Hw _ _ Er) as Hok. case_bool_decide as Et; [|apply wp_ret; by apply keeps_refl].
  wp_step. wp_step. unfold release_lock. wp_step. wp_step. rewrite get_put. simpl.
  assert (locked (r_lock r) = true) as Hl.
  { destruct (locked (r_lock r)) eqn:E; [done|]. by rewrite (proj2 (oo_token _ _ _ Hok) E) in Et. }
  unfold lock_release. rewrite Hl. wp_go. rewrite put_put.
  eapply (keeps_put_same w w _ r); try done; [by apply keeps_refl| |right; by left].
  assert (lock_release (r_lock r) = Some (wake_up_first {| locked := false; waiters := waiters (r_lock r) |}))
    as Hrl by (unfold lock_release; by rewrite Hl).
  destruct Hok. split; simpl; try done; [by eapply lock_release_ok|].
  by rewrite wake_up_first_locked.
Qed.

(** ** Holders *)

Lemma register_holder_safe c holder_id w : winv w -> safe (register_holder c holder_id) w.
Proof.
  intros Hw. unfold register_holder, safe. wp_step. wp_step.
  destruct (validate_holder_id holder_id); [|by apply keeps_refl].
  apply wp_bind, wp_claimed_record; try (intros; by apply keeps_refl).
  intros r Ho (Hr & Ht & Hg). pose proof (wi_owner _ Hw _ _ Hr) as Hok.
  destruct (r_availability r) as [av|] eqn:Ea; wp_go; try by apply keeps_refl.
  bool_prop. apply keeps_set_holders; [by apply keeps_refl|by apply dwf_dset, Hw|].
  intros key h. rewrite dget_dset. case_decide as Ek; [|by apply (wi_holder _ Hw)].
  intros [= <-]. subst key. split; [done|]. split; [done|]. simpl. exists r. split; [done|].
  pose proof (oo_binding _ _ _ Hok) as Hb. unfold binding_ok in Hb. rewrite Ea in Hb.
  destruct (r_binding r) as [b|]; [|done]. split; [lia|].
  intros av' Ea' _. rewrite Ea in Ea'. injection Ea' as <-. simpl. split; [done|]. congruence.
Qed.

Lemma next_availability_ok a phase f a' :
  next_availability a phase f = Ok a' <->
  phase ∈ transitions (a_phase a) /\ (f = true -> phase = running) /\
  a' = {| a_owner_digest := a_owner_digest a; a_sandbox_id := a_sandbox_id a;
          a_binding_generation := a_binding_generation a; a_sequence := a_sequence a + 1;
          a_phase := phase;
          a_connection_generation := a_connection_generation a + (if f then 1 else 0) |}.
Proof.
  unfold next_availability. case_bool_decide as E1; simpl; [|naive_solver].
  case_bool_decide as E2; destruct f; simpl; naive_solver.
Qed.

Lemma all_holders_idle_spec a w :
  winv w -> exists b, all_holders_idle a w = (Ok b, w) /\
  (b = true <-> forall key h, dget (holders (mem w)) key = Some h -> holder_matches h a = true ->
     h_acknowledged_sequence h = Some (a_sequence a)).
Proof.
  intros Hw. unfold all_holders_idle. eexists. split; [reflexivity|].
  rewrite forallb_forall. split.
  - intros H key h Hk Hm. apply (bool_decide_eq_true_1 _), H, filter_In. split; [|done].
    apply list_elem_of_In, dget_elem_of_dvals with key. done.
  - intros H h [Hin Hm]%filter_In. apply bool_decide_eq_true_2. apply list_elem_of_In in Hin.
    apply elem_of_dvals in Hin as [key Hk]; [|apply Hw]. by eapply H.
Qed.

(** The intent advances: the evidence the holders gave stays valid. *)
Lemma change_keeps w0 w c r a phase f a' :
  keeps w0 w -> holds_claim w c r -> r_availability r = Some a ->
  next_availability a phase f = Ok a' ->
  (phase = pausing -> forall key h, dget (holders (mem w)) key = Some h ->
     holder_matches h a = true -> h_acknowledged_sequence h = Some (a_sequence a)) ->
  keeps w0 (put_record (c_owner_digest c) (set_binding (r_binding r) (Some a') r) w).
Proof.
  intros Hk (Hr & Ht & Hg) Ha Hn Hp. pose proof (wi_owner _ (proj1 Hk) _ _ Hr) as Hok.
  apply next_availability_ok in Hn as (_ & _ & ->).
  assert (owner_fence w (c_owner_digest c) = record_fence r) as E by (unfold owner_fence; by rewrite Hr).
  apply keeps_put_record; [done|..|rewrite E; by left|by rewrite E|].
  - destruct Hok as [? ? ? ? Hb]. split; try done. unfold binding_ok in *. rewrite Ha in Hb. simpl.
    destruct (r_binding r); [|done]. tsplit; tauto || lia.
  - intros key h Hd Hh a' [= <-] Hm. simpl in *.
    assert (holder_matches h a = true) as Hma by done.
    destruct (evidence_same _ _ _ (proj1 Hk) Hr key h Hd Hh a Ha Hma) as [He _].
    split; [intros n En; specialize (He n En); lia|]. intros Hph. rewrite (Hp Hph key h Hh Hma).
    f_equal. lia.
Qed.

Lemma change_availability_safe c a phase f w :
  winv w -> safe (change_availability c a phase f) w.
Proof.
  intros Hw. unfold change_availability, safe. apply wp_bind, wp_expected_availability;
    [|intros; by apply keeps_refl].
  intros r Ho Hr Ha. wp_step. wp_step.
  destruct (next_availability a phase f) as [a'|e] eqn:En; [|by apply keeps_refl].
  wp_step. case_bool_decide as Ep.
  - wp_step. destruct (all_holders_idle_spec a w Hw) as (b & Eb & Hb). unfold wp at 1. rewrite Eb.
    simpl. destruct b; cbn [negb]; wp_go; try done; [|by apply keeps_refl].
    eapply change_keeps; try done; [by apply keeps_refl|]. intros _. by apply Hb.
  - wp_go. eapply change_keeps; try done. by apply keeps_refl.
Qed.

Lemma acknowledge_idle_safe holder_id a w : winv w -> safe (acknowledge_idle holder_id a) w.
Proof.
  intros Hw. unfold acknowledge_idle, safe. apply wp_bind, wp_ensure_open; [|intros; by apply keeps_refl].
  intros Ho. wp_step. wp_step. destruct (dget (records (mem w)) _) as [r|] eqn:Er; [|by apply keeps_refl].
  destruct (dget (holders (mem w)) _) as [h|] eqn:Eh; [|by apply keeps_refl].
  destruct (_ && _) eqn:E; wp_go; [|by apply keeps_refl]. bool_prop.
  destruct (wi_holder _ Hw _ _ Eh) as (E1 & E2 & r' & Hr' & Hg & He). simpl in *.
  rewrite Er in Hr'. injection Hr' as <-.
  apply keeps_set_holders; [by apply keeps_refl|by apply dwf_dset, Hw|].
  intros key h'. rewrite dget_dset. case_decide as Ek; [|by apply (wi_holder _ Hw)].
  intros [= <-]. subst key. split; [done|]. split; [done|]. simpl. exists r. split; [done|].
  split; [done|]. intros a' Ha' _. rewrite H1 in Ha'. injection Ha' as <-. simpl.
  split; [by intros n [= <-]|]. congruence.
Qed.

Lemma unregister_holder_safe holder_id a w : winv w -> safe (unregister_holder holder_id a) w.
Proof.
  intros Hw. unfold unregister_holder, safe. apply wp_bind, wp_ensure_open; [|intros; by apply keeps_refl].
  intros Ho. wp_step. wp_step. destruct (dget _ _) as [h|] eqn:Eh; [|by apply keeps_refl].
  wp_go; [|by apply keeps_refl].
  apply keeps_set_holders; [by apply keeps_refl|by apply dwf_ddel, Hw|].
  intros key h'. rewrite dget_ddel. case_decide; [done|]. by apply (wi_holder _ Hw).
Qed.

Lemma holders_are_idle_safe c a w : winv w -> safe (holders_are_idle c a) w.
Proof.
  intros Hw. apply state_reads_safe; [done|]. unfold holders_are_idle.
  apply wp_bind, wp_expected_availability; [|done]. intros r Ho Hr Ha. wp_go; [done|].
  destruct (all_holders_idle_spec a w Hw) as (b & Eb & _). unfold wp. by rewrite Eb.
Qed.

Lemma read_availability_safe owner_key w : winv w -> safe (read_availability owner_key) w.
Proof.
  intros Hw. apply state_reads_safe; [done|]. unfold read_availability.
  apply wp_bind, wp_ensure_open; [|done]. intros _. by wp_go.
Qed.

Lemma get_holder_updates_safe holder_id w : winv w -> safe (get_holder_updates holder_id) w.
Proof.
  intros Hw. apply state_reads_safe; [done|]. unfold get_holder_updates.
  apply wp_bind, wp_ensure_open; [|done]. intros _. by wp_go.
Qed.

(** ** The warm pool *)

Lemma find_first_some {A} (f : A -> bool) l i x :
  find_first f l = Some (i, x) ->
  l !! i = Some x /\ f x = true /\ forall j y, (j < i)%nat -> l !! j = Some y -> f y = false.
Proof.
  revert i. induction l as [|y l IH]; simpl; [done|]. intros i. destruct (f y) eqn:E.
  - intros [= <- <-]. split; [done|]. split; [done|]. lia.
  - destruct (find_first f l) as [[k z]|] eqn:Ef; simpl; [|done]. intros [= <- <-].
    destruct (IH k eq_refl) as (H1 & H2 & H3). split; [done|]. split; [done|].
    intros [|j] z' Hj; simpl; [by intros [= <-]|]. apply H3. lia.
Qed.

Lemma find_first_none {A} (f : A -> bool) l :
  find_first f l = None <-> forall x, x ∈ l -> f x = false.
Proof.
  induction l as [|y l IH]; simpl; [split; [by intros _ x ?%elem_of_nil|done]|].
  destruct (f y) eqn:E.
  - split; [done|]. intros H. specialize (H y ltac:(by left)). congruence.
  - destruct (find_first f l); simpl.
    + split; [done|]. intros H. exfalso. enough (Some p = None) by done. apply IH.
      intros x Hx. apply H. by right.
    + split; [|done]. intros _ x [->|Hx]%elem_of_cons; [done|]. by apply IH.
Qed.

Lemma slot_fence_lookup w i slot :
  warm_slots (mem w) !! i = Some slot -> slot_fence w i = (s_active_token slot, s_generation slot).
Proof. intros H. unfold slot_fence. by rewrite H. Qed.

(** A slot is claimed with the token just drawn. *)
Lemma keeps_claim_slot w i slot :
  winv w -> warm_slots (mem w) !! i = Some slot ->
  keeps w (on_mem (fun s => set_warm_slots (<[i := claim_slot (uuid_hex (drawn w)) slot]>
    (warm_slots s)) s) {| mem := mem w; drawn := S (drawn w) |}).
Proof.
  intros Hw Hi. apply (keeps_put_slot w {| mem := mem w; drawn := S (drawn w) |} i slot); simpl;
    [by apply keeps_draw, keeps_refl|done|done|..].
  - intros x [= <-]. exists (drawn w). split; [lia|done].
  - right; right. exists (drawn w). split; [lia|done].
Qed.

Lemma wp_uuid4 w (Q : res sandbox_exn pystr -> World -> Prop) :
  Q (Ok (uuid_hex (drawn w))) {| mem := mem w; drawn := S (drawn w) |} -> wp uuid4 w Q.
Proof. done. Qed.

Lemma claim_warm_slot_safe w : winv w -> safe claim_warm_slot w.
Proof.
  intros Hw. unfold claim_warm_slot, safe. apply wp_bind, wp_ensure_open; [|intros; by apply keeps_refl].
  intros _. wp_step. wp_step. destruct (find_first _ _) as [[i slot]|] eqn:Ef;
    [|apply wp_ret; by apply keeps_refl].
  apply find_first_some in Ef as (Hi & _). apply wp_bind, wp_uuid4. unfold put_slot. wp_go.
  by apply keeps_claim_slot.
Qed.

Lemma claim_ready_warm_slot_safe l w : winv w -> safe (claim_ready_warm_slot l) w.
Proof.
  intros Hw. unfold claim_ready_warm_slot, safe. apply wp_bind, wp_ensure_open; [|intros; by apply keeps_refl].
  intros _. wp_step. wp_step. destruct (find_first _ _) as [[i slot]|] eqn:Ef;
    [|apply wp_ret; by apply keeps_refl].
  apply find_first_some in Ef as (Hi & _). destruct slot as [n g [id|] t]; [|apply wp_ret; by apply keeps_refl].
  apply wp_bind, wp_uuid4. unfold put_slot. wp_go. by apply keeps_claim_slot.
Qed.

Lemma wp_claimed_warm_slot c w (Q : res sandbox_exn (nat * MemoryWarmSlot) -> World -> Prop) :
  (forall i slot, is_open w -> py_index (warm_slots (mem w)) (wc_slot c) = Some i ->
     warm_slots (mem w) !! i = Some slot -> s_active_token slot = Some (wc_token c) ->
     s_generation slot = wc_generation c -> Q (Ok (i, slot)) w) ->
  (forall e, e = OpenSandboxStateError \/ e = OpenSandboxStateOwnershipError -> Q (Raise e) w) ->
  wp (claimed_warm_slot c) w Q.
Proof.
  intros H1 H2. unfold claimed_warm_slot. apply wp_bind, wp_ensure_open; [|auto]. intros Ho.
  wp_step. wp_step. destruct (py_index _ _) as [i|] eqn:Ei; [|apply wp_raise; auto].
  destruct (_ !! i) as [slot|] eqn:Es; [|apply wp_raise; auto]. wp_go; [auto|]. bool_prop. by apply H1.
Qed.

(** The slot of a claim is released, filled or emptied. *)
Lemma keeps_open_slot w i slot id :
  winv w -> warm_slots (mem w) !! i = Some slot ->
  keeps w (on_mem (fun s => set_warm_slots (<[i := set_slot id None slot]> (warm_slots s)) s) w).
Proof.
  intros Hw Hi. eapply keeps_put_slot; [by apply keeps_refl|done|done|by intros x|].
  right. by left.
Qed.

Lemma publish_warm_safe c id w : winv w -> safe (publish_warm c id) w.
Proof.
  intros Hw. unfold publish_warm, safe. apply wp_bind, wp_claimed_warm_slot; [|intros; by apply keeps_refl].
  intros i slot _ _ Hi _ _. unfold put_slot. wp_go. by apply keeps_open_slot.
Qed.

Lemma renew_warm_safe c w : winv w -> safe (renew_warm c) w.
Proof.
  intros Hw. apply still_owned_safe, state_reads_safe; [done|]. by apply wp_claimed_warm_slot.
Qed.

Lemma release_warm_safe c w : winv w -> safe (release_warm c) w.
Proof.
  intros Hw. unfold release_warm, safe. wp_step. wp_step. wp_step; [by apply keeps_refl|].
  destruct (py_index _ _) as [i|] eqn:Ei; [|apply wp_raise; by apply keeps_refl].
  destruct (_ !! i) as [slot|] eqn:Es; [|apply wp_raise; by apply keeps_refl].
  unfold put_slot. wp_go; [|by apply keeps_refl]. by apply keeps_open_slot.
Qed.

(** ** Cleanup *)

Lemma keeps_put_target w0 w id k :
  keeps w0 w -> drawn_before (drawn w) (k_active_token k) ->
  moves (drawn w0) (cleanup_fence w id) (k_active_token k, k_generation k) ->
  keeps w0 (on_mem (fun s => set_cleanup (dset (cleanup s) id k) s) w).
Proof.
  intros Hk Hd Hm. apply (keeps_set_cleanup w0 w); [done|by apply dwf_dset, Hk|..].
  - intros id' k'. rewrite dget_dset. case_decide; [by intros [= <-]|by apply (wi_target _ (proj1 Hk))].
  - intros id'. rewrite dget_dset. case_decide as E; [by subst|]. apply moves_refl.
Qed.

Lemma keeps_setdefault w0 w id :
  keeps w0 w ->
  keeps w0 (on_mem (fun s => set_cleanup (dsetdefault (cleanup s) id new_cleanup_record) s) w).
Proof.
  intros Hk. change (keeps w0 (on_mem (set_cleanup (dsetdefault (cleanup (mem w)) id
    new_cleanup_record)) w)). unfold dsetdefault. destruct (dget (cleanup (mem w)) id) as [k|] eqn:E.
  - apply keeps_set_cleanup; [done|apply Hk|apply Hk|]. intros id'. apply moves_refl.
  - apply (keeps_put_target w0 w); [done|by intros x|]. unfold cleanup_fence. rewrite E. by left.
Qed.

Lemma discard_safe c w : winv w -> safe (discard_ready_warm_slot c) w.
Proof.
  intros Hw. unfold discard_ready_warm_slot, safe. apply wp_bind, wp_claimed_warm_slot;
    [|intros; by apply keeps_refl].
  intros i slot _ _ Hi _ _. unfold put_slot. wp_go; [by apply keeps_refl|].
  apply (keeps_setdefault w (on_mem (fun s => set_warm_slots (<[i := set_slot None None slot]>
    (warm_slots s)) s) w)). by apply keeps_open_slot.
Qed.

Lemma enqueue_cleanup_safe id w : winv w -> safe (enqueue_cleanup id) w.
Proof.
  intros Hw. unfold enqueue_cleanup, safe. apply wp_bind, wp_ensure_open; [|intros; by apply keeps_refl].
  intros _. wp_go. by apply keeps_setdefault, keeps_refl.
Qed.

Lemma first_unclaimed_some (l : dict pystr MemoryCleanupRecord) id k :
  first_unclaimed l = Some (id, k) -> (id, k) ∈ l /\ k_active_token k = None.
Proof.
  induction l as [|[id' k'] l IH]; simpl; [done|]. destruct (k_active_token k') eqn:E.
  - intros H. destruct (IH H). split; [by right|done].
  - intros [= <- <-]. split; [by left|done].
Qed.

Lemma claim_cleanup_safe w : winv w -> safe claim_cleanup w.
Proof.
  intros Hw. unfold claim_cleanup, safe. apply wp_bind, wp_ensure_open; [|intros; by apply keeps_refl].
  intros _. wp_step. wp_step. destruct (first_unclaimed _) as [[id k]|] eqn:E; [|apply wp_ret; by apply keeps_refl].
  apply first_unclaimed_some in E as [Hin _]. apply wp_bind, wp_uuid4. wp_go.
  apply (keeps_put_target w {| mem := mem w; drawn := S (drawn w) |});
    [by apply keeps_draw, keeps_refl|..].
  - intros x [= <-]. exists (drawn w). split; [simpl; lia|done].
  - right; right. exists (drawn w). split; [lia|done].
Qed.

Lemma wp_claimed_cleanup c w (Q : res sandbox_exn MemoryCleanupRecord -> World -> Prop) :
  (forall k, is_open w -> dget (cleanup (mem w)) (cc_sandbox_id c) = Some k ->
     k_active_token k = Some (cc_token c) -> k_generation k = cc_generation c -> Q (Ok k) w) ->
  (forall e, e = OpenSandboxStateError \/ e = OpenSandboxStateOwnershipError -> Q (Raise e) w) ->
  wp (claimed_cleanup c) w Q.
Proof.
  intros H1 H2. unfold claimed_cleanup. apply wp_bind, wp_ensure_open; [|auto]. intros Ho.
  wp_step. wp_step. destruct (dget _ _) as [k|] eqn:Ek; [|apply wp_raise; auto].
  wp_go; [auto|]. bool_prop. by apply H1.
Qed.

Lemma complete_cleanup_safe c w : winv w -> safe (complete_cleanup c) w.
Proof.
  intros Hw. unfold complete_cleanup, safe. apply wp_bind, wp_claimed_cleanup; [|intros; by apply keeps_refl].
  intros k _ Hk _ _. wp_go.
  apply (keeps_set_cleanup w w); [by apply keeps_refl|by apply dwf_ddel, Hw|..].
  - intros id k'. rewrite dget_ddel. case_decide; [done|]. by apply (wi_target _ Hw).
  - intros id. rewrite dget_ddel. case_decide; [right; by left|apply moves_refl].
Qed.

Lemma renew_cleanup_safe c w : winv w -> safe (renew_cleanup c) w.
Proof. intros Hw. apply still_owned_safe, state_reads_safe; [done|]. by apply wp_claimed_cleanup. Qed.

Lemma release_cleanup_safe c w : winv w -> safe (release_cleanup c) w.
Proof.
  intros Hw. unfold release_cleanup, safe. wp_step. wp_step.
  destruct (dget _ _) as [k|] eqn:Ek; [|apply wp_ret; by apply keeps_refl].
  wp_go; [|by apply keeps_refl].
  apply (keeps_put_target w w); [by apply keeps_refl|by intros x|right; by left].
Qed.

(** The warm slot a claim takes over is emptied after the binding is committed. *)
Lemma consume_warm_safe c w :
  winv w ->
  (forall slot id, slot ∈ warm_slots (mem w) -> s_sandbox_id slot = Some id ->
     fresh_identity w c id) ->
  safe (consume_warm c) w.
Proof.
  intros Hw Hf. unfold consume_warm, safe. apply wp_bind, wp_claimed_record;
    try (intros; by apply keeps_refl).
  intros r Ho Hr. pose proof (wi_owner _ Hw _ _ (proj1 Hr)) as Hok.
  wp_step. apply wp_intro. intros rp w1 E. assert (w1 = w) as ->.
  { destruct (r_binding r); unfold ret, lift in E; by injection E. }
  destruct rp as [[]|e]; [|by apply keeps_refl]. wp_step. wp_step.
  destruct (find_first _ _) as [[i slot]|] eqn:Ef; [|apply wp_ret; by apply keeps_refl].
  apply find_first_some in Ef as (Hi & Hready & _).
  destruct slot as [n g [id|] t]; [|apply wp_ret; by apply keeps_refl].
  assert (fresh_identity w c id) as Hfi.
  { eapply Hf; [by eapply list_elem_of_lookup_2|done]. }
  unfold slot_ready in Hready. simpl in Hready. destruct t; [done|].
  wp_step. eapply wp_commit_binding; [apply Hok|by apply keeps_refl|..].
  - intros p b _ _. unfold put_slot. wp_go. by apply keeps_open_slot.
  - intros p b _ Hne Hp. unfold put_slot. wp_go.
    eapply keeps_trans; [by eapply (commit_keeps w w); [apply keeps_refl|..]|].
    eapply keeps_open_slot; [|done]. eapply (commit_keeps w w); try done. by apply keeps_refl.
Qed.

(** ** The whole contract *)

Lemma start_safe n w : winv w -> safe (start n) w.
Proof.
  intros Hw. unfold start, safe. destruct n as [| |size| |]; try (by apply keeps_refl).
  wp_go; try by apply keeps_refl.
  destruct Hw as [I1 I2 I3 I4 I5 I6 I7 I8]. rewrite Heqb in I8. split; split; simpl; try done.
  - intros i slot Hi. apply list_lookup_fmap_Some in Hi as (k & -> & Hk).
    apply lookup_seq in Hk as [-> _]. simpl. split; [lia|by intros x].
  - rewrite zlen_map. unfold zlen. rewrite length_seq. f_equal. bool_prop. lia.
  - intros d. apply moves_refl.
  - intros i. unfold slot_fence. rewrite I8. simpl.
    destruct (_ !! i) as [slot|] eqn:E; [|apply moves_refl].
    apply list_lookup_fmap_Some in E as (k & -> & Hk). right. by left.
  - intros id. apply moves_refl.
Qed.

Lemma state_close_safe w : winv w -> safe aclose w.
Proof.
  intros []. unfold aclose, safe. wp_go. split; split; try done; intros; apply moves_refl.
Qed.

(** What the manager guarantees about its calls: the tasks are distinct, and a
    claim does not return to a Sandbox it replaced and for which a holder is still
    registered. *)
Definition admissible (q : request) w : Prop :=
  match q with
  | AcquireOwner task _ | ReadBinding task _ => not_waiting w task
  | BindOwner c id _ => fresh_identity w c id
  | ConsumeWarm c => forall slot id, slot ∈ warm_slots (mem w) -> s_sandbox_id slot = Some id ->
      fresh_identity w c id
  | _ => True
  end.

Lemma memory_state_safe q w : winv w -> admissible q w -> safe (memory_state q) w.
Proof.
  intros Hw Ha. destruct q; simpl in *; apply as_reply_safe.
  - by apply start_safe.
  - by apply acquire_owner_safe.
  - by apply still_owned_safe, claimed_record_safe.
  - by apply bind_owner_safe.
  - by apply unbind_owner_safe.
  - by apply read_binding_safe.
  - by apply release_owner_safe.
  - by apply register_holder_safe.
  - by apply read_availability_safe.
  - by apply get_holder_updates_safe.
  - by apply change_availability_safe.
  - by apply acknowledge_idle_safe.
  - by apply holders_are_idle_safe.
  - by apply unregister_holder_safe.
  - by apply claim_warm_slot_safe.
  - by apply claim_ready_warm_slot_safe.
  - by apply discard_safe.
  - apply state_reads_safe; [done|]. unfold warm_pool_ready. apply wp_bind, wp_ensure_open; [|done].
    intros _. by wp_go.
  - by apply publish_warm_safe.
  - by apply renew_warm_safe.
  - by apply release_warm_safe.
  - by apply consume_warm_safe.
  - by apply enqueue_cleanup_safe.
  - by apply claim_cleanup_safe.
  - by apply renew_cleanup_safe.
  - by apply complete_cleanup_safe.
  - by apply release_cleanup_safe.
  - apply state_reads_safe; [done|]. unfold shutdown_sandbox_ids. apply wp_bind, wp_ensure_open; [|done].
    intros _. by wp_go.
  - by apply state_close_safe.
  - by apply resume_safe.
  - by apply cancel_wait_safe.
Qed.

Lemma new_world_inv ns : winv (new_world ns).
Proof. split; simpl; try done; by constructor. Qed.
End safe.
