(* ===== verification/SandboxEffects.v ===== *)
(** Sandbox lifecycle: what each request leaves alone, and what the few requests
    that commit a binding, register a holder or move a Sandbox do. *)
From S2P Require Import Prelude PyDict PySeq PyLock SandboxModels SandboxState SandboxInvariant.
From S2P Require Import SandboxSafe.
From Stdlib Require Import Strings.String.

#[global] Create HintDb sandbox.

Section effects.
Context {env : SandboxEnv}.
Implicit Types (w : World) (d : pystr) (r : MemoryOwnerRecord).

Abbreviation IO := (M World sandbox_exn).

(** ** Definitions *)

(** Every owner keeps its binding and its intent. *)
Definition bindings_kept w w' : Prop :=
  forall d r, dget (records (mem w)) d = Some r ->
    exists r', dget (records (mem w')) d = Some r' /\ r_binding r' = r_binding r /\
      r_availability r' = r_availability r.

(** The requests that may change a binding or an intent, a holder, a slot, or the
    cleanup queue. *)
Definition writes_bindings (q : request) : bool :=
  match q with BindOwner _ _ _ | UnbindOwner _ | ChangeAvailability _ _ _ _ | ConsumeWarm _ => true
             | _ => false end.

Definition writes_holders (q : request) : bool :=
  match q with UnbindOwner _ | RegisterHolder _ _ | AcknowledgeIdle _ _ | UnregisterHolder _ _ => true
             | _ => false end.

Definition writes_slots (q : request) : bool :=
  match q with
  | Start _ | ClaimWarmSlot | ClaimReadyWarmSlot _ | DiscardReadyWarmSlot _ | PublishWarm _ _
  | ReleaseWarm _ | ConsumeWarm _ => true
  | _ => false
  end.

Definition writes_cleanup (q : request) : bool :=
  match q with
  | DiscardReadyWarmSlot _ | EnqueueCleanup _ | ClaimCleanup | CompleteCleanup _
  | ReleaseCleanup _ => true
  | _ => false
  end.

Record frame (b h s c : bool) w w' : Prop := {
  fr_bindings : b = false -> bindings_kept w w';
  fr_holders : h = false -> holders (mem w') = holders (mem w);
  fr_slots : s = false -> warm_slots (mem w') = warm_slots (mem w);
  fr_cleanup : c = false -> cleanup (mem w') = cleanup (mem w)
}.

(** ** Frames *)

Lemma bindings_kept_refl w : bindings_kept w w.
Proof. intros d r Hr. by exists r. Qed.

Lemma frame_refl b h s c w : frame b h s c w w.
Proof. split; try done. intros _. apply bindings_kept_refl. Qed.

Lemma frame_put b h s c w0 w d r r' :
  frame b h s c w0 w -> dget (records (mem w)) d = Some r ->
  (b = false -> r_binding r' = r_binding r /\ r_availability r' = r_availability r) ->
  frame b h s c w0 (put_record d r' w).
Proof.
  intros [F1 F2 F3 F4] Hr He. split; try done. intros Hb. destruct (He Hb) as [E1 E2].
  intros d0 r0 H0. destruct (F1 Hb d0 r0 H0) as (r1 & Hr1 & B1 & B2). simpl. rewrite dget_dset.
  destruct (decide (d = d0)) as [->|]; [|by exists r1]. exists r'. split; [done|].
  rewrite Hr in Hr1. injection Hr1 as <-. by rewrite E1, E2.
Qed.

Lemma frame_new b h s c w0 w d r' :
  frame b h s c w0 w -> dget (records (mem w)) d = None -> frame b h s c w0 (put_record d r' w).
Proof.
  intros [F1 F2 F3 F4] Hr. split; try done. intros Hb d0 r0 H0.
  destruct (F1 Hb d0 r0 H0) as (r1 & Hr1 & B1 & B2). simpl. rewrite dget_dset.
  destruct (decide (d = d0)) as [->|]; [congruence|by exists r1].
Qed.

Lemma frame_draw b h s c w0 w :
  frame b h s c w0 w -> frame b h s c w0 {| mem := mem w; drawn := S (drawn w) |}.
Proof. by intros []. Qed.

Lemma frame_other b h s c w0 w f :
  frame b h s c w0 w -> records (f (mem w)) = records (mem w) ->
  (h = false -> holders (f (mem w)) = holders (mem w)) ->
  (s = false -> warm_slots (f (mem w)) = warm_slots (mem w)) ->
  (c = false -> cleanup (f (mem w)) = cleanup (mem w)) ->
  frame b h s c w0 (on_mem f w).
Proof.
  intros [F1 F2 F3 F4] H1 H2 H3 H4. split; simpl.
  - intros Hb d r Hr. simpl. rewrite H1. by apply F1.
  - intros Hh. rewrite H2 by done. by apply F2.
  - intros Hh. rewrite H3 by done. by apply F3.
  - intros Hh. rewrite H4 by done. by apply F4.
Qed.

(** [framed m]: [m] keeps whatever the frame protects. *)
Definition framed {A} (b h s c : bool) (m : IO A) : Prop :=
  forall w0 w, frame b h s c w0 w -> wp m w (fun _ w' => frame b h s c w0 w').

Lemma framed_bind {A B} b h s c (m : IO A) (f : A -> IO B) :
  framed b h s c m -> (forall a, framed b h s c (f a)) -> framed b h s c (bind m f).
Proof.
  intros Hm Hf w0 w Hw. apply wp_bind. eapply wp_mono; [by apply Hm|].
  intros [a|e] w' Hw'; [by apply Hf|done].
Qed.

Lemma framed_ret {A} b h s c (a : A) : framed b h s c (ret a).
Proof. by intros w0 w Hw. Qed.

Lemma framed_raise {A} b h s c e : framed b h s c (raise e : IO A).
Proof. by intros w0 w Hw. Qed.

Lemma framed_gets {A} b h s c (f : World -> A) : framed b h s c (gets f).
Proof. by intros w0 w Hw. Qed.

Lemma framed_lift {A} b h s c (x : res sandbox_exn A) : framed b h s c (lift x).
Proof. by intros w0 w Hw. Qed.

Lemma framed_raise_if b h s c (x : bool) e : framed b h s c (raise_if x e).
Proof. intros w0 w Hw. by destruct x. Qed.

Lemma framed_when b h s c (x : bool) m : framed b h s c m -> framed b h s c (when x m).
Proof. intros Hm w0 w Hw. destruct x; [by apply Hm|done]. Qed.

Lemma framed_uuid4 b h s c : framed b h s c uuid4.
Proof. intros w0 w Hw. by apply frame_draw. Qed.

Lemma framed_other b h s c f :
  (forall x, records (f x) = records x) ->
  (h = false -> forall x, holders (f x) = holders x) ->
  (s = false -> forall x, warm_slots (f x) = warm_slots x) ->
  (c = false -> forall x, cleanup (f x) = cleanup x) ->
  framed b h s c (modify (on_mem f)).
Proof. intros H1 H2 H3 H4 w0 w Hw. apply frame_other; auto. Qed.

Lemma framed_ensure_open b h s c : framed b h s c ensure_open.
Proof.
  apply framed_bind; [apply framed_gets|]. intros x.
  apply framed_bind; [apply framed_raise_if|]. intros []. apply framed_raise_if.
Qed.

Lemma framed_release_lock b h s c d : framed b h s c (release_lock d).
Proof.
  intros w0 w Hw. unfold release_lock. wp_step. wp_step.
  destruct (dget _ _) as [r|] eqn:Er; [|done]. destruct (lock_release _) as [l|]; [|done].
  wp_go. by eapply frame_put.
Qed.

Lemma framed_record_of b h s c k w0 w :
  frame b h s c w0 w ->
  wp (record_of k) w (fun x w' => frame b h s c w0 w' /\
    match x with Ok (d, r) => dget (records (mem w')) d = Some r | Raise _ => True end).
Proof.
  intros Hw. unfold record_of. apply wp_bind, wp_ensure_open; [|done]. intros Ho. wp_step. wp_step.
  destruct (dget _ _) as [r|] eqn:Er; wp_go; [done|]. split; [by apply frame_new|apply get_put].
Qed.

Lemma framed_owner_acquired b h s c d k : framed b h s c (owner_acquired d k).
Proof.
  intros w0 w Hw. unfold owner_acquired. apply wp_intro. intros res w'.
  destruct (ensure_open w) as [[[]|e] w1] eqn:Eo.
  - assert (w1 = w) as ->.
    { eapply (wp_elim _ _ _ _ (fun _ w' => w' = w)); [|exact Eo]. by apply wp_ensure_open. }
    intros E. eapply (wp_elim _ _ _ _ (fun _ w' => frame b h s c w0 w')); [|exact E].
    apply wp_bind, wp_uuid4. wp_step. wp_step.
    destruct (dget _ _) as [r|] eqn:Er; wp_go; [|by apply frame_draw].
    eapply frame_put; [by apply frame_draw|exact Er|done].
  - assert (w1 = w) as ->.
    { eapply (wp_elim _ _ _ _ (fun _ w' => w' = w)); [|exact Eo]. by apply wp_ensure_open. }
    intros E. eapply (wp_elim _ _ _ _ (fun _ w' => frame b h s c w0 w')); [|exact E].
    apply wp_bind. eapply wp_mono; [by apply framed_release_lock|].
    by intros [] w2 H2.
Qed.

Lemma framed_binding_read b h s c d : framed b h s c (binding_read d).
Proof.
  apply framed_bind; [apply framed_gets|]. intros x. destruct (dget _ _); [|apply framed_raise].
  apply framed_bind; [apply framed_release_lock|]. intros. apply framed_ret.
Qed.

Lemma framed_claimed_record b h s c cl : framed b h s c (claimed_record cl).
Proof. intros w0 w Hw. by apply wp_claimed_record. Qed.

Lemma framed_still_owned {A} b h s c (m : IO A) : framed b h s c m -> framed b h s c (still_owned m).
Proof.
  intros Hm w0 w Hw. specialize (Hm w0 w Hw). unfold wp, still_owned in *.
  destruct (m w) as [[a|e] w']; [done|]. by destruct e.
Qed.

Ltac framed_step :=
  first
  [ apply framed_ret | apply framed_raise | apply framed_gets | apply framed_lift
  | apply framed_raise_if | apply framed_uuid4 | apply framed_ensure_open
  | apply framed_claimed_record | apply framed_release_lock
  | apply framed_other; done
  | apply framed_when | apply framed_still_owned
  | apply framed_bind; [|intros ?]
  | match goal with |- framed _ _ _ _ (match ?o with _ => _ end) => destruct o eqn:? end ].

(** Methods that never assign an owner's record. *)
Lemma framed_start n : framed false false true false (start n).
Proof. unfold start. repeat framed_step. Qed.

Lemma framed_register_holder c k : framed false true false false (register_holder c k).
Proof. unfold register_holder. repeat framed_step. Qed.

Lemma framed_read_availability b h s c k : framed b h s c (read_availability k).
Proof. unfold read_availability. repeat framed_step. Qed.

Lemma framed_get_holder_updates b h s c k : framed b h s c (get_holder_updates k).
Proof. unfold get_holder_updates. repeat framed_step. Qed.

Lemma framed_acknowledge_idle k a : framed false true false false (acknowledge_idle k a).
Proof. unfold acknowledge_idle. repeat framed_step. Qed.

Lemma framed_holders_are_idle b h s c cl a : framed b h s c (holders_are_idle cl a).
Proof. unfold holders_are_idle, expected_availability, all_holders_idle. repeat framed_step. Qed.

Lemma framed_unregister_holder k a : framed false true false false (unregister_holder k a).
Proof. unfold unregister_holder. repeat framed_step. Qed.

Lemma framed_claim_warm_slot : framed false false true false claim_warm_slot.
Proof. unfold claim_warm_slot, put_slot. repeat framed_step. Qed.

Lemma framed_claim_ready l : framed false false true false (claim_ready_warm_slot l).
Proof. unfold claim_ready_warm_slot, put_slot. repeat framed_step. Qed.

Lemma framed_claimed_warm_slot b h s c cl : framed b h s c (claimed_warm_slot cl).
Proof. unfold claimed_warm_slot. repeat framed_step. Qed.

Lemma framed_discard c : framed false false true true (discard_ready_warm_slot c).
Proof.
  unfold discard_ready_warm_slot, put_slot. apply framed_bind; [apply framed_claimed_warm_slot|].
  intros. repeat framed_step.
Qed.

Lemma framed_publish c k : framed false false true false (publish_warm c k).
Proof.
  unfold publish_warm, put_slot. apply framed_bind; [apply framed_claimed_warm_slot|].
  intros. repeat framed_step.
Qed.

Lemma framed_release_warm c : framed false false true false (release_warm c).
Proof. unfold release_warm, put_slot. repeat framed_step. Qed.

Lemma framed_enqueue k : framed false false false true (enqueue_cleanup k).
Proof. unfold enqueue_cleanup. repeat framed_step. Qed.

Lemma framed_claim_cleanup : framed false false false true claim_cleanup.
Proof. unfold claim_cleanup. repeat framed_step. Qed.

Lemma framed_claimed_cleanup b h s c cl : framed b h s c (claimed_cleanup cl).
Proof. unfold claimed_cleanup. repeat framed_step. Qed.

Lemma framed_complete c : framed false false false true (complete_cleanup c).
Proof.
  unfold complete_cleanup. apply framed_bind; [apply framed_claimed_cleanup|]. intros.
  repeat framed_step.
Qed.

Lemma framed_release_cleanup c : framed false false false true (release_cleanup c).
Proof. unfold release_cleanup. repeat framed_step. Qed.

(** Methods that assign only the lock or the fence of a record. *)
Lemma framed_acquire t k : framed false false false false (acquire_owner t k).
Proof.
  intros w0 w Hw. unfold acquire_owner. apply wp_bind. eapply wp_mono; [by apply framed_record_of|].
  intros [[d r]|e] w1 [H1 Hr]; [|done]. destruct (lock_acquire _ _ _) as [got l].
  wp_step. wp_step. assert (frame false false false false w0 (put_record d (set_lock l r) w1)) as H2
    by by eapply frame_put.
  destruct got; [|done]. apply wp_bind. eapply wp_mono; [by apply framed_owner_acquired|]. by intros [].
Qed.

Lemma framed_read_binding t k : framed false false false false (read_binding t k).
Proof.
  intros w0 w Hw. unfold read_binding. apply wp_bind. eapply wp_mono; [by apply framed_record_of|].
  intros [[d r]|e] w1 [H1 Hr]; [|done]. destruct (lock_acquire _ _ _) as [got l].
  wp_step. wp_step. assert (frame false false false false w0 (put_record d (set_lock l r) w1)) as H2
    by by eapply frame_put.
  destruct got; [|done]. apply wp_bind. eapply wp_mono; [by apply framed_binding_read|]. by intros [].
Qed.

Lemma framed_resume d t : framed false false false false (resume d t).
Proof.
  intros w0 w Hw. unfold resume. wp_step. wp_step. destruct (dget _ _) as [r|] eqn:Er; [|done].
  destruct (lock_resume _ _) as [[[body got] l]|]; [|done]. wp_step. wp_step.
  assert (frame false false false false w0 (put_record d (set_lock l r) w)) as H2
    by by eapply frame_put.
  destruct got; [|done]. destruct body; wp_step.
  - eapply wp_mono; [by apply framed_owner_acquired|]. by intros [].
  - eapply wp_mono; [by apply framed_binding_read|]. by intros [].
Qed.

Lemma framed_cancel_wait d t : framed false false false false (cancel_wait d t).
Proof.
  intros w0 w Hw. unfold cancel_wait. wp_step. wp_step. destruct (dget _ _) as [r|] eqn:Er; [|done].
  wp_go. by eapply frame_put.
Qed.

Lemma framed_release_owner c : framed false false false false (release_owner c).
Proof.
  intros w0 w Hw. unfold release_owner. wp_step. wp_step. destruct (dget _ _) as [r|] eqn:Er; [|done].
  case_bool_decide; [|done]. wp_step. wp_step. apply framed_release_lock. by eapply frame_put.
Qed.

(** Methods that assign the binding or the intent. *)
Lemma frame_put_any h s c w0 w d r :
  frame true h s c w0 w -> frame true h s c w0 (put_record d r w).
Proof. intros [F1 F2 F3 F4]. by split. Qed.

Lemma framed_put_any h s c d r : framed true h s c (modify (put_record d r)).
Proof. intros w0 w Hw. by apply frame_put_any. Qed.

Lemma framed_commit h s c r cl id p : framed true h s c (commit_binding r cl id p).
Proof. unfold commit_binding. repeat first [apply framed_put_any|framed_step]. Qed.

Lemma framed_bind_owner c id p : framed true false false false (bind_owner c id p).
Proof. unfold bind_owner. apply framed_bind; [framed_step|]. intros. apply framed_commit. Qed.

Lemma framed_unbind_owner c : framed true true false false (unbind_owner c).
Proof. unfold unbind_owner. repeat first [apply framed_put_any|framed_step]. Qed.

Lemma framed_change c a p f : framed true false false false (change_availability c a p f).
Proof.
  unfold change_availability, expected_availability, all_holders_idle.
  repeat first [apply framed_put_any|framed_step].
Qed.

Lemma framed_consume c : framed true false true false (consume_warm c).
Proof.
  unfold consume_warm, put_slot. repeat first [apply framed_commit|framed_step].
Qed.

Lemma framed_close : framed false false false false aclose.
Proof. unfold aclose. repeat framed_step. Qed.

Lemma framed_as_reply {A} b h s c (f : A -> reply) (m : IO A) :
  framed b h s c m -> framed b h s c (as_reply f m).
Proof. intros H. unfold as_reply. apply framed_bind; [done|]. intros. apply framed_ret. Qed.

#[local] Hint Resolve framed_start framed_register_holder framed_read_availability
  framed_get_holder_updates framed_acknowledge_idle framed_holders_are_idle
  framed_unregister_holder framed_claim_warm_slot framed_claim_ready framed_discard framed_publish
  framed_release_warm framed_enqueue framed_claim_cleanup framed_complete framed_release_cleanup
  framed_acquire framed_read_binding framed_resume framed_cancel_wait framed_release_owner
  framed_bind_owner framed_unbind_owner framed_change framed_consume framed_close : sandbox.

Lemma framed_memory_state q :
  framed (writes_bindings q) (writes_holders q) (writes_slots q) (writes_cleanup q) (memory_state q).
Proof.
  destruct q; simpl; apply framed_as_reply; auto with sandbox;
    unfold renew_owner, renew_warm, renew_cleanup; repeat framed_step;
    first [apply framed_claimed_warm_slot|apply framed_claimed_cleanup|idtac].
  all: unfold warm_pool_ready, shutdown_sandbox_ids; repeat framed_step.
Qed.

(** What a request leaves alone. *)
Lemma memory_state_frame q w :
  frame (writes_bindings q) (writes_holders q) (writes_slots q) (writes_cleanup q) w
    (memory_state q w).2.
Proof. apply framed_memory_state, frame_refl. Qed.
End effects.

(** ** How one record, holder, slot or cleanup target moves *)

Section steps.
Context {env : SandboxEnv}.
Implicit Types (w : World) (d : pystr) (r : MemoryOwnerRecord).

Abbreviation IO := (M World sandbox_exn).

(** ** Definitions *)

(** How a request may change the binding and the intent of one owner. *)
Inductive owner_step (q : request) w d r r' : Prop :=
| OwnerSame :
    r_binding r' = r_binding r -> r_availability r' = r_availability r -> owner_step q w d r r'
| OwnerChange c a phase f a' :
    q = ChangeAvailability c a phase f -> d = c_owner_digest c -> holds_claim w c r ->
    r_availability r = Some a -> next_availability a phase f = Ok a' ->
    r_binding r' = r_binding r -> r_availability r' = Some a' -> owner_step q w d r r'
| OwnerCommit c sandbox_id p :
    q = BindOwner c sandbox_id (Some (purpose_text p)) \/
    q = ConsumeWarm c /\ p = Commands /\
      (exists slot, slot ∈ warm_slots (mem w) /\ s_sandbox_id slot = Some sandbox_id /\
         s_active_token slot = None) ->
    d = c_owner_digest c -> holds_claim w c r ->
    r_binding r <> Some (new_binding c sandbox_id p) ->
    (forall b0, r_binding r = Some b0 -> b_purpose b0 = p) ->
    r_binding r' = Some (new_binding c sandbox_id p) ->
    r_availability r' = Some (first_intent c sandbox_id) -> owner_step q w d r r'
| OwnerUnbind c :
    q = UnbindOwner c -> d = c_owner_digest c -> holds_claim w c r ->
    r_binding r' = None -> r_availability r' = None -> owner_step q w d r r'.

(** How the registration of one holder may come to be. *)
Inductive holder_step (q : request) w (key : pystr * pystr) (h' : OpenSandboxHolderUpdate) : Prop :=
| HolderSame : dget (holders (mem w)) key = Some h' -> holder_step q w key h'
| HolderRegister c : q = RegisterHolder c key.1 -> h_acknowledged_sequence h' = None ->
    holder_step q w key h'
| HolderAck h a : q = AcknowledgeIdle key.1 a -> key.2 = a_owner_digest a ->
    dget (holders (mem w)) key = Some h -> h' = acknowledge (a_sequence a) h ->
    a_phase a = draining -> holder_matches h a = true -> holder_step q w key h'.

(** The identifiers the state answers for. *)
Definition owns w (id : pystr) : Prop :=
  (exists d r b, dget (records (mem w)) d = Some r /\ r_binding r = Some b /\ b_sandbox_id b = id) \/
  (exists slot, slot ∈ warm_slots (mem w) /\ s_sandbox_id slot = Some id) \/
  is_Some (dget (cleanup (mem w)) id).

(** The binding of the owner of a claim. *)
Definition binding_of w (c : OpenSandboxOwnerClaim) (id : pystr) : Prop :=
  exists r b, holds_claim w c r /\ r_binding r = Some b /\ b_sandbox_id b = id.

(** The requests by which a caller takes an identifier out of the state. *)
Definition takes_out (q : request) w (id : pystr) : Prop :=
  match q with
  | CompleteCleanup c => cc_sandbox_id c = id
  | UnbindOwner c | BindOwner c _ _ | ConsumeWarm c => binding_of w c id
  | PublishWarm c _ =>
      exists slot, slot ∈ warm_slots (mem w) /\ s_sandbox_id slot = Some id /\
        s_active_token slot = Some (wc_token c)
  | _ => False
  end.

(** ** Owners *)

Lemma as_reply_state {A} (f : A -> reply) (m : IO A) w : (as_reply f m w).2 = (m w).2.
Proof. unfold as_reply, bind, ret. by destruct (m w) as [[a|e] w']. Qed.

Lemma step_of {A} (m : IO A) w (P : World -> Prop) : wp m w (fun _ w' => P w') -> P (m w).2.
Proof. done. Qed.

Lemma owner_step_put q w d0 r0 r0' d r :
  dget (records (mem w)) d0 = Some r0 -> (d = d0 -> owner_step q w d0 r0 r0') ->
  dget (records (mem w)) d = Some r ->
  exists r', dget (records (mem (put_record d0 r0' w))) d = Some r' /\ owner_step q w d r r'.
Proof.
  intros H0 Hs Hr. simpl. rewrite dget_dset. destruct (decide (d0 = d)) as [->|Hne].
  - rewrite H0 in Hr. injection Hr as <-. eauto.
  - exists r. split; [done|by apply OwnerSame].
Qed.

Lemma owner_step_refl q w d r :
  dget (records (mem w)) d = Some r ->
  exists r', dget (records (mem w)) d = Some r' /\ owner_step q w d r r'.
Proof. intros Hr. exists r. split; [done|by apply OwnerSame]. Qed.

Lemma bind_owner_step c id purpose w d r :
  winv w -> dget (records (mem w)) d = Some r ->
  wp (bind_owner c id purpose) w (fun _ w' => exists r', dget (records (mem w')) d = Some r' /\
    owner_step (BindOwner c id purpose) w d r r').
Proof.
  intros Hw Hr. unfold bind_owner. apply wp_bind, wp_claimed_record; try (intros; by apply owner_step_refl).
  intros r0 Ho Hc. pose proof (wi_owner _ Hw _ _ (proj1 Hc)) as Hok.
  eapply wp_commit_binding; [apply Hok|by apply owner_step_refl|intros; by apply owner_step_refl|].
  intros p b Hp Hne Hall. eapply owner_step_put; [apply Hc| |done]. intros _.
  eapply OwnerCommit; try done. left. by rewrite Hp.
Qed.

Lemma consume_warm_step c w d r :
  winv w -> dget (records (mem w)) d = Some r ->
  wp (consume_warm c) w (fun _ w' => exists r', dget (records (mem w')) d = Some r' /\
    owner_step (ConsumeWarm c) w d r r').
Proof.
  intros Hw Hr. unfold consume_warm. apply wp_bind, wp_claimed_record; try (intros; by apply owner_step_refl).
  intros r0 Ho Hc. pose proof (wi_owner _ Hw _ _ (proj1 Hc)) as Hok.
  wp_step. apply wp_intro. intros rp w1 E. assert (w1 = w) as ->.
  { destruct (r_binding r0); unfold ret, lift in E; by injection E. }
  destruct rp as [[]|e]; [|by apply owner_step_refl]. wp_step. wp_step.
  destruct (find_first _ _) as [[i slot]|] eqn:Ef; [|apply wp_ret; by apply owner_step_refl].
  apply find_first_some in Ef as (Hi & Hready & _).
  destruct slot as [n g [id|] t]; [|apply wp_ret; by apply owner_step_refl].
  unfold slot_ready in Hready. simpl in Hready. destruct t; [done|].
  wp_step. eapply wp_commit_binding; [apply Hok|by apply owner_step_refl|..].
  - intros p b _ _. unfold put_slot. wp_go. simpl. by apply owner_step_refl.
  - intros p b Hp Hne Hall. unfold put_slot. wp_go. simpl.
    eapply (owner_step_put _ w); [apply Hc| |done]. intros _.
    eapply OwnerCommit; try done. right. split; [done|].
    split; [by destruct p|]. eexists. split; [by eapply list_elem_of_lookup_2|done].
Qed.

Lemma unbind_owner_step c w d r :
  winv w -> dget (records (mem w)) d = Some r ->
  wp (unbind_owner c) w (fun _ w' => exists r', dget (records (mem w')) d = Some r' /\
    owner_step (UnbindOwner c) w d r r').
Proof.
  intros Hw Hr. unfold unbind_owner. apply wp_bind, wp_claimed_record; try (intros; by apply owner_step_refl).
  intros r0 Ho Hc. wp_go. simpl. eapply (owner_step_put _ w); [apply Hc| |done].
  intros _. by eapply OwnerUnbind.
Qed.

Lemma change_step c a p f w d r :
  winv w -> dget (records (mem w)) d = Some r ->
  wp (change_availability c a p f) w (fun _ w' => exists r', dget (records (mem w')) d = Some r' /\
    owner_step (ChangeAvailability c a p f) w d r r').
Proof.
  intros Hw Hr. unfold change_availability. apply wp_bind, wp_expected_availability;
    [|intros; by apply owner_step_refl].
  intros r0 Ho Hc Ha. wp_step. wp_step.
  destruct (next_availability a p f) as [a'|e] eqn:En; [|by apply owner_step_refl].
  assert (exists r', dget (records (mem (put_record (c_owner_digest c)
      (set_binding (r_binding r0) (Some a') r0) w))) d = Some r' /\
    owner_step (ChangeAvailability c a p f) w d r r') as Hgo.
  { eapply owner_step_put; [apply Hc| |done]. intros _. by eapply OwnerChange. }
  wp_step. case_bool_decide; wp_go; try done. unfold all_holders_idle. wp_go; [|done].
  by apply owner_step_refl.
Qed.

(** One request, one owner. *)
Lemma owner_steps q w d r :
  winv w -> dget (records (mem w)) d = Some r ->
  exists r', dget (records (mem (memory_state q w).2)) d = Some r' /\ owner_step q w d r r'.
Proof.
  intros Hw Hr. destruct (writes_bindings q) eqn:E.
  - destruct q; try done; simpl; rewrite as_reply_state; apply (step_of _ w (fun w' => exists r',
      dget (records (mem w')) d = Some r' /\ owner_step _ w d r r'));
      [by apply bind_owner_step|by apply unbind_owner_step|by apply change_step|by apply consume_warm_step].
  - destruct (fr_bindings _ _ _ _ _ _ (memory_state_frame q w) E d r Hr) as (r' & Hr' & E1 & E2).
    exists r'. split; [done|by apply OwnerSame].
Qed.

(** ** Holders *)

Lemma holder_steps q w key h' :
  winv w -> dget (holders (mem (memory_state q w).2)) key = Some h' -> holder_step q w key h'.
Proof.
  intros Hw. destruct (writes_holders q) eqn:E; cycle 1.
  { rewrite (fr_holders _ _ _ _ _ _ (memory_state_frame q w) E). by apply HolderSame. }
  destruct q; try done; simpl; rewrite as_reply_state;
    apply (step_of _ w (fun w' => dget (holders (mem w')) key = Some h' -> holder_step _ w key h')).
  - unfold unbind_owner. apply wp_bind, wp_claimed_record; try (intros; by apply HolderSame).
    intros r _ _. wp_go. simpl. intros [H _]%dget_filter; [by apply HolderSame|apply Hw].
  - unfold register_holder. wp_step. wp_step.
    destruct (validate_holder_id _); [|by apply HolderSame].
    apply wp_bind, wp_claimed_record; try (intros; by apply HolderSame). intros r _ _.
    wp_go; try by apply HolderSame. simpl. rewrite dget_dset.
    destruct (decide (_ = key)) as [Ek|]; [|by apply HolderSame].
    intros [= <-]. subst key. by eapply HolderRegister.
  - unfold acknowledge_idle. apply wp_bind, wp_ensure_open; [|intros; by apply HolderSame]. intros _.
    wp_step. wp_step. destruct (dget (records _) _) as [r|]; [|apply wp_ret; by apply HolderSame].
    destruct (dget (holders _) _) as [h|] eqn:Eh; [|apply wp_ret; by apply HolderSame].
    destruct (_ && _) eqn:Ec; wp_go; [|by apply HolderSame]. simpl. rewrite dget_dset.
    destruct (decide (_ = key)) as [Ek|]; [|by apply HolderSame].
    intros [= <-]. subst key. bool_prop.
    by eapply HolderAck.
  - unfold unregister_holder. apply wp_bind, wp_ensure_open; [|intros; by apply HolderSame]. intros _.
    wp_step. wp_step. destruct (dget _ _) as [h|]; [|apply wp_ret; by apply HolderSame].
    wp_go; [|by apply HolderSame]. simpl. rewrite dget_ddel. case_decide; [done|by apply HolderSame].
Qed.

(** ** Slots and cleanup targets *)

Lemma slot_id_kept (l : list MemoryWarmSlot) i slot slot' id :
  l !! i = Some slot -> (s_sandbox_id slot = Some id -> s_sandbox_id slot' = Some id) ->
  (exists x, x ∈ l /\ s_sandbox_id x = Some id) ->
  exists x, x ∈ <[i := slot']> l /\ s_sandbox_id x = Some id.
Proof.
  intros Hi Hs (x & Hx & Ex). apply list_elem_of_lookup in Hx as [j Hj].
  destruct (decide (i = j)) as [->|Hne].
  - rewrite Hi in Hj. injection Hj as ->. exists slot'. split; [|by apply Hs].
    apply list_elem_of_lookup. exists j. apply list_lookup_insert_eq. by eapply lookup_lt_Some.
  - exists x. split; [|done]. apply list_elem_of_lookup. exists j. by rewrite list_lookup_insert_ne.
Qed.

(** A published identifier stays in its slot, or goes where the request puts it. *)
Lemma slot_steps q w id :
  winv w -> (exists slot, slot ∈ warm_slots (mem w) /\ s_sandbox_id slot = Some id) ->
  (exists slot, slot ∈ warm_slots (mem (memory_state q w).2) /\ s_sandbox_id slot = Some id) \/
  is_Some (dget (cleanup (mem (memory_state q w).2)) id) \/
  (exists d r b, dget (records (mem (memory_state q w).2)) d = Some r /\ r_binding r = Some b /\
     b_sandbox_id b = id) \/
  takes_out q w id.
Proof.
  intros Hw Hs. destruct (writes_slots q) eqn:E; cycle 1.
  { left. by rewrite (fr_slots _ _ _ _ _ _ (memory_state_frame q w) E). }
  destruct q as [n|? ?|?|? ? ?|?|? ?|?|? ?|?|?|? ? ? ?|? ?|? ?|? ?| |l|c| |c k|?|c|c|?| |?|?|?| | |? ?|? ?];
    try done; simpl; rewrite as_reply_state;
    match goal with |- context [(?m w).2] => apply (step_of m w (fun w' =>
      (exists slot, slot ∈ warm_slots (mem w') /\ s_sandbox_id slot = Some id) \/
      is_Some (dget (cleanup (mem w')) id) \/
      (exists d r b, dget (records (mem w')) d = Some r /\ r_binding r = Some b /\
         b_sandbox_id b = id) \/ _)) end.
  - unfold start. destruct n as [| |size| |]; try by left. wp_go; try by left.
    exfalso. pose proof (wi_size _ Hw) as Hsz. rewrite Heqb in Hsz. rewrite Hsz in Hs.
    destruct Hs as (? & ?%elem_of_nil & _). done.
  - unfold claim_warm_slot. apply wp_bind, wp_ensure_open; [|by left]. intros _. wp_step. wp_step.
    destruct (find_first _ _) as [[i slot]|] eqn:Ef; [|by left].
    apply find_first_some in Ef as (Hi & _). apply wp_bind, wp_uuid4. unfold put_slot. wp_go. left.
    by eapply slot_id_kept.
  - unfold claim_ready_warm_slot. apply wp_bind, wp_ensure_open; [|by left]. intros _. wp_step. wp_step.
    destruct (find_first _ _) as [[i slot]|] eqn:Ef; [|by left].
    apply find_first_some in Ef as (Hi & _). destruct slot as [n g [id'|] t]; [|by left].
    apply wp_bind, wp_uuid4. unfold put_slot. wp_go. left. by eapply slot_id_kept.
  - unfold discard_ready_warm_slot. apply wp_bind, wp_claimed_warm_slot; [|by left].
    intros i slot _ _ Hi _ _. unfold put_slot. wp_go; [by left|]. bool_prop. simpl.
    destruct (decide (id = rw_sandbox_id c)) as [->|Hne].
    + right; left. unfold dsetdefault. destruct (dget (cleanup (mem w)) _) eqn:Ed; [by rewrite Ed|].
      by rewrite dget_dset_eq.
    + left. eapply slot_id_kept; [done| |done]. intros. congruence.
  - unfold publish_warm. apply wp_bind, wp_claimed_warm_slot; [|by left].
    intros i slot _ _ Hi Ht _. unfold put_slot. wp_go. simpl.
    destruct (decide (s_sandbox_id slot = Some id)).
    + right; right; right. exists slot. split; [by eapply list_elem_of_lookup_2|done].
    + left. by eapply slot_id_kept.
  - unfold release_warm. wp_step. wp_step. wp_step; [by left|].
    destruct (py_index _ _) as [i|]; [|by left]. destruct (_ !! i) as [slot|] eqn:Hi; [|by left].
    unfold put_slot. wp_go; [|by left]. left. by eapply slot_id_kept.
  - unfold consume_warm. apply wp_bind, wp_claimed_record; try by left.
    intros r Ho Hc. pose proof (wi_owner _ Hw _ _ (proj1 Hc)) as Hok.
    wp_step. apply wp_intro. intros rp w1 E1. assert (w1 = w) as ->.
    { destruct (r_binding r); unfold ret, lift in E1; by injection E1. }
    destruct rp as [[]|e]; [|by left]. wp_step. wp_step.
    destruct (find_first _ _) as [[i slot]|] eqn:Ef; [|by left].
    apply find_first_some in Ef as (Hi & Hready & _).
    destruct slot as [n g [id'|] t]; [|by left]. wp_step.
    eapply wp_commit_binding; [apply Hok|by left|..]; intros p b; [intros _ Hb|intros _ _ _];
      unfold put_slot; wp_go; simpl; (destruct (decide (id = id')) as [->|Hne];
        [right; right; left|left; eapply slot_id_kept; [done|simpl; congruence|done]]).
    + exists (c_owner_digest c), r, b. split; [apply Hc|done].
    + exists (c_owner_digest c). eexists _, b. split; [apply dget_dset_eq|done].
Qed.

(** A cleanup target stays until its cleanup is completed. *)
Lemma target_steps q w id :
  is_Some (dget (cleanup (mem w)) id) ->
  is_Some (dget (cleanup (mem (memory_state q w).2)) id) \/ takes_out q w id.
Proof.
  intros Hs. destruct (writes_cleanup q) eqn:E; cycle 1.
  { left. by rewrite (fr_cleanup _ _ _ _ _ _ (memory_state_frame q w) E). }
  assert (forall k v, is_Some (dget (dset (cleanup (mem w)) k v) id)) as Hset.
  { intros k v. rewrite dget_dset. by case_decide. }
  assert (forall k, is_Some (dget (dsetdefault (cleanup (mem w)) k new_cleanup_record) id)) as Hdef.
  { intros k. unfold dsetdefault. by destruct (dget _ k). }
  destruct q as [n|? ?|?|? ? ?|?|? ?|?|? ?|?|?|? ? ? ?|? ?|? ?|? ?| |l|c| |c k|?|c|c|k| |?|c|c| | |? ?|? ?];
    try done; simpl; rewrite as_reply_state;
    match goal with |- context [(?m w).2] => apply (step_of m w (fun w' =>
      is_Some (dget (cleanup (mem w')) id) \/ _)) end.
  - unfold discard_ready_warm_slot. apply wp_bind, wp_claimed_warm_slot; [|by left].
    intros i slot _ _ Hi _ _. unfold put_slot. wp_go; left; [done|apply Hdef].
  - unfold enqueue_cleanup. apply wp_bind, wp_ensure_open; [|by left]. intros _. wp_go. left. apply Hdef.
  - unfold claim_cleanup. apply wp_bind, wp_ensure_open; [|by left]. intros _. wp_step. wp_step.
    destruct (first_unclaimed _) as [[k v]|]; [|by left]. apply wp_bind, wp_uuid4. wp_go. left. apply Hset.
  - unfold complete_cleanup. apply wp_bind, wp_claimed_cleanup; [|by left]. intros k _ _ _ _. wp_go.
    simpl. rewrite dget_ddel. case_decide; [by right|by left].
  - unfold release_cleanup. wp_step. wp_step. destruct (dget _ (cc_sandbox_id c)) as [k|]; [|by left].
    wp_go; left; [apply Hset|done].
Qed.

Lemma elem_of_owned_ids w id : winv w -> id ∈ owned_ids (mem w) <-> owns w id.
Proof.
  intros Hw. unfold owned_ids, owns. rewrite !elem_of_app, !list_elem_of_omap, elem_of_dkeys.
  split.
  - intros [(r & Hr & Hb)|[H|H]]; [left|right; left|by right; right].
    + apply elem_of_dvals in Hr as [d Hd]; [|apply Hw]. destruct (r_binding r) as [b|] eqn:Eb; [|done].
      injection Hb as <-. by exists d, r, b.
    + destruct H as (x & ? & ?). by exists x.
  - intros [(d & r & b & Hr & Hb & <-)|[(slot & H1 & H2)|H]]; [left|right; left|by right; right].
    + exists r. split; [by eapply dget_elem_of_dvals|by rewrite Hb].
    + by exists slot.
Qed.
End steps.
