(* ===== verification/SandboxProps.v ===== *)
(** Sandbox lifecycle: the properties of the in-memory state - fencing, the
    owners' locks, purposes, conservation of the Sandboxes, drain evidence - and the
    concrete environment their witnesses run in. *)
From S2P Require Import Prelude PyDict PySeq PyLock SandboxModels SandboxState SandboxInvariant.
From S2P Require Import SandboxSafe SandboxEffects.
From Stdlib Require Import Strings.String.

(** ** The environment *)

#[export] Instance demo_env : SandboxEnv := {|
  uuid_hex n := [Z.of_nat n];
  owner_digest ns key := ns ++ 0 :: key
|}.

#[export] Instance demo_fresh : FreshUuids.
Proof. split. intros i j [= H]. lia. Qed.

(** ** Requests that may be made, decided *)

Definition not_waitingb (w : World) (task : nat) : bool :=
  forallb (fun r => negb (existsb (Nat.eqb task) (map w_task (waiters (r_lock r)))))
    (dvals (records (mem w))).

Definition fresh_identityb (w : World) (c : OpenSandboxOwnerClaim) (id : pystr) : bool :=
  forallb (fun '(key, h) => negb (bool_decide (key.2 = c_owner_digest c) &&
             bool_decide (h_sandbox_id h = id) && (h_binding_generation h =? c_generation c)))
    (holders (mem w)).

Definition admissibleb (q : request) (w : World) : bool :=
  match q with
  | AcquireOwner task _ | ReadBinding task _ => not_waitingb w task
  | BindOwner c id _ => fresh_identityb w c id
  | ConsumeWarm c =>
      forallb (fun slot => match s_sandbox_id slot with
                           | Some id => fresh_identityb w c id
                           | None => true
                           end) (warm_slots (mem w))
  | _ => true
  end.

(** A history of requests that may be made and all succeed. *)
Fixpoint play (w : World) (l : list request) : option World :=
  match l with
  | [] => Some w
  | q :: l' =>
      if admissibleb q w
      then match memory_state q w with (Ok _, w') => play w' l' | (Raise _, _) => None end
      else None
  end.

(** ** The history *)

Definition alice : pystr := u "alice".
Definition demo_digest : pystr := owner_digest (u "ns") alice.

Definition demo_slot_claim : OpenSandboxWarmClaim :=
  {| wc_slot := 0; wc_token := [0]; wc_generation := 1 |}.

Definition demo_claim : OpenSandboxOwnerClaim :=
  {| c_owner_key := alice; c_owner_digest := demo_digest; c_token := [1]; c_generation := 1;
     c_binding := None |}.

Definition demo_intent (phase : OpenSandboxAvailabilityPhase) (sequence : Z)
    : OpenSandboxAvailability :=
  {| a_owner_digest := demo_digest; a_sandbox_id := u "warm"; a_binding_generation := 1;
     a_sequence := sequence; a_phase := phase; a_connection_generation := 0 |}.

Definition demo_setup : list request :=
  [Start (PyInt 1); ClaimWarmSlot; PublishWarm demo_slot_claim (u "warm"); AcquireOwner 1 alice].

Definition demo_bind : list request := [ConsumeWarm demo_claim; RegisterHolder demo_claim (u "mgr")].

Definition demo_drain : list request :=
  [ChangeAvailability demo_claim (demo_intent running 0) draining false;
   AcknowledgeIdle (u "mgr") (demo_intent draining 1);
   ChangeAvailability demo_claim (demo_intent draining 1) pausing false].

Definition from_some (o : option World) : World :=
  match o with Some w => w | None => new_world [] end.

Definition demo_claimed : World := from_some (play (new_world (u "ns")) demo_setup).
Definition demo_bound : World := from_some (play demo_claimed demo_bind).
Definition demo_pausing : World := from_some (play demo_bound demo_drain).

(** Another task waits for the owner, and the claim is released. *)
Definition demo_waiting : World :=
  from_some (play demo_bound [AcquireOwner 2 alice; ReleaseOwner demo_claim]).

(** ** Examples *)

Example demo_pausing_intent :
  r_availability <$> dget (records (mem demo_pausing)) demo_digest =
  Some (Some (demo_intent pausing 2)).
Proof. vm_compute. reflexivity. Qed.

Example demo_waiting_is_woken :
  (memory_state (Resume demo_digest 2) demo_waiting).1 =
  Ok (GotOwner {| c_owner_key := alice; c_owner_digest := demo_digest; c_token := [2];
                  c_generation := 2;
                  c_binding := Some {| b_sandbox_id := u "warm"; b_generation := 1;
                                       b_purpose := Commands |} |}).
Proof. vm_compute. reflexivity. Qed.

(** ** Soundness *)

Lemma not_waitingb_sound w task : not_waitingb w task = true -> not_waiting w task.
Proof.
  unfold not_waitingb. rewrite forallb_forall. intros H d r Hr Hin.
  specialize (H r (proj1 (list_elem_of_In _ _) (dget_elem_of_dvals _ _ _ Hr))).
  apply negb_true_iff in H. enough (existsb (Nat.eqb task) (map w_task (waiters (r_lock r))) = true)
    by congruence. apply existsb_exists. exists task. split; [by apply list_elem_of_In|apply Nat.eqb_refl].
Qed.

Lemma fresh_identityb_sound w c id : fresh_identityb w c id = true -> fresh_identity w c id.
Proof.
  unfold fresh_identityb. rewrite forallb_forall. intros H. right. intros key h Hk Hd [E1 E2].
  specialize (H (key, h) (proj1 (list_elem_of_In _ _) (dget_elem_of _ _ _ Hk))). simpl in H.
  rewrite !bool_decide_true, E2, Z.eqb_refl in H by done. done.
Qed.

Lemma admissibleb_sound q w : admissibleb q w = true -> admissible q w.
Proof.
  destruct q; try done; simpl; auto using not_waitingb_sound, fresh_identityb_sound.
  rewrite forallb_forall. intros H slot id Hs Ei.
  specialize (H slot (proj1 (list_elem_of_In _ _) Hs)). rewrite Ei in H. by apply fresh_identityb_sound.
Qed.

Section definitions.
Context {env : SandboxEnv}.

(** ** Definitions *)

(** A history: requests served one after the other, whatever their outcome. *)
Inductive history : World -> list request -> World -> Prop :=
| history_nil w : history w [] w
| history_cons w q l w' : admissible q w -> history (memory_state q w).2 l w' ->
    history w (q :: l) w'.

Definition later (w w' : World) : Prop := exists l, history w l w'.

Definition reachable (w : World) : Prop := exists ns, later (new_world ns) w.

Definition current (w : World) (c : OpenSandboxOwnerClaim) : Prop := exists r, holds_claim w c r.

Definition current_warm (w : World) (c : OpenSandboxWarmClaim) : Prop :=
  exists i, py_index (warm_slots (mem w)) (wc_slot c) = Some i /\
    slot_fence w i = (Some (wc_token c), wc_generation c).

Definition current_cleanup (w : World) (c : OpenSandboxCleanupClaim) : Prop :=
  cleanup_fence w (cc_sandbox_id c) = (Some (cc_token c), cc_generation c).

(** The requests that act under an owner claim. *)
Definition under_claim (c : OpenSandboxOwnerClaim) (q : request) : Prop :=
  match q with
  | BindOwner c' _ _ | UnbindOwner c' | RegisterHolder c' _ | ChangeAvailability c' _ _ _
  | HoldersAreIdle c' _ | ConsumeWarm c' => c' = c
  | _ => False
  end.

(** The requests that an unopened or closed state refuses. *)
Definition needs_open (q : request) : bool :=
  match q with
  | Start _ | ReleaseOwner _ | ReleaseWarm _ | ReleaseCleanup _ | Close | Resume _ _
  | CancelWait _ _ => false
  | _ => true
  end.

(** [start] with something that is not an integer. *)
Definition bad_capacity (q : request) : bool :=
  match q with Start (PyInt _) => false | Start _ => true | _ => false end.

(** The intent of the current binding of an owner. *)
Definition intent (w : World) (d : pystr) : option OpenSandboxAvailability :=
  match dget (records (mem w)) d with Some r => r_availability r | None => None end.

Definition same_binding (a a' : OpenSandboxAvailability) : Prop :=
  a_owner_digest a' = a_owner_digest a /\ a_sandbox_id a' = a_sandbox_id a /\
  a_binding_generation a' = a_binding_generation a.

(** A request by which a holder acknowledged the drain before a pause. *)
Definition drain_evidence (l : list request) (h : OpenSandboxHolderUpdate) (sequence : Z) : Prop :=
  exists a, AcknowledgeIdle (h_holder_id h) a ∈ l /\ a_phase a = draining /\
    a_sequence a = sequence /\ holder_matches h a = true.

(** How far the intent of a binding has come since [a0]. *)
Definition progress (a0 a : OpenSandboxAvailability) : Prop :=
  a = a0 \/ a_sequence a0 < a_sequence a /\
            (a_phase a = pausing -> a_sequence a0 + 1 < a_sequence a).

(** The acknowledgements of the binding of [a0] are in the history or, where that
    is allowed, as old as [a0]. *)
Definition acks_in (a0 : OpenSandboxAvailability) (l : list request) (w : World) (old : bool)
    : Prop :=
  forall key h n, dget (holders (mem w)) key = Some h -> holder_matches h a0 = true ->
    h_acknowledged_sequence h = Some n ->
    drain_evidence l h n \/ old = true /\ n <= a_sequence a0.

Definition evidence_in (a0 : OpenSandboxAvailability) (l : list request) (w : World) : Prop :=
  is_Some (dget (records (mem w)) (a_owner_digest a0)) /\
  (acks_in a0 l w false \/
   acks_in a0 l w true /\
   forall a, intent w (a_owner_digest a0) = Some a -> same_binding a0 a -> progress a0 a).
End definitions.

Section properties.
Context {env : SandboxEnv} {fresh : FreshUuids}.
Implicit Types (w : World) (d : pystr) (r : MemoryOwnerRecord).

(** ** Histories *)

Lemma history_keeps w l w' : history w l w' -> winv w -> keeps w w'.
Proof.
  induction 1 as [w|w q l w' Ha _ IH]; intros Hw; [by apply keeps_refl|].
  pose proof (memory_state_safe q w Hw Ha) as Hs. eapply keeps_trans; [exact Hs|]. apply IH, Hs.
Qed.

Lemma reachable_inv w : reachable w -> winv w.
Proof. intros (ns & l & H). apply (history_keeps _ _ _ H), new_world_inv. Qed.

Lemma history_app w1 l1 w2 l2 w3 : history w1 l1 w2 -> history w2 l2 w3 -> history w1 (l1 ++ l2) w3.
Proof. induction 1; [done|]. intros H'. simpl. constructor; auto. Qed.

Lemma state_reachable_later w w' : reachable w -> later w w' -> reachable w'.
Proof. intros (ns & l & H) (l' & H'). exists ns, (l ++ l'). by eapply history_app. Qed.

Lemma later_keeps w w' : reachable w -> later w w' -> keeps w w'.
Proof. intros Hr (l & H). by eapply history_keeps, reachable_inv. Qed.

(** ** Fences *)

Lemma fence_lost n0 n1 (f0 f1 f2 : fence) t :
  (n0 <= n1)%nat -> f0.1 = Some t -> drawn_before n0 (Some t) -> moves n0 f0 f1 -> f1 <> f0 ->
  moves n1 f1 f2 -> f2.1 <> Some t.
Proof.
  intros Hn E0 Ht H1 Hne H2 E2. destruct (Ht t eq_refl) as (k & Hk & ->).
  assert (forall k', (n0 <= k')%nat -> Some (uuid_hex k') <> Some (uuid_hex k)) as Hfr.
  { intros k' Hk' [= E]. apply uuid_inj in E. lia. }
  destruct H1 as [->|H1]; [done|]. destruct H2 as [->|[E|(k2 & Hk2 & E)]].
  - destruct H1 as [E|(k1 & Hk1 & E)]; [congruence|]. rewrite E2 in E. by apply (Hfr k1).
  - congruence.
  - rewrite E2 in E. apply (Hfr k2); [lia|done].
Qed.

Lemma current_fence w c :
  current w c <-> owner_fence w (c_owner_digest c) = (Some (c_token c), c_generation c).
Proof.
  unfold current, owner_fence, record_fence, holds_claim. split.
  - intros (r & -> & -> & ->). done.
  - destruct (dget _ _) as [r|]; [|done]. intros [= E1 E2]. by exists r.
Qed.

(** A claim that was current and no longer is never names its record's token. *)
Lemma owner_fence_lost w0 w w' c :
  reachable w0 -> current w0 c -> later w0 w -> ~ current w c -> later w w' ->
  (owner_fence w' (c_owner_digest c)).1 <> Some (c_token c).
Proof.
  intros H0 Hc0 Hl Hc Hl'. pose proof (state_reachable_later _ _ H0 Hl) as Hr.
  pose proof (later_keeps _ _ H0 Hl) as [_ F1]. pose proof (later_keeps _ _ Hr Hl') as [_ F2].
  pose proof Hc0 as Hf. apply current_fence in Hf. rewrite current_fence in Hc.
  eapply (fence_lost (drawn w0) (drawn w) (owner_fence w0 (c_owner_digest c))
    (owner_fence w (c_owner_digest c))); [apply F1|by rewrite Hf|..].
  - destruct Hc0 as (r & Hr0 & Ht & _). intros x [= <-].
    by apply (oo_drawn _ _ _ (wi_owner _ (reachable_inv _ H0) _ _ Hr0)).
  - apply F1.
  - by rewrite Hf.
  - apply F2.
Qed.

Lemma not_current_claimed w c :
  ~ current w c -> exists e, claimed_record c w = (Raise e, w) /\
    (e = OpenSandboxStateError \/ e = OpenSandboxStateOwnershipError).
Proof.
  intros Hc. assert (wp (claimed_record c) w (fun x w' => w' = w /\ exists e, x = Raise e /\
    (e = OpenSandboxStateError \/ e = OpenSandboxStateOwnershipError))) as H.
  { apply wp_claimed_record; [|by eauto..]. intros r _ Hr. exfalso. apply Hc. by exists r. }
  unfold wp in H. destruct (claimed_record c w) as [x w']. simpl in H.
  destruct H as (-> & e & -> & He). by exists e.
Qed.

Lemma bind_raise {A B} (m : M World sandbox_exn A) (f : A -> M World sandbox_exn B) w e w' :
  m w = (Raise e, w') -> bind m f w = (Raise e, w').
Proof. intros H. unfold bind. by rewrite H. Qed.

(** ** Queues *)

Lemma wake_up_first_tasks {W} (l : Lock W) :
  map w_task (waiters (wake_up_first l)) = map w_task (waiters l).
Proof.
  unfold wake_up_first. destruct (waiters l) as [|x ws] eqn:E; [by rewrite E|].
  destruct (future_done _); [by rewrite E|done].
Qed.

(** The head of the queue of a free lock runs. *)
Lemma resume_head {W} (l : Lock W) x ws :
  lock_ok l -> locked l = false -> waiters l = x :: ws ->
  exists got l', lock_resume (w_task x) l = Some (w_body x, got, l') /\
    map w_task (waiters l') = map w_task ws /\ locked l' = got /\ lock_ok l' /\
    (w_future x = Woken -> got = true).
Proof.
  intros Hl Hf Hx. pose proof (lk_free _ Hl Hf) as Hd. rewrite Hx in Hd.
  assert (exists got l', lock_resume (w_task x) l = Some (w_body x, got, l') /\
    map w_task (waiters l') = map w_task ws /\ locked l' = got /\
    (w_future x = Woken -> got = true)) as (got & l' & E & E1 & E2 & E3).
  { unfold lock_resume. rewrite Hx. simpl. rewrite Nat.eqb_refl, Hf.
    destruct (w_future x); [done|..]; do 2 eexists; (split; [reflexivity|]);
      rewrite ?wake_up_first_tasks, ?wake_up_first_locked; done. }
  exists got, l'. split; [done|]. split; [done|]. split; [done|]. split; [|done].
  by eapply lock_resume_ok.
Qed.

Lemma wp_release_lock d r l w (Q : res sandbox_exn unit -> World -> Prop) :
  dget (records (mem w)) d = Some r -> lock_release (r_lock r) = Some l ->
  Q (Ok tt) (put_record d (set_lock l r) w) -> wp (release_lock d) w Q.
Proof. intros Hr Hl HQ. unfold release_lock. wp_step. wp_step. rewrite Hr, Hl. by wp_go. Qed.

Lemma release_taken {W} (l : Lock W) : locked l = true ->
  exists l', lock_release l = Some l' /\ map w_task (waiters l') = map w_task (waiters l).
Proof.
  intros H. unfold lock_release. rewrite H. eexists. split; [done|]. by rewrite wake_up_first_tasks.
Qed.

(** What [acquire_owner] and [read_binding] do once they have the lock. *)
Lemma wp_owner_acquired d k r w (Q : res sandbox_exn OpenSandboxOwnerClaim -> World -> Prop) :
  dget (records (mem w)) d = Some r -> locked (r_lock r) = true ->
  (is_open w -> let c := {| c_owner_key := k; c_owner_digest := d; c_token := uuid_hex (drawn w);
       c_generation := r_generation r + 1; c_binding := r_binding r |} in
     forall w', dget (records (mem w')) d = Some {| r_lock := r_lock r;
       r_generation := r_generation r + 1; r_binding := r_binding r;
       r_active_token := Some (uuid_hex (drawn w)); r_availability := r_availability r |} ->
     Q (Ok c) w') ->
  (~ is_open w -> forall l w', map w_task (waiters l) = map w_task (waiters (r_lock r)) ->
     dget (records (mem w')) d = Some (set_lock l r) -> Q (Raise OpenSandboxStateError) w') ->
  wp (owner_acquired d k) w Q.
Proof.
  intros Hr Hl H1 H2. unfold owner_acquired. apply wp_intro. intros x w'.
  destruct (ensure_open w) as [y w1] eqn:Eo.
  assert (wp ensure_open w (fun y w1 => w1 = w /\ (y = Ok tt /\ is_open w \/
    y = Raise OpenSandboxStateError /\ ~ is_open w))) as He by (apply wp_ensure_open; auto).
  unfold wp in He. rewrite Eo in He. simpl in He. destruct He as [-> [[-> Ho]|[-> Ho]]].
  - intros E. eapply (wp_elim _ _ _ _ Q); [|exact E]. apply wp_bind, wp_uuid4. wp_step. wp_step.
    simpl. rewrite Hr. wp_go. apply H1; [done|]. apply get_put.
  - intros E. eapply (wp_elim _ _ _ _ Q); [|exact E].
    destruct (release_taken _ Hl) as (l & El & Et). apply wp_bind.
    eapply wp_release_lock; [done|done|]. apply wp_raise. eapply H2; [done|done|apply get_put].
Qed.

Lemma wp_binding_read d r w (Q : res sandbox_exn (option OpenSandboxBinding) -> World -> Prop) :
  dget (records (mem w)) d = Some r -> locked (r_lock r) = true ->
  (forall l w', map w_task (waiters l) = map w_task (waiters (r_lock r)) ->
     dget (records (mem w')) d = Some (set_lock l r) -> Q (Ok (r_binding r)) w') ->
  wp (binding_read d) w Q.
Proof.
  intros Hr Hl H. unfold binding_read. wp_step. wp_step. rewrite Hr.
  destruct (release_taken _ Hl) as (l & El & Et). wp_step.
  eapply wp_release_lock; [done|done|]. apply wp_ret. eapply H; [done|apply get_put].
Qed.

Lemma bind_ok {A B} (m : M World sandbox_exn A) (f : A -> M World sandbox_exn B) w x w1 :
  m w = (Ok x, w1) -> bind m f w = f x w1.
Proof. intros H. unfold bind. by rewrite H. Qed.

(** ** Drains *)

Lemma holder_matches_spec h a :
  holder_matches h a = true <->
  h_owner_digest h = a_owner_digest a /\ h_sandbox_id h = a_sandbox_id a /\
  h_binding_generation h = a_binding_generation a.
Proof.
  unfold holder_matches. rewrite !andb_true_iff, !bool_decide_eq_true, Z.eqb_eq. tauto.
Qed.

Lemma acks_in_step a0 l w old q :
  winv w -> acks_in a0 l w old -> acks_in a0 (l ++ [q]) (memory_state q w).2 old.
Proof.
  intros Hw Ha key h' n Hh Hm En.
  destruct (holder_steps q w key h' Hw Hh) as [Hs|c _ E|h a -> Ed Hh0 -> Hp Hma].
  - destruct (Ha key h' n Hs Hm En) as [(a & H1 & H2)|?]; [left|by right].
    exists a. split; [apply elem_of_app; by left|done].
  - congruence.
  - left. simpl in En. injection En as <-. exists a. split; [|done].
    apply elem_of_app. right. destruct (wi_holder _ Hw _ _ Hh0) as (E1 & _). simpl. rewrite E1.
    by left.
Qed.

Lemma progress_step a0 a phase f a' :
  a_phase a0 <> draining -> progress a0 a -> next_availability a phase f = Ok a' -> progress a0 a'.
Proof.
  intros Hp Ha (Ht & _ & ->)%next_availability_ok. right. simpl.
  assert (a_sequence a0 <= a_sequence a) by (destruct Ha as [->|[? _]]; lia).
  split; [lia|]. intros ->. destruct Ha as [->|[? _]]; [|lia]. exfalso.
  destruct (a_phase a0) eqn:E; simpl in Ht; revert Ht; rewrite ?elem_of_cons, elem_of_nil; naive_solver.
Qed.

Lemma evidence_step a0 l w q :
  winv w -> admissible q w -> a_phase a0 <> draining ->
  evidence_in a0 l w -> evidence_in a0 (l ++ [q]) (memory_state q w).2.
Proof.
  intros Hw Ha Hp [[r Hr] He]. destruct (owner_steps q w _ r Hw Hr) as (r' & Hr' & Hs).
  split; [by eexists|].
  destruct He as [He|[He Hg]]; [left; by apply acks_in_step|].
  assert (acks_in a0 (l ++ [q]) (memory_state q w).2 true) as Hacks by by apply acks_in_step.
  unfold intent in *. rewrite Hr in Hg. rewrite Hr'.
  destruct Hs as [_ ->|c a phase f a' Hq Hd Hc Hav Hn _ ->|c id p Hq Hd Hc Hne Hpur _ ->|c _ _ _ _ ->].
  - by right.
  - right. split; [done|]. intros a1 [= <-] Hsb. eapply progress_step; [done| |exact Hn].
    apply Hg; [done|]. apply next_availability_ok in Hn as (_ & _ & ->). exact Hsb.
  - destruct (decide (same_binding a0 (first_intent c id))) as [(E1 & E2 & E3)|Hns]; cycle 1.
    { right. split; [done|]. by intros a1 [= <-]. }
    left. simpl in *. assert (fresh_identity w c id) as Hf.
    { destruct Hq as [-> |(-> & _ & slot & H1 & H2 & _)]; [done|]. by eapply Ha. }
    destruct Hf as [(r0 & b & Hr0 & Hb & Hi & Hbg)|Hf].
    { exfalso. apply Hne. rewrite (proj1 Hc) in Hr0. injection Hr0 as <-. rewrite Hb. f_equal.
      specialize (Hpur b Hb). destruct b; simpl in *; by subst. }
    intros key h n Hh Hm En. exfalso. apply holder_matches_spec in Hm as (M1 & M2 & M3).
    destruct (holder_steps q w key h Hw Hh) as [Hs|c' E _|h0 a E _ _ _ _ _];
      [|by destruct Hq as [->|[-> _]]..].
    destruct (wi_holder _ Hw _ _ Hs) as (_ & K2 & _). apply (Hf key h Hs); [congruence|].
    split; congruence.
  - right. split; [done|]. by intros a1 [=].
Qed.

Lemma evidence_history a0 w l w' l0 :
  history w l w' -> winv w -> a_phase a0 <> draining -> evidence_in a0 l0 w ->
  evidence_in a0 (l0 ++ l) w'.
Proof.
  intros H. revert l0. induction H as [w|w q l w' Ha _ IH]; intros l0 Hw Hp He.
  - by rewrite app_nil_r.
  - replace (l0 ++ q :: l) with ((l0 ++ [q]) ++ l) by (by rewrite <-app_assoc).
    apply IH; [apply (memory_state_safe q w Hw Ha)|done|by apply evidence_step].
Qed.

(** ** The state of the owners *)

(** The state stays consistent: in every reachable world the invariant holds -
    an owner's lock is taken exactly while a claim is current, a binding has an
    intent of the same identity, holders are registered under their own keys, and
    the pool keeps its configured size. *)
Theorem state_invariant w :
  reachable w ->
  (forall d r, dget (records (mem w)) d = Some r ->
     (r_active_token r = None <-> locked (r_lock r) = false) /\
     (is_Some (r_binding r) <-> is_Some (r_availability r)) /\
     forall b a, r_binding r = Some b -> r_availability r = Some a ->
       a_owner_digest a = d /\ a_sandbox_id a = b_sandbox_id b /\
       a_binding_generation a = b_generation b /\ b_generation b <= r_generation r) /\
  (forall key h, dget (holders (mem w)) key = Some h -> (h_holder_id h, h_owner_digest h) = key) /\
  (started (mem w) = true -> warm_pool_size (mem w) = Some (zlen (warm_slots (mem w)))).
Proof.
  intros Hr. pose proof (reachable_inv _ Hr) as Hw. split; [|split].
  - intros d r Hd. destruct (wi_owner _ Hw _ _ Hd) as [_ Ht _ _ Hb]. split; [done|].
    unfold binding_ok in Hb. destruct (r_binding r), (r_availability r); try done.
    split; [by split|]. intros b a [= <-] [= <-]. tauto.
  - intros [i d] h Hh. destruct (wi_holder _ Hw _ _ Hh) as (E1 & E2 & _). simpl in *. by subst.
  - intros Hs. pose proof (wi_size _ Hw) as Hz. by rewrite Hs in Hz.
Qed.

(** A superseded claim can do nothing.  Once a claim that was current is not
    current any more it never becomes so again: every request under it raises and
    changes nothing, its renewal does not succeed, and its release unlocks no
    successor. *)
Theorem superseded_owner_claim_fails w0 w w' c :
  reachable w0 -> current w0 c -> later w0 w -> ~ current w c -> later w w' ->
  ~ current w' c /\
  (forall q, under_claim c q -> exists e, memory_state q w' = (Raise e, w') /\
     (e = OpenSandboxStateError \/ e = OpenSandboxStateOwnershipError \/ e = BuiltinValueError)) /\
  (memory_state (RenewOwner c) w' = (Ok (Flag false), w') \/
   memory_state (RenewOwner c) w' = (Raise OpenSandboxStateError, w')) /\
  memory_state (ReleaseOwner c) w' = (Ok Nothing, w').
Proof.
  intros H0 Hc0 Hl Hc Hl'. pose proof (owner_fence_lost _ _ _ _ H0 Hc0 Hl Hc Hl') as Hf.
  assert (~ current w' c) as Hn by (intros E%current_fence; by rewrite E in Hf).
  destruct (not_current_claimed w' c Hn) as (e & Ee & He). split; [done|]. split; [|split].
  - intros q Hq. destruct q; try done; simpl in Hq; subst claim.
    3: { unfold memory_state, as_reply, register_holder. unfold bind at 1 2, lift.
         destruct (validate_holder_id holder_id) as [[]|ev] eqn:Ev.
         - exists e. unfold bind. rewrite Ee. split; [done|tauto].
         - exists ev. split; [done|]. unfold validate_holder_id, rraise_if in Ev.
           destruct (_ || _); [|done]. injection Ev as <-. tauto. }
    all: exists e; split; [|tauto]; unfold memory_state, as_reply, bind_owner, unbind_owner,
      change_availability, holders_are_idle, expected_availability, consume_warm;
      repeat first [exact Ee|apply bind_raise].
  - unfold memory_state, as_reply, renew_owner, still_owned, bind. rewrite Ee.
    destruct He as [->| ->]; [by right|by left].
  - unfold memory_state, as_reply, release_owner, bind, gets, owner_fence in *.
    destruct (dget _ _) as [r|]; [|done]. simpl in Hf. case_bool_decide; [done|done].
Qed.

(** an owner has one claim at a time.  On an open state [acquire_owner] either
    waits, when the owner is claimed or others wait for it, without touching the
    current claim or the binding, or returns a current claim with the owner's
    committed binding and a generation above every earlier one. *)
Theorem acquire_owner_is_exclusive w task owner_key :
  reachable w -> not_waiting w task -> is_open w ->
  let d := owner_digest (namespace (mem w)) owner_key in
  match memory_state (AcquireOwner task owner_key) w with
  | (Ok (GotOwner c), w') =>
      c_owner_key c = owner_key /\ c_owner_digest c = d /\ current w' c /\
      (forall c', c_owner_digest c' = d -> ~ current w c') /\
      (owner_fence w d).2 < c_generation c /\
      c_binding c = match dget (records (mem w)) d with Some r => r_binding r | None => None end
  | (Ok Suspended, w') =>
      (exists r, dget (records (mem w)) d = Some r /\
         (is_Some (r_active_token r) \/ waiters (r_lock r) <> [])) /\
      (forall c', current w c' -> current w' c') /\ bindings_kept w w'
  | _ => False
  end.
Proof.
  intros Hr Hnw Ho d. pose proof (reachable_inv _ Hr) as Hw.
  pose proof (memory_state_frame (AcquireOwner task owner_key) w) as Hfr.
  apply fr_bindings in Hfr; [|done]. revert Hfr.
  cut (wp (memory_state (AcquireOwner task owner_key)) w (fun x w' => bindings_kept w w' ->
    match x with
    | Ok (GotOwner c) =>
        c_owner_key c = owner_key /\ c_owner_digest c = d /\ current w' c /\
        (forall c', c_owner_digest c' = d -> ~ current w c') /\
        (owner_fence w d).2 < c_generation c /\
        c_binding c = match dget (records (mem w)) d with Some r => r_binding r | None => None end
    | Ok Suspended =>
        (exists r, dget (records (mem w)) d = Some r /\
           (is_Some (r_active_token r) \/ waiters (r_lock r) <> [])) /\
        (forall c', current w c' -> current w' c') /\ bindings_kept w w'
    | _ => False
    end)).
  { unfold wp. destruct (memory_state _ w) as [[[]|e] w']; simpl; auto. }
  simpl. unfold as_reply, acquire_owner. apply wp_bind, wp_bind, wp_record_of; [done|done|].
  intros w1 r d' _ Hk Hd Ho1 Hr1 Hc. change d' with d in *. clear d'.
  assert (owner_fence w d = record_fence r /\
    match dget (records (mem w)) d with Some r => r_binding r | None => None end = r_binding r)
    as [Hf Hb].
  { unfold owner_fence. destruct Hc as [[-> _]|(-> & -> & _)]; done. }
  destruct (lock_acquire _ _ _) as [got l] eqn:El. wp_step. wp_step. destruct got.
  - apply lock_acquire_taken in El as [Hfree Hlk].
    pose proof (free_token _ _ _ (wi_owner _ (proj1 Hk) _ _ Hr1) Hfree) as Ht.
    wp_step. unfold owner_acquired, wp at 1. unfold ensure_open, bind, gets.
    simpl. destruct Ho1 as [-> ->]. simpl. rewrite dget_dset_eq. simpl.
    apply wp_ret, wp_ret. rewrite Hf, Hb. simpl. intros _. split; [done|]. split; [done|]. split; [|split; [|split; [lia|done]]].
    + eexists. split; [apply dget_dset_eq|done].
    + intros c' Hc' Hcur%current_fence. rewrite Hc', Hf in Hcur. unfold record_fence in Hcur. congruence.
  - apply wp_ret, wp_ret. intros Hbk. split; [|split; [|done]].
    + destruct Hc as [[Hc ->]|(_ & -> & _)]; [|done]. exists r. split; [done|].
      unfold lock_acquire in El. destruct (locked (r_lock r)) eqn:E; simpl in El.
      * left. destruct (r_active_token r) eqn:Et; [done|].
        rewrite (proj1 (oo_token _ _ _ (wi_owner _ Hw _ _ Hc)) Et) in E. done.
      * right. intros E'. by rewrite E' in El.
    + intros c'. rewrite !current_fence. rewrite owner_fence_put.
      destruct (decide (d = c_owner_digest c')) as [<-|Hne]; [by rewrite Hf|].
      destruct Hc as [[_ ->]|(_ & _ & ->)]; [done|]. by rewrite owner_fence_put, decide_False.
Qed.

(** C10: no waiter is forgotten.  Whenever an owner is unclaimed and tasks wait for
    it, the first of them can run: it gets the claim with the binding its
    predecessor left, reads the binding, or ends with an error, and the rest of
    the queue stays in order. *)
Theorem queued_task_is_served w d r task rest :
  reachable w -> dget (records (mem w)) d = Some r -> r_active_token r = None ->
  map w_task (waiters (r_lock r)) = task :: rest ->
  match memory_state (Resume d task) w with
  | (x, w') =>
      (exists r', dget (records (mem w')) d = Some r' /\ map w_task (waiters (r_lock r')) = rest) /\
      match x with
      | Ok (GotOwner c) => current w' c /\ c_owner_digest c = d /\ c_binding c = r_binding r
      | Ok (GotBinding b) => b = r_binding r
      | Ok _ => False
      | Raise e => e = CancelledError \/ e = OpenSandboxStateError /\ ~ is_open w
      end
  end.
Proof.
  intros Hreach Hr Ht Hq. pose proof (wi_owner _ (reachable_inv _ Hreach) _ _ Hr) as Hok.
  pose proof (proj1 (oo_token _ _ _ Hok) Ht) as Hf.
  destruct (waiters (r_lock r)) as [|x ws] eqn:Ew; [done|]. simpl in Hq. injection Hq as <- <-.
  destruct (resume_head _ _ _ (oo_lock _ _ _ Hok) Hf Ew) as (got & l & El & Et & Elk & _ & _).
  cut (wp (memory_state (Resume d (w_task x))) w
    (fun y w' => (exists r', dget (records (mem w')) d = Some r' /\
        map w_task (waiters (r_lock r')) = map w_task ws) /\
      match y with
      | Ok (GotOwner c) => current w' c /\ c_owner_digest c = d /\ c_binding c = r_binding r
      | Ok (GotBinding b) => b = r_binding r
      | Ok _ => False
      | Raise e => e = CancelledError \/ e = OpenSandboxStateError /\ ~ is_open w
      end)).
  { unfold wp. by destruct (memory_state _ w). }
  simpl. unfold as_reply, resume. wp_step. wp_step. wp_step. rewrite Hr, El. wp_step. wp_step.
  assert (is_open (put_record d (set_lock l r) w) <-> is_open w) as Hop by done.
  destruct got; [destruct (w_body x) as [k|]; wp_step|].
  - eapply wp_owner_acquired; [apply get_put|done|..].
    + intros _ c w' Hw'. apply wp_ret, wp_ret. split; [eexists; split; [exact Hw'|done]|].
      split; [eexists; split; [exact Hw'|done]|done].
    + intros Hn l' w' El' Hw'. split; [eexists; split; [exact Hw'|]|tauto].
      etransitivity; [exact El'|exact Et].
  - eapply wp_binding_read; [apply get_put|done|]. intros l' w' El' Hw'. apply wp_ret, wp_ret.
    split; [|done]. eexists. split; [exact Hw'|]. etransitivity; [exact El'|exact Et].
  - apply wp_raise. split; [eexists; split; [apply get_put|done]|by left].
Qed.

(** the purpose of an owner is settled until the owner is unbound: no request
    changes the purpose of a binding, and only an unbinding under the current
    claim removes one. *)
Theorem purpose_is_immutable w q d r b :
  reachable w -> dget (records (mem w)) d = Some r -> r_binding r = Some b ->
  exists r', dget (records (mem (memory_state q w).2)) d = Some r' /\
    match r_binding r' with
    | Some b' => b_purpose b' = b_purpose b
    | None => exists c, q = UnbindOwner c /\ c_owner_digest c = d /\ current w c
    end.
Proof.
  intros Hreach Hr Hb. pose proof (reachable_inv _ Hreach) as Hw.
  destruct (owner_steps q w d r Hw Hr) as (r' & Hr' & Hs). exists r'. split; [done|].
  destruct Hs as [-> _|? ? ? ? ? _ _ _ _ _ -> _|c id p _ _ _ _ Hp -> _|c -> -> Hc -> _].
  - by rewrite Hb.
  - by rewrite Hb.
  - simpl. symmetry. by apply Hp.
  - exists c. split; [done|]. split; [done|]. by exists r.
Qed.

(** C11: no Sandbox is forgotten.  An identifier in a binding, a warm slot or the
    cleanup queue is still in one of them after any request, unless that request
    is the one by which its claimant takes it out: completing its cleanup,
    unbinding or replacing its binding, publishing over its slot. *)
Theorem sandboxes_are_conserved w q id :
  reachable w -> admissible q w -> id ∈ owned_ids (mem w) ->
  id ∈ owned_ids (mem (memory_state q w).2) \/ takes_out q w id.
Proof.
  intros Hreach Ha Hid. pose proof (reachable_inv _ Hreach) as Hw.
  assert (winv (memory_state q w).2) as Hw' by apply (memory_state_safe q w Hw Ha).
  apply (elem_of_owned_ids _ _ Hw) in Hid. rewrite (elem_of_owned_ids _ _ Hw').
  destruct Hid as [(d & r & b & Hr & Hb & <-)|[Hs|Hc]].
  - destruct (owner_steps q w d r Hw Hr) as (r' & Hr' & Hs).
    destruct Hs as [Eb _|? ? ? ? ? _ _ _ _ _ Eb _|c id p Hq -> Hc _ _ _ _|c -> -> Hc _ _].
    1-2: left; left; exists d, r', b; by rewrite Eb.
    + right. destruct Hq as [-> |[-> _]]; by exists r, b.
    + right. by exists r, b.
  - destruct (slot_steps q w id Hw Hs) as [?|[?|[?|?]]]; [left; right; by left|left; right; by right|
      left; by left|by right].
  - destruct (target_steps q w id Hc) as [?|?]; [left; right; by right|by right].
Qed.

(** C33: no Sandbox is paused under its users.  Take any history in which an
    owner's binding goes from an intent that is not draining to a dispatched pause
    of the same binding: every holder registered for the binding then has
    acknowledged, within that history, exactly the drain that preceded the pause.
    The requests of the history are those the manager may make ([admissible]): a task
    that waits asks for nothing else, and a claim does not return to a Sandbox that it
    has replaced while a holder is registered for it - without which it fails, see
    [rebinding_revives_acknowledgement]. *)
Theorem pause_has_drain_evidence w0 l w a0 a1 key h :
  reachable w0 -> history w0 l w ->
  intent w0 (a_owner_digest a0) = Some a0 -> a_phase a0 <> draining -> a_phase a0 <> pausing ->
  intent w (a_owner_digest a0) = Some a1 -> a_phase a1 = pausing -> same_binding a0 a1 ->
  dget (holders (mem w)) key = Some h -> holder_matches h a1 = true ->
  drain_evidence l h (a_sequence a1 - 1).
Proof.
  intros H0 Hh I0 P0 P0' I1 P1 (S1 & S2 & S3) Hk Hm.
  pose proof (reachable_inv _ H0) as Hw0.
  assert (winv w) as Hw by apply (history_keeps _ _ _ Hh Hw0).
  assert (evidence_in a0 [] w0) as He0.
  { unfold intent in I0. destruct (dget (records (mem w0)) _) as [r|] eqn:Er; [|done].
    split; [by rewrite Er|]. right. split.
    - intros k h0 n Hh0 Hm0 En. right. split; [done|].
      destruct (wi_holder _ Hw0 _ _ Hh0) as (_ & K2 & r' & Hr' & _ & Hev).
      apply holder_matches_spec in Hm0 as Hm1. destruct Hm1 as (M1 & _).
      rewrite <-K2, M1, Er in Hr'. injection Hr' as <-. by apply (Hev a0 I0 Hm0).
    - unfold intent. rewrite Er. intros a E _. left. congruence. }
  pose proof (evidence_history _ _ _ _ [] Hh Hw0 P0 He0) as [_ He]. simpl in He.
  assert (holder_matches h a0 = true) as Hm0.
  { apply holder_matches_spec. apply holder_matches_spec in Hm as (? & ? & ?). split; [|split]; congruence. }
  destruct (wi_holder _ Hw _ _ Hk) as (_ & K2 & r & Hr & _ & Hev).
  assert (r_availability r = Some a1) as Ea.
  { unfold intent in I1. apply holder_matches_spec in Hm0 as (M1 & _).
    rewrite <-K2, M1 in Hr. by rewrite Hr in I1. }
  destruct (Hev a1 Ea Hm) as [_ Hack]. specialize (Hack P1).
  destruct He as [He|[He Hg]]; destruct (He key h _ Hk Hm0 Hack) as [?|[? Hle]]; try done.
  exfalso. assert (progress a0 a1) as [->|[_ Hpr]] by (apply Hg; [done|by split]); [done|].
  specialize (Hpr P1). lia.
Qed.

(** an intent advances only along the pause and resume protocol.
    [change_availability] succeeds exactly under the current claim, on the exact
    current intent, for a permitted next phase, with a connection refresh only on
    the way to running, and into pausing only when every holder has acknowledged
    the drain; it then commits the next sequence number. *)
Theorem change_availability_exact w c a phase refresh a' w' :
  reachable w ->
  change_availability c a phase refresh w = (Ok a', w') <->
  is_open w /\ exists r, holds_claim w c r /\ r_availability r = Some a /\
    phase ∈ transitions (a_phase a) /\ (refresh = true -> phase = running) /\
    (phase = pausing -> forall key h, dget (holders (mem w)) key = Some h ->
       holder_matches h a = true -> h_acknowledged_sequence h = Some (a_sequence a)) /\
    a' = {| a_owner_digest := a_owner_digest a; a_sandbox_id := a_sandbox_id a;
            a_binding_generation := a_binding_generation a; a_sequence := a_sequence a + 1;
            a_phase := phase;
            a_connection_generation := a_connection_generation a + (if refresh then 1 else 0) |} /\
    w' = put_record (c_owner_digest c) (set_binding (r_binding r) (Some a') r) w.
Proof.
  intros Hreach. pose proof (reachable_inv _ Hreach) as Hw.
  destruct (all_holders_idle_spec a w Hw) as (b & Eb & Hb). unfold change_availability. split.
  - intros E. pattern w'.
    match goal with |- ?F w' =>
      apply (fun H => wp_elim _ _ _ _ (fun x w1 => x = Ok a' -> F w1) H E eq_refl) end.
    apply wp_bind, wp_expected_availability; [|done]. intros r Ho Hc Ha. wp_step. wp_step.
    destruct (next_availability a phase refresh) as [x|e] eqn:En; [|done].
    apply next_availability_ok in En as (N1 & N2 & ->).
    wp_step. case_bool_decide as Ep.
    + wp_step. unfold wp at 1. rewrite Eb. simpl. destruct b; wp_go; try done. intros [= <-].
      split; [done|]. exists r. tsplit; try done. intros _. by apply Hb.
    + wp_go. intros [= <-]. split; [done|]. exists r. tsplit; done.
  - intros (Ho & r & Hc & Ha & N1 & N2 & Hi & Ea & ->).
    assert (claimed_record c w = (Ok r, w)) as Ec.
    { destruct Hc as (Hr & Ht & Hg). destruct Ho as [O1 O2].
      unfold claimed_record, ensure_open, bind, gets. rewrite O1. simpl. rewrite O2. simpl.
      rewrite Hr, Ht, Hg, bool_decide_true, Z.eqb_refl by done. done. }
    assert (expected_availability c a w = (Ok r, w)) as Ex.
    { unfold expected_availability. rewrite (bind_ok _ _ _ _ _ Ec), Ha, bool_decide_true by done. done. }
    rewrite (bind_ok _ _ _ _ _ Ex).
    rewrite (bind_ok (lift _) _ w a' w)
      by (unfold lift; by rewrite (proj2 (next_availability_ok a phase refresh a'))).
    case_bool_decide as Ep; [|by rewrite (bind_ok _ _ w tt w)].
    rewrite (bind_ok _ _ w tt w); [done|]. rewrite (bind_ok _ _ _ _ _ Eb).
    by rewrite (proj2 Hb (Hi Ep)).
Qed.

(** a warm Sandbox changes hands in one step.  When [consume_warm] returns a
    binding, it is the owner's committed binding, of command purpose and with the
    identifier of the first ready slot; that slot is empty afterwards, nobody's
    else is touched, and a fresh intent is running. *)
Theorem consume_warm_transfers w c b w' :
  reachable w -> consume_warm c w = (Ok (Some b), w') ->
  exists r i slot, holds_claim w c r /\
    warm_slots (mem w) !! i = Some slot /\ s_sandbox_id slot = Some (b_sandbox_id b) /\
    s_active_token slot = None /\
    (forall j x, (j < i)%nat -> warm_slots (mem w) !! j = Some x -> slot_ready x = false) /\
    (forall b0, r_binding r = Some b0 -> b_purpose b0 = Commands) /\
    b_purpose b = Commands /\ b_generation b = c_generation c /\
    warm_slots (mem w') = <[i := set_slot None None slot]> (warm_slots (mem w)) /\
    (exists r', dget (records (mem w')) (c_owner_digest c) = Some r' /\ r_binding r' = Some b /\
       is_Some (r_availability r')) /\
    forall d, d <> c_owner_digest c -> dget (records (mem w')) d = dget (records (mem w)) d.
Proof.
  intros Hreach E. pose proof (reachable_inv _ Hreach) as Hw. pattern w'.
  match goal with |- ?F w' =>
    apply (fun H => wp_elim _ _ _ _ (fun x w1 => x = Ok (Some b) -> F w1) H E eq_refl) end.
  unfold consume_warm. apply wp_bind, wp_claimed_record; try done. intros r Ho Hc.
  pose proof (wi_owner _ Hw _ _ (proj1 Hc)) as Hok. wp_step. apply wp_intro. intros rp w1 E1.
  assert (w1 = w) as -> by (destruct (r_binding r); unfold ret, lift in E1; by injection E1).
  destruct rp as [[]|e]; [|done]. wp_step. wp_step.
  destruct (find_first _ _) as [[i slot]|] eqn:Ef; [|done].
  apply find_first_some in Ef as (Hi & Hready & Hbefore).
  destruct slot as [n g [id|] t]; [|done]. unfold slot_ready in Hready. simpl in Hready.
  destruct t; [done|]. wp_step. eapply wp_commit_binding; [apply Hok|done|..].
  - intros p b1 Hp Hb1. unfold put_slot. wp_go. intros [= <-].
    assert (p = Commands) as -> by (by destruct p).
    exists r, i. eexists. tsplit; try done; [intros b0 Hb0; by rewrite Hb1 in Hb0; injection Hb0 as <-|].
    exists r. split; [apply Hc|]. split; [done|].
    pose proof (oo_binding _ _ _ Hok) as Hbo. unfold binding_ok in Hbo. rewrite Hb1 in Hbo.
    by destruct (r_availability r).
  - intros p b1 Hp Hb1 Hall. unfold put_slot. wp_go. intros [= <-].
    assert (p = Commands) as -> by (by destruct p).
    exists r, i. eexists. tsplit; try done.
    + eexists. split; [apply dget_dset_eq|done].
    + intros d Hd. simpl. by rewrite dget_dset_ne.
Qed.

(** A state that is not open refuses.  Before [start] and after [aclose] every
    request that reads, claims or commits is refused and changes nothing, except
    that a holder identity is validated first; a closed state stays closed. *)
Theorem closed_state_refuses w q :
  ~ is_open w -> needs_open q = true ->
  memory_state q w = (Raise OpenSandboxStateError, w) \/
  exists c k e, q = RegisterHolder c k /\ validate_holder_id k = Raise e /\
    memory_state q w = (Raise e, w).
Proof.
  intros Ho Hq.
  assert (ensure_open w = (Raise OpenSandboxStateError, w)) as Ee.
  { assert (wp ensure_open w (fun x w' => x = Raise OpenSandboxStateError /\ w' = w)) as H
      by (by apply wp_ensure_open). unfold wp in H. destruct (ensure_open w). simpl in H. naive_solver. }
  assert (forall A (m : M World sandbox_exn A), m w = (Raise OpenSandboxStateError, w) ->
    still_owned m w = (Raise OpenSandboxStateError, w)) as Hs.
  { intros A m Hm. unfold still_owned. by rewrite Hm. }
  destruct q; try done; try (left; simpl; unfold as_reply, acquire_owner, bind_owner, unbind_owner,
    read_binding, read_availability, get_holder_updates, change_availability, acknowledge_idle,
    holders_are_idle, unregister_holder, claim_warm_slot, claim_ready_warm_slot,
    discard_ready_warm_slot, warm_pool_ready, publish_warm, consume_warm, enqueue_cleanup,
    claim_cleanup, complete_cleanup, shutdown_sandbox_ids, renew_owner, renew_warm, renew_cleanup,
    expected_availability, claimed_record, claimed_warm_slot, claimed_cleanup, record_of;
    by repeat first [exact Ee|apply Hs|apply bind_raise]).
  simpl. unfold as_reply, register_holder.
  destruct (validate_holder_id holder_id) as [[]|e] eqn:Ev.
  - left. apply bind_raise. rewrite (bind_ok _ _ w tt w) by done. unfold claimed_record.
    by repeat first [exact Ee|apply bind_raise].
  - right. exists claim, holder_id, e. split; [done|]. split; [done|]. by repeat apply bind_raise.
Qed.

(** Starting is idempotent and fixes the capacity: on a new state [start]
    creates that many empty slots; afterwards the same size is accepted without
    effect, another size is a configuration error, and a closed state does not
    start again. *)
Theorem start_fixes_capacity w size :
  reachable w -> 0 <= size ->
  memory_state (Start (PyInt size)) w =
    (if closed (mem w) then (Raise OpenSandboxStateError, w)
     else if started (mem w)
     then (if zlen (warm_slots (mem w)) =? size then (Ok Nothing, w)
           else (Raise OpenSandboxStateConfigurationError, w))
     else (Ok Nothing, (memory_state (Start (PyInt size)) w).2)) /\
  (closed (mem w) = false -> started (mem w) = false ->
   is_open (memory_state (Start (PyInt size)) w).2 /\
   zlen (warm_slots (mem (memory_state (Start (PyInt size)) w).2)) = size /\
   forall slot, slot ∈ warm_slots (mem (memory_state (Start (PyInt size)) w).2) ->
     slot_empty slot = true).
Proof.
  intros Hreach Hs. pose proof (wi_size _ (reachable_inv _ Hreach)) as Hz.
  simpl. unfold as_reply, start, bind, gets, modify, ret, raise_if, raise.
  rewrite (proj2 (Z.ltb_ge size 0)) by done. simpl.
  destruct (closed (mem w)) eqn:Ec; [by split|].
  destruct (started (mem w)) eqn:Es.
  - rewrite Hz. split; [|done]. case_bool_decide as E; simpl.
    + injection E as ->. by rewrite Z.eqb_refl.
    + by rewrite (proj2 (Z.eqb_neq _ _)) by congruence.
  - split; [done|]. intros _ _. split; [by split|]. simpl. split.
    + rewrite zlen_map. unfold zlen. rewrite length_seq. lia.
    + intros slot Hin. apply list_elem_of_fmap in Hin as (k & -> & _). done.
Qed.

(** nothing but State failures crosses the boundary: whatever a replaceable
    state does, the boundary leaves its results and its effects as they are, passes
    its own failures and cancellations on, and turns every other exception into
    [UnexpectedOpenSandboxStateError]. *)
Theorem boundary_contains_failures (state : request -> M World sandbox_exn reply) q w :
  if bad_capacity q then boundary state q w = (Raise BuiltinTypeError, w)
  else match state q w with
       | (Ok x, w') => boundary state q w = (Ok x, w')
       | (Raise e, w') =>
           exists e', boundary state q w = (Raise e', w') /\
             (is_sandbox_error e' = true \/ e' = CancelledError) /\
             (if is_sandbox_error e then e' = e
              else if bool_decide (e = CancelledError) then e' = e
              else e' = UnexpectedOpenSandboxStateError)
       end.
Proof.
  assert (match state q w with
    | (Ok x, w') => call_state (state q) w = (Ok x, w')
    | (Raise e, w') => exists e', call_state (state q) w = (Raise e', w') /\
        (is_sandbox_error e' = true \/ e' = CancelledError) /\
        (if is_sandbox_error e then e' = e
         else if bool_decide (e = CancelledError) then e' = e
         else e' = UnexpectedOpenSandboxStateError)
    end) as Hcs.
  { unfold call_state. destruct (state q w) as [[x|e] w']; [done|].
    exists (translate_failure e). split; [done|]. destruct e; simpl; auto. }
  destruct q as [[| |n| |]| | | | | | | | | | | | | | | | | | | | | | | | | | | | | |];
    simpl bad_capacity; first [exact Hcs|reflexivity].
Qed.

(** cleanup claims are fenced like owners' claims.  Once a cleanup target has
    left the claim that held it - completed, released or claimed again, even after
    the identifier was enqueued anew - that claim never holds it again: completing
    under it raises and changes nothing, and releasing it does nothing. *)
Theorem superseded_cleanup_claim_fails w0 w w' c :
  reachable w0 -> current_cleanup w0 c -> later w0 w -> ~ current_cleanup w c -> later w w' ->
  ~ current_cleanup w' c /\
  (exists e, memory_state (CompleteCleanup c) w' = (Raise e, w')) /\
  memory_state (ReleaseCleanup c) w' = (Ok Nothing, w').
Proof.
  intros H0 Hc0 Hl Hc Hl'. pose proof (state_reachable_later _ _ H0 Hl) as Hr.
  pose proof (later_keeps _ _ H0 Hl) as [_ F1]. pose proof (later_keeps _ _ Hr Hl') as [_ F2].
  unfold current_cleanup in *.
  assert ((cleanup_fence w' (cc_sandbox_id c)).1 <> Some (cc_token c)) as Hf.
  { eapply (fence_lost (drawn w0) (drawn w) (cleanup_fence w0 (cc_sandbox_id c))
      (cleanup_fence w (cc_sandbox_id c))); [apply F1|by rewrite Hc0| |apply F1|congruence|apply F2].
    intros x [= <-]. unfold cleanup_fence in Hc0.
    destruct (dget _ _) as [k|] eqn:Ek; [|done]. injection Hc0 as E1 E2.
    by apply (wi_target _ (reachable_inv _ H0) _ _ Ek). }
  split; [by intros E; rewrite E in Hf|]. unfold cleanup_fence in Hf. split.
  - assert (wp (claimed_cleanup c) w' (fun x w1 => exists e, x = Raise e /\ w1 = w')) as Hw.
    { apply wp_claimed_cleanup; [|by eauto]. intros k _ Hk Ht. by rewrite Hk in Hf. }
    unfold wp in Hw. destruct (claimed_cleanup c w') as [x w1] eqn:E. simpl in Hw.
    destruct Hw as (e & -> & ->). exists e. unfold memory_state, as_reply, complete_cleanup.
    by repeat first [exact E|apply bind_raise].
  - unfold memory_state, as_reply, release_cleanup, bind, gets.
    destruct (dget _ _) as [k|]; [|done]. simpl in Hf. rewrite bool_decide_false by done. done.
Qed.

End properties.

(** ** At a concrete environment *)

Lemma play_history w l w' : play w l = Some w' -> history w l w'.
Proof.
  revert w. induction l as [|q l IH]; simpl; intros w.
  - intros [= ->]. constructor.
  - destruct (admissibleb q w) eqn:Ea; [|done]. intros H.
    constructor; [by apply admissibleb_sound|]. destruct (memory_state q w) as [[x|e] w1]; [|done].
    by apply IH.
Qed.

Lemma sandbox_demo_claimed : reachable demo_claimed.
Proof.
  exists (u "ns"), demo_setup. apply play_history. vm_compute. reflexivity.
Qed.

Lemma demo_history_bound : history demo_claimed demo_bind demo_bound.
Proof. apply play_history. vm_compute. reflexivity. Qed.

Lemma demo_history_pausing : history demo_bound demo_drain demo_pausing.
Proof. apply play_history. vm_compute. reflexivity. Qed.

Lemma demo_reach_bound : reachable demo_bound.
Proof. eapply state_reachable_later; [apply sandbox_demo_claimed|]. eexists. apply demo_history_bound. Qed.

Lemma demo_history_waiting :
  history demo_bound [AcquireOwner 2 alice; ReleaseOwner demo_claim] demo_waiting.
Proof. apply play_history. vm_compute. reflexivity. Qed.

Lemma demo_reach_waiting : reachable demo_waiting.
Proof. eapply state_reachable_later; [apply demo_reach_bound|]. eexists. apply demo_history_waiting. Qed.

Lemma demo_claim_current : current demo_bound demo_claim.
Proof. apply current_fence. vm_compute. reflexivity. Qed.

Lemma demo_claim_lost : ~ current demo_waiting demo_claim.
Proof. intros H%current_fence. vm_compute in H. congruence. Qed.

(** Within one claim an acknowledgement can outlive its binding.  The binding
    generation is the generation of the claim, so a claim that replaces a Sandbox
    and returns to it restores an identity under which a holder is registered; its
    acknowledgement of the earlier drain then counts for a new one.  Here a pause
    is dispatched although nobody acknowledged anything since the rebinding. *)
Theorem rebinding_revives_acknowledgement :
  let rebind := [BindOwner demo_claim (u "other") (Some (u "commands"));
                 BindOwner demo_claim (u "warm") (Some (u "commands"));
                 ChangeAvailability demo_claim (demo_intent running 0) draining false;
                 ChangeAvailability demo_claim (demo_intent draining 1) pausing false] in
  let acknowledged := from_some (play demo_bound (take 2 demo_drain)) in
  let w := fold_left (fun w q => (memory_state q w).2) rebind acknowledged in
  intent w demo_digest = Some (demo_intent pausing 2) /\
  exists h, dget (holders (mem w)) (u "mgr", demo_digest) = Some h /\
    holder_matches h (demo_intent pausing 2) = true /\
    forall k a, AcknowledgeIdle k a ∉ rebind.
Proof.
  split; [vm_compute; reflexivity|]. eexists.
  split; [vm_compute; reflexivity|]. split; [vm_compute; reflexivity|].
  intros k a. rewrite !not_elem_of_cons. split; [done|]. split; [done|]. split; [done|].
  split; [done|]. apply not_elem_of_nil.
Qed.

(** ** Witnesses *)

Lemma state_invariant_witness : is_Some (warm_pool_size (mem demo_bound)).
Proof.
  destruct (state_invariant demo_bound demo_reach_bound) as (_ & _ & H). eexists. apply H.
  vm_compute. reflexivity.
Defined.

Lemma superseded_owner_claim_fails_witness :
  memory_state (ReleaseOwner demo_claim) demo_waiting = (Ok Nothing, demo_waiting).
Proof.
  apply (superseded_owner_claim_fails demo_bound demo_waiting demo_waiting demo_claim demo_reach_bound
    demo_claim_current (ex_intro _ _ demo_history_waiting) demo_claim_lost
    (ex_intro _ [] (history_nil demo_waiting))).
Defined.

Lemma acquire_owner_is_exclusive_witness :
  (memory_state (AcquireOwner 2 alice) demo_bound).1 = Ok Suspended /\
  current (memory_state (AcquireOwner 2 alice) demo_bound).2 demo_claim.
Proof.
  assert (not_waiting demo_bound 2) as Hn by (apply not_waitingb_sound; vm_compute; reflexivity).
  assert (is_open demo_bound) as Ho by (split; vm_compute; reflexivity).
  pose proof (acquire_owner_is_exclusive demo_bound 2 alice demo_reach_bound Hn Ho) as H.
  assert ((memory_state (AcquireOwner 2 alice) demo_bound).1 = Ok Suspended) as E
    by (vm_compute; reflexivity).
  destruct (memory_state (AcquireOwner 2 alice) demo_bound) as [x w']. simpl in E. subst x.
  split; [reflexivity|]. apply H. exact demo_claim_current.
Defined.

Lemma queued_task_is_served_witness :
  exists r, dget (records (mem demo_waiting)) demo_digest = Some r /\
    exists r', dget (records (mem (memory_state (Resume demo_digest 2) demo_waiting).2)) demo_digest
      = Some r' /\ map w_task (waiters (r_lock r')) = [].
Proof.
  destruct (dget (records (mem demo_waiting)) demo_digest) as [r|] eqn:E; [|vm_compute in E; congruence].
  exists r. split; [reflexivity|].
  assert (r_active_token r = None) as Ht by (vm_compute in E; injection E as <-; reflexivity).
  assert (map w_task (waiters (r_lock r)) = [2%nat]) as Hq.
  { vm_compute in E. injection E as <-. reflexivity. }
  pose proof (queued_task_is_served demo_waiting demo_digest r 2 [] demo_reach_waiting E Ht Hq) as H.
  destruct (memory_state (Resume demo_digest 2) demo_waiting) as [x w']. exact (proj1 H).
Defined.

Lemma purpose_is_immutable_witness :
  exists r', dget (records (mem (memory_state (ReleaseOwner demo_claim) demo_bound).2)) demo_digest
    = Some r' /\ (forall b', r_binding r' = Some b' -> b_purpose b' = Commands).
Proof.
  destruct (dget (records (mem demo_bound)) demo_digest) as [r|] eqn:E; [|vm_compute in E; congruence].
  assert (r_binding r = Some {| b_sandbox_id := u "warm"; b_generation := 1; b_purpose := Commands |})
    as Hb by (vm_compute in E; injection E as <-; reflexivity).
  destruct (purpose_is_immutable demo_bound (ReleaseOwner demo_claim) demo_digest r _
    demo_reach_bound E Hb) as (r' & Hr' & Hp).
  exists r'. split; [exact Hr'|]. intros b' Eb. rewrite Eb in Hp. exact Hp.
Defined.

Lemma sandboxes_are_conserved_witness :
  u "warm" ∈ owned_ids (mem (memory_state (ConsumeWarm demo_claim) demo_claimed).2).
Proof.
  destruct (sandboxes_are_conserved demo_claimed (ConsumeWarm demo_claim) (u "warm")
    sandbox_demo_claimed) as [H|H].
  - apply admissibleb_sound. vm_compute. reflexivity.
  - apply list_elem_of_In. vm_compute. left. reflexivity.
  - exact H.
  - exfalso. destruct H as (r & b & (Hr & _) & Hb & _). vm_compute in Hr. injection Hr as <-.
    vm_compute in Hb. congruence.
Defined.

Lemma pause_has_drain_evidence_witness :
  exists h, drain_evidence demo_drain h 1.
Proof.
  destruct (dget (holders (mem demo_pausing)) (u "mgr", demo_digest)) as [h|] eqn:E;
    [|vm_compute in E; congruence].
  exists h. apply (pause_has_drain_evidence demo_bound demo_drain demo_pausing (demo_intent running 0)
    (demo_intent pausing 2) (u "mgr", demo_digest) h demo_reach_bound demo_history_pausing);
    try (vm_compute; reflexivity); try (vm_compute; congruence); try exact E.
  - split; [reflexivity|]. split; reflexivity.
  - vm_compute in E. injection E as <-. vm_compute. reflexivity.
Defined.

Lemma change_availability_exact_witness :
  exists r, holds_claim demo_bound demo_claim r /\ r_availability r = Some (demo_intent running 0).
Proof.
  destruct (change_availability demo_claim (demo_intent running 0) draining false demo_bound)
    as [[a|e] w'] eqn:E; [|vm_compute in E; congruence].
  destruct (proj1 (change_availability_exact demo_bound demo_claim (demo_intent running 0) draining
    false a w' demo_reach_bound) E) as (_ & r & H1 & H2 & _). exists r. exact (conj H1 H2).
Defined.

Lemma consume_warm_transfers_witness :
  exists r i slot, holds_claim demo_claimed demo_claim r /\
    warm_slots (mem demo_claimed) !! i = Some slot /\ s_sandbox_id slot = Some (u "warm").
Proof.
  destruct (consume_warm demo_claim demo_claimed) as [[[b|]|e] w'] eqn:E;
    [|vm_compute in E; congruence..].
  assert (b_sandbox_id b = u "warm") as Eb by (vm_compute in E; injection E as <- _; reflexivity).
  destruct (consume_warm_transfers demo_claimed demo_claim b w' sandbox_demo_claimed E)
    as (r & i & slot & H1 & H2 & H3 & _). exists r, i, slot. rewrite Eb in H3.
  exact (conj H1 (conj H2 H3)).
Defined.

Lemma closed_state_refuses_witness :
  memory_state WarmPoolReady (new_world (u "ns")) =
  (Raise OpenSandboxStateError, new_world (u "ns")).
Proof.
  destruct (closed_state_refuses (new_world (u "ns")) WarmPoolReady) as [H|(c & k & e & H & _)].
  - intros [H _]. vm_compute in H. congruence.
  - reflexivity.
  - exact H.
  - congruence.
Defined.

Lemma start_fixes_capacity_witness :
  memory_state (Start (PyInt 2)) demo_bound = (Raise OpenSandboxStateConfigurationError, demo_bound).
Proof.
  rewrite (proj1 (start_fixes_capacity demo_bound 2 demo_reach_bound ltac:(lia))).
  reflexivity.
Defined.

Lemma superseded_cleanup_claim_fails_witness :
  exists w w' c, current_cleanup w c /\
    memory_state (ReleaseCleanup c) w' = (Ok Nothing, w').
Proof.
  pose (w0 := (memory_state ClaimCleanup (memory_state (EnqueueCleanup (u "old")) demo_bound).2).2).
  pose (c := {| cc_sandbox_id := u "old"; cc_token := [2]; cc_generation := 1 |}).
  pose (w := (memory_state (CompleteCleanup c) w0).2).
  assert (later demo_bound w0) as Hl.
  { exists [EnqueueCleanup (u "old"); ClaimCleanup]. apply play_history. vm_compute. reflexivity. }
  assert (later w0 w) as Hl1.
  { exists [CompleteCleanup c]. apply play_history. vm_compute. reflexivity. }
  assert (current_cleanup w0 c) as Hc by (vm_compute; reflexivity).
  exists w0, w, c. split; [exact Hc|].
  apply (superseded_cleanup_claim_fails w0 w w c (state_reachable_later _ _ demo_reach_bound Hl) Hc Hl1).
  - intros H. vm_compute in H. congruence.
  - exists []. constructor.
Defined.
