(* ===== verification/MsgModels.v ===== *)
(** Messaging: the data of backend_contract.py, models.py, limits.py, retention.py
    and _identity.py - limits, identities, envelopes, what a backend stores, the
    transitions the framework asks for and the effects that answer them.

    A field with an annotated type has that type here, so the [isinstance] tests
    that only confirm the annotation have no counterpart; a value that may be
    [None] is an [option]. *)
From S2P Require Import Prelude PyDict PySeq Contracts.
From Stdlib Require Import Strings.String.

(** ** Exceptions *)

Inductive msg_exn : Type :=
| InvalidCursor
| CodecMismatch
| PublicationRejected
| MessageIdConflict
| MessagingQuotaExceeded
| RunAlreadyActive
| RunRequestConflict
| RunNotFound
| CancellationUnsupported
| BackendOwnershipLost
| StreamDeleted
| StreamExpired
| StreamDeleteConflict
| MessagingBackendProtocolError
| RunProducerFailed
| MsgTypeError
| MsgValueError
| MsgUnicodeEncodeError
| MsgValidationError
| MsgOverflowError
| MsgKeyError
| MsgRuntimeError.

#[export] Instance msg_exn_eq : EqDecision msg_exn.
Proof. solve_decision. Defined.

(** [bytes] as a list of octets. *)
Abbreviation pybytes := (list Z).

(** A trusted local exception, as far as evidence is taken from it: its class with
    the module, and its text. *)
Record Failure : Type := { failure_type : pystr; failure_text : pystr }.

#[export] Instance failure_eq : EqDecision Failure.
Proof. solve_decision. Defined.

Definition RuntimeError (message : pystr) : Failure :=
  {| failure_type := u "builtins.RuntimeError"; failure_text := message |}.

(** ** Limits and retention *)

Record MessagingLimits : Type := {
  max_message_payload_bytes : Z;
  max_checkpoint_bytes : Z;
  max_thread_messages : Z;
  max_thread_payload_bytes : Z;
  max_total_bytes : Z;
  max_total_records : Z
}.

#[export] Instance limits_eq : EqDecision MessagingLimits.
Proof. solve_decision. Defined.

Definition positive (value : Z) : res msg_exn unit := rraise_if (value <=? 0) MsgValueError.

Definition MessagingLimits_post_init (l : MessagingLimits) : res msg_exn unit :=
  do? positive (max_message_payload_bytes l) in
  do? positive (max_checkpoint_bytes l) in
  do? positive (max_thread_messages l) in
  do? positive (max_thread_payload_bytes l) in
  do? positive (max_total_bytes l) in
  do? positive (max_total_records l) in
  rraise_if (max_thread_payload_bytes l <? max_message_payload_bytes l) MsgValueError.

(** The replay window in the unit of the monotonic clock. *)
Record MessagingRetentionPolicy : Type := { terminal_ttl_seconds : option Z }.

#[export] Instance retention_eq : EqDecision MessagingRetentionPolicy.
Proof. solve_decision. Defined.

Definition MessagingRetentionPolicy_post_init (p : MessagingRetentionPolicy) : res msg_exn unit :=
  match terminal_ttl_seconds p with
  | None => Ok tt
  | Some resolved => rraise_if (resolved <=? 0) MsgValueError
  end.

(** ** Identities *)

Definition required_canonical_text (value : pystr) : res msg_exn unit :=
  rraise_if (bool_decide (strip value = []) || negb (bool_decide (value = strip value)))
    MsgValueError.

Definition required_identifier (value : pystr) : res msg_exn pystr :=
  do? required_canonical_text value in
  do? rraise_if (1024 <? zlen value) MsgValueError in
  Ok value.

Definition required_identity (identity : RunIdentity) : res msg_exn unit :=
  do? required_identifier (i_thread_id identity) in
  do? required_identifier (i_run_id identity) in
  Ok tt.

Definition is_hex_digit (c : Z) : bool := ((48 <=? c) && (c <=? 57)) || ((97 <=? c) && (c <=? 102)).

Definition validate_request_digest (value : option pystr) : res msg_exn unit :=
  match value with
  | None => Ok tt
  | Some s => rraise_if (negb (zlen s =? 64) || negb (forallb is_hex_digit s)) MsgValueError
  end.

(** ** Messages *)

Record RecoveryCheckpoint : Type := {
  k_position : pybytes;
  k_last_message_id : option pystr
}.

#[export] Instance checkpoint_eq : EqDecision RecoveryCheckpoint.
Proof. solve_decision. Defined.

Record MessageEnvelope : Type := {
  e_channel : pystr;
  e_identity : RunIdentity;
  e_seq : Z;
  e_message_id : pystr;
  e_codec : pystr;
  e_payload : pybytes;
  e_created_at : Z
}.

#[export] Instance envelope_eq : EqDecision MessageEnvelope.
Proof. solve_decision. Defined.

(** The validators of the three text fields: a string pydantic accepts, then
    [required_identifier]. *)
Definition envelope_text (value : pystr) : bool :=
  utf8_encodable value && match required_identifier value with Ok _ => true | Raise _ => false end.

(** [MessageEnvelope(...)]: pydantic reports every failed field as ValidationError. *)
Definition MessageEnvelope_new (e : MessageEnvelope) : res msg_exn MessageEnvelope :=
  do? rraise_if (negb (envelope_text (e_channel e)) || negb (envelope_text (e_message_id e)) ||
                 negb (envelope_text (e_codec e)) || (e_seq e <? 1) ||
                 negb (match required_identity (e_identity e) with Ok _ => true | _ => false end))
        MsgValidationError in
  Ok e.

(** ** UTF-8 *)

Definition utf8 (s : pystr) : res msg_exn pybytes :=
  do? rraise_if (negb (utf8_encodable s)) MsgUnicodeEncodeError in
  Ok (flat_map utf8_char s).

Definition checkpoint_bytes (checkpoint : option RecoveryCheckpoint) : res msg_exn Z :=
  match checkpoint with
  | None => Ok 0
  | Some k =>
      let? id := utf8 (default [] (k_last_message_id k)) in
      Ok (zlen (k_position k) + zlen id)
  end.

(** ** Run states *)

Inductive RunStatus : Type :=
| Running | CancelRequested | Completed | Cancelled | Failed | OwnerLost.

#[export] Instance run_status_eq : EqDecision RunStatus.
Proof. solve_decision. Defined.

Definition is_active_run_status (s : RunStatus) : bool :=
  match s with Running | CancelRequested => true | _ => false end.

Definition is_final_run_status (s : RunStatus) : bool :=
  match s with Completed | Cancelled | Failed | OwnerLost => true | _ => false end.

Definition is_failed_run_status (s : RunStatus) : bool :=
  match s with Failed | OwnerLost => true | _ => false end.

(** ** What a backend stores *)

Inductive MessagingStreamDisposition : Type := Active | Deleting | Deleted | Expiring | Expired.

#[export] Instance disposition_eq : EqDecision MessagingStreamDisposition.
Proof. solve_decision. Defined.

Inductive MessagingCleanupReason : Type := ReasonDeleted | ReasonExpired.

#[export] Instance cleanup_reason_eq : EqDecision MessagingCleanupReason.
Proof. solve_decision. Defined.

(** The dispositions that carry the name of a reason. *)
Definition finalized (r : MessagingCleanupReason) : MessagingStreamDisposition :=
  match r with ReasonDeleted => Deleted | ReasonExpired => Expired end.

Definition sealed_for (r : MessagingCleanupReason) : MessagingStreamDisposition :=
  match r with ReasonDeleted => Deleting | ReasonExpired => Expiring end.

Inductive MessagingLeaseAction : Type := LeaseNone | LeaseAcquire | LeaseRenew | LeaseRelease.
Inductive MessagingRetentionAction : Type := RetentionNone | RetentionClear | RetentionStart.

#[export] Instance retention_action_eq : EqDecision MessagingRetentionAction.
Proof. solve_decision. Defined.

Record StoredMessagingChannel : Type := {
  sc_channel : pystr;
  sc_codec_id : pystr;
  sc_limits : MessagingLimits;
  sc_retention_policy : MessagingRetentionPolicy
}.

Record StoredMessagingStream : Type := {
  ss_channel : pystr;
  ss_thread_id : pystr;
  ss_generation : Z;
  ss_disposition : MessagingStreamDisposition;
  ss_latest_sequence : Z;
  ss_payload_bytes : Z;
  ss_next_producer_fence : Z;
  ss_active_run_id : option pystr;
  ss_retention_expired : bool;
  ss_message_sequence : Z;
  ss_control_sequence : Z
}.

Record StoredMessagingRun : Type := {
  sr_identity : RunIdentity;
  sr_generation : Z;
  sr_start_sequence : Z;
  sr_end_sequence : Z;
  sr_status : RunStatus;
  sr_settlement_started : bool;
  sr_cancellable : bool;
  sr_recoverable : bool;
  sr_producer_token : option pystr;
  sr_producer_fence : Z;
  sr_producer_lease_active : bool;
  sr_checkpoint : option RecoveryCheckpoint;
  sr_failure_class : pystr;
  sr_failure_message : pystr;
  sr_local_failure : option Failure;
  sr_publication_closed : bool;
  sr_publication_ready : bool;
  sr_request_digest : option pystr;
  sr_producer_lease_remaining_seconds : option Z
}.

Record StoredMessageEvidence : Type := {
  ev_envelope : MessageEnvelope;
  ev_signature : pystr;
  ev_checkpoint : option RecoveryCheckpoint
}.

Record MessagingStateSnapshot : Type := {
  sn_observed_at : Z;
  sn_channel : option StoredMessagingChannel;
  sn_stream : option StoredMessagingStream;
  sn_target_run : option StoredMessagingRun;
  sn_active_run : option StoredMessagingRun;
  sn_matching_message : option StoredMessageEvidence;
  sn_tombstone_generation : option Z;
  sn_tombstone_reason : option MessagingCleanupReason
}.

(** ** Requests and results *)

Record MessagingBackendSettings : Type := {
  st_limits : MessagingLimits;
  st_retention_policy : MessagingRetentionPolicy;
  st_producer_renew_interval_seconds : option Z;
  st_producer_lease_seconds : option Z;
  st_change_wait_timeout_seconds : option Z
}.

Definition MessagingBackendSettings_post_init (t : MessagingBackendSettings) : res msg_exn unit :=
  do? match st_change_wait_timeout_seconds t with None => Ok tt | Some v => positive v end in
  match st_producer_renew_interval_seconds t, st_producer_lease_seconds t with
  | None, None => Ok tt
  | None, Some _ | Some _, None => Raise MsgValueError
  | Some renew_interval, Some lease_duration =>
      do? positive renew_interval in
      do? positive lease_duration in
      rraise_if (lease_duration <=? renew_interval) MsgValueError
  end.

Record MessagingRunReference : Type := {
  rf_channel : pystr;
  rf_identity : RunIdentity;
  rf_generation : Z;
  rf_producer_token : option pystr;
  rf_producer_fence : option Z
}.

#[export] Instance reference_eq : EqDecision MessagingRunReference.
Proof. solve_decision. Defined.

Inductive MessagingTransitionKind : Type :=
| PrepareRun | AppendMessage | PublishMessage | BeginSettlement | FinishRun
| RequestCancellation | RenewProducerOwnership | ReconcileProducerOwnership
| BeginGenerationCleanup | FinishGenerationCleanup.

#[export] Instance transition_kind_eq : EqDecision MessagingTransitionKind.
Proof. solve_decision. Defined.

Record MessagingTransition : Type := {
  tr_kind : MessagingTransitionKind;
  tr_transition_id : pystr;
  tr_channel : pystr;
  tr_identity : RunIdentity;
  tr_settings : MessagingBackendSettings;
  tr_run_reference : option MessagingRunReference;
  tr_codec_id : option pystr;
  tr_after_sequence : option Z;
  tr_cancellable : bool;
  tr_recoverable : bool;
  tr_request_digest : option pystr;
  tr_message_id : option pystr;
  tr_payload : option pybytes;
  tr_checkpoint : option RecoveryCheckpoint;
  tr_closes_publication : bool;
  tr_opens_publication : bool;
  tr_final_status : option RunStatus;
  tr_failure : option Failure;
  tr_cleanup_generation : option Z;
  tr_cleanup_reason : option MessagingCleanupReason;
  tr_cleanup_token : option pystr
}.

Record MessagingTransitionResult : Type := {
  rs_kind : MessagingTransitionKind;
  rs_run_reference : option MessagingRunReference;
  rs_after_sequence : option Z;
  rs_is_producer_owner : option bool;
  rs_checkpoint : option RecoveryCheckpoint;
  rs_recovered : bool;
  rs_envelope : option MessageEnvelope;
  rs_cancellation_requested_by_transition : option bool;
  rs_cancellation_preceded_settlement : option bool;
  rs_producer_ownership_confirmed : option bool;
  rs_run_status : option RunStatus;
  rs_cleanup_generation : option Z;
  rs_cleanup_reason : option MessagingCleanupReason;
  rs_cleanup_token : option pystr;
  rs_cleanup_required : bool
}.

Record MessagingStorageEffect : Type := {
  ef_result : MessagingTransitionResult;
  ef_channel : option StoredMessagingChannel;
  ef_stream : option StoredMessagingStream;
  ef_runs : list StoredMessagingRun;
  ef_message : option StoredMessageEvidence;
  ef_lease_action : MessagingLeaseAction;
  ef_lease_run_id : option pystr;
  ef_retention_action : MessagingRetentionAction;
  ef_tombstone_reason : option MessagingCleanupReason
}.

(** [MessagingTransitionResult(kind=kind)], [MessagingStorageEffect(result=result)] *)
Definition new_result (kind : MessagingTransitionKind) : MessagingTransitionResult :=
  {| rs_kind := kind; rs_run_reference := None; rs_after_sequence := None;
     rs_is_producer_owner := None; rs_checkpoint := None; rs_recovered := false;
     rs_envelope := None; rs_cancellation_requested_by_transition := None;
     rs_cancellation_preceded_settlement := None; rs_producer_ownership_confirmed := None;
     rs_run_status := None; rs_cleanup_generation := None; rs_cleanup_reason := None;
     rs_cleanup_token := None; rs_cleanup_required := false |}.

Definition new_effect (result : MessagingTransitionResult) : MessagingStorageEffect :=
  {| ef_result := result; ef_channel := None; ef_stream := None; ef_runs := [];
     ef_message := None; ef_lease_action := LeaseNone; ef_lease_run_id := None;
     ef_retention_action := RetentionNone; ef_tombstone_reason := None |}.

(** ** Reading *)

Record CommittedMessageQuery : Type := {
  q_channel : pystr;
  q_identity : RunIdentity;
  q_generation : Z;
  q_after_sequence : Z;
  q_through_sequence : option Z;
  q_limit : Z;
  q_stop_at_run_terminal : bool
}.

Record MessagingStateQuery : Type := {
  sq_channel : pystr;
  sq_identity : RunIdentity;
  sq_generation : option Z;
  sq_message_id : option pystr;
  sq_include_active_run : bool
}.

Record MessagingChangeCursor : Type := {
  cc_message_sequence : Z;
  cc_control_sequence : Z
}.

#[export] Instance change_cursor_eq : EqDecision MessagingChangeCursor.
Proof. solve_decision. Defined.

Record MessagingChangeWait : Type := {
  w_channel : pystr;
  w_identity : RunIdentity;
  w_generation : Z;
  w_after : MessagingChangeCursor;
  w_timeout_seconds : option Z
}.

Record CommittedMessagePage : Type := {
  p_generation : Z;
  p_latest_sequence : Z;
  p_messages : list MessageEnvelope;
  p_change_cursor : MessagingChangeCursor;
  p_run_state : option StoredMessagingRun
}.

Record StreamGenerationPurge : Type := {
  g_channel : pystr;
  g_identity : RunIdentity;
  g_generation : Z;
  g_maximum_records : Z;
  g_cleanup_token : option pystr
}.

Record StreamGenerationPurgeResult : Type := {
  removed_records : Z;
  complete : bool
}.
