(* ===== verification/MsgTransition.v ===== *)
(** Messaging: _messaging_transition.py.  A transition is resolved from a snapshot
    of the stored state, without input or output: the answer is the complete effect
    a backend has to apply, or the exception the state calls for. *)
From S2P Require Import Prelude PyDict PySeq Contracts MsgModels.
From Stdlib Require Import Strings.String.

(** ** [dataclasses.replace] *)

(** [replace(stream, active_run_id=..., control_sequence=stream.control_sequence + delta)] *)
Definition set_control (active_run_id : option pystr) (delta : Z) (s : StoredMessagingStream)
    : StoredMessagingStream :=
  {| ss_channel := ss_channel s; ss_thread_id := ss_thread_id s;
     ss_generation := ss_generation s; ss_disposition := ss_disposition s;
     ss_latest_sequence := ss_latest_sequence s; ss_payload_bytes := ss_payload_bytes s;
     ss_next_producer_fence := ss_next_producer_fence s; ss_active_run_id := active_run_id;
     ss_retention_expired := ss_retention_expired s;
     ss_message_sequence := ss_message_sequence s;
     ss_control_sequence := ss_control_sequence s + delta |}.

(** [replace(stream, next_producer_fence=fence, active_run_id=..., retention_expired=False,
    control_sequence=stream.control_sequence + delta)] *)
Definition set_owner (fence : Z) (run_id : pystr) (delta : Z) (s : StoredMessagingStream)
    : StoredMessagingStream :=
  {| ss_channel := ss_channel s; ss_thread_id := ss_thread_id s;
     ss_generation := ss_generation s; ss_disposition := ss_disposition s;
     ss_latest_sequence := ss_latest_sequence s; ss_payload_bytes := ss_payload_bytes s;
     ss_next_producer_fence := fence; ss_active_run_id := Some run_id;
     ss_retention_expired := false; ss_message_sequence := ss_message_sequence s;
     ss_control_sequence := ss_control_sequence s + delta |}.

(** [replace(stream, latest_sequence=..., payload_bytes=..., message_sequence=...)] *)
Definition set_tail (sequence payload_bytes : Z) (s : StoredMessagingStream)
    : StoredMessagingStream :=
  {| ss_channel := ss_channel s; ss_thread_id := ss_thread_id s;
     ss_generation := ss_generation s; ss_disposition := ss_disposition s;
     ss_latest_sequence := sequence; ss_payload_bytes := payload_bytes;
     ss_next_producer_fence := ss_next_producer_fence s;
     ss_active_run_id := ss_active_run_id s;
     ss_retention_expired := ss_retention_expired s; ss_message_sequence := sequence;
     ss_control_sequence := ss_control_sequence s |}.

(** [replace(stream, disposition=..., active_run_id=None,
    control_sequence=stream.control_sequence + 1)] *)
Definition set_disposition (d : MessagingStreamDisposition) (s : StoredMessagingStream)
    : StoredMessagingStream :=
  {| ss_channel := ss_channel s; ss_thread_id := ss_thread_id s;
     ss_generation := ss_generation s; ss_disposition := d;
     ss_latest_sequence := ss_latest_sequence s; ss_payload_bytes := ss_payload_bytes s;
     ss_next_producer_fence := ss_next_producer_fence s; ss_active_run_id := None;
     ss_retention_expired := ss_retention_expired s;
     ss_message_sequence := ss_message_sequence s;
     ss_control_sequence := ss_control_sequence s + 1 |}.

(** [replace(run, status=..., settlement_started=...)] *)
Definition set_run_status (status : RunStatus) (settling : bool) (r : StoredMessagingRun)
    : StoredMessagingRun :=
  {| sr_identity := sr_identity r; sr_generation := sr_generation r;
     sr_start_sequence := sr_start_sequence r; sr_end_sequence := sr_end_sequence r;
     sr_status := status; sr_settlement_started := settling;
     sr_cancellable := sr_cancellable r; sr_recoverable := sr_recoverable r;
     sr_producer_token := sr_producer_token r; sr_producer_fence := sr_producer_fence r;
     sr_producer_lease_active := sr_producer_lease_active r; sr_checkpoint := sr_checkpoint r;
     sr_failure_class := sr_failure_class r; sr_failure_message := sr_failure_message r;
     sr_local_failure := sr_local_failure r; sr_publication_closed := sr_publication_closed r;
     sr_publication_ready := sr_publication_ready r; sr_request_digest := sr_request_digest r;
     sr_producer_lease_remaining_seconds := sr_producer_lease_remaining_seconds r |}.

(** The fields [_owner_lost_run] and [_resolve_finish_run] replace. *)
Definition set_settled (end_sequence : Z) (status : RunStatus) (failure_class failure_message : pystr)
    (failure : option Failure) (r : StoredMessagingRun) : StoredMessagingRun :=
  {| sr_identity := sr_identity r; sr_generation := sr_generation r;
     sr_start_sequence := sr_start_sequence r; sr_end_sequence := end_sequence;
     sr_status := status; sr_settlement_started := true;
     sr_cancellable := sr_cancellable r; sr_recoverable := sr_recoverable r;
     sr_producer_token := None; sr_producer_fence := sr_producer_fence r;
     sr_producer_lease_active := false; sr_checkpoint := sr_checkpoint r;
     sr_failure_class := failure_class; sr_failure_message := failure_message;
     sr_local_failure := failure; sr_publication_closed := sr_publication_closed r;
     sr_publication_ready := sr_publication_ready r; sr_request_digest := sr_request_digest r;
     sr_producer_lease_remaining_seconds := sr_producer_lease_remaining_seconds r |}.

(** The fields a recovering preparation replaces. *)
Definition set_recovered (status : RunStatus) (cancellable : bool) (token : pystr) (fence : Z)
    (r : StoredMessagingRun) : StoredMessagingRun :=
  {| sr_identity := sr_identity r; sr_generation := sr_generation r;
     sr_start_sequence := sr_start_sequence r; sr_end_sequence := sr_end_sequence r;
     sr_status := status; sr_settlement_started := false;
     sr_cancellable := cancellable; sr_recoverable := sr_recoverable r;
     sr_producer_token := Some token; sr_producer_fence := fence;
     sr_producer_lease_active := true; sr_checkpoint := sr_checkpoint r;
     sr_failure_class := []; sr_failure_message := []; sr_local_failure := None;
     sr_publication_closed := sr_publication_closed r;
     sr_publication_ready := sr_publication_ready r; sr_request_digest := sr_request_digest r;
     sr_producer_lease_remaining_seconds := sr_producer_lease_remaining_seconds r |}.

(** The fields an append replaces. *)
Definition set_appended (end_sequence : Z) (ready closed : bool)
    (checkpoint : option RecoveryCheckpoint) (r : StoredMessagingRun) : StoredMessagingRun :=
  {| sr_identity := sr_identity r; sr_generation := sr_generation r;
     sr_start_sequence := sr_start_sequence r; sr_end_sequence := end_sequence;
     sr_status := sr_status r; sr_settlement_started := sr_settlement_started r;
     sr_cancellable := sr_cancellable r; sr_recoverable := sr_recoverable r;
     sr_producer_token := sr_producer_token r; sr_producer_fence := sr_producer_fence r;
     sr_producer_lease_active := sr_producer_lease_active r; sr_checkpoint := checkpoint;
     sr_failure_class := sr_failure_class r; sr_failure_message := sr_failure_message r;
     sr_local_failure := sr_local_failure r; sr_publication_closed := closed;
     sr_publication_ready := ready; sr_request_digest := sr_request_digest r;
     sr_producer_lease_remaining_seconds := sr_producer_lease_remaining_seconds r |}.

(** ** Results *)

Definition status_result (kind : MessagingTransitionKind) (status : RunStatus)
    : MessagingTransitionResult :=
  {| rs_kind := kind; rs_run_reference := None; rs_after_sequence := None;
     rs_is_producer_owner := None; rs_checkpoint := None; rs_recovered := false;
     rs_envelope := None; rs_cancellation_requested_by_transition := None;
     rs_cancellation_preceded_settlement := None; rs_producer_ownership_confirmed := None;
     rs_run_status := Some status; rs_cleanup_generation := None; rs_cleanup_reason := None;
     rs_cleanup_token := None; rs_cleanup_required := false |}.

Definition envelope_result (kind : MessagingTransitionKind) (e : MessageEnvelope)
    (status : RunStatus) : MessagingTransitionResult :=
  {| rs_kind := kind; rs_run_reference := None; rs_after_sequence := None;
     rs_is_producer_owner := None; rs_checkpoint := None; rs_recovered := false;
     rs_envelope := Some e; rs_cancellation_requested_by_transition := None;
     rs_cancellation_preceded_settlement := None; rs_producer_ownership_confirmed := None;
     rs_run_status := Some status; rs_cleanup_generation := None; rs_cleanup_reason := None;
     rs_cleanup_token := None; rs_cleanup_required := false |}.

Definition cancellation_result (kind : MessagingTransitionKind) (requested : bool)
    (status : RunStatus) : MessagingTransitionResult :=
  {| rs_kind := kind; rs_run_reference := None; rs_after_sequence := None;
     rs_is_producer_owner := None; rs_checkpoint := None; rs_recovered := false;
     rs_envelope := None; rs_cancellation_requested_by_transition := Some requested;
     rs_cancellation_preceded_settlement := None; rs_producer_ownership_confirmed := None;
     rs_run_status := Some status; rs_cleanup_generation := None; rs_cleanup_reason := None;
     rs_cleanup_token := None; rs_cleanup_required := false |}.

Definition settlement_result (kind : MessagingTransitionKind) (preceded : bool)
    (status : RunStatus) : MessagingTransitionResult :=
  {| rs_kind := kind; rs_run_reference := None; rs_after_sequence := None;
     rs_is_producer_owner := None; rs_checkpoint := None; rs_recovered := false;
     rs_envelope := None; rs_cancellation_requested_by_transition := None;
     rs_cancellation_preceded_settlement := Some preceded;
     rs_producer_ownership_confirmed := None;
     rs_run_status := Some status; rs_cleanup_generation := None; rs_cleanup_reason := None;
     rs_cleanup_token := None; rs_cleanup_required := false |}.

Definition renewal_result (kind : MessagingTransitionKind) (confirmed : bool)
    (status : option RunStatus) : MessagingTransitionResult :=
  {| rs_kind := kind; rs_run_reference := None; rs_after_sequence := None;
     rs_is_producer_owner := None; rs_checkpoint := None; rs_recovered := false;
     rs_envelope := None; rs_cancellation_requested_by_transition := None;
     rs_cancellation_preceded_settlement := None;
     rs_producer_ownership_confirmed := Some confirmed;
     rs_run_status := status; rs_cleanup_generation := None; rs_cleanup_reason := None;
     rs_cleanup_token := None; rs_cleanup_required := false |}.

Definition cleanup_result (kind : MessagingTransitionKind) (generation : option Z)
    (reason : option MessagingCleanupReason) (required : bool) : MessagingTransitionResult :=
  {| rs_kind := kind; rs_run_reference := None; rs_after_sequence := None;
     rs_is_producer_owner := None; rs_checkpoint := None; rs_recovered := false;
     rs_envelope := None; rs_cancellation_requested_by_transition := None;
     rs_cancellation_preceded_settlement := None; rs_producer_ownership_confirmed := None;
     rs_run_status := None; rs_cleanup_generation := generation; rs_cleanup_reason := reason;
     rs_cleanup_token := None; rs_cleanup_required := required |}.

(** The result of a preparation that grants ownership under [token] and [fence]. *)
Definition owner_result (t : MessagingTransition) (s : StoredMessagingStream) (cursor : Z)
    (token : pystr) (fence : Z) (checkpoint : option RecoveryCheckpoint) (recovered : bool)
    (status : RunStatus) : MessagingTransitionResult :=
  {| rs_kind := tr_kind t;
     rs_run_reference := Some {| rf_channel := tr_channel t; rf_identity := tr_identity t;
       rf_generation := ss_generation s; rf_producer_token := Some token;
       rf_producer_fence := Some fence |};
     rs_after_sequence := Some cursor; rs_is_producer_owner := Some true;
     rs_checkpoint := checkpoint; rs_recovered := recovered; rs_envelope := None;
     rs_cancellation_requested_by_transition := None;
     rs_cancellation_preceded_settlement := None; rs_producer_ownership_confirmed := None;
     rs_run_status := Some status; rs_cleanup_generation := None; rs_cleanup_reason := None;
     rs_cleanup_token := None; rs_cleanup_required := false |}.

(** ** The digest of a commit *)

(** hashlib's SHA-256, as the hexadecimal digest of the bytes it is fed. *)
Class Sha256 : Type := sha256_hexdigest : pybytes -> pystr.

(** [n.to_bytes(width, "big")] *)
Fixpoint big_endian (width : nat) (n : Z) : pybytes :=
  match width with
  | O => []
  | S w => big_endian w (n / 256) ++ [n mod 256]
  end.

(** [len(value).to_bytes(8, "big")] and [value]. *)
Definition framed (value : pybytes) : res msg_exn pybytes :=
  do? rraise_if (2 ^ 64 <=? zlen value) MsgOverflowError in
  Ok (big_endian 8 (zlen value) ++ value).

Fixpoint framed_all (values : list pybytes) : res msg_exn pybytes :=
  match values with
  | [] => Ok []
  | v :: l =>
      let? a := framed v in
      let? b := framed_all l in
      Ok (a ++ b)
  end.

(** What the digest is fed, after its domain. *)
Definition signature_input (run_id codec_id : pystr) (payload : pybytes)
    (checkpoint : option RecoveryCheckpoint) : res msg_exn pybytes :=
  let? run := utf8 run_id in
  let? codec := utf8 codec_id in
  let? extended := match checkpoint with
    | None => Ok []
    | Some k =>
        let? id := utf8 (default [] (k_last_message_id k)) in
        Ok [k_position k; id]
    end in
  let? body := framed_all ([run; codec; payload] ++ extended) in
  Ok (body ++ [match checkpoint with Some _ => 49 | None => 48 end]).

Definition signature_domain : pybytes := u "tinkerfin-messaging:redis-message" ++ [0].

Section transition.
Context {sha256 : Sha256}.

Definition messaging_message_signature (identity : RunIdentity) (codec_id : pystr)
    (payload : pybytes) (checkpoint : option RecoveryCheckpoint) : res msg_exn pystr :=
  do? required_identity identity in
  do? required_identifier codec_id in
  let? fed := signature_input (i_run_id identity) codec_id payload checkpoint in
  Ok (sha256_hexdigest (signature_domain ++ fed)).

(** ** Shared checks *)

Definition required_text (value : option pystr) : res msg_exn pystr :=
  match value with
  | None => Raise MsgTypeError
  | Some v => required_identifier v
  end.

Definition validate_transition_identity (t : MessagingTransition) : res msg_exn unit :=
  do? required_identifier (tr_transition_id t) in
  do? required_identifier (tr_channel t) in
  required_identity (tr_identity t).

Definition raise_reference_tombstone (state : MessagingStateSnapshot) (generation : option Z)
    : res msg_exn unit :=
  match sn_tombstone_generation state with
  | None => Ok tt
  | Some tombstone_generation =>
      if match generation with Some g => negb (g =? tombstone_generation) | None => false end
      then Ok tt
      else match sn_tombstone_reason state with
           | Some ReasonExpired => Raise StreamExpired
           | Some ReasonDeleted => Raise StreamDeleted
           | None => Ok tt
           end
  end.

(** What [_raise_unavailable_stream] raises. *)
Definition unavailable_stream (s : StoredMessagingStream) : msg_exn :=
  match ss_disposition s with
  | Expired | Expiring => StreamExpired
  | _ => StreamDeleted
  end.

Definition reference_generation (t : MessagingTransition) : option Z :=
  rf_generation <$> tr_run_reference t.

Definition required_target_run (t : MessagingTransition) (state : MessagingStateSnapshot)
    : res msg_exn StoredMessagingRun :=
  match sn_target_run state with
  | Some run => Ok run
  | None =>
      do? raise_reference_tombstone state (reference_generation t) in
      Raise RunNotFound
  end.

Definition required_stream (t : MessagingTransition) (state : MessagingStateSnapshot)
    : res msg_exn StoredMessagingStream :=
  match sn_stream state with
  | Some s => if bool_decide (ss_disposition s = Active) then Ok s else Raise (unavailable_stream s)
  | None =>
      do? raise_reference_tombstone state (reference_generation t) in
      Raise RunNotFound
  end.

Definition reference_names (t : MessagingTransition) (reference : MessagingRunReference) : bool :=
  bool_decide (rf_channel reference = tr_channel t) &&
  bool_decide (rf_identity reference = tr_identity t).

Definition required_reference (t : MessagingTransition) : res msg_exn MessagingRunReference :=
  match tr_run_reference t with
  | None => Raise MsgTypeError
  | Some reference =>
      do? rraise_if (negb (reference_names t reference)) MsgValueError in
      match rf_producer_token reference, rf_producer_fence reference with
      | Some _, Some _ => Ok reference
      | _, _ => Raise BackendOwnershipLost
      end
  end.

Definition reference_matches_run (reference : MessagingRunReference) (run : StoredMessagingRun)
    : bool :=
  (sr_generation run =? rf_generation reference) &&
  bool_decide (sr_identity run = rf_identity reference) &&
  bool_decide (sr_producer_token run = rf_producer_token reference) &&
  bool_decide (Some (sr_producer_fence run) = rf_producer_fence reference).

Definition owned_run (t : MessagingTransition) (state : MessagingStateSnapshot)
    : res msg_exn (StoredMessagingRun * StoredMessagingStream * MessagingRunReference) :=
  let? reference := required_reference t in
  let? run := required_target_run t state in
  let? stream := required_stream t state in
  if negb (ss_generation stream =? rf_generation reference)
  then
    do? raise_reference_tombstone state (Some (rf_generation reference)) in
    Raise BackendOwnershipLost
  else
    do? rraise_if (negb (reference_matches_run reference run) ||
                   negb (sr_producer_lease_active run)) BackendOwnershipLost in
    do? rraise_if (is_final_run_status (sr_status run)) BackendOwnershipLost in
    Ok (run, stream, reference).

Definition owner_lost_run (end_sequence : Z) (message : pystr) (run : StoredMessagingRun)
    : StoredMessagingRun :=
  set_settled end_sequence OwnerLost (u "tinkerfin_messaging.OwnerLost") message
    (Some (RuntimeError message)) run.

Definition failure_evidence (error : option Failure) : pystr * pystr :=
  match error with
  | None => ([], [])
  | Some f => (failure_type f, failure_text f)
  end.

(** An active run that is this one is no longer active. *)
Definition without_active (run_id : pystr) (s : StoredMessagingStream) : option pystr :=
  if bool_decide (ss_active_run_id s = Some run_id) then None else ss_active_run_id s.

Definition attachment_result (t : MessagingTransition) (s : StoredMessagingStream) (cursor : Z)
    : MessagingTransitionResult :=
  {| rs_kind := tr_kind t;
     rs_run_reference := Some {| rf_channel := tr_channel t; rf_identity := tr_identity t;
       rf_generation := ss_generation s; rf_producer_token := None; rf_producer_fence := None |};
     rs_after_sequence := Some cursor; rs_is_producer_owner := Some false;
     rs_checkpoint := None; rs_recovered := false; rs_envelope := None;
     rs_cancellation_requested_by_transition := None;
     rs_cancellation_preceded_settlement := None; rs_producer_ownership_confirmed := None;
     rs_run_status := None; rs_cleanup_generation := None; rs_cleanup_reason := None;
     rs_cleanup_token := None; rs_cleanup_required := false |}.

Definition prepared_attachment (t : MessagingTransition) (s : StoredMessagingStream) (cursor : Z)
    (channel_effect : option StoredMessagingChannel) : MessagingStorageEffect :=
  {| ef_result := attachment_result t s cursor; ef_channel := channel_effect; ef_stream := None;
     ef_runs := []; ef_message := None; ef_lease_action := LeaseNone; ef_lease_run_id := None;
     ef_retention_action := RetentionNone; ef_tombstone_reason := None |}.

(** The effect that records the loss of [run] and starts its retention. *)
Definition release_effect (result : MessagingTransitionResult)
    (channel_effect : option StoredMessagingChannel) (stream : StoredMessagingStream)
    (run : StoredMessagingRun) (run_id : pystr) : MessagingStorageEffect :=
  {| ef_result := result; ef_channel := channel_effect; ef_stream := Some stream;
     ef_runs := [run]; ef_message := None; ef_lease_action := LeaseRelease;
     ef_lease_run_id := Some run_id; ef_retention_action := RetentionStart;
     ef_tombstone_reason := None |}.

(** ** Preparation *)

(** The channel is created or has the settings of the transition. *)
Definition prepare_channel (t : MessagingTransition) (state : MessagingStateSnapshot)
    (codec_id : pystr) : res msg_exn (option StoredMessagingChannel) :=
  let settings := tr_settings t in
  match sn_channel state with
  | None => Ok (Some {| sc_channel := tr_channel t; sc_codec_id := codec_id;
                        sc_limits := st_limits settings;
                        sc_retention_policy := st_retention_policy settings |})
  | Some stored =>
      do? rraise_if (negb (bool_decide (sc_codec_id stored = codec_id))) CodecMismatch in
      do? rraise_if (negb (bool_decide (sc_limits stored = st_limits settings)))
            MessagingBackendProtocolError in
      do? rraise_if (negb (bool_decide (sc_retention_policy stored = st_retention_policy settings)))
            MessagingBackendProtocolError in
      Ok None
  end.

Definition new_stream (t : MessagingTransition) (previous_generation : option Z)
    : StoredMessagingStream :=
  {| ss_channel := tr_channel t; ss_thread_id := i_thread_id (tr_identity t);
     ss_generation := match previous_generation with None => 1 | Some g => g + 1 end;
     ss_disposition := Active; ss_latest_sequence := 0; ss_payload_bytes := 0;
     ss_next_producer_fence := 1; ss_active_run_id := None; ss_retention_expired := false;
     ss_message_sequence := 0; ss_control_sequence := 0 |}.

Definition disposition_reason (d : MessagingStreamDisposition) : option MessagingCleanupReason :=
  match d with
  | Deleted => Some ReasonDeleted
  | Expired => Some ReasonExpired
  | _ => None
  end.

(** The live stream, or the first generation after the one that is gone. *)
Definition prepare_stream (t : MessagingTransition) (state : MessagingStateSnapshot)
    : res msg_exn StoredMessagingStream :=
  let renewed (stream : option StoredMessagingStream) :=
    let previous_generation := match sn_tombstone_generation state with
                               | Some g => Some g
                               | None => ss_generation <$> stream
                               end in
    let unavailable_reason := match sn_tombstone_reason state with
                              | Some r => Some r
                              | None => stream ≫= fun s => disposition_reason (ss_disposition s)
                              end in
    do? rraise_if (bool_decide (unavailable_reason = Some ReasonExpired) &&
                   match tr_after_sequence t with
                   | None => false
                   | Some a => negb (a =? 0)
                   end) StreamExpired in
    Ok (new_stream t previous_generation) in
  match sn_stream state with
  | None => renewed None
  | Some s =>
      match ss_disposition s with
      | Deleting | Expiring => Raise (unavailable_stream s)
      | Deleted | Expired => renewed (Some s)
      | Active => Ok s
      end
  end.

Definition lost_message : pystr := u "producer lease expired".
Definition lost_settling_message : pystr :=
  u "producer lease expired during cancellation settlement".

(** The requested run exists: attach to it, declare it lost, or recover it. *)
Definition prepare_existing (t : MessagingTransition) (stream : StoredMessagingStream)
    (cursor : Z) (channel_effect : option StoredMessagingChannel) (run : StoredMessagingRun)
    : res msg_exn MessagingStorageEffect :=
  let latest := ss_latest_sequence stream in
  do? rraise_if (negb (sr_generation run =? ss_generation stream)) MessagingBackendProtocolError in
  do? rraise_if (negb (bool_decide (sr_request_digest run = tr_request_digest t)))
        RunRequestConflict in
  if is_final_run_status (sr_status run) || sr_producer_lease_active run
  then Ok (prepared_attachment t stream cursor channel_effect)
  else if bool_decide (sr_status run = CancelRequested) && sr_settlement_started run
  then Ok (release_effect (attachment_result t stream cursor) channel_effect
             (set_control None 1 stream) (owner_lost_run latest lost_settling_message run)
             (i_run_id (sr_identity run)))
  else if sr_recoverable run && tr_recoverable t
  then
    let fence := ss_next_producer_fence stream in
    let token := tr_transition_id t in
    let status := if bool_decide (sr_status run = CancelRequested) then CancelRequested
                  else Running in
    Ok {| ef_result := owner_result t stream cursor token fence (sr_checkpoint run) true status;
          ef_channel := channel_effect;
          ef_stream := Some (set_owner (fence + 1) (i_run_id (tr_identity t)) 1 stream);
          ef_runs := [set_recovered status (tr_cancellable t) token fence run];
          ef_message := None; ef_lease_action := LeaseAcquire;
          ef_lease_run_id := Some (i_run_id (tr_identity t));
          ef_retention_action := RetentionClear; ef_tombstone_reason := None |}
  else Ok (release_effect (attachment_result t stream cursor) channel_effect
             (set_control None 1 stream) (owner_lost_run latest lost_message run)
             (i_run_id (tr_identity t))).

(** The run a new producer starts with. *)
Definition created_run (t : MessagingTransition) (stream : StoredMessagingStream)
    : StoredMessagingRun :=
  {| sr_identity := tr_identity t; sr_generation := ss_generation stream;
     sr_start_sequence := ss_latest_sequence stream; sr_end_sequence := ss_latest_sequence stream;
     sr_status := Running; sr_settlement_started := false;
     sr_cancellable := tr_cancellable t; sr_recoverable := tr_recoverable t;
     sr_producer_token := Some (tr_transition_id t);
     sr_producer_fence := ss_next_producer_fence stream; sr_producer_lease_active := true;
     sr_checkpoint := None; sr_failure_class := []; sr_failure_message := [];
     sr_local_failure := None; sr_publication_closed := false; sr_publication_ready := false;
     sr_request_digest := tr_request_digest t;
     sr_producer_lease_remaining_seconds := None |}.

(** The requested run is new: no other producer may own the stream. *)
Definition prepare_new (t : MessagingTransition) (state : MessagingStateSnapshot)
    (stream : StoredMessagingStream) (cursor : Z)
    (channel_effect : option StoredMessagingChannel) : res msg_exn MessagingStorageEffect :=
  let? lost := match sn_active_run state with
    | None => Ok []
    | Some active =>
        do? rraise_if (sr_producer_lease_active active) RunAlreadyActive in
        Ok [owner_lost_run (ss_latest_sequence stream) lost_message active]
    end in
  let fence := ss_next_producer_fence stream in
  let delta := match sn_active_run state with None => 0 | Some _ => 1 end in
  Ok {| ef_result := owner_result t stream cursor (tr_transition_id t) fence None false Running;
        ef_channel := channel_effect;
        ef_stream := Some (set_owner (fence + 1) (i_run_id (tr_identity t)) delta stream);
        ef_runs := lost ++ [created_run t stream];
        ef_message := None; ef_lease_action := LeaseAcquire;
        ef_lease_run_id := Some (i_run_id (tr_identity t));
        ef_retention_action := RetentionClear; ef_tombstone_reason := None |}.

Definition resolve_prepare_run (t : MessagingTransition) (state : MessagingStateSnapshot)
    : res msg_exn MessagingStorageEffect :=
  let? codec_id := required_text (tr_codec_id t) in
  do? validate_request_digest (tr_request_digest t) in
  let? channel_effect := prepare_channel t state codec_id in
  let? stream := prepare_stream t state in
  let latest := ss_latest_sequence stream in
  let cursor := default latest (tr_after_sequence t) in
  do? rraise_if ((cursor <? 0) || (latest <? cursor)) InvalidCursor in
  match sn_target_run state with
  | Some run => prepare_existing t stream cursor channel_effect run
  | None => prepare_new t state stream cursor channel_effect
  end.

(** ** Appending *)

(** Who appends: the producer under its fence, or an observer of the generation. *)
Definition append_owner (t : MessagingTransition) (state : MessagingStateSnapshot)
    (external : bool)
    : res msg_exn (StoredMessagingRun * StoredMessagingStream * MessagingRunReference) :=
  if external then
    let? run := required_target_run t state in
    let? stream := required_stream t state in
    match tr_run_reference t with
    | Some reference =>
        do? rraise_if (negb (rf_generation reference =? ss_generation stream))
              PublicationRejected in
        do? rraise_if (match tr_checkpoint t with Some _ => true | None => false end ||
                       tr_closes_publication t) MsgValueError in
        Ok (run, stream, reference)
    | None => Raise PublicationRejected
    end
  else owned_run t state.

(** The message is within the limits of one message and its checkpoint names it. *)
Definition append_input (t : MessagingTransition)
    : res msg_exn (pystr * pystr * pybytes) :=
  let? codec_id := required_text (tr_codec_id t) in
  let? message_id := required_text (tr_message_id t) in
  match tr_payload t with
  | None => Raise MsgTypeError
  | Some payload =>
      let limits := st_limits (tr_settings t) in
      do? match tr_checkpoint t with
          | Some k => rraise_if (negb (bool_decide (k_last_message_id k = Some message_id)))
                        MsgValueError
          | None => Ok tt
          end in
      do? rraise_if (max_message_payload_bytes limits <? zlen payload) MessagingQuotaExceeded in
      do? match tr_checkpoint t with
          | Some k => rraise_if (max_checkpoint_bytes limits <? zlen (k_position k))
                        MessagingQuotaExceeded
          | None => Ok tt
          end in
      Ok (codec_id, message_id, payload)
  end.

(** An observer may publish while the run is open, owned and has started. *)
Definition publication_allowed (run : StoredMessagingRun) : res msg_exn unit :=
  do? rraise_if (negb (bool_decide (sr_status run = Running)) || sr_settlement_started run ||
                 sr_publication_closed run) PublicationRejected in
  do? rraise_if (negb (sr_producer_lease_active run)) PublicationRejected in
  rraise_if (negb (sr_publication_ready run)) PublicationRejected.

Definition append_effect (t : MessagingTransition) (external : bool) (run : StoredMessagingRun)
    (stream : StoredMessagingStream) (reference : MessagingRunReference) (signature : pystr)
    (envelope : MessageEnvelope) : MessagingStorageEffect :=
  {| ef_result := envelope_result (tr_kind t) envelope (sr_status run); ef_channel := None;
     ef_stream := Some (set_tail (e_seq envelope)
                          (ss_payload_bytes stream + zlen (e_payload envelope)) stream);
     ef_runs := [set_appended (e_seq envelope)
                   (sr_publication_ready run || (negb external && tr_opens_publication t))
                   (sr_publication_closed run || tr_closes_publication t)
                   (match tr_checkpoint t with None => sr_checkpoint run | Some k => Some k end)
                   run];
     ef_message := Some {| ev_envelope := envelope; ev_signature := signature;
                           ev_checkpoint := tr_checkpoint t |};
     ef_lease_action := LeaseNone;
     ef_lease_run_id := if external then None else Some (i_run_id (rf_identity reference));
     ef_retention_action := RetentionNone; ef_tombstone_reason := None |}.

Definition resolve_append_message (t : MessagingTransition) (state : MessagingStateSnapshot)
    : res msg_exn MessagingStorageEffect :=
  let external := bool_decide (tr_kind t = PublishMessage) in
  let? owner := append_owner t state external in
  let '(run, stream, reference) := owner in
  let? input := append_input t in
  let '(codec_id, message_id, payload) := input in
  let limits := st_limits (tr_settings t) in
  match sn_channel state with
  | None => Raise MessagingBackendProtocolError
  | Some channel =>
      do? rraise_if (negb (bool_decide (sc_codec_id channel = codec_id))) CodecMismatch in
      let? signature := messaging_message_signature (tr_identity t) codec_id payload
                          (tr_checkpoint t) in
      match sn_matching_message state with
      | Some existing =>
          do? rraise_if (negb (bool_decide (ev_signature existing = signature)))
                MessageIdConflict in
          Ok (new_effect (envelope_result (tr_kind t) (ev_envelope existing) (sr_status run)))
      | None =>
          do? (if external then publication_allowed run else Ok tt) in
          do? rraise_if (max_thread_messages limits <=? ss_latest_sequence stream)
                MessagingQuotaExceeded in
          do? rraise_if (max_thread_payload_bytes limits <?
                           ss_payload_bytes stream + zlen payload) MessagingQuotaExceeded in
          let? envelope := MessageEnvelope_new
            {| e_channel := tr_channel t; e_identity := tr_identity t;
               e_seq := ss_latest_sequence stream + 1; e_message_id := message_id;
               e_codec := codec_id; e_payload := payload;
               e_created_at := sn_observed_at state |} in
          Ok (append_effect t external run stream reference signature envelope)
      end
  end.

(** ** The end of a run *)

Definition resolve_begin_settlement (t : MessagingTransition) (state : MessagingStateSnapshot)
    : res msg_exn MessagingStorageEffect :=
  let? owner := owned_run t state in
  let '(run, _, _) := owner in
  do? rraise_if (sr_settlement_started run) BackendOwnershipLost in
  do? rraise_if (negb (bool_decide (sr_status run = Running)) &&
                 negb (bool_decide (sr_status run = CancelRequested))) BackendOwnershipLost in
  let preceded := bool_decide (sr_status run = CancelRequested) in
  Ok {| ef_result := settlement_result (tr_kind t) preceded (sr_status run);
        ef_channel := None; ef_stream := None;
        ef_runs := [set_run_status (sr_status run) true run]; ef_message := None;
        ef_lease_action := LeaseNone; ef_lease_run_id := None;
        ef_retention_action := RetentionNone; ef_tombstone_reason := None |}.

Definition unsettled_cancellation : Failure :=
  RuntimeError (u "producer completed without settling accepted cancellation").

Definition resolve_finish_run (t : MessagingTransition) (state : MessagingStateSnapshot)
    : res msg_exn MessagingStorageEffect :=
  let? owner := owned_run t state in
  let '(run, stream, _) := owner in
  match tr_final_status t with
  | None => Raise MsgTypeError
  | Some requested =>
      do? rraise_if (negb (is_final_run_status requested)) MsgTypeError in
      let unsettled := bool_decide (sr_status run = CancelRequested) &&
                       bool_decide (requested = Completed) in
      let final_status := if unsettled then Failed else requested in
      let failure := if unsettled then Some unsettled_cancellation else tr_failure t in
      let '(failure_class, failure_message) := failure_evidence failure in
      Ok (release_effect (status_result (tr_kind t) final_status) None
            (set_control (without_active (i_run_id (tr_identity t)) stream) 1 stream)
            (set_settled (ss_latest_sequence stream) final_status failure_class failure_message
               failure run)
            (i_run_id (tr_identity t)))
  end.

Definition resolve_request_cancellation (t : MessagingTransition)
    (state : MessagingStateSnapshot) : res msg_exn MessagingStorageEffect :=
  let? run := required_target_run t state in
  let? stream := required_stream t state in
  if is_final_run_status (sr_status run) || sr_settlement_started run
  then Ok (new_effect (cancellation_result (tr_kind t) false (sr_status run)))
  else
    do? rraise_if (negb (sr_cancellable run)) CancellationUnsupported in
    if bool_decide (sr_status run = CancelRequested)
    then Ok (new_effect (cancellation_result (tr_kind t) false (sr_status run)))
    else
      do? rraise_if (negb (bool_decide (sr_status run = Running)))
            MessagingBackendProtocolError in
      Ok {| ef_result := cancellation_result (tr_kind t) true CancelRequested;
            ef_channel := None;
            ef_stream := Some (set_control (ss_active_run_id stream) 1 stream);
            ef_runs := [set_run_status CancelRequested (sr_settlement_started run) run];
            ef_message := None; ef_lease_action := LeaseNone; ef_lease_run_id := None;
            ef_retention_action := RetentionNone; ef_tombstone_reason := None |}.

(** ** Ownership *)

Definition resolve_renew_producer_ownership (t : MessagingTransition)
    (state : MessagingStateSnapshot) : res msg_exn MessagingStorageEffect :=
  let? reference := required_reference t in
  match sn_target_run state with
  | None =>
      do? raise_reference_tombstone state (Some (rf_generation reference)) in
      Ok (new_effect (renewal_result (tr_kind t) false None))
  | Some run =>
      if negb (reference_matches_run reference run)
      then Ok (new_effect (renewal_result (tr_kind t) false None))
      else if negb (sr_producer_lease_active run) || is_final_run_status (sr_status run)
      then Ok (new_effect (renewal_result (tr_kind t) false (Some (sr_status run))))
      else Ok {| ef_result := renewal_result (tr_kind t) true (Some (sr_status run));
                 ef_channel := None; ef_stream := None; ef_runs := []; ef_message := None;
                 ef_lease_action := LeaseRenew;
                 ef_lease_run_id := Some (i_run_id (tr_identity t));
                 ef_retention_action := RetentionNone; ef_tombstone_reason := None |}
  end.

Definition resolve_reconcile_producer_ownership (t : MessagingTransition)
    (state : MessagingStateSnapshot) : res msg_exn MessagingStorageEffect :=
  let? run := required_target_run t state in
  let? stream := required_stream t state in
  do? match tr_run_reference t with
      | None => Ok tt
      | Some reference =>
          do? rraise_if (negb (reference_names t reference)) MsgValueError in
          if negb (rf_generation reference =? ss_generation stream) ||
             negb (rf_generation reference =? sr_generation run)
          then
            do? raise_reference_tombstone state (Some (rf_generation reference)) in
            Raise MessagingBackendProtocolError
          else Ok tt
      end in
  if is_final_run_status (sr_status run) || sr_producer_lease_active run
  then Ok (new_effect (status_result (tr_kind t) (sr_status run)))
  else
    let message := if bool_decide (sr_status run = CancelRequested) && sr_settlement_started run
                   then lost_settling_message else lost_message in
    Ok (release_effect (status_result (tr_kind t) OwnerLost) None
          (set_control (without_active (i_run_id (tr_identity t)) stream) 1 stream)
          (owner_lost_run (ss_latest_sequence stream) message run)
          (i_run_id (tr_identity t))).

(** ** Cleanup of a generation *)

(** The run that owns the stream, as far as the snapshot holds it. *)
Definition cleanup_owner (state : MessagingStateSnapshot) (active_run_id : pystr)
    : option StoredMessagingRun :=
  match sn_target_run state with
  | Some run => if bool_decide (i_run_id (sr_identity run) = active_run_id) then Some run
                else sn_active_run state
  | None => sn_active_run state
  end.

Definition seal_effect (t : MessagingTransition) (stream : StoredMessagingStream)
    (reason : MessagingCleanupReason) (lost : option StoredMessagingRun)
    : MessagingStorageEffect :=
  {| ef_result := cleanup_result (tr_kind t) (Some (ss_generation stream)) (Some reason) true;
     ef_channel := None; ef_stream := Some (set_disposition (sealed_for reason) stream);
     ef_runs := option_list lost; ef_message := None;
     ef_lease_action := match lost with None => LeaseNone | Some _ => LeaseRelease end;
     ef_lease_run_id := (fun r => i_run_id (sr_identity r)) <$> lost;
     ef_retention_action := RetentionClear; ef_tombstone_reason := None |}.

Definition resolve_begin_generation_cleanup (t : MessagingTransition)
    (state : MessagingStateSnapshot) : res msg_exn MessagingStorageEffect :=
  let kind := tr_kind t in
  match tr_cleanup_reason t with
  | None => Raise MsgTypeError
  | Some reason =>
      match sn_stream state with
      | None =>
          do? rraise_if
                (negb (Bool.eqb (bool_decide (sn_tombstone_generation state = None))
                                (bool_decide (sn_tombstone_reason state = None))))
                MessagingBackendProtocolError in
          Ok (new_effect (cleanup_result kind (sn_tombstone_generation state)
                            (sn_tombstone_reason state) false))
      | Some stream =>
          let generation := Some (ss_generation stream) in
          match ss_disposition stream with
          | Deleted => Ok (new_effect (cleanup_result kind generation (Some ReasonDeleted) false))
          | Expired => Ok (new_effect (cleanup_result kind generation (Some ReasonExpired) false))
          | Deleting => Ok (new_effect (cleanup_result kind generation (Some ReasonDeleted) true))
          | Expiring => Ok (new_effect (cleanup_result kind generation (Some ReasonExpired) true))
          | Active =>
              let? lost := match ss_active_run_id stream with
                | None => Ok None
                | Some active_run_id =>
                    match cleanup_owner state active_run_id with
                    | None => Raise StreamDeleteConflict
                    | Some owner =>
                        do? rraise_if (sr_producer_lease_active owner) StreamDeleteConflict in
                        Ok (Some (owner_lost_run (ss_latest_sequence stream) lost_message owner))
                    end
                end in
              if bool_decide (reason = ReasonExpired) && negb (ss_retention_expired stream)
              then Ok (new_effect (cleanup_result kind None None false))
              else Ok (seal_effect t stream reason lost)
          end
      end
  end.

Definition resolve_finish_generation_cleanup (t : MessagingTransition)
    (state : MessagingStateSnapshot) : res msg_exn MessagingStorageEffect :=
  match tr_cleanup_reason t, tr_cleanup_generation t with
  | None, _ | Some _, None => Raise MsgTypeError
  | Some reason, Some generation =>
      do? rraise_if (generation <? 1) MsgValueError in
      let finished := cleanup_result (tr_kind t) (Some generation) (Some reason) false in
      match sn_stream state with
      | None =>
          if bool_decide (sn_tombstone_generation state = Some generation) &&
             bool_decide (sn_tombstone_reason state = Some reason)
          then Ok (new_effect finished)
          else Raise MessagingBackendProtocolError
      | Some stream =>
          do? rraise_if (negb (ss_generation stream =? generation)) MessagingBackendProtocolError in
          if bool_decide (ss_disposition stream = finalized reason)
          then Ok (new_effect finished)
          else
            do? rraise_if (negb (bool_decide (ss_disposition stream = sealed_for reason)))
                  MessagingBackendProtocolError in
            Ok {| ef_result := finished; ef_channel := None;
                  ef_stream := Some (set_disposition (finalized reason) stream);
                  ef_runs := []; ef_message := None; ef_lease_action := LeaseNone;
                  ef_lease_run_id := None; ef_retention_action := RetentionNone;
                  ef_tombstone_reason := Some reason |}
      end
  end.

(** ** The entry point *)

Definition resolve_messaging_transition (t : MessagingTransition)
    (state : MessagingStateSnapshot) : res msg_exn MessagingStorageEffect :=
  do? validate_transition_identity t in
  match tr_kind t with
  | PrepareRun => resolve_prepare_run t state
  | AppendMessage | PublishMessage => resolve_append_message t state
  | BeginSettlement => resolve_begin_settlement t state
  | FinishRun => resolve_finish_run t state
  | RequestCancellation => resolve_request_cancellation t state
  | RenewProducerOwnership => resolve_renew_producer_ownership t state
  | ReconcileProducerOwnership => resolve_reconcile_producer_ownership t state
  | BeginGenerationCleanup => resolve_begin_generation_cleanup t state
  | FinishGenerationCleanup => resolve_finish_generation_cleanup t state
  end.
End transition.
