(* ===== verification/MsgMemory.v ===== *)
(** Messaging: MemoryBackend of backend.py and the expiry index of _capacity.py.

    Every operation of the backend is one step.  It takes the lock of its channel
    and the condition of its stream, but no operation suspends while it holds
    either (the one [await] inside, [condition.wait()], releases it), so both are
    free whenever they are asked for and taking them does not yield.

    A channel that has not been used is not in [self._channels]: an operation then
    works on a channel object of its own ([scratch]), which is registered only when
    a preparation commits. *)
From S2P Require Import Prelude PyDict PySeq Contracts MsgModels MsgTransition.
From Stdlib Require Import Strings.String.

(** ** The environment *)

(** [thread_key], the JSON of a thread's identity; the storage clock of
    [datetime.now(UTC)] and [time.monotonic()], each indexed by its readings. *)
Class MessagingEnv : Type := {
  thread_json : pystr -> pystr -> pystr;
  utc_now : nat -> Z;
  monotonic : nat -> Z
}.

(** ** The expiry index *)

Definition thread_address : Type := (pystr * pystr)%type.

(** The order of heap entries: tuples of a deadline and a thread's address. *)
Definition address_ltb (a b : thread_address) : bool :=
  str_ltb a.1 b.1 || (bool_decide (a.1 = b.1) && str_ltb a.2 b.2).

Definition entry_leb (a b : Z * thread_address) : bool :=
  (a.1 <? b.1) || ((a.1 =? b.1) && negb (address_ltb b.2 a.2)).

(** heapq is used only through its least entry and its size: the heap is the list
    of its entries in order. *)
Record ExpiryIndex : Type := {
  x_deadlines : dict thread_address Z;
  x_heap : list (Z * thread_address)
}.

Definition new_index : ExpiryIndex := {| x_deadlines := []; x_heap := [] |}.

Definition heappush (entry : Z * thread_address) (heap : list (Z * thread_address))
    : list (Z * thread_address) := insert_by entry_leb entry heap.

Definition heapify (entries : list (Z * thread_address)) : list (Z * thread_address) :=
  sorted_by entry_leb entries.

(** [_ExpiryIndex.set] *)
Definition index_set (key : thread_address) (deadline : option Z) (x : ExpiryIndex)
    : ExpiryIndex :=
  let x := match deadline with
           | None => {| x_deadlines := ddel (x_deadlines x) key; x_heap := x_heap x |}
           | Some d => {| x_deadlines := dset (x_deadlines x) key d;
                          x_heap := heappush (d, key) (x_heap x) |}
           end in
  if 2 * zlen (x_deadlines x) + 64 <? zlen (x_heap x)
  then {| x_deadlines := x_deadlines x;
          x_heap := heapify (map (fun kv => (kv.2, kv.1)) (x_deadlines x)) |}
  else x.

(** [_ExpiryIndex.pop_due]; the loop consumes the heap. *)
Fixpoint pop_due_loop (now : Z) (deadlines : dict thread_address Z)
    (heap : list (Z * thread_address)) : option thread_address * ExpiryIndex :=
  match heap with
  | [] => (None, {| x_deadlines := deadlines; x_heap := [] |})
  | (deadline, key) :: rest =>
      if deadline <=? now
      then if bool_decide (dget deadlines key = Some deadline)
           then (Some key, {| x_deadlines := ddel deadlines key; x_heap := rest |})
           else pop_due_loop now deadlines rest
      else (None, {| x_deadlines := deadlines; x_heap := heap |})
  end.

Definition pop_due (now : Z) (x : ExpiryIndex) : option thread_address * ExpiryIndex :=
  pop_due_loop now (x_deadlines x) (x_heap x).

(** ** The state *)

Record RunRecord : Type := {
  r_identity : RunIdentity;
  r_start_seq : Z;
  r_end_seq : Z;
  r_owner_token : option pystr;
  r_fence : Z;
  r_cancellable : bool;
  r_recoverable : bool;
  r_request_digest : option pystr;
  r_status : RunStatus;
  r_settling : bool;
  r_publication_closed : bool;
  r_publication_ready : bool;
  r_error : option Failure;
  r_checkpoint : option RecoveryCheckpoint
}.

(** run_id, codec, payload, checkpoint *)
Definition message_values : Type :=
  (pystr * pystr * pybytes * option RecoveryCheckpoint)%type.

Record StreamState : Type := {
  s_generation : Z;
  s_disposition : MessagingStreamDisposition;
  s_deleted : bool;
  s_messages : list MessageEnvelope;
  s_by_message_id : dict pystr MessageEnvelope;
  s_signatures : dict pystr message_values;
  s_runs : dict pystr RunRecord;
  s_active_identity : option RunIdentity;
  s_payload_bytes : Z;
  s_retained_bytes : Z;
  s_retained_records : Z;
  s_expires_at_monotonic : option Z;
  s_control_sequence : Z
}.

Record ChannelState : Type := {
  c_channel : pystr;
  c_codec : option pystr;
  c_streams : dict pystr StreamState;
  c_next_generations : dict pystr Z;
  c_tombstones : dict pystr (dict Z MessagingCleanupReason)
}.

Record MemoryBackend : Type := {
  m_channels : dict pystr ChannelState;
  m_total_bytes : Z;
  m_total_records : Z;
  m_expirations : ExpiryIndex;
  m_limits : MessagingLimits;
  m_retention_policy : MessagingRetentionPolicy
}.

(** A task suspended in [condition.wait()] of a stream, with the cursor it knows. *)
Record Waiter : Type := {
  v_task : nat;
  v_channel : pystr;
  v_thread : pystr;
  v_generation : Z;
  v_after : MessagingChangeCursor
}.

Record World : Type := {
  mem : MemoryBackend;
  scratch : ChannelState;
  waiters : list Waiter;
  utc_reads : nat;
  monotonic_reads : nat
}.

Definition new_stream_state (generation : Z) : StreamState :=
  {| s_generation := generation; s_disposition := Active; s_deleted := false;
     s_messages := []; s_by_message_id := []; s_signatures := []; s_runs := [];
     s_active_identity := None; s_payload_bytes := 0; s_retained_bytes := 0;
     s_retained_records := 1; s_expires_at_monotonic := None; s_control_sequence := 0 |}.

Definition new_channel_state (channel : pystr) : ChannelState :=
  {| c_channel := channel; c_codec := None; c_streams := []; c_next_generations := [];
     c_tombstones := [] |}.

(** [MemoryBackend(limits=..., retention_policy=...)] *)
Definition new_backend (limits : MessagingLimits) (policy : MessagingRetentionPolicy)
    : MemoryBackend :=
  {| m_channels := []; m_total_bytes := 0; m_total_records := 0; m_expirations := new_index;
     m_limits := limits; m_retention_policy := policy |}.

Definition new_world (limits : MessagingLimits) (policy : MessagingRetentionPolicy) : World :=
  {| mem := new_backend limits policy; scratch := new_channel_state []; waiters := [];
     utc_reads := 0; monotonic_reads := 0 |}.

Definition messaging_settings (m : MemoryBackend) : MessagingBackendSettings :=
  {| st_limits := m_limits m; st_retention_policy := m_retention_policy m;
     st_producer_renew_interval_seconds := None; st_producer_lease_seconds := None;
     st_change_wait_timeout_seconds := None |}.

(** ** Assignments *)

Definition on_mem (f : MemoryBackend -> MemoryBackend) (w : World) : World :=
  {| mem := f (mem w); scratch := scratch w; waiters := waiters w; utc_reads := utc_reads w;
     monotonic_reads := monotonic_reads w |}.

Definition set_scratch (c : ChannelState) (w : World) : World :=
  {| mem := mem w; scratch := c; waiters := waiters w; utc_reads := utc_reads w;
     monotonic_reads := monotonic_reads w |}.

Definition set_waiters (l : list Waiter) (w : World) : World :=
  {| mem := mem w; scratch := scratch w; waiters := l; utc_reads := utc_reads w;
     monotonic_reads := monotonic_reads w |}.

Definition set_channels (d : dict pystr ChannelState) (m : MemoryBackend) : MemoryBackend :=
  {| m_channels := d; m_total_bytes := m_total_bytes m; m_total_records := m_total_records m;
     m_expirations := m_expirations m; m_limits := m_limits m;
     m_retention_policy := m_retention_policy m |}.

Definition set_expirations (x : ExpiryIndex) (m : MemoryBackend) : MemoryBackend :=
  {| m_channels := m_channels m; m_total_bytes := m_total_bytes m;
     m_total_records := m_total_records m; m_expirations := x; m_limits := m_limits m;
     m_retention_policy := m_retention_policy m |}.

(** [self._total_bytes += bytes; self._total_records += records] *)
Definition charge_total (bytes records : Z) (m : MemoryBackend) : MemoryBackend :=
  {| m_channels := m_channels m; m_total_bytes := m_total_bytes m + bytes;
     m_total_records := m_total_records m + records; m_expirations := m_expirations m;
     m_limits := m_limits m; m_retention_policy := m_retention_policy m |}.

Definition set_codec (codec : option pystr) (c : ChannelState) : ChannelState :=
  {| c_channel := c_channel c; c_codec := codec; c_streams := c_streams c;
     c_next_generations := c_next_generations c; c_tombstones := c_tombstones c |}.

Definition set_streams (d : dict pystr StreamState) (c : ChannelState) : ChannelState :=
  {| c_channel := c_channel c; c_codec := c_codec c; c_streams := d;
     c_next_generations := c_next_generations c; c_tombstones := c_tombstones c |}.

Definition put_stream_in (thread : pystr) (s : StreamState) (c : ChannelState) : ChannelState :=
  set_streams (dset (c_streams c) thread s) c.

(** [state.retained_bytes += bytes; state.retained_records += records] *)
Definition charge_stream (bytes records : Z) (s : StreamState) : StreamState :=
  {| s_generation := s_generation s; s_disposition := s_disposition s; s_deleted := s_deleted s;
     s_messages := s_messages s; s_by_message_id := s_by_message_id s;
     s_signatures := s_signatures s; s_runs := s_runs s;
     s_active_identity := s_active_identity s; s_payload_bytes := s_payload_bytes s;
     s_retained_bytes := s_retained_bytes s + bytes;
     s_retained_records := s_retained_records s + records;
     s_expires_at_monotonic := s_expires_at_monotonic s;
     s_control_sequence := s_control_sequence s |}.

Definition set_runs (d : dict pystr RunRecord) (s : StreamState) : StreamState :=
  {| s_generation := s_generation s; s_disposition := s_disposition s; s_deleted := s_deleted s;
     s_messages := s_messages s; s_by_message_id := s_by_message_id s;
     s_signatures := s_signatures s; s_runs := d;
     s_active_identity := s_active_identity s; s_payload_bytes := s_payload_bytes s;
     s_retained_bytes := s_retained_bytes s; s_retained_records := s_retained_records s;
     s_expires_at_monotonic := s_expires_at_monotonic s;
     s_control_sequence := s_control_sequence s |}.

Definition set_messages (l : list MessageEnvelope) (ids : dict pystr MessageEnvelope)
    (signatures : dict pystr message_values) (s : StreamState) : StreamState :=
  {| s_generation := s_generation s; s_disposition := s_disposition s; s_deleted := s_deleted s;
     s_messages := l; s_by_message_id := ids; s_signatures := signatures; s_runs := s_runs s;
     s_active_identity := s_active_identity s; s_payload_bytes := s_payload_bytes s;
     s_retained_bytes := s_retained_bytes s; s_retained_records := s_retained_records s;
     s_expires_at_monotonic := s_expires_at_monotonic s;
     s_control_sequence := s_control_sequence s |}.

Definition set_expires_at (deadline : option Z) (s : StreamState) : StreamState :=
  {| s_generation := s_generation s; s_disposition := s_disposition s; s_deleted := s_deleted s;
     s_messages := s_messages s; s_by_message_id := s_by_message_id s;
     s_signatures := s_signatures s; s_runs := s_runs s;
     s_active_identity := s_active_identity s; s_payload_bytes := s_payload_bytes s;
     s_retained_bytes := s_retained_bytes s; s_retained_records := s_retained_records s;
     s_expires_at_monotonic := deadline; s_control_sequence := s_control_sequence s |}.

(** The fields of a stream effect that are copied to the stream. *)
Definition copy_stream (e : StoredMessagingStream) (active : option RunIdentity)
    (s : StreamState) : StreamState :=
  {| s_generation := s_generation s; s_disposition := ss_disposition e;
     s_deleted := negb (bool_decide (ss_disposition e = Active));
     s_messages := s_messages s; s_by_message_id := s_by_message_id s;
     s_signatures := s_signatures s; s_runs := s_runs s;
     s_active_identity := active; s_payload_bytes := ss_payload_bytes e;
     s_retained_bytes := s_retained_bytes s; s_retained_records := s_retained_records s;
     s_expires_at_monotonic := s_expires_at_monotonic s;
     s_control_sequence := ss_control_sequence e |}.

(** The record a stored run becomes. *)
Definition run_record (e : StoredMessagingRun) (previous : RunIdentity) : RunRecord :=
  {| r_identity := previous; r_start_seq := sr_start_sequence e; r_end_seq := sr_end_sequence e;
     r_owner_token := sr_producer_token e; r_fence := sr_producer_fence e;
     r_cancellable := sr_cancellable e; r_recoverable := sr_recoverable e;
     r_request_digest := sr_request_digest e; r_status := sr_status e;
     r_settling := sr_settlement_started e; r_publication_closed := sr_publication_closed e;
     r_publication_ready := sr_publication_ready e; r_error := sr_local_failure e;
     r_checkpoint := sr_checkpoint e |}.

(** The channel object an operation on [channel] works with. *)
Definition channel_of (channel : pystr) (w : World) : ChannelState :=
  default (scratch w) (dget (m_channels (mem w)) channel).

Definition put_channel (channel : pystr) (c : ChannelState) (w : World) : World :=
  match dget (m_channels (mem w)) channel with
  | Some _ => on_mem (fun m => set_channels (dset (m_channels m) channel c) m) w
  | None => set_scratch c w
  end.

Definition stream_of (channel thread : pystr) (w : World) : option StreamState :=
  dget (c_streams (channel_of channel w)) thread.

Definition put_stream (channel thread : pystr) (s : StreamState) (w : World) : World :=
  put_channel channel (put_stream_in thread s (channel_of channel w)) w.

Section backend.
Context {sha256 : Sha256} {env : MessagingEnv}.

Abbreviation IO := (M World msg_exn).

Definition thread_key (identity : RunIdentity) : pystr :=
  thread_json (i_namespace identity) (i_thread_id identity).

(** ** Clocks and channels *)

Definition datetime_now : IO Z := fun w =>
  (Ok (utc_now (utc_reads w)),
   {| mem := mem w; scratch := scratch w; waiters := waiters w; utc_reads := S (utc_reads w);
      monotonic_reads := monotonic_reads w |}).

Definition time_monotonic : IO Z := fun w =>
  (Ok (monotonic (monotonic_reads w)),
   {| mem := mem w; scratch := scratch w; waiters := waiters w; utc_reads := utc_reads w;
      monotonic_reads := S (monotonic_reads w) |}).

(** [_channel] *)
Definition channel (name : pystr) : IO unit :=
  let* found := gets (fun w => dget (m_channels (mem w)) name) in
  match found with
  | Some _ => ret tt
  | None => modify (set_scratch (new_channel_state name))
  end.

Definition get_stream (name thread : pystr) : IO (option StreamState) :=
  gets (stream_of name thread).

(** [stream_state.condition.notify_all()] *)
Definition woken_by (name thread : pystr) (generation : Z) (v : Waiter) : bool :=
  bool_decide (v_channel v = name) && bool_decide (v_thread v = thread) &&
  (v_generation v =? generation).

Definition notify_all (name thread : pystr) (generation : Z) : IO unit :=
  modify (fun w => set_waiters
    (List.filter (fun v => negb (woken_by name thread generation v)) (waiters w)) w).

(** ** Tombstones and expiry *)

Definition record_tombstone (thread : pystr) (generation : Z) (reason : MessagingCleanupReason)
    (c : ChannelState) : ChannelState :=
  {| c_channel := c_channel c; c_codec := c_codec c; c_streams := c_streams c;
     c_next_generations := c_next_generations c;
     c_tombstones := dset (c_tombstones c) thread
       (dset (default [] (dget (c_tombstones c) thread)) generation reason) |}.

Definition retired (thread : pystr) (s : StreamState) (reason : MessagingCleanupReason)
    (c : ChannelState) : ChannelState :=
  record_tombstone thread (s_generation s) reason
    {| c_channel := c_channel c; c_codec := c_codec c; c_streams := ddel (c_streams c) thread;
       c_next_generations := dset (c_next_generations c) thread (s_generation s + 1);
       c_tombstones := c_tombstones c |}.

(** [_retire_memory_generation]; the stream object is dropped. *)
Definition retire_memory_generation (name thread : pystr) (s : StreamState)
    (reason : MessagingCleanupReason) : IO unit :=
  do* modify (on_mem (charge_total (- s_retained_bytes s) (- (s_retained_records s - 1)))) in
  do* modify (fun w => put_channel name (retired thread s reason (channel_of name w)) w) in
  modify (fun w => on_mem (fun m =>
    set_expirations (index_set (c_channel (channel_of name w), thread) None (m_expirations m)) m) w).

Definition expire_if_due (name thread : pystr) : IO (option StreamState) :=
  let* state := get_stream name thread in
  match state with
  | None => ret None
  | Some s =>
      match s_expires_at_monotonic s with
      | None => ret (Some s)
      | Some deadline =>
          let* now := time_monotonic in
          if now <? deadline then ret (Some s)
          else
            do* retire_memory_generation name thread s ReasonExpired in
            ret None
      end
  end.

Fixpoint reclaim_loop (turns : nat) (now : Z) : IO unit :=
  match turns with
  | O => ret tt
  | S n =>
      let* due := gets (fun w => pop_due now (m_expirations (mem w))) in
      do* modify (on_mem (set_expirations due.2)) in
      match due.1 with
      | None => ret tt
      | Some (name, thread) =>
          let* found := gets (fun w => dget (m_channels (mem w)) name) in
          do* raise_if (match found with None => true | Some _ => false end) MsgKeyError in
          do* expire_if_due name thread in
          reclaim_loop n now
      end
  end.

Definition reclaim_expired : IO unit :=
  let* now := time_monotonic in
  reclaim_loop 64 now.

(** [max(tombstones)] over the keys *)
Fixpoint max_generation (keys : list Z) : option Z :=
  match keys with
  | [] => None
  | k :: l => Some (match max_generation l with None => k | Some m => Z.max k m end)
  end.

Definition tombstone_reason (c : ChannelState) (thread : pystr) (generation : option Z)
    : option (Z * MessagingCleanupReason) :=
  let tombstones := default [] (dget (c_tombstones c) thread) in
  match generation with
  | Some g => pair g <$> dget tombstones g
  | None => match max_generation (dkeys tombstones) with
            | None => None
            | Some latest => pair latest <$> dget tombstones latest
            end
  end.

Definition tombstone_exn (reason : MessagingCleanupReason) : msg_exn :=
  match reason with ReasonExpired => StreamExpired | ReasonDeleted => StreamDeleted end.

(** What [_raise_memory_generation_unavailable] raises. *)
Definition generation_unavailable (c : option ChannelState) (thread : pystr) (generation : Z)
    : msg_exn :=
  match c ≫= (fun c => tombstone_reason c thread (Some generation)) with
  | Some (_, reason) => tombstone_exn reason
  | None => StreamDeleted
  end.

(** What [_raise_memory_stream_disposition] raises. *)
Definition stream_disposition_exn (d : MessagingStreamDisposition) : msg_exn :=
  match d with Expiring | Expired => StreamExpired | _ => StreamDeleted end.

(** ** Snapshots *)

Definition stored_memory_run (r : RunRecord) (generation : Z) : StoredMessagingRun :=
  {| sr_identity := r_identity r; sr_generation := generation;
     sr_start_sequence := r_start_seq r; sr_end_sequence := r_end_seq r;
     sr_status := r_status r; sr_settlement_started := r_settling r;
     sr_cancellable := r_cancellable r; sr_recoverable := r_recoverable r;
     sr_producer_token := r_owner_token r; sr_producer_fence := r_fence r;
     sr_producer_lease_active :=
       negb (is_final_run_status (r_status r)) && negb (bool_decide (r_owner_token r = None));
     sr_checkpoint := r_checkpoint r;
     sr_failure_class := match r_error r with None => [] | Some f => failure_type f end;
     sr_failure_message := match r_error r with None => [] | Some f => failure_text f end;
     sr_local_failure := r_error r; sr_publication_closed := r_publication_closed r;
     sr_publication_ready := r_publication_ready r; sr_request_digest := r_request_digest r;
     sr_producer_lease_remaining_seconds := None |}.

Definition empty_memory_snapshot : IO MessagingStateSnapshot :=
  let* observed_at := datetime_now in
  ret {| sn_observed_at := observed_at; sn_channel := None; sn_stream := None;
         sn_target_run := None; sn_active_run := None; sn_matching_message := None;
         sn_tombstone_generation := None; sn_tombstone_reason := None |}.

(** [1 + max((record.fence for ...), default=0)] *)
Definition next_fence (runs : dict pystr RunRecord) : Z :=
  1 + default 0 (max_generation (map r_fence (dvals runs))).

(** The active run, unless it is the target. *)
Definition other_active_run (s : StreamState) (run_id : pystr) (include_active_run : bool)
    : option RunRecord :=
  match s_active_identity s with
  | Some active =>
      if include_active_run && negb (bool_decide (i_run_id active = run_id))
      then dget (s_runs s) (i_run_id active) else None
  | None => None
  end.

Definition stored_evidence (s : StreamState) (identity : RunIdentity) (message_id : option pystr)
    : res msg_exn (option StoredMessageEvidence) :=
  match message_id with
  | None => Ok None
  | Some id =>
      match dget (s_by_message_id s) id, dget (s_signatures s) id with
      | Some envelope, Some (run_id, codec_id, payload, checkpoint) =>
          let? signature := messaging_message_signature
            {| i_namespace := i_namespace identity; i_thread_id := i_thread_id identity;
               i_run_id := run_id |} codec_id payload checkpoint in
          Ok (Some {| ev_envelope := envelope; ev_signature := signature;
                      ev_checkpoint := checkpoint |})
      | _, _ => Ok None
      end
  end.

Definition stored_stream (name : pystr) (identity : RunIdentity) (s : StreamState)
    : StoredMessagingStream :=
  {| ss_channel := name; ss_thread_id := i_thread_id identity; ss_generation := s_generation s;
     ss_disposition := s_disposition s; ss_latest_sequence := zlen (s_messages s);
     ss_payload_bytes := s_payload_bytes s; ss_next_producer_fence := next_fence (s_runs s);
     ss_active_run_id := i_run_id <$> s_active_identity s; ss_retention_expired := false;
     ss_message_sequence := zlen (s_messages s); ss_control_sequence := s_control_sequence s |}.

Definition stored_channel (name : pystr) (c : ChannelState) (m : MemoryBackend)
    : option StoredMessagingChannel :=
  (fun codec => {| sc_channel := name; sc_codec_id := codec; sc_limits := m_limits m;
                   sc_retention_policy := m_retention_policy m |}) <$> c_codec c.

(** The stream of a thread, unless another generation is asked for. *)
Definition selected_stream (c : ChannelState) (thread : pystr) (generation : option Z)
    : option StreamState :=
  s ← dget (c_streams c) thread;
  if match generation with Some g => negb (s_generation s =? g) | None => false end
  then None else Some s.

Definition memory_state_snapshot (name : pystr) (identity : RunIdentity) (generation : option Z)
    (message_id : option pystr) (include_active_run : bool) : IO MessagingStateSnapshot :=
  let* c := gets (channel_of name) in
  let* m := gets mem in
  let thread := thread_key identity in
  let tombstone := tombstone_reason c thread generation in
  match selected_stream c thread generation with
  | None =>
      let* observed_at := datetime_now in
      ret {| sn_observed_at := observed_at; sn_channel := stored_channel name c m;
             sn_stream := None; sn_target_run := None; sn_active_run := None;
             sn_matching_message := None; sn_tombstone_generation := fst <$> tombstone;
             sn_tombstone_reason := snd <$> tombstone |}
  | Some s =>
      let* matching := lift (stored_evidence s identity message_id) in
      let* observed_at := datetime_now in
      let stored r := stored_memory_run r (s_generation s) in
      ret {| sn_observed_at := observed_at; sn_channel := stored_channel name c m;
             sn_stream := Some (stored_stream name identity s);
             sn_target_run := stored <$> dget (s_runs s) (i_run_id identity);
             sn_active_run := stored <$> other_active_run s (i_run_id identity) include_active_run;
             sn_matching_message := matching; sn_tombstone_generation := fst <$> tombstone;
             sn_tombstone_reason := snd <$> tombstone |}
  end.

(** ** Applying an effect *)

(** [_effect_capacity], one run: the change of records and of bytes. *)
Definition run_capacity (s : option StreamState) (run : StoredMessagingRun)
    : res msg_exn (Z * Z) :=
  let previous := s ≫= fun s => dget (s_runs s) (i_run_id (sr_identity run)) in
  let? now := checkpoint_bytes (sr_checkpoint run) in
  let? before := checkpoint_bytes (previous ≫= r_checkpoint) in
  Ok (match previous with None => 1 | Some _ => 0 end, now - before).

Fixpoint runs_capacity (s : option StreamState) (runs : list StoredMessagingRun)
    : res msg_exn (Z * Z) :=
  match runs with
  | [] => Ok (0, 0)
  | run :: l =>
      let? a := run_capacity s run in
      let? b := runs_capacity s l in
      Ok (a.1 + b.1, a.2 + b.2)
  end.

Definition known_message (s : option StreamState) (message_id : pystr) : bool :=
  match s with None => false | Some s => dmem (s_by_message_id s) message_id end.

Definition message_capacity (s : option StreamState) (message : option StoredMessageEvidence)
    : res msg_exn (Z * Z) :=
  match message with
  | None => Ok (0, 0)
  | Some e =>
      if known_message s (e_message_id (ev_envelope e)) then Ok (0, 0)
      else
        let? b := checkpoint_bytes (ev_checkpoint e) in
        Ok (1, zlen (e_payload (ev_envelope e)) + b)
  end.

(** Bytes, records, records of the generation. *)
Definition effect_capacity (c : ChannelState) (thread : pystr) (effect : MessagingStorageEffect)
    : res msg_exn (Z * Z * Z) :=
  let s := dget (c_streams c) thread in
  let channel_records :=
    match c_codec c, ef_channel effect with None, Some _ => 1 | _, _ => 0 end in
  let stream_records :=
    match ef_stream effect, s with
    | Some _, None => 1 + (if dmem (c_next_generations c) thread then 0 else 1)
    | _, _ => 0
    end in
  let? runs := runs_capacity s (ef_runs effect) in
  let? message := message_capacity s (ef_message effect) in
  let generation_records := runs.1 + message.1 in
  Ok (runs.2 + message.2, channel_records + stream_records + generation_records,
      generation_records).

(** [channel_state.codec = ...] on first use, which registers the channel. *)
Definition apply_channel (name : pystr) (stored : StoredMessagingChannel) : IO unit :=
  let* c := gets (channel_of name) in
  match c_codec c with
  | None =>
      modify (on_mem (fun m => set_channels
        (dset (m_channels m) (c_channel c) (set_codec (Some (sc_codec_id stored)) c)) m))
  | Some codec => raise_if (negb (bool_decide (codec = sc_codec_id stored))) CodecMismatch
  end.

(** A stream effect of another generation starts a new stream object. *)
Definition open_stream (name thread : pystr) (stream : option StoredMessagingStream) : IO unit :=
  match stream with
  | None => ret tt
  | Some e =>
      let* s := get_stream name thread in
      when (match s with None => true | Some s => negb (s_generation s =? ss_generation e) end)
        (modify (put_stream name thread (new_stream_state (ss_generation e))))
  end.

Definition update_stream (name thread : pystr) (f : StreamState -> StreamState) : IO unit :=
  let* s := get_stream name thread in
  match s with
  | None => ret tt
  | Some s => modify (put_stream name thread (f s))
  end.

Definition apply_stream (name thread : pystr) (identity : RunIdentity)
    (stream : option StoredMessagingStream) : IO unit :=
  match stream with
  | None => ret tt
  | Some e =>
      let active := (fun run_id => {| i_namespace := i_namespace identity;
                                      i_thread_id := i_thread_id identity;
                                      i_run_id := run_id |}) <$> ss_active_run_id e in
      update_stream name thread (copy_stream e active)
  end.

Definition apply_run (run : StoredMessagingRun) (s : StreamState) : StreamState :=
  let run_id := i_run_id (sr_identity run) in
  let identity := match dget (s_runs s) run_id with
                  | Some previous => r_identity previous
                  | None => sr_identity run
                  end in
  set_runs (dset (s_runs s) run_id (run_record run identity)) s.

Definition apply_runs (runs : list StoredMessagingRun) (s : StreamState) : StreamState :=
  fold_left (fun s run => apply_run run s) runs s.

Definition apply_message (e : StoredMessageEvidence) (s : StreamState) : StreamState :=
  let envelope := ev_envelope e in
  let id := e_message_id envelope in
  if dmem (s_by_message_id s) id then s
  else set_messages (s_messages s ++ [envelope]) (dset (s_by_message_id s) id envelope)
         (dset (s_signatures s) id
            (i_run_id (e_identity envelope), e_codec envelope, e_payload envelope,
             ev_checkpoint e)) s.

Definition is_nil {A} (l : list A) : bool := match l with [] => true | _ => false end.

(** The effect needs a stream that does not exist. *)
Definition require_stream (name thread : pystr) (needed : bool) : IO unit :=
  let* s := get_stream name thread in
  raise_if (needed && match s with None => true | Some _ => false end) MsgRuntimeError.

Definition apply_retention (name thread : pystr) (action : MessagingRetentionAction) : IO unit :=
  let* s := get_stream name thread in
  match s with
  | None => ret tt
  | Some _ =>
      do* match action with
          | RetentionClear => update_stream name thread (set_expires_at None)
          | RetentionStart =>
              let* m := gets mem in
              match terminal_ttl_seconds (m_retention_policy m) with
              | None => update_stream name thread (set_expires_at None)
              | Some ttl =>
                  let* now := time_monotonic in
                  update_stream name thread (set_expires_at (Some (now + ttl)))
              end
          | RetentionNone => ret tt
          end in
      when (negb (bool_decide (action = RetentionNone)))
        (modify (fun w => on_mem (fun m =>
           set_expirations (index_set (c_channel (channel_of name w), thread)
             (stream_of name thread w ≫= s_expires_at_monotonic) (m_expirations m)) m) w))
  end.

Definition apply_tombstone (name thread : pystr) (reason : option MessagingCleanupReason)
    : IO unit :=
  match reason with
  | None => ret tt
  | Some r =>
      let* s := get_stream name thread in
      match s with
      | None => raise MsgRuntimeError
      | Some s => retire_memory_generation name thread s r
      end
  end.

(** [_apply_memory_effect] *)
Definition apply_memory_effect (name : pystr) (identity : RunIdentity)
    (effect : MessagingStorageEffect) : IO unit :=
  let thread := thread_key identity in
  let* c := gets (channel_of name) in
  let* m := gets mem in
  let* capacity := lift (effect_capacity c thread effect) in
  let '(bytes, records, generation_records) := capacity in
  do* raise_if (max_total_bytes (m_limits m) <? m_total_bytes m + bytes) MessagingQuotaExceeded in
  do* raise_if (max_total_records (m_limits m) <? m_total_records m + records)
        MessagingQuotaExceeded in
  do* match ef_channel effect with
      | Some stored => apply_channel name stored
      | None => ret tt
      end in
  do* open_stream name thread (ef_stream effect) in
  do* modify (on_mem (charge_total bytes records)) in
  do* update_stream name thread (charge_stream bytes generation_records) in
  do* apply_stream name thread identity (ef_stream effect) in
  do* require_stream name thread (negb (is_nil (ef_runs effect))) in
  do* update_stream name thread (apply_runs (ef_runs effect)) in
  do* match ef_message effect with
      | None => ret tt
      | Some e =>
          do* require_stream name thread true in
          update_stream name thread (apply_message e)
      end in
  do* apply_retention name thread (ef_retention_action effect) in
  apply_tombstone name thread (ef_tombstone_reason effect).

(** ** Transitions *)

Definition selected_generation (t : MessagingTransition) : option Z :=
  if bool_decide (tr_kind t = FinishGenerationCleanup) then tr_cleanup_generation t
  else reference_generation t.

Definition reclaims (kind : MessagingTransitionKind) : bool :=
  match kind with PrepareRun | AppendMessage | PublishMessage => true | _ => false end.

(** [commit_messaging_transition] *)
Definition commit_messaging_transition (t : MessagingTransition) : IO MessagingTransitionResult :=
  do* (if reclaims (tr_kind t) then reclaim_expired else ret tt) in
  let name := tr_channel t in
  let thread := thread_key (tr_identity t) in
  do* channel name in
  let* s := expire_if_due name thread in
  let* snapshot := memory_state_snapshot name (tr_identity t) (selected_generation t)
                     (tr_message_id t) true in
  let* effect := lift (resolve_messaging_transition t snapshot) in
  do* apply_memory_effect name (tr_identity t) effect in
  do* match s with
      | None => ret tt
      | Some s => notify_all name thread (s_generation s)
      end in
  ret (ef_result effect).

(** ** Reading *)

(** [load_messaging_state] *)
Definition load_messaging_state (q : MessagingStateQuery) : IO MessagingStateSnapshot :=
  do* lift (required_identifier (sq_channel q)) in
  do* lift (required_identity (sq_identity q)) in
  let* found := gets (fun w => dget (m_channels (mem w)) (sq_channel q)) in
  match found with
  | None => empty_memory_snapshot
  | Some _ =>
      do* expire_if_due (sq_channel q) (thread_key (sq_identity q)) in
      memory_state_snapshot (sq_channel q) (sq_identity q) (sq_generation q) (sq_message_id q)
        (sq_include_active_run q)
  end.

(** The last sequence a page may hold. *)
Definition page_end (q : CommittedMessageQuery) (latest : Z) (run : option RunRecord) : Z :=
  let through := match q_through_sequence q with
                 | None => latest
                 | Some t => Z.min t latest
                 end in
  let through := match run with
                 | Some r => if q_stop_at_run_terminal q && is_final_run_status (r_status r)
                             then Z.min through (r_end_seq r) else through
                 | None => through
                 end in
  Z.min through (q_after_sequence q + q_limit q).

(** [read_committed_messages] *)
Definition read_committed_messages (q : CommittedMessageQuery) : IO CommittedMessagePage :=
  do* raise_if (q_after_sequence q <? 0) MsgValueError in
  do* raise_if (negb ((1 <=? q_limit q) && (q_limit q <=? 1000))) MsgValueError in
  let name := q_channel q in
  let thread := thread_key (q_identity q) in
  let unavailable :=
    let* c := gets (fun w => dget (m_channels (mem w)) name) in
    raise (generation_unavailable c thread (q_generation q)) in
  let* found := gets (fun w => dget (m_channels (mem w)) name) in
  match found with
  | None => unavailable
  | Some _ =>
      let* state := expire_if_due name thread in
      match state with
      | None => unavailable
      | Some s =>
          if negb (s_generation s =? q_generation q) then unavailable
          else
            do* raise_if (negb (bool_decide (s_disposition s = Active)))
                  (stream_disposition_exn (s_disposition s)) in
            let latest := zlen (s_messages s) in
            do* raise_if (latest <? q_after_sequence q) InvalidCursor in
            let run := dget (s_runs s) (i_run_id (q_identity q)) in
            ret {| p_generation := s_generation s; p_latest_sequence := latest;
                   p_messages := py_slice (s_messages s) (q_after_sequence q)
                                   (page_end q latest run);
                   p_change_cursor := {| cc_message_sequence := latest;
                                         cc_control_sequence := s_control_sequence s |};
                   p_run_state := (fun r => stored_memory_run r (s_generation s)) <$> run |}
      end
  end.

(** ** Waiting *)

Definition change_cursor (s : StreamState) : MessagingChangeCursor :=
  {| cc_message_sequence := zlen (s_messages s); cc_control_sequence := s_control_sequence s |}.

(** [wait_for_messaging_change]: [true] when it returns at once, [false] when the
    task is suspended in [condition.wait()]. *)
Definition wait_for_messaging_change (task : nat) (w : MessagingChangeWait) : IO bool :=
  let name := w_channel w in
  let thread := thread_key (w_identity w) in
  let unavailable :=
    let* c := gets (fun w => dget (m_channels (mem w)) name) in
    raise (generation_unavailable c thread (w_generation w)) in
  let* found := gets (fun w => dget (m_channels (mem w)) name) in
  match found with
  | None => unavailable
  | Some _ =>
      let* state := expire_if_due name thread in
      match state with
      | None => unavailable
      | Some s =>
          if negb (s_generation s =? w_generation w) then unavailable
          else
            do* raise_if (negb (bool_decide (s_disposition s = Active)))
                  (stream_disposition_exn (s_disposition s)) in
            if negb (bool_decide (change_cursor s = w_after w)) then ret true
            else
              do* modify (fun w0 => set_waiters (waiters w0 ++
                [{| v_task := task; v_channel := name; v_thread := thread;
                    v_generation := s_generation s; v_after := w_after w |}]) w0) in
              ret false
      end
  end.

(** The timeout of a suspended wait, or its cancellation. *)
Definition stop_waiting (task : nat) : IO unit :=
  modify (fun w => set_waiters
    (List.filter (fun v => negb (bool_decide (v_task v = task))) (waiters w)) w).

(** ** Physical cleanup *)

(** [_release_memory_records] *)
Definition release_memory_records (name thread : pystr) (released_bytes records : Z) : IO unit :=
  do* modify (on_mem (charge_total (- released_bytes) (- records))) in
  update_stream name thread (charge_stream (- released_bytes) (- records)).

(** The last message leaves the stream. *)
Definition pop_message (name thread : pystr) (s : StreamState) (rest : list MessageEnvelope)
    (message : MessageEnvelope) : IO unit :=
  let id := e_message_id message in
  let checkpoint := match dget (s_signatures s) id with
                    | Some (_, _, _, checkpoint) => checkpoint
                    | None => None
                    end in
  do* modify (put_stream name thread
        (set_messages rest (ddel (s_by_message_id s) id) (ddel (s_signatures s) id) s)) in
  let* bytes := lift (checkpoint_bytes checkpoint) in
  release_memory_records name thread (zlen (e_payload message) + bytes) 1.

(** The loop over the messages, last first; [turns] is their number. *)
Fixpoint purge_messages (turns : nat) (name thread : pystr) (maximum removed : Z) : IO Z :=
  match turns with
  | O => ret removed
  | S n =>
      let* state := get_stream name thread in
      match state with
      | None => ret removed
      | Some s =>
          match rev (s_messages s) with
          | [] => ret removed
          | message :: rest =>
              if removed <? maximum
              then
                do* pop_message name thread s (rev rest) message in
                purge_messages n name thread maximum (removed + 1)
              else ret removed
          end
      end
  end.

Fixpoint purge_runs (turns : nat) (name thread : pystr) (maximum removed : Z) : IO Z :=
  match turns with
  | O => ret removed
  | S n =>
      let* state := get_stream name thread in
      match state with
      | None => ret removed
      | Some s =>
          match s_runs s with
          | [] => ret removed
          | (run_id, run) :: _ =>
              if removed <? maximum
              then
                do* modify (put_stream name thread (set_runs (ddel (s_runs s) run_id) s)) in
                let* bytes := lift (checkpoint_bytes (r_checkpoint run)) in
                do* release_memory_records name thread bytes 1 in
                purge_runs n name thread maximum (removed + 1)
              else ret removed
          end
      end
  end.

(** [purge_stream_generation] *)
Definition purge_stream_generation (g : StreamGenerationPurge) : IO StreamGenerationPurgeResult :=
  let name := g_channel g in
  let thread := thread_key (g_identity g) in
  let nothing := ret {| removed_records := 0; complete := true |} in
  do* raise_if (g_maximum_records g <? 1) MsgValueError in
  let* found := gets (fun w => dget (m_channels (mem w)) name) in
  match found with
  | None => nothing
  | Some _ =>
      let* state := get_stream name thread in
      match state with
      | None => nothing
      | Some s =>
          if negb (s_generation s =? g_generation g) then nothing
          else
            do* raise_if (negb (bool_decide (s_disposition s = Deleting)) &&
                          negb (bool_decide (s_disposition s = Expiring)))
                  StreamDeleteConflict in
            let* removed := purge_messages (List.length (s_messages s)) name thread
                              (g_maximum_records g) 0 in
            let* removed := purge_runs (List.length (s_runs s)) name thread
                              (g_maximum_records g) removed in
            let* after := get_stream name thread in
            ret {| removed_records := removed;
                   complete := match after with
                               | None => true
                               | Some s => is_nil (s_messages s) && is_nil (s_runs s)
                               end |}
      end
  end.
End backend.
