(* ===== verification/MsgInvariant.v ===== *)
(** Messaging: the invariant of MemoryBackend.  A committed log is numbered without
    gaps, a stream has at most one open run and knows it, every retired generation
    has its tombstone, deadlines are indexed, and the capacity counters count
    exactly what is stored. *)
From S2P Require Import Prelude PyDict PySeq Contracts MsgModels MsgTransition MsgMemory.

(** Thread identities are told apart by their JSON. *)
Class ThreadKeys {env : MessagingEnv} : Prop :=
  thread_json_inj : forall a b c d, thread_json a b = thread_json c d -> a = c /\ b = d.

(** [time.monotonic()] does not go back. *)
Class MonotonicClock {env : MessagingEnv} : Prop :=
  monotonic_le : forall i j, (i <= j)%nat -> monotonic i <= monotonic j.

(** The bytes a checkpoint is charged. *)
Definition cp_bytes (k : option RecoveryCheckpoint) : Z :=
  match checkpoint_bytes k with Ok n => n | Raise _ => 0 end.

Definition cp_ok (k : option RecoveryCheckpoint) : Prop := checkpoint_bytes k = Ok (cp_bytes k).

Section invariant.
Context {sha256 : Sha256} {env : MessagingEnv}.

(** ** Streams *)

Definition stored_checkpoint (s : StreamState) (e : MessageEnvelope)
    : option RecoveryCheckpoint :=
  match dget (s_signatures s) (e_message_id e) with
  | Some (_, _, _, k) => k
  | None => None
  end.

Definition message_bytes (s : StreamState) (e : MessageEnvelope) : Z :=
  zlen (e_payload e) + cp_bytes (stored_checkpoint s e).

Definition run_bytes (r : RunRecord) : Z := cp_bytes (r_checkpoint r).

(** A run is its key's, and it is open exactly when it is the active one. *)
Record run_ok (thread : pystr) (s : StreamState) (id : pystr) (r : RunRecord) : Prop := {
  ro_id : i_run_id (r_identity r) = id;
  ro_thread : thread_key (r_identity r) = thread;
  ro_fence : 1 <= r_fence r;
  ro_checkpoint : cp_ok (r_checkpoint r);
  ro_final : is_final_run_status (r_status r) = true -> r_owner_token r = None;
  ro_open : is_final_run_status (r_status r) = false ->
    is_Some (r_owner_token r) /\ s_active_identity s = Some (r_identity r);
  ro_range : s_disposition s = Active -> 0 <= r_start_seq r <= r_end_seq r /\
    r_end_seq r <= zlen (s_messages s)
}.

(** The evidence kept for a message is the message's own, and signs again. *)
Definition evidence_ok (s : StreamState) (e : MessageEnvelope) : Prop :=
  exists k sg, dget (s_signatures s) (e_message_id e) =
      Some (i_run_id (e_identity e), e_codec e, e_payload e, k) /\ cp_ok k /\
    messaging_message_signature (e_identity e) (e_codec e) (e_payload e) k = Ok sg.

Record stream_ok (thread : pystr) (s : StreamState) : Prop := {
  so_generation : 1 <= s_generation s;
  so_disposition : s_disposition s = Active \/ s_disposition s = Deleting;
  so_wf : dwf (s_runs s) /\ dwf (s_by_message_id s) /\ dwf (s_signatures s);
  so_numbered : forall i e, s_messages s !! i = Some e -> e_seq e = Z.of_nat i + 1;
  so_thread : forall e, e ∈ s_messages s -> thread_key (e_identity e) = thread;
  so_distinct : NoDup (map e_message_id (s_messages s));
  so_by_id : forall id e, dget (s_by_message_id s) id = Some e <->
    e ∈ s_messages s /\ e_message_id e = id;
  so_evidence : forall e, e ∈ s_messages s -> evidence_ok s e;
  so_signed : forall id, is_Some (dget (s_signatures s) id) -> is_Some (dget (s_by_message_id s) id);
  so_runs : forall id r, dget (s_runs s) id = Some r -> run_ok thread s id r;
  so_fences : forall id1 id2 r1 r2, dget (s_runs s) id1 = Some r1 ->
    dget (s_runs s) id2 = Some r2 -> r_fence r1 = r_fence r2 -> id1 = id2;
  so_active : forall a, s_active_identity s = Some a -> exists r,
    dget (s_runs s) (i_run_id a) = Some r /\ is_final_run_status (r_status r) = false;
  so_sealed : s_disposition s <> Active ->
    s_active_identity s = None /\ s_expires_at_monotonic s = None;
  so_expiring : is_Some (s_expires_at_monotonic s) -> s_active_identity s = None;
  so_payload : s_disposition s = Active ->
    s_payload_bytes s = zsum (fun e => zlen (e_payload e)) (s_messages s);
  so_bytes : s_retained_bytes s =
    zsum (message_bytes s) (s_messages s) + dsum run_bytes (s_runs s);
  so_records : s_retained_records s = 1 + zlen (s_messages s) + zlen (s_runs s)
}.

(** ** Channels *)

(** The generation a thread has or will have next. *)
Definition current_generation (c : ChannelState) (thread : pystr) : Z :=
  default 1 (dget (c_next_generations c) thread).

Definition tombstones_of (c : ChannelState) (thread : pystr) : dict Z MessagingCleanupReason :=
  default [] (dget (c_tombstones c) thread).

Definition channel_bytes (c : ChannelState) : Z := dsum s_retained_bytes (c_streams c).

Definition tombstone_records (d : dict Z MessagingCleanupReason) : Z := zlen d.

(** Its own record, the threads known, live generations with their records, and
    tombstones. *)
Definition channel_records (c : ChannelState) : Z :=
  1 + zlen (c_next_generations c) +
  esum (fun thread s => s_retained_records s +
          (if dmem (c_next_generations c) thread then 0 else 1)) (c_streams c) +
  dsum tombstone_records (c_tombstones c).

Record channel_ok (name : pystr) (c : ChannelState) : Prop := {
  co_name : c_channel c = name;
  co_wf : dwf (c_streams c) /\ dwf (c_next_generations c) /\ dwf (c_tombstones c);
  co_next : forall thread n, dget (c_next_generations c) thread = Some n -> 1 < n;
  co_stream : forall thread s, dget (c_streams c) thread = Some s ->
    stream_ok thread s /\ s_generation s = current_generation c thread;
  co_tombstones : forall thread g, is_Some (dget (tombstones_of c thread) g) <->
    1 <= g < current_generation c thread
}.

(** ** Deadlines *)

Definition expiry_of (channels : dict pystr ChannelState) (key : thread_address) : option Z :=
  dget channels key.1 ≫= fun c => dget (c_streams c) key.2 ≫= s_expires_at_monotonic.

(** The index holds the deadlines [E], each with a heap entry. *)
Record indexed (E : thread_address -> option Z) (x : ExpiryIndex) : Prop := {
  io_wf : dwf (x_deadlines x);
  io_exact : forall key, dget (x_deadlines x) key = E key;
  io_entries : forall key d, dget (x_deadlines x) key = Some d -> (d, key) ∈ x_heap x
}.

(** The heap stays small, as its class promises. *)
Definition compact (x : ExpiryIndex) : Prop :=
  zlen (x_heap x) <= 2 * zlen (x_deadlines x) + 64.

Definition index_ok (E : thread_address -> option Z) (x : ExpiryIndex) : Prop :=
  indexed E x /\ compact x.

(** ** The backend *)

Definition total_bytes (channels : dict pystr ChannelState) : Z := dsum channel_bytes channels.
Definition total_records (channels : dict pystr ChannelState) : Z := dsum channel_records channels.

Record mem_ok (m : MemoryBackend) : Prop := {
  mo_wf : dwf (m_channels m);
  mo_channel : forall name c, dget (m_channels m) name = Some c ->
    channel_ok name c /\ is_Some (c_codec c);
  mo_bytes : m_total_bytes m = total_bytes (m_channels m);
  mo_records : m_total_records m = total_records (m_channels m);
  mo_limits : m_total_bytes m <= max_total_bytes (m_limits m) /\
    m_total_records m <= max_total_records (m_limits m)
}.

Definition winv (w : World) : Prop :=
  mem_ok (mem w) /\ index_ok (expiry_of (m_channels (mem w))) (m_expirations (mem w)).

(** ** Evolution *)

(** What a run keeps: its identity, start, fence and binding; a terminal run keeps
    everything, and an owner is replaced by none. *)
Record run_follows (r r' : RunRecord) : Prop := {
  fo_identity : r_identity r' = r_identity r;
  fo_start : r_start_seq r' = r_start_seq r;
  fo_fence : r_fence r' = r_fence r;
  fo_digest : r_request_digest r' = r_request_digest r;
  fo_end : r_end_seq r <= r_end_seq r';
  fo_token : r_owner_token r' = r_owner_token r \/ r_owner_token r' = None;
  fo_settling : r_settling r = true -> r_settling r' = true;
  fo_closed : r_publication_closed r = true -> r_publication_closed r' = true;
  fo_final : is_final_run_status (r_status r) = true -> r' = r
}.

(** What a generation keeps while it is readable: its log grows at the end, its runs
    stay, fences are not reused.  Sealing is final, and a sealed generation gains no
    record. *)
Record stream_follows (s s' : StreamState) : Prop := {
  sf_generation : s_generation s' = s_generation s;
  sf_disposition : s_disposition s' = Active -> s_disposition s = Active;
  sf_messages : s_disposition s' = Active -> s_messages s `prefix_of` s_messages s';
  sf_signatures : s_disposition s' = Active -> forall id v,
    dget (s_signatures s) id = Some v -> dget (s_signatures s') id = Some v;
  sf_runs : s_disposition s' = Active -> forall id r, dget (s_runs s) id = Some r ->
    exists r', dget (s_runs s') id = Some r' /\ run_follows r r';
  sf_new : s_disposition s' = Active -> forall id r', dget (s_runs s') id = Some r' ->
    dget (s_runs s) id = None ->
    forall id0 r0, dget (s_runs s) id0 = Some r0 -> r_fence r0 < r_fence r';
  sf_records : s_disposition s <> Active ->
    zlen (s_messages s') + zlen (s_runs s') <= zlen (s_messages s) + zlen (s_runs s)
}.

(** The registered stream of a thread, and the generation the thread has reached. *)
Definition live (w : World) (name thread : pystr) : option StreamState :=
  dget (m_channels (mem w)) name ≫= fun c => dget (c_streams c) thread.

Definition generation_of (w : World) (name thread : pystr) : Z :=
  match dget (m_channels (mem w)) name with
  | Some c => current_generation c thread
  | None => 1
  end.

Definition tombstone_of (w : World) (name thread : pystr) (g : Z)
    : option MessagingCleanupReason :=
  dget (m_channels (mem w)) name ≫= fun c => dget (tombstones_of c thread) g.

(** What every operation keeps: a generation is followed or left behind for good. *)
Record follows (w w' : World) : Prop := {
  fw_settings : messaging_settings (mem w') = messaging_settings (mem w);
  fw_codec : forall name c, dget (m_channels (mem w)) name = Some c ->
    exists c', dget (m_channels (mem w')) name = Some c' /\ c_codec c' = c_codec c;
  fw_generation : forall name thread, generation_of w name thread <= generation_of w' name thread;
  fw_stream : forall name thread s, live w name thread = Some s ->
    (exists s', live w' name thread = Some s' /\ stream_follows s s') \/
    s_generation s < generation_of w' name thread;
  fw_tombstone : forall name thread g r, tombstone_of w name thread g = Some r ->
    tombstone_of w' name thread g = Some r;
  fw_clock : (monotonic_reads w <= monotonic_reads w')%nat
}.

(** What reclaiming does: streams stay, or their deadline had passed and they are
    gone with a tombstone. *)
Definition thinned (w w' : World) : Prop := forall name thread,
  live w' name thread = live w name thread \/
  live w' name thread = None /\ exists s d k,
    live w name thread = Some s /\ s_expires_at_monotonic s = Some d /\
    (k < monotonic_reads w')%nat /\ d <= monotonic k /\
    tombstone_of w' name thread (s_generation s) = Some ReasonExpired.

(** ** Orders *)

Lemma run_follows_refl r : run_follows r r.
Proof. split; auto; lia. Qed.

Lemma run_follows_trans r1 r2 r3 : run_follows r1 r2 -> run_follows r2 r3 -> run_follows r1 r3.
Proof.
  intros [] []. split; try congruence; auto; try lia.
  - destruct fo_token0 as [Ht1|Ht1], fo_token1 as [Ht2|Ht2]; rewrite Ht2; auto.
  - intros H. specialize (fo_final0 H). subst r2. auto.
Qed.

Lemma stream_follows_refl s : stream_follows s s.
Proof.
  split; auto.
  - intros _ id r H. exists r. split; [done|apply run_follows_refl].
  - intros _ id r' H1 H2. congruence.
  - lia.
Qed.

Lemma stream_follows_trans s1 s2 s3 :
  stream_follows s1 s2 -> stream_follows s2 s3 -> stream_follows s1 s3.
Proof.
  intros [G1 D1 M1 S1 R1 N1 Z1] [G2 D2 M2 S2 R2 N2 Z2]. split; [congruence|auto| | | | |].
  - intros H. etrans; [by apply M1, D2|by apply M2].
  - intros H id v Hv. by apply S2, S1; [|apply D2|].
  - intros H id r Hr. destruct (R1 (D2 H) id r Hr) as (r1 & Hr1 & F1).
    destruct (R2 H id r1 Hr1) as (r2 & Hr2 & F2). exists r2. split; [done|by eapply run_follows_trans].
  - intros H id r' Hr' Hn id0 r0 H0.
    destruct (R1 (D2 H) id0 r0 H0) as (r1 & Hr1 & F1).
    destruct (dget (s_runs s2) id) as [r2|] eqn:E2.
    + destruct (R2 H id r2 E2) as (r3 & Hr3 & F3). simplify_eq.
      rewrite (fo_fence _ _ F3). by eapply N1; eauto.
    + rewrite <-(fo_fence _ _ F1). by eapply N2.
  - intros H. etrans; [apply Z2|by apply Z1]. auto.
Qed.

Lemma follows_same_channels w w' :
  m_channels (mem w') = m_channels (mem w) ->
  messaging_settings (mem w') = messaging_settings (mem w) ->
  (monotonic_reads w <= monotonic_reads w')%nat -> follows w w'.
Proof.
  intros Hm Hs Hc.
  split; unfold live, generation_of, tombstone_of; rewrite ?Hm; auto; try lia.
  - intros name c H. by exists c.
  - intros name thread s H. left. exists s. split; [done|apply stream_follows_refl].
Qed.

Lemma follows_same_mem w w' :
  mem w' = mem w -> (monotonic_reads w <= monotonic_reads w')%nat -> follows w w'.
Proof. intros Hm Hc. apply follows_same_channels; by rewrite ?Hm. Qed.

Lemma msg_follows_refl w : follows w w.
Proof. by apply follows_same_mem. Qed.

Lemma msg_follows_trans w1 w2 w3 : follows w1 w2 -> follows w2 w3 -> follows w1 w3.
Proof.
  intros [S1 C1 G1 L1 T1 K1] [S2 C2 G2 L2 T2 K2]. split; [congruence| | | |auto|lia].
  - intros name c H. destruct (C1 name c H) as (c1 & H1 & E1).
    destruct (C2 name c1 H1) as (c2 & H2 & E2). exists c2. split; congruence.
  - intros name thread. etrans; [apply G1|apply G2].
  - intros name thread s H. destruct (L1 name thread s H) as [(s1 & H1 & F1)|H1].
    + destruct (L2 name thread s1 H1) as [(s2 & H2 & F2)|H2].
      * left. exists s2. split; [done|by eapply stream_follows_trans].
      * right. by rewrite <-(sf_generation _ _ F1).
    + right. specialize (G2 name thread). lia.
Qed.

Lemma thinned_same w w' : m_channels (mem w') = m_channels (mem w) -> thinned w w'.
Proof. intros H name thread. left. unfold live. by rewrite H. Qed.

Lemma thinned_trans w1 w2 w3 : follows w2 w3 -> thinned w1 w2 -> thinned w2 w3 -> thinned w1 w3.
Proof.
  intros Hf H1 H2 name thread.
  destruct (H2 name thread) as [E2|(E2 & s & d & k & Hs & Hd & Hk & Hle & Ht)].
  - rewrite E2. destruct (H1 name thread) as [E1|(E1 & s & d & k & Hs & Hd & Hk & Hle & Ht)]; [by left|].
    right. split; [done|]. exists s, d, k. split_and!; try done.
    + pose proof (fw_clock _ _ Hf). lia.
    + by apply (fw_tombstone _ _ Hf).
  - right. split; [done|]. exists s, d, k. split_and!; try done.
    destruct (H1 name thread) as [E1|(E1 & _)]; congruence.
Qed.
End invariant.
