(* ===== verification/MsgWorld.v ===== *)
(** Messaging: the shape of the worlds an operation on one channel goes through, the
    expiry index, and what retiring a generation and reclaiming expired ones do. *)
From S2P Require Import Prelude PyDict PySeq MsgModels MsgTransition MsgMemory MsgInvariant.
From S2P Require Import Contracts.

(** [w] with the channel [name] replaced, other counters, another index, and the
    monotonic clock read on. *)
Definition nf (w : World) (name : pystr) (c : ChannelState) (b r : Z) (x : ExpiryIndex)
    (mr : nat) : World :=
  {| mem := {| m_channels := dset (m_channels (mem w)) name c; m_total_bytes := b;
               m_total_records := r; m_expirations := x; m_limits := m_limits (mem w);
               m_retention_policy := m_retention_policy (mem w) |};
     scratch := scratch w; waiters := waiters w; utc_reads := utc_reads w;
     monotonic_reads := mr |}.

(** A change of one key of a function on threads. *)
Definition reset (key : thread_address) (d : option Z) (E : thread_address -> option Z)
    : thread_address -> option Z :=
  fun k => if decide (k = key) then d else E k.

Section world.
Context {sha256 : Sha256} {env : MessagingEnv}.
Implicit Types (w : World) (c : ChannelState) (s : StreamState) (x : ExpiryIndex)
  (E : thread_address -> option Z) (name thread : pystr).

(** ** The expiry index *)

Lemma elem_of_heappush e e' heap : e ∈ heappush e' heap <-> e = e' \/ e ∈ heap.
Proof. unfold heappush. rewrite insert_by_perm. apply elem_of_cons. Qed.

Lemma zlen_heappush e heap : zlen (heappush e heap) = zlen heap + 1.
Proof. unfold zlen, heappush. rewrite insert_by_perm. simpl. lia. Qed.

Lemma compacted_ok E (x : ExpiryIndex) :
  indexed E x ->
  index_ok E (if 2 * zlen (x_deadlines x) + 64 <? zlen (x_heap x)
              then {| x_deadlines := x_deadlines x;
                      x_heap := heapify (map (fun kv => (kv.2, kv.1)) (x_deadlines x)) |}
              else x).
Proof.
  intros [H1 H2 H3]. destruct (_ <? _) eqn:Hs; bool_prop; split; try done.
  - split; simpl; [done|done|]. intros key d Hk. unfold heapify. apply elem_of_sorted_by.
    apply list_elem_of_fmap. exists (key, d). split; [done|]. by apply dget_elem_of.
  - unfold compact, heapify, zlen. simpl. rewrite length_sorted_by, length_map.
    fold (zlen (x_deadlines x)). pose proof (zlen_nonneg (x_deadlines x)). lia.
Qed.

Lemma index_set_ok E x key d : indexed E x -> index_ok (reset key d E) (index_set key d x).
Proof.
  intros [H1 H2 H3]. unfold index_set. apply compacted_ok. unfold reset.
  destruct d as [d|]; split; simpl; auto with py.
  - intros k. rewrite dget_dset, <-H2. destruct (decide (k = key)) as [->|]; [by rewrite decide_True|].
    by rewrite decide_False by congruence.
  - intros k d'. rewrite dget_dset, elem_of_heappush. destruct (decide (key = k)); [naive_solver|].
    intros Hk. right. by apply H3.
  - intros k. rewrite dget_ddel, <-H2. destruct (decide (k = key)) as [->|]; [by rewrite decide_True|].
    by rewrite decide_False by congruence.
  - intros k d'. rewrite dget_ddel. destruct (decide (key = k)); [done|]. apply H3.
Qed.

Lemma indexed_ext E E' x : (forall k, E k = E' k) -> indexed E x -> indexed E' x.
Proof. intros H [H1 H2 H3]. split; [done| |done]. intros k. by rewrite H2. Qed.

Lemma index_ok_ext E E' x : (forall k, E k = E' k) -> index_ok E x -> index_ok E' x.
Proof. intros H [H1 H2]. split; [by eapply indexed_ext|done]. Qed.

(** A due key leaves the index; the entries dropped on the way are stale. *)
Lemma pop_due_ok E x now r x' :
  index_ok E x -> pop_due now x = (r, x') ->
  match r with
  | None => index_ok E x'
  | Some key => (exists d, E key = Some d /\ d <= now) /\ indexed (reset key None E) x'
  end.
Proof.
  destruct x as [dl heap]. unfold pop_due. simpl.
  intros [[H1 H2 H3] Hsize]. unfold compact in Hsize. simpl in *.
  revert H3 Hsize. induction heap as [|[d key] heap IH]; intros H3 Hsize; simpl.
  - intros [= <- <-]. split; [split; simpl; auto|done].
  - destruct (d <=? now) eqn:Hd; bool_prop.
    + case_bool_decide as Hk.
      * intros [= <- <-]. split; [exists d; by rewrite <-H2|].
        unfold reset. split; simpl; auto with py.
        -- intros k. rewrite dget_ddel, H2. destruct (decide (k = key)) as [->|].
           ++ by rewrite decide_True.
           ++ by rewrite decide_False by congruence.
        -- intros k d'. rewrite dget_ddel. destruct (decide (key = k)); [done|].
           intros Hk'. apply H3 in Hk'. set_solver.
      * apply IH.
        -- intros k d' Hk'. pose proof (H3 k d' Hk') as [?|?]%elem_of_cons; [|done].
           simplify_eq.
        -- rewrite zlen_cons in Hsize. lia.
    + intros [= <- <-]. split; [split; simpl; auto|done].
Qed.

(** ** Normal forms *)

Lemma nf_self w name c :
  dget (m_channels (mem w)) name = Some c ->
  w = nf w name c (m_total_bytes (mem w)) (m_total_records (mem w)) (m_expirations (mem w))
        (monotonic_reads w).
Proof. intros H. unfold nf. rewrite dset_same by done. by destruct w as [[] ? ? ? ?]. Qed.

Lemma channel_of_nf w name c b r x mr : channel_of name (nf w name c b r x mr) = c.
Proof. unfold channel_of, nf. simpl. by rewrite dget_dset_eq. Qed.

Lemma put_channel_nf w name c c' b r x mr :
  put_channel name c' (nf w name c b r x mr) = nf w name c' b r x mr.
Proof.
  unfold put_channel, nf. simpl. rewrite dget_dset_eq. unfold on_mem, set_channels. simpl.
  by rewrite dset_dset.
Qed.

Lemma stream_of_nf w name thread c b r x mr :
  stream_of name thread (nf w name c b r x mr) = dget (c_streams c) thread.
Proof. unfold stream_of. by rewrite channel_of_nf. Qed.

Lemma put_stream_nf w name thread s c b r x mr :
  put_stream name thread s (nf w name c b r x mr) =
  nf w name (put_stream_in thread s c) b r x mr.
Proof. unfold put_stream. by rewrite channel_of_nf, put_channel_nf. Qed.

Lemma put_stream_in_twice thread s1 s2 c :
  put_stream_in thread s2 (put_stream_in thread s1 c) = put_stream_in thread s2 c.
Proof. unfold put_stream_in, set_streams. simpl. by rewrite dset_dset. Qed.

Lemma stream_put_stream_in thread s c :
  dget (c_streams (put_stream_in thread s c)) thread = Some s.
Proof. apply dget_dset_eq. Qed.

Lemma charge_total_nf w name c b r x mr db dr :
  on_mem (charge_total db dr) (nf w name c b r x mr) = nf w name c (b + db) (r + dr) x mr.
Proof. done. Qed.

Lemma set_expirations_nf w name c b r x mr x' :
  on_mem (set_expirations x') (nf w name c b r x mr) = nf w name c b r x' mr.
Proof. done. Qed.

Lemma wp_update_stream_nf w name thread f s c b r x mr (Q : res msg_exn unit -> World -> Prop) :
  dget (c_streams c) thread = Some s ->
  Q (Ok tt) (nf w name (put_stream_in thread (f s) c) b r x mr) ->
  wp (update_stream name thread f) (nf w name c b r x mr) Q.
Proof.
  intros Hs HQ. unfold update_stream, get_stream. wp_step. wp_step. rewrite stream_of_nf, Hs.
  wp_step. by rewrite put_stream_nf.
Qed.

Lemma wp_require_stream_nf w name thread needed s c b r x mr (Q : res msg_exn unit -> World -> Prop) :
  dget (c_streams c) thread = Some s ->
  Q (Ok tt) (nf w name c b r x mr) ->
  wp (require_stream name thread needed) (nf w name c b r x mr) Q.
Proof.
  intros Hs HQ. unfold require_stream, get_stream. wp_step. wp_step. rewrite stream_of_nf, Hs.
  by rewrite andb_false_r.
Qed.

(** ** Counting *)

Lemma channel_bytes_put thread s c :
  channel_bytes (put_stream_in thread s c) =
  channel_bytes c - oval s_retained_bytes (dget (c_streams c) thread) + s_retained_bytes s.
Proof. apply dsum_dset. Qed.

(** Whether a thread is new to its channel. *)
Definition new_thread c thread : Z := if dmem (c_next_generations c) thread then 0 else 1.

Lemma channel_records_put thread s c :
  channel_records (put_stream_in thread s c) =
  channel_records c - oval (fun s => s_retained_records s + new_thread c thread)
    (dget (c_streams c) thread) + s_retained_records s + new_thread c thread.
Proof. unfold channel_records, put_stream_in. simpl. rewrite esum_dset. unfold new_thread. lia. Qed.

Lemma channel_ok_put name thread s c :
  channel_ok name c -> stream_ok thread s -> s_generation s = current_generation c thread ->
  channel_ok name (put_stream_in thread s c).
Proof.
  intros [H1 (H2a & H2b & H2c) H3 H4 H5] Hs Hg. split; simpl; auto with py.
  intros t s'. rewrite dget_dset. destruct (decide (thread = t)) as [<-|].
  - intros [= <-]. done.
  - apply H4.
Qed.

Lemma tombstones_retired thread s reason c t :
  tombstones_of (retired thread s reason c) t =
  if decide (thread = t) then dset (tombstones_of c t) (s_generation s) reason
  else tombstones_of c t.
Proof.
  unfold tombstones_of, retired, record_tombstone. simpl. rewrite dget_dset.
  destruct (decide (thread = t)) as [->|]; done.
Qed.

Lemma current_generation_retired thread s reason c t :
  current_generation (retired thread s reason c) t =
  if decide (thread = t) then s_generation s + 1 else current_generation c t.
Proof.
  unfold current_generation, retired, record_tombstone. simpl. rewrite dget_dset.
  by destruct (decide (thread = t)).
Qed.

Lemma channel_ok_retired name thread s reason c :
  channel_ok name c -> dget (c_streams c) thread = Some s ->
  channel_ok name (retired thread s reason c).
Proof.
  intros [H1 (H2a & H2b & H2c) H3 H4 H5] Hs. destruct (H4 _ _ Hs) as [Hok Hg].
  pose proof (so_generation _ _ Hok) as Hg1.
  split; try done.
  - simpl. auto with py.
  - simpl. intros t n. rewrite dget_dset. destruct (decide (thread = t)); [|apply H3].
    intros [= <-]. lia.
  - intros t s'. rewrite current_generation_retired. unfold retired, record_tombstone. simpl.
    rewrite dget_ddel. destruct (decide (thread = t)); [done|]. apply H4.
  - intros t g. rewrite tombstones_retired, current_generation_retired.
    destruct (decide (thread = t)) as [<-|]; [|apply H5].
    rewrite dget_dset. specialize (H5 thread g). rewrite <-Hg in H5.
    destruct (decide (s_generation s = g)) as [<-|].
    + split; [lia|]. by eexists.
    + rewrite H5. lia.
Qed.

Lemma channel_bytes_retired thread s reason c :
  dwf (c_streams c) -> dget (c_streams c) thread = Some s ->
  channel_bytes (retired thread s reason c) = channel_bytes c - s_retained_bytes s.
Proof.
  intros Hd Hs. unfold channel_bytes, retired, record_tombstone. simpl.
  rewrite dsum_ddel by done. by rewrite Hs.
Qed.

Lemma channel_records_retired name thread s reason c :
  channel_ok name c -> dget (c_streams c) thread = Some s ->
  channel_records (retired thread s reason c) = channel_records c - (s_retained_records s - 1).
Proof.
  intros [H1 (H2a & H2b & H2c) H3 H4 H5] Hs. destruct (H4 _ _ Hs) as [_ Hg].
  unfold channel_records, retired, record_tombstone. simpl.
  rewrite zlen_dset_oval, (esum_ext _ (fun t s => s_retained_records s +
    (if dmem (c_next_generations c) t then 0 else 1))).
  2: auto with py.
  2: { intros t s'. rewrite dget_ddel. destruct (decide (thread = t)); [done|]. intros _.
       unfold dmem. rewrite dget_dset. by rewrite decide_False. }
  rewrite esum_ddel by done. rewrite Hs. simpl. rewrite dsum_dset. unfold tombstone_records at 3. rewrite zlen_dset_oval.
  assert (dget (default [] (dget (c_tombstones c) thread)) (s_generation s) = None) as ->.
  { apply eq_None_not_Some. intros Ht. apply H5 in Ht. lia. }
  generalize (esum (fun t s => s_retained_records s +
    (if dmem (c_next_generations c) t then 0 else 1)) (c_streams c)); intros total.
  assert (oval tombstone_records (dget (c_tombstones c) thread) =
          zlen (default [] (dget (c_tombstones c) thread))) as ->.
  { by destruct (dget (c_tombstones c) thread). }
  unfold dmem. destruct (dget (c_next_generations c) thread); simpl oval; lia.
Qed.

(** ** The invariant of a normal form *)

Lemma nf_ok w name c b r x mr :
  mem_ok (mem w) -> channel_ok name c -> is_Some (c_codec c) ->
  b = m_total_bytes (mem w) + channel_bytes c -
      oval channel_bytes (dget (m_channels (mem w)) name) ->
  r = m_total_records (mem w) + channel_records c -
      oval channel_records (dget (m_channels (mem w)) name) ->
  b <= max_total_bytes (m_limits (mem w)) -> r <= max_total_records (m_limits (mem w)) ->
  index_ok (expiry_of (dset (m_channels (mem w)) name c)) x ->
  winv (nf w name c b r x mr).
Proof.
  intros [H1 H2 H3 H4 H5] Hc Hk -> -> Hb Hr Hx. split; [|done]. split; simpl; auto with py.
  - intros n c'. rewrite dget_dset. destruct (decide (name = n)) as [<-|]; [|apply H2].
    by intros [= <-].
  - unfold total_bytes. rewrite dsum_dset, H3. unfold total_bytes. lia.
  - unfold total_records. rewrite dsum_dset, H4. unfold total_records. lia.
Qed.

Lemma expiry_of_put channels name c c0 thread s key :
  (dget channels name = Some c0 /\ c_streams c0 = c_streams c \/
   dget channels name = None /\ c_streams c = []) ->
  expiry_of (dset channels name (put_stream_in thread s c)) key =
  reset (name, thread) (s_expires_at_monotonic s) (expiry_of channels) key.
Proof.
  intros Hc. unfold expiry_of, reset. rewrite dget_dset. destruct key as [n t]. simpl.
  destruct (decide (name = n)) as [<-|Hn]; simpl.
  - rewrite dget_dset. destruct (decide (thread = t)) as [<-|Ht].
    + by rewrite decide_True.
    + rewrite decide_False by congruence.
      destruct Hc as [[Hc Hs]|[Hc Hs]]; rewrite Hc; simpl; [by rewrite Hs|by rewrite Hs].
  - by rewrite decide_False by congruence.
Qed.

Lemma expiry_of_retired channels name thread s reason c key :
  dget channels name = Some c ->
  expiry_of (dset channels name (retired thread s reason c)) key =
  reset (name, thread) None (expiry_of channels) key.
Proof.
  intros Hc. unfold expiry_of, reset. rewrite dget_dset. destruct key as [n t]. simpl.
  destruct (decide (name = n)) as [<-|Hn]; simpl.
  - rewrite dget_ddel. destruct (decide (thread = t)) as [<-|Ht].
    + by rewrite decide_True.
    + rewrite decide_False by congruence. by rewrite Hc.
  - by rewrite decide_False by congruence.
Qed.

(** ** Moving on *)

(** The channel an operation works with: the registered one, or a new one. *)
Definition works_with w name c : Prop :=
  dget (m_channels (mem w)) name = Some c \/
  dget (m_channels (mem w)) name = None /\ c = set_codec (c_codec c) (new_channel_state name).

Lemma works_with_ok w name c : winv w -> works_with w name c -> channel_ok name c.
Proof.
  intros [Hm _] [Hc|[_ ->]]; [by apply (mo_channel _ Hm)|].
  split; simpl; auto with py; try done.
  intros t g. unfold tombstones_of, current_generation. simpl. split; [by intros [? ?]|lia].
Qed.

Lemma works_with_streams w name c :
  works_with w name c ->
  (exists c0, dget (m_channels (mem w)) name = Some c0 /\ c_streams c0 = c_streams c) \/
  dget (m_channels (mem w)) name = None /\ c_streams c = [].
Proof. intros [Hc|[Hc ->]]; [left; by exists c|by right]. Qed.

Lemma follows_put w name thread c s' b r x mr :
  winv w -> works_with w name c -> (monotonic_reads w <= mr)%nat ->
  (forall s, dget (c_streams c) thread = Some s -> stream_follows s s') ->
  follows w (nf w name (put_stream_in thread s' c) b r x mr).
Proof.
  intros Hw Hc Hr Hs.
  assert (forall t, generation_of w name t = current_generation c t) as Hg.
  { intros t. unfold generation_of. destruct Hc as [->|[-> ->]]; done. }
  split; simpl; [done| | | | |done].
  - intros n c1 Hn. rewrite dget_dset. destruct (decide (name = n)) as [<-|]; [|by exists c1].
    exists (put_stream_in thread s' c). split; [done|]. simpl. destruct Hc as [Hc|[Hc _]]; congruence.
  - intros n t. unfold generation_of at 2. simpl. rewrite dget_dset.
    destruct (decide (name = n)) as [<-|]; [by rewrite Hg|done].
  - intros n t s1 Hl. left. unfold live in *. simpl. rewrite dget_dset.
    destruct (decide (name = n)) as [<-|].
    + destruct Hc as [Hc|[Hc _]]; rewrite Hc in Hl; simpl in Hl; [|done].
      simpl. rewrite dget_dset. destruct (decide (thread = t)) as [<-|].
      * exists s'. split; [done|by apply Hs].
      * exists s1. split; [done|apply stream_follows_refl].
    + exists s1. split; [done|apply stream_follows_refl].
  - intros n t g rr. unfold tombstone_of. simpl. rewrite dget_dset.
    destruct (decide (name = n)) as [<-|]; [|done].
    destruct Hc as [->|[-> _]]; done.
Qed.

Lemma follows_retired w name thread c s reason b r x mr :
  mem_ok (mem w) -> dget (m_channels (mem w)) name = Some c -> dget (c_streams c) thread = Some s ->
  (monotonic_reads w <= mr)%nat ->
  follows w (nf w name (retired thread s reason c) b r x mr).
Proof.
  intros Hm Hc Hs Hr. destruct (mo_channel _ Hm _ _ Hc) as [Hok _].
  destruct (co_stream _ _ Hok _ _ Hs) as [_ Hg].
  split; simpl; [done| | | | |done].
  - intros n c1 Hn. rewrite dget_dset. destruct (decide (name = n)) as [<-|]; [|by exists c1].
    exists (retired thread s reason c). split; [done|]. simplify_eq. done.
  - intros n t. unfold generation_of. simpl. rewrite dget_dset.
    destruct (decide (name = n)) as [<-|]; [|done]. rewrite Hc, current_generation_retired.
    destruct (decide (thread = t)) as [<-|]; lia.
  - intros n t s1 Hl. unfold live, generation_of in *. simpl. rewrite dget_dset.
    destruct (decide (name = n)) as [<-|]; [|left; exists s1; split; [done|apply stream_follows_refl]].
    rewrite Hc in Hl. simpl in Hl. rewrite current_generation_retired. simpl. rewrite dget_ddel.
    destruct (decide (thread = t)) as [<-|]; [right|left].
    + simplify_eq. lia.
    + exists s1. split; [done|apply stream_follows_refl].
  - intros n t g rr. unfold tombstone_of. simpl. rewrite dget_dset.
    destruct (decide (name = n)) as [<-|]; [|done]. rewrite Hc. simpl. intros Hg1.
    rewrite tombstones_retired. destruct (decide (thread = t)) as [<-|]; [|done].
    rewrite dget_dset_ne; [done|]. intros <-.
    assert (is_Some (dget (tombstones_of c thread) (s_generation s))) as Hi by eauto.
    apply (co_tombstones _ _ Hok) in Hi. lia.
Qed.

(** ** Retiring and expiring *)

Lemma stream_bytes_nonneg thread s : stream_ok thread s -> 0 <= s_retained_bytes s.
Proof.
  intros Hs. rewrite (so_bytes _ _ Hs).
  assert (forall k, 0 <= cp_bytes k) as Hk.
  { intros [k|]; unfold cp_bytes, checkpoint_bytes; [|done]. destruct (utf8 _); simpl; [|done].
    pose proof (zlen_nonneg (k_position k)). pose proof (zlen_nonneg a). lia. }
  assert (0 <= zsum (message_bytes s) (s_messages s)).
  { apply zsum_nonneg. intros e _. unfold message_bytes. pose proof (Hk (stored_checkpoint s e)).
    pose proof (zlen_nonneg (e_payload e)). lia. }
  assert (0 <= dsum run_bytes (s_runs s)); [|lia].
  apply zsum_nonneg. intros r _. apply Hk.
Qed.

Lemma stream_records_pos thread s : stream_ok thread s -> 1 <= s_retained_records s.
Proof.
  intros Hs. rewrite (so_records _ _ Hs).
  pose proof (zlen_nonneg (s_messages s)). pose proof (zlen_nonneg (s_runs s)). lia.
Qed.

(** Retiring is the last step of its operation, so the index may lack the thread's
    own deadline, and a sealed stream may be on its way out. *)
Lemma wp_retire w name thread c s reason b r E x mr (Q : res msg_exn unit -> World -> Prop) :
  c_channel c = name ->
  (forall x', index_ok (reset (name, thread) None E) x' ->
    Q (Ok tt) (nf w name (retired thread s reason c) (b - s_retained_bytes s)
                 (r - (s_retained_records s - 1)) x' mr)) ->
  indexed E x ->
  wp (retire_memory_generation name thread s reason) (nf w name c b r x mr) Q.
Proof.
  intros Hn HQ Hx. unfold retire_memory_generation. wp_step. wp_step.
  rewrite charge_total_nf. wp_step. wp_step. rewrite channel_of_nf, put_channel_nf. wp_step.
  rewrite channel_of_nf, !Z.add_opp_r. simpl c_channel. rewrite Hn.
  apply (HQ (index_set (name, thread) None x)). by apply index_set_ok.
Qed.

(** The channel [name] can be worked with: it is registered or [scratch] is new. *)
Definition ready w name : Prop :=
  is_Some (dget (m_channels (mem w)) name) \/
  dget (m_channels (mem w)) name = None /\ scratch w = new_channel_state name.

Lemma works_with_channel_of w name : ready w name -> works_with w name (channel_of name w).
Proof.
  unfold ready, works_with, channel_of. intros [[c ->]|[-> ->]]; [by left|by right].
Qed.

(** What stays the same outside the backend. *)
Definition outside w w' : Prop :=
  scratch w' = scratch w /\ waiters w' = waiters w /\ utc_reads w' = utc_reads w.

(** The clock is read. *)
Definition tick w : World :=
  {| mem := mem w; scratch := scratch w; waiters := waiters w; utc_reads := utc_reads w;
     monotonic_reads := S (monotonic_reads w) |}.

Lemma wp_time_monotonic w (Q : res msg_exn Z -> World -> Prop) :
  Q (Ok (monotonic (monotonic_reads w))) (tick w) -> wp time_monotonic w Q.
Proof. done. Qed.

Lemma tick_follows w : follows w (tick w).
Proof. apply follows_same_mem; simpl; [done|lia]. Qed.

(** Retiring a stream whose deadline had passed when the clock was last read. *)
Lemma thinned_retired w name thread c s b r x d :
  mem_ok (mem w) ->
  dget (m_channels (mem w)) name = Some c -> dget (c_streams c) thread = Some s ->
  s_expires_at_monotonic s = Some d -> (0 < monotonic_reads w)%nat ->
  d <= monotonic (pred (monotonic_reads w)) ->
  thinned w (nf w name (retired thread s ReasonExpired c) b r x (monotonic_reads w)).
Proof.
  intros Hm Hc Hs Hd Hk Hle n t. destruct (decide ((n, t) = (name, thread))) as [[= -> ->]|Hne].
  - right. unfold live, tombstone_of. simpl. rewrite dget_dset_eq, Hc. simpl. split; [apply dget_ddel_eq|].
    exists s, d, (pred (monotonic_reads w)). split_and!; try done; [lia|].
    rewrite tombstones_retired. rewrite decide_True by done. apply dget_dset_eq.
  - left. unfold live. simpl. rewrite dget_dset. destruct (decide (name = n)) as [<-|]; [|done].
    rewrite Hc. simpl. by rewrite dget_ddel_ne by congruence.
Qed.

(** A stream whose deadline has passed is retired. *)
Lemma wp_expire_due w name thread c s d E x (Q : res msg_exn (option StreamState) -> World -> Prop) :
  mem_ok (mem w) -> m_expirations (mem w) = x -> indexed E x ->
  (forall k, k <> (name, thread) -> E k = expiry_of (m_channels (mem w)) k) ->
  dget (m_channels (mem w)) name = Some c -> dget (c_streams c) thread = Some s ->
  s_expires_at_monotonic s = Some d -> d <= monotonic (monotonic_reads w) ->
  (forall w', winv w' -> follows w w' -> outside w w' -> thinned w w' ->
    live w' name thread = None -> dget (m_channels (mem w')) name <> None -> Q (Ok None) w') ->
  wp (expire_if_due name thread) w Q.
Proof.
  intros Hm <- Hx HE Hc Hs Hd Hle HQ. destruct (mo_channel _ Hm _ _ Hc) as [Hok Hcodec].
  destruct (co_stream _ _ Hok _ _ Hs) as [Hso Hg].
  unfold expire_if_due, get_stream. wp_step. wp_step. unfold stream_of, channel_of.
  rewrite Hc. simpl. rewrite Hs. cbn beta iota. rewrite Hd. wp_step.
  unfold time_monotonic at 1. unfold wp at 1. simpl. rewrite (proj2 (Z.ltb_ge _ _) Hle).
  wp_step. change {| mem := mem w; scratch := scratch w; waiters := waiters w;
    utc_reads := utc_reads w; monotonic_reads := S (monotonic_reads w) |} with (tick w).
  rewrite (nf_self (tick w) name c) by done.
  apply (wp_retire _ name thread c s _ _ _ E); [by apply (co_name _ _ Hok)| |done].
  intros x' Hx'. wp_step. apply HQ.
  - apply nf_ok; try done.
    + by eapply channel_ok_retired.
    + simpl. rewrite Hc. simpl. rewrite (channel_bytes_retired thread s); [|apply Hok|done]. lia.
    + simpl. rewrite Hc. simpl. rewrite (channel_records_retired name thread s) by done. lia.
    + simpl. pose proof (stream_bytes_nonneg _ _ Hso). pose proof (mo_limits _ Hm). lia.
    + simpl. pose proof (stream_records_pos _ _ Hso). pose proof (mo_limits _ Hm). lia.
    + eapply index_ok_ext; [|exact Hx']. intros k. simpl. rewrite (expiry_of_retired _ _ _ _ _ c) by done.
      unfold reset. destruct (decide (k = (name, thread))); [done|by apply HE].
  - eapply msg_follows_trans; [apply tick_follows|].
    apply (follows_retired (tick w) name thread c s); try done.
  - done.
  - exact (thinned_retired (tick w) name thread c s _ _ _ d Hm Hc Hs Hd ltac:(simpl; lia) Hle).
  - unfold live. simpl. rewrite dget_dset_eq. simpl. apply dget_ddel_eq.
  - simpl. by rewrite dget_dset_eq.
Qed.

Lemma live_stream_of w name thread :
  ready w name -> stream_of name thread w = live w name thread.
Proof. unfold stream_of, channel_of, live. by intros [[c ->]|[-> ->]]. Qed.

Lemma wp_expire w name thread (Q : res msg_exn (option StreamState) -> World -> Prop) :
  winv w -> ready w name ->
  (forall w', winv w' -> follows w w' -> outside w w' -> ready w' name -> thinned w w' ->
    mem w' = mem w \/ live w' name thread = None ->
    Q (Ok (live w' name thread)) w') ->
  wp (expire_if_due name thread) w Q.
Proof.
  intros Hw Hr HQ.
  destruct (live w name thread) as [s|] eqn:Hl.
  2: { unfold expire_if_due, get_stream. wp_step. wp_step. rewrite live_stream_of, Hl by done. wp_step.
       rewrite <-Hl. apply HQ; auto; [apply msg_follows_refl|done|by apply thinned_same]. }
  destruct (dget (m_channels (mem w)) name) as [c|] eqn:Hc; [|unfold live in Hl; by rewrite Hc in Hl].
  assert (dget (c_streams c) thread = Some s) as Hs by (unfold live in Hl; by rewrite Hc in Hl).
  destruct (s_expires_at_monotonic s) as [d|] eqn:Hd.
  2: { unfold expire_if_due, get_stream. wp_step. wp_step. rewrite live_stream_of, Hl by done.
       cbn beta iota. rewrite Hd. wp_step. rewrite <-Hl. apply HQ; auto; [apply msg_follows_refl|done|by apply thinned_same]. }
  destruct (Z.le_gt_cases d (monotonic (monotonic_reads w))) as [Hle|Hlt].
  - destruct Hw as [Hm [Hx Hk]].
    apply (wp_expire_due w name thread c s d (expiry_of (m_channels (mem w))) (m_expirations (mem w)));
      auto.
    intros w' H1 H2 H3 H4 H5 H6. rewrite <-H5. apply HQ; auto.
    left. by destruct (dget (m_channels (mem w')) name).
  - unfold expire_if_due, get_stream. wp_step. wp_step. rewrite live_stream_of, Hl by done.
    cbn beta iota. rewrite Hd. wp_step. unfold time_monotonic, wp. simpl.
    rewrite (proj2 (Z.ltb_lt _ _) Hlt). simpl. rewrite <-Hl. apply (HQ (tick w)); auto.
    + apply tick_follows.
    + done.
    + by apply thinned_same.
Qed.

(** Work on other threads' expired generations: at most 64 of them, each retired. *)
Lemma wp_reclaim_loop {clock : MonotonicClock} n w now (Q : res msg_exn unit -> World -> Prop) :
  winv w -> now <= monotonic (monotonic_reads w) ->
  (forall w', winv w' -> follows w w' -> outside w w' -> thinned w w' -> Q (Ok tt) w') ->
  wp (reclaim_loop n now) w Q.
Proof.
  revert w. induction n as [|n IH]; intros w Hw Hnow HQ; simpl.
  { wp_step. apply HQ; [done|apply msg_follows_refl|done|by apply thinned_same]. }
  destruct Hw as [Hm Hx]. wp_step. wp_step.
  destruct (pop_due now (m_expirations (mem w))) as [r x'] eqn:Hp.
  pose proof (pop_due_ok _ _ _ _ _ Hx Hp) as Hok. wp_step. wp_step. simpl.
  set (w1 := on_mem (set_expirations x') w).
  destruct r as [[name thread]|].
  - destruct Hok as [(d & HE & Hd) Hx']. wp_step. wp_step.
    unfold expiry_of in HE. simpl in HE.
    destruct (dget (m_channels (mem w)) name) as [c|] eqn:Hc; [|done]. simpl in HE.
    destruct (dget (c_streams c) thread) as [s|] eqn:Hs; [|done]. simpl in HE.
    change (dget (m_channels (mem w1)) name) with (dget (m_channels (mem w)) name).
    rewrite Hc. wp_step. wp_step; [done|]. apply wp_bind.
    apply (wp_expire_due w1 name thread c s d
             (reset (name, thread) None (expiry_of (m_channels (mem w)))) x'); auto.
    + destruct Hm as []. by split.
    + intros k Hk. unfold reset. by rewrite decide_False.
    + subst w1. simpl. lia.
    + intros w' Hw' Hf Ho Ht _ _. apply IH; [done| |].
      * pose proof (monotonic_le _ _ (fw_clock _ _ Hf)) as Hc'. simpl in Hc'. lia.
      * intros w2 Hw2 Hf2 Ho2 Ht2. apply HQ; [done| | |].
        -- eapply msg_follows_trans; [|exact Hf2]. eapply msg_follows_trans; [|exact Hf].
           by apply follows_same_channels.
        -- destruct Ho as (? & ? & ?), Ho2 as (? & ? & ?). subst w1. simpl in *.
           unfold outside. split_and!; congruence.
        -- eapply thinned_trans; [exact Hf2| |exact Ht2].
           eapply thinned_trans; [exact Hf| |exact Ht]. by apply thinned_same.
  - wp_step. apply HQ; [|by apply follows_same_channels|done|by apply thinned_same].
    split; [|done]. destruct Hm as []. by split.
Qed.

Lemma wp_reclaim {clock : MonotonicClock} w (Q : res msg_exn unit -> World -> Prop) :
  winv w ->
  (forall w', winv w' -> follows w w' -> outside w w' -> thinned w w' -> Q (Ok tt) w') ->
  wp reclaim_expired w Q.
Proof.
  intros Hw HQ. unfold reclaim_expired. wp_step. unfold time_monotonic, wp at 1. cbn [fst snd].
  change {| mem := mem w; scratch := scratch w; waiters := waiters w;
    utc_reads := utc_reads w; monotonic_reads := S (monotonic_reads w) |} with (tick w).
  apply wp_reclaim_loop; [done|apply monotonic_le; simpl; lia|].
  intros w' H1 H2 H3 H4. apply HQ; [done| |done|].
  - eapply msg_follows_trans; [apply tick_follows|exact H2].
  - eapply thinned_trans; [exact H2| |exact H4]. by apply thinned_same.
Qed.
End world.
