(* ===== verification/MsgStream.v ===== *)
(** Messaging: the ways one stream changes - a run recorded, a message committed, a
    generation sealed, a record purged - each keeping [stream_ok] and followed in
    the sense of [stream_follows]. *)
From S2P Require Import Prelude PyDict PySeq MsgModels MsgTransition MsgMemory MsgInvariant.
From S2P Require Import Contracts.

Section stream.
Context {sha256 : Sha256} {env : MessagingEnv}.
Implicit Types (s : StreamState) (r : RunRecord) (e : MessageEnvelope) (id thread : pystr).

(** ** A run is recorded *)

(** [s'] is [s] with the run [id] recorded as [r'], the only one that may be open. *)
Record run_recorded thread s s' id r' : Prop := {
  rr_generation : s_generation s' = s_generation s;
  rr_active : s_disposition s = Active /\ s_disposition s' = Active;
  rr_messages : s_messages s' = s_messages s;
  rr_by_id : s_by_message_id s' = s_by_message_id s;
  rr_signatures : s_signatures s' = s_signatures s;
  rr_runs : s_runs s' = dset (s_runs s) id r';
  rr_only : forall a, s_active_identity s = Some a -> i_run_id a = id;
  rr_owner : s_active_identity s' =
    if is_final_run_status (r_status r') then None else Some (r_identity r');
  rr_run_id : i_run_id (r_identity r') = id;
  rr_thread : thread_key (r_identity r') = thread;
  rr_token : if is_final_run_status (r_status r') then r_owner_token r' = None
             else is_Some (r_owner_token r');
  rr_checkpoint : cp_ok (r_checkpoint r');
  rr_range : 0 <= r_start_seq r' <= r_end_seq r' /\ r_end_seq r' <= zlen (s_messages s);
  rr_fence : 1 <= r_fence r' /\ forall id0 r0, id0 <> id -> dget (s_runs s) id0 = Some r0 ->
    r_fence r0 <> r_fence r';
  rr_payload : s_payload_bytes s' = s_payload_bytes s;
  rr_bytes : s_retained_bytes s' =
    s_retained_bytes s + run_bytes r' - oval run_bytes (dget (s_runs s) id);
  rr_records : s_retained_records s' =
    s_retained_records s + 1 - oval (fun _ => 1) (dget (s_runs s) id);
  rr_expiring : is_Some (s_expires_at_monotonic s') -> s_active_identity s' = None
}.

(** Another run is terminal. *)
Lemma other_run_final thread s s' id r' id0 r0 :
  stream_ok thread s -> run_recorded thread s s' id r' ->
  id0 <> id -> dget (s_runs s) id0 = Some r0 -> is_final_run_status (r_status r0) = true.
Proof.
  intros Hs Hr Hne H0. destruct (is_final_run_status (r_status r0)) eqn:Hf; [done|].
  pose proof (so_runs _ _ Hs _ _ H0) as Hro. destruct (ro_open _ _ _ _ Hro Hf) as [_ Ha].
  apply (rr_only _ _ _ _ _ Hr) in Ha. rewrite (ro_id _ _ _ _ Hro) in Ha. done.
Qed.

Lemma run_recorded_ok thread s s' id r' :
  stream_ok thread s -> run_recorded thread s s' id r' -> stream_ok thread s'.
Proof.
  intros Hs Hr. pose proof Hr as Hr0.
  destruct Hr as [G [D1 D2] M I S R O W Id Th T K Rg [F1 F2] P B N X]. pose proof Hs as Hs0.
  destruct Hs as [SG SD (W1 & W2 & W3) Nu Tt Di By Ev Si Ru Fe Ac Se Ex Pa Bt Rc].
  assert (forall id0 r0, dget (s_runs s') id0 = Some r0 -> run_ok thread s' id0 r0) as Hru.
  { intros id0 r0. rewrite R, dget_dset. destruct (decide (id = id0)) as [<-|Hne].
    - intros [= <-]. split; try done; try lia.
      + intros Hf. by rewrite Hf in T.
      + intros Hf. rewrite Hf in T, W. done.
      + intros _. by rewrite M.
    - intros H0. pose proof (Ru _ _ H0) as Hro.
      pose proof (other_run_final _ _ _ _ _ _ _ Hs0 Hr0 (not_eq_sym Hne) H0) as Hf.
      destruct Hro. split; try done; [congruence|]. rewrite M. auto. }
  split; rewrite ?G, ?M, ?I, ?S; auto; try (rewrite D2; by left).
  - rewrite R. auto with py.
  - intros e He. destruct (Ev e He) as (k & sg & H1 & H2 & H3). exists k, sg. by rewrite S.
  - intros id1 id2 r1 r2. rewrite R, !dget_dset.
    destruct (decide (id = id1)) as [<-|N1], (decide (id = id2)) as [<-|N2]; auto.
    + intros [= <-] H2 He. exfalso. by eapply (F2 id2 r2).
    + intros H1 [= <-] He. exfalso. by eapply (F2 id1 r1).
    + apply Fe.
  - intros a Ha. rewrite W in Ha. destruct (is_final_run_status (r_status r')) eqn:Hf; [done|].
    injection Ha as <-. rewrite Id, R, dget_dset_eq. by exists r'.
  - by rewrite D2.
  - rewrite P. auto.
  - rewrite B, Bt, R, dsum_dset.
    rewrite (zsum_ext (message_bytes s') (message_bytes s)); [lia|].
    intros e _. unfold message_bytes, stored_checkpoint. by rewrite S.
  - rewrite N, Rc, R, zlen_dset_oval. lia.
Qed.

Lemma run_recorded_follows thread s s' id r' :
  stream_ok thread s -> run_recorded thread s s' id r' ->
  (forall r, dget (s_runs s) id = Some r -> run_follows r r') ->
  (dget (s_runs s) id = None -> forall id0 r0, dget (s_runs s) id0 = Some r0 ->
     r_fence r0 < r_fence r') ->
  stream_follows s s'.
Proof.
  intros Hs [G [D1 D2] M I S R O W Id Th T K Rg [F1 F2] P B N X] Hf Hn.
  split; rewrite ?M, ?S; auto.
  - intros _ id0 r0 H0. rewrite R. destruct (decide (id = id0)) as [<-|Hne].
    + rewrite dget_dset_eq. exists r'. auto.
    + rewrite dget_dset_ne by done. exists r0. split; [done|apply run_follows_refl].
  - intros _ id0 r0. rewrite R, dget_dset. destruct (decide (id = id0)) as [<-|Hne].
    + intros [= <-] Hno. by apply Hn.
    + intros H0 Hno. congruence.
  - by intros [].
Qed.

(** ** A message is committed *)

Definition message_committed thread s e k : StreamState :=
  {| s_generation := s_generation s; s_disposition := s_disposition s; s_deleted := s_deleted s;
     s_messages := s_messages s ++ [e];
     s_by_message_id := dset (s_by_message_id s) (e_message_id e) e;
     s_signatures := dset (s_signatures s) (e_message_id e)
       (i_run_id (e_identity e), e_codec e, e_payload e, k);
     s_runs := s_runs s; s_active_identity := s_active_identity s;
     s_payload_bytes := s_payload_bytes s + zlen (e_payload e);
     s_retained_bytes := s_retained_bytes s + (zlen (e_payload e) + cp_bytes k);
     s_retained_records := s_retained_records s + 1;
     s_expires_at_monotonic := s_expires_at_monotonic s;
     s_control_sequence := s_control_sequence s |}.

Lemma message_committed_ok thread s e k sg :
  stream_ok thread s -> s_disposition s = Active ->
  dget (s_by_message_id s) (e_message_id e) = None ->
  e_seq e = zlen (s_messages s) + 1 -> thread_key (e_identity e) = thread -> cp_ok k ->
  messaging_message_signature (e_identity e) (e_codec e) (e_payload e) k = Ok sg ->
  stream_ok thread (message_committed thread s e k).
Proof.
  intros Hs Hd Hn Hq Ht Hk Hsg. pose proof Hs as Hs0.
  destruct Hs as [SG SD (W1 & W2 & W3) Nu Tt Di By Ev Si Ru Fe Ac Se Ex Pa Bt Rc].
  assert (forall e0, e0 ∈ s_messages s -> e_message_id e0 <> e_message_id e) as Hnew.
  { intros e0 H0 He. assert (dget (s_by_message_id s) (e_message_id e) = Some e0) as Hb; [|congruence].
    apply By. done. }
  assert (forall e0, e0 ∈ s_messages s ->
    dget (dset (s_signatures s) (e_message_id e)
       (i_run_id (e_identity e), e_codec e, e_payload e, k)) (e_message_id e0) =
    dget (s_signatures s) (e_message_id e0)) as Hsig.
  { intros e0 H0. rewrite dget_dset_ne; [done|]. intros He. by apply (Hnew e0). }
  split; simpl; auto with py.
  - intros i e0. destruct (decide (i = List.length (s_messages s))) as [->|Hi].
    + rewrite list_lookup_middle by done. intros [= <-]. by rewrite Hq.
    + intros H0. apply lookup_app_Some in H0 as [H0|[Hl H0]]; [by apply Nu|].
      apply list_lookup_singleton_Some in H0 as [? _]. lia.
  - intros e0 [H0| ->%list_elem_of_singleton]%elem_of_app; auto.
  - rewrite map_app. simpl. apply NoDup_app. split; [done|]. split; [|apply NoDup_singleton].
    intros id Hid ->%list_elem_of_singleton. apply list_elem_of_fmap in Hid as (e0 & He & H0).
    by apply (Hnew e0).
  - intros id e0. rewrite dget_dset, elem_of_app, list_elem_of_singleton.
    destruct (decide (e_message_id e = id)) as [<-|Hne].
    + split; [intros [= <-]; auto|]. intros [[H0| ->] He]; [|done]. by destruct (Hnew e0 H0).
    + rewrite By. split; [intros [? ?]; auto|]. intros [[H0| ->] He]; done.
  - intros e0 [H0| ->%list_elem_of_singleton]%elem_of_app.
    + destruct (Ev e0 H0) as (k0 & sg0 & H1 & H2 & H3). exists k0, sg0. simpl.
      by rewrite Hsig.
    + exists k, sg. simpl. by rewrite dget_dset_eq.
  - intros id. rewrite !dget_dset. destruct (decide (e_message_id e = id)); [by eexists|auto].
  - intros id r Hr. destruct (Ru id r Hr). split; auto. simpl. rewrite zlen_app.
    intros Ha. specialize (ro_range Ha). pose proof (zlen_nonneg [e]). lia.
  - intros _. rewrite zsum_app. simpl. rewrite Pa by done. lia.
  - rewrite zsum_app. simpl. rewrite (zsum_ext _ (message_bytes s)).
    + assert (message_bytes (message_committed thread s e k) e = zlen (e_payload e) + cp_bytes k)
        as ->; [|lia].
      unfold message_bytes, stored_checkpoint. simpl. by rewrite dget_dset_eq.
    + intros e0 H0. unfold message_bytes, stored_checkpoint. simpl. by rewrite Hsig.
  - rewrite zlen_app, Rc. change (zlen [e]) with 1. lia.
Qed.

Lemma message_committed_follows thread s e k :
  stream_ok thread s -> s_disposition s = Active ->
  dget (s_by_message_id s) (e_message_id e) = None ->
  stream_follows s (message_committed thread s e k).
Proof.
  intros Hs Hd Hn. split; simpl; auto.
  - intros _. by eexists.
  - intros _ id v Hv. rewrite dget_dset_ne; [done|]. intros <-.
    assert (is_Some (dget (s_by_message_id s) (e_message_id e))) as [? ?]; [|congruence].
    apply (so_signed _ _ Hs). by exists v.
  - intros _ id r Hr. exists r. split; [done|apply run_follows_refl].
  - intros _ id r' H1 H2. congruence.
  - by intros [].
Qed.

(** ** A generation is sealed *)

Definition sealed s (control : Z) : StreamState :=
  {| s_generation := s_generation s; s_disposition := Deleting; s_deleted := true;
     s_messages := s_messages s; s_by_message_id := s_by_message_id s;
     s_signatures := s_signatures s; s_runs := s_runs s; s_active_identity := None;
     s_payload_bytes := s_payload_bytes s; s_retained_bytes := s_retained_bytes s;
     s_retained_records := s_retained_records s; s_expires_at_monotonic := None;
     s_control_sequence := control |}.

Lemma sealed_ok thread s control :
  stream_ok thread s -> s_active_identity s = None -> stream_ok thread (sealed s control).
Proof.
  intros [SG SD W Nu Tt Di By Ev Si Ru Fe Ac Se Ex Pa Bt Rc] Ha.
  split; simpl; auto; try done.
  intros id r Hr. destruct (Ru id r Hr). split; simpl; auto; try done.
  intros Hf. destruct (ro_open Hf) as [_ H]. congruence.
Qed.

Lemma sealed_follows s control : stream_follows s (sealed s control).
Proof. split; simpl; done || lia. Qed.

(** ** Records are purged *)

Definition message_popped s (rest : list MessageEnvelope) e : StreamState :=
  charge_stream (- (zlen (e_payload e) + cp_bytes (stored_checkpoint s e))) (- 1)
    (set_messages rest (ddel (s_by_message_id s) (e_message_id e))
       (ddel (s_signatures s) (e_message_id e)) s).

Lemma message_popped_ok thread s rest e :
  stream_ok thread s -> s_disposition s <> Active -> s_messages s = rest ++ [e] ->
  stream_ok thread (message_popped s rest e).
Proof.
  intros [SG SD (W1 & W2 & W3) Nu Tt Di By Ev Si Ru Fe Ac Se Ex Pa Bt Rc] Hd Hm.
  rewrite Hm in *.
  assert (forall e0, e0 ∈ rest -> e_message_id e0 <> e_message_id e) as Hne.
  { intros e0 H0 He. rewrite map_app in Di. apply NoDup_app in Di as (_ & Di & _).
    apply (Di (e_message_id e0)); [by apply list_elem_of_fmap_2|]. simpl. rewrite He. by left. }
  assert (forall e0, e0 ∈ rest -> e0 ∈ rest ++ [e]) as Hin by (intros; apply elem_of_app; auto).
  split; simpl; auto with py.
  - intros i e0 H0. apply Nu. by apply lookup_app_l_Some.
  - rewrite map_app in Di. by apply NoDup_app in Di as (? & _).
  - intros id e0. rewrite dget_ddel. destruct (decide (e_message_id e = id)) as [<-|Hi].
    + split; [done|]. intros [H0 He]. by destruct (Hne e0 H0).
    + rewrite By, elem_of_app, list_elem_of_singleton. split.
      * intros [[H0| ->] He]; done.
      * intros [H0 He]. auto.
  - intros e0 H0. destruct (Ev e0 (Hin _ H0)) as (k0 & sg0 & H1 & H2 & H3). exists k0, sg0. simpl.
    rewrite dget_ddel_ne; [done|]. intros He. by apply (Hne e0).
  - intros id. rewrite !dget_ddel. destruct (decide (e_message_id e = id)); [by intros [? ?]|auto].
  - intros id r Hr. destruct (Ru id r Hr). by split.
  - by intros H.
  - rewrite Bt, zsum_app. simpl. rewrite (zsum_ext (message_bytes (message_popped s rest e)) (message_bytes s) rest).
    + unfold message_bytes at 2. lia.
    + intros e0 H0. unfold message_bytes, stored_checkpoint. simpl.
      rewrite dget_ddel_ne; [done|]. intros He. by apply (Hne e0).
  - rewrite Rc, zlen_app. change (zlen [e]) with 1. lia.
Qed.

Definition run_purged s id r : StreamState :=
  charge_stream (- cp_bytes (r_checkpoint r)) (- 1) (set_runs (ddel (s_runs s) id) s).

Lemma run_purged_ok thread s id r :
  stream_ok thread s -> s_disposition s <> Active -> dget (s_runs s) id = Some r ->
  stream_ok thread (run_purged s id r).
Proof.
  intros [SG SD (W1 & W2 & W3) Nu Tt Di By Ev Si Ru Fe Ac Se Ex Pa Bt Rc] Hd Hr.
  split; simpl; auto with py.
  - intros id0 r0. rewrite dget_ddel. destruct (decide (id = id0)); [done|]. intros H0.
    destruct (Ru _ _ H0). by split.
  - intros id1 id2 r1 r2. rewrite !dget_ddel.
    destruct (decide (id = id1)), (decide (id = id2)); try done. apply Fe.
  - intros a Ha. destruct (Se Hd) as [Hn _]. congruence.
  - rewrite Bt, dsum_ddel, Hr by done. simpl.
    change (message_bytes (run_purged s id r)) with (message_bytes s). unfold run_bytes. lia.
  - rewrite Rc, zlen_ddel by done. rewrite Hr. simpl. lia.
Qed.

(** What purging does to a sealed stream is unobservable. *)
Lemma purged_follows s s' :
  s_generation s' = s_generation s -> s_disposition s' = s_disposition s ->
  s_disposition s <> Active ->
  zlen (s_messages s') + zlen (s_runs s') <= zlen (s_messages s) + zlen (s_runs s) ->
  stream_follows s s'.
Proof. intros Hg Hd Hn Hle. split; rewrite ?Hd; auto; by intros ?. Qed.
End stream.
