(* ===== verification/MsgApply.v ===== *)
(** Messaging: what applying an effect does to the backend.  The steps of
    [_apply_memory_effect] are collapsed into one new stream ([effected]) under
    counters that moved by the capacity of the effect. *)
From S2P Require Import Prelude PyDict PySeq Contracts MsgModels MsgTransition MsgMemory.
From S2P Require Import MsgInvariant MsgWorld MsgStream.

Section apply.
Context {sha256 : Sha256} {env : MessagingEnv}.
Implicit Types (w : World) (c : ChannelState) (s : StreamState) (name thread : pystr)
  (effect : MessagingStorageEffect).

(** ** Definitions *)

(** The identity a stream effect names as active. *)
Definition active_of (identity : RunIdentity) (es : StoredMessagingStream) : option RunIdentity :=
  (fun run_id => {| i_namespace := i_namespace identity; i_thread_id := i_thread_id identity;
                    i_run_id := run_id |}) <$> ss_active_run_id es.

(** The stream after the effect, apart from its deadline. *)
Definition effected (identity : RunIdentity) effect (bytes records : Z) s : StreamState :=
  let s := charge_stream bytes records s in
  let s := match ef_stream effect with
           | Some es => copy_stream es (active_of identity es) s
           | None => s
           end in
  let s := apply_runs (ef_runs effect) s in
  match ef_message effect with Some e => apply_message e s | None => s end.

(** Its deadline: kept, cleared, or started. *)
Definition deadlined (action : MessagingRetentionAction) (d : option Z) s : StreamState :=
  match action with
  | RetentionNone => s
  | RetentionClear => set_expires_at None s
  | RetentionStart => set_expires_at d s
  end.

(** The stream an effect starts from. *)
Definition starts_from c thread effect s : Prop :=
  match ef_stream effect, dget (c_streams c) thread with
  | Some es, Some s0 => s_generation s0 = ss_generation es /\ s = s0
  | Some es, None => s = new_stream_state (ss_generation es)
  | None, o => o = Some s
  end.

(** The channel is registered, or the effect registers it. *)
Definition registers w name effect : Prop :=
  match ef_channel effect with
  | None => dget (m_channels (mem w)) name = Some (channel_of name w)
  | Some _ => dget (m_channels (mem w)) name = None /\ channel_of name w = new_channel_state name
  end.

Definition registered_as effect c : ChannelState :=
  match ef_channel effect with
  | Some stored => set_codec (Some (sc_codec_id stored)) c
  | None => c
  end.

(** Other threads are left alone. *)
Definition only_thread name thread w w' : Prop :=
  forall n t, (n, t) <> (name, thread) -> live w' n t = live w n t.

(** ** The steps *)

Lemma retained_effected identity effect bytes records s :
  s_retained_bytes (effected identity effect bytes records s) = s_retained_bytes s + bytes /\
  s_retained_records (effected identity effect bytes records s) = s_retained_records s + records /\
  s_generation (effected identity effect bytes records s) = s_generation s.
Proof.
  unfold effected.
  assert (forall runs s0, s_retained_bytes (apply_runs runs s0) = s_retained_bytes s0 /\
    s_retained_records (apply_runs runs s0) = s_retained_records s0 /\
    s_generation (apply_runs runs s0) = s_generation s0) as Hr.
  { unfold apply_runs. intros runs. induction runs as [|run runs IH]; intros s0; simpl; [done|].
    destruct (IH (apply_run run s0)) as (-> & -> & ->). done. }
  assert (forall e s0, s_retained_bytes (apply_message e s0) = s_retained_bytes s0 /\
    s_retained_records (apply_message e s0) = s_retained_records s0 /\
    s_generation (apply_message e s0) = s_generation s0) as Hm.
  { intros e s0. unfold apply_message. by destruct (dmem _ _). }
  destruct (ef_message effect) as [e|], (ef_stream effect) as [es|];
    rewrite ?(proj1 (Hm e _)), ?(proj1 (proj2 (Hm e _))), ?(proj2 (proj2 (Hm e _)));
    destruct (Hr (ef_runs effect) (copy_stream es (active_of identity es)
      (charge_stream bytes records s))) as (-> & -> & ->) ||
    destruct (Hr (ef_runs effect) (charge_stream bytes records s)) as (-> & -> & ->); done.
Qed.

Lemma retained_deadlined action d s :
  s_retained_bytes (deadlined action d s) = s_retained_bytes s /\
  s_retained_records (deadlined action d s) = s_retained_records s /\
  s_generation (deadlined action d s) = s_generation s.
Proof. by destruct action. Qed.

(** The deadline of a stream, and its entry in the index. *)
Definition indexed_as name thread (action : MessagingRetentionAction) (d : option Z) s
    (x : ExpiryIndex) : ExpiryIndex :=
  if bool_decide (action = RetentionNone) then x
  else index_set (name, thread) (s_expires_at_monotonic (deadlined action d s)) x.

Lemma wp_index_deadline w name thread s c b r x mr (Q : res msg_exn unit -> World -> Prop) :
  c_channel c = name ->
  Q (Ok tt) (nf w name (put_stream_in thread s c) b r
               (index_set (name, thread) (s_expires_at_monotonic s) x) mr) ->
  wp (when true (modify (fun w => on_mem (fun m =>
        set_expirations (index_set (c_channel (channel_of name w), thread)
          (stream_of name thread w ≫= s_expires_at_monotonic) (m_expirations m)) m) w)))
    (nf w name (put_stream_in thread s c) b r x mr) Q.
Proof.
  intros Hn HQ. simpl. wp_step. rewrite channel_of_nf, stream_of_nf, stream_put_stream_in.
  simpl. by rewrite Hn.
Qed.

Lemma wp_apply_retention w name thread action s c b r x mr (Q : res msg_exn unit -> World -> Prop) :
  c_channel c = name ->
  (forall d mr', (mr <= mr')%nat ->
     Q (Ok tt) (nf w name (put_stream_in thread (deadlined action d s) c) b r
                  (indexed_as name thread action d s x) mr')) ->
  wp (apply_retention name thread action) (nf w name (put_stream_in thread s c) b r x mr) Q.
Proof.
  intros Hn HQ. unfold apply_retention, get_stream. wp_step. wp_step.
  rewrite stream_of_nf, stream_put_stream_in. cbn beta iota.
  assert (forall d mr', (mr <= mr')%nat -> action <> RetentionNone ->
    wp (when (negb (bool_decide (action = RetentionNone))) (modify (fun w => on_mem (fun m =>
        set_expirations (index_set (c_channel (channel_of name w), thread)
          (stream_of name thread w ≫= s_expires_at_monotonic) (m_expirations m)) m) w)))
      (nf w name (put_stream_in thread (deadlined action d s) c) b r x mr') Q) as Hi.
  { intros d mr' Hmr Ha. rewrite bool_decide_false by done. apply wp_index_deadline; [done|].
    specialize (HQ d mr' Hmr). unfold indexed_as in HQ. by rewrite bool_decide_false in HQ. }
  destruct action; wp_step.
  - wp_step. apply (HQ None mr). lia.
  - eapply wp_update_stream_nf; [apply stream_put_stream_in|]. rewrite put_stream_in_twice.
    by apply (Hi None mr).
  - wp_step. wp_step. destruct (terminal_ttl_seconds _) as [ttl|].
    + wp_step. apply wp_time_monotonic.
      change (tick (nf w name (put_stream_in thread s c) b r x mr))
        with (nf w name (put_stream_in thread s c) b r x (S mr)).
      eapply wp_update_stream_nf; [apply stream_put_stream_in|]. rewrite put_stream_in_twice.
      apply (Hi (Some (monotonic mr + ttl)) (S mr)); [lia|done].
    + eapply wp_update_stream_nf; [apply stream_put_stream_in|]. rewrite put_stream_in_twice.
      by apply (Hi None mr).
Qed.

(** From the normal form that holds the stream, the steps before the deadline. *)
Lemma wp_apply_stream w name identity effect bytes gr c s b r x mr
    (Q : res msg_exn unit -> World -> Prop) k :
  let thread := thread_key identity in
  dget (c_streams c) thread = Some s ->
  wp k (nf w name (put_stream_in thread (effected identity effect bytes gr s) c) b r x mr) Q ->
  wp (do* update_stream name thread (charge_stream bytes gr) in
      do* apply_stream name thread identity (ef_stream effect) in
      do* require_stream name thread (negb (is_nil (ef_runs effect))) in
      do* update_stream name thread (apply_runs (ef_runs effect)) in
      do* match ef_message effect with
          | None => ret tt
          | Some e =>
              do* require_stream name thread true in
              update_stream name thread (apply_message e)
          end in k) (nf w name c b r x mr) Q.
Proof.
  intros thread Hs HQ. unfold effected in HQ.
  wp_step. eapply wp_update_stream_nf; [exact Hs|]. set (s1 := charge_stream bytes gr s) in *.
  wp_step. apply (wp_mono _ _ (fun rr w' => rr = Ok tt /\ w' = nf w name (put_stream_in thread
    (match ef_stream effect with Some es => copy_stream es (active_of identity es) s1 | None => s1 end)
    c) b r x mr)).
  { unfold apply_stream. destruct (ef_stream effect) as [es|]; [|wp_step; done].
    eapply wp_update_stream_nf; [apply stream_put_stream_in|]. by rewrite put_stream_in_twice. }
  set (s2 := match ef_stream effect with Some es => _ | None => s1 end) in *.
  intros ? ? [-> ->]. wp_step. eapply wp_require_stream_nf; [apply stream_put_stream_in|].
  wp_step. eapply wp_update_stream_nf; [apply stream_put_stream_in|]. rewrite put_stream_in_twice.
  wp_step. destruct (ef_message effect) as [e|]; [|by wp_step].
  wp_step. eapply wp_require_stream_nf; [apply stream_put_stream_in|].
  eapply wp_update_stream_nf; [apply stream_put_stream_in|]. by rewrite put_stream_in_twice.
Qed.

(** The checks, the registration of the channel and the new stream. *)
Lemma wp_apply_opening w name identity effect db dr gr s (Q : res msg_exn unit -> World -> Prop) k :
  let thread := thread_key identity in
  let c := channel_of name w in
  let c1 := registered_as effect c in
  c_channel c = name -> registers w name effect -> starts_from c thread effect s ->
  effect_capacity c thread effect = Ok (db, dr, gr) ->
  (max_total_bytes (m_limits (mem w)) < m_total_bytes (mem w) + db \/
   max_total_records (m_limits (mem w)) < m_total_records (mem w) + dr ->
   Q (Raise MessagingQuotaExceeded) w) ->
  (m_total_bytes (mem w) + db <= max_total_bytes (m_limits (mem w)) ->
   m_total_records (mem w) + dr <= max_total_records (m_limits (mem w)) ->
   wp (k (db, dr, gr)) (nf w name (put_stream_in thread s c1) (m_total_bytes (mem w) + db)
         (m_total_records (mem w) + dr) (m_expirations (mem w)) (monotonic_reads w)) Q) ->
  wp (let* c := gets (channel_of name) in
      let* m := gets mem in
      let* capacity := lift (effect_capacity c thread effect) in
      let '(bytes, records, generation_records) := capacity in
      do* raise_if (max_total_bytes (m_limits m) <? m_total_bytes m + bytes)
            MessagingQuotaExceeded in
      do* raise_if (max_total_records (m_limits m) <? m_total_records m + records)
            MessagingQuotaExceeded in
      do* match ef_channel effect with
          | Some stored => apply_channel name stored
          | None => ret tt
          end in
      do* open_stream name thread (ef_stream effect) in
      do* modify (on_mem (charge_total bytes records)) in
      k (bytes, records, generation_records)) w Q.
Proof.
  intros thread c c1 Hn Hr Hs Hcap Hq HQ.
  wp_step. wp_step. wp_step. wp_step. wp_step. fold c. rewrite Hcap. wp_step. cbn beta iota.
  wp_step. wp_step; bool_prop; [apply Hq; by left|].
  wp_step. wp_step; bool_prop; [apply Hq; by right|]. specialize (HQ H H0).
  wp_step. apply (wp_mono _ _ (fun rr w' => rr = Ok tt /\ w' = nf w name c1 (m_total_bytes (mem w))
    (m_total_records (mem w)) (m_expirations (mem w)) (monotonic_reads w))).
  { unfold c1, registered_as, registers in *. destruct (ef_channel effect) as [stored|].
    - destruct Hr as [Hr Hc]. unfold apply_channel. wp_step. wp_step. fold c in Hc |- *.
      rewrite Hc. simpl. wp_step. done.
    - wp_step. split; [done|]. by apply nf_self. }
  intros ? ? [-> ->]. wp_step.
  apply (wp_mono _ _ (fun rr w' => rr = Ok tt /\ w' = nf w name (put_stream_in thread s c1)
    (m_total_bytes (mem w)) (m_total_records (mem w)) (m_expirations (mem w)) (monotonic_reads w))).
  { assert (dget (c_streams c1) thread = dget (c_streams c) thread) as Hst.
    { unfold c1, registered_as. by destruct (ef_channel effect). }
    unfold open_stream, starts_from in *. destruct (ef_stream effect) as [es|].
    - unfold get_stream. wp_step. wp_step. rewrite stream_of_nf, Hst.
      destruct (dget (c_streams c) thread) as [s0|] eqn:E0.
      + destruct Hs as [Hg ->]. rewrite Hg, Z.eqb_refl. simpl. wp_step. split; [done|].
        f_equal. unfold put_stream_in. rewrite dset_same by done. by destruct c1.
      + subst s. unfold when. wp_step. split; [done|]. by rewrite put_stream_nf.
    - wp_step. split; [done|]. f_equal. unfold put_stream_in.
      rewrite dset_same by congruence. by destruct c1. }
  intros ? ? [-> ->]. wp_step. wp_step. done.
Qed.

(** ** The whole effect *)

Lemma channel_of_ok w name : winv w -> ready w name -> channel_ok name (channel_of name w).
Proof. intros Hw Hr. by apply (works_with_ok w name), works_with_channel_of. Qed.

Lemma registered_as_ok effect name c : channel_ok name c -> channel_ok name (registered_as effect c).
Proof.
  intros [H1 (H2a & H2b & H2c) H3 H4 H5]. unfold registered_as.
  destruct (ef_channel effect); by split.
Qed.

(** The records charged for a channel and a thread that are new. *)
Lemma capacity_spec w name thread effect s db dr gr :
  winv w -> registers w name effect -> starts_from (channel_of name w) thread effect s ->
  effect_capacity (channel_of name w) thread effect = Ok (db, dr, gr) ->
  dr = gr + (1 - oval (fun _ => 1) (dget (m_channels (mem w)) name)) +
    match dget (c_streams (channel_of name w)) thread with
    | Some _ => 0
    | None => 1 + new_thread (channel_of name w) thread
    end.
Proof.
  intros Hw Hr Hs Hcap. unfold effect_capacity in Hcap.
  destruct (runs_capacity _ _) as [runs|]; [|done]. simpl in Hcap.
  destruct (message_capacity _ _) as [message|]; [|done]. simpl in Hcap. simplify_eq.
  assert (match c_codec (channel_of name w), ef_channel effect with None, Some _ => 1 | _, _ => 0 end =
    1 - oval (fun _ => 1) (dget (m_channels (mem w)) name)) as ->.
  { unfold registers in Hr. destruct (ef_channel effect).
    - destruct Hr as [-> ->]. done.
    - rewrite Hr. by destruct (c_codec _). }
  unfold starts_from, new_thread in *. destruct (ef_stream effect), (dget (c_streams _) thread);
    simpl; try lia; try done.
Qed.

Lemma wp_apply w name identity effect db dr gr s (Q : res msg_exn unit -> World -> Prop) :
  let thread := thread_key identity in
  let c := channel_of name w in
  let s' d := deadlined (ef_retention_action effect) d (effected identity effect db gr s) in
  winv w -> ready w name -> registers w name effect -> starts_from c thread effect s ->
  ef_tombstone_reason effect = None -> effect_capacity c thread effect = Ok (db, dr, gr) ->
  s_retained_bytes s = oval s_retained_bytes (dget (c_streams c) thread) ->
  s_retained_records s = default 1 (s_retained_records <$> dget (c_streams c) thread) ->
  s_generation s = current_generation c thread ->
  (ef_retention_action effect = RetentionNone ->
     s_expires_at_monotonic (effected identity effect db gr s) =
     dget (c_streams c) thread ≫= s_expires_at_monotonic) ->
  (forall d, stream_ok thread (s' d)) ->
  (forall d s0, dget (c_streams c) thread = Some s0 -> stream_follows s0 (s' d)) ->
  Q (Raise MessagingQuotaExceeded) w ->
  (forall d w', winv w' -> follows w w' -> outside w w' -> only_thread name thread w w' ->
     live w' name thread = Some (s' d) -> Q (Ok tt) w') ->
  wp (apply_memory_effect name identity effect) w Q.
Proof.
  intros thread c s' Hw Hrd Hr Hs Ht Hcap Hb Hrec Hg Hx Hok Hf Hq HQ.
  pose proof (channel_of_ok w name Hw Hrd) as Hc. fold c in Hc.
  apply (wp_apply_opening w name identity effect db dr gr s Q (fun cap => let '(bytes, _, gr) := cap in _));
    [apply Hc|done|done|done|done|].
  intros Hlb Hlr.
  apply wp_apply_stream with (s := s); [apply stream_put_stream_in|]. rewrite put_stream_in_twice.
  wp_step. apply wp_apply_retention; [apply (registered_as_ok effect name c Hc)|].
  intros d mr Hmr. rewrite Ht. simpl. wp_step. fold thread c. fold (s' d).
  set (c1 := registered_as effect c).
  assert (works_with w name c1) as Hww.
  { unfold works_with, c1, registered_as, registers in *. destruct (ef_channel effect) as [st|].
    - destruct Hr as [Hr Hc0]. right. split; [done|]. simpl. fold c in Hc0. by rewrite Hc0.
    - by left. }
  assert (c_streams c1 = c_streams c) as Hcs by (unfold c1, registered_as; by destruct (ef_channel effect)).
  assert (c_next_generations c1 = c_next_generations c) as Hcn
    by (unfold c1, registered_as; by destruct (ef_channel effect)).
  destruct (retained_effected identity effect db gr s) as (B1 & R1 & G1).
  destruct (retained_deadlined (ef_retention_action effect) d (effected identity effect db gr s))
    as (B2 & R2 & G2). fold (s' d) in B2, R2, G2.
  assert (channel_bytes c1 = oval channel_bytes (dget (m_channels (mem w)) name) /\
    channel_records c1 = oval channel_records (dget (m_channels (mem w)) name) +
      (1 - oval (fun _ => 1) (dget (m_channels (mem w)) name)) /\ is_Some (c_codec c1)) as (Hcb & Hcr & Hcc).
  { unfold c1, registered_as, registers in *. destruct (ef_channel effect) as [st|].
    - destruct Hr as [-> Hr]. fold c in Hr. rewrite Hr. split_and!; [done|done|by eexists].
    - rewrite Hr. simpl. fold c. split_and!; [done|lia|].
      destruct Hw as [Hm _]. by apply (mo_channel _ Hm name). }
  apply HQ with (d := d).
  - apply nf_ok; [apply Hw| |done| | |done|done|].
    + apply channel_ok_put; [by apply registered_as_ok|apply Hok|].
      unfold current_generation. rewrite Hcn, G2, G1. done.
    + rewrite channel_bytes_put, Hcs, B2, B1, Hb, Hcb. lia.
    + rewrite channel_records_put, Hcs, R2, R1, Hrec, Hcr.
      rewrite (capacity_spec w name thread effect s db dr gr) by done. fold c.
      unfold new_thread. rewrite Hcn. destruct (dget (c_streams c) thread); simpl; lia.
    + eapply index_ok_ext.
      { intros key. symmetry. apply expiry_of_put with (c0 := c).
        destruct (works_with_streams _ _ _ Hww) as [(c0 & H0 & H1)|?]; [|by right].
        left. split; [|done]. unfold c, channel_of. by rewrite H0. }
      destruct Hw as [_ Hi]. unfold indexed_as. case_bool_decide as Ha.
      * eapply index_ok_ext; [|exact Hi]. intros key. unfold reset.
        destruct (decide (key = (name, thread))) as [->|]; [|done].
        unfold s', deadlined. rewrite Ha, Hx by done. unfold expiry_of. simpl.
        destruct (works_with_streams _ _ _ Hww) as [(c0 & H0 & H1)|[H0 H1]]; rewrite H0; simpl.
        -- by rewrite H1, Hcs.
        -- by rewrite <-Hcs, H1.
      * apply index_set_ok, Hi.
  - apply follows_put; [done|done|done|]. intros s0. rewrite Hcs. apply Hf.
  - done.
  - intros n t Hne. unfold live. simpl. rewrite dget_dset. destruct (decide (name = n)) as [<-|]; [|done].
    simpl. rewrite dget_dset_ne by congruence.
    destruct (works_with_streams _ _ _ Hww) as [(c0 & H0 & H1)|[H0 H1]]; rewrite H0; simpl; [by rewrite H1|].
    by rewrite H1.
  - unfold live. simpl. rewrite dget_dset_eq. simpl. apply dget_dset_eq.
Qed.

(** ** Effects that change nothing, and the end of a generation *)

Lemma charge_nothing s : charge_stream 0 0 s = s.
Proof. unfold charge_stream. rewrite !Z.add_0_r. by destruct s. Qed.

Lemma charge_total_nothing w : on_mem (charge_total 0 0) w = w.
Proof. unfold on_mem, charge_total. rewrite !Z.add_0_r. by destruct w as [[] ? ? ? ?]. Qed.

Lemma put_stream_same w name thread s :
  dget (m_channels (mem w)) name = Some (channel_of name w) ->
  stream_of name thread w = Some s -> put_stream name thread s w = w.
Proof.
  intros Hc Hs. unfold put_stream, put_stream_in, stream_of in *. rewrite dset_same by done.
  unfold put_channel. rewrite Hc. unfold on_mem, set_channels, set_streams.
  rewrite dset_same; [by destruct w as [[] ? ? ? ?]|]. rewrite Hc. by destruct (channel_of name w).
Qed.

Lemma wp_apply_nothing w name identity result (Q : res msg_exn unit -> World -> Prop) :
  winv w -> ready w name -> Q (Ok tt) w ->
  wp (apply_memory_effect name identity (new_effect result)) w Q.
Proof.
  intros [Hm _] Hr HQ. unfold apply_memory_effect.
  set (thread := thread_key identity). destruct (mo_limits _ Hm) as [Hb Hrec].
  assert (effect_capacity (channel_of name w) thread (new_effect result) = Ok (0, 0, 0)) as E0.
  { unfold effect_capacity. simpl. by destruct (c_codec _). }
  wp_step. wp_step. wp_step. wp_step. wp_step. rewrite E0. wp_step. cbn beta iota.
  rewrite !Z.add_0_r, !(proj2 (Z.ltb_ge _ _)) by done.
  unfold raise_if. cbn [ef_channel ef_stream ef_runs ef_message ef_retention_action
    ef_tombstone_reason new_effect open_stream apply_stream apply_tombstone is_nil negb].
  do 10 wp_step. wp_step.
  rewrite charge_total_nothing.
  assert (forall f, (forall s, f s = s) -> wp (update_stream name thread f) w
    (fun r w' => r = Ok tt /\ w' = w)) as Hu.
  { intros f Hf. unfold update_stream, get_stream. wp_step. wp_step.
    destruct (stream_of name thread w) as [s|] eqn:Hs; wp_step; [|done].
    split; [done|]. rewrite Hf. apply put_stream_same; [|done].
    unfold stream_of, channel_of in *. destruct Hr as [[c Hc]|[Hc Hsc]]; rewrite Hc in *; [done|].
    simpl in Hs. by rewrite Hsc in Hs. }
  eapply wp_mono; [apply Hu, charge_nothing|]. intros ? ? [-> ->].
  wp_step. wp_step. wp_step. unfold require_stream, get_stream. wp_step. wp_step. simpl. wp_step.
  wp_step. eapply wp_mono; [by apply Hu|]. intros ? ? [-> ->].
  wp_step. wp_step. wp_step. unfold apply_retention, get_stream. wp_step. wp_step.
  destruct (stream_of name thread w); repeat wp_step; done.
Qed.

(** The stream is marked and retired at once; nothing is charged. *)
Lemma wp_apply_finish w name identity effect es reason s (Q : res msg_exn unit -> World -> Prop) :
  let thread := thread_key identity in
  winv w -> dget (m_channels (mem w)) name = Some (channel_of name w) ->
  live w name thread = Some s -> s_generation s = ss_generation es ->
  effect = {| ef_result := ef_result effect; ef_channel := None; ef_stream := Some es;
              ef_runs := []; ef_message := None; ef_lease_action := ef_lease_action effect;
              ef_lease_run_id := ef_lease_run_id effect; ef_retention_action := RetentionNone;
              ef_tombstone_reason := Some reason |} ->
  (forall w', winv w' -> follows w w' -> outside w w' -> only_thread name thread w w' ->
     live w' name thread = None -> tombstone_of w' name thread (s_generation s) = Some reason ->
     Q (Ok tt) w') ->
  wp (apply_memory_effect name identity effect) w Q.
Proof.
  intros thread Hw Hc Hl Hg He HQ. set (c := channel_of name w) in *.
  assert (dget (c_streams c) thread = Some s) as Hs by (unfold live in Hl; by rewrite Hc in Hl).
  pose proof (mo_channel _ (proj1 Hw) _ _ Hc) as [Hok Hcodec].
  destruct (co_stream _ _ Hok _ _ Hs) as [Hso Hcur].
  assert (effect_capacity c thread effect = Ok (0, 0, 0)) as Hcap.
  { unfold effect_capacity. rewrite He, Hs. simpl. by destruct (c_codec c). }
  apply (wp_apply_opening w name identity effect 0 0 0 s Q
    (fun cap => let '(bytes, _, gr) := cap in _)).
  - apply Hok.
  - unfold registers. by rewrite He.
  - unfold starts_from. rewrite He. simpl. fold thread c. by rewrite Hs.
  - done.
  - intros Hbad. destruct (mo_limits _ (proj1 Hw)). lia.
  - intros Hlb Hlr. apply wp_apply_stream with (s := s); [apply stream_put_stream_in|].
    rewrite put_stream_in_twice.
    wp_step. apply wp_apply_retention; [rewrite He; apply Hok|].
    intros d mr Hmr. rewrite He at 1 2. cbn [ef_tombstone_reason]. unfold apply_tombstone, get_stream.
    wp_step. wp_step. rewrite stream_of_nf, stream_put_stream_in. cbn beta iota.
    fold thread c. set (s1 := deadlined _ d _).
    assert (s_retained_bytes s1 = s_retained_bytes s /\ s_retained_records s1 = s_retained_records s /\
      s_generation s1 = s_generation s) as (B & R & G).
    { unfold s1. rewrite He. simpl. split_and!; [apply Z.add_0_r|apply Z.add_0_r|done]. }
    assert (registered_as effect c = c) as -> by (by rewrite He).
    apply (wp_retire _ name thread (put_stream_in thread s1 c) s1 reason _ _
             (expiry_of (m_channels (mem w)))); [apply Hok| |].
    2: { unfold indexed_as. rewrite He. simpl. apply Hw. }
    intros x' Hx'. rewrite !Z.add_0_r, B, R.
    assert (retired thread s1 reason (put_stream_in thread s1 c) = retired thread s reason c) as ->.
    { unfold retired, put_stream_in, record_tombstone, set_streams. simpl. rewrite G.
      f_equal. clear. induction (c_streams c) as [|[k v] l IH]; simpl.
      - by rewrite decide_True.
      - destruct (decide (thread = k)) as [->|]; simpl.
        + by rewrite decide_True.
        + rewrite decide_False by done. by rewrite IH. }
    apply HQ.
    + apply nf_ok; try done; [apply Hw|by apply channel_ok_retired| | | | |].
      * rewrite Hc. simpl. rewrite (channel_bytes_retired thread s) by (done || apply Hok). fold c. lia.
      * rewrite Hc. simpl. rewrite (channel_records_retired name thread s) by done. fold c. lia.
      * pose proof (stream_bytes_nonneg _ _ Hso). lia.
      * pose proof (stream_records_pos _ _ Hso). lia.
      * eapply index_ok_ext; [|exact Hx']. intros key. symmetry. by apply expiry_of_retired.
    + apply follows_retired with (s := s); try done. apply Hw.
    + done.
    + intros n t Hne. unfold live. simpl. rewrite dget_dset. destruct (decide (name = n)) as [<-|]; [|done].
      rewrite Hc. simpl. rewrite dget_ddel_ne by congruence. done.
    + unfold live. simpl. rewrite dget_dset_eq. simpl. apply dget_ddel_eq.
    + unfold tombstone_of. simpl. rewrite dget_dset_eq. simpl. rewrite tombstones_retired.
      rewrite decide_True by done. apply dget_dset_eq.
Qed.
End apply.

(** ** Commits: what a snapshot shows *)

(** Takes a computation that returned apart. *)
Ltac inv_ok :=
  repeat match goal with
  | H : rbind _ _ = Ok _ |- _ => apply rbind_ok in H as (? & ? & H)
  | H : rraise_if _ _ = Ok _ |- _ => apply rraise_if_ok in H
  | H : Ok _ = Ok _ |- _ => progress simplify_eq
  | H : Raise _ = Ok _ |- _ => discriminate H
  | H : (match ?p with pair _ _ => _ end) = Ok _ |- _ => destruct p; cbn beta iota in H
  | H : (if ?b then _ else _) = Ok _ |- _ => destruct b eqn:?
  end; bool_prop.

Section commit.
Context {sha256 : Sha256} {env : MessagingEnv} {keys : ThreadKeys}.
Implicit Types (w : World) (c : ChannelState) (s : StreamState) (r : RunRecord)
  (t : MessagingTransition) (name thread : pystr) (identity : RunIdentity).

(** ** Snapshots *)

(** The storage clock is read. *)
Definition utc_tick w : World :=
  {| mem := mem w; scratch := scratch w; waiters := waiters w; utc_reads := S (utc_reads w);
     monotonic_reads := monotonic_reads w |}.

Definition snapshot_of w name identity (generation : option Z)
    (matching : option StoredMessageEvidence) (include_active_run : bool)
    : MessagingStateSnapshot :=
  let c := channel_of name w in
  let thread := thread_key identity in
  let tombstone := tombstone_reason c thread generation in
  let selected := selected_stream c thread generation in
  {| sn_observed_at := utc_now (utc_reads w);
     sn_channel := stored_channel name c (mem w);
     sn_stream := stored_stream name identity <$> selected;
     sn_target_run := selected ≫= fun s =>
       (fun r => stored_memory_run r (s_generation s)) <$> dget (s_runs s) (i_run_id identity);
     sn_active_run := selected ≫= fun s =>
       (fun r => stored_memory_run r (s_generation s)) <$>
         other_active_run s (i_run_id identity) include_active_run;
     sn_matching_message := matching;
     sn_tombstone_generation := fst <$> tombstone;
     sn_tombstone_reason := snd <$> tombstone |}.

(** The evidence found for a message identifier, and that it can be signed. *)
Definition matching_of w name identity (generation : option Z) (message_id : option pystr)
    (matching : option StoredMessageEvidence) : Prop :=
  match selected_stream (channel_of name w) (thread_key identity) generation with
  | None => matching = None
  | Some s => stored_evidence s identity message_id = Ok matching
  end.

Lemma thread_key_eq i j :
  thread_key i = thread_key j -> i_namespace i = i_namespace j /\ i_thread_id i = i_thread_id j.
Proof. apply thread_json_inj. Qed.

Lemma identity_in_thread i j :
  thread_key i = thread_key j ->
  {| i_namespace := i_namespace i; i_thread_id := i_thread_id i; i_run_id := i_run_id j |} = j.
Proof. intros [-> ->]%thread_key_eq. by destruct j. Qed.

(** The active identity of the thread's own identity. *)
Lemma selected_live w name thread generation s :
  ready w name -> selected_stream (channel_of name w) thread generation = Some s ->
  live w name thread = Some s /\ forall g, generation = Some g -> g = s_generation s.
Proof.
  intros Hr Hs. rewrite <-live_stream_of by done. unfold selected_stream in Hs.
  change (dget (c_streams (channel_of name w)) thread) with (stream_of name thread w) in Hs.
  destruct (stream_of name thread w) as [s0|]; [|done]. simpl in Hs.
  destruct generation as [g|]; [destruct (s_generation s0 =? g) eqn:Hg|]; simpl in Hs; simplify_eq;
    bool_prop; split; try done; intros ? [= <-]; done.
Qed.

Lemma live_ok w name thread s :
  winv w -> live w name thread = Some s ->
  stream_ok thread s /\ dget (m_channels (mem w)) name = Some (channel_of name w) /\
  dget (c_streams (channel_of name w)) thread = Some s /\
  s_generation s = current_generation (channel_of name w) thread.
Proof.
  intros [Hm _] Hl. unfold live in Hl. unfold channel_of.
  destruct (dget (m_channels (mem w)) name) as [c|] eqn:Hc; [|done]. simpl in *.
  destruct (mo_channel _ Hm _ _ Hc) as [Hok _]. destruct (co_stream _ _ Hok _ _ Hl). done.
Qed.

Lemma stored_evidence_ok thread s identity message_id :
  stream_ok thread s -> thread_key identity = thread ->
  exists matching, stored_evidence s identity message_id = Ok matching.
Proof.
  intros Hs Ht. unfold stored_evidence. destruct message_id as [id|]; [|by eexists].
  destruct (dget (s_by_message_id s) id) as [e|] eqn:He; [|by eexists].
  apply (so_by_id _ _ Hs) in He as [He <-].
  destruct (so_evidence _ _ Hs e He) as (k & sg & -> & _ & Hsg).
  rewrite identity_in_thread; [rewrite Hsg; by eexists|].
  rewrite Ht. symmetry. by apply (so_thread _ _ Hs).
Qed.

Lemma wp_snapshot w name identity generation message_id incl
    (Q : res msg_exn MessagingStateSnapshot -> World -> Prop) :
  winv w -> ready w name ->
  (forall matching, matching_of w name identity generation message_id matching ->
     Q (Ok (snapshot_of w name identity generation matching incl)) (utc_tick w)) ->
  wp (memory_state_snapshot name identity generation message_id incl) w Q.
Proof.
  intros Hw Hr HQ. unfold memory_state_snapshot. wp_step. wp_step. wp_step. wp_step.
  unfold matching_of, snapshot_of in HQ.
  destruct (selected_stream (channel_of name w) (thread_key identity) generation) as [s|] eqn:Hs.
  - destruct (selected_live _ _ _ _ _ Hr Hs) as [Hl _].
    destruct (live_ok _ _ _ _ Hw Hl) as [Hok _].
    destruct (stored_evidence_ok _ _ identity message_id Hok eq_refl) as [matching Hm].
    rewrite Hm. wp_step. wp_step. wp_step. apply (HQ matching). done.
  - wp_step. apply (HQ None). done.
Qed.

(** ** What a snapshot of a stream shows *)

Lemma max_generation_le k l : k ∈ l -> k <= default 0 (max_generation l).
Proof.
  induction l as [|x l IH]; [by intros ?%elem_of_nil|].
  intros [->|Hk]%elem_of_cons; simpl; [destruct (max_generation l); simpl; lia|].
  specialize (IH Hk). destruct (max_generation l) eqn:E; simpl in *; [lia|].
  destruct l; [by apply elem_of_nil in Hk|done].
Qed.

Lemma next_fence_above thread s id r :
  stream_ok thread s -> dget (s_runs s) id = Some r -> r_fence r < next_fence (s_runs s).
Proof.
  intros Hs Hr. unfold next_fence.
  assert (r_fence r <= default 0 (max_generation (map r_fence (dvals (s_runs s))))); [|lia].
  apply max_generation_le, list_elem_of_fmap_2. by eapply dget_elem_of_dvals.
Qed.

Lemma next_fence_pos thread s : stream_ok thread s -> 1 <= next_fence (s_runs s).
Proof.
  intros Hs. unfold next_fence.
  assert (0 <= default 0 (max_generation (map r_fence (dvals (s_runs s))))); [|lia].
  destruct (s_runs s) as [|[id r] l] eqn:E; [done|].
  assert (dget (s_runs s) id = Some r) as Hr by (rewrite E; simpl; by rewrite decide_True).
  pose proof (ro_fence _ _ _ _ (so_runs _ _ Hs _ _ Hr)).
  assert (r_fence r ∈ map r_fence (dvals ((id, r) :: l))) as Hin by (simpl; by left).
  pose proof (max_generation_le _ _ Hin). lia.
Qed.

Lemma lease_active thread s id r g :
  stream_ok thread s -> dget (s_runs s) id = Some r ->
  sr_producer_lease_active (stored_memory_run r g) = negb (is_final_run_status (r_status r)).
Proof.
  intros Hs Hr. pose proof (so_runs _ _ Hs _ _ Hr) as Ho. simpl.
  destruct (is_final_run_status (r_status r)) eqn:Hf; [done|].
  destruct (ro_open _ _ _ _ Ho Hf) as [[tok ->] _]. done.
Qed.

(** The run of the transition and its stream. *)
Lemma target_run_inv w t name generation matching incl run :
  ready w name ->
  required_target_run t (snapshot_of w name (tr_identity t) generation matching incl) = Ok run ->
  exists s r, selected_stream (channel_of name w) (thread_key (tr_identity t)) generation = Some s /\
    live w name (thread_key (tr_identity t)) = Some s /\
    dget (s_runs s) (i_run_id (tr_identity t)) = Some r /\
    run = stored_memory_run r (s_generation s).
Proof.
  intros Hr. unfold required_target_run, snapshot_of. simpl.
  destruct (selected_stream _ _ generation) as [s|] eqn:Hs; simpl.
  - destruct (dget (s_runs s) _) as [r|] eqn:Hrun; simpl; intros H; inv_ok.
    exists s, r. split_and!; try done. by apply (selected_live _ _ _ _ _ Hr Hs).
  - intros H. by inv_ok.
Qed.

Lemma stream_inv w t name generation matching incl stream s :
  selected_stream (channel_of name w) (thread_key (tr_identity t)) generation = Some s ->
  required_stream t (snapshot_of w name (tr_identity t) generation matching incl) = Ok stream ->
  stream = stored_stream name (tr_identity t) s /\ s_disposition s = Active.
Proof. unfold required_stream, snapshot_of. simpl. intros -> H. simpl in H. by inv_ok. Qed.

(** The producer's evidence is that of an open run of the thread. *)
Lemma owned_run_inv w t name generation matching incl run stream reference :
  winv w -> ready w name ->
  owned_run t (snapshot_of w name (tr_identity t) generation matching incl) =
    Ok (run, stream, reference) ->
  exists s r, live w name (thread_key (tr_identity t)) = Some s /\ s_disposition s = Active /\
    dget (s_runs s) (i_run_id (tr_identity t)) = Some r /\
    is_final_run_status (r_status r) = false /\
    run = stored_memory_run r (s_generation s) /\ stream = stored_stream name (tr_identity t) s /\
    tr_run_reference t = Some reference /\ rf_generation reference = s_generation s /\
    rf_producer_token reference = r_owner_token r /\ rf_producer_fence reference = Some (r_fence r) /\
    r_identity r = tr_identity t.
Proof.
  intros Hw Hr H. unfold owned_run in H. inv_ok.
  apply target_run_inv in H1 as (s & r & Hs & Hl & Hrun & ->); [|done].
  apply stream_inv with (s := s) in H2 as [-> Hd]; [|done].
  unfold required_reference in H0. destruct (tr_run_reference t) as [rf|] eqn:Hrf; [|done]. inv_ok.
  unfold reference_matches_run, reference_names in *. simpl in *. bool_prop.
  exists s, r. split_and!; congruence.
Qed.
End commit.
