(* ===== verification/MsgKinds.v ===== *)
(** Messaging: what each kind of transition does, from the effect resolved for the
    snapshot of a thread to the stream it leaves behind. *)
From S2P Require Import Prelude PyDict PySeq MsgModels MsgTransition MsgMemory MsgInvariant MsgWorld.
From S2P Require Import Contracts.
From S2P Require Import MsgStream MsgApply.

(** Names the stream and the run a producer's evidence proves to be its own. *)
Ltac own_run s r :=
  match goal with
  | H : owned_run _ _ = Ok (_, _, ?rf) |- _ =>
      apply owned_run_inv in H as (s & r & Hl & Hd & Hrun & Hf & -> & -> & Href & Hgen & Htoken &
        Hfence & Hi); [|done..]
  end.

Section kinds.
Context {sha256 : Sha256} {env : MessagingEnv} {keys : ThreadKeys}.
Implicit Types (w : World) (c : ChannelState) (s : StreamState) (r : RunRecord)
  (t : MessagingTransition) (name thread : pystr) (identity : RunIdentity)
  (effect : MessagingStorageEffect).

(** What an effect on one thread does to the backend. *)
Definition advances name thread w w' : Prop :=
  winv w' /\ follows w w' /\ outside w w' /\ only_thread name thread w w'.

Lemma cp_bytes_of k : cp_ok k -> checkpoint_bytes k = Ok (cp_bytes k).
Proof. done. Qed.

Lemma effected_deadline identity effect db gr s :
  s_expires_at_monotonic (effected identity effect db gr s) = s_expires_at_monotonic s.
Proof.
  unfold effected.
  assert (forall runs s0, s_expires_at_monotonic (apply_runs runs s0) = s_expires_at_monotonic s0) as Hr.
  { unfold apply_runs. intros runs. induction runs as [|run runs IH]; intros s0; [done|]. simpl. by rewrite IH. }
  destruct (ef_message effect) as [e|]; [unfold apply_message; destruct (dmem _ _)|];
    simpl; rewrite Hr; by destruct (ef_stream effect).
Qed.

Lemma active_of_stored name thread identity s :
  stream_ok thread s -> thread_key identity = thread ->
  (fun run_id => {| i_namespace := i_namespace identity; i_thread_id := i_thread_id identity;
     i_run_id := run_id |}) <$> (i_run_id <$> s_active_identity s) = s_active_identity s.
Proof.
  intros Hs Ht. destruct (s_active_identity s) as [a|] eqn:Ha; [|done]. simpl. f_equal.
  destruct (so_active _ _ Hs a Ha) as (r & Hr & Hf).
  pose proof (so_runs _ _ Hs _ _ Hr) as Ho. destruct (ro_open _ _ _ _ Ho Hf) as [_ Hi].
  rewrite Ha in Hi. injection Hi as ->. apply identity_in_thread. rewrite Ht.
  symmetry. apply (ro_thread _ _ _ _ Ho).
Qed.

(** An open run is the active one. *)
Lemma open_run_active thread s id r :
  stream_ok thread s -> dget (s_runs s) id = Some r -> is_final_run_status (r_status r) = false ->
  s_active_identity s = Some (r_identity r) /\ is_Some (r_owner_token r) /\
  i_run_id (r_identity r) = id /\ s_expires_at_monotonic s = None.
Proof.
  intros Hs Hr Hf. pose proof (so_runs _ _ Hs _ _ Hr) as Ho.
  destruct (ro_open _ _ _ _ Ho Hf) as [Ht Ha]. split_and!; try done; [by apply ro_id in Ho|].
  destruct (s_expires_at_monotonic s) eqn:Hx; [|done].
  rewrite (so_expiring _ _ Hs) in Ha; [done|by rewrite Hx].
Qed.

(** ** One open run changes *)

(** The update of an open run [r], in a stream that holds [n] messages by then. *)
Record updates (n : Z) r (run : StoredMessagingRun) : Prop := {
  up_identity : sr_identity run = r_identity r;
  up_start : sr_start_sequence run = r_start_seq r;
  up_end : r_end_seq r <= sr_end_sequence run <= n;
  up_fence : sr_producer_fence run = r_fence r;
  up_digest : sr_request_digest run = r_request_digest r;
  up_token : sr_producer_token run =
    if is_final_run_status (sr_status run) then None else r_owner_token r;
  up_settling : r_settling r = true -> sr_settlement_started run = true;
  up_closed : r_publication_closed r = true -> sr_publication_closed run = true;
  up_checkpoint : cp_ok (sr_checkpoint run)
}.

(** The stream fields of the effect fit the run. *)
Definition stream_fits s1 (run : StoredMessagingRun) (es : option StoredMessagingStream) : Prop :=
  match es with
  | None => is_final_run_status (sr_status run) = false
  | Some es => ss_generation es = s_generation s1 /\ ss_disposition es = Active /\
      ss_payload_bytes es = s_payload_bytes s1 /\
      ss_active_run_id es = if is_final_run_status (sr_status run) then None
                            else Some (i_run_id (sr_identity run))
  end.

(** The message of an effect and the stream with it. *)
Definition with_message thread s (m : option StoredMessageEvidence) : StreamState :=
  match m with
  | None => s
  | Some e => message_committed thread s (ev_envelope e) (ev_checkpoint e)
  end.

Definition message_fits thread s (m : option StoredMessageEvidence) : Prop :=
  match m with
  | None => True
  | Some e => dget (s_by_message_id s) (e_message_id (ev_envelope e)) = None /\
      stream_ok thread (with_message thread s m) /\ cp_ok (ev_checkpoint e)
  end.

Definition evidence_bytes (m : option StoredMessageEvidence) : Z :=
  match m with
  | None => 0
  | Some e => zlen (e_payload (ev_envelope e)) + cp_bytes (ev_checkpoint e)
  end.

Definition evidence_records (m : option StoredMessageEvidence) : Z :=
  match m with None => 0 | Some _ => 1 end.

Lemma with_message_follows thread s m :
  stream_ok thread s -> s_disposition s = Active -> message_fits thread s m ->
  stream_follows s (with_message thread s m).
Proof.
  destruct m as [e|]; simpl; [|intros; apply stream_follows_refl].
  intros Hs Hd (Hn & _). by apply message_committed_follows.
Qed.

Lemma update_capacity c thread effect s r run :
  dget (c_streams c) thread = Some s -> dget (s_runs s) (i_run_id (sr_identity run)) = Some r ->
  ef_channel effect = None -> ef_runs effect = [run] ->
  message_fits thread s (ef_message effect) -> cp_ok (r_checkpoint r) -> cp_ok (sr_checkpoint run) ->
  effect_capacity c thread effect =
    Ok (cp_bytes (sr_checkpoint run) - cp_bytes (r_checkpoint r) + evidence_bytes (ef_message effect),
        evidence_records (ef_message effect), evidence_records (ef_message effect)).
Proof.
  intros Hs Hr Hch Hruns Hm H1 H2. unfold effect_capacity. rewrite Hs, Hch, Hruns.
  cbn [runs_capacity]. unfold run_capacity. cbn [mbind option_bind]. rewrite Hr. cbn [mbind option_bind].
  rewrite H1, H2. simpl.
  assert (message_capacity (Some s) (ef_message effect) =
    Ok (evidence_records (ef_message effect), evidence_bytes (ef_message effect))) as ->.
  { destruct (ef_message effect) as [e|]; [|done]. destruct Hm as (Hn & _ & Hk). simpl in *.
    unfold dmem. rewrite Hn. by rewrite Hk. }
  simpl. destruct (c_codec c), (ef_stream effect); simpl; do 2 f_equal; try lia; f_equal; lia.
Qed.

(** The whole effect of an update, field by field. *)
Lemma effected_update thread identity effect db gr s r run :
  message_fits thread s (ef_message effect) -> dget (s_runs s) (i_run_id (sr_identity run)) = Some r ->
  ef_runs effect = [run] ->
  effected identity effect db gr s =
  {| s_generation := s_generation s;
     s_disposition := match ef_stream effect with Some es => ss_disposition es | None => s_disposition s end;
     s_deleted := match ef_stream effect with
                  | Some es => negb (bool_decide (ss_disposition es = Active))
                  | None => s_deleted s
                  end;
     s_messages := s_messages (with_message thread s (ef_message effect));
     s_by_message_id := s_by_message_id (with_message thread s (ef_message effect));
     s_signatures := s_signatures (with_message thread s (ef_message effect));
     s_runs := dset (s_runs s) (i_run_id (sr_identity run)) (run_record run (r_identity r));
     s_active_identity := match ef_stream effect with
                          | Some es => active_of identity es
                          | None => s_active_identity s
                          end;
     s_payload_bytes := match ef_stream effect with
                        | Some es => ss_payload_bytes es
                        | None => s_payload_bytes s
                        end;
     s_retained_bytes := s_retained_bytes s + db;
     s_retained_records := s_retained_records s + gr;
     s_expires_at_monotonic := s_expires_at_monotonic s;
     s_control_sequence := match ef_stream effect with
                           | Some es => ss_control_sequence es
                           | None => s_control_sequence s
                           end |}.
Proof.
  intros Hm Hr Hruns. unfold effected. rewrite Hruns. unfold apply_runs, apply_run. simpl.
  destruct (ef_message effect) as [e|]; [destruct Hm as (Hn & _)|];
    destruct (ef_stream effect) as [es|]; simpl; rewrite Hr; try done;
    unfold apply_message, dmem; simpl; by rewrite Hn.
Qed.

Lemma run_recorded_deadline thread s s' id r' action d :
  run_recorded thread s s' id r' ->
  (is_final_run_status (r_status r') = false -> action = RetentionNone) ->
  run_recorded thread s (deadlined action d s') id r'.
Proof.
  intros [] Ha. destruct action; simpl; [done|split; try done|split; try done].
  - by intros [? ?].
  - intros _. simpl. rewrite rr_owner. destruct (is_final_run_status (r_status r')); [done|].
    by specialize (Ha eq_refl).
Qed.

(** What the update leaves: the run recorded in the stream with the message. *)
Lemma update_recorded identity effect s r run d :
  let thread := thread_key identity in
  let s1 := with_message thread s (ef_message effect) in
  stream_ok thread s -> message_fits thread s (ef_message effect) -> s_disposition s = Active ->
  dget (s_runs s) (i_run_id identity) = Some r -> is_final_run_status (r_status r) = false ->
  r_identity r = identity -> ef_runs effect = [run] -> updates (zlen (s_messages s1)) r run ->
  stream_fits s1 run (ef_stream effect) ->
  (ef_stream effect = None -> ef_message effect = None) ->
  (is_final_run_status (sr_status run) = false -> ef_retention_action effect = RetentionNone) ->
  run_recorded thread s1
    (deadlined (ef_retention_action effect) d (effected identity effect
      (cp_bytes (sr_checkpoint run) - cp_bytes (r_checkpoint r) + evidence_bytes (ef_message effect))
      (evidence_records (ef_message effect)) s)) (i_run_id identity) (run_record run identity).
Proof.
  intros thread s1 Hs Hm Hd Hr Hf Hi Hruns Hu Hfit Hem Hact.
  apply run_recorded_deadline; [|done].
  pose proof (so_runs _ _ Hs _ _ Hr) as Ho.
  destruct (open_run_active _ _ _ _ Hs Hr Hf) as (Ha & Htok & Hid & Hx).
  destruct Hu as [U1 U2 U3 U4 U5 U6 U7 U8 U9].
  assert (s_runs s1 = s_runs s /\ s_disposition s1 = Active /\
    s_active_identity s1 = s_active_identity s /\ s_generation s1 = s_generation s /\
    s_retained_bytes s1 = s_retained_bytes s + evidence_bytes (ef_message effect) /\
    s_retained_records s1 = s_retained_records s + evidence_records (ef_message effect))
    as (R1 & D1 & A1 & G1 & B1 & N1).
  { unfold s1, with_message. destruct (ef_message effect); simpl; split_and!; try done; lia. }
  rewrite (effected_update thread identity effect _ _ s r run) by (try done; congruence). fold s1.
  rewrite U1, Hi. unfold stream_fits in Hfit.
  assert (0 <= r_start_seq r <= r_end_seq r) as Hrg by (by apply (ro_range _ _ _ _ Ho)).
  split; simpl; rewrite ?R1, ?Hr, ?Hx; try done; try lia.
  - split; [done|]. destruct (ef_stream effect); [by destruct Hfit as (_ & ? & _)|done].
  - rewrite A1, Ha. congruence.
  - destruct (ef_stream effect) as [es|].
    + destruct Hfit as (_ & _ & _ & F4). unfold active_of. rewrite F4.
      rewrite U1, Hi. destruct (is_final_run_status (sr_status run)); [done|]. simpl. f_equal.
      by apply identity_in_thread.
    + rewrite Hfit. congruence.
  - rewrite U6. by destruct (is_final_run_status (sr_status run)).
  - rewrite U4. split; [apply (ro_fence _ _ _ _ Ho)|]. intros id0 r0 Hne H0 He. apply Hne.
    by apply (so_fences _ _ Hs id0 (i_run_id identity) r0 r).
  - destruct (ef_stream effect) as [es|]; [apply Hfit|]. unfold s1. by rewrite Hem.
  - rewrite B1. unfold run_bytes. simpl. lia.
  - rewrite N1. simpl. lia.
Qed.

Lemma update_run_follows n r run identity :
  r_identity r = identity -> is_final_run_status (r_status r) = false -> updates n r run ->
  run_follows r (run_record run identity).
Proof.
  intros Hi Hf [U1 U2 U3 U4 U5 U6 U7 U8 U9]. split; simpl; try done; try lia.
  - rewrite U6. destruct (is_final_run_status (sr_status run)); auto.
  - congruence.
Qed.

(** An effect that updates the open run of its thread. *)
Lemma wp_apply_update w name identity effect s r run (Q : res msg_exn unit -> World -> Prop) :
  let thread := thread_key identity in
  let s1 := with_message thread s (ef_message effect) in
  winv w -> ready w name -> live w name thread = Some s -> s_disposition s = Active ->
  dget (s_runs s) (i_run_id identity) = Some r -> is_final_run_status (r_status r) = false ->
  r_identity r = identity -> ef_channel effect = None -> ef_runs effect = [run] ->
  ef_tombstone_reason effect = None -> message_fits thread s (ef_message effect) ->
  updates (zlen (s_messages s1)) r run -> stream_fits s1 run (ef_stream effect) ->
  (ef_stream effect = None -> ef_message effect = None) ->
  (is_final_run_status (sr_status run) = false -> ef_retention_action effect = RetentionNone) ->
  Q (Raise MessagingQuotaExceeded) w ->
  (forall s' w', advances name thread w w' -> live w' name thread = Some s' ->
     run_recorded thread s1 s' (i_run_id identity) (run_record run identity) -> Q (Ok tt) w') ->
  wp (apply_memory_effect name identity effect) w Q.
Proof.
  intros thread s1 Hw Hrd Hl Hd Hr Hf Hi Hch Hruns Ht Hm Hu Hfit Hem Hact Hq HQ.
  destruct (live_ok _ _ _ _ Hw Hl) as (Hs & Hc & Hst & Hg).
  pose proof (so_runs _ _ Hs _ _ Hr) as Ho.
  pose proof (update_capacity (channel_of name w) thread effect s r run Hst) as Hcap.
  rewrite (up_identity _ _ _ Hu), Hi in Hcap.
  specialize (Hcap Hr Hch Hruns Hm (ro_checkpoint _ _ _ _ Ho) (up_checkpoint _ _ _ Hu)).
  assert (forall d, run_recorded thread s1 (deadlined (ef_retention_action effect) d
    (effected identity effect (cp_bytes (sr_checkpoint run) - cp_bytes (r_checkpoint r) +
       evidence_bytes (ef_message effect)) (evidence_records (ef_message effect)) s))
    (i_run_id identity) (run_record run identity)) as Hrec by (intros d; by apply update_recorded with (r := r)).
  assert (stream_ok thread s1) as Hs1
    by (unfold s1; destruct (ef_message effect); [apply Hm|done]).
  assert (dget (s_runs s1) (i_run_id identity) = Some r) as Hr1
    by (unfold s1; by destruct (ef_message effect)).
  eapply (wp_apply w name identity effect); try done; fold thread.
  - unfold registers. by rewrite Hch.
  - unfold starts_from. destruct (ef_stream effect) as [es|] eqn:Hes; rewrite Hst; [|done].
    destruct Hfit as (F & _). rewrite F. split; [|done]. unfold s1. by destruct (ef_message effect).
  - by rewrite Hst.
  - by rewrite Hst.
  - intros _. by rewrite effected_deadline, Hst.
  - intros d. by apply (run_recorded_ok thread s1 _ _ _ Hs1 (Hrec d)).
  - intros d s0. rewrite Hst. intros [= <-].
    assert (s_disposition s = Active) as Hreadable.
    { destruct (rr_active _ _ _ _ _ (Hrec d)) as [<- _]. unfold s1. by destruct (ef_message effect). }
    eapply stream_follows_trans; [by apply (with_message_follows thread s (ef_message effect))|].
    apply (run_recorded_follows thread s1 _ _ _ Hs1 (Hrec d)).
    + rewrite Hr1. intros ? [= <-]. by eapply update_run_follows.
    + by rewrite Hr1.
  - intros d w' H1 H2 H3 H4 H5. eapply HQ; by eauto.
Qed.

Lemma advances_refl name thread w : winv w -> advances name thread w w.
Proof. intros Hw. split_and!; [done|apply msg_follows_refl|done|done]. Qed.

Lemma target_identity s identity r :
  stream_ok (thread_key identity) s -> dget (s_runs s) (i_run_id identity) = Some r ->
  r_identity r = identity.
Proof.
  intros Hs Hr. pose proof (so_runs _ _ Hs _ _ Hr) as Ho.
  rewrite <-(identity_in_thread (r_identity r) identity) by apply (ro_thread _ _ _ _ Ho).
  pose proof (ro_id _ _ _ _ Ho). destruct (r_identity r); simpl in *. congruence.
Qed.

Lemma open_run_ok w name thread s id r :
  winv w -> live w name thread = Some s -> s_disposition s = Active -> dget (s_runs s) id = Some r ->
  is_final_run_status (r_status r) = false ->
  stream_ok thread s /\ run_ok thread s id r /\ is_Some (r_owner_token r) /\
  (0 <= r_start_seq r <= r_end_seq r /\ r_end_seq r <= zlen (s_messages s)) /\
  cp_ok (r_checkpoint r).
Proof.
  intros Hw Hl Hd Hr Hf. destruct (live_ok _ _ _ _ Hw Hl) as (Hs & _).
  pose proof (so_runs _ _ Hs _ _ Hr) as Ho. destruct (ro_open _ _ _ _ Ho Hf) as [? _].
  destruct (ro_range _ _ _ _ Ho Hd). split_and!; try done; try lia. apply (ro_checkpoint _ _ _ _ Ho).
Qed.

(** ** Settlement, the end of a run and cancellation *)

Lemma apply_begin_settlement w t name generation matching incl effect
    (Q : res msg_exn unit -> World -> Prop) :
  winv w -> ready w name ->
  resolve_begin_settlement t (snapshot_of w name (tr_identity t) generation matching incl) = Ok effect ->
  Q (Raise MessagingQuotaExceeded) (utc_tick w) ->
  (forall w', advances name (thread_key (tr_identity t)) (utc_tick w) w' -> Q (Ok tt) w') ->
  wp (apply_memory_effect name (tr_identity t) effect) (utc_tick w) Q.
Proof.
  intros Hw Hr H Hq HQ. unfold resolve_begin_settlement in H. inv_ok.
  own_run st r.
  destruct (open_run_ok _ _ _ _ _ _ Hw Hl Hd Hrun Hf) as (Hs & Ho & Htok & Hrg & Hcp).
  eapply (wp_apply_update (utc_tick w)); try done; simpl; try done.
  - split; simpl; rewrite ?Hf; try done; lia.
  - intros s' w' Ha _ _. by apply HQ.
Qed.

Lemma apply_finish_run w t name generation matching incl effect
    (Q : res msg_exn unit -> World -> Prop) :
  winv w -> ready w name ->
  resolve_finish_run t (snapshot_of w name (tr_identity t) generation matching incl) = Ok effect ->
  Q (Raise MessagingQuotaExceeded) (utc_tick w) ->
  (forall w', advances name (thread_key (tr_identity t)) (utc_tick w) w' -> Q (Ok tt) w') ->
  wp (apply_memory_effect name (tr_identity t) effect) (utc_tick w) Q.
Proof.
  intros Hw Hr H Hq HQ. unfold resolve_finish_run in H. inv_ok. own_run st r.
  destruct (open_run_ok _ _ _ _ _ _ Hw Hl Hd Hrun Hf) as (Hs & Ho & Htok & Hrg & Hcp).
  destruct (tr_final_status t) as [requested|]; [|done]. inv_ok.
  match goal with |- context [release_effect (status_result _ ?x)] =>
    assert (is_final_run_status x = true) as Hfin by (by destruct (_ && _)); set (status := x) in * end.
  eapply (wp_apply_update (utc_tick w)); try done; simpl; try done.
  - split; simpl; rewrite ?Hfin; try done; lia.
  - destruct (open_run_active _ _ _ _ Hs Hrun Hf) as (Ha & _). rewrite Hfin. split_and!; try done.
    unfold without_active. simpl. rewrite Ha. simpl. rewrite Hi. by case_bool_decide.
  - congruence.
  - intros s' w' Ha _ _. by apply HQ.
Qed.

Lemma apply_request_cancellation w t name generation matching incl effect
    (Q : res msg_exn unit -> World -> Prop) :
  winv w -> ready w name ->
  resolve_request_cancellation t (snapshot_of w name (tr_identity t) generation matching incl) = Ok effect ->
  Q (Raise MessagingQuotaExceeded) (utc_tick w) ->
  (forall w', advances name (thread_key (tr_identity t)) (utc_tick w) w' -> Q (Ok tt) w') ->
  wp (apply_memory_effect name (tr_identity t) effect) (utc_tick w) Q.
Proof.
  intros Hw Hr H Hq HQ. unfold resolve_request_cancellation in H. inv_ok;
    [apply wp_apply_nothing; [done|done|]; by apply HQ, advances_refl..|].
  apply target_run_inv in H0 as (st & r & Hsel & Hl & Hrun & ->); [|done].
  apply stream_inv with (s := st) in H1 as [-> Hd]; [|done].
  destruct (live_ok _ _ _ _ Hw Hl) as (Hs & _).
  pose proof (target_identity _ _ _ Hs Hrun) as Hi. simpl in *. bool_prop.
  assert (is_final_run_status (r_status r) = false) as Hf by done.
  destruct (open_run_ok _ _ _ _ _ _ Hw Hl Hd Hrun Hf) as (_ & Ho & Htok & Hrg & Hcp).
  destruct (open_run_active _ _ _ _ Hs Hrun Hf) as (Ha & _).
  eapply (wp_apply_update (utc_tick w)); try done; simpl; try done.
  - split; simpl; try done; lia.
  - split_and!; try done. rewrite Ha. simpl. done.
  - intros s' w' Hadv _ _. by apply HQ.
Qed.

(** ** Appending and publishing *)

Lemma signature_checkpoint identity codec payload k sg :
  messaging_message_signature identity codec payload k = Ok sg -> cp_ok k.
Proof.
  unfold messaging_message_signature, signature_input, cp_ok, cp_bytes, checkpoint_bytes.
  intros H. inv_ok. destruct k as [k|]; [|done]. by destruct (utf8 (default [] (k_last_message_id k))).
Qed.

Lemma matching_none thread s identity id :
  stream_ok thread s -> stored_evidence s identity (Some id) = Ok None ->
  dget (s_by_message_id s) id = None.
Proof.
  intros Hs. unfold stored_evidence. destruct (dget (s_by_message_id s) id) as [e|] eqn:He; [|done].
  apply (so_by_id _ _ Hs) in He as [He <-]. destruct (so_evidence _ _ Hs e He) as (k & sg & -> & _).
  by destruct (messaging_message_signature _ _ _ _).
Qed.

(** What is found for an identifier that is known: the message, and its signature. *)
Lemma matching_some thread s identity message_id ev :
  stream_ok thread s -> stored_evidence s identity message_id = Ok (Some ev) ->
  ev_envelope ev ∈ s_messages s /\ Some (e_message_id (ev_envelope ev)) = message_id /\
  dget (s_signatures s) (e_message_id (ev_envelope ev)) =
    Some (i_run_id (e_identity (ev_envelope ev)), e_codec (ev_envelope ev),
          e_payload (ev_envelope ev), ev_checkpoint ev) /\
  messaging_message_signature
    {| i_namespace := i_namespace identity; i_thread_id := i_thread_id identity;
       i_run_id := i_run_id (e_identity (ev_envelope ev)) |}
    (e_codec (ev_envelope ev)) (e_payload (ev_envelope ev)) (ev_checkpoint ev) = Ok (ev_signature ev).
Proof.
  intros Hs. unfold stored_evidence. destruct message_id as [id|]; [|done].
  destruct (dget (s_by_message_id s) id) as [e|] eqn:He; [|done].
  apply (so_by_id _ _ Hs) in He as [He <-]. destruct (so_evidence _ _ Hs e He) as (k & sg & Hk & _).
  rewrite Hk. destruct (messaging_message_signature _ _ _ _) eqn:Hsg; [|done]. simpl.
  intros [= <-]. done.
Qed.

(** What an append adds to the log of [s], at the time [now]. *)
Record appends t s (now : Z) e : Prop := {
  ap_channel : e_channel e = tr_channel t;
  ap_identity : e_identity e = tr_identity t;
  ap_sequence : e_seq e = zlen (s_messages s) + 1;
  ap_message_id : Some (e_message_id e) = tr_message_id t;
  ap_codec : Some (e_codec e) = tr_codec_id t;
  ap_payload : Some (e_payload e) = tr_payload t;
  ap_created : e_created_at e = now;
  ap_room : zlen (s_messages s) < max_thread_messages (st_limits (tr_settings t));
  ap_room_bytes : s_payload_bytes s + zlen (e_payload e) <=
    max_thread_payload_bytes (st_limits (tr_settings t))
}.

Definition is_publication t : bool := bool_decide (tr_kind t = PublishMessage).

Lemma append_owner_inv w t name generation matching incl run stream reference :
  winv w -> ready w name ->
  append_owner t (snapshot_of w name (tr_identity t) generation matching incl) (is_publication t) =
    Ok (run, stream, reference) ->
  exists s r, live w name (thread_key (tr_identity t)) = Some s /\ s_disposition s = Active /\
    selected_stream (channel_of name w) (thread_key (tr_identity t)) generation = Some s /\
    dget (s_runs s) (i_run_id (tr_identity t)) = Some r /\ r_identity r = tr_identity t /\
    run = stored_memory_run r (s_generation s) /\ stream = stored_stream name (tr_identity t) s /\
    tr_run_reference t = Some reference /\ rf_generation reference = s_generation s /\
    (is_publication t = false -> is_final_run_status (r_status r) = false /\
       rf_producer_token reference = r_owner_token r /\
       rf_producer_fence reference = Some (r_fence r)).
Proof.
  intros Hw Hr H. unfold append_owner in H. destruct (is_publication t) eqn:Hp.
  - inv_ok. apply target_run_inv in H0 as (s & r & Hsel & Hl & Hrun & ->); [|done].
    apply stream_inv with (s := s) in H1 as [-> Hd]; [|done].
    destruct (live_ok _ _ _ _ Hw Hl) as (Hs & _).
    destruct (tr_run_reference t); [|done]. inv_ok.
    exists s, r. split_and!; try done. by apply target_identity with (s := s).
  - pose proof H as H'. own_run s r. unfold owned_run in H. inv_ok.
    apply target_run_inv in H1 as (s' & r' & Hsel & Hl' & Hrun' & He); [|done].
    rewrite Hl in Hl'. injection Hl' as <-. exists s, r. split_and!; done.
Qed.

Lemma append_input_inv t codec id payload :
  append_input t = Ok (codec, id, payload) ->
  tr_codec_id t = Some codec /\ tr_message_id t = Some id /\ tr_payload t = Some payload /\
  zlen payload <= max_message_payload_bytes (st_limits (tr_settings t)).
Proof.
  unfold append_input, required_text, required_identifier.
  destruct (tr_codec_id t) as [c|]; [|done]. destruct (tr_message_id t) as [m|]; simpl.
  2: { by destruct (required_canonical_text c), (_ <? _). }
  intros H. inv_ok. destruct (tr_payload t); [|done]. inv_ok. split_and!; done.
Qed.

(** An append answers with the message that is there, or commits the next one. *)
Lemma apply_append w t name generation matching incl effect
    (Q : res msg_exn unit -> World -> Prop) :
  winv w -> ready w name -> matching_of w name (tr_identity t) generation (tr_message_id t) matching ->
  (tr_kind t = AppendMessage \/ tr_kind t = PublishMessage) -> name = tr_channel t ->
  resolve_append_message t (snapshot_of w name (tr_identity t) generation matching incl) = Ok effect ->
  Q (Raise MessagingQuotaExceeded) (utc_tick w) ->
  (forall e s, matching = Some e -> live w name (thread_key (tr_identity t)) = Some s ->
     stored_evidence s (tr_identity t) (tr_message_id t) = Ok (Some e) ->
     (exists codec payload, tr_codec_id t = Some codec /\ tr_payload t = Some payload /\
        messaging_message_signature (tr_identity t) codec payload (tr_checkpoint t) =
          Ok (ev_signature e)) ->
     rs_envelope (ef_result effect) = Some (ev_envelope e) -> Q (Ok tt) (utc_tick w)) ->
  (forall e s s' w', matching = None -> live w name (thread_key (tr_identity t)) = Some s ->
     advances name (thread_key (tr_identity t)) (utc_tick w) w' ->
     live w' name (thread_key (tr_identity t)) = Some s' -> s_messages s' = s_messages s ++ [e] ->
     appends t s (utc_now (utc_reads w)) e -> rs_envelope (ef_result effect) = Some e ->
     dget (s_signatures s') (e_message_id e) =
       Some (i_run_id (tr_identity t), e_codec e, e_payload e, tr_checkpoint t) ->
     Q (Ok tt) w') ->
  wp (apply_memory_effect name (tr_identity t) effect) (utc_tick w) Q.
Proof.
  intros Hw Hr Hm Hk Hn H Hq Hold Hnew. unfold resolve_append_message in H.
  fold (is_publication t) in H. inv_ok.
  match goal with H : append_owner _ _ _ = Ok _ |- _ => apply append_owner_inv in H as
    (st & r & Hl & Hd & Hsel & Hrun & Hi & -> & -> & Href & Hgen & Hown); [|done..] end.
  destruct (live_ok _ _ _ _ Hw Hl) as (Hs & _). unfold matching_of in Hm. rewrite Hsel in Hm.
  destruct (sn_channel _) as [ch|] eqn:Hch in H; [|done]. inv_ok.
  apply append_input_inv in H1 as (Hcodec & Hid & Hpay & Hsize).
  destruct matching as [ev|]; simpl in H.
  { inv_ok. apply wp_apply_nothing; [done|done|].
    apply (Hold ev st); try done. exists (sc_codec_id ch), l. split_and!; congruence. }
  rewrite Hid in Hm. apply (matching_none (thread_key (tr_identity t))) in Hm; [|done].
  apply rbind_ok in H as (? & Hallowed & H).
  assert (is_final_run_status (r_status r) = false) as Hf.
  { destruct (is_publication t); [|by apply Hown]. unfold publication_allowed in Hallowed. inv_ok.
    simpl in *. bool_prop. by rewrite H. }
  destruct (open_run_ok _ _ _ _ _ _ Hw Hl Hd Hrun Hf) as (_ & Ho & Htok & Hrg & Hcp).
  destruct (open_run_active _ _ _ _ Hs Hrun Hf) as (Ha & _).
  clear Hallowed Hown. inv_ok.
  match goal with H : MessageEnvelope_new _ = Ok _ |- _ =>
    unfold MessageEnvelope_new in H; inv_ok end.
  match goal with H : messaging_message_signature _ _ _ _ = Ok _ |- _ => rename H into Hsg end.
  pose proof (signature_checkpoint _ _ _ _ _ Hsg) as Hk'.
  eapply (wp_apply_update (utc_tick w)); try done; simpl; try done.
  - split_and!; [done| |done]. by apply message_committed_ok with (sg := x0).
  - rewrite zlen_app. split; simpl; rewrite ?Hf; try done.
    + change (zlen [_]) with 1. lia.
    + intros ->. done.
    + by destruct (tr_checkpoint t).
  - split_and!; try done. by rewrite Ha, Hf.
  - intros s' w' Hadv Hl' Hrec. eapply (Hnew _ st s' w'); try done.
    + by rewrite (rr_messages _ _ _ _ _ Hrec).
    + split; simpl; done.
    + rewrite (rr_signatures _ _ _ _ _ Hrec). simpl. apply dget_dset_eq.
Qed.
End kinds.
