(* ===== verification/MsgPrepare.v ===== *)
(** Messaging: what preparing a run, checking its ownership and cleaning up a
    generation do.  In this backend an open run is owned, so the branches that
    declare a run lost or recover it are for backends whose leases expire. *)
From S2P Require Import Prelude PyDict PySeq MsgModels MsgTransition MsgMemory MsgInvariant MsgWorld.
From S2P Require Import Contracts.
From S2P Require Import MsgStream MsgApply MsgKinds.

Section prepare.
Context {sha256 : Sha256} {env : MessagingEnv} {keys : ThreadKeys}.
Implicit Types (w : World) (c : ChannelState) (s : StreamState) (r : RunRecord)
  (t : MessagingTransition) (name thread : pystr) (identity : RunIdentity)
  (effect : MessagingStorageEffect).

(** ** The stream of a preparation *)

Lemma max_generation_elem l m : max_generation l = Some m -> m ∈ l.
Proof.
  revert m. induction l as [|k l IH]; intros m; simpl; [done|]. intros [= <-].
  destruct (max_generation l) as [m'|]; [|by left].
  destruct (Z.max_spec k m') as [[_ ->]|[_ ->]]; [right; by apply IH|by left].
Qed.

Lemma max_generation_none l : max_generation l = None -> l = [].
Proof. by destruct l. Qed.

(** The tombstones of a thread end before its current generation. *)
Lemma latest_tombstone name c thread :
  channel_ok name c ->
  match tombstone_reason c thread None with
  | None => current_generation c thread = 1
  | Some (g, _) => current_generation c thread = g + 1
  end.
Proof.
  intros Hc. unfold tombstone_reason.
  assert (1 <= current_generation c thread) as Hcur.
  { unfold current_generation. destruct (dget (c_next_generations c) thread) eqn:Hn; simpl; [|lia].
    pose proof (co_next _ _ Hc _ _ Hn). lia. }
  assert (forall g, g ∈ dkeys (tombstones_of c thread) <-> 1 <= g < current_generation c thread) as Hk.
  { intros g. by rewrite elem_of_dkeys, (co_tombstones _ _ Hc). }
  unfold tombstones_of in Hk. destruct (max_generation _) as [m|] eqn:Hm.
  - pose proof (max_generation_elem _ _ Hm) as Hin. pose proof Hin as [rr Hr]%elem_of_dkeys.
    rewrite Hr. simpl. apply Hk in Hin.
    pose proof (max_generation_le (current_generation c thread - 1) (dkeys (default [] (dget (c_tombstones c) thread))))
      as Hle.
    rewrite Hm in Hle. simpl in Hle. rewrite Hk in Hle. lia.
  - apply max_generation_none in Hm. destruct (Z.eq_dec (current_generation c thread) 1); [done|].
    assert (1 ∈ dkeys (default [] (dget (c_tombstones c) thread))) as Hin by (apply Hk; lia).
    rewrite Hm in Hin. by apply elem_of_nil in Hin.
Qed.

Lemma new_stream_state_ok thread g : 1 <= g -> stream_ok thread (new_stream_state g).
Proof.
  intros Hg. split; simpl; auto with py; try done.
  - intros e H. by apply elem_of_nil in H.
  - constructor.
  - intros id e. split; [done|]. intros [H _]. by apply elem_of_nil in H.
  - intros e H. by apply elem_of_nil in H.
Qed.

(** The stream object a preparation works on: the live one, or the thread's next. *)
Definition prepared c thread : StreamState :=
  default (new_stream_state (current_generation c thread)) (dget (c_streams c) thread).

Lemma prepared_ok name c thread :
  channel_ok name c -> stream_ok thread (prepared c thread) /\
    s_generation (prepared c thread) = current_generation c thread.
Proof.
  intros Hc. unfold prepared. destruct (dget (c_streams c) thread) as [s|] eqn:Hs; simpl.
  - by apply (co_stream _ _ Hc).
  - split; [|done]. apply new_stream_state_ok. unfold current_generation.
    destruct (dget (c_next_generations c) thread) eqn:Hn; simpl; [|lia].
    pose proof (co_next _ _ Hc _ _ Hn). lia.
Qed.

Lemma prepare_stream_inv w t matching incl stream :
  winv w -> ready w (tr_channel t) ->
  prepare_stream t (snapshot_of w (tr_channel t) (tr_identity t) None matching incl) = Ok stream ->
  stream = stored_stream (tr_channel t) (tr_identity t)
    (prepared (channel_of (tr_channel t) w) (thread_key (tr_identity t))) /\
  s_disposition (prepared (channel_of (tr_channel t) w) (thread_key (tr_identity t))) = Active.
Proof.
  intros Hw Hr H. pose proof (channel_of_ok _ _ Hw Hr) as Hc.
  pose proof (latest_tombstone _ _ (thread_key (tr_identity t)) Hc) as Hlt.
  unfold prepared, prepare_stream, snapshot_of, selected_stream in *.
  set (tr := tombstone_reason _ _ _) in *. clearbody tr. simpl in H.
  destruct (dget (c_streams _) _) as [s|] eqn:Hs; simpl in H |- *.
  - destruct (co_stream _ _ Hc _ _ Hs) as [Hso _].
    destruct (so_disposition _ _ Hso) as [Hd|Hd]; rewrite Hd in H; [|done]. by inv_ok.
  - inv_ok. split; [|done]. unfold new_stream, stored_stream. simpl. f_equal.
    destruct tr as [[g rr]|]; simpl; congruence.
Qed.

(** ** Preparation *)

(** The channel of a preparation is registered, or it will be. *)
Lemma prepare_channel_inv w t matching incl codec ch :
  winv w -> ready w (tr_channel t) ->
  prepare_channel t (snapshot_of w (tr_channel t) (tr_identity t) None matching incl) codec = Ok ch ->
  match ch with
  | None => dget (m_channels (mem w)) (tr_channel t) = Some (channel_of (tr_channel t) w)
  | Some _ => dget (m_channels (mem w)) (tr_channel t) = None /\
      channel_of (tr_channel t) w = new_channel_state (tr_channel t)
  end.
Proof.
  intros [Hm _] Hr H. unfold prepare_channel, snapshot_of in H. simpl in H. unfold stored_channel in H.
  unfold ready, channel_of in *.
  destruct (dget (m_channels (mem w)) (tr_channel t)) as [c|] eqn:Hc; simpl in H |- *.
  - destruct (mo_channel _ Hm _ _ Hc) as [_ [codec' Hcodec]]. rewrite Hcodec in H. simpl in H.
    by inv_ok.
  - destruct Hr as [[? ?]|[_ Hs]]; [done|]. rewrite Hs in H |- *. simpl in H. inv_ok. done.
Qed.

Lemma created_recorded t effect s :
  let thread := thread_key (tr_identity t) in
  let stream := stored_stream (tr_channel t) (tr_identity t) s in
  let run := created_run t stream in
  stream_ok thread s -> s_disposition s = Active ->
  dget (s_runs s) (i_run_id (tr_identity t)) = None -> s_active_identity s = None ->
  ef_stream effect =
    Some (set_owner (ss_next_producer_fence stream + 1) (i_run_id (tr_identity t)) 0 stream) ->
  ef_runs effect = [run] -> ef_message effect = None ->
  run_recorded thread s (set_expires_at None (effected (tr_identity t) effect 0 1 s))
    (i_run_id (tr_identity t)) (run_record run (tr_identity t)).
Proof.
  intros thread stream run Hs Hd Hr Ha H1 H2 H3. unfold effected. rewrite H1, H2, H3. simpl.
  unfold apply_run. simpl. rewrite Hr. pose proof (zlen_nonneg (s_messages s)).
  split; simpl; rewrite ?Hr; simpl; try done; try lia.
  - by rewrite Ha.
  - unfold active_of. simpl. f_equal. by apply identity_in_thread.
  - split; [by eapply next_fence_pos|]. intros id0 r0 _ H0.
    pose proof (next_fence_above _ _ _ _ Hs H0). lia.
  - unfold run_bytes. simpl. change (cp_bytes None) with 0. lia.
Qed.

(** The run exists: the caller is attached to it and nothing is written. *)
Lemma prepare_existing_inv thread t name s r cursor ch effect :
  stream_ok thread s -> dget (s_runs s) (i_run_id (tr_identity t)) = Some r ->
  prepare_existing t (stored_stream name (tr_identity t) s) cursor ch
    (stored_memory_run r (s_generation s)) = Ok effect ->
  effect = prepared_attachment t (stored_stream name (tr_identity t) s) cursor ch.
Proof.
  intros Hs Hr. pose proof (lease_active _ _ _ _ (s_generation s) Hs Hr) as Hl.
  unfold prepare_existing. intros H. apply rbind_ok in H as (? & _ & H). apply rbind_ok in H as (? & _ & H).
  rewrite Hl in H. simpl in H. destruct (is_final_run_status (r_status r)); simpl in H; congruence.
Qed.

(** The run is new: no run is open, and it becomes the one that is. *)
Lemma prepare_new_inv w t name matching cursor ch effect s :
  let thread := thread_key (tr_identity t) in
  winv w -> ready w name -> s = prepared (channel_of name w) thread ->
  sn_target_run (snapshot_of w name (tr_identity t) None matching true) = None ->
  prepare_new t (snapshot_of w name (tr_identity t) None matching true)
    (stored_stream name (tr_identity t) s) cursor ch = Ok effect ->
  dget (s_runs s) (i_run_id (tr_identity t)) = None /\ s_active_identity s = None /\
  effect = {| ef_result := owner_result t (stored_stream name (tr_identity t) s) cursor
                (tr_transition_id t) (next_fence (s_runs s)) None false Running;
              ef_channel := ch;
              ef_stream := Some (set_owner (next_fence (s_runs s) + 1) (i_run_id (tr_identity t)) 0
                                   (stored_stream name (tr_identity t) s));
              ef_runs := [created_run t (stored_stream name (tr_identity t) s)];
              ef_message := None; ef_lease_action := LeaseAcquire;
              ef_lease_run_id := Some (i_run_id (tr_identity t));
              ef_retention_action := RetentionClear; ef_tombstone_reason := None |}.
Proof.
  intros thread Hw Hr -> Ht H. unfold prepared. pose proof (channel_of_ok _ _ Hw Hr) as Hc.
  unfold prepare_new, snapshot_of, prepared, selected_stream in *. simpl in Ht, H.
  fold thread in Ht, H. destruct (dget (c_streams _) thread) as [s|] eqn:Hst; simpl in *; [|by inv_ok].
  destruct (co_stream _ _ Hc _ _ Hst) as [Hs _].
  destruct (dget (s_runs s) _) as [r|] eqn:Hrun; [done|]. split; [done|].
  assert (s_active_identity s = None) as Ha.
  { destruct (s_active_identity s) as [a|] eqn:Ha; [|done].
    destruct (so_active _ _ Hs _ Ha) as (r & Hra & Hf).
    unfold other_active_run in H. rewrite Ha in H. case_bool_decide as Hid; [congruence|].
    simpl in H. rewrite Hra in H. simpl in H.
    pose proof (lease_active _ _ _ _ (s_generation s) Hs Hra) as Hlease. simpl in Hlease.
    rewrite Hlease, Hf in H. done. }
  split; [done|]. unfold other_active_run in H. rewrite Ha in H. simpl in H. by inv_ok.
Qed.

Lemma create_capacity c thread effect run :
  dget (c_streams c) thread ≫= (fun s => dget (s_runs s) (i_run_id (sr_identity run))) = None ->
  ef_runs effect = [run] -> sr_checkpoint run = None -> ef_message effect = None ->
  exists dr, effect_capacity c thread effect = Ok (0, dr, 1).
Proof.
  intros Hn Hr Hk Hm. unfold effect_capacity. rewrite Hr, Hm. cbn [runs_capacity]. unfold run_capacity.
  rewrite Hn, Hk. simpl. by eexists.
Qed.

Lemma apply_prepare w t matching effect (Q : res msg_exn unit -> World -> Prop) :
  let name := tr_channel t in
  let thread := thread_key (tr_identity t) in
  let s := prepared (channel_of name w) thread in
  winv w -> ready w name ->
  resolve_prepare_run t (snapshot_of w name (tr_identity t) None matching true) = Ok effect ->
  Q (Raise MessagingQuotaExceeded) (utc_tick w) ->
  (forall r, live w name thread = Some s -> dget (s_runs s) (i_run_id (tr_identity t)) = Some r ->
     rs_is_producer_owner (ef_result effect) = Some false -> Q (Ok tt) (utc_tick w)) ->
  (forall s' w', advances name thread (utc_tick w) w' -> live w' name thread = Some s' ->
     s_active_identity s = None -> dget (s_runs s) (i_run_id (tr_identity t)) = None ->
     run_recorded thread s s' (i_run_id (tr_identity t))
       (run_record (created_run t (stored_stream name (tr_identity t) s)) (tr_identity t)) ->
     rs_is_producer_owner (ef_result effect) = Some true ->
     rs_run_reference (ef_result effect) = Some {| rf_channel := name; rf_identity := tr_identity t;
       rf_generation := s_generation s; rf_producer_token := Some (tr_transition_id t);
       rf_producer_fence := Some (next_fence (s_runs s)) |} -> Q (Ok tt) w') ->
  wp (apply_memory_effect name (tr_identity t) effect) (utc_tick w) Q.
Proof.
  intros name thread s Hw Hr H Hq Hatt Hnew. pose proof (channel_of_ok _ _ Hw Hr) as Hc.
  destruct (prepared_ok _ _ thread Hc) as [Hs Hg]. fold s in Hs, Hg.
  unfold resolve_prepare_run in H. inv_ok.
  match goal with H : prepare_channel _ _ _ = Ok _ |- _ => apply prepare_channel_inv in H as Hch; [|done..] end.
  match goal with H : prepare_stream _ _ = Ok _ |- _ => apply prepare_stream_inv in H as [-> Hd]; [|done..] end.
  fold name in Hch, Hd. fold thread s in Hd. clear H4 H5.
  destruct (sn_target_run _) as [run|] eqn:Ht in H; fold name thread s in H.
  - unfold snapshot_of, selected_stream in Ht. simpl in Ht. fold name thread in Ht.
    destruct (dget (c_streams (channel_of name w)) thread) as [s0|] eqn:Hst; [|done]. simpl in Ht.
    assert (s0 = s) as -> by (unfold s, prepared; by rewrite Hst).
    destruct (dget (s_runs s) _) as [r|] eqn:Hrun; [|done]. simpl in Ht. simplify_eq.
    apply (prepare_existing_inv thread) in H as ->; [|done..].
    assert (x1 = None) as ->.
    { destruct x1; [|done]. destruct Hch as [_ Hch]. rewrite Hch in Hst. done. }
    apply wp_apply_nothing; [done|done|]. apply (Hatt r); try done.
    unfold live. by rewrite Hch.
  - destruct (prepare_new_inv w t name matching _ _ _ s Hw Hr eq_refl Ht H) as (Hrun & Ha & He).
    assert (run_recorded thread s (set_expires_at None (effected (tr_identity t) effect 0 1 s))
      (i_run_id (tr_identity t))
      (run_record (created_run t (stored_stream name (tr_identity t) s)) (tr_identity t))) as Hrec
      by (apply created_recorded; by rewrite ?He).
    assert (ef_retention_action effect = RetentionClear) as Hact by (by rewrite He).
    destruct (create_capacity (channel_of name w) thread effect
      (created_run t (stored_stream name (tr_identity t) s))) as [dr Hcap]; try (done || by rewrite He).
    { unfold s, prepared in Hrun. by destruct (dget _ thread). }
    eapply (wp_apply (utc_tick w) name (tr_identity t) effect 0 dr 1 s); fold thread; try done.
    + unfold registers. by rewrite He.
    + unfold starts_from. rewrite He. simpl. change (channel_of name (utc_tick w)) with (channel_of name w).
      unfold s, prepared. destruct (dget _ thread); [done|]. simpl. done.
    + by rewrite He.
    + change (channel_of name (utc_tick w)) with (channel_of name w). unfold s, prepared.
      by destruct (dget _ thread).
    + change (channel_of name (utc_tick w)) with (channel_of name w). unfold s, prepared.
      by destruct (dget _ thread).
    + by rewrite Hact.
    + intros d. rewrite Hact. by apply (run_recorded_ok thread s _ _ _ Hs Hrec).
    + intros d s0 Hs0. rewrite Hact.
      change (channel_of name (utc_tick w)) with (channel_of name w) in Hs0.
      assert (s0 = s) as -> by (unfold s, prepared; by rewrite Hs0).
      apply (run_recorded_follows thread s _ _ _ Hs Hrec); [by rewrite Hrun|].
      intros _ id0 r0 H0'. by apply (next_fence_above _ _ _ _ Hs H0').
    + intros d w' Hw' Hf Ho Hot Hl. rewrite Hact in Hl.
      by apply (Hnew _ w' ltac:(done) Hl Ha Hrun Hrec); rewrite He.
Qed.
End prepare.
