(* ===== verification/MsgCleanup.v ===== *)
(** Messaging: ownership checks and the cleanup of a generation, and all kinds of
    transition together: whatever is resolved for a snapshot of the backend keeps
    the invariant when it is applied. *)
From S2P Require Import Prelude PyDict PySeq Contracts MsgModels MsgTransition MsgMemory.
From S2P Require Import MsgInvariant MsgWorld MsgStream MsgApply MsgKinds MsgPrepare.

Section cleanup.
Context {sha256 : Sha256} {env : MessagingEnv} {keys : ThreadKeys}.
Implicit Types (w : World) (c : ChannelState) (s : StreamState) (r : RunRecord)
  (t : MessagingTransition) (name thread : pystr) (identity : RunIdentity)
  (effect : MessagingStorageEffect).

(** The effect writes nothing. *)
Definition writes_nothing effect : Prop :=
  ef_channel effect = None /\ ef_stream effect = None /\ ef_runs effect = [] /\
  ef_message effect = None /\ ef_retention_action effect = RetentionNone /\
  ef_tombstone_reason effect = None.

Lemma wp_apply_idle w name identity effect (Q : res msg_exn unit -> World -> Prop) :
  winv w -> ready w name -> writes_nothing effect -> Q (Ok tt) w ->
  wp (apply_memory_effect name identity effect) w Q.
Proof.
  intros Hw Hr (H1 & H2 & H3 & H4 & H5 & H6) HQ.
  destruct effect as [result ch st runs msg la li ra tr]. simpl in *. subst.
  exact (wp_apply_nothing w name identity result Q Hw Hr HQ).
Qed.

Lemma renew_idle t state effect :
  resolve_renew_producer_ownership t state = Ok effect -> writes_nothing effect.
Proof.
  unfold resolve_renew_producer_ownership. intros H. apply rbind_ok in H as (rf & _ & H).
  destruct (sn_target_run state) as [run|]; inv_ok; done.
Qed.

(** An open run is owned, so there is no loss to reconcile. *)
Lemma reconcile_idle w t name generation matching incl effect :
  winv w -> ready w name ->
  resolve_reconcile_producer_ownership t
    (snapshot_of w name (tr_identity t) generation matching incl) = Ok effect -> writes_nothing effect.
Proof.
  intros Hw Hr H. unfold resolve_reconcile_producer_ownership in H.
  apply rbind_ok in H as (run & Hrun & H). apply rbind_ok in H as (stream & Hst & H).
  apply rbind_ok in H as (? & _ & H).
  apply target_run_inv in Hrun as (s & r & Hsel & Hl & Hd & ->); [|done].
  destruct (live_ok _ _ _ _ Hw Hl) as (Hs & _).
  rewrite (lease_active _ _ _ _ _ Hs Hd) in H. simpl in H.
  destruct (is_final_run_status (r_status r)); simpl in H; by inv_ok.
Qed.

(** ** Cleanup *)

Lemma finish_cleanup_cases w t name matching effect :
  winv w -> ready w name ->
  resolve_finish_generation_cleanup t
    (snapshot_of w name (tr_identity t) (tr_cleanup_generation t) matching true) = Ok effect ->
  writes_nothing effect \/
  exists s, live w name (thread_key (tr_identity t)) = Some s /\ s_disposition s = Deleting /\
    effect = {| ef_result := ef_result effect; ef_channel := None;
      ef_stream := Some (set_disposition Deleted (stored_stream name (tr_identity t) s));
      ef_runs := []; ef_message := None; ef_lease_action := LeaseNone; ef_lease_run_id := None;
      ef_retention_action := RetentionNone; ef_tombstone_reason := Some ReasonDeleted |}.
Proof.
  intros Hw Hr H. unfold resolve_finish_generation_cleanup in H.
  destruct (tr_cleanup_reason t) as [reason|]; [|done].
  destruct (tr_cleanup_generation t) as [g|] eqn:Hg; [|done].
  apply rbind_ok in H as (? & _ & H). unfold snapshot_of in H. simpl in H.
  destruct (selected_stream _ _ _) as [s|] eqn:Hsel; simpl in H.
  - destruct (selected_live _ _ _ _ _ Hr Hsel) as [Hl _]. destruct (live_ok _ _ _ _ Hw Hl) as (Hs & _).
    apply rbind_ok in H as (? & _ & H).
    destruct (so_disposition _ _ Hs) as [Hd|Hd]; rewrite Hd in H; destruct reason; simpl in H; try done;
      inv_ok.
    right. by exists s.
  - left. by destruct (_ && _) in H; inv_ok.
Qed.

(** The owner a cleanup looks for is the open run. *)
Lemma cleanup_owner_active w name identity generation matching s a r :
  winv w -> ready w name ->
  selected_stream (channel_of name w) (thread_key identity) generation = Some s ->
  s_active_identity s = Some a -> dget (s_runs s) (i_run_id a) = Some r ->
  cleanup_owner (snapshot_of w name identity generation matching true) (i_run_id a) =
    Some (stored_memory_run r (s_generation s)).
Proof.
  intros Hw Hr Hsel Ha Hra. destruct (selected_live _ _ _ _ _ Hr Hsel) as [Hl _].
  destruct (live_ok _ _ _ _ Hw Hl) as (Hs & _).
  unfold cleanup_owner, snapshot_of. simpl. rewrite Hsel. simpl. unfold other_active_run. rewrite Ha.
  destruct (decide (i_run_id a = i_run_id identity)) as [He|He].
  - rewrite <-He, Hra. simpl. pose proof (so_runs _ _ Hs _ _ Hra) as Ho.
    by rewrite bool_decide_true by apply (ro_id _ _ _ _ Ho).
  - rewrite (bool_decide_false (i_run_id a = i_run_id identity)) by done. simpl. rewrite Hra.
    destruct (dget (s_runs s) (i_run_id identity)) as [r0|] eqn:H0; [|done]. simpl.
    pose proof (so_runs _ _ Hs _ _ H0) as Ho. rewrite (ro_id _ _ _ _ Ho).
    by rewrite bool_decide_false by congruence.
Qed.

Lemma begin_cleanup_cases w t name generation matching effect :
  winv w -> ready w name ->
  resolve_begin_generation_cleanup t
    (snapshot_of w name (tr_identity t) generation matching true) = Ok effect ->
  writes_nothing effect \/
  exists s, live w name (thread_key (tr_identity t)) = Some s /\ s_disposition s = Active /\
    s_active_identity s = None /\
    effect = seal_effect t (stored_stream name (tr_identity t) s) ReasonDeleted None.
Proof.
  intros Hw Hr H. unfold resolve_begin_generation_cleanup in H.
  destruct (tr_cleanup_reason t) as [reason|]; [|done]. unfold snapshot_of in H. simpl in H.
  destruct (selected_stream _ _ _) as [s|] eqn:Hsel; simpl in H; [|left; by inv_ok].
  destruct (selected_live _ _ _ _ _ Hr Hsel) as [Hl _]. destruct (live_ok _ _ _ _ Hw Hl) as (Hs & _).
  destruct (so_disposition _ _ Hs) as [Hd|Hd]; rewrite Hd in H; [|left; by inv_ok].
  assert (s_active_identity s = None) as Ha.
  { destruct (s_active_identity s) as [a|] eqn:Ha; [exfalso|done]. simpl in H.
    destruct (so_active _ _ Hs _ Ha) as (r & Hra & Hf).
    apply rbind_ok in H as (? & H & _).
    pose proof (cleanup_owner_active w name (tr_identity t) generation matching s a r Hw Hr Hsel Ha Hra)
      as Ho.
    unfold snapshot_of in Ho. rewrite Hsel in Ho. simpl in Ho. rewrite Ho in H.
    rewrite (lease_active _ _ _ _ _ Hs Hra), Hf in H. done. }
  rewrite Ha in H. simpl in H. destruct reason; simpl in H; inv_ok; [|by left].
  right. by exists s.
Qed.

Lemma apply_seal w t name s (Q : res msg_exn unit -> World -> Prop) :
  let thread := thread_key (tr_identity t) in
  winv w -> ready w name -> live w name thread = Some s -> s_disposition s = Active ->
  s_active_identity s = None ->
  Q (Raise MessagingQuotaExceeded) w ->
  (forall w', advances name thread w w' ->
     live w' name thread = Some (sealed s (s_control_sequence s + 1)) -> Q (Ok tt) w') ->
  wp (apply_memory_effect name (tr_identity t)
        (seal_effect t (stored_stream name (tr_identity t) s) ReasonDeleted None)) w Q.
Proof.
  intros thread Hw Hr Hl Hd Ha Hq HQ. destruct (live_ok _ _ _ _ Hw Hl) as (Hs & Hc & Hst & Hg).
  set (effect := seal_effect _ _ _ _).
  assert (forall d, deadlined (ef_retention_action effect) d (effected (tr_identity t) effect 0 0 s) =
    sealed s (s_control_sequence s + 1)) as He.
  { intros d. unfold effected, effect. simpl. unfold sealed, set_expires_at, copy_stream. simpl.
    by rewrite !Z.add_0_r. }
  eapply (wp_apply w name (tr_identity t) effect 0 0 0 s); fold thread; try done.
  - unfold starts_from. simpl. by rewrite Hst.
  - unfold effect_capacity. simpl. rewrite Hst. by destruct (c_codec _).
  - by rewrite Hst.
  - by rewrite Hst.
  - intros d. rewrite He. by apply sealed_ok.
  - intros d s0. rewrite Hst, He. intros [= <-]. apply sealed_follows.
  - intros d w' H1 H2 H3 H4 H5. apply HQ; [done|]. by rewrite <-(He d).
Qed.

(** A preparation names no run of its own; the framework never gives it one. *)
Definition admissible t : Prop := tr_kind t = PrepareRun -> tr_run_reference t = None.

(** Whatever was resolved for a snapshot is applied without breaking anything. *)
Lemma wp_resolved w t matching effect (Q : res msg_exn unit -> World -> Prop) :
  let name := tr_channel t in
  let thread := thread_key (tr_identity t) in
  winv w -> ready w name -> admissible t ->
  matching_of w name (tr_identity t) (selected_generation t) (tr_message_id t) matching ->
  resolve_messaging_transition t
    (snapshot_of w name (tr_identity t) (selected_generation t) matching true) = Ok effect ->
  Q (Raise MessagingQuotaExceeded) (utc_tick w) ->
  (forall w', advances name thread (utc_tick w) w' -> Q (Ok tt) w') ->
  wp (apply_memory_effect name (tr_identity t) effect) (utc_tick w) Q.
Proof.
  intros name thread Hw Hr Ha Hm H Hq HQ.
  assert (Q (Ok tt) (utc_tick w)) as Hidle by (by apply HQ, advances_refl).
  unfold resolve_messaging_transition in H. apply rbind_ok in H as (? & _ & H).
  unfold selected_generation, reference_generation in *.
  destruct (tr_kind t) eqn:Hk; simpl in Hm, H.
  - rewrite Ha in H by done. apply (apply_prepare w t matching effect Q Hw Hr H Hq); intros; auto.
  - eapply apply_append; eauto.
  - eapply apply_append; eauto.
  - by eapply apply_begin_settlement.
  - by eapply apply_finish_run.
  - by eapply apply_request_cancellation.
  - apply wp_apply_idle; try done. by eapply renew_idle.
  - apply wp_apply_idle; try done. by eapply reconcile_idle.
  - apply begin_cleanup_cases in H as [Hi|(s & Hl & Hd & Hact & ->)]; [by apply wp_apply_idle| |done..].
    apply (apply_seal (utc_tick w) t name s Q); auto.
  - apply finish_cleanup_cases in H as [Hi|(s & Hl & Hd & He)]; [by apply wp_apply_idle| |done..].
    destruct (live_ok _ _ _ _ Hw Hl) as (Hs & Hc & _).
    apply (wp_apply_finish (utc_tick w) name (tr_identity t) effect
      (set_disposition Deleted (stored_stream name (tr_identity t) s)) ReasonDeleted s); try done.
    + by rewrite He.
    + intros w' H1 H2 H3 H4 _ _. by apply HQ.
Qed.
End cleanup.

(** ** Physical cleanup *)

Section purge.
Context {sha256 : Sha256} {env : MessagingEnv} {keys : ThreadKeys}.
Implicit Types (w : World) (c : ChannelState) (s : StreamState) (name thread : pystr).

(** [s] became [s'] by purging records of a sealed generation. *)
Record purging name thread w s w' s' : Prop := {
  pu_advances : advances name thread w w';
  pu_live : live w' name thread = Some s';
  pu_sealed : s_disposition s' <> Active;
  pu_disposition : s_disposition s' = s_disposition s;
  pu_generation : s_generation s' = s_generation s
}.

Lemma advances_trans name thread w1 w2 w3 :
  advances name thread w1 w2 -> advances name thread w2 w3 -> advances name thread w1 w3.
Proof.
  intros (A1 & F1 & (S1 & V1 & U1) & O1) (A2 & F2 & (S2 & V2 & U2) & O2).
  split_and!; [done|by eapply msg_follows_trans|split_and!; congruence|].
  intros n t H. by rewrite O2, O1.
Qed.

Lemma purging_trans name thread w1 s1 w2 s2 w3 s3 :
  purging name thread w1 s1 w2 s2 -> purging name thread w2 s2 w3 s3 ->
  purging name thread w1 s1 w3 s3.
Proof.
  intros [] []. split; try done; try congruence. by eapply advances_trans.
Qed.

Lemma purging_refl name thread w s :
  winv w -> live w name thread = Some s -> s_disposition s <> Active ->
  purging name thread w s w s.
Proof. intros. split; try done. by apply advances_refl. Qed.

Lemma live_registered w name thread s :
  live w name thread = Some s -> is_Some (dget (m_channels (mem w)) name).
Proof. unfold live. by destruct (dget (m_channels (mem w)) name). Qed.

(** Putting back a stream that gave up [bytes] and one record. *)
Lemma wp_released w name thread s s1 s' bytes (Q : res msg_exn unit -> World -> Prop) :
  winv w -> live w name thread = Some s -> s_disposition s <> Active ->
  s' = charge_stream (- bytes) (- (1)) s1 -> stream_ok thread s' -> 0 <= bytes ->
  s_generation s' = s_generation s -> s_disposition s' = s_disposition s ->
  s_expires_at_monotonic s' = s_expires_at_monotonic s ->
  s_retained_bytes s' = s_retained_bytes s - bytes ->
  s_retained_records s' = s_retained_records s - 1 ->
  (forall w', purging name thread w s w' s' -> Q (Ok tt) w') ->
  wp (release_memory_records name thread bytes 1) (put_stream name thread s1 w) Q.
Proof.
  intros Hw Hl Hd Hs' Hok Hpos Hg Hd' Hx Hb Hr HQ.
  destruct (live_ok _ _ _ _ Hw Hl) as (Hs & Hc & Hst & Hgen). set (c := channel_of name w) in *.
  rewrite (nf_self w name c) by done. rewrite put_stream_nf.
  unfold release_memory_records. wp_step. wp_step. rewrite charge_total_nf.
  eapply wp_update_stream_nf; [apply stream_put_stream_in|]. rewrite put_stream_in_twice, <-Hs'.
  destruct Hw as [Hm Hi]. destruct (mo_channel _ Hm _ _ Hc) as [Hco Hcodec].
  destruct (mo_limits _ Hm). apply HQ. split; [|..|congruence|done|done].
  - split_and!.
    + rewrite !Z.add_opp_r.
      apply nf_ok; [done|by apply channel_ok_put; [| |congruence]|done| | | | |].
      * rewrite channel_bytes_put, Hst, Hc. simpl. lia.
      * rewrite channel_records_put, Hst, Hc. simpl. lia.
      * lia.
      * lia.
      * eapply index_ok_ext; [|exact Hi]. intros key. symmetry.
        rewrite (expiry_of_put _ _ _ c) by (by left). unfold reset.
        destruct (decide (key = (name, thread))) as [->|]; [|done].
        unfold expiry_of. simpl. rewrite Hc. simpl. by rewrite Hst, Hx.
    + apply follows_put; [by split|by left|done|].
      intros s0. rewrite Hst. intros [= <-]. apply purged_follows; [done..|].
      pose proof (so_records _ _ Hs). pose proof (so_records _ _ Hok). lia.
    + done.
    + intros n t Hne. unfold live. simpl. rewrite dget_dset.
      destruct (decide (name = n)) as [<-|]; [|done]. rewrite Hc. simpl. by rewrite dget_dset_ne by congruence.
  - unfold live. simpl. rewrite dget_dset_eq. simpl. apply dget_dset_eq.
Qed.

Lemma cp_bytes_nonneg k : 0 <= cp_bytes k.
Proof.
  destruct k as [k|]; unfold cp_bytes, checkpoint_bytes; [|done]. destruct (utf8 _) as [id|]; simpl; [|done].
  pose proof (zlen_nonneg (k_position k)). pose proof (zlen_nonneg id). lia.
Qed.

Lemma wp_pop_message w name thread s rest e (Q : res msg_exn unit -> World -> Prop) :
  winv w -> live w name thread = Some s -> s_disposition s <> Active -> s_messages s = rest ++ [e] ->
  (forall w', purging name thread w s w' (message_popped s rest e) -> Q (Ok tt) w') ->
  wp (pop_message name thread s rest e) w Q.
Proof.
  intros Hw Hl Hd Hm HQ. destruct (live_ok _ _ _ _ Hw Hl) as (Hs & _).
  destruct (so_evidence _ _ Hs e) as (k & sg & Hk & Hcp & _).
  { rewrite Hm. apply elem_of_app. right. by left. }
  assert (stored_checkpoint s e = k) as Hst by (unfold stored_checkpoint; by rewrite Hk).
  unfold pop_message. fold (stored_checkpoint s e). rewrite Hst. wp_step. wp_step. wp_step. rewrite Hcp.
  wp_step. eapply (wp_released w name thread s _ (message_popped s rest e)); try done.
  - unfold message_popped. by rewrite Hst.
  - by apply message_popped_ok.
  - pose proof (cp_bytes_nonneg k). pose proof (zlen_nonneg (e_payload e)). lia.
  - simpl. rewrite Hst. lia.
Qed.

Lemma rev_cons {A} (l : list A) x rest : rev l = x :: rest -> l = rev rest ++ [x].
Proof. intros H. rewrite <-(rev_involutive l), H. done. Qed.

(** The loop over messages removes as many as there is room for, last first. *)
Lemma wp_purge_messages w name thread s n maximum removed (Q : res msg_exn Z -> World -> Prop) :
  winv w -> live w name thread = Some s -> s_disposition s <> Active ->
  n = List.length (s_messages s) -> removed <= maximum ->
  (forall w' s' k, purging name thread w s w' s' -> s_runs s' = s_runs s ->
     k = Z.min (zlen (s_messages s)) (maximum - removed) ->
     zlen (s_messages s') = zlen (s_messages s) - k -> Q (Ok (removed + k)) w') ->
  wp (purge_messages n name thread maximum removed) w Q.
Proof.
  revert w s removed. induction n as [|n IH]; intros w s removed Hw Hl Hd Hn Hle HQ; simpl.
  { assert (zlen (s_messages s) = 0) as Hz by (unfold zlen; lia).
    wp_step. rewrite <-(Z.add_0_r removed). apply (HQ w s); [by apply purging_refl|done|lia|lia]. }
  unfold get_stream. wp_step. wp_step. rewrite live_stream_of by (left; by eapply live_registered).
  rewrite Hl. cbn beta iota. destruct (rev (s_messages s)) as [|e rest] eqn:Hrev.
  { assert (s_messages s = []) as He by (rewrite <-(rev_involutive (s_messages s)), Hrev; done).
    by rewrite He in Hn. }
  apply rev_cons in Hrev. assert (zlen (s_messages s) = zlen (rev rest) + 1) as Hz
    by (rewrite Hrev, zlen_app; done). pose proof (zlen_nonneg (rev rest)).
  destruct (removed <? maximum) eqn:Hlt; bool_prop.
  2: { wp_step. rewrite <-(Z.add_0_r removed). apply (HQ w s); [by apply purging_refl|done|lia|lia]. }
  wp_step. eapply wp_pop_message; [done..|]. intros w1 Hp.
  apply (IH w1 (message_popped s (rev rest) e)).
  - apply (pu_advances _ _ _ _ _ _ Hp).
  - apply (pu_live _ _ _ _ _ _ Hp).
  - done.
  - simpl. rewrite Hrev in Hn. rewrite length_app in Hn. simpl in Hn. lia.
  - lia.
  - intros w' s' k Hp' Hr Hk Hlen. replace (removed + 1 + k) with (removed + (1 + k)) by lia.
    simpl in Hk, Hlen. apply (HQ w' s'); [by eapply purging_trans|by rewrite Hr|lia|lia].
Qed.

Lemma wp_purge_runs w name thread s n maximum removed (Q : res msg_exn Z -> World -> Prop) :
  winv w -> live w name thread = Some s -> s_disposition s <> Active ->
  n = List.length (s_runs s) -> removed <= maximum ->
  (forall w' s' k, purging name thread w s w' s' -> s_messages s' = s_messages s ->
     k = Z.min (zlen (s_runs s)) (maximum - removed) ->
     zlen (s_runs s') = zlen (s_runs s) - k -> Q (Ok (removed + k)) w') ->
  wp (purge_runs n name thread maximum removed) w Q.
Proof.
  revert w s removed. induction n as [|n IH]; intros w s removed Hw Hl Hd Hn Hle HQ; simpl.
  { assert (zlen (s_runs s) = 0) as Hz by (unfold zlen; lia).
    wp_step. rewrite <-(Z.add_0_r removed). apply (HQ w s); [by apply purging_refl|done|lia|lia]. }
  unfold get_stream. wp_step. wp_step. rewrite live_stream_of by (left; by eapply live_registered).
  rewrite Hl. cbn beta iota. destruct (s_runs s) as [|[id r] rest] eqn:Hrs; [done|].
  pose proof (zlen_nonneg rest). rewrite zlen_cons in HQ.
  destruct (removed <? maximum) eqn:Hlt; bool_prop.
  2: { wp_step. rewrite <-(Z.add_0_r removed). apply (HQ w s); [by apply purging_refl|done|lia|].
       rewrite Hrs, zlen_cons. lia. }
  destruct (live_ok _ _ _ _ Hw Hl) as (Hs & _).
  assert (dget (s_runs s) id = Some r) as Hr by (rewrite Hrs; simpl; by rewrite decide_True).
  assert (ddel (s_runs s) id = rest) as Hdel.
  { destruct (so_wf _ _ Hs) as (Hwf & _). rewrite Hrs in Hwf |- *. simpl. rewrite decide_True by done.
    apply ddel_absent, not_elem_of_dkeys. by apply NoDup_cons in Hwf as [? _]. }
  pose proof (ro_checkpoint _ _ _ _ (so_runs _ _ Hs _ _ Hr)) as Hcp.
  rewrite <-Hrs. wp_step. wp_step. wp_step. wp_step. rewrite Hcp. wp_step.
  eapply (wp_released w name thread s _ (run_purged s id r)); try done.
  { by apply run_purged_ok. }
  { apply cp_bytes_nonneg. }
  intros w1 Hp. apply (IH w1 (run_purged s id r)).
  - apply (pu_advances _ _ _ _ _ _ Hp).
  - apply (pu_live _ _ _ _ _ _ Hp).
  - done.
  - simpl. rewrite Hdel. simpl in Hn. lia.
  - lia.
  - simpl. rewrite Hdel. intros w' s' k Hp' Hm Hk Hlen.
    replace (removed + 1 + k) with (removed + (1 + k)) by lia.
    apply (HQ w' s'); [by eapply purging_trans|by rewrite Hm|lia|lia].
Qed.

Lemma zlen_is_nil {A} (l : list A) : (zlen l =? 0) = is_nil l.
Proof. destruct l as [|x l]; [done|]. rewrite zlen_cons. pose proof (zlen_nonneg l). simpl. lia. Qed.

(** Purging removes what it may of a sealed generation and tells whether it is empty. *)
Lemma wp_purge w g (Q : res msg_exn StreamGenerationPurgeResult -> World -> Prop) :
  let name := g_channel g in
  let thread := thread_key (g_identity g) in
  winv w ->
  (forall e, Q (Raise e) w) ->
  ((forall s, live w name thread = Some s -> s_generation s <> g_generation g) ->
     Q (Ok {| removed_records := 0; complete := true |}) w) ->
  (forall s s' w' records, live w name thread = Some s -> s_generation s = g_generation g ->
     1 <= g_maximum_records g ->
     purging name thread w s w' s' -> records = zlen (s_messages s) + zlen (s_runs s) ->
     zlen (s_messages s') + zlen (s_runs s') = records - Z.min records (g_maximum_records g) ->
     Q (Ok {| removed_records := Z.min records (g_maximum_records g);
              complete := records <=? g_maximum_records g |}) w') ->
  wp (purge_stream_generation g) w Q.
Proof.
  intros name thread Hw Hraise Hnone HQ. unfold purge_stream_generation. fold name thread.
  wp_step. wp_step; [done|]. bool_prop. wp_step. wp_step.
  destruct (dget (m_channels (mem w)) name) as [c|] eqn:Hc; [|wp_step; apply Hnone].
  2: { unfold live. by rewrite Hc. }
  unfold get_stream. wp_step. wp_step. rewrite live_stream_of by (left; by rewrite Hc).
  destruct (live w name thread) as [s|] eqn:Hl; [|wp_step; by apply Hnone].
  destruct (s_generation s =? g_generation g) eqn:Hg; bool_prop; simpl; [|wp_step; apply Hnone; by intros s0 [= <-]].
  wp_step. wp_step; [done|]. 
  assert (s_disposition s <> Active) as Hd.
  { intros Ha. rewrite Ha in H0. done. }
  wp_step. eapply wp_purge_messages; [done|done|done|done|lia|]. intros w1 s1 k1 Hp1 Hr1 Hk1 Hlen1.
  wp_step. pose proof (zlen_nonneg (s_messages s)). pose proof (zlen_nonneg (s_runs s)).
  eapply (wp_purge_runs w1 name thread s1).
  - apply (pu_advances _ _ _ _ _ _ Hp1).
  - apply (pu_live _ _ _ _ _ _ Hp1).
  - apply (pu_sealed _ _ _ _ _ _ Hp1).
  - by rewrite Hr1.
  - lia.
  - intros w2 s2 k2 Hp2 Hm2 Hk2 Hlen2. rewrite Hr1 in Hk2, Hlen2. wp_step. wp_step.
    pose proof (pu_live _ _ _ _ _ _ Hp2) as Hl2.
    rewrite live_stream_of by (left; by eapply live_registered). rewrite Hl2. wp_step.
    specialize (HQ s s2 w2 (zlen (s_messages s) + zlen (s_runs s)) eq_refl Hg H).
    assert (0 + k1 + k2 = (zlen (s_messages s) + zlen (s_runs s)) `min` g_maximum_records g) as -> by lia.
    assert (is_nil (s_messages s2) && is_nil (s_runs s2) =
      (zlen (s_messages s) + zlen (s_runs s) <=? g_maximum_records g)) as ->.
    { rewrite <-!zlen_is_nil. rewrite Hm2. pose proof (zlen_nonneg (s_messages s1)).
      pose proof (zlen_nonneg (s_runs s2)). lia. }
    apply HQ; [by eapply purging_trans|done|]. rewrite Hm2. lia.
Qed.
End purge.
