(* ===== verification/MsgOps.v ===== *)
(** Messaging: every operation of the backend keeps its invariant, moves each
    generation forward, and leaves no waiter behind that it should have woken. *)
From S2P Require Import Prelude PyDict PySeq MsgModels MsgTransition MsgMemory MsgInvariant MsgWorld.
From S2P Require Import Contracts.
From S2P Require Import MsgStream MsgApply MsgKinds MsgPrepare MsgCleanup.

Section ops.
Context {sha256 : Sha256} {env : MessagingEnv} {keys : ThreadKeys} {clock : MonotonicClock}.
Implicit Types (w : World) (c : ChannelState) (s : StreamState) (r : RunRecord)
  (t : MessagingTransition) (name thread : pystr) (v : Waiter).

(** ** Waiters *)

(** A suspended task has seen all there is in its generation, or the generation has
    expired under it. *)
Definition waits_ok w v : Prop :=
  (exists s, live w (v_channel v) (v_thread v) = Some s /\ s_generation s = v_generation v /\
     s_disposition s = Active /\ change_cursor s = v_after v) \/
  tombstone_of w (v_channel v) (v_thread v) (v_generation v) = Some ReasonExpired.

Definition waiters_ok w : Prop := forall v, v ∈ waiters w -> waits_ok w v.

Definition good w : Prop := winv w /\ waiters_ok w.

Lemma waits_thinned w w' v : follows w w' -> thinned w w' -> waits_ok w v -> waits_ok w' v.
Proof.
  intros Hf Ht [(s & Hl & Hg & Hd & Hc)|H]; [|right; by apply (fw_tombstone _ _ Hf)].
  destruct (Ht (v_channel v) (v_thread v)) as [E|(E & s0 & d & k & H0 & _ & _ & _ & Hts)].
  - left. exists s. by rewrite E.
  - right. rewrite Hl in H0. injection H0 as <-. by rewrite <-Hg.
Qed.

Lemma waiters_thinned w w' :
  follows w w' -> thinned w w' -> waiters w' = waiters w -> waiters_ok w -> waiters_ok w'.
Proof. intros Hf Ht Hw H v Hv. rewrite Hw in Hv. eapply waits_thinned; eauto. Qed.

(** After an effect on one thread, the waiters of its generation are woken. *)
Lemma waits_woken w w' name thread v :
  follows w w' -> only_thread name thread w w' ->
  (forall s, live w name thread = Some s -> woken_by name thread (s_generation s) v = false) ->
  waits_ok w v -> waits_ok w' v.
Proof.
  intros Hf Ho Hn [(s & Hl & Hg & Hd & Hc)|H]; [|right; by apply (fw_tombstone _ _ Hf)].
  destruct (decide ((v_channel v, v_thread v) = (name, thread))) as [[= <- <-]|Hne].
  - specialize (Hn s Hl). unfold woken_by in Hn. rewrite !bool_decide_true, Hg, Z.eqb_refl in Hn by done.
    done.
  - left. exists s. by rewrite (Ho _ _ Hne).
Qed.

(** ** Committing *)

(** The world of a transition once the clock is read and its own thread is current. *)
Definition current w name w1 : Prop :=
  winv w1 /\ follows w w1 /\ thinned w w1 /\ waiters w1 = waiters w /\ ready w1 name.

Lemma wp_channel w name (Q : res msg_exn unit -> World -> Prop) :
  winv w ->
  (forall w1, winv w1 -> follows w w1 -> thinned w w1 -> waiters w1 = waiters w -> ready w1 name ->
     Q (Ok tt) w1) ->
  wp (channel name) w Q.
Proof.
  intros Hw HQ. unfold channel. wp_step. wp_step.
  destruct (dget (m_channels (mem w)) name) as [c|] eqn:Hc; wp_step.
  - apply HQ; [done|apply msg_follows_refl|by apply thinned_same|done|left; by rewrite Hc].
  - apply HQ; [done|by apply follows_same_mem|by apply thinned_same|done|by right].
Qed.

Lemma wp_commit_steps w t (Q : res msg_exn MessagingTransitionResult -> World -> Prop) :
  let name := tr_channel t in
  let thread := thread_key (tr_identity t) in
  winv w ->
  (forall w1 matching, current w name w1 ->
     matching_of w1 name (tr_identity t) (selected_generation t) (tr_message_id t) matching ->
     match resolve_messaging_transition t
       (snapshot_of w1 name (tr_identity t) (selected_generation t) matching true) with
     | Raise e => Q (Raise e) (utc_tick w1)
     | Ok effect => wp (apply_memory_effect name (tr_identity t) effect) (utc_tick w1)
         (fun rr w2 => match rr with
          | Raise e => Q (Raise e) w2
          | Ok _ => Q (Ok (ef_result effect))
              match live w1 name thread with
              | None => w2
              | Some s => set_waiters (List.filter (fun v =>
                  negb (woken_by name thread (s_generation s) v)) (waiters w2)) w2
              end
          end)
     end) ->
  wp (commit_messaging_transition t) w Q.
Proof.
  intros name thread Hw HQ. unfold commit_messaging_transition. fold name thread.
  wp_step. apply (wp_mono _ _ (fun rr w0 => rr = Ok tt /\ winv w0 /\ follows w w0 /\ thinned w w0 /\
    waiters w0 = waiters w)).
  { destruct (reclaims _).
    - apply wp_reclaim; [done|]. intros w0 H1 H2 (_ & H3 & _) H4. done.
    - wp_step. split_and!; [done|done|apply msg_follows_refl|by apply thinned_same|done]. }
  intros ? w0 (-> & Hw0 & Hf0 & Ht0 & Hv0). wp_step. apply wp_channel; [done|].
  intros w1 Hw1 Hf1 Ht1 Hv1 Hr1. wp_step. apply wp_expire; [done|done|].
  intros w2 Hw2 Hf2 (_ & Hv2 & _) Hr2 Ht2 _. wp_step.
  assert (current w name w2) as Hcur.
  { split_and!; try done.
    - eapply msg_follows_trans; [exact Hf0|]. by eapply msg_follows_trans.
    - apply (thinned_trans w w0 w2); [by apply (msg_follows_trans w0 w1)|done|].
      by apply (thinned_trans w0 w1 w2).
    - congruence. }
  apply wp_snapshot; [done|done|]. intros matching Hm. specialize (HQ w2 matching Hcur Hm).
  wp_step. wp_step. destruct (resolve_messaging_transition _ _) as [effect|e]; [|done].
  wp_step. eapply wp_mono; [exact HQ|]. intros [[]|e] w3 H3; [|done].
  wp_step. destruct (live w2 name thread) as [s|]; [|by wp_step; wp_step].
  unfold notify_all. wp_step. by wp_step.
Qed.

Lemma wp_commit w t (Q : res msg_exn MessagingTransitionResult -> World -> Prop) :
  admissible t -> good w ->
  (forall rr w', good w' -> follows w w' -> Q rr w') ->
  wp (commit_messaging_transition t) w Q.
Proof.
  intros Ha [Hw Hv] HQ. apply wp_commit_steps; [done|]. intros w1 matching (Hw1 & Hf1 & Ht1 & Hv1 & Hr1) Hm.
  assert (follows w (utc_tick w1)) as Hf1'.
  { eapply msg_follows_trans; [exact Hf1|]. by apply follows_same_mem. }
  assert (good (utc_tick w1)) as Hg1.
  { split; [done|]. by apply (waiters_thinned w). }
  destruct (resolve_messaging_transition _ _) as [effect|e] eqn:He; [|by apply HQ].
  eapply wp_resolved; try done; [by apply HQ|]. intros w' (Hw' & Hf' & (_ & Hv' & _) & Ho').
  assert (follows w w') as Hf by (by eapply msg_follows_trans).
  destruct (live w1 _ _) as [s|] eqn:Hl.
  - apply HQ; [|eapply msg_follows_trans; [exact Hf|by apply follows_same_mem]]. split; [done|].
    intros v Hin. simpl in Hin. rewrite list_elem_of_In, filter_In, <-list_elem_of_In in Hin.
    destruct Hin as [Hin Hn]. rewrite Hv' in Hin.
    change (waits_ok w' v). eapply waits_woken; [exact Hf'|exact Ho'| |by apply Hg1].
    intros s0 H0. change (live w1 (tr_channel t) (thread_key (tr_identity t)) = Some s0) in H0.
    rewrite Hl in H0. injection H0 as <-. by destruct (woken_by _ _ _ _).
  - apply HQ; [|done]. split; [done|]. intros v Hin. rewrite Hv' in Hin.
    eapply waits_woken; [exact Hf'|exact Ho'| |by apply Hg1].
    intros s0 H0. change (live w1 (tr_channel t) (thread_key (tr_identity t)) = Some s0) in H0. congruence.
Qed.

(** ** Reading and waiting *)

(** The generation a reader finds: the live one, after it may have expired. *)
Lemma good_expire w name thread (Q : res msg_exn (option StreamState) -> World -> Prop) :
  good w -> ready w name ->
  (forall w', good w' -> follows w w' -> thinned w w' -> ready w' name -> waiters w' = waiters w ->
     Q (Ok (live w' name thread)) w') ->
  wp (expire_if_due name thread) w Q.
Proof.
  intros [Hw Hv] Hr HQ. apply wp_expire; [done|done|]. intros w' H1 H2 (_ & H3 & _) H4 H5 _.
  apply HQ; try done. split; [done|]. by apply (waiters_thinned w).
Qed.

Lemma wp_load w q (Q : res msg_exn MessagingStateSnapshot -> World -> Prop) :
  good w -> (forall rr w', good w' -> follows w w' -> Q rr w') -> wp (load_messaging_state q) w Q.
Proof.
  intros Hg HQ. assert (forall rr, Q rr w) as Hsame by (intros; by apply HQ, msg_follows_refl).
  unfold load_messaging_state. wp_step. wp_step. destruct (required_identifier _); [|done].
  wp_step. wp_step. destruct (required_identity _); [|done]. wp_step. wp_step.
  destruct (dget (m_channels (mem w)) (sq_channel q)) as [c|] eqn:Hc.
  - wp_step. apply good_expire; [done|left; by rewrite Hc|]. intros w' Hg' Hf' _ Hr' _.
    apply wp_snapshot; [apply Hg'|done|]. intros matching _. apply HQ; [done|].
    eapply msg_follows_trans; [exact Hf'|by apply follows_same_mem].
  - unfold empty_memory_snapshot. wp_step. apply HQ; [done|by apply follows_same_mem].
Qed.

(** The page a query asks for, from the stream it reads. *)
Definition page_of (q : CommittedMessageQuery) s : CommittedMessagePage :=
  let run := dget (s_runs s) (i_run_id (q_identity q)) in
  {| p_generation := s_generation s; p_latest_sequence := zlen (s_messages s);
     p_messages := py_slice (s_messages s) (q_after_sequence q)
                     (page_end q (zlen (s_messages s)) run);
     p_change_cursor := change_cursor s;
     p_run_state := (fun r => stored_memory_run r (s_generation s)) <$> run |}.

Lemma wp_read w q (Q : res msg_exn CommittedMessagePage -> World -> Prop) :
  good w ->
  (forall e w', good w' -> follows w w' -> thinned w w' -> Q (Raise e) w') ->
  (forall s w', good w' -> follows w w' -> thinned w w' ->
     live w' (q_channel q) (thread_key (q_identity q)) = Some s ->
     s_generation s = q_generation q -> s_disposition s = Active ->
     0 <= q_after_sequence q <= zlen (s_messages s) -> 1 <= q_limit q <= 1000 ->
     Q (Ok (page_of q s)) w') ->
  wp (read_committed_messages q) w Q.
Proof.
  intros Hg He HQ.
  assert (forall e, Q (Raise e) w) as Hraise
    by (intros; apply He; [done|apply msg_follows_refl|by apply thinned_same]).
  unfold read_committed_messages. wp_step. wp_step; [done|]. wp_step. wp_step; [done|]. bool_prop.
  wp_step. wp_step. destruct (dget (m_channels (mem w)) (q_channel q)) as [c|] eqn:Hc; [|by wp_go].
  wp_step. apply good_expire; [done|left; by rewrite Hc|]. intros w' Hg' Hf' Ht' Hr' _.
  destruct (live w' _ _) as [s|] eqn:Hl; [|wp_go; by apply He].
  destruct (s_generation s =? q_generation q) eqn:Hgen; bool_prop; simpl; [|wp_go; by apply He].
  wp_step. wp_step; [by apply He|]. bool_prop. wp_step. wp_step; [by apply He|]. bool_prop. wp_step.
  apply HQ; done || lia.
Qed.

Lemma wp_wait w task (wt : MessagingChangeWait) (Q : res msg_exn bool -> World -> Prop) :
  good w -> (forall rr w', good w' -> follows w w' -> Q rr w') ->
  wp (wait_for_messaging_change task wt) w Q.
Proof.
  intros Hg HQ. assert (forall rr, Q rr w) as Hsame by (intros; by apply HQ, msg_follows_refl).
  unfold wait_for_messaging_change. wp_step. wp_step.
  destruct (dget (m_channels (mem w)) (w_channel wt)) as [c|] eqn:Hc; [|by wp_go].
  wp_step. apply good_expire; [done|left; by rewrite Hc|]. intros w' Hg' Hf' Ht' Hr' _.
  destruct (live w' _ _) as [s|] eqn:Hl; [|wp_go; by apply HQ].
  destruct (s_generation s =? w_generation wt) eqn:Hgen; bool_prop; simpl; [|wp_go; by apply HQ].
  wp_step. wp_step; [by apply HQ|]. bool_prop.
  case_bool_decide as Hcc; simpl; [|wp_step; by apply HQ].
  wp_step. wp_step. wp_step. apply HQ; [|eapply msg_follows_trans; [exact Hf'|by apply follows_same_mem]].
  destruct Hg' as [Hw' Hv']. split; [done|]. intros v Hin. simpl in Hin.
  apply elem_of_app in Hin as [Hin|Hin%list_elem_of_singleton]; [by apply (Hv' v)|]. subst v.
  left. exists s. split_and!; done.
Qed.

Lemma wp_stop w task (Q : res msg_exn unit -> World -> Prop) :
  good w -> (forall rr w', good w' -> follows w w' -> Q rr w') -> wp (stop_waiting task) w Q.
Proof.
  intros [Hw Hv] HQ. unfold stop_waiting. wp_step. apply HQ; [|by apply follows_same_mem].
  split; [done|]. intros v Hin. simpl in Hin. rewrite list_elem_of_In, filter_In in Hin.
  destruct Hin as [Hin _]. apply list_elem_of_In in Hin. by apply (Hv v).
Qed.

Lemma good_purge w g (Q : res msg_exn StreamGenerationPurgeResult -> World -> Prop) :
  good w -> (forall rr w', good w' -> follows w w' -> Q rr w') -> wp (purge_stream_generation g) w Q.
Proof.
  intros [Hw Hv] HQ. assert (forall rr, Q rr w) as Hsame by (intros; by apply HQ, msg_follows_refl).
  apply wp_purge; [done|done|intros; apply Hsame|]. intros s s' w' records Hl Hg _ Hp _ _.
  destruct (pu_advances _ _ _ _ _ _ Hp) as (Hw' & Hf & (_ & Hv' & _) & Ho).
  apply HQ; [|done]. split; [done|]. intros v Hin. rewrite Hv' in Hin.
  destruct (Hv v Hin) as [(s0 & Hl0 & Hg0 & Hd0 & Hc0)|Ht]; [|right; by apply (fw_tombstone _ _ Hf)].
  left. exists s0. rewrite Ho; [done|]. intros [= Hn Ht]. rewrite Hn, Ht, Hl in Hl0. injection Hl0 as <-.
  by rewrite <-(pu_disposition _ _ _ _ _ _ Hp) in Hd0; destruct (pu_sealed _ _ _ _ _ _ Hp).
Qed.

(** ** The system *)

Inductive request : Type :=
| Commit (t : MessagingTransition)
| Load (q : MessagingStateQuery)
| Read (q : CommittedMessageQuery)
| Wait (task : nat) (wait : MessagingChangeWait)
| StopWaiting (task : nat)
| Purge (g : StreamGenerationPurge).

Definition perform (q : request) w : World :=
  match q with
  | Commit t => (commit_messaging_transition t w).2
  | Load q => (load_messaging_state q w).2
  | Read q => (read_committed_messages q w).2
  | Wait task wt => (wait_for_messaging_change task wt w).2
  | StopWaiting task => (stop_waiting task w).2
  | Purge g => (purge_stream_generation g w).2
  end.

Definition allowed (q : request) : Prop :=
  match q with Commit t => admissible t | _ => True end.

Inductive serves : World -> World -> Prop :=
| serves_request w q : allowed q -> serves w (perform q w).

(** Any number of requests, of any tasks, in any order. *)
Definition msg_later : World -> World -> Prop := rtc serves.

Lemma perform_good q w : allowed q -> good w -> good (perform q w) /\ follows w (perform q w).
Proof.
  intros Ha Hg.
  assert (forall A (m : M World msg_exn A),
    wp m w (fun _ w' => good w' /\ follows w w') -> good (m w).2 /\ follows w (m w).2) as Hwp
    by (intros A m Hm; exact Hm).
  destruct q; simpl in Ha; cbn [perform]; apply Hwp.
  - apply wp_commit; auto.
  - apply wp_load; auto.
  - apply wp_read; auto.
  - apply wp_wait; auto.
  - apply wp_stop; auto.
  - apply good_purge; auto.
Qed.

Lemma later_good w w' : msg_later w w' -> good w -> good w' /\ follows w w'.
Proof.
  induction 1 as [w|w w1 w' [w0 q Ha] _ IH]; intros Hg; [split; [done|apply msg_follows_refl]|].
  destruct (perform_good q w0 Ha Hg) as [Hg1 Hf1]. destruct (IH Hg1) as [Hg' Hf'].
  split; [done|by eapply msg_follows_trans].
Qed.

Lemma new_world_good limits policy : MessagingLimits_post_init limits = Ok tt -> good (new_world limits policy).
Proof.
  unfold MessagingLimits_post_init, positive. intros H. inv_ok. split; [|intros v Hv; by apply elem_of_nil in Hv].
  split.
  - split; simpl; try done; [constructor|]. lia.
  - split; [split; simpl; try done; constructor|]. unfold compact. simpl. done.
Qed.
End ops.
