(* ===== verification/MsgSpec.v ===== *)
(** Messaging: what the backend promises, apart from how it keeps it.  A thread's
    log is opened, grows at its end, is sealed and gives way to the next generation;
    a page is the part of the log a query asks for. *)
From S2P Require Import Prelude PyDict PySeq MsgModels MsgTransition MsgMemory MsgInvariant MsgWorld.
From S2P Require Import Contracts.
From S2P Require Import MsgStream MsgApply MsgKinds MsgPrepare MsgCleanup MsgOps.

(** ** The log of a thread *)

Inductive LogState : Type :=
| Unopened
| Readable (log : list MessageEnvelope)
| Sealed.

Record ThreadLog : Type := { tl_generation : Z; tl_state : LogState }.

Inductive log_step : ThreadLog -> ThreadLog -> Prop :=
| log_open g : log_step {| tl_generation := g; tl_state := Unopened |}
                        {| tl_generation := g; tl_state := Readable [] |}
| log_append g l e :
    e_seq e = zlen l + 1 -> e_message_id e ∉ map e_message_id l ->
    log_step {| tl_generation := g; tl_state := Readable l |}
             {| tl_generation := g; tl_state := Readable (l ++ [e]) |}
| log_seal g l : log_step {| tl_generation := g; tl_state := Readable l |}
                          {| tl_generation := g; tl_state := Sealed |}
| log_retire g st : log_step {| tl_generation := g; tl_state := st |}
                             {| tl_generation := g + 1; tl_state := Unopened |}.

(** Gap-free numbering from one. *)
Definition numbered (l : list MessageEnvelope) : Prop :=
  forall i e, l !! i = Some e -> e_seq e = Z.of_nat i + 1.

Lemma log_appends g l l' :
  numbered (l ++ l') -> NoDup (map e_message_id (l ++ l')) ->
  rtc log_step {| tl_generation := g; tl_state := Readable l |}
               {| tl_generation := g; tl_state := Readable (l ++ l') |}.
Proof.
  revert l. induction l' as [|e l' IH]; intros l Hn Hd; [by rewrite app_nil_r|].
  change (e :: l') with ([e] ++ l') in *. rewrite app_assoc in *.
  eapply rtc_l; [apply log_append|by apply IH].
  - rewrite (Hn (List.length l) e); [done|]. rewrite lookup_app_l by (rewrite length_app; simpl; lia).
    by apply list_lookup_middle.
  - rewrite !map_app in Hd. apply NoDup_app in Hd as (Hd & _). apply NoDup_app in Hd as (_ & Hd & _).
    intros Hin. apply (Hd _ Hin). simpl. by left.
Qed.

Lemma log_retires g g' st st' :
  g <= g' -> st' = Unopened -> (g = g' -> st = st') ->
  rtc log_step {| tl_generation := g; tl_state := st |} {| tl_generation := g'; tl_state := st' |}.
Proof.
  intros Hle -> He. remember (Z.to_nat (g' - g)) as n eqn:Hn. revert g st Hle He Hn.
  induction n as [|n IH]; intros g st Hle He Hn.
  - assert (g = g') as -> by lia. by rewrite He.
  - eapply rtc_l; [apply log_retire|]. apply IH; [lia|done|lia].
Qed.

Section spec.
Context {sha256 : Sha256} {env : MessagingEnv} {keys : ThreadKeys} {clock : MonotonicClock}.
Implicit Types (w : World) (s : StreamState) (name thread : pystr).

Definition log_state (o : option StreamState) : LogState :=
  match o with
  | None => Unopened
  | Some s => if bool_decide (s_disposition s = Active) then Readable (s_messages s) else Sealed
  end.

Definition thread_log w name thread : ThreadLog :=
  {| tl_generation := generation_of w name thread; tl_state := log_state (live w name thread) |}.

Lemma live_generation w name thread s :
  winv w -> live w name thread = Some s ->
  stream_ok thread s /\ s_generation s = generation_of w name thread.
Proof.
  intros [Hm _] Hl. unfold live, generation_of in *.
  destruct (dget (m_channels (mem w)) name) as [c|] eqn:Hc; [|done]. simpl in Hl.
  by apply (co_stream _ _ (proj1 (mo_channel _ Hm _ _ Hc))).
Qed.

(** Any stream can be reached from an unopened log. *)
Lemma log_opens thread g o :
  (forall s, o = Some s -> stream_ok thread s) ->
  rtc log_step {| tl_generation := g; tl_state := Unopened |}
               {| tl_generation := g; tl_state := log_state o |}.
Proof.
  intros Ho. destruct o as [s|]; simpl; [|done]. specialize (Ho s eq_refl).
  eapply rtc_l; [apply log_open|]. case_bool_decide.
  - apply (log_appends g [] (s_messages s)); [exact (so_numbered _ _ Ho)|exact (so_distinct _ _ Ho)].
  - apply rtc_once, log_seal.
Qed.

(** The backend follows the log's rules. *)
Lemma follows_log w w' name thread :
  winv w -> winv w' -> follows w w' ->
  rtc log_step (thread_log w name thread) (thread_log w' name thread).
Proof.
  intros Hw Hw' Hf. unfold thread_log. pose proof (fw_generation _ _ Hf name thread) as Hg.
  assert (forall s, live w' name thread = Some s -> stream_ok thread s) as Hok'
    by (intros s Hs; by apply (live_generation w' name)).
  destruct (Z.eq_dec (generation_of w name thread) (generation_of w' name thread)) as [He|Hne].
  2: { etrans; [apply (log_retires _ (generation_of w' name thread) _ Unopened); [lia|done|done]|].
       by eapply log_opens. }
  rewrite <-He. destruct (live w name thread) as [s|] eqn:Hl; [|by eapply log_opens].
  destruct (live_generation _ _ _ _ Hw Hl) as [Hs Hgs].
  destruct (fw_stream _ _ Hf _ _ _ Hl) as [(s' & Hl' & Hsf)|Hlt]; [|lia]. rewrite Hl'. simpl.
  destruct (decide (s_disposition s' = Active)) as [Ha|Ha].
  - rewrite !bool_decide_true by (done || by apply (sf_disposition _ _ Hsf)).
    destruct (sf_messages _ _ Hsf Ha) as [k Hk]. specialize (Hok' s' Hl').
    rewrite Hk. apply log_appends; rewrite <-Hk; [exact (so_numbered _ _ Hok')|exact (so_distinct _ _ Hok')].
  - rewrite (bool_decide_false (s_disposition s' = Active)) by done. case_bool_decide; [|done].
    apply rtc_once, log_seal.
Qed.

(** ** Pages *)

(** A slice of a numbered log between non-negative bounds is the messages numbered
    between them. *)
Lemma slice_is_filter (l : list MessageEnvelope) a b :
  numbered l -> 0 <= a -> 0 <= b ->
  py_slice l a b = List.filter (fun e => (a <? e_seq e) && (e_seq e <=? b)) l.
Proof. apply slice_numbered. Qed.

(** How far a page may go: the reader's bound, the tail, the end of a run that is
    over if the reader stops there, and the size of a page. *)
Lemma page_end_nonneg thread q s r :
  stream_ok thread s -> s_disposition s = Active -> 0 <= q_after_sequence q ->
  1 <= q_limit q -> match q_through_sequence q with Some b => 0 <= b | None => True end ->
  dget (s_runs s) (i_run_id (q_identity q)) = r ->
  0 <= page_end q (zlen (s_messages s)) r.
Proof.
  intros Hs Hd Ha Hl Hb Hr. unfold page_end. pose proof (zlen_nonneg (s_messages s)).
  assert (forall r0, r = Some r0 -> 0 <= r_end_seq r0) as He.
  { intros r0 ->. destruct (ro_range _ _ _ _ (so_runs _ _ Hs _ _ Hr) Hd). lia. }
  destruct (q_through_sequence q), r as [r0|]; try specialize (He r0 eq_refl);
    try destruct (_ && _); lia.
Qed.
End spec.
