(* ===== verification/MsgExample.v ===== *)
(** Messaging: a concrete environment and a short history, on which the theorems'
    hypotheses hold. *)
From S2P Require Import Prelude PyDict PySeq MsgModels MsgTransition MsgMemory MsgInvariant MsgOps.
From S2P Require Import Contracts.
From S2P Require Import MsgCleanup MsgApply.
From Stdlib Require Import Strings.String.

(** ** The environment *)

(** A digest that keeps its input, keys with the length of the namespace in front,
    and clocks that count. *)
#[export] Instance demo_sha256 : Sha256 := fun fed => fed.

#[export] Instance demo_env : MessagingEnv :=
  {| thread_json := fun namespace thread => zlen namespace :: namespace ++ thread;
     utc_now := fun n => 1000 + Z.of_nat n; monotonic := fun n => Z.of_nat n |}.

#[export] Instance demo_keys : ThreadKeys.
Proof.
  intros a b c d [= Hl H]. apply app_inj_1 in H; [done|]. unfold zlen in Hl. lia.
Qed.

#[export] Instance demo_clock : MonotonicClock.
Proof. intros i j H. simpl. lia. Qed.

(** ** Requests *)

Definition demo_limits : MessagingLimits :=
  {| max_message_payload_bytes := 100; max_checkpoint_bytes := 100; max_thread_messages := 10;
     max_thread_payload_bytes := 500; max_total_bytes := 1000; max_total_records := 100 |}.

Definition demo_policy : MessagingRetentionPolicy := {| terminal_ttl_seconds := Some 3 |}.

Definition demo_run (run_id : pystr) : RunIdentity :=
  {| i_namespace := u "users"; i_thread_id := u "thread"; i_run_id := run_id |}.

Definition demo_channel : pystr := u "chat".
Definition demo_thread : pystr := thread_key (demo_run []).

Definition demo_transition (kind : MessagingTransitionKind) (run_id : pystr)
    (reference : option MessagingRunReference) (message : option (pystr * pybytes))
    (final : option RunStatus) : MessagingTransition :=
  {| tr_kind := kind; tr_transition_id := u "t-" ++ run_id; tr_channel := demo_channel;
     tr_identity := demo_run run_id;
     tr_settings := messaging_settings (new_backend demo_limits demo_policy);
     tr_run_reference := reference; tr_codec_id := Some (u "json"); tr_after_sequence := None;
     tr_cancellable := true; tr_recoverable := false; tr_request_digest := None;
     tr_message_id := fst <$> message; tr_payload := snd <$> message; tr_checkpoint := None;
     tr_closes_publication := false; tr_opens_publication := true; tr_final_status := final;
     tr_failure := None; tr_cleanup_generation := Some 1; tr_cleanup_reason := Some ReasonDeleted;
     tr_cleanup_token := None |}.

Definition demo_reference (run_id : pystr) : option MessagingRunReference :=
  Some {| rf_channel := demo_channel; rf_identity := demo_run run_id; rf_generation := 1;
          rf_producer_token := Some (u "t-" ++ run_id); rf_producer_fence := Some 1 |}.

Definition r1 : pystr := u "r1".

Definition demo_prepare : MessagingTransition := demo_transition PrepareRun r1 None None None.
Definition demo_append : MessagingTransition :=
  demo_transition AppendMessage r1 (demo_reference r1) (Some (u "m1", [1; 2; 3])) None.
Definition demo_append_again : MessagingTransition :=
  demo_transition AppendMessage r1 (demo_reference r1) (Some (u "m1", [1; 2; 4])) None.
Definition demo_finish : MessagingTransition :=
  demo_transition FinishRun r1 (demo_reference r1) None (Some Completed).
Definition demo_seal : MessagingTransition :=
  demo_transition BeginGenerationCleanup r1 None None None.

Definition demo_wait (after : MessagingChangeCursor) : MessagingChangeWait :=
  {| w_channel := demo_channel; w_identity := demo_run r1; w_generation := 1; w_after := after;
     w_timeout_seconds := None |}.

Definition demo_query (through : option Z) : CommittedMessageQuery :=
  {| q_channel := demo_channel; q_identity := demo_run r1; q_generation := 1; q_after_sequence := 0;
     q_through_sequence := through; q_limit := 10; q_stop_at_run_terminal := false |}.

Definition demo_purge : StreamGenerationPurge :=
  {| g_channel := demo_channel; g_identity := demo_run r1; g_generation := 1; g_maximum_records := 1;
     g_cleanup_token := None |}.

(** ** The history *)

Definition demo_start : World := new_world demo_limits demo_policy.
Definition demo_prepared : World := perform (Commit demo_prepare) demo_start.
Definition demo_appended : World := perform (Commit demo_append) demo_prepared.
Definition demo_finished : World := perform (Commit demo_finish) demo_appended.

Example demo_append_result :
  match commit_messaging_transition demo_append demo_prepared with
  | (Ok r, w) => (e_seq <$> rs_envelope r, zlen <$> (s_messages <$> live w demo_channel demo_thread))
  | _ => (None, None)
  end = (Some 1, Some 1).
Proof. vm_compute. reflexivity. Qed.
