(* ===== verification/MsgProps.v ===== *)
(** Messaging: the theorems.  What holds in every state the backend can reach, how
    the log of a thread evolves, what each operation answers, and what the commit
    digest covers. *)
From S2P Require Import Prelude PyDict PySeq MsgModels MsgTransition MsgMemory MsgInvariant MsgWorld.
From S2P Require Import Contracts.
From S2P Require Import MsgStream MsgApply MsgKinds MsgPrepare MsgCleanup MsgOps.
From S2P Require Import MsgSpec MsgExample.

Section props.
Context {sha256 : Sha256} {env : MessagingEnv} {keys : ThreadKeys} {clock : MonotonicClock}.
Implicit Types (w : World) (s : StreamState) (t : MessagingTransition) (name thread : pystr)
  (limits : MessagingLimits) (policy : MessagingRetentionPolicy).

(** A state the backend reaches, whatever is asked of it. *)
Definition msg_reachable limits policy w : Prop :=
  MessagingLimits_post_init limits = Ok tt /\ msg_later (new_world limits policy) w.

Lemma reachable_good limits policy w : msg_reachable limits policy w -> good w.
Proof. intros [Hl Hw]. by eapply later_good, new_world_good. Qed.

(** The transition's own producer, named by the reference it carries. *)
Definition producer_kind (k : MessagingTransitionKind) : Prop :=
  k = AppendMessage \/ k = BeginSettlement \/ k = FinishRun.

(** A producer's transition is resolved only for an open run. *)
Lemma resolved_owner t state effect :
  producer_kind (tr_kind t) -> resolve_messaging_transition t state = Ok effect ->
  exists owner, owned_run t state = Ok owner.
Proof.
  intros Hk H. unfold resolve_messaging_transition in H. apply rbind_ok in H as (? & _ & H).
  destruct Hk as [Hk|[Hk|Hk]]; rewrite Hk in H.
  - unfold resolve_append_message in H. rewrite Hk in H. apply rbind_ok in H as (o & Ho & _). by exists o.
  - unfold resolve_begin_settlement in H. apply rbind_ok in H as (o & Ho & _). by exists o.
  - unfold resolve_finish_run in H. apply rbind_ok in H as (o & Ho & _). by exists o.
Qed.

(** ** Reachable states *)

(** C30: In every reachable state the capacity counters count exactly what is stored,
    within the configured totals: the bytes are those of the messages and of the
    checkpoints kept for messages and runs, the records those of channels, threads,
    generations, messages, runs and tombstones.  Every log is numbered from one
    without gaps and holds each message identifier once, a stream knows its one open
    run, every retired generation has its tombstone, and the expiry heap holds at
    most 64 entries beyond twice the deadlines, as its class promises. *)
Theorem messaging_state_invariant limits policy w :
  msg_reachable limits policy w ->
  let m := mem w in
  m_total_bytes m = total_bytes (m_channels m) /\ m_total_records m = total_records (m_channels m) /\
  m_total_bytes m <= max_total_bytes limits /\ m_total_records m <= max_total_records limits /\
  zlen (x_heap (m_expirations m)) <= 2 * zlen (x_deadlines (m_expirations m)) + 64 /\
  (forall name c, dget (m_channels m) name = Some c -> channel_ok name c) /\
  (forall name thread s, live w name thread = Some s ->
     stream_ok thread s /\ numbered (s_messages s) /\
     s_retained_bytes s = zsum (message_bytes s) (s_messages s) + dsum run_bytes (s_runs s)).
Proof.
  intros Hr m. destruct (reachable_good _ _ _ Hr) as [Hw _]. pose proof Hw as [Hm [_ Hx]].
  assert (m_limits m = limits) as Hl.
  { destruct Hr as [Hl Hlater]. destruct (later_good _ _ Hlater (new_world_good _ policy Hl)) as [_ Hf].
    pose proof (fw_settings _ _ Hf) as Hs. by injection Hs. }
  rewrite <-Hl. split_and!; try apply Hm; [done|].
  intros name thread s Hs. destruct (live_generation w name thread s Hw Hs) as [Hok _].
    split_and!; [done|exact (so_numbered _ _ Hok)|apply (so_bytes _ _ Hok)].
Qed.

(** C7: Every request is a step of the log of each thread: a log opens empty, grows at
    its end by the next sequence number under a new message identifier, is sealed
    for good, and is followed by the next generation.  Nothing committed is changed,
    reordered or dropped while a generation is readable, and a generation that is
    gone never comes back. *)
Theorem requests_refine_thread_log limits policy w q name thread :
  msg_reachable limits policy w -> allowed q ->
  rtc log_step (thread_log w name thread) (thread_log (perform q w) name thread).
Proof.
  intros Hr Ha. pose proof (reachable_good _ _ _ Hr) as Hg.
  destruct (perform_good q w Ha Hg) as [Hg' Hf]. apply follows_log; [apply Hg|apply Hg'|done].
Qed.

(** C32: No waiter is forgotten.  A task that is suspended in
    [wait_for_messaging_change] knows all there is to know of its generation - the
    tail and the control sequence are those it waits to see changed, and the
    generation is readable - unless the generation has expired, the one change that
    is not announced. *)
Theorem waiters_see_their_cursor limits policy w v :
  msg_reachable limits policy w -> v ∈ waiters w ->
  (exists s, live w (v_channel v) (v_thread v) = Some s /\ s_generation s = v_generation v /\
     s_disposition s = Active /\ change_cursor s = v_after v) \/
  tombstone_of w (v_channel v) (v_thread v) (v_generation v) = Some ReasonExpired.
Proof. intros Hr Hv. destruct (reachable_good _ _ _ Hr) as [_ Hw]. by apply Hw. Qed.

(** C9: A settled run is out of its producer's hands.  Once a run of a generation is
    final, no later append, settlement or finish that names that generation is
    accepted for it, with whatever token and fence, however the backend got on in
    the meantime. *)
Theorem settled_run_rejects_its_producer limits policy w w' name s r t reference :
  msg_reachable limits policy w -> live w name (thread_key (tr_identity t)) = Some s ->
  dget (s_runs s) (i_run_id (tr_identity t)) = Some r -> is_final_run_status (r_status r) = true ->
  msg_later w w' -> tr_channel t = name -> producer_kind (tr_kind t) ->
  tr_run_reference t = Some reference -> rf_generation reference = s_generation s ->
  exists e, (commit_messaging_transition t w').1 = Raise e.
Proof.
  intros Hr Hl Hrun Hfin Hlater <- Hk Href Hgen. pose proof (reachable_good _ _ _ Hr) as Hg.
  destruct (later_good _ _ Hlater Hg) as [Hg' Hf].
  apply (wp_commit_steps w' t (fun rr _ => exists e, rr = Raise e)); [apply Hg'|].
  intros w1 matching (Hw1 & Hf1 & _ & _ & Hr1) _.
  destruct (resolve_messaging_transition _ _) as [effect|e] eqn:He; [exfalso|by exists e].
  destruct (resolved_owner _ _ _ Hk He) as [[[run stream] rf] Ho].
  apply owned_run_inv in Ho as (s1 & r1 & Hl1 & Hd1 & Hrun1 & Hf1' & _ & _ & Href1 & Hgen1 & _); [|done..].
  assert (rf = reference) as -> by congruence.
  destruct (live_generation _ _ _ _ Hw1 Hl1) as [_ Hg1].
  pose proof (msg_follows_trans _ _ _ Hf Hf1) as Hff.
  destruct (fw_stream _ _ Hff _ _ _ Hl) as [(s2 & Hl2 & Hsf)|Hlt]; [|lia].
  assert (s2 = s1) as -> by congruence.
  destruct (sf_runs _ _ Hsf Hd1 _ _ Hrun) as (r2 & Hr2 & Hrf).
  assert (r2 = r1) as -> by congruence. rewrite (fo_final _ _ Hrf Hfin) in Hf1'. congruence.
Qed.

(** ** Answers *)

(** C39: A transition is rejected before anything is written: the generations it leaves
    are those it found, apart from the ones whose replay window had passed, and
    nobody is woken.  The transition is one the ledger may ask for: a preparation names no
    run reference ([admissible]). *)
Theorem rejected_commit_only_expires limits policy w t e w' :
  msg_reachable limits policy w -> admissible t ->
  commit_messaging_transition t w = (Raise e, w') ->
  thinned w w' /\ follows w w' /\ waiters w' = waiters w.
Proof.
  intros Hr Ha Hc. pose proof (reachable_good _ _ _ Hr) as [Hw _].
  pattern w'. eapply wp_raised; [exact Hc|]. clear w' Hc.
  apply wp_commit_steps; [done|]. intros w1 matching (Hw1 & Hf1 & Ht1 & Hv1 & Hr1) Hm.
  assert (thinned w (utc_tick w1) /\ follows w (utc_tick w1) /\ waiters (utc_tick w1) = waiters w) as Hsame.
  { split_and!; [done| |done]. eapply msg_follows_trans; [exact Hf1|by apply follows_same_mem]. }
  destruct (resolve_messaging_transition _ _) as [effect|e1] eqn:He; [|done].
  by eapply wp_resolved.
Qed.

(** Committing the same again. *)
Record recommits t s e : Prop := {
  rc_known : e ∈ s_messages s /\ Some (e_message_id e) = tr_message_id t;
  rc_signed : exists k codec payload sg, dget (s_signatures s) (e_message_id e) =
      Some (i_run_id (e_identity e), e_codec e, e_payload e, k) /\
    tr_codec_id t = Some codec /\ tr_payload t = Some payload /\
    messaging_message_signature {| i_namespace := i_namespace (tr_identity t);
      i_thread_id := i_thread_id (tr_identity t); i_run_id := i_run_id (e_identity e) |}
      (e_codec e) (e_payload e) k = Ok sg /\
    messaging_message_signature (tr_identity t) codec payload (tr_checkpoint t) = Ok sg
}.

(** C8: An append or a publication that returns has committed its message exactly once.
    Either the log has grown by that message alone - the next sequence number, the
    identifier, codec and payload asked for, within the thread's quotas - or the
    identifier was there already with the digest of the same run, codec, payload and
    checkpoint, the log is as it was, and the message that is there is the answer. *)
Theorem append_commits_once limits policy w t res w' :
  msg_reachable limits policy w ->
  tr_kind t = AppendMessage \/ tr_kind t = PublishMessage ->
  commit_messaging_transition t w = (Ok res, w') ->
  exists s s' e, live w (tr_channel t) (thread_key (tr_identity t)) = Some s /\
    live w' (tr_channel t) (thread_key (tr_identity t)) = Some s' /\ rs_envelope res = Some e /\
    (s' = s /\ recommits t s e \/
     s_messages s' = s_messages s ++ [e] /\ (exists now, appends t s now e) /\
     dget (s_signatures s') (e_message_id e) =
       Some (i_run_id (tr_identity t), e_codec e, e_payload e, tr_checkpoint t)).
Proof.
  intros Hr Hk Hc. pose proof (reachable_good _ _ _ Hr) as [Hw _].
  pattern res, w'. eapply wp_returned; [exact Hc|]. clear res w' Hc.
  apply wp_commit_steps; [done|]. intros w1 matching (Hw1 & Hf1 & Ht1 & Hv1 & Hr1) Hm.
  assert (forall s, live w1 (tr_channel t) (thread_key (tr_identity t)) = Some s ->
    live w (tr_channel t) (thread_key (tr_identity t)) = Some s) as Hback.
  { intros s Hs. destruct (Ht1 (tr_channel t) (thread_key (tr_identity t))) as [<-|[H _]]; congruence. }
  destruct (resolve_messaging_transition _ _) as [effect|e1] eqn:He; [|done].
  assert (resolve_append_message t (snapshot_of w1 (tr_channel t) (tr_identity t)
    (selected_generation t) matching true) = Ok effect) as Ha.
  { unfold resolve_messaging_transition in He. apply rbind_ok in He as (? & _ & He).
    destruct Hk as [Hk|Hk]; by rewrite Hk in He. }
  eapply apply_append; try done.
  - intros ev s -> Hl Hev (codec & payload & Hcodec & Hpay & Hsg) Henv.
    destruct (live_ok _ _ _ _ Hw1 Hl) as (Hs & _).
    destruct (matching_some _ _ _ _ _ Hs Hev) as (Hin & Hid & Hst & Hsg').
    exists s, s, (ev_envelope ev). split_and!; [by apply Hback|by rewrite Hl|done|].
    left. split; [done|]. split; [done|]. by exists (ev_checkpoint ev), codec, payload, (ev_signature ev).
  - intros e s s' w2 -> Hl Hadv Hl' Hm' Hap Henv Hst. exists s, s', e.
    split_and!; [by apply Hback|by destruct (live w1 _ _)|done|].
    right. split_and!; try done. by eexists.
Qed.

(** C31: A producer owns its thread alone.  When a preparation makes the caller the
    producer of a run, that run is the only open one of the thread, its fence is above
    every earlier fence of the generation, and the reference handed out names exactly
    that generation, token and fence. *)
Theorem producer_owns_the_thread limits policy w t res w' :
  msg_reachable limits policy w -> tr_kind t = PrepareRun -> admissible t ->
  commit_messaging_transition t w = (Ok res, w') -> rs_is_producer_owner res = Some true ->
  exists s r, live w' (tr_channel t) (thread_key (tr_identity t)) = Some s /\
    dget (s_runs s) (i_run_id (tr_identity t)) = Some r /\
    r_identity r = tr_identity t /\ is_final_run_status (r_status r) = false /\
    r_owner_token r = Some (tr_transition_id t) /\
    rs_run_reference res = Some {| rf_channel := tr_channel t; rf_identity := tr_identity t;
      rf_generation := s_generation s; rf_producer_token := Some (tr_transition_id t);
      rf_producer_fence := Some (r_fence r) |} /\
    forall id r0, dget (s_runs s) id = Some r0 -> id <> i_run_id (tr_identity t) ->
      is_final_run_status (r_status r0) = true /\ r_fence r0 < r_fence r.
Proof.
  intros Hr Hk Had Hc. pose proof (reachable_good _ _ _ Hr) as [Hw _].
  pattern res, w'. eapply wp_returned; [exact Hc|]. clear res w' Hc.
  apply wp_commit_steps; [done|]. intros w1 matching (Hw1 & Hf1 & Ht1 & Hv1 & Hr1) Hm.
  destruct (resolve_messaging_transition _ _) as [effect|e1] eqn:He; [|done].
  assert (resolve_prepare_run t (snapshot_of w1 (tr_channel t) (tr_identity t) None matching true) =
    Ok effect) as Hp.
  { unfold resolve_messaging_transition, selected_generation, reference_generation in He.
    apply rbind_ok in He as (? & _ & He). rewrite Hk, (Had Hk) in He. done. }
  destruct (prepared_ok _ _ (thread_key (tr_identity t)) (channel_of_ok _ _ Hw1 Hr1)) as [Hs _].
  eapply apply_prepare; try done; [intros; congruence|].
  intros s' w2 Hadv Hl' Hact Hrun Hrec Hown Href _.
  exists s', (run_record (created_run t (stored_stream (tr_channel t) (tr_identity t)
    (prepared (channel_of (tr_channel t) w1) (thread_key (tr_identity t))))) (tr_identity t)).
  split_and!; [by destruct (live w1 _ _)| |done|done|done| |].
  - by rewrite (rr_runs _ _ _ _ _ Hrec), dget_dset_eq.
  - by rewrite (rr_generation _ _ _ _ _ Hrec).
  - intros id r0. rewrite (rr_runs _ _ _ _ _ Hrec), dget_dset.
    intros H0 Hne. rewrite decide_False in H0 by done. split.
    + by eapply other_run_final.
    + by apply (next_fence_above _ _ _ _ Hs H0).
Qed.

(** A page is the part of the log its query asks for: the messages numbered above the
    cursor and up to the reader's bound, the tail, the end of a settled run if the
    reader stops there, and the size of a page - in order, none left out. *)
Theorem page_is_the_requested_part limits policy w q page w' :
  msg_reachable limits policy w -> read_committed_messages q w = (Ok page, w') ->
  match q_through_sequence q with Some b => 0 <= b | None => True end ->
  exists s upto, live w (q_channel q) (thread_key (q_identity q)) = Some s /\
    s_generation s = q_generation q /\
    upto = page_end q (zlen (s_messages s)) (dget (s_runs s) (i_run_id (q_identity q))) /\
    p_messages page =
      List.filter (fun e => (q_after_sequence q <? e_seq e) && (e_seq e <=? upto)) (s_messages s) /\
    zlen (p_messages page) <= q_limit q /\ p_latest_sequence page = zlen (s_messages s) /\
    p_change_cursor page = change_cursor s.
Proof.
  intros Hr Hc Hb. pose proof (reachable_good _ _ _ Hr) as Hg.
  pattern page, w'. eapply wp_returned; [exact Hc|]. clear page w' Hc.
  apply wp_read; [done|done|]. intros s w1 Hg1 _ Ht1 Hl Hgen Hd Ha Hlim.
  destruct (live_generation _ _ _ _ (proj1 Hg1) Hl) as [Hs _].
  destruct (Ht1 (q_channel q) (thread_key (q_identity q))) as [Hlw|[Hno _]]; [|congruence].
  pose proof (page_end_nonneg _ q s _ Hs Hd (proj1 Ha) (proj1 Hlim) Hb eq_refl) as Hend.
  eexists s, _. split_and!; [congruence|done|done| | |done|done].
  - apply slice_is_filter; [exact (so_numbered _ _ Hs)|lia|done].
  - apply zlen_slice_le; [lia|done|lia|]. unfold page_end. lia.
Qed.

(** Purging empties a sealed generation.  A call removes as many records - messages,
    last first, then runs - as there are, but no more than it may, and says whether
    that was all; so as many calls as the records fill batches finish the job. *)
Theorem purge_removes_what_it_may limits policy w g result w' s :
  msg_reachable limits policy w -> purge_stream_generation g w = (Ok result, w') ->
  live w (g_channel g) (thread_key (g_identity g)) = Some s -> s_generation s = g_generation g ->
  let records := zlen (s_messages s) + zlen (s_runs s) in
  exists s', live w' (g_channel g) (thread_key (g_identity g)) = Some s' /\
    s_disposition s = Deleting /\ s_disposition s' = Deleting /\
    removed_records result = Z.min records (g_maximum_records g) /\ 1 <= g_maximum_records g /\
    zlen (s_messages s') + zlen (s_runs s') = records - removed_records result /\
    complete result = (records <=? g_maximum_records g).
Proof.
  intros Hr Hc Hl Hgen records. pose proof (reachable_good _ _ _ Hr) as [Hw _].
  pattern result, w'. eapply wp_returned; [exact Hc|]. clear result w' Hc.
  apply wp_purge; [done|done|intros Hno; by destruct (Hno s Hl)|].
  intros s0 s' w' n Hl0 _ Hmax Hp -> Hlen. assert (s0 = s) as -> by congruence.
  destruct (live_generation _ _ _ _ Hw Hl) as [Hs _].
  pose proof (pu_sealed _ _ _ _ _ _ Hp) as Hd'. pose proof (pu_disposition _ _ _ _ _ _ Hp) as Hd.
  exists s'. split_and!; try done; [apply (pu_live _ _ _ _ _ _ Hp)|..].
  - destruct (so_disposition _ _ Hs); congruence.
  - destruct (so_disposition _ _ Hs); congruence.
Qed.
End props.

(** ** Instances *)

Definition msg_play (l : list request) (w : World) : World :=
  fold_left (fun w q => perform q w) l w.

Lemma msg_play_later l w : Forall allowed l -> msg_later w (msg_play l w).
Proof.
  intros H. revert w. induction H as [|q l Hq _ IH]; intros w; simpl; [constructor|].
  eapply rtc_l; [|apply IH]. by constructor.
Qed.

Definition demo_world (l : list request) : World := msg_play l demo_start.

Lemma demo_world_reachable l : Forall allowed l -> msg_reachable demo_limits demo_policy (demo_world l).
Proof. intros H. split; [reflexivity|by apply msg_play_later]. Qed.

(** A run prepared, a message committed, the run finished. *)
Definition demo_open : list request := [Commit demo_prepare; Commit demo_append].
Definition demo_settled : list request := demo_open ++ [Commit demo_finish].
Definition demo_sealed : list request := demo_settled ++ [Commit demo_seal].

(** A task waits for news of a settled run, and the generation expires under it. *)
Definition demo_after : MessagingChangeCursor :=
  {| cc_message_sequence := 1; cc_control_sequence := 1 |}.
Definition demo_waiting : list request := demo_settled ++ [Wait 7 (demo_wait demo_after)].
Definition demo_expired : list request :=
  demo_waiting ++ [Read (demo_query None); Read (demo_query None); Read (demo_query None)].

Ltac demo_allowed := repeat constructor; unfold allowed, admissible; vm_compute; congruence.

Lemma messaging_state_invariant_witness :
  m_total_bytes (mem (demo_world demo_settled)) =
    total_bytes (m_channels (mem (demo_world demo_settled))) /\
  m_total_bytes (mem (demo_world demo_settled)) = 3.
Proof.
  destruct (messaging_state_invariant demo_limits demo_policy (demo_world demo_settled)) as [H _].
  - apply demo_world_reachable. demo_allowed.
  - split; [exact H|vm_compute; reflexivity].
Defined.

Lemma requests_refine_thread_log_witness :
  rtc log_step (thread_log (demo_world demo_open) demo_channel demo_thread)
    (thread_log (perform (Commit demo_finish) (demo_world demo_open)) demo_channel demo_thread).
Proof.
  apply (requests_refine_thread_log demo_limits demo_policy).
  - apply demo_world_reachable. demo_allowed.
  - demo_allowed.
Defined.

Lemma waiters_see_their_cursor_witness :
  let w := demo_world demo_waiting in
  (change_cursor <$> live w demo_channel demo_thread) = Some demo_after /\
  forall v, v ∈ waiters w -> waits_ok w v.
Proof.
  intros w. split; [vm_compute; reflexivity|].
  intros v Hv. apply (waiters_see_their_cursor demo_limits demo_policy w v); [|exact Hv].
  apply demo_world_reachable. demo_allowed.
Defined.

Definition demo_stream (w : World) : StreamState :=
  default (new_stream_state 0) (live w demo_channel demo_thread).

Definition demo_record (w : World) : RunRecord :=
  default (run_record (created_run demo_prepare (stored_stream [] (demo_run []) (new_stream_state 0)))
             (demo_run []))
    (dget (s_runs (demo_stream w)) r1).

(** The producer of the settled run appends again. *)
Lemma settled_run_rejects_its_producer_witness :
  exists e, (commit_messaging_transition demo_append (demo_world demo_settled)).1 = Raise e.
Proof.
  eapply (settled_run_rejects_its_producer demo_limits demo_policy (demo_world demo_settled)
    (demo_world demo_settled) demo_channel (demo_stream (demo_world demo_settled)) (demo_record (demo_world demo_settled))
    demo_append).
  - apply demo_world_reachable. demo_allowed.
  - vm_compute. reflexivity.
  - vm_compute. reflexivity.
  - vm_compute. reflexivity.
  - constructor.
  - reflexivity.
  - by left.
  - reflexivity.
  - vm_compute. reflexivity.
Defined.

(** The identifier is taken by another payload. *)
Lemma rejected_commit_only_expires_witness :
  let w := demo_world demo_open in
  let result := commit_messaging_transition demo_append_again w in
  result.1 = Raise MessageIdConflict /\ thinned w result.2.
Proof.
  intros w result. split; [vm_compute; reflexivity|].
  apply (rejected_commit_only_expires demo_limits demo_policy w demo_append_again MessageIdConflict).
  - apply demo_world_reachable. demo_allowed.
  - demo_allowed.
  - rewrite (surjective_pairing (commit_messaging_transition demo_append_again w)).
    f_equal.
Defined.

(** The message of a producer, sent again by it: it is there already. *)
Lemma append_commits_once_witness :
  let w := demo_world demo_open in
  exists s s' e, live w demo_channel demo_thread = Some s /\
    live (commit_messaging_transition demo_append w).2 demo_channel demo_thread = Some s' /\
    (s' = s /\ recommits demo_append s e \/
     s_messages s' = s_messages s ++ [e] /\ (exists now, appends demo_append s now e)).
Proof.
  intros w.
  destruct (commit_messaging_transition demo_append w) as [[res|e] w'] eqn:Hc; [|vm_compute in Hc; discriminate Hc].
  destruct (append_commits_once demo_limits demo_policy w demo_append res w') as (s & s' & e & H1 & H2 & _ & H3).
  - apply demo_world_reachable. demo_allowed.
  - by left.
  - exact Hc.
  - exists s, s', e. split; [exact H1|split; [exact H2|]]. destruct H3 as [H3|(H3 & H4 & _)]; auto.
Defined.

Lemma producer_owns_the_thread_witness :
  exists w s r, commit_messaging_transition demo_prepare demo_start =
      ((commit_messaging_transition demo_prepare demo_start).1, w) /\
    live w demo_channel demo_thread = Some s /\ dget (s_runs s) r1 = Some r /\
    r_owner_token r = Some (tr_transition_id demo_prepare).
Proof.
  destruct (commit_messaging_transition demo_prepare demo_start) as [[res|e] w] eqn:Hc;
    [|vm_compute in Hc; discriminate Hc].
  destruct (producer_owns_the_thread demo_limits demo_policy demo_start demo_prepare res w)
    as (s & r & H1 & H2 & _ & _ & H3 & _).
  - apply (demo_world_reachable []). constructor.
  - reflexivity.
  - demo_allowed.
  - exact Hc.
  - vm_compute in Hc. injection Hc as <- _. reflexivity.
  - exists w, s, r. split; [reflexivity|]. split; [exact H1|]. split; [exact H2|exact H3].
Defined.

Lemma page_is_the_requested_part_witness :
  let w := demo_world demo_open in
  exists page s, (read_committed_messages (demo_query None) w).1 = Ok page /\
    live w demo_channel demo_thread = Some s /\
    zlen (p_messages page) <= 10 /\ p_latest_sequence page = zlen (s_messages s).
Proof.
  intros w.
  destruct (read_committed_messages (demo_query None) w) as [[page|e] w'] eqn:Hc;
    [|vm_compute in Hc; discriminate Hc].
  destruct (page_is_the_requested_part demo_limits demo_policy w (demo_query None) page w')
    as (s & upto & H1 & _ & _ & _ & H2 & H3 & _).
  - apply demo_world_reachable. demo_allowed.
  - exact Hc.
  - exact I.
  - exists page, s. split; [reflexivity|]. split; [exact H1|]. split; [exact H2|exact H3].
Defined.

Lemma purge_removes_what_it_may_witness :
  let w := demo_world demo_sealed in
  exists result, (purge_stream_generation demo_purge w).1 = Ok result /\
    removed_records result = 1 /\ complete result = false.
Proof.
  intros w.
  destruct (purge_stream_generation demo_purge w) as [[result|e] w'] eqn:Hc;
    [|vm_compute in Hc; discriminate Hc].
  destruct (purge_removes_what_it_may demo_limits demo_policy w demo_purge result w' (demo_stream w))
    as (s' & _ & _ & _ & H1 & _ & _ & H2).
  - apply demo_world_reachable. demo_allowed.
  - exact Hc.
  - vm_compute. reflexivity.
  - vm_compute. reflexivity.
  - exists result. split; [reflexivity|]. rewrite H1, H2. split; vm_compute; reflexivity.
Defined.

(** ** What the documentation says otherwise *)

(** [wait_for_messaging_change] is documented to raise StreamExpired when the
    generation expires while it waits; nothing wakes the task. *)
Lemma expired_under_a_waiter :
  let w := demo_world demo_expired in
  msg_reachable demo_limits demo_policy w /\ (v_generation <$> waiters w) = [1] /\
  tombstone_of w demo_channel demo_thread 1 = Some ReasonExpired /\ live w demo_channel demo_thread = None.
Proof.
  split; [apply demo_world_reachable; demo_allowed|]. by vm_compute.
Qed.

(** A negative bound is not refused, as the SQL backend does, and wraps round: a page
    through -1 holds all but the last message. *)
Lemma negative_bound_wraps :
  let w := demo_world (demo_open ++
    [Commit (demo_transition AppendMessage r1 (demo_reference r1) (Some ([109; 50], [7])) None)]) in
  match read_committed_messages (demo_query (Some (-1))) w with
  | (Ok page, _) => map e_seq (p_messages page) = [1]
  | (Raise _, _) => False
  end.
Proof. vm_compute. reflexivity. Qed.

(** ** The commit digest

    The bytes a message's commit digest is taken of determine what is committed.
    UTF-8 is a prefix code, each part is framed by its length, and the last byte
    tells whether a checkpoint follows. *)

(** Code points of a Python string. *)
Definition code_points (s : pystr) : Prop := Forall (fun c => 0 <= c < 1114112) s.

(** The leading octet of an encoded code point tells its class. *)
Lemma utf8_char_app_inj c1 c2 l1 l2 :
  0 <= c1 < 1114112 -> 0 <= c2 < 1114112 ->
  utf8_char c1 ++ l1 = utf8_char c2 ++ l2 -> c1 = c2 /\ l1 = l2.
Proof.
  intros H1 H2. unfold utf8_char.
  repeat match goal with |- context [if ?a <? ?b then _ else _] => destruct (Z.ltb_spec a b) end;
    simpl; intros Heq; injection Heq; clear Heq; intros; subst; split; try done;
    Z.to_euclidean_division_equations; lia.
Qed.

Lemma utf8_chars_inj s1 s2 :
  code_points s1 -> code_points s2 -> flat_map utf8_char s1 = flat_map utf8_char s2 -> s1 = s2.
Proof.
  intros H1. revert s2. induction H1 as [|c1 s1 Hc1 _ IH]; intros s2 H2; simpl.
  - destruct H2 as [|c2 s2 Hc2 _]; [done|]. simpl. unfold utf8_char.
    by repeat match goal with |- context [if ?b then _ else _] => destruct b end.
  - destruct H2 as [|c2 s2 Hc2 H2]; simpl.
    + unfold utf8_char. by repeat match goal with |- context [if ?b then _ else _] => destruct b end.
    + intros [-> Heq]%utf8_char_app_inj; [|done..]. f_equal. by apply IH.
Qed.

Lemma utf8_inj s1 s2 b : code_points s1 -> code_points s2 -> utf8 s1 = Ok b -> utf8 s2 = Ok b -> s1 = s2.
Proof.
  unfold utf8. intros H1 H2 E1 E2. destruct (utf8_encodable s1); [|done].
  destruct (utf8_encodable s2); [|done]. simpl in *. apply utf8_chars_inj; congruence.
Qed.

(** ** Framing *)

Lemma length_big_endian width n : List.length (big_endian width n) = width.
Proof.
  revert n. induction width as [|w IH]; intros n; simpl; [done|]. rewrite length_app, IH. simpl. lia.
Qed.

Lemma big_endian_inj width n1 n2 :
  0 <= n1 < 256 ^ Z.of_nat width -> 0 <= n2 < 256 ^ Z.of_nat width ->
  big_endian width n1 = big_endian width n2 -> n1 = n2.
Proof.
  revert n1 n2. induction width as [|w IH]; intros n1 n2 H1 H2; simpl; [simpl in *; lia|].
  rewrite Nat2Z.inj_succ, Z.pow_succ_r in H1, H2 by lia.
  intros [Hq [= Hm]]%app_inj_1; [|by rewrite !length_big_endian].
  apply IH in Hq; Z.to_euclidean_division_equations; lia.
Qed.

Lemma framed_ok v f : framed v = Ok f -> zlen v < 2 ^ 64 /\ f = big_endian 8 (zlen v) ++ v.
Proof.
  unfold framed. intros H. apply rbind_ok in H as (? & Hlt%rraise_if_ok & H).
  injection H as H. split; [lia|by symmetry].
Qed.

Lemma framed_app_inj v1 v2 f1 f2 l1 l2 :
  framed v1 = Ok f1 -> framed v2 = Ok f2 -> f1 ++ l1 = f2 ++ l2 -> v1 = v2 /\ l1 = l2.
Proof.
  intros [Hl1 ->]%framed_ok [Hl2 ->]%framed_ok. rewrite <-!(app_assoc (big_endian _ _)).
  intros [Hn Hv]%app_inj_1; [|by rewrite !length_big_endian].
  pose proof (zlen_nonneg v1). pose proof (zlen_nonneg v2).
  apply big_endian_inj in Hn; [|simpl; lia..]. apply app_inj_1 in Hv; [done|]. unfold zlen in Hn. lia.
Qed.

Lemma framed_all_app_inj vs1 vs2 f1 f2 l1 l2 :
  framed_all vs1 = Ok f1 -> framed_all vs2 = Ok f2 -> List.length vs1 = List.length vs2 ->
  f1 ++ l1 = f2 ++ l2 -> vs1 = vs2 /\ l1 = l2.
Proof.
  revert vs2 f1 f2. induction vs1 as [|v1 vs1 IH]; intros [|v2 vs2] f1 f2 H1 H2 Hlen; simpl in *; try done.
  - by inv_ok.
  - apply rbind_ok in H1 as (a1 & Ha1 & H1), H2 as (a2 & Ha2 & H2).
    apply rbind_ok in H1 as (b1 & Hb1 & H1), H2 as (b2 & Hb2 & H2). inv_ok.
    rewrite <-!app_assoc. intros Heq. destruct (framed_app_inj _ _ _ _ _ _ Ha1 Ha2 Heq) as [-> Heq'].
    destruct (IH vs2 b1 b2 Hb1 Hb2 ltac:(lia) Heq') as [-> ->]. done.
Qed.

(** What the digest distinguishes of a checkpoint. *)
Definition digested (k : option RecoveryCheckpoint) : option (pybytes * pystr) :=
  (fun k => (k_position k, default [] (k_last_message_id k))) <$> k.

Definition checkpoint_points (k : option RecoveryCheckpoint) : Prop :=
  match k with Some k => code_points (default [] (k_last_message_id k)) | None => True end.

(** A commit digest covers exactly what is committed: the bytes the digest is taken of
    determine the run, the codec, the payload and, if there is a checkpoint, its
    position and message.  So no two different commits of one thread are signed
    alike unless SHA-256 collides. *)
Theorem signature_input_injective run1 run2 codec1 codec2 payload1 payload2 k1 k2 fed :
  code_points run1 -> code_points run2 -> code_points codec1 -> code_points codec2 ->
  checkpoint_points k1 -> checkpoint_points k2 ->
  signature_input run1 codec1 payload1 k1 = Ok fed -> signature_input run2 codec2 payload2 k2 = Ok fed ->
  run1 = run2 /\ codec1 = codec2 /\ payload1 = payload2 /\ digested k1 = digested k2.
Proof.
  unfold signature_input. intros R1 R2 C1 C2 K1 K2 H1 H2.
  apply rbind_ok in H1 as (r1 & Hr1 & H1), H2 as (r2 & Hr2 & H2).
  apply rbind_ok in H1 as (c1 & Hc1 & H1), H2 as (c2 & Hc2 & H2).
  apply rbind_ok in H1 as (x1 & Hx1 & H1), H2 as (x2 & Hx2 & H2).
  apply rbind_ok in H1 as (b1 & Hb1 & H1), H2 as (b2 & Hb2 & H2).
  assert (b1 ++ [match k1 with Some _ => 49 | None => 48 end] =
    b2 ++ [match k2 with Some _ => 49 | None => 48 end]) as Heq by congruence.
  destruct (app_inj_tail _ _ _ _ Heq) as [_ Ht].
  destruct k1 as [k1|], k2 as [k2|]; try done; unfold digested; cbn in K1, K2 |- *.
  - apply rbind_ok in Hx1 as (i1 & Hi1 & Hx1), Hx2 as (i2 & Hi2 & Hx2). injection Hx1 as <-.
    injection Hx2 as <-. destruct (framed_all_app_inj _ _ _ _ _ _ Hb1 Hb2 eq_refl Heq) as [[= <- <- -> Hp <-] _].
    rewrite Hp. rewrite (utf8_inj _ _ _ R1 R2 Hr1 Hr2), (utf8_inj _ _ _ C1 C2 Hc1 Hc2).
    by rewrite (utf8_inj _ _ _ K1 K2 Hi1 Hi2).
  - injection Hx1 as <-. injection Hx2 as <-.
    destruct (framed_all_app_inj _ _ _ _ _ _ Hb1 Hb2 eq_refl Heq) as [[= <- <- ->] _].
    by rewrite (utf8_inj _ _ _ R1 R2 Hr1 Hr2), (utf8_inj _ _ _ C1 C2 Hc1 Hc2).
Qed.

(** ** An instance *)

Definition sample_checkpoint (id : option pystr) : option RecoveryCheckpoint :=
  Some {| k_position := [1; 2]; k_last_message_id := id |}.

Definition sample_fed (id : option pystr) : pybytes :=
  match signature_input [114; 233] [106] [0; 255] (sample_checkpoint id) with Ok b => b | Raise _ => [] end.

(** A checkpoint without a message and one with the empty name are fed alike. *)
Lemma signature_input_injective_witness :
  signature_input [114; 233] [106] [0; 255] (sample_checkpoint None) = Ok (sample_fed None) /\
  digested (sample_checkpoint None) = digested (sample_checkpoint (Some [])).
Proof.
  split; [vm_compute; reflexivity|].
  apply (signature_input_injective [114; 233] [114; 233] [106] [106] [0; 255] [0; 255]
           (sample_checkpoint None) (sample_checkpoint (Some [])) (sample_fed None));
    try (repeat constructor; lia); vm_compute; reflexivity.
Defined.
