(* ===== verification/MsgLedger.v ===== *)
(** Messaging: _messaging_ledger.py, the framework's side of the lifecycle.  A method
    is an interaction tree over the calls it awaits: other tasks may act between any
    two of them, and a [while True] loop is [ITree.iter], with no bound. *)
From S2P Require Import Prelude PyDict PySeq Contracts MsgModels MsgTransition MsgMemory.
From ITree Require Import Core.ITreeDefinition.
From Stdlib Require Import Strings.String.

(** ** What a method does besides computing *)

(** The calls of a backend ([MessagingBackend]), a fresh identifier, an item handed
    to the consumer of an asynchronous generator, and [raise] with its cause. *)
Variant ledgerE : Type -> Type :=
| LoadState (q : MessagingStateQuery) : ledgerE MessagingStateSnapshot
| CommitTransition (t : MessagingTransition) : ledgerE MessagingTransitionResult
| ReadMessages (q : CommittedMessageQuery) : ledgerE CommittedMessagePage
| WaitForChange (wait : MessagingChangeWait) : ledgerE unit
| PurgeGeneration (g : StreamGenerationPurge) : ledgerE StreamGenerationPurgeResult
| Uuid4 : ledgerE pystr
| Yield (message : MessageEnvelope) : ledgerE unit
| Throw (e : msg_exn) (cause : option Failure) : ledgerE Empty_set.

Definition program (A : Type) : Type := itree ledgerE A.

Notation "'let!' x ':=' m 'in' k" := (ITree.bind m (fun x => k))
  (at level 10, x name, m at level 200, k at level 200) : py_scope.
Notation "'do!' m 'in' k" := (ITree.bind m (fun _ => k))
  (at level 10, m at level 200, k at level 200) : py_scope.

Definition call {X} (e : ledgerE X) : program X := Vis e (fun x => Ret x).

Definition done {A} (a : A) : program A := Ret a.

Definition throw_from {A} (e : msg_exn) (cause : option Failure) : program A :=
  Vis (Throw e cause) (fun x : Empty_set => match x with end).

Definition throw {A} (e : msg_exn) : program A := throw_from e None.

(** A synchronous helper. *)
Definition try {A} (r : res msg_exn A) : program A :=
  match r with Ok a => Ret a | Raise e => throw e end.

(** A value the code requires not to be [None]. *)
Definition required {A} (o : option A) (e : msg_exn) : program A :=
  match o with Some a => Ret a | None => throw e end.

(** [while True], from the loop's variables: [inl] goes round, [inr] returns. *)
Definition forever {I A} (body : I -> program (I + A)) (i : I) : program A := ITree.iter body i.

(** ** Handles *)

Record BackendRunHandle : Type := {
  h_channel : pystr;
  h_identity : RunIdentity;
  h_owner_token : option pystr;
  h_fence : option Z;
  h_generation : option Z
}.

Record PreparedRun : Type := {
  pr_handle : BackendRunHandle;
  pr_after : Z;
  pr_is_owner : bool;
  pr_checkpoint : option RecoveryCheckpoint;
  pr_recovered : bool
}.

Definition validate_append_input (handle : BackendRunHandle) (message_id codec : pystr)
    (payload : pybytes) (checkpoint : option RecoveryCheckpoint) (limits : MessagingLimits)
    : res msg_exn unit :=
  do? required_identifier (h_channel handle) in
  do? required_identity (h_identity handle) in
  do? required_identifier message_id in
  do? required_identifier codec in
  do? rraise_if (match checkpoint with
                 | Some k => negb (bool_decide (k_last_message_id k = Some message_id))
                 | None => false
                 end) MsgValueError in
  do? rraise_if (max_message_payload_bytes limits <? zlen payload) MessagingQuotaExceeded in
  rraise_if (match checkpoint with
             | Some k => max_checkpoint_bytes limits <? zlen (k_position k)
             | None => false
             end) MessagingQuotaExceeded.

Definition with_generation (handle : BackendRunHandle) (generation : Z) : BackendRunHandle :=
  if bool_decide (h_generation handle = Some generation) then handle
  else {| h_channel := h_channel handle; h_identity := h_identity handle;
          h_owner_token := h_owner_token handle; h_fence := h_fence handle;
          h_generation := Some generation |}.

Definition internal_handle (reference : MessagingRunReference) : BackendRunHandle :=
  {| h_channel := rf_channel reference; h_identity := rf_identity reference;
     h_owner_token := rf_producer_token reference; h_fence := rf_producer_fence reference;
     h_generation := Some (rf_generation reference) |}.

(** An observer's handle. *)
Definition observer (channel : pystr) (identity : RunIdentity) (generation : Z)
    : BackendRunHandle :=
  {| h_channel := channel; h_identity := identity; h_owner_token := None; h_fence := None;
     h_generation := Some generation |}.

Definition required_generation (handle : BackendRunHandle) : res msg_exn Z :=
  match h_generation handle with Some g => Ok g | None => Raise MsgValueError end.

Definition storage_reference (handle : BackendRunHandle) (require_owner : bool)
    : res msg_exn MessagingRunReference :=
  let? generation := required_generation handle in
  do? rraise_if (require_owner && (bool_decide (h_owner_token handle = None) ||
                                   bool_decide (h_fence handle = None))) MsgValueError in
  Ok {| rf_channel := h_channel handle; rf_identity := h_identity handle;
        rf_generation := generation; rf_producer_token := h_owner_token handle;
        rf_producer_fence := h_fence handle |}.

(** ** Checks *)

(** [_validate_page]; both arguments are integers here. *)
Definition validate_page (after limit : Z) : res msg_exn unit :=
  do? rraise_if (after <? 0) MsgValueError in
  rraise_if (negb ((1 <=? limit) && (limit <=? 1000))) MsgValueError.

Definition raise_tombstone (state : MessagingStateSnapshot) (generation : option Z)
    : res msg_exn unit :=
  match sn_tombstone_generation state with
  | None => Ok tt
  | Some tombstone_generation =>
      let unconcerned :=
        match generation with
        | None => match sn_stream state with
                  | Some _ => true
                  | None => bool_decide (sn_tombstone_reason state = Some ReasonDeleted)
                  end
        | Some g => negb (g =? tombstone_generation)
        end in
      if unconcerned then Ok tt
      else match sn_tombstone_reason state with
           | Some ReasonExpired => Raise StreamExpired
           | Some ReasonDeleted => Raise StreamDeleted
           | None => Ok tt
           end
  end.

Definition raise_stream_disposition (state : MessagingStateSnapshot) : res msg_exn unit :=
  match sn_stream state with
  | None => Ok tt
  | Some stream =>
      match ss_disposition stream with
      | Expiring | Expired => Raise StreamExpired
      | Deleting | Deleted => Raise StreamDeleted
      | Active => Ok tt
      end
  end.

Definition run_failure (run : StoredMessagingRun) : Failure :=
  match sr_local_failure run with
  | Some f => f
  | None =>
      let summary := if bool_decide (sr_failure_message run = [])
                     then u "producer stopped without failure details"
                     else sr_failure_message run in
      RuntimeError (if bool_decide (sr_failure_class run = []) then summary
                    else sr_failure_class run ++ u ": " ++ summary)
  end.

(** ** Transitions *)

(** [MessagingTransition(kind=..., transition_id=..., channel=..., identity=...,
    settings=..., run_reference=...)] with the defaults of the other fields. *)
Definition plain_transition (settings : MessagingBackendSettings) (kind : MessagingTransitionKind)
    (transition_id channel : pystr) (identity : RunIdentity)
    (reference : option MessagingRunReference) : MessagingTransition :=
  {| tr_kind := kind; tr_transition_id := transition_id; tr_channel := channel;
     tr_identity := identity; tr_settings := settings; tr_run_reference := reference;
     tr_codec_id := None; tr_after_sequence := None; tr_cancellable := false;
     tr_recoverable := false; tr_request_digest := None; tr_message_id := None;
     tr_payload := None; tr_checkpoint := None; tr_closes_publication := false;
     tr_opens_publication := true; tr_final_status := None; tr_failure := None;
     tr_cleanup_generation := None; tr_cleanup_reason := None; tr_cleanup_token := None |}.

(** The transitions that carry a message. *)
Definition message_transition (settings : MessagingBackendSettings)
    (kind : MessagingTransitionKind) (channel : pystr) (identity : RunIdentity)
    (reference : MessagingRunReference) (message_id codec : pystr) (payload : pybytes)
    (checkpoint : option RecoveryCheckpoint) (closes_publication opens_publication : bool)
    : MessagingTransition :=
  {| tr_kind := kind; tr_transition_id := message_id; tr_channel := channel;
     tr_identity := identity; tr_settings := settings; tr_run_reference := Some reference;
     tr_codec_id := Some codec; tr_after_sequence := None; tr_cancellable := false;
     tr_recoverable := false; tr_request_digest := None; tr_message_id := Some message_id;
     tr_payload := Some payload; tr_checkpoint := checkpoint;
     tr_closes_publication := closes_publication; tr_opens_publication := opens_publication;
     tr_final_status := None; tr_failure := None; tr_cleanup_generation := None;
     tr_cleanup_reason := None; tr_cleanup_token := None |}.

Definition prepare_transition (settings : MessagingBackendSettings) (transition_id channel : pystr)
    (identity : RunIdentity) (codec : pystr) (after : option Z) (cancellable recoverable : bool)
    (request_digest : option pystr) : MessagingTransition :=
  {| tr_kind := PrepareRun; tr_transition_id := transition_id; tr_channel := channel;
     tr_identity := identity; tr_settings := settings; tr_run_reference := None;
     tr_codec_id := Some codec; tr_after_sequence := after; tr_cancellable := cancellable;
     tr_recoverable := recoverable; tr_request_digest := request_digest;
     tr_message_id := None; tr_payload := None; tr_checkpoint := None;
     tr_closes_publication := false; tr_opens_publication := true; tr_final_status := None;
     tr_failure := None; tr_cleanup_generation := None; tr_cleanup_reason := None;
     tr_cleanup_token := None |}.

Definition finish_transition (settings : MessagingBackendSettings) (transition_id channel : pystr)
    (identity : RunIdentity) (reference : MessagingRunReference) (status : RunStatus)
    (error : option Failure) : MessagingTransition :=
  {| tr_kind := FinishRun; tr_transition_id := transition_id; tr_channel := channel;
     tr_identity := identity; tr_settings := settings; tr_run_reference := Some reference;
     tr_codec_id := None; tr_after_sequence := None; tr_cancellable := false;
     tr_recoverable := false; tr_request_digest := None; tr_message_id := None;
     tr_payload := None; tr_checkpoint := None; tr_closes_publication := false;
     tr_opens_publication := true; tr_final_status := Some status; tr_failure := error;
     tr_cleanup_generation := None; tr_cleanup_reason := None; tr_cleanup_token := None |}.

(** The two transitions of a cleanup. *)
Definition cleanup_transition (settings : MessagingBackendSettings)
    (kind : MessagingTransitionKind) (transition_id channel : pystr) (identity : RunIdentity)
    (generation : option Z) (reason : MessagingCleanupReason) (token : option pystr)
    : MessagingTransition :=
  {| tr_kind := kind; tr_transition_id := transition_id; tr_channel := channel;
     tr_identity := identity; tr_settings := settings; tr_run_reference := None;
     tr_codec_id := None; tr_after_sequence := None; tr_cancellable := false;
     tr_recoverable := false; tr_request_digest := None; tr_message_id := None;
     tr_payload := None; tr_checkpoint := None; tr_closes_publication := false;
     tr_opens_publication := true; tr_final_status := None; tr_failure := None;
     tr_cleanup_generation := generation; tr_cleanup_reason := Some reason;
     tr_cleanup_token := token |}.

(** ** The ledger *)

Section ledger.
(** [self._backend.messaging_settings], immutable. *)
Context (settings : MessagingBackendSettings).

Definition change_wait_timeout (run : StoredMessagingRun) : option Z :=
  match sr_producer_lease_remaining_seconds run, st_change_wait_timeout_seconds settings with
  | None, configured => configured
  | Some remaining, None => Some (Z.max 1000 remaining)
  | Some remaining, Some configured => Some (Z.max 1000 (Z.min configured remaining))
  end.

(** [_cleanup_generation]: seal, purge in batches of 64, bury. *)
Definition cleanup_generation (channel : pystr) (identity : RunIdentity)
    (reason : MessagingCleanupReason) : program unit :=
  let! begin_id := call Uuid4 in
  let! begin := call (CommitTransition
    (cleanup_transition settings BeginGenerationCleanup begin_id channel identity None reason None)) in
  if negb (rs_cleanup_required begin) then done tt
  else
    let! generation := required (rs_cleanup_generation begin) MessagingBackendProtocolError in
    let! reason := required (rs_cleanup_reason begin) MessagingBackendProtocolError in
    let token := rs_cleanup_token begin in
    do! forever (fun _ : unit =>
      let! progress := call (PurgeGeneration
        {| g_channel := channel; g_identity := identity; g_generation := generation;
           g_maximum_records := 64; g_cleanup_token := token |}) in
      done (if complete progress then inr tt else inl tt)) tt in
    let! finish_id := call Uuid4 in
    do! call (CommitTransition (cleanup_transition settings FinishGenerationCleanup finish_id
      channel identity (Some generation) reason token)) in
    done tt.

Definition state_query (channel : pystr) (identity : RunIdentity) (generation : option Z)
    (include_active_run : bool) : MessagingStateQuery :=
  {| sq_channel := channel; sq_identity := identity; sq_generation := generation;
     sq_message_id := None; sq_include_active_run := include_active_run |}.

Definition load_current_state (channel : pystr) (identity : RunIdentity)
    (include_active_run : bool) : program MessagingStateSnapshot :=
  let query := state_query channel identity None include_active_run in
  let! state := call (LoadState query) in
  match sn_stream state with
  | None => done state
  | Some stream =>
      if ss_retention_expired stream || bool_decide (ss_disposition stream = Expiring)
      then
        do! cleanup_generation channel identity ReasonExpired in
        call (LoadState query)
      else done state
  end.

Definition load_bound_state (handle : BackendRunHandle) : program MessagingStateSnapshot :=
  let! generation := try (required_generation handle) in
  let! state := call (LoadState
    (state_query (h_channel handle) (h_identity handle) (Some generation) false)) in
  do! try (raise_tombstone state (Some generation)) in
  do! try (raise_stream_disposition state) in
  done state.

Definition resolve_handle_generation (handle : BackendRunHandle) : program Z :=
  match h_generation handle with
  | Some generation => done generation
  | None =>
      let! state := load_current_state (h_channel handle) (h_identity handle) false in
      do! try (raise_tombstone state None) in
      match sn_stream state, sn_target_run state with
      | Some stream, Some _ =>
          do! try (raise_stream_disposition state) in
          done (ss_generation stream)
      | _, _ => throw RunNotFound
      end
  end.

Definition reconcile_bound_ownership (handle : BackendRunHandle) : program RunStatus :=
  let! id := call Uuid4 in
  let! reference := try (storage_reference handle false) in
  let! result := call (CommitTransition (plain_transition settings ReconcileProducerOwnership id
    (h_channel handle) (h_identity handle) (Some reference))) in
  required (rs_run_status result) MessagingBackendProtocolError.

(** ** Producing *)

Definition prepare (channel : pystr) (identity : RunIdentity) (codec : pystr) (after : option Z)
    (cancellable recoverable : bool) (request_digest : option pystr) : program PreparedRun :=
  do! match terminal_ttl_seconds (st_retention_policy settings) with
      | Some _ => do! load_current_state channel identity false in done tt
      | None => done tt
      end in
  let! id := call Uuid4 in
  let! result := call (CommitTransition (prepare_transition settings id channel identity codec
    after cancellable recoverable request_digest)) in
  match rs_run_reference result, rs_after_sequence result, rs_is_producer_owner result with
  | Some reference, Some after, Some is_owner =>
      done {| pr_handle := internal_handle reference; pr_after := after; pr_is_owner := is_owner;
              pr_checkpoint := rs_checkpoint result; pr_recovered := rs_recovered result |}
  | _, _, _ => throw MessagingBackendProtocolError
  end.

Definition append (handle : BackendRunHandle) (message_id codec : pystr) (payload : pybytes)
    (checkpoint : option RecoveryCheckpoint) (closes_publication opens_publication : bool)
    : program MessageEnvelope :=
  do! try (validate_append_input handle message_id codec payload checkpoint
             (st_limits settings)) in
  let! reference := try (storage_reference handle true) in
  let! result := call (CommitTransition (message_transition settings AppendMessage
    (h_channel handle) (h_identity handle) reference message_id codec payload checkpoint
    closes_publication opens_publication)) in
  required (rs_envelope result) MessagingBackendProtocolError.

Definition publish (channel : pystr) (identity : RunIdentity) (message_id codec : pystr)
    (payload : pybytes) : program MessageEnvelope :=
  let! state := load_current_state channel identity false in
  let! run := required (sn_target_run state) RunNotFound in
  let handle := observer channel identity (sr_generation run) in
  do! try (validate_append_input handle message_id codec payload None (st_limits settings)) in
  let! reference := try (storage_reference handle false) in
  let! result := call (CommitTransition (message_transition settings PublishMessage channel
    identity reference message_id codec payload None false true)) in
  required (rs_envelope result) MessagingBackendProtocolError.

Definition begin_settlement (handle : BackendRunHandle) : program bool :=
  let! id := call Uuid4 in
  let! reference := try (storage_reference handle true) in
  let! result := call (CommitTransition (plain_transition settings BeginSettlement id
    (h_channel handle) (h_identity handle) (Some reference))) in
  required (rs_cancellation_preceded_settlement result) MessagingBackendProtocolError.

Definition finish (handle : BackendRunHandle) (status : RunStatus) (error : option Failure)
    : program unit :=
  let! id := call Uuid4 in
  let! reference := try (storage_reference handle true) in
  let! result := call (CommitTransition (finish_transition settings id (h_channel handle)
    (h_identity handle) reference status error)) in
  match rs_run_status result with
  | Some status => if is_final_run_status status then done tt
                   else throw MessagingBackendProtocolError
  | None => throw MessagingBackendProtocolError
  end.

Definition renew (handle : BackendRunHandle) : program bool :=
  let! id := call Uuid4 in
  let! reference := try (storage_reference handle true) in
  let! result := call (CommitTransition (plain_transition settings RenewProducerOwnership id
    (h_channel handle) (h_identity handle) (Some reference))) in
  required (rs_producer_ownership_confirmed result) MessagingBackendProtocolError.

Definition request_cancel (handle : BackendRunHandle) : program bool :=
  let! id := call Uuid4 in
  let! reference := match h_generation handle with
    | None => done None
    | Some _ => let! reference := try (storage_reference handle false) in done (Some reference)
    end in
  let! result := call (CommitTransition (plain_transition settings RequestCancellation id
    (h_channel handle) (h_identity handle) reference)) in
  required (rs_cancellation_requested_by_transition result) MessagingBackendProtocolError.

(** ** Reading *)

(** [latest_seq], [get_run_status], [read], [bind_replay] and [bind_follow] begin with
    the same three statements. *)
Definition load_checked (channel : pystr) (identity : RunIdentity)
    : program MessagingStateSnapshot :=
  do! try (required_identifier channel) in
  do! try (required_identity identity) in
  load_current_state channel identity false.

(** The stream a reader finds: none when it is absent or deleted. *)
Definition readable_stream (state : MessagingStateSnapshot)
    : res msg_exn (option StoredMessagingStream) :=
  match sn_stream state with
  | None => Ok None
  | Some stream =>
      match ss_disposition stream with
      | Deleted | Deleting => Ok None
      | Expired | Expiring => Raise StreamExpired
      | Active => Ok (Some stream)
      end
  end.

Definition latest_seq (channel : pystr) (identity : RunIdentity) : program Z :=
  let! state := load_checked channel identity in
  do! try (raise_tombstone state None) in
  let! stream := try (readable_stream state) in
  done (match stream with None => 0 | Some s => ss_latest_sequence s end).

Definition get_run_status (channel : pystr) (identity : RunIdentity) : program RunStatus :=
  let! state := load_checked channel identity in
  do! try (rraise_if (bool_decide (sn_tombstone_reason state = Some ReasonDeleted) &&
                      match sn_stream state with None => true | Some _ => false end)
             RunNotFound) in
  do! try (raise_tombstone state None) in
  let! id := call Uuid4 in
  let! result := call (CommitTransition (plain_transition settings ReconcileProducerOwnership id
    channel identity None)) in
  required (rs_run_status result) MessagingBackendProtocolError.

Definition read (channel : pystr) (identity : RunIdentity) (after limit : Z)
    : program (list MessageEnvelope) :=
  do! try (validate_page after limit) in
  let! state := load_checked channel identity in
  do! try (raise_tombstone state None) in
  let! stream := try (readable_stream state) in
  match stream with
  | None => do! try (rraise_if (0 <? after) InvalidCursor) in done []
  | Some stream =>
      do! try (rraise_if (ss_latest_sequence stream <? after) InvalidCursor) in
      let! page := call (ReadMessages
        {| q_channel := channel; q_identity := identity; q_generation := ss_generation stream;
           q_after_sequence := after; q_through_sequence := None; q_limit := limit;
           q_stop_at_run_terminal := false |}) in
      done (p_messages page)
  end.

Definition bind_replay (channel : pystr) (identity : RunIdentity) (after : option Z)
    : program (PreparedRun * Z) :=
  do! try (match after with Some a => validate_page a 1 | None => Ok tt end) in
  let! state := load_checked channel identity in
  do! try (raise_tombstone state None) in
  match sn_stream state, sn_target_run state with
  | Some stream, Some run =>
      do! try (raise_stream_disposition state) in
      let cursor := default (sr_start_sequence run) after in
      let upper := if is_final_run_status (sr_status run) then sr_end_sequence run
                   else ss_latest_sequence stream in
      do! try (rraise_if (negb ((sr_start_sequence run <=? cursor) && (cursor <=? upper)))
                 InvalidCursor) in
      done ({| pr_handle := observer channel identity (ss_generation stream); pr_after := cursor;
               pr_is_owner := false; pr_checkpoint := None; pr_recovered := false |}, upper)
  | _, _ => throw RunNotFound
  end.

Definition bind_follow (channel : pystr) (identity : RunIdentity) (after : Z)
    : program BackendRunHandle :=
  do! try (validate_page after 1) in
  let! state := load_checked channel identity in
  do! try (raise_tombstone state None) in
  match sn_stream state, sn_target_run state with
  | Some stream, Some run =>
      do! try (raise_stream_disposition state) in
      do! try (rraise_if (ss_latest_sequence stream <? after) InvalidCursor) in
      done (observer channel identity (ss_generation stream))
  | _, _ => throw RunNotFound
  end.

(** ** Following *)

Definition wait_for (handle : BackendRunHandle) (generation : Z) (after : MessagingChangeCursor)
    (run : StoredMessagingRun) : program unit :=
  call (WaitForChange
    {| w_channel := h_channel handle; w_identity := h_identity handle; w_generation := generation;
       w_after := after; w_timeout_seconds := change_wait_timeout run |}).

(** [for message in messages: cursor = message.seq; yield message] *)
Fixpoint yield_all (messages : list MessageEnvelope) (cursor : Z) : program Z :=
  match messages with
  | [] => done cursor
  | message :: rest => do! call (Yield message) in yield_all rest (e_seq message)
  end.

(** After a page: the end of the run, the loss of its producer, more to read, or a
    wait for news. *)
Definition follow_decide (handle : BackendRunHandle) (generation cursor : Z)
    (run : StoredMessagingRun) (news : MessagingChangeCursor) : program (Z + unit) :=
  let terminal := is_final_run_status (sr_status run) in
  if terminal && (sr_end_sequence run <=? cursor)
  then if is_failed_run_status (sr_status run)
       then throw_from RunProducerFailed (Some (run_failure run))
       else done (inr tt)
  else if negb terminal && negb (sr_producer_lease_active run)
  then
    do! reconcile_bound_ownership (with_generation handle generation) in
    done (inl cursor)
  else if cursor <? sr_end_sequence run then done (inl cursor)
  else
    do! wait_for handle generation news run in
    done (inl cursor).

(** One turn of the loop of [follow], from its cursor. *)
Definition follow_turn (handle : BackendRunHandle) (generation cursor : Z) : program (Z + unit) :=
  let! page := call (ReadMessages
    {| q_channel := h_channel handle; q_identity := h_identity handle; q_generation := generation;
       q_after_sequence := cursor; q_through_sequence := None; q_limit := 1000;
       q_stop_at_run_terminal := true |}) in
  let! run := required (p_run_state page) MessagingBackendProtocolError in
  let! cursor := yield_all (p_messages page) cursor in
  follow_decide handle generation cursor run (p_change_cursor page).

Definition follow (handle : BackendRunHandle) (after : Z) : program unit :=
  let! generation := resolve_handle_generation handle in
  forever (follow_turn handle generation) after.

(** One turn of the loops of [wait_for_cancel] and [wait_finished]; [answer] says
    what they return for a status. *)
Definition await_turn {A} (answer : RunStatus -> option A) (handle : BackendRunHandle)
    (generation : Z) : program (unit + A) :=
  let! state := load_bound_state (with_generation handle generation) in
  match sn_target_run state, sn_stream state with
  | Some run, Some stream =>
      match answer (sr_status run) with
      | Some a => done (inr a)
      | None =>
          if negb (sr_producer_lease_active run)
          then
            do! reconcile_bound_ownership (with_generation handle generation) in
            done (inl tt)
          else
            do! wait_for handle generation
                  {| cc_message_sequence := ss_message_sequence stream;
                     cc_control_sequence := ss_control_sequence stream |} run in
            done (inl tt)
      end
  | _, _ => throw RunNotFound
  end.

Definition wait_for_cancel (handle : BackendRunHandle) : program bool :=
  let! generation := resolve_handle_generation handle in
  forever (fun _ : unit => await_turn (fun status =>
    if bool_decide (status = CancelRequested) then Some true
    else if is_final_run_status status then Some false else None) handle generation) tt.

Definition wait_finished (handle : BackendRunHandle) : program RunStatus :=
  let! generation := resolve_handle_generation handle in
  forever (fun _ : unit => await_turn (fun status =>
    if is_final_run_status status then Some status else None) handle generation) tt.

Definition failure (handle : BackendRunHandle) : program (option Failure) :=
  let! generation := resolve_handle_generation handle in
  let! state := load_bound_state (with_generation handle generation) in
  let! run := required (sn_target_run state) RunNotFound in
  done (if bool_decide (sr_failure_class run = []) && bool_decide (sr_failure_message run = []) &&
           bool_decide (sr_local_failure run = None)
        then None else Some (run_failure run)).

(** ** Deleting *)

Definition delete_stream (channel : pystr) (identity : RunIdentity) : program unit :=
  do! try (required_identifier channel) in
  do! try (required_identity identity) in
  let! state := load_current_state channel identity true in
  match sn_stream state with
  | None => done tt
  | Some _ => cleanup_generation channel identity ReasonDeleted
  end.
End ledger.
