(* ===== verification/MsgBackend.v ===== *)
(** Messaging: the backend as its clients see it ([MessagingBackend] of
    backend_contract.py), how a client's program runs among other tasks, and the
    rules by which such runs are reasoned about. *)
From S2P Require Import Prelude PyDict PySeq MsgModels MsgTransition MsgMemory MsgInvariant.
From S2P Require Import Contracts.
From S2P Require Import MsgCleanup MsgSpec MsgLedger.
From ITree Require Import Core.ITreeDefinition.

(** ** The interface *)

(** The operations of a backend with state [W].  A wait begins, and ends when the
    task is woken or its timeout passes. *)
Class MessagingBackend (W : Type) : Type := {
  load_state : MessagingStateQuery -> M W msg_exn MessagingStateSnapshot;
  commit_transition : MessagingTransition -> M W msg_exn MessagingTransitionResult;
  read_messages : CommittedMessageQuery -> M W msg_exn CommittedMessagePage;
  begin_wait : nat -> MessagingChangeWait -> M W msg_exn bool;
  end_wait : nat -> M W msg_exn unit;
  purge_generation : StreamGenerationPurge -> M W msg_exn StreamGenerationPurgeResult
}.

(** What a backend promises: a state its requests keep, the log of each thread, the
    record of each run and the records a sealed generation still has, and how they
    evolve under requests of any client. *)
Class BackendLaws (W : Type) `{MessagingBackend W} : Type := {
  backend_ok : W -> Prop;
  evolves : W -> W -> Prop;
  log : W -> pystr -> RunIdentity -> ThreadLog;
  run_of : W -> pystr -> RunIdentity -> option StoredMessagingRun;
  evolves_preorder :: PreOrder evolves;
  evolves_ok w w' : backend_ok w -> evolves w w' -> backend_ok w';
  load_evolves w q : evolves w (load_state q w).2;
  commit_evolves w t : admissible t -> evolves w (commit_transition t w).2;
  read_evolves w q : evolves w (read_messages q w).2;
  begin_wait_evolves w task wait : evolves w (begin_wait task wait w).2;
  end_wait_evolves w task : evolves w (end_wait task w).2;
  purge_evolves w g : evolves w (purge_generation g w).2;
  log_evolves w w' name identity :
    backend_ok w -> evolves w w' -> rtc log_step (log w name identity) (log w' name identity);
  run_settles w w' name identity run l l' g :
    backend_ok w -> evolves w w' -> run_of w name identity = Some run ->
    is_final_run_status (sr_status run) = true ->
    log w name identity = {| tl_generation := g; tl_state := Readable l |} ->
    log w' name identity = {| tl_generation := g; tl_state := Readable l' |} ->
    run_of w' name identity = Some run;
  load_law w q g state stream w' :
    backend_ok w -> load_state q w = (Ok state, w') -> sq_generation q = Some g ->
    sn_stream state = Some stream -> ss_disposition stream = Active ->
    exists l, log w' (sq_channel q) (sq_identity q) =
        {| tl_generation := g; tl_state := Readable l |} /\
      sn_target_run state = run_of w' (sq_channel q) (sq_identity q);
  absent_law w q state w' :
    backend_ok w -> load_state q w = (Ok state, w') -> sq_generation q = None ->
    sn_stream state = None ->
    tl_state (log w' (sq_channel q) (sq_identity q)) = Unopened;
  read_law w q page w' :
    backend_ok w -> read_messages q w = (Ok page, w') -> q_through_sequence q = None ->
    exists l upto, log w' (q_channel q) (q_identity q) =
        {| tl_generation := q_generation q; tl_state := Readable l |} /\
      numbered l /\ 0 <= q_after_sequence q <= zlen l /\ 0 <= upto /\
      p_messages page = List.filter (fun e => (q_after_sequence q <? e_seq e) &&
                                              (e_seq e <=? upto)) l /\
      p_run_state page = run_of w' (q_channel q) (q_identity q);
  begin_cleanup_law w t result w' :
    backend_ok w -> commit_transition t w = (Ok result, w') ->
    tr_kind t = BeginGenerationCleanup -> tr_run_reference t = None ->
    if rs_cleanup_required result
    then exists g, rs_cleanup_generation result = Some g /\
      log w' (tr_channel t) (tr_identity t) = {| tl_generation := g; tl_state := Sealed |}
    else tr_cleanup_reason t = Some ReasonDeleted ->
      tl_state (log w' (tr_channel t) (tr_identity t)) = Unopened;
  finish_cleanup_law w t result w' g :
    backend_ok w -> commit_transition t w = (Ok result, w') ->
    tr_kind t = FinishGenerationCleanup -> tr_cleanup_generation t = Some g ->
    g < tl_generation (log w' (tr_channel t) (tr_identity t));
  records_left : W -> pystr -> RunIdentity -> Z -> Z;
  records_left_nonneg w name identity g : 0 <= records_left w name identity g;
  records_left_evolves w w' name identity g :
    backend_ok w -> evolves w w' ->
    log w name identity = {| tl_generation := g; tl_state := Sealed |} \/
      g < tl_generation (log w name identity) ->
    records_left w' name identity g <= records_left w name identity g;
  purge_law w p progress w' :
    backend_ok w -> purge_generation p w = (Ok progress, w') -> complete progress = false ->
    records_left w' (g_channel p) (g_identity p) (g_generation p) <
    records_left w (g_channel p) (g_identity p) (g_generation p)
}.

(** ** Running a program *)

Inductive outcome (A : Type) : Type :=
| Returned (a : A)
| Raised (e : msg_exn) (cause : option Failure)
| Running.
Arguments Returned {A} a.
Arguments Raised {A} e cause.
Arguments Running {A}.

Section run.
Context {W : Type} `{MessagingBackend W}.
(** The task that runs, what the other tasks do before the [k]-th call of this one,
    and the identifiers it draws. *)
Context (task : nat) (others : nat -> W -> W) (uuid : nat -> pystr).

(** [n] steps of a program whose next call is the [k]-th, after it has handed out
    [out]. *)
Fixpoint run {A} (n k : nat) (t : program A) (out : list MessageEnvelope) (w : W)
    : list MessageEnvelope * W * outcome A :=
  match n with
  | O => (out, w, Running)
  | S n =>
      let answered {X} (r : res msg_exn X * W) (next : X -> program A) :=
        match r with
        | (Ok x, w) => run n (S k) (next x) out w
        | (Raise e, w) => (out, w, Raised e None)
        end in
      match observe t with
      | RetF a => (out, w, Returned a)
      | TauF t => run n k t out w
      | VisF e next =>
          match e in ledgerE X return (X -> program A) -> _ with
          | LoadState q => answered (load_state q (others k w))
          | CommitTransition tr => answered (commit_transition tr (others k w))
          | ReadMessages q => answered (read_messages q (others k w))
          | PurgeGeneration g => answered (purge_generation g (others k w))
          | WaitForChange wait => fun next =>
              match begin_wait task wait (others k w) with
              | (Ok _, w) => run n (S (S k)) (next tt) out (end_wait task (others (S k) w)).2
              | (Raise e, w) => (out, w, Raised e None)
              end
          | Uuid4 => fun next => run n (S k) (next (uuid k)) out w
          | Yield message => fun next => run n (S k) (next tt) (out ++ [message]) (others k w)
          | Throw e cause => fun _ => (out, w, Raised e cause)
          end next
      end
  end.
End run.

(** ** Reasoning about runs *)

Lemma observe_bind {A B} (t : program A) (f : A -> program B) :
  observe (ITree.bind t f) = match observe t with
    | RetF a => observe (f a)
    | TauF t => TauF (ITree.bind t f)
    | VisF e h => VisF e (fun x => ITree.bind (h x) f)
    end.
Proof. unfold observe at 1, ITree.bind at 1. cbn. by destruct (observe t). Qed.

Section rules.
Context {W : Type} `{Laws : BackendLaws W}.
Implicit Types (w : W) (out : list MessageEnvelope).

(** What holds of the answer of a call that other tasks may precede. *)
Definition served {X} (m : M W msg_exn X) w (Q : res msg_exn X -> W -> Prop) : Prop :=
  forall w1, evolves w w1 -> wp m w1 Q.

(** [lwp n t Q out w]: run for [n] steps, whatever the other tasks do, [t] satisfies
    [Q] where it stops, and wherever it can be found running. *)
Fixpoint lwp {A} (n : nat) (t : program A)
    (Q : outcome A -> list MessageEnvelope -> W -> Prop) out w : Prop :=
  Q Running out w /\
  match n with
  | O => True
  | S n =>
      let answered {X} (m : M W msg_exn X) (next : X -> program A) :=
        served m w (fun r w' => match r with
                                | Ok x => lwp n (next x) Q out w'
                                | Raise e => Q (Raised e None) out w'
                                end) in
      match observe t with
      | RetF a => Q (Returned a) out w
      | TauF t => lwp n t Q out w
      | VisF e next =>
          match e in ledgerE X return (X -> program A) -> Prop with
          | LoadState q => answered (load_state q)
          | CommitTransition tr => answered (commit_transition tr)
          | ReadMessages q => answered (read_messages q)
          | PurgeGeneration g => answered (purge_generation g)
          | WaitForChange wait => fun next => forall task,
              served (begin_wait task wait) w (fun r w' =>
                match r with
                | Ok _ => served (end_wait task) w' (fun _ w'' => lwp n (next tt) Q out w'')
                | Raise e => Q (Raised e None) out w'
                end)
          | Uuid4 => fun next => forall id, lwp n (next id) Q out w
          | Yield message => fun next =>
              forall w', evolves w w' -> lwp n (next tt) Q (out ++ [message]) w'
          | Throw e cause => fun _ => Q (Raised e cause) out w
          end next
      end
  end.

(** A run stops, or is found running, where [lwp] says. *)
Lemma run_sound {A} task others uuid (Q : outcome A -> list MessageEnvelope -> W -> Prop) n k t out w :
  (forall k w, evolves w (others k w)) -> lwp n t Q out w ->
  let '(out', w', o) := run task others uuid n k t out w in Q o out' w'.
Proof.
  intros Hothers. revert k t out w. induction n as [|n IH]; intros k t out w [HQ Ht]; simpl; [done|].
  assert (forall X (m : M W msg_exn X) next,
    served m w (fun r w' => match r with Ok x => lwp n (next x) Q out w'
                                       | Raise e => Q (Raised e None) out w' end) ->
    let '(out', w', o) := match m (others k w) with
      | (Ok x, w) => run task others uuid n (S k) (next x) out w
      | (Raise e, w) => (out, w, Raised e None)
      end in Q o out' w') as Hans.
  { intros X m next Hm. specialize (Hm _ (Hothers k w)). unfold wp in Hm.
    destruct (m (others k w)) as [[x|e] w']; [by apply IH|done]. }
  destruct (observe t) as [a|t'|X e next]; [done|by apply IH|].
  destruct e; try by apply Hans.
  - specialize (Ht task _ (Hothers k w)). unfold wp in Ht.
    destruct (begin_wait task wait (others k w)) as [[b|e] w']; [|done].
    specialize (Ht _ (Hothers (S k) w')). by apply IH.
  - by apply IH, Ht.
  - by apply IH, Ht, Hothers.
  - done.
Qed.

Lemma served_mono {X} (m : M W msg_exn X) w (Q Q' : res msg_exn X -> W -> Prop) :
  served m w Q -> (forall r w', Q r w' -> Q' r w') -> served m w Q'.
Proof. intros Hs HQ w1 H1. eapply wp_mono; [by apply Hs|done]. Qed.

(** Weaker postconditions, fewer steps. *)
Lemma lwp_weaken {A} n m (t : program A) (Q Q' : outcome A -> list MessageEnvelope -> W -> Prop) out w :
  lwp n t Q out w -> (m <= n)%nat -> (forall o out' w', Q o out' w' -> Q' o out' w') ->
  lwp m t Q' out w.
Proof.
  intros Ht Hle HQ. revert m t out w Ht Hle. induction n as [|n IH]; intros m t out w [HR Ht] Hle.
  - assert (m = O) as -> by lia. split; [by apply HQ|done].
  - destruct m as [|m]; [split; [by apply HQ|done]|]. assert (m <= n)%nat as Hm by lia.
    split; [by apply HQ|]. clear HR. simpl. destruct (observe t) as [a|t'|X e next]; [by apply HQ|by apply IH|].
    destruct e; try (eapply served_mono; [exact Ht|]; intros [x|e] w'; [intros Hx; by apply IH|by apply HQ]).
    + intros task. eapply served_mono; [apply Ht|]. intros [x|e] w'; [|by apply HQ].
      intros Hw. eapply served_mono; [exact Hw|]. intros r w'' Hx. by apply IH.
    + intros id. by apply IH, Hm.
    + intros w' Hw. apply IH; [by apply Ht|done].
    + by apply HQ.
Qed.

Lemma lwp_bind {A B} n (t : program A) (f : A -> program B)
    (Q : outcome B -> list MessageEnvelope -> W -> Prop) out w :
  lwp n t (fun o out' w' => match o with
    | Returned a => lwp n (f a) Q out' w'
    | Raised e cause => Q (Raised e cause) out' w'
    | Running => Q Running out' w'
    end) out w ->
  lwp n (ITree.bind t f) Q out w.
Proof.
  assert (forall n m (t : program A) out w, (m <= n)%nat ->
    lwp m t (fun o out' w' => match o with
      | Returned a => lwp n (f a) Q out' w'
      | Raised e cause => Q (Raised e cause) out' w'
      | Running => Q Running out' w'
      end) out w -> lwp m (ITree.bind t f) Q out w) as Hgen; [|by apply Hgen].
  clear. intros n m. induction m as [|m IH]; intros t out w Hle [HR Ht]; [by split|].
  assert (m <= n)%nat as Hm by lia. split; [done|].
  rewrite observe_bind. destruct (observe t) as [a|t'|X e next].
  - apply (lwp_weaken n (S m) (f a) Q Q out w) in Ht; [|done..]. apply Ht.
  - by apply IH.
  - destruct e; cbv zeta in Ht |- *; try (eapply served_mono; [exact Ht|]; intros [x|e] w'; [intros Hx; by apply IH|done]).
    + intros task. eapply served_mono; [apply Ht|]. intros [x|e] w'; [|done].
      intros Hw. eapply served_mono; [exact Hw|]. intros r w'' Hx. by apply IH.
    + intros id. by apply IH, Ht.
    + intros w' Hw. apply IH; [done|by apply Ht].
    + done.
Qed.

(** A loop that keeps [I] at the head of every turn. *)
Lemma lwp_forever {I A} (J : I -> list MessageEnvelope -> W -> Prop) (body : I -> program (I + A))
    (Q : outcome A -> list MessageEnvelope -> W -> Prop) :
  (forall n i out w, J i out w -> lwp n (body i) (fun o out' w' => match o with
     | Returned (inl i') => J i' out' w' /\ Q Running out' w'
     | Returned (inr a) => Q (Returned a) out' w' /\ Q Running out' w'
     | Raised e cause => Q (Raised e cause) out' w'
     | Running => Q Running out' w'
     end) out w) ->
  forall n i out w, J i out w -> lwp n (forever body i) Q out w.
Proof.
  intros Hbody n. induction n as [n IH] using lt_wf_ind. intros i out w Hi.
  assert (forall B (t t' : program B) Q0 m, observe t = observe t' -> lwp m t Q0 out w ->
    lwp m t' Q0 out w) as Hobs.
  { intros B t t' Q0 m E. destruct m; simpl; [done|]. by rewrite E. }
  eapply (Hobs A (ITree.bind (body i) (fun lr => match lr with
    | inl i' => Tau (forever body i') | inr a => Ret a end))); [done|].
  apply lwp_bind. eapply lwp_weaken; [by apply (Hbody n)|done|].
  intros [[i'|a]|e cause|] out' w'; [|by intros [? ?]; destruct n|done|done].
  intros [HJ HR]. destruct n as [|n]; [by split|]. split; [done|]. simpl. apply IH; [lia|done].
Qed.
(** ** Calls *)

(** A call was answered by [r], after the others had brought the backend to a state
    in which [m] gave this answer. *)
Definition answers {X} (m : M W msg_exn X) w (r : res msg_exn X) w' : Prop :=
  exists w1, backend_ok w1 /\ evolves w w1 /\ m w1 = (r, w').

Lemma served_answers {X} (m : M W msg_exn X) w (Q : res msg_exn X -> W -> Prop) :
  backend_ok w -> (forall w1, evolves w1 (m w1).2) ->
  (forall r w', backend_ok w' -> evolves w w' -> answers m w r w' -> Q r w') -> served m w Q.
Proof.
  intros Hok Hm HQ w1 H1. apply wp_intro. intros r w' Hr.
  assert (evolves w w') as Hw by (etrans; [exact H1|]; specialize (Hm w1); by rewrite Hr in Hm).
  apply HQ; [by eapply evolves_ok|done|]. exists w1. split; [by eapply evolves_ok|done].
Qed.

(** What a program may assume of an answer, and has to show of what follows it. *)
Definition continues {X} (m : M W msg_exn X) (Q : outcome X -> list MessageEnvelope -> W -> Prop)
    out w : Prop :=
  backend_ok w /\ Q Running out w /\
  forall r w', backend_ok w' -> evolves w w' -> answers m w r w' ->
    match r with
    | Ok x => Q (Returned x) out w' /\ Q Running out w'
    | Raise e => Q (Raised e None) out w'
    end.

Lemma lwp_continues {X} n (m : M W msg_exn X) (Q : outcome X -> list MessageEnvelope -> W -> Prop)
    out w :
  (forall w1, evolves w1 (m w1).2) -> continues m Q out w ->
  served m w (fun r w' => match r with
    | Ok x => lwp n (Ret x) Q out w'
    | Raise e => Q (Raised e None) out w'
    end).
Proof.
  intros Hm (Hok & HR & Hc). apply served_answers; [done..|]. intros [x|e] w' H1 H2 H3.
  - destruct (Hc _ w' H1 H2 H3). by destruct n.
  - by apply (Hc _ w' H1 H2 H3).
Qed.

Lemma lwp_load n q (Q : outcome MessagingStateSnapshot -> list MessageEnvelope -> W -> Prop) out w :
  continues (load_state q) Q out w -> lwp n (call (LoadState q)) Q out w.
Proof.
  intros Hc. destruct n; (split; [apply Hc|]); [done|]. apply lwp_continues; [|done].
  intros w1. apply load_evolves.
Qed.

Lemma lwp_commit n t (Q : outcome MessagingTransitionResult -> list MessageEnvelope -> W -> Prop) out w :
  admissible t -> continues (commit_transition t) Q out w ->
  lwp n (call (CommitTransition t)) Q out w.
Proof.
  intros Ha Hc. destruct n; (split; [apply Hc|]); [done|]. apply lwp_continues; [|done].
  intros w1. by apply commit_evolves.
Qed.

Lemma lwp_read n q (Q : outcome CommittedMessagePage -> list MessageEnvelope -> W -> Prop) out w :
  continues (read_messages q) Q out w -> lwp n (call (ReadMessages q)) Q out w.
Proof.
  intros Hc. destruct n; (split; [apply Hc|]); [done|]. apply lwp_continues; [|done].
  intros w1. apply read_evolves.
Qed.

Lemma lwp_purge n g (Q : outcome StreamGenerationPurgeResult -> list MessageEnvelope -> W -> Prop) out w :
  continues (purge_generation g) Q out w -> lwp n (call (PurgeGeneration g)) Q out w.
Proof.
  intros Hc. destruct n; (split; [apply Hc|]); [done|]. apply lwp_continues; [|done].
  intros w1. apply purge_evolves.
Qed.

Lemma lwp_wait n wait (Q : outcome unit -> list MessageEnvelope -> W -> Prop) out w :
  backend_ok w -> Q Running out w ->
  (forall w', backend_ok w' -> evolves w w' -> Q (Returned tt) out w' /\ Q Running out w') ->
  (forall e w', backend_ok w' -> evolves w w' -> Q (Raised e None) out w') ->
  lwp n (call (WaitForChange wait)) Q out w.
Proof.
  intros Hok HR HQ He. destruct n; (split; [done|]); [done|]. cbv zeta. intros task.
  apply served_answers; [done|intros; apply begin_wait_evolves|]. intros [b|e] w' H1 H2 _; [|by apply He].
  apply served_answers; [done|intros; apply end_wait_evolves|]. intros r w'' H3 H4 _.
  destruct (HQ w''); [done|by etrans|]. by destruct n.
Qed.

Lemma lwp_yield n message (Q : outcome unit -> list MessageEnvelope -> W -> Prop) out w :
  backend_ok w -> Q Running out w ->
  (forall w', backend_ok w' -> evolves w w' ->
     Q (Returned tt) (out ++ [message]) w' /\ Q Running (out ++ [message]) w') ->
  lwp n (call (Yield message)) Q out w.
Proof.
  intros Hok HR HQ. destruct n; (split; [done|]); [done|]. cbv zeta. intros w' H1.
  destruct (HQ w'); [by eapply evolves_ok|done|]. by destruct n.
Qed.

Lemma lwp_uuid n (Q : outcome pystr -> list MessageEnvelope -> W -> Prop) out w :
  Q Running out w -> (forall id, Q (Returned id) out w) -> lwp n (call Uuid4) Q out w.
Proof. intros HR HQ. destruct n; (split; [done|]); [done|]. cbv zeta. intros id.
  specialize (HQ id). by destruct n. Qed.

Lemma lwp_done {A} n (a : A) (Q : outcome A -> list MessageEnvelope -> W -> Prop) out w :
  Q (Returned a) out w -> Q Running out w -> lwp n (done a) Q out w.
Proof. by destruct n. Qed.

Lemma lwp_throw_from {A} n e cause (Q : outcome A -> list MessageEnvelope -> W -> Prop) out w :
  Q (Raised e cause) out w -> Q Running out w -> lwp n (throw_from e cause) Q out w.
Proof. by destruct n. Qed.

Lemma lwp_throw {A} n e (Q : outcome A -> list MessageEnvelope -> W -> Prop) out w :
  Q (Raised e None) out w -> Q Running out w -> lwp n (throw e) Q out w.
Proof. by destruct n. Qed.

Lemma lwp_try {A} n (r : res msg_exn A) (Q : outcome A -> list MessageEnvelope -> W -> Prop) out w :
  (forall a, r = Ok a -> Q (Returned a) out w) -> (forall e, r = Raise e -> Q (Raised e None) out w) ->
  Q Running out w -> lwp n (try r) Q out w.
Proof. intros Ha He HR. destruct r; [apply lwp_done|apply lwp_throw]; auto. Qed.

Lemma lwp_required {A} n (o : option A) e (Q : outcome A -> list MessageEnvelope -> W -> Prop) out w :
  (forall a, o = Some a -> Q (Returned a) out w) -> (o = None -> Q (Raised e None) out w) ->
  Q Running out w -> lwp n (required o e) Q out w.
Proof. intros Ha He HR. destruct o; [apply lwp_done|apply lwp_throw]; auto. Qed.

(** ** Quiet programs *)

(** No exception with a cause. *)
Definition no_cause {A} (o : outcome A) : Prop :=
  match o with Raised _ (Some _) => False | _ => True end.

(** A program that hands out nothing, chains no exception, and asks the backend for nothing but what a
    client may ask. *)
Definition quiet {A} (t : program A) : Prop := forall n out w, backend_ok w ->
  lwp n t (fun o out' w' => out' = out /\ evolves w w' /\ no_cause o) out w.

Lemma lwp_quiet {A} n (t : program A) (Q : outcome A -> list MessageEnvelope -> W -> Prop) out w :
  quiet t -> backend_ok w ->
  (forall o w', backend_ok w' -> evolves w w' -> no_cause o -> Q o out w') -> lwp n t Q out w.
Proof.
  intros Ht Hok HQ. eapply lwp_weaken; [by apply (Ht n)|done|].
  intros o out' w' (-> & Hw & Hc). apply HQ; [by eapply evolves_ok|done..].
Qed.

Lemma quiet_bind {A B} (t : program A) (f : A -> program B) :
  quiet t -> (forall a, quiet (f a)) -> quiet (ITree.bind t f).
Proof.
  intros Ht Hf n out w Hok. apply lwp_bind. apply lwp_quiet; [done..|].
  intros [a|e c|] w' H1 H2 H3; [|by split_and!..]. apply lwp_quiet; [done..|].
  intros o w'' H4 H5 H6. split_and!; [done|by etrans|done].
Qed.

Lemma quiet_forever {I A} (body : I -> program (I + A)) i :
  (forall i, quiet (body i)) -> quiet (forever body i).
Proof.
  intros Hb n out w Hok.
  apply (lwp_forever (fun _ out' w' => out' = out /\ evolves w w')).
  - intros m j out' w' [-> Hw]. apply lwp_quiet; [done|by eapply evolves_ok|].
    intros [[i'|a]|e c|] w'' _ Hw' Hc; split_and!; try done; by etrans.
  - by split.
Qed.

Lemma quiet_call_load q : quiet (call (LoadState q)).
Proof. intros n out w Hok. apply lwp_load. split_and!; try done. by intros [x|e] w' H1 H2 _. Qed.

Lemma quiet_call_commit t : admissible t -> quiet (call (CommitTransition t)).
Proof.
  intros Ha n out w Hok. apply lwp_commit; [done|]. split_and!; try done.
  by intros [x|e] w' H1 H2 _.
Qed.

Lemma quiet_call_read q : quiet (call (ReadMessages q)).
Proof. intros n out w Hok. apply lwp_read. split_and!; try done. by intros [x|e] w' H1 H2 _. Qed.

Lemma quiet_call_purge g : quiet (call (PurgeGeneration g)).
Proof. intros n out w Hok. apply lwp_purge. split_and!; try done. by intros [x|e] w' H1 H2 _. Qed.

Lemma quiet_call_wait wait : quiet (call (WaitForChange wait)).
Proof. intros n out w Hok. by apply lwp_wait. Qed.

Lemma quiet_call_uuid : quiet (call Uuid4).
Proof. intros n out w Hok. by apply lwp_uuid. Qed.

Lemma quiet_done {A} (a : A) : quiet (done a).
Proof. intros n out w Hok. by apply lwp_done. Qed.

Lemma quiet_throw {A} e : quiet (throw e : program A).
Proof. intros n out w Hok. by apply lwp_throw. Qed.

Lemma quiet_try {A} (r : res msg_exn A) : quiet (try r).
Proof. intros n out w Hok. by apply lwp_try. Qed.

Lemma quiet_required {A} (o : option A) e : quiet (required o e).
Proof. intros n out w Hok. by apply lwp_required. Qed.
End rules.

Create HintDb quiet.
#[export] Hint Resolve quiet_call_load quiet_call_read quiet_call_purge quiet_call_wait
  quiet_call_uuid quiet_done quiet_throw quiet_try quiet_required : quiet.

(** Decomposes a program; what is left are the transitions it asks for. *)
Ltac quiet_go :=
  repeat match goal with
  | |- forall _, _ => intros ?
  | |- quiet (ITree.bind _ _) => apply quiet_bind
  | |- quiet (forever _ _) => apply quiet_forever
  | |- quiet (match ?x with _ => _ end) => destruct x
  | |- quiet (let _ := _ in _) => cbv zeta
  | |- quiet (call (CommitTransition _)) => apply quiet_call_commit
  | |- quiet _ => solve [eauto with quiet]
  end.
