(* ===== verification/MsgFollow.v ===== *)
(** Messaging: what the ledger's programs do on any backend that keeps its promises -
    what they ask for, what a follower is handed, and what the readers and the
    cleanup may conclude. *)
From S2P Require Import Prelude PyDict PySeq MsgModels MsgTransition MsgMemory MsgInvariant.
From S2P Require Import Contracts.
From S2P Require Import MsgCleanup MsgSpec MsgLedger MsgBackend.
From ITree Require Import Core.ITreeDefinition.

(** ** The order of logs *)

Definition state_le (a b : LogState) : Prop :=
  match a, b with
  | Unopened, _ => True
  | Readable l, Readable l' => l `prefix_of` l'
  | Readable _, Sealed | Sealed, Sealed => True
  | _, _ => False
  end.

Definition log_le (a b : ThreadLog) : Prop :=
  tl_generation a < tl_generation b \/
  tl_generation a = tl_generation b /\ state_le (tl_state a) (tl_state b).

Lemma state_le_trans a b c : state_le a b -> state_le b c -> state_le a c.
Proof. destruct a, b, c; simpl; try done. by etrans. Qed.

Lemma log_steps_le a b : rtc log_step a b -> log_le a b.
Proof.
  induction 1 as [a|a b c Hs _ IH].
  - right. split; [done|]. by destruct (tl_state a); simpl.
  - assert (log_le a b) as Hab.
    { destruct Hs; [right; split; done| |right; split; done|left; simpl; lia].
      right. split; [done|]. by exists [e]. }
    destruct Hab as [H1|[H1 H2]], IH as [H3|[H3 H4]]; [left; lia|left; lia|left; lia|].
    right. split; [congruence|]. by eapply state_le_trans.
Qed.

(** A readable log at the same generation has only grown. *)
Lemma readable_grows g l l' :
  rtc log_step {| tl_generation := g; tl_state := Readable l |}
               {| tl_generation := g; tl_state := Readable l' |} -> l `prefix_of` l'.
Proof. intros [H|[_ H]]%log_steps_le; [simpl in H; lia|done]. Qed.

(** ** Slices *)

Definition slice (a b : nat) {A} (l : list A) : list A := drop a (take b l).

Lemma slice_prefix {A} a b (l l' : list A) :
  (b <= List.length l)%nat -> l `prefix_of` l' -> slice a b l = slice a b l'.
Proof. intros Hb [k ->]. unfold slice. by rewrite take_app_le. Qed.

Lemma slice_app {A} a b c (l m : list A) :
  (a <= b <= List.length l)%nat -> m `prefix_of` slice b c l ->
  slice a b l ++ m = slice a (b + List.length m) l /\ (b + List.length m <= List.length l)%nat.
Proof.
  intros Hab [k Hk]. unfold slice in *. rewrite skipn_firstn_comm in Hk.
  assert (m = take (List.length m) (drop b l)) as Hm.
  { rewrite <-(take_app_length m k) at 1. rewrite <-Hk, take_take. f_equal.
    assert (List.length m <= List.length (take (c - b) (drop b l)))%nat as Hle
      by (rewrite Hk, length_app; lia).
    rewrite length_take in Hle. lia. }
  assert (List.length m <= List.length (drop b l))%nat as Hle
    by (rewrite Hm at 1; rewrite length_take; lia).
  rewrite length_drop in Hle. split; [|lia].
  rewrite Hm at 1. rewrite <-(take_take_drop l b (List.length m)).
  rewrite drop_app_le; [done|]. rewrite length_take. lia.
Qed.

Lemma slice_length {A} a b (l : list A) : (b <= List.length l)%nat -> List.length (slice a b l) = (b - a)%nat.
Proof. intros Hb. unfold slice. rewrite length_drop, length_take. lia. Qed.

(** The last number of a piece of a numbered log. *)
Lemma last_seq (l : list MessageEnvelope) b c :
  numbered l -> (b <= List.length l)%nat ->
  default (Z.of_nat b) (e_seq <$> last (slice b c l)) = Z.of_nat b + zlen (slice b c l).
Proof.
  intros Hn Hb. unfold zlen. destruct (last (slice b c l)) as [e|] eqn:He.
  - rewrite last_lookup in He. unfold slice in *. rewrite lookup_drop in He.
    rewrite lookup_take in He. destruct (decide _) as [Hlt|] in He; [|done].
    simpl. rewrite (Hn _ _ He).
    assert (List.length (drop b (take c l)) <> 0%nat).
    { intros H0. rewrite H0 in Hlt, He. simpl in *. rewrite length_drop, length_take in H0.
      apply lookup_lt_Some in He. lia. }
    lia.
  - apply last_None in He. rewrite He. simpl. by rewrite Z.add_0_r.
Qed.

Section follow.
Context {W : Type} `{Laws : BackendLaws W} (settings : MessagingBackendSettings).
Implicit Types (w : W) (out : list MessageEnvelope) (name : pystr) (identity : RunIdentity)
  (handle : BackendRunHandle) (g : Z).

(** ** What the ledger asks for *)

Ltac quiet_method := unfold admissible; quiet_go; try (intros _; reflexivity); try (intros [=]).

Lemma quiet_cleanup name identity reason : quiet (cleanup_generation settings name identity reason).
Proof. unfold cleanup_generation. quiet_method. Qed.
#[local] Hint Resolve quiet_cleanup : quiet.

Lemma quiet_load_current name identity b : quiet (load_current_state settings name identity b).
Proof. unfold load_current_state. quiet_method. Qed.
#[local] Hint Resolve quiet_load_current : quiet.

Lemma quiet_load_bound handle : quiet (load_bound_state handle).
Proof. unfold load_bound_state. quiet_method. Qed.
#[local] Hint Resolve quiet_load_bound : quiet.

Lemma quiet_resolve handle : quiet (resolve_handle_generation settings handle).
Proof. unfold resolve_handle_generation. quiet_method. Qed.
#[local] Hint Resolve quiet_resolve : quiet.

Lemma quiet_reconcile handle : quiet (reconcile_bound_ownership settings handle).
Proof. unfold reconcile_bound_ownership. quiet_method. Qed.
#[local] Hint Resolve quiet_reconcile : quiet.

Lemma quiet_load_checked name identity : quiet (load_checked settings name identity).
Proof. unfold load_checked. quiet_method. Qed.
#[local] Hint Resolve quiet_load_checked : quiet.

Lemma quiet_wait_for handle g after r : quiet (wait_for settings handle g after r).
Proof. unfold wait_for. quiet_method. Qed.
#[local] Hint Resolve quiet_wait_for : quiet.

Lemma quiet_await {A} (answer : RunStatus -> option A) handle g :
  quiet (await_turn settings answer handle g).
Proof. unfold await_turn. quiet_method. Qed.
#[local] Hint Resolve quiet_await : quiet.

(** ** The methods *)

(** Every method of the ledger with its arguments. *)
Inductive method : Type -> Type :=
| Prepare (name : pystr) (identity : RunIdentity) (codec : pystr) (after : option Z)
    (cancellable recoverable : bool) (request_digest : option pystr) : method PreparedRun
| Append (handle : BackendRunHandle) (message_id codec : pystr) (payload : pybytes)
    (checkpoint : option RecoveryCheckpoint) (closes opens : bool) : method MessageEnvelope
| Publish (name : pystr) (identity : RunIdentity) (message_id codec : pystr) (payload : pybytes)
    : method MessageEnvelope
| BeginSettling (handle : BackendRunHandle) : method bool
| Finish (handle : BackendRunHandle) (status : RunStatus) (error : option Failure) : method unit
| Renew (handle : BackendRunHandle) : method bool
| RequestCancel (handle : BackendRunHandle) : method bool
| LatestSeq (name : pystr) (identity : RunIdentity) : method Z
| GetRunStatus (name : pystr) (identity : RunIdentity) : method RunStatus
| ReadPage (name : pystr) (identity : RunIdentity) (after limit : Z) : method (list MessageEnvelope)
| BindReplay (name : pystr) (identity : RunIdentity) (after : option Z) : method (PreparedRun * Z)
| BindFollow (name : pystr) (identity : RunIdentity) (after : Z) : method BackendRunHandle
| Follow (handle : BackendRunHandle) (after : Z) : method unit
| WaitForCancel (handle : BackendRunHandle) : method bool
| WaitFinished (handle : BackendRunHandle) : method RunStatus
| FailureOf (handle : BackendRunHandle) : method (option Failure)
| DeleteStream (name : pystr) (identity : RunIdentity) : method unit.

Definition program_of {A} (m : method A) : program A :=
  match m with
  | Prepare name identity codec after c r d => prepare settings name identity codec after c r d
  | Append h id codec payload k closes opens => append settings h id codec payload k closes opens
  | Publish name identity id codec payload => publish settings name identity id codec payload
  | BeginSettling h => begin_settlement settings h
  | Finish h status error => finish settings h status error
  | Renew h => renew settings h
  | RequestCancel h => request_cancel settings h
  | LatestSeq name identity => latest_seq settings name identity
  | GetRunStatus name identity => get_run_status settings name identity
  | ReadPage name identity after limit => read settings name identity after limit
  | BindReplay name identity after => bind_replay settings name identity after
  | BindFollow name identity after => bind_follow settings name identity after
  | Follow h after => follow settings h after
  | WaitForCancel h => wait_for_cancel settings h
  | WaitFinished h => wait_finished settings h
  | FailureOf h => failure settings h
  | DeleteStream name identity => delete_stream settings name identity
  end.

(** Every method but [follow] hands out nothing. *)
Lemma quiet_program {A} (m : method A) :
  match m with Follow _ _ => True | _ => quiet (program_of m) end.
Proof.
  destruct m; simpl; try exact I; unfold prepare, append, publish, begin_settlement, finish, renew,
    request_cancel, latest_seq, get_run_status, read, bind_replay, bind_follow, wait_for_cancel,
    wait_finished, failure, delete_stream; quiet_method.
Qed.

(** ** Following *)

(** At some moment between [w] and [w'] the generation's log was [l]. *)
Definition observed w w' name identity g (l : list MessageEnvelope) w1 : Prop :=
  evolves w w1 /\ evolves w1 w' /\
  log w1 name identity = {| tl_generation := g; tl_state := Readable l |}.

(** What has been handed out is the log from the cursor on, without a gap. *)
Definition handed_out w w' name identity g after out : Prop :=
  out = [] \/ exists l w1, observed w w' name identity g l w1 /\ 0 <= after /\
    after + zlen out <= zlen l /\ out = slice (Z.to_nat after) (Z.to_nat (after + zlen out)) l.

(** ... and it reaches the end of the run, which was over. *)
Definition handed_all w w' name identity g after out (failed : option Failure) : Prop :=
  exists l w1 r, observed w w' name identity g l w1 /\ 0 <= after /\
    after + zlen out <= zlen l /\ out = slice (Z.to_nat after) (Z.to_nat (after + zlen out)) l /\
    run_of w1 name identity = Some r /\ is_final_run_status (sr_status r) = true /\
    sr_end_sequence r <= after + zlen out /\
    match failed with
    | None => is_failed_run_status (sr_status r) = false
    | Some f => is_failed_run_status (sr_status r) = true /\ f = run_failure r
    end.

Definition follow_post w handle g after (o : outcome unit) out w' : Prop :=
  evolves w w' /\
  match o with
  | Returned _ => handed_all w w' (h_channel handle) (h_identity handle) g after out None
  | Raised RunProducerFailed (Some f) =>
      handed_all w w' (h_channel handle) (h_identity handle) g after out (Some f)
  | _ => handed_out w w' (h_channel handle) (h_identity handle) g after out
  end.

Lemma observed_later w w' w'' name identity g l w1 :
  observed w w' name identity g l w1 -> evolves w' w'' -> observed w w'' name identity g l w1.
Proof. intros (H1 & H2 & H3) H4. split_and!; try done. by etrans. Qed.

Lemma handed_out_later w w' w'' name identity g after out :
  handed_out w w' name identity g after out -> evolves w' w'' ->
  handed_out w w'' name identity g after out.
Proof.
  intros [->|(l & w1 & H1 & H2)] H3; [by left|]. right. exists l, w1. split; [|done].
  by eapply observed_later.
Qed.

(** What was handed out is still in the log when it is read again. *)
Lemma handed_out_slice w w' name identity g after out l :
  backend_ok w -> evolves w w' ->
  log w' name identity = {| tl_generation := g; tl_state := Readable l |} ->
  handed_out w w' name identity g after out -> 0 <= after + zlen out <= zlen l -> 0 <= after ->
  out = slice (Z.to_nat after) (Z.to_nat (after + zlen out)) l.
Proof.
  intros Hok Hw Hl [->|(l0 & w1 & (H1 & H2 & H3) & _ & Hle & Hout)] Hb Ha.
  - unfold slice. rewrite Z.add_0_r. rewrite drop_ge; [done|]. rewrite length_take. lia.
  - assert (backend_ok w1) as Hok1 by by eapply evolves_ok.
    pose proof (log_evolves _ _ name identity Hok1 H2) as Hlog. rewrite H3, Hl in Hlog.
    rewrite Hout at 1. apply slice_prefix; [unfold zlen in *; lia|by eapply readable_grows].
Qed.

(** [for message in messages: yield message] *)
Lemma lwp_yield_all n messages cursor (Q : outcome Z -> list MessageEnvelope -> W -> Prop) out w :
  backend_ok w ->
  (forall done w', done `prefix_of` messages -> backend_ok w' -> evolves w w' ->
     Q Running (out ++ done) w') ->
  (forall w', backend_ok w' -> evolves w w' ->
     Q (Returned (default cursor (e_seq <$> last messages))) (out ++ messages) w') ->
  lwp n (yield_all messages cursor) Q out w.
Proof.
  revert cursor out w. induction messages as [|e messages IH]; intros cursor out w Hok HR HQ; simpl.
  - rewrite <-(app_nil_r out). apply lwp_done; [by apply HQ|by apply HR].
  - apply lwp_bind. apply lwp_yield; [done| |].
    + specialize (HR [] w). rewrite app_nil_r in HR. apply HR; [apply prefix_nil|done|done].
    + intros w' H1 H2. split; [|by apply HR; [apply prefix_cons, prefix_nil|..]].
      apply IH; [done| |].
      * intros done w'' Hd H3 H4. rewrite <-app_assoc. apply HR; [by apply prefix_cons|done|by etrans].
      * intros w'' H3 H4. rewrite <-app_assoc. specialize (HQ w'' H3). simpl in HQ.
        assert (default cursor (e_seq <$> last (e :: messages)) =
                default (e_seq e) (e_seq <$> last messages)) as <-.
        { rewrite last_cons. by destruct (last messages). }
        apply HQ. by etrans.
Qed.

(** What a page adds to what was handed out before. *)
Lemma page_adds w w' handle g after out page cursor :
  backend_ok w -> evolves w w' -> cursor = after + zlen out ->
  handed_out w w' (h_channel handle) (h_identity handle) g after out ->
  (exists l upto, log w' (h_channel handle) (h_identity handle) =
      {| tl_generation := g; tl_state := Readable l |} /\
     numbered l /\ 0 <= cursor <= zlen l /\ 0 <= upto /\
     p_messages page = List.filter (fun e => (cursor <? e_seq e) && (e_seq e <=? upto)) l) ->
  0 <= after \/ out = [] ->
  exists l, log w' (h_channel handle) (h_identity handle) =
      {| tl_generation := g; tl_state := Readable l |} /\ 0 <= after /\
    default cursor (e_seq <$> last (p_messages page)) = cursor + zlen (p_messages page) /\
    forall done, done `prefix_of` p_messages page ->
      after + zlen (out ++ done) <= zlen l /\
      out ++ done = slice (Z.to_nat after) (Z.to_nat (after + zlen (out ++ done))) l.
Proof.
  intros Hok Hw Hc Hout (l & upto & Hl & Hn & Hcl & Hu & Hp) Ha.
  assert (0 <= after) as Ha' by (destruct Ha as [Ha| ->]; [done|unfold zlen in *; simpl in *; lia]).
  rewrite (filter_numbered e_seq l 0 cursor upto), !Z.sub_0_r in Hp by (intros i e; simpl; apply Hn).
  change (drop (Z.to_nat cursor) (take (Z.to_nat upto) l)) with
    (slice (Z.to_nat cursor) (Z.to_nat upto) l) in Hp.
  exists l. split_and!; [done|done| |].
  - rewrite Hp. rewrite <-(Z2Nat.id cursor) at 1 3 by lia. rewrite last_seq; [done|done|].
    unfold zlen in *. lia.
  - intros done Hd. rewrite Hp in Hd.
    assert (out = slice (Z.to_nat after) (Z.to_nat cursor) l) as Hs.
    { rewrite Hc. eapply handed_out_slice; try done. lia. }
    apply (slice_app (Z.to_nat after)) in Hd as [Hd1 Hd2]; [|unfold zlen in *; lia].
    rewrite <-Hs in Hd1.
    assert (Z.to_nat (after + zlen (out ++ done)) = Z.to_nat cursor + List.length done)%nat as ->
      by (unfold zlen in *; rewrite length_app; lia).
    split; [|done]. unfold zlen in *. rewrite length_app. lia.
Qed.

Definition follow_inv w handle g after (cursor : Z) out w' : Prop :=
  backend_ok w' /\ evolves w w' /\ cursor = after + zlen out /\ (0 <= after \/ out = []) /\
  handed_out w w' (h_channel handle) (h_identity handle) g after out.

(** What a turn of the loop has to establish. *)
Definition turn_post w handle g after (o : outcome (Z + unit)) out w' : Prop :=
  match o with
  | Returned (inl cursor) => follow_inv w handle g after cursor out w' /\
      follow_post w handle g after Running out w'
  | Returned (inr a) => follow_post w handle g after (Returned a) out w' /\
      follow_post w handle g after Running out w'
  | Raised e cause => follow_post w handle g after (Raised e cause) out w'
  | Running => follow_post w handle g after Running out w'
  end.

(** The page was read at [w2]; the consumer has taken it by [w']. *)
Lemma lwp_follow_decide w handle g after n cursor r news out l w2 w' :
  backend_ok w' -> evolves w w2 -> evolves w2 w' ->
  log w2 (h_channel handle) (h_identity handle) = {| tl_generation := g; tl_state := Readable l |} ->
  run_of w2 (h_channel handle) (h_identity handle) = Some r ->
  0 <= after -> cursor = after + zlen out -> after + zlen out <= zlen l ->
  out = slice (Z.to_nat after) (Z.to_nat (after + zlen out)) l ->
  lwp n (follow_decide settings handle g cursor r news) (turn_post w handle g after) out w'.
Proof.
  intros Hok Hw2 Hw' Hl Hr Ha Hc Hle Hs.
  assert (forall w3, evolves w' w3 -> observed w w3 (h_channel handle) (h_identity handle) g l w2) as Hobs
    by (intros w3 H3; split_and!; [done|by transitivity w'|done]).
  assert (forall w3, evolves w' w3 ->
    handed_out w w3 (h_channel handle) (h_identity handle) g after out) as Hpiece
    by (intros w3 H3; right; exists l, w2; split_and!; auto).
  assert (evolves w w') as Hww' by by transitivity w2.
  assert (forall w3, evolves w' w3 -> follow_post w handle g after Running out w3) as Hrun
    by (intros w3 H3; split; [by transitivity w'|auto]).
  assert (forall B (t : program B), quiet t -> lwp n (do! t in done (inl cursor))
    (turn_post w handle g after) out w') as Hquiet.
  { intros B t Ht. apply lwp_bind, lwp_quiet; [done..|].
    intros [b|e c|] w3 H3 H4 Hc3; [|split; [by transitivity w'|]|by apply Hrun].
    - apply lwp_done; [|by apply Hrun]. split; [|by apply Hrun].
      split_and!; [done|by transitivity w'|done|by left|by apply Hpiece].
    - destruct c; [done|]. destruct e; by apply Hpiece. }
  assert (lwp n (done (inl cursor)) (turn_post w handle g after) out w') as Hagain.
  { apply lwp_done; [|by apply Hrun]. split; [|by apply Hrun].
    split_and!; [done|done|done|by left|by apply Hpiece]. }
  unfold follow_decide. cbv zeta.
  destruct (is_final_run_status (sr_status r)) eqn:Hfin; simpl.
  - destruct (_ <=? cursor) eqn:Hend; bool_prop.
    + assert (forall failed, match failed with
        | None => is_failed_run_status (sr_status r) = false
        | Some f => is_failed_run_status (sr_status r) = true /\ f = run_failure r
        end -> handed_all w w' (h_channel handle) (h_identity handle) g after out failed) as Hall
        by (intros failed Hf; exists l, w2, r; split_and!; [by apply Hobs|done|done|done|done|done|lia|done]).
      destruct (is_failed_run_status (sr_status r)) eqn:Hf.
      * apply lwp_throw_from; [|by apply Hrun]. split; [done|]. by apply Hall.
      * apply lwp_done; [|by apply Hrun]. split; [|by apply Hrun]. split; [done|]. by apply Hall.
    + by rewrite (proj2 (Z.ltb_lt _ _)).
  - destruct (negb _); [apply Hquiet, quiet_reconcile|].
    destruct (_ <? _); [done|apply Hquiet, quiet_wait_for].
Qed.

Lemma lwp_follow_turn w handle g after n cursor out w' :
  backend_ok w -> follow_inv w handle g after cursor out w' ->
  lwp n (follow_turn settings handle g cursor) (turn_post w handle g after) out w'.
Proof.
  intros Hok (Hok' & Hw & Hc & Ha & Hout). unfold follow_turn. apply lwp_bind, lwp_read.
  assert (forall w'', evolves w' w'' -> follow_post w handle g after Running out w'') as Hrun.
  { intros w'' H2. split; [by etrans|by eapply handed_out_later]. }
  assert (forall e w'', evolves w' w'' -> follow_post w handle g after (Raised e None) out w'') as Hraise.
  { intros e w'' H2. split; [by etrans|]. by destruct e; eapply handed_out_later. }
  split_and!; [done|by apply Hrun|]. intros [page|e] w2 Hok2 Hw2 (w1 & Hok1 & Hw1 & Hread);
    [|by apply Hraise]. split; [|by apply Hrun].
  destruct (read_law _ _ _ _ Hok1 Hread eq_refl) as (l & upto & H1 & H2 & H3 & H4 & H5 & H6).
  clear w1 Hok1 Hw1 Hread. simpl in H1, H3, H5, H6. assert (evolves w w2) as Hww2 by by etrans.
  destruct (page_adds w w2 handle g after out page cursor) as (l' & Hl & Ha' & Hlast & Hadd);
    [done|done|done|by eapply handed_out_later|by exists l, upto|done|].
  apply lwp_bind. apply lwp_required; [|intros _; by apply Hraise|by apply Hrun].
  intros r Hr. apply lwp_bind, lwp_yield_all; [done| |].
  - intros piece w3 Hd H7 H8. destruct (Hadd _ Hd) as [Hle Hs]. split; [by transitivity w2|].
    right. exists l', w2. split_and!; auto. by split_and!.
  - intros w3 Hok3 Hw3. cbn beta. rewrite Hlast. destruct (Hadd (p_messages page)) as [Hle Hs]; [done|].
    eapply lwp_follow_decide; [done|exact Hww2|done|exact Hl|congruence|done| |done|done].
    unfold zlen in *. rewrite length_app. lia.
Qed.

Lemma lwp_follow n handle after w :
  backend_ok w ->
  lwp n (follow settings handle after) (fun o out' w' =>
    exists g, follow_post w handle g after o out' w' /\
      match h_generation handle with Some g0 => g = g0 | None => True end) [] w.
Proof.
  intros Hok. unfold follow. apply lwp_bind.
  assert (forall g w', backend_ok w' -> evolves w w' ->
    lwp n (forever (follow_turn settings handle g) after)
      (fun o out' w' => follow_post w handle g after o out' w') [] w') as Hloop.
  { intros g w' Hok' Hw. apply (lwp_forever (follow_inv w handle g after)).
    - intros m c out w1 HJ. by apply lwp_follow_turn.
    - split_and!; [done|done|unfold zlen; simpl; lia|by right|by left]. }
  assert (forall g w' (o : outcome unit), evolves w w' -> no_cause o ->
    match o with Returned _ => False | _ => True end -> follow_post w handle g after o [] w') as Hstop.
  { intros g w' o Hw Hc Hr. split; [done|]. destruct o as [a|e [c|]|]; try done; [|by left].
    by destruct e; left. }
  unfold resolve_handle_generation. destruct (h_generation handle) as [g|].
  - apply lwp_done; [|exists g; split; [by apply Hstop|done]].
    eapply lwp_weaken; [by apply Hloop|done|]. intros o out' w' Hp. by exists g.
  - apply lwp_quiet; [quiet_go|done|]. intros [g|e c|] w' Hok' Hw Hc.
    + eapply lwp_weaken; [by apply Hloop|done|]. intros o out' w'' Hp. by exists g.
    + exists 0. split; [by apply Hstop|done].
    + exists 0. split; [by apply Hstop|done].
Qed.

(** ** What every method does to the backend *)

Lemma lwp_method {A} n (m : method A) w :
  backend_ok w -> lwp n (program_of m) (fun _ _ w' => evolves w w') [] w.
Proof.
  intros Hok. pose proof (quiet_program m) as Hq.
  destruct m; try (by apply lwp_quiet).
  eapply lwp_weaken; [by apply lwp_follow|done|]. by intros o out w' (g & [Hw _] & _).
Qed.

(** ** Waiting for a run *)

(** The state of a handle's own generation. *)
Lemma lwp_load_bound n handle g out w (Q : outcome MessagingStateSnapshot -> list MessageEnvelope -> W -> Prop) :
  h_generation handle = Some g -> backend_ok w ->
  (forall o w', evolves w w' -> no_cause o -> match o with Returned _ => False | _ => True end ->
     Q o out w') ->
  (forall state w', backend_ok w' -> evolves w w' ->
     (forall stream, sn_stream state = Some stream -> exists l,
        log w' (h_channel handle) (h_identity handle) = {| tl_generation := g; tl_state := Readable l |} /\
        sn_target_run state = run_of w' (h_channel handle) (h_identity handle)) ->
     Q (Returned state) out w') ->
  lwp n (load_bound_state handle) Q out w.
Proof.
  intros Hg Hok Hstop HQ. assert (forall w', evolves w w' -> Q Running out w') as HR by (intros; by apply Hstop).
  unfold load_bound_state, required_generation. rewrite Hg. apply lwp_bind, lwp_done; [|by apply HR].
  apply lwp_bind, lwp_load. split_and!; [done|by apply HR|].
  intros [state|e] w' Hok' Hw (w1 & Hok1 & Hw1 & Hload); [|by apply Hstop]. split; [|by apply HR].
  apply lwp_bind, lwp_try; [|intros; by apply Hstop|by apply HR]. intros [] _.
  apply lwp_bind, lwp_try; [|intros; by apply Hstop|by apply HR]. intros [] Hd.
  apply lwp_done; [|by apply HR]. apply HQ; [done..|]. intros stream Hs.
  unfold raise_stream_disposition in Hd. rewrite Hs in Hd.
  eapply (load_law _ _ _ _ _ _ Hok1 Hload); [done|exact Hs|]. by destruct (ss_disposition stream).
Qed.

(** The run was in the state the answer is for, at some moment of the wait. *)
Definition answered {A} (answer : RunStatus -> option A) w w' handle g (a : A) : Prop :=
  exists l w1 r, observed w w' (h_channel handle) (h_identity handle) g l w1 /\
    run_of w1 (h_channel handle) (h_identity handle) = Some r /\ answer (sr_status r) = Some a.

Lemma lwp_await {A} (answer : RunStatus -> option A) n handle w out :
  backend_ok w ->
  lwp n (let! generation := resolve_handle_generation settings handle in
         forever (fun _ : unit => await_turn settings answer handle generation) tt)
    (fun o out' w' => evolves w w' /\ match o with
       | Returned a => exists g, answered answer w w' handle g a /\
           match h_generation handle with Some g0 => g = g0 | None => True end
       | _ => True
       end) out w.
Proof.
  intros Hok. apply lwp_bind.
  assert (forall g w', backend_ok w' -> evolves w w' ->
    lwp n (forever (fun _ : unit => await_turn settings answer handle g) tt)
      (fun o out' w' => evolves w w' /\ match o with
         | Returned a => answered answer w w' handle g a
         | _ => True
         end) out w') as Hloop.
  { intros g w' Hok' Hw. apply (lwp_forever (fun _ _ w' => backend_ok w' /\ evolves w w')); [|done].
    clear w' Hok' Hw. intros m _ out' w' [Hok' Hw]. unfold await_turn. apply lwp_bind.
    apply (lwp_load_bound m _ g); [|done| |].
    - unfold with_generation. case_bool_decide; [done|]. done.
    - intros [a|e c|] w2 Hw2 Hc; [done|split; [by etrans|done]..].
    - intros state w2 Hok2 Hw2 Hstate. destruct (sn_target_run state) as [r|] eqn:Hr;
        [|apply lwp_throw; (split; [by etrans|done])].
      destruct (sn_stream state) as [stream|]; [|apply lwp_throw; (split; [by etrans|done])].
      destruct (Hstate _ eq_refl) as (l & Hl & Hrun).
      assert (h_channel (with_generation handle g) = h_channel handle /\
              h_identity (with_generation handle g) = h_identity handle) as [Hch Hid]
        by (unfold with_generation; by case_bool_decide).
      rewrite Hch, Hid in *. destruct (answer (sr_status r)) as [a|] eqn:Ha.
      + apply lwp_done; [|split; [by etrans|done]]. split; [|split; [by etrans|done]]. split; [by etrans|].
        exists l, w2, r. unfold observed. split_and!; try done. by etrans.
      + assert (forall B (t : program B), quiet t -> lwp m (do! t in done (inl tt))
          (fun (o : outcome (unit + A)) out'' w'' => match o with
            | Returned (inl _) => (backend_ok w'' /\ evolves w w'') /\ evolves w w'' /\ True
            | Returned (inr a) => (evolves w w'' /\ answered answer w w'' handle g a) /\ evolves w w'' /\ True
            | Raised e cause => evolves w w'' /\ True
            | Running => evolves w w'' /\ True
            end) out' w2) as Hgo.
        { intros B t Ht. apply lwp_bind, lwp_quiet; [done..|].
          assert (evolves w w2) as Hww2 by by etrans.
          intros [b|e c|] w3 Hok3 Hw3 _; [|split; [by etrans|done]..].
          apply lwp_done; split_and!; try done; by etrans. }
        destruct (negb _); apply Hgo; [apply quiet_reconcile|apply quiet_wait_for].
  }
  assert (forall (o : outcome Z) w', evolves w w' -> evolves w w' /\ match o with
    | Returned a => True | _ => True end) as Hstop by (by intros [] w').
  unfold resolve_handle_generation. destruct (h_generation handle) as [g|].
  - apply lwp_done; [|done]. eapply lwp_weaken; [by apply Hloop|done|].
    intros [a|e c|] out' w' [Hw Ha]; split; try done. by exists g.
  - apply lwp_quiet; [quiet_go|done|]. intros [g|e c|] w' Hok' Hw Hc; [|done..].
    eapply lwp_weaken; [by apply Hloop|done|].
    intros [a|e c|] out' w'' [Hw' Ha]; split; try done. by exists g.
Qed.
(** ** Deleting *)

(** A generation was readable and the thread has come to a state beyond it. *)
Lemma readable_left w w1 w' name identity g l :
  backend_ok w -> evolves w w1 -> evolves w1 w' ->
  log w name identity = {| tl_generation := g; tl_state := Readable l |} ->
  tl_state (log w1 name identity) = Unopened \/
    (exists g1, log w1 name identity = {| tl_generation := g1; tl_state := Sealed |} /\
       g1 < tl_generation (log w' name identity)) ->
  g < tl_generation (log w' name identity).
Proof.
  intros Hok H1 H2 Hl Hend.
  pose proof (log_steps_le _ _ (log_evolves _ _ name identity Hok H1)) as Hle1.
  assert (backend_ok w1) as Hok1 by by eapply evolves_ok.
  pose proof (log_steps_le _ _ (log_evolves _ _ name identity Hok1 H2)) as Hle2.
  rewrite Hl in Hle1. destruct Hend as [Hu|(g1 & Hg1 & Hlt)].
  - destruct Hle1 as [Hlt|[_ Hle]]; [|by rewrite Hu in Hle]. simpl in Hlt.
    destruct Hle2 as [H3|[H3 _]]; lia.
  - rewrite Hg1 in Hle1. destruct Hle1 as [H3|[H3 _]]; simpl in H3; lia.
Qed.

Definition buried w name identity (o : outcome unit) w' : Prop :=
  evolves w w' /\ match o with
  | Returned _ => exists w1, evolves w w1 /\ evolves w1 w' /\
      (tl_state (log w1 name identity) = Unopened \/
       exists g, log w1 name identity = {| tl_generation := g; tl_state := Sealed |} /\
         g < tl_generation (log w' name identity))
  | _ => True
  end.

Lemma lwp_cleanup_deleted n name identity w out :
  backend_ok w ->
  lwp n (cleanup_generation settings name identity ReasonDeleted)
    (fun o _ w' => buried w name identity o w') out w.
Proof.
  intros Hok. unfold cleanup_generation. apply lwp_bind, lwp_uuid; [done|]. intros begin_id.
  apply lwp_bind, lwp_commit; [done|]. split_and!; [done|done|].
  intros [result|e] w1 Hok1 Hw1 (w0 & Hok0 & Hw0 & Hc); [|done]. split; [|done].
  pose proof (begin_cleanup_law _ _ _ _ Hok0 Hc eq_refl eq_refl) as Hbegin. simpl in Hbegin. clear w0 Hok0 Hw0 Hc.
  destruct (rs_cleanup_required result); simpl; 
    [|apply lwp_done; [|done]; split; [done|]; exists w1; split_and!; [done|done|left; by apply Hbegin]].
  destruct Hbegin as (g & Hg & Hlog). rewrite Hg. apply lwp_bind, lwp_done; [|done].
  apply lwp_bind, lwp_required; [|done..]. intros reason _. cbv zeta.
  apply lwp_bind, lwp_quiet; [quiet_method|done|]. intros [[]|e c|] w2 Hok2 Hw2 _; [|split; [by etrans|done]..].
  apply lwp_bind, lwp_uuid; [split; [by etrans|done]|]. intros finish_id.
  assert (evolves w w2) as Hww2 by by etrans.
  apply lwp_bind, lwp_commit; [done|]. split_and!; [done|done|].
  intros [done'|e] w3 Hok3 Hw3 (w4 & Hok4 & Hw4 & Hc'); [|split; [by transitivity w2|done]].
  assert (evolves w w3) as Hww3 by by transitivity w2. split; [|done].
  pose proof (finish_cleanup_law _ _ _ _ _ Hok4 Hc' eq_refl eq_refl) as Hfin. simpl in Hfin.
  apply lwp_done; [|done]. split; [done|]. exists w1. split_and!; [done|by transitivity w2|].
  right. by exists g.
Qed.

(** A state without a stream is that of a thread that has none. *)
Lemma lwp_load_current n name identity b w out
    (Q : outcome MessagingStateSnapshot -> list MessageEnvelope -> W -> Prop) :
  backend_ok w ->
  (forall o w', evolves w w' -> no_cause o -> match o with Returned _ => False | _ => True end ->
     Q o out w') ->
  (forall state w', backend_ok w' -> evolves w w' ->
     (sn_stream state = None -> tl_state (log w' name identity) = Unopened) ->
     Q (Returned state) out w') ->
  lwp n (load_current_state settings name identity b) Q out w.
Proof.
  intros Hok Hstop HQ. assert (forall w', evolves w w' -> Q Running out w') as HR by (intros; by apply Hstop).
  assert (forall w0, backend_ok w0 -> evolves w w0 ->
    continues (load_state (state_query name identity None b)) (fun o out' w' => match o with
      | Returned state => out' = out /\ backend_ok w' /\ evolves w w' /\
          (sn_stream state = None -> tl_state (log w' name identity) = Unopened)
      | o => Q o out' w'
      end) out w0) as Hload.
  { intros w0 Hok0 Hw0. split_and!; [done|by apply HR|].
    intros [state|e] w' Hok' Hw' (w1 & Hok1 & Hw1 & Hl); [|by apply Hstop; [etrans|..]].
    split; [|apply HR; by etrans]. split_and!; [done|done|by etrans|]. intros Hs.
    by apply (absent_law _ _ _ _ Hok1 Hl). }
  unfold load_current_state. cbv zeta. apply lwp_bind. eapply lwp_weaken; [by apply lwp_load, Hload|done|].
  intros [state|e c|] out' w1; [|done..]. intros (-> & Hok1 & Hw1 & Hs).
  destruct (sn_stream state) as [stream|] eqn:Hst; [|by apply lwp_done; [apply HQ; [..|rewrite Hst]|apply HR]].
  destruct (ss_retention_expired stream || _); [|by apply lwp_done; [apply HQ; [..|rewrite Hst]|apply HR]].
  apply lwp_bind, lwp_quiet; [apply quiet_cleanup|done|].
  intros [[]|e c|] w2 Hok2 Hw2 Hc; [|by apply Hstop; [etrans|..]|by apply HR; etrans].
  eapply lwp_weaken; [apply lwp_load, Hload; [done|by etrans]|done|].
  intros [state'|e c|] out' w3; [|done..]. intros (-> & Hok3 & Hw3 & Hs'). by apply HQ.
Qed.

Lemma lwp_delete n name identity w out :
  backend_ok w ->
  lwp n (delete_stream settings name identity) (fun o _ w' => buried w name identity o w') out w.
Proof.
  intros Hok. unfold delete_stream. apply lwp_bind, lwp_try; [|done..]. intros ? _.
  apply lwp_bind, lwp_try; [|done..]. intros ? _. apply lwp_bind.
  apply lwp_load_current; [done|by intros [?|e c|] w' Hw|]. intros state w1 Hok1 Hw1 Hs.
  destruct (sn_stream state) as [stream|].
  - eapply lwp_weaken; [by apply lwp_cleanup_deleted|done|]. intros o out' w2 [Hw2 Hb].
    split; [by etrans|]. destruct o as [[]|e c|]; [|done..].
    destruct Hb as (w3 & Hw3 & Hb). exists w3. split; [by etrans|done].
  - apply lwp_done; [|done]. split; [done|]. exists w1. split_and!; [done|done|]. left. by apply Hs.
Qed.
End follow.
