(* ===== verification/MsgMemoryBackend.v ===== *)
(** Messaging: MemoryBackend keeps what the ledger is promised. *)
From S2P Require Import Prelude PyDict PySeq MsgModels MsgTransition MsgMemory MsgInvariant MsgWorld.
From S2P Require Import Contracts.
From S2P Require Import MsgStream MsgApply MsgKinds MsgPrepare MsgCleanup MsgOps.
From S2P Require Import MsgSpec MsgLedger MsgBackend.

Section memory.
Context {sha256 : Sha256} {env : MessagingEnv} {keys : ThreadKeys} {clock : MonotonicClock}.
Implicit Types (w : World) (s : StreamState) (t : MessagingTransition) (name thread : pystr)
  (identity : RunIdentity).

#[export] Instance memory_backend : MessagingBackend World := {|
  load_state := load_messaging_state;
  commit_transition := commit_messaging_transition;
  read_messages := read_committed_messages;
  begin_wait := wait_for_messaging_change;
  end_wait := stop_waiting;
  purge_generation := purge_stream_generation
|}.

Definition memory_log w name identity : ThreadLog := thread_log w name (thread_key identity).

Definition memory_run w name identity : option StoredMessagingRun :=
  s ← live w name (thread_key identity);
  (fun r => stored_memory_run r (s_generation s)) <$> dget (s_runs s) (i_run_id identity).

Lemma msg_later_request w q : allowed q -> msg_later w (perform q w).
Proof. intros H. apply rtc_once. by constructor. Qed.

(** ** Reading the log off the state *)

Lemma live_readable w name identity s :
  winv w -> live w name (thread_key identity) = Some s -> s_disposition s = Active ->
  memory_log w name identity =
    {| tl_generation := s_generation s; tl_state := Readable (s_messages s) |}.
Proof.
  intros Hw Hl Hd. destruct (live_generation _ _ _ _ Hw Hl) as [_ Hg].
  unfold memory_log, thread_log. rewrite Hl, Hg. simpl. by rewrite bool_decide_true.
Qed.

Lemma readable_live w name identity g l :
  winv w -> memory_log w name identity = {| tl_generation := g; tl_state := Readable l |} ->
  exists s, live w name (thread_key identity) = Some s /\ s_disposition s = Active /\
    s_generation s = g /\ s_messages s = l.
Proof.
  intros Hw [= Hg Hl]. destruct (live w name (thread_key identity)) as [s|] eqn:Hlive; [|done].
  destruct (live_generation _ _ _ _ Hw Hlive) as [_ Hgen].
  simpl in Hl. case_bool_decide as Hd; [|done]. injection Hl as Hl. exists s. split_and!; congruence.
Qed.

Lemma live_sealed w name identity s :
  winv w -> live w name (thread_key identity) = Some s -> s_disposition s <> Active ->
  memory_log w name identity = {| tl_generation := s_generation s; tl_state := Sealed |}.
Proof.
  intros Hw Hl Hd. destruct (live_generation _ _ _ _ Hw Hl) as [_ Hg].
  unfold memory_log, thread_log. rewrite Hl, Hg. simpl. by rewrite bool_decide_false.
Qed.

Lemma tombstone_passed w name thread g r :
  winv w -> tombstone_of w name thread g = Some r -> g < generation_of w name thread.
Proof.
  intros [Hm _] Ht. unfold tombstone_of, generation_of in *.
  destruct (dget (m_channels (mem w)) name) as [c|] eqn:Hc; [|done].
  destruct (mo_channel _ Hm _ _ Hc) as [Hok _].
  simpl in Ht. by apply (co_tombstones _ _ Hok thread g); rewrite Ht.
Qed.

(** A tombstone a snapshot shows is one of the thread. *)
Lemma snapshot_tombstone w name thread g g' r :
  ready w name -> tombstone_reason (channel_of name w) thread (Some g) = Some (g', r) ->
  g' = g /\ tombstone_of w name thread g = Some r.
Proof.
  intros Hr H. unfold tombstone_reason in H.
  destruct (dget (default [] (dget (c_tombstones (channel_of name w)) thread)) g) as [r'|] eqn:Hd; [|done].
  injection H as <- <-. split; [done|]. unfold tombstone_of, channel_of in *.
  destruct Hr as [[c Hc]|[Hc Hs]]; rewrite Hc in *; [done|]. simpl in Hd. by rewrite Hs in Hd.
Qed.

(** ** Loading *)

Lemma wp_load_snapshot w q (Q : res msg_exn MessagingStateSnapshot -> World -> Prop) :
  good w ->
  (forall e, Q (Raise e) w) ->
  (forall w' state, good w' -> live w' (sq_channel q) (thread_key (sq_identity q)) = None ->
     sn_stream state = None -> Q (Ok state) w') ->
  (forall w' s matching, good w' ->
     live w' (sq_channel q) (thread_key (sq_identity q)) = Some s ->
     ready w' (sq_channel q) ->
     Q (Ok (snapshot_of w' (sq_channel q) (sq_identity q) (sq_generation q) matching
              (sq_include_active_run q))) (utc_tick w')) ->
  wp (load_messaging_state q) w Q.
Proof.
  intros Hg He Hnone HQ. unfold load_messaging_state. wp_step. wp_step.
  destruct (required_identifier _); [|done]. wp_step. wp_step. destruct (required_identity _); [|done].
  wp_step. wp_step. destruct (dget (m_channels (mem w)) (sq_channel q)) as [c|] eqn:Hc.
  - wp_step. apply good_expire; [done|left; by rewrite Hc|]. intros w' Hg' Hf' _ Hr' _.
    destruct (live w' (sq_channel q) (thread_key (sq_identity q))) as [s|] eqn:Hl.
    + apply wp_snapshot; [apply Hg'|done|]. intros matching _. by apply HQ with s.
    + apply wp_snapshot; [apply Hg'|done|]. intros matching _. apply Hnone; [done|done|].
      unfold snapshot_of. simpl. destruct (selected_stream _ _ _) as [s|] eqn:Hs; [|done].
      apply selected_live in Hs as [Hs _]; [congruence|done].
  - unfold empty_memory_snapshot. wp_step. apply Hnone; [done| |done].
    change (live w (sq_channel q) (thread_key (sq_identity q)) = None). unfold live. by rewrite Hc.
Qed.

Lemma memory_load_law w q g state stream w' :
  good w -> load_messaging_state q w = (Ok state, w') -> sq_generation q = Some g ->
  sn_stream state = Some stream -> ss_disposition stream = Active ->
  exists l, memory_log w' (sq_channel q) (sq_identity q) =
      {| tl_generation := g; tl_state := Readable l |} /\
    sn_target_run state = memory_run w' (sq_channel q) (sq_identity q).
Proof.
  intros Hg Hload Hgen. revert stream.
  pattern state, w'. eapply wp_returned; [exact Hload|]. clear state w' Hload.
  apply wp_load_snapshot; [done|done| |].
  - intros w' state _ _ Hs stream Hst. congruence.
  - intros w' s matching [Hw' _] Hl Hr stream Hst Hd. unfold snapshot_of in *. simpl in *.
    destruct (selected_stream _ _ _) as [s'|] eqn:Hsel; [|done].
    destruct (selected_live _ _ _ _ _ Hr Hsel) as [Hl' Hsg]. assert (s' = s) as -> by congruence.
    injection Hst as <-. rewrite (Hsg _ Hgen). exists (s_messages s). split.
    + change (memory_log w' (sq_channel q) (sq_identity q) =
        {| tl_generation := s_generation s; tl_state := Readable (s_messages s) |}).
      by apply live_readable.
    + simpl. unfold memory_run. change (live (utc_tick w') ?n ?t) with (live w' n t). by rewrite Hl.
Qed.

Lemma memory_absent_law w q state w' :
  good w -> load_messaging_state q w = (Ok state, w') -> sq_generation q = None ->
  sn_stream state = None ->
  tl_state (memory_log w' (sq_channel q) (sq_identity q)) = Unopened.
Proof.
  intros Hg Hload Hgen.
  pattern state, w'. eapply wp_returned; [exact Hload|]. clear state w' Hload.
  apply wp_load_snapshot; [done|done| |].
  - intros w' state _ Hl _ _. unfold memory_log, thread_log. by rewrite Hl.
  - intros w' s matching Hg' Hl Hr Hs. exfalso. unfold snapshot_of in Hs. simpl in Hs.
    destruct (live_ok _ _ _ _ (proj1 Hg') Hl) as (_ & _ & Hst & _).
    unfold selected_stream in Hs. rewrite Hst, Hgen in Hs. done.
Qed.

(** ** Reading *)

Lemma memory_read_law w q page w' :
  good w -> read_committed_messages q w = (Ok page, w') -> q_through_sequence q = None ->
  exists l upto, memory_log w' (q_channel q) (q_identity q) =
      {| tl_generation := q_generation q; tl_state := Readable l |} /\
    numbered l /\ 0 <= q_after_sequence q <= zlen l /\ 0 <= upto /\
    p_messages page = List.filter (fun e => (q_after_sequence q <? e_seq e) &&
                                            (e_seq e <=? upto)) l /\
    p_run_state page = memory_run w' (q_channel q) (q_identity q).
Proof.
  intros Hg Hc Hthrough.
  pattern page, w'. eapply wp_returned; [exact Hc|]. clear page w' Hc.
  apply wp_read; [done|done|]. intros s w' [Hw' _] _ _ Hl Hgen Hd Ha Hlim.
  destruct (live_generation _ _ _ _ Hw' Hl) as [Hs _].
  pose proof (page_end_nonneg _ q s (dget (s_runs s) (i_run_id (q_identity q))) Hs Hd (proj1 Ha) (proj1 Hlim)) as Hend.
  rewrite Hthrough in Hend. specialize (Hend I eq_refl).
  eexists (s_messages s), _. split_and!; [rewrite <-Hgen; by apply live_readable|
    exact (so_numbered _ _ Hs)|lia|lia|exact Hend| |].
  - apply slice_is_filter; [exact (so_numbered _ _ Hs)|lia|done].
  - unfold memory_run. by rewrite Hl.
Qed.

(** ** Runs *)

Lemma memory_run_settles w w' name identity run l l' g :
  good w -> msg_later w w' -> memory_run w name identity = Some run ->
  is_final_run_status (sr_status run) = true ->
  memory_log w name identity = {| tl_generation := g; tl_state := Readable l |} ->
  memory_log w' name identity = {| tl_generation := g; tl_state := Readable l' |} ->
  memory_run w' name identity = Some run.
Proof.
  intros Hg Hlater Hrun Hfin Hl Hl'. destruct (later_good _ _ Hlater Hg) as [Hg' Hf].
  apply readable_live in Hl as (s & Hl & _ & Hgen & _); [|apply Hg].
  pose proof Hl' as Hlog. apply readable_live in Hl' as (s' & Hl' & Hd' & Hgen' & _); [|apply Hg'].
  destruct (fw_stream _ _ Hf _ _ _ Hl) as [(s2 & Hl2 & Hsf)|Hlt].
  - assert (s2 = s') as -> by congruence. unfold memory_run in *. rewrite Hl in Hrun. rewrite Hl'. simpl in *.
    destruct (dget (s_runs s) (i_run_id identity)) as [r|] eqn:Hr; [|done]. injection Hrun as <-.
    destruct (sf_runs _ _ Hsf Hd' _ _ Hr) as (r' & Hr' & Hrf). rewrite Hr'. simpl in *.
    rewrite (fo_final _ _ Hrf Hfin). by rewrite (sf_generation _ _ Hsf).
  - destruct (live_generation _ _ _ _ (proj1 Hg') Hl') as [_ Hg2]. lia.
Qed.

(** ** Cleaning up *)

(** What sealing answers, and the effect behind it. *)
Lemma begin_cleanup_answer w t name matching effect :
  winv w -> ready w name ->
  resolve_begin_generation_cleanup t (snapshot_of w name (tr_identity t) None matching true) = Ok effect ->
  match live w name (thread_key (tr_identity t)) with
  | None => rs_cleanup_required (ef_result effect) = false
  | Some s => if rs_cleanup_required (ef_result effect)
      then rs_cleanup_generation (ef_result effect) = Some (s_generation s)
      else tr_cleanup_reason t <> Some ReasonDeleted
  end /\
  (writes_nothing effect /\ (forall s, live w name (thread_key (tr_identity t)) = Some s ->
     rs_cleanup_required (ef_result effect) = true -> s_disposition s = Deleting) \/
   exists s, live w name (thread_key (tr_identity t)) = Some s /\ s_disposition s = Active /\
     s_active_identity s = None /\
     effect = seal_effect t (stored_stream name (tr_identity t) s) ReasonDeleted None).
Proof.
  intros Hw Hr H. pose proof (begin_cleanup_cases _ _ _ _ _ _ Hw Hr H) as Hcases.
  unfold resolve_begin_generation_cleanup in H. destruct (tr_cleanup_reason t) as [reason|]; [|done].
  unfold snapshot_of in H. simpl in H.
  destruct (live w name (thread_key (tr_identity t))) as [s|] eqn:Hl.
  - destruct (live_ok _ _ _ _ Hw Hl) as (Hs & _ & Hst & _).
    unfold selected_stream in H. rewrite Hst in H. simpl in H.
    destruct (so_disposition _ _ Hs) as [Hd|Hd]; rewrite Hd in H.
    + apply rbind_ok in H as (lost & _ & H). destruct reason; simpl in H; injection H as <-.
      * split; [done|]. destruct Hcases as [(_ & Hst' & _)|Hc]; [done|by right].
      * split; [done|]. by left.
    + injection H as <-. split; [done|]. left. split; [done|]. congruence.
  - destruct (selected_stream _ _ _) as [s|] eqn:Hsel;
      [by destruct (selected_live _ _ _ _ _ Hr Hsel) as [? _]; congruence|]. simpl in H.
    apply rbind_ok in H as (? & _ & H). injection H as <-. split; [done|]. by left.
Qed.

Lemma memory_begin_cleanup_law w t result w' :
  good w -> commit_messaging_transition t w = (Ok result, w') ->
  tr_kind t = BeginGenerationCleanup -> tr_run_reference t = None ->
  if rs_cleanup_required result
  then exists g, rs_cleanup_generation result = Some g /\
    memory_log w' (tr_channel t) (tr_identity t) = {| tl_generation := g; tl_state := Sealed |}
  else tr_cleanup_reason t = Some ReasonDeleted ->
    tl_state (memory_log w' (tr_channel t) (tr_identity t)) = Unopened.
Proof.
  intros [Hw Hv] Hc Hk Href. pattern result, w'. eapply wp_returned; [exact Hc|]. clear result w' Hc.
  apply wp_commit_steps; [done|]. intros w1 matching (Hw1 & _ & _ & _ & Hr1) _.
  destruct (resolve_messaging_transition _ _) as [effect|e] eqn:He; [|done].
  unfold resolve_messaging_transition, selected_generation, reference_generation in He.
  apply rbind_ok in He as (? & _ & He). rewrite Hk, Href in He. simpl in He.
  destruct (begin_cleanup_answer _ _ _ _ _ Hw1 Hr1 He) as [Hans [[Hi Hdel]|(s & Hl & Hd & Ha & Heff)]].
  - apply wp_apply_idle; [done..|]. destruct (live w1 _ _) as [s|] eqn:Hl.
    + destruct (rs_cleanup_required _); [|done]. rewrite Hans. exists (s_generation s). split; [done|].
      apply (live_sealed w1); [done..|]. by rewrite (Hdel s eq_refl eq_refl).
    + rewrite Hans. intros _. unfold memory_log, thread_log.
      change (live (utc_tick w1) (tr_channel t) (thread_key (tr_identity t))) with
        (live w1 (tr_channel t) (thread_key (tr_identity t))). by rewrite Hl.
  - rewrite Heff, Hl in *. apply (apply_seal (utc_tick w1) t (tr_channel t) s); [done..|].
    intros w2 (Hw2 & _) Hl2. exists (s_generation s). split; [done|].
    by apply (live_sealed w2 _ _ _ Hw2 Hl2).
Qed.

Lemma memory_finish_cleanup_law w t result w' g :
  good w -> commit_messaging_transition t w = (Ok result, w') ->
  tr_kind t = FinishGenerationCleanup -> tr_cleanup_generation t = Some g ->
  g < tl_generation (memory_log w' (tr_channel t) (tr_identity t)).
Proof.
  intros [Hw Hv] Hc Hk Hgen. pattern result, w'. eapply wp_returned; [exact Hc|]. clear result w' Hc.
  apply wp_commit_steps; [done|]. intros w1 matching (Hw1 & _ & _ & _ & Hr1) _.
  destruct (resolve_messaging_transition _ _) as [effect|e] eqn:He; [|done].
  unfold resolve_messaging_transition, selected_generation in He.
  apply rbind_ok in He as (? & _ & He). rewrite Hk in He. simpl in He.
  pose proof (finish_cleanup_cases w1 t (tr_channel t) matching effect Hw1 Hr1 He) as Hcases.
  unfold resolve_finish_generation_cleanup in He. rewrite Hgen in He.
  destruct (tr_cleanup_reason t) as [reason|]; [|done]. apply rbind_ok in He as (? & _ & He).
  unfold snapshot_of in He. simpl in He.
  destruct (selected_stream _ _ _) as [s|] eqn:Hsel; simpl in He.
  - destruct (selected_live _ _ _ _ _ Hr1 Hsel) as [Hl Hs]. specialize (Hs g eq_refl).
    destruct Hcases as [(_ & Hst & _)|(s' & Hl' & Hd & Heff)].
    + exfalso. destruct (live_ok _ _ _ _ Hw1 Hl) as (Hso & _).
      apply rbind_ok in He as (? & _ & He).
      destruct (so_disposition _ _ Hso) as [Hd|Hd]; rewrite Hd in He; destruct reason; simpl in He;
        inv_ok; done.
    + assert (s' = s) as -> by congruence. destruct (live_ok _ _ _ _ Hw1 Hl) as (_ & Hch & _).
      apply (wp_apply_finish (utc_tick w1) (tr_channel t) (tr_identity t) effect
        (set_disposition Deleted (stored_stream (tr_channel t) (tr_identity t) s)) ReasonDeleted s);
        [done..|by rewrite Heff|].
      intros w2 Hw2 _ _ _ _ Ht. rewrite Hl, Hs. exact (tombstone_passed w2 _ _ _ _ Hw2 Ht).
  - destruct (_ && _) eqn:Hb in He; [|done]. bool_prop. injection He as <-.
    apply wp_apply_idle; [done..|].
    destruct (dget (default [] _) g) as [r'|] eqn:Hd; [|done].
    destruct (snapshot_tombstone w1 (tr_channel t) (thread_key (tr_identity t)) g g r' Hr1) as [_ Ht'];
      [unfold tombstone_reason; by rewrite Hd|].
    pose proof (tombstone_passed w1 _ _ _ _ Hw1 Ht') as Hlt. by destruct (live w1 _ _).
Qed.

(** ** What is left of a generation *)

Definition memory_records_left w name identity (g : Z) : Z :=
  match live w name (thread_key identity) with
  | Some s => if s_generation s =? g then zlen (s_messages s) + zlen (s_runs s) else 0
  | None => 0
  end.

Lemma memory_records_nonneg w name identity g : 0 <= memory_records_left w name identity g.
Proof.
  unfold memory_records_left. destruct (live _ _ _) as [s|]; [|done].
  pose proof (zlen_nonneg (s_messages s)). pose proof (zlen_nonneg (s_runs s)).
  destruct (_ =? _); lia.
Qed.

Lemma memory_records_evolve w w' name identity g :
  good w -> msg_later w w' ->
  memory_log w name identity = {| tl_generation := g; tl_state := Sealed |} \/
    g < tl_generation (memory_log w name identity) ->
  memory_records_left w' name identity g <= memory_records_left w name identity g.
Proof.
  intros Hg Hlater Hlog. destruct (later_good _ _ Hlater Hg) as [Hg' Hf].
  pose proof (memory_records_nonneg w name identity g) as Hpos.
  unfold memory_records_left at 1. destruct (live w' name (thread_key identity)) as [s'|] eqn:Hl'; [|done].
  destruct (s_generation s' =? g) eqn:Hgen; [|done]. bool_prop.
  destruct (live_generation _ _ _ _ (proj1 Hg') Hl') as [_ Hgen'].
  pose proof (fw_generation _ _ Hf name (thread_key identity)) as Hle.
  destruct Hlog as [[= Hg1 Hst]|Hlt]; [|simpl in Hlt; lia].
  unfold memory_records_left. destruct (live w name (thread_key identity)) as [s|] eqn:Hl; [|done].
  destruct (live_generation _ _ _ _ (proj1 Hg) Hl) as [_ Hgs]. simpl in Hst.
  case_bool_decide as Hd; [done|]. rewrite (proj2 (Z.eqb_eq _ _)) by lia.
  destruct (fw_stream _ _ Hf _ _ _ Hl) as [(s2 & Hl2 & Hsf)|Hlt]; [|lia].
  assert (s2 = s') as -> by congruence. by apply (sf_records _ _ Hsf).
Qed.

Lemma memory_purge_law w p progress w' :
  good w -> purge_stream_generation p w = (Ok progress, w') -> complete progress = false ->
  memory_records_left w' (g_channel p) (g_identity p) (g_generation p) <
  memory_records_left w (g_channel p) (g_identity p) (g_generation p).
Proof.
  intros [Hw _] Hc. pattern progress, w'. eapply wp_returned; [exact Hc|]. clear progress w' Hc.
  apply wp_purge; [done|done|done|].
  intros s s' w' n Hl Hgen Hmax Hp -> Hlen Hcomplete. simpl in Hcomplete. bool_prop.
  unfold memory_records_left. rewrite Hl, (pu_live _ _ _ _ _ _ Hp), (pu_generation _ _ _ _ _ _ Hp).
  rewrite (proj2 (Z.eqb_eq _ _)) by done. lia.
Qed.

(** ** The instance *)

#[export] Instance memory_laws : BackendLaws World.
Proof.
  refine {| backend_ok := good; evolves := msg_later; log := memory_log; run_of := memory_run;
    evolves_preorder := _; load_law := memory_load_law; absent_law := memory_absent_law;
    read_law := memory_read_law; run_settles := memory_run_settles;
    begin_cleanup_law := memory_begin_cleanup_law;
    finish_cleanup_law := memory_finish_cleanup_law;
    records_left := memory_records_left; records_left_nonneg := memory_records_nonneg;
    records_left_evolves := memory_records_evolve; purge_law := memory_purge_law |}.
  - intros w w' Hg Hlater. by apply (later_good w w').
  - intros w q. by apply (msg_later_request w (Load q)).
  - intros w t H. by apply (msg_later_request w (Commit t)).
  - intros w q. by apply (msg_later_request w (Read q)).
  - intros w task wait. by apply (msg_later_request w (Wait task wait)).
  - intros w task. by apply (msg_later_request w (StopWaiting task)).
  - intros w g. by apply (msg_later_request w (Purge g)).
  - intros w w' name identity Hg H. destruct (later_good _ _ H Hg) as [Hg' Hf].
    apply follows_log; [apply Hg|apply Hg'|done].
Defined.
End memory.
