(* ===== verification/MsgTermination.v ===== *)
(** Messaging: the ledger's methods that do not wait for news return or raise,
    whatever the other tasks do in between. *)
From S2P Require Import Prelude PyDict PySeq MsgModels MsgTransition MsgMemory MsgInvariant.
From S2P Require Import Contracts.
From S2P Require Import MsgCleanup MsgSpec MsgLedger MsgBackend MsgFollow.
From ITree Require Import Core.ITreeDefinition.

Section ends.
Context {W : Type} `{Laws : BackendLaws W}.
Implicit Types (w : W) (name : pystr) (identity : RunIdentity).

(** [ends Q t w]: from [w], [t] stops after finitely many steps on every way the
    other tasks may leave it, and [Q] holds where it returns. *)
Inductive ends {A} (Q : A -> W -> Prop) : program A -> W -> Prop :=
| ends_ret t w a : observe t = RetF a -> Q a w -> ends Q t w
| ends_tau t w t' : observe t = TauF t' -> ends Q t' w -> ends Q t w
| ends_load t w q next : observe t = VisF (LoadState q) next ->
    (forall w1 x w', evolves w w1 -> load_state q w1 = (Ok x, w') -> ends Q (next x) w') ->
    ends Q t w
| ends_commit t w tr next : observe t = VisF (CommitTransition tr) next ->
    (forall w1 x w', evolves w w1 -> commit_transition tr w1 = (Ok x, w') -> ends Q (next x) w') ->
    ends Q t w
| ends_read t w q next : observe t = VisF (ReadMessages q) next ->
    (forall w1 x w', evolves w w1 -> read_messages q w1 = (Ok x, w') -> ends Q (next x) w') ->
    ends Q t w
| ends_purge t w g next : observe t = VisF (PurgeGeneration g) next ->
    (forall w1 x w', evolves w w1 -> purge_generation g w1 = (Ok x, w') -> ends Q (next x) w') ->
    ends Q t w
| ends_uuid t w next : observe t = VisF Uuid4 next -> (forall id, ends Q (next id) w) -> ends Q t w
| ends_throw t w e cause next : observe t = VisF (Throw e cause) next -> ends Q t w.

(** Enough steps stop it. *)
Lemma answer_stops {A X} (r : res msg_exn X * W) (next : X -> program A) task others uuid k out :
  (forall x w', r = (Ok x, w') -> exists n, (run task others uuid n k (next x) out w').2 <> Running) ->
  exists n, (match r with
             | (Ok x, w') => run task others uuid n k (next x) out w'
             | (Raise e, w') => (out, w', Raised e None)
             end).2 <> Running.
Proof. destruct r as [[x|e] w']; [by intros H1; apply H1|]. by exists 0%nat. Qed.

Lemma ends_sound {A} (Q : A -> W -> Prop) t w task others uuid k out :
  (forall k w, evolves w (others k w)) -> ends Q t w ->
  exists n, (run task others uuid n k t out w).2 <> Running.
Proof.
  intros Hothers Hends. revert k out.
  induction Hends as [t w a Ho|t w t' Ho _ IH|t w q next Ho _ IH|t w tr next Ho _ IH|t w q next Ho _ IH
    |t w g next Ho _ IH|t w next Ho _ IH|t w e cause next Ho]; intros k out.
  - exists 1%nat. simpl. by rewrite Ho.
  - destruct (IH k out) as [n Hn]. exists (S n). simpl. by rewrite Ho.
  - destruct (answer_stops (load_state q (others k w)) next task others uuid (S k) out) as [n Hn];
      [intros x w' Hx; eapply IH; [apply Hothers|exact Hx]|]. exists (S n). simpl. by rewrite Ho.
  - destruct (answer_stops (commit_transition tr (others k w)) next task others uuid (S k) out) as [n Hn];
      [intros x w' Hx; eapply IH; [apply Hothers|exact Hx]|]. exists (S n). simpl. by rewrite Ho.
  - destruct (answer_stops (read_messages q (others k w)) next task others uuid (S k) out) as [n Hn];
      [intros x w' Hx; eapply IH; [apply Hothers|exact Hx]|]. exists (S n). simpl. by rewrite Ho.
  - destruct (answer_stops (purge_generation g (others k w)) next task others uuid (S k) out) as [n Hn];
      [intros x w' Hx; eapply IH; [apply Hothers|exact Hx]|]. exists (S n). simpl. by rewrite Ho.
  - destruct (IH (uuid k) (S k) out) as [n Hn]. exists (S n). simpl. by rewrite Ho.
  - exists 1%nat. simpl. by rewrite Ho.
Qed.

(** ** Rules *)

Lemma ends_observe {A} (Q : A -> W -> Prop) t t' w : observe t = observe t' -> ends Q t w -> ends Q t' w.
Proof.
  intros E Hends. destruct Hends as [t w a Ho Hq|t w t1 Ho Hq|t w q next Ho Hq|t w tr next Ho Hq
    |t w q next Ho Hq|t w g next Ho Hq|t w next Ho Hq|t w e cause next Ho]; rewrite E in Ho.
  - by eapply ends_ret.
  - by eapply ends_tau.
  - by eapply ends_load.
  - by eapply ends_commit.
  - by eapply ends_read.
  - by eapply ends_purge.
  - by eapply ends_uuid.
  - by eapply ends_throw.
Qed.

Lemma ends_bind {A B} (Q : B -> W -> Prop) (t : program A) (f : A -> program B) w :
  ends (fun a w' => ends Q (f a) w') t w -> ends Q (ITree.bind t f) w.
Proof.
  pose proof (fun t => observe_bind t f) as Hbind.
  induction 1 as [t w a Ho Hq|t w t1 Ho _ IH|t w q next Ho _ IH|t w tr next Ho _ IH|t w q next Ho _ IH
    |t w g next Ho _ IH|t w next Ho _ IH|t w e cause next Ho]; specialize (Hbind t); rewrite Ho in Hbind.
  - by eapply ends_observe.
  - eapply ends_tau; [exact Hbind|done].
  - eapply ends_load; [exact Hbind|]. eauto.
  - eapply ends_commit; [exact Hbind|]. eauto.
  - eapply ends_read; [exact Hbind|]. eauto.
  - eapply ends_purge; [exact Hbind|]. eauto.
  - eapply ends_uuid; [exact Hbind|]. eauto.
  - by eapply ends_throw.
Qed.

Lemma ends_mono {A} (Q Q' : A -> W -> Prop) t w :
  ends Q t w -> (forall a w', Q a w' -> Q' a w') -> ends Q' t w.
Proof.
  intros Hends HQ.
  induction Hends as [t w a Ho Hq|t w t1 Ho _ IH|t w q next Ho _ IH|t w tr next Ho _ IH|t w q next Ho _ IH
    |t w g next Ho _ IH|t w next Ho _ IH|t w e cause next Ho].
  - eapply ends_ret; eauto.
  - eapply ends_tau; eauto.
  - eapply ends_load; eauto.
  - eapply ends_commit; eauto.
  - eapply ends_read; eauto.
  - eapply ends_purge; eauto.
  - eapply ends_uuid; eauto.
  - eapply ends_throw; eauto.
Qed.

(** A loop whose turns decrease a measure. *)
Lemma ends_forever {I A} (Inv : I -> W -> Prop) (measure : I -> W -> nat)
    (body : I -> program (I + A)) (Q : A -> W -> Prop) i w :
  (forall i w, Inv i w -> ends (fun r w' => match r with
     | inl i' => Inv i' w' /\ (measure i' w' < measure i w)%nat
     | inr a => Q a w'
     end) (body i) w) ->
  Inv i w -> ends Q (forever body i) w.
Proof.
  intros Hbody. remember (measure i w) as m eqn:Hm. revert i w Hm.
  induction m as [m IH] using lt_wf_ind. intros i w Hm Hi.
  eapply (ends_observe Q (ITree.bind (body i) (fun lr => match lr with
    | inl i' => Tau (forever body i') | inr a => Ret a end))); [done|].
  apply ends_bind. eapply ends_mono; [by apply Hbody|].
  intros [i'|a] w'; [|by apply ends_ret]. intros [Hi' Hlt].
  eapply ends_tau; [done|]. eapply IH; [|done|done]. lia.
Qed.

Lemma ends_call_load (Q : MessagingStateSnapshot -> W -> Prop) q w :
  backend_ok w ->
  (forall w1 x w', backend_ok w1 -> backend_ok w' -> evolves w w' -> load_state q w1 = (Ok x, w') -> Q x w') ->
  ends Q (call (LoadState q)) w.
Proof.
  intros Hok HQ. eapply ends_load; [done|]. intros w1 x w' H1 Hx.
  pose proof (load_evolves w1 q) as H2. rewrite Hx in H2.
  eapply ends_ret; [done|]. eapply HQ; [| | |exact Hx]; eauto using evolves_ok. by etrans.
Qed.

Lemma ends_call_commit (Q : MessagingTransitionResult -> W -> Prop) t w :
  backend_ok w -> admissible t ->
  (forall w1 x w', backend_ok w1 -> backend_ok w' -> evolves w w' ->
     commit_transition t w1 = (Ok x, w') -> Q x w') ->
  ends Q (call (CommitTransition t)) w.
Proof.
  intros Hok Ha HQ. eapply ends_commit; [done|]. intros w1 x w' H1 Hx.
  pose proof (commit_evolves w1 t Ha) as H2. rewrite Hx in H2.
  eapply ends_ret; [done|]. eapply HQ; [| | |exact Hx]; eauto using evolves_ok. by etrans.
Qed.

Lemma ends_call_read (Q : CommittedMessagePage -> W -> Prop) q w :
  backend_ok w ->
  (forall x w', backend_ok w' -> evolves w w' -> Q x w') -> ends Q (call (ReadMessages q)) w.
Proof.
  intros Hok HQ. eapply ends_read; [done|]. intros w1 x w' H1 Hx.
  pose proof (read_evolves w1 q) as H2. rewrite Hx in H2.
  eapply ends_ret; [done|]. apply HQ; [|by etrans]. eauto using evolves_ok.
Qed.

Lemma ends_call_purge (Q : StreamGenerationPurgeResult -> W -> Prop) g w :
  backend_ok w ->
  (forall w1 x w', backend_ok w1 -> backend_ok w' -> evolves w w1 -> evolves w1 w' ->
     purge_generation g w1 = (Ok x, w') -> Q x w') ->
  ends Q (call (PurgeGeneration g)) w.
Proof.
  intros Hok HQ. eapply ends_purge; [done|]. intros w1 x w' H1 Hx.
  pose proof (purge_evolves w1 g) as H2. rewrite Hx in H2.
  eapply ends_ret; [done|]. eapply HQ; [| |exact H1|done|exact Hx]; eauto using evolves_ok.
Qed.

(** ** Programs that always end *)

Definition terminates {A} (t : program A) : Prop :=
  forall w, backend_ok w -> ends (fun _ w' => backend_ok w') t w.

Lemma terminates_bind {A B} (t : program A) (f : A -> program B) :
  terminates t -> (forall a, terminates (f a)) -> terminates (ITree.bind t f).
Proof. intros Ht Hf w Hok. apply ends_bind. eapply ends_mono; [by apply Ht|]. intros a w'. apply Hf. Qed.

Lemma terminates_load q : terminates (call (LoadState q)).
Proof. intros w Hok. by apply ends_call_load. Qed.

Lemma terminates_commit t : admissible t -> terminates (call (CommitTransition t)).
Proof. intros Ha w Hok. by apply ends_call_commit. Qed.

Lemma terminates_read q : terminates (call (ReadMessages q)).
Proof. intros w Hok. by apply ends_call_read. Qed.

Lemma terminates_uuid : terminates (call Uuid4).
Proof. intros w Hok. eapply ends_uuid; [done|]. intros id. by eapply ends_ret. Qed.

Lemma terminates_done {A} (a : A) : terminates (done a).
Proof. intros w Hok. by eapply ends_ret. Qed.

Lemma terminates_throw {A} e : terminates (throw e : program A).
Proof. intros w Hok. by eapply ends_throw. Qed.

Lemma terminates_try {A} (r : res msg_exn A) : terminates (try r).
Proof. destruct r; [apply terminates_done|apply terminates_throw]. Qed.

Lemma terminates_required {A} (o : option A) e : terminates (required o e).
Proof. destruct o; [apply terminates_done|apply terminates_throw]. Qed.
End ends.

Create HintDb terminates.
#[export] Hint Resolve terminates_load terminates_read terminates_uuid terminates_done terminates_throw
  terminates_try terminates_required : terminates.

(** Decomposes a program without loops. *)
Ltac terminates_go :=
  repeat match goal with
  | |- forall _, _ => intros ?
  | |- terminates (ITree.bind _ _) => apply terminates_bind
  | |- terminates (match ?x with _ => _ end) => destruct x
  | |- terminates (let _ := _ in _) => cbv zeta
  | |- terminates (call (CommitTransition _)) => apply terminates_commit
  | |- terminates _ => solve [eauto with terminates]
  end.

Section methods.
Context {W : Type} `{Laws : BackendLaws W} (settings : MessagingBackendSettings).
Implicit Types (w : W) (name : pystr) (identity : RunIdentity) (g : Z).

(** A generation that is sealed, or gone. *)
Definition closed w name identity g : Prop :=
  log w name identity = {| tl_generation := g; tl_state := Sealed |} \/
  g < tl_generation (log w name identity).

Lemma closed_evolves w w' name identity g :
  backend_ok w -> evolves w w' -> closed w name identity g -> closed w' name identity g.
Proof.
  intros Hok Hw Hc. pose proof (log_steps_le _ _ (log_evolves _ _ name identity Hok Hw)) as Hle.
  destruct Hc as [Hs|Hlt]; [|right; destruct Hle as [H1|[H1 _]]; lia].
  rewrite Hs in Hle. destruct Hle as [H1|[H1 H2]]; [by right|]. left.
  destruct (log w' name identity) as [g' st]. simpl in *. subst. by destruct st.
Qed.

(** Each batch but the last removes something, and nobody adds to a sealed
    generation. *)
Lemma ends_purge_loop name identity g token w :
  backend_ok w -> closed w name identity g ->
  ends (fun _ w' => backend_ok w')
    (forever (fun _ : unit =>
      let! progress := call (PurgeGeneration
        {| g_channel := name; g_identity := identity; g_generation := g;
           g_maximum_records := 64; g_cleanup_token := token |}) in
      done (if complete progress then inr tt else inl tt)) tt) w.
Proof.
  intros Hok Hc.
  apply (ends_forever (fun _ w => backend_ok w /\ closed w name identity g)
    (fun _ w => Z.to_nat (records_left w name identity g))); [|done].
  clear w Hok Hc. intros _ w [Hok Hc]. apply ends_bind, ends_call_purge; [done|].
  intros w1 progress w' Hok1 Hok' Hw1 Hw' Hp. eapply ends_ret; [done|].
  destruct (complete progress) eqn:Hcomplete; [done|].
  pose proof (purge_law _ _ _ _ Hok1 Hp Hcomplete) as Hlt. simpl in Hlt.
  pose proof (records_left_evolves _ _ name identity g Hok Hw1 Hc) as Hle.
  pose proof (records_left_nonneg w' name identity g). split; [|lia]. split; [done|].
  eapply closed_evolves; [exact Hok1|exact Hw'|]. exact (closed_evolves _ _ _ _ _ Hok Hw1 Hc).
Qed.

Lemma terminates_cleanup name identity reason : terminates (cleanup_generation settings name identity reason).
Proof.
  intros w Hok. unfold cleanup_generation. apply ends_bind. eapply ends_uuid; [done|]. intros begin_id.
  eapply ends_ret; [done|]. apply ends_bind, ends_call_commit; [done|done|].
  intros w1 begin w2 Hok1 Hok2 Hw2 Hc.
  pose proof (begin_cleanup_law _ _ _ _ Hok1 Hc eq_refl eq_refl) as Hbegin. simpl in Hbegin.
  destruct (rs_cleanup_required begin); simpl; [|by eapply ends_ret].
  destruct Hbegin as (g & -> & Hlog). apply ends_bind. eapply ends_ret; [done|].
  apply ends_bind. destruct (rs_cleanup_reason begin) as [reason'|]; [|by eapply ends_throw].
  eapply ends_ret; [done|]. cbv zeta. apply ends_bind.
  eapply ends_mono; [apply ends_purge_loop; [done|by left]|]. intros [] w3 Hok3.
  apply (terminates_bind (call Uuid4) _ terminates_uuid); [|done]. intros finish_id.
  apply terminates_bind; [by apply terminates_commit|]. intros ?. apply terminates_done.
Qed.
#[local] Hint Resolve terminates_cleanup : terminates.

Ltac terminates_method :=
  unfold admissible; terminates_go; try (intros _; reflexivity); try (intros [=]).

Lemma terminates_load_current name identity b : terminates (load_current_state settings name identity b).
Proof. unfold load_current_state. terminates_method. Qed.
#[local] Hint Resolve terminates_load_current : terminates.

Lemma terminates_load_bound handle : terminates (load_bound_state handle).
Proof. unfold load_bound_state. terminates_method. Qed.
#[local] Hint Resolve terminates_load_bound : terminates.

Lemma terminates_load_checked name identity : terminates (load_checked settings name identity).
Proof. unfold load_checked. terminates_method. Qed.
#[local] Hint Resolve terminates_load_checked : terminates.

Lemma terminates_resolve handle : terminates (resolve_handle_generation settings handle).
Proof. unfold resolve_handle_generation. terminates_method. Qed.
#[local] Hint Resolve terminates_resolve : terminates.

(** The methods whose purpose is to wait. *)
Definition waits {A} (m : method A) : bool :=
  match m with Follow _ _ | WaitForCancel _ | WaitFinished _ => true | _ => false end.

Lemma terminates_program {A} (m : method A) : waits m = false -> terminates (program_of settings m).
Proof.
  destruct m; simpl; intros Hm; try discriminate Hm; unfold prepare, append, publish, begin_settlement,
    finish, renew, request_cancel, latest_seq, get_run_status, read, bind_replay, bind_follow, failure,
    delete_stream; terminates_method.
Qed.
End methods.
