(* ===== verification/MsgLedgerProps.v ===== *)
(** Messaging: the theorems about the ledger - on any backend that keeps the laws of
    [BackendLaws], which MemoryBackend does ([memory_laws]), and among any requests
    of other tasks. *)
From S2P Require Import Prelude PyDict PySeq MsgModels MsgTransition MsgMemory MsgInvariant.
From S2P Require Import Contracts.
From S2P Require Import MsgCleanup MsgOps MsgSpec MsgExample MsgProps MsgLedger MsgBackend MsgFollow.
From S2P Require Import MsgMemoryBackend MsgTermination.

Section ledger.
Context {W : Type} `{Laws : BackendLaws W}.
Implicit Types (w : W) (settings : MessagingBackendSettings) (task : nat) (others : nat -> W -> W)
  (uuid : nat -> pystr).

(** C12: A follower is handed the log, each message once.  Whatever other tasks do while it
    reads, waits and hands out, what [follow] has handed out is the log of one
    generation from its cursor on, in order and without a gap, as it was at some
    moment; it returns only for a run that has ended well, and raises
    [RunProducerFailed] with the stored failure only for one that has not, and then
    everything up to the run's end has been handed out. *)
Theorem follower_gets_the_log settings task others uuid n handle after w out w' o :
  backend_ok w -> (forall k w, evolves w (others k w)) ->
  run task others uuid n 0 (follow settings handle after) [] w = (out, w', o) ->
  exists g, match h_generation handle with Some g0 => g = g0 | None => True end /\ evolves w w' /\
    match o with
    | Returned _ => handed_all w w' (h_channel handle) (h_identity handle) g after out None
    | Raised RunProducerFailed (Some f) =>
        handed_all w w' (h_channel handle) (h_identity handle) g after out (Some f)
    | _ => handed_out w w' (h_channel handle) (h_identity handle) g after out
    end.
Proof.
  intros Hok Hothers Hr.
  pose proof (run_sound task others uuid _ n 0 _ _ _ Hothers (lwp_follow settings n handle after w Hok))
    as Hrun.
  rewrite Hr in Hrun. destruct Hrun as (g & [Hw Hp] & Hg).
  exists g. split_and!; [done|done|]. exact Hp.
Qed.

(** A run that was waited for has ended for good.  When [wait_finished] returns a
    status, it is a final one, and as long as the generation is readable the run's
    record stays the one that had it. *)
Theorem finished_run_stays_finished settings task others uuid n handle w out w' status :
  backend_ok w -> (forall k w, evolves w (others k w)) ->
  run task others uuid n 0 (wait_finished settings handle) [] w = (out, w', Returned status) ->
  is_final_run_status status = true /\
  exists g r, sr_status r = status /\
    match h_generation handle with Some g0 => g = g0 | None => True end /\
    forall w2 l, evolves w' w2 ->
      log w2 (h_channel handle) (h_identity handle) = {| tl_generation := g; tl_state := Readable l |} ->
      run_of w2 (h_channel handle) (h_identity handle) = Some r.
Proof.
  intros Hok Hothers Hr.
  pose proof (run_sound task others uuid _ n 0 _ _ _ Hothers
    (lwp_await settings (fun status => if is_final_run_status status then Some status else None)
       n handle w [] Hok)) as Hrun.
  unfold wait_finished in Hr. rewrite Hr in Hrun.
  destruct Hrun as (Hw & g & (l & w1 & r & (H1 & H2 & Hl) & Hrun & Hans) & Hg).
  destruct (is_final_run_status (sr_status r)) eqn:Hfin; [|done]. injection Hans as <-.
  split; [done|]. exists g, r. split_and!; [done|done|]. intros w2 l2 Hw2 Hl2.
  eapply (run_settles w1 w2); [by eapply evolves_ok| |exact Hrun|exact Hfin|exact Hl|exact Hl2].
  by etrans.
Qed.

(** Deleting ends a generation.  When [delete_stream] returns, the generation that was
    readable when it was called is over - sealed, purged and buried by this call or
    by another task - and the thread has moved on to a later one. *)
Theorem deleted_generation_is_over settings task others uuid n name identity w g l out w' :
  backend_ok w -> (forall k w, evolves w (others k w)) ->
  log w name identity = {| tl_generation := g; tl_state := Readable l |} ->
  run task others uuid n 0 (delete_stream settings name identity) [] w = (out, w', Returned tt) ->
  g < tl_generation (log w' name identity).
Proof.
  intros Hok Hothers Hl Hr.
  pose proof (run_sound task others uuid _ n 0 _ _ _ Hothers (lwp_delete settings n name identity w [] Hok))
    as Hrun.
  rewrite Hr in Hrun. destruct Hrun as [Hw (w1 & H1 & H2 & Hend)]. by eapply readable_left.
Qed.

(** C34: Whatever does not wait for news ends.  Every method of the ledger but [follow],
    [wait_for_cancel] and [wait_finished] returns or raises after finitely many
    steps, whatever the other tasks do between them; purging a generation in batches
    cannot be kept going by anybody. *)
Theorem methods_end {A} settings task others uuid (m : method A) w :
  backend_ok w -> (forall k w, evolves w (others k w)) -> waits m = false ->
  exists n, (run task others uuid n 0 (program_of settings m) [] w).2 <> Running.
Proof.
  intros Hok Hothers Hm. eapply ends_sound; [done|]. by apply terminates_program.
Qed.
End ledger.

Section memory.
Context {sha256 : Sha256} {env : MessagingEnv} {keys : ThreadKeys} {clock : MonotonicClock}.

(** The ledger asks for nothing that could break the backend.  Any number of steps of
    any of its methods, with any arguments and among any admissible requests of other
    tasks, takes a reachable state of MemoryBackend to a reachable one, so all that
    holds of reachable states holds under the ledger. *)
Theorem ledger_keeps_the_backend {A} limits policy settings task others uuid n (m : method A) (w : World) :
  msg_reachable limits policy w -> (forall k w, msg_later w (others k w)) ->
  msg_reachable limits policy (run task others uuid n 0 (program_of settings m) [] w).1.2.
Proof.
  intros Hr Hothers. pose proof (reachable_good _ _ _ Hr) as Hg.
  pose proof (run_sound task others uuid _ n 0 _ _ _ Hothers (lwp_method settings n m w Hg)) as Hrun.
  destruct (run _ _ _ _ _ _ _ _) as [[out w'] o]. destruct Hr as [Hl Hw].
  split; [done|]. by transitivity w.
Qed.
End memory.

(** ** Instances *)

(** Another task appends while the reader is busy, and finishes the run later. *)
Definition demo_others (k : nat) : World -> World :=
  match k with
  | 1%nat => perform (Commit demo_append)
  | 4%nat => perform (Commit demo_finish)
  | _ => fun w => w
  end.

Lemma demo_others_ok k w : msg_later w (demo_others k w).
Proof.
  destruct k as [|[|[|[|[|k]]]]]; try (by constructor).
  - apply (msg_later_request w (Commit demo_append)). intros H. vm_compute in H. discriminate H.
  - apply (msg_later_request w (Commit demo_finish)). intros H. vm_compute in H. discriminate H.
Qed.

Definition demo_settings : MessagingBackendSettings :=
  messaging_settings (new_backend demo_limits demo_policy).

Definition demo_uuid (k : nat) : pystr := [100; 48 + Z.of_nat k].

(** A hundred steps of [t] among the others. *)
Abbreviation demo_run_on t w := (run 7 demo_others demo_uuid 100 0 t [] w).

Definition demo_reader : BackendRunHandle := observer demo_channel (demo_run r1) 1.

Definition demo_running : World := demo_world [Commit demo_prepare].

Lemma demo_good l : Forall allowed l -> good (demo_world l).
Proof. intros H. eapply reachable_good. by apply demo_world_reachable. Qed.

(** The follower gets the message committed while it reads, and returns. *)
Lemma follower_gets_the_log_witness :
  exists out w', demo_run_on (follow demo_settings demo_reader 0) demo_running = (out, w', Returned tt) /\
    map e_seq out = [1] /\ handed_all demo_running w' demo_channel (demo_run r1) 1 0 out None.
Proof.
  assert (let r := demo_run_on (follow demo_settings demo_reader 0) demo_running in
    map e_seq r.1.1 = [1] /\ r.2 = Returned tt) as H12 by (vm_compute; split; reflexivity).
  destruct (demo_run_on (follow demo_settings demo_reader 0) demo_running) as [[out w'] o] eqn:Hr.
  destruct H12 as [H1 H2]. simpl in H1, H2. subst o. exists out, w'.
  split; [reflexivity|split; [exact H1|]].
  destruct (follower_gets_the_log demo_settings 7 demo_others demo_uuid 100 demo_reader 0 demo_running
    out w' (Returned tt)) as (g & Hg & _ & Hall).
  - apply demo_good. demo_allowed.
  - exact demo_others_ok.
  - exact Hr.
  - simpl in Hg. subst g. exact Hall.
Defined.

Lemma finished_run_stays_finished_witness :
  exists out w', demo_run_on (wait_finished demo_settings demo_reader) demo_running =
      (out, w', Returned Completed) /\ is_final_run_status Completed = true /\
    exists r, sr_status r = Completed /\
      forall w2 l, msg_later w' w2 ->
        memory_log w2 demo_channel (demo_run r1) = {| tl_generation := 1; tl_state := Readable l |} ->
        memory_run w2 demo_channel (demo_run r1) = Some r.
Proof.
  assert ((demo_run_on (wait_finished demo_settings demo_reader) demo_running).2 = Returned Completed)
    as H2 by (vm_compute; reflexivity).
  destruct (demo_run_on (wait_finished demo_settings demo_reader) demo_running) as [[out w'] o] eqn:Hr.
  simpl in H2. subst o. exists out, w'.
  destruct (finished_run_stays_finished demo_settings 7 demo_others demo_uuid 100 demo_reader demo_running
    out w' Completed) as (H3 & g & rr & H4 & H5 & H6).
  - apply demo_good. demo_allowed.
  - exact demo_others_ok.
  - exact Hr.
  - split; [reflexivity|]. split; [exact H3|]. exists rr. split; [exact H4|]. simpl in H5. subst g. exact H6.
Defined.

Abbreviation demo_delete :=
  (run 7 (fun _ w => w) demo_uuid 100 0 (delete_stream demo_settings demo_channel (demo_run r1)) []
    (demo_world demo_settled)).

Lemma deleted_generation_is_over_witness :
  exists out w', demo_delete = (out, w', Returned tt) /\
    1 < tl_generation (memory_log w' demo_channel (demo_run r1)).
Proof.
  assert (demo_delete.2 = Returned tt) as H2 by (vm_compute; reflexivity).
  destruct demo_delete as [[out w'] o] eqn:Hr. simpl in H2. subst o. exists out, w'. split; [reflexivity|].
  apply (deleted_generation_is_over (Laws := memory_laws) demo_settings 7 (fun _ w => w) demo_uuid 100 demo_channel (demo_run r1)
    (demo_world demo_settled) 1 (s_messages (demo_stream (demo_world demo_settled))) out w').
  - apply demo_good. demo_allowed.
  - intros k w. constructor.
  - vm_compute. reflexivity.
  - exact Hr.
Defined.

Lemma methods_end_witness :
  exists n, (run 7 demo_others demo_uuid n 0
    (program_of demo_settings (DeleteStream demo_channel (demo_run r1))) [] demo_running).2 <> Running.
Proof.
  apply methods_end.
  - apply demo_good. demo_allowed.
  - exact demo_others_ok.
  - reflexivity.
Defined.

Lemma ledger_keeps_the_backend_witness :
  let w' := (run 7 demo_others demo_uuid 100 0 (program_of demo_settings (Follow demo_reader 0)) []
    demo_running).1.2 in
  msg_reachable demo_limits demo_policy w' /\ m_total_bytes (mem w') = 3.
Proof.
  intros w'. split; [|vm_compute; reflexivity].
  apply (ledger_keeps_the_backend demo_limits demo_policy demo_settings 7 demo_others demo_uuid 100).
  - apply demo_world_reachable. demo_allowed.
  - exact demo_others_ok.
Defined.
