(* ===== verification/TraceModels.v ===== *)
(** Tracing: the data of facts.py, limits.py, graph.py, capture.py, errors.py, store.py
    and backend.py - captured values, the fourteen kinds of semantic facts with the
    checks of their constructors, events, capacity limits, and what a ledger backend
    stores, is asked for and answers.

    Instants are integers of microseconds.  A pydantic model is a record, its
    validators a boolean function [<Class>_valid]; [model_copy] and
    [model_construct] bypass the validators, so no function assumes them. *)
From S2P Require Import Prelude PyDict PySeq Contracts.
From Stdlib Require Import Strings.String.

(** ** Exceptions (errors.py) *)

Inductive trace_exn : Type :=
| TraceThreadNotFound
| TraceRunConflict
| TraceStoreProtocolError
| TraceQuotaExceeded
| TraceProjectionCheckpointConflict
| TraceKeyError
| TraceIndexError
| TraceTypeError
| TraceValueError
| TraceOverflowError
| TraceRuntimeError.

#[export] Instance trace_exn_eq : EqDecision trace_exn.
Proof. solve_decision. Defined.

(** ** Captured values (capture.py) *)

Inductive Disposition : Type := Inline | Omitted.

#[export] Instance disposition_eq : EqDecision Disposition.
Proof. solve_decision. Defined.

Record CapturedValue : Type := {
  cv_disposition : Disposition;
  cv_safe_size_bytes : Z;
  cv_value : option JsonValue;
  cv_reason : option pystr
}.

#[export] Instance captured_eq : EqDecision CapturedValue.
Proof. solve_decision. Defined.

Definition absent {A} (o : option A) : bool := match o with None => true | Some _ => false end.

(** A field [str | None = Field(min_length=1, max_length=maximum)]. *)
Definition optional_text (maximum : Z) (o : option pystr) : bool :=
  match o with None => true | Some s => bounded_text maximum s end.

(** ** The common fields of facts (facts.py, contracts) *)

Record ObservationClock : Type := {
  oc_namespace : pystr;
  oc_thread_id : pystr;
  oc_run_id : pystr;
  oc_sequence : Z;
  oc_observed_at : Z;
  oc_monotonic_ns : Z
}.

#[export] Instance clock_eq : EqDecision ObservationClock.
Proof. solve_decision. Defined.

Record TraceFactBase : Type := {
  b_source_observation_id : pystr;
  b_identity : RunIdentity;
  b_source_clock : option ObservationClock;
  b_graph_namespace : list pystr;
  b_parent_subagent_id : option pystr;
  b_occurred_at : Z;
  b_monotonic_ns : Z
}.

#[export] Instance base_eq : EqDecision TraceFactBase.
Proof. solve_decision. Defined.

Definition TraceFactBase_valid (b : TraceFactBase) : bool :=
  bounded_text 1024 (b_source_observation_id b) && RunIdentity_valid (b_identity b) &&
  optional_text 2048 (b_parent_subagent_id b) && (0 <=? b_monotonic_ns b).

(** ** Turns and runs *)

Record TurnFact : Type := {
  tf_turn_id : pystr;
  tf_user_message_id : option pystr;
  tf_parent_run_id : option pystr
}.

#[export] Instance turn_eq : EqDecision TurnFact.
Proof. solve_decision. Defined.

Definition TurnFact_valid (f : TurnFact) : bool :=
  bounded_text 2048 (tf_turn_id f) && optional_text 1024 (tf_user_message_id f) &&
  optional_text 1024 (tf_parent_run_id f).

Inductive RunFactPhase : Type :=
| RunStarted | RunPreparing | RunRunning | RunInput | RunResumed | RunResumeCheckpointed
| RunObserverFailed | RunTerminal | RunClosed.

#[export] Instance run_phase_eq : EqDecision RunFactPhase.
Proof. solve_decision. Defined.

Inductive RunInputKind : Type :=
| InputOrdinary | InputBranch | InputContinuation | InputResume | InputAbandon | InputCompaction.

#[export] Instance input_kind_eq : EqDecision RunInputKind.
Proof. solve_decision. Defined.

Inductive RunTerminalOutcome : Type :=
| OutcomeSucceeded | OutcomeInterrupted | OutcomeFailed | OutcomeCancelled | OutcomeAbandoned.

#[export] Instance run_outcome_eq : EqDecision RunTerminalOutcome.
Proof. solve_decision. Defined.

Record RunFact : Type := {
  rf_phase : RunFactPhase;
  rf_input_kind : option RunInputKind;
  rf_parent_run_id : option pystr;
  rf_outcome : option RunTerminalOutcome;
  rf_code : option pystr;
  rf_error_type : option pystr;
  rf_observer_name : option pystr;
  rf_interrupt_ids : list pystr;
  rf_input : option CapturedValue;
  rf_config : option CapturedValue;
  rf_failure_origin : bool
}.

#[export] Instance run_fact_eq : EqDecision RunFact.
Proof. solve_decision. Defined.

Definition among {A} `{EqDecision A} (l : list A) (o : option A) : bool :=
  match o with None => false | Some a => bool_decide (a ∈ l) end.

(** [phase_fields_are_consistent]; the base is the fact's own. *)
Definition RunFact_valid (b : TraceFactBase) (f : RunFact) : bool :=
  let phase := rf_phase f in
  bool_decide (b_graph_namespace b = []) && absent (b_parent_subagent_id b) &&
  negb (bool_decide (phase = RunStarted) && absent (rf_input_kind f)) &&
  negb (bool_decide (phase = RunInput) &&
        negb (among [InputOrdinary; InputBranch; InputCompaction] (rf_input_kind f))) &&
  negb (bool_decide (phase = RunResumed) &&
        negb (among [InputContinuation; InputResume; InputAbandon] (rf_input_kind f))) &&
  negb (bool_decide (phase ∈ [RunInput; RunResumed]) &&
        (absent (rf_input f) || absent (rf_config f))) &&
  negb (bool_decide (rf_input_kind f = Some InputBranch) && absent (rf_parent_run_id f)) &&
  negb (bool_decide (phase = RunResumeCheckpointed) && bool_decide (rf_interrupt_ids f = [])) &&
  (bool_decide (rf_interrupt_ids f = []) ||
   bool_decide (phase ∈ [RunResumed; RunResumeCheckpointed])) &&
  negb (bool_decide (phase = RunObserverFailed) &&
        (absent (rf_observer_name f) || absent (rf_error_type f))) &&
  negb (bool_decide (phase ∈ [RunTerminal; RunClosed]) && absent (rf_outcome f)) &&
  (negb (rf_failure_origin f) ||
   (bool_decide (phase = RunTerminal) && bool_decide (rf_outcome f = Some OutcomeFailed) &&
    negb (absent (rf_error_type f)))) &&
  optional_text 1024 (rf_parent_run_id f) && optional_text 1024 (rf_code f) &&
  optional_text 1024 (rf_error_type f) && optional_text 1024 (rf_observer_name f).

(** ** Messages and reasoning *)

Inductive MessagePhase : Type :=
| MsgSubmitted | MsgStarted | MsgContent | MsgCompleted | MsgReconciled | MsgRemoved
| MsgCancelled | MsgInterrupted | MsgAbandoned.

#[export] Instance message_phase_eq : EqDecision MessagePhase.
Proof. solve_decision. Defined.

Inductive MessageRole : Type :=
| RoleUser | RoleAssistant | RoleTool | RoleSystem | RoleOther.

#[export] Instance role_eq : EqDecision MessageRole.
Proof. solve_decision. Defined.

Inductive MessageSourceKind : Type := SourceUser | SourceContext.

#[export] Instance source_kind_eq : EqDecision MessageSourceKind.
Proof. solve_decision. Defined.

Record MessageSource : Type := {
  ms_kind : MessageSourceKind;
  ms_name : option pystr;
  ms_metadata : JsonObject
}.

#[export] Instance source_eq : EqDecision MessageSource.
Proof. solve_decision. Defined.

Record MessageFact : Type := {
  mf_phase : MessagePhase;
  mf_message_id : pystr;
  mf_source_message_id : option pystr;
  mf_source : option MessageSource;
  mf_role : MessageRole;
  mf_content : option CapturedValue;
  mf_fingerprint : option pystr;
  mf_from_state_snapshot : bool;
  mf_name : option pystr;
  mf_tool_call_id : option pystr
}.

#[export] Instance message_fact_eq : EqDecision MessageFact.
Proof. solve_decision. Defined.

Definition MessageFact_valid (b : TraceFactBase) (f : MessageFact) : bool :=
  let phase := mf_phase f in
  negb (bool_decide (phase = MsgSubmitted) &&
        (negb (bool_decide (mf_role f = RoleUser)) ||
         negb (bool_decide (b_graph_namespace b = [])) ||
         negb (absent (b_parent_subagent_id b)) || mf_from_state_snapshot f)) &&
  negb (bool_decide (phase ∈ [MsgCancelled; MsgInterrupted; MsgAbandoned]) &&
        (negb (bool_decide (mf_role f = RoleAssistant)) || mf_from_state_snapshot f)) &&
  negb (bool_decide (phase ∈ [MsgSubmitted; MsgContent; MsgReconciled]) &&
        absent (mf_content f) &&
        negb (bool_decide (phase = MsgReconciled) && bool_decide (mf_role f = RoleTool) &&
              negb (absent (mf_tool_call_id f)))) &&
  bounded_text 2048 (mf_message_id f) && optional_text 1024 (mf_source_message_id f) &&
  match mf_fingerprint f with None => true | Some s => zlen s =? 64 end &&
  optional_text 1024 (mf_name f) && optional_text 1024 (mf_tool_call_id f).

Inductive ReasoningPhase : Type := ReasonContent | ReasonReconciled | ReasonCompleted.

#[export] Instance reasoning_phase_eq : EqDecision ReasoningPhase.
Proof. solve_decision. Defined.

Record ReasoningFact : Type := {
  rs_phase : ReasoningPhase;
  rs_reasoning_id : pystr;
  rs_message_id : pystr;
  rs_source_message_id : pystr;
  rs_extractor : pystr;
  rs_content : option CapturedValue
}.

#[export] Instance reasoning_fact_eq : EqDecision ReasoningFact.
Proof. solve_decision. Defined.

Definition ReasoningFact_valid (f : ReasoningFact) : bool :=
  negb (bool_decide (rs_phase f ∈ [ReasonContent; ReasonReconciled]) && absent (rs_content f)) &&
  negb (bool_decide (rs_phase f = ReasonCompleted) && negb (absent (rs_content f))) &&
  bounded_text 2048 (rs_reasoning_id f) && bounded_text 2048 (rs_message_id f) &&
  bounded_text 1024 (rs_source_message_id f) && bounded_text 1024 (rs_extractor f).

(** ** Tools, state and interactions *)

Inductive ToolPhase : Type :=
| ToolStarted | ToolArguments | ToolCompleted | ToolResult | ToolCancelled | ToolAbandoned.

#[export] Instance tool_phase_eq : EqDecision ToolPhase.
Proof. solve_decision. Defined.

Inductive ResultStatus : Type := ResultSuccess | ResultError.

#[export] Instance result_status_eq : EqDecision ResultStatus.
Proof. solve_decision. Defined.

Record ToolFact : Type := {
  tl_phase : ToolPhase;
  tl_tool_call_id : pystr;
  tl_source_tool_call_id : pystr;
  tl_parent_call_id : option pystr;
  tl_tool_name : pystr;
  tl_content : option CapturedValue;
  tl_result_status : option ResultStatus;
  tl_failure_origin : bool
}.

#[export] Instance tool_fact_eq : EqDecision ToolFact.
Proof. solve_decision. Defined.

Definition ToolFact_valid (f : ToolFact) : bool :=
  let result := bool_decide (tl_phase f = ToolResult) in
  negb (result && (absent (tl_content f) || absent (tl_result_status f))) &&
  (result || absent (tl_result_status f)) &&
  (negb (tl_failure_origin f) ||
   (result && bool_decide (tl_result_status f = Some ResultError))) &&
  bounded_text 2048 (tl_tool_call_id f) && bounded_text 1024 (tl_source_tool_call_id f) &&
  optional_text 2048 (tl_parent_call_id f) && bounded_text 1024 (tl_tool_name f).

Record StateRevisionFact : Type := {
  sv_revision_id : pystr;
  sv_changes : CapturedValue;
  sv_removed_keys : list pystr
}.

#[export] Instance state_revision_eq : EqDecision StateRevisionFact.
Proof. solve_decision. Defined.

Inductive InteractionPhase : Type := Opened | Resolved.

#[export] Instance interaction_phase_eq : EqDecision InteractionPhase.
Proof. solve_decision. Defined.

Inductive InteractionStatus : Type := InteractionPending | InteractionResolved | InteractionCancelled.

#[export] Instance interaction_status_eq : EqDecision InteractionStatus.
Proof. solve_decision. Defined.

Record InteractionFact : Type := {
  nf_phase : InteractionPhase;
  nf_interaction_id : pystr;
  nf_source_interaction_id : pystr;
  nf_interaction_kind : pystr;
  nf_tool_call_ids : list pystr;
  nf_status : InteractionStatus;
  nf_payload : option CapturedValue
}.

#[export] Instance interaction_fact_eq : EqDecision InteractionFact.
Proof. solve_decision. Defined.

(** Unique strings that are their own [strip] and not empty. *)
Definition canonical_ids (ids : list pystr) : bool :=
  forallb (fun s => negb (bool_decide (s = [])) && bool_decide (strip s = s)) ids &&
  bool_decide (NoDup ids).

Definition InteractionFact_valid (f : InteractionFact) : bool :=
  let pending := bool_decide (nf_status f = InteractionPending) in
  negb (bool_decide (nf_phase f = Opened) && negb pending) &&
  negb (bool_decide (nf_phase f = Resolved) && pending) &&
  canonical_ids (nf_tool_call_ids f) && bounded_text 2048 (nf_interaction_id f) &&
  bounded_text 1024 (nf_source_interaction_id f) && bounded_text 1024 (nf_interaction_kind f).

(** ** Subagents and plans *)

Inductive SubagentPhase : Type := SubStarted | SubUpdated | SubCompleted.

#[export] Instance subagent_phase_eq : EqDecision SubagentPhase.
Proof. solve_decision. Defined.

Inductive SubagentStatus : Type :=
| SubRunning | SubWaiting | SubSucceeded | SubFailed | SubCancelled | SubAbandoned.

#[export] Instance subagent_status_eq : EqDecision SubagentStatus.
Proof. solve_decision. Defined.

Record SubagentFact : Type := {
  sf_phase : SubagentPhase;
  sf_subagent_id : pystr;
  sf_agent_name : option pystr;
  sf_parent_tool_call_id : option pystr;
  sf_parent_execution_id : option pystr;
  sf_model_call_id : option pystr;
  sf_input : option CapturedValue;
  sf_status : SubagentStatus
}.

#[export] Instance subagent_fact_eq : EqDecision SubagentFact.
Proof. solve_decision. Defined.

Definition expected_statuses (phase : SubagentPhase) : list SubagentStatus :=
  match phase with
  | SubStarted => [SubRunning]
  | SubUpdated => [SubRunning; SubWaiting]
  | SubCompleted => [SubSucceeded; SubFailed; SubCancelled; SubAbandoned]
  end.

Definition SubagentFact_valid (f : SubagentFact) : bool :=
  bool_decide (sf_status f ∈ expected_statuses (sf_phase f)) &&
  (bool_decide (sf_phase f = SubStarted) ||
   (absent (sf_parent_tool_call_id f) && absent (sf_parent_execution_id f) &&
    absent (sf_model_call_id f) && absent (sf_input f))) &&
  bounded_text 2048 (sf_subagent_id f) && optional_text 1024 (sf_agent_name f) &&
  optional_text 1024 (sf_parent_tool_call_id f) && optional_text 2048 (sf_parent_execution_id f) &&
  optional_text 2048 (sf_model_call_id f).

Record PlanRevisionFact : Type := {
  pf_revision_id : pystr;
  pf_revision : option Z;
  pf_status : option pystr;
  pf_plan : CapturedValue
}.

#[export] Instance plan_fact_eq : EqDecision PlanRevisionFact.
Proof. solve_decision. Defined.

Inductive NativeExtraMode : Type := ExtraUpdates | ExtraCheckpoints | ExtraDebug | ExtraCustom.

#[export] Instance extra_mode_eq : EqDecision NativeExtraMode.
Proof. solve_decision. Defined.

Record NativeExtraFact : Type := {
  ne_mode : NativeExtraMode;
  ne_data_type : pystr;
  ne_top_level_keys : list pystr
}.

#[export] Instance native_extra_eq : EqDecision NativeExtraFact.
Proof. solve_decision. Defined.

(** ** Model calls, tool executions and context *)

(** The phases of calls, executions and contributions. *)
Inductive CallPhase : Type :=
| CallStarted | CallFirstOutput | CallGenerated | CallCompleted | CallFailed | CallCancelled
| CallInterrupted | CallAbandoned.

#[export] Instance call_phase_eq : EqDecision CallPhase.
Proof. solve_decision. Defined.

Record ModelCallFact : Type := {
  mc_phase : CallPhase;
  mc_call_id : pystr;
  mc_parent_call_id : option pystr;
  mc_contribution_id : option pystr;
  mc_agent_name : option pystr;
  mc_provider : option pystr;
  mc_model : option pystr;
  mc_context_started_at : option Z;
  mc_request : option CapturedValue;
  mc_usage : option CapturedValue;
  mc_response_metadata : option CapturedValue;
  mc_system_message_positions : list Z;
  mc_output_message_ids : list pystr;
  mc_tool_call_ids : list pystr;
  mc_error_type : option pystr;
  mc_error_message : option CapturedValue;
  mc_failure_origin : bool
}.

#[export] Instance model_call_eq : EqDecision ModelCallFact.
Proof. solve_decision. Defined.

(** [tuple(sorted(set(l))) == l] *)
Fixpoint increasing (l : list Z) : bool :=
  match l with
  | x :: (y :: _) as l' => (x <? y) && increasing l'
  | _ => true
  end.

Definition ModelCallFact_valid (b : TraceFactBase) (f : ModelCallFact) : bool :=
  let started := bool_decide (mc_phase f = CallStarted) in
  let completed := bool_decide (mc_phase f = CallCompleted) in
  let failed := bool_decide (mc_phase f = CallFailed) in
  negb (bool_decide (mc_phase f = CallGenerated)) &&
  negb (started && absent (mc_request f)) && (started || absent (mc_request f)) &&
  negb (started && absent (mc_context_started_at f)) &&
  (started || absent (mc_context_started_at f)) &&
  match mc_context_started_at f with Some t => t <=? b_occurred_at b | None => true end &&
  (started || bool_decide (mc_system_message_positions f = [])) &&
  increasing (mc_system_message_positions f) &&
  forallb (fun p => 0 <=? p) (mc_system_message_positions f) &&
  (bool_decide (mc_phase f ∈ [CallFirstOutput; CallCompleted]) ||
   bool_decide (mc_output_message_ids f = [])) &&
  canonical_ids (mc_output_message_ids f) &&
  (completed || (absent (mc_usage f) && absent (mc_response_metadata f))) &&
  negb (failed && absent (mc_error_type f)) &&
  (failed || (absent (mc_error_type f) && absent (mc_error_message f))) &&
  (completed || bool_decide (mc_tool_call_ids f = [])) &&
  bool_decide (NoDup (mc_tool_call_ids f)) &&
  (negb (mc_failure_origin f) || failed) &&
  bounded_text 2048 (mc_call_id f) && optional_text 1024 (mc_parent_call_id f) &&
  optional_text 1024 (mc_agent_name f) && optional_text 1024 (mc_provider f) &&
  optional_text 1024 (mc_model f) && optional_text 1024 (mc_error_type f).

Record ToolExecutionFact : Type := {
  te_phase : CallPhase;
  te_execution_id : pystr;
  te_parent_call_id : option pystr;
  te_agent_name : option pystr;
  te_source_tool_call_id : option pystr;
  te_tool_call_namespace : option (list pystr);
  te_tool_name : pystr;
  te_input : option CapturedValue;
  te_output : option CapturedValue;
  te_error_type : option pystr;
  te_error_message : option CapturedValue;
  te_failure_origin : bool
}.

#[export] Instance tool_execution_eq : EqDecision ToolExecutionFact.
Proof. solve_decision. Defined.

Definition ToolExecutionFact_valid (f : ToolExecutionFact) : bool :=
  let started := bool_decide (te_phase f = CallStarted) in
  let completed := bool_decide (te_phase f = CallCompleted) in
  let failed := bool_decide (te_phase f = CallFailed) in
  negb (bool_decide (te_phase f ∈ [CallFirstOutput; CallGenerated])) &&
  Bool.eqb (absent (te_source_tool_call_id f)) (absent (te_tool_call_namespace f)) &&
  negb (started && absent (te_input f)) && (started || absent (te_input f)) &&
  (completed || failed || absent (te_output f)) && negb (completed && absent (te_output f)) &&
  negb (failed && absent (te_error_type f) && absent (te_output f)) &&
  (failed || (absent (te_error_type f) && absent (te_error_message f))) &&
  (negb (te_failure_origin f) || failed) &&
  bounded_text 2048 (te_execution_id f) && optional_text 1024 (te_parent_call_id f) &&
  optional_text 1024 (te_agent_name f) && optional_text 1024 (te_source_tool_call_id f) &&
  bounded_text 1024 (te_tool_name f) && optional_text 1024 (te_error_type f).

Inductive ContextKind : Type :=
| KindMemory | KindGuardrail | KindRetrieval | KindCustom | KindCompaction.

#[export] Instance context_kind_eq : EqDecision ContextKind.
Proof. solve_decision. Defined.

Inductive CompactionOrigin : Type := OriginManual | OriginAutomatic | OriginTool.

#[export] Instance compaction_origin_eq : EqDecision CompactionOrigin.
Proof. solve_decision. Defined.

Record ContextContributionFact : Type := {
  cc_phase : CallPhase;
  cc_contribution_id : pystr;
  cc_parent_call_id : option pystr;
  cc_model_call_ids : list pystr;
  cc_compaction_origin : option CompactionOrigin;
  cc_parent_tool_call_id : option pystr;
  cc_context_kind : ContextKind;
  cc_name : pystr;
  cc_input : option CapturedValue;
  cc_output : option CapturedValue;
  cc_error_type : option pystr;
  cc_failure_origin : bool
}.

#[export] Instance contribution_eq : EqDecision ContextContributionFact.
Proof. solve_decision. Defined.

Definition ContextContributionFact_valid (f : ContextContributionFact) : bool :=
  let failed := bool_decide (cc_phase f = CallFailed) in
  negb (bool_decide (cc_phase f = CallFirstOutput)) &&
  (bool_decide (cc_phase f = CallStarted) || absent (cc_input f)) &&
  (bool_decide (cc_phase f ∈ [CallCompleted; CallGenerated]) || absent (cc_output f)) &&
  negb (failed && absent (cc_error_type f)) && (failed || absent (cc_error_type f)) &&
  (negb (cc_failure_origin f) || failed) &&
  bounded_text 2048 (cc_contribution_id f) && optional_text 1024 (cc_parent_call_id f) &&
  bounded_text 1024 (cc_name f) && optional_text 1024 (cc_error_type f).

(** ** Facts and events *)

Inductive FactBody : Type :=
| Turn (f : TurnFact)
| Run (f : RunFact)
| Message (f : MessageFact)
| Reasoning (f : ReasoningFact)
| Tool (f : ToolFact)
| StateRevision (f : StateRevisionFact)
| Interaction (f : InteractionFact)
| Subagent (f : SubagentFact)
| PlanRevision (f : PlanRevisionFact)
| NativeExtra (f : NativeExtraFact)
| CallTracking
| ModelCall (f : ModelCallFact)
| ToolExecution (f : ToolExecutionFact)
| ContextContribution (f : ContextContributionFact).

#[export] Instance body_eq : EqDecision FactBody.
Proof. solve_decision. Defined.

Record TraceSemanticFact : Type := { f_base : TraceFactBase; f_body : FactBody }.

#[export] Instance fact_eq : EqDecision TraceSemanticFact.
Proof. solve_decision. Defined.

Definition fact_kind (f : TraceSemanticFact) : pystr :=
  match f_body f with
  | Turn _ => u "turn.started"
  | Run _ => u "run"
  | Message _ => u "message"
  | Reasoning _ => u "reasoning"
  | Tool _ => u "tool"
  | StateRevision _ => u "state.revision"
  | Interaction _ => u "interaction"
  | Subagent _ => u "subagent"
  | PlanRevision _ => u "plan.revision"
  | NativeExtra _ => u "native.extra"
  | CallTracking => u "call.tracking"
  | ModelCall _ => u "model.call"
  | ToolExecution _ => u "tool.execution"
  | ContextContribution _ => u "context.contribution"
  end.

(** The constructor of the fact's class accepts it. *)
Definition fact_valid (f : TraceSemanticFact) : bool :=
  TraceFactBase_valid (f_base f) &&
  match f_body f with
  | Turn t => TurnFact_valid t
  | Run r => RunFact_valid (f_base f) r
  | Message m => MessageFact_valid (f_base f) m
  | Reasoning r => ReasoningFact_valid r
  | Tool t => ToolFact_valid t
  | StateRevision s => bounded_text 2048 (sv_revision_id s)
  | Interaction i => InteractionFact_valid i
  | Subagent s => SubagentFact_valid s
  | PlanRevision p =>
      bounded_text 2048 (pf_revision_id p) && optional_text 1024 (pf_status p) &&
      match pf_revision p with Some r => 0 <=? r | None => true end
  | NativeExtra n => bounded_text 1024 (ne_data_type n)
  | CallTracking => true
  | ModelCall m => ModelCallFact_valid (f_base f) m
  | ToolExecution t => ToolExecutionFact_valid t
  | ContextContribution c => ContextContributionFact_valid c
  end.

Definition f_identity (f : TraceSemanticFact) : RunIdentity := b_identity (f_base f).
Definition f_run_id (f : TraceSemanticFact) : pystr := i_run_id (f_identity f).
Definition f_occurred_at (f : TraceSemanticFact) : Z := b_occurred_at (f_base f).

Record TraceEvent : Type := {
  ev_event_id : pystr;
  ev_trace_seq : Z;
  ev_generation : pystr;
  ev_fact : TraceSemanticFact;
  ev_persisted_bytes : Z
}.

#[export] Instance event_eq : EqDecision TraceEvent.
Proof. solve_decision. Defined.

Definition TraceEvent_valid (e : TraceEvent) : bool :=
  bounded_text 1024 (ev_event_id e) && (1 <=? ev_trace_seq e) &&
  bounded_text 1024 (ev_generation e) && (1 <=? ev_persisted_bytes e).

(** ** Limits and options *)

Record TraceLimits : Type := {
  max_event_bytes : Z;
  max_thread_events : Z;
  max_thread_bytes : Z;
  max_tracer_threads : Z;
  max_tracer_bytes : Z;
  terminal_reserve_events_per_run : Z;
  terminal_reserve_bytes_per_run : Z;
  follow_batch_size : Z;
  max_projection_checkpoints_per_scope : Z
}.

(** The field bounds and [aggregate_limits_are_consistent]. *)
Definition TraceLimits_valid (l : TraceLimits) : bool :=
  (1024 <=? max_event_bytes l) && (16 <=? max_thread_events l) &&
  (64 * 1024 <=? max_thread_bytes l) && (1 <=? max_tracer_threads l) &&
  (64 * 1024 <=? max_tracer_bytes l) && (2 <=? terminal_reserve_events_per_run l) &&
  (1024 <=? terminal_reserve_bytes_per_run l) && (1 <=? follow_batch_size l) &&
  (follow_batch_size l <=? 10000) && (1 <=? max_projection_checkpoints_per_scope l) &&
  (max_thread_bytes l <=? max_tracer_bytes l) &&
  (terminal_reserve_bytes_per_run l <? max_thread_bytes l) &&
  (terminal_reserve_events_per_run l <? max_thread_events l) &&
  (terminal_reserve_events_per_run l * max_event_bytes l <=? terminal_reserve_bytes_per_run l).

(** Durations in microseconds. *)
Record TraceStoreOptions : Type := {
  writer_lease_seconds : Z;
  writer_heartbeat_interval_seconds : Z;
  follow_poll_seconds : Z;
  commit_retry_attempts : Z;
  commit_retry_delay_seconds : Z
}.

(** [__post_init__], for finite numbers. *)
Definition TraceStoreOptions_post_init (o : TraceStoreOptions) : res trace_exn unit :=
  do? rraise_if ((writer_lease_seconds o <=? 0) || (writer_heartbeat_interval_seconds o <=? 0) ||
                 (follow_poll_seconds o <=? 0) || (commit_retry_delay_seconds o <=? 0))
        TraceValueError in
  do? rraise_if (writer_lease_seconds o <=? writer_heartbeat_interval_seconds o)
        TraceValueError in
  rraise_if (commit_retry_attempts o <? 1) TraceValueError.

(** ** Threads, writers and checkpoints *)

Record TraceThreadKey : Type := {
  k_namespace : pystr;
  k_thread_id : pystr;
  k_generation : pystr
}.

#[export] Instance key_eq : EqDecision TraceThreadKey.
Proof. solve_decision. Defined.

Definition TraceThreadKey_valid (k : TraceThreadKey) : bool :=
  bounded_text 128 (k_namespace k) && canonical_identifier (k_namespace k) &&
  bounded_text 1024 (k_thread_id k) && canonical_identifier (k_thread_id k) &&
  bounded_text 2048 (k_generation k) && canonical_identifier (k_generation k).

Record TraceStoredFact : Type := {
  d_event_id : pystr;
  d_fact : TraceSemanticFact;
  d_canonical_payload : list Z;
  d_payload_digest : pystr;
  d_exact_byte_count : Z
}.

Record StoredTraceEvent : Type := {
  st_event_id : pystr;
  st_trace_seq : Z;
  st_run_id : pystr;
  st_fact_kind : pystr;
  st_occurred_at : Z;
  st_canonical_payload : list Z;
  st_payload_digest : pystr;
  st_persisted_bytes : Z
}.

#[export] Instance stored_event_eq : EqDecision StoredTraceEvent.
Proof. solve_decision. Defined.

Record TraceProjectionCheckpoint : Type := {
  pc_key : TraceThreadKey;
  pc_projection_name : pystr;
  pc_run_id : option pystr;
  pc_as_of_seq : Z;
  pc_state : JsonValue
}.

#[export] Instance projection_checkpoint_eq : EqDecision TraceProjectionCheckpoint.
Proof. solve_decision. Defined.

Definition TraceProjectionCheckpoint_valid (c : TraceProjectionCheckpoint) : bool :=
  bounded_text 2048 (pc_projection_name c) &&
  bool_decide (strip (pc_projection_name c) = pc_projection_name c) &&
  match pc_run_id c with
  | None => true
  | Some r => bounded_text 1024 r && bool_decide (strip r = r) && negb (pc_as_of_seq c =? 0)
  end && (0 <=? pc_as_of_seq c).

Record StoredTraceCheckpoint : Type := {
  sc_key : TraceThreadKey;
  sc_projection_name : pystr;
  sc_run_id : option pystr;
  sc_as_of_seq : Z;
  sc_canonical_state : list Z;
  sc_state_digest : pystr
}.

Record TraceLedgerWriterState : Type := {
  w_run_id : pystr;
  w_owner_token : pystr;
  w_fence : Z;
  w_lease_expires_at : Z;
  w_active : bool;
  w_terminal_committed : bool;
  w_closed_committed : bool;
  w_committed_events : Z;
  w_remaining_event_reserve : Z;
  w_remaining_byte_reserve : Z
}.

Record TraceLedgerThreadState : Type := {
  th_key : TraceThreadKey;
  th_next_seq : Z;
  th_persisted_bytes : Z
}.

Record StoreWriterSnapshot : Type := { sw_run_id : pystr; sw_committed_events : Z }.

Record TraceLedgerState : Type := {
  ls_observed_at : Z;
  ls_namespace_thread_count : Z;
  ls_namespace_persisted_bytes : Z;
  ls_namespace_reserved_bytes : Z;
  ls_thread : option TraceLedgerThreadState;
  ls_target_writer : option TraceLedgerWriterState;
  ls_writer_count : Z;
  ls_thread_reserved_events : Z;
  ls_thread_reserved_bytes : Z;
  ls_active_writers : list StoreWriterSnapshot;
  ls_current_checkpoint : option StoredTraceCheckpoint
}.

(** ** Requests and effects *)

Record TraceLedgerStateRequest : Type := {
  lr_namespace : pystr;
  lr_thread_id : pystr;
  lr_generation : option pystr;
  lr_run_id : option pystr;
  lr_include_active_writers : bool
}.

Inductive PageDirection : Type := Forward | Reverse.

#[export] Instance direction_eq : EqDecision PageDirection.
Proof. solve_decision. Defined.

Record TraceEventPageRequest : Type := {
  pr_key : TraceThreadKey;
  pr_direction : PageDirection;
  pr_limit : Z;
  pr_after_seq : option Z;
  pr_as_of_seq : option Z;
  pr_before_seq : option Z
}.

Record TraceCheckpointRequest : Type := {
  cr_key : TraceThreadKey;
  cr_projection_name : pystr;
  cr_run_id : option pystr;
  cr_as_of_seq : Z
}.

Inductive TraceLedgerChangeKind : Type :=
| OpenWriter | AppendEvents | RenewWriter | CloseWriter | SaveProjectionCheckpoint
| DeleteGeneration.

#[export] Instance change_kind_eq : EqDecision TraceLedgerChangeKind.
Proof. solve_decision. Defined.

Record TraceLedgerChange : Type := {
  ch_kind : TraceLedgerChangeKind;
  ch_namespace : pystr;
  ch_limits : TraceLimits;
  ch_options : TraceStoreOptions;
  ch_identity : option RunIdentity;
  ch_key : option TraceThreadKey;
  ch_run_id : option pystr;
  ch_owner_token : option pystr;
  ch_fence : option Z;
  ch_facts : list TraceStoredFact;
  ch_mandatory : bool;
  ch_checkpoint : option TraceProjectionCheckpoint;
  ch_canonical_checkpoint_state : option (list Z);
  ch_checkpoint_state_digest : option pystr;
  ch_expected_checkpoint_as_of_seq : option Z;
  ch_proven_events : list TraceEvent;
  ch_proven_renewal : bool;
  ch_enforce_writer_lease : bool;
  ch_persist_canonical_event_records : bool
}.

Record TraceLedgerCommitResult : Type := {
  re_kind : TraceLedgerChangeKind;
  re_key : option TraceThreadKey;
  re_run_id : option pystr;
  re_owner_token : option pystr;
  re_fence : option Z;
  re_events : list TraceEvent;
  re_checkpoint : option TraceProjectionCheckpoint
}.
