(* ===== verification/TraceRedaction.v ===== *)
(** Tracing: redaction.py - what a trace never records: credentials, private reasoning and
    the bytes of attachments, whatever a business redactor does - with [Attachment] of the
    contracts (media.py) and [json.dumps].

    An argument that may be any object is a [PyValue]: a tree, in which a container that
    contains itself is cut at the inner occurrence ([PyCycle]).  The recursion limit of
    the interpreter is not modelled. *)
From S2P Require Import Prelude PyDict PySeq Contracts.
From Stdlib Require Import Strings.String.

(** ** Values *)

(** [TraceCaptureRejected] is a [ValueError]; so are pydantic's [ValidationError] and
    [UnicodeEncodeError]. *)
Inductive capture_exn : Type :=
| TraceCaptureRejected
| CaptureTypeError
| CaptureValueError
| CaptureValidationError
| CaptureUnicodeEncodeError.

#[export] Instance capture_exn_eq : EqDecision capture_exn.
Proof. solve_decision. Defined.

(** A Python object as JSON sees it; the key of an entry is [None] if it is no string. *)
Set Warnings "-register-all".
Inductive PyValue : Type :=
| PyNull
| PyTruth (b : bool)
| PyNumber (z : Z)
| PyReal (f : pyfloat)
| PyText (s : pystr)
| PyItems (l : list PyValue)
| PyEntries (l : list (option pystr * PyValue))
| PyCycle
| PyObject.

(** A JSON value as an object. *)
Fixpoint py_of (v : JsonValue) : PyValue :=
  match v with
  | JNull => PyNull
  | JBool b => PyTruth b
  | JInt z => PyNumber z
  | JFloat f => PyReal f
  | JStr s => PyText s
  | JList l => PyItems (map py_of l)
  | JObj d => PyEntries (map (fun kv => (Some kv.1, py_of kv.2)) d)
  end.

(** What the interpreter and pydantic do, where it takes their tables: [str.casefold],
    [float.__repr__], and what a field of type [str] or [int] makes of a JSON value. *)
Class CaptureEnv : Type := {
  fold_case : pystr -> pystr;
  float_text : pyfloat -> pystr;
  lax_text : JsonValue -> option pystr;
  lax_int : JsonValue -> option Z
}.

(** ASCII text is folded by letter; a field accepts the value it has produced. *)
Class CaptureLaws {env : CaptureEnv} : Prop := {
  fold_case_ascii s : forallb is_ascii s = true -> fold_case s = map ascii_lower s;
  lax_text_again v s : lax_text v = Some s -> lax_text (JStr s) = Some s;
  lax_int_again v z : lax_int v = Some z -> lax_int (JInt z) = Some z
}.
Arguments CaptureLaws : clear implicits.

Inductive RedactionContentKind : Type :=
| KMessage | KModelRequest | KModelResponse | KToolArguments | KToolResult | KState
| KInteraction | KPlan | KCustom.

#[export] Instance content_kind_eq : EqDecision RedactionContentKind.
Proof. solve_decision. Defined.

Record RedactionContext : Type := {
  cx_content_kind : RedactionContentKind;
  cx_component_name : option pystr
}.

(** [RedactionContext(...)] *)
Definition redaction_context (kind : RedactionContentKind) (name : option pystr)
    : res capture_exn RedactionContext :=
  do? rraise_if (match name with
                 | Some s => negb (1 <=? zlen s) || negb (bool_decide (s = strip s)) ||
                             (1024 <? zlen s)
                 | None => false
                 end) CaptureValueError in
  Ok {| cx_content_kind := kind; cx_component_name := name |}.

(** ** json.dumps *)

(** The hexadecimal digit of a number below 16. *)
Definition hex_digit (n : Z) : Z := if n <? 10 then 48 + n else 87 + n.

Definition escape_char (c : Z) : pystr :=
  if c =? 34 then [92; 34] else if c =? 92 then [92; 92] else if c =? 10 then [92; 110]
  else if c =? 13 then [92; 114] else if c =? 9 then [92; 116] else if c =? 12 then [92; 102]
  else if c =? 8 then [92; 98]
  else if c <? 32 then [92; 117; 48; 48; hex_digit (c / 16); hex_digit (c mod 16)]
  else [c].

Definition quoted (s : pystr) : pystr := [34] ++ flat_map escape_char s ++ [34].

(** The decimal digits of a number, the last one first; [fuel] bounds their number. *)
Fixpoint digits_of (fuel : nat) (n : Z) : list Z :=
  match fuel with
  | O => []
  | S fuel => (48 + n mod 10) :: if n <? 10 then [] else digits_of fuel (n / 10)
  end.

(** [int.__repr__], which refuses more than 4300 digits. *)
Definition int_text (z : Z) : res capture_exn pystr :=
  let digits := rev (digits_of (S (Z.to_nat (Z.log2 (Z.abs z)))) (Z.abs z)) in
  do? rraise_if (4300 <? zlen digits) CaptureValueError in
  Ok ((if z <? 0 then [45] else []) ++ digits).

(** [",".join(l)] *)
Fixpoint commas (l : list pystr) : pystr :=
  match l with
  | [] => []
  | [s] => s
  | s :: l => s ++ [44] ++ commas l
  end.

Section dumps.
Context {env : CaptureEnv}.

(** [json.dumps(value, allow_nan=False, ensure_ascii=False, separators=(",", ":"),
    sort_keys=True)] *)
Fixpoint dumps (v : JsonValue) : res capture_exn pystr :=
  match v with
  | JNull => Ok (u "null")
  | JBool b => Ok (if b then u "true" else u "false")
  | JInt z => int_text z
  | JFloat f => do? rraise_if (negb (isfinite f)) CaptureValueError in Ok (float_text f)
  | JStr s => Ok (quoted s)
  | JList l =>
      let? items := rmap dumps l in
      Ok ([91] ++ commas items ++ [93])
  | JObj d =>
      let? items := rmap (fun kv => let? text := dumps kv.2 in Ok (kv.1, text)) d in
      Ok ([123] ++ commas (map (fun kt => quoted kt.1 ++ [58] ++ kt.2)
                             (sorted_by (key_leb fst str_ltb) items)) ++ [125])
  end.

(** [_canonical_json]: the text as UTF-8. *)
Definition canonical_json (v : JsonValue) : res capture_exn (list Z) :=
  let? text := dumps v in
  do? rraise_if (negb (utf8_encodable text)) CaptureUnicodeEncodeError in
  Ok (flat_map utf8_char text).
End dumps.

(** ** Normalization *)

(** [_normalize_json_value], of which [_normalize_json] is a call. *)
Fixpoint normalize_json (value : PyValue) : res capture_exn JsonValue :=
  match value with
  | PyNull => Ok JNull
  | PyTruth b => Ok (JBool b)
  | PyNumber z => Ok (JInt z)
  | PyText s => Ok (JStr s)
  | PyReal f => do? rraise_if (negb (isfinite f)) TraceCaptureRejected in Ok (JFloat f)
  | PyItems l =>
      let? items := rmap normalize_json l in
      Ok (JList items)
  | PyEntries d =>
      do? rraise_if (existsb (fun kv => match kv.1 with None => true | _ => false end) d)
            TraceCaptureRejected in
      let? entries := rmap (fun kv => let? y := normalize_json kv.2 in Ok (default [] kv.1, y)) d in
      Ok (JObj entries)
  | PyCycle | PyObject => Raise TraceCaptureRejected
  end.

(** ** Framework safety *)

Definition is_lower_or_digit (c : Z) : bool := ((97 <=? c) && (c <=? 122)) || ((48 <=? c) && (c <=? 57)).
Definition is_upper (c : Z) : bool := (65 <=? c) && (c <=? 90).

(** [re.sub(r"(?<=[a-z0-9])(?=[A-Z])", "_", value)] *)
Fixpoint separate_words (s : pystr) : pystr :=
  match s with
  | [] => []
  | a :: s' =>
      a :: match s' with
           | b :: _ => if is_lower_or_digit a && is_upper b then 95 :: separate_words s'
                       else separate_words s'
           | [] => []
           end
  end.

(** [re.sub(r"[^a-z0-9]+", "_", value)]; [gap] in a run of such characters. *)
Fixpoint join_words (gap : bool) (s : pystr) : pystr :=
  match s with
  | [] => if gap then [95] else []
  | c :: s =>
      if is_lower_or_digit c then (if gap then [95] else []) ++ c :: join_words false s
      else join_words true s
  end.

(** [value.strip("_")] *)
Fixpoint strip_left (s : pystr) : pystr :=
  match s with
  | c :: s' => if c =? 95 then strip_left s' else s
  | [] => []
  end.
Definition strip_underscores (s : pystr) : pystr := rev (strip_left (rev (strip_left s))).

(** [value.endswith(t)] *)
Definition ends_with (t s : pystr) : bool := is_prefix (rev t) (rev s).

Definition CREDENTIAL_KEYS : list pystr :=
  [u "access_token"; u "auth_token"; u "api_key"; u "apikey"; u "authorization";
   u "client_secret"; u "cookie"; u "id_token"; u "password"; u "private_key";
   u "proxy_authorization"; u "refresh_token"; u "secret"; u "secret_key"; u "session_token";
   u "set_cookie"; u "token"; u "x_api_key"].

Definition redacted_marker : JsonValue := JObj [(u "$type", JStr (u "redacted"))].

(** [Attachment] *)
Record Attachment : Type := {
  at_id : pystr;
  at_name : pystr;
  at_mime_type : pystr;
  at_size_bytes : Z
}.

(** [Attachment.content_block] *)
Definition content_block (a : Attachment) : JsonValue :=
  JObj [(u "type", JStr (if is_prefix (u "image/") (at_mime_type a) then u "image" else u "file"));
        (u "file_id", JStr (at_id a)); (u "mime_type", JStr (at_mime_type a));
        (u "extras", JObj [(u "attachment",
           JObj [(u "id", JStr (at_id a)); (u "name", JStr (at_name a));
                 (u "mime_type", JStr (at_mime_type a));
                 (u "size_bytes", JInt (at_size_bytes a))])])].

Definition CONTENT_TYPES : list pystr := [u "image_url"; u "image"; u "audio"; u "video"; u "file"].

Section redaction.
Context {env : CaptureEnv}.

(** [_credential_key] *)
Definition credential_key (value : pystr) : pystr :=
  strip_underscores (join_words false (fold_case (separate_words value))).

(** [_is_credential_key] *)
Definition is_credential_key (value : pystr) : bool :=
  let normalized := credential_key value in
  existsb (fun credential => bool_decide (normalized = credential) ||
                             ends_with (95 :: credential) normalized) CREDENTIAL_KEYS.

(** [_redact_credentials] *)
Fixpoint redact_credentials (v : JsonValue) : JsonValue :=
  match v with
  | JList [JStr k; x] =>
      if is_credential_key k then JList [JStr k; redacted_marker]
      else JList [JStr k; redact_credentials x]
  | JList l => JList (map redact_credentials l)
  | JObj d =>
      JObj (map (fun kv => (kv.1, if is_credential_key kv.1 then redacted_marker
                                  else redact_credentials kv.2)) d)
  | v => v
  end.

(** The fields of [Attachment]: a text of bounded length, an integer. *)
Definition text_field (d : dict pystr JsonValue) (name : pystr) (maximum : Z) : option pystr :=
  match dget d name with
  | Some x => match lax_text x with
              | Some s => if bounded_text maximum s then Some s else None
              | None => None
              end
  | None => None
  end.
Definition int_field (d : dict pystr JsonValue) (name : pystr) : option Z :=
  match dget d name with
  | Some x => match lax_int x with
              | Some z => if 0 <=? z then Some z else None
              | None => None
              end
  | None => None
  end.

(** [Attachment.model_validate(value)]: the four fields and no other. *)
Definition attachment_of (value : JsonValue) : option Attachment :=
  match value with
  | JObj d =>
      if existsb (fun kv => negb (bool_decide
           (kv.1 ∈ [u "id"; u "name"; u "mime_type"; u "size_bytes"]))) d then None
      else match text_field d (u "id") 128, text_field d (u "name") 255,
                 text_field d (u "mime_type") 128, int_field d (u "size_bytes") with
           | Some id, Some name, Some mime_type, Some size =>
               Some {| at_id := id; at_name := name; at_mime_type := mime_type;
                       at_size_bytes := size |}
           | _, _, _, _ => None
           end
  | _ => None
  end.

(** The attachment metadata of a content block. *)
Definition attachment_metadata (d : list (pystr * JsonValue)) : option JsonValue :=
  match dget d (u "type"), dget d (u "extras") with
  | Some (JStr content_type), Some (JObj extras) =>
      if bool_decide (content_type ∈ CONTENT_TYPES) then dget extras (u "attachment") else None
  | _, _ => None
  end.

(** [_restore_attachment_references] *)
Fixpoint restore_attachments (v : JsonValue) : res capture_exn JsonValue :=
  match v with
  | JList l =>
      let? items := rmap restore_attachments l in
      Ok (JList items)
  | JObj d =>
      match attachment_metadata d with
      | Some metadata =>
          match attachment_of metadata with
          | Some a => Ok (content_block a)
          | None => Raise TraceCaptureRejected
          end
      | None =>
          let? entries := rmap (fun kv => let? y := restore_attachments kv.2 in Ok (kv.1, y)) d in
          Ok (JObj entries)
      end
  | v => Ok v
  end.

(** [_strip_private_reasoning]; [metadata] for the object of an [additional_kwargs]. *)
Definition is_reasoning_key (k : pystr) : bool := bool_decide (k = u "reasoning_content").
Definition is_metadata_key (k : pystr) : bool := bool_decide (k = u "additional_kwargs").

Fixpoint strip_within (metadata : bool) (v : JsonValue) : JsonValue :=
  match v with
  | JList l => JList (map (strip_within false) l)
  | JObj d =>
      JObj (flat_map (fun kv => if metadata && is_reasoning_key kv.1 then []
                                else [(kv.1, strip_within (is_metadata_key kv.1) kv.2)]) d)
  | v => v
  end.
Definition strip_private_reasoning : JsonValue -> JsonValue := strip_within false.

(** ** Business redaction *)

(** What an extension's [redact] does when it is called. *)
Inductive RedactorOutcome : Type :=
| Returned (v : PyValue)
| ReturnedAwaitable
| RaisedRejected
| RaisedError.

(** An extension: whether it implements the protocol, whether its method is a coroutine
    function, and what a call does - with what [_canonical_json] makes of its argument
    afterwards, nothing if that raises. *)
Record TraceRedactor : Type := {
  rd_is_redactor : bool;
  rd_is_coroutine : bool;
  rd_redact : JsonValue -> RedactionContext -> RedactorOutcome * option (list Z)
}.

Definition validate_redactor (r : TraceRedactor) : res capture_exn unit :=
  do? rraise_if (negb (rd_is_redactor r)) CaptureTypeError in
  rraise_if (rd_is_coroutine r) CaptureTypeError.

(** [_apply_redactor] *)
Definition apply_redactor (r : TraceRedactor) (value : JsonValue) (context : RedactionContext)
    : res capture_exn JsonValue :=
  do? validate_redactor r in
  let? supplied := normalize_json (py_of value) in
  let? before := canonical_json supplied in
  match rd_redact r supplied context with
  | (RaisedRejected, _) | (RaisedError, _) | (ReturnedAwaitable, _) => Raise TraceCaptureRejected
  | (Returned result, after) =>
      do? rraise_if (negb (bool_decide (after = Some before))) TraceCaptureRejected in
      normalize_json result
  end.

(** [secure_redact] *)
Definition framework_safe (value : JsonValue) : res capture_exn JsonValue :=
  let? restored := restore_attachments value in
  Ok (strip_private_reasoning (redact_credentials restored)).

Definition secure_redact (value : PyValue) (context : RedactionContext)
    (redactor : option TraceRedactor) : res capture_exn JsonValue :=
  let? normalized := normalize_json value in
  let? safe := framework_safe normalized in
  match redactor with
  | None => Ok safe
  | Some r =>
      let? business_safe := apply_redactor r safe context in
      framework_safe business_safe
  end.

(** [CompositeRedactor(...).redact] *)
Fixpoint redact_in_turn (redactors : list TraceRedactor) (context : RedactionContext)
    (current : JsonValue) : res capture_exn JsonValue :=
  match redactors with
  | [] => Ok current
  | r :: redactors =>
      let? current := apply_redactor r current context in
      redact_in_turn redactors context current
  end.

(** [CompositeRedactor(...)], as a redactor; it leaves its argument alone. *)
Definition composite_redactor (redactors : list TraceRedactor) : res capture_exn TraceRedactor :=
  do? rraise_if (match redactors with [] => true | _ => false end) CaptureValueError in
  let? _ := rmap validate_redactor redactors in
  Ok {| rd_is_redactor := true; rd_is_coroutine := false;
        rd_redact value context :=
          (match (let? current := normalize_json (py_of value) in
                  redact_in_turn redactors context current) with
           | Ok v => Returned (py_of v)
           | Raise TraceCaptureRejected => RaisedRejected
           | Raise _ => RaisedError
           end,
           match canonical_json value with Ok b => Some b | Raise _ => None end) |}.
End redaction.

(** ** JSON Pointers *)

(** Every [~] of the text is followed by [0] or [1]. *)
Fixpoint escapes_ok (s : pystr) : bool :=
  match s with
  | [] => true
  | c :: s' =>
      if c =? 126 then match s' with
                       | d :: s'' => ((d =? 48) || (d =? 49)) && escapes_ok s''
                       | [] => false
                       end
      else escapes_ok s'
  end.

(** [_is_canonical_pointer] *)
Definition is_canonical_pointer (path : pystr) : bool :=
  match path with
  | [] => true
  | c :: _ => (c =? 47) && escapes_ok path
  end.

(** [value.replace("~" + chr(code), chr(by))] *)
Fixpoint unescape (code by_ : Z) (s : pystr) : pystr :=
  match s with
  | [] => []
  | c :: s' =>
      match s' with
      | d :: s'' => if (c =? 126) && (d =? code) then by_ :: unescape code by_ s''
                    else c :: unescape code by_ s'
      | [] => [c]
      end
  end.

(** [_pointer_components] *)
Definition pointer_components (path : pystr) : list pystr :=
  map (fun value => unescape 48 126 (unescape 49 47 value)) (tail (split_on 47 path)).

(** [_is_array_index] *)
Definition is_array_index (value : pystr) : bool :=
  bool_decide (value = [48]) ||
  match value with
  | c :: _ => ((49 <=? c) && (c <=? 57)) &&
              forallb (fun c => match ascii_digit c with Some _ => true | None => false end) value
  | [] => false
  end.

(** [int(component)] of an array index, which refuses more than 4300 digits. *)
Definition array_index (value : pystr) : res capture_exn nat :=
  do? rraise_if (4300 <? zlen value) CaptureValueError in
  Ok (Z.to_nat (fold_left (fun n c => 10 * n + (c - 48)) value 0)).

(** [_replace_pointer], on the value of the last container and upwards. *)
Fixpoint replace_at (components : list pystr) (v : JsonValue) : res capture_exn JsonValue :=
  match components with
  | [] => Ok v
  | component :: rest =>
      match v with
      | JObj d =>
          match dget d component with
          | None => Ok v
          | Some x =>
              let? y := match rest with [] => Ok redacted_marker | _ => replace_at rest x end in
              Ok (JObj (dset d component y))
          end
      | JList l =>
          if is_array_index component then
            let? i := array_index component in
            match l !! i with
            | None => Ok v
            | Some x =>
                let? y := match rest with [] => Ok redacted_marker | _ => replace_at rest x end in
                Ok (JList (<[i := y]> l))
            end
          else Ok v
      | _ => Ok v
      end
  end.

Fixpoint replace_pointers (paths : list pystr) (v : JsonValue) : res capture_exn JsonValue :=
  match paths with
  | [] => Ok v
  | path :: paths =>
      let? v := replace_at (pointer_components path) v in
      replace_pointers paths v
  end.

(** The order of the paths: by depth, then as text. *)
Definition path_order (path : pystr) : Z * pystr := (count (fun c => c =? 47) path, path).

(** [redact_json_paths] *)
Definition redact_json_paths (value : PyValue) (paths : list pystr) : res capture_exn JsonValue :=
  do? rraise_if (existsb (fun path => negb (is_canonical_pointer path)) paths) CaptureValueError in
  do? rraise_if (negb (bool_decide (NoDup paths))) CaptureValueError in
  if bool_decide ([] ∈ paths) then
    do? rraise_if (negb (zlen paths =? 1)) CaptureValueError in
    Ok redacted_marker
  else
    let? copied := normalize_json value in
    replace_pointers (sorted_by (key_leb path_order pair_ltb) paths) copied.
