(* ===== verification/TraceCapture.v ===== *)
(** Tracing: capture.py - the policies that say what is retained of a payload, and the
    pipeline that redacts every payload before it applies them. *)
From S2P Require Import Prelude PyDict PySeq Contracts TraceRedaction TraceModels.
From Stdlib Require Import Strings.String.

(** ** Policies *)

Inductive CaptureMode : Type := FullContent | MetadataOnly | SelectedContent | CaptureDisabled.

#[export] Instance capture_mode_eq : EqDecision CaptureMode.
Proof. solve_decision. Defined.

Record ToolCaptureRule : Type := {
  tr_tool_name : pystr;
  tr_argument_paths : list pystr;
  tr_result_paths : list pystr;
  tr_include_review_description : bool
}.

Record ToolTraceCapture : Type := {
  tc_mode : CaptureMode;
  tc_argument_paths : list pystr;
  tc_result_paths : list pystr;
  tc_include_review_description : bool
}.

(** [paths_are_canonical_json_pointers] *)
Definition paths_valid (paths : list pystr) : bool :=
  forallb is_canonical_pointer paths && bool_decide (NoDup paths) &&
  (negb (bool_decide ([] ∈ paths)) || (zlen paths =? 1)).

Definition ToolCaptureRule_valid (r : ToolCaptureRule) : bool :=
  bounded_text 1024 (tr_tool_name r) && paths_valid (tr_argument_paths r) &&
  paths_valid (tr_result_paths r).

(** The validators of [ToolTraceCapture]. *)
Definition ToolTraceCapture_valid (c : ToolTraceCapture) : bool :=
  paths_valid (tc_argument_paths c) && paths_valid (tc_result_paths c) &&
  negb (negb (bool_decide (tc_mode c = SelectedContent)) &&
        negb (bool_decide (tc_argument_paths c = []) && bool_decide (tc_result_paths c = []))) &&
  negb (match tc_mode c with MetadataOnly | CaptureDisabled => true | _ => false end &&
        tc_include_review_description c).

(** A model that its validators accept. *)
Definition validated {A} (valid : A -> bool) (a : A) : res capture_exn A :=
  do? rraise_if (negb (valid a)) CaptureValidationError in Ok a.

Definition without_paths (mode : CaptureMode) (review : bool) : ToolTraceCapture :=
  {| tc_mode := mode; tc_argument_paths := []; tc_result_paths := [];
     tc_include_review_description := review |}.

(** The class methods; those without paths are always accepted. *)
Definition full_content : ToolTraceCapture := without_paths FullContent true.
Definition metadata_only : ToolTraceCapture := without_paths MetadataOnly false.
Definition disabled : ToolTraceCapture := without_paths CaptureDisabled false.
Definition selected_content (argument_paths result_paths : list pystr) (review : bool)
    : res capture_exn ToolTraceCapture :=
  validated ToolTraceCapture_valid
    {| tc_mode := SelectedContent; tc_argument_paths := argument_paths;
       tc_result_paths := result_paths; tc_include_review_description := review |}.

Inductive ReasoningMode : Type := OmitReasoning | RetainReasoning.

Record CapturePolicy : Type := {
  po_include_error_messages : bool;
  po_default_tool_capture : ToolTraceCapture;
  po_tool_overrides : list (pystr * ToolTraceCapture);
  po_tool_rules : list ToolCaptureRule
}.

(** The validators of [CapturePolicy], those of its fields included. *)
Definition CapturePolicy_valid (p : CapturePolicy) : bool :=
  ToolTraceCapture_valid (po_default_tool_capture p) &&
  forallb (fun o => ToolTraceCapture_valid o.2) (po_tool_overrides p) &&
  forallb ToolCaptureRule_valid (po_tool_rules p) &&
  bool_decide (NoDup (map tr_tool_name (po_tool_rules p))) &&
  forallb (fun o => bounded_text 1024 o.1) (po_tool_overrides p) &&
  bool_decide (NoDup (map fst (po_tool_overrides p))) &&
  negb (existsb (fun r => existsb (fun o => bool_decide (tr_tool_name r = o.1))
                            (po_tool_overrides p)) (po_tool_rules p)).

Definition public_safe (tool_rules : list ToolCaptureRule) (include_error_messages : bool)
    : res capture_exn CapturePolicy :=
  validated CapturePolicy_valid
    {| po_include_error_messages := include_error_messages;
       po_default_tool_capture := metadata_only; po_tool_overrides := [];
       po_tool_rules := tool_rules |}.

Definition public_history (tool_overrides : option (dict pystr ToolTraceCapture))
    (include_error_messages : bool) : res capture_exn CapturePolicy :=
  validated CapturePolicy_valid
    {| po_include_error_messages := include_error_messages;
       po_default_tool_capture := full_content;
       po_tool_overrides := default [] tool_overrides; po_tool_rules := [] |}.

(** [CapturePolicy.tool_capture] *)
Definition tool_capture (p : CapturePolicy) (tool_name : pystr)
    : res capture_exn ToolTraceCapture :=
  match find (fun o => bool_decide (o.1 = tool_name)) (po_tool_overrides p) with
  | Some override => Ok override.2
  | None =>
      match find (fun r => bool_decide (tr_tool_name r = tool_name)) (po_tool_rules p) with
      | Some rule =>
          selected_content (tr_argument_paths rule) (tr_result_paths rule)
            (tr_include_review_description rule)
      | None => Ok (po_default_tool_capture p)
      end
  end.

Definition traces_tool (p : CapturePolicy) (tool_name : pystr) : res capture_exn bool :=
  let? capture := tool_capture p tool_name in
  Ok (negb (bool_decide (tc_mode capture = CaptureDisabled))).

Definition captures_review_description (p : CapturePolicy) (tool_name : pystr)
    : res capture_exn bool :=
  let? capture := tool_capture p tool_name in
  Ok (tc_include_review_description capture).

(** ** Helpers *)

(** [_validate_max_bytes] *)
Definition validate_max_bytes (max_bytes : pyobj) : res capture_exn Z :=
  match max_bytes with
  | PyInt n => do? rraise_if (n <? 1) CaptureValueError in Ok n
  | _ => Raise CaptureTypeError
  end.

(** [d.get(key)], where a missing key and a null are the same. *)
Definition py_get (d : list (pystr * JsonValue)) (key : pystr) : JsonValue :=
  default JNull (dget d key).

(** A number as a mantissa and a binary exponent. *)
Definition as_number (v : JsonValue) : option (Z * Z) :=
  match v with
  | JBool b => Some (if b then 1 else 0, 0)
  | JInt z => Some (z, 0)
  | JFloat (Finite m e) => Some (m, e)
  | _ => None
  end.

Definition same_number (a b : Z * Z) : bool :=
  let e := Z.min a.2 b.2 in a.1 * 2 ^ (a.2 - e) =? b.1 * 2 ^ (b.2 - e).

(** [v == w] of Python: numbers and booleans by value, dicts without regard to order. *)
Fixpoint py_equal (v w : JsonValue) : bool :=
  match v, w with
  | JNull, JNull => true
  | JStr s, JStr t => bool_decide (s = t)
  | JList l, JList k =>
      (fix go (l k : list JsonValue) : bool :=
         match l, k with
         | [], [] => true
         | x :: l, y :: k => py_equal x y && go l k
         | _, _ => false
         end) l k
  | JObj d, JObj d' =>
      (zlen d =? zlen d') &&
      forallb (fun kv => match dget d' kv.1 with Some y => py_equal kv.2 y | None => false end) d
  | _, _ =>
      match as_number v, as_number w with
      | Some a, Some b => same_number a b
      | _, _ => false
      end
  end.

(** Each pair of elements passes a check. *)
Fixpoint check_pairs (check : JsonValue -> JsonValue -> bool) (l k : list JsonValue) : bool :=
  match l, k with
  | [], [] => true
  | x :: l, y :: k => check x y && check_pairs check l k
  | _, _ => false
  end.

(** [_validate_model_request_shape] *)
Definition same_message_type (source safe : JsonValue) : bool :=
  match source, safe with
  | JObj d, JObj d' => py_equal (py_get d' (u "messageType")) (py_get d (u "messageType"))
  | _, _ => false
  end.

Definition model_request_shape (source safe : JsonValue) : bool :=
  match source, safe with
  | JObj d, JObj d' =>
      match py_get d (u "messages"), py_get d' (u "messages") with
      | JList l, JList k => check_pairs same_message_type l k
      | _, _ => false
      end
  | _, _ => false
  end.

(** [_validate_interaction_shape] *)
Definition same_review (source safe : JsonValue) : bool :=
  match source, safe with
  | JObj d, JObj d' =>
      forallb (fun key => py_equal (py_get d' key) (py_get d key))
        [u "action_name"; u "allowed_decisions"]
  | _, _ => false
  end.

Definition interaction_shape (source safe : JsonValue) : bool :=
  match source, safe with
  | JObj d, JObj d' =>
      match py_get d (u "review_configs"), py_get d' (u "review_configs") with
      | JList l, JList k => check_pairs same_review l k
      | JList _, _ => false
      | _, _ => true
      end
  | JObj _, _ => false
  | _, _ => true
  end.

(** [_validate_context_shape] *)
Definition validate_context_shape (source safe : JsonValue) (context : RedactionContext)
    : res capture_exn unit :=
  rraise_if (match cx_content_kind context with
             | KState => match safe with JObj _ => false | _ => true end
             | KModelRequest => negb (model_request_shape source safe)
             | KInteraction => negb (interaction_shape source safe)
             | _ => false
             end) TraceCaptureRejected.

(** [_json_type] *)
Definition json_type (v : JsonValue) : pystr :=
  match v with
  | JNull => u "null"
  | JBool _ => u "boolean"
  | JInt _ | JFloat _ => u "number"
  | JStr _ => u "string"
  | JList _ => u "array"
  | JObj _ => u "object"
  end.

(** The loop of [_resolve_pointer]: the value, if it is found. *)
Fixpoint resolve_at (components : list pystr) (v : JsonValue)
    : res capture_exn (option JsonValue) :=
  match components with
  | [] => Ok (Some v)
  | component :: rest =>
      match v with
      | JObj d =>
          match dget d component with
          | None => Ok None
          | Some x => resolve_at rest x
          end
      | JList l =>
          if is_array_index component then
            let? i := array_index component in
            match l !! i with
            | None => Ok None
            | Some x => resolve_at rest x
            end
          else Ok None
      | _ => Ok None
      end
  end.

Definition resolve_pointer (v : JsonValue) (path : pystr) : res capture_exn (option JsonValue) :=
  resolve_at (pointer_components path) v.

(** ** Captured values *)

Inductive ToolTarget : Type := TargetArguments | TargetResult.

Record TraceCapturePipeline : Type := {
  pl_policy : CapturePolicy;
  pl_reasoning_policy : ReasoningMode;
  pl_redactor : option TraceRedactor
}.

Section capture.
Context {env : CaptureEnv}.

(** [_encode] *)
Definition encode (v : JsonValue) : res capture_exn (list Z) :=
  match canonical_json v with Ok b => Ok b | Raise _ => Raise TraceCaptureRejected end.

(** [None] and a null are the same. *)
Definition python_value (v : JsonValue) : option JsonValue :=
  match v with JNull => None | v => Some v end.

(** The constructor of [CapturedValue] with its validator. *)
Definition CapturedValue_valid (c : CapturedValue) : bool :=
  (0 <=? cv_safe_size_bytes c) && optional_text 1024 (cv_reason c) &&
  match cv_disposition c with
  | Omitted => absent (cv_value c) && negb (absent (cv_reason c))
  | Inline =>
      absent (cv_reason c) &&
      match encode (default JNull (cv_value c)) with
      | Ok b => cv_safe_size_bytes c =? zlen b
      | Raise _ => false
      end
  end.

Definition omitted (size : Z) (reason : pystr) : res capture_exn CapturedValue :=
  validated CapturedValue_valid
    {| cv_disposition := Omitted; cv_safe_size_bytes := size; cv_value := None;
       cv_reason := Some reason |}.

(** [bound] *)
Definition bound (value : JsonValue) (max_bytes : pyobj) : res capture_exn CapturedValue :=
  let? maximum := validate_max_bytes max_bytes in
  let? safe := normalize_json (py_of value) in
  let? encoded := encode safe in
  if maximum <? zlen encoded then omitted (zlen encoded) (u "payload_too_large")
  else validated CapturedValue_valid
         {| cv_disposition := Inline; cv_safe_size_bytes := zlen encoded;
            cv_value := python_value safe; cv_reason := None |}.

(** [TraceCapturePipeline.redact]; a value that is normalized is its own source. *)
Definition redact (pl : TraceCapturePipeline) (value : PyValue) (context : RedactionContext)
    : res capture_exn JsonValue :=
  let? safe := secure_redact value context (pl_redactor pl) in
  let? source := normalize_json value in
  do? validate_context_shape source safe context in
  Ok safe.

Definition capture (pl : TraceCapturePipeline) (value : PyValue) (context : RedactionContext)
    (max_bytes : pyobj) : res capture_exn CapturedValue :=
  let? safe := redact pl value context in
  bound safe max_bytes.

Definition capture_reasoning (pl : TraceCapturePipeline) (value : PyValue)
    (component_name : option pystr) (max_bytes : pyobj) : res capture_exn CapturedValue :=
  let? _ := validate_max_bytes max_bytes in
  let? context := redaction_context KModelResponse component_name in
  let? safe := redact pl value context in
  let? encoded := encode safe in
  match pl_reasoning_policy pl with
  | OmitReasoning => omitted (zlen encoded) (u "reasoning_capture_disabled")
  | RetainReasoning => bound safe max_bytes
  end.

(** The paths that are found, with their values. *)
Fixpoint select_paths (safe : JsonValue) (paths : list pystr) (selected : dict pystr JsonValue)
    : res capture_exn (dict pystr JsonValue) :=
  match paths with
  | [] => Ok selected
  | path :: paths =>
      let? found := resolve_pointer safe path in
      select_paths safe paths
        (match found with Some x => dset selected path x | None => selected end)
  end.

Definition capture_tool (pl : TraceCapturePipeline) (tool_name : pystr) (value : PyValue)
    (target : ToolTarget) (max_bytes : pyobj) : res capture_exn CapturedValue :=
  let? _ := validate_max_bytes max_bytes in
  let? context := redaction_context
    match target with TargetArguments => KToolArguments | TargetResult => KToolResult end
    (Some tool_name) in
  let? safe := redact pl value context in
  let? encoded := encode safe in
  let? policy := tool_capture (pl_policy pl) tool_name in
  match tc_mode policy with
  | FullContent => bound safe max_bytes
  | MetadataOnly => omitted (zlen encoded) (u "tool_content_metadata_only")
  | CaptureDisabled => omitted (zlen encoded) (u "tool_tracing_disabled")
  | SelectedContent =>
      let? selected := select_paths safe
        match target with
        | TargetArguments => tc_argument_paths policy
        | TargetResult => tc_result_paths policy
        end [] in
      bound (JObj selected) max_bytes
  end.

Definition capture_metadata_only (pl : TraceCapturePipeline) (value : PyValue)
    (context : RedactionContext) (reason : pystr) : res capture_exn CapturedValue :=
  do? rraise_if (negb (bounded_text 1024 reason)) CaptureValueError in
  let? safe := redact pl value context in
  let? encoded := encode safe in
  omitted (zlen encoded) reason.

Definition capture_structure (pl : TraceCapturePipeline) (value : PyValue)
    (context : RedactionContext) (max_bytes : pyobj) : res capture_exn CapturedValue :=
  let? _ := validate_max_bytes max_bytes in
  let? safe := redact pl value context in
  let? encoded := encode safe in
  bound (JObj ([(u "$type", JStr (u "structural_metadata")); (u "dataType", JStr (json_type safe));
                (u "sourceSafeSizeBytes", JInt (zlen encoded))] ++
               match safe with
               | JObj d => [(u "topLevelKeys",
                   JList (map JStr (sorted_by (key_leb (fun k => k) str_ltb) (dkeys d))))]
               | JList l => [(u "itemCount", JInt (zlen l))]
               | _ => []
               end)) max_bytes.
End capture.
