(* ===== verification/TraceCaptureFacts.v ===== *)
(** Tracing: lemmas on redaction and capture - safe values and what keeps them safe,
    replacing along paths, sizes and errors, the setting of a tool. *)
From S2P Require Import Prelude PyDict PySeq Contracts TraceModels TraceRedaction TraceCapture.
From Stdlib Require Import Strings.String.

(** ** Values as objects *)

Section py_ind.
Context (P : PyValue -> Prop) (Hleaf : forall v, match v with PyItems _ | PyEntries _ => True
                                                         | _ => P v end)
  (Hitems : forall l, Forall P l -> P (PyItems l))
  (Hentries : forall d, Forall (fun kv => P kv.2) d -> P (PyEntries d)).

Fixpoint py_ind (v : PyValue) : P v :=
  match v with
  | PyItems l => Hitems l ((fix go l := match l return Forall P l with
                            | [] => Forall_nil_2 P
                            | x :: l => Forall_cons_2 P x l (py_ind x) (go l)
                            end) l)
  | PyEntries d => Hentries d ((fix go d := match d return Forall (fun kv => P kv.2) d with
                                | [] => Forall_nil_2 _
                                | x :: d => Forall_cons_2 _ x d (py_ind x.2) (go d)
                                end) d)
  | PyNull => Hleaf PyNull
  | PyTruth b => Hleaf (PyTruth b)
  | PyNumber z => Hleaf (PyNumber z)
  | PyReal f => Hleaf (PyReal f)
  | PyText s => Hleaf (PyText s)
  | PyCycle => Hleaf PyCycle
  | PyObject => Hleaf PyObject
  end.
End py_ind.

(** Every float of a value is finite. *)
Fixpoint json_finite (v : JsonValue) : bool :=
  match v with
  | JFloat f => isfinite f
  | JList l => forallb json_finite l
  | JObj d => forallb (fun kv => json_finite kv.2) d
  | _ => true
  end.

(** An element for an element. *)
Lemma rmap_Forall {E A B} (f : A -> res E B) xs ys :
  rmap f xs = Ok ys -> Forall2 (fun x y => f x = Ok y) xs ys.
Proof.
  revert ys. induction xs as [|x xs IH]; intros ys; simpl; [by intros [= <-]|].
  intros (y & Hy & (rest & Hr & [= <-])%rbind_ok)%rbind_ok. constructor; [done|by apply IH].
Qed.

Lemma rmap_same {E A} (f : A -> res E A) xs : Forall (fun x => f x = Ok x) xs -> rmap f xs = Ok xs.
Proof. induction 1 as [|x xs Hx _ IH]; simpl; [done|]. by rewrite Hx, IH. Qed.

Lemma forallb_Forall {A} (f : A -> bool) xs : forallb f xs = true <-> Forall (fun x => f x = true) xs.
Proof. rewrite forallb_forall, Forall_forall. by setoid_rewrite list_elem_of_In. Qed.

Lemma forallb_elem {A} (f : A -> bool) xs x : forallb f xs = true -> x ∈ xs -> f x = true.
Proof. rewrite forallb_Forall, Forall_forall. auto. Qed.

Lemma map_same {A} (f : A -> A) xs : Forall (fun x => f x = x) xs -> map f xs = xs.
Proof. induction 1 as [|x xs Hx _ IH]; simpl; [done|]. by rewrite Hx, IH. Qed.

Lemma normalized_finite x v : normalize_json x = Ok v -> json_finite v = true.
Proof.
  revert v. pattern x. apply py_ind; clear x; [intros []; simpl; try done|intros l IH|intros d IH];
    simpl; try by intros v [= <-].
  - intros v ([] & Hf%rraise_if_ok & [= <-])%rbind_ok. by apply negb_false_iff in Hf.
  - intros v (ys & Hys%rmap_Forall & [= <-])%rbind_ok. simpl. apply forallb_Forall.
    induction Hys as [|x y l ys Hxy _ IHy]; [constructor|]. apply Forall_cons in IH as [Hx IH].
    constructor; [by apply Hx|by apply IHy].
  - intros v ([] & _ & (ys & Hys%rmap_Forall & [= <-])%rbind_ok)%rbind_ok. simpl.
    apply forallb_Forall. induction Hys as [|x y l ys Hxy _ IHy]; [constructor|].
    apply Forall_cons in IH as [Hx IH]. apply rbind_ok in Hxy as (z & Hz & [= <-]).
    constructor; [by apply Hx|by apply IHy].
Qed.

Lemma normalize_py_of v :
  normalize_json (py_of v) = if json_finite v then Ok v else Raise TraceCaptureRejected.
Proof.
  induction v as [|b|z|f|s|l IH|d IH] using json_ind; simpl; try done.
  - by destruct (isfinite f).
  - assert (rmap normalize_json (map py_of l) =
      if forallb json_finite l then Ok l else Raise TraceCaptureRejected) as ->; [|by destruct (forallb _ _)].
    induction IH as [|x l Hx _ IHl]; simpl; [done|]. rewrite Hx. destruct (json_finite x); [|done].
    simpl. rewrite IHl. by destruct (forallb _ _).
  - rewrite existsb_none by (intros ? ([] & <- & _)%list_elem_of_In%in_map_iff; done). simpl.
    match goal with |- context[rmap ?g ?xs] => assert (rmap g xs =
      if forallb (fun kv => json_finite kv.2) d then Ok d else Raise TraceCaptureRejected) as -> end;
      [|by destruct (forallb _ _)].
    induction IH as [|[k x] d Hx _ IHl]; simpl in *; [done|]. rewrite Hx. destruct (json_finite x); [|done].
    simpl. rewrite IHl. by destruct (forallb _ _).
Qed.

(** ** Dictionaries under a map *)

Lemma dget_map_entries {V W} (g : pystr -> V -> W) (d : dict pystr V) k :
  dget (map (fun kv => (kv.1, g kv.1 kv.2)) d : dict pystr W) k = g k <$> dget d k.
Proof.
  induction d as [|[k' x] d IH]; simpl; [done|]. case_decide; [by subst|done].
Qed.

Lemma dget_flat_map {V W} (drop : pystr -> bool) (g : pystr -> V -> W) (d : dict pystr V) k :
  drop k = false ->
  dget (flat_map (fun kv => if drop kv.1 then [] else [(kv.1, g kv.1 kv.2)]) d : dict pystr W) k =
  g k <$> dget d k.
Proof.
  intros Hk. induction d as [|[k' x] d IH]; simpl; [done|]. case_decide; [subst; rewrite Hk; simpl|].
  - by rewrite decide_True.
  - destruct (drop k'); simpl; [done|]. by rewrite decide_False.
Qed.

(** ** What is never retained *)

Section safety.
Context {env : CaptureEnv}.

(** No credential: the value of a credential's key, and the second of a pair that a
    credential's name begins, is the marker. *)
Fixpoint credential_free (v : JsonValue) : bool :=
  match v with
  | JList [JStr k; x] =>
      if is_credential_key k then bool_decide (x = redacted_marker) else credential_free x
  | JList l => forallb credential_free l
  | JObj d => forallb (fun kv => if is_credential_key kv.1 then bool_decide (kv.2 = redacted_marker)
                                 else credential_free kv.2) d
  | _ => true
  end.

(** No [reasoning_content] in any [additional_kwargs]. *)
Fixpoint reasoning_free_within (metadata : bool) (v : JsonValue) : bool :=
  match v with
  | JList l => forallb (reasoning_free_within false) l
  | JObj d => forallb (fun kv => negb (metadata && is_reasoning_key kv.1) &&
                                 reasoning_free_within (is_metadata_key kv.1) kv.2) d
  | _ => true
  end.
Definition reasoning_free : JsonValue -> bool := reasoning_free_within false.

Definition is_safe (v : JsonValue) : bool := credential_free v && reasoning_free v.

(** A pair that a text begins. *)
Definition text_pair (l : list JsonValue) : option (pystr * JsonValue) :=
  match l with [JStr k; x] => Some (k, x) | _ => None end.

Lemma text_pair_some l k x : text_pair l = Some (k, x) -> l = [JStr k; x].
Proof. destruct l as [|[] [|y [|]]]; try done. by intros [= -> ->]. Qed.

Lemma text_pair_map (f : JsonValue -> JsonValue) l :
  (forall v k, f v = JStr k <-> v = JStr k) ->
  text_pair (map f l) = (fun kx => (kx.1, f kx.2)) <$> text_pair l.
Proof.
  intros Hf.
  destruct l as [|x [|y [|]]]; simpl; try done; try by destruct x; destruct (f _).
  destruct x as [| | | |k| |]; try by destruct (f _) eqn:Ex; try done; by apply (proj1 (Hf _ _)) in Ex.
  by rewrite (proj2 (Hf (JStr k) k) eq_refl).
Qed.

Lemma redact_list l :
  redact_credentials (JList l) =
  match text_pair l with
  | Some (k, _) => if is_credential_key k then JList [JStr k; redacted_marker]
                   else JList (map redact_credentials l)
  | None => JList (map redact_credentials l)
  end.
Proof. by destruct l as [|[] [|y [|]]]. Qed.

Lemma credential_free_list l :
  credential_free (JList l) =
  match text_pair l with
  | Some (k, x) => if is_credential_key k then bool_decide (x = redacted_marker)
                   else forallb credential_free l
  | None => forallb credential_free l
  end.
Proof.
  destruct l as [|[] [|y [|]]]; try done. simpl. by rewrite andb_true_r.
Qed.

Lemma redact_text v k : redact_credentials v = JStr k <-> v = JStr k.
Proof.
  destruct v as [| | | | |l|]; try done. rewrite redact_list.
  destruct (text_pair l) as [[k' x]|]; [destruct (is_credential_key k')|]; done.
Qed.

Lemma strip_text m v k : strip_within m v = JStr k <-> v = JStr k.
Proof. by destruct v. Qed.

(** The source's own equation: the object of an [additional_kwargs] loses its reasoning. *)
Lemma strip_object d :
  strip_private_reasoning (JObj d) =
  JObj (map (fun kv => (kv.1, strip_private_reasoning
    match kv.2 with
    | JObj m => if is_metadata_key kv.1
                then JObj (List.filter (fun entry => negb (is_reasoning_key entry.1)) m) else kv.2
    | item => item
    end)) d).
Proof.
  unfold strip_private_reasoning. simpl. f_equal. induction d as [|[k x] d IH]; simpl; [done|].
  rewrite IH. f_equal. f_equal. destruct x as [| | | | | |m]; try done.
  destruct (is_metadata_key k); simpl; [|done]. f_equal.
  induction m as [|[k' y] m IHm]; simpl; [done|]. by destruct (is_reasoning_key k'); simpl; rewrite IHm.
Qed.

Lemma redacted_is_free v : credential_free (redact_credentials v) = true.
Proof.
  induction v as [|b|z|f|s|l IH|d IH] using json_ind; try done.
  - rewrite redact_list. assert (forallb credential_free (map redact_credentials l) = true) as Hall.
    { apply forallb_Forall, Forall_map. done. }
    destruct (text_pair l) as [[k x]|] eqn:El; [destruct (is_credential_key k) eqn:Ek|].
    + simpl. by rewrite Ek.
    + rewrite credential_free_list, text_pair_map, El by apply redact_text. simpl. by rewrite Ek.
    + by rewrite credential_free_list, text_pair_map, El by apply redact_text.
  - simpl. apply forallb_Forall, Forall_map. eapply Forall_impl; [exact IH|]. intros [k x] Hx.
    simpl in *. by destruct (is_credential_key k).
Qed.

Lemma redact_free_same v : credential_free v = true -> redact_credentials v = v.
Proof.
  induction v as [|b|z|f|s|l IH|d IH] using json_ind; try done.
  - rewrite credential_free_list, redact_list. intros Hc.
    assert (forallb credential_free l = true -> map redact_credentials l = l) as Hall.
    { intros H%forallb_Forall. apply map_same. clear Hc. induction H as [|x l Hx _ IHl]; [constructor|].
      apply Forall_cons in IH as [IH0 IH]. constructor; [by apply IH0|by apply IHl]. }
    destruct (text_pair l) as [[k x]|] eqn:El; [|by rewrite Hall].
    destruct (is_credential_key k); [|by rewrite Hall].
    apply bool_decide_eq_true in Hc as ->. by rewrite (text_pair_some _ _ _ El).
  - simpl. intros Hc%forallb_Forall. f_equal. apply map_same.
    induction Hc as [|[k x] d Hx _ IHd]; [constructor|]. apply Forall_cons in IH as [IH0 IH].
    constructor; [|by apply IHd]. simpl in *. destruct (is_credential_key k).
    + apply bool_decide_eq_true in Hx as ->. done.
    + by rewrite IH0.
Qed.

Lemma strip_marker m : strip_within m redacted_marker = redacted_marker.
Proof. by destruct m. Qed.

Lemma strip_keeps_free m v : credential_free v = true -> credential_free (strip_within m v) = true.
Proof.
  revert m. induction v as [|b|z|f|s|l IH|d IH] using json_ind; intros m; try done.
  - change (strip_within m (JList l)) with (JList (map (strip_within false) l)).
    rewrite !credential_free_list, text_pair_map by apply strip_text.
    assert (forallb credential_free l = true ->
      forallb credential_free (map (strip_within false) l) = true) as Hall.
    { intros H%forallb_Forall. apply forallb_Forall, Forall_map.
      induction H as [|x l Hx _ IHl]; [constructor|]. apply Forall_cons in IH as [IH0 IH].
      constructor; [by apply IH0|by apply IHl]. }
    destruct (text_pair l) as [[k x]|] eqn:El; [|done]. simpl.
    destruct (is_credential_key k); [|done]. intros Hx%bool_decide_eq_true. apply bool_decide_eq_true.
    subst x. apply strip_marker.
  - simpl. intros Hc%forallb_Forall. apply forallb_Forall.
    induction Hc as [|[k x] d Hx _ IHd]; [constructor|]. apply Forall_cons in IH as [IH0 IH].
    simpl in *. destruct (m && is_reasoning_key k); simpl; [by apply IHd|].
    constructor; [|by apply IHd]. simpl. destruct (is_credential_key k).
    + apply bool_decide_eq_true in Hx. subst x. apply bool_decide_eq_true, strip_marker.
    + by apply IH0.
Qed.

Lemma stripped_is_free m v : reasoning_free_within m (strip_within m v) = true.
Proof.
  revert m. induction v as [|b|z|f|s|l IH|d IH] using json_ind; intros m; try done; simpl.
  - apply forallb_Forall, Forall_map. eapply Forall_impl; [exact IH|]. done.
  - apply forallb_Forall. induction IH as [|[k x] d Hx _ IHd]; simpl; [constructor|].
    destruct (m && is_reasoning_key k) eqn:Em; simpl; [done|]. constructor; [|done]. simpl in *.
    by rewrite Em, Hx.
Qed.

Lemma strip_free_same m v : reasoning_free_within m v = true -> strip_within m v = v.
Proof.
  revert m. induction v as [|b|z|f|s|l IH|d IH] using json_ind; intros m; try done; simpl.
  - intros H%forallb_Forall. f_equal. apply map_same. induction H as [|x l Hx _ IHl]; [constructor|].
    apply Forall_cons in IH as [IH0 IH]. constructor; [by apply IH0|by apply IHl].
  - intros H%forallb_Forall. f_equal. induction H as [|[k x] d Hx _ IHd]; simpl; [done|].
    apply Forall_cons in IH as [IH0 IH]. simpl in *. apply andb_true_iff in Hx as [Hm Hx].
    destruct (m && is_reasoning_key k); [done|]. simpl. by rewrite IH0, IHd.
Qed.

(** Parts of a safe value are safe. *)
Lemma reasoning_free_plain m v : reasoning_free_within m v = true -> reasoning_free v = true.
Proof.
  unfold reasoning_free. destruct v as [| | | | | |d]; try done. simpl. rewrite !forallb_Forall.
  intros H. eapply Forall_impl; [exact H|]. intros [k x] [_ Hx]%andb_true_iff. simpl in *. done.
Qed.

End safety.

(** ** Keys of the framework *)

Section laws.
Context {env : CaptureEnv} {laws : CaptureLaws env}.

Lemma ascii_key s :
  forallb is_ascii (separate_words s) = true ->
  is_credential_key s =
  existsb (fun credential =>
    let normalized := strip_underscores (join_words false (map ascii_lower (separate_words s))) in
    bool_decide (normalized = credential) || ends_with (95 :: credential) normalized)
    CREDENTIAL_KEYS.
Proof. intros H. unfold is_credential_key, credential_key. by rewrite fold_case_ascii. Qed.

(** A key of the framework is none of a credential. *)
Ltac no_credential := rewrite ascii_key by (vm_compute; reflexivity); vm_compute; reflexivity.

Lemma framework_keys :
  Forall (fun k => is_credential_key k = false)
    [u "$type"; u "type"; u "extras"; u "attachment"; u "file_id"; u "mime_type"; u "id"; u "name";
     u "size_bytes"].
Proof. repeat constructor; no_credential. Qed.

Lemma framework_key k :
  k ∈ [u "$type"; u "type"; u "extras"; u "attachment"; u "file_id"; u "mime_type"; u "id"; u "name";
       u "size_bytes"] -> is_credential_key k = false.
Proof. intros Hk. exact (proj1 (Forall_forall _ _) framework_keys k Hk). Qed.

Lemma marker_safe : is_safe redacted_marker = true.
Proof.
  unfold is_safe, reasoning_free. simpl. by rewrite framework_key by by left.
Qed.

(** ** Parts *)

Lemma safe_entry d k x : is_safe (JObj d) = true -> dget d k = Some x -> is_safe x = true.
Proof.
  intros [Hc Hr]%andb_true_iff Hx%dget_elem_of. simpl in Hc. unfold reasoning_free in Hr. simpl in Hr.
  rewrite forallb_Forall, Forall_forall in Hc, Hr. specialize (Hc _ Hx). specialize (Hr _ Hx).
  simpl in *. destruct (is_credential_key k).
  - apply bool_decide_eq_true in Hc as ->. apply marker_safe.
  - unfold is_safe. rewrite Hc. simpl. by eapply reasoning_free_plain.
Qed.

Lemma safe_item l i x : is_safe (JList l) = true -> l !! i = Some x -> is_safe x = true.
Proof.
  intros [Hc Hr]%andb_true_iff Hx%list_elem_of_lookup_2. unfold reasoning_free in Hr. simpl in Hr.
  rewrite forallb_Forall, Forall_forall in Hr. specialize (Hr _ Hx). rewrite credential_free_list in Hc.
  assert (forallb credential_free l = true -> credential_free x = true) as Hall
    by (rewrite forallb_Forall, Forall_forall; auto).
  unfold is_safe, reasoning_free. rewrite Hr, andb_true_r.
  destruct (text_pair l) as [[k y]|] eqn:El; [|by apply Hall].
  destruct (is_credential_key k); [|by apply Hall]. apply bool_decide_eq_true in Hc as ->.
  apply text_pair_some in El as ->. apply elem_of_cons in Hx as [->|Hx%list_elem_of_singleton]; [done|]. subst x.
  by destruct (proj1 (andb_true_iff _ _) marker_safe).
Qed.

Lemma safe_part components v x :
  is_safe v = true -> resolve_at components v = Ok (Some x) -> is_safe x = true.
Proof.
  revert v. induction components as [|c components IH]; intros v Hv; simpl; [by intros [= <-]|].
  destruct v as [| | | | |l|d]; try done.
  - destruct (is_array_index c); [|done]. intros (i & _ & H)%rbind_ok.
    destruct (l !! i) as [y|] eqn:Hy; [|done]. eapply IH; [by eapply safe_item|done].
  - destruct (dget d c) as [y|] eqn:Hy; [|done]. intros H. eapply IH; [by eapply safe_entry|done].
Qed.

Lemma framework_safe_is_safe v r : framework_safe v = Ok r -> is_safe r = true.
Proof.
  intros (w & _ & [= <-])%rbind_ok. unfold is_safe, strip_private_reasoning.
  apply andb_true_iff. split; [apply strip_keeps_free, redacted_is_free|apply stripped_is_free].
Qed.

Lemma secure_redact_is_safe value context redactor r :
  secure_redact value context redactor = Ok r -> is_safe r = true.
Proof.
  intros (v & _ & (safe & Hs & Hr)%rbind_ok)%rbind_ok.
  destruct redactor as [rd|]; [apply rbind_ok in Hr as (w & _ & Hr)|injection Hr as <-];
    by eapply framework_safe_is_safe.
Qed.

Lemma redact_is_safe pl value context safe : redact pl value context = Ok safe -> is_safe safe = true.
Proof.
  intros (s & Hs & (v & _ & ([] & _ & [= <-])%rbind_ok)%rbind_ok)%rbind_ok.
  by eapply secure_redact_is_safe.
Qed.

(** ** Captured values *)

Lemma omitted_value size reason cv : omitted size reason = Ok cv -> cv_value cv = None.
Proof. by intros ([] & _ & [= <-])%rbind_ok. Qed.

Lemma bound_value value max_bytes cv x :
  bound value max_bytes = Ok cv -> cv_value cv = Some x -> x = value.
Proof.
  intros (m & _ & (v & Hv & (b & _ & H)%rbind_ok)%rbind_ok)%rbind_ok.
  rewrite normalize_py_of in Hv. destruct (json_finite value); [|done]. injection Hv as <-.
  destruct (_ <? _); [intros Hx; by rewrite (omitted_value _ _ _ H) in Hx|].
  apply rbind_ok in H as ([] & _ & [= <-]). simpl. by destruct value; intros [= <-].
Qed.

(** ** Selection *)

Lemma select_paths_spec safe paths selected selected' p :
  select_paths safe paths selected = Ok selected' ->
  dget selected' p =
  if decide (p ∈ paths)
  then match resolve_pointer safe p with Ok (Some x) => Some x | _ => dget selected p end
  else dget selected p.
Proof.
  revert selected. induction paths as [|q paths IH]; intros selected; simpl; [by intros [= <-]|].
  intros (found & Hf & Hr)%rbind_ok. rewrite (IH _ Hr). clear IH Hr.
  destruct (decide (q = p)) as [->|Hne].
  - rewrite (decide_True (P := p ∈ p :: paths)) by (by left). rewrite Hf.
    destruct found as [x|]; [rewrite dget_dset_eq|]; by destruct (decide _).
  - assert (dget (match found with Some x => dset selected q x | None => selected end) p =
            dget selected p) as -> by (destruct found; [by rewrite dget_dset_ne|done]).
    destruct (decide (p ∈ paths)) as [Hin|Hni].
    + by rewrite decide_True by by right.
    + rewrite decide_False; [done|]. by intros [->|?]%elem_of_cons.
Qed.

(** ** Redacting again *)

(** Attachments are references, of an attachment that a field accepts. *)
Fixpoint settled (v : JsonValue) : bool :=
  match v with
  | JList l => forallb settled l
  | JObj d =>
      match attachment_metadata d with
      | Some metadata =>
          match attachment_of metadata with
          | Some a => bool_decide (JObj d = content_block a)
          | None => false
          end
      | None => forallb (fun kv => settled kv.2) d
      end
  | _ => true
  end.

Lemma settled_same v : settled v = true -> restore_attachments v = Ok v.
Proof.
  induction v as [|b|z|f|s|l IH|d IH] using json_ind; try done; simpl.
  - intros H%forallb_Forall. rewrite rmap_same; [done|].
    induction H as [|x l Hx _ IHl]; [constructor|]. apply Forall_cons in IH as [IH0 IH].
    constructor; [by apply IH0|by apply IHl].
  - destruct (attachment_metadata d) as [m|].
    { destruct (attachment_of m) as [a|]; [|done]. intros H%bool_decide_eq_true. by rewrite H. }
    intros H%forallb_Forall. rewrite rmap_same; [done|].
    induction H as [|[k x] d Hx _ IHd]; [constructor|]. apply Forall_cons in IH as [IH0 IH].
    constructor; [|by apply IHd]. simpl in *. by rewrite IH0.
Qed.

(** What a field has accepted once, it accepts again. *)
Lemma text_field_again d name maximum s :
  text_field d name maximum = Some s ->
  lax_text (JStr s) = Some s /\ bounded_text maximum s = true.
Proof.
  unfold text_field. destruct (dget d name) as [x|]; [|done].
  destruct (lax_text x) as [t|] eqn:Et; [|done]. destruct (bounded_text maximum t) eqn:Eb; [|done].
  intros [= <-]. by rewrite (lax_text_again _ _ Et), Eb.
Qed.

Lemma int_field_again d name z :
  int_field d name = Some z -> lax_int (JInt z) = Some z /\ (0 <=? z) = true.
Proof.
  unfold int_field. destruct (dget d name) as [x|]; [|done].
  destruct (lax_int x) as [t|] eqn:Et; [|done]. destruct (0 <=? t) eqn:Eb; [|done].
  intros [= <-]. by rewrite (lax_int_again _ _ Et), Eb.
Qed.

Lemma attachment_again v a :
  attachment_of v = Some a ->
  attachment_of (JObj [(u "id", JStr (at_id a)); (u "name", JStr (at_name a));
    (u "mime_type", JStr (at_mime_type a)); (u "size_bytes", JInt (at_size_bytes a))]) = Some a.
Proof.
  destruct v as [| | | | | |d]; try done. unfold attachment_of. destruct (existsb _ d); [done|].
  destruct (text_field d (u "id") 128) as [id|] eqn:E1; [|done].
  destruct (text_field d (u "name") 255) as [name|] eqn:E2; [|done].
  destruct (text_field d (u "mime_type") 128) as [mime|] eqn:E3; [|done].
  destruct (int_field d (u "size_bytes")) as [size|] eqn:E4; [|done]. intros [= <-].
  apply text_field_again in E1, E2, E3. apply int_field_again in E4. destruct E4 as [E4 E5].
  cbn [at_id at_name at_mime_type at_size_bytes]. unfold text_field, int_field. simpl.
  by rewrite (proj1 E1), (proj1 E2), (proj1 E3), (proj2 E1), (proj2 E2), (proj2 E3), E4, E5.
Qed.

Lemma content_block_settled v a : attachment_of v = Some a -> settled (content_block a) = true.
Proof.
  intros Ha. unfold content_block. cbn [settled].
  match goal with |- context[attachment_metadata ?d] => assert (attachment_metadata d =
    Some (JObj [(u "id", JStr (at_id a)); (u "name", JStr (at_name a));
      (u "mime_type", JStr (at_mime_type a)); (u "size_bytes", JInt (at_size_bytes a))])) as -> end.
  { by destruct (is_prefix (u "image/") (at_mime_type a)). }
  rewrite (attachment_again _ _ Ha). by apply bool_decide_eq_true.
Qed.

(** The entries of an object, restored. *)
Definition restored_entry (kv kv' : pystr * JsonValue) : Prop :=
  (let? y := restore_attachments kv.2 in Ok (kv.1, y)) = Ok kv'.

Lemma restored_dget d ys k :
  Forall2 restored_entry d ys ->
  match dget d k, dget ys k with
  | Some x, Some y => restore_attachments x = Ok y
  | None, None => True
  | _, _ => False
  end.
Proof.
  induction 1 as [|[k1 x] [k2 y] d ys H _ IH]; simpl; [done|].
  apply rbind_ok in H as (z & Hz & [= <- <-]). by case_decide.
Qed.

Lemma restored_text x y t : restore_attachments x = Ok y -> y = JStr t -> x = JStr t.
Proof.
  intros H ->. destruct x as [| | | | |l|d]; simpl in H; try congruence.
  - by apply rbind_ok in H as (? & _ & ?).
  - destruct (attachment_metadata d) as [m|]; [by destruct (attachment_of m)|].
    by apply rbind_ok in H as (? & _ & ?).
Qed.

Lemma restored_object x y e' :
  restore_attachments x = Ok y -> y = JObj e' ->
  exists e, x = JObj e /\ (dget e (u "attachment") = None -> dget e' (u "attachment") = None).
Proof.
  intros H ->. destruct x as [| | | | |l|d]; simpl in H; try congruence.
  - by apply rbind_ok in H as (? & _ & ?).
  - exists d. split; [done|]. intros Hno. destruct (attachment_metadata d) as [m|].
    { destruct (attachment_of m) as [a|]; [|done]. injection H as <-. done. }
    apply rbind_ok in H as (ys & Hys%rmap_Forall & [= <-]).
    pose proof (restored_dget d ys (u "attachment") Hys) as Hd. rewrite Hno in Hd.
    by destruct (dget ys _).
Qed.

Lemma restored_metadata d ys :
  Forall2 restored_entry d ys -> attachment_metadata d = None -> attachment_metadata ys = None.
Proof.
  intros Hys. unfold attachment_metadata.
  pose proof (restored_dget d ys (u "type") Hys) as Ht.
  pose proof (restored_dget d ys (u "extras") Hys) as He.
  destruct (dget ys (u "type")) as [y|]; [|by destruct (dget ys _) as [[]|]].
  destruct (dget d (u "type")) as [x|]; [|done].
  destruct y as [| | | |t| |]; try done; try by destruct (dget ys _) as [[]|].
  apply (restored_text _ _ t) in Ht as ->; [|done].
  destruct (dget ys (u "extras")) as [[| | | | | |e']|]; try done.
  destruct (dget d (u "extras")) as [x'|]; [|done].
  apply (restored_object _ _ e') in He as (e & -> & He); [|done].
  by destruct (bool_decide _).
Qed.

Lemma restored_is_settled v r : restore_attachments v = Ok r -> settled r = true.
Proof.
  revert r. induction v as [|b|z|f|s|l IH|d IH] using json_ind; intros r; simpl; try by intros [= <-].
  - intros (ys & Hys%rmap_Forall & [= <-])%rbind_ok. simpl. apply forallb_Forall.
    induction Hys as [|x y l ys Hxy _ IHy]; [constructor|]. apply Forall_cons in IH as [Hx IH].
    constructor; [by apply Hx|by apply IHy].
  - destruct (attachment_metadata d) as [m|] eqn:Em.
    { destruct (attachment_of m) as [a|] eqn:Ea; [|done]. intros [= <-]. by eapply content_block_settled. }
    intros (ys & Hys%rmap_Forall & [= <-])%rbind_ok. cbn [settled].
    rewrite (restored_metadata d ys) by done. apply forallb_Forall. clear Em.
    induction Hys as [|[k1 x] [k2 y] d ys Hxy _ IHy]; [constructor|].
    apply Forall_cons in IH as [Hx IH]. apply rbind_ok in Hxy as (z & Hz & [= <- <-]).
    constructor; [by apply Hx|by apply IHy].
Qed.

Lemma restored_finite v r :
  restore_attachments v = Ok r -> json_finite v = true -> json_finite r = true.
Proof.
  revert r. induction v as [|b|z|f|s|l IH|d IH] using json_ind; intros r; simpl; try by intros [= <-].
  - intros (ys & Hys%rmap_Forall & [= <-])%rbind_ok Hf%forallb_Forall. simpl. apply forallb_Forall.
    induction Hys as [|x y l ys Hxy _ IHy]; [constructor|]. apply Forall_cons in IH as [Hx IH].
    apply Forall_cons in Hf as [Hf0 Hf]. constructor; [by apply Hx|by apply IHy].
  - destruct (attachment_metadata d) as [m|].
    { destruct (attachment_of m) as [a|]; [|done]. by intros [= <-]. }
    intros (ys & Hys%rmap_Forall & [= <-])%rbind_ok Hf%forallb_Forall. simpl. apply forallb_Forall.
    induction Hys as [|[k1 x] [k2 y] d ys Hxy _ IHy]; [constructor|].
    apply Forall_cons in IH as [Hx IH]. apply Forall_cons in Hf as [Hf0 Hf].
    apply rbind_ok in Hxy as (z & Hz & [= <- <-]). constructor; [by apply Hx|by apply IHy].
Qed.

(** A map of the values that keeps texts and objects, keeps the metadata apart from the
    map itself. *)
Lemma mapped_metadata (f : JsonValue -> JsonValue) (d d' : dict pystr JsonValue) :
  dget d' (u "type") = f <$> dget d (u "type") ->
  dget d' (u "extras") = f <$> dget d (u "extras") ->
  (forall v k, f v = JStr k <-> v = JStr k) ->
  (forall v, match v, f v with
             | JObj e, JObj e' => dget e' (u "attachment") = f <$> dget e (u "attachment")
             | JObj _, _ | _, JObj _ => False
             | _, _ => True
             end) ->
  attachment_metadata d' = f <$> attachment_metadata d.
Proof.
  intros Ht He Htext Hobj. unfold attachment_metadata. rewrite Ht, He.
  destruct (dget d (u "type")) as [x|]; simpl; [|done].
  assert (forall A (a b : pystr -> A) c,
    match f x with JStr k => a k | _ => c end = match x with JStr k => a k | _ => c end) as Hx.
  { intros A a b c. destruct (f x) as [| | | |k| |] eqn:Ex;
      try (destruct x as [| | | |k'| |]; try done; by rewrite (proj2 (Htext (JStr k') k') eq_refl) in Ex).
    by rewrite (proj1 (Htext _ _) Ex). }
  rewrite Hx by exact (fun _ => None). destruct x as [| | | |t| |]; try done.
  destruct (dget d (u "extras")) as [y|]; simpl; [|done]. specialize (Hobj y).
  destruct y as [| | | | | |e], (f _) as [| | | | | |e']; try done.
  by destruct (bool_decide _).
Qed.

Lemma content_block_free a : credential_free (content_block a) = true.
Proof.
  unfold content_block. cbn [credential_free forallb fst snd].
  repeat rewrite framework_key by (apply (bool_decide_unpack _); vm_compute; exact I). done.
Qed.

Lemma reference_is_free d m :
  attachment_metadata d = Some m -> settled (JObj d) = true -> credential_free (JObj d) = true.
Proof.
  intros Em. cbn [settled]. rewrite Em. destruct (attachment_of m) as [a|]; [|done].
  intros ->%bool_decide_eq_true. apply content_block_free.
Qed.

Lemma reference_has_no_reasoning d m b :
  attachment_metadata d = Some m -> settled (JObj d) = true ->
  reasoning_free_within b (JObj d) = true.
Proof.
  intros Em. cbn [settled]. rewrite Em. destruct (attachment_of m) as [a|]; [|done].
  intros ->%bool_decide_eq_true. by destruct b.
Qed.

Lemma redact_settled v : settled v = true -> settled (redact_credentials v) = true.
Proof.
  induction v as [|b|z|f|s|l IH|d IH] using json_ind; try done.
  - rewrite redact_list. intros H%forallb_Forall.
    assert (settled (JList (map redact_credentials l)) = true) as Hall.
    { simpl. apply forallb_Forall, Forall_map. induction H as [|x l Hx _ IHl]; [constructor|].
      apply Forall_cons in IH as [IH0 IH]. constructor; [by apply IH0|by apply IHl]. }
    by destruct (text_pair l) as [[k x]|]; [destruct (is_credential_key k)|].
  - destruct (attachment_metadata d) as [m|] eqn:Em.
    { intros Hd. rewrite redact_free_same; [done|]. by eapply reference_is_free. }
    intros Hd. simpl in Hd. rewrite Em in Hd. apply forallb_Forall in Hd.
    set (g := fun k x => if is_credential_key k then redacted_marker else redact_credentials x).
    change (redact_credentials (JObj d)) with (JObj (map (fun kv => (kv.1, g kv.1 kv.2)) d)).
    assert (forall (e : dict pystr JsonValue) k, is_credential_key k = false ->
      dget (map (fun kv => (kv.1, g kv.1 kv.2)) e : dict pystr JsonValue) k =
      redact_credentials <$> dget e k) as Hget.
    { intros e k Hk. rewrite dget_map_entries. unfold g. rewrite Hk. by destruct (dget e k). }
    cbn [settled]. rewrite (mapped_metadata redact_credentials d).
    + rewrite Em. simpl. apply forallb_Forall, Forall_map. clear Em Hget.
      induction Hd as [|[k x] d Hx _ IHd]; [constructor|]. apply Forall_cons in IH as [IH0 IH].
      constructor; [|by apply IHd]. simpl in *. unfold g. destruct (is_credential_key k); [done|by apply IH0].
    + apply Hget, framework_key. by apply (bool_decide_unpack _).
    + apply Hget, framework_key. by apply (bool_decide_unpack _).
    + apply redact_text.
    + intros [| | | | |l|e]; try done; [rewrite redact_list; by destruct (text_pair l) as [[k ?]|];
         [destruct (is_credential_key k)|]|].
      apply (Hget e), framework_key. by apply (bool_decide_unpack _).
Qed.

Lemma strip_settled v m : settled v = true -> settled (strip_within m v) = true.
Proof.
  revert m. induction v as [|b|z|f|s|l IH|d IH] using json_ind; intros b0; try done.
  - simpl. intros H%forallb_Forall. apply forallb_Forall, Forall_map.
    induction H as [|x l Hx _ IHl]; [constructor|].
    apply Forall_cons in IH as [IH0 IH]. constructor; [by apply IH0|by apply IHl].
  - destruct (attachment_metadata d) as [m|] eqn:Em.
    { intros Hd. rewrite strip_free_same; [done|]. by eapply reference_has_no_reasoning. }
    intros Hd. simpl in Hd. rewrite Em in Hd. apply forallb_Forall in Hd.
    assert (forall (e : dict pystr JsonValue) b k, is_reasoning_key k = false ->
      is_metadata_key k = false ->
      dget (flat_map (fun kv => if b && is_reasoning_key kv.1 then []
              else [(kv.1, strip_within (is_metadata_key kv.1) kv.2)]) e : dict pystr JsonValue) k =
      strip_within false <$> dget e k) as Hget.
    { intros e b k H1 H2. rewrite (dget_flat_map (fun k => b && is_reasoning_key k)
        (fun k x => strip_within (is_metadata_key k) x)) by (by rewrite H1, andb_false_r).
      by rewrite H2. }
    cbn [strip_within settled]. rewrite (mapped_metadata (strip_within false) d).
    + rewrite Em. simpl. apply forallb_Forall. clear Em Hget.
      induction Hd as [|[k x] d Hx _ IHd]; simpl; [constructor|].
      apply Forall_cons in IH as [IH0 IH]. destruct (b0 && is_reasoning_key k); simpl; [by apply IHd|].
      constructor; [|by apply IHd]. by apply IH0.
    + by apply Hget.
    + by apply Hget.
    + apply strip_text.
    + intros [| | | | |l|e]; try done. by apply (Hget e false).
Qed.

Lemma redact_finite v : json_finite v = true -> json_finite (redact_credentials v) = true.
Proof.
  induction v as [|b|z|f|s|l IH|d IH] using json_ind; try done.
  - rewrite redact_list. intros H%forallb_Forall.
    assert (json_finite (JList (map redact_credentials l)) = true) as Hall.
    { simpl. apply forallb_Forall, Forall_map. induction H as [|x l Hx _ IHl]; [constructor|].
      apply Forall_cons in IH as [IH0 IH]. constructor; [by apply IH0|by apply IHl]. }
    by destruct (text_pair l) as [[k x]|]; [destruct (is_credential_key k)|].
  - simpl. intros H%forallb_Forall. apply forallb_Forall, Forall_map.
    induction H as [|[k x] d Hx _ IHd]; [constructor|]. apply Forall_cons in IH as [IH0 IH].
    constructor; [|by apply IHd]. simpl in *. destruct (is_credential_key k); [done|by apply IH0].
Qed.

Lemma strip_finite m v : json_finite v = true -> json_finite (strip_within m v) = true.
Proof.
  revert m. induction v as [|b|z|f|s|l IH|d IH] using json_ind; intros b0; try done; simpl.
  - intros H%forallb_Forall. apply forallb_Forall, Forall_map.
    induction H as [|x l Hx _ IHl]; [constructor|].
    apply Forall_cons in IH as [IH0 IH]. constructor; [by apply IH0|by apply IHl].
  - intros H%forallb_Forall. apply forallb_Forall.
    induction H as [|[k x] d Hx _ IHd]; simpl; [constructor|]. apply Forall_cons in IH as [IH0 IH].
    destruct (b0 && is_reasoning_key k); simpl; [by apply IHd|]. constructor; [by apply IH0|by apply IHd].
Qed.

(** What the framework has made safe, it leaves as it is. *)
Lemma framework_safe_again v r :
  framework_safe v = Ok r -> json_finite v = true ->
  json_finite r = true /\ framework_safe r = Ok r.
Proof.
  intros (w & Hw & [= <-])%rbind_ok Hf. unfold strip_private_reasoning.
  pose proof (restored_is_settled _ _ Hw) as Hs. pose proof (restored_finite _ _ Hw Hf) as Hwf.
  split; [by apply strip_finite, redact_finite|]. unfold framework_safe.
  rewrite settled_same by by apply strip_settled, redact_settled. simpl.
  rewrite (redact_free_same (strip_within false _)) by apply strip_keeps_free, redacted_is_free.
  unfold strip_private_reasoning. by rewrite (strip_free_same false (strip_within false _))
    by apply stripped_is_free.
Qed.

Lemma framework_safe_settled v r : framework_safe v = Ok r -> settled r = true.
Proof.
  intros (w & Hw & [= <-])%rbind_ok. unfold strip_private_reasoning.
  apply strip_settled, redact_settled. by eapply restored_is_settled.
Qed.

Lemma redact_is_settled pl value context safe : redact pl value context = Ok safe -> settled safe = true.
Proof.
  intros (s & Hs & (v & _ & ([] & _ & [= <-])%rbind_ok)%rbind_ok)%rbind_ok.
  apply rbind_ok in Hs as (w & _ & (x & Hx & Hs)%rbind_ok).
  destruct (pl_redactor pl) as [rd|]; [apply rbind_ok in Hs as (y & _ & Hs)|injection Hs as <-];
    by eapply framework_safe_settled.
Qed.

Lemma apply_redactor_finite rd v cx r : apply_redactor rd v cx = Ok r -> json_finite r = true.
Proof.
  intros ([] & _ & (s & _ & (b & _ & H)%rbind_ok)%rbind_ok)%rbind_ok.
  destruct (rd_redact rd s cx) as [[x| | |] after]; try done. apply rbind_ok in H as (? & _ & H).
  by eapply normalized_finite.
Qed.

(** ** Steps into a value *)

Definition child (component : pystr) (v : JsonValue) : res capture_exn (option JsonValue) :=
  match v with
  | JObj d => Ok (dget d component)
  | JList l => if is_array_index component
               then let? i := array_index component in Ok (l !! i) else Ok None
  | _ => Ok None
  end.

Definition set_child (component : pystr) (y v : JsonValue) : JsonValue :=
  match v with
  | JObj d => JObj (dset d component y)
  | JList l => match array_index component with Ok i => JList (<[i := y]> l) | Raise _ => v end
  | _ => v
  end.

Lemma resolve_child c rest v :
  resolve_at (c :: rest) v =
  let? x := child c v in match x with Some x => resolve_at rest x | None => Ok None end.
Proof.
  destruct v as [| | | | |l|d]; simpl; try done. destruct (is_array_index c); [|done].
  by destruct (array_index c).
Qed.

Lemma replace_child c rest v :
  replace_at (c :: rest) v =
  let? x := child c v in
  match x with
  | Some x => let? y := match rest with [] => Ok redacted_marker | _ => replace_at rest x end in
              Ok (set_child c y v)
  | None => Ok v
  end.
Proof.
  destruct v as [| | | | |l|d]; simpl; try done. destruct (is_array_index c); [|done].
  by destruct (array_index c).
Qed.

(** A decimal without leading zeros is the only one of its number. *)
Definition decimal (s : pystr) : Z := fold_left (fun n c => 10 * n + (c - 48)) s 0.

Lemma decimal_snoc s c : decimal (s ++ [c]) = 10 * decimal s + (c - 48).
Proof. unfold decimal. by rewrite fold_left_app. Qed.

Definition digit (c : Z) : Prop := 48 <= c <= 57.

Lemma decimal_nonneg s : Forall digit s -> 0 <= decimal s.
Proof.
  induction s as [|c s IH] using rev_ind; [done|]. rewrite Forall_app, Forall_singleton, decimal_snoc.
  unfold digit. intros [Hs Hc]. specialize (IH Hs). lia.
Qed.

Lemma decimal_pos c s : Forall digit (c :: s) -> c <> 48 -> 0 < decimal (c :: s).
Proof.
  induction s as [|x s IH] using rev_ind.
  - rewrite Forall_singleton. unfold digit, decimal. simpl. lia.
  - rewrite app_comm_cons, Forall_app, Forall_singleton, decimal_snoc. intros [Hs Hx] Hc.
    specialize (IH Hs Hc). unfold digit in Hx. lia.
Qed.

Definition canonical_decimal (s : pystr) : Prop :=
  Forall digit s /\ (s = [48] \/ exists c s', s = c :: s' /\ c <> 48).

Lemma canonical_pos s x : canonical_decimal (s ++ [x]) -> s <> [] -> 0 < decimal s /\ canonical_decimal s.
Proof.
  intros [Hd Hs] Hne. apply Forall_app in Hd as [Hd _]. destruct Hs as [Hs|(c & s' & Hs & Hc)].
  - destruct s as [|? [|]]; [done|discriminate Hs..].
  - destruct s as [|c' s0]; [done|]. injection Hs as -> _. split; [by apply decimal_pos|].
    split; [done|]. right. by exists c, s0.
Qed.

Lemma canonical_inj s t :
  canonical_decimal s -> canonical_decimal t -> decimal s = decimal t -> s = t.
Proof.
  revert t. induction s as [|x s IH] using rev_ind; intros t Hs Ht.
  - by destruct Hs as [_ [|(? & ? & ? & _)]].
  - destruct t as [|y t _] using rev_ind; [by destruct Ht as [_ [|(? & ? & ? & _)]]|].
    rewrite !decimal_snoc. intros Heq.
    assert (digit x /\ digit y) as [Hx Hy].
    { destruct Hs as [Hs _], Ht as [Ht _]. rewrite Forall_app, Forall_singleton in Hs, Ht. tauto. }
    unfold digit in *.
    destruct (decide (s = [])) as [->|Hsn], (decide (t = [])) as [->|Htn].
    + assert (x = y) as -> by (unfold decimal in Heq; simpl in Heq; lia). done.
    + destruct (canonical_pos _ _ Ht Htn) as [? _]. unfold decimal in Heq at 1. simpl in Heq. lia.
    + destruct (canonical_pos _ _ Hs Hsn) as [? _]. unfold decimal in Heq at 2. simpl in Heq. lia.
    + destruct (canonical_pos _ _ Hs Hsn) as [_ Hs'], (canonical_pos _ _ Ht Htn) as [_ Ht'].
      assert (decimal s = decimal t /\ x = y) as [Hst ->] by lia. by rewrite (IH t).
Qed.

Lemma index_canonical s : is_array_index s = true -> canonical_decimal s.
Proof.
  unfold is_array_index. intros [H%bool_decide_eq_true|H]%orb_true_iff.
  - subst s. split; [|by left]. constructor; [unfold digit; lia|constructor].
  - destruct s as [|c s]; [done|]. apply andb_true_iff in H as [Hc Hall].
    split; [|right; exists c, s; split; [done|lia]]. apply forallb_Forall in Hall.
    eapply Forall_impl; [exact Hall|]. intros x. unfold ascii_digit, digit.
    destruct ((48 <=? x) && (x <=? 57)) eqn:Ex; [lia|done].
Qed.

Lemma array_index_inj s t i :
  is_array_index s = true -> is_array_index t = true ->
  array_index s = Ok i -> array_index t = Ok i -> s = t.
Proof.
  intros Hs%index_canonical Ht%index_canonical ([] & _ & [= H1])%rbind_ok ([] & _ & [= H2])%rbind_ok.
  apply canonical_inj; [done..|]. change (Z.to_nat (decimal s) = i) in H1.
  change (Z.to_nat (decimal t) = i) in H2. pose proof (decimal_nonneg s (proj1 Hs)).
  pose proof (decimal_nonneg t (proj1 Ht)). lia.
Qed.

Lemma child_set_same c v x y : child c v = Ok (Some x) -> child c (set_child c y v) = Ok (Some y).
Proof.
  destruct v as [| | | | |l|d]; simpl; try done.
  - destruct (is_array_index c) eqn:Ei; [|done]. destruct (array_index c) as [i|] eqn:Ea; [|done]. simpl.
    intros [= Hx]. rewrite Ei, Ea. simpl. rewrite list_lookup_insert_eq; [done|].
    by eapply lookup_lt_Some.
  - intros _. by rewrite dget_dset_eq.
Qed.

Lemma child_set_other c c' v x y :
  c <> c' -> child c v = Ok (Some x) -> child c' (set_child c y v) = child c' v.
Proof.
  intros Hne. destruct v as [| | | | |l|d]; simpl; try done.
  - destruct (is_array_index c) eqn:Ei; [|done]. destruct (array_index c) as [i|] eqn:Ea; [|done].
    simpl. intros _. destruct (is_array_index c') eqn:Ei'; [|done].
    destruct (array_index c') as [j|] eqn:Ea'; [|done]. simpl.
    rewrite list_lookup_insert_ne; [done|]. intros ->. by apply Hne, (array_index_inj c c' j).
  - intros _. by rewrite dget_dset_ne.
Qed.

(** ** Replacing *)

(** The marker, and what markers put into it leave. *)
Inductive marker_made : JsonValue -> Prop :=
| made_text : marker_made (JStr (u "redacted"))
| made_object y : marker_made y -> marker_made (JObj [(u "$type", y)]).

Lemma marker_is_made : marker_made redacted_marker.
Proof. apply made_object, made_text. Qed.

Lemma made_child c v x : marker_made v -> child c v = Ok (Some x) -> marker_made x.
Proof.
  intros [|y Hy]; simpl; [done|]. case_decide; [|done]. by intros [= <-].
Qed.

Lemma made_set c v x y :
  marker_made v -> child c v = Ok (Some x) -> marker_made y -> marker_made (set_child c y v).
Proof.
  intros [|z Hz]; simpl; [done|]. case_decide; [|done]. intros _ Hy. by apply made_object.
Qed.

Lemma made_part q v x : marker_made v -> resolve_at q v = Ok (Some x) -> marker_made x.
Proof.
  revert v. induction q as [|c q IH]; intros v Hv; [by intros [= <-]|]. rewrite resolve_child.
  intros ([y|] & Hy & Hr)%rbind_ok; [|done]. eapply IH; [|done]. by eapply made_child.
Qed.

Lemma made_replaced p v v' : marker_made v -> replace_at p v = Ok v' -> marker_made v'.
Proof.
  revert v v'. induction p as [|c p IH]; intros v v' Hv; [by intros [= <-]|]. rewrite replace_child.
  intros ([x|] & Hx & Hr)%rbind_ok; [|by injection Hr as <-].
  apply rbind_ok in Hr as (y & Hy & [= <-]). pose proof (made_child _ _ _ Hv Hx) as Hmx.
  eapply made_set; [done|done|]. destruct p as [|c' p]; [injection Hy as <-; apply marker_is_made|].
  by eapply IH.
Qed.

(** Two ways into a value that part. *)
Fixpoint diverges (p q : list pystr) : Prop :=
  match p, q with
  | c :: p, d :: q => c <> d \/ c = d /\ diverges p q
  | _, _ => False
  end.

Lemma replace_elsewhere p q v v' :
  replace_at p v = Ok v' -> diverges p q -> resolve_at q v' = resolve_at q v.
Proof.
  revert q v v'. induction p as [|c p IH]; intros q v v'; [by destruct q|].
  destruct q as [|d q]; [done|]. rewrite replace_child. intros ([x|] & Hx & Hr)%rbind_ok;
    [|by injection Hr as <-].
  apply rbind_ok in Hr as (y & Hy & [= <-]). rewrite !resolve_child. intros [Hne|[<- Hd]].
  - by rewrite (child_set_other c d v x y).
  - rewrite (child_set_same c v x y), Hx by done. simpl. destruct p as [|c' p]; [done|].
    by eapply IH.
Qed.

(** At its own path, and below. *)
Lemma replaced_here p v v' x :
  p <> [] -> replace_at p v = Ok v' -> resolve_at p v = Ok (Some x) ->
  resolve_at p v' = Ok (Some redacted_marker).
Proof.
  revert v v'. induction p as [|c p IH]; intros v v' Hne; [done|]. rewrite replace_child, resolve_child.
  intros ([y|] & Hy & Hr)%rbind_ok; [|rewrite Hy; simpl; done]. apply rbind_ok in Hr as (z & Hz & [= <-]).
  rewrite Hy. intros Hx. simpl in Hx. rewrite resolve_child, (child_set_same c v y z) by done. simpl.
  destruct p as [|c' p]; [by injection Hz as <-|]. by eapply IH.
Qed.

(** What is at [q] when it is the marker's or nothing. *)
Definition blank (q : list pystr) (v : JsonValue) : Prop :=
  forall x, resolve_at q v = Ok (Some x) -> marker_made x.

Lemma blank_replaced p v v' : p <> [] -> replace_at p v = Ok v' -> blank p v'.
Proof.
  revert v v'. induction p as [|c p IH]; intros v v' Hne; [done|]. rewrite replace_child.
  intros ([y|] & Hy & Hr)%rbind_ok x Hx; rewrite resolve_child in Hx.
  - apply rbind_ok in Hr as (z & Hz & [= <-]). rewrite (child_set_same c v y z) in Hx by done.
    simpl in Hx. destruct p as [|c' p]; [injection Hz as <-; injection Hx as <-; apply marker_is_made|].
    by eapply (IH y z).
  - injection Hr as <-. by rewrite Hy in Hx.
Qed.

Lemma blank_kept p q v v' : replace_at p v = Ok v' -> p <> [] -> blank q v -> blank q v'.
Proof.
  revert q v v'. induction p as [|c p IH]; intros q v v' Hr Hp Hq; [done|].
  destruct q as [|d q].
  { intros x [= <-]. eapply made_replaced; [|done]. by apply Hq. }
  rewrite replace_child in Hr. apply rbind_ok in Hr as ([x|] & Hx & Hr); [|by injection Hr as <-].
  apply rbind_ok in Hr as (y & Hy & [= <-]). intros z. rewrite resolve_child.
  destruct (decide (c = d)) as [<-|Hne].
  2: { rewrite (child_set_other c d v x y) by done. rewrite <-resolve_child. apply Hq. }
  rewrite (child_set_same c v x y) by done. simpl.
  assert (blank q x) as Hqx.
  { intros w Hw. apply Hq. rewrite resolve_child, Hx. done. }
  destruct p as [|c' p]; [injection Hy as <-; intros Hz; by eapply made_part, Hz; apply marker_is_made|].
  by apply (IH q x y Hy).
Qed.

Lemma pointers_kept paths q v v' :
  replace_pointers paths v = Ok v' -> (forall p, p ∈ paths -> pointer_components p <> []) ->
  blank q v -> blank q v'.
Proof.
  revert v. induction paths as [|p paths IH]; intros v; simpl; [by intros [= <-]|].
  intros (w & Hw & Hr)%rbind_ok Hp Hq. eapply IH; [done| |].
  - intros p' Hin. apply Hp. by right.
  - eapply blank_kept; [done| |done]. apply Hp. by left.
Qed.

Lemma pointers_blank paths p v v' :
  replace_pointers paths v = Ok v' -> (forall p, p ∈ paths -> pointer_components p <> []) ->
  p ∈ paths -> blank (pointer_components p) v'.
Proof.
  revert v. induction paths as [|p' paths IH]; intros v; simpl; [by intros _ _ ?%elem_of_nil|].
  intros (w & Hw & Hr)%rbind_ok Hp Hin. assert (forall p, p ∈ paths -> pointer_components p <> []) as Hp'.
  { intros p0 H0. apply Hp. by right. }
  apply elem_of_cons in Hin as [->|Hin]; [|by eapply IH].
  eapply pointers_kept; [done|done|]. eapply blank_replaced; [|done]. apply Hp. by left.
Qed.

Lemma pointers_elsewhere paths q v v' :
  replace_pointers paths v = Ok v' -> (forall p, p ∈ paths -> diverges (pointer_components p) q) ->
  resolve_at q v' = resolve_at q v.
Proof.
  revert v. induction paths as [|p paths IH]; intros v; simpl; [by intros [= <-]|].
  intros (w & Hw & Hr)%rbind_ok Hp. rewrite (IH w Hr) by (intros; apply Hp; by right).
  eapply replace_elsewhere; [done|]. apply Hp. by left.
Qed.

Lemma canonical_components path :
  path <> [] -> is_canonical_pointer path = true -> pointer_components path <> [].
Proof.
  destruct path as [|c path]; [done|]. intros _ [Hc _]%andb_true_iff.
  unfold pointer_components. simpl. rewrite Hc. simpl. by destruct (split_on 47 path) eqn:E1;
    [destruct path as [|x path]; simpl in E1; [|destruct (x =? 47); [|destruct (split_on 47 path)]]|].
Qed.

(** A path that parts from the others leads to the marker. *)
Lemma pointers_marked order p v x r :
  (forall p', p' ∈ order -> pointer_components p' <> []) -> NoDup order -> p ∈ order ->
  (forall p', p' ∈ order -> p' <> p ->
     diverges (pointer_components p') (pointer_components p)) ->
  replace_pointers order v = Ok r -> resolve_pointer v p = Ok (Some x) ->
  resolve_pointer r p = Ok (Some redacted_marker).
Proof.
  intros Hne Hnd Hin Hdiv. revert v.
  induction order as [|q order IH]; intros v; simpl; [by apply elem_of_nil in Hin|].
  intros (w & Hw & Hr)%rbind_ok Hx. apply NoDup_cons in Hnd as [Hq Hnd].
  destruct (decide (q = p)) as [->|Hqp]; unfold resolve_pointer in *.
  - rewrite (pointers_elsewhere order _ w r Hr).
    + eapply replaced_here; [apply Hne; by left|exact Hw|exact Hx].
    + intros p' Hp'. apply Hdiv; [by right|]. by intros ->.
  - apply elem_of_cons in Hin as [->|Hin]; [done|].
    eapply (IH ltac:(intros; apply Hne; by right) Hnd Hin
      ltac:(intros; apply Hdiv; [by right|done]) w Hr).
    rewrite (replace_elsewhere _ _ _ _ Hw); [done|]. apply Hdiv; [by left|done].
Qed.

(** ** Sizes and errors *)

(** A call of the pipeline with a budget of [n] bytes, on arguments it accepts. *)
Inductive capture_call (pl : TraceCapturePipeline) (n : Z) : res capture_exn CapturedValue -> Prop :=
| call_capture value cx : capture_call pl n (capture pl value cx (PyInt n))
| call_reasoning value name cx :
    redaction_context KModelResponse name = Ok cx ->
    capture_call pl n (capture_reasoning pl value name (PyInt n))
| call_tool name value target cx :
    redaction_context KToolArguments (Some name) = Ok cx ->
    capture_call pl n (capture_tool pl name value target (PyInt n))
| call_metadata value cx reason :
    bounded_text 1024 reason = true ->
    capture_call pl n (capture_metadata_only pl value cx reason)
| call_structure value cx : capture_call pl n (capture_structure pl value cx (PyInt n)).

(** No component of a path is longer than the interpreter reads as a number. *)
Definition readable (path : pystr) : bool :=
  forallb (fun c => zlen c <=? 4300) (pointer_components path).
Definition policy_readable (p : CapturePolicy) : bool :=
  forallb (fun c => forallb readable (tc_argument_paths c) && forallb readable (tc_result_paths c))
    (po_default_tool_capture p :: map snd (po_tool_overrides p)) &&
  forallb (fun r => forallb readable (tr_argument_paths r) && forallb readable (tr_result_paths r))
    (po_tool_rules p).

(** What a call answers: a value within the budget with its exact size, or a reason and
    the size it would have had; or it rejects. *)
Definition well_bounded (n : Z) (cv : CapturedValue) : Prop :=
  match cv_disposition cv with
  | Inline => cv_reason cv = None /\ exists b, encode (default JNull (cv_value cv)) = Ok b /\
      cv_safe_size_bytes cv = zlen b /\ zlen b <= n
  | Omitted => cv_value cv = None /\ is_Some (cv_reason cv)
  end.

Definition answers (n : Z) (r : res capture_exn CapturedValue) : Prop :=
  match r with
  | Ok cv => well_bounded n cv
  | Raise e => e = TraceCaptureRejected
  end.

Lemma omitted_answers n size reason :
  0 <= size -> bounded_text 1024 reason = true -> answers n (omitted size reason).
Proof.
  intros Hs Hr. unfold omitted, validated.
  assert (CapturedValue_valid {| cv_disposition := Omitted; cv_safe_size_bytes := size;
            cv_value := None; cv_reason := Some reason |} = true) as ->.
  { unfold CapturedValue_valid. simpl. rewrite Hr, (proj2 (Z.leb_le 0 size)) by done. done. }
  split; [done|by eexists].
Qed.

Lemma encode_raises v e : encode v = Raise e -> e = TraceCaptureRejected.
Proof. unfold encode. destruct (canonical_json v); [done|]. by intros [= <-]. Qed.

Lemma bound_answers value n : 1 <= n -> answers n (bound value (PyInt n)).
Proof.
  intros Hn. unfold bound. simpl. rewrite (proj2 (Z.ltb_ge n 1)) by done. simpl.
  rewrite normalize_py_of. destruct (json_finite value); [|done]. simpl.
  destruct (encode value) as [b|e] eqn:Ee; [|simpl; by eapply encode_raises]. simpl.
  destruct (Z.ltb_spec n (zlen b)) as [|Hle].
  { apply omitted_answers; [apply zlen_nonneg|done]. }
  assert (default JNull (python_value value) = value) as Hd by by destruct value.
  unfold validated, CapturedValue_valid. simpl. rewrite Hd, Ee, Z.eqb_refl.
  rewrite (proj2 (Z.leb_le 0 (zlen b))) by apply zlen_nonneg. simpl.
  split; [done|]. exists b. simpl. by rewrite Hd.
Qed.

Lemma rmap_raises {E A B} (f : A -> res E B) (P : E -> Prop) xs e :
  Forall (fun x => forall e, f x = Raise e -> P e) xs -> rmap f xs = Raise e -> P e.
Proof.
  induction 1 as [|x xs Hx _ IH]; simpl; [done|].
  destruct (f x) as [y|e'] eqn:Ey; simpl; [|intros [= <-]; by apply Hx].
  destruct (rmap f xs) as [rest|e'']; simpl; [done|]. intros [= <-]. by apply IH.
Qed.

Lemma normalize_raises x e : normalize_json x = Raise e -> e = TraceCaptureRejected.
Proof.
  revert e. pattern x. apply py_ind; clear x;
    [intros []; simpl; try done; try (intros e; by intros [= <-])|intros l IH e|intros d IH e]; simpl.
  - intros e. destruct (negb _); simpl; [by intros [= <-]|done].
  - destruct (rmap normalize_json l) eqn:E1; simpl; [done|]. intros [= <-].
    by eapply (rmap_raises normalize_json (fun e => e = TraceCaptureRejected)).
  - destruct (existsb _ d); simpl; [by intros [= <-]|].
    match goal with |- context[rmap ?g d] => destruct (rmap g d) eqn:E1 end; simpl; [done|].
    intros [= <-]. eapply (rmap_raises _ (fun e => e = TraceCaptureRejected)); [|exact E1].
    eapply Forall_impl; [exact IH|]. intros [k y] Hy e'. simpl in *.
    destruct (normalize_json y); simpl; [done|]. intros [= <-]. by apply Hy.
Qed.

Lemma restore_raises v e : restore_attachments v = Raise e -> e = TraceCaptureRejected.
Proof.
  revert e. induction v as [|b|z|f|s|l IH|d IH] using json_ind; intros e; simpl; try done.
  - destruct (rmap restore_attachments l) eqn:E1; simpl; [done|]. intros [= <-].
    by eapply (rmap_raises restore_attachments (fun e => e = TraceCaptureRejected)).
  - destruct (attachment_metadata d) as [m|].
    { destruct (attachment_of m); [done|]. by intros [= <-]. }
    match goal with |- context[rmap ?g d] => destruct (rmap g d) eqn:E1 end; simpl; [done|].
    intros [= <-]. eapply (rmap_raises _ (fun e => e = TraceCaptureRejected)); [|exact E1].
    eapply Forall_impl; [exact IH|]. intros [k y] Hy e'. simpl in *.
    destruct (restore_attachments y); simpl; [done|]. intros [= <-]. by apply Hy.
Qed.

(** Without an extension, redaction rejects or answers. *)
Lemma redact_raises pl value cx e :
  pl_redactor pl = None -> redact pl value cx = Raise e -> e = TraceCaptureRejected.
Proof.
  intros Hno. unfold redact, secure_redact. rewrite Hno.
  destruct (normalize_json value) as [v|e'] eqn:En; simpl; [|intros [= <-]; by eapply normalize_raises].
  unfold framework_safe. destruct (restore_attachments v) as [w|e'] eqn:Er; simpl;
    [|intros [= <-]; by eapply restore_raises].
  unfold validate_context_shape. match goal with |- context[rraise_if ?b _] => destruct b end;
    simpl; [|done]. by intros [= <-].
Qed.

Lemma resolve_readable v path : readable path = true -> exists o, resolve_pointer v path = Ok o.
Proof.
  unfold readable, resolve_pointer. generalize (pointer_components path). intros p.
  revert v. induction p as [|c p IH]; intros v; simpl; [by eexists|]. intros [Hc Hp]%andb_true_iff.
  destruct v as [| | | | |l|d]; try by eexists.
  - destruct (is_array_index c); [|by eexists]. unfold array_index.
    rewrite (proj2 (Z.ltb_ge 4300 (zlen c))) by lia. simpl.
    destruct (l !! _); [by apply IH|by eexists].
  - destruct (dget d c); [by apply IH|by eexists].
Qed.

Lemma select_readable safe paths selected :
  forallb readable paths = true -> exists d, select_paths safe paths selected = Ok d.
Proof.
  revert selected. induction paths as [|p paths IH]; intros selected; simpl; [by eexists|].
  intros [Hp Hps]%andb_true_iff. destruct (resolve_readable safe p Hp) as [o ->]. by apply IH.
Qed.

(** The setting of a tool, in a policy that is accepted. *)
Lemma tool_capture_found p name :
  CapturePolicy_valid p = true -> policy_readable p = true ->
  exists c, tool_capture p name = Ok c /\ ToolTraceCapture_valid c = true /\
    forallb readable (tc_argument_paths c) = true /\ forallb readable (tc_result_paths c) = true.
Proof.
  unfold CapturePolicy_valid, policy_readable, tool_capture. simpl.
  intros [[[[[[Hd Ho]%andb_true_iff Hr]%andb_true_iff _]%andb_true_iff _]%andb_true_iff
    _]%andb_true_iff _]%andb_true_iff [[[H1 H2]%andb_true_iff Hso]%andb_true_iff Hsr]%andb_true_iff.
  destruct (find _ (po_tool_overrides p)) as [o|] eqn:Eo.
  { apply find_some in Eo as [Hin%list_elem_of_In _]. exists o.2. split; [done|].
    split; [exact (forallb_elem _ _ _ Ho Hin)|]. apply andb_true_iff.
    apply (forallb_elem _ _ _ Hso), list_elem_of_fmap. by exists o. }
  destruct (find _ (po_tool_rules p)) as [r|] eqn:Er; [|eauto].
  apply find_some in Er as [Hin%list_elem_of_In _].
  pose proof (forallb_elem _ _ _ Hr Hin) as [[_ Ha]%andb_true_iff Hs]%andb_true_iff.
  pose proof (forallb_elem _ _ _ Hsr Hin) as [Hra Hrs]%andb_true_iff. unfold selected_content, validated.
  assert (ToolTraceCapture_valid {| tc_mode := SelectedContent;
    tc_argument_paths := tr_argument_paths r; tc_result_paths := tr_result_paths r;
    tc_include_review_description := tr_include_review_description r |} = true) as Hok.
  { unfold ToolTraceCapture_valid. simpl. by rewrite Ha, Hs. }
  rewrite Hok. simpl. eauto.
Qed.
(** The setting of a name: its override, its rule, or the default. *)
Lemma find_unique {A} (key : A -> pystr) xs x :
  NoDup (map key xs) -> x ∈ xs -> find (fun y => bool_decide (key y = key x)) xs = Some x.
Proof.
  induction xs as [|y xs IH]; simpl; [by intros _ ?%elem_of_nil|].
  intros [Hy Hnd]%NoDup_cons [->|Hx]%elem_of_cons; [by rewrite bool_decide_true|].
  rewrite bool_decide_false; [by apply IH|]. intros Hk. apply Hy. rewrite Hk.
  apply list_elem_of_fmap. by exists x.
Qed.

Lemma find_nothing {A} (key : A -> pystr) xs k :
  ~ k ∈ map key xs -> find (fun y => bool_decide (key y = k)) xs = None.
Proof.
  intros Hk. destruct (find _ xs) as [x|] eqn:Ex; [|done].
  apply find_some in Ex as [Hx%list_elem_of_In Hkx%bool_decide_eq_true]. exfalso. apply Hk, list_elem_of_fmap.
  by exists x.
Qed.

Lemma tool_capture_setting p name setting :
  CapturePolicy_valid p = true -> tool_capture p name = Ok setting ->
  (forall o, o ∈ po_tool_overrides p -> o.1 = name -> setting = o.2) /\
  (forall rule, rule ∈ po_tool_rules p -> tr_tool_name rule = name ->
     tc_mode setting = SelectedContent /\ tc_argument_paths setting = tr_argument_paths rule /\
     tc_result_paths setting = tr_result_paths rule) /\
  (~ name ∈ map fst (po_tool_overrides p) -> ~ name ∈ map tr_tool_name (po_tool_rules p) ->
   setting = po_default_tool_capture p).
Proof.
  unfold CapturePolicy_valid, tool_capture.
  intros [[[[_ Hnr%bool_decide_eq_true]%andb_true_iff _]%andb_true_iff
    Hno%bool_decide_eq_true]%andb_true_iff Hdis%negb_true_iff]%andb_true_iff Htc.
  split; [|split].
  - intros o Ho <-. rewrite (find_unique fst _ o) in Htc by done. by injection Htc.
  - intros rule Hrule <-.
    rewrite (find_nothing fst) in Htc.
    + rewrite (find_unique tr_tool_name _ rule) in Htc by done.
      by apply rbind_ok in Htc as ([] & _ & [= <-]).
    + intros (o & Ho & Hin)%list_elem_of_fmap. enough (true = false) by done. rewrite <-Hdis.
      symmetry. apply existsb_exists. exists rule. split; [by apply list_elem_of_In|].
      apply existsb_exists. exists o. split; [by apply list_elem_of_In|]. by apply bool_decide_eq_true.
  - intros H1 H2. rewrite (find_nothing fst), (find_nothing tr_tool_name) in Htc by done.
    by injection Htc.
Qed.

(** A pipeline without an extension, and a policy that is accepted. *)
Definition plain (pl : TraceCapturePipeline) : Prop :=
  pl_redactor pl = None /\ CapturePolicy_valid (pl_policy pl) = true /\
  policy_readable (pl_policy pl) = true.

Definition budgeted (pl : TraceCapturePipeline) (n : Z) (r : res capture_exn CapturedValue)
    : Prop :=
  (forall cv, r = Ok cv -> well_bounded n cv) /\ (plain pl -> answers n r).

Lemma budgeted_answers pl n r : answers n r -> budgeted pl n r.
Proof. intros H. split; [by intros cv ->|done]. Qed.

Lemma budgeted_bound pl n value : 1 <= n -> budgeted pl n (bound value (PyInt n)).
Proof. intros Hn. by apply budgeted_answers, bound_answers. Qed.

Lemma budgeted_omitted pl n size reason :
  bounded_text 1024 reason = true -> 0 <= size -> budgeted pl n (omitted size reason).
Proof. intros Hr Hs. by apply budgeted_answers, omitted_answers. Qed.

Lemma budgeted_bind {A} pl n (m : res capture_exn A) f :
  (plain pl -> forall e, m = Raise e -> e = TraceCaptureRejected) ->
  (forall a, m = Ok a -> budgeted pl n (f a)) -> budgeted pl n (rbind m f).
Proof.
  intros H1 H2. destruct m as [a|e]; [by apply H2|]. split; [done|]. intros Hp. by apply H1.
Qed.

Lemma budgeted_redact pl n value cx f :
  (forall safe, budgeted pl n (f safe)) -> budgeted pl n (rbind (redact pl value cx) f).
Proof.
  intros H. apply budgeted_bind; [|done]. intros (Hno & _) e. by apply redact_raises.
Qed.

Lemma budgeted_encode pl n safe f :
  (forall b, budgeted pl n (f b)) -> budgeted pl n (rbind (encode safe) f).
Proof. intros H. apply budgeted_bind; [|done]. intros _ e. apply encode_raises. Qed.

Lemma tool_budgeted pl n name value target cx :
  1 <= n -> redaction_context KToolArguments (Some name) = Ok cx ->
  budgeted pl n (capture_tool pl name value target (PyInt n)).
Proof.
  intros Hn Hcx. unfold capture_tool. simpl. rewrite (proj2 (Z.ltb_ge n 1)) by done. simpl.
  assert (exists c, redaction_context match target with TargetArguments => KToolArguments
    | TargetResult => KToolResult end (Some name) = Ok c) as [c ->].
  { destruct target; [by eexists|]. unfold redaction_context in *.
    apply rbind_ok in Hcx as ([] & H & _). rewrite H. by eexists. }
  simpl. apply budgeted_redact. intros safe. apply budgeted_encode. intros b.
  assert (plain pl -> exists tc, tool_capture (pl_policy pl) name = Ok tc /\
    forallb readable (tc_argument_paths tc) = true /\ forallb readable (tc_result_paths tc) = true)
    as Hplain.
  { intros (_ & Hv & Hr). destruct (tool_capture_found (pl_policy pl) name Hv Hr) as (tc & ? & _ & ?).
    by exists tc. }
  apply budgeted_bind.
  { intros (tc & -> & _)%Hplain e. done. }
  intros tc Htc. destruct (tc_mode tc).
  - by apply budgeted_bound.
  - by apply budgeted_omitted, zlen_nonneg.
  - apply budgeted_bind; [|intros d _; by apply budgeted_bound].
    intros (tc' & Htc' & Ha & Hr)%Hplain e. assert (tc' = tc) as -> by congruence.
    destruct target; [destruct (select_readable safe _ [] Ha) as [d ->]
      |destruct (select_readable safe _ [] Hr) as [d ->]]; done.
  - by apply budgeted_omitted, zlen_nonneg.
Qed.
End laws.
