(* ===== verification/TraceCaptureProps.v ===== *)
(** Tracing: the theorems on redaction and capture - what a retained value never holds, how
    much is retained, and which parts. *)
From S2P Require Import Prelude PyDict PySeq Contracts TraceModels TraceRedaction TraceCapture.
From S2P Require Import TraceCaptureFacts.
From Stdlib Require Import Strings.String.

(** ** The theorems *)

Section props.
Context {env : CaptureEnv} {laws : CaptureLaws env}.

(** C15: whatever a business redactor returns, a redacted value holds no credential - every
    value under a key that names one, and every second of a pair that begins with such a
    name, is the marker - no reasoning in the metadata of a message, and of an attachment
    only its reference; no credential and no reasoning is in what is captured of a
    payload or a tool, in each part that is retained, and metadata capture retains
    nothing. *)
Theorem retained_values_are_safe (pl : TraceCapturePipeline) (value : PyValue)
    (cx : RedactionContext) (name : pystr) (target : ToolTarget) (component : option pystr)
    (max_bytes : pyobj) (reason : pystr) :
  (forall safe, redact pl value cx = Ok safe -> is_safe safe = true /\ settled safe = true) /\
  (forall cv x, capture pl value cx max_bytes = Ok cv -> cv_value cv = Some x ->
     is_safe x = true) /\
  (forall cv x, capture_reasoning pl value component max_bytes = Ok cv -> cv_value cv = Some x ->
     is_safe x = true) /\
  (forall cv x, capture_tool pl name value target max_bytes = Ok cv -> cv_value cv = Some x ->
     is_safe x = true \/ exists d, x = JObj d /\ forall p y, dget d p = Some y -> is_safe y = true) /\
  (forall cv, capture_metadata_only pl value cx reason = Ok cv -> cv_value cv = None).
Proof.
  split; [intros safe Hs; split; [by eapply redact_is_safe|by eapply redact_is_settled]|]. split; [|split; [|split]].
  - intros cv x (safe & Hs & Hb)%rbind_ok Hx. rewrite (bound_value _ _ _ _ Hb Hx).
    by eapply redact_is_safe.
  - intros cv x (m & _ & (c & _ & (safe & Hs & (b & _ & Hr)%rbind_ok)%rbind_ok)%rbind_ok)%rbind_ok Hx.
    destruct (pl_reasoning_policy pl); [by rewrite (omitted_value _ _ _ Hr) in Hx|].
    rewrite (bound_value _ _ _ _ Hr Hx). by eapply redact_is_safe.
  - intros cv x (m & _ & (c & _ & (safe & Hs & (b & _ & (tc & _ & Hr)%rbind_ok)%rbind_ok)%rbind_ok)%rbind_ok)%rbind_ok Hx.
    apply redact_is_safe in Hs. destruct (tc_mode tc); try by rewrite (omitted_value _ _ _ Hr) in Hx.
    + left. by rewrite (bound_value _ _ _ _ Hr Hx).
    + apply rbind_ok in Hr as (d & Hd & Hr). right. exists d. split; [by eapply bound_value|].
      intros p y Hy. rewrite (select_paths_spec _ _ _ _ p Hd) in Hy.
      destruct (decide _); [|done]. destruct (resolve_pointer safe p) as [[z|]|] eqn:Hp; try done.
      injection Hy as <-. by eapply safe_part.
  - intros cv ([] & _ & (safe & _ & (b & _ & Hr)%rbind_ok)%rbind_ok)%rbind_ok. by eapply omitted_value.
Qed.

(** C35: a call of the capture pipeline that answers, keeps its budget: an inline value is
    within it and carries its exact size in canonical JSON, and an omitted one carries a
    reason and no value; without a business redactor, and with a policy that its
    validators accept and whose paths have no component longer than the 4300 digits
    [int] reads ([policy_readable]), it answers or raises TraceCaptureRejected.  With a
    longer component a plain ValueError can escape ([long_index_escapes]). *)
Theorem captures_are_bounded (pl : TraceCapturePipeline) (n : Z)
    (r : res capture_exn CapturedValue) :
  1 <= n -> capture_call pl n r ->
  (forall cv, r = Ok cv -> well_bounded n cv) /\
  (pl_redactor pl = None -> CapturePolicy_valid (pl_policy pl) = true ->
   policy_readable (pl_policy pl) = true -> answers n r).
Proof.
  intros Hn Hcall. assert (budgeted pl n r) as [H1 H2].
  { assert (validate_max_bytes (PyInt n) = Ok n) as Hmax
      by (simpl; by rewrite (proj2 (Z.ltb_ge n 1))).
    destruct Hcall as [value cx|value name cx Hcx|value name target cx Hcx|value cx reason Hreason|value cx].
    - apply budgeted_redact. intros safe. by apply budgeted_bound.
    - unfold capture_reasoning. rewrite Hmax, Hcx. simpl. apply budgeted_redact. intros safe.
      apply budgeted_encode. intros b. destruct (pl_reasoning_policy pl);
        [by apply budgeted_omitted, zlen_nonneg|by apply budgeted_bound].
    - eapply tool_budgeted; [done|exact Hcx].
    - unfold capture_metadata_only. rewrite Hreason. simpl. apply budgeted_redact. intros safe.
      apply budgeted_encode. intros b. by apply budgeted_omitted, zlen_nonneg.
    - unfold capture_structure. rewrite Hmax. simpl. apply budgeted_redact. intros safe.
      apply budgeted_encode. intros b. by apply budgeted_bound. }
  split; [done|]. intros Hno Hv Hread. by apply H2.
Qed.

(** C36: what redaction has made safe it leaves as it is: redacting the result again, in any
    context and with a business redactor or without one the first time, gives the same. *)
Theorem redaction_is_stable (value : PyValue) (cx cx' : RedactionContext)
    (redactor : option TraceRedactor) (r : JsonValue) :
  secure_redact value cx redactor = Ok r -> secure_redact (py_of r) cx' None = Ok r.
Proof.
  intros (v & Hv & (safe & Hs & Hr)%rbind_ok)%rbind_ok. apply normalized_finite in Hv.
  destruct (framework_safe_again _ _ Hs Hv) as [Hf Hs'].
  assert (json_finite r = true /\ framework_safe r = Ok r) as [Hf' Hr'].
  { destruct redactor as [rd|]; [|by injection Hr as <-].
    apply rbind_ok in Hr as (w & Hw & Hr). eapply framework_safe_again; [exact Hr|].
    by eapply apply_redactor_finite. }
  unfold secure_redact. rewrite normalize_py_of, Hf'. simpl. by rewrite Hr'.
Qed.

(** C16: when [redact_json_paths] answers, nothing of the value is left at or below a path
    that was given, in whatever order and however the paths overlap; a path that led
    somewhere and parts from all the others leads to the marker; and everything the paths
    part from is as it was. *)
Theorem redacted_paths_hold_nothing (value : PyValue) (paths : list pystr) (r : JsonValue) :
  redact_json_paths value paths = Ok r -> ~ [] ∈ paths ->
  exists v, normalize_json value = Ok v /\
    (forall p, p ∈ paths -> blank (pointer_components p) r) /\
    (forall p x, p ∈ paths -> resolve_pointer v p = Ok (Some x) ->
       (forall p', p' ∈ paths -> p' <> p ->
          diverges (pointer_components p') (pointer_components p)) ->
       resolve_pointer r p = Ok (Some redacted_marker)) /\
    (forall q, (forall p, p ∈ paths -> diverges (pointer_components p) q) ->
       resolve_at q r = resolve_at q v).
Proof.
  intros ([] & Hc%rraise_if_ok & ([] & Hd%rraise_if_ok & Hr)%rbind_ok)%rbind_ok Hroot.
  rewrite bool_decide_false in Hr by done. apply rbind_ok in Hr as (v & Hv & Hr).
  apply negb_false_iff, bool_decide_eq_true in Hd. exists v. split; [done|].
  set (order := sorted_by _ paths) in *.
  assert (order ≡ₚ paths) as Hperm by apply sorted_by_perm.
  assert (forall p, p ∈ order -> pointer_components p <> []) as Hne.
  { intros p Hp. rewrite Hperm in Hp. apply canonical_components; [by intros ->|].
    destruct (is_canonical_pointer p) eqn:Ep; [done|]. exfalso.
    assert (existsb (fun path => negb (is_canonical_pointer path)) paths = true) as H; [|congruence].
    apply existsb_exists. exists p. split; [by apply list_elem_of_In|by rewrite Ep]. }
  split; [|split].
  - intros p Hp. eapply pointers_blank; [done|done|by rewrite Hperm].
  - intros p x Hp Hx Hdiv. eapply (pointers_marked order p v x r); [exact Hne|by rewrite Hperm|
      by rewrite Hperm|intros p'; rewrite Hperm; apply Hdiv|exact Hr|exact Hx].
  - intros q Hq. eapply pointers_elsewhere; [done|]. intros p Hp. apply Hq. by rewrite <-Hperm.
Qed.

(** What is retained of a tool is what its setting says - the override of its name, or
    else its rule, or else the default - all of the redacted value, or exactly the
    selected paths that lead somewhere in it. *)
Theorem tool_capture_follows_policy (pl : TraceCapturePipeline) (name : pystr)
    (value : PyValue) (target : ToolTarget) (n : Z) (cv : CapturedValue) (x : JsonValue) :
  CapturePolicy_valid (pl_policy pl) = true ->
  capture_tool pl name value target (PyInt n) = Ok cv -> cv_value cv = Some x ->
  exists cx safe setting, redact pl value cx = Ok safe /\
    (forall o, o ∈ po_tool_overrides (pl_policy pl) -> o.1 = name -> setting = o.2) /\
    (forall rule, rule ∈ po_tool_rules (pl_policy pl) -> tr_tool_name rule = name ->
       tc_mode setting = SelectedContent /\ tc_argument_paths setting = tr_argument_paths rule /\
       tc_result_paths setting = tr_result_paths rule) /\
    (~ name ∈ map fst (po_tool_overrides (pl_policy pl)) ->
     ~ name ∈ map tr_tool_name (po_tool_rules (pl_policy pl)) ->
     setting = po_default_tool_capture (pl_policy pl)) /\
    match tc_mode setting with
    | FullContent => x = safe
    | SelectedContent => exists d, x = JObj d /\ forall p, dget d p =
        if decide (p ∈ match target with TargetArguments => tc_argument_paths setting
                       | TargetResult => tc_result_paths setting end)
        then match resolve_pointer safe p with Ok found => found | Raise _ => None end else None
    | MetadataOnly | CaptureDisabled => False
    end.
Proof.
  intros Hv (m & _ & (cx & _ & (safe & Hs & (b & _ & (tc & Htc & Hr)%rbind_ok)%rbind_ok)%rbind_ok)%rbind_ok)%rbind_ok Hx.
  exists cx, safe, tc. split; [done|].
  destruct (tool_capture_setting _ name tc Hv Htc) as (H1 & H2 & H3).
  split; [exact H1|]. split; [exact H2|]. split; [exact H3|].
  destruct (tc_mode tc).
  - by apply (bound_value safe (PyInt n) cv).
  - by rewrite (omitted_value _ _ _ Hr) in Hx.
  - apply rbind_ok in Hr as (d & Hd & Hr). exists d. split; [by apply (bound_value _ (PyInt n) cv)|].
    intros p. rewrite (select_paths_spec _ _ _ _ p Hd). destruct (decide _); [|done].
    by destruct (resolve_pointer safe p) as [[z|]|].
  - by rewrite (omitted_value _ _ _ Hr) in Hx.
Qed.
End props.

(** ** Witnesses *)

#[export] Instance ex_capture_env : CaptureEnv := {
  fold_case s := map ascii_lower s;
  float_text _ := u "0.5";
  lax_text v := match v with JStr s => Some s | _ => None end;
  lax_int v := match v with JInt z => Some z | _ => None end
}.

#[export] Instance ex_capture_laws : CaptureLaws ex_capture_env.
Proof. split; [done|intros v t; destruct v; simpl; congruence|intros v t; destruct v; simpl; congruence]. Qed.

(** A payload with a credential, a pair, private reasoning and an attachment. *)
Definition ex_payload : PyValue :=
  PyEntries
    [(Some (u "dbPassword"), PyText (u "p1"));
     (Some (u "headers"), PyItems [PyItems [PyText (u "Authorization"); PyText (u "p2")]]);
     (Some (u "additional_kwargs"),
        PyEntries [(Some (u "reasoning_content"), PyText (u "p3")); (Some (u "n"), PyNumber 7)]);
     (Some (u "file"),
        PyEntries [(Some (u "type"), PyText (u "image")); (Some (u "data"), PyText (u "p4"));
          (Some (u "extras"), PyEntries [(Some (u "attachment"),
             PyEntries [(Some (u "id"), PyText (u "1")); (Some (u "name"), PyText (u "a"));
               (Some (u "mime_type"), PyText (u "image/png")); (Some (u "size_bytes"), PyNumber 9)])])])].

Definition ex_context : RedactionContext :=
  {| cx_content_kind := KCustom; cx_component_name := None |}.

Definition ex_rule : ToolCaptureRule :=
  {| tr_tool_name := u "login"; tr_argument_paths := [u "/dbPassword"; u "/headers/0/0"; u "/none"];
     tr_result_paths := []; tr_include_review_description := false |}.
Definition ex_policy : CapturePolicy :=
  match public_safe [ex_rule] false with Ok p => p | Raise _ =>
    {| po_include_error_messages := false; po_default_tool_capture := metadata_only;
       po_tool_overrides := []; po_tool_rules := [] |} end.

(** An extension that returns its argument. *)
Definition ex_redactor : TraceRedactor :=
  {| rd_is_redactor := true; rd_is_coroutine := false;
     rd_redact v _ := (Returned (py_of v),
                       match canonical_json v with Ok b => Some b | Raise _ => None end) |}.

Definition ex_pipeline (redactor : option TraceRedactor) : TraceCapturePipeline :=
  {| pl_policy := ex_policy; pl_reasoning_policy := OmitReasoning; pl_redactor := redactor |}.

Definition ex_safe : JsonValue :=
  JObj [(u "dbPassword", redacted_marker);
        (u "headers", JList [JList [JStr (u "Authorization"); redacted_marker]]);
        (u "additional_kwargs", JObj [(u "n", JInt 7)]);
        (u "file", content_block {| at_id := u "1"; at_name := u "a"; at_mime_type := u "image/png";
                                    at_size_bytes := 9 |})].

Example ex_redacted : redact (ex_pipeline (Some ex_redactor)) ex_payload ex_context = Ok ex_safe.
Proof. vm_compute. reflexivity. Qed.

Definition ex_tool_capture : CapturedValue :=
  {| cv_disposition := Inline; cv_safe_size_bytes := 67;
     cv_value := Some (JObj [(u "/dbPassword", redacted_marker);
                             (u "/headers/0/0", JStr (u "Authorization"))]);
     cv_reason := None |}.

Example ex_tool_captured :
  capture_tool (ex_pipeline None) (u "login") ex_payload TargetArguments (PyInt 100) =
  Ok ex_tool_capture.
Proof. vm_compute. reflexivity. Qed.

Lemma retained_values_are_safe_witness :
  (is_safe ex_safe = true /\ settled ex_safe = true) /\
  (is_safe (default JNull (cv_value ex_tool_capture)) = true \/
   exists d, default JNull (cv_value ex_tool_capture) = JObj d /\
     forall p y, dget d p = Some y -> is_safe y = true).
Proof.
  split.
  - apply (retained_values_are_safe (ex_pipeline (Some ex_redactor)) ex_payload ex_context
      (u "login") TargetArguments None (PyInt 100) (u "r")). vm_compute. reflexivity.
  - eapply (retained_values_are_safe (ex_pipeline None) ex_payload ex_context (u "login")
      TargetArguments None (PyInt 100) (u "r")).
    + vm_compute. reflexivity.
    + vm_compute. reflexivity.
Defined.

Lemma captures_are_bounded_witness :
  well_bounded 100 ex_tool_capture /\ (plain (ex_pipeline None) -> answers 100 (Ok ex_tool_capture)).
Proof.
  destruct (captures_are_bounded (ex_pipeline None) 100 (Ok ex_tool_capture) ltac:(lia)) as [H1 H2].
  - assert (Ok ex_tool_capture = capture_tool (ex_pipeline None) (u "login") ex_payload
      TargetArguments (PyInt 100)) as -> by (vm_compute; reflexivity).
    eapply call_tool. vm_compute. reflexivity.
  - split; [by apply H1|]. intros _. apply H2; vm_compute; reflexivity.
Defined.

Lemma redaction_is_stable_witness :
  secure_redact (py_of ex_safe) ex_context None = Ok ex_safe.
Proof.
  apply (redaction_is_stable ex_payload ex_context ex_context (Some ex_redactor) ex_safe).
  vm_compute. reflexivity.
Defined.

(** Two paths that overlap, and one that parts from them. *)
Definition ex_paths : list pystr := [u "/a"; u "/a/0"; u "/b/1"].
Definition ex_document : PyValue :=
  PyEntries [(Some (u "a"), PyItems [PyNumber 1]); (Some (u "b"), PyItems [PyNumber 2; PyNumber 3])].
Definition ex_document_redacted : JsonValue :=
  JObj [(u "a", redacted_marker); (u "b", JList [JInt 2; redacted_marker])].

Lemma redacted_paths_hold_nothing_witness :
  exists v, normalize_json ex_document = Ok v /\
    (forall p, p ∈ ex_paths -> blank (pointer_components p) ex_document_redacted) /\
    (forall p x, p ∈ ex_paths -> resolve_pointer v p = Ok (Some x) ->
       (forall p', p' ∈ ex_paths -> p' <> p ->
          diverges (pointer_components p') (pointer_components p)) ->
       resolve_pointer ex_document_redacted p = Ok (Some redacted_marker)) /\
    (forall q, (forall p, p ∈ ex_paths -> diverges (pointer_components p) q) ->
       resolve_at q ex_document_redacted = resolve_at q v).
Proof.
  apply (redacted_paths_hold_nothing ex_document ex_paths ex_document_redacted).
  - vm_compute. reflexivity.
  - apply (bool_decide_unpack _). vm_compute. exact I.
Defined.

Lemma tool_capture_follows_policy_witness :
  exists cx safe setting,
    redact (ex_pipeline None) ex_payload cx = Ok safe /\
    (forall rule, rule ∈ po_tool_rules ex_policy -> tr_tool_name rule = u "login" ->
       tc_mode setting = SelectedContent /\ tc_argument_paths setting = tr_argument_paths rule /\
       tc_result_paths setting = tr_result_paths rule).
Proof.
  destruct (tool_capture_follows_policy (ex_pipeline None) (u "login") ex_payload TargetArguments 100
    ex_tool_capture (default JNull (cv_value ex_tool_capture)))
    as (cx & safe & setting & H1 & _ & H2 & _).
  - vm_compute. reflexivity.
  - vm_compute. reflexivity.
  - vm_compute. reflexivity.
  - exists cx, safe, setting. split; [exact H1|exact H2].
Defined.

(** A text with a lone surrogate: rejected, but with a business redactor the error of the
    encoder escapes from [_apply_redactor]. *)
Example unencodable_text_is_rejected :
  capture (ex_pipeline None) (PyText [55296]) ex_context (PyInt 100) = Raise TraceCaptureRejected.
Proof. vm_compute. reflexivity. Qed.

Example unencodable_text_escapes :
  capture (ex_pipeline (Some ex_redactor)) (PyText [55296]) ex_context (PyInt 100) =
  Raise CaptureUnicodeEncodeError.
Proof. vm_compute. reflexivity. Qed.

(** A path that the validators accept, with an index of more digits than [int] reads. *)
Definition ex_long_index : pystr := u "/" ++ repeat 49 (Pos.to_nat 4301).

Definition ex_long_pipeline : TraceCapturePipeline :=
  {| pl_policy := {| po_include_error_messages := false; po_default_tool_capture := metadata_only;
       po_tool_overrides := []; po_tool_rules := [{| tr_tool_name := u "list";
         tr_argument_paths := [ex_long_index]; tr_result_paths := [];
         tr_include_review_description := false |}] |};
     pl_reasoning_policy := OmitReasoning; pl_redactor := None |}.

Example long_index_escapes :
  CapturePolicy_valid (pl_policy ex_long_pipeline) = true /\
  capture_tool ex_long_pipeline (u "list") (PyItems []) TargetArguments (PyInt 100) =
    Raise CaptureValueError.
Proof. vm_compute. split; reflexivity. Qed.
