(* ===== verification/TraceGraph.v ===== *)
(** Tracing: _graph_reducer.py - how committed facts become the rows of the graph
    index, one row per node and run.

    A row is a mutable object of the index alone, so [apply_graph_node_mutation] is
    a computation that changes the index and keeps what it has changed when it
    raises. *)
From S2P Require Import Prelude PyDict PySeq Contracts TraceModels.
From Stdlib Require Import Strings.String.

(** ** Python's [or] *)

(** [a or b]; an empty string and zero are false. *)
Definition or_text (a b : option pystr) : option pystr :=
  match a with Some (_ :: _) => a | _ => b end.

Definition or_int (a b : option Z) : option Z :=
  match a with Some 0 | None => b | _ => a end.

(** [or] for values that are never false. *)
Definition or_else {A} (a b : option A) : option A :=
  match a with Some _ => a | None => b end.

(** ** Nodes and mutations (graph.py, backend.py) *)

Inductive TraceGraphNodeKind : Type :=
| HUMAN_MESSAGE | ASSISTANT_MESSAGE | CONTEXT | MODEL | TOOL | SUBAGENT | MEMORY | GUARDRAIL
| RETRIEVAL | CUSTOM | PLAN | INTERACTION.

#[export] Instance node_kind_eq : EqDecision TraceGraphNodeKind.
Proof. solve_decision. Defined.

Inductive TraceGraphNodeStatus : Type :=
| RUNNING | WAITING | SUCCEEDED | FAILED | CANCELLED | ABANDONED | UNKNOWN.

#[export] Instance node_status_eq : EqDecision TraceGraphNodeStatus.
Proof. solve_decision. Defined.

Inductive TraceGraphLinkIssue : Type :=
| MISSING_SUBAGENT | MISSING_MODEL_CALL | MISSING_TOOL_PROPOSAL.

#[export] Instance link_issue_eq : EqDecision TraceGraphLinkIssue.
Proof. solve_decision. Defined.

Record TraceGraphNodeMutation : Type := {
  mu_node_id : pystr;
  mu_updated_seq : Z;
  mu_run_id : pystr;
  mu_remove : bool;
  mu_kind : option TraceGraphNodeKind;
  mu_status : option TraceGraphNodeStatus;
  mu_name : option pystr;
  mu_parent_subagent_id : option pystr;
  mu_model_call_id : option pystr;
  mu_model_call_seq : option Z;
  mu_graph_namespace : option (list pystr);
  mu_agent_name : option pystr;
  mu_provider : option pystr;
  mu_model : option pystr;
  mu_started_at : option Z;
  mu_first_output_at : option Z;
  mu_completed_at : option Z;
  mu_started_seq : option Z;
  mu_request_seq : option Z;
  mu_result_seq : option Z;
  mu_failure_seq : option Z;
  mu_link_issue : option TraceGraphLinkIssue
}.

Definition TraceGraphNodeMutation_post_init (m : TraceGraphNodeMutation) : res trace_exn unit :=
  do? rraise_if (negb (Bool.eqb (absent (mu_model_call_id m)) (absent (mu_model_call_seq m))))
        TraceValueError in
  match mu_model_call_seq m with
  | None => Ok tt
  | Some s => rraise_if (negb ((1 <=? s) && (s <=? mu_updated_seq m))) TraceValueError
  end.

Record ReducedTraceGraphNode : Type := {
  n_node_id : pystr;
  n_parent_subagent_id : option pystr;
  n_model_call_id : option pystr;
  n_model_call_seq : option Z;
  n_kind : TraceGraphNodeKind;
  n_status : TraceGraphNodeStatus;
  n_name : pystr;
  n_run_id : pystr;
  n_graph_namespace : list pystr;
  n_agent_name : option pystr;
  n_provider : option pystr;
  n_model : option pystr;
  n_started_at : Z;
  n_first_output_at : option Z;
  n_completed_at : option Z;
  n_started_seq : Z;
  n_updated_seq : Z;
  n_request_seq : option Z;
  n_result_seq : option Z;
  n_failure_seq : option Z;
  n_link_issue : option TraceGraphLinkIssue
}.

(** A row of the index: a node, or the mark of a removed one. *)
Inductive ReducedTraceGraphRevision : Type :=
| Node (n : ReducedTraceGraphNode)
| Tombstone (node_id run_id : pystr) (updated_seq : Z).

Definition revision_node_id (r : ReducedTraceGraphRevision) : pystr :=
  match r with Node n => n_node_id n | Tombstone id _ _ => id end.
Definition revision_run_id (r : ReducedTraceGraphRevision) : pystr :=
  match r with Node n => n_run_id n | Tombstone _ run _ => run end.
Definition revision_updated_seq (r : ReducedTraceGraphRevision) : Z :=
  match r with Node n => n_updated_seq n | Tombstone _ _ s => s end.

(** The index: one row per node and run. *)
Definition Graph : Type := dict (pystr * pystr) ReducedTraceGraphRevision.

(** ** Building mutations

    A mutation that sets nothing, and the groups of fields the reducer sets. *)

Definition partial (node_id : pystr) (updated_seq : Z) (run_id : pystr) : TraceGraphNodeMutation :=
  {| mu_node_id := node_id; mu_updated_seq := updated_seq; mu_run_id := run_id;
     mu_remove := false; mu_kind := None; mu_status := None; mu_name := None;
     mu_parent_subagent_id := None; mu_model_call_id := None; mu_model_call_seq := None;
     mu_graph_namespace := None; mu_agent_name := None; mu_provider := None; mu_model := None;
     mu_started_at := None; mu_first_output_at := None; mu_completed_at := None;
     mu_started_seq := None; mu_request_seq := None; mu_result_seq := None;
     mu_failure_seq := None; mu_link_issue := None |}.

Definition removed (m : TraceGraphNodeMutation) : TraceGraphNodeMutation :=
  let 'Build_TraceGraphNodeMutation a b c _ d e f g h i j k l m n o p q r s t v := m in
  Build_TraceGraphNodeMutation a b c true d e f g h i j k l m n o p q r s t v.

Definition as_node (kind : TraceGraphNodeKind) (status : TraceGraphNodeStatus) (name : pystr)
    (m : TraceGraphNodeMutation) : TraceGraphNodeMutation :=
  let 'Build_TraceGraphNodeMutation a b c x _ _ _ g h i j k l m n o p q r s t v := m in
  Build_TraceGraphNodeMutation a b c x (Some kind) (Some status) (Some name) g h i j k l m n o p
    q r s t v.

Definition with_status (status : TraceGraphNodeStatus) (m : TraceGraphNodeMutation)
    : TraceGraphNodeMutation :=
  let 'Build_TraceGraphNodeMutation a b c x d _ f g h i j k l m n o p q r s t v := m in
  Build_TraceGraphNodeMutation a b c x d (Some status) f g h i j k l m n o p q r s t v.

Definition within (parent : option pystr) (ns : list pystr) (m : TraceGraphNodeMutation)
    : TraceGraphNodeMutation :=
  let 'Build_TraceGraphNodeMutation a b c x d e f _ h i _ k l m n o p q r s t v := m in
  Build_TraceGraphNodeMutation a b c x d e f parent h i (Some ns) k l m n o p q r s t v.

(** [model_call_id=call, model_call_seq=seq if call is not None else None] *)
Definition called_by (call : option pystr) (seq : Z) (m : TraceGraphNodeMutation)
    : TraceGraphNodeMutation :=
  let 'Build_TraceGraphNodeMutation a b c x d e f g _ _ j k l m n o p q r s t v := m in
  Build_TraceGraphNodeMutation a b c x d e f g call ((fun _ => seq) <$> call) j k l m n o p q r s t v.

Definition by_agent (agent_name : option pystr) (m : TraceGraphNodeMutation)
    : TraceGraphNodeMutation :=
  let 'Build_TraceGraphNodeMutation a b c x d e f g h i j _ l m n o p q r s t v := m in
  Build_TraceGraphNodeMutation a b c x d e f g h i j agent_name l m n o p q r s t v.

Definition with_model (provider model : option pystr) (m : TraceGraphNodeMutation)
    : TraceGraphNodeMutation :=
  let 'Build_TraceGraphNodeMutation a b c x d e f g h i j k _ _ n o p q r s t v := m in
  Build_TraceGraphNodeMutation a b c x d e f g h i j k provider model n o p q r s t v.

Definition starting (at_ seq : Z) (m : TraceGraphNodeMutation) : TraceGraphNodeMutation :=
  let 'Build_TraceGraphNodeMutation a b c x d e f g h i j k l m _ o p _ r s t v := m in
  Build_TraceGraphNodeMutation a b c x d e f g h i j k l m (Some at_) o p (Some seq) r s t v.

Definition first_output (at_ : Z) (m : TraceGraphNodeMutation) : TraceGraphNodeMutation :=
  let 'Build_TraceGraphNodeMutation a b c x d e f g h i j k l m n _ p q r s t v := m in
  Build_TraceGraphNodeMutation a b c x d e f g h i j k l m n (Some at_) p q r s t v.

Definition ending (at_ : option Z) (m : TraceGraphNodeMutation) : TraceGraphNodeMutation :=
  let 'Build_TraceGraphNodeMutation a b c x d e f g h i j k l m n o _ q r s t v := m in
  Build_TraceGraphNodeMutation a b c x d e f g h i j k l m n o at_ q r s t v.

Definition evidence (request result failure : option Z) (m : TraceGraphNodeMutation)
    : TraceGraphNodeMutation :=
  let 'Build_TraceGraphNodeMutation a b c x d e f g h i j k l m n o p q _ _ _ v := m in
  Build_TraceGraphNodeMutation a b c x d e f g h i j k l m n o p q request result failure v.

Definition with_issue (issue : option TraceGraphLinkIssue) (m : TraceGraphNodeMutation)
    : TraceGraphNodeMutation :=
  let 'Build_TraceGraphNodeMutation a b c x d e f g h i j k l m n o p q r s t _ := m in
  Build_TraceGraphNodeMutation a b c x d e f g h i j k l m n o p q r s t issue.

(** [replace(m, node_id=..., kind=..., name=...)] *)
Definition renamed (node_id : pystr) (kind : option TraceGraphNodeKind) (name : option pystr)
    (m : TraceGraphNodeMutation) : TraceGraphNodeMutation :=
  let 'Build_TraceGraphNodeMutation _ b c x _ e _ g h i j k l m n o p q r s t v := m in
  Build_TraceGraphNodeMutation node_id b c x kind e name g h i j k l m n o p q r s t v.

Notation "x |> f" := (f x) (at level 50, left associativity, only parsing) : py_scope.

(** ** Helpers *)

(** A loop over checks. *)
Fixpoint rfor_each {E A} (f : A -> res E unit) (l : list A) : res E unit :=
  match l with
  | [] => Ok tt
  | x :: l => do? f x in rfor_each f l
  end.

(** The SHA-256 digest of a namespace's JSON, the first 24 hexadecimal digits. *)
Class ScopeHash : Type := { scope_hash : list pystr -> pystr }.

Definition resolve_graph_link_issue (parent_subagent_id model_call_id : option pystr)
    (issue : option TraceGraphLinkIssue) : option TraceGraphLinkIssue :=
  if negb (absent parent_subagent_id) && bool_decide (issue = Some MISSING_SUBAGENT) then None
  else if negb (absent model_call_id) && bool_decide (issue = Some MISSING_MODEL_CALL) then None
  else issue.

Definition resolve_graph_node_kind (current incoming : option TraceGraphNodeKind)
    : res trace_exn (option TraceGraphNodeKind) :=
  match current, incoming with
  | None, _ => Ok incoming
  | Some _, None => Ok current
  | Some c, Some i => if decide (i = c) then Ok current else Raise TraceStoreProtocolError
  end.

Definition subagent_status (s : SubagentStatus) : TraceGraphNodeStatus :=
  match s with
  | SubRunning => RUNNING
  | SubSucceeded => SUCCEEDED
  | SubFailed => FAILED
  | SubCancelled => CANCELLED
  | SubAbandoned => ABANDONED
  | SubWaiting => WAITING
  end.

(** [_phase_status], on the phases of calls and of the facts that settle. *)
Definition phase_status (phase : CallPhase) : TraceGraphNodeStatus :=
  match phase with
  | CallCompleted => SUCCEEDED
  | CallFailed => FAILED
  | CallCancelled => CANCELLED
  | CallInterrupted => WAITING
  | CallAbandoned => ABANDONED
  | CallStarted | CallFirstOutput | CallGenerated => UNKNOWN
  end.

Definition live (status : TraceGraphNodeStatus) : bool :=
  bool_decide (status = RUNNING) || bool_decide (status = WAITING).

Definition terminal_time (status : TraceGraphNodeStatus) (occurred_at : Z) : option Z :=
  if live status then None else Some occurred_at.

(** ** From facts to mutations *)

Section reducer.
Context {hash : ScopeHash}.

Definition scope_id (kind : pystr) (namespace : list pystr) (source_id : pystr) : pystr :=
  kind ++ u ":" ++ scope_hash namespace ++ u ":" ++ source_id.

Definition tool_node (graph_namespace : list pystr) (source_tool_call_id : pystr) : pystr :=
  scope_id (u "tool") graph_namespace source_tool_call_id.

Definition turn_mutations (b : TraceFactBase) (seq : Z) (f : TurnFact)
    : list TraceGraphNodeMutation :=
  match tf_user_message_id f with
  | None => []
  | Some source_message_id =>
      [partial (scope_id (u "message") [] source_message_id) seq (i_run_id (b_identity b))
       |> as_node HUMAN_MESSAGE SUCCEEDED (u "HumanMessage") |> within None []
       |> starting (b_occurred_at b) seq |> ending (Some (b_occurred_at b))]
  end.

Definition message_status (phase : MessagePhase) : TraceGraphNodeStatus :=
  match phase with
  | MsgStarted => RUNNING
  | MsgCancelled => CANCELLED
  | MsgInterrupted => WAITING
  | MsgAbandoned => ABANDONED
  | _ => SUCCEEDED
  end.

Definition message_mutations (b : TraceFactBase) (seq : Z) (f : MessageFact)
    : list TraceGraphNodeMutation :=
  let m := partial (mf_message_id f) seq (i_run_id (b_identity b)) in
  let content_seq := if absent (mf_content f) then None else Some seq in
  match mf_phase f, mf_role f with
  | MsgSubmitted, _ => []
  | MsgRemoved, _ => [removed m]
  | _, (RoleTool | RoleOther | RoleSystem) => []
  | phase, RoleUser =>
      if bool_decide (ms_kind <$> mf_source f = Some SourceContext) then []
      else if negb (bool_decide (b_graph_namespace b = [])) || bool_decide (phase = MsgContent)
      then []
      else [m |> evidence None content_seq None]
  | MsgContent, RoleAssistant => []
  | phase, RoleAssistant =>
      let status := message_status phase in
      [m |> as_node ASSISTANT_MESSAGE status (u "AssistantMessage")
         |> within (b_parent_subagent_id b) (b_graph_namespace b)
         |> starting (b_occurred_at b) seq |> ending (terminal_time status (b_occurred_at b))
         |> evidence None content_seq None]
  end.

(** The assistant message a model call announces or completes. *)
Definition output_message (b : TraceFactBase) (seq : Z) (f : ModelCallFact)
    (status : TraceGraphNodeStatus) (source_message_id : pystr) : TraceGraphNodeMutation :=
  partial (scope_id (u "message") (b_graph_namespace b) source_message_id) seq
    (i_run_id (b_identity b))
  |> as_node ASSISTANT_MESSAGE status (u "AssistantMessage")
  |> within (b_parent_subagent_id b) (b_graph_namespace b)
  |> called_by (Some (mc_call_id f)) seq |> by_agent (mc_agent_name f)
  |> starting (b_occurred_at b) seq.

Definition model_call_mutations (b : TraceFactBase) (seq : Z) (f : ModelCallFact)
    : res trace_exn (list TraceGraphNodeMutation) :=
  let run := i_run_id (b_identity b) in
  let ns := b_graph_namespace b in
  let now := b_occurred_at b in
  let placed m :=
    m |> within (b_parent_subagent_id b) ns |> by_agent (mc_agent_name f)
      |> with_model (mc_provider f) (mc_model f) in
  match mc_phase f with
  | CallStarted =>
      match mc_context_started_at f with
      | None => Raise TraceStoreProtocolError
      | Some context_started_at =>
          let name := match mc_model f with Some (_ :: _ as s) => s | _ => u "Model" end in
          Ok ((if absent (mc_contribution_id f)
               then [placed (partial (scope_id (u "context") ns (mc_call_id f)) seq run
                             |> as_node CONTEXT SUCCEEDED (u "Context"))
                     |> starting context_started_at seq |> ending (Some now)
                     |> evidence (Some seq) None None]
               else []) ++
              [placed (partial (mc_call_id f) seq run |> as_node MODEL RUNNING name)
               |> starting now seq |> evidence (Some seq) None None])
      end
  | CallFirstOutput =>
      Ok ((partial (mc_call_id f) seq run |> first_output now) ::
          map (output_message b seq f RUNNING) (mc_output_message_ids f))
  | phase =>
      let status := phase_status phase in
      let failed := bool_decide (phase = CallFailed) && mc_failure_origin f in
      Ok ((partial (mc_call_id f) seq run |> with_status status
           |> ending (terminal_time status now)
           |> evidence None (Some seq) (if failed then Some seq else None)) ::
          (if bool_decide (phase = CallCompleted)
           then map (fun id => output_message b seq f SUCCEEDED id |> ending (Some now)
                               |> evidence (Some seq) None None) (mc_output_message_ids f) ++
                map (fun id => partial (tool_node ns id) seq run
                               |> called_by (Some (mc_call_id f)) seq) (mc_tool_call_ids f)
           else []))
  end.

Definition tool_mutations (b : TraceFactBase) (seq : Z) (f : ToolFact)
    : list TraceGraphNodeMutation :=
  let now := b_occurred_at b in
  let m status :=
    partial (tool_node (b_graph_namespace b) (tl_source_tool_call_id f)) seq
      (i_run_id (b_identity b))
    |> as_node TOOL status (tl_tool_name f)
    |> within (b_parent_subagent_id b) (b_graph_namespace b)
    |> called_by (tl_parent_call_id f) seq |> starting now seq in
  if bool_decide (tl_tool_name f = u "task") then []
  else match tl_phase f with
  | (ToolStarted | ToolArguments) as phase =>
      [m WAITING
       |> evidence (if bool_decide (phase = ToolArguments) && negb (absent (tl_content f))
                    then Some seq else None) None None
       |> with_issue (if absent (tl_parent_call_id f) then Some MISSING_MODEL_CALL else None)]
  | ToolResult =>
      let status :=
        if bool_decide (tl_result_status f = Some ResultSuccess) then SUCCEEDED else FAILED in
      [m status |> ending (Some now)
       |> evidence None (Some seq)
            (if bool_decide (tl_result_status f = Some ResultError) && tl_failure_origin f
             then Some seq else None)]
  | ToolCancelled => [m CANCELLED |> ending (Some now)]
  | ToolAbandoned => [m ABANDONED |> ending (Some now)]
  | ToolCompleted => []
  end.

(** The scope of the proposal a tool execution carries out, and its node. *)
Definition proposal_scope (b : TraceFactBase) (f : ToolExecutionFact) : list pystr :=
  match te_tool_call_namespace f with Some ns => ns | None => b_graph_namespace b end.

Definition execution_node (scope : list pystr) (f : ToolExecutionFact) : pystr :=
  match te_source_tool_call_id f with
  | Some id => tool_node scope id
  | None => te_execution_id f
  end.

Definition tool_execution_mutations (b : TraceFactBase) (seq : Z) (f : ToolExecutionFact)
    : list TraceGraphNodeMutation :=
  let scope := proposal_scope b f in
  let m := partial (execution_node scope f) seq (i_run_id (b_identity b)) in
  if bool_decide (te_tool_name f = u "task") then []
  else match te_phase f with
  | CallStarted =>
      [m |> as_node TOOL RUNNING (te_tool_name f) |> within (b_parent_subagent_id b) scope
         |> called_by (te_parent_call_id f) seq |> by_agent (te_agent_name f)
         |> starting (b_occurred_at b) seq |> evidence (Some seq) None None
         |> with_issue (if absent (te_source_tool_call_id f) then Some MISSING_TOOL_PROPOSAL
                        else if absent (te_parent_call_id f) then Some MISSING_MODEL_CALL
                        else None)]
  | phase =>
      let status := phase_status phase in
      [m |> with_status status |> ending (terminal_time status (b_occurred_at b))
         |> evidence None (Some seq)
              (if bool_decide (phase = CallFailed) && te_failure_origin f
               then Some seq else None)]
  end.

Definition subagent_mutations (b : TraceFactBase) (seq : Z) (f : SubagentFact)
    : list TraceGraphNodeMutation :=
  let run := i_run_id (b_identity b) in
  let ns := b_graph_namespace b in
  let now := b_occurred_at b in
  let name := match sf_agent_name f with Some (_ :: _ as s) => s | _ => u "Subagent" end in
  let m status :=
    partial (sf_subagent_id f) seq run |> as_node SUBAGENT status name
    |> within (b_parent_subagent_id b) ns |> by_agent (sf_agent_name f) |> starting now seq in
  match sf_phase f with
  | SubStarted =>
      (m RUNNING |> called_by (sf_model_call_id f) seq |> evidence (Some seq) None None
       |> with_issue (if absent (sf_parent_tool_call_id f) then Some MISSING_TOOL_PROPOSAL
                      else if absent (sf_model_call_id f) then Some MISSING_MODEL_CALL
                      else None)) ::
      (if absent (sf_input f) then []
       else [partial (scope_id (u "subagent-input") ns (sf_subagent_id f)) seq run
             |> as_node HUMAN_MESSAGE SUCCEEDED (u "HumanMessage")
             |> within (Some (sf_subagent_id f)) ns |> by_agent (sf_agent_name f)
             |> starting now seq |> ending (Some now) |> evidence None (Some seq) None])
  | _ =>
      let status := subagent_status (sf_status f) in
      [m status |> ending (terminal_time status now) |> evidence None (Some seq) None]
  end.

Definition contribution_kind (kind : ContextKind) : TraceGraphNodeKind :=
  match kind with
  | KindMemory => MEMORY
  | KindGuardrail => GUARDRAIL
  | KindRetrieval => RETRIEVAL
  | KindCustom | KindCompaction => CUSTOM
  end.

Definition contribution_mutations (b : TraceFactBase) (seq : Z) (f : ContextContributionFact)
    : list TraceGraphNodeMutation :=
  let m := partial (cc_contribution_id f) seq (i_run_id (b_identity b)) in
  let started := bool_decide (cc_phase f = CallStarted) in
  let child :=
    if started
    then m |> as_node (contribution_kind (cc_context_kind f)) RUNNING (cc_name f)
           |> within (b_parent_subagent_id b) (b_graph_namespace b)
           |> starting (b_occurred_at b) seq |> evidence (Some seq) None None
    else
      let status :=
        if bool_decide (cc_phase f = CallGenerated) then RUNNING
        else phase_status (cc_phase f) in
      m |> with_status status |> ending (terminal_time status (b_occurred_at b))
        |> evidence None
             (if bool_decide (cc_phase f ∈ [CallGenerated; CallCompleted]) then Some seq else None)
             (if bool_decide (cc_phase f = CallFailed) && cc_failure_origin f
              then Some seq else None) in
  child ::
  (if bool_decide (cc_context_kind f = KindCompaction)
   then [child |> renamed (scope_id (u "compaction-context") (b_graph_namespace b)
                             (cc_contribution_id f))
                    (if started then Some CONTEXT else mu_kind child)
                    (if started then Some (u "Context") else mu_name child)]
   else []).

Definition plan_mutations (b : TraceFactBase) (seq : Z) (f : PlanRevisionFact)
    : list TraceGraphNodeMutation :=
  let run := i_run_id (b_identity b) in
  let waiting := bool_decide (pf_status f ∈ [Some (u "awaiting_review"); Some (u "draft")]) in
  let status := if waiting then WAITING else SUCCEEDED in
  [partial (scope_id (u "plan") (b_graph_namespace b) run) seq run
   |> as_node PLAN status (u "Plan") |> within (b_parent_subagent_id b) (b_graph_namespace b)
   |> starting (b_occurred_at b) seq |> ending (terminal_time status (b_occurred_at b))
   |> evidence None (Some seq) None].

Definition interaction_mutations (b : TraceFactBase) (seq : Z) (f : InteractionFact)
    : list TraceGraphNodeMutation :=
  let status :=
    match nf_status f with
    | InteractionPending => WAITING
    | InteractionCancelled => CANCELLED
    | InteractionResolved => SUCCEEDED
    end in
  [partial (nf_interaction_id f) seq (i_run_id (b_identity b))
   |> as_node INTERACTION status (nf_interaction_kind f)
   |> within (b_parent_subagent_id b) (b_graph_namespace b)
   |> starting (b_occurred_at b) seq |> ending (terminal_time status (b_occurred_at b))
   |> evidence None (Some seq) None].

(** The mutations of one event, each built by its class's constructor. *)
Definition event_mutations (e : TraceEvent) : res trace_exn (list TraceGraphNodeMutation) :=
  let b := f_base (ev_fact e) in
  let seq := ev_trace_seq e in
  let? ms := match f_body (ev_fact e) with
    | Turn f => Ok (turn_mutations b seq f)
    | Message f => Ok (message_mutations b seq f)
    | ModelCall f => model_call_mutations b seq f
    | Tool f => Ok (tool_mutations b seq f)
    | ToolExecution f => Ok (tool_execution_mutations b seq f)
    | Subagent f => Ok (subagent_mutations b seq f)
    | ContextContribution f => Ok (contribution_mutations b seq f)
    | PlanRevision f => Ok (plan_mutations b seq f)
    | Interaction f => Ok (interaction_mutations b seq f)
    | Run _ | Reasoning _ | StateRevision _ | NativeExtra _ | CallTracking => Ok []
    end in
  do? rfor_each TraceGraphNodeMutation_post_init ms in
  Ok ms.

(** ** The evidence a mutation refers to *)

(** [source_events.get(mutation.started_seq or 0)] *)
Definition start_source (source_events : dict Z TraceEvent) (m : TraceGraphNodeMutation)
    : option TraceSemanticFact :=
  ev_fact <$> dget source_events (default 0 (mu_started_seq m)).

Definition graph_execution_started (m : TraceGraphNodeMutation)
    (source_events : dict Z TraceEvent) : bool :=
  match start_source source_events m with
  | None => false
  | Some fact =>
      let b := f_base fact in
      let scope := match f_body fact with
                   | ToolExecution f => proposal_scope b f
                   | _ => b_graph_namespace b
                   end in
      bool_decide (f_run_id fact = mu_run_id m) &&
      bool_decide (Some scope = mu_graph_namespace m) &&
      match f_body fact with
      | ToolExecution f =>
          bool_decide (te_phase f = CallStarted) &&
          bool_decide (mu_node_id m = execution_node scope f)
      | Subagent f =>
          bool_decide (sf_phase f = SubStarted) && bool_decide (mu_node_id m = sf_subagent_id f)
      | _ => false
      end
  end.

Definition graph_node_name (current : option pystr) (m : TraceGraphNodeMutation)
    (source_events : dict Z TraceEvent) : res trace_exn (option pystr) :=
  match mu_name m with
  | None => Ok current
  | Some name =>
      if decide (Some name = current) then Ok current
      else if bool_decide (mu_kind m = Some TOOL)
      then
        match start_source source_events m with
        | Some {| f_base := b; f_body := ToolExecution f |} =>
            if bool_decide (te_tool_name f = name) && graph_execution_started m source_events
            then Ok (Some name) else Raise TraceStoreProtocolError
        | Some {| f_base := b; f_body := Tool f |} =>
            if bool_decide (i_run_id (b_identity b) = mu_run_id m) &&
               bool_decide (Some (b_graph_namespace b) = mu_graph_namespace m) &&
               bool_decide (tool_node (b_graph_namespace b) (tl_source_tool_call_id f)
                            = mu_node_id m) &&
               bool_decide (tl_tool_name f = name)
            then Ok (or_text current (Some name)) else Raise TraceStoreProtocolError
        | _ => Raise TraceStoreProtocolError
        end
      else if absent current then Ok (Some name)
      else Raise TraceStoreProtocolError
  end.

Definition graph_failure_sequence (current : option Z) (m : TraceGraphNodeMutation)
    (source_events : dict Z TraceEvent) : option Z :=
  match mu_status m with
  | Some s =>
      if negb (bool_decide (s = FAILED)) then None
      else if graph_execution_started m source_events then mu_failure_seq m
      else or_int (mu_failure_seq m) current
  | None =>
      if graph_execution_started m source_events then mu_failure_seq m
      else or_int (mu_failure_seq m) current
  end.

(** ** One batch *)

(** [_coalesce_graph_mutations] for two mutations of one row. *)
Definition coalesce (source_events : dict Z TraceEvent) (current m : TraceGraphNodeMutation)
    : res trace_exn TraceGraphNodeMutation :=
  if mu_remove m || mu_remove current then Ok m
  else
    let? kind := resolve_graph_node_kind (mu_kind current) (mu_kind m) in
    let replace_tool_start := graph_execution_started m source_events in
    let status := or_else (mu_status m) (mu_status current) in
    let completed_at :=
      if bool_decide (status = Some RUNNING) || bool_decide (status = Some WAITING) then None
      else or_else (mu_completed_at m) (mu_completed_at current) in
    let parent := or_text (mu_parent_subagent_id m) (mu_parent_subagent_id current) in
    let model_call := or_text (mu_model_call_id m) (mu_model_call_id current) in
    let? name := graph_node_name (mu_name current) m source_events in
    let merged :=
      {| mu_node_id := mu_node_id m; mu_updated_seq := mu_updated_seq m;
         mu_run_id := mu_run_id m; mu_remove := false; mu_kind := kind; mu_status := status;
         mu_name := name; mu_parent_subagent_id := parent; mu_model_call_id := model_call;
         mu_model_call_seq := or_int (mu_model_call_seq m) (mu_model_call_seq current);
         mu_graph_namespace := or_else (mu_graph_namespace current) (mu_graph_namespace m);
         mu_agent_name := or_text (mu_agent_name m) (mu_agent_name current);
         mu_provider := or_text (mu_provider m) (mu_provider current);
         mu_model := or_text (mu_model m) (mu_model current);
         mu_started_at := if replace_tool_start then mu_started_at m
                          else or_else (mu_started_at current) (mu_started_at m);
         mu_first_output_at := or_else (mu_first_output_at m) (mu_first_output_at current);
         mu_completed_at := completed_at;
         mu_started_seq := if replace_tool_start then mu_started_seq m
                           else or_int (mu_started_seq current) (mu_started_seq m);
         mu_request_seq := or_int (mu_request_seq m) (mu_request_seq current);
         mu_result_seq := if replace_tool_start then mu_result_seq m
                          else or_int (mu_result_seq m) (mu_result_seq current);
         mu_failure_seq := graph_failure_sequence (mu_failure_seq current) m source_events;
         mu_link_issue := resolve_graph_link_issue parent model_call
                            (or_else (mu_link_issue current) (mu_link_issue m)) |} in
    do? TraceGraphNodeMutation_post_init merged in
    Ok merged.

(** [_coalesce_graph_mutations]: at most one mutation per row, in the order in which
    the rows first occur. *)
Fixpoint coalesce_graph_mutations (source_events : dict Z TraceEvent)
    (ms : list TraceGraphNodeMutation) (values : dict (pystr * pystr) TraceGraphNodeMutation)
    : res trace_exn (list TraceGraphNodeMutation) :=
  match ms with
  | [] => Ok (dvals values)
  | m :: ms =>
      let key := (mu_node_id m, mu_run_id m) in
      let? value := match dget values key with
                    | None => Ok m
                    | Some current => coalesce source_events current m
                    end in
      coalesce_graph_mutations source_events ms (dset values key value)
  end.

(** [{event.trace_seq: event for event in events}] *)
Definition by_sequence (events : list TraceEvent) : dict Z TraceEvent :=
  foldl (fun d e => dset d (ev_trace_seq e) e) [] events.

Fixpoint collect_mutations (events : list TraceEvent)
    : res trace_exn (list TraceGraphNodeMutation) :=
  match events with
  | [] => Ok []
  | e :: events =>
      let? ms := event_mutations e in
      let? rest := collect_mutations events in
      Ok (ms ++ rest)
  end.

Definition graph_node_mutations (events : list TraceEvent)
    : res trace_exn (list TraceGraphNodeMutation) :=
  let? ms := collect_mutations events in
  coalesce_graph_mutations (by_sequence events) ms [].

(** ** The index *)

Definition new_node (m : TraceGraphNodeMutation) : option ReducedTraceGraphNode :=
  match mu_kind m, mu_status m, mu_name m, mu_graph_namespace m, mu_started_at m,
        mu_started_seq m with
  | Some kind, Some status, Some name, Some ns, Some started_at, Some started_seq =>
      Some {| n_node_id := mu_node_id m; n_parent_subagent_id := mu_parent_subagent_id m;
              n_model_call_id := mu_model_call_id m; n_model_call_seq := mu_model_call_seq m;
              n_kind := kind; n_status := status; n_name := name; n_run_id := mu_run_id m;
              n_graph_namespace := ns; n_agent_name := mu_agent_name m;
              n_provider := mu_provider m; n_model := mu_model m; n_started_at := started_at;
              n_first_output_at := mu_first_output_at m; n_completed_at := mu_completed_at m;
              n_started_seq := started_seq; n_updated_seq := mu_updated_seq m;
              n_request_seq := mu_request_seq m; n_result_seq := mu_result_seq m;
              n_failure_seq := mu_failure_seq m;
              n_link_issue := resolve_graph_link_issue (mu_parent_subagent_id m)
                                (mu_model_call_id m) (mu_link_issue m) |}
  | _, _, _, _, _, _ => None
  end.

Definition set_name (name : pystr) (n : ReducedTraceGraphNode) : ReducedTraceGraphNode :=
  let 'Build_ReducedTraceGraphNode a b c d e f _ h i j k l m o p q r s t v x := n in
  Build_ReducedTraceGraphNode a b c d e f name h i j k l m o p q r s t v x.

Definition set_parent (parent : option pystr) (n : ReducedTraceGraphNode)
    : ReducedTraceGraphNode :=
  let 'Build_ReducedTraceGraphNode a _ c d e f g h i j k l m o p q r s t v x := n in
  Build_ReducedTraceGraphNode a parent c d e f g h i j k l m o p q r s t v x.

Definition set_model_call (call : option pystr) (seq : option Z) (n : ReducedTraceGraphNode)
    : ReducedTraceGraphNode :=
  let 'Build_ReducedTraceGraphNode a b _ _ e f g h i j k l m o p q r s t v x := n in
  Build_ReducedTraceGraphNode a b call seq e f g h i j k l m o p q r s t v x.

(** The assignments to a row after the last check. *)
Definition settle (m : TraceGraphNodeMutation) (source_events : dict Z TraceEvent)
    (n : ReducedTraceGraphNode) : ReducedTraceGraphNode :=
  let replaced := graph_execution_started m source_events in
  let issue := resolve_graph_link_issue (n_parent_subagent_id n) (n_model_call_id n)
                 (n_link_issue n) in
  let resolved_issue := resolve_graph_link_issue (n_parent_subagent_id n) (n_model_call_id n)
                          (mu_link_issue m) in
  {| n_node_id := n_node_id n; n_parent_subagent_id := n_parent_subagent_id n;
     n_model_call_id := n_model_call_id n; n_model_call_seq := n_model_call_seq n;
     n_kind := n_kind n; n_status := default (n_status n) (mu_status m); n_name := n_name n;
     n_run_id := n_run_id n; n_graph_namespace := n_graph_namespace n;
     n_agent_name := or_else (mu_agent_name m) (n_agent_name n);
     n_provider := or_else (mu_provider m) (n_provider n);
     n_model := or_else (mu_model m) (n_model n);
     n_started_at := if replaced then default (n_started_at n) (mu_started_at m)
                     else n_started_at n;
     n_first_output_at := or_else (mu_first_output_at m) (n_first_output_at n);
     n_completed_at := or_else (mu_completed_at m)
       (match mu_status m with
        | Some s => if live s then None else n_completed_at n
        | None => n_completed_at n
        end);
     n_started_seq := if replaced then default (n_started_seq n) (mu_started_seq m)
                      else n_started_seq n;
     n_updated_seq := mu_updated_seq m;
     n_request_seq := or_else (mu_request_seq m) (n_request_seq n);
     n_result_seq := or_else (mu_result_seq m) (if replaced then None else n_result_seq n);
     n_failure_seq := graph_failure_sequence (n_failure_seq n) m source_events;
     n_link_issue := or_else issue resolved_issue |}.

(** The checks and assignments on an existing row, in the code's order. *)
Definition update_row (m : TraceGraphNodeMutation) (source_events : dict Z TraceEvent)
    : M ReducedTraceGraphNode trace_exn unit :=
  let* row := gets id in
  do* raise_if (mu_updated_seq m <? n_updated_seq row) TraceStoreProtocolError in
  do* lift (resolve_graph_node_kind (Some (n_kind row)) (mu_kind m)) in
  let* name := lift (graph_node_name (Some (n_name row)) m source_events) in
  do* modify (set_name (default (n_name row) name)) in
  do* raise_if (match mu_graph_namespace m with
                | Some ns => negb (bool_decide (ns = n_graph_namespace row))
                | None => false
                end) TraceStoreProtocolError in
  do* when (negb (absent (mu_parent_subagent_id m)))
    (do* raise_if (negb (absent (n_parent_subagent_id row)) &&
                   negb (bool_decide (mu_parent_subagent_id m = n_parent_subagent_id row)))
           TraceStoreProtocolError in
     modify (set_parent (mu_parent_subagent_id m))) in
  do* when (negb (absent (mu_model_call_id m)))
    (do* raise_if (negb (absent (n_model_call_id row)) &&
                   negb (bool_decide (mu_model_call_id m = n_model_call_id row)))
           TraceStoreProtocolError in
     modify (set_model_call (mu_model_call_id m) (mu_model_call_seq m))) in
  modify (settle m source_events).

Definition apply_graph_node_mutation (source_events : dict Z TraceEvent)
    (m : TraceGraphNodeMutation) : M Graph trace_exn unit := fun g =>
  let key := (mu_node_id m, mu_run_id m) in
  if mu_remove m
  then (Ok tt, dset g key (Tombstone (mu_node_id m) (mu_run_id m) (mu_updated_seq m)))
  else match dget g key with
  | Some (Node row) =>
      let '(r, row) := update_row m source_events row in (r, dset g key (Node row))
  | other =>
      match new_node m with
      | Some n => (Ok tt, dset g key (Node n))
      | None => (match other with Some _ => Raise TraceStoreProtocolError | None => Ok tt end, g)
      end
  end.

(** A run's end settles the assistant messages it leaves running. *)
Definition assistant_run_terminal_status (f : RunFact) : option TraceGraphNodeStatus :=
  if negb (bool_decide (rf_phase f = RunTerminal)) then None
  else match rf_outcome f with
  | Some OutcomeCancelled => Some CANCELLED
  | Some OutcomeInterrupted => Some WAITING
  | _ => Some ABANDONED
  end.

Definition unsettled (e : TraceEvent) (r : ReducedTraceGraphRevision) : bool :=
  match r with
  | Node n =>
      bool_decide (n_run_id n = f_run_id (ev_fact e)) &&
      bool_decide (n_kind n = ASSISTANT_MESSAGE) && bool_decide (n_status n = RUNNING) &&
      (n_updated_seq n <? ev_trace_seq e)
  | Tombstone _ _ _ => false
  end.

Definition assistant_run_terminal_mutations (e : TraceEvent)
    (revisions : list ReducedTraceGraphRevision) : list TraceGraphNodeMutation :=
  match f_body (ev_fact e) with
  | Run f =>
      match assistant_run_terminal_status f with
      | None => []
      | Some status =>
          map (fun r => partial (revision_node_id r) (ev_trace_seq e) (revision_run_id r)
                        |> with_status status
                        |> ending (terminal_time status (f_occurred_at (ev_fact e))))
              (List.filter (unsettled e) revisions)
      end
  | _ => []
  end.

Definition apply_graph_event (source_events : dict Z TraceEvent) (e : TraceEvent)
    : M Graph trace_exn unit :=
  let* ms := lift (graph_node_mutations [e]) in
  do* for_each (apply_graph_node_mutation source_events) ms in
  let* revisions := gets dvals in
  for_each (apply_graph_node_mutation source_events)
    (assistant_run_terminal_mutations e revisions).

Definition apply_graph_events (events : list TraceEvent) : M Graph trace_exn unit :=
  for_each (apply_graph_event (by_sequence events)) events.

(** ** Rebuilding *)

(** The mutation that recreates a row. *)
Definition revision_mutation (r : ReducedTraceGraphRevision) : TraceGraphNodeMutation :=
  match r with
  | Tombstone node_id run_id updated_seq => removed (partial node_id updated_seq run_id)
  | Node n =>
      {| mu_node_id := n_node_id n; mu_updated_seq := n_updated_seq n;
         mu_run_id := n_run_id n; mu_remove := false; mu_kind := Some (n_kind n);
         mu_status := Some (n_status n); mu_name := Some (n_name n);
         mu_parent_subagent_id := n_parent_subagent_id n;
         mu_model_call_id := n_model_call_id n; mu_model_call_seq := n_model_call_seq n;
         mu_graph_namespace := Some (n_graph_namespace n);
         mu_agent_name := n_agent_name n; mu_provider := n_provider n; mu_model := n_model n;
         mu_started_at := Some (n_started_at n); mu_first_output_at := n_first_output_at n;
         mu_completed_at := n_completed_at n; mu_started_seq := Some (n_started_seq n);
         mu_request_seq := n_request_seq n; mu_result_seq := n_result_seq n;
         mu_failure_seq := n_failure_seq n; mu_link_issue := n_link_issue n |}
  end.

Definition graph_revision_mutations (revisions : list ReducedTraceGraphRevision)
    : res trace_exn (list TraceGraphNodeMutation) :=
  let ms := map revision_mutation revisions in
  do? rfor_each TraceGraphNodeMutation_post_init ms in
  Ok ms.

Definition reduce_graph_mutations (source_events : dict Z TraceEvent)
    (ms : list TraceGraphNodeMutation) : res trace_exn (list TraceGraphNodeMutation) :=
  match for_each (apply_graph_node_mutation source_events) ms [] with
  | (Ok _, g) => graph_revision_mutations (dvals g)
  | (Raise e, _) => Raise e
  end.
End reducer.
