(* ===== verification/TraceGraphFacts.v ===== *)
(** Tracing: facts of the graph reducer - the index stays well formed, an event reads
    no other event, so an index does not depend on how its log is cut into batches,
    and rebuilding an index from its rows gives it back. *)
From S2P Require Import Prelude PyDict PySeq Contracts TraceModels TraceGraph.

(** ** Loops *)

Lemma for_each_ext {S E A} (f g : A -> M S E unit) l s :
  (forall x s, x ∈ l -> f x s = g x s) -> for_each f l s = for_each g l s.
Proof.
  revert s. induction l as [|x l IH]; intros s H; simpl; [done|]. unfold bind.
  rewrite (H x s) by (by left). destruct (g x s) as [[]]; [|done]. apply IH. intros y s' Hy.
  apply H. by right.
Qed.

Lemma for_each_app {S E A} (f : A -> M S E unit) l1 l2 s :
  for_each f (l1 ++ l2) s = (do* for_each f l1 in for_each f l2) s.
Proof.
  revert s. induction l1 as [|x l1 IH]; intros s; simpl; [done|]. unfold bind in *.
  destruct (f x s) as [[]]; [apply IH|done].
Qed.

(** What every iteration keeps, the loop keeps, however it ends. *)
Lemma for_each_inv {S E A} (I : S -> Prop) (f : A -> M S E unit) l s :
  I s -> (forall x s, x ∈ l -> I s -> I (f x s).2) -> I (for_each f l s).2.
Proof.
  revert s. induction l as [|x l IH]; intros s Hs H; simpl; [done|]. unfold bind.
  pose proof (H x s ltac:(by left) Hs) as Hx. destruct (f x s) as [[] s']; [|done].
  apply IH; [done|]. intros y s0 Hy. apply H. by right.
Qed.

(** ** Rows *)

(** A mutation that its constructor accepts. *)
Definition mutation_ok (m : TraceGraphNodeMutation) : Prop :=
  TraceGraphNodeMutation_post_init m = Ok tt.

(** The call a row names comes with the event that proves it. *)
Definition row_ok (n : ReducedTraceGraphNode) : Prop :=
  absent (n_model_call_id n) = absent (n_model_call_seq n) /\
  match n_model_call_seq n with Some s => 1 <= s <= n_updated_seq n | None => True end.

(** A link issue that remains is one the row's own links do not settle. *)
Definition row_settled (n : ReducedTraceGraphNode) : Prop :=
  resolve_graph_link_issue (n_parent_subagent_id n) (n_model_call_id n) (n_link_issue n) =
  n_link_issue n.

Definition revision_settled (r : ReducedTraceGraphRevision) : Prop :=
  match r with Node n => row_settled n | Tombstone _ _ _ => True end.

Definition revision_ok (key : pystr * pystr) (r : ReducedTraceGraphRevision) : Prop :=
  key = (revision_node_id r, revision_run_id r) /\
  match r with Node n => row_ok n | Tombstone _ _ _ => True end.

(** Rows are stored under their own keys, once. *)
Definition graph_ok (g : Graph) : Prop :=
  dwf g /\ forall key r, dget g key = Some r -> revision_ok key r.

Lemma graph_ok_nil : graph_ok [].
Proof. split; [apply dwf_nil|done]. Qed.

Lemma graph_ok_set g key r : graph_ok g -> revision_ok key r -> graph_ok (dset g key r).
Proof.
  intros [H1 H2] Hr. split; [by apply dwf_dset|]. intros key' r'. rewrite dget_dset.
  case_decide; intros; simplify_eq; auto.
Qed.

Lemma resolve_issue_idem p c i :
  resolve_graph_link_issue p c (resolve_graph_link_issue p c i) = resolve_graph_link_issue p c i.
Proof. unfold resolve_graph_link_issue. destruct p, c, i as [[]|]; done. Qed.

Lemma mutation_ok_call m :
  mutation_ok m -> absent (mu_model_call_id m) = absent (mu_model_call_seq m) /\
  match mu_model_call_seq m with Some s => 1 <= s <= mu_updated_seq m | None => True end.
Proof.
  unfold mutation_ok, TraceGraphNodeMutation_post_init. intros (? & H1 & H2)%rbind_ok.
  apply rraise_if_ok, negb_false_iff, eqb_prop in H1. split; [done|].
  destruct (mu_model_call_seq m); [|done]. apply rraise_if_ok, negb_false_iff in H2.
  bool_prop. lia.
Qed.

Lemma new_node_ok m n :
  mutation_ok m -> new_node m = Some n ->
  row_ok n /\ row_settled n /\ n_node_id n = mu_node_id m /\ n_run_id n = mu_run_id m.
Proof.
  intros Hm. unfold new_node. repeat case_match; intros; simplify_eq/=.
  destruct (mutation_ok_call m Hm). tsplit; try done. apply resolve_issue_idem.
Qed.

(** ** Updating a row *)

Section updates.
Context {hash : ScopeHash}.

Lemma settle_settled m se n : row_settled (settle m se n).
Proof.
  unfold row_settled, settle. simpl.
  destruct (resolve_graph_link_issue (n_parent_subagent_id n) (n_model_call_id n) (n_link_issue n))
    as [i|] eqn:Ei; simpl; [rewrite <-Ei|]; apply resolve_issue_idem.
Qed.

(** A row stays well formed however its update ends, and is settled when it succeeds. *)
Lemma update_row_ok m se n :
  mutation_ok m -> row_ok n ->
  wp (update_row m se) n (fun r n' =>
    row_ok n' /\ n_node_id n' = n_node_id n /\ n_run_id n' = n_run_id n /\
    match r with Ok _ => row_settled n' | Raise _ => True end).
Proof.
  intros Hm [H1 H2]. destruct (mutation_ok_call m Hm) as [Hm1 Hm2].
  unfold update_row.
  repeat (wp_go; try match goal with
    |- match ?r with Ok _ => _ | Raise _ => _ end => destruct r end).
  all: destruct n; unfold row_ok in *; simpl in *; tsplit; try done;
    try apply settle_settled; destruct (mu_model_call_seq m); bool_prop; try done; try lia.
  all: by destruct n_model_call_seq; [lia|].
Qed.

(** ** Applying mutations *)

Lemma apply_mutation_ok se m g :
  mutation_ok m -> graph_ok g -> graph_ok (apply_graph_node_mutation se m g).2.
Proof.
  intros Hm Hg. unfold apply_graph_node_mutation. destruct (mu_remove m).
  { by apply graph_ok_set. }
  assert (forall n, new_node m = Some n ->
    graph_ok (dset g (mu_node_id m, mu_run_id m) (Node n))) as Hnew.
  { intros n En. destruct (new_node_ok m n Hm En) as (H1 & _ & H2 & H3).
    apply graph_ok_set; [done|]. split; [simpl; by rewrite H2, H3|done]. }
  destruct (dget g _) as [[n|]|] eqn:Eg; [|destruct (new_node m); simpl; auto..].
  destruct Hg as [Hwf Hg]. destruct (Hg _ _ Eg) as [Hkey Hrow].
  pose proof (update_row_ok m se n Hm Hrow) as Hu. unfold wp in Hu.
  destruct (update_row m se n) as [r n']. destruct Hu as (Hn' & E1 & E2 & _).
  simpl in Hn', E1, E2.
  apply graph_ok_set; [done|]. split; [|done]. rewrite Hkey. simpl. by rewrite E1, E2.
Qed.

Definition graph_settled (g : Graph) : Prop :=
  forall key r, dget g key = Some r -> revision_settled r.

Lemma apply_mutation_settled se m g :
  mutation_ok m -> graph_ok g -> graph_settled g ->
  (apply_graph_node_mutation se m g).1 = Ok tt ->
  graph_settled (apply_graph_node_mutation se m g).2.
Proof.
  intros Hm Hg Hs. unfold apply_graph_node_mutation.
  assert (forall key r, revision_settled r -> graph_settled (dset g key r)) as Hset.
  { intros key r Hr key' r'. rewrite dget_dset. case_decide; intros; simplify_eq; eauto. }
  destruct (mu_remove m); [intros _; by apply Hset|].
  destruct (dget g _) as [[n|]|] eqn:Eg.
  - destruct Hg as [Hwf Hg]. destruct (Hg _ _ Eg) as [Hkey Hrow].
    pose proof (update_row_ok m se n Hm Hrow) as Hu. unfold wp in Hu.
    destruct (update_row m se n) as [r n']. destruct Hu as (_ & _ & _ & Hn').
    simpl. intros ->. by apply Hset.
  - destruct (new_node m) as [n|] eqn:En; [|done]. intros _. apply Hset.
    by destruct (new_node_ok m n Hm En) as (_ & ? & _).
  - destruct (new_node m) as [n|] eqn:En; [|done]. intros _. apply Hset.
    by destruct (new_node_ok m n Hm En) as (_ & ? & _).
Qed.

(** ** Where mutations come from *)

(** A mutation of the event with this number: its evidence is that event. *)
Definition from_event (seq : Z) (m : TraceGraphNodeMutation) : Prop :=
  mutation_ok m /\ mu_updated_seq m = seq /\
  (mu_started_seq m = None \/ mu_started_seq m = Some seq).

Lemma rfor_each_ok {E A} (f : A -> res E unit) l :
  rfor_each f l = Ok tt -> Forall (fun x => f x = Ok tt) l.
Proof.
  induction l as [|x l IH]; simpl; [by constructor|]. intros [H1 H2]%rbind_tt.
  constructor; auto.
Qed.

Lemma rfor_each_intro {E A} (f : A -> res E unit) l :
  Forall (fun x => f x = Ok tt) l -> rfor_each f l = Ok tt.
Proof. induction 1 as [|x l H _ IH]; simpl; [done|]. by rewrite H. Qed.

(** The numbers a mutation carries, before its constructor has looked at them. *)
Definition numbered (seq : Z) (m : TraceGraphNodeMutation) : Prop :=
  mu_updated_seq m = seq /\ (mu_started_seq m = None \/ mu_started_seq m = Some seq).

Lemma numbered_partial seq id run : numbered seq (partial id seq run).
Proof. split; [done|by left]. Qed.
Lemma numbered_starting seq a m : numbered seq m -> numbered seq (starting a seq m).
Proof. destruct m. intros [? ?]. split; [done|by right]. Qed.
Lemma numbered_removed seq m : numbered seq m -> numbered seq (removed m).
Proof. by destruct m. Qed.
Lemma numbered_as_node seq k st nm m : numbered seq m -> numbered seq (as_node k st nm m).
Proof. by destruct m. Qed.
Lemma numbered_with_status seq st m : numbered seq m -> numbered seq (with_status st m).
Proof. by destruct m. Qed.
Lemma numbered_within seq pa ns m : numbered seq m -> numbered seq (within pa ns m).
Proof. by destruct m. Qed.
Lemma numbered_called_by seq c sq m : numbered seq m -> numbered seq (called_by c sq m).
Proof. by destruct m. Qed.
Lemma numbered_by_agent seq a m : numbered seq m -> numbered seq (by_agent a m).
Proof. by destruct m. Qed.
Lemma numbered_with_model seq pr mo m : numbered seq m -> numbered seq (with_model pr mo m).
Proof. by destruct m. Qed.
Lemma numbered_first_output seq a m : numbered seq m -> numbered seq (first_output a m).
Proof. by destruct m. Qed.
Lemma numbered_ending seq a m : numbered seq m -> numbered seq (ending a m).
Proof. by destruct m. Qed.
Lemma numbered_evidence seq rq rs fl m : numbered seq m -> numbered seq (evidence rq rs fl m).
Proof. by destruct m. Qed.
Lemma numbered_with_issue seq i m : numbered seq m -> numbered seq (with_issue i m).
Proof. by destruct m. Qed.
Lemma numbered_renamed seq id k nm m : numbered seq m -> numbered seq (renamed id k nm m).
Proof. by destruct m. Qed.

Ltac numbered_go :=
  repeat first
    [ apply Forall_nil_2 | apply Forall_cons; split | apply Forall_app; split
    | apply numbered_partial | apply numbered_starting | apply numbered_removed
    | apply numbered_as_node | apply numbered_with_status | apply numbered_within
    | apply numbered_called_by | apply numbered_by_agent | apply numbered_with_model
    | apply numbered_first_output | apply numbered_ending | apply numbered_evidence
    | apply numbered_with_issue | apply numbered_renamed | case_match ].

Lemma event_mutations_numbered e ms :
  event_mutations e = Ok ms -> Forall (from_event (ev_trace_seq e)) ms.
Proof.
  unfold event_mutations. intros (ms' & Hms & H)%rbind_ok.
  apply rbind_ok in H as ([] & Hok & [= ->]). apply rfor_each_ok in Hok.
  assert (Forall (numbered (ev_trace_seq e)) ms) as Hnum.
  { clear Hok. destruct (f_body (ev_fact e)) as
      [f|f|f|f|f|f|f|f|f|f| |f|f|f]; try (injection Hms as <-); try by constructor.
    - unfold turn_mutations. numbered_go.
    - unfold message_mutations. numbered_go.
    - unfold tool_mutations. numbered_go.
    - unfold interaction_mutations. numbered_go.
    - unfold subagent_mutations. numbered_go.
    - unfold plan_mutations. numbered_go.
    - unfold model_call_mutations in Hms. repeat case_match; try done;
        apply ok_inj in Hms as <-; unfold output_message;
        numbered_go; apply Forall_map, Forall_true; intros; numbered_go.
    - unfold tool_execution_mutations. numbered_go.
    - unfold contribution_mutations. numbered_go. }
  rewrite Forall_forall in *. intros m Hm. split; [by apply Hok|by apply Hnum].
Qed.

Lemma or_int_cases a b : or_int a b = a \/ or_int a b = b.
Proof. destruct a as [[]|]; auto. Qed.

Lemma coalesce_from se seq current m m' :
  from_event seq current -> from_event seq m -> coalesce se current m = Ok m' ->
  from_event seq m'.
Proof.
  intros (H1 & H2 & H3) (G1 & G2 & G3). unfold coalesce.
  destruct (mu_remove m || mu_remove current); [by intros [= <-]|].
  intros H. repeat (apply rbind_ok in H as (? & ? & H)).
  match goal with Hp : TraceGraphNodeMutation_post_init _ = Ok ?t |- _ => destruct t end.
  injection H as <-. split; [done|]. split; [done|]. simpl.
  destruct (graph_execution_started m se); [done|].
  destruct (or_int_cases (mu_started_seq current) (mu_started_seq m)) as [-> | ->]; done.
Qed.

Lemma coalesce_all_from se seq ms values ms' :
  Forall (from_event seq) ms -> Forall (from_event seq) (dvals values) ->
  coalesce_graph_mutations se ms values = Ok ms' -> Forall (from_event seq) ms'.
Proof.
  revert values. induction ms as [|m ms IH]; intros values Hms Hv; simpl; [by intros [= <-]|].
  inversion_clear Hms as [|? ? Hm Hms']. intros (v & Hval & H)%rbind_ok.
  apply (IH _ Hms' ) in H; [done|].
  assert (from_event seq v) as Hfrom.
  { destruct (dget values _) as [cur|] eqn:Ec; [|by injection Hval as <-].
    eapply coalesce_from; [|exact Hm|exact Hval].
    rewrite Forall_forall in Hv. apply Hv. by eapply dget_elem_of_dvals. }
  clear -Hv Hfrom. induction values as [|[k w] values IH]; simpl; [by constructor|].
  inversion_clear Hv. case_decide; simpl; constructor; auto.
Qed.

Lemma graph_node_mutations_from e ms :
  graph_node_mutations [e] = Ok ms -> Forall (from_event (ev_trace_seq e)) ms.
Proof.
  unfold graph_node_mutations. simpl. intros (ms1 & H1 & H)%rbind_ok.
  apply rbind_ok in H1 as (ms2 & H2 & H1). injection H1 as <-. rewrite app_nil_r in H.
  refine (coalesce_all_from _ _ _ [] _ _ _ H); [by apply event_mutations_numbered|by constructor].
Qed.

(** ** An event reads no other event *)

(** Two sources that agree on what the mutations of event [seq] look up. *)
Definition same_source (seq : Z) (se1 se2 : dict Z TraceEvent) : Prop :=
  dget se1 0 = dget se2 0 /\ dget se1 seq = dget se2 seq.

Lemma start_source_same seq se1 se2 m :
  same_source seq se1 se2 -> numbered seq m -> start_source se1 m = start_source se2 m.
Proof.
  intros [H0 H1] [_ [Hm|Hm]]; unfold start_source; rewrite Hm; simpl; by rewrite ?H0, ?H1.
Qed.

Lemma apply_mutation_same seq se1 se2 m g :
  same_source seq se1 se2 -> numbered seq m ->
  apply_graph_node_mutation se1 m g = apply_graph_node_mutation se2 m g.
Proof.
  intros Hs Hm. pose proof (start_source_same _ _ _ _ Hs Hm) as Hss.
  assert (graph_execution_started m se1 = graph_execution_started m se2) as Hx
    by (unfold graph_execution_started; by rewrite Hss).
  assert (forall c, graph_node_name c m se1 = graph_node_name c m se2) as Hnm
    by (intros c; unfold graph_node_name; by rewrite Hss, Hx).
  assert (forall n, settle m se1 n = settle m se2 n) as Hse
    by (intros n; unfold settle, graph_failure_sequence; by rewrite Hx).
  assert (forall n, update_row m se1 n = update_row m se2 n) as Hu.
  { intros n. unfold update_row, bind, gets. rewrite Hnm.
    repeat match goal with
      |- (let (_, _) := ?p in _) = _ => destruct p as [[] ?]; [|done] end.
    unfold modify. by rewrite Hse. }
  unfold apply_graph_node_mutation. destruct (mu_remove m); [done|].
  destruct (dget g _) as [[n|]|]; [|done..]. by rewrite Hu.
Qed.

Lemma terminal_mutations_numbered e rs :
  Forall (numbered (ev_trace_seq e)) (assistant_run_terminal_mutations e rs).
Proof.
  unfold assistant_run_terminal_mutations.
  destruct (f_body (ev_fact e)); try by constructor.
  destruct (assistant_run_terminal_status f); [|by constructor].
  apply Forall_map, Forall_true. intros r. numbered_go.
Qed.

Lemma apply_event_same se1 se2 e g :
  same_source (ev_trace_seq e) se1 se2 -> apply_graph_event se1 e g = apply_graph_event se2 e g.
Proof.
  intros Hs. unfold apply_graph_event, bind, lift, gets.
  destruct (graph_node_mutations [e]) as [ms|] eqn:Hms; [|done].
  apply graph_node_mutations_from in Hms. rewrite Forall_forall in Hms.
  rewrite (for_each_ext _ (apply_graph_node_mutation se2)).
  - destruct (for_each _ ms g) as [[] g']; [|done]. apply for_each_ext. intros m s Hm.
    apply (apply_mutation_same (ev_trace_seq e)); [done|].
    pose proof (terminal_mutations_numbered e (dvals g')) as Ht. rewrite Forall_forall in Ht. auto.
  - intros m s Hm. apply (apply_mutation_same (ev_trace_seq e)); [done|].
    by destruct (Hms m Hm) as (_ & ? & ?).
Qed.

(** ** Batches *)

Lemma by_sequence_snoc l e : by_sequence (l ++ [e]) = dset (by_sequence l) (ev_trace_seq e) e.
Proof. unfold by_sequence. by rewrite foldl_app. Qed.

Lemma by_sequence_absent l s :
  (forall e, e ∈ l -> ev_trace_seq e <> s) -> dget (by_sequence l) s = None.
Proof.
  induction l as [|e l IH] using rev_ind; intros H; [done|].
  rewrite by_sequence_snoc, dget_dset, decide_False.
  - apply IH. intros e' He. apply H. apply elem_of_app. by left.
  - apply H. apply elem_of_app. right. by apply list_elem_of_singleton.
Qed.

Lemma by_sequence_in l e :
  NoDup (map ev_trace_seq l) -> e ∈ l -> dget (by_sequence l) (ev_trace_seq e) = Some e.
Proof.
  induction l as [|e' l IH] using rev_ind; [by intros _ ?%elem_of_nil|].
  rewrite map_app. intros (Hl & Hd & _)%NoDup_app Hin.
  rewrite by_sequence_snoc, dget_dset. apply elem_of_app in Hin as [Hin|Hin].
  - rewrite decide_False; [by apply IH|]. intros Heq. apply (Hd (ev_trace_seq e)).
    + apply list_elem_of_In, in_map_iff. exists e. split; [done|]. by apply list_elem_of_In.
    + simpl. rewrite <-Heq. by left.
  - apply list_elem_of_singleton in Hin as ->. by rewrite decide_True.
Qed.

(** Numbers from 1 on, each once. *)
Definition distinct (l : list TraceEvent) : Prop :=
  NoDup (map ev_trace_seq l) /\ forall e, e ∈ l -> 1 <= ev_trace_seq e.

Lemma distinct_app l1 l2 : distinct (l1 ++ l2) -> distinct l1 /\ distinct l2.
Proof.
  intros [Hd Hp]. rewrite map_app in Hd. apply NoDup_app in Hd as (H1 & _ & H2).
  split; (split; [done|]); intros e He; apply Hp, elem_of_app; auto.
Qed.

Lemma same_source_sub l l' e :
  distinct l -> distinct l' -> (forall x, x ∈ l' -> x ∈ l) -> e ∈ l' ->
  same_source (ev_trace_seq e) (by_sequence l) (by_sequence l').
Proof.
  intros [H1 H2] [H1' H2'] Hsub He. split.
  - rewrite !by_sequence_absent; [done|..]; intros x Hx; [apply H2' in Hx|apply H2 in Hx]; lia.
  - by rewrite !by_sequence_in by auto.
Qed.

(** A batch may be cut anywhere. *)
Lemma apply_events_app l1 l2 g :
  distinct (l1 ++ l2) ->
  apply_graph_events (l1 ++ l2) g = (do* apply_graph_events l1 in apply_graph_events l2) g.
Proof.
  intros Hd. destruct (distinct_app _ _ Hd) as [Hd1 Hd2].
  unfold apply_graph_events at 1. rewrite for_each_app. unfold bind.
  assert (for_each (apply_graph_event (by_sequence (l1 ++ l2))) l1 g = apply_graph_events l1 g)
    as ->.
  { apply for_each_ext. intros e s He. apply apply_event_same.
    apply same_source_sub; auto. intros x Hx. apply elem_of_app. by left. }
  destruct (apply_graph_events l1 g) as [[] g']; [|done].
  apply for_each_ext. intros e s He. apply apply_event_same.
  apply same_source_sub; auto. intros x Hx. apply elem_of_app. by right.
Qed.

(** So replaying the log in pages is replaying the log. *)
Lemma apply_pages pages g :
  distinct (concat pages) -> for_each apply_graph_events pages g =
  apply_graph_events (concat pages) g.
Proof.
  revert g. induction pages as [|p pages IH]; intros g Hd; [done|]. simpl in *.
  rewrite apply_events_app by done. unfold bind.
  destruct (apply_graph_events p g) as [[] g']; [|done]. apply IH.
  by destruct (distinct_app _ _ Hd).
Qed.

(** ** Well-formed indexes *)

Lemma terminal_mutations_ok e rs :
  Forall mutation_ok (assistant_run_terminal_mutations e rs).
Proof.
  unfold assistant_run_terminal_mutations.
  destruct (f_body (ev_fact e)); try by constructor.
  destruct (assistant_run_terminal_status f); [|by constructor].
  by apply Forall_map, Forall_true.
Qed.

Lemma apply_mutations_ok se ms g :
  Forall mutation_ok ms -> graph_ok g ->
  graph_ok (for_each (apply_graph_node_mutation se) ms g).2.
Proof.
  intros Hms Hg. apply for_each_inv; [done|]. intros m g' Hm Hg'.
  rewrite Forall_forall in Hms. apply apply_mutation_ok; auto.
Qed.

Lemma apply_mutations_settled se ms g :
  Forall mutation_ok ms -> graph_ok g -> graph_settled g ->
  (for_each (apply_graph_node_mutation se) ms g).1 = Ok tt ->
  graph_settled (for_each (apply_graph_node_mutation se) ms g).2.
Proof.
  revert g. induction ms as [|m ms IH]; intros g Hms Hg Hs; simpl; [done|].
  inversion_clear Hms as [|? ? Hm Hms']. unfold bind.
  pose proof (apply_mutation_ok se m g Hm Hg) as Ho.
  pose proof (apply_mutation_settled se m g Hm Hg Hs) as Hse.
  destruct (apply_graph_node_mutation se m g) as [[[]|] g']; simpl in *; [|done]. by apply IH; auto.
Qed.

Lemma from_event_ok seq ms : Forall (from_event seq) ms -> Forall mutation_ok ms.
Proof. intros H. eapply Forall_impl; [exact H|]. by intros m [? _]. Qed.

Lemma apply_event_ok se e g : graph_ok g -> graph_ok (apply_graph_event se e g).2.
Proof.
  intros Hg. unfold apply_graph_event, bind, lift, gets.
  destruct (graph_node_mutations [e]) as [ms|] eqn:Hms; [|done].
  apply graph_node_mutations_from, from_event_ok in Hms.
  pose proof (apply_mutations_ok se ms g Hms Hg) as Ho.
  destruct (for_each _ ms g) as [[] g']; [|done].
  apply apply_mutations_ok; [apply terminal_mutations_ok|done].
Qed.

Lemma apply_events_ok l g : graph_ok g -> graph_ok (apply_graph_events l g).2.
Proof.
  intros Hg. unfold apply_graph_events. apply for_each_inv; [done|]. intros e g' _.
  apply apply_event_ok.
Qed.

Lemma apply_event_settled se e g :
  graph_ok g -> graph_settled g -> (apply_graph_event se e g).1 = Ok tt ->
  graph_settled (apply_graph_event se e g).2.
Proof.
  intros Hg Hs. unfold apply_graph_event, bind, lift, gets.
  destruct (graph_node_mutations [e]) as [ms|] eqn:Hms; [|done].
  apply graph_node_mutations_from, from_event_ok in Hms.
  pose proof (apply_mutations_ok se ms g Hms Hg) as Ho.
  pose proof (apply_mutations_settled se ms g Hms Hg Hs) as Hse.
  destruct (for_each _ ms g) as [[[]|] g']; simpl in *; [|done].
  apply apply_mutations_settled; [apply terminal_mutations_ok|done|auto].
Qed.

Lemma apply_events_settled l g :
  graph_ok g -> graph_settled g -> (apply_graph_events l g).1 = Ok tt ->
  graph_settled (apply_graph_events l g).2.
Proof.
  unfold apply_graph_events. generalize (by_sequence l) as se. intros se. revert g.
  induction l as [|e l IH]; intros g Hg Hs; simpl; [done|]. unfold bind.
  pose proof (apply_event_ok se e g Hg) as Ho. pose proof (apply_event_settled se e g Hg Hs) as Hse.
  destruct (apply_graph_event se e g) as [[[]|] g']; simpl in *; [|done]. by apply IH; auto.
Qed.

(** ** Rebuilding *)

Lemma revision_mutation_ok key r : revision_ok key r -> mutation_ok (revision_mutation r).
Proof.
  intros [_ Hr]. destruct r as [n|id run s]; [|done]. destruct Hr as [H1 H2].
  unfold mutation_ok, TraceGraphNodeMutation_post_init, revision_mutation. simpl.
  rewrite H1, eqb_reflx. simpl. destruct (n_model_call_seq n) as [s|]; [|done].
  simpl. replace (1 <=? s) with true by lia. by replace (s <=? n_updated_seq n) with true by lia.
Qed.

Lemma apply_revision se key r g :
  revision_ok key r -> revision_settled r -> dget g key = None ->
  apply_graph_node_mutation se (revision_mutation r) g = (Ok tt, g ++ [(key, r)]).
Proof.
  intros [-> _] Hs Hg. unfold apply_graph_node_mutation.
  destruct r as [n|id run s]; simpl in *; [|by rewrite dset_absent].
  rewrite Hg. unfold new_node. simpl. rewrite Hs, dset_absent by done. by destruct n.
Qed.

(** A graph can be rebuilt from its rows. *)
Lemma rebuild_from_rows se g :
  graph_ok g -> graph_settled g ->
  graph_revision_mutations (dvals g) = Ok (map revision_mutation (dvals g)) /\
  for_each (apply_graph_node_mutation se) (map revision_mutation (dvals g)) [] = (Ok tt, g).
Proof.
  intros [Hwf Hok] Hs. split.
  - unfold graph_revision_mutations. rewrite rfor_each_intro; [done|].
    apply Forall_map, Forall_forall. intros r [key Hr]%elem_of_dvals; [|done].
    by eapply revision_mutation_ok, Hok.
  - assert (forall r l, l ++ r = g ->
      for_each (apply_graph_node_mutation se) (map revision_mutation (dvals r)) l = (Ok tt, g))
      as H; [|by apply (H g [])].
    intros r. induction r as [|[key x] r IH]; intros l El; simpl;
      [by rewrite app_nil_r in El; subst l|].
    assert (dget g key = Some x) as Hx.
    { apply elem_of_dget; [done|]. subst g. apply elem_of_app. right. by left. }
    unfold bind. rewrite (apply_revision se key x l); [|by apply Hok|by eapply Hs|].
    + apply IH. subst g. by rewrite <-app_assoc.
    + subst g. unfold dwf, dkeys in Hwf. rewrite map_app in Hwf.
      apply NoDup_app in Hwf as (_ & Hd & _). apply not_elem_of_dkeys. intros Hin.
      apply (Hd key Hin). simpl. by left.
Qed.

(** Mutations that have been reduced are reduced to themselves. *)
Lemma reduce_reduced se g :
  graph_ok g -> graph_settled g ->
  reduce_graph_mutations se (map revision_mutation (dvals g)) =
  Ok (map revision_mutation (dvals g)).
Proof.
  intros Hg Hs. destruct (rebuild_from_rows se g Hg Hs) as [H1 H2].
  unfold reduce_graph_mutations. by rewrite H2.
Qed.

(** ** The end of a run *)

(** A fact of a run itself changes no node on its own. *)
Definition run_fact (f : TraceSemanticFact) : Prop :=
  match f_body f with Run _ => True | _ => False end.

Lemma run_fact_mutations e : run_fact (ev_fact e) -> graph_node_mutations [e] = Ok [].
Proof.
  unfold run_fact, graph_node_mutations, collect_mutations, event_mutations.
  by destruct (f_body (ev_fact e)).
Qed.

Lemma run_facts_mutations l :
  Forall (fun e => run_fact (ev_fact e)) l -> graph_node_mutations l = Ok [].
Proof.
  intros H. unfold graph_node_mutations. generalize (by_sequence l) as se. intros se.
  assert (collect_mutations l = Ok []) as ->; [|done].
  induction H as [|e l He _ IH]; [done|]. simpl. rewrite IH. unfold event_mutations.
  unfold run_fact in He. by destruct (f_body (ev_fact e)).
Qed.

(** A mutation that only settles an existing row. *)
Definition settling (seq : Z) (m : TraceGraphNodeMutation) (g : Graph) : Prop :=
  exists id run status at_, m = (partial id seq run |> with_status status |> ending at_) /\
  exists n, dget g (id, run) = Some (Node n) /\ n_updated_seq n <= seq.

Lemma apply_settling se seq m g :
  settling seq m g -> exists g', apply_graph_node_mutation se m g = (Ok tt, g') /\
    forall m', settling seq m' g -> settling seq m' g'.
Proof.
  intros (id & run & status & at_ & -> & n & Hg & Hn).
  unfold apply_graph_node_mutation. simpl. rewrite Hg.
  assert (exists n', update_row (partial id seq run |> with_status status |> ending at_) se n =
    (Ok tt, n') /\ n_updated_seq n' = seq) as (n' & Hu & Hn').
  { unfold update_row, bind, gets, raise_if, lift, modify, when, ret. simpl.
    replace (seq <? n_updated_seq n) with false by lia. simpl. eauto. }
  simpl in Hu. rewrite Hu. eexists. split; [done|].
  intros m' (id' & run' & status' & at' & -> & n1 & Hg1 & Hn1).
  exists id', run', status', at'. split; [done|]. rewrite dget_dset. case_decide; [|eauto].
  exists n'. split; [done|lia].
Qed.

Lemma apply_settlings se seq ms g :
  Forall (fun m => settling seq m g) ms ->
  (for_each (apply_graph_node_mutation se) ms g).1 = Ok tt.
Proof.
  revert g. induction ms as [|m ms IH]; intros g H; simpl; [done|].
  inversion_clear H as [|? ? Hm Hms]. unfold bind.
  destruct (apply_settling se seq m g Hm) as (g' & -> & Hkeep). apply IH.
  eapply Forall_impl; [exact Hms|]. intros m'. apply Hkeep.
Qed.

Lemma terminal_mutations_settle e g :
  graph_ok g ->
  Forall (fun m => settling (ev_trace_seq e) m g) (assistant_run_terminal_mutations e (dvals g)).
Proof.
  intros [Hwf Hok]. unfold assistant_run_terminal_mutations.
  destruct (f_body (ev_fact e)); try by constructor.
  destruct (assistant_run_terminal_status f) as [status|]; [|by constructor].
  apply Forall_map, Forall_forall. intros r [Hr Hu]%list_elem_of_In%filter_In.
  apply list_elem_of_In, elem_of_dvals in Hr as [key Hr]; [|done].
  destruct (Hok _ _ Hr) as [-> _]. do 4 eexists. split; [done|].
  destruct r as [n|]; [|done]. exists n. split; [done|]. simpl in Hu. bool_prop. lia.
Qed.

(** Facts of the run itself are never refused by the index. *)
Lemma run_facts_apply l g :
  Forall (fun e => run_fact (ev_fact e)) l -> graph_ok g -> (apply_graph_events l g).1 = Ok tt.
Proof.
  unfold apply_graph_events. generalize (by_sequence l) as se. intros se Hl. revert g.
  induction Hl as [|e l He Hl IH]; intros g Hg; simpl; [done|].
  pose proof (apply_event_ok se e g Hg) as Ho. revert Ho.
  unfold bind at 1. unfold apply_graph_event at 1 2, bind, lift, gets.
  rewrite (run_fact_mutations e He). simpl.
  pose proof (apply_settlings se (ev_trace_seq e) _ g (terminal_mutations_settle e g Hg)) as Ht.
  destruct (for_each _ _ g) as [[[]|] g']; simpl in *; [|done]. intros Ho. by apply IH.
Qed.
End updates.
