(* ===== verification/TraceLedger.v ===== *)
(** Tracing: _ledger.py, the reducer every ledger backend shares - from a change and
    the stored state it names to the effect to apply - and [_event] of store.py. *)
From S2P Require Import Prelude PyDict PySeq Contracts TraceModels TraceGraph.
From Stdlib Require Import Strings.String.

(** ** The environment *)

(** The size in bytes of an event's JSON, and [datetime.max] on the clock's scale. *)
Class TraceJson : Type := { json_bytes : TraceEvent -> Z; datetime_max : Z }.

(** [len(str(n))] of a number that is not negative. *)
Fixpoint decimal_digits (fuel : nat) (n : Z) : Z :=
  match fuel with
  | O => 1
  | S fuel => if n <? 10 then 1 else 1 + decimal_digits fuel (n / 10)
  end.

Definition digits (n : Z) : Z := decimal_digits (Z.to_nat (Z.log2 n)) n.

(** What the theorems use of the encoder: some text is written, and the field
    [persisted_bytes], written in decimal, is all that changes with it. *)
Class TraceJsonLaws {json : TraceJson} : Prop := {
  json_bytes_pos e : 1 <= json_bytes e;
  json_bytes_resized event_id seq generation fact n m : 0 < n -> 0 < m ->
    json_bytes {| ev_event_id := event_id; ev_trace_seq := seq; ev_generation := generation;
                  ev_fact := fact; ev_persisted_bytes := n |} - digits n =
    json_bytes {| ev_event_id := event_id; ev_trace_seq := seq; ev_generation := generation;
                  ev_fact := fact; ev_persisted_bytes := m |} - digits m
}.

(** ** Effects *)

Record TraceLedgerStorageEffect : Type := {
  ef_result : TraceLedgerCommitResult;
  ef_thread : option TraceLedgerThreadState;
  ef_remove_thread : bool;
  ef_writer : option TraceLedgerWriterState;
  ef_remove_writer_run_id : option pystr;
  ef_events : list StoredTraceEvent;
  ef_validated_events : list TraceEvent;
  ef_graph_node_mutations : list TraceGraphNodeMutation;
  ef_checkpoint : option StoredTraceCheckpoint;
  ef_delete_generation : bool;
  ef_namespace_thread_delta : Z;
  ef_namespace_persisted_bytes_delta : Z;
  ef_namespace_reserved_bytes_delta : Z
}.

(** An effect that answers and may replace the writer. *)
Definition answer (result : TraceLedgerCommitResult) (writer : option TraceLedgerWriterState)
    : TraceLedgerStorageEffect :=
  {| ef_result := result; ef_thread := None; ef_remove_thread := false; ef_writer := writer;
     ef_remove_writer_run_id := None; ef_events := []; ef_validated_events := [];
     ef_graph_node_mutations := []; ef_checkpoint := None; ef_delete_generation := false;
     ef_namespace_thread_delta := 0; ef_namespace_persisted_bytes_delta := 0;
     ef_namespace_reserved_bytes_delta := 0 |}.

Definition commit_result (kind : TraceLedgerChangeKind) (key : TraceThreadKey)
    (run_id owner_token : option pystr) (fence : option Z) (events : list TraceEvent)
    (checkpoint : option TraceProjectionCheckpoint) : TraceLedgerCommitResult :=
  {| re_kind := kind; re_key := Some key; re_run_id := run_id; re_owner_token := owner_token;
     re_fence := fence; re_events := events; re_checkpoint := checkpoint |}.

(** ** Scope *)

Definition identity_key (i : RunIdentity) : pystr * pystr := (i_namespace i, i_thread_id i).
Definition thread_key (k : TraceThreadKey) : pystr * pystr := (k_namespace k, k_thread_id k).

(** Every identity a change and its state name, as namespace and thread. *)
Definition named_threads (change : TraceLedgerChange) (state : TraceLedgerState)
    : list (pystr * pystr) :=
  omap id [identity_key <$> ch_identity change; thread_key <$> ch_key change;
           (fun c => thread_key (pc_key c)) <$> ch_checkpoint change;
           (fun t => thread_key (th_key t)) <$> ls_thread state].

Definition named_runs (change : TraceLedgerChange) (state : TraceLedgerState) : list pystr :=
  omap id [ch_run_id change; i_run_id <$> ch_identity change;
           match ch_checkpoint change with Some c => pc_run_id c | None => None end;
           w_run_id <$> ls_target_writer state].

(** [len(set(l)) > 1] *)
Definition all_equal {A} `{EqDecision A} (l : list A) : bool :=
  match l with [] => true | x :: l => forallb (fun y => bool_decide (y = x)) l end.

Definition fact_in_scope (namespace : pystr) (thread_id : option pystr) (runs : list pystr)
    (f : TraceSemanticFact) : bool :=
  match thread_id with
  | None => false
  | Some thread_id =>
      bool_decide (i_namespace (f_identity f) = namespace) &&
      bool_decide (i_thread_id (f_identity f) = thread_id) &&
      bool_decide (f_run_id f ∈ runs)
  end.

Definition validate_change_scope (change : TraceLedgerChange) (state : TraceLedgerState)
    : res trace_exn unit :=
  let keys := named_threads change state in
  let runs := named_runs change state in
  do? rraise_if (negb (forallb (fun k => bool_decide (k.1 = ch_namespace change)) keys) ||
                 negb (all_equal (map snd keys))) TraceStoreProtocolError in
  do? rraise_if (match ch_checkpoint change, ch_key change with
                 | Some c, Some k => negb (bool_decide (pc_key c = k))
                 | _, _ => false
                 end) TraceStoreProtocolError in
  do? rraise_if (negb (all_equal runs)) TraceStoreProtocolError in
  let facts := map d_fact (ch_facts change) ++ map ev_fact (ch_proven_events change) in
  do? rraise_if (negb (forallb (fact_in_scope (ch_namespace change) (head (map snd keys)) runs)
                         facts)) TraceStoreProtocolError in
  rraise_if (match ch_key change with
             | Some k => negb (forallb (fun e => bool_decide (ev_generation e = k_generation k))
                                 (ch_proven_events change))
             | None => false
             end) TraceStoreProtocolError.

(** ** Writers *)

Definition new_writer (run_id owner_token : pystr) (lease : Z) (event_reserve byte_reserve : Z)
    : TraceLedgerWriterState :=
  {| w_run_id := run_id; w_owner_token := owner_token; w_fence := 1;
     w_lease_expires_at := lease; w_active := true; w_terminal_committed := false;
     w_closed_committed := false; w_committed_events := 0;
     w_remaining_event_reserve := event_reserve; w_remaining_byte_reserve := byte_reserve |}.

(** A writer with another lease; its owner, fence and activity as given. *)
Definition with_lease (owner_token : pystr) (fence lease : Z) (active : bool)
    (w : TraceLedgerWriterState) : TraceLedgerWriterState :=
  {| w_run_id := w_run_id w; w_owner_token := owner_token; w_fence := fence;
     w_lease_expires_at := lease; w_active := active;
     w_terminal_committed := w_terminal_committed w;
     w_closed_committed := w_closed_committed w; w_committed_events := w_committed_events w;
     w_remaining_event_reserve := w_remaining_event_reserve w;
     w_remaining_byte_reserve := w_remaining_byte_reserve w |}.

Section ledger.
Context {hash : ScopeHash} {json : TraceJson}.

Definition writer_lease_expiration (change : TraceLedgerChange) (observed_at : Z)
    : res trace_exn Z :=
  if negb (ch_enforce_writer_lease change) then Ok datetime_max
  else
    let expires_at := observed_at + writer_lease_seconds (ch_options change) in
    do? rraise_if (datetime_max <? expires_at) TraceOverflowError in
    Ok expires_at.

Definition renewed (lease : Z) (w : TraceLedgerWriterState) : TraceLedgerWriterState :=
  with_lease (w_owner_token w) (w_fence w) lease (w_active w) w.

Definition require_exact_thread (key : TraceThreadKey) (state : TraceLedgerState)
    : res trace_exn TraceLedgerThreadState :=
  match ls_thread state with
  | Some thread => if decide (th_key thread = key) then Ok thread else Raise TraceThreadNotFound
  | None => Raise TraceThreadNotFound
  end.

(** The writer is active and was opened by the owner with this token and fence. *)
Definition held_by (token : option pystr) (fence : option Z) (w : TraceLedgerWriterState) : bool :=
  w_active w && bool_decide (Some (w_owner_token w) = token) &&
  bool_decide (Some (w_fence w) = fence).

Definition owned_writer (change : TraceLedgerChange) (state : TraceLedgerState)
    (require_unexpired : bool)
    : res trace_exn (TraceLedgerThreadState * TraceLedgerWriterState) :=
  match ch_key change, ch_run_id change with
  | Some key, Some run_id =>
      let? thread := require_exact_thread key state in
      match ls_target_writer state with
      | None => Raise TraceStoreProtocolError
      | Some writer =>
          do? rraise_if (negb (bool_decide (w_run_id writer = run_id))) TraceStoreProtocolError in
          do? rraise_if (negb (held_by (ch_owner_token change) (ch_fence change) writer) ||
                         (require_unexpired &&
                          (w_lease_expires_at writer <=? ls_observed_at state)))
                TraceStoreProtocolError in
          Ok (thread, writer)
      end
  | _, _ => Raise TraceStoreProtocolError
  end.

(** ** Opening a writer; [generation] is the next [uuid4().hex] *)

Definition open_thread (change : TraceLedgerChange) (state : TraceLedgerState)
    (identity : RunIdentity) (generation : pystr) : res trace_exn TraceLedgerThreadState :=
  match ls_thread state with
  | None =>
      do? rraise_if (max_tracer_threads (ch_limits change) <=? ls_namespace_thread_count state)
            TraceQuotaExceeded in
      let key := {| k_namespace := ch_namespace change; k_thread_id := i_thread_id identity;
                    k_generation := generation |} in
      do? rraise_if (negb (TraceThreadKey_valid key)) TraceValueError in
      Ok {| th_key := key; th_next_seq := 1; th_persisted_bytes := 0 |}
  | Some thread =>
      do? rraise_if (negb (bool_decide (k_namespace (th_key thread) = ch_namespace change)))
            TraceStoreProtocolError in
      Ok thread
  end.

(** Opening a run that has a writer: the same owner again, or a takeover. *)
Definition reopen_writer (change : TraceLedgerChange) (state : TraceLedgerState)
    (owner_token : pystr) (existing : TraceLedgerWriterState)
    : res trace_exn TraceLedgerWriterState :=
  if bool_decide (w_owner_token existing = owner_token) && w_active existing &&
     negb (w_closed_committed existing)
  then
    let? lease := writer_lease_expiration change (ls_observed_at state) in
    Ok (with_lease (w_owner_token existing) (w_fence existing) lease true existing)
  else
    do? rraise_if (negb (w_active existing) || w_closed_committed existing) TraceRunConflict in
    do? rraise_if (negb (ch_enforce_writer_lease change) ||
                   (ls_observed_at state <? w_lease_expires_at existing)) TraceRunConflict in
    let? lease := writer_lease_expiration change (ls_observed_at state) in
    Ok (with_lease owner_token (w_fence existing + 1) lease true existing).

Definition resolve_open_writer (change : TraceLedgerChange) (state : TraceLedgerState)
    (generation : pystr) : res trace_exn TraceLedgerStorageEffect :=
  match ch_identity change, ch_owner_token change with
  | Some identity, Some owner_token =>
      let limits := ch_limits change in
      let? thread := open_thread change state identity generation in
      let opened w := commit_result OpenWriter (th_key thread) (Some (i_run_id identity))
                        (Some owner_token) (Some (w_fence w)) [] None in
      match ls_target_writer state with
      | Some existing =>
          let? writer := reopen_writer change state owner_token existing in
          Ok (answer (opened writer) (Some writer))
      | None =>
          let event_reserve := terminal_reserve_events_per_run limits in
          let byte_reserve := terminal_reserve_bytes_per_run limits in
          do? rraise_if (max_thread_events limits <?
                         th_next_seq thread - 1 + ls_thread_reserved_events state + event_reserve)
                TraceQuotaExceeded in
          do? rraise_if (max_thread_bytes limits <?
                         th_persisted_bytes thread + ls_thread_reserved_bytes state + byte_reserve)
                TraceQuotaExceeded in
          do? rraise_if (max_tracer_bytes limits <?
                         ls_namespace_persisted_bytes state + ls_namespace_reserved_bytes state +
                         byte_reserve) TraceQuotaExceeded in
          let? lease := writer_lease_expiration change (ls_observed_at state) in
          let writer := new_writer (i_run_id identity) owner_token lease event_reserve
                          byte_reserve in
          let created := absent (ls_thread state) in
          Ok {| ef_result := opened writer; ef_thread := if created then Some thread else None;
                ef_remove_thread := false; ef_writer := Some writer;
                ef_remove_writer_run_id := None; ef_events := []; ef_validated_events := [];
                ef_graph_node_mutations := []; ef_checkpoint := None;
                ef_delete_generation := false;
                ef_namespace_thread_delta := if created then 1 else 0;
                ef_namespace_persisted_bytes_delta := 0;
                ef_namespace_reserved_bytes_delta := byte_reserve |}
      end
  | _, _ => Raise TraceStoreProtocolError
  end.

(** ** Events *)

(** The search for the size that counts its own digits, from [persisted_bytes]. *)
Fixpoint event_size (attempts : nat) (body_bytes persisted_bytes : Z) : res trace_exn Z :=
  match attempts with
  | O => Raise TraceStoreProtocolError
  | S attempts =>
      let encoded_bytes := body_bytes + digits persisted_bytes in
      if encoded_bytes =? persisted_bytes then Ok persisted_bytes
      else event_size attempts body_bytes encoded_bytes
  end.

Definition raw_event (event_id : pystr) (trace_seq : Z) (generation : pystr)
    (fact : TraceSemanticFact) (persisted_bytes : Z) : TraceEvent :=
  {| ev_event_id := event_id; ev_trace_seq := trace_seq; ev_generation := generation;
     ev_fact := fact; ev_persisted_bytes := persisted_bytes |}.

(** [_event(...)] *)
Definition make_event (event_id : pystr) (trace_seq : Z) (generation : pystr)
    (fact : TraceSemanticFact) : res trace_exn TraceEvent :=
  let event := raw_event event_id trace_seq generation fact 1 in
  do? rraise_if (negb (TraceEvent_valid event)) TraceValueError in
  let body_bytes := json_bytes event - 1 in
  let? persisted_bytes := event_size 4 body_bytes 1 in
  Ok (raw_event event_id trace_seq generation fact persisted_bytes).

(** ** Appending *)

Definition run_phase (f : TraceSemanticFact) : option RunFactPhase :=
  match f_body f with Run r => Some (rf_phase r) | _ => None end.

Definition terminal_or_closed (f : TraceSemanticFact) : bool :=
  match run_phase f with Some RunTerminal | Some RunClosed => true | _ => false end.

(** A run fact outside the root scope. *)
Definition misplaced_run_fact (f : TraceSemanticFact) : bool :=
  match f_body f with
  | Run _ => negb (bool_decide (b_graph_namespace (f_base f) = [])) ||
             negb (absent (b_parent_subagent_id (f_base f)))
  | _ => false
  end.

(** [phases.index(a) < phases.index(b)], where both occur. *)
Fixpoint precedes (a b : RunFactPhase) (phases : list RunFactPhase) : bool :=
  match phases with
  | [] => false
  | p :: phases =>
      if decide (p = b) then false
      else if decide (p = a) then true
      else precedes a b phases
  end.

Definition phase_count (a : RunFactPhase) (phases : list RunFactPhase) : Z :=
  count (fun p => bool_decide (p = a)) phases.

(** The lifecycle checks of an append: what the batch makes of the two flags. *)
Definition check_lifecycle (mandatory : bool) (facts : list TraceSemanticFact)
    (terminal_committed closed_committed : bool) : res trace_exn (bool * bool) :=
  if mandatory
  then
    let phases := omap run_phase facts in
    let has p := bool_decide (p ∈ phases) in
    do? rraise_if ((1 <? phase_count RunTerminal phases) || (1 <? phase_count RunClosed phases))
          TraceStoreProtocolError in
    do? rraise_if (terminal_committed && has RunTerminal) TraceStoreProtocolError in
    do? rraise_if closed_committed TraceStoreProtocolError in
    do? rraise_if (has RunClosed &&
                   negb (terminal_committed ||
                         (has RunTerminal && precedes RunTerminal RunClosed phases)))
          TraceStoreProtocolError in
    Ok (terminal_committed || has RunTerminal, has RunClosed)
  else
    do? rraise_if (terminal_committed || closed_committed) TraceStoreProtocolError in
    Ok (terminal_committed, closed_committed).

(** The events of a batch, numbered from [seq] on. *)
Fixpoint make_events (change : TraceLedgerChange) (thread : TraceLedgerThreadState)
    (run_id : pystr) (seq : Z) (drafts : list TraceStoredFact) : res trace_exn (list TraceEvent) :=
  match drafts with
  | [] => Ok []
  | draft :: drafts =>
      let fact := d_fact draft in
      do? rraise_if
            (negb (bool_decide (i_namespace (f_identity fact) = k_namespace (th_key thread))) ||
             negb (bool_decide (i_thread_id (f_identity fact) = k_thread_id (th_key thread))) ||
             negb (bool_decide (f_run_id fact = run_id))) TraceStoreProtocolError in
      let? event := make_event (d_event_id draft) seq (k_generation (th_key thread)) fact in
      do? rraise_if (max_event_bytes (ch_limits change) <? ev_persisted_bytes event)
            TraceQuotaExceeded in
      let? events := make_events change thread run_id (seq + 1) drafts in
      Ok (event :: events)
  end.

Definition stored_event (run_id : pystr) (event : TraceEvent) (draft : TraceStoredFact)
    : StoredTraceEvent :=
  {| st_event_id := ev_event_id event; st_trace_seq := ev_trace_seq event; st_run_id := run_id;
     st_fact_kind := fact_kind (d_fact draft); st_occurred_at := f_occurred_at (d_fact draft);
     st_canonical_payload := d_canonical_payload draft;
     st_payload_digest := d_payload_digest draft;
     st_persisted_bytes := ev_persisted_bytes event |}.

(** The quotas of an append of [events] events and [added_bytes] bytes. *)
Definition check_quota (change : TraceLedgerChange) (state : TraceLedgerState)
    (thread : TraceLedgerThreadState) (writer : TraceLedgerWriterState)
    (events added_bytes : Z) : res trace_exn unit :=
  let limits := ch_limits change in
  if ch_mandatory change
  then rraise_if ((w_remaining_event_reserve writer <? events) ||
                  (w_remaining_byte_reserve writer <? added_bytes)) TraceQuotaExceeded
  else
    do? rraise_if (max_thread_events limits <?
                   th_next_seq thread + events - 1 + ls_thread_reserved_events state)
          TraceQuotaExceeded in
    do? rraise_if (max_thread_bytes limits <?
                   th_persisted_bytes thread + added_bytes + ls_thread_reserved_bytes state)
          TraceQuotaExceeded in
    rraise_if (max_tracer_bytes limits <?
               ls_namespace_persisted_bytes state + added_bytes +
               ls_namespace_reserved_bytes state) TraceQuotaExceeded.

(** Evidence of an earlier commit: nothing is appended. *)
Definition resolve_proven_append (change : TraceLedgerChange) (state : TraceLedgerState)
    : res trace_exn TraceLedgerStorageEffect :=
  match ch_key change with
  | None => Raise TraceStoreProtocolError
  | Some key =>
      let? thread := require_exact_thread key state in
      let? current :=
        match ls_target_writer state with
        | Some w =>
            if held_by (ch_owner_token change) (ch_fence change) w
            then let? lease := writer_lease_expiration change (ls_observed_at state) in
                 Ok (Some (renewed lease w))
            else Ok None
        | None => Ok None
        end in
      Ok (answer (commit_result AppendEvents (th_key thread) (ch_run_id change) None None
                    (ch_proven_events change) None) current)
  end.

(** The writer after an append; a closed run gives its reserve back. *)
Definition appended_writer (mandatory : bool) (lease : Z) (writer : TraceLedgerWriterState)
    (terminal closed : bool) (events added_bytes : Z)
    : TraceLedgerWriterState :=
  {| w_run_id := w_run_id writer; w_owner_token := w_owner_token writer;
     w_fence := w_fence writer; w_lease_expires_at := lease;
     w_active := true; w_terminal_committed := terminal; w_closed_committed := closed;
     w_committed_events := w_committed_events writer + events;
     w_remaining_event_reserve :=
       if mandatory
       then if closed then 0 else w_remaining_event_reserve writer - events
       else w_remaining_event_reserve writer;
     w_remaining_byte_reserve :=
       if mandatory
       then if closed then 0 else w_remaining_byte_reserve writer - added_bytes
       else w_remaining_byte_reserve writer |}.

Definition resolve_append_events (change : TraceLedgerChange) (state : TraceLedgerState)
    : res trace_exn TraceLedgerStorageEffect :=
  if negb (bool_decide (ch_proven_events change = []))
  then resolve_proven_append change state
  else
    do? rraise_if (match ch_facts change with [] => true | _ => false end)
          TraceStoreProtocolError in
    let? owned := owned_writer change state (ch_enforce_writer_lease change) in
    let '(thread, writer) := owned in
    let facts := map d_fact (ch_facts change) in
    do? rraise_if (negb (ch_mandatory change) && existsb terminal_or_closed facts)
          TraceStoreProtocolError in
    do? rraise_if (negb (Bool.eqb (ch_mandatory change) (forallb terminal_or_closed facts)))
          TraceStoreProtocolError in
    do? rraise_if (existsb misplaced_run_fact facts) TraceStoreProtocolError in
    let? flags := check_lifecycle (ch_mandatory change) facts (w_terminal_committed writer)
                    (w_closed_committed writer) in
    let '(terminal, closed) := flags in
    let? events := make_events change thread (w_run_id writer) (th_next_seq thread)
                     (ch_facts change) in
    let appended := zlen events in
    let added_bytes := zsum ev_persisted_bytes events in
    do? check_quota change state thread writer appended added_bytes in
    let? lease := writer_lease_expiration change (ls_observed_at state) in
    let writer' := appended_writer (ch_mandatory change) lease writer terminal closed
                     appended added_bytes in
    let? mutations := graph_node_mutations events in
    Ok {| ef_result := commit_result AppendEvents (th_key thread) (Some (w_run_id writer)) None
                         None events None;
          ef_thread := Some {| th_key := th_key thread;
                               th_next_seq := th_next_seq thread + appended;
                               th_persisted_bytes := th_persisted_bytes thread + added_bytes |};
          ef_remove_thread := false; ef_writer := Some writer';
          ef_remove_writer_run_id := None;
          ef_events := if ch_persist_canonical_event_records change
                       then zip_with (stored_event (w_run_id writer)) events (ch_facts change)
                       else [];
          ef_validated_events := events; ef_graph_node_mutations := mutations;
          ef_checkpoint := None; ef_delete_generation := false;
          ef_namespace_thread_delta := 0; ef_namespace_persisted_bytes_delta := added_bytes;
          ef_namespace_reserved_bytes_delta :=
            w_remaining_byte_reserve writer' - w_remaining_byte_reserve writer |}.

(** ** Renewing and closing *)

Definition resolve_renew_writer (change : TraceLedgerChange) (state : TraceLedgerState)
    : res trace_exn TraceLedgerStorageEffect :=
  let? owned := owned_writer change state
                  (ch_enforce_writer_lease change && negb (ch_proven_renewal change)) in
  let '(thread, writer) := owned in
  let? lease := writer_lease_expiration change (ls_observed_at state) in
  Ok (answer (commit_result RenewWriter (th_key thread) (Some (w_run_id writer)) None None [] None)
        (Some (renewed lease writer))).

Definition closed_writer (w : TraceLedgerWriterState) : TraceLedgerWriterState :=
  {| w_run_id := w_run_id w; w_owner_token := w_owner_token w; w_fence := w_fence w;
     w_lease_expires_at := w_lease_expires_at w; w_active := false;
     w_terminal_committed := w_terminal_committed w;
     w_closed_committed := w_closed_committed w; w_committed_events := w_committed_events w;
     w_remaining_event_reserve := 0; w_remaining_byte_reserve := 0 |}.

(** Closing a writer that is not held any more answers all the same. *)
Definition resolve_close_writer (change : TraceLedgerChange) (state : TraceLedgerState)
    : res trace_exn TraceLedgerStorageEffect :=
  match ch_key change, ch_run_id change with
  | Some key, Some run_id =>
      let result := commit_result CloseWriter key (Some run_id) None None [] None in
      match ls_thread state, ls_target_writer state with
      | Some thread, Some writer =>
          if negb (bool_decide (th_key thread = key)) ||
             negb (held_by (ch_owner_token change) (ch_fence change) writer)
          then Ok (answer result None)
          else
            let remove := w_committed_events writer =? 0 in
            let remove_thread := remove && (th_next_seq thread =? 1) &&
                                 (ls_writer_count state =? 1) in
            Ok {| ef_result := result; ef_thread := None; ef_remove_thread := remove_thread;
                  ef_writer := if remove then None else Some (closed_writer writer);
                  ef_remove_writer_run_id := if remove then Some run_id else None;
                  ef_events := []; ef_validated_events := []; ef_graph_node_mutations := [];
                  ef_checkpoint := None; ef_delete_generation := false;
                  ef_namespace_thread_delta := if remove_thread then -1 else 0;
                  ef_namespace_persisted_bytes_delta := 0;
                  ef_namespace_reserved_bytes_delta := - w_remaining_byte_reserve writer |}
      | _, _ => Ok (answer result None)
      end
  | _, _ => Raise TraceStoreProtocolError
  end.

(** ** Projection checkpoints *)

(** A checkpoint of a prefix that has none yet: compare and swap, forwards only. *)
Definition save_new (change : TraceLedgerChange) (state : TraceLedgerState)
    (checkpoint : TraceProjectionCheckpoint) (payload : list Z) (digest : pystr)
    (result : TraceLedgerCommitResult) : res trace_exn TraceLedgerStorageEffect :=
  let current := sc_as_of_seq <$> ls_current_checkpoint state in
  do? rraise_if (negb (bool_decide (current = ch_expected_checkpoint_as_of_seq change)))
        TraceProjectionCheckpointConflict in
  do? rraise_if (match current with Some s => pc_as_of_seq checkpoint <=? s | None => false end)
        TraceProjectionCheckpointConflict in
  Ok {| ef_result := result; ef_thread := None; ef_remove_thread := false; ef_writer := None;
        ef_remove_writer_run_id := None; ef_events := []; ef_validated_events := [];
        ef_graph_node_mutations := [];
        ef_checkpoint := Some {| sc_key := pc_key checkpoint;
                                 sc_projection_name := pc_projection_name checkpoint;
                                 sc_run_id := pc_run_id checkpoint;
                                 sc_as_of_seq := pc_as_of_seq checkpoint;
                                 sc_canonical_state := payload; sc_state_digest := digest |};
        ef_delete_generation := false; ef_namespace_thread_delta := 0;
        ef_namespace_persisted_bytes_delta := 0; ef_namespace_reserved_bytes_delta := 0 |}.

Definition resolve_save_checkpoint (change : TraceLedgerChange) (state : TraceLedgerState)
    : res trace_exn TraceLedgerStorageEffect :=
  match ch_checkpoint change, ch_canonical_checkpoint_state change,
        ch_checkpoint_state_digest change with
  | Some checkpoint, Some payload, Some digest =>
      let? thread := require_exact_thread (pc_key checkpoint) state in
      do? rraise_if (th_next_seq thread - 1 <? pc_as_of_seq checkpoint)
            TraceStoreProtocolError in
      let result := commit_result SaveProjectionCheckpoint (pc_key checkpoint) None None None []
                      (Some checkpoint) in
      let current := ls_current_checkpoint state in
      match current with
      | Some c =>
          if sc_as_of_seq c =? pc_as_of_seq checkpoint
          then
            do? rraise_if (negb (bool_decide (sc_state_digest c = digest)) ||
                           negb (bool_decide (sc_canonical_state c = payload)))
                  TraceStoreProtocolError in
            Ok (answer result None)
          else save_new change state checkpoint payload digest result
      | None => save_new change state checkpoint payload digest result
      end
  | _, _, _ => Raise TraceStoreProtocolError
  end.

(** ** Deleting *)

Definition resolve_delete_generation (change : TraceLedgerChange) (state : TraceLedgerState)
    : res trace_exn TraceLedgerStorageEffect :=
  match ch_key change with
  | None => Raise TraceStoreProtocolError
  | Some key =>
      let? thread := require_exact_thread key state in
      do? rraise_if (match ls_active_writers state with [] => false | _ => true end)
            TraceRunConflict in
      Ok {| ef_result := commit_result DeleteGeneration key None None None [] None;
            ef_thread := None; ef_remove_thread := false; ef_writer := None;
            ef_remove_writer_run_id := None; ef_events := []; ef_validated_events := [];
            ef_graph_node_mutations := []; ef_checkpoint := None; ef_delete_generation := true;
            ef_namespace_thread_delta := -1;
            ef_namespace_persisted_bytes_delta := - th_persisted_bytes thread;
            ef_namespace_reserved_bytes_delta := - ls_thread_reserved_bytes state |}
  end.

Definition resolve_ledger_change (change : TraceLedgerChange) (state : TraceLedgerState)
    (generation : pystr) : res trace_exn TraceLedgerStorageEffect :=
  do? validate_change_scope change state in
  match ch_kind change with
  | OpenWriter => resolve_open_writer change state generation
  | AppendEvents => resolve_append_events change state
  | RenewWriter => resolve_renew_writer change state
  | CloseWriter => resolve_close_writer change state
  | SaveProjectionCheckpoint => resolve_save_checkpoint change state
  | DeleteGeneration => resolve_delete_generation change state
  end.
End ledger.
