(* ===== verification/TraceMemory.v ===== *)
(** Tracing: [_InMemoryTraceLedgerBackend] of durable_store.py - the threads of a
    process, the snapshot a change is resolved against, and the effects applied to
    them.

    An operation holds the backend's condition from its first to its last statement
    and awaits nothing inside, so it is one step.  No code waits on the condition:
    [notify_all] does nothing.  [M] keeps what was changed before an exception. *)
From S2P Require Import Prelude PyDict PySeq Contracts TraceModels TraceGraph TraceLedger.

(** ** State *)

(** [_MemoryStoredTraceEvent]: the raw record with the event it was made from. *)
Record MemoryStoredTraceEvent : Type := {
  me_record : StoredTraceEvent;
  me_validated_event : TraceEvent
}.

Record MemoryThread : Type := {
  mt_state : TraceLedgerThreadState;
  mt_writers : dict pystr TraceLedgerWriterState;
  mt_events : list MemoryStoredTraceEvent;
  mt_graph_nodes : Graph;
  mt_checkpoints : dict (pystr * option pystr) (list StoredTraceCheckpoint)
}.

(** The backend, with the numbers of clock readings and uuids so far. *)
Record World : Type := {
  threads : dict (pystr * pystr) MemoryThread;
  readings : nat;
  uuids : nat
}.

(** [datetime.now(UTC)] and [uuid4().hex] *)
Class TraceClock : Type := { utc_now : nat -> Z; uuid_hex : nat -> pystr }.

Definition set_threads (f : dict (pystr * pystr) MemoryThread -> dict (pystr * pystr) MemoryThread)
    (w : World) : World :=
  {| threads := f (threads w); readings := readings w; uuids := uuids w |}.

Definition new_thread (state : TraceLedgerThreadState) : MemoryThread :=
  {| mt_state := state; mt_writers := []; mt_events := []; mt_graph_nodes := [];
     mt_checkpoints := [] |}.

Definition set_state (s : TraceLedgerThreadState) (t : MemoryThread) : MemoryThread :=
  {| mt_state := s; mt_writers := mt_writers t; mt_events := mt_events t;
     mt_graph_nodes := mt_graph_nodes t; mt_checkpoints := mt_checkpoints t |}.

Definition set_writers (d : dict pystr TraceLedgerWriterState) (t : MemoryThread) : MemoryThread :=
  {| mt_state := mt_state t; mt_writers := d; mt_events := mt_events t;
     mt_graph_nodes := mt_graph_nodes t; mt_checkpoints := mt_checkpoints t |}.

Definition set_events (l : list MemoryStoredTraceEvent) (t : MemoryThread) : MemoryThread :=
  {| mt_state := mt_state t; mt_writers := mt_writers t; mt_events := l;
     mt_graph_nodes := mt_graph_nodes t; mt_checkpoints := mt_checkpoints t |}.

Definition set_graph (g : Graph) (t : MemoryThread) : MemoryThread :=
  {| mt_state := mt_state t; mt_writers := mt_writers t; mt_events := mt_events t;
     mt_graph_nodes := g; mt_checkpoints := mt_checkpoints t |}.

Definition set_checkpoints (d : dict (pystr * option pystr) (list StoredTraceCheckpoint))
    (t : MemoryThread) : MemoryThread :=
  {| mt_state := mt_state t; mt_writers := mt_writers t; mt_events := mt_events t;
     mt_graph_nodes := mt_graph_nodes t; mt_checkpoints := d |}.

(** ** Snapshots *)

(** Sums over the active writers of a thread. *)
Definition active_sum (f : TraceLedgerWriterState -> Z) (t : MemoryThread) : Z :=
  dsum (fun w => if w_active w then f w else 0) (mt_writers t).

(** The threads of a namespace, and a sum over them. *)
Definition in_namespace (namespace : pystr) (key : pystr * pystr) : bool :=
  bool_decide (key.1 = namespace).

Definition namespace_sum (namespace : pystr) (f : MemoryThread -> Z)
    (d : dict (pystr * pystr) MemoryThread) : Z :=
  esum (fun key t => if in_namespace namespace key then f t else 0) d.

Definition writer_leb : TraceLedgerWriterState -> TraceLedgerWriterState -> bool :=
  key_leb w_run_id str_ltb.

(** A writer whose lease has not ended. *)
Definition writing (now : Z) (w : TraceLedgerWriterState) : bool :=
  w_active w && (now <? w_lease_expires_at w).

Definition newest {A} (l : list A) : option A := last l.

Section memory.
Context {hash : ScopeHash} {json : TraceJson} {clock : TraceClock}.

Definition next_now : M World trace_exn Z := fun w =>
  (Ok (utc_now (readings w)),
   {| threads := threads w; readings := S (readings w); uuids := uuids w |}).

Definition find_thread (w : World) (namespace thread_id : pystr) : option MemoryThread :=
  dget (threads w) (namespace, thread_id).

Definition snapshot (w : World) (now : Z) (namespace thread_id : pystr) (run_id : option pystr)
    (checkpoint_request : option TraceCheckpointRequest) (include_active_writers : bool)
    : TraceLedgerState :=
  let thread := find_thread w namespace thread_id in
  let of_thread f := match thread with Some t => f t | None => 0 end in
  {| ls_observed_at := now;
     ls_namespace_thread_count := namespace_sum namespace (fun _ => 1) (threads w);
     ls_namespace_persisted_bytes :=
       namespace_sum namespace (fun t => th_persisted_bytes (mt_state t)) (threads w);
     ls_namespace_reserved_bytes :=
       namespace_sum namespace (active_sum w_remaining_byte_reserve) (threads w);
     ls_thread := mt_state <$> thread;
     ls_target_writer :=
       match thread, run_id with
       | Some t, Some r => dget (mt_writers t) r
       | _, _ => None
       end;
     ls_writer_count := of_thread (fun t => zlen (mt_writers t));
     ls_thread_reserved_events := of_thread (active_sum w_remaining_event_reserve);
     ls_thread_reserved_bytes := of_thread (active_sum w_remaining_byte_reserve);
     ls_active_writers :=
       match thread with
       | Some t =>
           if include_active_writers
           then map (fun w => {| sw_run_id := w_run_id w;
                                 sw_committed_events := w_committed_events w |})
                  (List.filter (writing now) (sorted_by writer_leb (dvals (mt_writers t))))
           else []
       | None => []
       end;
     ls_current_checkpoint :=
       match thread, checkpoint_request with
       | Some t, Some q =>
           newest (default [] (dget (mt_checkpoints t) (cr_projection_name q, cr_run_id q)))
       | _, _ => None
       end |}.

Definition checkpoint_request (c : TraceProjectionCheckpoint) : TraceCheckpointRequest :=
  {| cr_key := pc_key c; cr_projection_name := pc_projection_name c; cr_run_id := pc_run_id c;
     cr_as_of_seq := pc_as_of_seq c |}.

Definition state_for_change (change : TraceLedgerChange) : M World trace_exn TraceLedgerState :=
  let* target := lift (match ch_identity change, ch_key change with
    | Some i, _ => Ok (i_thread_id i, Some (i_run_id i))
    | None, Some k => Ok (k_thread_id k, ch_run_id change)
    | None, None => Raise TraceStoreProtocolError
    end) in
  let* now := next_now in
  gets (fun w => snapshot w now (ch_namespace change) target.1 target.2
                   (checkpoint_request <$> ch_checkpoint change)
                   (bool_decide (ch_kind change = DeleteGeneration))).

(** ** Effects *)

(** [_memory_stored_event] *)
Definition memory_stored_event (event : TraceEvent) (draft : TraceStoredFact)
    : MemoryStoredTraceEvent :=
  {| me_record :=
       {| st_event_id := ev_event_id event; st_trace_seq := ev_trace_seq event;
          st_run_id := f_run_id (ev_fact event); st_fact_kind := fact_kind (ev_fact event);
          st_occurred_at := f_occurred_at (ev_fact event);
          st_canonical_payload := d_canonical_payload draft;
          st_payload_digest := d_payload_digest draft;
          st_persisted_bytes := ev_persisted_bytes event |};
     me_validated_event := event |}.

(** [del l[: -n]] *)
Definition keep_last {A} (n : Z) (l : list A) : list A :=
  if n =? 0 then l else drop (slice_bound l (- n)) l.

(** A statement on the thread object stored under [key]. *)
Definition on_thread (key : pystr * pystr) (m : M MemoryThread trace_exn unit)
    : M World trace_exn unit := fun w =>
  match dget (threads w) key with
  | None => (Ok tt, w)
  | Some t => let '(r, t) := m t in (r, set_threads (fun d => dset d key t) w)
  end.

(** A statement on the graph of a thread. *)
Definition on_graph (m : M Graph trace_exn unit) : M MemoryThread trace_exn unit := fun t =>
  let '(r, g) := m (mt_graph_nodes t) in (r, set_graph g t).

(** [thread.events.extend(... zip(events, facts, strict=True))] *)
Definition extend_events (events : list TraceEvent) (drafts : list TraceStoredFact)
    : M MemoryThread trace_exn unit :=
  do* modify (fun t => set_events (mt_events t ++ zip_with memory_stored_event events drafts) t) in
  raise_if (negb (bool_decide (length events = length drafts))) TraceValueError.

Definition keep_checkpoint (limits : TraceLimits) (c : StoredTraceCheckpoint) (t : MemoryThread)
    : MemoryThread :=
  let key := (sc_projection_name c, sc_run_id c) in
  let kept := keep_last (max_projection_checkpoints_per_scope limits)
                (default [] (dget (mt_checkpoints t) key) ++ [c]) in
  set_checkpoints (dset (mt_checkpoints t) key kept) t.

(** The effect on the thread it names. *)
Definition apply_to_thread (change : TraceLedgerChange) (effect : TraceLedgerStorageEffect)
    : M MemoryThread trace_exn unit :=
  do* modify (fun t => match ef_remove_writer_run_id effect with
                       | Some r => set_writers (ddel (mt_writers t) r) t
                       | None => t
                       end) in
  do* modify (fun t => match ef_writer effect with
                       | Some w => set_writers (dset (mt_writers t) (w_run_id w) w) t
                       | None => t
                       end) in
  do* match ef_validated_events effect with
      | [] => ret tt
      | events => extend_events events (ch_facts change)
      end in
  do* on_graph (apply_graph_events (ef_validated_events effect)) in
  modify (fun t => match ef_checkpoint effect with
                   | Some c => keep_checkpoint (ch_limits change) c t
                   | None => t
                   end).

Definition put_thread_state (s : TraceLedgerThreadState) (d : dict (pystr * pystr) MemoryThread)
    : dict (pystr * pystr) MemoryThread :=
  let key := thread_key (th_key s) in
  dset d key (match dget d key with Some t => set_state s t | None => new_thread s end).

Definition apply_effect (change : TraceLedgerChange) (effect : TraceLedgerStorageEffect)
    : M World trace_exn unit :=
  let key := or_else (re_key (ef_result effect)) (ch_key change) in
  if ef_delete_generation effect || ef_remove_thread effect
  then modify (set_threads (fun d => match key with
                                     | Some k => ddel d (thread_key k)
                                     | None => d
                                     end))
  else
    do* modify (set_threads (fun d => match ef_thread effect with
                                      | Some s => put_thread_state s d
                                      | None => d
                                      end)) in
    match key with
    | None => ret tt
    | Some k => on_thread (thread_key k) (apply_to_thread change effect)
    end.

(** [uuid4()] when a thread is to be opened; a value that is not used is skipped. *)
Definition next_generation (change : TraceLedgerChange) (state : TraceLedgerState)
    : M World trace_exn pystr := fun w =>
  let drawn := bool_decide (ch_kind change = OpenWriter) && absent (ls_thread state) in
  (Ok (uuid_hex (uuids w)),
   {| threads := threads w; readings := readings w;
      uuids := if drawn then S (uuids w) else uuids w |}).

Definition commit_ledger_change (change : TraceLedgerChange)
    : M World trace_exn TraceLedgerCommitResult :=
  let* state := state_for_change change in
  let* generation := next_generation change state in
  let* effect := lift (resolve_ledger_change change state generation) in
  do* apply_effect change effect in
  ret (ef_result effect).

(** ** Reading *)

Definition load_ledger_state (request : TraceLedgerStateRequest)
    : M World trace_exn TraceLedgerState :=
  let* now := next_now in
  gets (fun w => snapshot w now (lr_namespace request) (lr_thread_id request) (lr_run_id request)
                   None (lr_include_active_writers request)).

Record StoredTraceEventPage : Type := {
  pg_key : TraceThreadKey;
  pg_tail_seq : Z;
  pg_events : list MemoryStoredTraceEvent;
  pg_active_run_ids : list pystr;
  pg_observed_at : Z;
  pg_next_writer_lease_remaining_seconds : option Z
}.

(** The stored thread of an exact generation. *)
Definition exact_thread (key : TraceThreadKey) : M World trace_exn MemoryThread := fun w =>
  match find_thread w (k_namespace key) (k_thread_id key) with
  | Some t => if decide (th_key (mt_state t) = key) then (Ok t, w) else (Raise TraceThreadNotFound, w)
  | None => (Raise TraceThreadNotFound, w)
  end.

Definition page_records (t : MemoryThread) (request : TraceEventPageRequest)
    : list MemoryStoredTraceEvent :=
  let tail := th_next_seq (mt_state t) - 1 in
  match pr_direction request with
  | Forward =>
      let after := default 0 (pr_after_seq request) in
      let as_of := default tail (pr_as_of_seq request) in
      let start := Z.min after tail in
      let stop := Z.min (Z.min as_of tail) (start + pr_limit request) in
      py_slice (mt_events t) start stop
  | Reverse =>
      let before := default (tail + 1) (pr_before_seq request) in
      if tail + 1 <? before then []
      else
        let stop := before - 1 in
        let start := Z.max 0 (stop - pr_limit request) in
        rev (py_slice (mt_events t) start stop)
  end.

(** [min(..., default=None)] *)
Definition zmin (l : list Z) : option Z :=
  match l with [] => None | x :: l => Some (foldl Z.min x l) end.

Definition read_event_page (request : TraceEventPageRequest)
    : M World trace_exn StoredTraceEventPage :=
  let* thread := exact_thread (pr_key request) in
  let* now := next_now in
  let writers := dvals (mt_writers thread) in
  ret {| pg_key := pr_key request;
         pg_tail_seq := th_next_seq (mt_state thread) - 1;
         pg_events := page_records thread request;
         pg_active_run_ids :=
           sorted_by (key_leb id str_ltb) (map w_run_id (List.filter (writing now) writers));
         pg_observed_at := now;
         pg_next_writer_lease_remaining_seconds :=
           zmin (map (fun w => w_lease_expires_at w - now)
                   (List.filter (fun w => writing now w && (w_lease_expires_at w <? datetime_max))
                      writers)) |}.

Definition load_projection_checkpoint (request : TraceCheckpointRequest)
    : M World trace_exn (option StoredTraceCheckpoint) :=
  let* thread := exact_thread (cr_key request) in
  ret (find (fun c => sc_as_of_seq c <=? cr_as_of_seq request)
         (rev (default [] (dget (mt_checkpoints thread)
                             (cr_projection_name request, cr_run_id request))))).

(** ** Rebuilding the graph index *)

Definition count_nodes (g : Graph) : Z :=
  zlen (remove_dups (omap (fun r => match r with Node n => Some (n_node_id n) | _ => None end)
                       (dvals g))).

(** The new index replaces the old one when all of it has been built. *)
Definition rebuild_graph_index (key : TraceThreadKey) (as_of_seq : Z)
    (mutations : list TraceGraphNodeMutation) : M World trace_exn Z :=
  let* thread := exact_thread key in
  do* raise_if (negb (th_next_seq (mt_state thread) - 1 =? as_of_seq)) TraceStoreProtocolError in
  let source_events := by_sequence (map me_validated_event (mt_events thread)) in
  match for_each (apply_graph_node_mutation source_events) mutations [] with
  | (Raise e, _) => raise e
  | (Ok _, rebuilt) =>
      do* on_thread (thread_key key) (modify (set_graph rebuilt)) in
      ret (count_nodes rebuilt)
  end.
End memory.
