(* ===== verification/TraceSteps.v ===== *)
(** Tracing: what one committed change does, as a step relation on the thread it
    names; [commit_steps] shows that every commit is such a step or changes nothing. *)
From S2P Require Import Prelude PyDict PySeq Contracts TraceModels TraceGraph TraceLedger.
From S2P Require Import TraceMemory.

(** The events of a thread, as they were committed. *)
Definition log (t : MemoryThread) : list TraceEvent := map me_validated_event (mt_events t).

Definition put_writer (w : TraceLedgerWriterState) (t : MemoryThread) : MemoryThread :=
  set_writers (dset (mt_writers t) (w_run_id w) w) t.

(** What is kept for events and for terminal facts. *)
Definition used_events (t : MemoryThread) : Z :=
  th_next_seq (mt_state t) - 1 + active_sum w_remaining_event_reserve t.
Definition used_bytes (t : MemoryThread) : Z :=
  th_persisted_bytes (mt_state t) + active_sum w_remaining_byte_reserve t.
Definition namespace_bytes (namespace : pystr) (d : dict (pystr * pystr) MemoryThread) : Z :=
  namespace_sum namespace used_bytes d.
Definition namespace_threads (namespace : pystr) (d : dict (pystr * pystr) MemoryThread) : Z :=
  namespace_sum namespace (fun _ => 1) d.

(** The slot [key] holds [o]. *)
Definition put_slot (key : pystr * pystr) (o : option MemoryThread)
    (d : dict (pystr * pystr) MemoryThread) : dict (pystr * pystr) MemoryThread :=
  match o with Some t => dset d key t | None => ddel d key end.

Section steps.
Context {hash : ScopeHash} {json : TraceJson} {clock : TraceClock}.

(** The record of the change's checkpoint. *)
Definition saved_by (change : TraceLedgerChange) (c : StoredTraceCheckpoint) : Prop :=
  exists p payload digest, ch_checkpoint change = Some p /\
    ch_canonical_checkpoint_state change = Some payload /\
    ch_checkpoint_state_digest change = Some digest /\
    c = {| sc_key := pc_key p; sc_projection_name := pc_projection_name p;
           sc_run_id := pc_run_id p; sc_as_of_seq := pc_as_of_seq p;
           sc_canonical_state := payload; sc_state_digest := digest |}.

(** A thread after a batch of events. *)
Definition appended (change : TraceLedgerChange) (events : list TraceEvent)
    (writer : TraceLedgerWriterState) (t : MemoryThread) : MemoryThread :=
  {| mt_state := {| th_key := th_key (mt_state t);
                    th_next_seq := th_next_seq (mt_state t) + zlen events;
                    th_persisted_bytes := th_persisted_bytes (mt_state t) +
                                          zsum ev_persisted_bytes events |};
     mt_writers := dset (mt_writers t) (w_run_id writer) writer;
     mt_events := mt_events t ++ zip_with memory_stored_event events (ch_facts change);
     mt_graph_nodes := (apply_graph_events events (mt_graph_nodes t)).2;
     mt_checkpoints := mt_checkpoints t |}.

Inductive thread_step (w : World) (change : TraceLedgerChange) (key : pystr * pystr) (now : Z)
    : option MemoryThread -> option MemoryThread -> Prop :=
(** a run's first writer, in a new thread if there is none *)
| step_open o t run token lease :
    ch_kind change = OpenWriter -> ch_owner_token change = Some token ->
    (exists i, ch_identity change = Some i /\ identity_key i = key /\ i_run_id i = run) ->
    match o with
    | Some t0 => t = t0
    | None =>
        t = new_thread {| th_key := {| k_namespace := key.1; k_thread_id := key.2;
                                       k_generation := uuid_hex (uuids w) |};
                          th_next_seq := 1; th_persisted_bytes := 0 |} /\
        namespace_threads key.1 (threads w) < max_tracer_threads (ch_limits change)
    end ->
    dget (mt_writers t) run = None ->
    used_events t + terminal_reserve_events_per_run (ch_limits change) <=
      max_thread_events (ch_limits change) ->
    used_bytes t + terminal_reserve_bytes_per_run (ch_limits change) <=
      max_thread_bytes (ch_limits change) ->
    namespace_bytes key.1 (threads w) + terminal_reserve_bytes_per_run (ch_limits change) <=
      max_tracer_bytes (ch_limits change) ->
    writer_lease_expiration change now = Ok lease ->
    thread_step w change key now o
      (Some (put_writer (new_writer run token lease
        (terminal_reserve_events_per_run (ch_limits change))
        (terminal_reserve_bytes_per_run (ch_limits change))) t))
(** a new lease for the owner *)
| step_lease t writer lease :
    dget (mt_writers t) (w_run_id writer) = Some writer ->
    w_active writer = true -> Some (w_owner_token writer) = ch_owner_token change ->
    writer_lease_expiration change now = Ok lease ->
    thread_step w change key now (Some t)
      (Some (put_writer (with_lease (w_owner_token writer) (w_fence writer) lease true writer) t))
(** another owner takes an expired lease over *)
| step_takeover t writer token lease :
    ch_kind change = OpenWriter -> ch_owner_token change = Some token ->
    dget (mt_writers t) (w_run_id writer) = Some writer ->
    w_active writer = true -> w_closed_committed writer = false ->
    w_lease_expires_at writer <= now -> ch_enforce_writer_lease change = true ->
    writer_lease_expiration change now = Ok lease ->
    thread_step w change key now (Some t)
      (Some (put_writer (with_lease token (w_fence writer + 1) lease true writer) t))
(** a batch of events *)
| step_append t writer terminal closed events lease :
    ch_kind change = AppendEvents ->
    ch_key change = Some (th_key (mt_state t)) ->
    dget (mt_writers t) (w_run_id writer) = Some writer ->
    held_by (ch_owner_token change) (ch_fence change) writer = true ->
    negb (ch_enforce_writer_lease change) || (now <? w_lease_expires_at writer) = true ->
    ch_facts change <> [] ->
    forallb (fun d => Bool.eqb (terminal_or_closed (d_fact d)) (ch_mandatory change))
      (ch_facts change) = true ->
    existsb misplaced_run_fact (map d_fact (ch_facts change)) = false ->
    check_lifecycle (ch_mandatory change) (map d_fact (ch_facts change))
      (w_terminal_committed writer) (w_closed_committed writer) = Ok (terminal, closed) ->
    make_events change (mt_state t) (w_run_id writer) (th_next_seq (mt_state t))
      (ch_facts change) = Ok events ->
    (if ch_mandatory change
     then zlen events <= w_remaining_event_reserve writer /\
          zsum ev_persisted_bytes events <= w_remaining_byte_reserve writer
     else used_events t + zlen events <= max_thread_events (ch_limits change) /\
          used_bytes t + zsum ev_persisted_bytes events <= max_thread_bytes (ch_limits change) /\
          namespace_bytes key.1 (threads w) + zsum ev_persisted_bytes events <=
            max_tracer_bytes (ch_limits change)) ->
    writer_lease_expiration change now = Ok lease ->
    (exists ms, graph_node_mutations events = Ok ms) ->
    thread_step w change key now (Some t)
      (Some (appended change events
        (appended_writer (ch_mandatory change) lease writer
           terminal closed (zlen events) (zsum ev_persisted_bytes events)) t))
(** the owner closes: nothing committed, nothing remains *)
| step_discard t writer :
    ch_kind change = CloseWriter -> ch_key change = Some (th_key (mt_state t)) ->
    dget (mt_writers t) (w_run_id writer) = Some writer ->
    held_by (ch_owner_token change) (ch_fence change) writer = true ->
    w_committed_events writer = 0 ->
    thread_step w change key now (Some t)
      (if (th_next_seq (mt_state t) =? 1) && (zlen (mt_writers t) =? 1) then None
       else Some (set_writers (ddel (mt_writers t) (w_run_id writer)) t))
| step_close t writer :
    ch_kind change = CloseWriter -> ch_key change = Some (th_key (mt_state t)) ->
    dget (mt_writers t) (w_run_id writer) = Some writer ->
    held_by (ch_owner_token change) (ch_fence change) writer = true ->
    w_committed_events writer <> 0 ->
    thread_step w change key now (Some t) (Some (put_writer (closed_writer writer) t))
(** a checkpoint of a longer prefix *)
| step_checkpoint t c :
    ch_kind change = SaveProjectionCheckpoint -> saved_by change c ->
    sc_key c = th_key (mt_state t) ->
    sc_as_of_seq c <= th_next_seq (mt_state t) - 1 ->
    match newest (default [] (dget (mt_checkpoints t) (sc_projection_name c, sc_run_id c))) with
    | Some c0 => sc_as_of_seq c0 < sc_as_of_seq c
    | None => True
    end ->
    thread_step w change key now (Some t) (Some (keep_checkpoint (ch_limits change) c t))
(** the generation is deleted while nobody writes *)
| step_delete t :
    ch_kind change = DeleteGeneration -> ch_key change = Some (th_key (mt_state t)) ->
    (forall run writer, dget (mt_writers t) run = Some writer -> writing now writer = false) ->
    thread_step w change key now (Some t) None.

(** ** What a commit does, operation by operation *)

(** The thread and run a change is resolved against. *)
Definition target (change : TraceLedgerChange) : option (pystr * option pystr) :=
  match ch_identity change, ch_key change with
  | Some i, _ => Some (i_thread_id i, Some (i_run_id i))
  | None, Some k => Some (k_thread_id k, ch_run_id change)
  | None, None => None
  end.

Definition change_state (w : World) (change : TraceLedgerChange) (thread_id : pystr)
    (run : option pystr) : TraceLedgerState :=
  snapshot w (utc_now (readings w)) (ch_namespace change) thread_id run
    (checkpoint_request <$> ch_checkpoint change)
    (bool_decide (ch_kind change = DeleteGeneration)).

(** The world once the clock has been read and a generation drawn. *)
Definition drawn (w : World) (change : TraceLedgerChange) (st : TraceLedgerState) : World :=
  {| threads := threads w; readings := S (readings w);
     uuids := if bool_decide (ch_kind change = OpenWriter) && absent (ls_thread st)
              then S (uuids w) else uuids w |}.

Lemma commit_unfold change w :
  commit_ledger_change change w =
  match target change with
  | None => (Raise TraceStoreProtocolError, w)
  | Some (thread_id, run) =>
      let st := change_state w change thread_id run in
      match resolve_ledger_change change st (uuid_hex (uuids w)) with
      | Raise e => (Raise e, drawn w change st)
      | Ok eff =>
          match apply_effect change eff (drawn w change st) with
          | (Ok _, w') => (Ok (ef_result eff), w')
          | (Raise e, w') => (Raise e, w')
          end
      end
  end.
Proof.
  unfold commit_ledger_change, target.
  unfold state_for_change, next_now, next_generation, change_state, drawn, bind, lift, gets, ret.
  destruct (ch_identity change) as [i|], (ch_key change) as [k|]; simpl; try done.
  all: destruct (resolve_ledger_change _ _ _); try done;
       destruct (apply_effect _ _ _) as [[] ?]; done.
Qed.

(** ** Scope *)

Lemma all_equal_elem {A} `{EqDecision A} (l : list A) x y :
  all_equal l = true -> x ∈ l -> y ∈ l -> x = y.
Proof.
  destruct l as [|z l]; [by intros _ ?%elem_of_nil|]. simpl. rewrite forallb_forall.
  intros H. assert (forall v, v ∈ z :: l -> v = z) as Hz.
  { intros v [->|Hv]%elem_of_cons; [done|]. apply list_elem_of_In, H in Hv.
    by apply bool_decide_eq_true in Hv. }
  intros Hx Hy. by rewrite (Hz x Hx), (Hz y Hy).
Qed.

Lemma elem_of_named {A} (l : list (option A)) a : Some a ∈ l -> a ∈ omap id l.
Proof. intros H. apply list_elem_of_omap. eauto. Qed.

(** Every thread that a change within its scope names is the target. *)
Lemma scope_keys change st thread_id run k :
  validate_change_scope change st = Ok tt -> target change = Some (thread_id, run) ->
  k ∈ named_threads change st -> k = (ch_namespace change, thread_id).
Proof.
  intros Hv Ht Hk. unfold validate_change_scope in Hv.
  apply rbind_tt in Hv as [Hv _]. apply rraise_if_ok, orb_false_elim in Hv as [H1 H2].
  apply negb_false_iff in H1, H2. rewrite forallb_forall in H1.
  pose proof Hk as Hk1. apply list_elem_of_In, H1, bool_decide_eq_true in Hk1.
  assert (thread_id ∈ map snd (named_threads change st)) as Hin.
  { unfold target in Ht.
    destruct (ch_identity change) as [i|] eqn:Ei; simplify_eq;
      [|destruct (ch_key change) as [k0|] eqn:Ek; simplify_eq];
      apply list_elem_of_In, in_map_iff.
    - exists (identity_key i). split; [done|]. apply list_elem_of_In, elem_of_named.
      rewrite Ei. apply elem_of_cons. by left.
    - exists (thread_key k0). split; [done|]. apply list_elem_of_In, elem_of_named.
      rewrite Ek. apply elem_of_cons. right. apply elem_of_cons. by left. }
  assert (k.2 ∈ map snd (named_threads change st)) as Hk2.
  { apply list_elem_of_In, in_map_iff. exists k. split; [done|]. by apply list_elem_of_In. }
  destruct k as [ns tid]; simpl in *. by rewrite Hk1, (all_equal_elem _ _ _ H2 Hk2 Hin).
Qed.

Lemma scope_run change st thread_id run writer :
  validate_change_scope change st = Ok tt -> target change = Some (thread_id, Some run) ->
  ls_target_writer st = Some writer -> w_run_id writer = run.
Proof.
  intros Hv Ht Hw. unfold validate_change_scope in Hv.
  apply rbind_tt in Hv as [_ Hv]. apply rbind_tt in Hv as [_ Hv].
  apply rbind_tt in Hv as [Hv _]. apply rraise_if_ok, negb_false_iff in Hv.
  apply (all_equal_elem _ _ _ Hv); unfold named_runs; apply elem_of_named; rewrite Hw.
  - do 3 (apply elem_of_cons; right). apply elem_of_cons. by left.
  - unfold target in Ht.
    destruct (ch_identity change) as [i|]; simplify_eq;
      [|destruct (ch_key change) as [k0|]; simplify_eq].
    + apply elem_of_cons. right. apply elem_of_cons. by left.
    + apply elem_of_cons. left. congruence.
Qed.

Section scoped.
Context (w : World) (change : TraceLedgerChange) (thread_id : pystr) (run : option pystr).
Let key : pystr * pystr := (ch_namespace change, thread_id).
Let st : TraceLedgerState := change_state w change thread_id run.
Let now : Z := utc_now (readings w).
Context (Htarget : target change = Some (thread_id, run)).
Context (Hscope : validate_change_scope change st = Ok tt).

Lemma stored_key t : dget (threads w) key = Some t -> thread_key (th_key (mt_state t)) = key.
Proof.
  intros Hg. eapply scope_keys; [done..|]. apply elem_of_named. unfold st, change_state.
  simpl. unfold find_thread. fold key. rewrite Hg. simpl. do 3 (apply elem_of_cons; right).
  apply elem_of_cons. by left.
Qed.

Lemma identity_scope i : ch_identity change = Some i -> identity_key i = key.
Proof.
  intros Hi. eapply scope_keys; [done..|]. apply elem_of_named. rewrite Hi.
  apply elem_of_cons. by left.
Qed.

Lemma identity_target i : ch_identity change = Some i -> run = Some (i_run_id i).
Proof. intros Hi. unfold target in Htarget. rewrite Hi in Htarget. congruence. Qed.

Lemma key_scope k : ch_key change = Some k -> thread_key k = key.
Proof.
  intros Hi. eapply scope_keys; [done..|]. apply elem_of_named. rewrite Hi.
  apply elem_of_cons. right. apply elem_of_cons. by left.
Qed.

Lemma thread_scope t : ls_thread st = Some t -> exists mt,
  dget (threads w) key = Some mt /\ mt_state mt = t.
Proof.
  unfold st, change_state. simpl. unfold find_thread. fold key.
  destruct (dget (threads w) key) as [mt|]; simpl; [|done]. intros. simplify_eq. eauto.
Qed.

Lemma no_thread : ls_thread st = None -> dget (threads w) key = None.
Proof.
  unfold st, change_state. simpl. unfold find_thread. fold key.
  by destruct (dget (threads w) key).
Qed.

Lemma target_writer t writer :
  dget (threads w) key = Some t -> ls_target_writer st = Some writer ->
  dget (mt_writers t) (w_run_id writer) = Some writer.
Proof.
  intros Hg Hw. pose proof Hw as Hw'. unfold st, change_state in Hw'. simpl in Hw'.
  unfold find_thread in Hw'. fold key in Hw'. rewrite Hg in Hw'.
  destruct run as [r|] eqn:Er; [|done].
  replace (w_run_id writer) with r; [done|]. symmetry.
  eapply scope_run; [exact Hscope|exact Htarget|done].
Qed.
End scoped.

(** ** Effects *)

(** The thread an effect works on, in the slot [key]. *)
Definition effect_thread (eff : TraceLedgerStorageEffect) (key : pystr * pystr)
    (d : dict (pystr * pystr) MemoryThread) : option MemoryThread :=
  match ef_thread eff with
  | Some s => Some (match dget d key with Some t => set_state s t | None => new_thread s end)
  | None => dget d key
  end.

Lemma apply_effect_at change eff w1 key k t0 :
  ef_delete_generation eff = false -> ef_remove_thread eff = false ->
  or_else (re_key (ef_result eff)) (ch_key change) = Some k -> thread_key k = key ->
  (forall s, ef_thread eff = Some s -> thread_key (th_key s) = key) ->
  effect_thread eff key (threads w1) = Some t0 ->
  apply_effect change eff w1 =
  ((apply_to_thread change eff t0).1,
   set_threads (fun d => dset d key (apply_to_thread change eff t0).2) w1).
Proof.
  intros Hd Hr Hk Hkey Hs Ht. unfold apply_effect, effect_thread in *. rewrite Hd, Hr, Hk.
  simpl. unfold bind, modify, on_thread, set_threads. simpl. rewrite Hkey.
  destruct (ef_thread eff) as [s|] eqn:Es.
  - unfold put_thread_state. rewrite (Hs s eq_refl). simplify_eq.
    rewrite dget_dset_eq. destruct (apply_to_thread change eff _) as [r t'] eqn:Ea.
    simpl. by rewrite dset_dset.
  - rewrite Ht. by destruct (apply_to_thread change eff t0) as [r t'] eqn:Ea.
Qed.

Lemma apply_effect_uuids change eff w1 r w' :
  apply_effect change eff w1 = (r, w') -> uuids w' = uuids w1.
Proof.
  unfold apply_effect. destruct (_ || _); [by intros [= <- <-]|].
  unfold bind, modify. destruct (or_else _ _) as [k|]; [|by intros [= <- <-]].
  unfold on_thread. destruct (dget _ _); [|by intros [= <- <-]].
  destruct (apply_to_thread _ _ _). by intros [= <- <-].
Qed.

Lemma set_graph_same t : set_graph (mt_graph_nodes t) t = t.
Proof. by destruct t. Qed.

Lemma apply_writer change result thread td pd rd wr t :
  apply_to_thread change
    {| ef_result := result; ef_thread := thread; ef_remove_thread := false;
       ef_writer := Some wr; ef_remove_writer_run_id := None; ef_events := [];
       ef_validated_events := []; ef_graph_node_mutations := []; ef_checkpoint := None;
       ef_delete_generation := false; ef_namespace_thread_delta := td;
       ef_namespace_persisted_bytes_delta := pd; ef_namespace_reserved_bytes_delta := rd |} t =
  (Ok tt, put_writer wr t).
Proof. by destruct t. Qed.

Lemma apply_nothing change result t :
  apply_to_thread change (answer result None) t = (Ok tt, t).
Proof. by destruct t. Qed.

Lemma length_make_events change thread run seq drafts events :
  make_events change thread run seq drafts = Ok events -> length events = length drafts.
Proof.
  revert seq events. induction drafts as [|d drafts IH]; intros seq events; simpl;
    [by intros [= <-]|].
  intros (? & _ & H)%rbind_ok. apply rbind_ok in H as (e & _ & H).
  apply rbind_ok in H as (? & _ & H). apply rbind_ok in H as (es & Hes & [= <-]).
  simpl. f_equal. eauto.
Qed.

Lemma namespace_split namespace d :
  namespace_bytes namespace d =
  namespace_sum namespace (fun t => th_persisted_bytes (mt_state t)) d +
  namespace_sum namespace (active_sum w_remaining_byte_reserve) d.
Proof.
  unfold namespace_bytes, namespace_sum, esum. rewrite <-zsum_plus. apply zsum_ext.
  intros [k t] _. simpl. unfold used_bytes. by destruct (in_namespace namespace k).
Qed.

(** What a commit may make of the threads. *)
Definition stepped (w : World) (change : TraceLedgerChange) (key : pystr * pystr)
    (d : dict (pystr * pystr) MemoryThread) : Prop :=
  d = threads w \/
  exists o', thread_step w change key (utc_now (readings w)) (dget (threads w) key) o' /\
             d = put_slot key o' (threads w).

Lemma stepped_put w w1 change key t :
  threads w1 = threads w ->
  thread_step w change key (utc_now (readings w)) (dget (threads w) key) (Some t) ->
  stepped w change key (threads (set_threads (fun d => dset d key t) w1)).
Proof. intros Hw H. right. exists (Some t). simpl. by rewrite Hw. Qed.

Lemma active_sum_new f s : active_sum f (new_thread s) = 0.
Proof. done. Qed.

(** All facts of a batch are mandatory, or none is. *)
Lemma mandatory_facts change :
  negb (ch_mandatory change) && existsb terminal_or_closed (map d_fact (ch_facts change)) = false ->
  negb (Bool.eqb (ch_mandatory change)
          (forallb terminal_or_closed (map d_fact (ch_facts change)))) = false ->
  forallb (fun d => Bool.eqb (terminal_or_closed (d_fact d)) (ch_mandatory change))
    (ch_facts change) = true.
Proof.
  destruct (ch_mandatory change); simpl; intros H1 H2.
  - apply negb_false_iff in H2. rewrite forallb_forall. intros d Hd.
    destruct (forallb _ _) eqn:E1; [|done]. rewrite forallb_forall in E1.
    by rewrite (E1 (d_fact d)) by by apply in_map.
  - clear H2. induction (ch_facts change) as [|d l IH]; [done|]. simpl in *.
    apply orb_false_elim in H1 as [-> H1]. by apply IH.
Qed.

Section operations.
Context (w : World) (change : TraceLedgerChange) (thread_id : pystr) (run : option pystr).
Let key : pystr * pystr := (ch_namespace change, thread_id).
Let st : TraceLedgerState := change_state w change thread_id run.
Let now : Z := utc_now (readings w).
Let w1 : World := drawn w change st.
Context (Htarget : target change = Some (thread_id, run)).
Context (Hscope : validate_change_scope change st = Ok tt).

Lemma found_thread t : dget (threads w) key = Some t -> ls_thread st = Some (mt_state t).
Proof. intros H. unfold st, change_state. simpl. unfold find_thread. fold key. by rewrite H. Qed.

Lemma found_writer t writer :
  dget (threads w) key = Some t -> ls_target_writer st = Some writer ->
  dget (mt_writers t) (w_run_id writer) = Some writer.
Proof. by apply target_writer. Qed.

Lemma writer_has_thread writer : ls_target_writer st = Some writer ->
  exists t, dget (threads w) key = Some t.
Proof.
  unfold st, change_state. simpl. unfold find_thread. fold key.
  destruct (dget (threads w) key); [eauto|done].
Qed.

Lemma no_writer t i :
  dget (threads w) key = Some t -> ls_target_writer st = None -> run = Some (i_run_id i) ->
  dget (mt_writers t) (i_run_id i) = None.
Proof.
  unfold st, change_state. simpl. unfold find_thread. fold key. intros -> H ->. done.
Qed.

Lemma thread_reserves t :
  dget (threads w) key = Some t ->
  ls_thread_reserved_events st = active_sum w_remaining_event_reserve t /\
  ls_thread_reserved_bytes st = active_sum w_remaining_byte_reserve t.
Proof. unfold st, change_state. simpl. unfold find_thread. fold key. by intros ->. Qed.

Lemma no_thread_reserves :
  dget (threads w) key = None ->
  ls_thread_reserved_events st = 0 /\ ls_thread_reserved_bytes st = 0.
Proof. unfold st, change_state. simpl. unfold find_thread. fold key. by intros ->. Qed.

Lemma namespace_reserves :
  ls_namespace_persisted_bytes st + ls_namespace_reserved_bytes st =
  namespace_bytes key.1 (threads w).
Proof. by rewrite namespace_split. Qed.

(** Effects that set one writer. *)
Lemma apply_answer result k t wr :
  dget (threads w) key = Some t -> re_key result = Some k -> k = th_key (mt_state t) ->
  apply_effect change (answer result (Some wr)) w1 =
  (Ok tt, set_threads (fun d => dset d key (put_writer wr t)) w1).
Proof.
  intros Ht Hk ->. rewrite (apply_effect_at change _ w1 key (th_key (mt_state t)) t);
    [|done|done|by simpl; rewrite Hk| |done|done].
  - unfold answer. by rewrite apply_writer.
  - by apply (stored_key w change thread_id run).
Qed.

(** Effects that only answer. *)
Lemma apply_none result r w' :
  apply_effect change (answer result None) w1 = (r, w') -> threads w' = threads w.
Proof.
  unfold apply_effect. simpl. destruct (or_else _ _) as [k|]; unfold bind, modify, on_thread.
  - simpl. destruct (dget (threads w) (thread_key k)) as [t|] eqn:Et.
    + rewrite set_graph_same. intros [= <- <-]. simpl. by apply dset_same.
    + by intros [= <- <-].
  - by intros [= <- <-].
Qed.

Lemma open_steps eff r w' :
  ch_kind change = OpenWriter ->
  resolve_open_writer change st (uuid_hex (uuids w)) = Ok eff ->
  apply_effect change eff w1 = (r, w') -> stepped w change key (threads w').
Proof.
  intros Hkind Hr Ha. unfold resolve_open_writer in Hr.
  destruct (ch_identity change) as [i|] eqn:Ei; [|done].
  destruct (ch_owner_token change) as [token|] eqn:Etk; [|done].
  pose proof (identity_scope w change thread_id run Htarget Hscope i Ei) as Hik.
  apply rbind_ok in Hr as (thread & Hth & Hr).
  destruct (ls_target_writer st) as [ex|] eqn:Ew.
  - destruct (writer_has_thread ex Ew) as [t Ht]. pose proof (found_writer t ex Ht Ew) as Hget.
    unfold open_thread in Hth. rewrite (found_thread t Ht) in Hth.
    apply rbind_ok in Hth as (? & _ & [= <-]).
    apply rbind_ok in Hr as (wr & Hre & [= <-]).
    erewrite apply_answer in Ha by done. injection Ha as <- <-.
    unfold reopen_writer in Hre. simpl in Hre. apply stepped_put; [done|]. rewrite Ht.
    destruct (bool_decide (w_owner_token ex = token) && w_active ex &&
              negb (w_closed_committed ex)) eqn:Eo.
    + apply andb_prop in Eo as [[Eo1%bool_decide_eq_true Eo2]%andb_prop Eo3].
      apply rbind_ok in Hre as (lease & Hlease & Hre). apply ok_inj in Hre as <-.
      eapply step_lease; try done. congruence.
    + apply rbind_ok in Hre as (u1 & H1 & Hre). apply rbind_ok in Hre as (u2 & H2 & Hre).
      apply rbind_ok in Hre as (lease & Hlease & Hre). apply ok_inj in Hre as <-.
      apply rraise_if_ok in H1, H2.
      apply orb_false_elim in H1 as [H1%negb_false_iff H1'].
      apply orb_false_elim in H2 as [H2%negb_false_iff H2'].
      eapply step_takeover; try done. lia.
  - res_inv. apply ok_inj in Hr as <-. bool_prop. destruct (ls_thread st) as [s|] eqn:Es.
    + destruct (thread_scope w change thread_id run s Es) as (t & Ht & <-). fold key in Ht.
      unfold open_thread in Hth. rewrite Es in Hth. cbn [absent] in Ha. res_inv. injection Hth as <-.
      rewrite (apply_effect_at change _ w1 key (th_key (mt_state t)) t), apply_writer in Ha;
        try done; [|by apply (stored_key w change thread_id run)].
      injection Ha as <- <-. apply stepped_put; [done|]. rewrite Ht.
      destruct (thread_reserves t Ht) as [He Hb]. pose proof namespace_reserves.
      eapply step_open; eauto; unfold used_events, used_bytes; try lia.
      apply no_writer; [done..|]. by apply (identity_target change thread_id).
    + pose proof (no_thread w change thread_id run Es) as Ht. fold key in Ht.
      unfold open_thread in Hth. rewrite Es in Hth. cbn [absent] in Ha. res_inv.
      injection Hth as <-. bool_prop.
      assert (i_thread_id i = thread_id) as Hi by by injection Hik.
      erewrite (apply_effect_at change _ w1 key _ (new_thread _)), apply_writer in Ha; try done.
      2: by simpl; rewrite Hi.
      2: by intros s [= <-]; simpl; rewrite Hi.
      2: by unfold effect_thread; cbn [ef_thread threads drawn w1]; rewrite Ht.
      injection Ha as <- <-. apply stepped_put; [done|]. rewrite Ht.
      destruct (no_thread_reserves Ht) as [He Hb]. pose proof namespace_reserves.
      rewrite Hi. eapply step_open; eauto.
      * unfold used_events. rewrite active_sum_new. by rewrite He in H.
      * unfold used_bytes. rewrite active_sum_new. by rewrite Hb in H0.
      * lia.
Qed.

(** The owner of a writer. *)
Lemma owned_writer_spec require_unexpired thread writer :
  owned_writer change st require_unexpired = Ok (thread, writer) ->
  exists t, dget (threads w) key = Some t /\ thread = mt_state t /\
    ch_key change = Some (th_key (mt_state t)) /\
    dget (mt_writers t) (w_run_id writer) = Some writer /\
    held_by (ch_owner_token change) (ch_fence change) writer = true /\
    (require_unexpired = true -> now < w_lease_expires_at writer).
Proof.
  unfold owned_writer. destruct (ch_key change) as [k|], (ch_run_id change) as [r|]; try done.
  intros (th & Hth & H)%rbind_ok. unfold require_exact_thread in Hth.
  destruct (ls_thread st) as [s|] eqn:Es; [|done]. case_decide as Hk; [|done].
  simplify_eq. destruct (thread_scope w change thread_id run th Es) as (t & Ht & <-).
  fold key in Ht. destruct (ls_target_writer st) as [wr|] eqn:Ew; [|done].
  res_inv. simplify_eq. bool_prop. exists t. tsplit; try done.
  - by apply found_writer.
  - intros ->. simpl in *. unfold now. lia.
Qed.

Lemma held_by_spec wr :
  held_by (ch_owner_token change) (ch_fence change) wr = true ->
  w_active wr = true /\ Some (w_owner_token wr) = ch_owner_token change.
Proof. unfold held_by. intros H. by bool_prop. Qed.

Lemma renew_steps result k t wr lease r w' :
  writer_lease_expiration change now = Ok lease -> dget (threads w) key = Some t -> re_key result = Some k -> k = th_key (mt_state t) ->
  dget (mt_writers t) (w_run_id wr) = Some wr ->
  held_by (ch_owner_token change) (ch_fence change) wr = true ->
  apply_effect change
    (answer result (Some (renewed lease wr))) w1 = (r, w') ->
  stepped w change key (threads w').
Proof.
  intros Hlease Ht Hk -> Hw Hh Ha. erewrite apply_answer in Ha by done. injection Ha as <- <-.
  destruct (held_by_spec wr Hh) as [Hact Htok].
  apply stepped_put; [done|]. rewrite Ht. unfold renewed. rewrite Hact.
  by eapply step_lease.
Qed.

Lemma renew_writer_steps eff r w' :
  resolve_renew_writer change st = Ok eff -> apply_effect change eff w1 = (r, w') ->
  stepped w change key (threads w').
Proof.
  unfold resolve_renew_writer. intros ([thread wr] & Ho & Hr)%rbind_ok Ha.
  apply rbind_ok in Hr as (lease & Hlease & Hr). apply ok_inj in Hr as <-.
  apply owned_writer_spec in Ho as (t & Ht & -> & Hk & Hw & Hh & _).
  by refine (renew_steps _ _ t wr lease r w' Hlease Ht _ _ Hw Hh Ha).
Qed.

Lemma proven_steps eff r w' :
  resolve_proven_append change st = Ok eff -> apply_effect change eff w1 = (r, w') ->
  stepped w change key (threads w').
Proof.
  unfold resolve_proven_append. intros Hr Ha. destruct (ch_key change) as [k|] eqn:Ek; [|done].
  apply rbind_ok in Hr as (thread & Hth & Hr).
  apply rbind_ok in Hr as (current & Hc & Hr). apply ok_inj in Hr as <-.
  unfold require_exact_thread in Hth. destruct (ls_thread st) as [s|] eqn:Es; [|done].
  case_decide; [|done]. simplify_eq.
  destruct (thread_scope w change thread_id run thread Es) as (t & Ht & <-). fold key in Ht.
  destruct (ls_target_writer st) as [wr|] eqn:Ew;
    [|apply ok_inj in Hc as <-; left; by eapply apply_none].
  destruct (held_by _ _ wr) eqn:Hh; [|apply ok_inj in Hc as <-; left; by eapply apply_none].
  apply rbind_ok in Hc as (lease & Hlease & Hc). apply ok_inj in Hc as <-.
  pose proof (found_writer t wr Ht Ew) as Hw.
  by refine (renew_steps _ _ t wr lease r w' Hlease Ht _ _ Hw Hh Ha).
Qed.

Lemma check_quota_spec t wr n bytes x :
  dget (threads w) key = Some t ->
  check_quota change st (mt_state t) wr n bytes = Ok x ->
  if ch_mandatory change
  then n <= w_remaining_event_reserve wr /\ bytes <= w_remaining_byte_reserve wr
  else used_events t + n <= max_thread_events (ch_limits change) /\
       used_bytes t + bytes <= max_thread_bytes (ch_limits change) /\
       namespace_bytes key.1 (threads w) + bytes <= max_tracer_bytes (ch_limits change).
Proof.
  intros Ht. unfold check_quota. destruct (thread_reserves t Ht) as [He Hb].
  pose proof namespace_reserves. unfold used_events, used_bytes.
  destruct (ch_mandatory change); intros Hq; res_inv; bool_prop; lia.
Qed.

(** A batch of events. *)
Lemma append_effect_thread wr result events ses ms ns pb rb t :
  length events = length (ch_facts change) ->
  exists r, apply_to_thread change
    {| ef_result := result;
       ef_thread := Some {| th_key := th_key (mt_state t);
                            th_next_seq := th_next_seq (mt_state t) + zlen events;
                            th_persisted_bytes := th_persisted_bytes (mt_state t) +
                                                  zsum ev_persisted_bytes events |};
       ef_remove_thread := false; ef_writer := Some wr; ef_remove_writer_run_id := None;
       ef_events := ses; ef_validated_events := events; ef_graph_node_mutations := ms;
       ef_checkpoint := None; ef_delete_generation := false; ef_namespace_thread_delta := ns;
       ef_namespace_persisted_bytes_delta := pb; ef_namespace_reserved_bytes_delta := rb |}
    (set_state {| th_key := th_key (mt_state t);
                  th_next_seq := th_next_seq (mt_state t) + zlen events;
                  th_persisted_bytes := th_persisted_bytes (mt_state t) +
                                        zsum ev_persisted_bytes events |} t) =
  (r, appended change events wr t) /\
  r = (apply_graph_events events (mt_graph_nodes t)).1.
Proof.
  intros Hlen. eexists. split; [|done]. unfold apply_to_thread, appended, bind, modify.
  cbn [ef_remove_writer_run_id ef_writer ef_validated_events ef_checkpoint].
  assert (forall t1, match events with [] => ret tt
                     | e :: es => extend_events (e :: es) (ch_facts change) end t1 =
    (Ok tt, set_events (mt_events t1 ++ zip_with memory_stored_event events (ch_facts change)) t1))
    as Hext.
  { intros t1. destruct events as [|e events].
    - simpl. rewrite app_nil_r. by destruct t1.
    - unfold extend_events, bind, modify, raise_if. by rewrite bool_decide_eq_true_2. }
  rewrite Hext. unfold on_graph. destruct t; simpl.
  by destruct (apply_graph_events events mt_graph_nodes) as [[[]|e] g].
Qed.

(** An append without evidence of an earlier commit: the thread after it. *)
Lemma append_applied eff r w' :
  ch_kind change = AppendEvents -> ch_proven_events change = [] ->
  resolve_append_events change st = Ok eff -> apply_effect change eff w1 = (r, w') ->
  exists t wr run_id,
    let events := re_events (ef_result eff) in
    let t' := appended change events wr t in
    dget (threads w) key = Some t /\ ch_key change = Some (th_key (mt_state t)) /\
    make_events change (mt_state t) run_id (th_next_seq (mt_state t)) (ch_facts change) =
      Ok events /\
    threads w' = dset (threads w1) key t' /\
    thread_step w change key (utc_now (readings w)) (Some t) (Some t').
Proof.
  unfold resolve_append_events. intros Hkind Hp Hr Ha. rewrite bool_decide_true in Hr by done.
  cbn [negb] in Hr.
  apply rbind_ok in Hr as (? & Hfacts & Hr). apply rraise_if_ok in Hfacts.
  apply rbind_ok in Hr as ([thread wr] & Ho & Hr).
  apply owned_writer_spec in Ho as (t & Ht & -> & Hk & Hw & Hh & Hlease).
  apply rbind_ok in Hr as (? & Hm1 & Hr). apply rbind_ok in Hr as (? & Hm2 & Hr).
  apply rbind_ok in Hr as (? & Hmis & Hr). apply rbind_ok in Hr as ([term cl] & Hlife & Hr).
  apply rbind_ok in Hr as (events & Hev & Hr). apply rbind_ok in Hr as (? & Hq & Hr).
  apply rbind_ok in Hr as (lease & Hexp & Hr).
  apply rbind_ok in Hr as (ms & Hms & Hr). apply ok_inj in Hr as <-.
  apply rraise_if_ok in Hm1, Hm2, Hmis.
  destruct (append_effect_thread
    (appended_writer (ch_mandatory change) lease wr term cl
       (zlen events) (zsum ev_persisted_bytes events))
    (commit_result AppendEvents (th_key (mt_state t)) (Some (w_run_id wr)) None None events None)
    events (if ch_persist_canonical_event_records change
            then zip_with (stored_event (w_run_id wr)) events (ch_facts change) else [])
    ms 0 (zsum ev_persisted_bytes events)
    (w_remaining_byte_reserve (appended_writer (ch_mandatory change)
       lease wr term cl (zlen events)
       (zsum ev_persisted_bytes events)) - w_remaining_byte_reserve wr) t)
    as (r0 & Happ & _); [by eapply length_make_events|].
  pose proof (stored_key w change thread_id run Htarget Hscope t Ht) as Hkey.
  erewrite (apply_effect_at change _ w1 key (th_key (mt_state t))) in Ha;
    [|done|done|done|done|by intros s [= <-]|by unfold effect_thread; simpl; rewrite Ht].
  unfold st in Ha. cbn [ls_observed_at change_state snapshot] in Ha. fold now in Ha.
  rewrite Happ in Ha. injection Ha as <- <-.
  eexists t, _, (w_run_id wr). cbn [ef_result commit_result re_events].
  split; [done|]. split; [done|]. split; [done|]. split; [done|].
  eapply step_append; try done.
  - destruct (ch_enforce_writer_lease change); [|done]. simpl. specialize (Hlease eq_refl).
    fold now. lia.
  - by destruct (ch_facts change).
  - by apply mandatory_facts.
  - by eapply check_quota_spec.
  - eauto.
Qed.

Lemma append_steps eff r w' :
  ch_kind change = AppendEvents -> resolve_append_events change st = Ok eff ->
  apply_effect change eff w1 = (r, w') -> stepped w change key (threads w').
Proof.
  intros Hkind Hr Ha. destruct (decide (ch_proven_events change = [])) as [Hp|Hp].
  - destruct (append_applied eff r w' Hkind Hp Hr Ha) as (t & wr & rid & Ht & _ & _ & E1 & Hstep).
    right. eexists. rewrite Ht. split; [exact Hstep|]. by rewrite E1.
  - unfold resolve_append_events in Hr. rewrite bool_decide_false in Hr by done.
    by eapply proven_steps.
Qed.

(** Effects that remove the thread. *)
Lemma apply_remove eff k r w' :
  ef_delete_generation eff || ef_remove_thread eff = true ->
  or_else (re_key (ef_result eff)) (ch_key change) = Some k -> thread_key k = key ->
  apply_effect change eff w1 = (r, w') -> threads w' = put_slot key None (threads w).
Proof.
  unfold apply_effect. intros -> -> Hkey [= <- <-]. simpl. by rewrite Hkey.
Qed.

Lemma apply_discard result td rd k t r w' :
  dget (threads w) key = Some t -> re_key result = Some (th_key (mt_state t)) ->
  apply_effect change
    {| ef_result := result; ef_thread := None; ef_remove_thread := false; ef_writer := None;
       ef_remove_writer_run_id := Some k; ef_events := []; ef_validated_events := [];
       ef_graph_node_mutations := []; ef_checkpoint := None; ef_delete_generation := false;
       ef_namespace_thread_delta := td; ef_namespace_persisted_bytes_delta := 0;
       ef_namespace_reserved_bytes_delta := rd |} w1 = (r, w') ->
  threads w' = put_slot key (Some (set_writers (ddel (mt_writers t) k) t)) (threads w).
Proof.
  intros Ht Hk Ha.
  erewrite (apply_effect_at change _ w1 key (th_key (mt_state t)) t) in Ha; try done.
  - by destruct t; injection Ha as <- <-.
  - simpl. by rewrite Hk.
  - by apply (stored_key w change thread_id run).
Qed.

Lemma close_steps eff r w' :
  ch_kind change = CloseWriter -> resolve_close_writer change st = Ok eff ->
  apply_effect change eff w1 = (r, w') -> stepped w change key (threads w').
Proof.
  unfold resolve_close_writer. intros Hkind Hr Ha.
  destruct (ch_key change) as [k|] eqn:Ek; [|done].
  destruct (ch_run_id change) as [rn|] eqn:Ern; [|done].
  destruct (ls_thread st) as [s|] eqn:Es;
    [|apply ok_inj in Hr as <-; left; by eapply apply_none].
  destruct (ls_target_writer st) as [wr|] eqn:Ew;
    [|apply ok_inj in Hr as <-; left; by eapply apply_none].
  destruct (thread_scope w change thread_id run s Es) as (t & Ht & <-). fold key in Ht.
  destruct (negb (bool_decide (th_key (mt_state t) = k)) || _) eqn:Eb;
    [apply ok_inj in Hr as <-; left; by eapply apply_none|].
  apply orb_false_elim in Eb as [Eb1%negb_false_iff%bool_decide_eq_true Eb2%negb_false_iff].
  subst k. pose proof (found_writer t wr Ht Ew) as Hw.
  assert (w_run_id wr = rn) as Hrn.
  { apply (all_equal_elem (named_runs change st)).
    - unfold validate_change_scope in Hscope. res_inv. by apply negb_false_iff.
    - apply elem_of_named. rewrite Ew. do 3 (apply elem_of_cons; right).
      apply elem_of_cons. by left.
    - apply elem_of_named. rewrite Ern. apply elem_of_cons. by left. }
  apply ok_inj in Hr as <-. destruct (w_committed_events wr =? 0) eqn:E0.
  - right. exists (if (th_next_seq (mt_state t) =? 1) && (zlen (mt_writers t) =? 1) then None
                   else Some (set_writers (ddel (mt_writers t) (w_run_id wr)) t)).
    split; [rewrite Ht; apply step_discard; try done; lia|].
    replace (ls_writer_count st) with (zlen (mt_writers t)) in Ha
      by (unfold st, change_state; simpl; unfold find_thread; fold key; by rewrite Ht).
    cbn [andb] in Ha. destruct ((th_next_seq (mt_state t) =? 1) && (zlen (mt_writers t) =? 1)).
    + eapply apply_remove; [| | |exact Ha]; try done.
      by apply (stored_key w change thread_id run).
    + rewrite Hrn. eapply apply_discard; [done| |exact Ha]. done.
  - cbn [andb] in Ha.
    erewrite (apply_effect_at change _ w1 key (th_key (mt_state t)) t), apply_writer in Ha;
      try done; [|by apply (stored_key w change thread_id run)].
    injection Ha as <- <-. apply stepped_put; [done|]. rewrite Ht. apply step_close; try done.
    lia.
Qed.

Lemma checkpoint_steps eff r w' :
  ch_kind change = SaveProjectionCheckpoint -> resolve_save_checkpoint change st = Ok eff ->
  apply_effect change eff w1 = (r, w') -> stepped w change key (threads w').
Proof.
  unfold resolve_save_checkpoint. intros Hkind Hr Ha.
  destruct (ch_checkpoint change) as [c|] eqn:Ec; [|done].
  destruct (ch_canonical_checkpoint_state change) as [payload|] eqn:Ep; [|done].
  destruct (ch_checkpoint_state_digest change) as [digest|] eqn:Edg; [|done].
  apply rbind_ok in Hr as (thread & Hth & Hr). apply rbind_ok in Hr as (? & Hseq & Hr).
  apply rraise_if_ok in Hseq. unfold require_exact_thread in Hth.
  destruct (ls_thread st) as [s|] eqn:Es; [|done]. case_decide as Hkey; [|done].
  injection Hth as ->.
  destruct (thread_scope w change thread_id run thread Es) as (t & Ht & <-). fold key in Ht.
  assert (ls_current_checkpoint st =
    newest (default [] (dget (mt_checkpoints t) (pc_projection_name c, pc_run_id c)))) as Hcur.
  { unfold st, change_state. simpl. unfold find_thread. fold key. by rewrite Ht, Ec. }
  assert (save_new change st c payload digest
            (commit_result SaveProjectionCheckpoint (pc_key c) None None None [] (Some c))
          = Ok eff -> stepped w change key (threads w')) as Hnew.
  { unfold save_new. intros Hn. apply rbind_ok in Hn as (? & Hc1 & Hn).
    apply rbind_ok in Hn as (? & Hc2 & Hn). apply ok_inj in Hn as <-.
    apply rraise_if_ok in Hc2.
    erewrite (apply_effect_at change _ w1 key (th_key (mt_state t)) t) in Ha; try done.
    2: { simpl. by rewrite Hkey. }
    2: { by apply (stored_key w change thread_id run). }
    injection Ha as <- <-. apply stepped_put; [done|]. rewrite Ht, set_graph_same.
    apply step_checkpoint; simpl; try done; [by exists c, payload, digest|lia|].
    rewrite Hcur in Hc2. destruct (newest _) as [c0|]; [|done]. simpl in Hc2. lia. }
  destruct (ls_current_checkpoint st) as [c0|]; [|by apply Hnew].
  destruct (sc_as_of_seq c0 =? pc_as_of_seq c); [|by apply Hnew].
  apply rbind_ok in Hr as (? & _ & Hr). apply ok_inj in Hr as <-. left. by eapply apply_none.
Qed.

Lemma delete_steps eff r w' :
  ch_kind change = DeleteGeneration -> resolve_delete_generation change st = Ok eff ->
  apply_effect change eff w1 = (r, w') -> stepped w change key (threads w').
Proof.
  unfold resolve_delete_generation. intros Hkind Hr Ha.
  destruct (ch_key change) as [k|] eqn:Ek; [|done].
  apply rbind_ok in Hr as (thread & Hth & Hr). apply rbind_ok in Hr as (? & Hact & Hr).
  apply ok_inj in Hr as <-. apply rraise_if_ok in Hact. unfold require_exact_thread in Hth.
  destruct (ls_thread st) as [s|] eqn:Es; [|done]. case_decide as Hkey; [|done]. simplify_eq.
  destruct (thread_scope w change thread_id run thread Es) as (t & Ht & <-). fold key in Ht.
  right. exists None. split; [|eapply apply_remove; [| | |exact Ha]; try done;
    by apply (stored_key w change thread_id run)].
  rewrite Ht. apply step_delete; try done. intros rn writer Hget.
  destruct (writing (utc_now (readings w)) writer) eqn:Hwr; [|done].
  unfold st, change_state in Hact. simpl in Hact. unfold find_thread in Hact.
  fold key in Hact. rewrite Ht, Hkind in Hact. simpl in Hact.
  assert (writer ∈ List.filter (writing (utc_now (readings w)))
                     (sorted_by writer_leb (dvals (mt_writers t)))) as Hin.
  { apply list_elem_of_In, filter_In. split; [|done]. apply list_elem_of_In, elem_of_sorted_by.
    by eapply dget_elem_of_dvals. }
  destruct (List.filter _ _); [by apply elem_of_nil in Hin|done].
Qed.
End operations.

(** Every commit is a step of the thread it names, or leaves the threads as they are. *)
Lemma commit_steps change w r w' :
  commit_ledger_change change w = (r, w') ->
  match target change with
  | None => w' = w
  | Some (thread_id, _) =>
      let key := (ch_namespace change, thread_id) in
      stepped w change key (threads w') /\
      uuids w' = if bool_decide (ch_kind change = OpenWriter) && absent (dget (threads w) key)
                 then S (uuids w) else uuids w
  end.
Proof.
  rewrite commit_unfold. destruct (target change) as [[thread_id run]|] eqn:Et;
    [|by intros [= <- <-]].
  set (st := change_state w change thread_id run). cbv zeta.
  assert (absent (ls_thread st) = absent (dget (threads w) (ch_namespace change, thread_id)))
    as Habs.
  { unfold st, change_state. simpl. unfold find_thread.
    by destruct (dget (threads w) (ch_namespace change, thread_id)). }
  rewrite <-Habs.
  assert (forall c e w1 r1 w1', apply_effect c e w1 = (r1, w1') -> uuids w1' = uuids w1) as Hu.
  { intros c e w0 r1 w1'. apply apply_effect_uuids. }
  destruct (resolve_ledger_change change st _) as [eff|e] eqn:Hr;
    [|intros [= <- <-]; split; [by left|done]].
  unfold resolve_ledger_change in Hr. apply rbind_ok in Hr as ([] & Hv & Hr).
  destruct (apply_effect change eff _) as [r1 w1] eqn:Ha. intros Hfin.
  assert (w1 = w') as -> by by destruct r1; simplify_eq.
  split; [|by rewrite (Hu _ _ _ _ _ Ha)].
  destruct (ch_kind change) eqn:Hk; [eapply open_steps|eapply append_steps|
    eapply renew_writer_steps|eapply close_steps|eapply checkpoint_steps|eapply delete_steps];
    eauto.
Qed.
End steps.
