(* ===== verification/TraceFacts.v ===== *)
(** Tracing: facts of the pure reducer - the events a batch becomes, the size that
    counts its own digits, and the end of a run's lifecycle. *)
From S2P Require Import Prelude PyDict PySeq Contracts TraceModels TraceGraph TraceLedger.

(** ** The size of an event *)

Lemma decimal_digits_pos fuel n : 1 <= decimal_digits fuel n.
Proof.
  revert n. induction fuel as [|fuel IH]; intros n; simpl; [lia|].
  destruct (n <? 10); [lia|]. specialize (IH (n / 10)). lia.
Qed.

(** [digits n] is the number of decimal digits of [n]. *)
Lemma decimal_digits_spec fuel n :
  0 < n -> Z.log2 n <= Z.of_nat fuel ->
  10 ^ (decimal_digits fuel n - 1) <= n < 10 ^ decimal_digits fuel n.
Proof.
  revert n. induction fuel as [|fuel IH]; intros n Hn Hf; simpl.
  - assert (Z.log2 n = 0) as Hl by (pose proof (Z.log2_nonneg n); lia).
    apply Z.log2_null in Hl. lia.
  - destruct (Z.ltb_spec n 10) as [Hlt|Hge]; [simpl; lia|].
    assert (0 < n / 10) as Hd by (apply Z.div_str_pos; lia).
    assert (Z.log2 (n / 10) <= Z.of_nat fuel) as Hl.
    { assert (Z.log2 (n / 10) < Z.log2 n); [|lia].
      apply Z.log2_lt_pow2; [done|]. apply Z.div_lt_upper_bound; [lia|].
      pose proof (Z.log2_spec n Hn) as [_ H2]. rewrite Z.pow_succ_r in H2 by apply Z.log2_nonneg.
      lia. }
    specialize (IH (n / 10) Hd Hl). pose proof (decimal_digits_pos fuel (n / 10)) as Hp.
    set (k := decimal_digits fuel (n / 10)) in *.
    pose proof (Z.div_mod n 10 ltac:(lia)) as Hdm. pose proof (Z.mod_pos_bound n 10 ltac:(lia)).
    replace (1 + k) with (Z.succ k) by lia. replace (Z.succ k - 1) with (Z.succ (k - 1)) by lia.
    rewrite !Z.pow_succ_r by lia. nia.
Qed.

Lemma digits_spec n : 0 < n -> 10 ^ (digits n - 1) <= n < 10 ^ digits n.
Proof.
  intros Hn. apply decimal_digits_spec; [done|]. rewrite Z2Nat.id; [lia|]. apply Z.log2_nonneg.
Qed.

Lemma digits_pos n : 1 <= digits n.
Proof. apply decimal_digits_pos. Qed.

Lemma digits_mono n m : 0 < n -> n <= m -> digits n <= digits m.
Proof.
  intros Hn Hle. pose proof (digits_spec n Hn). pose proof (digits_spec m ltac:(lia)).
  destruct (Z.le_gt_cases (digits n) (digits m)) as [|Hgt]; [done|].
  assert (10 ^ digits m <= 10 ^ (digits n - 1)) by (apply Z.pow_le_mono_r; lia). lia.
Qed.

Lemma digits_unique n d : 0 < n -> 0 < d -> 10 ^ (d - 1) <= n < 10 ^ d -> digits n = d.
Proof.
  intros Hn Hd H. pose proof (digits_spec n Hn). pose proof (digits_pos n).
  destruct (Z.lt_trichotomy (digits n) d) as [Hlt|[?|Hlt]]; [|done|].
  - assert (10 ^ digits n <= 10 ^ (d - 1)) by (apply Z.pow_le_mono_r; lia). lia.
  - assert (10 ^ d <= 10 ^ (digits n - 1)) by (apply Z.pow_le_mono_r; lia). lia.
Qed.

Lemma pow10_linear d : 0 <= d -> d < 10 ^ d.
Proof.
  intros Hd. pattern d. apply natlike_ind; [done| |done].
  intros x Hx IH. rewrite Z.pow_succ_r by done. lia.
Qed.

(** Four attempts find the size that counts its own digits. *)
Lemma event_size_converges body :
  0 <= body -> exists n, event_size 4 body 1 = Ok n /\ 1 <= n /\ n = body + digits n.
Proof.
  intros Hb. pose proof (digits_pos 1) as Hd1. assert (forall b n, b + digits n = n ->
    forall k, event_size (S k) b n = Ok n) as Hfix.
  { intros b n H k. simpl. rewrite H, Z.eqb_refl. done. }
  assert (forall b n k, b + digits n <> n ->
    event_size (S k) b n = event_size k b (b + digits n)) as Hstep.
  { intros b n k H. simpl. by apply Z.eqb_neq in H as ->. }
  destruct (decide (body + digits 1 = 1)) as [E1|E1].
  { exists 1. split; [by apply Hfix|]. lia. }
  rewrite Hstep by done. change (digits 1) with 1 in *. set (p1 := body + 1).
  destruct (decide (body + digits p1 = p1)) as [E2|E2].
  { exists p1. split; [by apply Hfix|]. lia. }
  rewrite Hstep by done. set (p2 := body + digits p1). pose proof (digits_pos p1) as Hd.
  destruct (decide (body + digits p2 = p2)) as [E3|E3].
  { exists p2. split; [by apply Hfix|]. lia. }
  rewrite Hstep by done. set (p3 := body + digits p2).
  pose proof (digits_spec p1 ltac:(lia)) as H1.
  assert (digits p1 <= digits p2) by (apply digits_mono; lia).
  assert (digits p2 = digits p1 + 1) as Hd2.
  { destruct (Z.lt_ge_cases (p2) (10 ^ digits p1)) as [Hlt|Hge].
    - exfalso. apply E3. rewrite (digits_unique p2 (digits p1)); [lia|lia|lia|].
      split; [|done]. lia.
    - apply digits_unique; [lia|lia|]. replace (digits p1 + 1 - 1) with (digits p1) by lia.
      split; [done|]. replace (digits p1 + 1) with (Z.succ (digits p1)) by lia.
      rewrite Z.pow_succ_r by lia. pose proof (pow10_linear (digits p1) ltac:(lia)). lia. }
  assert (digits p3 = digits p2) as Hd3.
  { rewrite Hd2. apply digits_unique; [lia|lia|].
    pose proof (digits_spec p2 ltac:(lia)) as H2. rewrite Hd2 in H2.
    split; [lia|]. replace (digits p1 + 1) with (Z.succ (digits p1)) by lia.
    rewrite Z.pow_succ_r by lia. pose proof (pow10_linear (digits p1) ltac:(lia)). lia. }
  exists p3. split; [|lia]. apply Hfix. lia.
Qed.

(** What the search returns is below every size that counts its own digits. *)
Lemma event_size_least attempts body p n m :
  event_size attempts body p = Ok n -> 0 < p -> 0 <= body -> p <= m -> m = body + digits m ->
  n <= m.
Proof.
  revert p. induction attempts as [|k IH]; intros p H Hp Hb Hle Hm; simpl in H; [done|].
  destruct (Z.eqb_spec (body + digits p) p); [by simplify_eq|].
  pose proof (digits_pos p). pose proof (digits_mono p m ltac:(lia) Hle).
  apply (IH _ H); lia.
Qed.

(** ** The events of a batch *)

Section events.
Context {json : TraceJson}.

Lemma make_event_spec event_id seq generation fact e :
  make_event event_id seq generation fact = Ok e ->
  ev_event_id e = event_id /\ ev_trace_seq e = seq /\ ev_generation e = generation /\
  ev_fact e = fact.
Proof. unfold make_event. intros H. res_inv. by injection H as <-. Qed.

(** Its size is that of its JSON, and the least that is. *)
Lemma make_event_size `{!TraceJsonLaws} event_id seq generation fact :
  TraceEvent_valid (raw_event event_id seq generation fact 1) = true ->
  exists n, make_event event_id seq generation fact =
              Ok (raw_event event_id seq generation fact n) /\ 1 <= n /\
    json_bytes (raw_event event_id seq generation fact n) = n /\
    forall m, 1 <= m -> json_bytes (raw_event event_id seq generation fact m) = m -> n <= m.
Proof.
  intros Hv. unfold make_event. rewrite Hv. cbn [negb rraise_if rbind].
  set (raw := raw_event event_id seq generation fact). pose proof (json_bytes_pos (raw 1)).
  assert (forall m, 1 <= m -> json_bytes (raw m) = json_bytes (raw 1) - 1 + digits m) as Hr.
  { intros m Hm. assert (json_bytes (raw m) - digits m = json_bytes (raw 1) - digits 1) as Hj
      by (apply json_bytes_resized; lia). change (digits 1) with 1 in Hj. lia. }
  assert (0 <= json_bytes (raw 1) - 1) as Hb by lia.
  destruct (event_size_converges _ Hb) as (n & E1 & Hn & Hs).
  rewrite E1. exists n. split; [done|]. split; [done|].
  split; [rewrite (Hr n Hn); lia|]. intros m Hm Hj. rewrite (Hr m Hm) in Hj.
  eapply event_size_least; [exact E1|lia..].
Qed.

Lemma make_event_counts `{!TraceJsonLaws} event_id seq generation fact e :
  make_event event_id seq generation fact = Ok e ->
  1 <= ev_persisted_bytes e /\ ev_persisted_bytes e = json_bytes e.
Proof.
  intros He. assert (TraceEvent_valid (raw_event event_id seq generation fact 1) = true) as Hv.
  { unfold make_event in He. res_inv. by apply negb_false_iff. }
  destruct (make_event_size _ _ _ _ Hv) as (n & Hm & Hn & Hj & _).
  rewrite Hm in He. injection He as <-. simpl. done.
Qed.

(** What a batch gives for each draft. *)
Record made (change : TraceLedgerChange) (thread : TraceLedgerThreadState) (run : pystr) (seq : Z)
    (d : TraceStoredFact) (e : TraceEvent) : Prop := {
  made_event : make_event (d_event_id d) seq (k_generation (th_key thread)) (d_fact d) = Ok e;
  made_thread : identity_key (f_identity (d_fact d)) = thread_key (th_key thread);
  made_run : f_run_id (d_fact d) = run;
  made_size : ev_persisted_bytes e <= max_event_bytes (ch_limits change)
}.

Lemma make_events_spec change thread run seq drafts events i e :
  make_events change thread run seq drafts = Ok events -> events !! i = Some e ->
  exists d, drafts !! i = Some d /\ made change thread run (seq + Z.of_nat i) d e.
Proof.
  revert seq events i. induction drafts as [|d drafts IH]; intros seq events i; simpl;
    [by intros [= <-]|].
  intros H Hi. res_inv. injection H as <-. destruct i as [|i]; simpl in *.
  - injection Hi as <-. exists d. split; [done|]. bool_prop.
    rewrite Z.add_0_r. split; try done. unfold identity_key, thread_key. congruence.
  - match goal with Hm : make_events _ _ _ _ _ = Ok _ |- _ =>
      destruct (IH _ _ i Hm Hi) as (d' & Hd & Hmade) end.
    exists d'. split; [done|]. by replace (seq + Z.of_nat (S i)) with (seq + 1 + Z.of_nat i) by lia.
Qed.

Lemma made_fields change thread run seq d e :
  made change thread run seq d e ->
  ev_event_id e = d_event_id d /\ ev_trace_seq e = seq /\
  ev_generation e = k_generation (th_key thread) /\ ev_fact e = d_fact d.
Proof. intros [H _ _ _]. by apply make_event_spec. Qed.

Lemma make_events_length change thread run seq drafts events :
  make_events change thread run seq drafts = Ok events -> length events = length drafts.
Proof.
  revert seq events. induction drafts as [|d drafts IH]; intros seq events; simpl;
    [by intros [= <-]|].
  intros H. res_inv. injection H as <-. simpl. f_equal. eauto.
Qed.

Lemma make_events_facts change thread run seq drafts events :
  make_events change thread run seq drafts = Ok events -> map ev_fact events = map d_fact drafts.
Proof.
  intros H. apply list_eq. intros i. rewrite !list_lookup_fmap.
  destruct (events !! i) as [e|] eqn:He.
  - destruct (make_events_spec _ _ _ _ _ _ _ _ H He) as (d & -> & Hm). simpl.
    by destruct (made_fields _ _ _ _ _ _ Hm) as (_ & _ & _ & ->).
  - apply lookup_ge_None in He. rewrite (make_events_length _ _ _ _ _ _ H) in He.
    by apply lookup_ge_None in He as ->.
Qed.

Lemma make_events_run change thread run seq drafts events e :
  make_events change thread run seq drafts = Ok events -> e ∈ events ->
  f_run_id (ev_fact e) = run.
Proof.
  intros H [i Hi]%list_elem_of_lookup.
  destruct (make_events_spec _ _ _ _ _ _ _ _ H Hi) as (d & _ & Hm).
  destruct (made_fields _ _ _ _ _ _ Hm) as (_ & _ & _ & ->). apply Hm.
Qed.

Lemma make_events_bytes change thread run seq drafts events :
  make_events change thread run seq drafts = Ok events ->
  zsum ev_persisted_bytes events <= zlen events * max_event_bytes (ch_limits change).
Proof.
  revert seq events. induction drafts as [|d drafts IH]; intros seq events; simpl;
    [by intros [= <-]|].
  intros H. res_inv. injection H as <-. rewrite zlen_cons. simpl. bool_prop.
  match goal with Hm : make_events _ _ _ _ _ = Ok _ |- _ => specialize (IH _ _ Hm) end. lia.
Qed.
End events.

(** ** The end of a run *)

(** A fact that neither ends nor closes its run. *)
Definition ordinary (f : TraceSemanticFact) : bool := negb (terminal_or_closed f).

(** The phases a run has ended with. *)
Definition ending_phases (terminal closed : bool) : list RunFactPhase :=
  (if terminal then [RunTerminal] else []) ++ (if closed then [RunClosed] else []).

(** Ordinary facts, then what the flags say, in this order. *)
Definition run_history (facts : list TraceSemanticFact) (terminal closed : bool) : Prop :=
  exists before after, facts = before ++ after /\
    forallb ordinary before = true /\
    map run_phase after = map Some (ending_phases terminal closed).

Lemma run_phases facts :
  forallb terminal_or_closed facts = true ->
  map run_phase facts = map Some (omap run_phase facts) /\
  Forall (fun p => p = RunTerminal \/ p = RunClosed) (omap run_phase facts).
Proof.
  induction facts as [|f facts IH]; simpl; [done|]. intros [Hf Hl]%andb_prop.
  destruct (IH Hl) as [IH1 IH2]. unfold terminal_or_closed in Hf.
  destruct (run_phase f) as [[]|]; try done; simpl; rewrite IH1; split; try done;
    constructor; auto.
Qed.

Lemma phases_length facts :
  forallb terminal_or_closed facts = true -> zlen (omap run_phase facts) = zlen facts.
Proof.
  intros H. destruct (run_phases facts H) as [E1 _]. apply (f_equal zlen) in E1.
  by rewrite !zlen_map in E1.
Qed.

Lemma phase_count_cons a p l :
  phase_count a (p :: l) = (if bool_decide (p = a) then 1 else 0) + phase_count a l.
Proof. exact (count_cons (fun q => bool_decide (q = a)) p l). Qed.

(** The batches that can end a run. *)
Lemma check_lifecycle_mandatory facts terminal closed terminal' closed' :
  forallb terminal_or_closed facts = true -> facts <> [] ->
  check_lifecycle true facts terminal closed = Ok (terminal', closed') ->
  closed = false /\ (terminal = true -> terminal' = true) /\ (closed' = true -> terminal' = true) /\
  ending_phases terminal' closed' = ending_phases terminal closed ++ omap run_phase facts.
Proof.
  intros Hall Hne. destruct (run_phases facts Hall) as [Hmap Hph].
  assert (omap run_phase facts <> []) as Hne'.
  { intros E1. rewrite E1 in Hmap. by destruct facts. }
  unfold check_lifecycle. set (phases := omap run_phase facts) in *. clearbody phases.
  intros H. res_inv. injection H as <- <-. bool_prop. subst closed. simpl.
  destruct phases as [|p1 phases]; [done|]. inversion_clear Hph as [|? ? Hp1 Hph'].
  destruct phases as [|p2 phases].
  - destruct Hp1 as [-> | ->], terminal; simpl in *; done.
  - inversion_clear Hph' as [|? ? Hp2 Hph'']. destruct phases as [|p3 phases].
    + destruct Hp1 as [-> | ->], Hp2 as [-> | ->], terminal; simpl in *; done.
    + exfalso. inversion_clear Hph'' as [|? ? Hp3 _]. rewrite !phase_count_cons in *.
      pose proof (count_nonneg (fun p => bool_decide (p = RunTerminal)) phases).
      pose proof (count_nonneg (fun p => bool_decide (p = RunClosed)) phases).
      unfold phase_count in *.
      destruct Hp1 as [-> | ->], Hp2 as [-> | ->], Hp3 as [-> | ->]; simpl in *; lia.
Qed.

Lemma check_lifecycle_ordinary facts terminal closed terminal' closed' :
  check_lifecycle false facts terminal closed = Ok (terminal', closed') ->
  terminal = false /\ closed = false /\ terminal' = false /\ closed' = false.
Proof.
  unfold check_lifecycle. intros H. res_inv. injection H as <- <-. by bool_prop.
Qed.

Lemma forallb_same {A} (f g : A -> bool) l :
  (forall x, f x = g x) -> forallb f l = forallb g l.
Proof. intros H. induction l as [|x l IH]; simpl; [done|]. by rewrite H, IH. Qed.

(** A batch continues a run's history. *)
Lemma check_lifecycle_history mandatory past facts terminal closed terminal' closed' :
  run_history past terminal closed ->
  forallb (fun f => Bool.eqb (terminal_or_closed f) mandatory) facts = true -> facts <> [] ->
  check_lifecycle mandatory facts terminal closed = Ok (terminal', closed') ->
  run_history (past ++ facts) terminal' closed'.
Proof.
  intros (before & after & -> & Hb & Ha) Hall Hne Hc. destruct mandatory.
  - assert (forallb terminal_or_closed facts = true) as Hall'.
    { rewrite <-Hall. apply forallb_same. intros f. by destruct (terminal_or_closed f). }
    destruct (check_lifecycle_mandatory _ _ _ _ _ Hall' Hne Hc) as (_ & _ & _ & E1).
    exists before, (after ++ facts). split; [by rewrite app_assoc|]. split; [done|].
    rewrite E1, !map_app, Ha. f_equal. by apply run_phases.
  - destruct (check_lifecycle_ordinary _ _ _ _ _ Hc) as (-> & -> & -> & ->).
    destruct after; [|done]. rewrite app_nil_r. exists (before ++ facts), [].
    split; [by rewrite app_nil_r|]. split; [|done].
    rewrite forallb_app, Hb. simpl. rewrite <-Hall. apply forallb_same. intros f. unfold ordinary.
    by destruct (terminal_or_closed f).
Qed.

(** Nothing is appended to a closed run. *)
Lemma check_lifecycle_open mandatory facts terminal closed flags :
  check_lifecycle mandatory facts terminal closed = Ok flags -> closed = false.
Proof. unfold check_lifecycle. destruct mandatory; intros H; res_inv; by bool_prop. Qed.
