(* ===== verification/TraceInvariant.v ===== *)
(** Tracing: the invariant of the in-memory ledger and that every commit keeps it. *)
From S2P Require Import Prelude PyDict PySeq Contracts TraceModels TraceGraph TraceLedger.
From S2P Require Import TraceMemory TraceFacts TraceSteps.
From Stdlib Require Import Sorting.Sorted.

(** ** Statement *)

(** The events of one run. *)
Definition run_log (run : pystr) (events : list TraceEvent) : list TraceEvent :=
  List.filter (fun e => bool_decide (f_run_id (ev_fact e) = run)) events.

(** A writer's record agrees with its run's events; while the run is open it holds
    the reserve of its terminal facts, afterwards it holds none. *)
Record writer_ok (l : TraceLimits) (events : list TraceEvent) (run : pystr)
    (w : TraceLedgerWriterState) : Prop := {
  wo_run : w_run_id w = run;
  wo_fence : 1 <= w_fence w;
  wo_committed : w_committed_events w = zlen (run_log run events);
  wo_history : run_history (map ev_fact (run_log run events)) (w_terminal_committed w)
                 (w_closed_committed w);
  wo_closed : w_closed_committed w = true -> w_terminal_committed w = true;
  wo_open : w_active w = true -> w_closed_committed w = false ->
    w_remaining_event_reserve w =
      terminal_reserve_events_per_run l - (if w_terminal_committed w then 1 else 0) /\
    w_remaining_event_reserve w * max_event_bytes l <= w_remaining_byte_reserve w;
  wo_done : w_active w = false \/ w_closed_committed w = true ->
    w_remaining_event_reserve w = 0 /\ w_remaining_byte_reserve w = 0
}.

(** The event at an index of the log. *)
Record event_ok {json : TraceJson} (l : TraceLimits) (key : TraceThreadKey) (i : nat) (e : TraceEvent) : Prop := {
  eo_seq : ev_trace_seq e = Z.of_nat i + 1;
  eo_generation : ev_generation e = k_generation key;
  eo_thread : identity_key (f_identity (ev_fact e)) = thread_key key;
  eo_counts : ev_persisted_bytes e = json_bytes e;
  eo_size : 1 <= ev_persisted_bytes e <= max_event_bytes l
}.

(** A record holds what its event says. *)
Definition record_ok (m : MemoryStoredTraceEvent) : Prop :=
  let e := me_validated_event m in
  st_event_id (me_record m) = ev_event_id e /\ st_trace_seq (me_record m) = ev_trace_seq e /\
  st_run_id (me_record m) = f_run_id (ev_fact e) /\
  st_fact_kind (me_record m) = fact_kind (ev_fact e) /\
  st_persisted_bytes (me_record m) = ev_persisted_bytes e.

(** The checkpoints of a scope, each of a longer prefix than the one before. *)
Record checkpoints_ok (l : TraceLimits) (t : MemoryThread) (scope : pystr * option pystr)
    (cs : list StoredTraceCheckpoint) : Prop := {
  co_increasing : StronglySorted (fun a b => sc_as_of_seq a < sc_as_of_seq b) cs;
  co_prefix : forall c, c ∈ cs -> sc_as_of_seq c <= th_next_seq (mt_state t) - 1 /\
    sc_key c = th_key (mt_state t) /\ (sc_projection_name c, sc_run_id c) = scope;
  co_bound : zlen cs <= max_projection_checkpoints_per_scope l
}.

Record thread_ok {json : TraceJson} (l : TraceLimits) (key : pystr * pystr) (t : MemoryThread) : Prop := {
  to_key : thread_key (th_key (mt_state t)) = key;
  to_writers : dwf (mt_writers t);
  to_writer run w : dget (mt_writers t) run = Some w -> writer_ok l (log t) run w;
  to_seq : th_next_seq (mt_state t) = zlen (log t) + 1;
  to_bytes : th_persisted_bytes (mt_state t) = zsum ev_persisted_bytes (log t);
  to_event i e : log t !! i = Some e -> event_ok l (th_key (mt_state t)) i e;
  to_owned e : e ∈ log t -> is_Some (dget (mt_writers t) (f_run_id (ev_fact e)));
  to_record m : m ∈ mt_events t -> record_ok m;
  to_events_bound : used_events t <= max_thread_events l;
  to_bytes_bound : used_bytes t <= max_thread_bytes l;
  to_checkpoints scope cs : dget (mt_checkpoints t) scope = Some cs -> checkpoints_ok l t scope cs
}.

(** The namespaces are within the tracer's bounds. *)
Record store_ok {json : TraceJson} (l : TraceLimits) (d : dict (pystr * pystr) MemoryThread) : Prop := {
  so_wf : dwf d;
  so_thread key t : dget d key = Some t -> thread_ok l key t;
  so_bytes namespace : namespace_bytes namespace d <= max_tracer_bytes l;
  so_threads namespace : namespace_threads namespace d <= max_tracer_threads l
}.

(** ** Sums over writers *)

Definition active_part (f : TraceLedgerWriterState -> Z) (w : TraceLedgerWriterState) : Z :=
  if w_active w then f w else 0.

Lemma active_sum_put f w t :
  active_sum f (put_writer w t) =
  active_sum f t - oval (active_part f) (dget (mt_writers t) (w_run_id w)) + active_part f w.
Proof. unfold active_sum, put_writer. simpl. by rewrite dsum_dset. Qed.

Lemma active_sum_del f run t :
  dwf (mt_writers t) ->
  active_sum f (set_writers (ddel (mt_writers t) run) t) =
  active_sum f t - oval (active_part f) (dget (mt_writers t) run).
Proof. intros H. unfold active_sum. simpl. by rewrite dsum_ddel. Qed.

(** ** Events of a run *)

Lemma run_log_app run l1 l2 : run_log run (l1 ++ l2) = run_log run l1 ++ run_log run l2.
Proof. apply List.filter_app. Qed.

Lemma run_log_all run events :
  (forall e, e ∈ events -> f_run_id (ev_fact e) = run) -> run_log run events = events.
Proof.
  induction events as [|e events IH]; intros H; simpl; [done|].
  rewrite bool_decide_eq_true_2 by (apply H; by left). f_equal. apply IH. intros e' He.
  apply H. by right.
Qed.

Lemma run_log_other run run' events :
  (forall e, e ∈ events -> f_run_id (ev_fact e) = run) -> run <> run' ->
  run_log run' events = [].
Proof.
  induction events as [|e events IH]; intros H Hne; simpl; [done|].
  rewrite bool_decide_eq_false_2 by (rewrite (H e) by (by left); done).
  apply IH; [|done]. intros e' He. apply H. by right.
Qed.

(** A writer and its run, when events of another run are appended. *)
Lemma writer_ok_other l past events run run' w :
  (forall e, e ∈ events -> f_run_id (ev_fact e) = run) -> run <> run' ->
  writer_ok l past run' w -> writer_ok l (past ++ events) run' w.
Proof.
  intros He Hne [H1 H2 H3 H4 H5 H6 H7].
  assert (run_log run' (past ++ events) = run_log run' past) as E1.
  { rewrite run_log_app, (run_log_other run run' events), app_nil_r; done. }
  by split; rewrite ?E1.
Qed.

Lemma writer_reserves l events run w :
  TraceLimits_valid l = true -> writer_ok l events run w ->
  0 <= w_remaining_event_reserve w /\ 0 <= w_remaining_byte_reserve w.
Proof.
  intros Hl Hw. unfold TraceLimits_valid in Hl. bool_prop.
  destruct (w_active w) eqn:Ea; [destruct (w_closed_committed w) eqn:Ec|].
  - destruct (wo_done _ _ _ _ Hw) as [-> ->]; [by right|lia].
  - destruct (wo_open _ _ _ _ Hw Ea Ec) as [He Hb]. destruct (w_terminal_committed w); nia.
  - destruct (wo_done _ _ _ _ Hw) as [-> ->]; [by left|lia].
Qed.

(** ** One slot of the store *)

Lemma namespace_put f namespace key o d :
  dwf d ->
  namespace_sum namespace f (put_slot key o d) =
  namespace_sum namespace f d +
  (if in_namespace namespace key then oval f o - oval f (dget d key) else 0).
Proof.
  intros Hd. unfold namespace_sum, put_slot.
  destruct o as [t|]; rewrite ?esum_dset, ?esum_ddel by done;
    destruct (dget d key), (in_namespace namespace key); simpl; lia.
Qed.

Lemma store_put {json : TraceJson} l key o d :
  store_ok l d -> (forall t, o = Some t -> thread_ok l key t) ->
  oval used_bytes o - oval used_bytes (dget d key) + namespace_bytes key.1 d
    <= max_tracer_bytes l ->
  oval (fun _ => 1) o - oval (fun _ => 1) (dget d key) + namespace_threads key.1 d
    <= max_tracer_threads l ->
  store_ok l (put_slot key o d).
Proof.
  intros [Hwf Hth Hb Hc] Ho Hb' Hc'. split.
  - unfold put_slot. destruct o; auto with py.
  - intros key' t'. unfold put_slot.
    destruct o as [t|]; rewrite ?dget_dset, ?dget_ddel; case_decide; simplify_eq; eauto.
  - intros ns. unfold namespace_bytes. rewrite namespace_put by done. specialize (Hb ns).
    unfold in_namespace. case_bool_decide; [subst ns|]; unfold namespace_bytes in *; lia.
  - intros ns. unfold namespace_threads. rewrite namespace_put by done. specialize (Hc ns).
    unfold in_namespace. case_bool_decide; [subst ns|]; unfold namespace_threads in *; lia.
Qed.

Lemma store_update {json : TraceJson} l key t t' d :
  store_ok l d -> dget d key = Some t -> thread_ok l key t' ->
  used_bytes t' - used_bytes t + namespace_bytes key.1 d <= max_tracer_bytes l ->
  store_ok l (put_slot key (Some t') d).
Proof.
  intros Hs Ht Hok Hb. apply store_put; rewrite ?Ht; simpl; [done|by intros ? [= <-]|done|].
  pose proof (so_threads _ _ Hs key.1). lia.
Qed.

(** ** Steps *)

Section steps.
Context {hash : ScopeHash} {json : TraceJson} {laws : TraceJsonLaws} {clock : TraceClock}.
Context (l : TraceLimits) (Hl : TraceLimits_valid l = true).

Lemma put_writer_ok key w t :
  thread_ok l key t -> writer_ok l (log t) (w_run_id w) w ->
  used_events (put_writer w t) <= max_thread_events l ->
  used_bytes (put_writer w t) <= max_thread_bytes l ->
  thread_ok l key (put_writer w t).
Proof.
  intros [H1 H2 H3 H4 H5 H6 H7 H8 H9 H10 H11] Hw He Hb. split; try done.
  - by apply dwf_dset.
  - intros run w'. simpl. rewrite dget_dset. case_decide; intros; simplify_eq; [done|].
    by apply H3.
  - intros e Hin. simpl. rewrite dget_dset. case_decide; [eauto|]. by apply H7.
  - intros scope cs Hg. destruct (H11 scope cs Hg). by split.
Qed.

(** Another lease for an open writer. *)
Lemma with_lease_ok events token fence lease w :
  writer_ok l events (w_run_id w) w -> w_active w = true -> 1 <= fence ->
  writer_ok l events (w_run_id w) (with_lease token fence lease true w).
Proof.
  intros [H1 H2 H3 H4 H5 H6 H7] Ha Hf. split; try done; simpl.
  - intros _. by apply H6.
  - intros [|?]; [done|]. apply H7. by right.
Qed.

Lemma lease_used token fence lease w t :
  dget (mt_writers t) (w_run_id w) = Some w -> w_active w = true ->
  used_events (put_writer (with_lease token fence lease true w) t) = used_events t /\
  used_bytes (put_writer (with_lease token fence lease true w) t) = used_bytes t.
Proof.
  intros Hg Ha. unfold used_events, used_bytes. rewrite !active_sum_put. simpl.
  rewrite Hg. simpl. unfold active_part. rewrite Ha. simpl. lia.
Qed.

Lemma lease_step_ok key token fence lease w t :
  thread_ok l key t -> dget (mt_writers t) (w_run_id w) = Some w -> w_active w = true ->
  1 <= fence ->
  thread_ok l key (put_writer (with_lease token fence lease true w) t).
Proof.
  intros Ht Hg Ha Hf. destruct (lease_used token fence lease w t Hg Ha) as [He Hb].
  apply put_writer_ok; [done| | |].
  - simpl. apply with_lease_ok; [|done..]. by apply Ht.
  - rewrite He. apply Ht.
  - rewrite Hb. apply Ht.
Qed.

Lemma closed_writer_ok events w :
  writer_ok l events (w_run_id w) w -> writer_ok l events (w_run_id w) (closed_writer w).
Proof. intros [H1 H2 H3 H4 H5 H6 H7]. by split. Qed.

Lemma close_used key w t :
  thread_ok l key t -> dget (mt_writers t) (w_run_id w) = Some w ->
  used_events (put_writer (closed_writer w) t) <= used_events t /\
  used_bytes (put_writer (closed_writer w) t) <= used_bytes t.
Proof.
  intros Ht Hg. unfold used_events, used_bytes. rewrite !active_sum_put. simpl.
  rewrite Hg. simpl. unfold active_part. simpl.
  destruct (writer_reserves l _ _ _ Hl (to_writer _ _ _ Ht _ _ Hg)).
  destruct (w_active w); lia.
Qed.

(** ** A batch of events *)

Lemma log_appended change events w t :
  length events = length (ch_facts change) ->
  log (appended change events w t) = log t ++ events.
Proof.
  intros Hlen. unfold log, appended. simpl. rewrite map_app. f_equal.
  revert Hlen. generalize (ch_facts change). induction events as [|e events IH];
    intros [|d ds]; simpl; try done. intros [= H]. by rewrite IH.
Qed.

Lemma appended_record change events w t m :
  (forall m, m ∈ mt_events t -> record_ok m) ->
  m ∈ mt_events (appended change events w t) -> record_ok m.
Proof.
  intros H. unfold appended. simpl. intros [Hin|Hin]%elem_of_app; [by apply H|].
  revert Hin. generalize (ch_facts change). induction events as [|e events IH];
    intros [|d ds]; simpl; try by intros ?%elem_of_nil.
  intros [->|Hin]%elem_of_cons; [done|by eapply IH].
Qed.

Lemma appended_writer_ok change past w terminal closed events lease :
  writer_ok l past (w_run_id w) w -> w_active w = true -> ch_limits change = l ->
  (forall e, e ∈ events -> f_run_id (ev_fact e) = w_run_id w) ->
  map ev_fact events = map d_fact (ch_facts change) -> events <> [] ->
  forallb (fun d => Bool.eqb (terminal_or_closed (d_fact d)) (ch_mandatory change))
    (ch_facts change) = true ->
  check_lifecycle (ch_mandatory change) (map d_fact (ch_facts change))
    (w_terminal_committed w) (w_closed_committed w) = Ok (terminal, closed) ->
  zsum ev_persisted_bytes events <= zlen events * max_event_bytes l ->
  (if ch_mandatory change
   then zlen events <= w_remaining_event_reserve w /\
        zsum ev_persisted_bytes events <= w_remaining_byte_reserve w
   else True) ->
  writer_ok l (past ++ events) (w_run_id w)
    (appended_writer (ch_mandatory change) lease w terminal closed (zlen events)
       (zsum ev_persisted_bytes events)).
Proof.
  intros [H1 H2 H3 H4 H5 H6 H7] Ha Hlim Hrun Hfacts Hne Hall Hlife Hsize Hres.
  assert (forallb (fun f => Bool.eqb (terminal_or_closed f) (ch_mandatory change))
            (map ev_fact events) = true) as Hall'.
  { rewrite Hfacts. clear -Hall. induction (ch_facts change) as [|d ds IH]; [done|].
    simpl in *. apply andb_prop in Hall as [-> Hall]. by apply IH. }
  rewrite <-Hfacts in Hlife.
  assert (map ev_fact events <> []) as Hne' by by destruct events.
  split; simpl; try done.
  - rewrite run_log_app, (run_log_all _ events Hrun), zlen_app. lia.
  - rewrite run_log_app, (run_log_all _ events Hrun), map_app.
    by eapply check_lifecycle_history.
  - destruct (ch_mandatory change).
    + apply check_lifecycle_mandatory in Hlife as (_ & _ & H & _); [done| |done].
      rewrite <-Hall'. apply forallb_same. intros f. by destruct (terminal_or_closed f).
    + by apply check_lifecycle_ordinary in Hlife as (_ & _ & -> & ->).
  - intros _ ->. destruct (ch_mandatory change).
    + apply check_lifecycle_mandatory in Hlife as (Hc0 & _ & _ & Hph); [| |done].
      2: { rewrite <-Hall'. apply forallb_same. intros f. by destruct (terminal_or_closed f). }
      destruct (H6 Ha Hc0) as [Her Hbr].
      assert (zlen events = (if terminal then 1 else 0) - (if w_terminal_committed w then 1 else 0))
        as Hn; [|rewrite Z.mul_sub_distr_r; lia].
      apply (f_equal zlen) in Hph. rewrite zlen_app, Hc0 in Hph.
      rewrite phases_length in Hph.
      2: { rewrite <-Hall'. apply forallb_same. intros f. by destruct (terminal_or_closed f). }
      rewrite zlen_map in Hph. destruct terminal, (w_terminal_committed w); unfold zlen in *;
        simpl in *; lia.
    + apply check_lifecycle_ordinary in Hlife as (Ht0 & Hc0 & -> & _).
      destruct (H6 Ha Hc0) as [Her Hbr]. rewrite Ht0 in Her. done.
  - intros [?| -> ]; [done|]. destruct (ch_mandatory change); [done|].
    by apply check_lifecycle_ordinary in Hlife as (_ & _ & _ & ?).
Qed.

Lemma append_step_ok key change w t terminal closed events lease :
  thread_ok l key t -> ch_limits change = l ->
  dget (mt_writers t) (w_run_id w) = Some w -> w_active w = true ->
  ch_facts change <> [] ->
  forallb (fun d => Bool.eqb (terminal_or_closed (d_fact d)) (ch_mandatory change))
    (ch_facts change) = true ->
  check_lifecycle (ch_mandatory change) (map d_fact (ch_facts change))
    (w_terminal_committed w) (w_closed_committed w) = Ok (terminal, closed) ->
  make_events change (mt_state t) (w_run_id w) (th_next_seq (mt_state t)) (ch_facts change)
    = Ok events ->
  (if ch_mandatory change
   then zlen events <= w_remaining_event_reserve w /\
        zsum ev_persisted_bytes events <= w_remaining_byte_reserve w
   else used_events t + zlen events <= max_thread_events l /\
        used_bytes t + zsum ev_persisted_bytes events <= max_thread_bytes l) ->
  let w' := appended_writer (ch_mandatory change) lease w terminal closed (zlen events)
              (zsum ev_persisted_bytes events) in
  let t' := appended change events w' t in
  thread_ok l key t' /\
  used_bytes t' <= used_bytes t +
    (if ch_mandatory change then 0 else zsum ev_persisted_bytes events).
Proof.
  intros Ht Hlim Hg Ha Hne Hall Hlife Hmake Hroom w' t'.
  pose proof (make_events_length _ _ _ _ _ _ Hmake) as Hlen.
  pose proof (make_events_facts _ _ _ _ _ _ Hmake) as Hfacts.
  pose proof (make_events_bytes _ _ _ _ _ _ Hmake) as Hsize. rewrite Hlim in Hsize.
  pose proof (log_appended change events w' t Hlen) as Hlog.
  assert (forall i e, events !! i = Some e -> exists d, ch_facts change !! i = Some d /\
    made change (mt_state t) (w_run_id w) (th_next_seq (mt_state t) + Z.of_nat i) d e) as Hmade.
  { intros i e. by apply make_events_spec. }
  assert (forall e, e ∈ events -> f_run_id (ev_fact e) = w_run_id w) as Hrun.
  { intros e. by eapply make_events_run. }
  assert (events <> []) as Hne' by (by destruct events, (ch_facts change)).
  destruct (writer_reserves _ _ _ _ Hl (to_writer _ _ _ Ht _ _ Hg)) as [Hre Hrb].
  assert (writer_ok l (log t ++ events) (w_run_id w) w') as Hw'.
  { apply (appended_writer_ok change); try done; [by apply Ht|].
    destruct (ch_mandatory change); [done|exact I]. }
  assert (forall f, active_sum f t' = active_sum f t - f w + f w') as Hsum.
  { intros f. unfold active_sum, t', appended. simpl. rewrite dsum_dset, Hg. simpl.
    by rewrite Ha. }
  assert (used_events t' <= max_thread_events l /\
          used_bytes t' <= max_thread_bytes l /\
          used_bytes t' <= used_bytes t +
            (if ch_mandatory change then 0 else zsum ev_persisted_bytes events)) as (Hu1 & Hu2 & Hu3).
  { pose proof (to_events_bound _ _ _ Ht) as Hb1. pose proof (to_bytes_bound _ _ _ Ht) as Hb2.
    unfold used_events, used_bytes in *. rewrite !Hsum. unfold w', appended_writer. simpl.
    destruct (ch_mandatory change), closed; simpl in *; lia. }
  split; [|done]. destruct Ht as [T1 T2 T3 T4 T5 T6 T7 T8 T9 T10 T11].
  change (log t' = log t ++ events) in Hlog. split; try done.
  - by apply dwf_dset.
  - intros run w0. rewrite Hlog. simpl. rewrite dget_dset. case_decide as Hr; intros H; simplify_eq; [done|].
    eapply writer_ok_other; [exact Hrun|done|by apply T3].
  - rewrite Hlog, zlen_app. simpl. lia.
  - rewrite Hlog, zsum_app. simpl. lia.
  - intros i e. rewrite Hlog, lookup_app. destruct (log t !! i) eqn:Hi.
    + intros [= <-]. by apply T6.
    + intros He. destruct (Hmade _ _ He) as (d & _ & Hm). apply lookup_ge_None in Hi.
      destruct (made_fields _ _ _ _ _ _ Hm) as (_ & Hs & Hgen & Hf).
      destruct Hm as [Hev Hth _ Hsz]. rewrite Hlim in Hsz.
      destruct (make_event_counts _ _ _ _ _ Hev). split; try done.
      * rewrite Hs, T4. unfold zlen. lia.
      * by rewrite Hf.
  - intros e. rewrite Hlog. intros [He|He]%elem_of_app; simpl; rewrite dget_dset.
    + case_decide; [eauto|by apply T7].
    + rewrite (Hrun e He). rewrite decide_True by done. eauto.
  - intros m. by apply appended_record.
  - intros scope cs Hc. destruct (T11 scope cs Hc) as [C1 C2 C3]. split; try done.
    intros c Hin. destruct (C2 c Hin) as (? & ? & ?). split; [simpl|done].
    pose proof (zlen_nonneg events). lia.
Qed.

(** ** Opening *)

Lemma new_thread_ok key generation :
  thread_ok l key (new_thread {| th_key := {| k_namespace := key.1; k_thread_id := key.2;
                                              k_generation := generation |};
                                 th_next_seq := 1; th_persisted_bytes := 0 |}).
Proof.
  unfold TraceLimits_valid in Hl. bool_prop.
  split; try done; unfold used_events, used_bytes; rewrite ?active_sum_new; simpl; try lia;
    try by intros ? ?%elem_of_nil.
  - by destruct key.
  - apply dwf_nil.
Qed.

Lemma open_step_ok key run token lease t :
  thread_ok l key t -> dget (mt_writers t) run = None ->
  used_events t + terminal_reserve_events_per_run l <= max_thread_events l ->
  used_bytes t + terminal_reserve_bytes_per_run l <= max_thread_bytes l ->
  let t' := put_writer (new_writer run token lease (terminal_reserve_events_per_run l)
                          (terminal_reserve_bytes_per_run l)) t in
  thread_ok l key t' /\ used_bytes t' = used_bytes t + terminal_reserve_bytes_per_run l.
Proof.
  intros Ht Hg He Hb t'.
  assert (used_events t' = used_events t + terminal_reserve_events_per_run l /\
          used_bytes t' = used_bytes t + terminal_reserve_bytes_per_run l) as [He' Hb'].
  { unfold t', used_events, used_bytes. rewrite !active_sum_put. simpl. rewrite Hg. simpl.
    unfold active_part. simpl. lia. }
  split; [|done]. apply put_writer_ok; [done| |fold t'; lia|fold t'; lia].
  assert (run_log run (log t) = []) as Hrun.
  { destruct (run_log run (log t)) as [|e es] eqn:E1; [done|]. exfalso.
    assert (e ∈ run_log run (log t)) as Hin by (rewrite E1; by left).
    apply list_elem_of_In, filter_In in Hin as [Hin Hr]. apply bool_decide_eq_true in Hr.
    apply list_elem_of_In in Hin. apply (to_owned _ _ _ Ht) in Hin as [? Hs]. congruence. }
  unfold TraceLimits_valid in Hl. bool_prop.
  split; simpl; rewrite ?Hrun; try done; try lia.
  by exists [], [].
Qed.

(** ** Discarding *)

Lemma discard_step_ok key w t :
  thread_ok l key t -> dget (mt_writers t) (w_run_id w) = Some w ->
  w_committed_events w = 0 ->
  let t' := set_writers (ddel (mt_writers t) (w_run_id w)) t in
  thread_ok l key t' /\ used_bytes t' <= used_bytes t.
Proof.
  intros Ht Hg H0 t'. pose proof (to_writer _ _ _ Ht _ _ Hg) as Hw.
  destruct (writer_reserves _ _ _ _ Hl Hw) as [Hre Hrb].
  assert (used_events t' <= used_events t /\ used_bytes t' <= used_bytes t) as [He' Hb'].
  { unfold t', used_events, used_bytes. rewrite !active_sum_del by apply Ht.
    rewrite Hg. simpl. unfold active_part. destruct (w_active w); lia. }
  split; [|done]. destruct Ht as [T1 T2 T3 T4 T5 T6 T7 T8 T9 T10 T11]. split; try done; try lia.
  - by apply dwf_ddel.
  - intros run w'. simpl. rewrite dget_ddel. case_decide; [done|]. by apply T3.
  - intros e He. simpl. rewrite dget_ddel. case_decide as Hr; [|by apply T7]. exfalso.
    assert (e ∈ run_log (w_run_id w) (log t)) as Hin.
    { apply list_elem_of_In, filter_In. split; [by apply list_elem_of_In|].
      by apply bool_decide_eq_true. }
    pose proof (wo_committed _ _ _ _ Hw) as Hc. rewrite H0 in Hc.
    destruct (run_log _ _); [by apply elem_of_nil in Hin|]. rewrite zlen_cons in Hc.
    pose proof (zlen_nonneg l0). lia.
  - intros scope cs Hc. destruct (T11 scope cs Hc). by split.
Qed.

(** ** Checkpoints *)

Lemma keep_last_drop {A} n (cs : list A) : 0 < n -> exists k, keep_last n cs = drop k cs /\
  zlen (drop k cs) <= n.
Proof.
  intros Hn. unfold keep_last. rewrite (proj2 (Z.eqb_neq n 0)) by lia.
  eexists. split; [done|]. unfold slice_bound, zlen. rewrite length_drop.
  replace (- n <? 0) with true by lia. lia.
Qed.

Lemma StronglySorted_drop {A} (R : A -> A -> Prop) k cs :
  StronglySorted R cs -> StronglySorted R (drop k cs).
Proof.
  revert cs. induction k as [|k IH]; intros cs H; [done|]. destruct H; simpl; [constructor|].
  by apply IH.
Qed.

Lemma StronglySorted_snoc {A} (R : A -> A -> Prop) cs c :
  StronglySorted R cs -> (forall x, x ∈ cs -> R x c) -> StronglySorted R (cs ++ [c]).
Proof.
  induction 1 as [|x cs Hs IH Hx]; intros H; simpl; [by repeat constructor|].
  constructor; [apply IH; intros y Hy; apply H; by right|].
  apply List.Forall_app. split; [done|]. constructor; [|done]. apply H. by left.
Qed.

(** In a strictly increasing list everything is below what is above the last. *)
Lemma below_newest cs (n : Z) :
  StronglySorted (fun a b => sc_as_of_seq a < sc_as_of_seq b) cs ->
  match newest cs with Some c0 => sc_as_of_seq c0 < n | None => True end ->
  forall c, c ∈ cs -> sc_as_of_seq c < n.
Proof.
  unfold newest. induction 1 as [|x cs Hs IH Hx]; [by intros _ c ?%elem_of_nil|].
  intros Hn c [->|Hc]%elem_of_cons.
  - destruct cs as [|y cs]; [done|]. assert (sc_as_of_seq y < n) as Hy by (apply IH; [done|by left]).
    inversion_clear Hx. lia.
  - apply IH; [|done]. by destruct cs.
Qed.

Lemma checkpoint_step_ok key c t :
  thread_ok l key t -> sc_key c = th_key (mt_state t) ->
  sc_as_of_seq c <= th_next_seq (mt_state t) - 1 ->
  match newest (default [] (dget (mt_checkpoints t) (sc_projection_name c, sc_run_id c))) with
  | Some c0 => sc_as_of_seq c0 < sc_as_of_seq c
  | None => True
  end ->
  thread_ok l key (keep_checkpoint l c t).
Proof.
  intros [T1 T2 T3 T4 T5 T6 T7 T8 T9 T10 T11] Hk Hs Hn. split; try done.
  intros scope cs. simpl. rewrite dget_dset. case_decide as Hsc.
  2: { intros Hg. destruct (T11 scope cs Hg). by split. }
  intros [= <-]. subst scope.
  set (old := default [] (dget (mt_checkpoints t) (sc_projection_name c, sc_run_id c))) in *.
  assert (StronglySorted (fun a b => sc_as_of_seq a < sc_as_of_seq b) old /\
    forall c', c' ∈ old -> sc_as_of_seq c' <= th_next_seq (mt_state t) - 1 /\
      sc_key c' = th_key (mt_state t) /\
      (sc_projection_name c', sc_run_id c') = (sc_projection_name c, sc_run_id c)) as [Ho1 Ho2].
  { unfold old. destruct (dget (mt_checkpoints t) _) as [cs|] eqn:E1; simpl.
    - by destruct (T11 _ _ E1).
    - split; [constructor|]. by intros ? ?%elem_of_nil. }
  destruct (keep_last_drop (max_projection_checkpoints_per_scope l) (old ++ [c])) as (k & -> & Hb).
  { unfold TraceLimits_valid in Hl. bool_prop. lia. }
  split; [| |done].
  - apply StronglySorted_drop, StronglySorted_snoc; [done|]. by apply below_newest.
  - intros c' Hin. apply subseteq_drop in Hin.
    apply elem_of_app in Hin as [Hin | ->%list_elem_of_singleton]; [by apply Ho2|done].
Qed.

(** ** The store *)

Lemma used_bytes_nonneg key t : thread_ok l key t -> 0 <= used_bytes t.
Proof.
  intros Ht. unfold used_bytes. rewrite (to_bytes _ _ _ Ht).
  assert (0 <= zsum ev_persisted_bytes (log t)).
  { apply zsum_nonneg. intros e [i Hi]%list_elem_of_lookup.
    pose proof (eo_size _ _ _ _ (to_event _ _ _ Ht i e Hi)). lia. }
  assert (0 <= active_sum w_remaining_byte_reserve t); [|lia].
  apply zsum_nonneg. intros w [run Hg]%(elem_of_dvals _ _ (to_writers _ _ _ Ht)).
  destruct (writer_reserves l _ _ _ Hl (to_writer _ _ _ Ht _ _ Hg)).
  destruct (w_active w); lia.
Qed.

Lemma held_by_active token fence w : held_by token fence w = true -> w_active w = true.
Proof. unfold held_by. intros H. by bool_prop. Qed.

Lemma store_remove key d : store_ok l d -> store_ok l (put_slot key None d).
Proof.
  intros Hs. pose proof (so_bytes _ _ Hs key.1). pose proof (so_threads _ _ Hs key.1).
  apply store_put; [done|done|..]; simpl; destruct (dget d key) as [t|] eqn:Et; simpl; try lia.
  pose proof (used_bytes_nonneg key t (so_thread _ _ Hs _ _ Et)). lia.
Qed.

(** Every step keeps the invariant. *)
Lemma thread_step_ok w change key now o' :
  store_ok l (threads w) -> ch_limits change = l ->
  thread_step w change key now (dget (threads w) key) o' ->
  store_ok l (put_slot key o' (threads w)).
Proof.
  intros Hs Hlim Hstep. pose proof (so_bytes _ _ Hs key.1) as Hb.
  pose proof (so_threads _ _ Hs key.1) as Hc.
  pose proof (so_thread _ _ Hs key) as Hok.
  remember (dget (threads w) key) as o eqn:Eo. symmetry in Eo.
  destruct Hstep as [o t run token lease _ _ _ Ho Hg He Hby Hns _|t wr lease Hg Ha _ _
    |t wr token lease _ _ Hg Ha _ _ _ _
    |t wr term cl events lease _ Hk Hg Hheld _ Hne Hall _ Hlife Hmake Hroom _ _
    |t wr _ _ Hg _ H0|t wr _ _ Hg Hheld _|t c _ _ Hkey Hseq Hnew|t].
  - rewrite Hlim in *. destruct o as [t0|].
    + subst t0. destruct (open_step_ok key run token lease t) as [Ht Hu]; auto.
      eapply store_update; [done|exact Eo|done|]. lia.
    + destruct Ho as [-> Hcount]. pose proof (new_thread_ok key (uuid_hex (uuids w))) as Hnew.
      destruct (open_step_ok key run token lease _ Hnew) as [Ht Hu]; [done..|].
      apply store_put; rewrite ?Eo; [done|by intros ? [= <-]| |]; simpl; [|lia].
      rewrite Hu. change (used_bytes (new_thread _)) with 0. lia.
  - destruct (lease_used (w_owner_token wr) (w_fence wr) lease wr t Hg Ha).
    eapply store_update; [done|exact Eo| |lia]. apply lease_step_ok; auto. by eapply Hok.
  - destruct (lease_used token (w_fence wr + 1) lease wr t Hg Ha).
    eapply store_update; [done|exact Eo| |lia]. apply lease_step_ok; auto.
    pose proof (wo_fence _ _ _ _ (to_writer _ _ _ (Hok t eq_refl) _ _ Hg)). lia.
  - rewrite Hlim in Hroom.
    destruct (append_step_ok key change wr t term cl events lease)
      as [Ht Hu]; auto.
    { by eapply held_by_active. }
    { destruct (ch_mandatory change); tauto. }
    eapply store_update; [done|exact Eo|done|]. destruct (ch_mandatory change); lia.
  - destruct (_ && _); [by apply store_remove|].
    destruct (discard_step_ok key wr t (Hok t eq_refl) Hg H0) as [Ht Hu].
    eapply store_update; [done|exact Eo|done|lia].
  - destruct (close_used key wr t (Hok t eq_refl) Hg) as [Hu1 Hu2].
    pose proof (Hok t eq_refl) as Ht.
    eapply store_update; [done|exact Eo| |lia]. apply put_writer_ok; [done| | |].
    + apply (closed_writer_ok (log t) wr). by apply Ht.
    + pose proof (to_events_bound _ _ _ Ht). lia.
    + pose proof (to_bytes_bound _ _ _ Ht). lia.
  - rewrite Hlim. eapply store_update; [done|exact Eo| |].
    + by apply checkpoint_step_ok; auto.
    + change (used_bytes (keep_checkpoint l c t)) with (used_bytes t). lia.
  - by apply store_remove.
Qed.

Lemma commit_ok change w r w' :
  store_ok l (threads w) -> ch_limits change = l -> commit_ledger_change change w = (r, w') ->
  store_ok l (threads w').
Proof.
  intros Hs Hlim Hc%commit_steps. destruct (target change) as [[tid run]|]; [|by subst w'].
  destruct Hc as [[->|(o' & Hstep & ->)] _]; [done|]. by eapply thread_step_ok.
Qed.
End steps.
