(* ===== verification/TraceSystem.v ===== *)
(** Tracing: the histories of an in-memory ledger whose clients share one set of
    limits, and what holds in all of them. *)
From S2P Require Import Prelude PyDict PySeq Contracts TraceModels TraceGraph TraceGraphFacts.
From S2P Require Import TraceLedger TraceMemory TraceSteps TraceFacts TraceInvariant.
From Stdlib Require Import Sorting.Sorted.

Section system.
Context {hash : ScopeHash} {json : TraceJson} {laws : TraceJsonLaws} {clock : TraceClock}.
Context (l : TraceLimits).

(** [DurableTraceStore.rebuild_trace_graph] between its reads and the backend's call:
    the pages of the log replayed, and the rows that come out. *)
Definition replayed_mutations (pages : list (list TraceEvent))
    : res trace_exn (list TraceGraphNodeMutation) :=
  match for_each apply_graph_events pages [] with
  | (Ok _, g) => graph_revision_mutations (dvals g)
  | (Raise e, _) => Raise e
  end.

(** The stored thread of a generation, if there is one. *)
Definition stored (w : World) (key : TraceThreadKey) (t : MemoryThread) : Prop :=
  dget (threads w) (thread_key key) = Some t /\ th_key (mt_state t) = key.

(** One call of the backend, its changes among the allowed ones - or a client that
    draws uuids of its own. *)
Inductive call_among (allowed : TraceLedgerChange -> Prop) (w w' : World) : Prop :=
| call_commit change r :
    ch_limits change = l -> allowed change -> commit_ledger_change change w = (r, w') ->
    call_among allowed w w'
| call_state request r :
    load_ledger_state request w = (r, w') -> call_among allowed w w'
| call_page request r :
    read_event_page request w = (r, w') -> call_among allowed w w'
| call_checkpoint request r :
    load_projection_checkpoint request w = (r, w') -> call_among allowed w w'
| call_rebuild key as_of pages ms r :
    (forall t, stored w key t -> th_next_seq (mt_state t) - 1 = as_of -> concat pages = log t) ->
    replayed_mutations pages = Ok ms ->
    rebuild_graph_index key as_of ms w = (r, w') -> call_among allowed w w'
| call_draw :
    threads w' = threads w -> (uuids w <= uuids w')%nat -> (readings w <= readings w')%nat ->
    call_among allowed w w'.

Definition call : World -> World -> Prop := call_among (fun _ => True).

Lemma call_any allowed w w' : call_among allowed w w' -> call w w'.
Proof.
  intros [change r Hlim _ Hc|q r Hq|q r Hq|q r Hq|key as_of pages ms r Hp Hms Hr|Et Eu].
  - by eapply call_commit.
  - by eapply call_state.
  - by eapply call_page.
  - by eapply call_checkpoint.
  - by eapply call_rebuild.
  - by eapply call_draw.
Qed.

Definition calls : World -> World -> Prop := rtc call.

(** What can come out of an empty store. *)
Definition reachable (w : World) : Prop := exists w0, threads w0 = [] /\ calls w0 w.

(** ** Reads *)

Lemma exact_thread_stored key w r w' :
  exact_thread key w = (r, w') ->
  w' = w /\ match r with Ok t => stored w key t | Raise e => e = TraceThreadNotFound end.
Proof.
  unfold exact_thread, find_thread. destruct (dget (threads w) _) as [t|] eqn:Et.
  - case_decide; intros [= <- <-]; (split; [done|]); done.
  - by intros [= <- <-].
Qed.

Lemma page_call request w r w' :
  read_event_page request w = (r, w') -> threads w' = threads w /\ uuids w' = uuids w.
Proof.
  unfold read_event_page, bind, next_now, ret.
  destruct (exact_thread (pr_key request) w) as [[t|e] w1] eqn:Ex;
    apply exact_thread_stored in Ex as [-> _]; by intros [= <- <-].
Qed.

Lemma checkpoint_call request w r w' :
  load_projection_checkpoint request w = (r, w') -> w' = w.
Proof.
  unfold load_projection_checkpoint, bind, ret.
  destruct (exact_thread (cr_key request) w) as [[t|e] w1] eqn:Ex;
    apply exact_thread_stored in Ex as [-> _]; by intros [= <- <-].
Qed.

(** Rebuilding replaces one index, or does nothing. *)
Lemma rebuild_call key as_of ms w r w' :
  rebuild_graph_index key as_of ms w = (r, w') ->
  uuids w' = uuids w /\
  (threads w' = threads w \/
   exists t g se, stored w key t /\ th_next_seq (mt_state t) - 1 = as_of /\
     for_each (apply_graph_node_mutation se) ms [] = (Ok tt, g) /\
     threads w' = dset (threads w) (thread_key key) (set_graph g t)).
Proof.
  unfold rebuild_graph_index, bind, raise_if, raise, ret.
  destruct (exact_thread key w) as [[t|e] w1] eqn:Ex;
    apply exact_thread_stored in Ex as [-> Hs]; [|by intros [= <- <-]; auto].
  destruct (_ =? as_of) eqn:Ea; simpl; [|by intros [= <- <-]; auto].
  destruct (for_each (apply_graph_node_mutation _) ms []) as [[[]|e] g] eqn:Ef; [|by intros [= <- <-]; auto].
  unfold on_thread, modify. destruct Hs as [Hs Hk]. rewrite Hs. intros [= <- <-].
  split; [done|]. right. exists t, g. eexists. split; [by split|].
  split; [lia|]. by split; [exact Ef|].
Qed.

(** ** The invariant *)

(** The index of a thread is the replay of its log, when the replay succeeds. *)
Definition replays (t : MemoryThread) : Prop :=
  (apply_graph_events (log t) []).1 = Ok tt ->
  mt_graph_nodes t = (apply_graph_events (log t) []).2.

Record system_ok (w : World) : Prop := {
  sy_store : store_ok l (threads w);
  sy_graph key t : dget (threads w) key = Some t -> graph_ok (mt_graph_nodes t);
  sy_replays key t : dget (threads w) key = Some t -> replays t;
  sy_generation key t : dget (threads w) key = Some t ->
    exists i, (i < uuids w)%nat /\ k_generation (th_key (mt_state t)) = uuid_hex i
}.

Lemma log_distinct key t : thread_ok l key t -> distinct (log t).
Proof.
  intros Ht. split.
  - apply NoDup_alt. intros i j s Hi Hj. rewrite list_lookup_fmap in Hi, Hj.
    apply fmap_Some in Hi as (e1 & He1 & ->), Hj as (e2 & He2 & Hs).
    rewrite (eo_seq _ _ _ _ (to_event _ _ _ Ht _ _ He1)) in Hs.
    rewrite (eo_seq _ _ _ _ (to_event _ _ _ Ht _ _ He2)) in Hs. lia.
  - intros e [i Hi]%list_elem_of_lookup. rewrite (eo_seq _ _ _ _ (to_event _ _ _ Ht _ _ Hi)). lia.
Qed.

(** A new prefix of the log replays, if the whole log does. *)
Lemma replays_app t events g :
  distinct (log t ++ events) -> replays t ->
  apply_graph_events (log t ++ events) [] = (Ok tt, g) ->
  apply_graph_events events (mt_graph_nodes t) = (Ok tt, g).
Proof.
  intros Hd Ht H. rewrite apply_events_app in H by done. unfold bind in H. unfold replays in Ht.
  destruct (apply_graph_events (log t) []) as [[[]|e] g0]; [|done]. by rewrite (Ht eq_refl).
Qed.

(** Steps other than an append keep the log and the index. *)
Lemma thread_step_graph w change key now o' t' :
  thread_step w change key now (dget (threads w) key) o' -> o' = Some t' ->
  (log t' = [] /\ mt_graph_nodes t' = [] /\ ch_kind change = OpenWriter /\
   dget (threads w) key = None /\ k_generation (th_key (mt_state t')) = uuid_hex (uuids w)) \/
  exists t, dget (threads w) key = Some t /\ th_key (mt_state t') = th_key (mt_state t) /\
    ((log t' = log t /\ mt_graph_nodes t' = mt_graph_nodes t) \/
     exists events, log t' = log t ++ events /\
       mt_graph_nodes t' = (apply_graph_events events (mt_graph_nodes t)).2 /\
       exists wr, dget (mt_writers t) (w_run_id wr) = Some wr /\
         w_closed_committed wr = false /\
         forall e, e ∈ events -> f_run_id (ev_fact e) = w_run_id wr).
Proof.
  intros Hstep. remember (dget (threads w) key) as o eqn:Eo.
  destruct Hstep as [o t run token lease Hk _ _ Ho _ _ _ _ _|t wr lease _ _ _ _
    |t wr token lease _ _ _ _ _ _ _ _
    |t wr term cl events lease _ _ Hg _ _ _ _ _ Hlife Hmake _ _ _
    |t wr _ _ _ _ _|t wr _ _ _ _ _|t c _ _ _ _ _|t]; intros E1; simplify_eq.
  - destruct (dget (threads w) key) as [t0|]; [subst t0; right; eauto 10|].
    destruct Ho as [-> _]. left. done.
  - right. eauto 10.
  - right. eauto 10.
  - right. eexists. split; [done|]. split; [done|]. right. exists events.
    split; [apply log_appended; by eapply make_events_length|]. split; [done|]. exists wr.
    split; [done|]. split; [by eapply check_lifecycle_open|].
    intros e. by eapply make_events_run.
  - destruct (_ && _); simplify_eq. right. eauto 10.
  - right. eauto 10.
  - right. eauto 10.
Qed.

Context (Hl : TraceLimits_valid l = true).

Lemma commit_system change w r w' :
  system_ok w -> ch_limits change = l -> commit_ledger_change change w = (r, w') -> system_ok w'.
Proof.
  intros [S1 S2 S3 S4] Hlim Hc. pose proof (commit_ok l Hl change w r w' S1 Hlim Hc) as Hok.
  apply commit_steps in Hc. destruct (target change) as [[tid run]|]; [|by subst w'].
  set (key := (ch_namespace change, tid)) in *. clearbody key. destruct Hc as [Hst Hu].
  assert (uuids w <= uuids w')%nat as Hmono by (rewrite Hu; destruct (_ && _); lia).
  destruct Hst as [E1|(o' & Hstep & E1)].
  { split; [done|rewrite E1..]; [done|done|].
    intros k t Ht. destruct (S4 k t Ht) as (i & ? & ?). exists i. split; [lia|done]. }
  assert (forall k t', dget (threads w') k = Some t' ->
    dget (threads w) k = Some t' \/ (k = key /\ o' = Some t')) as Hcases.
  { intros k t'. rewrite E1. unfold put_slot.
    destruct o' as [t0|]; rewrite ?dget_dset, ?dget_ddel; destruct (decide (key = k)).
    - intros [= ->]. by right.
    - by left.
    - done.
    - by left. }
  split; [done|..]; intros k t' Ht'; destruct (Hcases k t' Ht') as [Hold|[-> ->]]; eauto.
  - destruct (thread_step_graph _ _ _ _ _ t' Hstep eq_refl) as [(_ & -> & _)|(t & Ht & _ & Hg)].
    + apply graph_ok_nil.
    + destruct Hg as [[_ ->]|(events & _ & -> & _)]; [by eapply S2|]. by eapply apply_events_ok, S2.
  - destruct (thread_step_graph _ _ _ _ _ t' Hstep eq_refl) as [(El & Eg & _)|(t & Ht & _ & Hg)].
    + intros _. by rewrite Eg, El.
    + destruct Hg as [[El Eg]|(events & El & Eg & _)].
      * unfold replays. rewrite El, Eg. by eapply S3.
      * intros Hr. pose proof (log_distinct _ _ (so_thread _ _ Hok _ _ Ht')) as Hd.
        rewrite El in Hd, Hr |- *.
        destruct (apply_graph_events (log t ++ events) []) as [r0 g] eqn:Ea. simpl in Hr. subst r0.
        pose proof (replays_app t events g Hd (S3 _ _ Ht) Ea) as Hap. rewrite Eg, Hap. done.
  - destruct (S4 k t' Hold) as (i & ? & ?). exists i. split; [lia|done].
  - destruct (thread_step_graph _ _ _ _ _ t' Hstep eq_refl) as
      [(_ & _ & Hk & Hn & Hgen)|(t & Ht & Hkey & _)].
    + exists (uuids w). split; [|done]. rewrite Hu, Hk, Hn. simpl. lia.
    + rewrite Hkey. destruct (S4 _ _ Ht) as (i & ? & ?). exists i. split; [lia|done].
Qed.

Lemma same_threads_system w w' :
  system_ok w -> threads w' = threads w -> (uuids w <= uuids w')%nat -> system_ok w'.
Proof.
  intros [S1 S2 S3 S4] E1 E2. split; rewrite ?E1; try done.
  intros key t Ht. destruct (S4 key t Ht) as (i & ? & ?). exists i. split; [lia|done].
Qed.

Lemma set_graph_ok key g t : thread_ok l key t -> thread_ok l key (set_graph g t).
Proof.
  intros [T1 T2 T3 T4 T5 T6 T7 T8 T9 T10 T11]. split; try done.
  intros scope cs Hc. destruct (T11 scope cs Hc). by split.
Qed.

(** The graph a rebuild puts in place is the replay of the log. *)
Lemma replayed_graph t pages ms :
  distinct (concat pages) -> concat pages = log t -> replayed_mutations pages = Ok ms ->
  exists g, apply_graph_events (log t) [] = (Ok tt, g) /\ graph_ok g /\
    forall se, for_each (apply_graph_node_mutation se) ms [] = (Ok tt, g).
Proof.
  intros Hd Hp. unfold replayed_mutations. rewrite apply_pages by done. rewrite Hp.
  pose proof (apply_events_ok (log t) [] graph_ok_nil) as Hok.
  pose proof (apply_events_settled (log t) [] graph_ok_nil) as Hse.
  destruct (apply_graph_events (log t) []) as [[[]|e] g]; [|done]. simpl in *.
  intros Hms. exists g. split; [done|]. split; [done|]. intros se.
  destruct (rebuild_from_rows se g Hok) as [H1 H2]; [by apply Hse|].
  rewrite H1 in Hms. by injection Hms as <-.
Qed.

Lemma rebuild_system key as_of pages ms w r w' :
  system_ok w ->
  (forall t, stored w key t -> th_next_seq (mt_state t) - 1 = as_of -> concat pages = log t) ->
  replayed_mutations pages = Ok ms -> rebuild_graph_index key as_of ms w = (r, w') ->
  system_ok w'.
Proof.
  intros Hs Hp Hms Hr. destruct (rebuild_call _ _ _ _ _ _ Hr) as
    [Hu [E1|(t & g & se & Hst & Has & Hg & E1)]]; [apply (same_threads_system w); [done..|lia]|].
  destruct Hst as [Hget Hkey]. destruct Hs as [S1 S2 S3 S4].
  pose proof (so_thread _ _ S1 _ _ Hget) as Ht.
  pose proof (Hp t (conj Hget Hkey) Has) as Hlog.
  assert (distinct (concat pages)) as Hd by (rewrite Hlog; by eapply log_distinct).
  destruct (replayed_graph t pages ms Hd Hlog Hms) as (g' & Hrep & Hg' & Hall).
  rewrite Hall in Hg. injection Hg as <-.
  split.
  - rewrite E1. change (store_ok l (put_slot (thread_key key) (Some (set_graph g' t)) (threads w))).
    eapply store_update; [done|exact Hget|by apply set_graph_ok|].
    change (used_bytes (set_graph g' t)) with (used_bytes t).
    pose proof (so_bytes _ _ S1 (thread_key key).1). lia.
  - intros k t'. rewrite E1, dget_dset. case_decide; intros; simplify_eq; [done|eauto].
  - intros k t'. rewrite E1, dget_dset. case_decide; intros; simplify_eq; [|eauto].
    intros _. change (log (set_graph g' t)) with (log t). by rewrite Hrep.
  - intros k t'. rewrite E1, Hu, dget_dset. case_decide; intros; simplify_eq; [|eauto].
    by destruct (S4 _ _ Hget) as (i & ? & ?); exists i.
Qed.

Lemma call_system w w' : system_ok w -> call w w' -> system_ok w'.
Proof.
  intros Hs [change r Hlim _ Hc|q r Hq|q r Hq|q r Hq|key as_of pages ms r Hp Hms Hr|Et Eu].
  - by eapply commit_system.
  - injection Hq as _ <-. by apply (same_threads_system w).
  - apply page_call in Hq as [? ?]. apply (same_threads_system w); [done..|lia].
  - apply checkpoint_call in Hq as ->. done.
  - by eapply rebuild_system.
  - by apply (same_threads_system w).
Qed.

Lemma calls_system w w' : system_ok w -> calls w w' -> system_ok w'.
Proof. intros Hs Hc. revert Hs. induction Hc; eauto using call_system. Qed.

Lemma empty_system w : threads w = [] -> system_ok w.
Proof.
  intros E1. unfold TraceLimits_valid in Hl. bool_prop. split; rewrite E1; try done.
  split; [apply dwf_nil|done|intros ns..].
  - change (namespace_bytes ns []) with 0. lia.
  - change (namespace_threads ns []) with 0. lia.
Qed.

Lemma reachable_system w : reachable w -> system_ok w.
Proof. intros (w0 & E1 & Hc). eapply calls_system; [by apply empty_system|done]. Qed.

(** ** Histories without a refused batch *)

(** A call, which leaves the threads alone when it is a commit that raises. *)
Inductive clean_call (w w' : World) : Prop :=
| clean_commit change r :
    ch_limits change = l -> commit_ledger_change change w = (r, w') ->
    (forall e, r = Raise e -> threads w' = threads w) -> clean_call w w'
| clean_other : call_among (fun _ => False) w w' -> clean_call w w'.

Definition cleanly_reachable (w : World) : Prop :=
  exists w0, threads w0 = [] /\ rtc clean_call w0 w.

Lemma clean_call_any w w' : clean_call w w' -> call w w'.
Proof. intros [change r Hlim Hc _|Hc]; [by eapply call_commit|by eapply call_any]. Qed.

(** The log can be replayed, and the index is what comes out. *)
Definition indexed (t : MemoryThread) : Prop :=
  apply_graph_events (log t) [] = (Ok tt, mt_graph_nodes t).

(** An effect that is applied has added its events to the log and to the index. *)
Definition extends (events : list TraceEvent) (t t' : MemoryThread) : Prop :=
  log t' = log t ++ events /\
  apply_graph_events events (mt_graph_nodes t) = (Ok tt, mt_graph_nodes t').

Lemma zip_log (events : list TraceEvent) (drafts : list TraceStoredFact) :
  length events = length drafts ->
  map me_validated_event (zip_with memory_stored_event events drafts) = events.
Proof.
  revert drafts. induction events as [|e events IH]; intros [|d ds]; simpl; try done.
  intros [= H]. by rewrite IH.
Qed.

Lemma apply_to_thread_extends change eff t t' :
  apply_to_thread change eff t = (Ok tt, t') -> extends (ef_validated_events eff) t t'.
Proof.
  unfold apply_to_thread, bind, modify, on_graph.
  set (t1 := match ef_remove_writer_run_id eff with Some r => _ | None => t end).
  set (t2 := match ef_writer eff with Some w => _ | None => t1 end).
  assert (mt_events t2 = mt_events t /\ mt_graph_nodes t2 = mt_graph_nodes t) as [E1 E2].
  { unfold t2, t1. by destruct (ef_writer eff), (ef_remove_writer_run_id eff). }
  assert (forall t3, match ef_validated_events eff with
      | [] => ret tt | events => extend_events events (ch_facts change) end t2 = (Ok tt, t3) ->
    log t3 = log t ++ ef_validated_events eff /\ mt_graph_nodes t3 = mt_graph_nodes t) as Hext.
  { intros t3. unfold log. rewrite <-E1, <-E2. destruct (ef_validated_events eff) as [|e es] eqn:Ee.
    - intros [= <-]. by rewrite app_nil_r.
    - unfold extend_events, bind, modify, raise_if. case_bool_decide as Hlen; [|done].
      injection 1 as <-. unfold set_events. cbn [mt_events mt_graph_nodes].
      split; [|done]. rewrite map_app. f_equal. by apply (zip_log (e :: es)). }
  match goal with |- (let (_, _) := ?m in _) = _ -> _ => destruct m as [[[]|] t3]; [|done] end.
  destruct (Hext t3 eq_refl) as [Hlog Hg]. rewrite Hg.
  destruct (apply_graph_events (ef_validated_events eff) (mt_graph_nodes t)) as [[[]|] g] eqn:Ea;
    [|done].
  intros [= <-]. unfold extends. rewrite Ea. by destruct (ef_checkpoint eff).
Qed.

Definition extended (w w' : World) : Prop :=
  forall key t', dget (threads w') key = Some t' -> exists t events,
    (dget (threads w) key = Some t \/ (log t = [] /\ mt_graph_nodes t = [])) /\
    extends events t t'.

Lemma extends_nil t t' :
  log t' = log t -> mt_graph_nodes t' = mt_graph_nodes t -> extends [] t t'.
Proof. unfold extends. rewrite app_nil_r. by intros -> ->. Qed.

Lemma extended_same w w' : threads w' = threads w -> extended w w'.
Proof.
  intros E1 key t'. rewrite E1. intros Ht. exists t', []. split; [by left|by apply extends_nil].
Qed.

Lemma apply_effect_extended change eff w w' :
  apply_effect change eff w = (Ok tt, w') -> extended w w'.
Proof.
  unfold apply_effect. set (k := or_else _ _). destruct (_ || _).
  { intros [= <-] key t' Ht. simpl in Ht. exists t', []. split; [|by apply extends_nil]. left.
    destruct k; [|done]. rewrite dget_ddel in Ht. by case_decide. }
  unfold bind, modify. set (w1 := set_threads _ w).
  assert (forall key t', dget (threads w1) key = Some t' -> exists t,
    (dget (threads w) key = Some t \/ (log t = [] /\ mt_graph_nodes t = [])) /\
    log t' = log t /\ mt_graph_nodes t' = mt_graph_nodes t) as H1.
  { intros key t'. unfold w1. simpl. destruct (ef_thread eff) as [st|]; [|by eauto].
    unfold put_thread_state. rewrite dget_dset. case_decide as Ek; [|by eauto]. rewrite Ek.
    intros [= <-]. destruct (dget (threads w) key) as [t|]; [by exists t; auto|].
    exists (new_thread st). auto. }
  destruct k as [k|].
  - unfold on_thread. destruct (dget (threads w1) (thread_key k)) as [t1|] eqn:Et1.
    + destruct (apply_to_thread change eff t1) as [r t2] eqn:Ea. intros [= -> <-] key t' Ht.
      simpl in Ht. rewrite dget_dset in Ht. case_decide as Ek.
      * injection Ht as <-. subst key. destruct (H1 _ _ Et1) as (t & Hin & E1 & E2).
        exists t, (ef_validated_events eff). split; [done|].
        apply apply_to_thread_extends in Ea. unfold extends in *. by rewrite <-E1, <-E2.
      * destruct (H1 _ _ Ht) as (t & Hin & E1 & E2). exists t, []. split; [done|].
        by apply extends_nil.
    + intros [= <-] key t' Ht. destruct (H1 _ _ Ht) as (t & Hin & E1 & E2). exists t, [].
      split; [done|]. by apply extends_nil.
  - intros [= <-] key t' Ht. destruct (H1 _ _ Ht) as (t & Hin & E1 & E2). exists t, [].
    split; [done|]. by apply extends_nil.
Qed.

Lemma commit_extended change w res w' :
  commit_ledger_change change w = (Ok res, w') -> extended w w'.
Proof.
  rewrite commit_unfold. destruct (target change) as [[tid run]|]; [|done]. cbv zeta.
  destruct (resolve_ledger_change _ _ _) as [eff|]; [|done].
  destruct (apply_effect change eff _) as [[[]|] w1] eqn:Ha; [|done]. intros [= _ <-].
  by apply apply_effect_extended in Ha.
Qed.

Lemma extended_indexed w w' :
  (forall key t, dget (threads w) key = Some t -> indexed t) -> system_ok w' -> extended w w' ->
  forall key t, dget (threads w') key = Some t -> indexed t.
Proof.
  intros Hi Hs He key t' Ht'. destruct (He _ _ Ht') as (t & events & Hin & El & Ea).
  pose proof (log_distinct _ _ (so_thread _ _ (sy_store _ Hs) _ _ Ht')) as Hd.
  unfold indexed. rewrite El in Hd |- *. rewrite apply_events_app by done. unfold bind.
  assert (indexed t) as ->; [|done].
  destruct Hin as [?|[E1 E2]]; [by eapply Hi|]. unfold indexed. by rewrite E1, E2.
Qed.

Lemma rebuild_indexed w w' key as_of pages ms r :
  system_ok w -> (forall k t, dget (threads w) k = Some t -> indexed t) ->
  (forall t, stored w key t -> th_next_seq (mt_state t) - 1 = as_of -> concat pages = log t) ->
  replayed_mutations pages = Ok ms -> rebuild_graph_index key as_of ms w = (r, w') ->
  forall k t, dget (threads w') k = Some t -> indexed t.
Proof.
  intros Hs Hi Hp Hms Hr. destruct (rebuild_call _ _ _ _ _ _ Hr) as
    [_ [E1|(t & g & se & [Hget Hk] & Has & Hg & E1)]]; [by rewrite E1|].
  pose proof (log_distinct _ _ (so_thread _ _ (sy_store _ Hs) _ _ Hget)) as Hd.
  pose proof (Hp t (conj Hget Hk) Has) as Hlog. rewrite <-Hlog in Hd.
  destruct (replayed_graph t pages ms Hd Hlog Hms) as (g' & Hrep & _ & Hall).
  rewrite Hall in Hg. injection Hg as <-. intros k t'. rewrite E1, dget_dset.
  case_decide; [|by apply Hi]. by intros [= <-].
Qed.

Lemma clean_call_indexed w w' :
  system_ok w -> (forall key t, dget (threads w) key = Some t -> indexed t) -> clean_call w w' ->
  forall key t, dget (threads w') key = Some t -> indexed t.
Proof.
  intros Hs Hi Hc. pose proof (call_system w w' Hs (clean_call_any w w' Hc)) as Hs'.
  destruct Hc as [change r Hlim Hc Hsame|[change r Hlim [] _|q r Hq|q r Hq|q r Hq|key as_of pages ms r Hp Hms Hr|Et Eu]].
  - apply (extended_indexed w w'); [done..|].
    destruct r as [res|e]; [by eapply commit_extended|by apply extended_same, (Hsame e)].
  - injection Hq as _ <-. done.
  - apply page_call in Hq as [E1 _]. by rewrite E1.
  - by apply checkpoint_call in Hq as ->.
  - by eapply (rebuild_indexed w w' key as_of pages ms r).
  - by rewrite Et.
Qed.

Lemma cleanly_reachable_any w : cleanly_reachable w -> reachable w.
Proof.
  intros (w0 & E1 & Hc). exists w0. split; [done|]. clear E1. induction Hc as [|w1 w2 w3 Hc _ IH]; [done|].
  eapply rtc_l; [by apply clean_call_any|exact IH].
Qed.

Lemma cleanly_reachable_indexed w :
  cleanly_reachable w -> forall key t, dget (threads w) key = Some t -> indexed t.
Proof.
  intros (w0 & E1 & Hc). pose proof (empty_system w0 E1) as Hs.
  assert (forall key t, dget (threads w0) key = Some t -> indexed t) as Hi by by rewrite E1.
  clear E1. induction Hc as [|w1 w2 w3 Hc _ IH]; [done|].
  apply IH; [by eapply call_system, clean_call_any|by eapply clean_call_indexed].
Qed.
End system.

(** ** Reading: pages as parts of the log, and the newest checkpoint of a prefix *)

Lemma map_py_slice {A B} (f : A -> B) (l : list A) a b :
  map f (py_slice l a b) = py_slice (map f l) a b.
Proof.
  unfold py_slice, slice_bound. rewrite zlen_map, firstn_map, skipn_map. done.
Qed.

Section reads.
Context {hash : ScopeHash} {json : TraceJson} {laws : TraceJsonLaws} {clock : TraceClock}.
Context (l : TraceLimits).

(** The events after [after] and up to [as_of]. *)
Definition between (after as_of : Z) (events : list TraceEvent) : list TraceEvent :=
  List.filter (fun e => (after <? ev_trace_seq e) && (ev_trace_seq e <=? as_of)) events.

Lemma between_slice key t after as_of :
  thread_ok l key t -> 0 <= after -> 0 <= as_of ->
  between after as_of (log t) = py_slice (log t) after as_of.
Proof.
  intros Ht Ha Hb. symmetry. apply slice_numbered; [|done..].
  intros i e Hi. by apply (eo_seq _ _ _ _ (to_event _ _ _ Ht i e Hi)).
Qed.

(** A page forwards. *)
Lemma forward_records key t request :
  thread_ok l key t -> pr_direction request = Forward -> 0 <= pr_limit request ->
  0 <= default 0 (pr_after_seq request) ->
  0 <= default (th_next_seq (mt_state t) - 1) (pr_as_of_seq request) ->
  map me_validated_event (page_records t request) =
  take (Z.to_nat (pr_limit request))
    (between (default 0 (pr_after_seq request))
       (default (th_next_seq (mt_state t) - 1) (pr_as_of_seq request)) (log t)).
Proof.
  intros Ht Hd Hl Ha Hb. erewrite between_slice by done. unfold page_records. rewrite Hd.
  rewrite map_py_slice. fold (log t). pose proof (to_seq _ _ _ Ht) as Hseq.
  set (a := default 0 (pr_after_seq request)) in *.
  set (b := default _ (pr_as_of_seq request)) in *. set (n := pr_limit request) in *.
  set (tail := th_next_seq (mt_state t) - 1) in *. assert (tail = zlen (log t)) as Htail by lia.
  clearbody a b n tail. pose proof (zlen_nonneg (log t)) as Hpos.
  unfold py_slice, slice_bound.
  rewrite !(proj2 (Z.ltb_ge _ 0)) by lia.
  destruct (Z.le_gt_cases tail a) as [Hge|Hlt].
  - rewrite !drop_ge; [by destruct (Z.to_nat n)|..]; rewrite length_take; unfold zlen in *; lia.
  - replace (Z.min a tail) with a by lia. rewrite take_drop_commute, take_take. f_equal.
    destruct (Z.le_gt_cases tail (Z.min b (a + n))).
    + rewrite !take_ge; [done|unfold zlen in *; lia..].
    + f_equal. lia.
Qed.

(** A page backwards, from the event before [before]. *)
Lemma reverse_records key t request :
  thread_ok l key t -> pr_direction request = Reverse -> 0 <= pr_limit request ->
  let tail := th_next_seq (mt_state t) - 1 in
  let before := default (tail + 1) (pr_before_seq request) in
  1 <= before ->
  map me_validated_event (page_records t request) =
  if tail + 1 <? before then []
  else take (Z.to_nat (pr_limit request)) (rev (between 0 (before - 1) (log t))).
Proof.
  intros Ht Hd Hl tail before Hb. erewrite between_slice by (done || lia).
  unfold page_records. rewrite Hd. fold tail. fold before.
  destruct (Z.ltb_spec (tail + 1) before) as [|Hle]; [done|].
  rewrite map_rev, map_py_slice. fold (log t). pose proof (to_seq _ _ _ Ht) as Hseq.
  set (n := pr_limit request) in *. assert (tail = zlen (log t)) as Htail by (unfold tail; lia).
  clearbody tail before n. unfold py_slice, slice_bound.
  rewrite !(proj2 (Z.ltb_ge _ 0)) by lia. rewrite drop_0, firstn_rev. do 2 f_equal.
  rewrite length_take. unfold zlen in *. lia.
Qed.

(** ** Checkpoints *)

Lemma find_newest {A} (f : A -> bool) (cs : list A) c :
  newest cs = Some c -> f c = true -> find f (rev cs) = Some c.
Proof.
  unfold newest. intros H Hf. apply last_Some in H as [cs' ->].
  rewrite rev_app_distr. simpl. by rewrite Hf.
Qed.

Lemma newest_kept {A} n (cs : list A) c : 0 < n -> newest (keep_last n (cs ++ [c])) = Some c.
Proof.
  intros Hn. unfold newest, keep_last. rewrite (proj2 (Z.eqb_neq n 0)) by lia.
  unfold slice_bound. replace (- n <? 0) with true by lia.
  rewrite drop_app_le; [by rewrite last_snoc|]. rewrite zlen_app. unfold zlen. simpl. lia.
Qed.

(** The checkpoints of a scope. *)
Definition scope_checkpoints (t : MemoryThread) (request : TraceCheckpointRequest)
    : list StoredTraceCheckpoint :=
  default [] (dget (mt_checkpoints t) (cr_projection_name request, cr_run_id request)).

Lemma load_stored w t request :
  stored w (cr_key request) t ->
  load_projection_checkpoint request w =
  (Ok (find (fun c => sc_as_of_seq c <=? cr_as_of_seq request)
         (rev (scope_checkpoints t request))), w).
Proof.
  intros [Hget Hkey]. unfold load_projection_checkpoint, bind, exact_thread, find_thread.
  change (k_namespace (cr_key request), k_thread_id (cr_key request))
    with (thread_key (cr_key request)). rewrite Hget, decide_True by done. done.
Qed.

(** What a load finds is the newest checkpoint of the prefix. *)
Lemma find_is_newest (cs : list StoredTraceCheckpoint) s o :
  StronglySorted (fun a b => sc_as_of_seq a < sc_as_of_seq b) cs ->
  find (fun c => sc_as_of_seq c <=? s) (rev cs) = o ->
  match o with
  | Some c => c ∈ cs /\ sc_as_of_seq c <= s /\
      forall c', c' ∈ cs -> sc_as_of_seq c' <= s -> sc_as_of_seq c' <= sc_as_of_seq c
  | None => forall c', c' ∈ cs -> s < sc_as_of_seq c'
  end.
Proof.
  intros Hs <-. induction cs as [|c0 cs IH] using rev_ind;
    [by intros c' ?%elem_of_nil|].
  assert (StronglySorted (fun a b => sc_as_of_seq a < sc_as_of_seq b) cs /\
          forall c, c ∈ cs -> sc_as_of_seq c < sc_as_of_seq c0) as [Hs' Hlast].
  { clear IH. induction cs as [|c1 cs IH]; simpl in *; [by split; [constructor|intros ? ?%elem_of_nil]|].
    inversion_clear Hs as [|? ? Hs1 Hall]. destruct (IH Hs1) as [H1 H2].
    apply List.Forall_app in Hall as [Hall1 Hall2]. split; [by constructor|].
    intros c [->|Hc]%elem_of_cons; [by inversion Hall2|by apply H2]. }
  specialize (IH Hs'). rewrite rev_app_distr. simpl.
  destruct (Z.leb_spec (sc_as_of_seq c0) s) as [Hle|Hgt].
  - split; [apply elem_of_app; right; by apply list_elem_of_singleton|]. split; [done|].
    intros c' [Hc| ->%list_elem_of_singleton]%elem_of_app _; [|lia]. specialize (Hlast c' Hc). lia.
  - destruct (find _ (rev cs)) as [c|].
    + destruct IH as (H1 & H2 & H3). split; [apply elem_of_app; by left|]. split; [done|].
      intros c' [Hc| ->%list_elem_of_singleton]%elem_of_app Hle; [by apply H3|lia].
    + intros c' [Hc| ->%list_elem_of_singleton]%elem_of_app; [by apply IH|done].
Qed.
End reads.
