(* ===== verification/TraceHistory.v ===== *)
(** Tracing: what later calls may do to a generation - its log only grows, it does not
    come back once it is gone, its closed runs stay closed - and what they leave to
    the owner of a writer that was taken over. *)
From S2P Require Import Prelude PyDict PySeq Contracts TraceModels TraceGraph TraceGraphFacts.
From S2P Require Import TraceLedger TraceMemory TraceSteps TraceFacts TraceInvariant TraceSystem.

(** [uuid4().hex] does not repeat. *)
Class FreshUuids {clock : TraceClock} : Prop := {
  uuid_fresh i j : uuid_hex i = uuid_hex j -> i = j
}.

Section history.
Context {hash : ScopeHash} {json : TraceJson} {laws : TraceJsonLaws} {clock : TraceClock}.
Context {fresh : FreshUuids}.
Context (l : TraceLimits) (Hl : TraceLimits_valid l = true).

(** The generation was drawn before [w]. *)
Definition drawn_before (key : TraceThreadKey) (w : World) : Prop :=
  exists i, (i < uuids w)%nat /\ k_generation key = uuid_hex i.

(** A run is closed: its log holds the closing fact. *)
Definition run_closed (run : pystr) (t : MemoryThread) : Prop :=
  exists e, e ∈ run_log run (log t) /\ run_phase (ev_fact e) = Some RunClosed.

(** A thread of the same generation, later. *)
Definition continues (t t' : MemoryThread) : Prop :=
  exists more, log t' = log t ++ more /\
    forall run, run_closed run t -> run_log run more = [].

Lemma continues_refl t : continues t t.
Proof. exists []. split; [by rewrite app_nil_r|done]. Qed.

Lemma run_closed_app run t t' more :
  log t' = log t ++ more -> run_closed run t -> run_closed run t'.
Proof.
  intros El (e & He & Hp). exists e. split; [|done]. rewrite El, run_log_app.
  apply elem_of_app. by left.
Qed.

Lemma continues_trans t1 t2 t3 : continues t1 t2 -> continues t2 t3 -> continues t1 t3.
Proof.
  intros (m1 & E1 & H1) (m2 & E2 & H2). exists (m1 ++ m2).
  split; [by rewrite E2, E1, app_assoc|]. intros run Hr.
  rewrite run_log_app, (H1 run Hr). apply H2. by eapply run_closed_app.
Qed.

(** The log of a closed run says so, and so does its writer. *)
Lemma closed_writer_flag key t run wr :
  thread_ok l key t -> dget (mt_writers t) run = Some wr -> run_closed run t ->
  w_closed_committed wr = true.
Proof.
  intros Ht Hg (e & He & Hp). pose proof (to_writer _ _ _ Ht _ _ Hg) as Hw.
  destruct (wo_history _ _ _ _ Hw) as (before & after & Hfacts & Hord & Hend).
  assert (ev_fact e ∈ map ev_fact (run_log run (log t))) as Hin.
  { apply list_elem_of_In, in_map_iff. exists e. split; [done|]. by apply list_elem_of_In. }
  rewrite Hfacts in Hin. apply elem_of_app in Hin as [Hin|Hin].
  - apply list_elem_of_In in Hin. rewrite forallb_forall in Hord. apply Hord in Hin.
    unfold ordinary, terminal_or_closed in Hin. by rewrite Hp in Hin.
  - assert (Some RunClosed ∈ map run_phase after) as Hc.
    { apply list_elem_of_In, in_map_iff. exists (ev_fact e). split; [done|].
      by apply list_elem_of_In. }
    rewrite Hend in Hc. unfold ending_phases in Hc.
    destruct (w_closed_committed wr), (w_terminal_committed wr); simpl in *; [done..| |];
      set_solver.
Qed.

(** One call. *)
Lemma call_history w w' key t' :
  system_ok l w -> call l w w' -> drawn_before key w -> stored w' key t' ->
  exists t, stored w key t /\ continues t t'.
Proof.
  intros Hs Hc (i & Hi & Hgen) [Hget Hkey].
  assert (threads w' = threads w -> exists t, stored w key t /\ continues t t') as Hsame.
  { intros E1. exists t'. split; [|apply continues_refl]. split; [by rewrite <-E1|done]. }
  destruct Hc as [change r Hlim _ Hc|q r Hq|q r Hq|q r Hq|k as_of pages ms r Hp Hms Hr|Et Eu].
  - apply commit_steps in Hc. destruct (target change) as [[tid run]|]; [|subst w'; by apply Hsame].
    destruct Hc as [[E1|(o' & Hstep & E1)] _]; [by apply Hsame|].
    set (slot := (ch_namespace change, tid)) in *. clearbody slot.
    rewrite E1 in Hget. destruct (decide (slot = thread_key key)) as [->|Hne].
    2: { exists t'. split; [|apply continues_refl]. split; [|done]. unfold put_slot in Hget.
         destruct o'; by rewrite ?dget_dset_ne, ?dget_ddel_ne in Hget. }
    destruct o' as [t0|]; simpl in Hget; [|by rewrite dget_ddel_eq in Hget].
    rewrite dget_dset_eq in Hget. injection Hget as ->.
    destruct (thread_step_graph _ _ _ _ _ t' Hstep eq_refl) as [(_ & _ & _ & _ & Hnew)|(t & Ht & Ek & Hg)].
    + rewrite Hkey, Hgen in Hnew. apply uuid_fresh in Hnew. lia.
    + exists t. split; [split; [done|congruence]|].
      destruct Hg as [[El _]|(events & El & _ & wr & Hwr & Hopen & Hrun)].
      { exists []. split; [by rewrite app_nil_r|done]. }
      exists events. split; [done|]. intros run' Hclosed.
      apply (run_log_other (w_run_id wr)); [done|]. intros <-.
      pose proof (closed_writer_flag _ _ _ _ (so_thread _ _ (sy_store _ _ Hs) _ _ Ht) Hwr Hclosed).
      congruence.
  - injection Hq as _ <-. by apply Hsame.
  - apply page_call in Hq as [? _]. by apply Hsame.
  - apply checkpoint_call in Hq as ->. by apply Hsame.
  - destruct (rebuild_call _ _ _ _ _ _ Hr) as [_ [E1|(t & g & se & [Hst Hk] & _ & _ & E1)]];
      [by apply Hsame|].
    rewrite E1, dget_dset in Hget. destruct (decide (thread_key k = thread_key key)) as [Ek|].
    + injection Hget as <-. exists t. split; [|exists []; split; [by rewrite app_nil_r|done]].
      split; [by rewrite <-Ek|done].
    + exists t'. split; [by split|apply continues_refl].
  - by apply Hsame.
Qed.

Lemma call_uuids w w' : call l w w' -> (uuids w <= uuids w')%nat.
Proof.
  intros [change r Hlim _ Hc|q r Hq|q r Hq|q r Hq|k as_of pages ms r Hp Hms Hr|Et Eu].
  - apply commit_steps in Hc. destruct (target change) as [[tid run]|]; [|by subst w'].
    destruct Hc as [_ ->]. destruct (_ && _); lia.
  - injection Hq as _ <-. done.
  - apply page_call in Hq as [_ ->]. done.
  - apply checkpoint_call in Hq as ->. done.
  - destruct (rebuild_call _ _ _ _ _ _ Hr) as [-> _]. done.
  - done.
Qed.

(** Any number of calls: a generation that is stored afterwards was stored before. *)
Lemma calls_history w w' key t' :
  system_ok l w -> calls l w w' -> drawn_before key w -> stored w' key t' ->
  exists t, stored w key t /\ continues t t'.
Proof.
  intros Hs Hc. revert Hs. induction Hc as [w|w w1 w' Hc Hcs IH]; intros Hs Hd Ht.
  - exists t'. split; [done|apply continues_refl].
  - destruct (IH (call_system l Hl _ _ Hs Hc)) as (t1 & Ht1 & Hc1); [|done|].
    + destruct Hd as (i & Hi & Hg). exists i. split; [|done]. pose proof (call_uuids _ _ Hc). lia.
    + destruct (call_history _ _ _ _ Hs Hc Hd Ht1) as (t & Ht0 & Hc0). exists t.
      split; [done|]. by eapply continues_trans.
Qed.

(** ** A writer that was taken over *)

Section fencing.
Context (key : TraceThreadKey) (run token : pystr) (fence : Z).

(** The run's writer, if any, is not the one this token and fence belong to. *)
Definition superseded (w : World) : Prop :=
  forall t wr, stored w key t -> dget (mt_writers t) run = Some wr ->
    w_owner_token wr <> token \/ fence < w_fence wr.

(** Nobody opens the run with this token again. *)
Definition spares (change : TraceLedgerChange) : Prop :=
  ch_kind change = OpenWriter -> ch_owner_token change <> Some token.

(** How a step changes the writer of a run. *)
Lemma thread_step_writer w change slot now t' wr' :
  (forall key t, dget (threads w) key = Some t -> thread_ok l key t) ->
  thread_step w change slot now (dget (threads w) slot) (Some t') ->
  dget (mt_writers t') run = Some wr' -> spares change ->
  w_owner_token wr' <> token \/
  exists t wr, dget (threads w) slot = Some t /\ th_key (mt_state t') = th_key (mt_state t) /\
    dget (mt_writers t) run = Some wr /\ w_owner_token wr' = w_owner_token wr /\
    w_fence wr <= w_fence wr'.
Proof.
  intros Hok Hstep. remember (dget (threads w) slot) as o eqn:Eo.
  remember (Some t') as o' eqn:Eo'.
  assert (forall t k wr0, dget (dset (mt_writers t) k wr0) run = Some wr' ->
    (k = run /\ wr' = wr0) \/ dget (mt_writers t) run = Some wr') as Hset.
  { intros t k wr0. rewrite dget_dset. destruct (decide (k = run)); [|by right].
    intros [= ->]. by left. }
  destruct Hstep as [o t rn tk lease Hk Htk _ Ho Hnone _ _ _ _|t wr lease Hg _ _ _
    |t wr tk lease Hk Htk Hg _ _ _ _ _
    |t wr term cl events lease _ _ Hg _ _ _ _ _ _ _ _ _ _
    |t wr _ _ Hg _ _|t wr _ _ Hg _ _|t c _ _ _ _ _|t]; simplify_eq; intros Hw' Hsp.
  - apply Hset in Hw' as [[_ ->]|Hw']; [left; simpl; specialize (Hsp Hk); congruence|].
    destruct (dget (threads w) slot) as [t0|]; [subst t0|by destruct Ho as [-> _]].
    right. exists t, wr'. done.
  - right. exists t. apply Hset in Hw' as [[<- ->]|Hw']; [exists wr|exists wr']; done.
  - apply Hset in Hw' as [[_ ->]|Hw']; [left; simpl; specialize (Hsp Hk); congruence|].
    right. exists t, wr'. done.
  - right. exists t. apply Hset in Hw' as [[<- ->]|Hw']; [exists wr|exists wr']; done.
  - destruct (_ && _); simplify_eq. right. simpl in Hw'. rewrite dget_ddel in Hw'.
    destruct (decide (w_run_id wr = run)); [done|]. exists t, wr'. done.
  - right. exists t. apply Hset in Hw' as [[<- ->]|Hw']; [exists wr|exists wr']; done.
  - right. exists t, wr'. done.
Qed.

Lemma superseded_call w w' :
  system_ok l w -> superseded w -> call_among l spares w w' -> superseded w'.
Proof.
  intros Hs Hd Hc t' wr' [Hget Hkey] Hw'.
  assert (threads w' = threads w -> w_owner_token wr' <> token \/ fence < w_fence wr') as Hsame.
  { intros E1. eapply Hd; [|done]. split; [by rewrite <-E1|done]. }
  destruct Hc as [change r Hlim Hsp Hc|q r Hq|q r Hq|q r Hq|k as_of pages ms r Hp Hms Hr|Et Eu].
  - apply commit_steps in Hc. destruct (target change) as [[tid rn]|]; [|subst w'; by apply Hsame].
    destruct Hc as [[E1|(o' & Hstep & E1)] _]; [by apply Hsame|].
    set (slot := (ch_namespace change, tid)) in *. clearbody slot.
    rewrite E1 in Hget. destruct (decide (slot = thread_key key)) as [->|Hne].
    2: { eapply Hd; [split; [|done]|done]. unfold put_slot in Hget.
         destruct o'; by rewrite ?dget_dset_ne, ?dget_ddel_ne in Hget. }
    destruct o' as [t0|]; simpl in Hget; [|by rewrite dget_ddel_eq in Hget].
    rewrite dget_dset_eq in Hget. injection Hget as ->.
    destruct (thread_step_writer _ _ _ _ _ _ (so_thread _ _ (sy_store _ _ Hs)) Hstep Hw' Hsp)
      as [?|(t & wr & Ht & Ek & Hwr & Etok & Hf)]; [by left|].
    destruct (Hd t wr) as [?|?]; [split; [done|congruence]|done|left; congruence|right; lia].
  - injection Hq as _ <-. by apply Hsame.
  - apply page_call in Hq as [? _]. by apply Hsame.
  - apply checkpoint_call in Hq as ->. by apply Hsame.
  - destruct (rebuild_call _ _ _ _ _ _ Hr) as [_ [E1|(t & g & se & [Hst Hk] & _ & _ & E1)]];
      [by apply Hsame|].
    rewrite E1, dget_dset in Hget. destruct (decide (thread_key k = thread_key key)) as [Ek|].
    + injection Hget as <-. apply (Hd t); [split; [by rewrite <-Ek|done]|exact Hw'].
    + eapply Hd; [by split|done].
  - by apply Hsame.
Qed.

Lemma superseded_calls w w' :
  system_ok l w -> superseded w -> rtc (call_among l spares) w w' -> superseded w'.
Proof.
  intros Hs Hd Hc. revert Hs Hd. induction Hc as [|w w1 w' Hc _ IH]; intros Hs Hd; [done|].
  apply IH; [|by eapply superseded_call]. eapply call_system; [done|done|].
  by eapply call_any.
Qed.
End fencing.
End history.
