(* ===== verification/TraceFinal.v ===== *)
(** Tracing: what the end of a run needs - the append of a run's terminal facts
    succeeds whatever else has used the quotas up. *)
From S2P Require Import Prelude PyDict PySeq Contracts TraceModels TraceGraph TraceGraphFacts.
From S2P Require Import TraceLedger TraceMemory TraceSteps TraceFacts TraceInvariant TraceSystem.

(** ** The pure part *)

Lemma run_phase_terminal f p :
  run_phase f = Some p -> p = RunTerminal \/ p = RunClosed -> terminal_or_closed f = true.
Proof. unfold terminal_or_closed. by intros -> [-> | ->]. Qed.

(** The phases that may still come are accepted. *)
Lemma check_lifecycle_accepts facts phases terminal closed terminal' closed' :
  map run_phase facts = map Some phases -> phases <> [] -> (closed = true -> terminal = true) ->
  (closed' = true -> terminal' = true) ->
  ending_phases terminal' closed' = ending_phases terminal closed ++ phases ->
  forallb terminal_or_closed facts = true /\
  check_lifecycle true facts terminal closed = Ok (terminal', closed') /\
  closed = false /\ zlen facts = (if terminal then 0 else 1) + (if closed' then 1 else 0) -
    (if terminal' then 0 else 1).
Proof.
  intros Hmap Hne Hct Hct' Hend.
  assert (zlen facts = zlen phases) as Hlen.
  { apply (f_equal zlen) in Hmap. by rewrite !zlen_map in Hmap. }
  assert (forall p, p ∈ phases -> p = RunTerminal \/ p = RunClosed) as Hin.
  { intros p Hp. assert (p ∈ ending_phases terminal' closed') as Hp'
      by (rewrite Hend; apply elem_of_app; by right).
    unfold ending_phases in Hp'. destruct terminal', closed'; set_solver. }
  assert (forallb terminal_or_closed facts = true) as Hall.
  { rewrite forallb_forall. intros f Hf.
    assert (run_phase f ∈ map run_phase facts) as Hfm
      by (apply list_elem_of_In, in_map; done).
    rewrite Hmap in Hfm. apply list_elem_of_In, in_map_iff in Hfm as (p & Hp & Hpin).
    eapply run_phase_terminal; [by symmetry|]. apply Hin. by apply list_elem_of_In. }
  assert (omap run_phase facts = phases) as Hph.
  { destruct (run_phases facts Hall) as [E1 _]. rewrite Hmap in E1.
    by apply (inj (fmap Some)) in E1. }
  split; [done|]. rewrite Hlen. unfold check_lifecycle. rewrite Hph.
  clear Hph Hmap Hin Hall Hlen. unfold ending_phases in Hend.
  destruct terminal, closed, terminal', closed'; simpl in Hend;
    try (by specialize (Hct eq_refl)); try (by specialize (Hct' eq_refl));
    destruct phases as [|p1 [|p2 [|p3 phases]]]; simplify_eq/=; done.
Qed.

(** ** The append of a run's last facts *)

(** A draft that fits its thread and run, and whose event is not too large. *)
Record storable {json : TraceJson} (l : TraceLimits) (key : TraceThreadKey) (run : pystr) (seq : Z)
    (d : TraceStoredFact) : Prop := {
  sb_thread : identity_key (f_identity (d_fact d)) = thread_key key;
  sb_run : f_run_id (d_fact d) = run;
  sb_valid : TraceEvent_valid (raw_event (d_event_id d) seq (k_generation key) (d_fact d) 1) = true;
  sb_size e : make_event (d_event_id d) seq (k_generation key) (d_fact d) = Ok e ->
    ev_persisted_bytes e <= max_event_bytes l
}.

Lemma make_events_storable {json : TraceJson} {laws : TraceJsonLaws} change thread run seq drafts :
  (forall i d, drafts !! i = Some d ->
     storable (ch_limits change) (th_key thread) run (seq + Z.of_nat i) d) ->
  exists events, make_events change thread run seq drafts = Ok events.
Proof.
  revert seq. induction drafts as [|d drafts IH]; intros seq H; simpl; [eauto|].
  destruct (H 0%nat d eq_refl) as [H1 H2 H3 H4]. rewrite Z.add_0_r in H3, H4.
  unfold identity_key, thread_key in H1. injection H1 as H1a H1b.
  rewrite !bool_decide_eq_true_2 by done. simpl.
  destruct (make_event_size _ _ _ _ H3) as (n & Hm & _). specialize (H4 _ Hm). rewrite Hm. simpl.
  rewrite (proj2 (Z.ltb_ge _ _)) by exact H4. simpl.
  destruct (IH (seq + 1)) as [events ->]; [|simpl; eauto].
  intros i d' Hd. replace (seq + 1 + Z.of_nat i) with (seq + Z.of_nat (S i)) by lia. by apply H.
Qed.

(** An append of what a run has still to say. *)
Record final_append {json : TraceJson} {clock : TraceClock} (l : TraceLimits) (w : World)
    (key : TraceThreadKey) (t : MemoryThread) (wr : TraceLedgerWriterState)
    (change : TraceLedgerChange) : Prop := {
  fa_kind : ch_kind change = AppendEvents;
  fa_limits : ch_limits change = l;
  fa_identity : ch_identity change = None;
  fa_key : ch_key change = Some key;
  fa_namespace : ch_namespace change = k_namespace key;
  fa_run : ch_run_id change = Some (w_run_id wr);
  fa_checkpoint : ch_checkpoint change = None;
  fa_proven : ch_proven_events change = [];
  fa_mandatory : ch_mandatory change = true;
  fa_owner : held_by (ch_owner_token change) (ch_fence change) wr = true;
  fa_lease : ch_enforce_writer_lease change = true ->
    utc_now (readings w) < w_lease_expires_at wr /\
    utc_now (readings w) + writer_lease_seconds (ch_options change) <= datetime_max;
  fa_phases : exists phases terminal closed, phases <> [] /\ (closed = true -> terminal = true) /\
    map run_phase (map d_fact (ch_facts change)) = map Some phases /\
    ending_phases terminal closed =
    ending_phases (w_terminal_committed wr) (w_closed_committed wr) ++ phases;
  fa_root : existsb misplaced_run_fact (map d_fact (ch_facts change)) = false;
  fa_facts i d : ch_facts change !! i = Some d ->
    storable l key (w_run_id wr) (th_next_seq (mt_state t) + Z.of_nat i) d
}.

Section final.
Context {hash : ScopeHash} {json : TraceJson} {laws : TraceJsonLaws} {clock : TraceClock}.
Context (l : TraceLimits) (Hl : TraceLimits_valid l = true).
Context (w : World) (key : TraceThreadKey) (t : MemoryThread) (wr : TraceLedgerWriterState).
Context (change : TraceLedgerChange) (Hf : final_append l w key t wr change).
Context (Ht : stored w key t) (Hok : thread_ok l (thread_key key) t).
Context (Hw : dget (mt_writers t) (w_run_id wr) = Some wr).

Let st : TraceLedgerState := change_state w change (k_thread_id key) (Some (w_run_id wr)).

Lemma final_slot : (ch_namespace change, k_thread_id key) = thread_key key.
Proof. unfold thread_key. by rewrite (fa_namespace _ _ _ _ _ _ Hf). Qed.

Lemma final_target : target change = Some (k_thread_id key, Some (w_run_id wr)).
Proof.
  unfold target. by rewrite (fa_identity _ _ _ _ _ _ Hf), (fa_key _ _ _ _ _ _ Hf),
    (fa_run _ _ _ _ _ _ Hf).
Qed.

Lemma final_state : ls_thread st = Some (mt_state t) /\ ls_target_writer st = Some wr /\
  ls_observed_at st = utc_now (readings w).
Proof.
  unfold st, change_state. simpl. unfold find_thread. rewrite final_slot.
  destruct Ht as [-> _]. simpl. by rewrite Hw.
Qed.

Lemma final_scope : validate_change_scope change st = Ok tt.
Proof.
  destruct final_state as (E1 & E2 & _). destruct Ht as [_ Hkey].
  unfold validate_change_scope, named_threads, named_runs.
  rewrite E1, E2, (fa_identity _ _ _ _ _ _ Hf), (fa_key _ _ _ _ _ _ Hf),
    (fa_run _ _ _ _ _ _ Hf), (fa_checkpoint _ _ _ _ _ _ Hf), (fa_proven _ _ _ _ _ _ Hf),
    (fa_namespace _ _ _ _ _ _ Hf). simpl. rewrite Hkey, app_nil_r.
  rewrite !bool_decide_eq_true_2 by done. simpl.
  replace (forallb _ (map d_fact (ch_facts change))) with true; [done|]. symmetry.
  rewrite forallb_forall. intros f Hin. apply in_map_iff in Hin as (d & <- & Hd).
  apply list_elem_of_In, list_elem_of_lookup in Hd as [i Hi].
  destruct (fa_facts _ _ _ _ _ _ Hf i d Hi) as [H1 H2 _ _].
  unfold identity_key, thread_key in H1. injection H1 as H1a H1b.
  unfold fact_in_scope. rewrite H1a, H1b, H2. rewrite !bool_decide_eq_true_2; [done|..]; try done.
  by left.
Qed.

Lemma final_owned :
  owned_writer change st (ch_enforce_writer_lease change) = Ok (mt_state t, wr).
Proof.
  destruct final_state as (E1 & E2 & E3). destruct Ht as [_ Hkey]. unfold owned_writer.
  rewrite (fa_key _ _ _ _ _ _ Hf), (fa_run _ _ _ _ _ _ Hf). unfold require_exact_thread.
  rewrite E1, decide_True by done. cbn [rbind]. rewrite E2, bool_decide_eq_true_2 by done.
  cbn [negb rraise_if rbind]. rewrite (fa_owner _ _ _ _ _ _ Hf), E3. simpl.
  pose proof (fa_lease _ _ _ _ _ _ Hf) as Hlease.
  destruct (ch_enforce_writer_lease change); [|done]. simpl. destruct (Hlease eq_refl) as [? _].
  by replace (w_lease_expires_at wr <=? utc_now (readings w)) with false by lia.
Qed.

Lemma final_lease : exists lease, writer_lease_expiration change (ls_observed_at st) = Ok lease.
Proof.
  destruct final_state as (_ & _ & ->). unfold writer_lease_expiration.
  pose proof (fa_lease _ _ _ _ _ _ Hf) as Hlease.
  destruct (ch_enforce_writer_lease change); [|by eexists]. simpl.
  destruct (Hlease eq_refl) as [_ ?]. rewrite (proj2 (Z.ltb_ge _ _)) by lia. by eexists.
Qed.

(** The reducer accepts it. *)
Lemma final_resolves : exists eff events flags lease,
  resolve_append_events change st = Ok eff /\
  make_events change (mt_state t) (w_run_id wr) (th_next_seq (mt_state t)) (ch_facts change)
    = Ok events /\
  ef_result eff = commit_result AppendEvents key (Some (w_run_id wr)) None None events None /\
  ef_validated_events eff = events /\ Forall (fun e => run_fact (ev_fact e)) events /\
  (forall r w', apply_effect change eff (drawn w change st) = (r, w') ->
     threads w' = dset (threads w) (thread_key key)
       (appended change events (appended_writer true lease wr flags.1 flags.2 (zlen events)
          (zsum ev_persisted_bytes events)) t) /\
     r = (apply_graph_events events (mt_graph_nodes t)).1).
Proof.
  destruct final_state as (E1 & E2 & E3). destruct Ht as [Hget Hkey].
  destruct (fa_phases _ _ _ _ _ _ Hf) as (phases & term & cl & Hne & Hcl & Hmap & Hend).
  pose proof (to_writer _ _ _ Hok _ _ Hw) as Hwo.
  destruct (check_lifecycle_accepts _ _ _ _ _ _ Hmap Hne (wo_closed _ _ _ _ Hwo) Hcl Hend)
    as (Hall & Hlife & Hopen & Hlen).
  destruct (make_events_storable change (mt_state t) (w_run_id wr) (th_next_seq (mt_state t))
    (ch_facts change)) as [events Hmake].
  { intros i d Hd. rewrite (fa_limits _ _ _ _ _ _ Hf), Hkey. by apply (fa_facts _ _ _ _ _ _ Hf). }
  pose proof (make_events_bytes _ _ _ _ _ _ Hmake) as Hbytes.
  pose proof (make_events_facts _ _ _ _ _ _ Hmake) as Hfacts.
  rewrite (fa_limits _ _ _ _ _ _ Hf) in Hbytes.
  assert (zlen events = zlen (map d_fact (ch_facts change))) as Hn.
  { rewrite <-Hfacts. by rewrite zlen_map. }
  assert (Forall (fun e => run_fact (ev_fact e)) events) as Hrun.
  { apply Forall_forall. intros e He.
    assert (ev_fact e ∈ map ev_fact events) as Hin
      by (apply list_elem_of_In, in_map; by apply list_elem_of_In).
    rewrite Hfacts in Hin. rewrite forallb_forall in Hall.
    apply list_elem_of_In, Hall in Hin. unfold run_fact. unfold terminal_or_closed, run_phase in Hin.
    by destruct (f_body (ev_fact e)). }
  assert (check_quota change st (mt_state t) wr (zlen events) (zsum ev_persisted_bytes events)
          = Ok tt) as Hq.
  { unfold check_quota. rewrite (fa_mandatory _ _ _ _ _ _ Hf).
    destruct (wo_open _ _ _ _ Hwo) as [Hre Hrb];
      [by eapply held_by_active, (fa_owner _ _ _ _ _ _ Hf)|done|].
    pose proof Hl as Hv. unfold TraceLimits_valid in Hv. bool_prop.
    assert (zlen events <= w_remaining_event_reserve wr) as Hroom.
    { rewrite Hre, Hn, Hlen. destruct (w_terminal_committed wr), cl, term; lia. }
    rewrite (proj2 (Z.ltb_ge _ _)) by lia. rewrite (proj2 (Z.ltb_ge _ _)) by nia. done. }
  assert (ch_facts change <> []) as Hne'.
  { intros E0. rewrite E0 in Hmap. by destruct phases. }
  destruct final_lease as [lease Hlease]. eexists _, events, (term, cl), lease. split.
  { unfold resolve_append_events. rewrite (fa_proven _ _ _ _ _ _ Hf), final_owned.
    replace (match ch_facts change with [] => true | _ => false end) with false
      by (by destruct (ch_facts change)).
    cbn [bool_decide decide_rel negb rraise_if rbind].
    rewrite (fa_mandatory _ _ _ _ _ _ Hf), Hall, (fa_root _ _ _ _ _ _ Hf), Hlife.
    cbn [negb andb Bool.eqb rraise_if rbind]. rewrite Hmake. cbn [rbind].
    rewrite Hq. cbn [rbind]. rewrite Hlease. cbn [rbind]. rewrite (run_facts_mutations events Hrun). reflexivity. }
  split; [done|]. split; [by simpl; rewrite Hkey|]. split; [done|]. split; [done|].
  intros r w' Ha.
  set (wr' := appended_writer true lease wr term cl
                (zlen events) (zsum ev_persisted_bytes events)) in *.
  destruct (append_effect_thread change wr'
    (commit_result AppendEvents (th_key (mt_state t)) (Some (w_run_id wr)) None None events None)
    events (if ch_persist_canonical_event_records change
            then zip_with (stored_event (w_run_id wr)) events (ch_facts change) else [])
    [] 0 (zsum ev_persisted_bytes events)
    (w_remaining_byte_reserve wr' - w_remaining_byte_reserve wr) t) as (r0 & Happ & Hr0);
    [by eapply length_make_events|].
  erewrite (apply_effect_at change _ _ (thread_key key) (th_key (mt_state t))) in Ha;
    [|done|done|done|by rewrite Hkey|by intros s [= <-]; simpl; rewrite Hkey
     |by unfold effect_thread; simpl; rewrite Hget].
  rewrite Happ in Ha. injection Ha as <- <-. by rewrite Hr0.
Qed.

(** So the commit returns, and the facts are in the log. *)
Lemma final_commits : graph_ok (mt_graph_nodes t) ->
  exists res w' t', commit_ledger_change change w = (Ok res, w') /\ stored w' key t' /\
    log t' = log t ++ re_events res /\ map ev_fact (re_events res) = map d_fact (ch_facts change).
Proof.
  intros Hg. destruct final_resolves as (eff & events & flags & lease & Hr & Hmake & Hres & Hev & Hrun & Ha).
  rewrite commit_unfold, final_target. cbv zeta. fold st. unfold resolve_ledger_change.
  rewrite final_scope, (fa_kind _ _ _ _ _ _ Hf). cbn [rbind]. rewrite Hr.
  destruct (apply_effect change eff (drawn w change st)) as [r w'] eqn:Eap.
  destruct (Ha r w' eq_refl) as [Hth Hr'].
  pose proof (run_facts_apply events (mt_graph_nodes t) Hrun Hg) as Hok'. rewrite Hok' in Hr'.
  subst r. eexists _, w', _. split; [done|]. split; [split; [by rewrite Hth, dget_dset_eq|]|].
  - simpl. by destruct Ht.
  - rewrite Hres. simpl. split; [|by eapply make_events_facts].
    apply log_appended. by eapply length_make_events.
Qed.
End final.
