(* ===== verification/TraceExample.v ===== *)
(** Tracing: a concrete environment and a short history - a run opened, written to,
    taken over and ended - on which the theorems are instantiated. *)
From S2P Require Import Prelude PyDict PySeq Contracts TraceModels TraceGraph TraceGraphFacts.
From S2P Require Import TraceLedger TraceMemory TraceSteps TraceFacts TraceInvariant TraceSystem.
From S2P Require Import TraceHistory TraceFinal.
From Stdlib Require Import Strings.String.

(** ** The environment *)

#[export] Instance ex_hash : ScopeHash := { scope_hash ns := List.concat ns }.

(** An encoder whose text is 100 characters and the digits of the size. *)
#[export] Instance ex_json : TraceJson := {
  json_bytes e := 100 + digits (ev_persisted_bytes e);
  datetime_max := 1000000000000
}.

#[export] Instance ex_laws : TraceJsonLaws.
Proof.
  split; [|by intros; simpl; lia]. intros e. simpl. pose proof (digits_pos (ev_persisted_bytes e)).
  lia.
Qed.

(** A reading per millisecond; generations are single characters. *)
#[export] Instance ex_clock : TraceClock := {
  utc_now n := 1000 * Z.of_nat n;
  uuid_hex n := [100000 + Z.of_nat n]
}.

#[export] Instance ex_fresh : FreshUuids.
Proof. split. intros i j H. simpl in H. injection H as H. lia. Qed.

Definition ex_limits : TraceLimits :=
  {| max_event_bytes := 1024; max_thread_events := 16; max_thread_bytes := 65536;
     max_tracer_threads := 2; max_tracer_bytes := 65536;
     terminal_reserve_events_per_run := 2; terminal_reserve_bytes_per_run := 2048;
     follow_batch_size := 10; max_projection_checkpoints_per_scope := 2 |}.

Example ex_limits_valid : TraceLimits_valid ex_limits = true.
Proof. reflexivity. Qed.

(** Leases last one millisecond and a half. *)
Definition ex_options : TraceStoreOptions :=
  {| writer_lease_seconds := 1500; writer_heartbeat_interval_seconds := 500;
     follow_poll_seconds := 100; commit_retry_attempts := 3; commit_retry_delay_seconds := 10 |}.

(** ** Changes *)

Definition ex_run : pystr := u "r".
Definition ex_owner : pystr := u "A".
Definition ex_digest : pystr := u "d".
Definition ex_event_id : pystr := u "e1".

Definition ex_identity : RunIdentity :=
  {| i_namespace := u "n"; i_thread_id := u "t"; i_run_id := u "r" |}.

Definition ex_key : TraceThreadKey :=
  {| k_namespace := u "n"; k_thread_id := u "t"; k_generation := [100000] |}.

Definition ex_base (obs : String.string) : TraceFactBase :=
  {| b_source_observation_id := u obs; b_identity := ex_identity; b_source_clock := None;
     b_graph_namespace := []; b_parent_subagent_id := None; b_occurred_at := 7;
     b_monotonic_ns := 7 |}.

Definition ex_draft (id : String.string) (body : FactBody) : TraceStoredFact :=
  {| d_event_id := u id; d_fact := {| f_base := ex_base id; f_body := body |};
     d_canonical_payload := []; d_payload_digest := []; d_exact_byte_count := 0 |}.

(** An assistant message that starts, an interaction, and the end of the run. *)
Definition ex_message (id : String.string) (phase : MessagePhase) : FactBody :=
  Message {| mf_phase := phase; mf_message_id := u id; mf_source_message_id := None;
             mf_source := None; mf_role := RoleAssistant; mf_content := None;
             mf_fingerprint := None; mf_from_state_snapshot := false; mf_name := None;
             mf_tool_call_id := None |}.

Definition ex_interaction (id : String.string) : FactBody :=
  Interaction {| nf_phase := Opened; nf_interaction_id := u id;
                 nf_source_interaction_id := u id; nf_interaction_kind := u "approval";
                 nf_tool_call_ids := []; nf_status := InteractionPending; nf_payload := None |}.

Definition ex_end (phase : RunFactPhase) : FactBody :=
  Run {| rf_phase := phase; rf_input_kind := None; rf_parent_run_id := None;
         rf_outcome := Some OutcomeCancelled; rf_code := None; rf_error_type := None;
         rf_observer_name := None; rf_interrupt_ids := []; rf_input := None; rf_config := None;
         rf_failure_origin := false |}.

Definition ex_change (kind : TraceLedgerChangeKind) (token : String.string) (fence : option Z)
    (facts : list TraceStoredFact) (mandatory : bool) : TraceLedgerChange :=
  {| ch_kind := kind; ch_namespace := u "n"; ch_limits := ex_limits; ch_options := ex_options;
     ch_identity := if bool_decide (kind = OpenWriter) then Some ex_identity else None;
     ch_key := if bool_decide (kind = OpenWriter) then None else Some ex_key;
     ch_run_id := Some (u "r"); ch_owner_token := Some (u token); ch_fence := fence;
     ch_facts := facts; ch_mandatory := mandatory; ch_checkpoint := None;
     ch_canonical_checkpoint_state := None; ch_checkpoint_state_digest := None;
     ch_expected_checkpoint_as_of_seq := None; ch_proven_events := [];
     ch_proven_renewal := false; ch_enforce_writer_lease := true;
     ch_persist_canonical_event_records := false |}.

Definition ex_checkpoint : TraceProjectionCheckpoint :=
  {| pc_key := ex_key; pc_projection_name := u "p"; pc_run_id := None; pc_as_of_seq := 1;
     pc_state := JNull |}.

Definition ex_save : TraceLedgerChange :=
  {| ch_kind := SaveProjectionCheckpoint; ch_namespace := u "n"; ch_limits := ex_limits;
     ch_options := ex_options; ch_identity := None; ch_key := Some ex_key; ch_run_id := None;
     ch_owner_token := None; ch_fence := None; ch_facts := []; ch_mandatory := false;
     ch_checkpoint := Some ex_checkpoint; ch_canonical_checkpoint_state := Some [110];
     ch_checkpoint_state_digest := Some ex_digest; ch_expected_checkpoint_as_of_seq := None;
     ch_proven_events := []; ch_proven_renewal := false; ch_enforce_writer_lease := true;
     ch_persist_canonical_event_records := false |}.

Definition ex_fact : TraceSemanticFact := d_fact (ex_draft "e1" CallTracking).

(** ** The history *)

Definition ex_start : World := {| threads := []; readings := 0; uuids := 0 |}.

Definition after (change : TraceLedgerChange) (w : World) : World :=
  (commit_ledger_change change w).2.

(** Owner A opens the run and appends a message; when its lease has ended, owner B
    takes the run over. *)
Definition ex_opened : World := after (ex_change OpenWriter "A" None [] false) ex_start.
Definition ex_written : World :=
  after (ex_change AppendEvents "A" (Some 1) [ex_draft "e1" (ex_message "m" MsgStarted)] false)
    ex_opened.
Definition ex_query : TraceLedgerStateRequest :=
  {| lr_namespace := u "n"; lr_thread_id := u "t"; lr_generation := None; lr_run_id := None;
     lr_include_active_writers := false |}.
Definition ex_later : World := (load_ledger_state ex_query ex_written).2.
Definition ex_taken : World := after (ex_change OpenWriter "B" None [] false) ex_later.

(** What A still tries, and how B ends the run. *)
Definition ex_stale : TraceLedgerChange :=
  ex_change AppendEvents "A" (Some 1) [ex_draft "e2" (ex_message "m" MsgCompleted)] false.
Definition ex_final : TraceLedgerChange :=
  ex_change AppendEvents "B" (Some 2)
    [ex_draft "e3" (ex_end RunTerminal); ex_draft "e4" (ex_end RunClosed)] true.

Definition thread_of (w : World) : MemoryThread :=
  default (new_thread {| th_key := ex_key; th_next_seq := 1; th_persisted_bytes := 0 |})
    (dget (threads w) (u "n", u "t")).
Definition writer_of (w : World) : TraceLedgerWriterState :=
  default (new_writer [] [] 0 0 0) (dget (mt_writers (thread_of w)) (u "r")).

Lemma ex_call change w : ch_limits change = ex_limits -> call ex_limits w (after change w).
Proof.
  intros H. unfold after. destruct (commit_ledger_change change w) as [r w'] eqn:Hc.
  by eapply call_commit.
Qed.

Lemma ex_calls : calls ex_limits ex_start ex_taken.
Proof.
  eapply rtc_l; [by apply (ex_call (ex_change OpenWriter "A" None [] false))|].
  eapply rtc_l; [by apply (ex_call (ex_change AppendEvents "A" (Some 1)
    [ex_draft "e1" (ex_message "m" MsgStarted)] false))|].
  eapply rtc_l; [by apply (call_state _ _ _ ex_later ex_query (load_ledger_state ex_query ex_written).1)|].
  eapply rtc_l; [by apply (ex_call (ex_change OpenWriter "B" None [] false))|].
  apply rtc_refl.
Qed.

Lemma ex_reachable : reachable ex_limits ex_taken.
Proof. exists ex_start. split; [done|apply ex_calls]. Qed.

(** None of these commits raises. *)
Lemma ex_clean_call change w :
  ch_limits change = ex_limits ->
  match (commit_ledger_change change w).1 with Ok _ => True | Raise _ => False end ->
  clean_call ex_limits w (after change w).
Proof.
  intros H Hok. unfold after. destruct (commit_ledger_change change w) as [r w'] eqn:Hc.
  eapply clean_commit; [done|exact Hc|]. intros e ->. destruct Hok.
Qed.

Lemma ex_cleanly_reachable : cleanly_reachable ex_limits ex_taken.
Proof.
  exists ex_start. split; [done|].
  eapply rtc_l; [apply (ex_clean_call (ex_change OpenWriter "A" None [] false));
    [done|vm_compute; exact I]|].
  eapply rtc_l; [apply (ex_clean_call (ex_change AppendEvents "A" (Some 1)
    [ex_draft "e1" (ex_message "m" MsgStarted)] false)); [done|vm_compute; exact I]|].
  eapply rtc_l; [apply clean_other; by apply (call_state _ _ _ ex_later ex_query
    (load_ledger_state ex_query ex_written).1)|].
  eapply rtc_l; [apply (ex_clean_call (ex_change OpenWriter "B" None [] false));
    [done|vm_compute; exact I]|].
  apply rtc_refl.
Qed.

Lemma ex_stored : stored ex_taken ex_key (thread_of ex_taken).
Proof. by split; vm_compute. Qed.

Example ex_taken_over : w_fence (writer_of ex_taken) = 2 /\ zlen (log (thread_of ex_taken)) = 1.
Proof. by vm_compute. Qed.

Lemma ex_final_append :
  final_append ex_limits ex_taken ex_key (thread_of ex_taken) (writer_of ex_taken) ex_final.
Proof.
  split; try (by vm_compute).
  - exists [RunTerminal; RunClosed], true, true. by vm_compute.
  - intros i d Hd. destruct i as [|[|i]]; simpl in Hd; [| |done]; injection Hd as <-;
      (split; [by vm_compute..|]); intros e He; vm_compute in He; injection He as <-;
      by vm_compute.
Qed.

(** ** A conflict of the index

    An interaction and an assistant message under one identifier: the index refuses
    the message, after the thread, its writer and its log have taken it. *)
Definition ex_interacted : World :=
  after (ex_change AppendEvents "A" (Some 1) [ex_draft "e1" (ex_interaction "x")] false) ex_opened.
Definition ex_conflict : TraceLedgerChange :=
  ex_change AppendEvents "A" (Some 1) [ex_draft "e2" (ex_message "x" MsgStarted)] false.
