(* ===== verification/TraceProps.v ===== *)
(** Tracing: the ledger's theorems. *)
From S2P Require Import Prelude PyDict PySeq Contracts TraceModels TraceGraph TraceGraphFacts.
From S2P Require Import TraceLedger TraceMemory TraceSteps TraceFacts TraceInvariant TraceSystem.
From S2P Require Import TraceHistory TraceFinal TraceExample.

(** ** Lemmas *)

Section lemmas.
Context {hash : ScopeHash} {json : TraceJson} {laws : TraceJsonLaws} {clock : TraceClock}.

Lemma commit_raises change w r w' :
  (forall thread_id run eff, target change = Some (thread_id, run) ->
     validate_change_scope change (change_state w change thread_id run) = Ok tt ->
     resolve_ledger_change change (change_state w change thread_id run) (uuid_hex (uuids w))
       <> Ok eff) ->
  commit_ledger_change change w = (r, w') -> threads w' = threads w /\ exists e, r = Raise e.
Proof.
  rewrite commit_unfold. destruct (target change) as [[tid run]|]; [|intros _ [= <- <-]; eauto].
  intros H. cbv zeta.
  destruct (resolve_ledger_change change (change_state w change tid run) (uuid_hex (uuids w)))
    as [eff|e] eqn:Hr; [|intros [= <- <-]; eauto].
  exfalso. eapply H; [done| |exact Hr]. unfold resolve_ledger_change in Hr.
  by apply rbind_ok in Hr as ([] & ? & _).
Qed.

(** The state a change of a stored generation is resolved against. *)
Lemma key_target change key run :
  ch_identity change = None -> ch_key change = Some key -> ch_run_id change = run ->
  target change = Some (k_thread_id key, run).
Proof. unfold target. by intros -> -> ->. Qed.

Lemma stale_owned w change thread_id run key run_id token fence req x :
  target change = Some (thread_id, run) ->
  validate_change_scope change (change_state w change thread_id run) = Ok tt ->
  ch_key change = Some key -> ch_run_id change = Some run_id ->
  ch_owner_token change = Some token -> ch_fence change = Some fence ->
  superseded key run_id token fence w ->
  owned_writer change (change_state w change thread_id run) req <> Ok x.
Proof.
  intros Ht Hv Hk Hr Htok Hf Hd. destruct x as [thread wr]. intros Ho.
  assert (w_run_id wr = run_id) as Hrun.
  { unfold owned_writer in Ho. rewrite Hk, Hr in Ho. apply rbind_ok in Ho as (th & _ & Ho).
    destruct (ls_target_writer _) as [wr'|]; [|done]. res_inv. injection Ho as _ <-. by bool_prop. }
  apply owned_writer_spec in Ho as (t & Hget & _ & Hkey & Hw & Hheld & _); [|done|done].
  rewrite Hk in Hkey. injection Hkey as Hkey.
  pose proof (key_scope w change thread_id run Ht Hv key Hk) as Hscope.
  destruct (Hd t wr) as [?|?].
  - split; [by rewrite Hscope|done].
  - by rewrite <-Hrun.
  - unfold held_by in Hheld. bool_prop. congruence.
  - unfold held_by in Hheld. bool_prop. rewrite Hf in *. simplify_eq. lia.
Qed.

Lemma stale_close w change thread_id run key run_id token fence eff r w' :
  target change = Some (thread_id, run) ->
  validate_change_scope change (change_state w change thread_id run) = Ok tt ->
  ch_key change = Some key -> ch_run_id change = Some run_id ->
  ch_owner_token change = Some token -> ch_fence change = Some fence ->
  superseded key run_id token fence w ->
  resolve_close_writer change (change_state w change thread_id run) = Ok eff ->
  apply_effect change eff (drawn w change (change_state w change thread_id run)) = (r, w') ->
  threads w' = threads w.
Proof.
  intros Ht Hv Hk Hr Htok Hf Hd Hres Ha. unfold resolve_close_writer in Hres.
  rewrite Hk, Hr in Hres.
  assert (forall result, answer result None = eff -> threads w' = threads w) as Hnone.
  { intros result <-. by eapply apply_none in Ha. }
  destruct (ls_thread _) as [s|] eqn:Es; [|eapply Hnone; by apply ok_inj in Hres].
  destruct (ls_target_writer _) as [wr|] eqn:Ew; [|eapply Hnone; by apply ok_inj in Hres].
  destruct (negb (bool_decide (th_key s = key)) || _) eqn:Eb;
    [eapply Hnone; by apply ok_inj in Hres|]. exfalso.
  apply orb_false_elim in Eb as [Eb1%negb_false_iff%bool_decide_eq_true Eb2%negb_false_iff].
  destruct (thread_scope w change thread_id run s Es) as (t & Hget & <-).
  pose proof (key_scope w change thread_id run Ht Hv key Hk) as Hscope.
  pose proof (target_writer w change thread_id run Ht Hv t wr Hget Ew) as Hw.
  assert (w_run_id wr = run_id) as Hrun.
  { apply (all_equal_elem (named_runs change (change_state w change thread_id run))).
    - unfold validate_change_scope in Hv. res_inv. by apply negb_false_iff.
    - apply elem_of_named. rewrite Ew. do 3 (apply elem_of_cons; right).
      apply elem_of_cons. by left.
    - apply elem_of_named. rewrite Hr. apply elem_of_cons. by left. }
  unfold held_by in Eb2. bool_prop. rewrite Hf in *. simplify_eq.
  destruct (Hd t wr) as [?|?]; [split; [by rewrite Hscope|done]|done|congruence|lia].
Qed.
End lemmas.

Section props.
Context {hash : ScopeHash} {json : TraceJson} {laws : TraceJsonLaws} {clock : TraceClock}.
Context (l : TraceLimits).

(** C4: A writer that was taken over stays fenced off: whatever happens afterwards, as long
    as nobody opens the run with its token again, what its owner appends or renews
    raises, and what it closes changes nothing. *)
Theorem superseded_writer_is_fenced w w' key run token fence t wr change r w'' :
  TraceLimits_valid l = true -> reachable l w ->
  stored w key t -> dget (mt_writers t) run = Some wr -> fence < w_fence wr ->
  rtc (call_among l (spares token)) w w' ->
  ch_key change = Some key -> ch_run_id change = Some run ->
  ch_owner_token change = Some token -> ch_fence change = Some fence ->
  (ch_kind change = AppendEvents /\ ch_proven_events change = [] \/
   ch_kind change = RenewWriter \/ ch_kind change = CloseWriter) ->
  commit_ledger_change change w' = (r, w'') ->
  threads w'' = threads w' /\ (ch_kind change <> CloseWriter -> exists e, r = Raise e).
Proof.
  intros Hl Hreach [Hget Hkey] Hwr Hf Hcalls Hk Hrn Htok Hfe Hkind Hc.
  assert (superseded key run token fence w') as Hd.
  { eapply superseded_calls; [exact Hl|by apply reachable_system| |exact Hcalls].
    intros t0 wr0 [Hget0 _] Hwr0. right. congruence. }
  destruct Hkind as [[Hkind Hp]|[Hkind|Hkind]].
  - apply commit_raises in Hc as [? ?]; [done|]. intros tid rn eff Ht Hv Hr.
    unfold resolve_ledger_change in Hr. rewrite Hv, Hkind in Hr. cbn [rbind] in Hr.
    unfold resolve_append_events in Hr. rewrite Hp in Hr. simpl in Hr.
    apply rbind_ok in Hr as (? & _ & Hr). apply rbind_ok in Hr as (o & Ho & _).
    by eapply stale_owned in Ho.
  - apply commit_raises in Hc as [? ?]; [done|]. intros tid rn eff Ht Hv Hr.
    unfold resolve_ledger_change in Hr. rewrite Hv, Hkind in Hr. cbn [rbind] in Hr.
    unfold resolve_renew_writer in Hr. apply rbind_ok in Hr as (o & Ho & _).
    by eapply stale_owned in Ho.
  - split; [|done]. rewrite commit_unfold in Hc.
    destruct (target change) as [[tid rn]|] eqn:Ht; [|by injection Hc as _ <-].
    cbv zeta in Hc. set (st := change_state w' change tid rn) in *.
    destruct (resolve_ledger_change change st _) as [eff|e] eqn:Hr; [|by injection Hc as _ <-].
    unfold resolve_ledger_change in Hr. apply rbind_ok in Hr as ([] & Hv & Hr).
    rewrite Hkind in Hr. destruct (apply_effect change eff _) as [r1 w1] eqn:Ha.
    assert (w1 = w'') as -> by by destruct r1; simplify_eq. by eapply stale_close.
Qed.

(** C5: In every history of a ledger whose clients share valid limits: the events of a
    thread are numbered from 1 without gaps, belong to its generation and carry the size
    of their own JSON; the thread's counters and every writer's record agree with the
    log; an open run holds the reserve of its terminal facts and a run that is over
    holds none; events, bytes and threads stay within their limits, reserves included;
    checkpoints of a scope cover ever longer prefixes of the log; and the rows of the
    graph index are stored under their own keys. *)
Theorem trace_store_invariant w :
  TraceLimits_valid l = true -> reachable l w ->
  store_ok l (threads w) /\
  forall key t, dget (threads w) key = Some t -> graph_ok (mt_graph_nodes t).
Proof. intros Hl Hr. destruct (reachable_system l Hl w Hr). done. Qed.

(** C6: When the log of a generation can be replayed, its index is that replay, however the
    log was cut into commits; and replaying it again, in any pages, to rebuild the index
    changes nothing.  The log can be replayed in every history in which no commit that
    raised has changed a thread - as one can, see [refused_batch_is_committed]. *)
Theorem graph_index_is_the_replay w key t :
  TraceLimits_valid l = true -> reachable l w -> stored w key t ->
  ((apply_graph_events (log t) []).1 = Ok tt ->
   mt_graph_nodes t = (apply_graph_events (log t) []).2 /\
   forall pages, concat pages = log t -> exists ms,
     replayed_mutations pages = Ok ms /\
     rebuild_graph_index key (th_next_seq (mt_state t) - 1) ms w =
       (Ok (count_nodes (mt_graph_nodes t)), w)) /\
  (cleanly_reachable l w -> (apply_graph_events (log t) []).1 = Ok tt).
Proof.
  intros Hl Hreach [Hget Hkey]. split; cycle 1.
  { intros Hc. by rewrite (cleanly_reachable_indexed l Hl w Hc _ _ Hget). }
  intros Hrep. destruct (reachable_system l Hl w Hreach) as [S1 S2 S3 S4].
  pose proof (S3 _ _ Hget Hrep) as Hg. split; [done|]. intros pages Hp.
  pose proof (log_distinct _ _ _ (so_thread _ _ S1 _ _ Hget)) as Hd.
  assert (exists ms, replayed_mutations pages = Ok ms) as [ms Hms].
  { unfold replayed_mutations. rewrite apply_pages by (by rewrite Hp). rewrite Hp.
    pose proof (apply_events_ok (log t) [] graph_ok_nil) as Hok.
    pose proof (apply_events_settled (log t) [] graph_ok_nil) as Hse.
    destruct (apply_graph_events (log t) []) as [[[]|e] g]; [|done]. simpl in *.
    destruct (rebuild_from_rows [] g Hok) as [H1 _]; [by apply Hse|]. eauto. }
  exists ms. split; [done|].
  destruct (replayed_graph t pages ms) as (g & Hag & _ & Hall); [by rewrite Hp|done|done|].
  rewrite Hag in Hg. simpl in Hg. subst g.
  unfold rebuild_graph_index, bind, exact_thread, find_thread.
  change (k_namespace key, k_thread_id key) with (thread_key key). rewrite Hget, decide_True by done.
  unfold raise_if. rewrite Z.eqb_refl. simpl. rewrite Hall.
  unfold on_thread, modify, ret. rewrite Hget. simpl. do 2 f_equal.
  destruct w as [d n m]. unfold set_threads. simpl in *. f_equal. apply dset_same.
  rewrite Hget. by destruct t.
Qed.

(** A log only grows: what a generation holds later begins with what it holds now, and
    nothing is ever added to a run that is closed.  Once a generation is gone it never
    comes back. *)
Theorem log_is_append_only {fresh : FreshUuids} w w' key t :
  TraceLimits_valid l = true -> reachable l w -> stored w key t -> calls l w w' ->
  (forall t', stored w' key t' -> continues t t') /\
  ((forall t', ~ stored w' key t') ->
   forall w'' t'', calls l w' w'' -> ~ stored w'' key t'').
Proof.
  intros Hl Hreach Hst Hc. pose proof (reachable_system l Hl w Hreach) as Hs.
  assert (drawn_before key w) as Hd.
  { destruct Hst as [Hget Hkey]. destruct (sy_generation _ _ Hs _ _ Hget) as (i & Hi & Hg).
    exists i. by rewrite <-Hkey. }
  split.
  - intros t' Ht'. destruct (calls_history l Hl w w' key t' Hs Hc Hd Ht') as (t0 & Ht0 & Hcont).
    destruct Hst as [H1 _], Ht0 as [H2 _]. rewrite H1 in H2. by injection H2 as <-.
  - intros Hgone w'' t'' Hc' Ht''. pose proof (calls_system l Hl _ _ Hs Hc) as Hs'.
    destruct (calls_history l Hl w' w'' key t'' Hs' Hc') as (t0 & Ht0 & _); [|done|].
    + assert (uuids w <= uuids w')%nat as Hu.
      { clear -Hc hash json clock. induction Hc as [|w w1 w' Hc _ IH]; [done|].
        pose proof (call_uuids l _ _ Hc). lia. }
      destruct Hd as (i & Hi & Hg). exists i. split; [lia|done].
    + by apply (Hgone t0).
Qed.

(** C14: A run ends once: in its log the ordinary facts come first, then at most one terminal
    fact, then at most one closing fact, and nothing follows. *)
Theorem run_ends_once w key t run :
  TraceLimits_valid l = true -> reachable l w -> stored w key t ->
  exists terminal closed, (closed = true -> terminal = true) /\
    run_history (map ev_fact (run_log run (log t))) terminal closed.
Proof.
  intros Hl Hreach [Hget _].
  pose proof (so_thread _ _ (sy_store _ _ (reachable_system l Hl w Hreach)) _ _ Hget) as Ht.
  destruct (dget (mt_writers t) run) as [wr|] eqn:Hw.
  - pose proof (to_writer _ _ _ Ht _ _ Hw) as Hok. do 2 eexists.
    split; [by apply Hok|by apply Hok].
  - exists false, false. split; [done|].
    destruct (run_log run (log t)) as [|e es] eqn:E1; [by exists [], []|]. exfalso.
    assert (e ∈ run_log run (log t)) as Hin by (rewrite E1; by left).
    apply list_elem_of_In, filter_In in Hin as [Hin Hr]. apply bool_decide_eq_true in Hr.
    apply list_elem_of_In in Hin. apply (to_owned _ _ _ Ht) in Hin as [? Hx]. congruence.
Qed.

(** The size an event carries is the length of its own JSON, that number included, and
    the least such number; four attempts always find it. *)
Theorem event_size_is_exact event_id seq generation fact :
  TraceEvent_valid (raw_event event_id seq generation fact 1) = true ->
  exists n, make_event event_id seq generation fact =
              Ok (raw_event event_id seq generation fact n) /\ 1 <= n /\
    json_bytes (raw_event event_id seq generation fact n) = n /\
    forall m, 1 <= m -> json_bytes (raw_event event_id seq generation fact m) = m -> n <= m.
Proof. apply make_event_size. Qed.

(** C13: What a run has still to say - its terminal fact, its closing fact, or both - finds
    room: as long as its writer holds the run and each of the facts is one the ledger
    may store - it names the thread and the run, and its event is valid and within
    [max_event_bytes] ([storable]) - and, where leases are enforced, its lease runs and
    can be renewed ([final_append]), the append returns with the facts in the log,
    whatever the other writers of the thread and the namespace have used up. *)
Theorem terminal_facts_find_room w key t wr change :
  TraceLimits_valid l = true -> reachable l w -> stored w key t ->
  dget (mt_writers t) (w_run_id wr) = Some wr -> final_append l w key t wr change ->
  exists res w' t', commit_ledger_change change w = (Ok res, w') /\ stored w' key t' /\
    log t' = log t ++ re_events res /\
    map ev_fact (re_events res) = map d_fact (ch_facts change).
Proof.
  intros Hl Hreach Hst Hw Hf. pose proof (reachable_system l Hl w Hreach) as Hs.
  destruct Hst as [Hget Hkey].
  eapply (final_commits l Hl w key t wr change Hf); [by split| |done|].
  - by apply (so_thread _ _ (sy_store _ _ Hs)).
  - by apply (sy_graph _ _ Hs _ _ Hget).
Qed.

(** A page is the part of the log it was asked for: forwards the first [limit] events
    after a cursor and up to a fixed prefix, backwards the last [limit] before a cursor,
    newest first; a cursor beyond the end of the log reads nothing backwards. *)
Theorem event_page_is_part_of_the_log w key t request r w' :
  TraceLimits_valid l = true -> reachable l w -> stored w key t -> pr_key request = key ->
  0 <= pr_limit request -> 0 <= default 0 (pr_after_seq request) ->
  0 <= default 0 (pr_as_of_seq request) -> 1 <= default 1 (pr_before_seq request) ->
  read_event_page request w = (r, w') ->
  exists page, r = Ok page /\ pg_tail_seq page = zlen (log t) /\
    map me_validated_event (pg_events page) =
    let n := Z.to_nat (pr_limit request) in
    let before := default (zlen (log t) + 1) (pr_before_seq request) in
    match pr_direction request with
    | Forward => take n (between (default 0 (pr_after_seq request))
                           (default (zlen (log t)) (pr_as_of_seq request)) (log t))
    | Reverse => if zlen (log t) + 1 <? before then []
                 else take n (rev (between 0 (before - 1) (log t)))
    end.
Proof.
  intros Hl Hreach [Hget Hkey] <- Hn Ha Has Hb Hr.
  pose proof (so_thread _ _ (sy_store _ _ (reachable_system l Hl w Hreach)) _ _ Hget) as Ht.
  pose proof (to_seq _ _ _ Ht) as Hseq. pose proof (zlen_nonneg (log t)) as Hpos.
  unfold read_event_page, bind, exact_thread, find_thread in Hr.
  change (k_namespace (pr_key request), k_thread_id (pr_key request))
    with (thread_key (pr_key request)) in Hr. rewrite Hget, decide_True in Hr by done.
  injection Hr as <- <-. eexists. split; [done|]. split; [simpl; lia|]. cbn [pg_events].
  replace (zlen (log t)) with (th_next_seq (mt_state t) - 1) by lia.
  destruct (pr_direction request) eqn:Ed.
  - eapply forward_records; [done..|]. destruct (pr_as_of_seq request); simpl in *; lia.
  - eapply (reverse_records l (thread_key (pr_key request))); [done..|].
    destruct (pr_before_seq request); simpl in *; lia.
Qed.

(** A checkpoint that was saved is what a load of its prefix gives back. *)
Theorem saved_checkpoint_is_loaded w change c payload digest res w' :
  TraceLimits_valid l = true -> reachable l w -> ch_limits change = l ->
  ch_kind change = SaveProjectionCheckpoint -> ch_checkpoint change = Some c ->
  ch_canonical_checkpoint_state change = Some payload ->
  ch_checkpoint_state_digest change = Some digest ->
  commit_ledger_change change w = (Ok res, w') ->
  load_projection_checkpoint (checkpoint_request c) w' =
  (Ok (Some {| sc_key := pc_key c; sc_projection_name := pc_projection_name c;
               sc_run_id := pc_run_id c; sc_as_of_seq := pc_as_of_seq c;
               sc_canonical_state := payload; sc_state_digest := digest |}), w').
Proof.
  intros Hl Hreach Hlim Hkind Hck Hpay Hdig Hc.
  pose proof (reachable_system l Hl w Hreach) as Hs. rewrite commit_unfold in Hc.
  destruct (target change) as [[tid run]|] eqn:Ht; [|done]. cbv zeta in Hc.
  set (st := change_state w change tid run) in *.
  destruct (resolve_ledger_change change st _) as [eff|e] eqn:Hr; [|done].
  unfold resolve_ledger_change in Hr. apply rbind_ok in Hr as ([] & Hv & Hr).
  rewrite Hkind in Hr. unfold resolve_save_checkpoint in Hr. rewrite Hck, Hpay, Hdig in Hr.
  apply rbind_ok in Hr as (thread & Hth & Hr). apply rbind_ok in Hr as (? & _ & Hr).
  unfold require_exact_thread in Hth. destruct (ls_thread st) as [s|] eqn:Es; [|done].
  case_decide as Hkey; [|done]. injection Hth as ->.
  destruct (thread_scope w change tid run thread Es) as (t & Hget & <-).
  pose proof (stored_key w change tid run Ht Hv t Hget) as Hslot.
  assert (ls_current_checkpoint st =
    newest (default [] (dget (mt_checkpoints t) (pc_projection_name c, pc_run_id c)))) as Hcur.
  { unfold st, change_state. simpl. unfold find_thread. by rewrite Hget, Hck. }
  set (new := {| sc_key := pc_key c; sc_projection_name := pc_projection_name c;
                 sc_run_id := pc_run_id c; sc_as_of_seq := pc_as_of_seq c;
                 sc_canonical_state := payload; sc_state_digest := digest |}) in *.
  assert (forall t', stored w' (pc_key c) t' ->
    newest (scope_checkpoints t' (checkpoint_request c)) = Some new ->
    load_projection_checkpoint (checkpoint_request c) w' = (Ok (Some new), w')) as Hload.
  { intros t' Hst Hnew. rewrite (load_stored w' t') by done.
    rewrite (find_newest _ _ new Hnew); [done|]. simpl. lia. }
  assert (thread_key (pc_key c) = (ch_namespace change, tid)) as Hslot'
    by (by rewrite <-Hkey, Hslot).
  destruct (apply_effect change eff (drawn w change st)) as [r0 w0] eqn:Ha.
  assert (w0 = w') as -> by (by destruct r0; simplify_eq).
  assert (save_new change st c payload digest
            (commit_result SaveProjectionCheckpoint (pc_key c) None None None [] (Some c)) = Ok eff ->
    load_projection_checkpoint (checkpoint_request c) w' = (Ok (Some new), w')) as Hnew.
  { unfold save_new. intros Hn. apply rbind_ok in Hn as (? & _ & Hn).
    apply rbind_ok in Hn as (? & _ & Hn). apply ok_inj in Hn as <-. fold new in Ha.
    erewrite (apply_effect_at change _ _ (ch_namespace change, tid) (pc_key c) t) in Ha; try done.
    injection Ha as _ <-. eapply (Hload (keep_checkpoint (ch_limits change) new t)).
    - split; [by rewrite Hslot'; simpl; rewrite dget_dset_eq, set_graph_same|done].
    - unfold scope_checkpoints. simpl. rewrite dget_dset_eq. simpl. apply newest_kept.
      unfold TraceLimits_valid in Hl. bool_prop. rewrite Hlim. lia. }
  destruct (ls_current_checkpoint st) as [c0|]; [|by apply Hnew].
  destruct (Z.eqb_spec (sc_as_of_seq c0) (pc_as_of_seq c)) as [Eseq|]; [|by apply Hnew].
  apply rbind_ok in Hr as (? & Hsame & Hr). apply ok_inj in Hr as <-.
  apply rraise_if_ok in Hsame. bool_prop. pose proof (apply_none _ _ _ _ _ _ _ Ha) as Eth.
  apply (Hload t); [split; [by rewrite Eth, Hslot'|done]|].
  unfold scope_checkpoints. cbn [checkpoint_request cr_projection_name cr_run_id].
  rewrite <-Hcur. f_equal.
  destruct (dget (mt_checkpoints t) _) as [cs|] eqn:Ecs; [|done]. simpl in Hcur.
  destruct (to_checkpoints _ _ _ (so_thread _ _ (sy_store _ _ Hs) _ _ Hget) _ _ Ecs) as [_ Hpre _].
  destruct (Hpre c0) as (_ & Hk0 & Hsc).
  { unfold newest in Hcur. symmetry in Hcur. apply last_Some in Hcur as [cs' ->].
    apply elem_of_app. right. by apply list_elem_of_singleton. }
  injection Hsc as Hn0 Hr0. unfold new. destruct c0; simpl in *. congruence.
Qed.
End props.

(** The in-memory backend does not commit a batch as one unit: when the index refuses an
    event - here a message under an interaction's identifier - the commit raises, and yet
    the thread, the writer and the log have taken the batch. *)
Theorem refused_batch_is_committed :
  (commit_ledger_change ex_conflict ex_interacted).1 = Raise TraceStoreProtocolError /\
  zlen (log (thread_of ex_interacted)) = 1 /\
  zlen (log (thread_of (after ex_conflict ex_interacted))) = 2 /\
  w_committed_events (writer_of (after ex_conflict ex_interacted)) = 2 /\
  Forall (fun d => fact_valid (d_fact d) = true) (ch_facts ex_conflict).
Proof. repeat split; try (by vm_compute). repeat constructor. Qed.

(** ** Witnesses *)

Lemma trace_store_invariant_witness :
  store_ok ex_limits (threads ex_taken) /\
  forall key t, dget (threads ex_taken) key = Some t -> graph_ok (mt_graph_nodes t).
Proof. exact (trace_store_invariant ex_limits ex_taken eq_refl ex_reachable). Defined.

Lemma terminal_facts_find_room_witness :
  exists res w' t', commit_ledger_change ex_final ex_taken = (Ok res, w') /\
    stored w' ex_key t' /\ log t' = log (thread_of ex_taken) ++ re_events res /\
    map ev_fact (re_events res) = map d_fact (ch_facts ex_final).
Proof.
  exact (terminal_facts_find_room ex_limits ex_taken ex_key (thread_of ex_taken)
    (writer_of ex_taken) ex_final eq_refl ex_reachable ex_stored eq_refl ex_final_append).
Defined.

Lemma superseded_writer_is_fenced_witness :
  threads (after ex_stale ex_taken) = threads ex_taken /\
  (ch_kind ex_stale <> CloseWriter -> exists e,
     (commit_ledger_change ex_stale ex_taken).1 = Raise e).
Proof.
  exact (superseded_writer_is_fenced ex_limits ex_taken ex_taken ex_key ex_run
    ex_owner 1 (thread_of ex_taken) (writer_of ex_taken) ex_stale
    (commit_ledger_change ex_stale ex_taken).1 (after ex_stale ex_taken)
    eq_refl ex_reachable ex_stored eq_refl eq_refl (rtc_refl _ _) eq_refl eq_refl eq_refl eq_refl
    (or_introl (conj eq_refl eq_refl)) (surjective_pairing _)).
Defined.

Lemma graph_index_is_the_replay_witness :
  mt_graph_nodes (thread_of ex_taken) = (apply_graph_events (log (thread_of ex_taken)) []).2 /\
  forall pages, concat pages = log (thread_of ex_taken) -> exists ms,
    replayed_mutations pages = Ok ms /\
    rebuild_graph_index ex_key (th_next_seq (mt_state (thread_of ex_taken)) - 1) ms ex_taken =
      (Ok (count_nodes (mt_graph_nodes (thread_of ex_taken))), ex_taken).
Proof.
  destruct (graph_index_is_the_replay ex_limits ex_taken ex_key (thread_of ex_taken) eq_refl
    ex_reachable ex_stored) as [H Hc]. apply H, Hc, ex_cleanly_reachable.
Defined.

Lemma log_is_append_only_witness :
  (forall t', stored ex_taken ex_key t' -> continues (thread_of ex_taken) t') /\
  ((forall t', ~ stored ex_taken ex_key t') ->
   forall w'' t'', calls ex_limits ex_taken w'' -> ~ stored w'' ex_key t'').
Proof.
  exact (log_is_append_only ex_limits ex_taken ex_taken ex_key (thread_of ex_taken) eq_refl
    ex_reachable ex_stored (rtc_refl _ _)).
Defined.

Lemma run_ends_once_witness :
  exists terminal closed, (closed = true -> terminal = true) /\
    run_history (map ev_fact (run_log ex_run (log (thread_of ex_taken)))) terminal closed.
Proof.
  exact (run_ends_once ex_limits ex_taken ex_key (thread_of ex_taken) ex_run eq_refl
    ex_reachable ex_stored).
Defined.

Lemma event_size_is_exact_witness :
  exists n, make_event ex_event_id 1 [100000] ex_fact =
              Ok (raw_event ex_event_id 1 [100000] ex_fact n) /\
    1 <= n /\
    json_bytes (raw_event ex_event_id 1 [100000] ex_fact n) = n /\
    forall m, 1 <= m ->
      json_bytes (raw_event ex_event_id 1 [100000] ex_fact m) = m ->
      n <= m.
Proof. apply event_size_is_exact. vm_compute. reflexivity. Defined.

Definition ex_page : TraceEventPageRequest :=
  {| pr_key := ex_key; pr_direction := Forward; pr_limit := 10; pr_after_seq := None;
     pr_as_of_seq := None; pr_before_seq := None |}.

Lemma event_page_is_part_of_the_log_witness :
  exists page, (read_event_page ex_page ex_taken).1 = Ok page /\
    pg_tail_seq page = zlen (log (thread_of ex_taken)) /\
    map me_validated_event (pg_events page) =
    let n := Z.to_nat (pr_limit ex_page) in
    let before := default (zlen (log (thread_of ex_taken)) + 1) (pr_before_seq ex_page) in
    match pr_direction ex_page with
    | Forward => take n (between (default 0 (pr_after_seq ex_page))
                           (default (zlen (log (thread_of ex_taken))) (pr_as_of_seq ex_page))
                           (log (thread_of ex_taken)))
    | Reverse => if zlen (log (thread_of ex_taken)) + 1 <? before then []
                 else take n (rev (between 0 (before - 1) (log (thread_of ex_taken))))
    end.
Proof.
  refine (event_page_is_part_of_the_log ex_limits ex_taken ex_key (thread_of ex_taken) ex_page
    (read_event_page ex_page ex_taken).1 (read_event_page ex_page ex_taken).2 eq_refl
    ex_reachable ex_stored eq_refl _ _ _ _ (surjective_pairing _)); vm_compute; discriminate.
Defined.

Lemma saved_checkpoint_is_loaded_witness :
  load_projection_checkpoint (checkpoint_request ex_checkpoint) (after ex_save ex_taken) =
  (Ok (Some {| sc_key := ex_key; sc_projection_name := pc_projection_name ex_checkpoint; sc_run_id := None;
               sc_as_of_seq := 1; sc_canonical_state := [110]; sc_state_digest := ex_digest |}),
   after ex_save ex_taken).
Proof.
  apply (saved_checkpoint_is_loaded ex_limits ex_taken ex_save ex_checkpoint [110] ex_digest
    (default (commit_result SaveProjectionCheckpoint ex_key None None None [] None)
       (match (commit_ledger_change ex_save ex_taken).1 with Ok a => Some a | _ => None end))
    (after ex_save ex_taken) eq_refl ex_reachable); vm_compute; reflexivity.
Defined.
