(* ===== verification/TraceLocated.v ===== *)
(** Tracing: the numbers a row of the index carries - its start, its last update, its
    request, result, failure and model call - are those of events of its own run in
    the log, in every reachable world, whatever was refused on the way. *)
From S2P Require Import Prelude PyDict PySeq Contracts TraceModels TraceGraph TraceGraphFacts.
From S2P Require Import TraceLedger TraceMemory TraceSteps TraceFacts TraceInvariant TraceSystem.

(** ** Numbers of events *)

(** The log has an event of the run with this number. *)
Definition locates (l : list TraceEvent) (run : pystr) (s : Z) : Prop :=
  exists e, e ∈ l /\ ev_trace_seq e = s /\ f_run_id (ev_fact e) = run.

Definition located (l : list TraceEvent) (run : pystr) (o : option Z) : Prop :=
  forall s, o = Some s -> locates l run s.

Record row_located (l : list TraceEvent) (n : ReducedTraceGraphNode) : Prop := {
  rl_started : locates l (n_run_id n) (n_started_seq n);
  rl_updated : locates l (n_run_id n) (n_updated_seq n);
  rl_request : located l (n_run_id n) (n_request_seq n);
  rl_result : located l (n_run_id n) (n_result_seq n);
  rl_failure : located l (n_run_id n) (n_failure_seq n);
  rl_call : located l (n_run_id n) (n_model_call_seq n)
}.

Definition graph_located (l : list TraceEvent) (g : Graph) : Prop :=
  forall key n, dget g key = Some (Node n) -> row_located l n.

Lemma locates_mono l l' run s : l ⊆ l' -> locates l run s -> locates l' run s.
Proof. intros H (e & ? & ? & ?). exists e. auto. Qed.

Lemma row_located_mono l l' n : l ⊆ l' -> row_located l n -> row_located l' n.
Proof.
  intros H []. split; try (intros s ?); eapply locates_mono; eauto.
Qed.

Lemma graph_located_mono l l' g : l ⊆ l' -> graph_located l g -> graph_located l' g.
Proof. intros H Hg key n Hn. eapply row_located_mono; eauto. Qed.

Lemma graph_located_nil l : graph_located l [].
Proof. done. Qed.

Lemma located_none l run : located l run None.
Proof. done. Qed.

Lemma located_or l run a b : located l run a -> located l run b -> located l run (or_else a b).
Proof. by destruct a. Qed.

Lemma located_or_int l run a b : located l run a -> located l run b -> located l run (or_int a b).
Proof. destruct (or_int_cases a b) as [-> | ->]; done. Qed.

(** ** Mutations *)

(** Every number a mutation carries is that of an event of its run. *)
Record mutation_located (l : list TraceEvent) (m : TraceGraphNodeMutation) : Prop := {
  ml_updated : locates l (mu_run_id m) (mu_updated_seq m);
  ml_started : located l (mu_run_id m) (mu_started_seq m);
  ml_request : located l (mu_run_id m) (mu_request_seq m);
  ml_result : located l (mu_run_id m) (mu_result_seq m);
  ml_failure : located l (mu_run_id m) (mu_failure_seq m);
  ml_call : located l (mu_run_id m) (mu_model_call_seq m)
}.

Lemma mutation_located_mono l l' m : l ⊆ l' -> mutation_located l m -> mutation_located l' m.
Proof. intros H []. split; try (intros s ?); eapply locates_mono; eauto. Qed.

Section updates.
Context {hash : ScopeHash}.
Implicit Types (l : list TraceEvent).

(** A number that is absent, or the event's own. *)
Lemma located_event e o :
  o = None \/ o = Some (ev_trace_seq e) -> located [e] (f_run_id (ev_fact e)) o.
Proof. intros [-> | ->] s [= <-]. exists e. split; [by left|done]. Qed.

Lemma numbered_call {A} (call : option A) (s : Z) :
  (fun _ => s) <$> call = None \/ (fun _ => s) <$> call = Some s.
Proof. destruct call; auto. Qed.

Ltac located_go :=
  unfold f_run_id, f_identity; split; [eexists; split; [by left|by split]|..];
  apply located_event; cbn; try apply numbered_call; repeat case_match; auto.

Ltac rows_go :=
  repeat first [apply Forall_nil_2 | apply Forall_cons; split | apply Forall_app; split];
  try located_go.

Lemma output_located e f st : Forall (fun id =>
  mutation_located [e] (output_message (f_base (ev_fact e)) (ev_trace_seq e) f st id))
  (mc_output_message_ids f).
Proof. apply Forall_true. intros id. unfold output_message. located_go. Qed.

Lemma model_call_located e f ms :
  model_call_mutations (f_base (ev_fact e)) (ev_trace_seq e) f = Ok ms ->
  Forall (mutation_located [e]) ms.
Proof.
  unfold model_call_mutations.
  assert (forall st, Forall (mutation_located [e])
    (map (output_message (f_base (ev_fact e)) (ev_trace_seq e) f st) (mc_output_message_ids f)))
    as Hout by (intros st; apply Forall_map, output_located).
  destruct (mc_phase f); [destruct (mc_context_started_at f); [|done]|..];
    intros <-%ok_inj.
  { case_match; rows_go. }
  { rows_go. apply Hout. }
  all: apply Forall_cons; split; [located_go|]; case_match; [|by apply Forall_nil_2].
  all: apply Forall_app; split; apply Forall_map, Forall_true; intros id;
    unfold output_message; located_go.
Qed.

Lemma event_mutations_located e ms :
  event_mutations e = Ok ms -> Forall (mutation_located [e]) ms.
Proof.
  unfold event_mutations. intros (ms' & Hms & H)%rbind_ok.
  apply rbind_ok in H as ([] & _ & [= ->]).
  destruct (f_body (ev_fact e)) as
    [f|f|f|f|f|f|f|f|f|f| |f|f|f] eqn:Ef; try (injection Hms as <-); try by constructor.
  - unfold turn_mutations. case_match; rows_go.
  - unfold message_mutations. repeat case_match; rows_go.
  - unfold tool_mutations. repeat case_match; rows_go.
  - unfold interaction_mutations. rows_go.
  - unfold subagent_mutations. repeat case_match; rows_go.
  - unfold plan_mutations. rows_go.
  - by apply model_call_located in Hms.
  - unfold tool_execution_mutations. repeat case_match; rows_go.
  - unfold contribution_mutations. repeat case_match; rows_go.
Qed.

Lemma located_failure l run current m se :
  located l run current -> located l run (mu_failure_seq m) ->
  located l run (graph_failure_sequence current m se).
Proof.
  intros. unfold graph_failure_sequence. repeat case_match; auto using located_or_int, located_none.
Qed.

Lemma coalesce_located l se current m m' :
  mutation_located l current -> mutation_located l m -> mu_run_id current = mu_run_id m ->
  coalesce se current m = Ok m' -> mutation_located l m' /\ mu_run_id m' = mu_run_id m.
Proof.
  intros [] [] Hrun. rewrite Hrun in *. unfold coalesce.
  destruct (mu_remove m || mu_remove current); [by intros [= <-]|].
  intros H. apply rbind_ok in H as (? & _ & H). apply rbind_ok in H as (? & _ & H).
  apply rbind_ok in H as ([] & _ & H). injection H as <-.
  split; [|done]. split; simpl; try destruct (graph_execution_started m se);
    auto using located_or_int, located_failure.
Qed.

(** The values a batch is collapsed into: each under its key. *)
Definition values_located l (values : dict (pystr * pystr) TraceGraphNodeMutation) : Prop :=
  forall key m, dget values key = Some m -> mutation_located l m /\ mu_run_id m = key.2.

Lemma coalesce_all_located l se ms values ms' :
  Forall (mutation_located l) ms -> dwf values -> values_located l values ->
  coalesce_graph_mutations se ms values = Ok ms' -> Forall (mutation_located l) ms'.
Proof.
  revert values. induction ms as [|m ms IH]; intros values Hms Hwf Hv; simpl.
  { intros [= <-]. apply Forall_forall. intros m [key Hm]%elem_of_dvals; [|done].
    by destruct (Hv _ _ Hm). }
  inversion_clear Hms as [|? ? Hm Hms']. intros (v & Hval & H)%rbind_ok.
  apply (IH _ Hms') in H; [done|by apply dwf_dset|].
  assert (mutation_located l v /\ mu_run_id v = mu_run_id m) as Hlv.
  { destruct (dget values _) as [cur|] eqn:Ec; [|by injection Hval as <-].
    destruct (Hv _ _ Ec). by eapply coalesce_located. }
  intros key m'. rewrite dget_dset. case_decide; [|by apply Hv]. intros [= <-]. by subst key.
Qed.

Lemma graph_node_mutations_located e ms :
  graph_node_mutations [e] = Ok ms -> Forall (mutation_located [e]) ms.
Proof.
  unfold graph_node_mutations. simpl. intros (ms1 & H1 & H)%rbind_ok.
  apply rbind_ok in H1 as (ms2 & H2 & H1). injection H1 as <-. rewrite app_nil_r in H.
  refine (coalesce_all_located _ _ _ [] _ _ _ _ H); [by apply event_mutations_located|
    apply dwf_nil|done].
Qed.

Lemma terminal_mutations_located e rs :
  Forall (mutation_located [e]) (assistant_run_terminal_mutations e rs).
Proof.
  unfold assistant_run_terminal_mutations.
  destruct (f_body (ev_fact e)); try by constructor.
  destruct (assistant_run_terminal_status f); [|by constructor].
  apply Forall_map, Forall_forall. intros r [_ Hu]%list_elem_of_In%filter_In.
  destruct r as [n|]; [|done]. simpl in Hu. bool_prop. simpl.
  assert (n_run_id n = f_run_id (ev_fact e)) as -> by done. located_go.
Qed.

(** ** Rows *)

Lemma new_node_located l m n : mutation_located l m -> new_node m = Some n -> row_located l n.
Proof.
  intros []. unfold new_node. repeat case_match; try done. intros [= <-].
  split; simpl; auto.
Qed.

Lemma settle_located l m se n :
  mutation_located l m -> mu_run_id m = n_run_id n -> row_located l n ->
  row_located l (settle m se n).
Proof.
  intros [] Hrun []. rewrite Hrun in *. unfold settle. split; simpl; auto using located_or.
  - case_match; [|done]. destruct (mu_started_seq m); simpl; auto.
  - case_match; auto using located_or, located_none.
  - by apply located_failure.
Qed.

Lemma update_row_located l m se n :
  mutation_located l m -> mu_run_id m = n_run_id n -> row_located l n ->
  wp (update_row m se) n (fun _ n' => row_located l n').
Proof.
  intros Hm Hrun Hn. unfold update_row.
  repeat (wp_go; try match goal with
    |- match ?r with Ok _ => _ | Raise _ => _ end => destruct r end); try done;
    try (apply settle_located; [done|by destruct n|]);
    destruct n, Hn, Hm; simpl in *; rewrite Hrun in *; split; simpl; auto.
Qed.

Lemma apply_mutation_located l se m g :
  graph_ok g -> mutation_located l m -> graph_located l g ->
  graph_located l (apply_graph_node_mutation se m g).2.
Proof.
  intros [_ Hok] Hm Hg. unfold apply_graph_node_mutation. destruct (mu_remove m).
  { intros key n. simpl. rewrite dget_dset. case_decide; [done|apply Hg]. }
  destruct (dget g _) as [[n|]|] eqn:Eg.
  - destruct (Hok _ _ Eg) as [[= _ Hrun] _].
    pose proof (update_row_located l m se n Hm Hrun (Hg _ _ Eg)) as Hu. unfold wp in Hu.
    destruct (update_row m se n) as [r n']. simpl in *. intros key n0. rewrite dget_dset.
    case_decide; [|apply Hg]. by intros [= <-].
  - destruct (new_node m) as [n|] eqn:En; [|done]. intros key n0. simpl. rewrite dget_dset.
    case_decide; [|apply Hg]. intros [= <-]. by eapply new_node_located.
  - destruct (new_node m) as [n|] eqn:En; [|done]. intros key n0. simpl. rewrite dget_dset.
    case_decide; [|apply Hg]. intros [= <-]. by eapply new_node_located.
Qed.

Lemma apply_mutations_located l se ms g :
  Forall mutation_ok ms -> Forall (mutation_located l) ms -> graph_ok g -> graph_located l g ->
  graph_located l (for_each (apply_graph_node_mutation se) ms g).2.
Proof.
  intros Hok Hms Hg Hl. rewrite Forall_forall in Hok, Hms.
  apply (for_each_inv (fun g => graph_ok g /\ graph_located l g)); [done|].
  intros m g' Hm [? ?]. split; [by apply apply_mutation_ok; auto|].
  by apply apply_mutation_located; auto.
Qed.

Lemma apply_event_located l se e g :
  e ∈ l -> graph_ok g -> graph_located l g -> graph_located l (apply_graph_event se e g).2.
Proof.
  intros He Hg Hl. assert ([e] ⊆ l) as Hsub by set_solver.
  assert (forall ms, Forall (mutation_located [e]) ms -> Forall (mutation_located l) ms) as Hmono.
  { intros ms H. eapply Forall_impl; [exact H|]. intros m. by apply mutation_located_mono. }
  unfold apply_graph_event, bind, lift, gets.
  destruct (graph_node_mutations [e]) as [ms|] eqn:Hms; [|done].
  pose proof (graph_node_mutations_located _ _ Hms) as Hml.
  apply graph_node_mutations_from, from_event_ok in Hms.
  pose proof (apply_mutations_ok se ms g Hms Hg) as Ho.
  pose proof (apply_mutations_located l se ms g Hms (Hmono _ Hml) Hg Hl) as Hl'.
  destruct (for_each _ ms g) as [[] g']; [|done].
  apply apply_mutations_located; [apply terminal_mutations_ok| |done|done].
  apply Hmono, terminal_mutations_located.
Qed.

Lemma apply_events_located l events g :
  events ⊆ l -> graph_ok g -> graph_located l g ->
  graph_located l (apply_graph_events events g).2.
Proof.
  intros Hsub Hg Hl. unfold apply_graph_events.
  apply (for_each_inv (fun g => graph_ok g /\ graph_located l g)); [done|].
  intros e g' He [? ?]. split; [by apply apply_event_ok|].
  by apply apply_event_located; [apply Hsub|..].
Qed.
End updates.

(** ** Worlds *)

Section system.
Context {hash : ScopeHash} {json : TraceJson} {clock : TraceClock} {laws : TraceJsonLaws}.
Context (l : TraceLimits) (Hl : TraceLimits_valid l = true).

Definition world_located (w : World) : Prop :=
  forall key t, dget (threads w) key = Some t -> graph_located (log t) (mt_graph_nodes t).

Lemma commit_located change w r w' :
  system_ok l w -> ch_limits change = l -> commit_ledger_change change w = (r, w') ->
  world_located w -> world_located w'.
Proof.
  intros Hs Hlim Hc Hw. apply commit_steps in Hc.
  destruct (target change) as [[tid run]|]; [|by subst w'].
  destruct Hc as [[E1|(o' & Hstep & E1)] _]; [by intros k t; rewrite E1; apply Hw|].
  intros k t'. rewrite E1. unfold put_slot.
  destruct o' as [t0|]; rewrite ?dget_dset, ?dget_ddel; case_decide; try done; [|apply Hw..].
  intros [= ->]. destruct (thread_step_graph _ _ _ _ _ t' Hstep eq_refl) as
    [(-> & -> & _)|(t & Ht & _ & [[-> ->]|(events & -> & -> & _)])].
  - apply graph_located_nil.
  - by eapply Hw.
  - apply apply_events_located; [set_solver|by eapply sy_graph|].
    eapply graph_located_mono; [|by eapply Hw]. set_solver.
Qed.

Lemma call_located w w' : system_ok l w -> call l w w' -> world_located w -> world_located w'.
Proof.
  intros Hs [change r Hlim _ Hc|q r Hq|q r Hq|q r Hq|key as_of pages ms r Hp Hms Hr|Et Eu] Hw.
  - by eapply commit_located.
  - by injection Hq as _ <-.
  - apply page_call in Hq as [E1 _]. intros k t. rewrite E1. apply Hw.
  - by apply checkpoint_call in Hq as ->.
  - destruct (rebuild_call _ _ _ _ _ _ Hr) as [_ [E1|(t & g & se & Hst & Has & Hg & E1)]];
      [intros k t; rewrite E1; apply Hw|].
    pose proof (Hp t Hst Has) as Hlog. destruct Hst as [Hget _].
    assert (distinct (concat pages)) as Hd.
    { rewrite Hlog. eapply log_distinct, so_thread; [by apply sy_store|done]. }
    destruct (replayed_graph t pages ms Hd Hlog Hms) as (g' & Hrep & _ & Hall).
    rewrite Hall in Hg. injection Hg as <-. intros k t'. rewrite E1, dget_dset.
    case_decide; [|apply Hw]. intros [= <-]. change (log (set_graph g' t)) with (log t).
    pose proof (apply_events_located (log t) (log t) [] ltac:(done) graph_ok_nil
      (graph_located_nil _)) as Hg. by rewrite Hrep in Hg.
  - intros k t. rewrite Et. apply Hw.
Qed.

Lemma reachable_located w : reachable l w -> world_located w.
Proof.
  intros (w0 & E1 & Hc). pose proof (empty_system l Hl w0 E1) as Hs.
  assert (world_located w0) as Hw by (intros k t; by rewrite E1).
  clear E1. induction Hc as [|w0 w1 w2 H1 _ IH]; [done|].
  apply IH; [by eapply call_system|by eapply call_located].
Qed.
End system.
