(* ===== verification/TraceQuery.v ===== *)
(** Tracing: queries of the graph index - [effective_graph_nodes] of
    _graph_reducer.py, which merges the rows of a lineage of runs into one node per
    identifier, and [query_trace_graph] of the in-memory backend (durable_store.py)
    with the filter (graph.py) and the requests (backend.py) it takes. *)
From S2P Require Import Prelude PyDict PySeq Contracts TraceModels TraceGraph TraceLedger.
From S2P Require Import TraceMemory.

(** ** Filters and requests

    A set of values is a list; it selects nothing away when it is empty. *)

Record TraceGraphFilter : Type := {
  wh_kinds : list TraceGraphNodeKind;
  wh_statuses : list TraceGraphNodeStatus;
  wh_model_call_id : option pystr;
  wh_agent_names : list pystr;
  wh_providers : list pystr;
  wh_models : list pystr;
  wh_graph_namespaces : list (list pystr);
  wh_search : option pystr;
  wh_started_after : option Z;
  wh_started_before : option Z
}.

Definition stripped (value : pystr) : bool := bool_decide (value = strip value).

(** [names_are_canonical], and the text checks of [namespaces_are_bounded]. *)
Definition names_canonical (values : list pystr) : bool :=
  forallb (fun v => bounded_text 1024 v && stripped v) values.

Definition TraceGraphFilter_valid (f : TraceGraphFilter) : bool :=
  forallb (fun vs => (zlen vs <=? 64) && names_canonical vs)
    [wh_agent_names f; wh_providers f; wh_models f] &&
  (zlen (wh_graph_namespaces f) <=? 64) &&
  forallb (fun ns => (zlen ns <=? 64) && names_canonical ns) (wh_graph_namespaces f) &&
  optional_text 2048 (wh_model_call_id f) && optional_text 255 (wh_search f) &&
  match wh_search f with Some s => stripped s | None => true end &&
  match wh_model_call_id f with Some s => stripped s | None => true end &&
  match wh_started_after f, wh_started_before f with
  | Some a, Some b => a <? b
  | _, _ => true
  end.

Record TraceGraphQueryRequest : Type := {
  gq_key : TraceThreadKey;
  gq_run_ids : list pystr;
  gq_where : TraceGraphFilter;
  gq_limit : Z;
  gq_total_limit : Z;
  gq_before_started_at : option Z;
  gq_before_node_id : option pystr;
  gq_node_ids : option (list pystr);
  gq_started_run_ids : option (list pystr)
}.

Definition MAX_TRACE_GRAPH_LINEAGE_RUNS : Z := 10000.

Definition TraceGraphQueryRequest_post_init (q : TraceGraphQueryRequest) : res trace_exn unit :=
  do? rraise_if (bool_decide (gq_run_ids q = []) ||
                 (MAX_TRACE_GRAPH_LINEAGE_RUNS <? zlen (gq_run_ids q)) ||
                 negb (bool_decide (NoDup (gq_run_ids q))) ||
                 negb (names_canonical (gq_run_ids q))) TraceValueError in
  do? rraise_if (match gq_started_run_ids q with
                 | Some runs => negb (bool_decide (NoDup runs)) ||
                                negb (forallb (fun r => bool_decide (r ∈ gq_run_ids q)) runs)
                 | None => false
                 end) TraceValueError in
  do? rraise_if (gq_limit q <? 1) TraceValueError in
  do? rraise_if (gq_total_limit q <? gq_limit q) TraceValueError in
  do? rraise_if (negb (absent (wh_search (gq_where q)))) TraceValueError in
  rraise_if (negb (Bool.eqb (absent (gq_before_started_at q)) (absent (gq_before_node_id q))))
    TraceValueError.

(** ** Merging the rows of a lineage *)

(** [min] and [max] with a key: the first of the best ones. *)
Definition min_by {A} (key : A -> Z) (x : A) (l : list A) : A :=
  foldl (fun best y => if key y <? key best then y else best) x l.

Definition max_by {A} (key : A -> Z) (x : A) (l : list A) : A :=
  foldl (fun best y => if key best <? key y then y else best) x l.

(** [max(..., default=None)] *)
Definition zmax (l : list Z) : option Z :=
  match l with [] => None | x :: l => Some (foldl Z.max x l) end.

(** The value of the last node that has one. *)
Definition latest_value {A} (get : ReducedTraceGraphNode -> option A)
    (nodes : list ReducedTraceGraphNode) : option A :=
  head (omap get (rev nodes)).

Definition is_execution (kind : TraceGraphNodeKind) : bool :=
  bool_decide (kind = TOOL) || bool_decide (kind = SUBAGENT).

(** A node whose request is its start. *)
Definition execution_start (n : ReducedTraceGraphNode) : bool :=
  bool_decide (n_request_seq n = Some (n_started_seq n)).

Definition as_graph_node (r : ReducedTraceGraphRevision) : option ReducedTraceGraphNode :=
  match r with Node n => Some n | Tombstone _ _ _ => None end.

(** One node out of the rows of an identifier, in the order of their updates: [latest]
    is the last of [nodes]. *)
Definition merge_nodes (node_id : pystr) (latest : ReducedTraceGraphNode)
    (nodes : list ReducedTraceGraphNode) : ReducedTraceGraphNode :=
  let origin := match nodes with n :: ns => min_by n_started_seq n ns | [] => latest end in
  let timing_origin :=
    match List.filter execution_start nodes with
    | n :: ns => if is_execution (n_kind latest) then max_by n_updated_seq n ns else origin
    | [] => origin
    end in
  let boundary := if is_execution (n_kind latest) then n_started_seq timing_origin else 0 in
  let after_boundary s := boundary <=? s in
  let parent := latest_value n_parent_subagent_id nodes in
  let call := latest_value n_model_call_id nodes in
  {| n_node_id := node_id; n_parent_subagent_id := parent; n_model_call_id := call;
     n_model_call_seq := latest_value n_model_call_seq nodes; n_kind := n_kind latest;
     n_status := n_status latest; n_name := n_name latest; n_run_id := n_run_id latest;
     n_graph_namespace := n_graph_namespace latest;
     n_agent_name := latest_value n_agent_name nodes;
     n_provider := latest_value n_provider nodes; n_model := latest_value n_model nodes;
     n_started_at := n_started_at timing_origin;
     n_first_output_at := zmin (omap n_first_output_at nodes);
     n_completed_at := if live (n_status latest) then None
                       else latest_value n_completed_at nodes;
     n_started_seq := n_started_seq timing_origin; n_updated_seq := n_updated_seq latest;
     n_request_seq := zmax (omap n_request_seq nodes);
     n_result_seq := zmax (List.filter after_boundary (omap n_result_seq nodes));
     n_failure_seq := if bool_decide (n_status latest = FAILED)
                      then zmax (List.filter after_boundary (omap n_failure_seq nodes)) else None;
     n_link_issue := resolve_graph_link_issue parent call (latest_value n_link_issue nodes) |}.

Definition in_update_order : ReducedTraceGraphRevision -> ReducedTraceGraphRevision -> bool :=
  key_leb revision_updated_seq Z.ltb.

(** The node of an identifier, unless its last row removes it. *)
Definition merge_revisions (node_id : pystr) (values : list ReducedTraceGraphRevision)
    : option ReducedTraceGraphNode :=
  let ordered := sorted_by in_update_order values in
  match last ordered with
  | Some (Node latest) => Some (merge_nodes node_id latest (omap as_graph_node ordered))
  | _ => None
  end.

(** The rows of the selected runs by identifier. *)
Definition group_revisions (run_ids : list pystr) (revisions : list ReducedTraceGraphRevision)
    : dict pystr (list ReducedTraceGraphRevision) :=
  foldl (fun grouped r =>
           if bool_decide (revision_run_id r ∈ run_ids)
           then dset grouped (revision_node_id r)
                  (default [] (dget grouped (revision_node_id r)) ++ [r])
           else grouped) [] revisions.

Definition effective_graph_nodes (run_ids : list pystr)
    (revisions : list ReducedTraceGraphRevision) : list ReducedTraceGraphNode :=
  omap (fun kv => merge_revisions kv.1 kv.2) (group_revisions run_ids revisions).

(** ** Selecting *)

(** An empty set of values selects everything. *)
Definition selects {A} `{EqDecision A} (values : list A) (value : option A) : bool :=
  match values, value with
  | [], _ => true
  | _, Some v => bool_decide (v ∈ values)
  | _, None => false
  end.

(** [_graph_node_matches], after the check for a search. *)
Definition node_selected (where_ : TraceGraphFilter) (row : ReducedTraceGraphNode) : bool :=
  selects (wh_kinds where_) (Some (n_kind row)) &&
  selects (wh_statuses where_) (Some (n_status row)) &&
  match wh_model_call_id where_ with
  | Some c => bool_decide (n_model_call_id row = Some c)
  | None => true
  end &&
  selects (wh_agent_names where_) (n_agent_name row) &&
  selects (wh_providers where_) (n_provider row) &&
  selects (wh_models where_) (n_model row) &&
  selects (wh_graph_namespaces where_) (Some (n_graph_namespace row)) &&
  match wh_started_after where_ with Some t => t <? n_started_at row | None => true end &&
  match wh_started_before where_ with Some t => n_started_at row <? t | None => true end.

Definition graph_node_matches (where_ : TraceGraphFilter) (row : ReducedTraceGraphNode)
    : res trace_exn bool :=
  do? rraise_if (negb (absent (wh_search where_))) TraceValueError in
  Ok (node_selected where_ row).

(** [thread.events[sequence - 1]] *)
Definition ledger_event (t : MemoryThread) (sequence : Z) : res trace_exn MemoryStoredTraceEvent :=
  match py_index (mt_events t) (sequence - 1) with
  | Some i => match mt_events t !! i with Some e => Ok e | None => Raise TraceIndexError end
  | None => Raise TraceStoreProtocolError
  end.

Definition optional_event (t : MemoryThread) (sequence : option Z)
    : res trace_exn (option MemoryStoredTraceEvent) :=
  match sequence with
  | None => Ok None
  | Some s => let? e := ledger_event t s in Ok (Some e)
  end.

Record StoredTraceGraphNode : Type := {
  sg_row : ReducedTraceGraphNode;
  sg_started_event : MemoryStoredTraceEvent;
  sg_updated_event : MemoryStoredTraceEvent;
  sg_request_event : option MemoryStoredTraceEvent;
  sg_result_event : option MemoryStoredTraceEvent;
  sg_failure_event : option MemoryStoredTraceEvent;
  sg_model_call_event : option MemoryStoredTraceEvent
}.

Record StoredTraceGraphPage : Type := {
  gp_key : TraceThreadKey;
  gp_as_of_seq : Z;
  gp_nodes : list StoredTraceGraphNode;
  gp_matched_node_ids : list pystr;
  gp_has_more : bool;
  gp_next_started_at : option Z;
  gp_next_node_id : option pystr;
  gp_relationship_evidence_missing : bool
}.

(** The SHA-256 digest of an identifier, in hexadecimal digits. *)
Class NodeOrder : Type := { node_order_key : pystr -> pystr }.

(** Different identifiers have different digests. *)
Class NodeOrderLaws {order : NodeOrder} : Prop :=
  { node_order_inj : Inj (=) (=) node_order_key }.
#[export] Existing Instance node_order_inj.

Section query.
Context {hash : ScopeHash} {json : TraceJson} {clock : TraceClock} {order : NodeOrder}.

Definition row_key (row : ReducedTraceGraphNode) : Z * pystr :=
  (n_started_at row, node_order_key (n_node_id row)).

(** [sort(key=..., reverse=True)] *)
Definition latest_first : ReducedTraceGraphNode -> ReducedTraceGraphNode -> bool :=
  key_geb row_key pair_ltb.

(** The rows a request selects: those that match its filter, and that started in the
    runs it names. *)
Definition matching_rows (t : MemoryThread) (q : TraceGraphQueryRequest)
    (candidates : list ReducedTraceGraphNode) : res trace_exn (list ReducedTraceGraphNode) :=
  let? matching := rfilter (fun row =>
      let? b := graph_node_matches (gq_where q) row in
      Ok (b && match gq_node_ids q with
               | Some ids => bool_decide (n_node_id row ∈ ids)
               | None => true
               end)) candidates in
  match gq_started_run_ids q with
  | None => Ok matching
  | Some runs =>
      rfilter (fun row =>
        let? e := ledger_event t (n_started_seq row) in
        Ok (bool_decide (st_run_id (me_record e) ∈ runs))) matching
  end.

(** Those that come after the request's cursor. *)
Definition after_cursor (q : TraceGraphQueryRequest) (matching : list ReducedTraceGraphNode)
    : res trace_exn (list ReducedTraceGraphNode) :=
  match gq_before_started_at q with
  | None => Ok matching
  | Some at_ =>
      match gq_before_node_id q with
      | None => Raise TraceValueError
      | Some id =>
          Ok (List.filter (fun row => pair_ltb (row_key row) (at_, node_order_key id)) matching)
      end
  end.

(** [{row.node_id: row for row in rows}] *)
Definition by_node_id (rows : list ReducedTraceGraphNode) : dict pystr ReducedTraceGraphNode :=
  foldl (fun d row => dset d (n_node_id row) row) [] rows.

Definition contains_node (rows : dict pystr ReducedTraceGraphNode) (node_id : pystr) : bool :=
  negb (absent (dget rows node_id)).

(** [set.add] *)
Definition set_add (x : pystr) (l : list pystr) : list pystr :=
  if decide (x ∈ l) then l else l ++ [x].

(** The parent of a row, unless it is among the rows already. *)
Definition missing_parent (rows : dict pystr ReducedTraceGraphNode) (row : ReducedTraceGraphNode)
    : option pystr :=
  match n_parent_subagent_id row with
  | Some p => if contains_node rows p then None else Some p
  | None => None
  end.

Fixpoint add_parents (total_limit : Z) (parents : list ReducedTraceGraphNode)
    (rows : dict pystr ReducedTraceGraphNode) (next : list pystr)
    : res trace_exn (dict pystr ReducedTraceGraphNode * list pystr) :=
  match parents with
  | [] => Ok (rows, next)
  | parent :: parents =>
      if contains_node rows (n_node_id parent) then add_parents total_limit parents rows next
      else
        do? rraise_if (total_limit <=? zlen rows) TraceQuotaExceeded in
        let rows := dset rows (n_node_id parent) parent in
        add_parents total_limit parents rows
          (match missing_parent rows parent with Some p => set_add p next | None => next end)
  end.

Definition MAX_SUBAGENT_SCOPE_DEPTH : Z := 64.

(** The loop over the depths of the scopes; [fuel] iterations are left. *)
Fixpoint subagent_scopes (fuel : nat) (depth : Z) (q : TraceGraphQueryRequest)
    (candidates : dict pystr ReducedTraceGraphNode) (pending : list pystr)
    (rows : dict pystr ReducedTraceGraphNode)
    : res trace_exn (dict pystr ReducedTraceGraphNode) :=
  match fuel, pending with
  | O, _ | _, [] => Ok rows
  | S fuel, _ =>
      let parents :=
        List.filter (fun row => bool_decide (n_run_id row ∈ gq_run_ids q))
          (omap (dget candidates) (sorted_by (key_leb id str_ltb) pending)) in
      do? rraise_if ((MAX_SUBAGENT_SCOPE_DEPTH <? depth) &&
                     match parents with [] => false | _ => true end) TraceStoreProtocolError in
      let? added := add_parents (gq_total_limit q) parents rows [] in
      subagent_scopes fuel (depth + 1) q candidates added.2 added.1
  end.

(** The selected rows with the scopes they run in. *)
Definition with_scopes (q : TraceGraphQueryRequest) (candidates selected : list ReducedTraceGraphNode)
    : res trace_exn (dict pystr ReducedTraceGraphNode) :=
  let rows := by_node_id selected in
  let pending := remove_dups (omap (missing_parent rows) selected) in
  subagent_scopes (Z.to_nat (MAX_SUBAGENT_SCOPE_DEPTH + 1)) 1 q (by_node_id candidates)
    pending rows.

(** [_stored_memory_graph_node] *)
Definition stored_memory_graph_node (t : MemoryThread) (row : ReducedTraceGraphNode)
    : res trace_exn StoredTraceGraphNode :=
  let? started := ledger_event t (n_started_seq row) in
  let? updated := ledger_event t (n_updated_seq row) in
  let? request := optional_event t (n_request_seq row) in
  let? result := optional_event t (n_result_seq row) in
  let? failure := optional_event t (n_failure_seq row) in
  let? model_call := optional_event t (n_model_call_seq row) in
  Ok {| sg_row := row; sg_started_event := started; sg_updated_event := updated;
        sg_request_event := request; sg_result_event := result; sg_failure_event := failure;
        sg_model_call_event := model_call |}.

(** The nodes of the lineage of runs a request names. *)
Definition candidates_of (t : MemoryThread) (q : TraceGraphQueryRequest)
    : list ReducedTraceGraphNode :=
  effective_graph_nodes (gq_run_ids q)
    (List.filter (fun r => bool_decide (revision_run_id r ∈ gq_run_ids q))
       (dvals (mt_graph_nodes t))).

(** The rows of a page, in its order. *)
Definition query_page (t : MemoryThread) (q : TraceGraphQueryRequest)
    : res trace_exn StoredTraceGraphPage :=
  let candidates := candidates_of t q in
  let? matching := matching_rows t q candidates in
  let? matching := after_cursor q (sorted_by latest_first matching) in
  let has_more := gq_limit q <? zlen matching in
  let selected := py_slice matching 0 (gq_limit q) in
  let cursor_row := if has_more then last selected else None in
  let? rows := with_scopes q candidates selected in
  let? nodes := rmap (stored_memory_graph_node t) (sorted_by latest_first (dvals rows)) in
  Ok {| gp_key := gq_key q; gp_as_of_seq := th_next_seq (mt_state t) - 1; gp_nodes := nodes;
        gp_matched_node_ids := map n_node_id selected; gp_has_more := has_more;
        gp_next_started_at := n_started_at <$> cursor_row;
        gp_next_node_id := n_node_id <$> cursor_row;
        gp_relationship_evidence_missing :=
          existsb (fun row => negb (absent (n_link_issue row))) candidates |}.

Definition query_trace_graph (q : TraceGraphQueryRequest)
    : M World trace_exn StoredTraceGraphPage :=
  let* thread := exact_thread (gq_key q) in
  lift (query_page thread q).
End query.
