(* ===== verification/TraceQueryFacts.v ===== *)
(** Tracing: facts of graph queries - the merged nodes of a lineage are told apart by
    their identifiers and located in the log, pages follow the order of the nodes
    without gap or repetition, and the scopes a page adds are closed. *)
From S2P Require Import Prelude PyDict PySeq Contracts TraceModels TraceGraph TraceGraphFacts.
From S2P Require Import TraceLedger TraceMemory TraceSteps TraceFacts TraceInvariant TraceSystem.
From S2P Require Import TraceLocated TraceQuery.
From Stdlib Require Import Sorting.Sorted.

(** ** Choosing among values *)

Lemma min_by_in {A} (key : A -> Z) x l : min_by key x l ∈ x :: l.
Proof.
  unfold min_by. revert x. induction l as [|y l IH]; intros x; simpl; [by left|].
  specialize (IH (if key y <? key x then y else x)). case_match; set_solver.
Qed.

Lemma max_by_in {A} (key : A -> Z) x l : max_by key x l ∈ x :: l.
Proof.
  unfold max_by. revert x. induction l as [|y l IH]; intros x; simpl; [by left|].
  specialize (IH (if key x <? key y then y else x)). case_match; set_solver.
Qed.

Lemma zmax_in l z : zmax l = Some z -> z ∈ l.
Proof.
  destruct l as [|x l]; [done|]. simpl. intros [= <-]. revert x.
  induction l as [|y l IH]; intros x; simpl; [by left|].
  specialize (IH (Z.max x y)). destruct (Z.max_spec x y) as [[_ E1]|[_ E1]];
    rewrite E1 in IH |- *; set_solver.
Qed.

Lemma latest_value_in {A} (get : ReducedTraceGraphNode -> option A) nodes v :
  latest_value get nodes = Some v -> exists n, n ∈ nodes /\ get n = Some v.
Proof.
  unfold latest_value. intros H. assert (v ∈ omap get (rev nodes)) as Hv.
  { destruct (omap get (rev nodes)) as [|w ws]; [done|]. injection H as ->. by left. }
  apply list_elem_of_omap in Hv as (n & Hn & ?). exists n. split; [|done].
  by apply list_elem_of_In, in_rev, list_elem_of_In.
Qed.

(** ** Merged nodes *)

(** The rows of an identifier in a lineage. *)
Definition rows_of (run_ids : list pystr) (node_id : pystr)
    (revisions : list ReducedTraceGraphRevision) : list ReducedTraceGraphRevision :=
  List.filter (fun r => bool_decide (revision_run_id r ∈ run_ids) &&
                        bool_decide (revision_node_id r = node_id)) revisions.

Lemma group_lookup run_ids revisions :
  dwf (group_revisions run_ids revisions) /\
  forall id, default [] (dget (group_revisions run_ids revisions) id) =
             rows_of run_ids id revisions.
Proof.
  unfold group_revisions. induction revisions as [|r rs [Hwf IH]] using rev_ind.
  { split; [apply dwf_nil|done]. }
  rewrite foldl_app. simpl. split.
  - case_match; [by apply dwf_dset|done].
  - intros id. unfold rows_of. rewrite List.filter_app. simpl.
    fold (rows_of run_ids id rs). rewrite <-IH.
    destruct (bool_decide (revision_run_id r ∈ run_ids)); simpl; [|by rewrite app_nil_r].
    rewrite dget_dset. case_bool_decide as Hid.
    + by rewrite decide_True, Hid by done.
    + rewrite decide_False by done. by rewrite app_nil_r.
Qed.

Lemma merge_id id values n : merge_revisions id values = Some n -> n_node_id n = id.
Proof. unfold merge_revisions. repeat case_match; by intros [= <-]. Qed.

Lemma effective_in run_ids revisions n :
  n ∈ effective_graph_nodes run_ids revisions ->
  merge_revisions (n_node_id n) (rows_of run_ids (n_node_id n) revisions) = Some n.
Proof.
  unfold effective_graph_nodes.
  destruct (group_lookup run_ids revisions) as [Hwf Hrows].
  intros ([id vs] & Hin & Hm)%list_elem_of_omap. simpl in Hm.
  pose proof (merge_id _ _ _ Hm) as ->. rewrite <-Hrows.
  by rewrite (elem_of_dget _ _ _ Hwf Hin).
Qed.

(** A lineage has one node per identifier. *)
Lemma effective_ids run_ids revisions :
  NoDup (map n_node_id (effective_graph_nodes run_ids revisions)).
Proof.
  unfold effective_graph_nodes. destruct (group_lookup run_ids revisions) as [Hwf _].
  revert Hwf. unfold dwf, dkeys. induction (group_revisions run_ids revisions) as [|[id vs] d IH];
    simpl; [constructor|]. intros [Hnot Hwf]%NoDup_cons. specialize (IH Hwf).
  destruct (merge_revisions id vs) as [n|] eqn:Em; [|done].
  simpl. apply NoDup_cons. split; [|done]. rewrite (merge_id _ _ _ Em).
  intros (n' & Hid & ([id' vs'] & Hin & Hm)%list_elem_of_omap)%list_elem_of_fmap.
  apply Hnot. apply merge_id in Hm. simpl in Hm. apply list_elem_of_fmap.
  exists (id', vs'). split; [|done]. simpl. congruence.
Qed.

(** The log has an event with this number, of one of the runs. *)
Definition in_lineage (l : list TraceEvent) (runs : list pystr) (s : Z) : Prop :=
  exists e, e ∈ l /\ ev_trace_seq e = s /\ f_run_id (ev_fact e) ∈ runs.

Record node_located (l : list TraceEvent) (runs : list pystr) (n : ReducedTraceGraphNode)
    : Prop := {
  nl_run : n_run_id n ∈ runs;
  nl_started : in_lineage l runs (n_started_seq n);
  nl_updated : in_lineage l runs (n_updated_seq n);
  nl_request s : n_request_seq n = Some s -> in_lineage l runs s;
  nl_result s : n_result_seq n = Some s -> in_lineage l runs s;
  nl_failure s : n_failure_seq n = Some s -> in_lineage l runs s;
  nl_call s : n_model_call_seq n = Some s -> in_lineage l runs s
}.

Lemma locates_lineage l runs run s : run ∈ runs -> locates l run s -> in_lineage l runs s.
Proof. intros Hr (e & ? & ? & <-). by exists e. Qed.

Lemma merged_located l runs id latest nodes :
  latest ∈ nodes -> (forall n, n ∈ nodes -> n_run_id n ∈ runs /\ row_located l n) ->
  node_located l runs (merge_nodes id latest nodes).
Proof.
  intros Hlast Hn.
  assert (forall n, n ∈ nodes -> in_lineage l runs (n_started_seq n)) as Hstart.
  { intros n Hin. destruct (Hn n Hin) as [? []]. by eapply locates_lineage. }
  assert (forall (get : ReducedTraceGraphNode -> option Z) s,
    (forall n, n ∈ nodes -> located l (n_run_id n) (get n)) -> s ∈ omap get nodes ->
    in_lineage l runs s) as Hget.
  { intros get s Hloc (n & Hin & Hs)%list_elem_of_omap. destruct (Hn n Hin).
    eapply locates_lineage; [done|]. by apply (Hloc n Hin). }
  unfold merge_nodes.
  set (origin := match nodes with n :: ns => min_by n_started_seq n ns | [] => latest end).
  assert (origin ∈ nodes) as Horigin.
  { unfold origin. destruct nodes; [done|]. apply min_by_in. }
  set (timing := match List.filter execution_start nodes with
    | n :: ns => if is_execution (n_kind latest) then max_by n_updated_seq n ns else origin
    | [] => origin end).
  assert (timing ∈ nodes) as Htiming.
  { unfold timing. destruct (List.filter execution_start nodes) as [|n ns] eqn:Ef; [done|].
    case_match; [|done]. pose proof (max_by_in n_updated_seq n ns) as Hin. rewrite <-Ef in Hin.
    by apply list_elem_of_In, filter_In in Hin as [?%list_elem_of_In _]. }
  destruct (Hn latest Hlast) as [Hrun []].
  split; simpl; auto.
  - by eapply locates_lineage.
  - intros s Hs%zmax_in. eapply Hget; [|exact Hs]. intros n Hin. by destruct (Hn n Hin) as [_ []].
  - intros s Hs%zmax_in%list_elem_of_In%filter_In. destruct Hs as [Hs%list_elem_of_In _].
    eapply Hget; [|exact Hs]. intros n Hin. by destruct (Hn n Hin) as [_ []].
  - intros s. case_match; [|done]. intros Hs%zmax_in%list_elem_of_In%filter_In.
    destruct Hs as [Hs%list_elem_of_In _].
    eapply Hget; [|exact Hs]. intros n Hin. by destruct (Hn n Hin) as [_ []].
  - intros s (n & Hin & Hs)%latest_value_in. destruct (Hn n Hin) as [? []].
    eapply locates_lineage; [done|]. auto.
Qed.

Lemma effective_located l runs g n :
  graph_ok g -> graph_located l g ->
  n ∈ effective_graph_nodes runs
        (List.filter (fun r => bool_decide (revision_run_id r ∈ runs)) (dvals g)) ->
  node_located l runs n.
Proof.
  intros [Hwf Hok] Hg Hin%effective_in. unfold merge_revisions in Hin.
  set (ordered := sorted_by in_update_order _) in Hin.
  destruct (last ordered) as [[latest|]|] eqn:El; [|done..]. injection Hin as <-.
  assert (forall r, r ∈ ordered -> revision_run_id r ∈ runs /\ r ∈ dvals g) as Hsub.
  { intros r Hr%elem_of_sorted_by. unfold rows_of in Hr.
    apply list_elem_of_In, filter_In in Hr as [Hr%list_elem_of_In Hb].
    apply list_elem_of_In, filter_In in Hr as [Hr%list_elem_of_In _]. by bool_prop. }
  apply merged_located.
  - apply list_elem_of_omap. exists (Node latest). split; [|done].
    apply last_Some in El as [? ->]. set_solver.
  - intros m (r & Hr & Hn)%list_elem_of_omap. destruct r as [m0|]; [|done].
    injection Hn as ->. destruct (Hsub _ Hr) as [? (key & Hk)%elem_of_dvals]; [|done].
    split; [done|]. by eapply Hg.
Qed.

(** ** Evidence *)

Section evidence.
Context {hash : ScopeHash} {json : TraceJson} {clock : TraceClock} {laws : TraceJsonLaws}.
Context (l : TraceLimits).

(** The record of the event with this number. *)
Lemma ledger_event_located key t runs s :
  thread_ok l key t -> in_lineage (log t) runs s ->
  exists m, ledger_event t s = Ok m /\ m ∈ mt_events t /\
    ev_trace_seq (me_validated_event m) = s /\
    st_run_id (me_record m) = f_run_id (ev_fact (me_validated_event m)) /\
    f_run_id (ev_fact (me_validated_event m)) ∈ runs.
Proof.
  intros Ht (e & He & Hs & Hrun). apply list_elem_of_lookup in He as [i Hi].
  pose proof (eo_seq _ _ _ _ (to_event _ _ _ Ht _ _ Hi)) as Hseq.
  unfold log in Hi. apply list_lookup_fmap_Some in Hi as (m & -> & Hm).
  assert (m ∈ mt_events t) as Hin by (by eapply list_elem_of_lookup_2).
  pose proof (lookup_lt_Some _ _ _ Hm) as Hlt.
  exists m. unfold ledger_event. rewrite py_index_in by (unfold zlen; lia).
  replace (Z.to_nat (s - 1)) with i by lia. rewrite Hm. split; [done|]. split; [done|].
  split; [done|]. split; [|done]. by destruct (to_record _ _ _ Ht _ Hin) as (_ & _ & ? & _).
Qed.

Lemma optional_event_located key t runs o :
  thread_ok l key t -> (forall s, o = Some s -> in_lineage (log t) runs s) ->
  exists r, optional_event t o = Ok r /\
    (fun m => ev_trace_seq (me_validated_event m)) <$> r = o.
Proof.
  intros Ht Ho. destruct o as [s|]; simpl; [|by exists None].
  destruct (ledger_event_located _ _ _ _ Ht (Ho s eq_refl)) as (m & -> & _ & Hs & _).
  exists (Some m). split; [done|]. simpl. by rewrite Hs.
Qed.

(** A stored node carries the events its numbers name. *)
Record backed (t : MemoryThread) (g : StoredTraceGraphNode) : Prop := {
  bk_started : ev_trace_seq (me_validated_event (sg_started_event g)) = n_started_seq (sg_row g);
  bk_updated : ev_trace_seq (me_validated_event (sg_updated_event g)) = n_updated_seq (sg_row g);
  bk_request : (fun m => ev_trace_seq (me_validated_event m)) <$> sg_request_event g =
    n_request_seq (sg_row g);
  bk_result : (fun m => ev_trace_seq (me_validated_event m)) <$> sg_result_event g =
    n_result_seq (sg_row g);
  bk_failure : (fun m => ev_trace_seq (me_validated_event m)) <$> sg_failure_event g =
    n_failure_seq (sg_row g);
  bk_call : (fun m => ev_trace_seq (me_validated_event m)) <$> sg_model_call_event g =
    n_model_call_seq (sg_row g);
  bk_log : sg_started_event g ∈ mt_events t /\ sg_updated_event g ∈ mt_events t
}.

Lemma stored_node_backed key t runs row :
  thread_ok l key t -> node_located (log t) runs row ->
  exists g, stored_memory_graph_node t row = Ok g /\ sg_row g = row /\ backed t g.
Proof.
  intros Ht []. unfold stored_memory_graph_node.
  destruct (ledger_event_located _ _ _ _ Ht nl_started0) as (m1 & -> & ? & ? & _).
  destruct (ledger_event_located _ _ _ _ Ht nl_updated0) as (m2 & -> & ? & ? & _).
  destruct (optional_event_located _ _ _ _ Ht nl_request0) as (r1 & -> & ?).
  destruct (optional_event_located _ _ _ _ Ht nl_result0) as (r2 & -> & ?).
  destruct (optional_event_located _ _ _ _ Ht nl_failure0) as (r3 & -> & ?).
  destruct (optional_event_located _ _ _ _ Ht nl_call0) as (r4 & -> & ?).
  simpl. eexists. split; [done|]. by split.
Qed.

(** What a request asks of a node: its filter, and that the node started in one of the
    runs it names. *)
Definition wanted (events : list TraceEvent) (q : TraceGraphQueryRequest)
    (row : ReducedTraceGraphNode) : bool :=
  node_selected (gq_where q) row &&
  match gq_node_ids q with Some ids => bool_decide (n_node_id row ∈ ids) | None => true end &&
  match gq_started_run_ids q with
  | Some runs => existsb (fun e => (ev_trace_seq e =? n_started_seq row) &&
                                   bool_decide (f_run_id (ev_fact e) ∈ runs)) events
  | None => true
  end.

Lemma NoDup_map_in {A B} (f : A -> B) (xs : list A) x y :
  NoDup (map f xs) -> x ∈ xs -> y ∈ xs -> f x = f y -> x = y.
Proof.
  induction xs as [|z xs IH]; simpl; [set_solver|]. intros [Hz Hxs]%NoDup_cons Hx Hy E1.
  apply elem_of_cons in Hx as [->|Hx], Hy as [->|Hy]; [done|..|auto].
  - destruct Hz. rewrite E1. by apply list_elem_of_fmap_2.
  - destruct Hz. rewrite <-E1. by apply list_elem_of_fmap_2.
Qed.

Lemma started_in key t runs (rs : list pystr) s m :
  thread_ok l key t -> in_lineage (log t) runs s -> ledger_event t s = Ok m ->
  bool_decide (st_run_id (me_record m) ∈ rs) =
  existsb (fun e => (ev_trace_seq e =? s) && bool_decide (f_run_id (ev_fact e) ∈ rs)) (log t).
Proof.
  intros Ht Hs Hm. destruct (ledger_event_located _ _ _ _ Ht Hs) as (m' & Hm' & Hin & Hseq & Hrun & _).
  rewrite Hm in Hm'. injection Hm' as <-. rewrite Hrun.
  assert (me_validated_event m ∈ log t) as He by (by apply list_elem_of_fmap_2).
  destruct (log_distinct l key t Ht) as [Hnd _].
  apply eq_true_iff_eq. rewrite bool_decide_eq_true, existsb_exists. split.
  - intros Hr. exists (me_validated_event m). split; [by apply list_elem_of_In|].
    by rewrite Hseq, Z.eqb_refl, bool_decide_eq_true_2.
  - intros (e & He'%list_elem_of_In & Hb). bool_prop.
    assert (e = me_validated_event m) as ->; [|done].
    apply (NoDup_map_in ev_trace_seq (log t)); [done..|congruence].
Qed.

(** ** Pages *)

Lemma matching_filter key t q candidates :
  thread_ok l key t -> wh_search (gq_where q) = None ->
  (forall row, row ∈ candidates -> node_located (log t) (gq_run_ids q) row) ->
  matching_rows t q candidates = Ok (List.filter (wanted (log t) q) candidates).
Proof.
  intros Ht Hsearch Hloc. unfold matching_rows.
  set (f := fun row => node_selected (gq_where q) row && match gq_node_ids q with
    Some ids => bool_decide (n_node_id row ∈ ids) | None => true end).
  rewrite (rfilter_ok _ f) by (intros row _; unfold graph_node_matches; by rewrite Hsearch).
  simpl. unfold wanted. destruct (gq_started_run_ids q) as [rs|].
  - rewrite (rfilter_ok _ (fun row => existsb (fun e => (ev_trace_seq e =? n_started_seq row) &&
      bool_decide (f_run_id (ev_fact e) ∈ rs)) (log t))).
    + f_equal. clear. induction candidates as [|x xs IH]; simpl; [done|]. fold (f x).
      destruct (f x); simpl; [|done]. by destruct (existsb _ (log t)); rewrite IH.
    + intros row [Hrow%list_elem_of_In _]%list_elem_of_In%filter_In.
      destruct (ledger_event_located _ _ _ _ Ht (nl_started _ _ _ (Hloc _ Hrow))) as (m & Hm & _).
      rewrite Hm. simpl. f_equal. eapply started_in; eauto. by apply nl_started, Hloc.
  - f_equal. apply filter_ext. intros row. by rewrite andb_true_r.
Qed.
End evidence.

(** ** The order of nodes, and the pages cut from it *)

Section pages.
Context {hash : ScopeHash} {json : TraceJson} {clock : TraceClock}.
Context {order : NodeOrder} {order_laws : NodeOrderLaws}.

(** [b] comes after [a]. *)
Definition comes_after (a b : ReducedTraceGraphNode) : Prop :=
  pair_ltb (row_key b) (row_key a) = true.

Lemma sorted_descending xs :
  NoDup (map n_node_id xs) -> StronglySorted comes_after (sorted_by latest_first xs).
Proof.
  intros Hnd. assert (NoDup (map n_node_id (sorted_by latest_first xs))) as Hnd'
    by (by rewrite (sorted_by_perm latest_first xs)).
  pose proof (sorted_by_sorted latest_first xs) as Hs. clear Hnd.
  induction Hs as [|x l Hl IH Hx]; [constructor|]. simpl in Hnd'.
  apply NoDup_cons in Hnd' as [Hnot Hnd']. constructor; [by apply IH|].
  rewrite Forall_forall in *. intros y Hy. specialize (Hx y Hy).
  apply Is_true_true in Hx. unfold latest_first, key_geb in Hx. apply negb_true_iff in Hx.
  unfold comes_after. destruct (pair_ltb (row_key y) (row_key x)) eqn:E1; [done|].
  destruct Hnot. pose proof (pair_ltb_total _ _ Hx E1) as E2. injection E2 as _ E2.
  apply node_order_inj in E2. rewrite E2. by apply list_elem_of_fmap_2.
Qed.

(** After a cursor: what follows it. *)
Lemma filter_after l1 c l2 :
  StronglySorted comes_after (l1 ++ c :: l2) ->
  List.filter (fun row => pair_ltb (row_key row) (row_key c)) (l1 ++ c :: l2) = l2.
Proof.
  induction l1 as [|x l1 IH]; simpl; intros Hs; inversion_clear Hs as [|? ? Hl Hx];
    rewrite Forall_forall in Hx.
  - rewrite pair_ltb_irrefl. apply forallb_filter_id, forallb_forall.
    intros y Hy%list_elem_of_In. by apply Hx.
  - rewrite (st_asym pair_ltb); [by apply IH|]. apply Hx. set_solver.
Qed.

Lemma py_take {A} (l : list A) n : 0 <= n -> py_slice l 0 n = take (Z.to_nat n) l.
Proof.
  intros Hn. unfold py_slice, slice_bound. simpl.
  by rewrite (proj2 (Z.ltb_ge n 0) Hn), drop_0.
Qed.

(** The next request of a client that has read a page. *)
Definition after_page (q : TraceGraphQueryRequest) (p : StoredTraceGraphPage)
    : TraceGraphQueryRequest :=
  {| gq_key := gq_key q; gq_run_ids := gq_run_ids q; gq_where := gq_where q;
     gq_limit := gq_limit q; gq_total_limit := gq_total_limit q;
     gq_before_started_at := gp_next_started_at p; gq_before_node_id := gp_next_node_id p;
     gq_node_ids := gq_node_ids q; gq_started_run_ids := gq_started_run_ids q |}.

(** What a page says of the rows [rest] that follow the request's cursor. *)
Lemma page_of_rest t q matching rest p :
  1 <= gq_limit q -> matching_rows t q (candidates_of t q) = Ok matching ->
  after_cursor q (sorted_by latest_first matching) = Ok rest -> query_page t q = Ok p ->
  gp_matched_node_ids p = map n_node_id (take (Z.to_nat (gq_limit q)) rest) /\
  gp_has_more p = (gq_limit q <? zlen rest) /\
  (gp_has_more p = true ->
    exists l1 c l2, rest = l1 ++ c :: l2 /\ take (Z.to_nat (gq_limit q)) rest = l1 ++ [c] /\
      gp_next_started_at p = Some (n_started_at c) /\ gp_next_node_id p = Some (n_node_id c)).
Proof.
  intros Hlim Hm Hr. unfold query_page. rewrite Hm. simpl. rewrite Hr. simpl.
  intros (rows & _ & H)%rbind_ok. apply rbind_ok in H as (nodes & _ & H).
  injection H as <-. simpl. rewrite py_take by lia. split; [done|]. split; [done|].
  intros Hmore. rewrite Hmore. apply Z.ltb_lt in Hmore.
  destruct (last (take (Z.to_nat (gq_limit q)) rest)) as [c|] eqn:El.
  - apply last_Some in El as [l1 El]. exists l1, c, (drop (Z.to_nat (gq_limit q)) rest).
    simpl. split; [|done]. by rewrite <-(take_drop (Z.to_nat (gq_limit q)) rest) at 1;
      rewrite El, <-app_assoc.
  - apply last_None in El. destruct rest; [by unfold zlen in Hmore; simpl in Hmore; lia|].
    destruct (Z.to_nat (gq_limit q)) eqn:En; [lia|done].
Qed.

(** Reading page after page. *)
Fixpoint follow_pages (fuel : nat) (t : MemoryThread) (q : TraceGraphQueryRequest)
    : res trace_exn (list StoredTraceGraphPage) :=
  match fuel with
  | O => Ok []
  | S fuel =>
      let? p := query_page t q in
      if gp_has_more p then let? ps := follow_pages fuel t (after_page q p) in Ok (p :: ps)
      else Ok [p]
  end.

Lemma follow_pages_rest fuel t q matching pre rest ps :
  1 <= gq_limit q -> matching_rows t q (candidates_of t q) = Ok matching ->
  NoDup (map n_node_id matching) -> sorted_by latest_first matching = pre ++ rest ->
  after_cursor q (sorted_by latest_first matching) = Ok rest ->
  (List.length rest < fuel)%nat -> follow_pages fuel t q = Ok ps ->
  concat (map gp_matched_node_ids ps) = map n_node_id rest /\
  Forall (fun p => zlen (gp_matched_node_ids p) <= gq_limit q) ps.
Proof.
  intros Hlim Hm Hnd. revert q pre rest ps Hlim Hm.
  induction fuel as [|fuel IH]; intros q pre rest ps Hlim Hm Hsplit Hr Hfuel; [lia|].
  cbn [follow_pages]. intros (p & Hp & H)%rbind_ok.
  destruct (page_of_rest t q matching rest p Hlim Hm Hr Hp) as (Hids & Hmore & Hnext).
  assert (zlen (gp_matched_node_ids p) <= gq_limit q) as Hlen.
  { rewrite Hids, zlen_map. unfold zlen. rewrite length_take. lia. }
  destruct (gp_has_more p); cycle 1.
  { injection H as <-. simpl. rewrite app_nil_r, Hids, take_ge; [auto|].
    symmetry in Hmore. apply Z.ltb_ge in Hmore. unfold zlen in Hmore. lia. }
  apply rbind_ok in H as (ps' & Hps & H). injection H as <-.
  destruct (Hnext eq_refl) as (l1 & c & l2 & Hrest & Htake & Hat & Hid).
  assert (sorted_by latest_first matching = (pre ++ l1) ++ c :: l2) as Hs
    by (by rewrite Hsplit, Hrest, <-app_assoc).
  destruct (IH (after_page q p) ((pre ++ l1) ++ [c]) l2 ps') as [Hc Hall]; try done.
  - rewrite Hs. by rewrite <-!app_assoc.
  - unfold after_cursor. simpl. rewrite Hat, Hid, Hs.
    assert ((n_started_at c, node_order_key (n_node_id c)) = row_key c) as -> by done.
    rewrite filter_after; [done|]. rewrite <-Hs. by apply sorted_descending.
  - rewrite Hrest, length_app in Hfuel. simpl in Hfuel. lia.
  - simpl. rewrite Hc, Hids, Htake, Hrest, <-map_app, <-app_assoc. split; [done|].
    by constructor.
Qed.
End pages.

(** ** The scopes of the selected nodes *)

Section scopes.
Context {hash : ScopeHash} {json : TraceJson} {clock : TraceClock} {order : NodeOrder}.
Context (candidates : dict pystr ReducedTraceGraphNode) (q : TraceGraphQueryRequest).
Context (Hcand : forall id r, dget candidates id = Some r ->
  n_node_id r = id /\ n_run_id r ∈ gq_run_ids q).
Implicit Types (rows : dict pystr ReducedTraceGraphNode).

Lemma contains_node_true rows id : contains_node rows id = true <-> is_Some (dget rows id).
Proof.
  unfold contains_node. destruct (dget rows id); simpl; split; [eauto|done|done|by intros []].
Qed.

(** The rows of a page under construction: candidates, under their identifiers. *)
Definition page_rows rows : Prop :=
  dwf rows /\ forall id r, dget rows id = Some r -> dget candidates id = Some r.

(** Every parent is there, or is one of these. *)
Definition closed_but (P : pystr -> Prop) rows : Prop :=
  forall id r p, dget rows id = Some r -> n_parent_subagent_id r = Some p ->
    is_Some (dget rows p) \/ P p.

Definition extends rows rows' : Prop :=
  forall id r, dget rows id = Some r -> dget rows' id = Some r.

Lemma closed_mono (P P' : pystr -> Prop) rows :
  (forall p, P p -> P' p) -> closed_but P rows -> closed_but P' rows.
Proof. intros H Hc id r p Hr Hp. destruct (Hc id r p Hr Hp); auto. Qed.

Lemma set_add_in x (l : list pystr) y : y ∈ set_add x l <-> y = x \/ y ∈ l.
Proof. unfold set_add. case_decide; set_solver. Qed.

Lemma add_parents_ok total parents rows next (P : pystr -> Prop) :
  (forall r, r ∈ parents -> dget candidates (n_node_id r) = Some r) ->
  page_rows rows -> zlen rows <= total -> closed_but (fun p => p ∈ next \/ P p) rows ->
  match add_parents total parents rows next with
  | Ok (rows', next') =>
      page_rows rows' /\ zlen rows' <= total /\ extends rows rows' /\
      closed_but (fun p => p ∈ next' \/ P p) rows' /\
      (forall r, r ∈ parents -> is_Some (dget rows' (n_node_id r))) /\
      (forall p, p ∈ next' -> p ∈ next \/
        exists r, r ∈ parents /\ n_parent_subagent_id r = Some p)
  | Raise e => e = TraceQuotaExceeded
  end.
Proof.
  revert rows next. induction parents as [|parent parents IH]; intros rows next Hpar Hrows Hlen Hc;
    cbn [add_parents].
  { split; [done|]. split; [done|]. split; [by intros ?|]. split; [done|]. split; set_solver. }
  pose proof (Hpar parent ltac:(by left)) as Hparent.
  assert (forall r, r ∈ parents -> dget candidates (n_node_id r) = Some r) as Hpar'
    by (intros; apply Hpar; by right).
  destruct (contains_node rows (n_node_id parent)) eqn:Eh.
  - apply contains_node_true in Eh as [r0 Hr0].
    specialize (IH rows next Hpar' Hrows Hlen Hc).
    destruct (add_parents total parents rows next) as [[rows' next']|]; [|done].
    destruct IH as (H1 & H2 & H3 & H4 & H5 & H6). tsplit; try done.
    + intros r [->|Hr]%elem_of_cons; [|auto]. by rewrite (H3 _ _ Hr0).
    + intros p Hp. destruct (H6 p Hp) as [|(r & ? & ?)]; [auto|]. right. exists r. set_solver.
  - destruct (total <=? zlen rows) eqn:El; [done|]. cbn [rbind rraise_if].
    set (rows1 := dset rows (n_node_id parent) parent).
    set (next1 := match missing_parent rows1 parent with Some p => set_add p next | None => next end).
    assert (dget rows (n_node_id parent) = None) as Hnone.
    { destruct (dget rows (n_node_id parent)) eqn:E1; [|done].
      assert (contains_node rows (n_node_id parent) = true); [|congruence].
      by apply contains_node_true. }
    assert (extends rows rows1) as Hext.
    { intros id r Hr. unfold rows1. rewrite dget_dset_ne; [done|]. intros <-. congruence. }
    assert (page_rows rows1) as Hrows1.
    { destruct Hrows as [Hwf Hr]. split; [by apply dwf_dset|]. intros id r. unfold rows1.
      rewrite dget_dset. case_decide; [|apply Hr]. intros [= <-]. by subst id. }
    assert (zlen rows1 <= total) as Hlen1.
    { unfold rows1. pose proof (zlen_dset_le rows (n_node_id parent) parent). lia. }
    assert (forall p, p ∈ next1 <-> p ∈ next \/ missing_parent rows1 parent = Some p) as Hnext1.
    { intros p. unfold next1. destruct (missing_parent rows1 parent) as [p0|].
      - rewrite set_add_in. naive_solver.
      - naive_solver. }
    assert (closed_but (fun p => p ∈ next1 \/ P p) rows1) as Hc1.
    { intros id r p Hr Hp. rewrite Hnext1. unfold rows1 in Hr. rewrite dget_dset in Hr.
      case_decide; [injection Hr as <-|].
      - unfold missing_parent. rewrite Hp. destruct (contains_node rows1 p) eqn:E1; [|auto].
        left. by apply contains_node_true.
      - destruct (Hc id r p Hr Hp) as [[r0 Hr0]|[]]; auto. left. by rewrite (Hext _ _ Hr0). }
    specialize (IH rows1 next1 Hpar' Hrows1 Hlen1 Hc1).
    destruct (add_parents total parents rows1 next1) as [[rows' next']|]; [|done].
    destruct IH as (H1 & H2 & H3 & H4 & H5 & H6). tsplit; try done.
    + intros id r Hr. auto.
    + intros r [->|Hr]%elem_of_cons; [|auto]. eexists. apply H3. unfold rows1.
      by rewrite dget_dset_eq.
    + intros p Hp. destruct (H6 p Hp) as [Hp1|(r & ? & ?)]; [|right; exists r; set_solver].
      apply Hnext1 in Hp1 as [|Hp1]; [auto|]. right. exists parent. split; [by left|].
      unfold missing_parent in Hp1. destruct (n_parent_subagent_id parent) as [p0|]; [|done].
      destruct (contains_node rows1 p0); congruence.
Qed.

(** The scope [n] levels above a node. *)
Fixpoint scope_above (n : nat) (row : ReducedTraceGraphNode) : option ReducedTraceGraphNode :=
  match n with
  | O => Some row
  | S n =>
      match scope_above n row with
      | Some r => match n_parent_subagent_id r with Some p => dget candidates p | None => None end
      | None => None
      end
  end.

Lemma parents_in pending r :
  r ∈ List.filter (fun row => bool_decide (n_run_id row ∈ gq_run_ids q))
        (omap (dget candidates) (sorted_by (key_leb id str_ltb) pending)) <->
  exists p, p ∈ pending /\ dget candidates p = Some r.
Proof.
  rewrite list_elem_of_In, filter_In, <-list_elem_of_In, list_elem_of_omap. split.
  - intros [(p & Hp & Hr) _]. rewrite elem_of_sorted_by in Hp. eauto.
  - intros (p & Hp & Hr). split.
    + exists p. by rewrite elem_of_sorted_by.
    + apply bool_decide_eq_true_2. by destruct (Hcand _ _ Hr).
Qed.

(** Too deep: some selected node is nested in more scopes than allowed. *)
Definition too_deep (selected : list ReducedTraceGraphNode) : Prop :=
  exists row, row ∈ selected /\
    is_Some (scope_above (S (Z.to_nat MAX_SUBAGENT_SCOPE_DEPTH)) row).

Lemma subagent_scopes_ok selected fuel depth pending rows :
  (fuel + depth = S (S (Z.to_nat MAX_SUBAGENT_SCOPE_DEPTH)))%nat -> (1 <= depth)%nat ->
  (fuel = O -> pending = []) ->
  page_rows rows -> zlen rows <= gq_total_limit q ->
  closed_but (fun p => p ∈ pending \/ dget candidates p = None) rows ->
  (forall p, p ∈ pending -> exists row r, row ∈ selected /\
     scope_above (pred depth) row = Some r /\ n_parent_subagent_id r = Some p) ->
  match subagent_scopes fuel (Z.of_nat depth) q candidates pending rows with
  | Ok rows' => page_rows rows' /\ zlen rows' <= gq_total_limit q /\ extends rows rows' /\
      closed_but (fun p => dget candidates p = None) rows'
  | Raise e => e = TraceQuotaExceeded \/ (e = TraceStoreProtocolError /\ too_deep selected)
  end.
Proof.
  revert depth pending rows. induction fuel as [|fuel IH];
    intros depth pending rows Hfuel Hdepth Hend Hrows Hlen Hc Hpend.
  { rewrite (Hend eq_refl) in Hc. simpl. tsplit; try done; [by intros ?|].
    eapply closed_mono; [|exact Hc]. simpl. set_solver. }
  destruct pending as [|p0 ps].
  { simpl. tsplit; try done; [by intros ?|].
    eapply closed_mono; [|exact Hc]. simpl. set_solver. }
  cbn [subagent_scopes]. set (pending := p0 :: ps) in *. clearbody pending. clear p0 ps.
  set (parents := List.filter _ (omap _ (sorted_by _ pending))).
  assert (forall r, r ∈ parents -> dget candidates (n_node_id r) = Some r) as Hpar.
  { intros r (p & _ & Hr)%parents_in. by destruct (Hcand _ _ Hr) as [-> _]. }
  assert (forall r, r ∈ parents ->
    exists row, row ∈ selected /\ scope_above depth row = Some r) as Habove.
  { intros r (p & Hp & Hr)%parents_in. destruct (Hpend p Hp) as (row & r0 & Hin & Hs & Hp0).
    exists row. split; [done|]. destruct depth as [|depth]; [lia|]. simpl in Hs |- *.
    by rewrite Hs, Hp0. }
  destruct ((MAX_SUBAGENT_SCOPE_DEPTH <? Z.of_nat depth) &&
            match parents with [] => false | _ => true end) eqn:Edeep.
  { right. split; [done|]. destruct parents as [|r rs] eqn:Ep; [by rewrite andb_false_r in Edeep|].
    apply andb_prop in Edeep as [Hd _]. apply Z.ltb_lt in Hd.
    destruct (Habove r ltac:(by left)) as (row & Hin & Hs). exists row. split; [done|].
    replace (S (Z.to_nat MAX_SUBAGENT_SCOPE_DEPTH)) with depth by lia. by rewrite Hs. }
  cbn [rbind rraise_if].
  pose proof (add_parents_ok (gq_total_limit q) parents rows []
    (fun p => (p ∈ pending \/ dget candidates p = None)) Hpar Hrows Hlen) as Hadd.
  specialize (Hadd ltac:(eapply closed_mono; [|exact Hc]; simpl; tauto)).
  destruct (add_parents _ parents rows []) as [[rows' next]|e]; [|by left]. cbn [rbind].
  destruct Hadd as (H1 & H2 & H3 & H4 & H5 & H6).
  replace (Z.of_nat depth + 1) with (Z.of_nat (S depth)) by lia.
  assert (closed_but (fun p => p ∈ next \/ dget candidates p = None) rows') as Hc'.
  { intros id r p Hr Hp. destruct (H4 id r p Hr Hp) as [|[|[Hin|]]]; auto.
    destruct (dget candidates p) as [r0|] eqn:Er; [|auto]. left.
    destruct (Hcand _ _ Er) as [<- _]. apply H5, parents_in. by exists (n_node_id r0). }
  assert (fuel = O -> next = []) as Hlast.
  { intros ->. destruct parents as [|r rs] eqn:Ep.
    - destruct next as [|p next]; [done|]. destruct (H6 p ltac:(by left)) as [|(? & ? & _)];
        set_solver.
    - rewrite andb_true_r in Edeep. apply Z.ltb_ge in Edeep. lia. }
  assert (forall p, p ∈ next -> exists row r, row ∈ selected /\
    scope_above (pred (S depth)) row = Some r /\ n_parent_subagent_id r = Some p) as Hnext.
  { intros p Hp. destruct (H6 p Hp) as [|(r & Hr & Hrp)]; [set_solver|].
    destruct (Habove r Hr) as (row & ? & ?). by exists row, r. }
  specialize (IH (S depth) next rows' ltac:(lia) ltac:(lia) Hlast H1 H2 Hc' Hnext).
  cbn [fst snd]. destruct (subagent_scopes fuel _ q candidates next rows') as [rows2|]; [|exact IH].
  destruct IH as (G1 & G2 & G3 & G4). tsplit; try done. intros id r Hr. auto.
Qed.
End scopes.

Lemma by_node_id_snoc rows r :
  by_node_id (rows ++ [r]) = dset (by_node_id rows) (n_node_id r) r.
Proof. unfold by_node_id. by rewrite foldl_app. Qed.

Lemma by_node_id_ok rows :
  NoDup (map n_node_id rows) ->
  dwf (by_node_id rows) /\ zlen (by_node_id rows) = zlen rows /\
  forall id r, dget (by_node_id rows) id = Some r <-> r ∈ rows /\ n_node_id r = id.
Proof.
  induction rows as [|r rows IH] using rev_ind.
  { intros _. split; [apply dwf_nil|]. split; [done|]. set_solver. }
  rewrite map_app. simpl. intros (Hnd & Hdis & _)%NoDup_app.
  destruct (IH Hnd) as (Hwf & Hlen & Hget). rewrite by_node_id_snoc.
  set (d := by_node_id rows) in *.
  assert (dget d (n_node_id r) = None) as Hnone.
  { destruct (dget d (n_node_id r)) as [r0|] eqn:E1; [|done].
    apply Hget in E1 as [Hin E1]. destruct (Hdis (n_node_id r)); [|by left].
    rewrite <-E1. by apply list_elem_of_fmap_2. }
  split; [by apply dwf_dset|]. split.
  { rewrite zlen_dset, zlen_app, Hlen. by apply dmem_false in Hnone as ->. }
  intros id r0. rewrite dget_dset, elem_of_app, list_elem_of_singleton. case_decide as Hid.
  - subst id. split; [intros [= <-]; auto|]. intros [[Hin| ->] Hid]; [|done].
    destruct (Hdis (n_node_id r)); [|by left]. rewrite <-Hid. by apply list_elem_of_fmap_2.
  - rewrite Hget. naive_solver.
Qed.

Section query.
Context {hash : ScopeHash} {json : TraceJson} {clock : TraceClock} {order : NodeOrder}.

Lemma with_scopes_ok q candidates selected :
  NoDup (map n_node_id candidates) -> NoDup (map n_node_id selected) -> selected ⊆ candidates ->
  (forall r, r ∈ candidates -> n_run_id r ∈ gq_run_ids q) ->
  zlen selected <= gq_total_limit q ->
  match with_scopes q candidates selected with
  | Ok rows =>
      dwf rows /\ zlen rows <= gq_total_limit q /\
      (forall id r, dget rows id = Some r -> n_node_id r = id /\ r ∈ candidates) /\
      (forall r, r ∈ selected -> dget rows (n_node_id r) = Some r) /\
      (forall r p parent, r ∈ dvals rows -> n_parent_subagent_id r = Some p ->
         parent ∈ candidates -> n_node_id parent = p -> parent ∈ dvals rows)
  | Raise e => e = TraceQuotaExceeded \/
      (e = TraceStoreProtocolError /\ too_deep (by_node_id candidates) selected)
  end.
Proof.
  intros Hc Hs Hsub Hrun Hlen. destruct (by_node_id_ok _ Hc) as (_ & _ & Hcand).
  destruct (by_node_id_ok _ Hs) as (Hwf & Hz & Hsel). unfold with_scopes.
  set (rows := by_node_id selected) in *. set (cands := by_node_id candidates) in *.
  assert (forall id r, dget cands id = Some r -> n_node_id r = id /\ n_run_id r ∈ gq_run_ids q)
    as Hcr by (intros id r [? ?]%Hcand; auto).
  assert (page_rows cands rows) as Hpage.
  { split; [done|]. intros id r [? ?]%Hsel. apply Hcand. auto. }
  set (pending := remove_dups (omap (missing_parent rows) selected)).
  assert (forall p, p ∈ pending <-> exists r, r ∈ selected /\ missing_parent rows r = Some p) as Hpend.
  { intros p. unfold pending. by rewrite elem_of_remove_dups, list_elem_of_omap. }
  assert (closed_but (fun p => p ∈ pending \/ dget cands p = None) rows) as Hclosed.
  { intros id r p [Hr _]%Hsel Hp. destruct (contains_node rows p) eqn:Eh.
    - left. by apply contains_node_true.
    - right. left. apply Hpend. exists r. split; [done|]. unfold missing_parent.
      by rewrite Hp, Eh. }
  pose proof (subagent_scopes_ok cands q Hcr selected
    (Z.to_nat (MAX_SUBAGENT_SCOPE_DEPTH + 1)) 1 pending rows ltac:(done) ltac:(lia) ltac:(done)
    Hpage ltac:(lia) Hclosed) as Hok.
  assert (forall p, p ∈ pending -> exists row r, row ∈ selected /\
    scope_above cands (pred 1) row = Some r /\ n_parent_subagent_id r = Some p) as Habove.
  { intros p (r & Hr & Hm)%Hpend. exists r, r. split; [done|]. split; [done|].
    unfold missing_parent in Hm. destruct (n_parent_subagent_id r) as [p0|]; [|done].
    destruct (contains_node rows p0); congruence. }
  specialize (Hok Habove). change (Z.of_nat 1) with 1 in Hok.
  destruct (subagent_scopes _ 1 q cands pending rows) as [rows'|e]; [|exact Hok].
  destruct Hok as ([Hwf' Hin] & Hlen' & Hext & Hcl). split; [done|]. split; [done|].
  split; [intros id r Hr; by apply Hin, Hcand in Hr as [? ?]|]. split.
  - intros r Hr. apply Hext, Hsel. auto.
  - intros r p parent (id & Hr)%elem_of_dvals Hp Hpar Hid; [|done].
    destruct (Hcl id r p Hr Hp) as [[r0 Hr0]|Hnone].
    + apply elem_of_dvals; [done|]. exists p. rewrite Hr0. f_equal.
      apply Hin in Hr0. assert (dget cands p = Some parent) as Hp0 by by apply Hcand.
      congruence.
    + assert (dget cands p = Some parent) as Hp0 by by apply Hcand. congruence.
Qed.
End query.
