(* ===== verification/TraceQueryProps.v ===== *)
(** Tracing: the theorems on graph queries. *)
From S2P Require Import Prelude PyDict PySeq Contracts TraceModels TraceGraph TraceGraphFacts.
From S2P Require Import TraceLedger TraceMemory TraceSteps TraceFacts TraceInvariant TraceSystem.
From S2P Require Import TraceFinal TraceExample TraceLocated TraceQuery TraceQueryFacts.
From Stdlib Require Import Strings.String.

(** ** Lemmas *)

Section props.
Context {hash : ScopeHash} {json : TraceJson} {laws : TraceJsonLaws} {clock : TraceClock}.
Context {order : NodeOrder} (l : TraceLimits).

Lemma query_stored q w t :
  stored w (gq_key q) t -> query_trace_graph q w = (query_page t q, w).
Proof.
  intros [Hget Hkey]. unfold query_trace_graph, bind, lift, exact_thread, find_thread.
  change (k_namespace (gq_key q), k_thread_id (gq_key q)) with (thread_key (gq_key q)).
  by rewrite Hget, decide_True.
Qed.

(** A client that reads page after page, from the cursor of each to the next. *)
Fixpoint read_pages (fuel : nat) (q : TraceGraphQueryRequest)
    : M World trace_exn (list StoredTraceGraphPage) :=
  match fuel with
  | O => ret []
  | S fuel =>
      let* p := query_trace_graph q in
      if gp_has_more p then let* ps := read_pages fuel (after_page q p) in ret (p :: ps)
      else ret [p]
  end.

Lemma read_pages_follow fuel q w t :
  stored w (gq_key q) t -> read_pages fuel q w = (follow_pages fuel t q, w).
Proof.
  revert q. induction fuel as [|fuel IH]; intros q Hst; [done|]. cbn [read_pages follow_pages].
  unfold bind at 1. rewrite (query_stored q w t) by done.
  destruct (query_page t q) as [p|e]; [|done]. cbn [rbind]. destruct (gp_has_more p); [|done].
  unfold bind. rewrite IH by done. by destruct (follow_pages fuel t (after_page q p)).
Qed.

Lemma candidates_located w q t :
  TraceLimits_valid l = true -> reachable l w -> stored w (gq_key q) t ->
  thread_ok l (thread_key (gq_key q)) t /\
  (forall row, row ∈ candidates_of t q -> node_located (log t) (gq_run_ids q) row) /\
  NoDup (map n_node_id (candidates_of t q)).
Proof.
  intros Hl Hr [Hget _]. pose proof (reachable_system l Hl w Hr) as Hs.
  split; [by apply (so_thread _ _ (sy_store _ _ Hs))|]. split; [|apply effective_ids].
  intros row Hrow. eapply effective_located; [| |exact Hrow].
  - by eapply sy_graph.
  - by eapply reachable_located.
Qed.

Lemma request_valid q :
  TraceGraphQueryRequest_post_init q = Ok tt ->
  1 <= gq_limit q <= gq_total_limit q /\ wh_search (gq_where q) = None /\
  absent (gq_before_started_at q) = absent (gq_before_node_id q).
Proof.
  unfold TraceGraphQueryRequest_post_init. intros H.
  repeat (apply rbind_ok in H as (? & ?%rraise_if_ok & H)). apply rraise_if_ok in H. bool_prop.
  split; [lia|]. split; [by destruct (wh_search (gq_where q))|by apply eqb_prop].
Qed.

(** The matching nodes of a request, in the order of its pages. *)
Definition matches (t : MemoryThread) (q : TraceGraphQueryRequest) : list ReducedTraceGraphNode :=
  sorted_by latest_first (List.filter (wanted (log t) q) (candidates_of t q)).

Lemma after_cursor_filter q ms :
  absent (gq_before_started_at q) = absent (gq_before_node_id q) ->
  exists f, after_cursor q ms = Ok (List.filter f ms).
Proof.
  unfold after_cursor. intros H. destruct (gq_before_started_at q) as [at_|].
  - destruct (gq_before_node_id q) as [id|]; [|done]. eauto.
  - exists (fun _ => true). by rewrite forallb_filter_id by by apply forallb_forall.
Qed.

Lemma NoDup_map_take {A B} (f : A -> B) n xs : NoDup (map f xs) -> NoDup (map f (take n xs)).
Proof. rewrite <-firstn_map. rewrite <-(take_drop n (map f xs)) at 1. by intros [? _]%NoDup_app. Qed.

(** The rows of a page come with their events. *)
Lemma page_nodes key t runs rows :
  thread_ok l key t -> (forall row, row ∈ rows -> node_located (log t) runs row) ->
  exists nodes, rmap (stored_memory_graph_node t) rows = Ok nodes /\ map sg_row nodes = rows /\
    forall g, g ∈ nodes -> backed t g.
Proof.
  intros Ht Hloc. destruct (rmap_ok (stored_memory_graph_node t)
    (fun row g => sg_row g = row /\ backed t g) rows) as (nodes & Hn & Hall).
  { intros row Hrow. eapply stored_node_backed; [done|]. by apply Hloc. }
  exists nodes. split; [done|]. clear Hn Hloc.
  induction Hall as [|row g rows nodes [Hg Hb] _ [IH1 IH2]]; [split; [done|set_solver]|].
  split; [simpl; by rewrite Hg, IH1|]. intros g' [->|Hin]%elem_of_cons; auto.
Qed.

(** ** Theorems *)

(** C17: Page after page, a client sees every matching node once: the identifiers the pages
    match are those of the nodes of the lineage that the request wants, the latest start
    first, whatever the page size; no page matches more than its limit.  Enough turns are
    one more than there are candidates. *)
Theorem query_pages_hold_every_match_once {order_laws : NodeOrderLaws} w q t fuel ps w' :
  TraceLimits_valid l = true -> reachable l w -> stored w (gq_key q) t ->
  TraceGraphQueryRequest_post_init q = Ok tt -> gq_before_started_at q = None ->
  (List.length (candidates_of t q) < fuel)%nat -> read_pages fuel q w = (Ok ps, w') ->
  w' = w /\ List.concat (map gp_matched_node_ids ps) = map n_node_id (matches t q) /\
  NoDup (map n_node_id (matches t q)) /\
  Forall (fun p => zlen (gp_matched_node_ids p) <= gq_limit q) ps.
Proof.
  intros Hl Hr Hst Hq Hcur Hfuel Hread.
  destruct (candidates_located w q t Hl Hr Hst) as (Ht & Hloc & Hnd).
  destruct (request_valid q Hq) as ([Hlim _] & Hsearch & _).
  rewrite (read_pages_follow _ _ _ _ Hst) in Hread. injection Hread as Hps <-.
  pose proof (matching_filter l _ t q _ Ht Hsearch Hloc) as Hm.
  pose proof (NoDup_map_filter n_node_id (wanted (log t) q) _ Hnd) as Hnd'.
  assert (List.length (matches t q) < fuel)%nat as Hlen.
  { unfold matches. rewrite length_sorted_by.
    pose proof (filter_length_le (wanted (log t) q) (candidates_of t q)). lia. }
  split; [done|]. unfold matches in *.
  destruct (follow_pages_rest fuel t q _ [] _ ps Hlim Hm Hnd' eq_refl) as [Hc Hall]; try done.
  { unfold after_cursor. by rewrite Hcur. }
  split; [done|]. split; [|done]. by rewrite sorted_by_perm.
Qed.

(** C18: A page is complete and backed by the log: its nodes are nodes of the lineage, in the
    order of their starts and within the total limit; every match is among them, and so
    is the Subagent scope of each, as far as the lineage has it; and each node comes with
    the very events its numbers name.  A valid request is refused only when the scopes do
    not fit the limit, or are nested more deeply than 64 levels. *)
Theorem query_page_is_complete_and_backed w q t :
  TraceLimits_valid l = true -> reachable l w -> stored w (gq_key q) t ->
  TraceGraphQueryRequest_post_init q = Ok tt ->
  match (query_trace_graph q w).1 with
  | Ok p =>
      gp_as_of_seq p = zlen (log t) /\ zlen (gp_nodes p) <= gq_total_limit q /\
      Sorted.StronglySorted (fun a b => latest_first a b) (map sg_row (gp_nodes p)) /\
      (forall g, g ∈ gp_nodes p -> backed t g /\ sg_row g ∈ candidates_of t q) /\
      (forall id, id ∈ gp_matched_node_ids p -> exists row,
         row ∈ matches t q /\ n_node_id row = id /\ row ∈ map sg_row (gp_nodes p)) /\
      (forall row id parent, row ∈ map sg_row (gp_nodes p) -> n_parent_subagent_id row = Some id ->
         parent ∈ candidates_of t q -> n_node_id parent = id ->
         parent ∈ map sg_row (gp_nodes p))
  | Raise e => e = TraceQuotaExceeded \/
      (e = TraceStoreProtocolError /\ exists selected, selected ⊆ matches t q /\
         too_deep (by_node_id (candidates_of t q)) selected)
  end.
Proof.
  intros Hl Hr Hst Hq. rewrite (query_stored q w t Hst). cbn [fst].
  destruct (candidates_located w q t Hl Hr Hst) as (Ht & Hloc & Hnd).
  destruct (request_valid q Hq) as ([Hlim Htot] & Hsearch & Hcursor).
  unfold query_page. rewrite (matching_filter l _ t q _ Ht Hsearch Hloc). cbn [rbind].
  fold (matches t q). set (ms := matches t q) in *.
  assert (NoDup (map n_node_id ms)) as Hms.
  { unfold ms, matches. rewrite sorted_by_perm. by apply NoDup_map_filter. }
  assert (ms ⊆ candidates_of t q) as Hsub.
  { intros row [Hrow%list_elem_of_In _]%elem_of_sorted_by%list_elem_of_In%filter_In. done. }
  destruct (after_cursor_filter q ms Hcursor) as [f ->]. cbn [rbind].
  rewrite py_take by lia. set (selected := take _ (List.filter f ms)).
  assert (selected ⊆ ms) as Hsel.
  { intros row Hrow%(subseteq_take _ _)%list_elem_of_In%filter_In.
    by destruct Hrow as [?%list_elem_of_In _]. }
  pose proof (with_scopes_ok q (candidates_of t q) selected Hnd
    ltac:(by apply NoDup_map_take, NoDup_map_filter) ltac:(set_solver)
    ltac:(intros r Hin; by apply (nl_run _ _ _ (Hloc r Hin)))) as Hsc.
  specialize (Hsc ltac:(unfold selected, zlen; rewrite length_take; lia)).
  destruct (with_scopes q (candidates_of t q) selected) as [rows|e]; cbn [rbind]; cycle 1.
  { destruct Hsc as [|[? ?]]; [by left|]. right. split; [done|]. by exists selected. }
  destruct Hsc as (Hwf & Hlen & Hrows & Hin & Hclosed).
  assert (forall row, row ∈ sorted_by latest_first (dvals rows) -> row ∈ candidates_of t q) as Hall.
  { intros row [id Hid]%elem_of_sorted_by%elem_of_dvals; [|done]. by apply Hrows in Hid as []. }
  destruct (page_nodes _ t (gq_run_ids q) (sorted_by latest_first (dvals rows)) Ht)
    as (nodes & -> & Hmap & Hback); [by auto|]. cbn. rewrite Hmap.
  split; [pose proof (to_seq _ _ _ Ht); lia|]. split.
  { rewrite <-(zlen_map sg_row), Hmap. unfold zlen in *. rewrite length_sorted_by. unfold dvals.
    by rewrite length_map. }
  split; [apply (sorted_by_sorted latest_first)|]. split.
  { intros g Hg. split; [by apply Hback|]. apply Hall. rewrite <-Hmap.
    by apply list_elem_of_fmap_2. }
  split.
  - intros id (row & -> & Hrow)%list_elem_of_fmap. exists row. split; [by apply Hsel|].
    split; [done|]. apply elem_of_sorted_by, elem_of_dvals; [done|]. exists (n_node_id row). auto.
  - intros row id parent Hrow%elem_of_sorted_by Hp Hpar Hid.
    apply elem_of_sorted_by. by eapply Hclosed.
Qed.
End props.

(** ** Witnesses

    After the takeover B opens an interaction: the run has two nodes of one start, told
    apart by their identifiers. *)

#[export] Instance ex_order : NodeOrder := { node_order_key id := id }.
#[export] Instance ex_order_laws : NodeOrderLaws.
Proof. split. by intros ?. Qed.

Definition ex_asking : TraceLedgerChange :=
  ex_change AppendEvents "B" (Some 2) [ex_draft "e5" (ex_interaction "x")] false.
Definition ex_asked : World := after ex_asking ex_taken.

Definition ex_filter : TraceGraphFilter :=
  {| wh_kinds := []; wh_statuses := [RUNNING; WAITING]; wh_model_call_id := None;
     wh_agent_names := []; wh_providers := []; wh_models := []; wh_graph_namespaces := [];
     wh_search := None; wh_started_after := Some 5; wh_started_before := None |}.

Definition ex_graph_query : TraceGraphQueryRequest :=
  {| gq_key := ex_key; gq_run_ids := [u "r"]; gq_where := ex_filter; gq_limit := 1;
     gq_total_limit := 4; gq_before_started_at := None; gq_before_node_id := None;
     gq_node_ids := None; gq_started_run_ids := Some [u "r"] |}.

Definition ex_pages : list StoredTraceGraphPage :=
  match (read_pages 3 ex_graph_query ex_asked).1 with Ok ps => ps | Raise _ => [] end.

Lemma ex_asked_reachable : reachable ex_limits ex_asked.
Proof.
  destruct ex_reachable as (w0 & E1 & Hc). exists w0. split; [done|].
  eapply rtc_r; [exact Hc|]. by apply (ex_call ex_asking).
Qed.

Lemma ex_asked_stored : stored ex_asked ex_key (thread_of ex_asked).
Proof. by split; vm_compute. Qed.

Example ex_two_pages : map gp_matched_node_ids ex_pages = [[u "x"]; [u "m"]].
Proof. by vm_compute. Qed.

Lemma query_pages_hold_every_match_once_witness :
  ex_asked = ex_asked /\
  List.concat (map gp_matched_node_ids ex_pages) =
    map n_node_id (matches (thread_of ex_asked) ex_graph_query) /\
  NoDup (map n_node_id (matches (thread_of ex_asked) ex_graph_query)) /\
  Forall (fun p => zlen (gp_matched_node_ids p) <= gq_limit ex_graph_query) ex_pages.
Proof.
  apply (query_pages_hold_every_match_once ex_limits ex_asked ex_graph_query (thread_of ex_asked) 3
    ex_pages ex_asked eq_refl ex_asked_reachable ex_asked_stored eq_refl eq_refl).
  - vm_compute. repeat constructor.
  - vm_compute. reflexivity.
Defined.

Lemma query_page_is_complete_and_backed_witness :
  match (query_trace_graph ex_graph_query ex_asked).1 with
  | Ok p =>
      gp_as_of_seq p = zlen (log (thread_of ex_asked)) /\
      zlen (gp_nodes p) <= gq_total_limit ex_graph_query /\
      Sorted.StronglySorted (fun a b => latest_first a b) (map sg_row (gp_nodes p)) /\
      (forall g, g ∈ gp_nodes p -> backed (thread_of ex_asked) g /\
         sg_row g ∈ candidates_of (thread_of ex_asked) ex_graph_query) /\
      (forall id, id ∈ gp_matched_node_ids p -> exists row,
         row ∈ matches (thread_of ex_asked) ex_graph_query /\ n_node_id row = id /\
         row ∈ map sg_row (gp_nodes p)) /\
      (forall row id parent, row ∈ map sg_row (gp_nodes p) -> n_parent_subagent_id row = Some id ->
         parent ∈ candidates_of (thread_of ex_asked) ex_graph_query -> n_node_id parent = id ->
         parent ∈ map sg_row (gp_nodes p))
  | Raise e => e = TraceQuotaExceeded \/
      (e = TraceStoreProtocolError /\ exists selected,
         selected ⊆ matches (thread_of ex_asked) ex_graph_query /\
         too_deep (by_node_id (candidates_of (thread_of ex_asked) ex_graph_query)) selected)
  end.
Proof.
  apply (query_page_is_complete_and_backed ex_limits ex_asked ex_graph_query (thread_of ex_asked)
    eq_refl ex_asked_reachable ex_asked_stored).
  vm_compute. reflexivity.
Defined.
