(* ===== verification/TraceStore.v ===== *)
(** Tracing: the payload codec as an interface - what codec.py offers to a store, with the
    laws a store relies on - and [DurableTraceStore] of durable_store.py over the in-memory
    backend: the changes and reads it asks for, the checks it makes of every answer, and
    [prepare_trace_facts] of _prepared.py.

    Writers have no heartbeat here ([InMemoryTraceStore] enforces no leases), the backend
    needs no preparation, and nobody is notified. *)
From S2P Require Import Prelude PyDict PySeq Contracts TraceModels TraceGraph TraceLedger.
From S2P Require Import TraceMemory.

(** ** The codec *)

(** [EncodedTracePayload] *)
Record EncodedTracePayload : Type := { en_data : list Z; en_digest : pystr }.

#[export] Instance encoded_payload_eq : EqDecision EncodedTracePayload.
Proof. solve_decision. Defined.

(** The methods of a codec: [CanonicalTracePayloadCodec], or a subclass that transforms
    the bytes reversibly. *)
Class TraceCodec : Type := {
  codec_digest : list Z -> res trace_exn pystr;
  encode_fact : TraceSemanticFact -> res trace_exn EncodedTracePayload;
  decode_fact : list Z -> res trace_exn TraceSemanticFact;
  encode_json : JsonValue -> res trace_exn EncodedTracePayload;
  decode_json : list Z -> res trace_exn JsonValue
}.

Section codec.
Context {codec : TraceCodec}.

(** A payload and its digest are the encoding of a fact. *)
Definition encodes (f : TraceSemanticFact) (payload : list Z) (digest : pystr) : Prop :=
  encode_fact f = Ok {| en_data := payload; en_digest := digest |}.

Definition encodes_json (v : JsonValue) (payload : list Z) (digest : pystr) : Prop :=
  encode_json v = Ok {| en_data := payload; en_digest := digest |}.

(** What reading back what was encoded gives: an equal value in Python, which compares
    dictionaries without regard to the order of their keys. *)
Definition reread (f : TraceSemanticFact) : TraceSemanticFact :=
  match encode_fact f with
  | Ok e => match decode_fact (en_data e) with Ok f' => f' | Raise _ => f end
  | Raise _ => f
  end.

Definition reread_json (v : JsonValue) : JsonValue :=
  match encode_json v with
  | Ok e => match decode_json (en_data e) with Ok v' => v' | Raise _ => v end
  | Raise _ => v
  end.

(** An event whose fact was read back. *)
Definition reread_event (e : TraceEvent) : TraceEvent :=
  {| ev_event_id := ev_event_id e; ev_trace_seq := ev_trace_seq e;
     ev_generation := ev_generation e; ev_fact := reread (ev_fact e);
     ev_persisted_bytes := ev_persisted_bytes e |}.
End codec.

(** What is encoded can be read back: the fact with its base and kind, and of the same
    length; its bytes have the digest it was encoded with. *)
Class TraceCodecLaws {codec : TraceCodec} {json : TraceJson} : Prop := {
  encoded_digest f payload digest :
    encodes f payload digest -> codec_digest payload = Ok digest;
  encoded_decodes f payload digest :
    encodes f payload digest -> decode_fact payload = Ok (reread f);
  reread_base f : f_base (reread f) = f_base f;
  reread_kind f : fact_kind (reread f) = fact_kind f;
  reread_bytes event_id seq generation f n :
    json_bytes (raw_event event_id seq generation (reread f) n) =
    json_bytes (raw_event event_id seq generation f n);
  encoded_json_digest v payload digest :
    encodes_json v payload digest -> codec_digest payload = Ok digest;
  encoded_json_decodes v payload digest :
    encodes_json v payload digest -> decode_json payload = Ok (reread_json v)
}.

(** ** A store and its writers *)

Record DurableTraceStore : Type := {
  so_limits : TraceLimits;
  so_options : TraceStoreOptions;
  so_enforce_writer_leases : bool
}.

(** [_DurableTraceWriter]; [dw_close_task] holds the outcome of its only close. *)
Record DurableTraceWriter : Type := {
  dw_key : TraceThreadKey;
  dw_run_id : pystr;
  dw_owner_token : pystr;
  dw_fence : Z;
  dw_closed : bool;
  dw_close_task : option (res trace_exn unit)
}.

Definition closing (outcome : res trace_exn unit) (wr : DurableTraceWriter) : DurableTraceWriter :=
  {| dw_key := dw_key wr; dw_run_id := dw_run_id wr; dw_owner_token := dw_owner_token wr;
     dw_fence := dw_fence wr; dw_closed := true; dw_close_task := Some outcome |}.

Record StoreThreadSnapshot : Type := {
  sn_key : TraceThreadKey;
  sn_as_of_seq : Z;
  sn_persisted_bytes : Z;
  sn_active_writers : list StoreWriterSnapshot;
  sn_observed_at : Z
}.

Definition StoreThreadSnapshot_valid (s : StoreThreadSnapshot) : bool :=
  (0 <=? sn_as_of_seq s) && (0 <=? sn_persisted_bytes s) &&
  bool_decide (NoDup (map sw_run_id (sn_active_writers s))).

(** ** Changes *)

(** [TraceLedgerChange(...)] of each method; fields it leaves out have their defaults. *)
Definition open_change (st : DurableTraceStore) (identity : RunIdentity) (owner_token : pystr)
    : TraceLedgerChange :=
  {| ch_kind := OpenWriter; ch_namespace := i_namespace identity; ch_limits := so_limits st;
     ch_options := so_options st; ch_identity := Some identity; ch_key := None;
     ch_run_id := None; ch_owner_token := Some owner_token; ch_fence := None; ch_facts := [];
     ch_mandatory := false; ch_checkpoint := None; ch_canonical_checkpoint_state := None;
     ch_checkpoint_state_digest := None; ch_expected_checkpoint_as_of_seq := None;
     ch_proven_events := []; ch_proven_renewal := false;
     ch_enforce_writer_lease := so_enforce_writer_leases st;
     ch_persist_canonical_event_records := true |}.

(** A change by a writer. *)
Definition writer_change (st : DurableTraceStore) (kind : TraceLedgerChangeKind)
    (wr : DurableTraceWriter) (facts : list TraceStoredFact) (mandatory : bool)
    (persist : bool) : TraceLedgerChange :=
  {| ch_kind := kind; ch_namespace := k_namespace (dw_key wr); ch_limits := so_limits st;
     ch_options := so_options st; ch_identity := None; ch_key := Some (dw_key wr);
     ch_run_id := Some (dw_run_id wr); ch_owner_token := Some (dw_owner_token wr);
     ch_fence := Some (dw_fence wr); ch_facts := facts; ch_mandatory := mandatory;
     ch_checkpoint := None; ch_canonical_checkpoint_state := None;
     ch_checkpoint_state_digest := None; ch_expected_checkpoint_as_of_seq := None;
     ch_proven_events := []; ch_proven_renewal := false;
     ch_enforce_writer_lease := so_enforce_writer_leases st;
     ch_persist_canonical_event_records := persist |}.

Definition checkpoint_change (st : DurableTraceStore) (checkpoint : TraceProjectionCheckpoint)
    (encoded : EncodedTracePayload) (expected_as_of_seq : option Z) : TraceLedgerChange :=
  {| ch_kind := SaveProjectionCheckpoint; ch_namespace := k_namespace (pc_key checkpoint);
     ch_limits := so_limits st; ch_options := so_options st; ch_identity := None;
     ch_key := Some (pc_key checkpoint); ch_run_id := None; ch_owner_token := None;
     ch_fence := None; ch_facts := []; ch_mandatory := false; ch_checkpoint := Some checkpoint;
     ch_canonical_checkpoint_state := Some (en_data encoded);
     ch_checkpoint_state_digest := Some (en_digest encoded);
     ch_expected_checkpoint_as_of_seq := expected_as_of_seq; ch_proven_events := [];
     ch_proven_renewal := false; ch_enforce_writer_lease := true;
     ch_persist_canonical_event_records := true |}.

Definition delete_change (st : DurableTraceStore) (key : TraceThreadKey) : TraceLedgerChange :=
  {| ch_kind := DeleteGeneration; ch_namespace := k_namespace key; ch_limits := so_limits st;
     ch_options := so_options st; ch_identity := None; ch_key := Some key; ch_run_id := None;
     ch_owner_token := None; ch_fence := None; ch_facts := []; ch_mandatory := false;
     ch_checkpoint := None; ch_canonical_checkpoint_state := None;
     ch_checkpoint_state_digest := None; ch_expected_checkpoint_as_of_seq := None;
     ch_proven_events := []; ch_proven_renewal := false; ch_enforce_writer_lease := true;
     ch_persist_canonical_event_records := true |}.

(** ** Checks of an answer *)

(** [any(right != left + 1 for left, right in zip(l, l[1:]))], negated; [step] is [-1] for
    pages backwards. *)
Fixpoint consecutive (step : Z) (l : list Z) : bool :=
  match l with
  | x :: (y :: _) as l' => (y =? x + step) && consecutive step l'
  | _ => true
  end.

Section store.
Context {hash : ScopeHash} {json : TraceJson} {clock : TraceClock} {codec : TraceCodec}.

(** [zip(result.events, change.facts, strict=True)] against the events made again. *)
Fixpoint validate_events (generation : pystr) (events : list TraceEvent)
    (drafts : list TraceStoredFact) : res trace_exn unit :=
  match events, drafts with
  | [], [] => Ok tt
  | event :: events, draft :: drafts =>
      let? expected := make_event (d_event_id draft) (ev_trace_seq event) generation
                         (d_fact draft) in
      do? rraise_if (negb (bool_decide (event = expected))) TraceStoreProtocolError in
      validate_events generation events drafts
  | _, _ => Raise TraceValueError
  end.

(** The answer to an append, for a change without evidence of an earlier commit. *)
Definition validate_append (change : TraceLedgerChange) (result : TraceLedgerCommitResult)
    : res trace_exn unit :=
  let expected_ids := match ch_proven_events change with
                      | [] => map d_event_id (ch_facts change)
                      | events => map ev_event_id events
                      end in
  do? rraise_if (negb (bool_decide (map ev_event_id (re_events result) = expected_ids)))
        TraceStoreProtocolError in
  match ch_key change with
  | None => Raise TraceStoreProtocolError
  | Some key =>
      do? rraise_if (negb (zlen (re_events result) =? zlen (ch_facts change)))
            TraceStoreProtocolError in
      do? validate_events (k_generation key) (re_events result) (ch_facts change) in
      rraise_if (negb (consecutive 1 (map ev_trace_seq (re_events result))))
        TraceStoreProtocolError
  end.

(** The answer to [open_writer]. *)
Definition opened_as_asked (change : TraceLedgerChange) (result : TraceLedgerCommitResult)
    : bool :=
  match ch_identity change, re_key result, re_fence result with
  | Some identity, Some key, Some fence =>
      bool_decide (k_namespace key = ch_namespace change) &&
      bool_decide (k_thread_id key = i_thread_id identity) &&
      bool_decide (re_run_id result = Some (i_run_id identity)) &&
      bool_decide (re_owner_token result = ch_owner_token change) && (1 <=? fence)
  | _, _, _ => false
  end.

Definition validate_commit_result (change : TraceLedgerChange) (result : TraceLedgerCommitResult)
    : res trace_exn unit :=
  if decide (ch_kind change = OpenWriter)
  then rraise_if (negb (opened_as_asked change result)) TraceStoreProtocolError
  else
    do? rraise_if (negb (bool_decide (re_key result = ch_key change))) TraceStoreProtocolError in
    do? rraise_if (bool_decide (ch_kind change ∈ [AppendEvents; RenewWriter; CloseWriter]) &&
                   negb (bool_decide (re_run_id result = ch_run_id change)))
          TraceStoreProtocolError in
    do? (if decide (ch_kind change = AppendEvents) then validate_append change result
         else Ok tt) in
    rraise_if (bool_decide (ch_kind change = SaveProjectionCheckpoint) &&
               negb (bool_decide (re_checkpoint result = ch_checkpoint change)))
      TraceStoreProtocolError.

(** [_apply_ledger_change]; without followers [_commit_ledger_change] does no more. *)
Definition apply_ledger_change (change : TraceLedgerChange)
    : M World trace_exn TraceLedgerCommitResult :=
  let* result := commit_ledger_change change in
  do* raise_if (negb (bool_decide (re_kind result = ch_kind change))) TraceStoreProtocolError in
  do* lift (validate_commit_result change result) in
  ret result.

(** ** Writing *)

(** [uuid4().hex] *)
Definition next_uuid : M World trace_exn pystr := fun w =>
  (Ok (uuid_hex (uuids w)),
   {| threads := threads w; readings := readings w; uuids := S (uuids w) |}).

Definition open_writer (st : DurableTraceStore) (identity : RunIdentity)
    : M World trace_exn DurableTraceWriter :=
  let* owner_token := next_uuid in
  let* result := apply_ledger_change (open_change st identity owner_token) in
  match re_key result, re_fence result with
  | Some key, Some fence =>
      ret {| dw_key := key; dw_run_id := i_run_id identity; dw_owner_token := owner_token;
             dw_fence := fence; dw_closed := false; dw_close_task := None |}
  | _, _ => raise TraceStoreProtocolError
  end.

(** [prepare_trace_facts] *)
Fixpoint prepare_trace_facts (facts : list TraceSemanticFact)
    : M World trace_exn (list TraceStoredFact) :=
  match facts with
  | [] => ret []
  | fact :: facts =>
      let* encoded := lift (encode_fact fact) in
      let* event_id := next_uuid in
      let* prepared := prepare_trace_facts facts in
      ret ({| d_event_id := event_id; d_fact := fact; d_canonical_payload := en_data encoded;
              d_payload_digest := en_digest encoded;
              d_exact_byte_count := zlen (en_data encoded) |} :: prepared)
  end.

(** [_DurableTraceWriter.append] *)
Definition append (st : DurableTraceStore) (wr : DurableTraceWriter)
    (facts : list TraceSemanticFact) (mandatory : bool) : M World trace_exn (list TraceEvent) :=
  do* raise_if (match facts with [] => true | _ => false end) TraceValueError in
  do* raise_if (dw_closed wr) TraceStoreProtocolError in
  let* prepared := prepare_trace_facts facts in
  let* result := apply_ledger_change
    (writer_change st AppendEvents wr prepared mandatory (so_enforce_writer_leases st)) in
  ret (re_events result).

(** [_DurableTraceWriter.aclose]: the first call closes, every call has its outcome. *)
Definition aclose (st : DurableTraceStore) (wr : DurableTraceWriter) (w : World)
    : res trace_exn unit * DurableTraceWriter * World :=
  match dw_close_task wr with
  | Some outcome => (outcome, wr, w)
  | None =>
      let '(r, w) := apply_ledger_change (writer_change st CloseWriter wr [] false true) w in
      let outcome := match r with Ok _ => Ok tt | Raise e => Raise e end in
      (outcome, closing outcome wr, w)
  end.

Definition delete (st : DurableTraceStore) (key : TraceThreadKey) : M World trace_exn unit :=
  let* _ := apply_ledger_change (delete_change st key) in
  ret tt.

(** ** Reading *)

(** [_snapshot_from_state] *)
Definition snapshot_from_state (state : TraceLedgerState) (expected_namespace : pystr)
    (expected_thread_id : pystr) (expected_key : option TraceThreadKey)
    : res trace_exn StoreThreadSnapshot :=
  match ls_thread state with
  | None => Raise TraceThreadNotFound
  | Some thread =>
      let key := th_key thread in
      do? rraise_if (negb (bool_decide (k_namespace key = expected_namespace)) ||
                     negb (bool_decide (k_thread_id key = expected_thread_id)) ||
                     match expected_key with
                     | Some k => negb (bool_decide (key = k))
                     | None => false
                     end) TraceThreadNotFound in
      let snapshot := {| sn_key := key; sn_as_of_seq := th_next_seq thread - 1;
                         sn_persisted_bytes := th_persisted_bytes thread;
                         sn_active_writers := ls_active_writers state;
                         sn_observed_at := ls_observed_at state |} in
      do? rraise_if (negb (StoreThreadSnapshot_valid snapshot)) TraceValueError in
      Ok snapshot
  end.

(** [snapshot], of the current generation of a thread. *)
Definition thread_snapshot (namespace thread_id : pystr) : M World trace_exn StoreThreadSnapshot :=
  let* state := load_ledger_state
    {| lr_namespace := namespace; lr_thread_id := thread_id; lr_generation := None;
       lr_run_id := None; lr_include_active_writers := true |} in
  lift (snapshot_from_state state namespace thread_id None).

Definition snapshot_key (key : TraceThreadKey) : M World trace_exn StoreThreadSnapshot :=
  let* state := load_ledger_state
    {| lr_namespace := k_namespace key; lr_thread_id := k_thread_id key;
       lr_generation := Some (k_generation key); lr_run_id := None;
       lr_include_active_writers := true |} in
  lift (snapshot_from_state state (k_namespace key) (k_thread_id key) (Some key)).

(** The order a page must have, and that it starts where it was asked to. *)
Definition page_misordered (request : TraceEventPageRequest) (tail : Z) (sequences : list Z)
    : bool :=
  match pr_direction request with
  | Forward =>
      let after := default 0 (pr_after_seq request) in
      let as_of := default tail (pr_as_of_seq request) in
      existsb (fun s => (s <=? after) || (as_of <? s) || (tail <? s)) sequences ||
      negb (consecutive 1 sequences) ||
      ((after <? Z.min as_of tail) && negb (bool_decide (head sequences = Some (after + 1))))
  | Reverse =>
      let before := default (tail + 1) (pr_before_seq request) in
      let expected_first := Z.min (before - 1) tail in
      existsb (fun s => (s <? 1) || (before <=? s) || (tail <? s)) sequences ||
      negb (consecutive (-1) sequences) ||
      ((before <=? tail + 1) && (1 <=? expected_first) &&
       negb (bool_decide (head sequences = Some expected_first)))
  end.

(** [_decode_event_page], for records of either class and their decoder. *)
Definition decode_event_page {R} (sequence : R -> Z) (decode : R -> res trace_exn TraceEvent)
    (request : TraceEventPageRequest) (key : TraceThreadKey) (active_run_ids : list pystr)
    (tail : Z) (records : list R) : res trace_exn (list TraceEvent) :=
  do? rraise_if (negb (bool_decide (key = pr_key request))) TraceStoreProtocolError in
  do? rraise_if (existsb (fun run => bool_decide (run = []) || negb (bool_decide (run = strip run)))
                   active_run_ids || negb (bool_decide (NoDup active_run_ids)))
        TraceStoreProtocolError in
  do? rraise_if (pr_limit request <? zlen records) TraceStoreProtocolError in
  do? rraise_if (page_misordered request tail (map sequence records)) TraceStoreProtocolError in
  rmap decode records.

(** [_decode_event] of a record the in-memory backend keeps with its event. *)
Definition decode_memory_event (key : TraceThreadKey) (m : MemoryStoredTraceEvent)
    : res trace_exn TraceEvent :=
  let record := me_record m in
  let cached := me_validated_event m in
  let fact := ev_fact cached in
  let? digest := codec_digest (st_canonical_payload record) in
  do? rraise_if (negb (bool_decide (digest = st_payload_digest record)))
        TraceStoreProtocolError in
  do? rraise_if (negb (bool_decide (ev_event_id cached = st_event_id record)) ||
                 negb (ev_trace_seq cached =? st_trace_seq record) ||
                 negb (bool_decide (ev_generation cached = k_generation key)) ||
                 negb (ev_persisted_bytes cached =? st_persisted_bytes record) ||
                 negb (bool_decide (i_thread_id (f_identity fact) = k_thread_id key)) ||
                 negb (bool_decide (i_namespace (f_identity fact) = k_namespace key)) ||
                 negb (bool_decide (f_run_id fact = st_run_id record)) ||
                 negb (bool_decide (fact_kind fact = st_fact_kind record)) ||
                 negb (f_occurred_at fact =? st_occurred_at record)) TraceStoreProtocolError in
  Ok cached.

(** [_decode_event] of a raw record: its payload is decoded, and its event made again. *)
Definition decode_raw_event (key : TraceThreadKey) (record : StoredTraceEvent)
    : res trace_exn TraceEvent :=
  let? digest := codec_digest (st_canonical_payload record) in
  do? rraise_if (negb (bool_decide (digest = st_payload_digest record)))
        TraceStoreProtocolError in
  let? fact := decode_fact (st_canonical_payload record) in
  do? rraise_if (negb (bool_decide (i_thread_id (f_identity fact) = k_thread_id key)) ||
                 negb (bool_decide (i_namespace (f_identity fact) = k_namespace key)) ||
                 negb (bool_decide (f_run_id fact = st_run_id record)) ||
                 negb (bool_decide (fact_kind fact = st_fact_kind record)) ||
                 negb (f_occurred_at fact =? st_occurred_at record)) TraceStoreProtocolError in
  let? event := make_event (st_event_id record) (st_trace_seq record) (k_generation key) fact in
  do? rraise_if (negb (ev_persisted_bytes event =? st_persisted_bytes record))
        TraceStoreProtocolError in
  Ok event.

(** A page as the backend returned it. *)
Definition decode_memory_page (request : TraceEventPageRequest) (page : StoredTraceEventPage)
    : res trace_exn (list TraceEvent) :=
  decode_event_page (fun m => st_trace_seq (me_record m)) (decode_memory_event (pr_key request))
    request (pg_key page) (pg_active_run_ids page) (pg_tail_seq page) (pg_events page).

Definition read_events (key : TraceThreadKey) (after_seq as_of_seq limit : Z)
    : M World trace_exn (list TraceEvent) :=
  do* raise_if ((after_seq <? 0) || (as_of_seq <? 0) || (limit <? 1)) TraceValueError in
  let request := {| pr_key := key; pr_direction := Forward; pr_limit := limit;
                    pr_after_seq := Some after_seq; pr_as_of_seq := Some as_of_seq;
                    pr_before_seq := None |} in
  let* page := read_event_page request in
  lift (decode_memory_page request page).

Definition read_events_reverse (key : TraceThreadKey) (before_seq limit : Z)
    : M World trace_exn (list TraceEvent) :=
  do* raise_if ((before_seq <? 1) || (limit <? 1)) TraceValueError in
  let request := {| pr_key := key; pr_direction := Reverse; pr_limit := limit;
                    pr_after_seq := None; pr_as_of_seq := None;
                    pr_before_seq := Some before_seq |} in
  let* page := read_event_page request in
  let* events := lift (decode_memory_page request page) in
  do* raise_if (pg_tail_seq page + 1 <? before_seq) TraceValueError in
  ret events.

(** ** Checkpoints *)

(** [_checkpoint_lookup] *)
Definition checkpoint_lookup (projection_name : pystr) (run_id : option pystr) (as_of_seq : Z)
    : res trace_exn unit :=
  let canonical v := negb (bool_decide (v = [])) && bool_decide (v = strip v) in
  do? rraise_if (negb (canonical projection_name) ||
                 match run_id with Some r => negb (canonical r) | None => false end)
        TraceValueError in
  rraise_if (as_of_seq <? 0) TraceValueError.

(** [_decode_checkpoint] *)
Definition decode_checkpoint (request : TraceCheckpointRequest) (stored : StoredTraceCheckpoint)
    : res trace_exn TraceProjectionCheckpoint :=
  do? rraise_if (negb (bool_decide (sc_key stored = cr_key request)) ||
                 negb (bool_decide (sc_projection_name stored = cr_projection_name request)) ||
                 negb (bool_decide (sc_run_id stored = cr_run_id request)) ||
                 (cr_as_of_seq request <? sc_as_of_seq stored)) TraceStoreProtocolError in
  let? digest := codec_digest (sc_canonical_state stored) in
  do? rraise_if (negb (bool_decide (digest = sc_state_digest stored))) TraceStoreProtocolError in
  let? state := decode_json (sc_canonical_state stored) in
  let checkpoint := {| pc_key := sc_key stored; pc_projection_name := sc_projection_name stored;
                       pc_run_id := sc_run_id stored; pc_as_of_seq := sc_as_of_seq stored;
                       pc_state := state |} in
  do? rraise_if (negb (TraceProjectionCheckpoint_valid checkpoint)) TraceValueError in
  Ok checkpoint.

(** [load_projection_checkpoint] of the store. *)
Definition load_checkpoint (request : TraceCheckpointRequest)
    : M World trace_exn (option TraceProjectionCheckpoint) :=
  do* lift (checkpoint_lookup (cr_projection_name request) (cr_run_id request)
              (cr_as_of_seq request)) in
  let* stored := load_projection_checkpoint request in
  match stored with
  | None => ret None
  | Some stored => let* c := lift (decode_checkpoint request stored) in ret (Some c)
  end.

(** [save_projection_checkpoint] *)
Definition save_checkpoint (st : DurableTraceStore) (checkpoint : TraceProjectionCheckpoint)
    (expected_as_of_seq : option Z) : M World trace_exn TraceProjectionCheckpoint :=
  do* raise_if (match expected_as_of_seq with Some s => s <? 0 | None => false end)
        TraceValueError in
  let* encoded := lift (encode_json (pc_state checkpoint)) in
  let* result := apply_ledger_change
    (checkpoint_change st checkpoint encoded expected_as_of_seq) in
  match re_checkpoint result with
  | Some c => ret c
  | None => raise TraceStoreProtocolError
  end.
End store.
