(* ===== verification/TraceEvidence.v ===== *)
(** Tracing: the evidence a store leaves in the backend - each record is the encoding of
    its event, each checkpoint that of its state - and that calls by stores keep it. *)
From S2P Require Import Prelude PyDict PySeq Contracts TraceModels TraceGraph TraceGraphFacts.
From S2P Require Import TraceLedger TraceMemory TraceSteps TraceFacts TraceInvariant TraceSystem.
From S2P Require Import TraceStore.

(** A run identifier that [RunIdentity] accepts. *)
Definition canonical_run (run : pystr) : bool := bounded_text 1024 run && canonical_identifier run.

Section evidence.
Context {hash : ScopeHash} {json : TraceJson} {clock : TraceClock} {codec : TraceCodec}.
Context (l : TraceLimits).

(** What every change of a store is like. *)
Record client_change (change : TraceLedgerChange) : Prop := {
  cl_unproven : ch_proven_events change = [];
  cl_identity i : ch_identity change = Some i -> RunIdentity_valid i = true;
  cl_keyed : ch_kind change <> OpenWriter -> is_Some (ch_key change);
  cl_facts d : d ∈ ch_facts change ->
    encodes (d_fact d) (d_canonical_payload d) (d_payload_digest d);
  cl_checkpoint p : ch_checkpoint change = Some p ->
    TraceProjectionCheckpoint_valid p = true /\ ch_key change = Some (pc_key p) /\
    exists payload digest, ch_canonical_checkpoint_state change = Some payload /\
      ch_checkpoint_state_digest change = Some digest /\
      encodes_json (pc_state p) payload digest
}.

(** A record is what its event and the event's encoding make it. *)
Record record_evidence (m : MemoryStoredTraceEvent) : Prop := {
  re_made : let e := me_validated_event m in
    make_event (ev_event_id e) (ev_trace_seq e) (ev_generation e) (ev_fact e) = Ok e;
  re_encoded : exists d, m = memory_stored_event (me_validated_event m) d /\
    encodes (ev_fact (me_validated_event m)) (d_canonical_payload d) (d_payload_digest d)
}.

Definition checkpoint_evidence (c : StoredTraceCheckpoint) : Prop :=
  exists v, encodes_json v (sc_canonical_state c) (sc_state_digest c) /\
    TraceProjectionCheckpoint_valid
      {| pc_key := sc_key c; pc_projection_name := sc_projection_name c;
         pc_run_id := sc_run_id c; pc_as_of_seq := sc_as_of_seq c; pc_state := v |} = true.

Record evidenced (t : MemoryThread) : Prop := {
  ed_record m : m ∈ mt_events t -> record_evidence m;
  ed_checkpoint scope cs c :
    dget (mt_checkpoints t) scope = Some cs -> c ∈ cs -> checkpoint_evidence c;
  ed_run run wr : dget (mt_writers t) run = Some wr -> canonical_run run = true
}.

Lemma identity_run i : RunIdentity_valid i = true -> canonical_run (i_run_id i) = true.
Proof. unfold RunIdentity_valid, canonical_run. intros H. bool_prop. apply andb_true_intro. done. Qed.

Lemma new_thread_evidenced s : evidenced (new_thread s).
Proof. by split; intros; simpl in *; try by match goal with H : _ ∈ [] |- _ => apply elem_of_nil in H end. Qed.

Lemma writers_evidenced d t :
  (forall run wr, dget d run = Some wr -> is_Some (dget (mt_writers t) run) \/ canonical_run run = true) ->
  evidenced t -> evidenced (set_writers d t).
Proof.
  intros Hd [H1 H2 H3]. split; simpl; [done..|]. intros run wr Hr.
  destruct (Hd run wr Hr) as [[wr' Hw]|?]; [by eapply H3|done].
Qed.

Lemma put_writer_evidenced wr t :
  canonical_run (w_run_id wr) = true -> evidenced t -> evidenced (put_writer wr t).
Proof.
  intros Hc. apply writers_evidenced. intros run wr'. rewrite dget_dset.
  case_decide as E1; [|by left]. intros _. right. by rewrite <-E1.
Qed.

(** The records of a batch. *)
Lemma batch_evidence change thread run seq events m :
  (forall d, d ∈ ch_facts change ->
     encodes (d_fact d) (d_canonical_payload d) (d_payload_digest d)) ->
  make_events change thread run seq (ch_facts change) = Ok events ->
  m ∈ zip_with memory_stored_event events (ch_facts change) -> record_evidence m.
Proof.
  intros Hf Hm (i & Hi)%list_elem_of_lookup. apply lookup_zip_with_Some in Hi as (e & d & -> & He & Hd).
  destruct (make_events_spec _ _ _ _ _ _ _ _ Hm He) as (d' & Hd' & Hmade).
  assert (d' = d) as -> by congruence. destruct (made_fields _ _ _ _ _ _ Hmade) as (E1 & E2 & E3 & E4).
  split; simpl.
  - rewrite E1, E2, E3, E4. apply Hmade.
  - exists d. split; [done|]. rewrite E4. apply Hf. by apply list_elem_of_lookup; exists i.
Qed.

Lemma saved_evidence change c :
  client_change change -> saved_by change c -> checkpoint_evidence c.
Proof.
  intros Hc (p & payload & digest & Hp & Hpay & Hdig & ->).
  destruct (cl_checkpoint _ Hc p Hp) as (Hv & _ & payload' & digest' & E1 & E2 & He).
  exists (pc_state p). simpl. split; [congruence|]. by destruct p.
Qed.

Lemma step_evidenced w change key now o t' :
  client_change change -> thread_step w change key now o (Some t') ->
  (forall t, o = Some t -> evidenced t) -> evidenced t'.
Proof.
  intros Hc Hstep Ho. remember (Some t') as o' eqn:Eo'.
  destruct Hstep as [o t run token lease Hk _ (i & Hi & _ & Hrun) Hslot _ _ _ _ _|t wr lease Hg _ _ _
    |t wr token lease _ _ Hg _ _ _ _ _
    |t wr term cl events lease _ _ Hg _ _ _ _ _ _ Hmake _ _ _
    |t wr _ _ Hg _ _|t wr _ _ Hg _ _|t c _ Hsaved _ _ _|t]; simplify_eq.
  - apply put_writer_evidenced.
    { rewrite <-(identity_run i) by (by eapply cl_identity). done. }
    destruct o as [t0|]; [subst t0; by apply Ho|]. destruct Hslot as [-> _]. apply new_thread_evidenced.
  - apply put_writer_evidenced; [by eapply ed_run; [apply Ho|]|by apply Ho].
  - apply put_writer_evidenced; [by eapply ed_run; [apply Ho|]|by apply Ho].
  - destruct (Ho t eq_refl) as [H1 H2 H3]. split; simpl; [|done|].
    + intros m [Hm|Hm]%elem_of_app; [by apply H1|].
      eapply batch_evidence; [|done..]. intros d. by apply cl_facts.
    + intros run wr'. rewrite dget_dset. case_decide as E1; [|by apply H3].
      intros _. rewrite <-E1. by eapply H3.
  - destruct (_ && _); simplify_eq. apply writers_evidenced; [|by apply Ho].
    intros run wr'. rewrite dget_ddel. case_decide; [done|]. intros ->. by left; eexists.
  - apply put_writer_evidenced; [by eapply (ed_run _ (Ho t eq_refl))|by apply Ho].
  - destruct (Ho t eq_refl) as [H1 H2 H3]. split; simpl; [done| |done].
    intros scope cs c'. rewrite dget_dset. case_decide as E1; [|by apply H2].
    intros [= <-] Hin. assert (c' ∈ default [] (dget (mt_checkpoints t) (sc_projection_name c, sc_run_id c)) ++ [c]) as Hin'.
    { unfold keep_last in Hin. destruct (_ =? 0); [done|].
      apply list_elem_of_lookup in Hin as [i Hi]. rewrite lookup_drop in Hi.
      by eapply list_elem_of_lookup_2. }
    apply elem_of_app in Hin' as [Hin'| ->%list_elem_of_singleton]; [|by eapply saved_evidence].
    destruct (dget (mt_checkpoints t) _) as [cs|] eqn:Ecs; simpl in Hin';
      [by eapply H2|by apply elem_of_nil in Hin'].
Qed.

(** ** Worlds *)

Definition world_evidenced (w : World) : Prop :=
  forall key t, dget (threads w) key = Some t -> evidenced t.

(** Calls of stores, and what comes out of an empty backend by them. *)
Definition client_calls : World -> World -> Prop := rtc (call_among l client_change).

Definition client_reachable (w : World) : Prop :=
  exists w0, threads w0 = [] /\ client_calls w0 w.

Lemma same_threads_evidenced w w' :
  threads w' = threads w -> world_evidenced w -> world_evidenced w'.
Proof. intros E1 H key t. rewrite E1. apply H. Qed.

Lemma call_evidenced w w' :
  call_among l client_change w w' -> world_evidenced w -> world_evidenced w'.
Proof.
  intros [change r Hlim Hcl Hc|q r Hq|q r Hq|q r Hq|key as_of pages ms r Hp Hms Hr|Et Eu] Hw.
  - apply commit_steps in Hc. destruct (target change) as [[tid run]|]; [|by subst w'].
    destruct Hc as [[E1|(o' & Hstep & E1)] _]; [by apply (same_threads_evidenced w)|].
    intros k t'. rewrite E1. unfold put_slot.
    destruct o' as [t0|]; rewrite ?dget_dset, ?dget_ddel; case_decide; try done; [|apply Hw..].
    intros [= ->]. eapply step_evidenced; [exact Hcl|exact Hstep|]. intros t. apply Hw.
  - injection Hq as _ <-. by apply (same_threads_evidenced w).
  - apply page_call in Hq as [E1 _]. by apply (same_threads_evidenced w).
  - by apply checkpoint_call in Hq as ->.
  - destruct (rebuild_call _ _ _ _ _ _ Hr) as [_ [E1|(t & g & se & [Hget _] & _ & _ & E1)]];
      [by apply (same_threads_evidenced w)|].
    intros k t'. rewrite E1, dget_dset. case_decide; [|apply Hw]. intros [= <-].
    destruct (Hw _ _ Hget). by split.
  - by apply (same_threads_evidenced w).
Qed.

Lemma client_calls_evidenced w w' :
  client_calls w w' -> world_evidenced w -> world_evidenced w'.
Proof. induction 1; eauto using call_evidenced. Qed.

Lemma client_calls_calls w w' : client_calls w w' -> calls l w w'.
Proof. apply rtc_subrel. intros. by eapply call_any. Qed.

Lemma client_reachable_calls w w' : client_reachable w -> client_calls w w' -> client_reachable w'.
Proof. intros (w0 & E1 & Hc) Hc'. exists w0. split; [done|]. by etransitivity. Qed.

Lemma client_reachable_evidenced w : client_reachable w -> world_evidenced w.
Proof.
  intros (w0 & E1 & Hc). eapply client_calls_evidenced; [exact Hc|]. intros key t. by rewrite E1.
Qed.

Lemma client_reachable_reachable w : client_reachable w -> reachable l w.
Proof. intros (w0 & E1 & Hc). exists w0. split; [done|]. by apply client_calls_calls. Qed.
End evidence.
