(* ===== verification/TraceStoreFacts.v ===== *)
(** Tracing: what a store's checks find in its own backend's answers - nothing to refuse -
    and what its reads give back. *)
From S2P Require Import Prelude PyDict PySeq Contracts TraceModels TraceGraph TraceGraphFacts.
From S2P Require Import TraceLedger TraceMemory TraceSteps TraceFacts TraceInvariant TraceSystem.
From S2P Require Import TraceStore TraceEvidence.

(** ** Numbered lists *)

(** The elements are [k], [k + step], ... *)
Definition numbered (step k : Z) (l : list Z) : Prop :=
  forall i x, l !! i = Some x -> x = k + step * Z.of_nat i.

Lemma numbered_cons step k x l : numbered step k (x :: l) -> x = k /\ numbered step (k + step) l.
Proof.
  intros H. split; [specialize (H 0%nat x eq_refl); lia|].
  intros i y Hy. rewrite (H (S i) y Hy). lia.
Qed.

Lemma numbered_consecutive step k l : numbered step k l -> consecutive step l = true.
Proof.
  revert k. induction l as [|x [|y l] IH]; intros k H; [done..|].
  apply numbered_cons in H as [-> H]. pose proof (numbered_cons _ _ _ _ H) as [-> _].
  change (((k + step =? k + step) && consecutive step (k + step :: l)) = true).
  rewrite Z.eqb_refl. by apply (IH (k + step)).
Qed.

Lemma numbered_rev k l : numbered 1 k l -> numbered (-1) (k + zlen l - 1) (rev l).
Proof.
  revert k. induction l as [|x l IH]; intros k H; [done|].
  apply numbered_cons in H as [-> H]. apply IH in H. simpl. rewrite zlen_cons.
  intros i y [Hy|[Hi Hy]]%lookup_app_Some; [rewrite (H i y Hy); lia|].
  rewrite length_rev in Hi, Hy. apply list_lookup_singleton_Some in Hy as [Hi' <-].
  unfold zlen. lia.
Qed.

Lemma numbered_slice f (l : list Z) a b :
  0 <= a -> 0 <= b -> (forall i x, l !! i = Some x -> x = f + Z.of_nat i) ->
  numbered 1 (f + a) (py_slice l a b) /\
  forall x, x ∈ py_slice l a b -> f + a <= x < f + b.
Proof.
  intros Ha Hb Hl. unfold py_slice, slice_bound. rewrite !(proj2 (Z.ltb_ge _ _)) by done.
  assert (forall i x, drop (Z.to_nat a) (take (Z.to_nat b) l) !! i = Some x ->
    x = f + a + Z.of_nat i /\ a + Z.of_nat i < b) as H.
  { intros i x. rewrite lookup_drop, lookup_take_Some. intros [Hx Hlt].
    rewrite (Hl _ _ Hx). lia. }
  split.
  - intros i x Hi. destruct (H i x Hi). lia.
  - intros x [i Hi]%list_elem_of_lookup. destruct (H i x Hi). lia.
Qed.

Section facts.
Context {hash : ScopeHash} {json : TraceJson} {laws : TraceJsonLaws} {clock : TraceClock}.
Context {codec : TraceCodec} (l : TraceLimits).

(** ** Answers *)

Lemma make_events_numbered change thread run seq drafts events :
  make_events change thread run seq drafts = Ok events ->
  numbered 1 seq (map ev_trace_seq events).
Proof.
  intros H i x. rewrite list_lookup_fmap. intros (e & He & ->)%fmap_Some.
  destruct (make_events_spec _ _ _ _ _ _ _ _ H He) as (d & _ & Hm).
  destruct (made_fields _ _ _ _ _ _ Hm) as (_ & -> & _). lia.
Qed.

Lemma make_events_ids change thread run seq drafts events :
  make_events change thread run seq drafts = Ok events ->
  map ev_event_id events = map d_event_id drafts.
Proof.
  revert seq events. induction drafts as [|d drafts IH]; intros seq events; simpl;
    [by intros [= <-]|].
  intros H. res_inv. injection H as <-. simpl.
  match goal with Hm : make_event _ _ _ _ = Ok _ |- _ =>
    apply make_event_spec in Hm as (-> & _) end.
  f_equal. eauto.
Qed.

Lemma make_events_validated change thread run seq drafts events :
  make_events change thread run seq drafts = Ok events ->
  validate_events (k_generation (th_key thread)) events drafts = Ok tt.
Proof.
  revert seq events. induction drafts as [|d drafts IH]; intros seq events; simpl;
    [by intros [= <-]|].
  intros H. res_inv. injection H as <-. simpl.
  match goal with Hm : make_event _ _ _ _ = Ok _ |- _ =>
    destruct (make_event_spec _ _ _ _ _ Hm) as (_ & -> & _); rewrite Hm end.
  simpl. rewrite bool_decide_true by done. simpl. eauto.
Qed.

Lemma append_validated change key events thread run :
  ch_proven_events change = [] -> ch_kind change = AppendEvents -> ch_key change = Some key ->
  th_key thread = key -> ch_run_id change = Some run ->
  make_events change thread run (th_next_seq thread) (ch_facts change) = Ok events ->
  validate_commit_result change
    (commit_result AppendEvents key (Some run) None None events None) = Ok tt.
Proof.
  intros Hp Hk Hkey <- Hr Hm. unfold validate_commit_result. rewrite Hk. simpl.
  rewrite Hkey, Hr. rewrite !bool_decide_true by done. simpl.
  unfold validate_append. rewrite Hp, Hkey. simpl.
  rewrite (make_events_ids _ _ _ _ _ _ Hm), bool_decide_true by done. simpl.
  unfold zlen. rewrite (make_events_length _ _ _ _ _ _ Hm), Z.eqb_refl. simpl.
  rewrite (make_events_validated _ _ _ _ _ _ Hm). simpl.
  by rewrite (numbered_consecutive 1 (th_next_seq thread)) by by eapply make_events_numbered.
Qed.

(** Kinds other than an append, whose answers name the generation and the run. *)
Lemma plain_validated change kind run checkpoint :
  kind <> OpenWriter -> kind <> AppendEvents -> ch_kind change = kind ->
  (kind = RenewWriter \/ kind = CloseWriter -> run = ch_run_id change) ->
  (kind = SaveProjectionCheckpoint -> checkpoint = ch_checkpoint change) ->
  forall key, ch_key change = Some key ->
  validate_commit_result change (commit_result kind key run None None [] checkpoint) = Ok tt.
Proof.
  intros Ho Ha <- Hr Hc key Hkey. unfold validate_commit_result. simpl.
  rewrite decide_False by done. rewrite Hkey, bool_decide_true by done. simpl.
  rewrite decide_False by done.
  destruct (ch_kind change); simpl; rewrite ?Hr, ?Hc by tauto; try done;
    rewrite ?(bool_decide_true (ch_run_id change = _)) by done; try done.
  by rewrite (bool_decide_true (ch_checkpoint change = _)).
Qed.

(** The answer to a change, kind by kind. *)
Section resolved.
Context (w : World) (change : TraceLedgerChange) (tid : pystr) (run : option pystr).
Context (Hs : system_ok l w) (Hcl : client_change change).
Context (Ht : target change = Some (tid, run)).
Context (Hv : validate_change_scope change (change_state w change tid run) = Ok tt).
Let st := change_state w change tid run.

Definition accepted (result : TraceLedgerCommitResult) : Prop :=
  re_kind result = ch_kind change /\ validate_commit_result change result = Ok tt.

Lemma opened_key identity generation thread :
  ch_identity change = Some identity -> open_thread change st identity generation = Ok thread ->
  thread_key (th_key thread) = identity_key identity.
Proof.
  intros Hi Hth. rewrite (identity_scope w change tid run Ht Hv identity Hi).
  unfold open_thread in Hth. destruct (ls_thread st) as [s|] eqn:Es.
  - apply rbind_ok in Hth as (? & _ & [= <-]).
    destruct (thread_scope w change tid run s Es) as (t & Hget & <-).
    by apply (stored_key w change tid run Ht Hv).
  - res_inv. injection Hth as <-.
    pose proof (identity_scope w change tid run Ht Hv identity Hi) as Hid.
    unfold thread_key, identity_key in *. simpl. congruence.
Qed.

Lemma target_fence wr : ls_target_writer st = Some wr -> 1 <= w_fence wr.
Proof.
  intros Hw. destruct (dget (threads w) (ch_namespace change, tid)) as [t|] eqn:Hget.
  - pose proof (target_writer w change tid run Ht Hv t wr Hget Hw) as Hg.
    eapply wo_fence, to_writer, Hg. by apply (so_thread _ _ (sy_store _ _ Hs)).
  - unfold st, change_state in Hw. simpl in Hw. unfold find_thread in Hw. by rewrite Hget in Hw.
Qed.

Lemma open_accepted generation eff :
  ch_kind change = OpenWriter -> resolve_open_writer change st generation = Ok eff ->
  accepted (ef_result eff).
Proof.
  intros Hk Hr. unfold resolve_open_writer in Hr.
  destruct (ch_identity change) as [i|] eqn:Ei; [|done].
  destruct (ch_owner_token change) as [token|] eqn:Etok; [|done].
  apply rbind_ok in Hr as (thread & Hth & Hr). pose proof (opened_key _ _ _ Ei Hth) as Hkey.
  pose proof (identity_scope w change tid run Ht Hv i Ei) as Hid.
  assert (forall fence, 1 <= fence -> accepted (commit_result OpenWriter (th_key thread)
      (Some (i_run_id i)) (Some token) (Some fence) [] None)) as Hres.
  { intros fence Hf. split; [done|]. unfold validate_commit_result. rewrite decide_True by done.
    unfold opened_as_asked. rewrite Ei, Etok. simpl. unfold thread_key, identity_key in *.
    rewrite !bool_decide_true by congruence. by rewrite (proj2 (Z.leb_le 1 fence)). }
  destruct (ls_target_writer st) as [wr|] eqn:Ew.
  - apply rbind_ok in Hr as (wr' & Hre & [= <-]). apply Hres. pose proof (target_fence wr Ew).
    unfold reopen_writer in Hre. destruct (_ && _); res_inv; apply ok_inj in Hre as <-; simpl; [done|lia].
  - res_inv. injection Hr as <-. apply Hres. simpl. lia.
Qed.

Lemma owned_names require_unexpired thread wr :
  owned_writer change st require_unexpired = Ok (thread, wr) ->
  ch_key change = Some (th_key thread) /\ ch_run_id change = Some (w_run_id wr).
Proof.
  intros Ho. destruct (owned_writer_spec w change tid run Ht Hv _ _ _ Ho) as (t & _ & -> & Hkey & _).
  split; [done|]. unfold owned_writer in Ho. rewrite Hkey in Ho.
  destruct (ch_run_id change) as [r|]; [|done]. apply rbind_ok in Ho as (th & _ & Ho).
  destruct (ls_target_writer _) as [wr'|]; [|done]. res_inv. injection Ho as _ <-. bool_prop.
  congruence.
Qed.

Lemma append_accepted eff :
  ch_kind change = AppendEvents -> resolve_append_events change st = Ok eff ->
  accepted (ef_result eff).
Proof.
  intros Hk Hr. unfold resolve_append_events in Hr. rewrite (cl_unproven _ Hcl) in Hr. simpl in Hr.
  apply rbind_ok in Hr as (? & _ & Hr). apply rbind_ok in Hr as ([thread wr] & Ho & Hr).
  destruct (owned_names _ _ _ Ho) as [Hkey Hrun].
  do 3 apply rbind_ok in Hr as (? & _ & Hr). apply rbind_ok in Hr as ([term cl] & _ & Hr).
  apply rbind_ok in Hr as (events & Hm & Hr). do 3 apply rbind_ok in Hr as (? & _ & Hr).
  apply ok_inj in Hr as <-. split; [done|]. cbn [ef_result].
  eapply append_validated; [apply Hcl|done..].
Qed.

Lemma renew_accepted eff :
  ch_kind change = RenewWriter -> resolve_renew_writer change st = Ok eff ->
  accepted (ef_result eff).
Proof.
  intros Hk Hr. unfold resolve_renew_writer in Hr.
  apply rbind_ok in Hr as ([thread wr] & Ho & Hr). destruct (owned_names _ _ _ Ho) as [Hkey Hrun].
  apply rbind_ok in Hr as (lease & _ & Hr). apply ok_inj in Hr as <-. split; [done|]. by apply plain_validated.
Qed.

Lemma close_accepted eff :
  ch_kind change = CloseWriter -> resolve_close_writer change st = Ok eff ->
  accepted (ef_result eff).
Proof.
  intros Hk Hr. unfold resolve_close_writer in Hr.
  destruct (ch_key change) as [key|] eqn:Hkey; [|done].
  destruct (ch_run_id change) as [r|] eqn:Hrun; [|done].
  assert (ef_result eff = commit_result CloseWriter key (Some r) None None [] None) as ->.
  { destruct (ls_thread st) as [s|]; [|by apply ok_inj in Hr as <-].
    destruct (ls_target_writer st) as [wr|]; [|by apply ok_inj in Hr as <-].
    destruct (_ || _); by apply ok_inj in Hr as <-. }
  split; [done|]. by apply plain_validated.
Qed.

Lemma save_accepted eff :
  ch_kind change = SaveProjectionCheckpoint -> resolve_save_checkpoint change st = Ok eff ->
  accepted (ef_result eff).
Proof.
  intros Hk Hr. unfold resolve_save_checkpoint in Hr.
  destruct (ch_checkpoint change) as [c|] eqn:Hc; [|done].
  destruct (cl_checkpoint _ Hcl c Hc) as (_ & Hkey & payload & digest & E1 & E2 & _).
  rewrite E1, E2 in Hr.
  apply rbind_ok in Hr as (? & _ & Hr). apply rbind_ok in Hr as (? & _ & Hr).
  set (result := commit_result SaveProjectionCheckpoint (pc_key c) None None None [] (Some c)) in *.
  assert (ef_result eff = result) as ->.
  { assert (save_new change st c payload digest result = Ok eff -> ef_result eff = result) as Hn.
    { unfold save_new. intros Hn. res_inv. by injection Hn as <-. }
    destruct (ls_current_checkpoint st) as [c0|]; [|by apply Hn].
    destruct (_ =? _); [|by apply Hn]. res_inv. by injection Hr as <-. }
  split; [done|]. by apply plain_validated; [..|by intros [?|?]| |].
Qed.

Lemma delete_accepted eff :
  ch_kind change = DeleteGeneration -> resolve_delete_generation change st = Ok eff ->
  accepted (ef_result eff).
Proof.
  intros Hk Hr. unfold resolve_delete_generation in Hr.
  destruct (ch_key change) as [key|] eqn:Hkey; [|done].
  res_inv. injection Hr as <-. split; [done|]. by apply plain_validated; [..|by intros [?|?]| |].
Qed.

Lemma resolved_accepted generation eff :
  resolve_ledger_change change st generation = Ok eff -> accepted (ef_result eff).
Proof.
  unfold resolve_ledger_change. intros Hr. apply rbind_ok in Hr as ([] & _ & Hr).
  destruct (ch_kind change) eqn:Hk.
  - by eapply open_accepted.
  - by apply append_accepted.
  - by apply renew_accepted.
  - by apply close_accepted.
  - by apply save_accepted.
  - by apply delete_accepted.
Qed.
End resolved.

(** A store passes on what its backend answers. *)
Lemma apply_is_commit w change :
  system_ok l w -> client_change change ->
  apply_ledger_change change w = commit_ledger_change change w.
Proof.
  intros Hs Hcl. unfold apply_ledger_change, bind. rewrite commit_unfold.
  destruct (target change) as [[tid run]|] eqn:Ht; [|done]. cbv zeta.
  destruct (resolve_ledger_change change _ _) as [eff|e] eqn:Hr; [|done].
  destruct (apply_effect change eff _) as [[[]|e] w'] eqn:Ha; [|done].
  pose proof Hr as Hv. unfold resolve_ledger_change in Hv. apply rbind_ok in Hv as ([] & Hv & _).
  destruct (resolved_accepted w change tid run Hs Hcl Ht Hv _ _ Hr) as [Hk Hval].
  unfold raise_if, lift. rewrite Hk, bool_decide_true by done. simpl. by rewrite Hval.
Qed.

(** ** Pages *)

Lemma event_number key t i m :
  thread_ok l key t -> mt_events t !! i = Some m ->
  st_trace_seq (me_record m) = Z.of_nat i + 1.
Proof.
  intros Ht Hm. destruct (to_record _ _ _ Ht m) as (_ & -> & _); [by eapply list_elem_of_lookup_2|].
  eapply eo_seq, (to_event _ _ _ Ht). unfold log. by rewrite list_lookup_fmap, Hm.
Qed.

Definition record_number (m : MemoryStoredTraceEvent) : Z := st_trace_seq (me_record m).

Lemma zlen_py_slice {A} (xs : list A) a b :
  0 <= a -> 0 <= b -> zlen (py_slice xs a b) = Z.max 0 (Z.min b (zlen xs) - a).
Proof.
  intros Ha Hb. unfold py_slice, slice_bound, zlen. rewrite !(proj2 (Z.ltb_ge _ _)) by done.
  rewrite length_drop, length_take. lia.
Qed.

Lemma head_numbered step k xs : numbered step k xs -> 1 <= zlen xs -> head xs = Some k.
Proof.
  intros H Hl. destruct xs as [|x xs]; [by unfold zlen in Hl|].
  by apply numbered_cons in H as [-> _].
Qed.

Lemma numbers_of key t i x :
  thread_ok l key t -> map record_number (mt_events t) !! i = Some x -> x = 1 + Z.of_nat i.
Proof.
  intros Ht. rewrite list_lookup_fmap. intros (m & Hm & ->)%fmap_Some.
  unfold record_number. rewrite (event_number _ _ _ _ Ht Hm). lia.
Qed.

Lemma events_tail key t : thread_ok l key t -> th_next_seq (mt_state t) - 1 = zlen (mt_events t).
Proof. intros Ht. rewrite (to_seq _ _ _ Ht). unfold log. rewrite zlen_map. lia. Qed.

Lemma forward_ordered key t request :
  thread_ok l key t -> pr_direction request = Forward -> 1 <= pr_limit request ->
  0 <= default 0 (pr_after_seq request) ->
  0 <= default (th_next_seq (mt_state t) - 1) (pr_as_of_seq request) ->
  page_misordered request (th_next_seq (mt_state t) - 1)
    (map record_number (page_records t request)) = false.
Proof.
  intros Ht Hd Hl Ha Hb. unfold page_misordered, page_records. rewrite Hd. rewrite map_py_slice.
  pose proof (events_tail _ _ Ht) as Htail.
  set (tail := th_next_seq (mt_state t) - 1) in *.
  set (after := default 0 _) in *. set (as_of := default tail _) in *.
  pose proof (zlen_nonneg (mt_events t)) as Hpos.
  set (start := Z.min after tail). set (stop := Z.min (Z.min as_of tail) (start + pr_limit request)).
  assert (0 <= start /\ 0 <= stop) as [Hs0 Hs1] by lia.
  destruct (numbered_slice 1 (map record_number (mt_events t)) start stop Hs0 Hs1)
    as [Hn Hin]; [by intros i x; eapply numbers_of|].
  rewrite (numbered_consecutive 1 (1 + start)) by done.
  rewrite existsb_none.
  2: { intros x Hx. specialize (Hin x Hx). bool_prop. lia. }
  simpl. destruct (Z.ltb_spec after (Z.min as_of tail)) as [Hlt|]; [|done]. simpl.
  rewrite (head_numbered 1 (1 + start)); [|done|rewrite zlen_py_slice, zlen_map; lia].
  rewrite bool_decide_true; [done|]. f_equal. lia.
Qed.

Lemma reverse_ordered key t request :
  thread_ok l key t -> pr_direction request = Reverse -> 1 <= pr_limit request ->
  1 <= default (th_next_seq (mt_state t)) (pr_before_seq request) ->
  page_misordered request (th_next_seq (mt_state t) - 1)
    (map record_number (page_records t request)) = false.
Proof.
  intros Ht Hd Hl Hb. unfold page_misordered, page_records. rewrite Hd.
  pose proof (events_tail _ _ Ht) as Htail.
  replace (default (th_next_seq (mt_state t)) (pr_before_seq request)) with
    (default (th_next_seq (mt_state t) - 1 + 1) (pr_before_seq request)) in Hb
    by (destruct (pr_before_seq request); simpl; lia).
  set (tail := th_next_seq (mt_state t) - 1) in *. set (before := default _ _) in *.
  pose proof (zlen_nonneg (mt_events t)) as Hpos.
  destruct (Z.ltb_spec (tail + 1) before) as [Hgt|Hle].
  { simpl. by rewrite (proj2 (Z.leb_gt before (tail + 1))) by lia. }
  rewrite map_rev, map_py_slice. set (start := Z.max 0 (before - 1 - pr_limit request)).
  assert (0 <= start /\ 0 <= before - 1) as [Hs0 Hs1] by lia.
  destruct (numbered_slice 1 (map record_number (mt_events t)) start (before - 1) Hs0 Hs1)
    as [Hn Hin]; [by intros i x; eapply numbers_of|].
  apply numbered_rev in Hn. rewrite zlen_py_slice, zlen_map in Hn by done.
  rewrite (numbered_consecutive _ _ _ Hn). rewrite existsb_none.
  2: { intros x Hx. rewrite list_elem_of_In, <-in_rev, <-list_elem_of_In in Hx.
       specialize (Hin x Hx). lia. }
  simpl. destruct (Z.leb_spec 1 (Z.min (before - 1) tail)) as [H1|]; [|by rewrite andb_false_r].
  rewrite (head_numbered _ _ _ Hn); [|unfold zlen; rewrite length_rev; fold (zlen (py_slice
    (map record_number (mt_events t)) start (before - 1))); rewrite zlen_py_slice, zlen_map; lia].
  rewrite bool_decide_true by (f_equal; lia). by rewrite andb_false_r.
Qed.

(** ** Records *)

Lemma event_of_record key t m :
  thread_ok l key t -> m ∈ mt_events t ->
  event_ok l (th_key (mt_state t)) (Z.to_nat (record_number m - 1)) (me_validated_event m).
Proof.
  intros Ht [i Hi]%list_elem_of_lookup. unfold record_number. rewrite (event_number _ _ _ _ Ht Hi).
  replace (Z.to_nat (Z.of_nat i + 1 - 1)) with i by lia. apply (to_event _ _ _ Ht).
  unfold log. by rewrite list_lookup_fmap, Hi.
Qed.

Context {codec_laws : TraceCodecLaws}.

Lemma memory_event_decodes key t m :
  thread_ok l (thread_key key) t -> evidenced t -> th_key (mt_state t) = key ->
  m ∈ mt_events t -> decode_memory_event key m = Ok (me_validated_event m).
Proof.
  intros Ht He Hkey Hm. destruct (event_of_record _ _ _ Ht Hm) as [_ Hg Hth _ _].
  destruct (re_encoded _ (ed_record _ He m Hm)) as (d & -> & Hen). rewrite Hkey in Hg, Hth.
  unfold identity_key, thread_key in Hth. injection Hth as Hns Htid. simpl in *.
  unfold decode_memory_event. simpl. rewrite (encoded_digest _ _ _ Hen). simpl.
  rewrite (bool_decide_true (d_payload_digest d = _)) by done. simpl.
  rewrite Hns, Htid, Hg, !Z.eqb_refl. by rewrite !bool_decide_true by done.
Qed.

Lemma made_reread id seq generation f e :
  make_event id seq generation f = Ok e ->
  make_event id seq generation (reread f) = Ok (reread_event e).
Proof.
  unfold make_event. intros H. apply rbind_ok in H as ([] & Hv & H).
  apply rbind_ok in H as (n & Hn & [= <-]). rewrite reread_bytes.
  change (TraceEvent_valid (raw_event id seq generation (reread f) 1)) with
    (TraceEvent_valid (raw_event id seq generation f 1)).
  rewrite Hv. cbn [rbind]. by rewrite Hn.
Qed.

Lemma raw_event_decodes key t m :
  thread_ok l (thread_key key) t -> evidenced t -> th_key (mt_state t) = key ->
  m ∈ mt_events t -> decode_raw_event key (me_record m) = Ok (reread_event (me_validated_event m)).
Proof.
  intros Ht He Hkey Hm. destruct (event_of_record _ _ _ Ht Hm) as [_ Hg Hth _ _].
  pose proof (re_made _ (ed_record _ He m Hm)) as Hmade. simpl in Hmade.
  destruct (re_encoded _ (ed_record _ He m Hm)) as (d & -> & Hen). rewrite Hkey in Hg, Hth.
  unfold identity_key, thread_key in Hth. injection Hth as Hns Htid. simpl in *.
  unfold decode_raw_event. simpl. rewrite (encoded_digest _ _ _ Hen). simpl.
  rewrite (bool_decide_true (d_payload_digest d = _)) by done. simpl.
  rewrite (encoded_decodes _ _ _ Hen). simpl. unfold f_run_id, f_identity, f_occurred_at.
  rewrite reread_base, reread_kind. unfold f_identity in Hns, Htid.
  rewrite Hns, Htid, !Z.eqb_refl, !bool_decide_true by done. simpl.
  rewrite <-Hg, (made_reread _ _ _ _ _ Hmade). simpl. by rewrite Z.eqb_refl.
Qed.

(** ** The runs that write *)

Definition active_runs (now : Z) (t : MemoryThread) : list pystr :=
  sorted_by (key_leb id str_ltb) (map w_run_id (List.filter (writing now) (dvals (mt_writers t)))).

Lemma writer_run_keys key t :
  thread_ok l key t -> map w_run_id (dvals (mt_writers t)) = dkeys (mt_writers t).
Proof.
  intros Ht. unfold dvals, dkeys. rewrite map_map. apply map_ext_in. intros [run wr] Hin.
  apply list_elem_of_In in Hin. simpl. eapply wo_run, (to_writer _ _ _ Ht).
  apply elem_of_dget; [apply Ht|done].
Qed.

Lemma active_runs_checked now key t :
  thread_ok l key t -> evidenced t ->
  existsb (fun run => bool_decide (run = []) || negb (bool_decide (run = strip run)))
    (active_runs now t) || negb (bool_decide (NoDup (active_runs now t))) = false.
Proof.
  intros Ht He. apply orb_false_intro.
  - apply existsb_none. intros run [wr [-> Hwr]]%elem_of_sorted_by%list_elem_of_fmap.
    apply list_elem_of_In, filter_In in Hwr as [Hwr _]. apply list_elem_of_In in Hwr.
    apply elem_of_dvals in Hwr as [run Hrun]; [|apply Ht].
    rewrite (wo_run _ _ _ _ (to_writer _ _ _ Ht _ _ Hrun)).
    pose proof (ed_run _ He _ _ Hrun) as Hc. unfold canonical_run, bounded_text, canonical_identifier in Hc.
    bool_prop. rewrite bool_decide_false; [|by intros ->]. by rewrite bool_decide_true.
  - rewrite bool_decide_true; [done|]. apply NoDup_sorted_by, NoDup_map_filter.
    rewrite (writer_run_keys _ _ Ht). apply Ht.
Qed.

(** ** Reads of a stored generation *)

Section stored_generation.
Context (w : World) (key : TraceThreadKey) (t : MemoryThread).
Context (Hs : system_ok l w) (Hw : world_evidenced w) (Hst : stored w key t).

(** A page as the backend reads it. *)
Definition page_of (request : TraceEventPageRequest) : StoredTraceEventPage :=
  let now := utc_now (readings w) in
  {| pg_key := key; pg_tail_seq := th_next_seq (mt_state t) - 1;
     pg_events := page_records t request; pg_active_run_ids := active_runs now t;
     pg_observed_at := now;
     pg_next_writer_lease_remaining_seconds :=
       zmin (map (fun wr => w_lease_expires_at wr - now)
               (List.filter (fun wr => writing now wr && (w_lease_expires_at wr <? datetime_max))
                  (dvals (mt_writers t)))) |}.

Definition world_read : World :=
  {| threads := threads w; readings := S (readings w); uuids := uuids w |}.

Lemma exact_stored : exact_thread key w = (Ok t, w).
Proof.
  destruct Hst as [Hget Hkey]. unfold exact_thread, find_thread.
  change (k_namespace key, k_thread_id key) with (thread_key key). by rewrite Hget, decide_True.
Qed.

Lemma read_stored request :
  pr_key request = key -> read_event_page request w = (Ok (page_of request), world_read).
Proof. intros E1. unfold read_event_page, bind. rewrite E1, exact_stored. done. Qed.

Lemma stored_ok : thread_ok l (thread_key key) t.
Proof. destruct Hst as [Hget _]. by apply (so_thread _ _ (sy_store _ _ Hs)). Qed.

Lemma stored_evidenced : evidenced t.
Proof. destruct Hst as [Hget _]. by eapply Hw. Qed.

Lemma py_slice_elem {A} (xs : list A) a b x : x ∈ py_slice xs a b -> x ∈ xs.
Proof.
  unfold py_slice. intros [i Hi]%list_elem_of_lookup. rewrite lookup_drop, lookup_take_Some in Hi.
  by eapply list_elem_of_lookup_2, proj1, Hi.
Qed.

Lemma page_record_elem request m : m ∈ page_records t request -> m ∈ mt_events t.
Proof.
  unfold page_records. destruct (pr_direction request); [apply py_slice_elem|].
  destruct (_ <? _); [by intros ?%elem_of_nil|].
  rewrite list_elem_of_In, <-in_rev, <-list_elem_of_In. apply py_slice_elem.
Qed.

Lemma page_within_limit request :
  1 <= pr_limit request -> 1 <= default 1 (pr_before_seq request) ->
  0 <= default 0 (pr_after_seq request) -> 0 <= default 0 (pr_as_of_seq request) ->
  zlen (page_records t request) <= pr_limit request.
Proof.
  intros Hl Hb Ha Hao. pose proof (events_tail _ _ stored_ok) as Htail. unfold page_records.
  pose proof (zlen_nonneg (mt_events t)) as Hpos.
  set (tail := th_next_seq (mt_state t) - 1) in *.
  destruct (pr_direction request).
  - rewrite zlen_py_slice; [lia|lia|]. destruct (pr_as_of_seq request); simpl in *; lia.
  - destruct (Z.ltb_spec (tail + 1) (default (tail + 1) (pr_before_seq request))) as [|Hle];
      [unfold zlen; simpl; lia|].
    unfold zlen. rewrite length_rev. fold (zlen (py_slice (mt_events t)
      (Z.max 0 (default (tail + 1) (pr_before_seq request) - 1 - pr_limit request))
      (default (tail + 1) (pr_before_seq request) - 1))).
    rewrite zlen_py_slice; [lia|lia|]. destruct (pr_before_seq request); simpl in *; lia.
Qed.

Lemma page_decodes request :
  pr_key request = key -> 1 <= pr_limit request -> 1 <= default 1 (pr_before_seq request) ->
  0 <= default 0 (pr_after_seq request) -> 0 <= default 0 (pr_as_of_seq request) ->
  decode_memory_page request (page_of request) =
  Ok (map me_validated_event (page_records t request)).
Proof.
  intros Hkey Hl Hb Ha Hao. pose proof (events_tail _ _ stored_ok) as Htail.
  pose proof (zlen_nonneg (mt_events t)) as Hpos.
  unfold decode_memory_page, decode_event_page, page_of. cbn [pg_key pg_active_run_ids pg_tail_seq pg_events].
  rewrite Hkey, bool_decide_true by done. cbn [negb rraise_if rbind].
  rewrite (active_runs_checked _ _ _ stored_ok stored_evidenced). cbn [rraise_if rbind].
  rewrite (proj2 (Z.ltb_ge _ _) (page_within_limit request Hl Hb Ha Hao)). cbn [rraise_if rbind].
  change (fun m : MemoryStoredTraceEvent => st_trace_seq (me_record m)) with record_number.
  assert (page_misordered request (th_next_seq (mt_state t) - 1)
            (map record_number (page_records t request)) = false) as ->.
  { destruct (pr_direction request) eqn:Ed.
    - eapply forward_ordered; [apply stored_ok|done..|]. destruct (pr_as_of_seq request); simpl in *; lia.
    - eapply reverse_ordered; [apply stored_ok|done..|]. destruct (pr_before_seq request); simpl in *; lia. }
  cbn [rraise_if rbind]. apply rmap_map. intros m Hm%page_record_elem.
  eapply memory_event_decodes; [apply stored_ok|apply stored_evidenced|apply Hst|done].
Qed.

Lemma read_events_stored a b n :
  0 <= a -> 0 <= b -> 1 <= n ->
  read_events key a b n w = (Ok (take (Z.to_nat n) (between a b (log t))), world_read).
Proof.
  intros Ha Hb Hn. unfold read_events, bind, raise_if.
  rewrite (proj2 (Z.ltb_ge a 0)), (proj2 (Z.ltb_ge b 0)), (proj2 (Z.ltb_ge n 1)) by lia. simpl.
  rewrite read_stored by done. unfold lift. rewrite page_decodes by (simpl; lia || done).
  by rewrite (forward_records l _ _ _ stored_ok) by (simpl; lia || done).
Qed.

Lemma read_events_reverse_stored b n :
  1 <= b -> 1 <= n ->
  read_events_reverse key b n w =
  (if zlen (log t) + 1 <? b then Raise TraceValueError
   else Ok (take (Z.to_nat n) (rev (between 0 (b - 1) (log t)))), world_read).
Proof.
  intros Hb Hn. pose proof (to_seq _ _ _ stored_ok) as Hseq.
  unfold read_events_reverse, bind, raise_if, ret.
  rewrite (proj2 (Z.ltb_ge b 1)), (proj2 (Z.ltb_ge n 1)) by lia. simpl.
  rewrite read_stored by done. unfold lift. rewrite page_decodes by (simpl; lia || done). simpl.
  rewrite (reverse_records l _ _ _ stored_ok) by (simpl; lia || done). simpl.
  replace (th_next_seq (mt_state t) - 1 + 1) with (zlen (log t) + 1) by lia.
  by destruct (_ <? b).
Qed.
End stored_generation.
End facts.
