(* ===== verification/TraceRebuild.v ===== *)
(** Tracing: [rebuild_trace_graph] of durable_store.py - a method of several reads, among
    which other tasks may change the backend - and what it leaves behind. *)
From S2P Require Import Prelude PyDict PySeq Contracts TraceModels TraceGraph TraceGraphFacts.
From S2P Require Import TraceLedger TraceMemory TraceSteps TraceFacts TraceInvariant TraceSystem.
From S2P Require Import TraceHistory TraceStore TraceEvidence.
From S2P Require Import TraceStoreFacts.

(** ** Methods that await

    An exception of an awaited call ends the method. *)

Inductive prog (A : Type) : Type :=
| Done (r : res trace_exn A)
| Await {B : Type} (m : M World trace_exn B) (k : B -> prog A).
Arguments Done {A} r.
Arguments Await {A B} m k.

(** The method is run to its end; before each of its calls the [others] have their turn. *)
Fixpoint runs {A} (others : World -> World -> Prop) (p : prog A) (w : World)
    (r : res trace_exn A) (w' : World) : Prop :=
  match p with
  | Done outcome => r = outcome /\ w' = w
  | Await m k =>
      exists w1 x w2, others w w1 /\ m w1 = (x, w2) /\
        match x with
        | Ok y => runs others (k y) w2 r w'
        | Raise e => r = Raise e /\ w' = w2
        end
  end.

(** A method alone: it always ends. *)
Fixpoint alone {A} (p : prog A) : M World trace_exn A :=
  match p with
  | Done r => lift r
  | Await m k => bind m (fun x => alone (k x))
  end.

Lemma alone_runs {A} others (p : prog A) w :
  (forall w, others w w) -> runs others p w (alone p w).1 (alone p w).2.
Proof.
  intros Hrefl. revert w. induction p as [r|B m k IH]; intros w; simpl; [done|].
  exists w, (m w).1, (m w).2. split; [done|]. split; [by destruct (m w)|].
  unfold bind. destruct (m w) as [[x|e] w2]; simpl; [apply IH|done].
Qed.

Section rebuild.
Context {hash : ScopeHash} {json : TraceJson} {clock : TraceClock} {codec : TraceCodec}.

(** [while after_seq < snapshot.as_of_seq]; each page has an event at least. *)
Fixpoint read_prefix {A} (fuel : nat) (key : TraceThreadKey) (limit as_of_seq after_seq : Z)
    (revisions : Graph) (k : Graph -> prog A) : prog A :=
  match fuel with
  | O => k revisions
  | S fuel =>
      if after_seq <? as_of_seq then
        Await (read_events key after_seq as_of_seq limit) (fun page =>
          match last page with
          | None => Done (Raise TraceStoreProtocolError)
          | Some event =>
              match apply_graph_events page revisions with
              | (Raise e, _) => Done (Raise e)
              | (Ok _, revisions) =>
                  read_prefix fuel key limit as_of_seq (ev_trace_seq event) revisions k
              end
          end)
      else k revisions
  end.

Definition rebuild_trace_graph (st : DurableTraceStore) (key : TraceThreadKey) : prog Z :=
  Await (snapshot_key key) (fun snapshot =>
    let as_of := sn_as_of_seq snapshot in
    read_prefix (Z.to_nat as_of) key (follow_batch_size (so_limits st)) as_of 0 []
      (fun revisions =>
         match graph_revision_mutations (dvals revisions) with
         | Raise e => Done (Raise e)
         | Ok mutations =>
             Await (rebuild_graph_index key as_of mutations) (fun count => Done (Ok count))
         end)).
End rebuild.

(** ** What a rebuild meets *)

Section facts.
Context {hash : ScopeHash} {json : TraceJson} {laws : TraceJsonLaws} {clock : TraceClock}.
Context {fresh : FreshUuids} {codec : TraceCodec} {codec_laws : TraceCodecLaws}.
Context (l : TraceLimits) (Hl : TraceLimits_valid l = true).

Lemma one_call w w' : call_among l client_change w w' -> client_calls l w w'.
Proof. apply rtc_once. Qed.

Lemma read_events_call key a b n w r w' :
  read_events key a b n w = (r, w') -> client_calls l w w'.
Proof.
  unfold read_events, bind, raise_if, raise, ret. destruct (_ || _); [by intros [= <- <-]|].
  destruct (read_event_page _ w) as [[page|e] w1] eqn:Ep; intros [= <- <-];
    by eapply one_call, call_page.
Qed.

Lemma snapshot_key_call key w r w' : snapshot_key key w = (r, w') -> client_calls l w w'.
Proof.
  unfold snapshot_key, bind, lift. intros H.
  destruct (load_ledger_state _ w) as [[st|e] w1] eqn:Eq; injection H as <- <-;
    by eapply one_call, call_state.
Qed.

Lemma unstored_read key a b n w r w' :
  (forall t, ~ stored w key t) -> read_events key a b n w = (r, w') ->
  0 <= a -> 0 <= b -> 1 <= n -> r = Raise TraceThreadNotFound.
Proof.
  intros Hn Hr Ha Hb Hlim. unfold read_events, bind, raise_if, ret in Hr.
  rewrite (proj2 (Z.ltb_ge a 0)), (proj2 (Z.ltb_ge b 0)), (proj2 (Z.ltb_ge n 1)) in Hr by lia.
  simpl in Hr. unfold read_event_page, bind in Hr. simpl in Hr.
  destruct (exact_thread key w) as [[t|e] w1] eqn:Ex;
    apply exact_thread_stored in Ex as [-> Hst]; [by destruct (Hn t)|].
  subst e. by injection Hr as <- _.
Qed.

Lemma stored_dec w key : (exists t, stored w key t) \/ (forall t, ~ stored w key t).
Proof.
  unfold stored. destruct (dget (threads w) (thread_key key)) as [t|].
  - destruct (decide (th_key (mt_state t) = key)); [left; by exists t|right].
    intros t' [[= <-] ?]. done.
  - right. by intros t [? _].
Qed.

Lemma read_events_threads key a b n w r w' :
  read_events key a b n w = (r, w') -> threads w' = threads w.
Proof.
  unfold read_events, bind, raise_if, raise, ret. destruct (_ || _); [by intros [= <- <-]|].
  destruct (read_event_page _ w) as [[page|e] w1] eqn:Ep; intros [= <- <-];
    by apply page_call in Ep as [? _].
Qed.

(** The end of the prefix [events] of a log that has grown since. *)
Lemma between_prefix key t events more a :
  thread_ok l key t -> log t = events ++ more -> 0 <= a ->
  between a (zlen events) (log t) = drop (Z.to_nat a) events.
Proof.
  intros Ht El Ha. erewrite between_slice; [|done|done|apply zlen_nonneg].
  unfold py_slice, slice_bound. pose proof (zlen_nonneg events).
  rewrite !(proj2 (Z.ltb_ge _ _)) by done. unfold zlen. rewrite Nat2Z.id, El.
  by rewrite take_app_length.
Qed.

(** The log of the generation began with [events] and has only grown. *)
Record tracks (key : TraceThreadKey) (events : list TraceEvent) (w : World) : Prop := {
  tk_reachable : client_reachable l w;
  tk_drawn : drawn_before key w;
  tk_log t : stored w key t -> exists more, log t = events ++ more
}.

Lemma calls_uuids w w' : calls l w w' -> (uuids w <= uuids w')%nat.
Proof. induction 1 as [|w w1 w' Hc _ IH]; [done|]. pose proof (call_uuids l _ _ Hc). lia. Qed.

Lemma tracks_calls key events w w' :
  tracks key events w -> client_calls l w w' -> tracks key events w'.
Proof.
  intros [H1 H2 H3] Hc. pose proof (client_calls_calls l _ _ Hc) as Hc'. split.
  - by eapply client_reachable_calls.
  - destruct H2 as (i & ? & ?). exists i. pose proof (calls_uuids _ _ Hc'). split; [lia|done].
  - intros t' Ht'. destruct (calls_history l Hl w w' key t') as (t & Ht & more' & El & _); try done.
    { by apply (reachable_system l Hl), client_reachable_reachable. }
    destruct (H3 t Ht) as [more Em]. exists (more ++ more'). by rewrite El, Em, app_assoc.
Qed.

Lemma tracks_start key t w :
  client_reachable l w -> stored w key t -> tracks key (log t) w.
Proof.
  intros Hr Hst. split; [done| |].
  - destruct Hst as [Hget Hkey].
    pose proof (reachable_system l Hl w (client_reachable_reachable l w Hr)) as Hs.
    destruct (sy_generation _ _ Hs _ _ Hget) as (i & ? & ?). exists i. by rewrite <-Hkey.
  - intros t' [Hget' _]. destruct Hst as [Hget _]. exists []. rewrite app_nil_r. congruence.
Qed.

(** A page of the prefix, whatever was appended behind it. *)
Lemma prefix_page key events w a n t :
  tracks key events w -> stored w key t -> 0 <= a -> 1 <= n ->
  read_events key a (zlen events) n w =
  (Ok (take (Z.to_nat n) (drop (Z.to_nat a) events)), world_read w).
Proof.
  intros [H1 H2 H3] Hst Ha Hn. destruct (H3 t Hst) as [more El].
  pose proof (reachable_system l Hl w (client_reachable_reachable l w H1)) as Hs.
  rewrite (read_events_stored l w key t Hs (client_reachable_evidenced l w H1) Hst)
    by (done || apply zlen_nonneg).
  by rewrite (between_prefix _ t events more a (stored_ok l w key t Hs Hst)).
Qed.

Lemma tracked_number key events w t i e :
  tracks key events w -> stored w key t -> events !! i = Some e -> ev_trace_seq e = Z.of_nat i + 1.
Proof.
  intros [H1 H2 H3] Hst Hi. destruct (H3 t Hst) as [more El].
  pose proof (reachable_system l Hl w (client_reachable_reachable l w H1)) as Hs.
  eapply eo_seq, (to_event _ _ _ (stored_ok l w key t Hs Hst)). rewrite El.
  by apply lookup_app_l_Some.
Qed.

(** The next page of a prefix that has not been read to its end. *)
Lemma next_page key events w t a n :
  tracks key events w -> stored w key t -> 0 <= a < zlen events -> 1 <= n ->
  let page := take (Z.to_nat n) (drop (Z.to_nat a) events) in
  exists e b, last page = Some e /\ ev_trace_seq e = b /\ a < b <= zlen events /\
    take (Z.to_nat a) events ++ page = take (Z.to_nat b) events.
Proof.
  intros Htr Hst Ha Hn page. unfold zlen in Ha. set (b := a + zlen page).
  assert (zlen page = Z.min n (Z.of_nat (length events) - a)) as Hlen.
  { unfold zlen, page. rewrite length_take, length_drop. lia. }
  destruct (last page) as [e|] eqn:Ee.
  2: { apply last_None in Ee. unfold zlen in Hlen. rewrite Ee in Hlen. simpl in Hlen. lia. }
  exists e, b. split; [done|].
  assert (ev_trace_seq e = b) as Hb.
  { rewrite last_lookup in Ee. apply lookup_take_Some in Ee as [Ee _].
    rewrite lookup_drop in Ee. rewrite (tracked_number key events w t _ _ Htr Hst Ee).
    unfold b, zlen in *. lia. }
  split; [done|]. split; [unfold zlen in *; lia|]. unfold page. rewrite take_take_drop.
  unfold b. destruct (Z.le_gt_cases n (Z.of_nat (length events) - a)).
  - f_equal. lia.
  - rewrite !take_ge; [done|lia..].
Qed.

(** The others are tasks of stores; whatever they keep true of the threads, a method keeps
    that only reads. *)
Section others.
Context (others : World -> World -> Prop) (P : dict (pystr * pystr) MemoryThread -> Prop).
Context (Hothers : forall w w', others w w' -> client_calls l w w').
Context (HP : forall w w', others w w' -> P (threads w) -> P (threads w')).

(** The loop ends with the replay of the prefix, unless the generation is gone or the
    replay fails. *)
Lemma read_prefix_runs {A} key events n fuel (k : Graph -> prog A) a g w r w' :
  1 <= n -> distinct events -> 0 <= a <= zlen events -> zlen events - a <= Z.of_nat fuel ->
  tracks key events w -> P (threads w) ->
  apply_graph_events (take (Z.to_nat a) events) [] = (Ok tt, g) ->
  runs others (read_prefix fuel key n (zlen events) a g k) w r w' ->
  (exists w1 g1, client_calls l w w1 /\ P (threads w1) /\
     apply_graph_events events [] = (Ok tt, g1) /\ runs others (k g1) w1 r w') \/
  client_calls l w w' /\ P (threads w') /\ exists e, r = Raise e /\
    forall t, stored w' key t -> (apply_graph_events events []).1 = Raise e.
Proof.
  intros Hn Hd. revert a g w. induction fuel as [|fuel IH]; intros a g w Ha Hf Htr HPw Hg Hr;
    simpl in Hr.
  { left. exists w, g. split; [done|]. split; [done|]. split; [|done].
    by rewrite <-Hg, take_ge by (unfold zlen in *; lia). }
  destruct (Z.ltb_spec a (zlen events)) as [Hlt|]; simpl in Hr.
  2: { left. exists w, g. split; [done|]. split; [done|]. split; [|done].
       by rewrite <-Hg, take_ge by (unfold zlen in *; lia). }
  destruct Hr as (w1 & x & w2 & Ho & Hm & Hr). pose proof (Hothers _ _ Ho) as Hoth.
  pose proof (HP _ _ Ho HPw) as HP1. pose proof (tracks_calls _ _ _ _ Htr Hoth) as Htr1.
  pose proof (read_events_call _ _ _ _ _ _ _ Hm) as Hcall.
  pose proof (read_events_threads _ _ _ _ _ _ _ Hm) as Hthr.
  destruct (stored_dec w1 key) as [[t Hst]|Hno].
  2: { rewrite (unstored_read key a (zlen events) n w1 x w2) in Hr by (done || lia).
       destruct Hr as [-> ->]. right. split; [by etransitivity|]. split; [by rewrite Hthr|].
       eexists. split; [done|]. intros t [Ht Hk]. exfalso. rewrite Hthr in Ht. by apply (Hno t). }
  rewrite (prefix_page key events w1 a n t) in Hm by (done || lia).
  destruct (next_page key events w1 t a n) as (e & b & He & Hb & Hab & Hcat); [done..|lia|done|].
  injection Hm as <- <-. rewrite He in Hr. set (page := take _ (drop _ _)) in *.
  assert (apply_graph_events page g = apply_graph_events (take (Z.to_nat b) events) []) as Happ.
  { rewrite <-Hcat, apply_events_app; [by unfold bind; rewrite Hg|]. rewrite Hcat.
    eapply (distinct_app _ (drop (Z.to_nat b) events)). by rewrite take_drop. }
  rewrite Happ in Hr. destruct (apply_graph_events (take (Z.to_nat b) events) []) as [[[]|e0] g'] eqn:Eg.
  - rewrite Hb in Hr.
    apply IH in Hr; [|lia|lia|by apply (tracks_calls _ _ _ _ Htr1 Hcall)|done|done].
    destruct Hr as [(w3 & g1 & Hc & H1)|[Hc H]]; [left; exists w3, g1|right];
      (split; [by do 2 (etransitivity; [done|])|done]).
  - destruct Hr as [-> ->]. right. split; [by etransitivity|]. split; [done|].
    exists e0. split; [done|]. intros _ _.
    rewrite <-(take_drop (Z.to_nat b) events), apply_events_app by (by rewrite take_drop).
    unfold bind. by rewrite Eg.
Qed.
End others.

(** ** Snapshots *)

Lemma active_writers_unique now key t :
  thread_ok l key t ->
  NoDup (map sw_run_id (map (fun wr => {| sw_run_id := w_run_id wr;
                                          sw_committed_events := w_committed_events wr |})
    (List.filter (writing now) (sorted_by writer_leb (dvals (mt_writers t)))))).
Proof.
  intros Ht. rewrite map_map. simpl. change (fun x => w_run_id x) with w_run_id.
  apply NoDup_map_filter. rewrite (sorted_by_perm _ (dvals (mt_writers t))).
  rewrite (writer_run_keys l key t Ht). apply Ht.
Qed.

Lemma zsum_events_nonneg key t : thread_ok l key t -> 0 <= zsum ev_persisted_bytes (log t).
Proof.
  intros Ht. apply zsum_nonneg. intros e [i Hi]%list_elem_of_lookup.
  pose proof (eo_size _ _ _ _ (to_event _ _ _ Ht _ _ Hi)). lia.
Qed.

(** What a store says of a generation is what the backend holds. *)
Lemma snapshot_stored w key t :
  system_ok l w -> stored w key t ->
  exists sn, snapshot_key key w = (Ok sn, world_read w) /\ sn_key sn = key /\
    sn_as_of_seq sn = zlen (log t) /\ sn_persisted_bytes sn = zsum ev_persisted_bytes (log t).
Proof.
  intros Hs Hst. pose proof (stored_ok l w key t Hs Hst) as Ht. destruct Hst as [Hget Hkey].
  unfold snapshot_key, load_ledger_state, bind, next_now, gets, lift, snapshot_from_state,
    snapshot, find_thread.
  cbn [lr_namespace lr_thread_id lr_run_id lr_include_active_writers threads ls_thread
    ls_active_writers ls_observed_at].
  change (k_namespace key, k_thread_id key) with (thread_key key).
  rewrite Hget. cbn [fmap option_fmap option_map]. rewrite Hkey, !bool_decide_true by done. simpl.
  pose proof (to_seq _ _ _ Ht) as Hseq. pose proof (zlen_nonneg (log t)).
  pose proof (to_bytes _ _ _ Ht) as Hb. pose proof (zsum_events_nonneg _ _ Ht).
  unfold StoreThreadSnapshot_valid. simpl. rewrite !(proj2 (Z.leb_le _ _)) by lia.
  rewrite bool_decide_true by by eapply active_writers_unique. simpl.
  eexists. split; [done|]. simpl. split; [done|]. split; [lia|done].
Qed.

Lemma snapshot_unstored w key :
  (forall t, ~ stored w key t) -> snapshot_key key w = (Raise TraceThreadNotFound, world_read w).
Proof.
  intros Hno. unfold snapshot_key, load_ledger_state, bind, next_now, gets, lift,
    snapshot_from_state, snapshot, find_thread.
  cbn [lr_namespace lr_thread_id lr_run_id lr_include_active_writers threads ls_thread
    ls_active_writers ls_observed_at].
  change (k_namespace key, k_thread_id key) with (thread_key key).
  destruct (dget (threads w) (thread_key key)) as [t|] eqn:Hget; [|done].
  assert (th_key (mt_state t) <> key) as Hne by (intros ?; by apply (Hno t)).
  cbn [fmap option_fmap option_map]. rewrite (bool_decide_false (th_key (mt_state t) = key)) by done.
  by rewrite orb_true_r.
Qed.

(** ** The last step *)

Lemma replayed_rows events g :
  distinct events -> apply_graph_events events [] = (Ok tt, g) ->
  exists ms, graph_revision_mutations (dvals g) = Ok ms /\ replayed_mutations [events] = Ok ms.
Proof.
  intros Hd Hg. pose proof (apply_events_ok events [] graph_ok_nil) as Hok.
  pose proof (apply_events_settled events [] graph_ok_nil) as Hse. rewrite Hg in Hok, Hse.
  destruct (rebuild_from_rows [] g Hok) as [H1 _]; [by apply Hse|]. eexists. split; [exact H1|].
  unfold replayed_mutations, for_each, bind. simpl. by rewrite Hg.
Qed.

Lemma last_step key events g ms w r w' :
  distinct events -> tracks key events w -> apply_graph_events events [] = (Ok tt, g) ->
  graph_revision_mutations (dvals g) = Ok ms ->
  rebuild_graph_index key (zlen events) ms w = (r, w') ->
  client_calls l w w' /\ threads w' = threads w /\
  match r with
  | Ok n => exists t, stored w key t /\ log t = events /\ n = count_nodes (mt_graph_nodes t)
  | Raise _ => forall t, stored w key t -> log t <> events
  end.
Proof.
  intros Hd Htr Hg Hms Hr. destruct (replayed_rows events g Hd Hg) as (ms' & E1 & E2).
  assert (ms' = ms) as -> by congruence.
  pose proof (reachable_system l Hl w (client_reachable_reachable l w (tk_reachable _ _ _ Htr))) as Hs.
  assert (forall t, stored w key t -> th_next_seq (mt_state t) - 1 = zlen events -> log t = events)
    as Hsame.
  { intros t Hst Has. destruct (tk_log _ _ _ Htr t Hst) as [more El].
    pose proof (to_seq _ _ _ (stored_ok l w key t Hs Hst)) as Hseq.
    rewrite El, zlen_app in Hseq. destruct more as [|e more]; [by rewrite app_nil_r in El|].
    rewrite zlen_cons in Hseq. pose proof (zlen_nonneg more). lia. }
  assert (client_calls l w w') as Hcall.
  { apply one_call. eapply (call_rebuild _ _ _ _ key (zlen events) [events]); [|done|exact Hr].
    intros t Hst Has. simpl. rewrite app_nil_r. symmetry. by apply Hsame. }
  split; [done|]. destruct (stored_dec w key) as [[t Hst]|Hno].
  2: { assert (exact_thread key w = (Raise TraceThreadNotFound, w)) as Ex.
       { destruct (exact_thread key w) as [[t|e] w1] eqn:Ex;
           apply exact_thread_stored in Ex as [-> Hx]; [by destruct (Hno t)|by rewrite Hx]. }
       unfold rebuild_graph_index, bind in Hr. rewrite Ex in Hr. injection Hr as <- <-.
       split; [done|]. intros t Ht. by destruct (Hno t). }
  unfold rebuild_graph_index, bind in Hr. rewrite (exact_stored w key t Hst) in Hr.
  unfold raise_if, raise, ret in Hr. pose proof (to_seq _ _ _ (stored_ok l w key t Hs Hst)) as Hseq.
  destruct (Z.eqb_spec (th_next_seq (mt_state t) - 1) (zlen events)) as [Has|Has]; simpl in Hr.
  2: { injection Hr as <- <-. split; [done|]. intros t' [Hget' _] El. destruct Hst as [Hget _].
       apply Has. assert (t' = t) as -> by congruence. rewrite <-El. lia. }
  pose proof (Hsame t Hst Has) as El.
  destruct (replayed_graph t [events] ms) as (g' & Hg' & _ & Hall); try done.
  { simpl. by rewrite app_nil_r. }
  { simpl. by rewrite app_nil_r. }
  rewrite Hall in Hr. unfold on_thread, modify in Hr. destruct Hst as [Hget Hkey].
  rewrite Hget in Hr. injection Hr as <- <-. simpl.
  assert (mt_graph_nodes t = g') as Hgt.
  { pose proof (sy_replays _ _ Hs _ _ Hget) as Hrep. unfold replays in Hrep.
    rewrite Hg' in Hrep. by apply Hrep. }
  split; [|exists t; by rewrite Hgt].
  apply dset_same. rewrite Hget, <-Hgt. by destruct t.
Qed.

(** A rebuild among other tasks of stores. *)
Lemma rebuild_runs others P st key t w r w' :
  (forall w w', others w w' -> client_calls l w w') ->
  (forall w w', others w w' -> P (threads w) -> P (threads w')) ->
  so_limits st = l -> client_reachable l w -> stored w key t -> P (threads w) ->
  runs others (rebuild_trace_graph st key) w r w' ->
  client_calls l w w' /\ P (threads w') /\
  match r with
  | Ok n => exists t', stored w' key t' /\ (apply_graph_events (log t') []).1 = Ok tt /\
              n = count_nodes (mt_graph_nodes t')
  | Raise e => forall t', stored w' key t' -> log t' = log t ->
                 (apply_graph_events (log t') []).1 = Raise e
  end.
Proof.
  intros Ho HP Hlim Hreach Hst HPw (w1 & x & w2 & Hw1 & Hsn & Hr).
  pose proof (tracks_start key t w Hreach Hst) as Htr0.
  pose proof (tracks_calls _ _ _ _ Htr0 (Ho _ _ Hw1)) as Htr1.
  pose proof (HP _ _ Hw1 HPw) as HP1. pose proof (snapshot_key_call _ _ _ _ Hsn) as Hcall.
  pose proof (reachable_system l Hl w1 (client_reachable_reachable l w1 (tk_reachable _ _ _ Htr1))) as Hs1.
  destruct (stored_dec w1 key) as [[t1 Hst1]|Hno].
  2: { rewrite (snapshot_unstored w1 key Hno) in Hsn. injection Hsn as <- <-.
       destruct Hr as [-> ->]. split; [by etransitivity; [apply Ho|]|]. split; [done|].
       intros t' Ht'. by destruct (Hno t'). }
  destruct (snapshot_stored w1 key t1 Hs1 Hst1) as (sn & E1 & _ & Has & _).
  rewrite E1 in Hsn. injection Hsn as <- <-. rewrite Has, Hlim in Hr.
  pose proof (log_distinct l _ _ (stored_ok l w1 key t1 Hs1 Hst1)) as Hd.
  pose proof (tracks_calls _ _ _ _ (tracks_start key t1 w1 (tk_reachable _ _ _ Htr1) Hst1) Hcall) as Htr2.
  destruct (tk_log _ _ _ Htr1 t1 Hst1) as [more Emore].
  assert (forall w3 t3, tracks key (log t1) w3 -> stored w3 key t3 -> log t3 = log t -> log t1 = log t)
    as Hsame.
  { intros w3 t3 Htr3 Hst3 El. destruct (tk_log _ _ _ Htr3 t3 Hst3) as [more' E3].
    rewrite El, Emore, <-app_assoc in E3. apply (f_equal length) in E3.
    rewrite !length_app in E3. destruct more; [by rewrite app_nil_r in Emore|simpl in E3; lia]. }
  assert (client_calls l w (world_read w1)) as Hc2 by (by etransitivity; [apply Ho|]).
  apply (read_prefix_runs others P Ho HP) in Hr; try done; [|unfold TraceLimits_valid in Hl; bool_prop; lia
    |pose proof (zlen_nonneg (log t1)); lia|pose proof (zlen_nonneg (log t1)); lia].
  destruct Hr as [(w3 & g1 & Hc3 & HP3 & Hg & Hr)|(Hc3 & HP3 & e & -> & He)].
  2: { split; [by etransitivity|]. split; [done|]. intros t' Ht' El.
       rewrite <-(He t' Ht'). do 2 f_equal. rewrite El. symmetry.
       eapply Hsame; [by eapply tracks_calls|done..]. }
  destruct (replayed_rows (log t1) g1 Hd Hg) as (ms & Ems & _). rewrite Ems in Hr.
  destruct Hr as (w4 & y & w5 & Hw4 & Hm & Hr).
  assert (tracks key (log t1) w4) as Htr4
    by (eapply tracks_calls; [by eapply tracks_calls|by apply Ho]).
  destruct (last_step key (log t1) g1 ms w4 y w5) as (Hc5 & Hthr & Hy); try done.
  assert (client_calls l w w5) as Hall.
  { etransitivity; [exact Hc2|]. etransitivity; [exact Hc3|]. etransitivity; [by apply Ho|done]. }
  assert (P (threads w5)) as HP5 by (rewrite Hthr; by eapply HP).
  assert (forall t', stored w5 key t' <-> stored w4 key t') as Hst5
    by (intros t'; unfold stored; by rewrite Hthr).
  destruct y as [n|e]; simpl in Hr; destruct Hr as [-> ->]; (split; [done|]); (split; [done|]).
  - destruct Hy as (t' & Ht' & El & ->). exists t'. rewrite Hst5. split; [done|].
    split; [by rewrite El, Hg|done].
  - intros t' Ht' El. rewrite Hst5 in Ht'. destruct (Hy t' Ht'). rewrite El. symmetry.
    by eapply Hsame.
Qed.
End facts.
