(* ===== verification/TraceStoreProps.v ===== *)
(** Tracing: the theorems on a store over the in-memory backend. *)
From S2P Require Import Prelude PyDict PySeq Contracts TraceModels TraceGraph TraceGraphFacts.
From S2P Require Import TraceLedger TraceMemory TraceSteps TraceFacts TraceInvariant TraceSystem.
From S2P Require Import TraceHistory TraceFinal TraceExample TraceProps TraceStore.
From S2P Require Import TraceEvidence TraceStoreFacts TraceRebuild.
From Stdlib Require Import Strings.String.

(** ** Lemmas *)

Section lemmas.
Context {hash : ScopeHash} {json : TraceJson} {laws : TraceJsonLaws} {clock : TraceClock}.
Context {codec : TraceCodec} (l : TraceLimits).

Lemma prepare_spec facts w drafts w1 :
  prepare_trace_facts facts w = (Ok drafts, w1) ->
  threads w1 = threads w /\ (uuids w <= uuids w1)%nat /\ map d_fact drafts = facts /\
  forall d, d ∈ drafts -> encodes (d_fact d) (d_canonical_payload d) (d_payload_digest d).
Proof.
  revert w drafts. induction facts as [|f facts IH]; intros w drafts; simpl.
  { intros [= <- <-]. by repeat split; [..|intros d ?%elem_of_nil]. }
  unfold bind, lift, next_uuid, ret. destruct (encode_fact f) as [e|] eqn:Ee; [|done].
  destruct (prepare_trace_facts facts _) as [[ds|] w2] eqn:Ep; [|done]. intros [= <- <-].
  destruct (IH _ _ Ep) as (H1 & H2 & H3 & H4). simpl in H1, H2. split; [done|]. split; [lia|].
  split; [simpl; by rewrite H3|]. intros d [->|Hd]%elem_of_cons; [|by apply H4].
  unfold encodes. simpl. rewrite Ee. by destruct e.
Qed.

Lemma append_change_ok st wr drafts mandatory persist :
  (forall d, d ∈ drafts -> encodes (d_fact d) (d_canonical_payload d) (d_payload_digest d)) ->
  client_change (writer_change st AppendEvents wr drafts mandatory persist).
Proof. intros H. split; simpl; try done; by eexists. Qed.

Lemma drawn_call w w1 :
  threads w1 = threads w -> (uuids w <= uuids w1)%nat -> (readings w <= readings w1)%nat ->
  client_calls l w w1.
Proof. intros. by apply one_call, call_draw. Qed.

(** A call of a store is a call of its backend. *)
Lemma apply_call w change r w' :
  system_ok l w -> client_change change -> ch_limits change = l ->
  apply_ledger_change change w = (r, w') -> client_calls l w w'.
Proof.
  intros Hs Hcl Hlim Ha. rewrite (apply_is_commit l w change Hs Hcl) in Ha.
  by eapply one_call, call_commit.
Qed.

(** ** Methods as calls *)

Section methods.
Context (Hl : TraceLimits_valid l = true).

Lemma client_system w : client_reachable l w -> system_ok l w.
Proof. intros H. by apply (reachable_system l Hl), client_reachable_reachable. Qed.

Lemma open_writer_call st identity w r w' :
  client_reachable l w -> so_limits st = l -> RunIdentity_valid identity = true ->
  open_writer st identity w = (r, w') -> client_calls l w w'.
Proof.
  intros Hr Hlim Hid Ho. unfold open_writer, bind, next_uuid in Ho.
  set (w1 := {| threads := threads w; readings := readings w; uuids := S (uuids w) |}) in *.
  assert (client_calls l w w1) as Hc1 by (apply drawn_call; [done|simpl; lia..]).
  pose proof (client_system w1 (client_reachable_calls l _ _ Hr Hc1)) as Hs1.
  destruct (apply_ledger_change _ w1) as [res w2] eqn:Ea.
  apply apply_call in Ea; [|done| |done].
  2: { split; simpl; try done; [by intros ? [= <-]|by intros ? ?%elem_of_nil]. }
  assert (w' = w2) as ->; [|by etransitivity].
  destruct res as [res|e]; [|by injection Ho].
  destruct (re_key res), (re_fence res); by injection Ho.
Qed.

Lemma prepare_call facts w r w1 :
  prepare_trace_facts facts w = (r, w1) -> client_calls l w w1.
Proof.
  revert w r w1. induction facts as [|f facts IH]; intros w r w1; simpl; [intros [= <- <-]; apply rtc_refl|].
  unfold bind, lift, next_uuid, ret. destruct (encode_fact f) as [e|]; [|intros [= <- <-]; apply rtc_refl].
  set (w0 := {| threads := threads w; readings := readings w; uuids := S (uuids w) |}).
  destruct (prepare_trace_facts facts w0) as [r2 w2] eqn:Ep.
  assert (client_calls l w w2) as Hc.
  { etransitivity; [apply (drawn_call w w0); [done|simpl; lia..]|by eapply IH]. }
  by destruct r2; intros [= <- <-].
Qed.

Lemma append_call st wr facts mandatory w r w' :
  client_reachable l w -> so_limits st = l -> TraceStore.append st wr facts mandatory w = (r, w') ->
  client_calls l w w'.
Proof.
  intros Hr Hlim Ha. unfold TraceStore.append, bind, raise_if, raise, ret in Ha.
  destruct (match facts with [] => true | _ => false end); [injection Ha as _ <-; apply rtc_refl|].
  destruct (dw_closed wr); [injection Ha as _ <-; apply rtc_refl|].
  destruct (prepare_trace_facts facts w) as [p w1] eqn:Ep. pose proof (prepare_call _ _ _ _ Ep) as Hc1.
  destruct p as [drafts|]; [|by injection Ha as _ <-].
  destruct (prepare_spec _ _ _ _ Ep) as (_ & _ & _ & Hen).
  destruct (apply_ledger_change _ w1) as [res w2] eqn:Ea.
  apply apply_call in Ea; [|by apply client_system, (client_reachable_calls l w)
    |by apply append_change_ok|done].
  assert (w' = w2) as -> by (by destruct res; injection Ha). by etransitivity.
Qed.
End methods.
End lemmas.

(** ** Theorems *)

Section props.
Context {hash : ScopeHash} {json : TraceJson} {laws : TraceJsonLaws} {clock : TraceClock}.
Context {codec : TraceCodec} {codec_laws : TraceCodecLaws} (l : TraceLimits).

(** C19: A store never refuses what its backend has done: the checks it makes of the answer to
    a change - its kind, generation, run, fence, and every event made again from its fact -
    pass whenever the backend committed the change. *)
Theorem committed_changes_are_accepted w change :
  TraceLimits_valid l = true -> client_reachable l w -> client_change change ->
  apply_ledger_change change w = commit_ledger_change change w.
Proof.
  intros Hl Hr Hcl. apply (apply_is_commit l); [|done].
  by apply (reachable_system l Hl), client_reachable_reachable.
Qed.

(** C20: What a writer's append returns is what it stored: the given facts, in their order, as
    the events at the end of the log of the writer's generation. *)
Theorem append_returns_what_it_stored w st wr facts mandatory events w' :
  TraceLimits_valid l = true -> client_reachable l w -> so_limits st = l ->
  TraceStore.append st wr facts mandatory w = (Ok events, w') ->
  client_calls l w w' /\ map ev_fact events = facts /\
  exists t t', stored w (dw_key wr) t /\ stored w' (dw_key wr) t' /\ log t' = log t ++ events.
Proof.
  intros Hl Hr Hlim Ha. unfold TraceStore.append, bind, raise_if, raise, ret in Ha.
  destruct (match facts with [] => true | _ => false end); [done|].
  destruct (dw_closed wr); [done|].
  destruct (prepare_trace_facts facts w) as [[drafts|] w1] eqn:Ep; [|done].
  destruct (prepare_spec _ _ _ _ Ep) as (Hthr & Hu & Hfacts & Hen).
  set (change := writer_change st AppendEvents wr drafts mandatory _) in *.
  assert (client_change change) as Hcl by by apply append_change_ok.
  pose proof (prepare_call l _ _ _ _ Ep) as Hc1.
  pose proof (client_reachable_calls l _ _ Hr Hc1) as Hr1.
  pose proof (reachable_system l Hl w1 (client_reachable_reachable l w1 Hr1)) as Hs1.
  destruct (apply_ledger_change change w1) as [[res|] w2] eqn:Eap; [|done]. injection Ha as <- <-.
  pose proof (apply_call l _ _ _ _ Hs1 Hcl Hlim Eap) as Hc2.
  split; [by etransitivity|]. rewrite (apply_is_commit l w1 change Hs1 Hcl) in Eap.
  rewrite commit_unfold in Eap. simpl in Eap. cbv zeta in Eap.
  set (state := change_state w1 change (k_thread_id (dw_key wr)) (Some (dw_run_id wr))) in *.
  destruct (resolve_ledger_change change state _) as [eff|] eqn:Eres; [|done].
  destruct (apply_effect change eff _) as [[[]|] w3] eqn:Eeff; [|done]. injection Eap as <- <-.
  unfold resolve_ledger_change in Eres. apply rbind_ok in Eres as ([] & Hv & Eres). simpl in Eres.
  destruct (append_applied w1 change (k_thread_id (dw_key wr)) (Some (dw_run_id wr)) eq_refl Hv
    eff _ _ eq_refl eq_refl Eres Eeff) as (t & wr' & rid & Ht & Hkey & Hmake & E3 & _).
  simpl in Hkey. injection Hkey as Hkey.
  split; [by rewrite (make_events_facts _ _ _ _ _ _ Hmake)|].
  exists t, (appended change (re_events (ef_result eff)) wr' t).
  change (ch_namespace change, k_thread_id (dw_key wr)) with (thread_key (dw_key wr)) in *.
  split; [split; [by rewrite <-Hthr|done]|]. split; [split; [by rewrite E3, dget_dset_eq|done]|].
  apply log_appended. by eapply make_events_length.
Qed.

(** C21: What a store reads of a generation is its log, though every record is checked against
    its digest and its event: forwards the first [n] events after [a] up to a fixed
    prefix, backwards the last [n] before [b], and a snapshot with the length and the
    size of the log. *)
Theorem store_reads_the_log w key t :
  TraceLimits_valid l = true -> client_reachable l w -> stored w key t ->
  (forall a b n, 0 <= a -> 0 <= b -> 1 <= n ->
     (read_events key a b n w).1 = Ok (take (Z.to_nat n) (between a b (log t)))) /\
  (forall b n, 1 <= b -> 1 <= n ->
     (read_events_reverse key b n w).1 =
     if zlen (log t) + 1 <? b then Raise TraceValueError
     else Ok (take (Z.to_nat n) (rev (between 0 (b - 1) (log t))))) /\
  exists sn, (snapshot_key key w).1 = Ok sn /\ sn_key sn = key /\
    sn_as_of_seq sn = zlen (log t) /\ sn_persisted_bytes sn = zsum ev_persisted_bytes (log t).
Proof.
  intros Hl Hr Hst. pose proof (reachable_system l Hl w (client_reachable_reachable l w Hr)) as Hs.
  pose proof (client_reachable_evidenced l w Hr) as Hw. split; [|split].
  - intros a b n Ha Hb Hn. by rewrite (read_events_stored l w key t Hs Hw Hst).
  - intros b n Hb Hn. by rewrite (read_events_reverse_stored l w key t Hs Hw Hst).
  - destruct (snapshot_stored l w key t Hs Hst) as (sn & E1 & H). exists sn. by rewrite E1.
Qed.

(** C22: A rebuild of the index cannot be seen, whatever other tasks do meanwhile: it keeps what
    they keep.  It returns the number of nodes of the index, and it raises only if the
    generation is not as it was at the start - or if its log cannot be replayed.  Alone
    it always ends. *)
Theorem rebuild_is_invisible {fresh : FreshUuids} w st key t
    (others : World -> World -> Prop) (P : dict (pystr * pystr) MemoryThread -> Prop) :
  TraceLimits_valid l = true -> so_limits st = l -> client_reachable l w -> stored w key t ->
  (forall w w', others w w' -> client_calls l w w') ->
  (forall w w', others w w' -> P (threads w) -> P (threads w')) -> P (threads w) ->
  (forall r w', runs others (rebuild_trace_graph st key) w r w' ->
     client_calls l w w' /\ P (threads w') /\
     match r with
     | Ok n => exists t', stored w' key t' /\ (apply_graph_events (log t') []).1 = Ok tt /\
                 n = count_nodes (mt_graph_nodes t')
     | Raise e => forall t', stored w' key t' -> log t' = log t ->
                    (apply_graph_events (log t') []).1 = Raise e
     end) /\
  ((apply_graph_events (log t) []).1 = Ok tt ->
   exists w', alone (rebuild_trace_graph st key) w = (Ok (count_nodes (mt_graph_nodes t)), w') /\
     threads w' = threads w).
Proof.
  intros Hl Hlim Hr Hst Hoth HP HPw. split.
  - intros r w' Hruns. by eapply rebuild_runs.
  - intros Hrep. pose proof (alone_runs eq (rebuild_trace_graph st key) w (fun _ => eq_refl)) as Hruns.
    destruct (alone _ w) as [r w']. exists w'.
    apply (rebuild_runs l Hl eq (fun d => d = threads w) st key t) in Hruns; try done.
    2: { intros ? ? <-. apply rtc_refl. }
    2: { by intros ? ? <-. }
    simpl in Hruns. destruct Hruns as (_ & Hthr & Hres). split; [|done].
    assert (stored w' key t) as Hst' by (unfold stored; by rewrite Hthr).
    destruct r as [n|e].
    + destruct Hres as (t' & [Hget' _] & _ & ->). destruct Hst' as [Hget _]. by simplify_eq.
    + specialize (Hres t Hst' eq_refl). congruence.
Qed.

(** C37: A checkpoint that a store has saved is what it loads for that prefix: its state comes
    back through the codec, and with it all the checks of a load pass. *)
Theorem checkpoint_round_trip w st c expected c' w' :
  TraceLimits_valid l = true -> client_reachable l w -> so_limits st = l ->
  TraceProjectionCheckpoint_valid c = true -> save_checkpoint st c expected w = (Ok c', w') ->
  c' = c /\
  load_checkpoint (checkpoint_request c) w' =
  (Ok (Some {| pc_key := pc_key c; pc_projection_name := pc_projection_name c;
               pc_run_id := pc_run_id c; pc_as_of_seq := pc_as_of_seq c;
               pc_state := reread_json (pc_state c) |}), w').
Proof.
  intros Hl Hr Hlim Hv Hsave. pose proof (client_system l Hl w Hr) as Hs.
  unfold save_checkpoint, bind, raise_if, raise, ret, lift in Hsave.
  destruct (match expected with Some s => s <? 0 | None => false end); [done|].
  destruct (encode_json (pc_state c)) as [e|] eqn:Ee; [|done].
  set (change := checkpoint_change st c e expected) in *.
  assert (encodes_json (pc_state c) (en_data e) (en_digest e)) as Hen
    by (unfold encodes_json; rewrite Ee; by destruct e).
  assert (client_change change) as Hcl.
  { split; simpl; try done; [by intros ? ?%elem_of_nil|].
    intros p [= <-]. split; [done|]. split; [done|]. by exists (en_data e), (en_digest e). }
  destruct (apply_ledger_change change w) as [[res|] w1] eqn:Ea; [|done].
  assert (re_checkpoint res = Some c) as Hres.
  { rewrite (apply_is_commit l w change Hs Hcl) in Ea. rewrite commit_unfold in Ea. simpl in Ea.
    destruct (resolve_ledger_change change _ _) as [eff|] eqn:Eres; [|done].
    destruct (apply_effect change eff _) as [[[]|] w2]; [|done]. injection Ea as <- <-.
    pose proof Eres as Hvs. unfold resolve_ledger_change in Hvs.
    apply rbind_ok in Hvs as ([] & Hvs & _).
    destruct (resolved_accepted l w change _ _ Hs Hcl eq_refl Hvs _ _ Eres) as [_ Hval].
    unfold validate_commit_result in Hval. simpl in Hval. res_inv. by bool_prop. }
  rewrite Hres in Hsave. injection Hsave as <- <-. split; [done|].
  rewrite (apply_is_commit l w change Hs Hcl) in Ea.
  pose proof (saved_checkpoint_is_loaded l w change c (en_data e) (en_digest e) res w1 Hl
    (client_reachable_reachable l w Hr) Hlim eq_refl eq_refl eq_refl eq_refl Ea) as Hload.
  unfold load_checkpoint, bind, lift, checkpoint_lookup, ret.
  assert (checkpoint_lookup (pc_projection_name c) (pc_run_id c) (pc_as_of_seq c) = Ok tt) as Hlook.
  { unfold TraceProjectionCheckpoint_valid, bounded_text in Hv. bool_prop.
    assert (forall v, 1 <= zlen v -> strip v = v ->
      negb (bool_decide (v = [])) && bool_decide (v = strip v) = true) as Hcan.
    { intros v Hlen Hstrip. rewrite bool_decide_false; [|by intros ->].
      by rewrite bool_decide_true by done. }
    unfold checkpoint_lookup. rewrite Hcan by done. simpl.
    rewrite (proj2 (Z.ltb_ge (pc_as_of_seq c) 0)) by done.
    destruct (pc_run_id c) as [r|]; [|done]. bool_prop. by rewrite Hcan. }
  unfold checkpoint_lookup in Hlook. simpl. rewrite Hlook, Hload.
  unfold decode_checkpoint. simpl. rewrite !bool_decide_true by done.
  rewrite (proj2 (Z.ltb_ge (pc_as_of_seq c) (pc_as_of_seq c))) by lia. simpl.
  rewrite (encoded_json_digest _ _ _ Hen). simpl. rewrite bool_decide_true by done. simpl.
  rewrite (encoded_json_decodes _ _ _ Hen). simpl.
  unfold TraceProjectionCheckpoint_valid in *. simpl. by rewrite Hv.
Qed.
End props.

(** ** Witnesses

    A codec of the facts in a table, which writes the place of a fact. *)

Definition ex_table : list TraceSemanticFact :=
  [d_fact (ex_draft "e1" (ex_message "m" MsgStarted));
   d_fact (ex_draft "e2" (ex_message "m" MsgCompleted))].

#[export] Instance ex_codec : TraceCodec := {
  codec_digest payload := Ok payload;
  encode_fact f :=
    match list_find (f =.) ex_table with
    | Some (i, _) => Ok {| en_data := [Z.of_nat i]; en_digest := [Z.of_nat i] |}
    | None => Raise TraceStoreProtocolError
    end;
  decode_fact payload :=
    match ex_table !! Z.to_nat (default 0 (head payload)) with
    | Some f => Ok f
    | None => Raise TraceStoreProtocolError
    end;
  encode_json v :=
    if decide (v = JNull) then Ok {| en_data := [110]; en_digest := [110] |}
    else Raise TraceStoreProtocolError;
  decode_json _ := Ok JNull
}.

Lemma ex_encoded f payload digest :
  encodes f payload digest -> decode_fact payload = Ok f /\ digest = payload.
Proof.
  unfold encodes. cbn [encode_fact ex_codec].
  destruct (list_find (f =.) ex_table) as [[i g]|] eqn:Ef; [|done].
  intros [= <- <-]. apply list_find_Some in Ef as (Hi & <- & _).
  cbn [decode_fact ex_codec head]. simpl default. by rewrite Nat2Z.id, Hi.
Qed.

Lemma ex_reread f : reread f = f.
Proof.
  unfold reread. destruct (encode_fact f) as [[payload digest]|] eqn:Ee; [|done].
  destruct (ex_encoded f payload digest Ee) as [H _]. cbn [en_data]. by rewrite H.
Qed.

#[export] Instance ex_codec_laws : TraceCodecLaws.
Proof.
  split; intros *; rewrite ?ex_reread; try done.
  - intros H. by destruct (ex_encoded _ _ _ H) as [_ ->].
  - intros H. by destruct (ex_encoded _ _ _ H) as [-> _].
  - unfold encodes_json. simpl. case_decide; [|done]. by intros [= <- <-].
  - unfold encodes_json, reread_json. simpl. case_decide; [|done]. by intros [= <- <-].
Qed.

(** A store without leases; a run opened and written to. *)
Definition ex_store : DurableTraceStore :=
  {| so_limits := ex_limits; so_options := ex_options; so_enforce_writer_leases := false |}.

Definition ex_opening := open_writer ex_store ex_identity ex_start.
Definition ex_writer : DurableTraceWriter :=
  {| dw_key := {| k_namespace := u "n"; k_thread_id := u "t"; k_generation := [100001] |};
     dw_run_id := u "r"; dw_owner_token := [100000]; dw_fence := 1; dw_closed := false;
     dw_close_task := None |}.

Example ex_opened_writer : ex_opening.1 = Ok ex_writer.
Proof. by vm_compute. Qed.

Definition ex_appending := TraceStore.append ex_store ex_writer ex_table false ex_opening.2.
Definition ex_stored_events : list TraceEvent :=
  match ex_appending.1 with Ok events => events | Raise _ => [] end.
Definition ex_appended : World := ex_appending.2.
Definition ex_generation : TraceThreadKey := dw_key ex_writer.

Lemma ex_opening_reachable : client_reachable ex_limits ex_opening.2.
Proof.
  exists ex_start. split; [done|]. eapply (open_writer_call ex_limits eq_refl ex_store ex_identity).
  - exists ex_start. split; [done|apply rtc_refl].
  - done.
  - by vm_compute.
  - apply surjective_pairing.
Qed.

Lemma ex_appended_reachable : client_reachable ex_limits ex_appended.
Proof.
  eapply client_reachable_calls; [apply ex_opening_reachable|].
  eapply (append_call ex_limits eq_refl ex_store ex_writer ex_table false).
  - apply ex_opening_reachable.
  - done.
  - apply surjective_pairing.
Qed.

Lemma ex_appended_stored : stored ex_appended ex_generation (thread_of ex_appended).
Proof. by split; vm_compute. Qed.

Lemma append_returns_what_it_stored_witness :
  client_calls ex_limits ex_opening.2 ex_appended /\ map ev_fact ex_stored_events = ex_table /\
  exists t t', stored ex_opening.2 ex_generation t /\ stored ex_appended ex_generation t' /\
    log t' = log t ++ ex_stored_events.
Proof.
  apply (append_returns_what_it_stored ex_limits ex_opening.2 ex_store ex_writer ex_table false
    ex_stored_events ex_appended eq_refl ex_opening_reachable eq_refl).
  vm_compute. reflexivity.
Defined.

Lemma committed_changes_are_accepted_witness :
  apply_ledger_change (delete_change ex_store ex_generation) ex_appended =
  commit_ledger_change (delete_change ex_store ex_generation) ex_appended.
Proof.
  apply (committed_changes_are_accepted ex_limits ex_appended
    (delete_change ex_store ex_generation) eq_refl ex_appended_reachable).
  split; simpl; try done; by intros d ?%elem_of_nil.
Defined.

Lemma store_reads_the_log_witness :
  (forall a b n, 0 <= a -> 0 <= b -> 1 <= n ->
     (read_events ex_generation a b n ex_appended).1 =
     Ok (take (Z.to_nat n) (between a b (log (thread_of ex_appended))))) /\
  (forall b n, 1 <= b -> 1 <= n ->
     (read_events_reverse ex_generation b n ex_appended).1 =
     if zlen (log (thread_of ex_appended)) + 1 <? b then Raise TraceValueError
     else Ok (take (Z.to_nat n) (rev (between 0 (b - 1) (log (thread_of ex_appended)))))) /\
  exists sn, (snapshot_key ex_generation ex_appended).1 = Ok sn /\ sn_key sn = ex_generation /\
    sn_as_of_seq sn = zlen (log (thread_of ex_appended)) /\
    sn_persisted_bytes sn = zsum ev_persisted_bytes (log (thread_of ex_appended)).
Proof.
  exact (store_reads_the_log ex_limits ex_appended ex_generation (thread_of ex_appended) eq_refl
    ex_appended_reachable ex_appended_stored).
Defined.

Lemma rebuild_is_invisible_witness :
  (forall r w', runs (client_calls ex_limits) (rebuild_trace_graph ex_store ex_generation)
       ex_appended r w' ->
     client_calls ex_limits ex_appended w' /\ True /\
     match r with
     | Ok n => exists t', stored w' ex_generation t' /\
                 (apply_graph_events (log t') []).1 = Ok tt /\ n = count_nodes (mt_graph_nodes t')
     | Raise e => forall t', stored w' ex_generation t' ->
                    log t' = log (thread_of ex_appended) ->
                    (apply_graph_events (log t') []).1 = Raise e
     end) /\
  ((apply_graph_events (log (thread_of ex_appended)) []).1 = Ok tt ->
   exists w', alone (rebuild_trace_graph ex_store ex_generation) ex_appended =
       (Ok (count_nodes (mt_graph_nodes (thread_of ex_appended))), w') /\
     threads w' = threads ex_appended).
Proof.
  exact (rebuild_is_invisible ex_limits ex_appended ex_store ex_generation (thread_of ex_appended)
    (client_calls ex_limits) (fun _ => True) eq_refl eq_refl ex_appended_reachable
    ex_appended_stored (fun _ _ H => H) (fun _ _ _ _ => I) I).
Defined.

Example ex_rebuilt :
  (alone (rebuild_trace_graph ex_store ex_generation) ex_appended).1 = Ok 1.
Proof. by vm_compute. Qed.

Definition ex_state : TraceProjectionCheckpoint :=
  {| pc_key := ex_generation; pc_projection_name := u "p"; pc_run_id := None; pc_as_of_seq := 2;
     pc_state := JNull |}.
Definition ex_saving := save_checkpoint ex_store ex_state None ex_appended.

Lemma checkpoint_round_trip_witness :
  ex_state = ex_state /\
  load_checkpoint (checkpoint_request ex_state) ex_saving.2 =
  (Ok (Some {| pc_key := pc_key ex_state; pc_projection_name := pc_projection_name ex_state;
               pc_run_id := pc_run_id ex_state; pc_as_of_seq := pc_as_of_seq ex_state;
               pc_state := reread_json (pc_state ex_state) |}), ex_saving.2).
Proof.
  apply (checkpoint_round_trip ex_limits ex_appended ex_store ex_state None ex_state ex_saving.2
    eq_refl ex_appended_reachable eq_refl); vm_compute; reflexivity.
Defined.
