(* ===== verification/TraceFollowReads.v ===== *)
(** Tracing: [_FollowReads] of _follow_reads.py - the reads the followers of a store share,
    and the bounded cache of pages they reuse.

    Monotonic instants are integers of any unit, as they are only added and compared.  The
    eight slots of concurrent reads are never all taken over the in-memory backend, which
    answers without suspending, so a read is one step. *)
From S2P Require Import Prelude PyDict PySeq Contracts TraceModels TraceLedger TraceMemory.

(** ** Values *)

(** [_ReadKey] *)
Record ReadKey : Type := {
  rk_key : TraceThreadKey;
  rk_after_seq : Z;
  rk_revision : Z
}.

#[export] Instance read_key_eq : EqDecision ReadKey.
Proof. solve_decision. Defined.

(** A [StoredTraceEventPage] whose events are plain [StoredTraceEvent]s: only the canonical
    evidence is kept. *)
Record CanonicalPage : Type := {
  cp_key : TraceThreadKey;
  cp_tail_seq : Z;
  cp_events : list StoredTraceEvent;
  cp_active_run_ids : list pystr;
  cp_observed_at : Z;
  cp_next_writer_lease_remaining_seconds : option Z
}.

(** [_FollowPage] *)
Record FollowPage : Type := {
  fp_page : CanonicalPage;
  fp_expires_at : Z;
  fp_read_order : Z;
  fp_completed_order : Z
}.

(** [_SharedRead], with what its task reads and the task's outcome when it is done.  Each
    has its own order, by which the model refers to it. *)
Record SharedRead : Type := {
  sh_request : TraceEventPageRequest;
  sh_outcome : option (res trace_exn FollowPage);
  sh_waiters : Z
}.

(** The state of [_FollowReads]; [fr_shared] is the heap of its [_SharedRead] objects. *)
Record FollowReads : Type := {
  fr_reads : dict ReadKey Z;
  fr_shared : dict Z SharedRead;
  fr_pages : dict ReadKey FollowPage;
  fr_cached_bytes : Z;
  fr_cached_records : Z;
  fr_read_order : Z
}.

Definition MAX_CACHED_BYTES : Z := 64 * 1024 * 1024.
Definition MAX_CACHED_RECORDS : Z := 8192.
Definition MAX_CACHED_PAGES : Z := 1024.

Definition new_follow_reads : FollowReads :=
  {| fr_reads := []; fr_shared := []; fr_pages := []; fr_cached_bytes := 0;
     fr_cached_records := 0; fr_read_order := 0 |}.

Definition set_shared (f : dict Z SharedRead -> dict Z SharedRead) (r : FollowReads)
    : FollowReads :=
  {| fr_reads := fr_reads r; fr_shared := f (fr_shared r); fr_pages := fr_pages r;
     fr_cached_bytes := fr_cached_bytes r; fr_cached_records := fr_cached_records r;
     fr_read_order := fr_read_order r |}.

Definition set_pages (pages : dict ReadKey FollowPage) (bytes records : Z) (r : FollowReads)
    : FollowReads :=
  {| fr_reads := fr_reads r; fr_shared := fr_shared r; fr_pages := pages;
     fr_cached_bytes := bytes; fr_cached_records := records;
     fr_read_order := fr_read_order r |}.

(** [self._read_order += 1] *)
Definition next_order (r : FollowReads) : FollowReads :=
  {| fr_reads := fr_reads r; fr_shared := fr_shared r; fr_pages := fr_pages r;
     fr_cached_bytes := fr_cached_bytes r; fr_cached_records := fr_cached_records r;
     fr_read_order := fr_read_order r + 1 |}.

(** ** The cache *)

(** [replace(result, page=replace(page, events=records))] *)
Definition with_events (records : list StoredTraceEvent) (result : FollowPage) : FollowPage :=
  let page := fp_page result in
  {| fp_page := {| cp_key := cp_key page; cp_tail_seq := cp_tail_seq page;
                   cp_events := records; cp_active_run_ids := cp_active_run_ids page;
                   cp_observed_at := cp_observed_at page;
                   cp_next_writer_lease_remaining_seconds :=
                     cp_next_writer_lease_remaining_seconds page |};
     fp_expires_at := fp_expires_at result; fp_read_order := fp_read_order result;
     fp_completed_order := fp_completed_order result |}.

Definition page_bytes (result : FollowPage) : Z :=
  zsum (fun record => zlen (st_canonical_payload record)) (cp_events (fp_page result)).
Definition page_count (result : FollowPage) : Z := zlen (cp_events (fp_page result)).

(** [_remove_page] *)
Definition remove_page (r : FollowReads) (key : ReadKey) : FollowReads :=
  match dget (fr_pages r) key with
  | None => r
  | Some result =>
      set_pages (ddel (fr_pages r) key) (fr_cached_bytes r - page_bytes result)
        (fr_cached_records r - page_count result) r
  end.

(** [move_to_end] *)
Definition move_to_end (key : ReadKey) (result : FollowPage) (r : FollowReads) : FollowReads :=
  set_pages (ddel (fr_pages r) key ++ [(key, result)]) (fr_cached_bytes r)
    (fr_cached_records r) r.

(** A page that was read before what the subscriber has already seen, and is not the same
    read. *)
Definition superseded (previous : option FollowPage) (result : FollowPage) : bool :=
  match previous with
  | Some p => negb (fp_read_order result =? fp_read_order p) &&
              (fp_read_order result <? fp_completed_order p)
  | None => false
  end.

(** The records of a page after a cursor within it. *)
Definition records_after (after limit : Z) (page : CanonicalPage)
    : option (list StoredTraceEvent) :=
  if cp_tail_seq page <? after then None
  else if after =? cp_tail_seq page then Some []
  else match head (cp_events page), last (cp_events page) with
       | Some first, Some last_ =>
           if (after <? st_trace_seq first - 1) || (st_trace_seq last_ <=? after) then None
           else let offset := after - st_trace_seq first + 1 in
                Some (py_slice (cp_events page) offset (offset + limit))
       | _, _ => None
       end.

(** The loop of [_cached_page] over a copy of the pages, the last one first. *)
Fixpoint scan_pages (now : Z) (key : ReadKey) (limit : Z) (previous : option FollowPage)
    (items : list (ReadKey * FollowPage)) (r : FollowReads)
    : option FollowPage * FollowReads :=
  match items with
  | [] => (None, r)
  | (cached_key, result) :: items =>
      if fp_expires_at result <=? now
      then scan_pages now key limit previous items (remove_page r cached_key)
      else if negb (bool_decide (rk_key cached_key = rk_key key)) ||
              negb (rk_revision cached_key =? rk_revision key) || superseded previous result
      then scan_pages now key limit previous items r
      else match records_after (rk_after_seq key) limit (fp_page result) with
           | None => scan_pages now key limit previous items r
           | Some records => (Some (with_events records result), move_to_end cached_key result r)
           end
  end.

Definition cached_page (now : Z) (key : ReadKey) (limit : Z) (previous : option FollowPage)
    (r : FollowReads) : option FollowPage * FollowReads :=
  scan_pages now key limit previous (rev (fr_pages r)) r.

(** [while over: self._remove_page(next(iter(self._pages)))], on the keys in their order;
    without pages [next] raises StopIteration, which a coroutine turns into RuntimeError. *)
Definition over_bounds (r : FollowReads) : bool :=
  (MAX_CACHED_BYTES <? fr_cached_bytes r) || (MAX_CACHED_RECORDS <? fr_cached_records r) ||
  (MAX_CACHED_PAGES <? zlen (fr_pages r)).

Fixpoint shrink (keys : list ReadKey) (r : FollowReads) : res trace_exn FollowReads :=
  if over_bounds r
  then match keys with
       | [] => Raise TraceRuntimeError
       | key :: keys => shrink keys (remove_page r key)
       end
  else Ok r.

Definition read_key (request : TraceEventPageRequest) (revision : Z) : ReadKey :=
  {| rk_key := pr_key request; rk_after_seq := default 0 (pr_after_seq request);
     rk_revision := revision |}.

Definition remember (now : Z) (request : TraceEventPageRequest) (result : FollowPage)
    (revision : Z) (r : FollowReads) : res trace_exn FollowReads :=
  if fp_expires_at result <=? now then Ok r
  else if (MAX_CACHED_BYTES <? page_bytes result) || (MAX_CACHED_RECORDS <? page_count result)
  then Ok r
  else
    let key := read_key request revision in
    if match dget (fr_pages r) key with
       | Some previous => fp_read_order result <? fp_read_order previous
       | None => false
       end
    then Ok r
    else
      let r := remove_page r key in
      let r := set_pages (dset (fr_pages r) key result) (fr_cached_bytes r + page_bytes result)
                 (fr_cached_records r + page_count result) r in
      shrink (dkeys (fr_pages r)) r.

Definition discard (key : TraceThreadKey) (r : FollowReads) : FollowReads :=
  foldl remove_page r (List.filter (fun k => bool_decide (rk_key k = key)) (dkeys (fr_pages r))).

Definition remaining (now : Z) (result : FollowPage) : Z := Z.max 0 (fp_expires_at result - now).

(** ** Shared reads *)

Definition set_waiters (n : Z) (s : SharedRead) : SharedRead :=
  {| sh_request := sh_request s; sh_outcome := sh_outcome s; sh_waiters := n |}.
Definition set_outcome (o : res trace_exn FollowPage) (s : SharedRead) : SharedRead :=
  {| sh_request := sh_request s; sh_outcome := Some o; sh_waiters := sh_waiters s |}.

(** [shared.waiters += 1] *)
Definition join_read (order : Z) (r : FollowReads) : FollowReads :=
  set_shared (fun shared => dupd shared order (fun s => set_waiters (sh_waiters s + 1) s)) r.

(** A new [_SharedRead], registered under its key. *)
Definition new_read (key : ReadKey) (request : TraceEventPageRequest) (r : FollowReads)
    : Z * FollowReads :=
  let r := next_order r in
  let order := fr_read_order r in
  (order,
   {| fr_reads := dset (fr_reads r) key order;
      fr_shared := dset (fr_shared r) order
        {| sh_request := request; sh_outcome := None; sh_waiters := 0 |};
      fr_pages := fr_pages r; fr_cached_bytes := fr_cached_bytes r;
      fr_cached_records := fr_cached_records r; fr_read_order := fr_read_order r |}).

(** A read that a subscriber may still join. *)
Definition joinable (previous : option FollowPage) (order : Z) (s : SharedRead) : bool :=
  match sh_outcome s with
  | Some _ => false
  | None => match previous with Some p => fp_completed_order p <=? order | None => true end
  end.

(** [read] up to its first suspension: the page at once, or the read to wait for. *)
Definition begin_read (now : Z) (request : TraceEventPageRequest) (revision : Z)
    (previous : option FollowPage) (r : FollowReads) : (FollowPage + Z) * FollowReads :=
  let key := read_key request revision in
  match cached_page now key (pr_limit request) previous r with
  | (Some result, r) => (inl result, r)
  | (None, r) =>
      let '(order, r) :=
        match dget (fr_reads r) key with
        | Some order =>
            match dget (fr_shared r) order with
            | Some s => if joinable previous order s then (order, r) else new_read key request r
            | None => new_read key request r
            end
        | None => new_read key request r
        end in
      (inr order, join_read order r)
  end.

(** [_wait_for_read] after its wait, for whatever reason it ended: the last waiter drops
    the read, and ends its task if it is still running. *)
Definition leave_read (key : ReadKey) (order : Z) (r : FollowReads) : FollowReads :=
  match dget (fr_shared r) order with
  | None => r
  | Some s =>
      if sh_waiters s - 1 =? 0
      then {| fr_reads := if decide (dget (fr_reads r) key = Some order)
                          then ddel (fr_reads r) key else fr_reads r;
              fr_shared := ddel (fr_shared r) order; fr_pages := fr_pages r;
              fr_cached_bytes := fr_cached_bytes r;
              fr_cached_records := fr_cached_records r; fr_read_order := fr_read_order r |}
      else set_shared (fun shared => dset shared order (set_waiters (sh_waiters s - 1) s)) r
  end.

Section reads.
Context {json : TraceJson} {clock : TraceClock}.

Definition canonical_page (page : StoredTraceEventPage) : CanonicalPage :=
  {| cp_key := pg_key page; cp_tail_seq := pg_tail_seq page;
     cp_events := map me_record (pg_events page);
     cp_active_run_ids := pg_active_run_ids page; cp_observed_at := pg_observed_at page;
     cp_next_writer_lease_remaining_seconds := pg_next_writer_lease_remaining_seconds page |}.

(** [_read_page], at the monotonic instant [now]. *)
Definition read_page (poll_seconds now : Z) (request : TraceEventPageRequest) (order : Z)
    (r : FollowReads) (w : World) : res trace_exn FollowPage * FollowReads * World :=
  match read_event_page request w with
  | (Raise e, w) => (Raise e, r, w)
  | (Ok page, w) =>
      let r := next_order r in
      let lease := pg_next_writer_lease_remaining_seconds page in
      (if match lease with Some s => s <? 0 | None => false end
       then Raise TraceStoreProtocolError
       else Ok {| fp_page := canonical_page page;
                  fp_expires_at := now + match lease with
                                         | Some s => Z.min poll_seconds s
                                         | None => poll_seconds
                                         end;
                  fp_read_order := order; fp_completed_order := fr_read_order r |}, r, w)
  end.

(** The task of a shared read runs. *)
Definition run_read (poll_seconds now : Z) (order : Z) (r : FollowReads) (w : World)
    : option (FollowReads * World) :=
  match dget (fr_shared r) order with
  | Some {| sh_request := request; sh_outcome := None |} =>
      let '(outcome, r, w) := read_page poll_seconds now request order r w in
      Some (set_shared (fun shared => dupd shared order (set_outcome outcome)) r, w)
  | _ => None
  end.
End reads.
