(* ===== verification/TraceFollow.v ===== *)
(** Tracing: [follow] of durable_store.py - the tasks that follow the generations of one
    store, as a state with the steps each task takes between its suspensions.

    A store without Notifications: a follower is woken by the commits of its own store, and
    otherwise reads again when its page has expired.  Between a commit and the wake-up of
    the followers other tasks may run. *)
From S2P Require Import Prelude PyDict PySeq Contracts TraceModels TraceGraph TraceLedger.
From S2P Require Import TraceMemory.
From S2P Require Import TraceSystem TraceHistory TraceStore TraceEvidence TraceFollowReads.

(** ** State *)

(** [_FollowChange]; [fc_closing] when its last follower has started to close it. *)
Record FollowChange : Type := {
  fc_revision : Z;
  fc_followers : Z;
  fc_closing : bool
}.

Record TraceStoreUpdate : Type := {
  up_as_of_seq : Z;
  up_events : list TraceEvent;
  up_active_run_ids : list pystr;
  up_observed_at : Z
}.

(** Where the generator [iterate] stands: at the top of its loop, waiting for a shared
    read, at its [yield] of a page with or without events, waiting for a change until a
    deadline, or ended - closed by its consumer, or by an exception. *)
Inductive FollowStatus : Type :=
| AtTop
| Reading (key : ReadKey) (order : Z)
| AtYield (events : bool) (revision : Z)
| Waiting (revision deadline : Z)
| Ended (outcome : option trace_exn).

(** The locals of [iterate], and the updates it has yielded. *)
Record Follower : Type := {
  fo_key : TraceThreadKey;
  fo_after_seq : Z;
  fo_cursor : Z;
  fo_active_run_ids : option (list pystr);
  fo_previous_page : option FollowPage;
  fo_updates : list TraceStoreUpdate;
  fo_status : FollowStatus
}.

Definition set_status (status : FollowStatus) (f : Follower) : Follower :=
  {| fo_key := fo_key f; fo_after_seq := fo_after_seq f; fo_cursor := fo_cursor f;
     fo_active_run_ids := fo_active_run_ids f; fo_previous_page := fo_previous_page f;
     fo_updates := fo_updates f; fo_status := status |}.

(** A store, its followers by a number, and the world around them: the backend, the
    monotonic instant, and the commits whose followers have still to be woken. *)
Record FollowWorld : Type := {
  fw_world : World;
  fw_now : Z;
  fw_changes : dict TraceThreadKey FollowChange;
  fw_reads : FollowReads;
  fw_followers : dict nat Follower;
  fw_owed : list TraceThreadKey
}.

Definition set_world (w : World) (s : FollowWorld) : FollowWorld :=
  {| fw_world := w; fw_now := fw_now s; fw_changes := fw_changes s; fw_reads := fw_reads s;
     fw_followers := fw_followers s; fw_owed := fw_owed s |}.
Definition set_now (now : Z) (s : FollowWorld) : FollowWorld :=
  {| fw_world := fw_world s; fw_now := now; fw_changes := fw_changes s; fw_reads := fw_reads s;
     fw_followers := fw_followers s; fw_owed := fw_owed s |}.
Definition set_changes (changes : dict TraceThreadKey FollowChange) (s : FollowWorld)
    : FollowWorld :=
  {| fw_world := fw_world s; fw_now := fw_now s; fw_changes := changes; fw_reads := fw_reads s;
     fw_followers := fw_followers s; fw_owed := fw_owed s |}.
Definition set_reads (reads : FollowReads) (s : FollowWorld) : FollowWorld :=
  {| fw_world := fw_world s; fw_now := fw_now s; fw_changes := fw_changes s; fw_reads := reads;
     fw_followers := fw_followers s; fw_owed := fw_owed s |}.
Definition put_follower (i : nat) (f : Follower) (s : FollowWorld) : FollowWorld :=
  {| fw_world := fw_world s; fw_now := fw_now s; fw_changes := fw_changes s;
     fw_reads := fw_reads s; fw_followers := dset (fw_followers s) i f; fw_owed := fw_owed s |}.
Definition set_owed (owed : list TraceThreadKey) (s : FollowWorld) : FollowWorld :=
  {| fw_world := fw_world s; fw_now := fw_now s; fw_changes := fw_changes s;
     fw_reads := fw_reads s; fw_followers := fw_followers s; fw_owed := owed |}.

(** ** Changes *)

Definition wake_change (c : FollowChange) : FollowChange :=
  {| fc_revision := fc_revision c + 1; fc_followers := fc_followers c;
     fc_closing := fc_closing c |}.
Definition add_follower (c : FollowChange) : FollowChange :=
  {| fc_revision := fc_revision c; fc_followers := fc_followers c + 1;
     fc_closing := fc_closing c |}.
Definition drop_follower (c : FollowChange) : FollowChange :=
  {| fc_revision := fc_revision c; fc_followers := fc_followers c - 1;
     fc_closing := fc_followers c - 1 =? 0 |}.

(** [_wake_followers] *)
Definition wake_followers (key : TraceThreadKey) (s : FollowWorld) : FollowWorld :=
  set_reads (discard key (fw_reads s))
    (set_changes (dupd (fw_changes s) key wake_change) s).

(** [_close_follow_change] of the last follower's task. *)
Definition close_follow_change (key : TraceThreadKey) (s : FollowWorld) : FollowWorld :=
  set_reads (discard key (fw_reads s)) (set_changes (ddel (fw_changes s) key) s).

(** The [finally] of [iterate]. *)
Definition end_follower (i : nat) (f : Follower) (outcome : option trace_exn) (s : FollowWorld)
    : FollowWorld :=
  put_follower i (set_status (Ended outcome) f)
    (set_changes (dupd (fw_changes s) (fo_key f) drop_follower) s).

(** [_notify_commit]: the kinds of change that tell nobody. *)
Definition tells_followers (kind : TraceLedgerChangeKind) : bool :=
  match kind with RenewWriter | SaveProjectionCheckpoint => false | _ => true end.

Definition revision_of (s : FollowWorld) (key : TraceThreadKey) : option Z :=
  fc_revision <$> dget (fw_changes s) key.

(** ** Pages *)

Section follow.
Context {hash : ScopeHash} {json : TraceJson} {clock : TraceClock} {codec : TraceCodec}.

Definition follow_request (st : DurableTraceStore) (f : Follower) : TraceEventPageRequest :=
  {| pr_key := fo_key f; pr_direction := Forward;
     pr_limit := follow_batch_size (so_limits st); pr_after_seq := Some (fo_cursor f);
     pr_as_of_seq := None; pr_before_seq := None |}.

(** [_decode_event_page] of a page without the backend's decoded events. *)
Definition decode_canonical_page (request : TraceEventPageRequest) (page : CanonicalPage)
    : res trace_exn (list TraceEvent) :=
  decode_event_page st_trace_seq (decode_raw_event (pr_key request)) request (cp_key page)
    (cp_active_run_ids page) (cp_tail_seq page) (cp_events page).

(** The locals after a page, and what it makes the follower yield. *)
Definition turn_page (result : FollowPage) (batch : list TraceEvent) (f : Follower)
    : Follower * bool :=
  let page := fp_page result in
  let cursor := match last batch with Some e => ev_trace_seq e | None => fo_cursor f end in
  let tells := match batch with
               | [] => negb (bool_decide (fo_active_run_ids f = Some (cp_active_run_ids page)))
               | _ => true
               end in
  ({| fo_key := fo_key f; fo_after_seq := fo_after_seq f; fo_cursor := cursor;
      fo_active_run_ids := if tells then Some (cp_active_run_ids page)
                           else fo_active_run_ids f;
      fo_previous_page := Some result;
      fo_updates := if tells
                    then fo_updates f ++
                         [{| up_as_of_seq := cursor; up_events := batch;
                             up_active_run_ids := cp_active_run_ids page;
                             up_observed_at := cp_observed_at page |}]
                    else fo_updates f;
      fo_status := fo_status f |}, tells).

(** After a page without events: [async with signal.condition] up to its wait. *)
Definition settle (revision : Z) (f : Follower) (s : FollowWorld) : FollowStatus :=
  if negb (bool_decide (revision_of s (fo_key f) = Some revision)) then AtTop
  else match fo_previous_page f with
       | None => AtTop
       | Some result =>
           let remaining := remaining (fw_now s) result in
           if remaining <=? 0 then AtTop else Waiting revision (fw_now s + remaining)
       end.

(** The loop body once [read] has returned: a page, or its exception. *)
Definition receive (st : DurableTraceStore) (i : nat) (f : Follower) (revision : Z)
    (outcome : res trace_exn FollowPage) (s : FollowWorld) : FollowWorld :=
  match outcome with
  | Raise e => end_follower i f (Some e) s
  | Ok result =>
      let request := follow_request st f in
      match decode_canonical_page request (fp_page result) with
      | Raise e => end_follower i f (Some e) s
      | Ok batch =>
          match (if bool_decide (revision_of s (fo_key f) = Some revision)
                 then remember (fw_now s) request result revision (fw_reads s)
                 else Ok (fw_reads s)) with
          | Raise e => end_follower i f (Some e) s
          | Ok reads =>
              let s := set_reads reads s in
              let '(f, tells) := turn_page result batch f in
              let status := if tells then AtYield (negb (bool_decide (batch = []))) revision
                            else settle revision f s in
              put_follower i (set_status status f) s
          end
      end
  end.

(** ** Steps *)

Inductive FollowAction : Type :=
| Join (i : nat) (key : TraceThreadKey) (after_seq : Z)
| Pull (i : nat)
| RunRead (order : Z)
| Receive (i : nat)
| Resume (i : nat)
| Wake (i : nat)
| Leave (i : nat)
| CloseChange (key : TraceThreadKey)
| Commit (change : TraceLedgerChange)
| Notify (key : TraceThreadKey)
| Tick (d : Z).

(** [iterate] up to the top of its loop: it joins the change of its generation, or opens
    one; a change that is closing has to be waited for. *)
Definition join (i : nat) (key : TraceThreadKey) (after_seq : Z) (s : FollowWorld)
    : option FollowWorld :=
  let opened := default {| fc_revision := 0; fc_followers := 0; fc_closing := false |}
                  (dget (fw_changes s) key) in
  if dmem (fw_followers s) i || (after_seq <? 0) || fc_closing opened then None
  else Some (put_follower i
         {| fo_key := key; fo_after_seq := after_seq; fo_cursor := after_seq;
            fo_active_run_ids := None; fo_previous_page := None; fo_updates := [];
            fo_status := AtTop |}
         (set_changes (dset (fw_changes s) key (add_follower opened)) s)).

(** From the top of the loop to the next suspension. *)
Definition pull (st : DurableTraceStore) (i : nat) (f : Follower) (s : FollowWorld)
    : option FollowWorld :=
  match revision_of s (fo_key f) with
  | None => None
  | Some revision =>
      let request := follow_request st f in
      match begin_read (fw_now s) request revision (fo_previous_page f) (fw_reads s) with
      | (inl result, reads) =>
          Some (receive st i f revision (Ok result) (set_reads reads s))
      | (inr order, reads) =>
          Some (put_follower i (set_status (Reading (read_key request revision) order) f)
                  (set_reads reads s))
      end
  end.

(** The task of a follower goes on from its suspension, if that has ended. *)
Definition advance (st : DurableTraceStore) (action : nat -> FollowAction) (i : nat)
    (f : Follower) (s : FollowWorld) : option FollowWorld :=
  match action i, fo_status f with
  | Pull _, AtTop => pull st i f s
  | Receive _, Reading key order =>
      match dget (fr_shared (fw_reads s)) order with
      | Some {| sh_outcome := Some outcome |} =>
          Some (receive st i f (rk_revision key) outcome
                  (set_reads (leave_read key order (fw_reads s)) s))
      | _ => None
      end
  | Resume _, AtYield events revision =>
      Some (put_follower i (set_status (if events then AtTop else settle revision f s) f) s)
  | Wake _, Waiting revision deadline =>
      if negb (bool_decide (revision_of s (fo_key f) = Some revision)) ||
         (deadline <=? fw_now s)
      then Some (put_follower i (set_status AtTop f) s)
      else None
  | Leave _, Ended _ => None
  | Leave _, Reading key order =>
      Some (end_follower i f None (set_reads (leave_read key order (fw_reads s)) s))
  | Leave _, _ => Some (end_follower i f None s)
  | _, _ => None
  end.

Definition step_follower (st : DurableTraceStore) (action : nat -> FollowAction) (i : nat)
    (s : FollowWorld) : option FollowWorld :=
  match dget (fw_followers s) i with
  | Some f => advance st action i f s
  | None => None
  end.

(** [_commit_ledger_change] up to the lock of its followers. *)
Definition commit (change : TraceLedgerChange) (s : FollowWorld) : FollowWorld :=
  let '(r, w) := apply_ledger_change change (fw_world s) in
  let s := set_world w s in
  match r with
  | Ok result =>
      match re_key result with
      | Some key => if tells_followers (re_kind result) then set_owed (key :: fw_owed s) s else s
      | None => s
      end
  | Raise _ => s
  end.

(** One of the occurrences of [key] is settled. *)
Fixpoint remove_one (key : TraceThreadKey) (l : list TraceThreadKey) : list TraceThreadKey :=
  match l with
  | [] => []
  | k :: l => if decide (k = key) then l else k :: remove_one key l
  end.

(** The rest of [_notify_commit].  The change is looked up here, when its condition is free,
    and not already at the commit: the two differ only for a change that closes in between. *)
Definition notify (key : TraceThreadKey) (s : FollowWorld) : option FollowWorld :=
  if decide (key ∈ fw_owed s)
  then
    let s := set_owed (remove_one key (fw_owed s)) s in
    Some (if dmem (fw_changes s) key then wake_followers key s else s)
  else None.

(** One step, if it is possible. *)
Definition perform (st : DurableTraceStore) (poll_seconds : Z) (action : FollowAction)
    (s : FollowWorld) : option FollowWorld :=
  match action with
  | Join i key after_seq => join i key after_seq s
  | Pull i => step_follower st Pull i s
  | Receive i => step_follower st Receive i s
  | Resume i => step_follower st Resume i s
  | Wake i => step_follower st Wake i s
  | Leave i => step_follower st Leave i s
  | RunRead order =>
      match run_read poll_seconds (fw_now s) order (fw_reads s) (fw_world s) with
      | Some (reads, w) => Some (set_reads reads (set_world w s))
      | None => None
      end
  | CloseChange key =>
      match dget (fw_changes s) key with
      | Some c => if fc_closing c then Some (close_follow_change key s) else None
      | None => None
      end
  | Commit change => Some (commit change s)
  | Notify key => notify key s
  | Tick d => if d <? 0 then None else Some (set_now (fw_now s + d) s)
  end.

(** ** Histories *)

Context (l : TraceLimits) (st : DurableTraceStore) (poll_seconds : Z).

(** What the callers of a store guarantee: a generation that is followed has been given
    out by a backend, and a change is made by a method of a store. *)
Definition admissible (action : FollowAction) (s : FollowWorld) : Prop :=
  match action with
  | Join _ key _ => drawn_before key (fw_world s)
  | Commit change => client_change change /\ ch_limits change = l
  | _ => True
  end.

(** A step of the store or of one of its followers, which the history [permits]; or
    something the [others] do, who share the backend: readers, and peers of the store, whose
    commits wake nobody here. *)
Inductive follow_step (permits : FollowAction -> FollowWorld -> Prop)
    (others : World -> World -> Prop) (s s' : FollowWorld) : Prop :=
| step_action action :
    admissible action s -> permits action s -> perform st poll_seconds action s = Some s' ->
    follow_step permits others s s'
| step_others w :
    others (fw_world s) w -> s' = set_world w s -> follow_step permits others s s'.

Definition anything (action : FollowAction) (s : FollowWorld) : Prop := True.

(** A store that nobody follows yet. *)
Definition follow_start (w : World) (now : Z) : FollowWorld :=
  {| fw_world := w; fw_now := now; fw_changes := []; fw_reads := new_follow_reads;
     fw_followers := []; fw_owed := [] |}.

Definition follow_reachable (permits : FollowAction -> FollowWorld -> Prop)
    (others : World -> World -> Prop) (s : FollowWorld) : Prop :=
  exists w now, client_reachable l w /\
    rtc (follow_step permits others) (follow_start w now) s.

(** Some actions in turn. *)
Fixpoint performs (actions : list FollowAction) (s : FollowWorld) : option FollowWorld :=
  match actions with
  | [] => Some s
  | action :: actions =>
      match perform st poll_seconds action s with
      | Some s => performs actions s
      | None => None
      end
  end.
End follow.
