(* ===== verification/TraceFollowFacts.v ===== *)
(** Tracing: the cache of _follow_reads.py keeps its counters and its bounds, and what a
    read of a follower returns. *)
From S2P Require Import Prelude PyDict PySeq Contracts TraceModels TraceGraph TraceGraphFacts.
From S2P Require Import TraceLedger TraceMemory TraceSteps TraceFacts TraceInvariant TraceSystem.
From S2P Require Import TraceHistory TraceStore TraceEvidence TraceStoreFacts TraceFollowReads.
From S2P Require Import TraceFollow.

(** ** The cache *)

(** The counters are those of the pages. *)
Record counted (r : FollowReads) : Prop := {
  ct_pages : dwf (fr_pages r);
  ct_bytes : fr_cached_bytes r = dsum page_bytes (fr_pages r);
  ct_records : fr_cached_records r = dsum page_count (fr_pages r)
}.

(** Pages may have gone; nothing else has changed. *)
Record trimmed (r r' : FollowReads) : Prop := {
  tm_reads : fr_reads r' = fr_reads r;
  tm_shared : fr_shared r' = fr_shared r;
  tm_order : fr_read_order r' = fr_read_order r;
  tm_pages k fp : dget (fr_pages r') k = Some fp -> dget (fr_pages r) k = Some fp;
  tm_counted : counted r -> counted r';
  tm_bounds : counted r -> over_bounds r = false -> over_bounds r' = false
}.

#[export] Instance trimmed_refl : Reflexive trimmed.
Proof. by split. Qed.

#[export] Instance trimmed_trans : Transitive trimmed.
Proof.
  intros r1 r2 r3 [] []. split; try congruence; eauto.
Qed.

Lemma page_bytes_nonneg fp : 0 <= page_bytes fp.
Proof. apply zsum_nonneg. intros x _. apply zlen_nonneg. Qed.

Lemma page_count_nonneg fp : 0 <= page_count fp.
Proof. apply zlen_nonneg. Qed.

Lemma over_bounds_false r :
  over_bounds r = false <->
  fr_cached_bytes r <= MAX_CACHED_BYTES /\ fr_cached_records r <= MAX_CACHED_RECORDS /\
  zlen (fr_pages r) <= MAX_CACHED_PAGES.
Proof. unfold over_bounds. rewrite !orb_false_iff, !Z.ltb_ge. tauto. Qed.

Lemma remove_page_trimmed r k : trimmed r (remove_page r k).
Proof.
  unfold remove_page. destruct (dget (fr_pages r) k) as [fp|] eqn:Ek; [|done].
  split; try done; simpl.
  - intros k' fp'. rewrite dget_ddel. by case_decide.
  - intros [Hw Hb Hr]. split; simpl; [by apply dwf_ddel| |];
      rewrite dsum_ddel, Ek by done; simpl; congruence.
  - intros _. rewrite !over_bounds_false. simpl. pose proof (zlen_ddel_le (fr_pages r) k).
    pose proof (page_bytes_nonneg fp). pose proof (page_count_nonneg fp). lia.
Qed.

Lemma dsum_app {K V} (f : V -> Z) (d d' : dict K V) : dsum f (d ++ d') = dsum f d + dsum f d'.
Proof. unfold dsum, dvals. by rewrite map_app, zsum_app. Qed.

Lemma move_to_end_dget r k fp k' :
  dget (fr_pages r) k = Some fp ->
  dget (fr_pages (move_to_end k fp r)) k' = dget (fr_pages r) k'.
Proof.
  intros Hk. simpl. rewrite <-dset_absent by apply dget_ddel_eq.
  rewrite dget_dset, dget_ddel. by repeat case_decide; subst.
Qed.

Lemma move_to_end_trimmed r k fp :
  dget (fr_pages r) k = Some fp -> trimmed r (move_to_end k fp r).
Proof.
  intros Hk. split; try done; [by intros k' fp'; rewrite move_to_end_dget| |].
  - intros [Hw Hb Hr]. split; simpl; rewrite <-?dset_absent by apply dget_ddel_eq.
    + by apply dwf_dset, dwf_ddel.
    + rewrite dsum_dset, dget_ddel_eq, dsum_ddel, Hk by done. simpl. lia.
    + rewrite dsum_dset, dget_ddel_eq, dsum_ddel, Hk by done. simpl. lia.
  - intros [Hw _ _]. rewrite !over_bounds_false. simpl. rewrite zlen_app, zlen_ddel, Hk by done.
    unfold zlen. simpl. lia.
Qed.

(** A page that comes out of the cache. *)
Record cache_hit (now : Z) (key : ReadKey) (limit : Z) (previous : option FollowPage)
    (r : FollowReads) (result : FollowPage) : Prop := {
  ch_from : exists k fp records,
    dget (fr_pages r) k = Some fp /\ rk_key k = rk_key key /\
    rk_revision k = rk_revision key /\ now < fp_expires_at fp /\
    superseded previous fp = false /\
    records_after (rk_after_seq key) limit (fp_page fp) = Some records /\
    result = with_events records fp
}.

Lemma scan_pages_spec now key limit previous items r o r' :
  NoDup (map fst items) ->
  (forall k fp, (k, fp) ∈ items -> dget (fr_pages r) k = Some fp) ->
  scan_pages now key limit previous items r = (o, r') ->
  trimmed r r' /\ match o with
                  | Some result => cache_hit now key limit previous r result
                  | None => True
                  end.
Proof.
  revert r. induction items as [|[k fp] items IH]; intros r Hnd Hin; simpl; [by intros [= <- <-]|].
  apply NoDup_cons in Hnd as [Hk Hnd].
  assert (forall k' fp', (k', fp') ∈ items -> dget (fr_pages r) k' = Some fp') as Hin'.
  { intros k' fp' H. apply Hin. apply elem_of_cons. by right. }
  assert (dget (fr_pages r) k = Some fp) as Hget by (apply Hin, elem_of_cons; by left).
  destruct (Z.leb_spec (fp_expires_at fp) now) as [Hold|Hexp].
  { intros Hs. apply IH in Hs as [Ht Ho]; [|done|].
    - split; [by etransitivity; [apply remove_page_trimmed|]|]. destruct o as [result|]; [|done].
      destruct Ho as [(k0 & fp0 & records & H & Hrest)]. split. exists k0, fp0, records.
      split; [|done]. by apply (tm_pages _ _ (remove_page_trimmed r k)).
    - intros k' fp' H. unfold remove_page. rewrite Hget. simpl. rewrite dget_ddel_ne; [by apply Hin'|].
      intros ->. apply Hk, list_elem_of_fmap. by exists (k', fp'). }
  destruct (negb (bool_decide (rk_key k = rk_key key)) || _ || _) eqn:Eskip; [by apply IH|].
  apply orb_false_iff in Eskip as [[E1 E2]%orb_false_iff E3].
  destruct (records_after _ limit (fp_page fp)) as [records|] eqn:Er; [|by apply IH].
  intros [= <- <-]. split; [by apply move_to_end_trimmed|]. split. exists k, fp, records.
  apply negb_false_iff, bool_decide_eq_true in E1. apply negb_false_iff in E2.
  repeat split; try done; lia.
Qed.

Lemma cached_page_spec now key limit previous r o r' :
  dwf (fr_pages r) -> cached_page now key limit previous r = (o, r') ->
  trimmed r r' /\ match o with
                  | Some result => cache_hit now key limit previous r result
                  | None => True
                  end.
Proof.
  intros Hw. unfold cached_page. apply scan_pages_spec.
  - by rewrite map_rev, <-(Permutation_rev (map fst (fr_pages r))).
  - intros k fp H. apply list_elem_of_In, in_rev, list_elem_of_In in H. by apply elem_of_dget.
Qed.

(** Nothing comes out of a cache that has expired. *)
Lemma cached_page_expired now key limit previous r :
  (forall k fp, dget (fr_pages r) k = Some fp -> fp_expires_at fp <= now) -> dwf (fr_pages r) ->
  (cached_page now key limit previous r).1 = None.
Proof.
  intros He Hw. destruct (cached_page _ _ _ _ _) as [[result|] r'] eqn:Ec; [|done].
  apply cached_page_spec in Ec as [_ [(k & fp & ? & Hk & _ & _ & Hexp & _)]]; [|done].
  specialize (He _ _ Hk). lia.
Qed.

Lemma foldl_remove_trimmed keys r : trimmed r (foldl remove_page r keys).
Proof.
  revert r. induction keys as [|k keys IH]; intros r; simpl; [done|].
  etransitivity; [apply remove_page_trimmed|apply IH].
Qed.

Lemma discard_trimmed key r : trimmed r (discard key r).
Proof. apply foldl_remove_trimmed. Qed.

Lemma remove_page_gone r k k' :
  dget (fr_pages (remove_page r k')) k = if decide (k' = k) then None else dget (fr_pages r) k.
Proof.
  unfold remove_page. destruct (dget (fr_pages r) k') as [fp|] eqn:Ek; simpl.
  - rewrite dget_ddel. by repeat case_decide; subst.
  - case_decide; [by subst|done].
Qed.

Lemma foldl_remove_gone keys r k :
  k ∈ keys -> dget (fr_pages (foldl remove_page r keys)) k = None.
Proof.
  revert r. induction keys as [|k' keys IH]; intros r; [by intros ?%elem_of_nil|].
  intros [->|Hin]%elem_of_cons; simpl; [|by apply IH].
  destruct (dget _ k') as [fp|] eqn:Ek; [|done].
  apply (tm_pages _ _ (foldl_remove_trimmed keys _)) in Ek.
  by rewrite remove_page_gone, decide_True in Ek.
Qed.

(** No page of a generation is left after [discard]. *)
Lemma discard_page key r k fp :
  dget (fr_pages (discard key r)) k = Some fp -> rk_key k <> key.
Proof.
  intros Hk Heq. pose proof (tm_pages _ _ (discard_trimmed key r) _ _ Hk) as Hr.
  unfold discard in Hk. rewrite foldl_remove_gone in Hk; [done|].
  apply list_elem_of_In, filter_In. split; [|by apply bool_decide_eq_true].
  apply list_elem_of_In, elem_of_dkeys. by eexists.
Qed.

(** ** Remembering *)

Lemma shrink_spec r :
  counted r -> exists r', shrink (dkeys (fr_pages r)) r = Ok r' /\ trimmed r r' /\
    over_bounds r' = false.
Proof.
  remember (dkeys (fr_pages r)) as keys eqn:Ekeys. revert r Ekeys.
  induction keys as [|k keys IH]; intros r Ekeys Hc; simpl; destruct (over_bounds r) eqn:Eo;
    try (by exists r).
  - exfalso. destruct Hc as [_ Hb Hr]. destruct (fr_pages r) eqn:Ep; [|done].
    assert (over_bounds r = false); [|congruence]. apply over_bounds_false. rewrite Hb, Hr, Ep. done.
  - pose proof (remove_page_trimmed r k) as Ht. destruct (IH (remove_page r k)) as (r' & E1 & Ht' & Ho).
    + unfold remove_page. destruct (fr_pages r) as [|[k0 fp0] d] eqn:Ep; [done|].
      change (k :: keys = k0 :: dkeys d) in Ekeys. injection Ekeys as -> ->. cbn [dget].
      rewrite decide_True by done. simpl. rewrite decide_True, ddel_absent; [done| |done].
      destruct Hc as [Hw _ _]. rewrite Ep in Hw. by apply NoDup_cons in Hw as [?%not_elem_of_dkeys _].
    + by apply Ht.
    + exists r'. split; [done|]. split; [by etransitivity|done].
Qed.

(** A cache within its bounds keeps the page, drops it, or makes room for it. *)
Lemma remember_spec now request result revision r :
  counted r -> over_bounds r = false -> exists r',
  remember now request result revision r = Ok r' /\ counted r' /\ over_bounds r' = false /\
  fr_reads r' = fr_reads r /\ fr_shared r' = fr_shared r /\ fr_read_order r' = fr_read_order r /\
  forall k fp, dget (fr_pages r') k = Some fp ->
    dget (fr_pages r) k = Some fp \/ k = read_key request revision /\ fp = result.
Proof.
  intros Hc Ho. unfold remember. destruct (_ <=? now); [eauto 10|].
  destruct (_ || _) eqn:Ebig; [eauto 10|]. set (key := read_key request revision).
  destruct (match dget (fr_pages r) key with Some _ => _ | None => _ end); [eauto 10|].
  pose proof (remove_page_trimmed r key) as Ht. set (r1 := remove_page r key) in *.
  assert (dget (fr_pages r1) key = None) as Hno by (unfold r1; by rewrite remove_page_gone, decide_True).
  set (r2 := set_pages _ _ _ r1).
  assert (counted r2) as Hc2.
  { destruct (tm_counted _ _ Ht Hc) as [Hw Hb Hr].
    split; simpl; [by apply dwf_dset| |]; rewrite dsum_dset, Hno; simpl; lia. }
  destruct (shrink_spec r2 Hc2) as (r3 & E3 & Ht3 & Ho3). exists r3. split; [exact E3|].
  split; [by apply Ht3|]. split; [done|]. destruct Ht3 as [R1 R2 R3 R4 _ _].
  split; [by rewrite R1; apply Ht|]. split; [by rewrite R2; apply Ht|].
  split; [by rewrite R3; apply Ht|]. intros k fp Hk%R4. simpl in Hk. rewrite dget_dset in Hk.
  case_decide; [right; split; congruence|left; by apply (tm_pages _ _ Ht)].
Qed.

(** ** Pieces of a list *)

Lemma map_part {A B} (f : A -> B) n k (l : list A) :
  map f (take n (drop k l)) = take n (drop k (map f l)).
Proof. by rewrite skipn_map, firstn_map. Qed.

(** [ms] is the piece of [l] that begins at [a]. *)
Definition at_place {A} (a : Z) (ms l : list A) : Prop :=
  ms = take (length ms) (drop (Z.to_nat a) l).

Lemma at_place_nil {A} a (l : list A) : at_place a [] l.
Proof. done. Qed.

Lemma at_place_lookup {A} a (ms l : list A) :
  0 <= a -> at_place a ms l <-> forall i x, ms !! i = Some x -> l !! (Z.to_nat a + i)%nat = Some x.
Proof.
  intros Ha. unfold at_place. split.
  - intros E1 i x Hi. rewrite E1 in Hi. apply lookup_take_Some in Hi as [Hi _].
    by rewrite lookup_drop in Hi.
  - intros H. apply list_eq. intros i. destruct (decide (i < length ms)%nat) as [Hi|Hi].
    + destruct (lookup_lt_is_Some_2 ms i Hi) as [x Hx]. rewrite Hx, lookup_take_lt by done.
      by rewrite lookup_drop, (H i x Hx).
    + rewrite !lookup_ge_None_2; [done| |lia]. rewrite length_take. lia.
Qed.

Lemma at_place_prefix {A} a (ms l more : list A) :
  0 <= a -> at_place a ms l -> at_place a ms (l ++ more).
Proof.
  intros Ha. rewrite !at_place_lookup by done. intros H i x Hi. apply lookup_app_l_Some. by apply H.
Qed.

Lemma at_place_part {A} a b n (ms l : list A) :
  0 <= a <= b -> at_place a ms l ->
  at_place b (take n (drop (Z.to_nat (b - a)) ms)) l.
Proof.
  intros Ha. rewrite !at_place_lookup by lia. intros H i x [Hi _]%lookup_take_Some.
  rewrite lookup_drop in Hi. apply H in Hi. rewrite <-Hi. f_equal. lia.
Qed.

Lemma at_place_app {A} a (xs ys l : list A) :
  0 <= a -> at_place a xs l -> at_place (a + zlen xs) ys l -> at_place a (xs ++ ys) l.
Proof.
  intros Ha. rewrite !at_place_lookup by (unfold zlen; lia). intros H1 H2 i x.
  intros [Hi|[Hi Hx]]%lookup_app_Some; [by apply H1|]. apply H2 in Hx. rewrite <-Hx. f_equal.
  unfold zlen. lia.
Qed.

Lemma at_place_map {A B} (f : A -> B) a ms l : at_place a ms l -> at_place a (map f ms) (map f l).
Proof. unfold at_place. intros E1. rewrite length_map, <-map_part. by f_equal. Qed.

Lemma at_place_slice {A} (l : list A) a b : 0 <= a -> 0 <= b -> at_place a (py_slice l a b) l.
Proof.
  intros Ha Hb. rewrite at_place_lookup by done. intros i x. unfold py_slice, slice_bound.
  rewrite (proj2 (Z.ltb_ge a 0)), (proj2 (Z.ltb_ge b 0)) by done.
  rewrite lookup_drop. by intros [Hi _]%lookup_take_Some.
Qed.

Lemma at_place_bound {A} a (ms l : list A) :
  0 <= a -> at_place a ms l -> ms <> [] -> a + zlen ms <= zlen l.
Proof.
  intros Ha H Hne. unfold at_place in H. apply (f_equal length) in H.
  rewrite length_take, length_drop in H.
  assert (length ms <> 0%nat) by (by destruct ms). unfold zlen. lia.
Qed.

(** ** Pages *)

Lemma last_numbered k (l : list Z) x : numbered 1 k l -> last l = Some x -> x = k + zlen l - 1.
Proof.
  intros Hn Hx. rewrite last_lookup in Hx. pose proof (Hn _ _ Hx) as ->.
  apply lookup_lt_Some in Hx. unfold zlen. lia.
Qed.

Lemma numbered_part k b n l :
  k <= b -> numbered 1 k l -> numbered 1 b (take n (drop (Z.to_nat (b - k)) l)).
Proof.
  intros Hk H i x [Hi _]%lookup_take_Some. rewrite lookup_drop in Hi. apply H in Hi. lia.
Qed.

Lemma rmap_compose {A B C E} (f : B -> res E C) (g : A -> B) xs :
  rmap f (map g xs) = rmap (fun x => f (g x)) xs.
Proof. induction xs as [|x xs IH]; simpl; [done|]. by rewrite IH. Qed.

Section pages.
Context {hash : ScopeHash} {json : TraceJson} {laws : TraceJsonLaws} {clock : TraceClock}.
Context {codec : TraceCodec} {codec_laws : TraceCodecLaws}.
Context (l : TraceLimits) (Hl : TraceLimits_valid l = true).

(** The events a page was made of, from place [a] of the log; whatever the log is now. *)
Record page_evidence (w : World) (key : TraceThreadKey) (p : CanonicalPage)
    (ms : list MemoryStoredTraceEvent) (a : Z) : Prop := {
  pe_key : cp_key p = key;
  pe_runs : existsb (fun run => bool_decide (run = []) || negb (bool_decide (run = strip run)))
              (cp_active_run_ids p) || negb (bool_decide (NoDup (cp_active_run_ids p))) = false;
  pe_tail : 0 <= cp_tail_seq p;
  pe_events : cp_events p = map me_record ms;
  pe_start : 0 <= a;
  pe_numbers : numbered 1 (a + 1) (map record_number ms);
  pe_bound : ms <> [] -> a + zlen ms <= cp_tail_seq p;
  pe_decodes m : m ∈ ms ->
    decode_raw_event key (me_record m) = Ok (reread_event (me_validated_event m)) /\
    ev_trace_seq (me_validated_event m) = record_number m;
  pe_log t : stored w key t ->
    cp_tail_seq p <= zlen (log t) /\ at_place a (map me_validated_event ms) (log t)
}.

Definition page_good (w : World) (key : TraceThreadKey) (p : CanonicalPage) : Prop :=
  exists ms a, page_evidence w key p ms a.

(** A page that answers a reader at [after]. *)
Record serves (after limit : Z) (p : CanonicalPage) : Prop := {
  se_limit : zlen (cp_events p) <= limit;
  se_first : after < cp_tail_seq p ->
    head (map st_trace_seq (cp_events p)) = Some (after + 1);
  se_end : cp_tail_seq p <= after -> cp_events p = []
}.

Lemma numbers_of_records (ms : list MemoryStoredTraceEvent) :
  map st_trace_seq (map me_record ms) = map record_number ms.
Proof. by rewrite map_map. Qed.

Lemma head_records (ms : list MemoryStoredTraceEvent) x a :
  numbered 1 (a + 1) (map record_number ms) -> head (map me_record ms) = Some x ->
  st_trace_seq x = a + 1.
Proof.
  intros Hn. destruct ms as [|m ms]; [done|]. intros [= <-].
  by apply numbered_cons in Hn as [<- _].
Qed.

Lemma last_records (ms : list MemoryStoredTraceEvent) x a :
  numbered 1 (a + 1) (map record_number ms) -> last (map me_record ms) = Some x ->
  st_trace_seq x = a + zlen ms.
Proof.
  intros Hn Hx. assert (last (map record_number ms) = Some (st_trace_seq x)) as Hy.
  { rewrite last_lookup, length_map, list_lookup_fmap in Hx. rewrite last_lookup, length_map, list_lookup_fmap.
    by apply fmap_Some in Hx as (m & -> & ->). }
  rewrite (last_numbered _ _ _ Hn Hy), zlen_map. lia.
Qed.

(** What is taken out of a page, answers. *)
Lemma records_after_good w key result after limit records :
  page_good w key (fp_page result) -> 0 <= after -> 1 <= limit ->
  records_after after limit (fp_page result) = Some records ->
  page_good w key (fp_page (with_events records result)) /\
  serves after limit (fp_page (with_events records result)).
Proof.
  intros (ms & a & [Hk Hr Ht He Hs Hn Hb Hd Hlog]) Ha Hlim. unfold records_after.
  destruct (Z.ltb_spec (cp_tail_seq (fp_page result)) after) as [|Hle]; [done|].
  destruct (Z.eqb_spec after (cp_tail_seq (fp_page result))) as [->|Hne].
  { intros [= <-]. split.
    - exists [], (cp_tail_seq (fp_page result)). split; try done; [by intros m ?%elem_of_nil|].
      intros t Hst. by split; [apply Hlog|].
    - split; simpl; [unfold zlen; simpl; lia|lia|done]. }
  rewrite He. destruct (head (map me_record ms)) as [first|] eqn:Eh; [|done].
  destruct (last (map me_record ms)) as [final|] eqn:El; [|done].
  rewrite (head_records _ _ _ Hn Eh), (last_records _ _ _ Hn El).
  destruct ((after <? a + 1 - 1) || (a + zlen ms <=? after)) eqn:Ein; [done|]. intros [= <-].
  apply orb_false_iff in Ein as [H1%Z.ltb_ge H2%Z.leb_gt].
  replace (after - (a + 1) + 1) with (after - a) by lia.
  rewrite <-map_py_slice. set (part := py_slice ms (after - a) (after - a + limit)).
  assert (part = take (Z.to_nat limit) (drop (Z.to_nat (after - a)) ms)) as Epart.
  { unfold part, py_slice, slice_bound.
    rewrite (proj2 (Z.ltb_ge (after - a) 0)), (proj2 (Z.ltb_ge (after - a + limit) 0)) by lia.
    rewrite take_drop_commute. do 2 f_equal. lia. }
  assert (zlen part = Z.min limit (zlen ms - (after - a))) as Hlen.
  { unfold part. rewrite zlen_py_slice by lia. lia. }
  assert (numbered 1 (after + 1) (map record_number part)) as Hnum.
  { rewrite Epart, map_part.
    replace (after - a) with (after + 1 - (a + 1)) by lia. apply numbered_part; [lia|done]. }
  split.
  - exists part, after. split; simpl; try done.
    + intros _. rewrite Hlen. assert (ms <> []) as Hms by (by intros ->). specialize (Hb Hms). lia.
    + intros m Hm. apply Hd. by apply py_slice_elem in Hm.
    + intros t Hst. destruct (Hlog t Hst) as [H3 H4]. split; [done|].
      rewrite Epart, map_part. apply (at_place_part a); [lia|done].
  - split; simpl; [rewrite zlen_map; lia| |lia]. intros _. rewrite numbers_of_records.
    apply (head_numbered 1); [done|]. rewrite zlen_map. lia.
Qed.

(** What a follower reads from a page. *)
Lemma good_page_decodes w f st p :
  page_good w (fo_key f) p -> so_limits st = l -> 0 <= fo_cursor f ->
  serves (fo_cursor f) (follow_batch_size l) p ->
  exists ms, page_evidence w (fo_key f) p ms (fo_cursor f) /\
    decode_canonical_page (follow_request st f) p =
      Ok (map reread_event (map me_validated_event ms)).
Proof.
  intros (ms & a & Hev) Hlim Hcur Hse. pose proof Hev as [Hk Hr Ht He Hs Hn Hb Hd Hlog].
  destruct Hse as [S1 S2 S3]. rewrite He in *. rewrite zlen_map in S1. rewrite numbers_of_records in S2.
  set (after := fo_cursor f) in *. set (tail := cp_tail_seq p) in *.
  assert (ms = [] /\ tail <= after \/ ms <> [] /\ a = after /\ after < tail) as Hcase.
  { destruct (Z.lt_ge_cases after tail) as [Hlt|Hge].
    - specialize (S2 Hlt). right. destruct ms as [|m ms]; [done|]. split; [done|]. split; [|done].
      apply numbered_cons in Hn as [Hm _]. simpl in S2. injection S2 as S2. lia.
    - left. specialize (S3 Hge). split; [by destruct ms|done]. }
  assert (page_evidence w (fo_key f) p ms after) as Hev'.
  { destruct Hcase as [[-> Hge]|(_ & <- & _)]; [|done]. by split. }
  exists ms. split; [exact Hev'|]. destruct Hev' as [_ _ _ _ _ Hn' Hb' _ _].
  unfold decode_canonical_page, decode_event_page, follow_request. cbn [pr_key pr_limit].
  rewrite Hk, bool_decide_true by done. cbn [negb rraise_if rbind].
  rewrite Hr. cbn [rraise_if rbind]. rewrite He, zlen_map, Hlim.
  rewrite (proj2 (Z.ltb_ge _ _) S1). cbn [rraise_if rbind]. rewrite numbers_of_records.
  fold after tail. fold tail in Hb'.
  assert (page_misordered {| pr_key := fo_key f; pr_direction := Forward;
    pr_limit := follow_batch_size l; pr_after_seq := Some after; pr_as_of_seq := None;
    pr_before_seq := None |} tail (map record_number ms) = false) as ->.
  { unfold page_misordered. simpl. rewrite (numbered_consecutive 1 (after + 1)) by done.
    rewrite existsb_none.
    2: { intros x [i Hi]%list_elem_of_lookup. pose proof (Hn' _ _ Hi) as Hx. apply lookup_lt_Some in Hi.
         rewrite length_map in Hi. assert (ms <> []) as Hms by (intros ->; simpl in Hi; lia).
         specialize (Hb' Hms). unfold zlen in Hb'. bool_prop. lia. }
    simpl. rewrite Z.min_id. destruct (Z.ltb_spec after tail) as [Hlt|]; [|done]. simpl.
    rewrite S2, bool_decide_true by done. done. }
  cbn [rraise_if rbind]. rewrite map_map. rewrite rmap_compose.
  apply rmap_map. intros m Hm. by apply Hd.
Qed.

(** A page stays good: the log it is part of only grows. *)
Lemma page_good_later {fresh : FreshUuids} w w' key p :
  client_reachable l w -> drawn_before key w -> client_calls l w w' ->
  page_good w key p -> page_good w' key p.
Proof.
  intros Hr Hd Hc (ms & a & [P1 P2 P3 P4 P5 P6 P7 P8 Hlog]). exists ms, a. split; try done.
  intros t' Hst'. destruct (calls_history l Hl w w' key t') as (t & Hst & more & El & _); try done.
  { by apply (reachable_system l Hl), client_reachable_reachable. }
  { by apply client_calls_calls. }
  destruct (Hlog t Hst) as [H1 H2]. rewrite El, zlen_app. pose proof (zlen_nonneg more).
  split; [lia|by apply at_place_prefix].
Qed.

(** ** Reads *)

Lemma foldl_min_nonneg xs x : 0 <= x -> (forall y, y ∈ xs -> 0 <= y) -> 0 <= foldl Z.min x xs.
Proof.
  revert x. induction xs as [|y xs IH]; intros x Hx Hxs; simpl; [done|]. apply IH.
  - pose proof (Hxs y ltac:(by left)). lia.
  - intros z Hz. apply Hxs. by right.
Qed.

Lemma zmin_nonneg xs s : (forall x, x ∈ xs -> 0 <= x) -> zmin xs = Some s -> 0 <= s.
Proof.
  destruct xs as [|x xs]; [done|]. intros H [= <-].
  apply foldl_min_nonneg; [apply H; by left|intros y Hy; apply H; by right].
Qed.

(** What a read of the backend gives: a page that answers, complete up to the end of the
    log or the limit; or the generation is not there. *)
Lemma read_page_spec poll now key after order r w outcome r' w' :
  client_reachable l w -> 0 <= after ->
  let request := {| pr_key := key; pr_direction := Forward; pr_limit := follow_batch_size l;
                    pr_after_seq := Some after; pr_as_of_seq := None; pr_before_seq := None |} in
  read_page poll now request order r w = (outcome, r', w') ->
  client_calls l w w' /\ threads w' = threads w /\ (readings w <= readings w')%nat /\
  match outcome with
  | Ok fp => r' = next_order r /\ page_good w key (fp_page fp) /\
      serves after (follow_batch_size l) (fp_page fp) /\
      (exists t, stored w key t /\ cp_tail_seq (fp_page fp) = zlen (log t)) /\
      cp_observed_at (fp_page fp) = utc_now (readings w) /\ (readings w < readings w')%nat /\
      fp_expires_at fp <= now + poll /\ fp_read_order fp = order /\
      fp_completed_order fp = fr_read_order r + 1
  | Raise e => r' = r /\ e = TraceThreadNotFound /\ forall t, ~ stored w key t
  end.
Proof.
  intros Hr Ha request. pose proof (reachable_system l Hl w (client_reachable_reachable l w Hr)) as Hs.
  pose proof (client_reachable_evidenced l w Hr) as Hev. unfold read_page.
  destruct (read_event_page request w) as [o w1] eqn:Eread.
  assert (client_calls l w w1) as Hcall by (by eapply rtc_once, call_page).
  destruct (exact_thread key w) as [[t|e] w2] eqn:Ex;
    pose proof (exact_thread_stored _ _ _ _ Ex) as [-> Hx].
  2: { unfold read_event_page, bind in Eread. cbn [pr_key request] in Eread.
       rewrite Ex in Eread. injection Eread as <- <-. intros [= <- <- <-].
       repeat split; try done. intros t Ht. by rewrite (exact_stored w key t Ht) in Ex. }
  pose proof (stored_ok l w key t Hs Hx) as Ht.
  rewrite (read_stored w key t Hx request eq_refl) in Eread. injection Eread as <- <-.
  assert (match pg_next_writer_lease_remaining_seconds (page_of w key t request) with
          | Some s => s <? 0 | None => false end = false) as Hlease.
  { cbn. destruct (zmin _) as [s|] eqn:Ez; [|done]. apply Z.ltb_ge.
    eapply zmin_nonneg; [|exact Ez]. intros x [wr [-> Hwr]]%list_elem_of_fmap.
    apply list_elem_of_In, filter_In in Hwr as [_ Hwr]. unfold writing in Hwr. bool_prop. lia. }
  rewrite Hlease. intros [= <- <- <-]. split; [done|]. split; [done|]. split; [simpl; lia|].
  split; [done|].
  pose proof (events_tail l _ _ Ht) as Htail. pose proof (zlen_nonneg (mt_events t)) as Hpos.
  set (ms := page_records t request) in *.
  assert (1 <= follow_batch_size l) as Hlim by (unfold TraceLimits_valid in Hl; by bool_prop).
  set (tail := th_next_seq (mt_state t) - 1) in *.
  assert (ms = py_slice (mt_events t) (Z.min after tail)
                 (Z.min tail (Z.min after tail + follow_batch_size l))) as Ems.
  { unfold ms, page_records. cbn. fold tail. by rewrite Z.min_id. }
  assert (zlen ms = Z.max 0 (Z.min tail (Z.min after tail + follow_batch_size l) - Z.min after tail))
    as Hlen by (rewrite Ems, zlen_py_slice by lia; lia).
  destruct (numbered_slice 1 (map record_number (mt_events t)) (Z.min after tail)
    (Z.min tail (Z.min after tail + follow_batch_size l))) as [Hnum _]; [lia..| |].
  { intros i x. by eapply numbers_of. }
  rewrite <-map_py_slice, <-Ems in Hnum.
  assert (zlen (log t) = tail) as Hlog by (unfold log; rewrite zlen_map; lia).
  assert (serves after (follow_batch_size l) (canonical_page (page_of w key t request))) as Hserves.
  { split; simpl; fold tail ms; [rewrite zlen_map; lia| |].
    - intros Hlt. rewrite numbers_of_records, (head_numbered 1 (1 + Z.min after tail)); [|done|].
      + f_equal. lia.
      + rewrite zlen_map. lia.
    - intros Hge. assert (zlen ms = 0) as H0 by lia. by destruct ms. }
  split; [|split; [done|]].
  - exists ms, (Z.min after tail). split; simpl; fold tail ms; try done; try lia.
    + by apply (active_runs_checked l _ _ _ Ht), (stored_evidenced w key t).
    + by rewrite (Z.add_comm _ 1).
    + intros m Hm%page_record_elem. split; [|unfold record_number; by destruct (to_record _ _ _ Ht m Hm) as (_ & -> & _)].
      apply (raw_event_decodes l key t); [done|by apply (stored_evidenced w key t)|apply Hx|done].
    + intros t' [Hget' _]. destruct Hx as [Hget _]. assert (t' = t) as -> by congruence.
      split; [lia|]. apply at_place_map. rewrite Ems. apply at_place_slice; lia.
  - split; [by exists t; simpl; fold tail|]. simpl. split; [done|]. split; [lia|].
    split; [|done]. destruct (zmin _); lia.
Qed.
End pages.
