(* ===== verification/TraceFollowInvariant.v ===== *)
(** Tracing: the invariant of the followers of a store - who waits for which read, which
    pages are about, and what each follower has been given. *)
From stdpp Require Import sorting.
From S2P Require Import Prelude PyDict PySeq Contracts TraceModels TraceGraph TraceGraphFacts.
From S2P Require Import TraceLedger TraceMemory TraceSteps TraceFacts TraceInvariant TraceSystem.
From S2P Require Import TraceHistory TraceStore TraceEvidence TraceStoreFacts TraceRebuild.
From S2P Require Import TraceFollowReads TraceFollow TraceFollowFacts.
From Stdlib Require Import Sorting.Sorted.

(** ** Who waits for what *)

Lemma count_exists {A} (g : A -> bool) xs : 1 <= count g xs -> exists x, x ∈ xs /\ g x = true.
Proof.
  induction xs as [|x xs IH]; [by unfold count|]. rewrite count_cons. destruct (g x) eqn:Eg.
  - intros _. exists x. split; [by left|done].
  - intros (y & Hy & Hg)%IH. exists y. split; [by right|done].
Qed.

Definition is_live (f : Follower) : bool :=
  match fo_status f with Ended _ => false | _ => true end.
Definition is_reading (f : Follower) : bool :=
  match fo_status f with Reading _ _ => true | _ => false end.
Definition waits_for (o : Z) (f : Follower) : bool :=
  match fo_status f with Reading _ o' => o' =? o | _ => false end.
Definition follows (key : TraceThreadKey) (f : Follower) : bool :=
  is_live f && bool_decide (fo_key f = key).

(** The request of a key. *)
Definition request_for (limit : Z) (k : ReadKey) : TraceEventPageRequest :=
  {| pr_key := rk_key k; pr_direction := Forward; pr_limit := limit;
     pr_after_seq := Some (rk_after_seq k); pr_as_of_seq := None; pr_before_seq := None |}.

(** Every shared read has waiters, which are counted; the index leads to reads of its keys. *)
Record shares (limit : Z) (r : FollowReads) (fs : dict nat Follower) : Prop := {
  hs_wf : dwf fs;
  hs_order o s : dget (fr_shared r) o = Some s -> o <= fr_read_order r;
  hs_count o s : dget (fr_shared r) o = Some s ->
    sh_waiters s = count (waits_for o) (dvals fs) /\ 1 <= sh_waiters s;
  hs_reader i f k o : dget fs i = Some f -> fo_status f = Reading k o ->
    rk_key k = fo_key f /\ rk_after_seq k = fo_cursor f /\
    exists s, dget (fr_shared r) o = Some s /\ sh_request s = request_for limit k;
  hs_index k o : dget (fr_reads r) k = Some o ->
    exists s, dget (fr_shared r) o = Some s /\ sh_request s = request_for limit k;
  hs_registered i f k o k' : dget fs i = Some f -> fo_status f = Reading k o ->
    dget (fr_reads r) k' = Some o -> k' = k
}.

Section shares.
Context (limit : Z).

Lemma shares_same r r' fs :
  fr_reads r' = fr_reads r -> fr_shared r' = fr_shared r -> fr_read_order r' = fr_read_order r ->
  shares limit r fs -> shares limit r' fs.
Proof. intros E1 E2 E3 [H0 H1 H2 H3 H4 H5]. by split; rewrite ?E1, ?E2, ?E3. Qed.

Lemma shares_trimmed r r' fs : trimmed r r' -> shares limit r fs -> shares limit r' fs.
Proof. intros []. by apply shares_same. Qed.

Lemma not_waiting f o : is_reading f = false -> waits_for o f = false.
Proof. unfold is_reading, waits_for. by destruct (fo_status f). Qed.

Lemma count_put o (fs : dict nat Follower) i f :
  (forall f0, dget fs i = Some f0 -> waits_for o f0 = waits_for o f) ->
  (dget fs i = None -> waits_for o f = false) ->
  count (waits_for o) (dvals (dset fs i f)) = count (waits_for o) (dvals fs).
Proof.
  intros H1 H2. rewrite count_dset. destruct (dget fs i) as [f0|]; simpl.
  - rewrite (H1 f0 eq_refl). lia.
  - rewrite (H2 eq_refl). lia.
Qed.

(** A follower that waits for no read moves between places where it waits for none. *)
Lemma shares_put r fs i f :
  shares limit r fs -> (forall f0, dget fs i = Some f0 -> is_reading f0 = false) ->
  is_reading f = false -> shares limit r (dset fs i f).
Proof.
  intros [H0 H1 H2 H3 H4 H5] Hold Hnew.
  assert (forall j g k o, dget (dset fs i f) j = Some g -> fo_status g = Reading k o ->
    dget fs j = Some g) as Hget.
  { intros j g k o Hj Hg. rewrite dget_dset in Hj. case_decide as Hij; [|done]. simplify_eq.
    unfold is_reading in Hnew. by rewrite Hg in Hnew. }
  split; [by apply dwf_dset|done| |eauto..|eauto].
  intros o s Hs. rewrite count_put; [by apply H2| |].
  - intros f0 Hf0. by rewrite !not_waiting by eauto.
  - intros _. by apply not_waiting.
Qed.

Lemma reader_counts (fs : dict nat Follower) i f k o :
  dget fs i = Some f -> fo_status f = Reading k o -> 1 <= count (waits_for o) (dvals fs).
Proof.
  intros Hf Hst. eapply count_pos; [by eapply dget_elem_of_dvals|].
  unfold waits_for. rewrite Hst. lia.
Qed.

Lemma count_waiter (fs : dict nat Follower) o :
  dwf fs -> 1 <= count (waits_for o) (dvals fs) ->
  exists i f k, dget fs i = Some f /\ fo_status f = Reading k o.
Proof.
  intros Hw Hc. destruct (count_exists _ _ Hc) as (f & Hf & Hwait).
  apply elem_of_dvals in Hf as [i Hi]; [|done]. unfold waits_for in Hwait.
  destruct (fo_status f) as [|k o'| | |] eqn:Est; try done. exists i, f, k. split; [done|].
  by assert (o' = o) as -> by lia.
Qed.

(** A follower leaves the read it waited for. *)
Lemma shares_leave r fs i f k o f' :
  shares limit r fs -> dget fs i = Some f -> fo_status f = Reading k o ->
  is_reading f' = false -> shares limit (leave_read k o r) (dset fs i f').
Proof.
  intros [H0 H1 H2 H3 H4 H5] Hf Hst Hnew. destruct (H3 _ _ _ _ Hf Hst) as (_ & _ & s & Hs & _).
  destruct (H2 _ _ Hs) as [Hw Hpos].
  assert (count (waits_for o) (dvals (dset fs i f')) = sh_waiters s - 1) as Hcount.
  { rewrite count_dset, Hf. simpl. rewrite (not_waiting f') by done. unfold waits_for at 2.
    rewrite Hst, Z.eqb_refl. lia. }
  assert (forall o', o' <> o -> count (waits_for o') (dvals (dset fs i f')) =
                              count (waits_for o') (dvals fs)) as Hother.
  { intros o' Ho. apply count_put; intros; [|by apply not_waiting]. simplify_eq.
    rewrite (not_waiting f') by done. unfold waits_for. rewrite Hst. by apply Z.eqb_neq. }
  assert (forall j g k' o', dget (dset fs i f') j = Some g -> fo_status g = Reading k' o' ->
    dget fs j = Some g /\ (sh_waiters s - 1 = 0 -> o' <> o)) as Hget.
  { intros j g k' o' Hj Hg. split.
    - rewrite dget_dset in Hj. case_decide; [|done]. simplify_eq.
      unfold is_reading in Hnew. by rewrite Hg in Hnew.
    - intros Hz ->. pose proof (reader_counts _ _ _ _ _ Hj Hg). lia. }
  unfold leave_read. rewrite Hs. destruct (Z.eqb_spec (sh_waiters s - 1) 0) as [Hz|Hnz].
  - split; simpl.
    + by apply dwf_dset.
    + intros o' s'. rewrite dget_ddel. case_decide; [done|]. apply H1.
    + intros o' s'. rewrite dget_ddel. case_decide; [done|]. rewrite Hother by done. apply H2.
    + intros j g k' o' Hj Hg. destruct (Hget _ _ _ _ Hj Hg) as [Hj' Hne].
      destruct (H3 _ _ _ _ Hj' Hg) as (E1 & E2 & s' & Hs' & E3). split; [done|]. split; [done|].
      exists s'. rewrite dget_ddel_ne; [done|]. intros ->. by apply Hne.
    + intros k' o' Hk.
      assert (dget (fr_reads r) k' = Some o' /\ o' <> o) as [Hk' Hne].
      { case_decide as Hd.
        - rewrite dget_ddel in Hk. case_decide as Hkk; [done|]. split; [done|]. intros ->.
          apply Hkk. symmetry. by eapply H5.
        - split; [done|]. intros ->. apply Hd. rewrite (H5 _ _ _ _ _ Hf Hst Hk) in Hk. done. }
      rewrite dget_ddel_ne by done. by apply H4.
    + intros j g k' o' k'' Hj Hg Hk. destruct (Hget _ _ _ _ Hj Hg) as [Hj' _].
      eapply H5; [exact Hj'|exact Hg|]. case_decide; [|done]. rewrite dget_ddel in Hk. by case_decide.
  - split; simpl.
    + by apply dwf_dset.
    + intros o' s'. rewrite dget_dset. case_decide; [|apply H1]. intros _. subst. by eapply H1.
    + intros o' s'. rewrite dget_dset. case_decide as Ho; [|rewrite Hother by done; apply H2].
      intros [= <-]. simpl. subst. lia.
    + intros j g k' o' Hj Hg. destruct (Hget _ _ _ _ Hj Hg) as [Hj' _].
      destruct (H3 _ _ _ _ Hj' Hg) as (E1 & E2 & s' & Hs' & E3). split; [done|]. split; [done|].
      rewrite dget_dset. case_decide; [|eauto]. subst. eexists. split; [done|]. simpl. congruence.
    + intros k' o' Hk. destruct (H4 _ _ Hk) as (s' & Hs' & E3). rewrite dget_dset.
      case_decide; [|eauto]. subst. eexists. split; [done|]. simpl. congruence.
    + intros j g k' o' k'' Hj Hg Hk. destruct (Hget _ _ _ _ Hj Hg) as [Hj' _]. by eapply H5.
Qed.

Definition wait_on (k : ReadKey) (o : Z) (f : Follower) : Follower := set_status (Reading k o) f.

Lemma count_wait o o' (fs : dict nat Follower) i f k :
  dget fs i = Some f -> is_reading f = false ->
  count (waits_for o') (dvals (dset fs i (wait_on k o f))) =
  count (waits_for o') (dvals fs) + (if o =? o' then 1 else 0).
Proof.
  intros Hf Hnr. rewrite count_dset, Hf. simpl. rewrite not_waiting by done.
  unfold waits_for at 2. simpl. destruct (o =? o'); lia.
Qed.

(** A follower joins a read that is on its way. *)
Lemma shares_join r fs i f k o :
  shares limit r fs -> dget fs i = Some f -> is_reading f = false ->
  rk_key k = fo_key f -> rk_after_seq k = fo_cursor f -> dget (fr_reads r) k = Some o ->
  shares limit (join_read o r) (dset fs i (wait_on k o f)).
Proof.
  intros [H0 H1 H2 H3 H4 H5] Hf Hnr Hk Hc Hidx. destruct (H4 _ _ Hidx) as (s & Hs & Hreq).
  assert (forall o' s', dget (dupd (fr_shared r) o (fun s => set_waiters (sh_waiters s + 1) s)) o' =
    Some s' -> exists s0, dget (fr_shared r) o' = Some s0 /\ sh_request s' = sh_request s0 /\
      sh_waiters s' = sh_waiters s0 + (if o =? o' then 1 else 0)) as Hupd.
  { intros o' s' H'. rewrite dget_dupd in H'. destruct (Z.eqb_spec o o') as [->|Hne].
    - rewrite decide_True in H' by done. rewrite Hs in H'. injection H' as <-. by exists s.
    - rewrite decide_False in H' by done. exists s'. repeat split; try done. lia. }
  assert (forall k' o', (exists s0, dget (fr_shared r) o' = Some s0 /\ sh_request s0 = request_for limit k') ->
    exists s', dget (dupd (fr_shared r) o (fun s => set_waiters (sh_waiters s + 1) s)) o' = Some s' /\
      sh_request s' = request_for limit k') as Hback.
  { intros k' o' (s0 & Hs0 & E0). rewrite dget_dupd. case_decide; [|by exists s0]. subst.
    rewrite Hs0. by eexists. }
  split; simpl.
  - by apply dwf_dset.
  - intros o' s' (s0 & Hs0 & _)%Hupd. by eapply H1.
  - intros o' s' (s0 & Hs0 & _ & ->)%Hupd. destruct (H2 _ _ Hs0) as [E1 E2].
    rewrite count_wait by done. destruct (o =? o'); lia.
  - intros j g k' o' Hj Hg. rewrite dget_dset in Hj. case_decide as Hij.
    + simplify_eq. simpl in Hg. injection Hg as <- <-. split; [done|]. split; [done|]. apply Hback. eauto.
    + destruct (H3 _ _ _ _ Hj Hg) as (E1 & E2 & Hs'). eauto.
  - intros k' o' Hk'. apply Hback. by apply H4.
  - intros j g k' o' k'' Hj Hg Hk''. rewrite dget_dset in Hj. case_decide as Hij; [|by eapply H5].
    simplify_eq. simpl in Hg. injection Hg as <- <-. destruct (H2 _ _ Hs) as [E1 E2].
    destruct (count_waiter fs o H0) as (i' & g & k1 & Hi' & Eg); [lia|].
    rewrite (H5 _ _ _ _ _ Hi' Eg Hk''). symmetry. by eapply H5.
Qed.

Lemma shares_wait r fs i f k o request :
  shares limit r fs -> dget fs i = Some f -> is_reading f = false ->
  rk_key k = fo_key f -> rk_after_seq k = fo_cursor f -> request = request_for limit k ->
  o = fr_read_order r + 1 ->
  shares limit (join_read o (new_read k request r).2) (dset fs i (wait_on k o f)).
Proof.
  intros [H0 H1 H2 H3 H4 H5] Hf Hnr Hk Hc -> Ho.
  assert (dget (fr_shared r) o = None) as Hfresh.
  { destruct (dget (fr_shared r) o) as [s|] eqn:Es; [|done]. pose proof (H1 _ _ Es). lia. }
  assert (count (waits_for o) (dvals fs) = 0) as Hzero.
  { pose proof (count_nonneg (waits_for o) (dvals fs)).
    destruct (Z.eq_dec (count (waits_for o) (dvals fs)) 0); [done|].
    destruct (count_waiter fs o H0) as (i' & g & k1 & Hi' & Eg); [lia|].
    destruct (H3 _ _ _ _ Hi' Eg) as (_ & _ & s & Hs & _). congruence. }
  unfold join_read, new_read, set_shared, next_order. simpl. rewrite <-Ho.
  set (heap := dupd _ o _).
  assert (forall o', dget heap o' = if decide (o = o')
    then Some {| sh_request := request_for limit k; sh_outcome := None; sh_waiters := 1 |}
    else dget (fr_shared r) o') as Hheap.
  { intros o'. unfold heap. rewrite dget_dupd, dget_dset. by case_decide. }
  split; simpl.
  - by apply dwf_dset.
  - intros o' s'. rewrite Hheap. case_decide; [lia|]. intros Hs'%H1. lia.
  - intros o' s'. rewrite Hheap, count_wait by done. case_decide as Hd.
    + intros [= <-]. simpl. subst o'. rewrite Z.eqb_refl. lia.
    + rewrite (proj2 (Z.eqb_neq o o')) by done. intros Hs'%H2. lia.
  - intros j g k' o' Hj Hg. rewrite dget_dset in Hj. rewrite Hheap. case_decide as Hij.
    + simplify_eq. simpl in Hg. injection Hg as <- <-. rewrite decide_True by done. eauto.
    + destruct (H3 _ _ _ _ Hj Hg) as (E1 & E2 & s & Hs & E3). rewrite decide_False by congruence. eauto.
  - intros k' o'. rewrite dget_dset, Hheap. case_decide.
    + intros [= <-]. rewrite decide_True by done. subst. eauto.
    + intros (s & Hs & E3)%H4. rewrite decide_False by congruence. eauto.
  - intros j g k' o' k'' Hj Hg. rewrite dget_dset in Hj. rewrite dget_dset. case_decide as Hij.
    + simplify_eq. simpl in Hg. injection Hg as <- <-. case_decide as Hkk; [done|].
      intros (s & Hs & _)%H4. congruence.
    + case_decide as Hkk; [|by apply (H5 j g)]. intros [= <-].
      destruct (H3 _ _ _ _ Hj Hg) as (_ & _ & s & Hs & _). congruence.
Qed.

(** The task of a read runs. *)
Lemma shares_outcome r fs o outcome n :
  fr_read_order r <= n -> shares limit r fs ->
  shares limit {| fr_reads := fr_reads r;
                  fr_shared := dupd (fr_shared r) o (set_outcome outcome);
                  fr_pages := fr_pages r; fr_cached_bytes := fr_cached_bytes r;
                  fr_cached_records := fr_cached_records r; fr_read_order := n |} fs.
Proof.
  intros Hn [H0 H1 H2 H3 H4 H5].
  assert (forall o' s', dget (dupd (fr_shared r) o (set_outcome outcome)) o' = Some s' ->
    exists s, dget (fr_shared r) o' = Some s /\ sh_waiters s' = sh_waiters s) as Hupd.
  { intros o' s'. rewrite dget_dupd. case_decide; [|eauto]. subst.
    destruct (dget (fr_shared r) o') as [s|]; [|done]. intros [= <-]. by exists s. }
  assert (forall k' o', (exists s0, dget (fr_shared r) o' = Some s0 /\ sh_request s0 = request_for limit k') ->
    exists s', dget (dupd (fr_shared r) o (set_outcome outcome)) o' = Some s' /\
      sh_request s' = request_for limit k') as Hback.
  { intros k' o' (s0 & Hs0 & E0). rewrite dget_dupd. case_decide; [|by exists s0]. subst.
    rewrite Hs0. by eexists. }
  split; simpl; try done.
  - intros o' s' (s & Hs%H1 & _)%Hupd. lia.
  - intros o' s' (s & Hs & ->)%Hupd. by apply H2.
  - intros i f k o' Hf Hst. destruct (H3 _ _ _ _ Hf Hst) as (E1 & E2 & E3). eauto.
  - intros k o' Hk. apply Hback. by apply H4.
Qed.
End shares.

(** ** Who follows what *)

(** The change of a generation counts its followers, and closes without any. *)
Record changes_ok (changes : dict TraceThreadKey FollowChange) (fs : dict nat Follower)
    : Prop := {
  hc_count key c : dget changes key = Some c ->
    fc_followers c = count (follows key) (dvals fs) /\
    fc_closing c = (fc_followers c =? 0);
  hc_live i f : dget fs i = Some f -> is_live f = true -> is_Some (dget changes (fo_key f))
}.

Lemma count_follows_put key (fs : dict nat Follower) i f f' :
  dget fs i = Some f -> fo_key f' = fo_key f -> is_live f' = is_live f ->
  count (follows key) (dvals (dset fs i f')) = count (follows key) (dvals fs).
Proof.
  intros Hf Hk Hlive. rewrite count_dset, Hf. simpl. unfold follows. rewrite Hk, Hlive. lia.
Qed.

Lemma changes_put changes fs i f f' :
  changes_ok changes fs -> dget fs i = Some f -> fo_key f' = fo_key f ->
  is_live f' = is_live f -> changes_ok changes (dset fs i f').
Proof.
  intros [H1 H2] Hf Hk Hlive. split.
  - intros key c Hc. rewrite (count_follows_put key fs i f) by done. by apply H1.
  - intros j g. rewrite dget_dset. case_decide as Hij; [|apply H2]. intros [= <-] Hg.
    rewrite Hk. apply (H2 i f); congruence.
Qed.

Lemma changes_wake changes fs key :
  changes_ok changes fs -> changes_ok (dupd changes key wake_change) fs.
Proof.
  intros [H1 H2]. split.
  - intros k c. rewrite dget_dupd. case_decide; [|apply H1]. subst.
    intros (c0 & Ec & ->)%fmap_Some. exact (H1 _ _ Ec).
  - intros j g Hj Hg. rewrite dget_dupd. case_decide; [|by eapply H2].
    destruct (H2 _ _ Hj Hg) as [c Hc]. rewrite Hc. by eexists.
Qed.

Lemma changes_join changes fs i f :
  changes_ok changes fs -> dwf fs -> dget fs i = None -> is_live f = true ->
  let opened := default {| fc_revision := 0; fc_followers := 0; fc_closing := false |}
                  (dget changes (fo_key f)) in
  fc_closing opened = false ->
  changes_ok (dset changes (fo_key f) (add_follower opened)) (dset fs i f).
Proof.
  intros [H1 H2] Hw Hno Hlive opened Hop. split.
  - intros k c. rewrite dget_dset, count_dset, Hno. simpl. unfold follows at 2. rewrite Hlive.
    assert (0 <= count (follows k) (dvals fs)) as Hpos by apply count_nonneg.
    case_decide as Hk; simpl.
    + intros [= <-]. subst k. rewrite bool_decide_true by done. simpl. unfold opened in *.
      destruct (dget changes (fo_key f)) as [c0|] eqn:Ec; simpl in *.
      * destruct (H1 _ _ Ec) as [E1 E2]. split; [lia|]. rewrite Hop. lia.
      * assert (count (follows (fo_key f)) (dvals fs) = 0) as ->; [|done].
        destruct (Z.eq_dec (count (follows (fo_key f)) (dvals fs)) 0); [done|].
        destruct (count_exists (follows (fo_key f)) (dvals fs)) as (g & Hg & Hfo); [lia|].
        unfold follows in Hfo. apply andb_true_iff in Hfo as [Hg1 Hg2%bool_decide_eq_true].
        apply elem_of_dvals in Hg as [j Hj]; [|done]. destruct (H2 _ _ Hj Hg1) as [c Hc]. congruence.
    + rewrite bool_decide_false by done. intros Hc. destruct (H1 _ _ Hc). split; [lia|done].
  - intros j g. rewrite !dget_dset. case_decide as Hij.
    + intros [= <-] _. by rewrite decide_True.
    + intros Hj Hg. case_decide; [by eexists|by eapply H2].
Qed.

(** A follower ends; the change of its generation may start to close. *)
Lemma changes_end changes fs i f f' :
  changes_ok changes fs -> dget fs i = Some f -> fo_key f' = fo_key f ->
  is_live f = true -> is_live f' = false ->
  changes_ok (dupd changes (fo_key f) drop_follower) (dset fs i f').
Proof.
  intros [H1 H2] Hf Hk Hlive Hend. split.
  - intros k c. rewrite dget_dupd, count_dset, Hf. simpl. unfold follows at 2 3.
    rewrite Hlive, Hend. simpl. case_decide as Hkk.
    + subst k. intros (c0 & Ec & ->)%fmap_Some. destruct (H1 _ _ Ec) as [E1 E2].
      rewrite bool_decide_true by done. simpl. split; [lia|done].
    + rewrite bool_decide_false by done. intros Hc. destruct (H1 _ _ Hc). split; [lia|done].
  - intros j g. rewrite dget_dset, dget_dupd. case_decide as Hij.
    + intros [= <-]. by rewrite Hend.
    + intros Hj Hg. destruct (H2 _ _ Hj Hg) as [c Hc]. case_decide; [|by exists c].
      rewrite Hc. by eexists.
Qed.

(** A change that closes has no followers. *)
Lemma changes_close changes fs key c :
  changes_ok changes fs -> dget changes key = Some c -> fc_closing c = true ->
  changes_ok (ddel changes key) fs /\
  forall i f, dget fs i = Some f -> is_live f = true -> fo_key f <> key.
Proof.
  intros [H1 H2] Hc Hclose.
  assert (forall i f, dget fs i = Some f -> is_live f = true -> fo_key f <> key) as Hno.
  { intros i f Hf Hlive Hk. destruct (H1 _ _ Hc) as [E1 E2]. rewrite Hclose in E2.
    assert (1 <= count (follows key) (dvals fs)); [|lia]. eapply count_pos; [by eapply dget_elem_of_dvals|].
    unfold follows. rewrite Hlive. by apply bool_decide_eq_true. }
  split; [|exact Hno]. split.
  - intros k c'. rewrite dget_ddel. case_decide; [done|]. apply H1.
  - intros i f Hf Hlive. rewrite dget_ddel_ne; [by eapply H2|]. intros ->. by eapply Hno.
Qed.


(** ** Readings of the storage clock *)

Section readings.
Context {hash : ScopeHash} {json : TraceJson} {clock : TraceClock}.

Lemma on_thread_readings key m w r w' : on_thread key m w = (r, w') -> readings w' = readings w.
Proof.
  unfold on_thread. destruct (dget _ key) as [t|]; [|by intros [= <- <-]].
  destruct (m t). by intros [= <- <-].
Qed.

Lemma apply_effect_readings change eff w r w' :
  apply_effect change eff w = (r, w') -> readings w' = readings w.
Proof.
  unfold apply_effect. destruct (_ || _); [by intros [= <- <-]|]. unfold bind, modify.
  destruct (or_else _ _) as [k|]; [|by intros [= <- <-]].
  intros Ho. by apply on_thread_readings in Ho.
Qed.

Lemma commit_readings change w r w' :
  commit_ledger_change change w = (r, w') -> (readings w <= readings w')%nat.
Proof.
  rewrite commit_unfold. destruct (target change) as [[tid run]|]; [|by intros [= <- <-]].
  cbv zeta. destruct (resolve_ledger_change _ _ _) as [eff|e]; [|intros [= <- <-]; simpl; lia].
  destruct (apply_effect change eff _) as [[[]|e] w1] eqn:Ea; intros [= <- <-];
    rewrite (apply_effect_readings _ _ _ _ _ Ea); simpl; lia.
Qed.

Lemma rebuild_readings key as_of ms w r w' :
  rebuild_graph_index key as_of ms w = (r, w') -> readings w' = readings w.
Proof.
  unfold rebuild_graph_index, bind, raise_if, raise, ret.
  destruct (exact_thread key w) as [[t|e] w1] eqn:Ex;
    apply exact_thread_stored in Ex as [-> _]; [|by intros [= <- <-]].
  destruct (negb _); [by intros [= <- <-]|].
  destruct (for_each (apply_graph_node_mutation _) ms []) as [[[]|e] g]; [|by intros [= <- <-]].
  unfold on_thread, modify. destruct (dget (threads w) _); by intros [= <- <-].
Qed.

Lemma page_readings request w r w' :
  read_event_page request w = (r, w') -> (readings w <= readings w')%nat.
Proof.
  unfold read_event_page, bind, next_now, ret.
  destruct (exact_thread (pr_key request) w) as [[t|e] w1] eqn:Ex;
    apply exact_thread_stored in Ex as [-> _]; intros [= <- <-]; simpl; lia.
Qed.

Lemma calls_readings l allowed w w' :
  rtc (call_among l allowed) w w' -> (readings w <= readings w')%nat.
Proof.
  induction 1 as [|w w1 w' Hc _ IH]; [done|]. etransitivity; [|exact IH].
  destruct Hc as [change r _ _ Hc|q r Hq|q r Hq|q r Hq|key as_of pages ms r _ _ Hr|_ _ Hr].
  - by eapply commit_readings.
  - injection Hq as _ <-. simpl. lia.
  - by eapply page_readings.
  - apply checkpoint_call in Hq as ->. done.
  - by rewrite (rebuild_readings _ _ _ _ _ _ Hr).
  - done.
Qed.
End readings.

(** ** What the pages and the followers hold *)

(** A page held anywhere, for the followers of a generation. *)
Inductive known (r : FollowReads) (fs : dict nat Follower) (key : TraceThreadKey)
    (fp : FollowPage) : Prop :=
| known_page k : dget (fr_pages r) k = Some fp -> rk_key k = key -> known r fs key fp
| known_shared o s : dget (fr_shared r) o = Some s -> sh_outcome s = Some (Ok fp) ->
    pr_key (sh_request s) = key -> known r fs key fp
| known_previous i f : dget fs i = Some f -> fo_previous_page f = Some fp ->
    fo_key f = key -> known r fs key fp.

(** The same read, perhaps with fewer records. *)
Definition derived (fp0 fp : FollowPage) : Prop :=
  fp = fp0 \/ exists after limit records, 0 <= after /\ 1 <= limit /\
    records_after after limit (fp_page fp0) = Some records /\ fp = with_events records fp0.

(** The events a follower has been given. *)
Definition handed (f : Follower) : list TraceEvent := concat (map up_events (fo_updates f)).

Section invariant.
Context {hash : ScopeHash} {json : TraceJson} {laws : TraceJsonLaws} {clock : TraceClock}.
Context {codec : TraceCodec} {codec_laws : TraceCodecLaws} {fresh : FreshUuids}.
Context (l : TraceLimits) (Hl : TraceLimits_valid l = true).
Context (poll : Z).

(** [rd] tells, of every read that is done, which reading of the storage clock it took. *)
Record page_facts (rd : Z -> nat) (w : World) (now order : Z) (key : TraceThreadKey)
    (fp : FollowPage) : Prop := {
  pf_drawn : drawn_before key w;
  pf_good : page_good w key (fp_page fp);
  pf_orders : fp_read_order fp < fp_completed_order fp <= order;
  pf_expires : fp_expires_at fp <= now + poll;
  pf_observed : cp_observed_at (fp_page fp) = utc_now (rd (fp_read_order fp));
  pf_reading : (rd (fp_read_order fp) < readings w)%nat
}.

Record pages_ok (rd : Z -> nat) (w : World) (now : Z) (r : FollowReads)
    (fs : dict nat Follower) : Prop := {
  po_facts key fp : known r fs key fp -> page_facts rd w now (fr_read_order r) key fp;
  po_before k p k' q : known r fs k p -> known r fs k' q ->
    fp_completed_order p <= fp_read_order q ->
    (rd (fp_read_order p) <= rd (fp_read_order q))%nat;
  po_undone o s key fp : dget (fr_shared r) o = Some s -> sh_outcome s = None ->
    known r fs key fp -> fp_read_order fp <> o;
  po_answer o s fp : dget (fr_shared r) o = Some s -> sh_outcome s = Some (Ok fp) ->
    serves (default 0 (pr_after_seq (sh_request s))) (follow_batch_size l) (fp_page fp) /\
    fp_read_order fp = o;
  po_error o s e : dget (fr_shared r) o = Some s -> sh_outcome s = Some (Raise e) ->
    e = TraceThreadNotFound /\ forall t, ~ stored w (pr_key (sh_request s)) t
}.

Record follower_ok (rd : Z -> nat) (w : World) (now : Z) (f : Follower) : Prop := {
  fk_drawn : drawn_before (fo_key f) w;
  fk_range : 0 <= fo_after_seq f <= fo_cursor f;
  fk_numbers : numbered 1 (fo_after_seq f + 1) (map ev_trace_seq (handed f));
  fk_count : zlen (handed f) = fo_cursor f - fo_after_seq f;
  fk_log t : stored w (fo_key f) t ->
    at_place (fo_after_seq f) (handed f) (map reread_event (log t));
  fk_last u : last (fo_updates f) = Some u -> up_as_of_seq u = fo_cursor f;
  fk_times : exists ns, StronglySorted le ns /\
    map up_observed_at (fo_updates f) = map utc_now ns /\
    forall n, n ∈ ns -> exists p, fo_previous_page f = Some p /\ (n <= rd (fp_read_order p))%nat;
  fk_reading k o p : fo_status f = Reading k o -> fo_previous_page f = Some p ->
    fp_completed_order p <= o;
  fk_waiting revision deadline : fo_status f = Waiting revision deadline ->
    deadline <= now + poll;
  fk_ended e : fo_status f = Ended (Some e) ->
    e = TraceThreadNotFound /\ forall t, ~ stored w (fo_key f) t
}.

Record follow_ok (rd : Z -> nat) (s : FollowWorld) : Prop := {
  fo_reach : client_reachable l (fw_world s);
  fo_counted : counted (fw_reads s);
  fo_bounds : over_bounds (fw_reads s) = false;
  fo_shares : shares (follow_batch_size l) (fw_reads s) (fw_followers s);
  fo_changes : changes_ok (fw_changes s) (fw_followers s);
  fo_pages : pages_ok rd (fw_world s) (fw_now s) (fw_reads s) (fw_followers s);
  fo_followers i f : dget (fw_followers s) i = Some f -> follower_ok rd (fw_world s) (fw_now s) f
}.

(** *** Time goes on *)

Lemma drawn_later key w w' : client_calls l w w' -> drawn_before key w -> drawn_before key w'.
Proof.
  intros Hc (i & Hi & Hg). exists i. split; [|done].
  pose proof (calls_uuids l w w' (client_calls_calls l _ _ Hc)). lia.
Qed.

Lemma stored_earlier w w' key t' :
  client_reachable l w -> drawn_before key w -> client_calls l w w' -> stored w' key t' ->
  exists t more, stored w key t /\ log t' = log t ++ more.
Proof.
  intros Hr Hd Hc Hst. destruct (calls_history l Hl w w' key t') as (t & Ht & more & El & _); try done.
  - by apply (reachable_system l Hl), client_reachable_reachable.
  - by apply client_calls_calls.
  - by exists t, more.
Qed.

Lemma gone_later w w' key :
  client_reachable l w -> drawn_before key w -> client_calls l w w' ->
  (forall t, ~ stored w key t) -> forall t, ~ stored w' key t.
Proof.
  intros Hr Hd Hc Hno t Ht. destruct (stored_earlier _ _ _ _ Hr Hd Hc Ht) as (t0 & _ & Ht0 & _).
  by apply (Hno t0).
Qed.

Lemma page_facts_later rd w w' now now' order order' key fp :
  client_reachable l w -> client_calls l w w' -> now <= now' -> order <= order' ->
  page_facts rd w now order key fp -> page_facts rd w' now' order' key fp.
Proof.
  intros Hr Hc Hn Ho []. pose proof (calls_readings l _ _ _ Hc).
  split; try lia; [by eapply drawn_later|by eapply page_good_later].
Qed.

Lemma follower_ok_later rd w w' now now' f :
  client_reachable l w -> client_calls l w w' -> now <= now' ->
  follower_ok rd w now f -> follower_ok rd w' now' f.
Proof.
  intros Hr Hc Hn []. split; try done.
  - by eapply drawn_later.
  - intros t' Hst. destruct (stored_earlier _ _ _ _ Hr fk_drawn0 Hc Hst) as (t & more & Ht & ->).
    rewrite map_app. apply at_place_prefix; [lia|by apply fk_log0].
  - intros revision deadline E1. specialize (fk_waiting0 _ _ E1). lia.
  - intros e E1. destruct (fk_ended0 e E1) as [-> Hno]. split; [done|]. by eapply gone_later.
Qed.

(** A request of a shared read is a follower's. *)
Lemma shared_drawn rd s o sh :
  follow_ok rd s -> dget (fr_shared (fw_reads s)) o = Some sh ->
  drawn_before (pr_key (sh_request sh)) (fw_world s).
Proof.
  intros [_ _ _ Hs _ _ Hf] Ho. destruct (hs_count _ _ _ Hs _ _ Ho) as [E1 E2].
  destruct (count_waiter (fw_followers s) o (hs_wf _ _ _ Hs)) as (i & f & k & Hi & Est); [lia|].
  destruct (hs_reader _ _ _ Hs _ _ _ _ Hi Est) as (Hk & _ & sh' & Hsh' & Hreq).
  assert (sh' = sh) as -> by congruence. rewrite Hreq. simpl. rewrite Hk. by eapply fk_drawn, Hf.
Qed.

Lemma world_ok rd s w' now' :
  follow_ok rd s -> client_calls l (fw_world s) w' -> fw_now s <= now' ->
  follow_ok rd (set_now now' (set_world w' s)).
Proof.
  intros Hok Hc Hn. pose proof (fun o sh => shared_drawn rd s o sh Hok) as Hdrawn.
  destruct Hok as [Hr H1 H2 H3 H4 [P1 P2 P3 P4 P5] H6]. split; simpl; try done.
  - by eapply client_reachable_calls.
  - split; try done.
    + intros key fp Hk. eapply page_facts_later; [exact Hr|done..|by apply P1].
    + intros o sh e Ho Ee. destruct (P5 _ _ _ Ho Ee) as [-> Hno]. split; [done|].
      eapply gone_later; [exact Hr|by eapply Hdrawn|done..].
  - intros i f Hf. eapply follower_ok_later; [exact Hr|done..|by eapply H6].
Qed.

(** *** Pages *)

Lemma derived_facts rd w now order key fp0 fp :
  derived fp0 fp -> page_facts rd w now order key fp0 -> page_facts rd w now order key fp.
Proof.
  intros [->|(after & n & records & Ha & Hn & Hr & ->)] H; [done|]. destruct H.
  split; simpl; try done. by eapply records_after_good.
Qed.

Lemma derived_order fp0 fp :
  derived fp0 fp ->
  fp_read_order fp = fp_read_order fp0 /\ fp_completed_order fp = fp_completed_order fp0.
Proof. intros [->|(? & ? & ? & _ & _ & _ & ->)]; done. Qed.

Lemma known_derived r fs k fp :
  dget (fr_pages r) k = Some fp -> exists fp0, known r fs (rk_key k) fp0 /\ derived fp0 fp.
Proof. intros Hk. exists fp. split; [by eapply known_page|by left]. Qed.

(** Reads that hold no more than before, but for new reads that are not done. *)
Record fewer (r : FollowReads) (fs : dict nat Follower) (r' : FollowReads) : Prop := {
  fe_pages k fp : dget (fr_pages r') k = Some fp ->
    exists fp0, known r fs (rk_key k) fp0 /\ derived fp0 fp;
  fe_shared o s : dget (fr_shared r') o = Some s ->
    (exists s0, dget (fr_shared r) o = Some s0 /\ sh_outcome s = sh_outcome s0 /\
       sh_request s = sh_request s0) \/ sh_outcome s = None /\ fr_read_order r < o;
  fe_order : fr_read_order r <= fr_read_order r'
}.

Lemma fewer_trimmed r fs r' : trimmed r r' -> fewer r fs r'.
Proof.
  intros [_ E2 E3 H _ _]. split.
  - intros k fp Hk%H. by apply known_derived.
  - intros o s. rewrite E2. left. by exists s.
  - lia.
Qed.

Lemma fewer_leave r fs k o : fewer r fs (leave_read k o r).
Proof.
  unfold leave_read. destruct (dget (fr_shared r) o) as [s|] eqn:Es.
  2: { by apply fewer_trimmed. }
  destruct (_ =? 0); split; simpl; try lia; try (intros k' fp Hk; by apply known_derived).
  - intros o' s'. rewrite dget_ddel. case_decide; [done|]. left. by exists s'.
  - intros o' s'. rewrite dget_dset. case_decide; [|left; by exists s'].
    intros [= <-]. left. subst. by exists s.
Qed.

Lemma fewer_join r fs r1 o : trimmed r r1 -> fewer r fs (join_read o r1).
Proof.
  intros [_ E2 E3 H _ _]. split; simpl.
  - intros k fp Hk%H. by apply known_derived.
  - intros o' s. rewrite dget_dupd, E2. case_decide; [|left; by exists s].
    intros (s0 & Hs0 & ->)%fmap_Some. left. by exists s0.
  - lia.
Qed.

Lemma fewer_wait r fs r1 k request :
  trimmed r r1 -> fewer r fs (join_read (fr_read_order r + 1) (new_read k request r1).2).
Proof.
  intros [_ E2 E3 H _ _]. split; simpl; rewrite ?E3.
  - intros k' fp Hk%H. by apply known_derived.
  - intros o' s. rewrite dget_dupd, dget_dset, E2. case_decide as Hd.
    + intros [= <-]. right. simpl. split; [done|lia].
    + left. by exists s.
  - lia.
Qed.

(** What is known after the reads have lost something and one follower has moved. *)
Lemma known_put r fs r' i f' key fp :
  fewer r fs r' ->
  (forall p, fo_previous_page f' = Some p -> exists p0, known r fs (fo_key f') p0 /\ derived p0 p) ->
  known r' (dset fs i f') key fp -> exists fp0, known r fs key fp0 /\ derived fp0 fp.
Proof.
  intros [F1 F2 _] Hp [k Hk <-|o s Hs Eo <-|j g Hj Ep <-].
  - by apply F1.
  - destruct (F2 _ _ Hs) as [(s0 & Hs0 & E1 & E2)|[E1 _]]; [|congruence].
    exists fp. split; [|by left]. rewrite E2. eapply known_shared; [done|congruence|done].
  - rewrite dget_dset in Hj. case_decide.
    + injection Hj as <-. by apply Hp.
    + exists fp. split; [by eapply known_previous|by left].
Qed.

Lemma known_less r fs r' key fp :
  fewer r fs r' -> known r' fs key fp -> exists fp0, known r fs key fp0 /\ derived fp0 fp.
Proof.
  intros [F1 F2 _] [k Hk <-|o s Hs Eo <-|j g Hj Ep <-].
  - by apply F1.
  - destruct (F2 _ _ Hs) as [(s0 & Hs0 & E1 & E2)|[E1 _]]; [|congruence].
    exists fp. split; [|by left]. rewrite E2. eapply known_shared; [done|congruence|done].
  - exists fp. split; [by eapply known_previous|by left].
Qed.

Lemma pages_from rd w now r fs r' fs' :
  pages_ok rd w now r fs -> fewer r fs r' ->
  (forall key fp, known r' fs' key fp -> exists fp0, known r fs key fp0 /\ derived fp0 fp) ->
  pages_ok rd w now r' fs'.
Proof.
  intros [P1 P2 P3 P4 P5] Hf Hk.
  destruct Hf as [F1 F2 F3]. split.
  - intros key fp (fp0 & H0 & Hd)%Hk. eapply derived_facts; [exact Hd|].
    destruct (P1 _ _ H0). split; try done. lia.
  - intros k p k' q (p0 & Hp0 & Dp)%Hk (q0 & Hq0 & Dq)%Hk.
    destruct (derived_order _ _ Dp) as [-> ->], (derived_order _ _ Dq) as [-> _]. by eapply P2.
  - intros o s key fp Hs Eo (fp0 & H0 & Hd)%Hk. destruct (derived_order _ _ Hd) as [-> _].
    destruct (F2 _ _ Hs) as [(s0 & Hs0 & E1 & _)|[_ Hlt]]; [eapply P3; [done|congruence|done]|].
    destruct (P1 _ _ H0). lia.
  - intros o s fp Hs Eo. destruct (F2 _ _ Hs) as [(s0 & Hs0 & E1 & ->)|[E1 _]]; [|congruence].
    eapply P4; [done|congruence].
  - intros o s e Hs Eo. destruct (F2 _ _ Hs) as [(s0 & Hs0 & E1 & ->)|[E1 _]]; [|congruence].
    eapply P5; [done|congruence].
Qed.

Lemma pages_put rd w now r fs r' i f' :
  pages_ok rd w now r fs -> fewer r fs r' ->
  (forall p, fo_previous_page f' = Some p -> exists p0, known r fs (fo_key f') p0 /\ derived p0 p) ->
  pages_ok rd w now r' (dset fs i f').
Proof.
  intros Hok Hf Hp. eapply pages_from; [done|done|]. intros key fp. by apply known_put.
Qed.

(** *** A page is taken *)

Lemma batch_numbers ms w key p a :
  page_evidence w key p ms a ->
  map ev_trace_seq (map reread_event (map me_validated_event ms)) = map record_number ms.
Proof.
  intros Hev. rewrite !map_map. apply map_ext_in. intros m Hm%list_elem_of_In.
  simpl. by apply (pe_decodes _ _ _ _ _ Hev).
Qed.

Definition batch_of (ms : list MemoryStoredTraceEvent) : list TraceEvent :=
  map reread_event (map me_validated_event ms).

Lemma numbered_app k xs ys :
  numbered 1 k xs -> numbered 1 (k + zlen xs) ys -> numbered 1 k (xs ++ ys).
Proof.
  intros H1 H2 i x [Hi|[Hi Hx]]%lookup_app_Some; [by apply H1|]. apply H2 in Hx.
  unfold zlen in Hx. lia.
Qed.

Lemma last_map {A B} (g : A -> B) xs : last (map g xs) = g <$> last xs.
Proof. rewrite !last_lookup, length_map, list_lookup_fmap. done. Qed.

Lemma turn_cursor w f fp ms :
  page_evidence w (fo_key f) (fp_page fp) ms (fo_cursor f) ->
  fo_cursor (turn_page fp (batch_of ms) f).1 = fo_cursor f + zlen ms.
Proof.
  intros Hev. simpl. destruct (last (batch_of ms)) as [e|] eqn:El.
  - assert (last (map record_number ms) = Some (ev_trace_seq e)) as Hl'.
    { rewrite <-(batch_numbers _ _ _ _ _ Hev), last_map. fold (batch_of ms). by rewrite El. }
    rewrite (last_numbered _ _ _ (pe_numbers _ _ _ _ _ Hev) Hl'), zlen_map. lia.
  - apply last_None in El. unfold batch_of in El. destruct ms; [|done]. unfold zlen. simpl. lia.
Qed.

Lemma turn_handed fp batch f :
  handed (turn_page fp batch f).1 = handed f ++ batch.
Proof.
  unfold handed. simpl. destruct batch as [|e batch]; [|by rewrite map_app, concat_app; simpl; rewrite app_nil_r].
  destruct (negb _); rewrite ?map_app, ?concat_app; simpl; by rewrite ?app_nil_r.
Qed.

(** The statuses a page can lead to. *)
Definition settled_status (now : Z) (status : FollowStatus) : Prop :=
  match status with
  | Reading _ _ | Ended (Some _) => False
  | Waiting _ deadline => deadline <= now + poll
  | _ => True
  end.

Lemma turn_ok rd w now f fp ms status :
  follower_ok rd w now f -> page_evidence w (fo_key f) (fp_page fp) ms (fo_cursor f) ->
  fo_previous_page f = Some fp ->
  cp_observed_at (fp_page fp) = utc_now (rd (fp_read_order fp)) ->
  settled_status now status ->
  follower_ok rd w now (set_status status (turn_page fp (batch_of ms) f).1).
Proof.
  intros [] Hev Hprev Hobs Hstat. pose proof (turn_cursor _ _ _ _ Hev) as Hcur.
  pose proof (turn_handed fp (batch_of ms) f) as Hhand.
  assert (handed (set_status status (turn_page fp (batch_of ms) f).1) = handed f ++ batch_of ms)
    as Hhand' by done. clear Hhand.
  assert (zlen (batch_of ms) = zlen ms) as Hlen by (unfold batch_of; by rewrite !zlen_map).
  pose proof (zlen_nonneg ms).
  split; cbn [set_status fo_key fo_after_seq fo_cursor fo_previous_page fo_updates fo_status].
  - done.
  - rewrite Hcur. simpl. lia.
  - rewrite Hhand', map_app. simpl. apply numbered_app; [done|].
    unfold batch_of. rewrite (batch_numbers _ _ _ _ _ Hev), zlen_map, fk_count0.
    replace (fo_after_seq f + 1 + (fo_cursor f - fo_after_seq f)) with (fo_cursor f + 1) by lia.
    apply Hev.
  - rewrite Hhand', zlen_app, Hcur. simpl. lia.
  - intros t Hst. simpl in Hst. rewrite Hhand'. simpl. apply at_place_app; [lia|by apply fk_log0|].
    rewrite fk_count0. replace (fo_after_seq f + (fo_cursor f - fo_after_seq f)) with (fo_cursor f) by lia.
    apply at_place_map. by apply (pe_log _ _ _ _ _ Hev).
  - intros u Hu. rewrite Hcur. simpl in Hcur, Hu.
    destruct (batch_of ms) as [|e b] eqn:Eb.
    + assert (zlen ms = 0) as Hz by (rewrite <-Hlen; done).
      destruct (negb _); [rewrite last_snoc in Hu; injection Hu as <-; simpl; lia|].
      specialize (fk_last0 _ Hu). lia.
    + rewrite last_snoc in Hu. injection Hu as <-. simpl in *. lia.
  - destruct fk_times0 as (ns & Hsort & Hmap & Hle).
    assert (forall n, n ∈ ns -> (n <= rd (fp_read_order fp))%nat) as Hle'.
    { intros n (p & Hp & Hn)%Hle. congruence. }
    destruct (turn_page fp (batch_of ms) f).2 eqn:Et; simpl in Et |- *; rewrite Et.
    + exists (ns ++ [rd (fp_read_order fp)]). split; [|split].
      * apply StronglySorted_app. split; [|split; [done|by repeat constructor]].
        intros a b Ha ->%list_elem_of_singleton. by apply Hle'.
      * rewrite !map_app, Hmap. simpl. by rewrite Hobs.
      * intros n [Hn| ->%list_elem_of_singleton]%elem_of_app; exists fp; auto.
    + exists ns. split; [done|]. split; [done|]. intros n Hn. exists fp. auto.
  - intros k o p ->. done.
  - intros revision deadline ->. done.
  - intros e ->. done.
Qed.

(** *** Steps of a follower *)

Context (st : DurableTraceStore) (Hst : so_limits st = l).

Lemma pages_other rd w now r fs i f f' :
  pages_ok rd w now r fs -> dget fs i = Some f -> fo_key f' = fo_key f ->
  fo_previous_page f' = fo_previous_page f ->
  forall p, fo_previous_page f' = Some p -> exists p0, known r fs (fo_key f') p0 /\ derived p0 p.
Proof.
  intros _ Hf Hk Hp p E1. exists p. split; [|by left]. eapply known_previous; [done|congruence|done].
Qed.

(** A follower moves, and what it was waiting for with it. *)
Lemma move_ok rd s i f f' r' :
  follow_ok rd s -> dget (fw_followers s) i = Some f -> fo_key f' = fo_key f ->
  is_live f' = is_live f -> counted r' -> over_bounds r' = false ->
  fewer (fw_reads s) (fw_followers s) r' ->
  shares (follow_batch_size l) r' (dset (fw_followers s) i f') ->
  (forall p, fo_previous_page f' = Some p ->
     exists p0, known (fw_reads s) (fw_followers s) (fo_key f') p0 /\ derived p0 p) ->
  follower_ok rd (fw_world s) (fw_now s) f' ->
  follow_ok rd (put_follower i f' (set_reads r' s)).
Proof.
  intros [H1 H2 H3 H4 H5 H6 H7] Hf Hk Hlive Hc Ho Hfew Hsh Hp Hf'. split; simpl; try done.
  - by eapply changes_put.
  - by eapply pages_put; [exact H6|..].
  - intros j g. rewrite dget_dset. case_decide; [by intros [= <-]|apply H7].
Qed.

(** A follower ends. *)
Lemma end_ok rd s i f f' r' :
  follow_ok rd s -> dget (fw_followers s) i = Some f -> fo_key f' = fo_key f ->
  is_live f = true -> is_live f' = false -> counted r' -> over_bounds r' = false ->
  fewer (fw_reads s) (fw_followers s) r' ->
  shares (follow_batch_size l) r' (dset (fw_followers s) i f') ->
  fo_previous_page f' = fo_previous_page f ->
  follower_ok rd (fw_world s) (fw_now s) f' ->
  follow_ok rd (put_follower i f' (set_reads r'
    (set_changes (dupd (fw_changes s) (fo_key f) drop_follower) s))).
Proof.
  intros [H1 H2 H3 H4 H5 H6 H7] Hf Hk Hlive Hend Hc Ho Hfew Hsh Hp Hf'. split; simpl; try done.
  - by eapply changes_end.
  - eapply pages_put; [exact H6|done|]. by eapply pages_other.
  - intros j g. rewrite dget_dset. case_decide; [by intros [= <-]|apply H7].
Qed.

(** The same follower, elsewhere in its code. *)
Lemma status_ok rd w now f status :
  follower_ok rd w now f -> settled_status now status ->
  follower_ok rd w now (set_status status f).
Proof.
  intros [] Hs. split; try done; simpl.
  - intros k o p ->. done.
  - intros revision deadline ->. done.
  - intros e ->. done.
Qed.

Lemma settled_not_reading now status f :
  settled_status now status -> is_reading (set_status status f) = false.
Proof. unfold is_reading. simpl. by destruct status. Qed.

Lemma set_reads_same s : set_reads (fw_reads s) s = s.
Proof. by destruct s. Qed.

Lemma idle_ok rd s i f status :
  follow_ok rd s -> dget (fw_followers s) i = Some f -> is_reading f = false ->
  is_live f = true -> settled_status (fw_now s) status -> status <> Ended None ->
  follow_ok rd (put_follower i (set_status status f) s).
Proof.
  intros Hok Hf Hnr Hlive Hs Hne. pose proof Hok as [H1 H2 H3 H4 H5 H6 H7].
  rewrite <-(set_reads_same s). apply (move_ok rd s i f); try done.
  - rewrite Hlive. unfold is_live. simpl. by destruct status as [| | | |[]].
  - by apply fewer_trimmed.
  - apply shares_put; [done| |by eapply settled_not_reading]. intros f0 Hf0. congruence.
  - by eapply pages_other.
  - apply status_ok; [by eapply H7|done].
Qed.

Lemma settle_keeps s f revision :
  (forall fp, fo_previous_page f = Some fp -> fp_expires_at fp <= fw_now s + poll) -> 0 <= poll -> settled_status (fw_now s) (settle revision f s) /\ settle revision f s <> Ended None.
Proof.
  intros Hexp Hpoll. unfold settle. destruct (negb _); [done|].
  destruct (fo_previous_page f) as [fp|]; [|done]. specialize (Hexp fp eq_refl).
  unfold remaining. destruct (_ <=? 0); [done|]. simpl. split; [lia|done].
Qed.

Lemma previous_expires rd s i f fp :
  follow_ok rd s -> dget (fw_followers s) i = Some f -> fo_previous_page f = Some fp ->
  fp_expires_at fp <= fw_now s + poll.
Proof.
  intros Hok Hf Hp. eapply pf_expires, (po_facts _ _ _ _ _ (fo_pages _ _ Hok)).
  by eapply known_previous.
Qed.

(** A follower stops waiting for its read: with its page, or without. *)
Lemma leave_ok rd s i f k o :
  follow_ok rd s -> dget (fw_followers s) i = Some f -> fo_status f = Reading k o ->
  follow_ok rd (put_follower i (set_status AtTop f)
    (set_reads (leave_read k o (fw_reads s)) s)) .
Proof.
  intros Hok Hf Est. pose proof Hok as [H1 H2 H3 H4 H5 H6 H7]. apply (move_ok rd s i f); try done.
  - unfold is_live. by rewrite Est.
  - unfold leave_read. destruct (dget _ o); [|done]. destruct (_ =? 0); by destruct H2.
  - unfold leave_read. destruct (dget _ o); [|done]. by destruct (_ =? 0).
  - apply fewer_leave.
  - by eapply shares_leave.
  - by eapply pages_other.
  - apply status_ok; [by eapply H7|done].
Qed.

Definition with_previous (fp : FollowPage) (f : Follower) : Follower :=
  {| fo_key := fo_key f; fo_after_seq := fo_after_seq f; fo_cursor := fo_cursor f;
     fo_active_run_ids := fo_active_run_ids f; fo_previous_page := Some fp;
     fo_updates := fo_updates f; fo_status := AtTop |}.

(** A later read takes the place of the previous one. *)
Lemma with_previous_ok rd w now f fp :
  follower_ok rd w now f ->
  (forall p, fo_previous_page f = Some p ->
     (rd (fp_read_order p) <= rd (fp_read_order fp))%nat) ->
  follower_ok rd w now (with_previous fp f).
Proof.
  intros [] Hle. split; try done; simpl.
  destruct fk_times0 as (ns & Hs & Hm & Hns). exists ns. split; [done|]. split; [done|].
  intros n (p & Hp & Hn)%Hns. exists fp. split; [done|]. specialize (Hle _ Hp). lia.
Qed.

(** A page is received. *)
Lemma receive_form i f revision fp s batch reads :
  decode_canonical_page (follow_request st f) (fp_page fp) = Ok batch ->
  (if bool_decide (revision_of s (fo_key f) = Some revision)
   then remember (fw_now s) (follow_request st f) fp revision (fw_reads s)
   else Ok (fw_reads s)) = Ok reads ->
  receive st i f revision (Ok fp) s =
  put_follower i
    (set_status (if (turn_page fp batch f).2
                 then AtYield (negb (bool_decide (batch = []))) revision
                 else settle revision (turn_page fp batch f).1 (set_reads reads s))
       (turn_page fp batch f).1) (set_reads reads s).
Proof. intros E1 E2. unfold receive. rewrite E1, E2. by destruct (turn_page fp batch f). Qed.

(** What a page [fp] of [revision] makes of a follower and the reads [r]. *)
Record received (s : FollowWorld) (f : Follower) (revision : Z) (fp : FollowPage)
    (r : FollowReads) (ms : list MemoryStoredTraceEvent) (f' : Follower) (r' : FollowReads)
    : Prop := {
  rc_evidence : page_evidence (fw_world s) (fo_key f) (fp_page fp) ms (fo_cursor f);
  rc_follower : f' =
    set_status (if (turn_page fp (batch_of ms) f).2
                then AtYield (negb (bool_decide (batch_of ms = []))) revision
                else settle revision (turn_page fp (batch_of ms) f).1 s)
      (turn_page fp (batch_of ms) f).1;
  rc_pages k p : dget (fr_pages r') k = Some p -> dget (fr_pages r) k = Some p \/
    p = fp /\ rk_key k = fo_key f /\ rk_revision k = revision /\
    revision_of s (fo_key f) = Some revision;
  rc_shared : fr_shared r' = fr_shared r;
  rc_empty : ms = [] -> cp_tail_seq (fp_page fp) <= fo_cursor f
}.

Lemma receive_ok rd s i f revision fp0 fp r :
  follow_ok rd s -> 0 <= poll -> dget (fw_followers s) i = Some f -> is_live f = true ->
  counted r -> over_bounds r = false -> fewer (fw_reads s) (fw_followers s) r ->
  (forall f', is_reading f' = false -> shares (follow_batch_size l) r (dset (fw_followers s) i f')) ->
  known (fw_reads s) (fw_followers s) (fo_key f) fp0 -> derived fp0 fp ->
  serves (fo_cursor f) (follow_batch_size l) (fp_page fp) ->
  (forall p, fo_previous_page f = Some p -> (rd (fp_read_order p) <= rd (fp_read_order fp))%nat) ->
  exists ms f' r', received s f revision fp r ms f' r' /\
    receive st i f revision (Ok fp) (set_reads r s) = put_follower i f' (set_reads r' s) /\
    follow_ok rd (put_follower i f' (set_reads r' s)).
Proof.
  intros Hok Hpoll Hf Hlive Hc Ho Hfew Hsh Hk Hd Hse Hle.
  pose proof Hok as [H1 H2 H3 H4 H5 H6 H7].
  pose proof (derived_facts _ _ _ _ _ _ _ Hd (po_facts _ _ _ _ _ H6 _ _ Hk)) as Hfacts.
  pose proof (H7 _ _ Hf) as Hfo. pose proof (fk_range _ _ _ _ Hfo) as Hrange.
  destruct (good_page_decodes l (fw_world s) f st (fp_page fp)) as (ms & Hev & Hdec);
    [by apply Hfacts|done|lia|done|]. fold (batch_of ms) in Hdec.
  assert (exists r', (if bool_decide (revision_of s (fo_key f) = Some revision)
     then remember (fw_now s) (follow_request st f) fp revision r else Ok r) = Ok r' /\
     counted r' /\ over_bounds r' = false /\ fr_reads r' = fr_reads r /\
     fr_shared r' = fr_shared r /\ fr_read_order r' = fr_read_order r /\
     forall k p, dget (fr_pages r') k = Some p -> dget (fr_pages r) k = Some p \/
       (k = read_key (follow_request st f) revision /\ p = fp) /\
       revision_of s (fo_key f) = Some revision)
    as (r' & Er & Hc' & Ho' & E1 & E2 & E3 & Hpages).
  { case_bool_decide as Hrev.
    - destruct (remember_spec (fw_now s) (follow_request st f) fp revision r Hc Ho)
        as (r' & Er & ? & ? & ? & ? & ? & Hp). exists r'. repeat (split; [done|]).
      intros k p [?|?]%Hp; auto.
    - exists r. repeat (split; [done|]). by left. }
  set (status := if (turn_page fp (batch_of ms) f).2
                 then AtYield (negb (bool_decide (batch_of ms = []))) revision
                 else settle revision (turn_page fp (batch_of ms) f).1 s).
  exists ms, (set_status status (turn_page fp (batch_of ms) f).1), r'.
  split; [|split; [exact (receive_form i f revision fp (set_reads r s) _ _ Hdec Er)|]].
  { split; try done.
    - intros k p [Hkp|[[-> ->] Hrev]]%Hpages; [by left|]. right. done.
    - intros ->. destruct (Z.le_gt_cases (cp_tail_seq (fp_page fp)) (fo_cursor f)) as [|Hlt]; [done|].
      pose proof (se_first _ _ _ Hse ltac:(lia)) as Hfirst. by rewrite (pe_events _ _ _ _ _ Hev) in Hfirst. }
  assert (settled_status (fw_now s) status /\ status <> Ended None) as [Hset Hne].
  { unfold status. destruct (turn_page fp (batch_of ms) f).2; [done|]. apply settle_keeps; [|done].
    intros p [= <-]. by apply Hfacts. }
  apply (move_ok rd s i f); try done.
  - rewrite Hlive. unfold is_live. simpl. by destruct status as [| | | |[]].
  - split; [|rewrite E2; apply Hfew|rewrite E3; apply Hfew].
    intros k p [Hkp|[[-> ->] _]]%Hpages; [by apply Hfew|]. exists fp0. by split.
  - eapply shares_same; [exact E1|exact E2|exact E3|]. apply Hsh. by eapply settled_not_reading.
  - intros p [= <-]. by exists fp0.
  - pose proof (with_previous_ok rd _ _ f fp Hfo Hle) as Hwp.
    exact (turn_ok rd _ _ (with_previous fp f) fp ms status Hwp Hev eq_refl
      (pf_observed _ _ _ _ _ _ Hfacts) Hset).
Qed.

(** A read begins: with a cached page, or by waiting. *)
Lemma begin_read_spec now request revision previous r x r' :
  counted r -> begin_read now request revision previous r = (x, r') ->
  match x with
  | inl result => trimmed r r' /\
      cache_hit now (read_key request revision) (pr_limit request) previous r result
  | inr o => exists r1, trimmed r r1 /\
      (dget (fr_reads r) (read_key request revision) = Some o /\ r' = join_read o r1 /\
       (exists sh, dget (fr_shared r) o = Some sh /\ sh_outcome sh = None) /\
       (forall p, previous = Some p -> fp_completed_order p <= o) \/
       o = fr_read_order r + 1 /\
       r' = join_read o (new_read (read_key request revision) request r1).2)
  end.
Proof.
  intros Hc. unfold begin_read. set (key := read_key request revision).
  destruct (cached_page now key (pr_limit request) previous r) as [[result|] r1] eqn:Ec;
    apply cached_page_spec in Ec as [Ht Hh]; try apply Hc; [by intros [= <- <-]|].
  assert (forall o r2, (o, r2) = new_read key request r1 ->
    exists r1, trimmed r r1 /\
      (dget (fr_reads r) key = Some o /\ join_read o r2 = join_read o r1 /\
       (exists sh, dget (fr_shared r) o = Some sh /\ sh_outcome sh = None) /\
       (forall p, previous = Some p -> fp_completed_order p <= o) \/
       o = fr_read_order r + 1 /\
       join_read o r2 = join_read o (new_read key request r1).2)) as Hnew.
  { intros o r2 E. exists r1. split; [done|]. right. rewrite <-E. split; [|done].
    injection E as -> _. simpl. rewrite (tm_order _ _ Ht). done. }
  rewrite (tm_reads _ _ Ht), (tm_shared _ _ Ht).
  destruct (dget (fr_reads r) key) as [o|] eqn:Ei; [|intros [= <- <-]; by apply Hnew].
  destruct (dget (fr_shared r) o) as [sh|] eqn:Es; [|intros [= <- <-]; by apply Hnew].
  destruct (joinable previous o sh) eqn:Ej; intros [= <- <-]; [|by apply Hnew].
  exists r1. split; [done|]. left. split; [done|]. split; [done|]. unfold joinable in Ej.
  destruct (sh_outcome sh) eqn:Eo; [done|]. split; [by exists sh|]. intros p ->. lia.
Qed.

Lemma join_read_counted o r : counted r -> counted (join_read o r).
Proof. by intros []. Qed.

Lemma new_read_counted k request r : counted r -> counted (new_read k request r).2.
Proof. by intros []. Qed.

(** What [pull] does. *)
Inductive pulled (s : FollowWorld) (i : nat) (f : Follower) (revision : Z) (s' : FollowWorld)
    : Prop :=
| pulled_page k fp0 fp r ms f' r' :
    dget (fr_pages (fw_reads s)) k = Some fp0 -> rk_key k = fo_key f ->
    rk_revision k = revision -> fw_now s < fp_expires_at fp0 -> derived fp0 fp ->
    trimmed (fw_reads s) r -> received s f revision fp r ms f' r' ->
    s' = put_follower i f' (set_reads r' s) -> pulled s i f revision s'
| pulled_wait o r' sh :
    dget (fr_shared r') o = Some sh -> sh_outcome sh = None ->
    fewer (fw_reads s) (fw_followers s) r' ->
    (forall k p, dget (fr_pages r') k = Some p -> dget (fr_pages (fw_reads s)) k = Some p) ->
    s' = put_follower i (wait_on (read_key (follow_request st f) revision) o f) (set_reads r' s) ->
    pulled s i f revision s'.

Lemma is_top f : fo_status f = AtTop -> is_live f = true /\ is_reading f = false.
Proof. unfold is_live, is_reading. by intros ->. Qed.

Lemma pull_ok rd s i f s' :
  follow_ok rd s -> 0 <= poll -> dget (fw_followers s) i = Some f -> fo_status f = AtTop ->
  pull st i f s = Some s' ->
  follow_ok rd s' /\ exists revision, revision_of s (fo_key f) = Some revision /\
    pulled s i f revision s'.
Proof.
  intros Hok Hpoll Hf Htop. destruct (is_top f Htop) as [Hlive Hnr].
  pose proof Hok as [H1 H2 H3 H4 H5 H6 H7]. pose proof (H7 _ _ Hf) as Hfo.
  pose proof (fk_range _ _ _ _ Hfo) as Hrange.
  assert (1 <= follow_batch_size l) as Hlim by (unfold TraceLimits_valid in Hl; by bool_prop).
  unfold pull. destruct (revision_of s (fo_key f)) as [revision|] eqn:Erev; [|done].
  destruct (begin_read _ _ revision _ _) as [x r] eqn:Eb.
  apply begin_read_spec in Eb; [|done]. set (key := read_key (follow_request st f) revision) in *.
  assert (follow_request st f = request_for (follow_batch_size l) key) as Ereq
    by (unfold follow_request; by rewrite Hst).
  destruct x as [fp|o]; cbv beta iota zeta in Eb |- *;
    intros Hs'; apply Some_inj in Hs'; subst s'.
  - destruct Eb as [Ht [(k & fp0 & records & Hk & E1 & E2 & Hexp & Hsup & Hrec & ->)]].
    simpl in E1, E2, Hrec. rewrite Hst in Hrec.
    assert (known (fw_reads s) (fw_followers s) (fo_key f) fp0) as Hkn by by eapply known_page.
    assert (derived fp0 (with_events records fp0)) as Hd.
    { right. exists (fo_cursor f), (follow_batch_size l), records. split; [lia|]. by split. }
    destruct (receive_ok rd s i f revision fp0 (with_events records fp0) r) as (ms & f' & r' & Hrc & -> & Hok');
      try done.
    + by apply Ht.
    + by apply (tm_bounds _ _ Ht).
    + by apply fewer_trimmed.
    + intros f' Hf'. eapply shares_trimmed; [exact Ht|]. apply shares_put; [done| |done].
      intros f0 Hf0. congruence.
    + eapply records_after_good; [|lia|exact Hlim|exact Hrec]. apply (po_facts _ _ _ _ _ H6 _ _ Hkn).
    + intros p Hp. simpl. unfold superseded in Hsup. rewrite Hp in Hsup.
      apply andb_false_iff in Hsup as [Hsame%negb_false_iff%Z.eqb_eq|Hlt%Z.ltb_ge]; [by rewrite Hsame|].
      eapply (po_before _ _ _ _ _ H6); [by eapply known_previous|exact Hkn|done].
    + split; [done|]. exists revision. split; [done|]. by eapply pulled_page.
  - destruct Eb as (r1 & Ht & [(Hidx & -> & (sh & Hsh & Eo) & Hle)|[-> ->]]).
    + assert (shares (follow_batch_size l) (join_read o r1)
                (dset (fw_followers s) i (wait_on key o f))) as Hs'.
      { apply shares_join; try done; [by eapply shares_trimmed|]. by rewrite (tm_reads _ _ Ht). }
      split.
      * apply (move_ok rd s i f); try done.
        -- apply join_read_counted. by apply Ht.
        -- by apply (tm_bounds _ _ Ht).
        -- by apply fewer_join.
        -- by eapply pages_other.
        -- destruct Hfo. split; try done; simpl. intros k' o' p [= <- <-] Hp. by apply Hle.
      * exists revision. split; [done|]. eapply pulled_wait; [| |by apply (fewer_join _ _ _ o Ht)| |done].
        -- simpl. rewrite dget_dupd, decide_True, (tm_shared _ _ Ht), Hsh by done. done.
        -- done.
        -- intros k p. apply Ht.
    + set (o := fr_read_order (fw_reads s) + 1).
      assert (shares (follow_batch_size l) (join_read o (new_read key (follow_request st f) r1).2)
                (dset (fw_followers s) i (wait_on key o f))) as Hs'.
      { apply shares_wait; try done; [by eapply shares_trimmed|]. unfold o. by rewrite (tm_order _ _ Ht). }
      split.
      * apply (move_ok rd s i f); try done.
        -- apply join_read_counted, new_read_counted. by apply Ht.
        -- by apply (tm_bounds _ _ Ht).
        -- by apply fewer_wait.
        -- by eapply pages_other.
        -- pose proof (fun p Hp => pf_orders _ _ _ _ _ _ (po_facts _ _ _ _ _ H6 (fo_key f) p
             (known_previous _ _ _ _ i f Hf Hp eq_refl))) as Hord.
           destruct Hfo. split; try done; simpl. intros k' o' p [= <- <-] Hp.
           specialize (Hord p Hp). unfold o. lia.
      * exists revision. split; [done|]. eapply pulled_wait; [| |by apply fewer_wait| |done].
        -- simpl. rewrite (tm_order _ _ Ht). fold o. rewrite dget_dupd, decide_True, dget_dset_eq by done.
           done.
        -- done.
        -- intros k p. apply Ht.
Qed.

Lemma leave_counted k o r : counted r -> counted (leave_read k o r).
Proof. intros []. unfold leave_read. destruct (dget _ o); [|done]. by destruct (_ =? 0). Qed.

Lemma leave_pages k o r : fr_pages (leave_read k o r) = fr_pages r.
Proof. unfold leave_read. destruct (dget _ o); [|done]. by destruct (_ =? 0). Qed.

Lemma leave_bounds k o r : over_bounds (leave_read k o r) = over_bounds r.
Proof. unfold leave_read. destruct (dget _ o); [|done]. by destruct (_ =? 0). Qed.

(** What the end of a shared read makes of a follower that waits for it. *)
Inductive answered (s : FollowWorld) (i : nat) (f : Follower) (k : ReadKey) (o : Z)
    (outcome : res trace_exn FollowPage) (s' : FollowWorld) : Prop :=
| answered_page fp ms f' r' :
    outcome = Ok fp -> received s f (rk_revision k) fp (leave_read k o (fw_reads s)) ms f' r' ->
    s' = put_follower i f' (set_reads r' s) -> answered s i f k o outcome s'
| answered_error e :
    outcome = Raise e -> (forall t, ~ stored (fw_world s) (fo_key f) t) ->
    s' = end_follower i f (Some e) (set_reads (leave_read k o (fw_reads s)) s) ->
    answered s i f k o outcome s'.

Lemma answer_ok rd s i f k o sh outcome s' :
  follow_ok rd s -> 0 <= poll -> dget (fw_followers s) i = Some f -> fo_status f = Reading k o ->
  dget (fr_shared (fw_reads s)) o = Some sh -> sh_outcome sh = Some outcome ->
  receive st i f (rk_revision k) outcome (set_reads (leave_read k o (fw_reads s)) s) = s' ->
  follow_ok rd s' /\ answered s i f k o outcome s'.
Proof.
  intros Hok Hpoll Hf Est Hsh Eo Hs'. pose proof Hok as [H1 H2 H3 H4 H5 H6 H7].
  destruct (hs_reader _ _ _ H4 _ _ _ _ Hf Est) as (Hk & Ha & sh' & Hsh' & Hreq).
  assert (sh' = sh) as -> by congruence.
  assert (is_live f = true) as Hlive by (unfold is_live; by rewrite Est).
  pose proof (leave_counted k o _ H2) as Hlc. pose proof H3 as Hlo.
  rewrite <-(leave_bounds k o) in Hlo. destruct outcome as [fp|e].
  - destruct (po_answer _ _ _ _ _ H6 _ _ _ Hsh Eo) as [Hserve Hord].
    rewrite Hreq in Hserve. simpl in Hserve. rewrite Ha in Hserve.
    assert (known (fw_reads s) (fw_followers s) (fo_key f) fp) as Hkn.
    { eapply known_shared; [done|done|]. by rewrite Hreq. }
    destruct (receive_ok rd s i f (rk_revision k) fp fp (leave_read k o (fw_reads s)))
      as (ms & f' & r' & Hrc & E1 & Hok'); try done.
    + apply fewer_leave.
    + intros f' Hf'. by eapply shares_leave.
    + by left.
    + intros p Hp. eapply (po_before _ _ _ _ _ H6); [by eapply known_previous|exact Hkn|].
      rewrite Hord. by eapply (fk_reading _ _ _ _ (H7 _ _ Hf)).
    + rewrite E1 in Hs'. subst s'. split; [done|]. by eapply answered_page.
  - destruct (po_error _ _ _ _ _ H6 _ _ _ Hsh Eo) as [-> Hno]. rewrite Hreq in Hno. simpl in Hno.
    rewrite Hk in Hno. subst s'. split; [|by eapply answered_error].
    apply (end_ok rd s i f (set_status (Ended (Some TraceThreadNotFound)) f)
             (leave_read k o (fw_reads s))); try done.
    + apply fewer_leave.
    + by eapply shares_leave.
    + destruct (H7 _ _ Hf). split; try done. simpl. intros e [= <-]. done.
Qed.

(** The consumer closes a follower, or its task is cancelled. *)
Lemma leave_ended rd w now f :
  follower_ok rd w now f -> follower_ok rd w now (set_status (Ended None) f).
Proof. intros H. by apply status_ok. Qed.

Lemma close_reading_ok rd s i f k o :
  follow_ok rd s -> dget (fw_followers s) i = Some f -> fo_status f = Reading k o ->
  follow_ok rd (end_follower i f None (set_reads (leave_read k o (fw_reads s)) s)).
Proof.
  intros Hok Hf Est. pose proof Hok as [H1 H2 H3 H4 H5 H6 H7].
  apply (end_ok rd s i f (set_status (Ended None) f) (leave_read k o (fw_reads s))); try done.
  - unfold is_live. by rewrite Est.
  - by apply leave_counted.
  - by rewrite leave_bounds.
  - apply fewer_leave.
  - by eapply shares_leave.
  - by apply leave_ended, (H7 i).
Qed.

Lemma close_idle_ok rd s i f :
  follow_ok rd s -> dget (fw_followers s) i = Some f -> is_reading f = false ->
  is_live f = true -> follow_ok rd (end_follower i f None s).
Proof.
  intros Hok Hf Hnr Hlive. pose proof Hok as [H1 H2 H3 H4 H5 H6 H7].
  rewrite <-(set_reads_same s) at 1.
  apply (end_ok rd s i f (set_status (Ended None) f) (fw_reads s)); try done.
  - by apply fewer_trimmed.
  - apply shares_put; [done| |done]. intros f0 Hf0. congruence.
  - by apply leave_ended, (H7 i).
Qed.

(** *** Shared reads run *)

Lemma follower_ok_rd rd rd' w now f :
  (forall p, fo_previous_page f = Some p -> rd' (fp_read_order p) = rd (fp_read_order p)) ->
  follower_ok rd w now f -> follower_ok rd' w now f.
Proof.
  intros Hrd []. split; try done. destruct fk_times0 as (ns & Hs & Hm & Hns).
  exists ns. split; [done|]. split; [done|]. intros n (p & Hp & Hn)%Hns. exists p.
  split; [done|]. by rewrite Hrd.
Qed.

Lemma page_facts_rd rd rd' w now order key fp :
  rd' (fp_read_order fp) = rd (fp_read_order fp) ->
  page_facts rd w now order key fp -> page_facts rd' w now order key fp.
Proof. intros Hrd []. split; rewrite ?Hrd; done. Qed.

(** What a read that has run holds. *)
Definition read_done (s : FollowWorld) (sh : SharedRead) (outcome : res trace_exn FollowPage)
    : Prop :=
  match outcome with
  | Ok fp => exists t, stored (fw_world s) (pr_key (sh_request sh)) t /\
      cp_tail_seq (fp_page fp) = zlen (log t)
  | Raise _ => forall t, ~ stored (fw_world s) (pr_key (sh_request sh)) t
  end.

Lemma run_ok rd s o r' w' :
  follow_ok rd s -> run_read poll (fw_now s) o (fw_reads s) (fw_world s) = Some (r', w') ->
  (exists rd', follow_ok rd' (set_reads r' (set_world w' s))) /\
  client_calls l (fw_world s) w' /\ threads w' = threads (fw_world s) /\
  fr_pages r' = fr_pages (fw_reads s) /\
  exists sh outcome, dget (fr_shared (fw_reads s)) o = Some sh /\ sh_outcome sh = None /\
    read_done s sh outcome /\
    forall o', dget (fr_shared r') o' =
      if decide (o = o') then Some (set_outcome outcome sh)
      else dget (fr_shared (fw_reads s)) o'.
Proof.
  intros Hok. pose proof Hok as [H1 H2 H3 H4 H5 H6 H7]. unfold run_read.
  destruct (dget (fr_shared (fw_reads s)) o) as [[request [?|] n]|] eqn:Esh; try done.
  destruct (count_waiter (fw_followers s) o (hs_wf _ _ _ H4)) as (i & f & k & Hi & Est).
  { destruct (hs_count _ _ _ H4 _ _ Esh). lia. }
  destruct (hs_reader _ _ _ H4 _ _ _ _ Hi Est) as (Hk & Ha & sh' & Hsh' & Hreq).
  assert (sh_request sh' = request) as E0 by (rewrite Esh in Hsh'; by injection Hsh' as <-).
  rewrite E0 in Hreq. clear E0 Hsh' sh'.
  pose proof (fk_range _ _ _ _ (H7 _ _ Hi)) as Hrange.
  destruct (read_page poll (fw_now s) request o (fw_reads s) (fw_world s)) as [[outcome r] w1] eqn:Er.
  intros [= <- <-]. rewrite Hreq in Er.
  apply (read_page_spec l Hl) in Er as (Hc & Hthr & Hrd & Hout); [|done|lia].
  split; [|split; [done|split; [done|split; [by destruct outcome as [fp|e]; destruct Hout as [-> _]|]]]].
  2: { eexists _, outcome. split; [done|]. split; [done|]. split.
       - simpl. rewrite Hreq. simpl. by destruct outcome; naive_solver.
       - intros o'. simpl. rewrite dget_dupd.
         assert (fr_shared r = fr_shared (fw_reads s)) as ->
           by (by destruct outcome as [fp|e]; destruct Hout as [-> _]).
         case_decide; [subst; by rewrite Esh|done]. }
  set (r' := set_shared _ r).
  assert (fr_pages r' = fr_pages (fw_reads s) /\ fr_read_order (fw_reads s) <= fr_read_order r' /\
          counted r' /\ over_bounds r' = over_bounds (fw_reads s) /\
          shares (follow_batch_size l) r' (fw_followers s)) as (Epages & Horder & Hc' & Ho' & Hs').
  { unfold r'. destruct H2, outcome as [fp|e]; destruct Hout as [-> Hout];
      (split; [done|]); (split; [simpl; lia|]); (split; [by split|]); (split; [done|]).
    - apply (shares_outcome _ (fw_reads s)); [simpl; lia|done].
    - apply (shares_outcome _ (fw_reads s)); [simpl; lia|done]. }
  assert (forall o' sh', dget (fr_shared r') o' = Some sh' ->
    o' = o /\ sh' = set_outcome outcome {| sh_request := request; sh_outcome := None; sh_waiters := n |} \/
    o' <> o /\ dget (fr_shared (fw_reads s)) o' = Some sh') as Hshared.
  { intros o' sh'. unfold r'. simpl. rewrite dget_dupd.
    assert (fr_shared r = fr_shared (fw_reads s)) as ->
      by (by destruct outcome as [fp|e]; destruct Hout as [-> _]).
    case_decide; [subst; rewrite Esh; intros [= <-]; by left|right; by split]. }
  assert (forall key fp, known r' (fw_followers s) key fp ->
    known (fw_reads s) (fw_followers s) key fp \/ outcome = Ok fp /\ key = rk_key k) as Hknown.
  { intros key fp [k' Hk' <-|o' sh' Ho'' Eo <-|j g Hj Ep <-].
    - left. rewrite Epages in Hk'. by eapply known_page.
    - destruct (Hshared _ _ Ho'') as [[-> ->]|[_ Hold]]; [|left; by eapply known_shared].
      right. simpl in *. split; [congruence|by rewrite Hreq].
    - left. by eapply known_previous. }
  set (rd' := fun o' => if o' =? o then readings (fw_world s) else rd o').
  assert (forall key fp, known (fw_reads s) (fw_followers s) key fp ->
    rd' (fp_read_order fp) = rd (fp_read_order fp)) as Hrd'.
  { intros key fp Hkn. unfold rd'. rewrite (proj2 (Z.eqb_neq _ _)); [done|].
    by eapply (po_undone _ _ _ _ _ H6). }
  exists rd'. split; simpl; try done.
  - by eapply client_reachable_calls.
  - by rewrite Ho'.
  - assert (forall fp, outcome = Ok fp -> page_facts rd' w1 (fw_now s) (fr_read_order r') (rk_key k) fp /\
      rd' (fp_read_order fp) = readings (fw_world s) /\ fp_read_order fp = o /\
      fp_completed_order fp = fr_read_order (fw_reads s) + 1) as Hnew.
    { intros fp ->. destruct Hout as (E1 & Hgood & _ & _ & Hobs & Hlt & Hexp & Eo & Eco).
      assert (rd' (fp_read_order fp) = readings (fw_world s)) as Erd
        by (unfold rd'; by rewrite Eo, Z.eqb_refl).
      pose proof (hs_order _ _ _ H4 _ _ Esh) as Hoo.
      assert (drawn_before (rk_key k) (fw_world s)) as Hdr by (rewrite Hk; by apply (H7 i)).
      split; [|done]. split; rewrite ?Erd; try done.
      - by eapply drawn_later.
      - by eapply page_good_later.
      - unfold r'. rewrite E1. simpl. lia. }
    split.
    + intros key fp [Hkn|[E1 ->]]%Hknown; [|by apply Hnew].
      eapply page_facts_rd; [by eapply Hrd'|].
      apply (page_facts_later rd (fw_world s) w1 (fw_now s) (fw_now s)
        (fr_read_order (fw_reads s))); [done..|lia|done|by apply H6].
    + intros k1 p k2 q [Hp|[E1 ->]]%Hknown [Hq|[E2 ->]]%Hknown Hle.
      * rewrite (Hrd' _ _ Hp), (Hrd' _ _ Hq). by eapply (po_before _ _ _ _ _ H6).
      * destruct (Hnew _ E2) as (_ & -> & _). rewrite (Hrd' _ _ Hp).
        pose proof (pf_reading _ _ _ _ _ _ (po_facts _ _ _ _ _ H6 _ _ Hp)). lia.
      * destruct (Hnew _ E1) as (_ & _ & _ & Eco).
        pose proof (pf_orders _ _ _ _ _ _ (po_facts _ _ _ _ _ H6 _ _ Hq)). lia.
      * assert (p = q) as -> by congruence. done.
    + intros o' sh' key fp Hsh' Eo. destruct (Hshared _ _ Hsh') as [[-> ->]|[Hne Hold]]; [done|].
      intros [Hkn|[E1 ->]]%Hknown; [by eapply (po_undone _ _ _ _ _ H6)|].
      destruct (Hnew _ E1) as (_ & _ & -> & _). done.
    + intros o' sh' fp Hsh' Eo. destruct (Hshared _ _ Hsh') as [[-> ->]|[Hne Hold]];
        [|by eapply (po_answer _ _ _ _ _ H6)].
      simpl in *. injection Eo as ->. split; [|by apply (Hnew fp eq_refl)]. rewrite Hreq. by apply Hout.
    + intros o' sh' e Hsh' Eo. destruct (Hshared _ _ Hsh') as [[-> ->]|[Hne Hold]].
      * simpl in *. injection Eo as ->. destruct Hout as (_ & -> & Hno). split; [done|].
        rewrite Hreq. intros t [Ht Hkt]. rewrite Hthr in Ht. by apply (Hno t).
      * destruct (po_error _ _ _ _ _ H6 _ _ _ Hold Eo) as [-> Hno]. split; [done|].
        intros t [Ht Hkt]. rewrite Hthr in Ht. by apply (Hno t).
  - intros j g Hj. eapply (follower_ok_rd rd).
    + intros p Hp. eapply Hrd', known_previous; [done|done|done].
    + eapply (follower_ok_later rd (fw_world s) w1 (fw_now s)); [done..|lia|by eapply H7].
Qed.

(** *** Followers come and changes go *)

Lemma trim_ok rd s r' changes :
  follow_ok rd s -> trimmed (fw_reads s) r' -> changes_ok changes (fw_followers s) ->
  follow_ok rd (set_reads r' (set_changes changes s)).
Proof.
  intros [H1 H2 H3 H4 H5 H6 H7] Ht Hch. split; simpl; try done.
  - by apply Ht.
  - by apply (tm_bounds _ _ Ht).
  - by eapply shares_trimmed.
  - eapply pages_from; [exact H6|by apply fewer_trimmed|]. intros key fp. apply known_less.
    by apply fewer_trimmed.
Qed.

Lemma wake_ok rd s key : follow_ok rd s -> follow_ok rd (wake_followers key s).
Proof.
  intros Hok. apply (trim_ok rd s); [done|apply discard_trimmed|]. by apply changes_wake, (fo_changes _ _ Hok).
Qed.

Lemma close_ok rd s key c :
  follow_ok rd s -> dget (fw_changes s) key = Some c -> fc_closing c = true ->
  follow_ok rd (close_follow_change key s).
Proof.
  intros Hok Hc Hcl. apply (trim_ok rd s); [done|apply discard_trimmed|].
  by apply (changes_close _ _ key c (fo_changes _ _ Hok)).
Qed.

Lemma join_ok rd s i key after s' :
  follow_ok rd s -> drawn_before key (fw_world s) -> join i key after s = Some s' ->
  follow_ok rd s'.
Proof.
  intros [H1 H2 H3 H4 H5 H6 H7] Hd. unfold join.
  destruct (dmem (fw_followers s) i || (after <? 0) || _) eqn:E; [done|].
  apply orb_false_iff in E as [[Hno%dmem_false Ha%Z.ltb_ge]%orb_false_iff Hcl]. intros [= <-].
  match goal with |- follow_ok _ (put_follower i ?f _) => set (new := f) end.
  split; simpl; try done.
  - apply shares_put; [done| |done]. intros f0. by rewrite Hno.
  - by apply (changes_join _ _ i new H5 (hs_wf _ _ _ H4)).
  - eapply pages_put; [exact H6|by apply fewer_trimmed|done].
  - intros j g. rewrite dget_dset. case_decide; [|apply H7]. intros [= <-].
    split; simpl; try done; try lia.
    + unfold handed, zlen. simpl. lia.
    + exists []. split; [constructor|]. split; [done|]. by intros n ?%elem_of_nil.
Qed.

Lemma remove_one_elem key key' owed : key' ∈ remove_one key owed -> key' ∈ owed.
Proof.
  induction owed as [|k owed IH]; simpl; [done|]. case_decide.
  - intros Hin. by right.
  - intros [->|Hin]%elem_of_cons; [by left|right; by apply IH].
Qed.

Lemma owed_ok rd s owed : follow_ok rd s -> follow_ok rd (set_owed owed s).
Proof. by intros []. Qed.

Lemma follow_commit_ok rd s change :
  follow_ok rd s -> client_change change -> ch_limits change = l ->
  follow_ok rd (commit change s).
Proof.
  intros Hok Hcl Hlim. unfold commit.
  destruct (apply_ledger_change change (fw_world s)) as [r w] eqn:Ea.
  assert (follow_ok rd (set_world w s)) as Hw.
  { pose proof (fo_reach _ _ Hok) as Hr. pose proof (world_ok rd s w (fw_now s) Hok) as H.
    apply H; [|lia]. rewrite apply_is_commit with (l := l) in Ea; [|by apply (reachable_system l Hl), client_reachable_reachable|done].
    by eapply rtc_once, call_commit. }
  destruct r as [result|e]; [|done]. destruct (re_key result) as [key|]; [|done].
  destruct (tells_followers _); [by apply owed_ok|done].
Qed.

(** ** Histories *)

Lemma step_ok rd s action s' :
  0 <= poll -> follow_ok rd s -> admissible l action s ->
  perform st poll action s = Some s' -> exists rd', follow_ok rd' s'.
Proof.
  intros Hpoll Hok Hadm. unfold perform, step_follower.
  assert (forall i f s', dget (fw_followers s) i = Some f -> forall a,
    advance st a i f s = Some s' -> follow_ok rd s') as Hadv.
  { intros i f s1 Hf a. unfold advance.
    pose proof (fun fp => previous_expires rd s i f fp Hok Hf) as Hexp.
    destruct (a i); try done; destruct (fo_status f) as [|k o|ev rev|rev dl|out] eqn:Est; try done.
    - intros Hp. by apply (pull_ok rd s i f s1) in Hp as [? _].
    - destruct (dget (fr_shared (fw_reads s)) o) as [[req [outcome|] n]|] eqn:Esh; try done.
      intros Hr. apply Some_inj in Hr. by eapply (answer_ok rd s i f k o).
    - intros [= <-]. assert (settled_status (fw_now s) (if ev then AtTop else settle rev f s) /\
        (if ev then AtTop else settle rev f s) <> Ended None) as [Hs Hne].
      { destruct ev; [done|]. by apply settle_keeps. }
      apply (idle_ok rd s i f); try done; [unfold is_reading|unfold is_live]; by rewrite Est.
    - destruct (_ || _); [|done]. intros [= <-].
      apply (idle_ok rd s i f); try done; [unfold is_reading|unfold is_live]; by rewrite Est.
    - intros [= <-]. apply close_idle_ok; try done; [unfold is_reading|unfold is_live]; by rewrite Est.
    - intros [= <-]. by apply close_reading_ok.
    - intros [= <-]. apply close_idle_ok; try done; [unfold is_reading|unfold is_live]; by rewrite Est.
    - intros [= <-]. apply close_idle_ok; try done; [unfold is_reading|unfold is_live]; by rewrite Est. }
  destruct action as [i key after|i|o|i|i|i|i|key|change|key|d]; simpl in Hadm.
  - intros Hj. exists rd. by eapply join_ok.
  - destruct (dget _ i) as [f|] eqn:Hf; [|done]. intros H. exists rd. by eapply Hadv.
  - destruct (run_read _ _ _ _ _) as [[r w]|] eqn:Er; [|done]. intros [= <-].
    by apply (run_ok rd) in Er as [? _].
  - destruct (dget _ i) as [f|] eqn:Hf; [|done]. intros H. exists rd. by eapply Hadv.
  - destruct (dget _ i) as [f|] eqn:Hf; [|done]. intros H. exists rd. by eapply Hadv.
  - destruct (dget _ i) as [f|] eqn:Hf; [|done]. intros H. exists rd. by eapply Hadv.
  - destruct (dget _ i) as [f|] eqn:Hf; [|done]. intros H. exists rd. by eapply Hadv.
  - destruct (dget (fw_changes s) key) as [c|] eqn:Hc; [|done].
    destruct (fc_closing c) eqn:Ecl; [|done]. intros [= <-]. exists rd. by eapply close_ok.
  - intros Hs'%Some_inj. subst s'. exists rd. destruct Hadm. by apply follow_commit_ok.
  - unfold notify. case_decide; [|done]. intros [= <-]. exists rd.
    destruct (dmem _ _); [apply wake_ok|]; by apply owed_ok.
  - destruct (Z.ltb_spec d 0); [done|]. intros [= <-]. exists rd.
    assert (follow_ok rd (set_now (fw_now s + d) (set_world (fw_world s) s))) as H'; [|by destruct s].
    apply world_ok; [done|apply rtc_refl|lia].
Qed.

Lemma start_ok rd w now : client_reachable l w -> follow_ok rd (follow_start w now).
Proof.
  intros Hr. split; simpl; try done.
  - split; [constructor|done|done].
  - split; try done. constructor.
  - split; try done; intros *; intros [? ?|? ? ?|? ? ?]; done.
Qed.

(** Whatever the others do, as long as they are clients of the same ledger. *)
Lemma reachable_ok permits others s :
  0 <= poll -> (forall w w', others w w' -> client_calls l w w') ->
  follow_reachable l st poll permits others s -> exists rd, follow_ok rd s.
Proof.
  intros Hpoll Hothers (w & now & Hr & Hsteps).
  assert (exists rd, follow_ok rd (follow_start w now)) as Hok
    by (exists (fun _ => O); by apply start_ok).
  induction Hsteps as [s|s1 s2 s3 [action Hadm _ Hp|w1 Ho ->] _ IH]; [done| |]; apply IH;
    destruct Hok as [rd Hok].
  - by eapply step_ok.
  - exists rd. assert (follow_ok rd (set_now (fw_now s1) (set_world w1 s1))) as H'; [|by destruct s1].
    apply world_ok; [done|by apply Hothers|lia].
Qed.
End invariant.
