(* ===== verification/TraceFollowProps.v ===== *)
(** Tracing: the theorems on the followers of a store. *)
From S2P Require Import Prelude PyDict PySeq Contracts TraceModels TraceGraph TraceGraphFacts.
From S2P Require Import TraceLedger TraceMemory TraceSteps TraceFacts TraceInvariant TraceSystem.
From S2P Require Import TraceHistory TraceFinal TraceExample TraceStore TraceEvidence.
From S2P Require Import TraceStoreFacts TraceRebuild TraceStoreProps TraceFollowReads.
From S2P Require Import TraceFollow TraceFollowFacts TraceFollowInvariant.
From Stdlib Require Import Sorting.Sorted.

Section followers.
Context {hash : ScopeHash} {json : TraceJson} {laws : TraceJsonLaws} {clock : TraceClock}.
Context {codec : TraceCodec} {codec_laws : TraceCodecLaws} {fresh : FreshUuids}.
Context (l : TraceLimits) (Hl : TraceLimits_valid l = true).
Context (st : DurableTraceStore) (Hst : so_limits st = l).
Context (poll : Z) (Hpoll : 0 <= poll).
Context (others : World -> World -> Prop).
Context (Hothers : forall w w', others w w' -> client_calls l w w').

(** ** What commits tell *)

(** A commit that changes a log, or removes it, tells its followers. *)
Lemma commit_told w change result w' key t :
  system_ok l w -> apply_ledger_change change w = (Ok result, w') -> stored w key t ->
  (exists t', stored w' key t' /\ log t' = log t) \/
  re_key result = Some key /\ tells_followers (re_kind result) = true.
Proof.
  intros Hs Ha Hst'. unfold apply_ledger_change, bind, raise_if, lift, raise, ret in Ha.
  destruct (commit_ledger_change change w) as [[res|e] w1] eqn:Ec; [|done].
  destruct (negb (bool_decide (re_kind res = ch_kind change))) eqn:Ek; [done|].
  apply negb_false_iff, bool_decide_eq_true in Ek.
  destruct (validate_commit_result change res) as [[]|e] eqn:Ev; [|done]. injection Ha as <- <-.
  assert (ch_kind change <> OpenWriter -> re_key res = ch_key change) as Hkey.
  { intros Hne. unfold validate_commit_result in Ev. rewrite decide_False in Ev by done.
    apply rbind_ok in Ev as ([] & Ev & _). by apply rraise_if_ok, negb_false_iff, bool_decide_eq_true in Ev. }
  apply commit_steps in Ec. destruct (target change) as [[tid run]|]; [|subst w1; left; by exists t].
  destruct Hst' as [Hget Hth]. destruct Ec as [[E1|(o' & Hstep & E1)] _].
  { left. exists t. split; [split; [by rewrite E1|done]|done]. }
  set (slot := (ch_namespace change, tid)) in *. clearbody slot.
  destruct (decide (slot = thread_key key)) as [->|Hne].
  2: { left. exists t. split; [|done]. split; [|done]. rewrite E1. unfold put_slot.
       destruct o'; [by rewrite dget_dset_ne|by rewrite dget_ddel_ne]. }
  rewrite Hget in Hstep.
  assert (forall t', o' = Some t' -> log t' = log t -> th_key (mt_state t') = th_key (mt_state t) ->
    exists t', stored w1 key t' /\ log t' = log t) as Hsame.
  { intros t' -> Elog Eth. exists t'. split; [|done]. split; [by rewrite E1; simpl; rewrite dget_dset_eq|].
    congruence. }
  inversion Hstep; subst; try (left; by eapply Hsame).
  - right. rewrite Hkey, Ek by congruence. split; [congruence|].
    by match goal with H : ch_kind change = _ |- _ => rewrite H end.
  - destruct (_ && _); [|left; by eapply Hsame]. right. rewrite Hkey, Ek by congruence.
    split; [congruence|]. by match goal with H : ch_kind change = _ |- _ => rewrite H end.
  - right. rewrite Hkey, Ek by congruence. split; [congruence|].
    by match goal with H : ch_kind change = _ |- _ => rewrite H end.
Qed.

(** ** A follower that is behind *)

Lemma performs_app xs ys s s1 :
  performs st poll xs s = Some s1 -> performs st poll (xs ++ ys) s = performs st poll ys s1.
Proof.
  revert s. induction xs as [|x xs IH]; intros s; simpl; [by intros [= ->]|].
  destruct (perform st poll x s) as [s2|]; [|done]. apply IH.
Qed.

(** The steps that follower [i] can take by itself, the reads it waits for among them. *)
Definition own_step (i : nat) (action : FollowAction) : bool :=
  match action with
  | Pull j | Receive j | Resume j | Wake j => bool_decide (i = j)
  | RunRead _ => true
  | _ => false
  end.

(** It gets further. *)
Definition advances (i : nat) (cursor : Z) (s : FollowWorld) : Prop :=
  exists actions s' f', forallb (own_step i) actions = true /\
    performs st poll actions s = Some s' /\ dget (fw_followers s') i = Some f' /\
    cursor < fo_cursor f'.

Lemma advances_step i cursor action s s' :
  own_step i action = true -> perform st poll action s = Some s' -> advances i cursor s' ->
  advances i cursor s.
Proof.
  intros Ho Hp (actions & s2 & f2 & H1 & H2 & H3). exists (action :: actions), s2, f2.
  simpl. by rewrite Ho, Hp.
Qed.

(** A page with events moves the cursor. *)
Lemma received_advances s i f revision fp r ms f' r' s' :
  received s f revision fp r ms f' r' -> dget (fw_followers s') i = Some f' -> ms <> [] ->
  advances i (fo_cursor f) s'.
Proof.
  intros [Hev -> _ _ _] Hf' Hms. eexists [], s', _. split; [done|]. split; [done|].
  split; [exact Hf'|]. cbn [set_status fo_cursor]. rewrite (turn_cursor _ _ _ _ Hev).
  destruct ms as [|m ms]; [done|]. rewrite zlen_cons. pose proof (zlen_nonneg ms). lia.
Qed.

(** A follower that waits for a read that has still to run. *)
Lemma undone_advances rd s i f k o sh t :
  follow_ok l poll rd s -> dget (fw_followers s) i = Some f -> fo_status f = Reading k o ->
  dget (fr_shared (fw_reads s)) o = Some sh -> sh_outcome sh = None ->
  stored (fw_world s) (fo_key f) t -> fo_cursor f < zlen (log t) ->
  advances i (fo_cursor f) s.
Proof.
  intros Hok Hf Est Hsh Eo Hst' Hlt.
  destruct (run_read poll (fw_now s) o (fw_reads s) (fw_world s)) as [[r w]|] eqn:Er.
  2: { unfold run_read in Er. rewrite Hsh in Er. destruct sh as [req out n]. simpl in Eo. subst out.
       by destruct (read_page _ _ _ _ _ _) as [[? ?] ?]. }
  destruct (run_ok l Hl poll rd s o r w Hok Er)
    as ((rd' & Hok') & _ & Hthr & _ & sh0 & outcome & Hsh0 & _ & Hdone & Hall).
  assert (sh0 = sh) as -> by congruence.
  eapply (advances_step i _ (RunRead o)); [done|simpl; by rewrite Er|].
  set (s1 := set_reads r (set_world w s)) in *.
  assert (dget (fr_shared (fw_reads s1)) o = Some (set_outcome outcome sh)) as Hsh1
    by (simpl; by rewrite Hall, decide_True).
  destruct (hs_reader _ _ _ (fo_shares _ _ _ _ Hok) _ _ _ _ Hf Est) as (Hk & _ & sh' & Hsh' & Hreq).
  assert (sh' = sh) as -> by congruence.
  assert (stored (fw_world s1) (fo_key f) t) as Hst1.
  { destruct Hst'. split; [|done]. simpl. by rewrite Hthr. }
  set (s2 := receive st i f (rk_revision k) outcome (set_reads (leave_read k o (fw_reads s1)) s1)).
  destruct (answer_ok l poll st Hst rd' s1 i f k o (set_outcome outcome sh) outcome s2)
    as [_ Hans]; try done.
  eapply (advances_step i _ (Receive i)); [by apply bool_decide_eq_true| |].
  { unfold perform, step_follower. simpl. rewrite Hf. unfold advance. rewrite Est.
    change (fr_shared r) with (fr_shared (fw_reads s1)). rewrite Hsh1. done. }
  fold s1. fold s2. unfold read_done in Hdone. rewrite Hreq in Hdone. simpl in Hdone. rewrite Hk in Hdone.
  destruct Hans as [fp ms f' r' -> Hrc E2|e -> Hno _]; [|by destruct (Hno t)].
  destruct Hdone as (t0 & Ht0 & Htail). assert (t0 = t) as ->.
  { destruct Ht0 as [H1 _], Hst' as [H2 _]. congruence. }
  eapply received_advances; [exact Hrc|rewrite E2; simpl; apply dget_dset_eq|].
  intros ->. pose proof (rc_empty _ _ _ _ _ _ _ _ Hrc eq_refl). lia.
Qed.

(** A follower at the top of its loop, when the cache has expired. *)
Lemma top_advances rd s i f t :
  follow_ok l poll rd s -> dget (fw_followers s) i = Some f -> fo_status f = AtTop ->
  (forall k fp, dget (fr_pages (fw_reads s)) k = Some fp -> fp_expires_at fp <= fw_now s) ->
  stored (fw_world s) (fo_key f) t -> fo_cursor f < zlen (log t) ->
  advances i (fo_cursor f) s.
Proof.
  intros Hok Hf Est Hexp Hst' Hlt.
  destruct (pull st i f s) as [s1|] eqn:Ep.
  2: { exfalso. destruct (hc_live _ _ (fo_changes _ _ _ _ Hok) i f Hf) as [c Hc].
       { unfold is_live. by rewrite Est. }
       unfold pull, revision_of in Ep. rewrite Hc in Ep. simpl in Ep.
       by destruct (begin_read _ _ _ _ _) as [[?|?] ?]. }
  destruct (pull_ok l Hl poll st Hst rd s i f s1 Hok Hpoll Hf Est Ep) as (Hok1 & revision & Hrev & Hpull).
  eapply (advances_step i _ (Pull i)); [by apply bool_decide_eq_true| |].
  { unfold perform, step_follower. rewrite Hf. unfold advance. by rewrite Est, Ep. }
  destruct Hpull as [k fp0 fp r ms f' r' Hk _ _ Hnow|o r' sh Hsh Eo _ _ ->].
  { specialize (Hexp _ _ Hk). lia. }
  set (f1 := wait_on (read_key (follow_request st f) revision) o f).
  change (fo_cursor f) with (fo_cursor f1).
  eapply (undone_advances rd _ i f1); [exact Hok1|simpl; apply dget_dset_eq|done|exact Hsh|done
    |exact Hst'|done].
Qed.

(** A follower that is anywhere in its code, when all pages have expired. *)
Lemma live_advances rd s i f t :
  follow_ok l poll rd s -> dget (fw_followers s) i = Some f -> is_live f = true ->
  (forall key fp, known (fw_reads s) (fw_followers s) key fp -> fp_expires_at fp <= fw_now s) ->
  (forall revision deadline, fo_status f = Waiting revision deadline -> deadline <= fw_now s) ->
  stored (fw_world s) (fo_key f) t -> fo_cursor f < zlen (log t) ->
  advances i (fo_cursor f) s.
Proof.
  intros Hok Hf Hlive Hexp Hdead Hst' Hlt.
  assert (forall s1 f1, follow_ok l poll rd s1 -> dget (fw_followers s1) i = Some f1 ->
    fo_status f1 = AtTop -> fo_key f1 = fo_key f -> fo_cursor f1 = fo_cursor f ->
    fw_world s1 = fw_world s -> fw_now s1 = fw_now s ->
    (forall k fp, dget (fr_pages (fw_reads s1)) k = Some fp -> fp_expires_at fp <= fw_now s) ->
    advances i (fo_cursor f) s1) as Htop.
  { intros s1 f1 Hok1 Hf1 Est1 Ek Ec Ew En Hp. rewrite <-Ec.
    eapply (top_advances rd); [done|done|done|by rewrite En|by rewrite Ew, Ek|by rewrite Ec]. }
  assert (forall k fp, dget (fr_pages (fw_reads s)) k = Some fp -> fp_expires_at fp <= fw_now s)
    as Hpages by (intros k fp Hk; by eapply Hexp, known_page).
  assert (forall g revision s1, fw_now s1 = fw_now s ->
    (forall fp, fo_previous_page g = Some fp -> fp_expires_at fp <= fw_now s) ->
    settle revision g s1 = AtTop) as Hsettle.
  { intros g revision s1 En Hp. unfold settle. destruct (negb _); [done|].
    destruct (fo_previous_page g) as [fp|]; [|done]. specialize (Hp _ eq_refl). unfold remaining.
    rewrite En. by rewrite (proj2 (Z.leb_le (Z.max 0 (fp_expires_at fp - fw_now s)) 0)) by lia. }
  assert (own_step i (Resume i) = true /\ own_step i (Wake i) = true /\
          own_step i (Receive i) = true) as (Ores & Owake & Orec) by 
    by (unfold own_step; by rewrite bool_decide_true).
  assert (forall s1 g ev rev, follow_ok l poll rd s1 -> dget (fw_followers s1) i = Some g ->
    fo_status g = AtYield ev rev -> fo_key g = fo_key f -> fo_cursor g = fo_cursor f ->
    fw_world s1 = fw_world s -> fw_now s1 = fw_now s ->
    (forall k fp, dget (fr_pages (fw_reads s1)) k = Some fp -> fp_expires_at fp <= fw_now s) ->
    (forall fp, fo_previous_page g = Some fp -> fp_expires_at fp <= fw_now s) ->
    advances i (fo_cursor f) s1) as Hyield.
  { intros s1 g ev rev Hok1 Hg Eg Ek Ec Ew En Hp Hprev.
    assert ((if ev then AtTop else settle rev g s1) = AtTop) as Eset
      by (destruct ev; [done|by apply Hsettle]).
    eapply (advances_step i _ (Resume i)); [done| |].
    { unfold perform, step_follower. rewrite Hg. unfold advance. rewrite Eg. done. }
    rewrite Eset. eapply (Htop _ (set_status AtTop g)); try done; try (simpl; apply dget_dset_eq).
    apply idle_ok; try done; [unfold is_reading|unfold is_live]; by rewrite Eg. }
  destruct (fo_status f) as [|k o|ev rev|rev dl|out] eqn:Est.
  - by eapply Htop.
  - destruct (hs_reader _ _ _ (fo_shares _ _ _ _ Hok) _ _ _ _ Hf Est) as (Hk & _ & sh & Hsh & Hreq).
    destruct (sh_outcome sh) as [outcome|] eqn:Eo; [|by eapply undone_advances].
    set (s2 := receive st i f (rk_revision k) outcome (set_reads (leave_read k o (fw_reads s)) s)).
    destruct (answer_ok l poll st Hst rd s i f k o sh outcome s2) as [Hok2 Hans]; try done.
    eapply (advances_step i _ (Receive i) s s2); [done| |].
    { unfold perform, step_follower. rewrite Hf. unfold advance. rewrite Est, Hsh.
      destruct sh as [req out n]. simpl in Eo. by subst out. }
    destruct Hans as [fp ms f' r' -> Hrc E2|e -> Hno _]; [|by destruct (Hno t)].
    assert (fp_expires_at fp <= fw_now s) as Hfp.
    { eapply Hexp, known_shared; [exact Hsh|exact Eo|done]. }
    assert (dget (fw_followers s2) i = Some f') as Hf2 by (rewrite E2; simpl; apply dget_dset_eq).
    assert (forall k fp, dget (fr_pages (fw_reads s2)) k = Some fp -> fp_expires_at fp <= fw_now s)
      as Hpages2.
    { intros k' p. rewrite E2. simpl. intros [Hp|(-> & _)]%(rc_pages _ _ _ _ _ _ _ _ Hrc); [|done].
      rewrite leave_pages in Hp. by eapply Hpages. }
    destruct (decide (ms = [])) as [->|Hms]; [|by eapply received_advances].
    destruct Hrc as [Hev Ef' _ _ _]. pose proof (turn_cursor _ _ _ _ Hev) as Hcur.
    set (g := (turn_page fp (batch_of []) f).1) in *.
    assert (forall fp', fo_previous_page g = Some fp' -> fp_expires_at fp' <= fw_now s) as Hprev
      by (by intros fp' [= <-]).
    assert (fo_cursor f' = fo_cursor f) as Ec
      by (subst f'; cbn [set_status fo_cursor]; rewrite Hcur; unfold zlen; simpl; lia).
    destruct (turn_page fp (batch_of []) f).2.
    + eapply (Hyield s2 f'); try done; subst f'; rewrite ?E2; done.
    + eapply (Htop s2 f'); try done; subst f'; rewrite ?E2; try done. simpl. by apply Hsettle.
  - eapply Hyield; try done. intros fp Hp. by eapply Hexp, known_previous.
  - eapply (advances_step i _ (Wake i)); [done| |].
    { unfold perform, step_follower. rewrite Hf. unfold advance. rewrite Est.
      by rewrite (proj2 (Z.leb_le dl (fw_now s)) (Hdead _ _ eq_refl)), orb_true_r. }
    eapply (Htop _ (set_status AtTop f)); try done; try (simpl; apply dget_dset_eq).
    apply idle_ok; try done. unfold is_reading. by rewrite Est.
  - unfold is_live in Hlive. by rewrite Est in Hlive.
Qed.

(** ** Nothing is missed while waiting *)

(** The logs are what they were. *)
Definition logs_kept (w w' : World) : Prop :=
  forall key t, stored w key t -> exists t', stored w' key t' /\ log t' = log t.

(** A commit that raises has changed no log. *)
Definition whole (action : FollowAction) (s : FollowWorld) : Prop :=
  match action with
  | Commit change =>
      match apply_ledger_change change (fw_world s) with
      | (Raise _, w') => logs_kept (fw_world s) w'
      | _ => True
      end
  | _ => True
  end.

(** A page that ends where the log ends. *)
Definition current (w : World) (key : TraceThreadKey) (fp : FollowPage) : Prop :=
  exists t, stored w key t /\ cp_tail_seq (fp_page fp) = zlen (log t).

Definition caught_up (w : World) (f : Follower) : Prop :=
  exists t, stored w (fo_key f) t /\ zlen (log t) <= fo_cursor f.

(** A follower with nothing more to hand out, at this revision. *)
Definition idles_at (revision : Z) (status : FollowStatus) : Prop :=
  status = AtYield false revision \/ exists deadline, status = Waiting revision deadline.

Definition local_revision (status : FollowStatus) : option Z :=
  match status with
  | Reading k _ => Some (rk_revision k)
  | AtYield _ revision | Waiting revision _ => Some revision
  | _ => None
  end.

(** What holds at the current revision of a generation with no wake-up on its way. *)
Definition quiet_at (s : FollowWorld) (key : TraceThreadKey) (revision : Z) : Prop :=
  revision_of s key = Some revision /\ key ∉ fw_owed s.

Record current_ok (s : FollowWorld) : Prop := {
  cu_revision k fp : dget (fr_pages (fw_reads s)) k = Some fp ->
    revision_of s (rk_key k) = Some (rk_revision k);
  cu_pages k fp : dget (fr_pages (fw_reads s)) k = Some fp -> rk_key k ∉ fw_owed s ->
    current (fw_world s) (rk_key k) fp;
  cu_reading i f k o sh fp : dget (fw_followers s) i = Some f -> fo_status f = Reading k o ->
    dget (fr_shared (fw_reads s)) o = Some sh -> sh_outcome sh = Some (Ok fp) ->
    quiet_at s (fo_key f) (rk_revision k) -> current (fw_world s) (fo_key f) fp;
  cu_idle i f revision : dget (fw_followers s) i = Some f -> idles_at revision (fo_status f) ->
    quiet_at s (fo_key f) revision -> caught_up (fw_world s) f;
  cu_local i f revision : dget (fw_followers s) i = Some f ->
    local_revision (fo_status f) = Some revision ->
    exists now, revision_of s (fo_key f) = Some now /\ revision <= now
}.

Lemma current_kept w w' key fp : logs_kept w w' -> current w key fp -> current w' key fp.
Proof. intros Hk (t & Ht & E1). destruct (Hk _ _ Ht) as (t' & Ht' & E2). exists t'. by rewrite E2. Qed.

Lemma caught_up_kept w w' f : logs_kept w w' -> caught_up w f -> caught_up w' f.
Proof. intros Hk (t & Ht & E1). destruct (Hk _ _ Ht) as (t' & Ht' & E2). exists t'. by rewrite E2. Qed.

(** Someone changes the world, and what is owed. *)
Lemma current_world s w' owed :
  current_ok s -> (forall key, key ∉ owed -> key ∉ fw_owed s) ->
  (forall key t, key ∉ owed -> stored (fw_world s) key t ->
     exists t', stored w' key t' /\ log t' = log t) ->
  current_ok (set_owed owed (set_world w' s)).
Proof.
  intros [H1 H2 H3 H4 H5] Howed Hkept.
  assert (forall key fp, key ∉ owed -> current (fw_world s) key fp -> current w' key fp) as Hcur.
  { intros key fp Ho (t & Ht & E1). destruct (Hkept _ _ Ho Ht) as (t' & Ht' & E2). exists t'. by rewrite E2. }
  split; simpl; try done.
  - intros k fp Hk Ho. apply Hcur; [done|]. by eapply H2; [|apply Howed].
  - intros i f k o sh fp Hf Est Hsh Eo [Hr Ho]. apply Hcur; [done|].
    eapply H3; try done. split; [done|by apply Howed].
  - intros i f revision Hf Hid [Hr Ho]. destruct (H4 i f revision Hf Hid) as (t & Ht & E1).
    { split; [done|by apply Howed]. }
    destruct (Hkept _ _ Ho Ht) as (t' & Ht' & E2). exists t'. by rewrite E2.
Qed.

(** The shared reads hold no new page. *)
Definition answers_kept (r r' : FollowReads) : Prop :=
  forall o sh fp, dget (fr_shared r') o = Some sh -> sh_outcome sh = Some (Ok fp) ->
  exists sh0, dget (fr_shared r) o = Some sh0 /\ sh_outcome sh0 = Some (Ok fp).

Lemma answers_same r r' : fr_shared r' = fr_shared r -> answers_kept r r'.
Proof. intros E1 o sh fp. rewrite E1. by exists sh. Qed.

Lemma answers_fewer r fs r' : fewer r fs r' -> answers_kept r r'.
Proof.
  intros [_ H _] o sh fp [(sh0 & Hs0 & E1 & _)|[E1 _]]%H Eo; [|congruence].
  exists sh0. split; [done|congruence].
Qed.

(** One follower moves; the reads hold no new page. *)
Lemma current_move s i f f' r' :
  current_ok s -> dget (fw_followers s) i = Some f -> fo_key f' = fo_key f ->
  answers_kept (fw_reads s) r' ->
  (forall k fp, dget (fr_pages r') k = Some fp ->
     dget (fr_pages (fw_reads s)) k = Some fp \/
     revision_of s (rk_key k) = Some (rk_revision k) /\
     (rk_key k ∉ fw_owed s -> current (fw_world s) (rk_key k) fp)) ->
  (forall k o sh fp, fo_status f' = Reading k o -> dget (fr_shared r') o = Some sh ->
     sh_outcome sh = Some (Ok fp) -> quiet_at s (fo_key f) (rk_revision k) ->
     current (fw_world s) (fo_key f) fp) ->
  (forall revision, idles_at revision (fo_status f') -> quiet_at s (fo_key f) revision ->
     caught_up (fw_world s) f') ->
  (forall revision, local_revision (fo_status f') = Some revision ->
     exists now, revision_of s (fo_key f) = Some now /\ revision <= now) ->
  current_ok (put_follower i f' (set_reads r' s)).
Proof.
  intros [H1 H2 H3 H4 H5] Hf Hk Hfew Hp Hr Hi Hl'. split; simpl.
  - intros k fp [Hkp|[E _]]%Hp; [by eapply H1|done].
  - intros k fp [Hkp|[_ E]]%Hp; [by eapply H2|done].
  - intros j g k o sh fp Hg Est Hsh Eo Hq. rewrite dget_dset in Hg. case_decide.
    + injection Hg as <-. rewrite Hk in Hq |- *. by eapply Hr.
    + destruct (Hfew _ _ _ Hsh Eo) as (s0 & Hs0 & E1). by eapply (H3 j g k o s0).
  - intros j g revision Hg Hid Hq. rewrite dget_dset in Hg. case_decide.
    + injection Hg as <-. rewrite Hk in Hq. by eapply Hi.
    + by eapply (H4 j g).
  - intros j g revision Hg Hlr. rewrite dget_dset in Hg. case_decide.
    + injection Hg as <-. rewrite Hk. by eapply Hl'.
    + by eapply (H5 j g).
Qed.

(** Where a page leaves its follower. *)
Lemma received_status s f revision fp r ms f' r' :
  received s f revision fp r ms f' r' ->
  (forall k o, fo_status f' <> Reading k o) /\
  (forall rev, local_revision (fo_status f') = Some rev -> rev = revision) /\
  (forall rev, idles_at rev (fo_status f') -> rev = revision /\ ms = []).
Proof.
  intros [_ -> _ _ _]. cbn [set_status fo_status].
  set (status := settle revision (turn_page fp (batch_of ms) f).1 s).
  assert (status = AtTop \/ exists deadline, status = Waiting revision deadline) as Hst'.
  { unfold status, settle. destruct (negb _); [by left|]. destruct (fo_previous_page _); [|by left].
    destruct (_ <=? 0); [by left|right; by eexists]. }
  assert (ms <> [] -> (turn_page fp (batch_of ms) f).2 = true /\ batch_of ms <> []) as Hms
    by (by destruct ms).
  clearbody status. destruct (turn_page fp (batch_of ms) f).2.
  - split; [done|]. split; [by intros rev [= ->]|]. intros rev [[= E1 ->]|[dl E1]]; [|done].
    split; [done|]. apply negb_false_iff, bool_decide_eq_true in E1.
    destruct (decide (ms = [])) as [|Hne]; [done|]. by destruct (Hms Hne).
  - split; [by destruct Hst' as [->|[dl ->]]|].
    split; [by destruct Hst' as [->|[dl ->]]; intros rev [= ->]|].
    intros rev Hrev. split.
    + destruct Hst' as [->|[dl ->]]; [by destruct Hrev as [?|[? ?]]|].
      destruct Hrev as [?|[? [= ->]]]; done.
    + destruct (decide (ms = [])) as [|Hne]; [done|]. by destruct (Hms Hne).
Qed.

(** A page that is current leaves a follower that idles with nothing to see. *)
Lemma current_received s i f revision fp r ms f' r' now :
  current_ok s -> dget (fw_followers s) i = Some f ->
  answers_kept (fw_reads s) r' ->
  received s f revision fp r ms f' r' ->
  (forall k p, dget (fr_pages r) k = Some p -> dget (fr_pages (fw_reads s)) k = Some p) ->
  (quiet_at s (fo_key f) revision -> current (fw_world s) (fo_key f) fp) ->
  revision_of s (fo_key f) = Some now -> revision <= now ->
  current_ok (put_follower i f' (set_reads r' s)).
Proof.
  intros Hok Hf Hfew Hrc Hpages Hcur Hnow Hle. pose proof Hrc as [Hev Ef' Hp _ Hempty].
  assert (fo_key f' = fo_key f) as Hk by (by rewrite Ef').
  assert (fo_cursor f' = fo_cursor f + zlen ms) as Hc
    by (rewrite Ef'; by apply (turn_cursor _ _ _ _ Hev)).
  pose proof (received_status _ _ _ _ _ _ _ _ Hrc) as (Hnr & Hloc & Hid).
  eapply current_move; try done.
  - intros k p [Hkp|(-> & E1 & E2 & E3)]%Hp; [left; by apply Hpages|right].
    rewrite E1, E2. split; [done|]. intros Ho. apply Hcur. by split.
  - intros k o sh fp' Est. by destruct (Hnr k o).
  - intros rev Hidle Hq. destruct (Hid rev Hidle) as [-> ->]. destruct (Hcur Hq) as (t & Ht & Htail).
    exists t. rewrite Hk, Hc. split; [done|]. specialize (Hempty eq_refl). unfold zlen at 2. simpl. lia.
  - intros rev ->%Hloc. by exists now.
Qed.

(** The same follower where it idles not and reads nothing, and revisions that stay. *)
Lemma current_put s changes i f' r' :
  current_ok s ->
  (forall k rev, revision_of s k = Some rev -> revision_of (set_changes changes s) k = Some rev) ->
  answers_kept (fw_reads s) r' ->
  (forall k fp, dget (fr_pages r') k = Some fp -> dget (fr_pages (fw_reads s)) k = Some fp) ->
  local_revision (fo_status f') = None ->
  current_ok (put_follower i f' (set_reads r' (set_changes changes s))).
Proof.
  intros [H1 H2 H3 H4 H5] Hrev Hfew Hp Hno.
  assert (forall rev, ~ idles_at rev (fo_status f')) as Hnoidle.
  { intros rev [E1|[dl E1]]; by rewrite E1 in Hno. }
  assert (forall f rev now, revision_of s (fo_key f) = Some now ->
    quiet_at (put_follower i f' (set_reads r' (set_changes changes s))) (fo_key f) rev ->
    quiet_at s (fo_key f) rev) as Hquiet.
  { intros f rev now Hnow [Hq Ho]. split; [|done]. specialize (Hrev _ _ Hnow). unfold revision_of in *.
    simpl in *. congruence. }
  split; simpl.
  - intros k fp Hk%Hp. apply (Hrev _ _ (H1 _ _ Hk)).
  - intros k fp Hk%Hp. by eapply H2.
  - intros j g k o sh fp Hg Est Hsh Eo Hq. rewrite dget_dset in Hg. case_decide.
    { injection Hg as <-. by rewrite Est in Hno. }
    destruct (H5 j g (rk_revision k) Hg) as (now & Hnow & _); [by rewrite Est|].
    destruct (Hfew _ _ _ Hsh Eo) as (s0 & Hs0 & E1).
    eapply (H3 j g k o s0); try done. by eapply Hquiet.
  - intros j g revision Hg Hid Hq. rewrite dget_dset in Hg. case_decide.
    { injection Hg as <-. by destruct (Hnoidle revision). }
    destruct (H5 j g revision Hg) as (now & Hnow & _); [by destruct Hid as [->|[dl ->]]|].
    eapply (H4 j g); try done. by eapply Hquiet.
  - intros j g revision Hg Hlr. rewrite dget_dset in Hg. case_decide.
    { injection Hg as <-. congruence. }
    destruct (H5 j g revision Hg Hlr) as (now & Hnow & Hle). exists now. split; [by apply Hrev|done].
Qed.

Lemma current_ended s i f outcome r' :
  current_ok s -> answers_kept (fw_reads s) r' ->
  (forall k fp, dget (fr_pages r') k = Some fp -> dget (fr_pages (fw_reads s)) k = Some fp) ->
  current_ok (end_follower i f outcome (set_reads r' s)).
Proof.
  intros Hok Hfew Hp.
  apply (current_put s (dupd (fw_changes s) (fo_key f) drop_follower) i
    (set_status (Ended outcome) f) r'); try done.
  intros k rev. unfold revision_of. cbn [set_changes fw_changes]. rewrite dget_dupd.
  case_decide; [|done]. subst. by destruct (dget (fw_changes s) (fo_key f)).
Qed.

Lemma current_top s i f :
  current_ok s -> current_ok (put_follower i (set_status AtTop f) s).
Proof.
  intros Hok. assert (put_follower i (set_status AtTop f) s =
    put_follower i (set_status AtTop f) (set_reads (fw_reads s) (set_changes (fw_changes s) s)))
    as -> by by destruct s.
  apply current_put; try done. by apply answers_same.
Qed.

(** One generation moves on: its pages go, and its followers are behind or gone. *)
Lemma current_moved_on s key changes r' owed :
  current_ok s ->
  (forall k, k <> key -> dget changes k = dget (fw_changes s) k /\
                         (k ∉ owed -> k ∉ fw_owed s)) ->
  fr_shared r' = fr_shared (fw_reads s) ->
  (forall k fp, dget (fr_pages r') k = Some fp ->
     dget (fr_pages (fw_reads s)) k = Some fp /\ rk_key k <> key) ->
  (forall i f rev, dget (fw_followers s) i = Some f -> fo_key f = key ->
     local_revision (fo_status f) = Some rev ->
     exists now, fc_revision <$> dget changes key = Some now /\ rev < now) ->
  current_ok (set_owed owed (set_reads r' (set_changes changes s))).
Proof.
  intros [H1 H2 H3 H4 H5] Hk Hsh Hp Hbehind. unfold quiet_at in *.
  assert (forall i f rev, dget (fw_followers s) i = Some f ->
    local_revision (fo_status f) = Some rev -> fo_key f = key ->
    revision_of (set_changes changes s) (fo_key f) <> Some rev) as Hnot.
  { intros i f rev Hf Hlr Hfk. destruct (Hbehind _ _ _ Hf Hfk Hlr) as (now & Hnow & Hlt).
    unfold revision_of. simpl. rewrite Hfk, Hnow. intros [= E1]. lia. }
  assert (forall k, k <> key -> revision_of (set_changes changes s) k = revision_of s k) as Hsame.
  { intros k Hne. unfold revision_of. simpl. by destruct (Hk k Hne) as [-> _]. }
  split; simpl; rewrite ?Hsh.
  - intros k fp [Hkp Hne]%Hp. unfold revision_of. simpl. rewrite (proj1 (Hk _ Hne)).
    exact (H1 _ _ Hkp).
  - intros k fp [Hkp Hne]%Hp Ho. eapply H2; [done|]. by apply Hk.
  - intros i f k o sh fp Hf Est Hs Eo [Hr Ho].
    assert (fo_key f <> key) as Hne by (intros ?; eapply (Hnot i f); [done|by rewrite Est|done|exact Hr]).
    eapply H3; try done. split; [|by apply Hk]. by rewrite <-Hsame.
  - intros i f revision Hf Hid [Hr Ho]. assert (fo_key f <> key) as Hne.
    { intros ?. eapply (Hnot i f); [done|by destruct Hid as [->|[dl ->]]|done|exact Hr]. }
    eapply H4; try done. split; [|by apply Hk]. by rewrite <-Hsame.
  - intros i f revision Hf Hlr. destruct (decide (fo_key f = key)) as [E1|Hne].
    + destruct (Hbehind _ _ _ Hf E1 Hlr) as (now & Hnow & Hlt). exists now. unfold revision_of. simpl.
      rewrite E1. split; [done|lia].
    + destruct (H5 _ _ _ Hf Hlr) as (now & Hnow & Hle). exists now. split; [|done].
      unfold revision_of in *. simpl. by rewrite (proj1 (Hk _ Hne)).
Qed.

(** *** What each step keeps *)

Lemma derived_tail fp0 fp : derived fp0 fp -> cp_tail_seq (fp_page fp) = cp_tail_seq (fp_page fp0).
Proof. by intros [->|(? & ? & ? & _ & _ & _ & ->)]. Qed.

Lemma current_derived w key fp0 fp : derived fp0 fp -> current w key fp0 -> current w key fp.
Proof. intros Hd (t & Ht & E1). exists t. split; [done|]. by rewrite (derived_tail _ _ Hd). Qed.

Lemma current_pull rd s i f s' :
  follow_ok l poll rd s -> current_ok s -> dget (fw_followers s) i = Some f ->
  fo_status f = AtTop -> pull st i f s = Some s' -> current_ok s'.
Proof.
  intros Hok Hcur Hf Est Hp.
  destruct (pull_ok l Hl poll st Hst rd s i f s' Hok Hpoll Hf Est Hp) as (_ & revision & Hrev & Hpull).
  destruct Hpull as [k fp0 fp r ms f' r' Hk Ekey Erev _ Hd Ht Hrc ->|o r' sh Hsh Eo Hfew Hpages ->].
  - pose proof Hrc as [_ _ _ Esh _].
    eapply (current_received s i f revision fp r ms f' r' revision); try done.
    + apply answers_same. by rewrite Esh, (tm_shared _ _ Ht).
    + apply Ht.
    + intros [_ Ho]. eapply current_derived; [done|]. rewrite <-Ekey in Ho |- *.
      by eapply (cu_pages _ Hcur).
  - eapply current_move; try done.
    + by eapply answers_fewer.
    + intros k fp Hk%Hpages. by left.
    + intros k o' sh' fp [= <- <-] Hsh' Eo'. congruence.
    + by intros rev [?|[dl ?]].
    + intros rev [= <-]. exists revision. split; [done|lia].
Qed.

Lemma current_answer rd s i f k o sh outcome :
  follow_ok l poll rd s -> current_ok s -> dget (fw_followers s) i = Some f ->
  fo_status f = Reading k o -> dget (fr_shared (fw_reads s)) o = Some sh ->
  sh_outcome sh = Some outcome ->
  current_ok (receive st i f (rk_revision k) outcome
                (set_reads (leave_read k o (fw_reads s)) s)).
Proof.
  intros Hok Hcur Hf Est Hsh Eo.
  pose proof (answers_fewer _ _ _ (fewer_leave (fw_reads s) (fw_followers s) k o)) as Hans.
  destruct (answer_ok l poll st Hst rd s i f k o sh outcome _ Hok Hpoll Hf Est Hsh Eo eq_refl) as [_ Ha].
  destruct Ha as [fp ms f' r' -> Hrc ->|e _ _ ->].
  - pose proof Hrc as [_ _ _ Esh _].
    destruct (cu_local _ Hcur i f (rk_revision k) Hf) as (now & Hnow & Hle); [by rewrite Est|].
    eapply (current_received s i f _ fp _ ms f' r' now); try done.
    + intros o' s'. rewrite Esh. apply Hans.
    + by rewrite leave_pages.
    + intros Hq. by eapply (cu_reading _ Hcur).
  - apply current_ended; [done|done|]. by rewrite leave_pages.
Qed.

(** A page is read of the world as it is. *)
Lemma current_run rd s o r w :
  follow_ok l poll rd s -> current_ok s ->
  run_read poll (fw_now s) o (fw_reads s) (fw_world s) = Some (r, w) ->
  current_ok (set_reads r (set_world w s)).
Proof.
  intros Hok Hcur Hr.
  destruct (run_ok l Hl poll rd s o r w Hok Hr)
    as (_ & _ & Hthr & Hpages & sh0 & outcome & Hsh0 & _ & Hdone & Hall).
  assert (logs_kept (fw_world s) w) as Hkept
    by (intros key t [H1 H2]; exists t; split; [split; [by rewrite Hthr|done]|done]).
  destruct Hcur as [H1 H2 H3 H4 H5]. split; simpl; rewrite ?Hpages; try done.
  - intros k fp Hk Ho. eapply current_kept; [done|by eapply H2].
  - intros i f k o' sh fp Hf Est Hsh Eo Hq. eapply current_kept; [done|].
    rewrite Hall in Hsh. case_decide as Hoo; [|by eapply H3]. injection Hsh as <-. subst o'.
    simpl in Eo. injection Eo as ->. unfold read_done in Hdone.
    destruct (hs_reader _ _ _ (fo_shares _ _ _ _ Hok) _ _ _ _ Hf Est) as (Hk & _ & sh' & Hsh' & Hreq).
    assert (sh' = sh0) as -> by congruence. rewrite Hreq in Hdone. simpl in Hdone. by rewrite Hk in Hdone.
  - intros i f revision Hf Hid Hq. eapply caught_up_kept; [done|by eapply H4].
Qed.

Lemma current_kept_world s w' :
  current_ok s -> logs_kept (fw_world s) w' -> current_ok (set_world w' s).
Proof.
  intros Hok Hk. assert (set_world w' s = set_owed (fw_owed s) (set_world w' s)) as -> by done.
  apply current_world; [done|done|]. intros key t _. apply Hk.
Qed.

Lemma current_commit rd s change :
  follow_ok l poll rd s -> current_ok s -> whole (Commit change) s ->
  current_ok (commit change s).
Proof.
  intros Hok Hcur Hw. unfold commit. simpl in Hw.
  destruct (apply_ledger_change change (fw_world s)) as [[result|e] w'] eqn:Ea.
  2: { by apply current_kept_world. }
  assert (forall key t, stored (fw_world s) key t ->
    (exists t', stored w' key t' /\ log t' = log t) \/
    re_key result = Some key /\ tells_followers (re_kind result) = true) as Htold.
  { intros key t. eapply commit_told; [|exact Ea].
    by apply (reachable_system l Hl), client_reachable_reachable, (fo_reach _ _ _ _ Hok). }
  destruct (re_key result) as [key|].
  - destruct (tells_followers (re_kind result)).
    + apply current_world; [done| |].
      * by intros k [_ ?]%not_elem_of_cons.
      * intros k t [Hne _]%not_elem_of_cons Ht. destruct (Htold _ _ Ht) as [?|[[= ->] _]]; done.
    + apply current_kept_world; [done|]. intros k t Ht. by destruct (Htold _ _ Ht) as [?|[_ ?]].
  - apply current_kept_world; [done|]. intros k t Ht. by destruct (Htold _ _ Ht) as [?|[? _]].
Qed.

Lemma remove_one_other key k owed : k <> key -> k ∉ remove_one key owed -> k ∉ owed.
Proof.
  intros Hne. induction owed as [|k0 owed IH]; simpl; [done|]. case_decide as Hk; [subst|].
  - intros Ho. by apply not_elem_of_cons.
  - intros [H1 H2]%not_elem_of_cons. apply not_elem_of_cons. split; [done|by apply IH].
Qed.

Lemma discard_pages key r k fp :
  dget (fr_pages (discard key r)) k = Some fp ->
  dget (fr_pages r) k = Some fp /\ rk_key k <> key.
Proof.
  intros Hk. split; [by apply (tm_pages _ _ (discard_trimmed key r))|by eapply discard_page].
Qed.

Lemma current_notify s key s' : current_ok s -> notify key s = Some s' -> current_ok s'.
Proof.
  intros Hok. unfold notify. case_decide; [|done]. intros Hs'%Some_inj. subst s'.
  set (owed := remove_one key (fw_owed s)).
  assert (forall k, k <> key -> k ∉ owed -> k ∉ fw_owed s) as Howed
    by (intros k; apply remove_one_other).
  change (fw_changes (set_owed owed s)) with (fw_changes s).
  destruct (dmem (fw_changes s) key) eqn:Em.
  - change (wake_followers key (set_owed owed s)) with
      (set_owed owed (set_reads (discard key (fw_reads s))
         (set_changes (dupd (fw_changes s) key wake_change) s))).
    apply (current_moved_on s key); try done.
    + intros k Hne. rewrite dget_dupd, decide_False by done. split; [done|by apply Howed].
    + apply discard_trimmed.
    + intros k fp. apply discard_pages.
    + intros i f rev Hf Hk Hlr. destruct (cu_local _ Hok i f rev Hf Hlr) as (now & Hnow & Hle).
      rewrite Hk in Hnow. unfold revision_of in Hnow. exists (now + 1).
      rewrite dget_dupd, decide_True by done. destruct (dget (fw_changes s) key); [|done].
      injection Hnow as <-. split; [done|simpl; lia].
  - assert (set_owed owed s =
      set_owed owed (set_reads (fw_reads s) (set_changes (fw_changes s) s))) as -> by by destruct s.
    assert (revision_of s key = None) as Hno
      by (unfold revision_of; apply dmem_false in Em; by rewrite Em).
    apply (current_moved_on s key); try done.
    + intros k Hne. split; [done|by apply Howed].
    + intros k fp Hk. split; [done|]. intros E1. pose proof (cu_revision _ Hok _ _ Hk) as Hr. congruence.
    + intros i f rev Hf Hk Hlr. destruct (cu_local _ Hok i f rev Hf Hlr) as (now & Hnow & Hle). congruence.
Qed.

Lemma current_close rd s key c :
  follow_ok l poll rd s -> current_ok s -> dget (fw_changes s) key = Some c ->
  fc_closing c = true -> current_ok (close_follow_change key s).
Proof.
  intros Hok Hcur Hc Hcl.
  destruct (changes_close _ _ key c (fo_changes _ _ _ _ Hok) Hc Hcl) as [_ Hno].
  change (close_follow_change key s) with (set_owed (fw_owed s)
    (set_reads (discard key (fw_reads s)) (set_changes (ddel (fw_changes s) key) s))).
  apply (current_moved_on s key); try done.
  - intros k Hne. by rewrite dget_ddel_ne.
  - apply discard_trimmed.
  - intros k fp. apply discard_pages.
  - intros i f rev Hf Hk Hlr. destruct (Hno i f Hf); [|done]. unfold is_live.
    by destruct (fo_status f).
Qed.

Lemma current_join s i key after s' :
  current_ok s -> join i key after s = Some s' -> current_ok s'.
Proof.
  intros Hok. unfold join. destruct (_ || _ || _); [done|]. intros Hs'%Some_inj. subst s'.
  match goal with |- current_ok (put_follower i ?f (set_changes ?c s)) =>
    change (put_follower i f (set_changes c s)) with
      (put_follower i f (set_reads (fw_reads s) (set_changes c s))) end.
  apply current_put; try done; [|by apply answers_same]. intros k rev. unfold revision_of.
  cbn [set_changes fw_changes]. rewrite dget_dset. case_decide; [|done]. subst.
  by destruct (dget (fw_changes s) k).
Qed.

(** A follower goes on after a page without events, or without a wait. *)
Lemma current_resume s i f ev rev :
  current_ok s -> dget (fw_followers s) i = Some f -> fo_status f = AtYield ev rev ->
  current_ok (put_follower i (set_status (if ev then AtTop else settle rev f s) f) s).
Proof.
  intros Hok Hf Est. destruct ev; [by apply current_top|].
  assert (settle rev f s = AtTop \/ exists dl, settle rev f s = Waiting rev dl) as Hset.
  { unfold settle. destruct (negb _); [by left|]. destruct (fo_previous_page f); [|by left].
    destruct (_ <=? 0); [by left|right; by eexists]. }
  destruct Hset as [->|[dl ->]]; [by apply current_top|].
  assert (put_follower i (set_status (Waiting rev dl) f) s =
    put_follower i (set_status (Waiting rev dl) f) (set_reads (fw_reads s) s)) as -> by by destruct s.
  eapply current_move; try done; [by apply answers_same|by left| |].
  - intros rev' Hid Hq. assert (rev' = rev) as -> by (by destruct Hid as [?|[? [= -> _]]]).
    eapply (cu_idle _ Hok i f); [done|by left; rewrite Est|done].
  - intros rev' [= <-]. eapply (cu_local _ Hok i f); [done|by rewrite Est].
Qed.

Lemma current_step rd s action s' :
  follow_ok l poll rd s -> current_ok s -> whole action s -> perform st poll action s = Some s' ->
  current_ok s'.
Proof.
  intros Hok Hcur Hw. unfold perform, step_follower.
  assert (forall i f s1 a, dget (fw_followers s) i = Some f -> advance st a i f s = Some s1 ->
    current_ok s1) as Hadv.
  { intros i f s1 a Hf. unfold advance. set (t := fo_status f).
    assert (fo_status f = t) as Est by done. clearbody t.
    destruct (a i); destruct t as [|k o|ev rev|rev dl|out]; try done;
      try (intros Hs1%Some_inj; subst s1).
    - intros Hp. by eapply current_pull.
    - destruct (dget (fr_shared (fw_reads s)) o) as [[req [outcome|] n]|] eqn:Esh; try done.
      intros Hr%Some_inj. subst s1. by eapply current_answer.
    - by apply current_resume.
    - destruct (_ || _); [|done]. intros Hs1%Some_inj. subst s1. by apply current_top.
    - rewrite <-(set_reads_same s). by apply current_ended; [|apply answers_same|].
    - apply current_ended; [done|by apply (answers_fewer _ (fw_followers s)), fewer_leave|]. by rewrite leave_pages.
    - rewrite <-(set_reads_same s). by apply current_ended; [|apply answers_same|].
    - rewrite <-(set_reads_same s). by apply current_ended; [|apply answers_same|]. }
  assert (forall i a, match dget (fw_followers s) i with
      Some f => advance st a i f s | None => None end = Some s' -> current_ok s') as Hstep.
  { intros i a. destruct (dget _ i) as [f|] eqn:Hf; [|done]. by apply Hadv. }
  destruct action as [i key after|i|o|i|i|i|i|key|change|key|d]; try by apply Hstep.
  - by apply current_join.
  - destruct (run_read _ _ _ _ _) as [[r w]|] eqn:Er; [|done]. intros [= <-]. by eapply current_run.
  - destruct (dget (fw_changes s) key) as [c|] eqn:Hc; [|done].
    destruct (fc_closing c) eqn:Ecl; [|done]. intros [= <-]. by eapply current_close.
  - intros Hs'%Some_inj. subst s'. by eapply current_commit.
  - by apply current_notify.
  - destruct (d <? 0); [done|]. intros [= <-]. by destruct Hcur; split.
Qed.

(** Whatever the store and its followers do, while the peers of the store append nothing. *)
Lemma current_reachable s :
  (forall w w', others w w' -> logs_kept w w') ->
  follow_reachable l st poll whole others s -> exists rd, follow_ok l poll rd s /\ current_ok s.
Proof.
  intros Hkept (w & now & Hr & Hsteps).
  assert (exists rd, follow_ok l poll rd (follow_start w now) /\ current_ok (follow_start w now))
    as Hok.
  { exists (fun _ => O). split; [by apply start_ok|by split]. }
  induction Hsteps as [s|s1 s2 s3 [action Hadm Hw Hp|w1 Ho ->] _ IH]; [done| |]; apply IH;
    destruct Hok as (rd & Hok & Hcur).
  - destruct (step_ok l Hl poll st Hst rd s1 action s2 Hpoll Hok Hadm Hp) as [rd' Hok'].
    exists rd'. split; [done|]. exact (current_step rd s1 action s2 Hok Hcur Hw Hp).
  - exists rd. split.
    + assert (follow_ok l poll rd (set_now (fw_now s1) (set_world w1 s1))) as H'; [|by destruct s1].
      apply (world_ok l Hl); [done|by apply Hothers|lia].
    + apply current_kept_world; [done|by apply Hkept].
Qed.

(** *** What a follower has been given *)

Lemma handed_between rd w now f t :
  system_ok l w -> follower_ok poll rd w now f -> stored w (fo_key f) t ->
  handed f = map reread_event (between (fo_after_seq f) (fo_cursor f) (log t)).
Proof.
  intros Hs Hf Ht. pose proof (fk_range _ _ _ _ _ Hf) as Hrange.
  rewrite (between_slice l (thread_key (fo_key f))); [|by apply (stored_ok l w)|lia..].
  rewrite (fk_log _ _ _ _ _ Hf t Ht). pose proof (fk_count _ _ _ _ _ Hf) as Hc.
  unfold py_slice, slice_bound. rewrite !(proj2 (Z.ltb_ge _ 0)) by lia.
  rewrite <-map_part. unfold zlen in Hc. f_equal. rewrite take_drop_commute. do 2 f_equal. lia.
Qed.

Lemma numbered_seqZ k n xs : numbered 1 k xs -> zlen xs = n -> xs = seqZ k n.
Proof.
  intros Hn <-. apply list_eq. intros i. destruct (xs !! i) as [x|] eqn:Hx.
  - rewrite (Hn _ _ Hx). symmetry. apply lookup_seqZ. apply lookup_lt_Some in Hx. unfold zlen. lia.
  - symmetry. apply lookup_ge_None. rewrite length_seqZ. apply lookup_ge_None in Hx. unfold zlen. lia.
Qed.
End followers.

(** ** The theorems *)

Section props.
Context {hash : ScopeHash} {json : TraceJson} {laws : TraceJsonLaws} {clock : TraceClock}.
Context {codec : TraceCodec} {codec_laws : TraceCodecLaws} {fresh : FreshUuids}.

(** Calls that append to no log and delete none. *)
Definition quiet_calls (l : TraceLimits) (w w' : World) : Prop :=
  client_calls l w w' /\ logs_kept w w'.

(** C23: in every history of a store, its followers and the other clients of its backend, a
    follower has been handed exactly the events of the log between where it started and its
    cursor, decoded, each once and in order, and its last update names that cursor; the
    times of its updates are readings of the storage clock in the order in which they were
    taken; and it ends by itself only with TraceThreadNotFound, when its generation is gone. *)
Theorem follower_is_handed_the_log (l : TraceLimits) (st : DurableTraceStore) (poll : Z)
    (s : FollowWorld) (i : nat) (f : Follower) :
  TraceLimits_valid l = true -> so_limits st = l -> 0 <= poll ->
  follow_reachable l st poll anything (client_calls l) s ->
  dget (fw_followers s) i = Some f ->
  (forall t, stored (fw_world s) (fo_key f) t ->
     handed f = map reread_event (between (fo_after_seq f) (fo_cursor f) (log t))) /\
  map ev_trace_seq (handed f) =
    seqZ (fo_after_seq f + 1) (fo_cursor f - fo_after_seq f) /\
  (forall up, last (fo_updates f) = Some up -> up_as_of_seq up = fo_cursor f) /\
  (exists ns, StronglySorted le ns /\ map up_observed_at (fo_updates f) = map utc_now ns) /\
  (forall e, fo_status f = Ended (Some e) ->
     e = TraceThreadNotFound /\ forall t, ~ stored (fw_world s) (fo_key f) t).
Proof.
  intros Hl Hst Hpoll Hr Hf.
  destruct (reachable_ok l Hl poll st Hst anything _ s Hpoll ltac:(done) Hr) as [rd Hok].
  pose proof (fo_followers _ _ _ _ Hok i f Hf) as Hfo.
  split; [|split; [|split; [|split]]]; try by apply Hfo.
  - intros t. eapply handed_between; [|done].
    by apply (reachable_system l Hl), client_reachable_reachable, (fo_reach _ _ _ _ Hok).
  - apply numbered_seqZ; [by apply Hfo|]. rewrite zlen_map. by apply Hfo.
  - destruct (fk_times _ _ _ _ _ Hfo) as (ns & H1 & H2 & _). by exists ns.
Qed.

(** C24: whatever a follower is doing, and however late its store hears of a commit, if it is
    behind the log then once the poll interval has passed its own steps, with the read it
    waits for, bring it further: nobody else has to wake it. *)
Theorem follower_is_served (l : TraceLimits) (st : DurableTraceStore) (poll : Z)
    (s : FollowWorld) (i : nat) (f : Follower) (t : MemoryThread) :
  TraceLimits_valid l = true -> so_limits st = l -> 0 <= poll ->
  follow_reachable l st poll anything (client_calls l) s ->
  dget (fw_followers s) i = Some f -> is_live f = true ->
  stored (fw_world s) (fo_key f) t -> fo_cursor f < zlen (log t) ->
  exists actions s' f', forallb (own_step i) actions = true /\
    performs st poll (Tick poll :: actions) s = Some s' /\
    dget (fw_followers s') i = Some f' /\ fo_cursor f < fo_cursor f'.
Proof.
  intros Hl Hst Hpoll Hr Hf Hlive Ht Hlt.
  destruct (reachable_ok l Hl poll st Hst anything _ s Hpoll ltac:(done) Hr) as [rd Hok].
  assert (follow_ok l poll rd (set_now (fw_now s + poll) s)) as Hok'.
  { assert (follow_ok l poll rd (set_now (fw_now s + poll) (set_world (fw_world s) s))) as H;
      [|by destruct s]. apply (world_ok l Hl); [done|apply rtc_refl|lia]. }
  destruct (live_advances l Hl st Hst poll Hpoll rd (set_now (fw_now s + poll) s) i f t)
    as (actions & s' & f' & H1 & H2 & H3); try done.
  - intros key fp Hk. simpl in *.
    apply (pf_expires _ _ _ _ _ _ _ (po_facts _ _ _ _ _ _ _ (fo_pages _ _ _ _ Hok) _ _ Hk)).
  - intros revision deadline Est. simpl.
    by apply (fk_waiting _ _ _ _ _ (fo_followers _ _ _ _ Hok i f Hf) revision).
  - exists actions, s', f'. split; [done|]. split; [|done]. simpl.
    by rewrite (proj2 (Z.ltb_ge poll 0)) by done.
Qed.

(** C25: a follower that waits for a change, at the revision of its generation and with no
    wake-up on its way, has been handed the whole log after where it started - as long as
    the peers of the store, whose commits wake nobody here, neither append nor delete
    ([quiet_calls]), and no commit that raised has changed a log ([whole]). *)
Theorem waiting_follower_has_seen_all (l : TraceLimits) (st : DurableTraceStore) (poll : Z)
    (s : FollowWorld) (i : nat) (f : Follower) (revision deadline : Z) :
  TraceLimits_valid l = true -> so_limits st = l -> 0 <= poll ->
  follow_reachable l st poll whole (quiet_calls l) s ->
  dget (fw_followers s) i = Some f -> fo_status f = Waiting revision deadline ->
  revision_of s (fo_key f) = Some revision -> fo_key f ∉ fw_owed s ->
  exists t, stored (fw_world s) (fo_key f) t /\
    handed f = map reread_event (drop (Z.to_nat (fo_after_seq f)) (log t)).
Proof.
  intros Hl Hst Hpoll Hr Hf Est Hrev Ho.
  destruct (current_reachable l Hl st Hst poll Hpoll (quiet_calls l) ltac:(by intros w w' [? _]) s
    ltac:(by intros w w' [_ ?]) Hr) as (rd & Hok & Hcur).
  destruct (cu_idle _ Hcur i f revision Hf) as (t & Ht & Hend); [right; by exists deadline|done|].
  exists t. split; [done|]. pose proof (fo_followers _ _ _ _ Hok i f Hf) as Hfo.
  rewrite (fk_log _ _ _ _ _ Hfo t Ht), skipn_map. apply take_ge.
  rewrite length_map, length_drop. pose proof (fk_count _ _ _ _ _ Hfo) as Hc.
  pose proof (fk_range _ _ _ _ _ Hfo). unfold zlen in *. lia.
Qed.

(** C38: the pages a store keeps for its followers stay within 64 MiB, 8192 records and 1024
    pages, its counters are those of the pages, and every read that is shared has as many
    waiters as it counts, and at least one. *)
Theorem read_cache_is_bounded (l : TraceLimits) (st : DurableTraceStore) (poll : Z)
    (s : FollowWorld) :
  TraceLimits_valid l = true -> so_limits st = l -> 0 <= poll ->
  follow_reachable l st poll anything (client_calls l) s ->
  let r := fw_reads s in
  dsum page_bytes (fr_pages r) <= MAX_CACHED_BYTES /\
  dsum page_count (fr_pages r) <= MAX_CACHED_RECORDS /\
  zlen (fr_pages r) <= MAX_CACHED_PAGES /\
  fr_cached_bytes r = dsum page_bytes (fr_pages r) /\
  fr_cached_records r = dsum page_count (fr_pages r) /\
  forall o sh, dget (fr_shared r) o = Some sh ->
    sh_waiters sh = count (waits_for o) (dvals (fw_followers s)) /\ 1 <= sh_waiters sh.
Proof.
  intros Hl Hst Hpoll Hr r.
  destruct (reachable_ok l Hl poll st Hst anything _ s Hpoll ltac:(done) Hr) as [rd Hok].
  destruct (fo_counted _ _ _ _ Hok) as [_ Hb Hc].
  destruct (proj1 (over_bounds_false r) (fo_bounds _ _ _ _ Hok)) as (H1 & H2 & H3).
  unfold r in *. rewrite <-Hb, <-Hc. repeat (split; [done|]).
  intros o sh. by apply (hs_count _ _ _ (fo_shares _ _ _ _ Hok)).
Qed.
End props.

(** ** Witnesses

    A follower of the generation that TraceStoreProps writes to. *)

Section histories.
Context {hash : ScopeHash} {json : TraceJson} {clock : TraceClock} {codec : TraceCodec}.
Context (l : TraceLimits) (st : DurableTraceStore) (poll : Z).
Context (permits : FollowAction -> FollowWorld -> Prop) (others : World -> World -> Prop).

Definition joins_or_commits (action : FollowAction) : bool :=
  match action with Join _ _ _ | Commit _ => true | _ => false end.

Lemma reachable_performs actions s s' :
  (forall a s, joins_or_commits a = false -> permits a s) ->
  follow_reachable l st poll permits others s ->
  forallb (fun a => negb (joins_or_commits a)) actions = true ->
  performs st poll actions s = Some s' -> follow_reachable l st poll permits others s'.
Proof.
  intros Hp. revert s. induction actions as [|a actions IH]; intros s Hr; simpl; [by intros _ [= <-]|].
  intros [Ha Has]%andb_true_iff. apply negb_true_iff in Ha.
  destruct (perform st poll a s) as [s1|] eqn:E1; [|done]. apply IH; [|done].
  destruct Hr as (w & now & Hw & Hs). exists w, now. split; [done|]. eapply rtc_r; [done|].
  eapply step_action; [|by apply Hp|exact E1]. by destruct a.
Qed.

Lemma reachable_join i key after w now s' :
  client_reachable l w -> drawn_before key w -> permits (Join i key after) (follow_start w now) ->
  perform st poll (Join i key after) (follow_start w now) = Some s' ->
  follow_reachable l st poll permits others s'.
Proof.
  intros Hw Hk Hp E1. exists w, now. split; [done|]. eapply rtc_once, step_action; [|done|exact E1].
  done.
Qed.
End histories.

Definition ex_poll : Z := 5.
Definition ex_perform (actions : list FollowAction) (s : FollowWorld) : FollowWorld :=
  default s (performs ex_store ex_poll actions s).

(** It joins, reads both events, and waits. *)
Definition ex_joined : FollowWorld :=
  default (follow_start ex_appended 0)
    (perform ex_store ex_poll (Join 0 ex_generation 0) (follow_start ex_appended 0)).
Definition ex_waiting : FollowWorld :=
  ex_perform [Pull 0; RunRead 1; Receive 0; Resume 0; Pull 0] ex_joined.
Definition ex_follower (s : FollowWorld) : Follower :=
  default {| fo_key := ex_generation; fo_after_seq := 0; fo_cursor := 0;
             fo_active_run_ids := None; fo_previous_page := None; fo_updates := [];
             fo_status := AtTop |} (dget (fw_followers s) 0%nat).

Lemma ex_joined_reachable permits others :
  (forall i key after s, permits (Join i key after) s) ->
  follow_reachable ex_limits ex_store ex_poll permits others ex_joined.
Proof.
  intros Hp. eapply (reachable_join _ _ _ _ _ 0 ex_generation 0 ex_appended 0).
  - apply ex_appended_reachable.
  - exists 1%nat. split; [vm_compute; lia|by vm_compute].
  - apply Hp.
  - by vm_compute.
Qed.

Lemma ex_waiting_reachable permits others :
  (forall a s, (if a is Commit _ then False else True) -> permits a s) ->
  follow_reachable ex_limits ex_store ex_poll permits others ex_waiting.
Proof.
  intros Hp. eapply (reachable_performs _ _ _ _ _ [Pull 0; RunRead 1; Receive 0; Resume 0; Pull 0]
    ex_joined).
  - intros a s Ha. apply Hp. by destruct a.
  - apply ex_joined_reachable. intros. by apply Hp.
  - done.
  - by vm_compute.
Qed.

Lemma follower_is_handed_the_log_witness :
  (forall t, stored (fw_world ex_waiting) ex_generation t ->
     handed (ex_follower ex_waiting) = map reread_event (between 0 2 (log t))) /\
  map ev_trace_seq (handed (ex_follower ex_waiting)) = [1; 2].
Proof.
  destruct (follower_is_handed_the_log ex_limits ex_store ex_poll ex_waiting 0
    (ex_follower ex_waiting) eq_refl eq_refl ltac:(done)
    (ex_waiting_reachable _ _ (fun _ _ _ => I)) ltac:(by vm_compute)) as (H1 & H2 & _).
  split; [exact H1|exact H2].
Defined.

Lemma follower_is_served_witness :
  exists actions s' f', forallb (own_step 0) actions = true /\
    performs ex_store ex_poll (Tick ex_poll :: actions) ex_joined = Some s' /\
    dget (fw_followers s') 0%nat = Some f' /\ 0 < fo_cursor f'.
Proof.
  apply (follower_is_served ex_limits ex_store ex_poll ex_joined 0 (ex_follower ex_joined)
    (thread_of ex_appended) eq_refl eq_refl ltac:(done)
    (ex_joined_reachable _ _ (fun _ _ _ _ => I))).
  - by vm_compute.
  - by vm_compute.
  - apply ex_appended_stored.
  - by vm_compute.
Defined.

Lemma waiting_follower_has_seen_all_witness :
  exists t, stored (fw_world ex_waiting) ex_generation t /\
    handed (ex_follower ex_waiting) = map reread_event (drop 0 (log t)).
Proof.
  apply (waiting_follower_has_seen_all ex_limits ex_store ex_poll ex_waiting 0
    (ex_follower ex_waiting) 0 5 eq_refl eq_refl ltac:(done)).
  - apply ex_waiting_reachable. by intros [].
  - by vm_compute.
  - by vm_compute.
  - by vm_compute.
  - assert (fw_owed ex_waiting = []) as -> by (vm_compute; reflexivity). apply not_elem_of_nil.
Defined.

Lemma read_cache_is_bounded_witness :
  zlen (fr_pages (fw_reads ex_waiting)) = 2 /\
  dsum page_count (fr_pages (fw_reads ex_waiting)) <= MAX_CACHED_RECORDS /\
  fr_cached_records (fw_reads ex_waiting) = dsum page_count (fr_pages (fw_reads ex_waiting)).
Proof.
  destruct (read_cache_is_bounded ex_limits ex_store ex_poll ex_waiting eq_refl eq_refl
    ltac:(done) (ex_waiting_reachable _ _ (fun _ _ _ => I))) as (_ & H1 & _ & _ & H2 & _).
  split; [vm_compute; reflexivity|]. split; [exact H1|exact H2].
Defined.

(** The writer closes and the generation is deleted: the follower is woken, and ends. *)
Definition ex_told : FollowWorld :=
  ex_perform [Commit (writer_change ex_store CloseWriter ex_writer [] false true);
    Commit (delete_change ex_store ex_generation); Notify ex_generation; Notify ex_generation;
    Wake 0; Pull 0; RunRead 3; Receive 0] ex_waiting.

Example ex_follower_ends :
  fo_status (ex_follower ex_told) = Ended (Some TraceThreadNotFound).
Proof. vm_compute. reflexivity. Qed.
